(* ===== verification/_CoqProject ===== *)
-Q . S2P
Prelude.v
Layout.v
Mem.v
Kalloc.v
Vm.v
VmFacts.v
UvmFacts.v
UvmAlloc.v
UvmProps.v
State.v
Sched.v
Rely.v
Spin.v
Cow.v
CowFacts.v
CowFault.v
CowFork.v
Bytes.v
Bio.v
BioFacts.v
BioProps.v
Log.v
LogFacts.v
LogProps.v
Inode.v
Console.v
Fs.v
Mkfs.v
Pipe.v
PipeFacts.v
PipeProps.v
Codec.v
FsFacts.v
FileFacts.v
WriteFacts.v
FsProps.v
IcacheFacts.v
DirFacts.v
DirLink.v
DirProps.v
MkfsFacts.v
MkfsImage.v
MkfsProps.v
ConsoleProps.v
Kbd.v
Ata.v
Ide.v
IdeProps.v
Boot.v
Mp.v
Desc.v
Irq.v
IrqProps.v
File.v
FileProps.v
Trunc.v
Proc.v
Exec.v
ExecFacts.v
ExecProps.v
Syscall.v
Trap.v
CowTrap.v
CowExit.v
ForkFacts.v
Refine.v
CowProps.v
SyscallProps.v
User.v
Grep.v
Programs.v
UserProps.v
Sh.v
ShFacts.v
ShProps.v
ShRound.v
ShRun.v
ShRunProps.v
Umalloc.v
UmallocProps.v
