(* ===== verification/Prelude.v ===== *)
(** * xv6 with copy-on-write fork: a verification development

    The repository is the xv6 teaching kernel for the i386 with a [fork] that
    shares memory until it is written.  This library models the kernel as
    functions on an explicit machine state and proves what its parts promise
    each other and their users.

    ** The program and its model

    A kernel routine is a function of type [M S A]: from a state it returns a
    value and a new state ([Ok]), stops in a [panic] ([Panic]), gives up the CPU
    in [swtch] ([Switch], with the rest of the run as a function of the state in
    which it resumes), or uses up the fuel of a loop ([NoFuel]).  C integers are
    [Z] with their wrap-around written out ([u32], [s32], [s16]); memory is a
    function from addresses to bytes; structs are records, arrays are lists.
    Pointers to processes, buffers, inodes and files are indices into the tables
    that hold them; a null one, or one outside its table, ends the run.  Pointers
    into memory are addresses, and an access the MMU does not allow ends the run
    (address 0 is in user memory, so a null pointer may be allowed).

    Files by component (sources are under src/xv6; [_CoqProject] has them in
    dependency order):

    - [Prelude]: integers, bytes, the monad with its rule [wp] for routines that
      must return, tactics, and lemmas on lists.
    - [Layout]: param.h, memlayout.h, traps.h, mmu.h.  [KernelImage] is where the
      linker put the kernel.
    - [Mem]: string.c over byte-addressed memory, with the word-at-a-time path of
      [memset] (x86.h).
    - [Kalloc]: kalloc.c on the free list threaded through the pages.
    - [Vm], [VmFacts], [UvmFacts], [UvmAlloc], [UvmProps]: vm.c on page tables in
      memory, the address translation of the MMU, and user address spaces.
    - [State]: proc.h, buf.h, file.h, the kernel's globals as one record, and the
      locks of spinlock.c as flags ([acquire] and [release] panic as in the
      code).  [Spin]: spinlock.c on several CPUs, one access at a time, and
      [getcallerpcs].  [Sched]: [sched], [yield], [sleep], [wakeup], [kill],
      [allocproc], the scheduler (proc.c, swtch.S).
    - [Rely]: rely and guarantee specifications of threads that switch, and
      their composition under every interleaving.
    - [Cow], [CowFacts], [CowFault], [CowFork], [CowTrap], [CowExit],
      [ForkFacts], [Refine], [CowProps]: the copy-on-write routines of proc.c
      ([isshared], [copypage], [copystackpage], [trapCOW],
      [unlinkzombiesharedmemory]), [fork], [wait], the page-fault path of trap.c,
      and the refinement of the machine in which [fork] copies.
    - [Bytes], [Bio], [BioFacts], [BioProps]: memide.c and bio.c.
    - [Log], [LogFacts], [LogProps]: log.c, crashes and recovery.
    - [Inode], [Fs], [Codec], [FsFacts], [FileFacts], [WriteFacts], [FsProps],
      [IcacheFacts], [DirFacts], [DirLink], [DirProps]: fs.c; blocks, inodes and
      their cache, file contents, directories and path names.
    - [Mkfs], [MkfsFacts], [MkfsImage], [MkfsProps]: mkfs.c.
    - [Console], [ConsoleProps]: console.c.  [Kbd]: kbd.c with the tables of
      kbd.h.  [Pipe], [PipeFacts], [PipeProps]: pipe.c.  [File],
      [FileProps], [Trunc]: file.c, and what it makes of fs.c and log.c.
      [Proc]: the rest of proc.c.  [Exec], [ExecFacts],
      [ExecProps]: exec.c.  [Syscall], [SyscallProps]:
      syscall.c, sysproc.c, sysfile.c.  [Trap]: trap.c, trapasm.S.
    - [Ata]: the disk controller as the drivers see it, a type class of port
      operations and of the standard's laws, with an instance.  [Ide],
      [IdeProps]: ide.c over it.  [Boot]: bootmain.c over it.
    - [Mp]: mp.c and the firmware's tables.  [Desc]: segment and gate
      descriptors (mmu.h, [seginit], [switchuvm], [tvinit], [idtinit], [lgdt]).
      [Irq], [IrqProps]: picirq.c, ioapic.c, lapic.c, uart.c, timer.c and, of
      main.c, the steps of [main] about interrupts and [startothers].
    - [User], [Grep], [Programs], [UserProps]: ulib.c, printf.c, grep.c, cat.c,
      echo.c, wc.c, rm.c, mkdir.c, ln.c, kill.c, factorial.c and [fmtname] of
      ls.c.  [Umalloc], [UmallocProps]: umalloc.c.
    - [Sh], [ShFacts], [ShProps], [ShRound]: the parser of sh.c.  [ShRun],
      [ShRunProps]: [getcmd], [runcmd] and the main loop, with file descriptors.

    ** What the theorems show

    - Memory: [kalloc] and [kfree] are pop and push on a stack of whole pages,
      no page is lost or handed out twice; the page-table routines change exactly
      the mappings they name; [copyuvm], [allocuvm], [deallocuvm] and [freevm]
      create, extend, cut and return address spaces without leaks or overlap.
    - Copy-on-write: every run of forks, user stores with their page faults, and
      context switches is a run of a machine whose [fork] copies memory
      ([cow_refines]); [wait] returns exactly the pages that nobody else uses.
      Processes called "init" and "sh", whose forks copy, and all others may be
      mixed.  The hypotheses say what the code needs: no zombies and no holes in
      the process table, pages for the copies, and images of at most 4 MB, which
      is one page table.  Above 4 MB the code is wrong: a store can fault for
      ever ([large_image_stuck]), and [wait] can store at address 0
      ([unlink_null]).
    - Programs: [exec] puts the bytes of a program file where its headers say,
      with a guard page and the arguments on the stack, and gives the old pages
      back ([exec_replaces]); it needs an address space that is not shared, as
      one of the findings explains.  What is not a program changes nothing.
    - Locks: mutual exclusion on several CPUs; a call of [acquire] or [release]
      comes nearer to its end with every access unless another CPU has the lock,
      and ends after seven when none has.
    - Storage: the buffer cache is transparent and replaces least recently used
      buffers; a transaction is on disk as a whole or not at all after any number
      of crashes, also during recovery; [writei] and [readi] agree; a write
      through a descriptor is durable, and a crash leaves whole transactions of
      it; the last close of an unlinked file gives back all its storage; the
      block allocator is exact; path names resolve as the directories say; the
      image of [mkfs] is what the kernel reads.
    - Disk driver: whatever the interleaving of processes, interrupts and the
      controller, the requests take effect one at a time in the order of the
      queue ([ide_sequential]), and each is served ([ide_progress]), also when
      sleepers are killed.  The laws of [Ata] let a controller take its time
      before it asks for the data of a write.  [idestart] does not wait for it,
      so the two theorems have writes only on controllers that ask at once
      ([prompt]); on others a write is lost ([ide_write_lost]).
    - Pipes and the console: under every interleaving of a writer and a reader
      the pipe is a bounded queue and no wake-up is lost; the interrupt handler
      is a line editor; keystrokes on a US keyboard, whose layout is written down
      apart from the tables of kbd.h, arrive as the characters on the key caps.
    - Start: the boot loader loads the image the disk holds; the tables of the
      firmware are read correctly; segments and gates mean to the processor what
      the kernel wants; the controllers open exactly the intended lines; every
      other processor is started with its own stack.
    - User level: the shell reads lines of up to 99 bytes from input in any cut
      of its reads, parses what is printed and runs it as it means; the
      allocator keeps blocks apart; [grep] matches its regular language.
    - Errors: the panics and error results of the routines above, and places
      where the code does not do what it should (listed as findings).

    ** Bounds and fuel

    Loops that are not structural carry fuel computed from their bounds, and
    the theorems prove that it is enough: [wp] holds only of runs that return.
    Loops that poll hardware have no bound in the code; their fuel is an
    argument, and the theorems say that some amount is enough, and every larger
    one, if the device becomes ready after some number of reads.
    [Wakeups] bounds how often a waiting thread may be woken to find its
    condition false; the theorems hold for every number, and in [rely] running
    out of it stands for a thread that still waits.  The specifications of the
    cache, the log and the files ([wp]) are about runs of one thread with nobody
    else inside the same routine; those of pipes and of the disk driver are about
    interleavings.  The theorems on file writes are for files of any size up to
    the largest, on disks whose bitmap fits one block (4096 blocks; [mkfs] makes
    1024).  The disk writes sectors atomically and in order.

    ** Not modelled

    The assembly files except the trap frame of trapasm.S and the switch of
    swtch.S (bootasm.S, entry.S, entryother.S, initcode.S, usys.S), the boot page
    directory, the TLB, and the declarations of defs.h and user.h.  Devices are
    parameters: what they answer is unknown, what the theorems need of it is a
    hypothesis from their manuals.  The file system runs on the disk of
    memide.c, which has the interface of ide.c.  Outside [Spin] and [Ide] one CPU
    runs at a time: a routine runs from one [swtch] to the next without
    interruption, which is what the locks are for.  User programs run over
    system calls whose answers are parameters; init.c, zombie.c and the output of
    ls.c only pass on what the kernel returns.  The test programs (usertests.c,
    forktest.c, forksimple.c, stressfs.c) are not part of the system. *)

From stdpp Require Export base numbers list sets gmap strings.
From Stdlib Require Export ZArith Lia Bool.
From Stdlib Require Export Strings.Byte.

Open Scope Z_scope.

Declare Scope kernel_scope.
Delimit Scope kernel_scope with kernel.

(** ** 32-bit integers

    C's [uint] and [int] on the i386 are modelled as [Z] with the wrap-around
    written out: [u32] reduces to the unsigned range, [s32] to the signed one. *)

Definition u32 (z : Z) : Z := z mod 2 ^ 32.

Definition s32 (z : Z) : Z := (z + 2 ^ 31) mod 2 ^ 32 - 2 ^ 31.

Lemma u32_small z : 0 <= z < 2 ^ 32 -> u32 z = z.
Proof. apply Z.mod_small. Qed.

Lemma u32_range z : 0 <= u32 z < 2 ^ 32.
Proof. apply Z.mod_pos_bound; lia. Qed.

Lemma s32_small z : - 2 ^ 31 <= z < 2 ^ 31 -> s32 z = z.
Proof. intros H. unfold s32. rewrite Z.mod_small; lia. Qed.

Lemma s32_range z : - 2 ^ 31 <= s32 z < 2 ^ 31.
Proof. unfold s32. pose proof (Z.mod_pos_bound (z + 2 ^ 31) (2 ^ 32)). lia. Qed.

Lemma u32_u32 z : u32 (u32 z) = u32 z.
Proof. apply Z.mod_mod; lia. Qed.

Lemma u32_add_l a b : u32 (u32 a + b) = u32 (a + b).
Proof. apply Zplus_mod_idemp_l. Qed.

Lemma u32_sub_l a b : u32 (u32 a - b) = u32 (a - b).
Proof. apply Zminus_mod_idemp_l. Qed.

(** ** Bit masks *)

(** Clearing the low [n] bits rounds down to a multiple of [2^n]. *)
Lemma land_lnot_ones a n :
  0 <= n -> Z.land a (Z.lnot (2 ^ n - 1)) = a - a mod 2 ^ n.
Proof.
  intros Hn.
  replace (2 ^ n - 1) with (Z.ones n) by (rewrite Z.ones_equiv; lia).
  rewrite <- Z.ldiff_land, Z.ldiff_ones_r by done.
  rewrite Z.shiftl_mul_pow2, Z.shiftr_div_pow2 by done.
  pose proof (Z.div_mod a (2 ^ n) ltac:(lia)). lia.
Qed.

(** A value below [2^n] is disjoint from a multiple of [2^n]: or is addition. *)
Lemma lor_disjoint a b n :
  0 <= n -> 0 <= b < 2 ^ n -> a mod 2 ^ n = 0 -> Z.lor a b = a + b.
Proof.
  intros Hn Hb Ha.
  rewrite <- Z.lxor_lor, <- Z.add_nocarry_lxor; try done.
  all: apply Z.bits_inj'; intros i Hi; rewrite Z.land_spec, Z.bits_0.
  all: destruct (Z.lt_ge_cases i n) as [Hlt|Hge].
  all: try (rewrite <- (Z.mod_pow2_bits_low a n i), Ha, Z.bits_0 by lia; done).
  all: rewrite <- (Z.mod_small b (2 ^ n)), Z.mod_pow2_bits_high by lia.
  all: apply andb_false_r.
Qed.

(** The low [n] bits of a sum with a multiple of [2^n]. *)
Lemma land_ones_mod a n : 0 <= n -> Z.land a (2 ^ n - 1) = a mod 2 ^ n.
Proof.
  intros Hn. rewrite <- Z.land_ones by done. f_equal. rewrite Z.ones_equiv. lia.
Qed.

(** ** Bytes *)

Definition b2z (b : byte) : Z := Z.of_N (Byte.to_N b).

Definition z2b (z : Z) : byte :=
  match Byte.of_N (Z.to_N (z mod 256)) with
  | Some b => b
  | None => x00
  end.

Lemma b2z_range b : 0 <= b2z b < 256.
Proof. unfold b2z. pose proof (Byte.to_N_bounded b). lia. Qed.

Lemma b2z_z2b z : b2z (z2b z) = z mod 256.
Proof.
  unfold b2z, z2b. pose proof (Z.mod_pos_bound z 256 ltac:(lia)) as Hr.
  destruct (Byte.of_N (Z.to_N (z mod 256))) as [b|] eqn:E.
  - apply Byte.to_of_N in E. rewrite E. lia.
  - apply Byte.of_N_None_iff in E. lia.
Qed.

Lemma z2b_b2z b : z2b (b2z b) = b.
Proof.
  unfold z2b. rewrite Z.mod_small by apply b2z_range.
  unfold b2z. rewrite N2Z.id, Byte.of_to_N. done.
Qed.

Lemma b2z_inj a b : b2z a = b2z b -> a = b.
Proof. intros H. rewrite <- (z2b_b2z a), H. apply z2b_b2z. Qed.

#[export] Instance byte_eq_dec : EqDecision byte := Byte.byte_eq_dec.

(** ** Lists updated at one index *)

Lemma alter_fuse {A} (l : list A) i f g : alter f i (alter g i l) = alter (fun x => f (g x)) i l.
Proof.
  apply list_eq. intros j. destruct (decide (j = i)) as [->|Hne].
  - rewrite !list_lookup_alter_eq. by destruct (l !! i).
  - by rewrite !list_lookup_alter_ne.
Qed.

Lemma filter_le {A} (P Q : A -> Prop) `{!forall x, Decision (P x)} `{!forall x, Decision (Q x)} (l : list A) :
  (forall e, e ∈ l -> P e -> Q e) -> (length (filter P l) <= length (filter Q l))%nat /\
  ((exists e, e ∈ l /\ Q e /\ ~ P e) -> (length (filter P l) < length (filter Q l))%nat).
Proof.
  induction l as [|e l IH]; intros Hpq; [split; [done|]; intros (e & He & _); by apply elem_of_nil in He|].
  destruct IH as [L1 L2]; [intros e' He'; apply Hpq; by right|]. rewrite !filter_cons. pose proof (Hpq e ltac:(by left)) as He.
  destruct (decide (P e)), (decide (Q e)); cbn; try tauto; (split; [lia|]); intros (e' & [->|He']%elem_of_cons & Hq & Hp); try tauto; try lia;
    specialize (L2 ltac:(by exists e')); lia.
Qed.

Lemma alter_insert {A} (f : A -> A) (l : list A) i x : l !! i = Some x -> alter f i l = <[i := f x]> l.
Proof.
  intros E. apply list_eq. intros j. destruct (decide (j = i)) as [->|Hne].
  - rewrite list_lookup_alter_eq, E, list_lookup_insert_eq; [done|]. by eapply lookup_lt_Some.
  - by rewrite list_lookup_alter_ne, list_lookup_insert_ne.
Qed.

Lemma alter_ext_at {A} (f g : A -> A) (l : list A) i x :
  l !! i = Some x -> f x = g x -> alter f i l = alter g i l.
Proof. intros E Ef. by rewrite !(alter_insert _ _ _ _ E), Ef. Qed.

(** ** The kernel monad

    A kernel routine is a function from a state to an outcome: it returns a
    value, stops in [panic], gives up the CPU in [swtch], or exhausts the fuel
    of a loop that the model bounds.  After [Switch s k] other threads run;
    when this one is scheduled again it goes on with [k] from the state they
    left. *)

Inductive outcome (S A : Type) : Type :=
  | Ok (a : A) (s : S)
  | Panic (msg : string) (s : S)
  | Switch (s : S) (k : S -> outcome S A)
  | NoFuel.

Arguments Ok {S A}.
Arguments Panic {S A}.
Arguments Switch {S A}.
Arguments NoFuel {S A}.

Definition M (S A : Type) : Type := S -> outcome S A.

Definition ret {S A} (a : A) : M S A := fun s => Ok a s.

Fixpoint obind {S A B} (o : outcome S A) (k : A -> M S B) : outcome S B :=
  match o with
  | Ok a s => k a s
  | Panic e s => Panic e s
  | Switch s r => Switch s (fun s' => obind (r s') k)
  | NoFuel => NoFuel
  end.

Definition bind {S A B} (m : M S A) (k : A -> M S B) : M S B := fun s => obind (m s) k.

Definition get {S} : M S S := fun s => Ok s s.
Definition gets {S A} (f : S -> A) : M S A := fun s => Ok (f s) s.
Definition modify {S} (f : S -> S) : M S unit := fun s => Ok tt (f s).
Definition panic {S A} (msg : string) : M S A := fun s => Panic msg s.
Definition nofuel {S A} : M S A := fun _ => NoFuel.
Definition when {S} (b : bool) (m : M S unit) : M S unit :=
  if b then m else ret tt.

Notation "'let!' x ':=' m 'in' k" := (bind m (fun x => k))
  (at level 10, x pattern, m at level 100, k at level 200,
   format "'[v' 'let!'  x  ':='  m  'in' '/' k ']'") : kernel_scope.
Notation "m ';;;' k" := (bind m (fun _ => k))
  (at level 100, k at level 200, right associativity,
   format "'[v' m ';;;' '/' k ']'") : kernel_scope.

Open Scope kernel_scope.

(** [wp m s Q]: from [s], [m] returns, and its value and final state satisfy
    [Q].  It does not panic, give up the CPU or run out of fuel. *)
Definition wp {S A} (m : M S A) (s : S) (Q : A -> S -> Prop) : Prop :=
  match m s with
  | Ok a s' => Q a s'
  | _ => False
  end.

Section WpRules.
Context {S : Type}.

Lemma wp_ret {A} (a : A) (s : S) (Q : A -> S -> Prop) :
  Q a s -> wp (ret a) s Q.
Proof. done. Qed.

Lemma wp_bind {A B} (m : M S A) (k : A -> M S B) s (Q : B -> S -> Prop) :
  wp m s (fun a s' => wp (k a) s' Q) -> wp (bind m k) s Q.
Proof. unfold wp, bind. destruct (m s); cbn; naive_solver. Qed.

Lemma wp_bind_inv {A B} (m : M S A) (k : A -> M S B) s (Q : B -> S -> Prop) :
  wp (bind m k) s Q -> wp m s (fun a s' => wp (k a) s' Q).
Proof. unfold wp, bind. destruct (m s); cbn; naive_solver. Qed.

Lemma wp_mono {A} (m : M S A) s (P Q : A -> S -> Prop) :
  wp m s P -> (forall a s', P a s' -> Q a s') -> wp m s Q.
Proof. unfold wp. destruct (m s); naive_solver. Qed.

Lemma wp_bind_iff {A B} (m : M S A) (k : A -> M S B) s (Q : B -> S -> Prop) :
  wp (bind m k) s Q <-> wp m s (fun a s' => wp (k a) s' Q).
Proof. split; [apply wp_bind_inv|apply wp_bind]. Qed.

Lemma wp_iff {A} (m : M S A) s (P Q : A -> S -> Prop) :
  (forall a s', P a s' <-> Q a s') -> wp m s P <-> wp m s Q.
Proof. intros E. split; intros W; (eapply wp_mono; [exact W|]); naive_solver. Qed.

Lemma wp_get (s : S) (Q : S -> S -> Prop) : Q s s -> wp (get) s Q.
Proof. done. Qed.

Lemma wp_gets {A} (f : S -> A) s (Q : A -> S -> Prop) :
  Q (f s) s -> wp (gets f) s Q.
Proof. done. Qed.

Lemma wp_modify (f : S -> S) s (Q : unit -> S -> Prop) :
  Q tt (f s) -> wp (modify f) s Q.
Proof. done. Qed.

Lemma wp_when (b : bool) (m : M S unit) s Q :
  (if b then wp m s Q else Q tt s) -> wp (when b m) s Q.
Proof. by destruct b. Qed.

Lemma wp_Ok {A} (m : M S A) s (Q : A -> S -> Prop) :
  wp m s Q <-> exists a s', m s = Ok a s' /\ Q a s'.
Proof. unfold wp. destruct (m s); naive_solver. Qed.

(** Running the first of two routines. *)
Lemma bind_Ok {A B} (m : M S A) (k : A -> M S B) s a s' : m s = Ok a s' -> bind m k s = k a s'.
Proof. intros E. unfold bind. by rewrite E. Qed.

Lemma bind_Panic {A B} (m : M S A) (k : A -> M S B) s msg s' :
  m s = Panic msg s' -> bind m k s = Panic msg s'.
Proof. intros E. unfold bind. by rewrite E. Qed.

Lemma bind_inv {A B} (m : M S A) (k : A -> M S B) s b s' :
  bind m k s = Ok b s' -> exists a s1, m s = Ok a s1 /\ k a s1 = Ok b s'.
Proof. unfold bind. destruct (m s); cbn; naive_solver. Qed.

(** A routine that stops in a panic. *)
Definition panics {A} (m : M S A) (s : S) (msg : string) : Prop := exists s', m s = Panic msg s'.

Lemma panics_bind {A B} (m : M S A) (k : A -> M S B) s msg :
  wp m s (fun a s' => panics (k a) s' msg) -> panics (bind m k) s msg.
Proof. unfold wp, panics, bind. destruct (m s); cbn; naive_solver. Qed.

Lemma panics_now {A} s msg : panics (@panic S A msg) s msg.
Proof. by exists s. Qed.

End WpRules.

(** Take a run that returned apart, one step at a time. *)
Ltac run_inv E :=
  let a := fresh "r" in let s := fresh "st" in let E1 := fresh "E" in
  apply bind_inv in E as (a & s & E1 & E).

#[global] Arguments wp : simpl never.
#[global] Arguments bind : simpl never.
#[global] Arguments ret : simpl never.
#[global] Arguments get : simpl never.
#[global] Arguments gets : simpl never.
#[global] Arguments modify : simpl never.
#[global] Arguments panic : simpl never.
#[global] Arguments when : simpl never.
#[global] Arguments u32 : simpl never.
#[global] Arguments s32 : simpl never.
#[global] Arguments b2z : simpl never.
#[global] Arguments z2b : simpl never.

Create HintDb wp.
#[export] Hint Resolve wp_ret wp_get wp_gets wp_modify : wp.

(** Apply the rule of the head construct of a [wp] goal. *)
Ltac wp_step :=
  lazymatch goal with
  | |- wp (bind _ _) _ _ => apply wp_bind
  | |- wp (ret _) _ _ => apply wp_ret
  | |- wp get _ _ => apply wp_get
  | |- wp (gets _) _ _ => apply wp_gets
  | |- wp (modify _) _ _ => apply wp_modify
  | |- wp (when _ _) _ _ => apply wp_when
  end; cbv beta.

(** Use a specification already proved for the head call. *)
Tactic Notation "wp_use" uconstr(H) := eapply wp_mono; [eapply H|cbv beta].

(** Turn boolean comparisons in the context into arithmetic facts. *)
Ltac bool_hyps :=
  repeat match goal with
  | H : (_ && _)%bool = true |- _ => apply andb_prop in H as [? ?]
  | H : (_ || _)%bool = false |- _ => apply orb_false_elim in H as [? ?]
  | H : negb _ = true |- _ => apply negb_true_iff in H
  | H : negb _ = false |- _ => apply negb_false_iff in H
  | H : (_ =? _) = true |- _ => apply Z.eqb_eq in H
  | H : (_ =? _) = false |- _ => apply Z.eqb_neq in H
  | H : (_ <? _) = true |- _ => apply Z.ltb_lt in H
  | H : (_ <? _) = false |- _ => apply Z.ltb_ge in H
  | H : (_ <=? _) = true |- _ => apply Z.leb_le in H
  | H : (_ <=? _) = false |- _ => apply Z.leb_gt in H
  end.
