(* ===== verification/Layout.v ===== *)
(** * Constants and address arithmetic: param.h, memlayout.h, traps.h, mmu.h

    The numeric parameters of the kernel and the macros that take virtual
    addresses and page-table entries apart, with the arithmetic facts the
    paging code relies on. *)

From S2P Require Import Prelude.

Open Scope Z_scope.

(** ** param.h *)

Definition NPROC : Z := 64.
Definition KSTACKSIZE : Z := 4096.
Definition NCPU : Z := 8.
Definition NOFILE : Z := 16.
Definition NFILE : Z := 100.
Definition NBUF : Z := 10.
Definition NINODE : Z := 50.
Definition NDEV : Z := 10.
Definition ROOTDEV : Z := 1.
Definition MAXARG : Z := 32.
Definition LOGSIZE : Z := 10.

(** ** memlayout.h *)

Definition EXTMEM : Z := 0x100000.
Definition PHYSTOP : Z := 0xE000000.
Definition DEVSPACE : Z := 0xFE000000.
Definition KERNBASE : Z := 0x80000000.
Definition KERNLINK : Z := KERNBASE + EXTMEM.

Definition v2p (a : Z) : Z := u32 (a - KERNBASE).
Definition p2v (a : Z) : Z := u32 (a + KERNBASE).

(** The symbols kernel.ld defines: [end] is the first address after the
    loaded kernel, [data] the start of its data segment. *)
Class KernelImage : Type := { end_ : Z; data_ : Z }.

(** What the linker script guarantees: the kernel is linked at [KERNLINK],
    its data segment starts on a page boundary, and the image fits the first
    four megabytes that [entrypgdir] maps. *)
Class KernelImageOk `{KernelImage} : Prop := {
  data_aligned : data_ mod 4096 = 0;
  data_low : KERNLINK < data_;
  data_end : data_ < end_;
  end_high : end_ <= KERNBASE + 4 * 1024 * 1024
}.

(** ** traps.h *)

Definition T_PGFLT : Z := 14.
Definition T_SYSCALL : Z := 64.
Definition T_IRQ0 : Z := 32.
Definition IRQ_TIMER : Z := 0.
Definition IRQ_KBD : Z := 1.
Definition IRQ_COM1 : Z := 4.
Definition IRQ_IDE : Z := 14.
Definition IRQ_ERROR : Z := 19.
Definition IRQ_SPURIOUS : Z := 31.

(** ** mmu.h *)

Definition NPDENTRIES : Z := 1024.
Definition NPTENTRIES : Z := 1024.
Definition PGSIZE : Z := 4096.
Definition PTXSHIFT : Z := 12.
Definition PDXSHIFT : Z := 22.

Definition PDX (va : Z) : Z := Z.land (Z.shiftr va PDXSHIFT) 0x3FF.
Definition PTX (va : Z) : Z := Z.land (Z.shiftr va PTXSHIFT) 0x3FF.
Definition PGADDR (d t o : Z) : Z :=
  u32 (Z.lor (Z.lor (Z.shiftl d PDXSHIFT) (Z.shiftl t PTXSHIFT)) o).

Definition PGROUNDUP (sz : Z) : Z := Z.land (u32 (sz + PGSIZE - 1)) (Z.lnot (PGSIZE - 1)).
Definition PGROUNDDOWN (a : Z) : Z := Z.land a (Z.lnot (PGSIZE - 1)).

Definition PTE_P : Z := 0x001.
Definition PTE_W : Z := 0x002.
Definition PTE_U : Z := 0x004.
Definition PTE_A : Z := 0x020.
Definition PTE_D : Z := 0x040.

Definition PTE_ADDR (pte : Z) : Z := Z.land pte (Z.lnot 0xFFF).

(** [pte & flag], as C's truth value. *)
Definition has (pte flag : Z) : bool := negb (Z.land pte flag =? 0).

Definition FL_IF : Z := 0x200.
Definition SEG_UCODE : Z := 4.
Definition SEG_UDATA : Z := 5.
Definition DPL_USER : Z := 3.

(** Linear arithmetic with the values of the layout constants. *)
Ltac klia :=
  unfold KERNLINK, KERNBASE, EXTMEM, PHYSTOP, DEVSPACE, NPTENTRIES, PGSIZE in *; lia.

(** ** Address arithmetic *)

Definition aligned (p : Z) : Prop := p mod PGSIZE = 0.

Lemma PGROUNDDOWN_eq a : PGROUNDDOWN a = a - a mod PGSIZE.
Proof. apply (land_lnot_ones a 12). lia. Qed.

Lemma PTE_ADDR_eq a : PTE_ADDR a = a - a mod PGSIZE.
Proof. apply (land_lnot_ones a 12). lia. Qed.

Lemma PGROUNDUP_eq a :
  0 <= a -> a + PGSIZE - 1 < 2 ^ 32 ->
  PGROUNDUP a = (a + PGSIZE - 1) / PGSIZE * PGSIZE.
Proof.
  intros H1 H2. unfold PGROUNDUP. rewrite u32_small by (unfold PGSIZE in *; lia).
  rewrite (land_lnot_ones _ 12) by lia. unfold PGSIZE. Z.div_mod_to_equations. lia.
Qed.

Lemma PDX_eq va : PDX va = (va / 2 ^ 22) mod 1024.
Proof.
  unfold PDX. rewrite Z.shiftr_div_pow2 by done. apply (land_ones_mod _ 10). lia.
Qed.

Lemma PTX_eq va : PTX va = (va / 2 ^ 12) mod 1024.
Proof.
  unfold PTX. rewrite Z.shiftr_div_pow2 by done. apply (land_ones_mod _ 10). lia.
Qed.

Lemma PDX_range va : 0 <= PDX va < 1024.
Proof. rewrite PDX_eq. apply Z.mod_pos_bound. lia. Qed.

Lemma PTX_range va : 0 <= PTX va < 1024.
Proof. rewrite PTX_eq. apply Z.mod_pos_bound. lia. Qed.

(** A 32-bit address is determined by its directory index, table index and
    page offset. *)
Lemma va_split va :
  0 <= va < 2 ^ 32 -> va = PDX va * 2 ^ 22 + PTX va * PGSIZE + va mod PGSIZE.
Proof. intros H. rewrite PDX_eq, PTX_eq. unfold PGSIZE. Z.div_mod_to_equations. lia. Qed.

Lemma va_inj va va' :
  0 <= va < 2 ^ 32 -> 0 <= va' < 2 ^ 32 ->
  PDX va = PDX va' -> PTX va = PTX va' -> va mod PGSIZE = va' mod PGSIZE -> va = va'.
Proof.
  intros H H' H1 H2 H3. rewrite (va_split va), (va_split va') by done. congruence.
Qed.

Lemma PTE_ADDR_aligned a : aligned (PTE_ADDR a).
Proof. rewrite PTE_ADDR_eq. unfold aligned, PGSIZE. Z.div_mod_to_equations. lia. Qed.

Lemma PGROUNDDOWN_aligned a : aligned (PGROUNDDOWN a).
Proof. rewrite PGROUNDDOWN_eq. unfold aligned, PGSIZE. Z.div_mod_to_equations. lia. Qed.

Lemma PTE_ADDR_range a : 0 <= a < 2 ^ 32 -> 0 <= PTE_ADDR a < 2 ^ 32.
Proof.
  intros H. rewrite PTE_ADDR_eq. unfold PGSIZE. Z.div_mod_to_equations. lia.
Qed.

Lemma p2v_v2p a : 0 <= a < 2 ^ 32 -> p2v (v2p a) = a.
Proof.
  intros H. unfold p2v, v2p. rewrite u32_add_l.
  replace (a - KERNBASE + KERNBASE) with a by lia. by apply u32_small.
Qed.

Lemma v2p_p2v a : 0 <= a < 2 ^ 32 -> v2p (p2v a) = a.
Proof.
  intros H. unfold p2v, v2p. rewrite u32_sub_l.
  replace (a + KERNBASE - KERNBASE) with a by lia. by apply u32_small.
Qed.

Lemma u32_aligned a : aligned a -> aligned (u32 a).
Proof.
  unfold aligned, u32, PGSIZE. intros H. Z.div_mod_to_equations. lia.
Qed.

Lemma v2p_aligned a : aligned a -> aligned (v2p a).
Proof.
  intros H. apply u32_aligned. unfold aligned, PGSIZE, KERNBASE in *.
  Z.div_mod_to_equations. lia.
Qed.

Lemma p2v_aligned a : aligned a -> aligned (p2v a).
Proof.
  intros H. apply u32_aligned. unfold aligned, PGSIZE, KERNBASE in *.
  Z.div_mod_to_equations. lia.
Qed.

(** ** Page-table entries

    An entry is an aligned address joined with flag bits below [PGSIZE]. *)

Lemma lor_flags pa f : aligned pa -> 0 <= f < PGSIZE -> Z.lor pa f = pa + f.
Proof. intros Hpa Hf. apply (lor_disjoint _ _ 12); done || lia. Qed.

Lemma PTE_ADDR_lor pa f : aligned pa -> 0 <= f < PGSIZE -> PTE_ADDR (Z.lor pa f) = pa.
Proof.
  intros Hpa Hf. rewrite lor_flags, PTE_ADDR_eq by done.
  unfold aligned, PGSIZE in *. Z.div_mod_to_equations. lia.
Qed.

Lemma land_aligned pa f : aligned pa -> 0 <= f < PGSIZE -> Z.land pa f = 0.
Proof.
  intros Hpa Hf. apply Z.bits_inj'. intros i Hi. rewrite Z.land_spec, Z.bits_0.
  destruct (Z.lt_ge_cases i 12).
  - rewrite <- (Z.mod_pow2_bits_low pa 12 i) by lia.
    change (2 ^ 12) with PGSIZE. rewrite Hpa, Z.bits_0. done.
  - rewrite <- (Z.mod_small f (2 ^ 12)) by (change (2 ^ 12) with PGSIZE; lia).
    rewrite Z.mod_pow2_bits_high by lia. apply andb_false_r.
Qed.

Lemma has_lor pa f g :
  aligned pa -> 0 <= g < PGSIZE -> has (Z.lor pa f) g = negb (Z.land f g =? 0).
Proof.
  intros Hpa Hg. unfold has. rewrite Z.land_lor_distr_l, land_aligned by done. done.
Qed.

Lemma lor_flags_range pa f :
  aligned pa -> 0 <= pa < 2 ^ 32 -> 0 <= f < PGSIZE -> 0 <= Z.lor pa f < 2 ^ 32.
Proof.
  intros Hpa Hr Hf. rewrite lor_flags by done. unfold aligned, PGSIZE in *.
  Z.div_mod_to_equations. lia.
Qed.

(** Clearing or setting a flag bit keeps the address and the other flags. *)
Lemma land_lnot_range a f : 0 <= a < 2 ^ 32 -> 0 <= f -> 0 <= Z.land a (Z.lnot f) < 2 ^ 32.
Proof.
  intros Ha Hf.
  replace (Z.land a (Z.lnot f)) with (Z.land a (Z.lnot f) mod 2 ^ 32);
    [apply Z.mod_pos_bound; lia|].
  rewrite <- Z.land_ones, <- Z.land_assoc, (Z.land_comm (Z.lnot f)), Z.land_assoc by lia.
  rewrite Z.land_ones, Z.mod_small by lia. done.
Qed.

Lemma lor_range a f : 0 <= a < 2 ^ 32 -> 0 <= f < 2 ^ 32 -> 0 <= Z.lor a f < 2 ^ 32.
Proof.
  intros Ha Hf. split; [apply Z.lor_nonneg; lia|].
  destruct (decide (Z.lor a f = 0)) as [->|]; [lia|].
  assert (0 < Z.lor a f) by (pose proof (proj2 (Z.lor_nonneg a f)); lia).
  apply Z.log2_lt_pow2; [done|]. rewrite Z.log2_lor by lia.
  apply Z.max_lub_lt.
  - destruct (decide (a = 0)) as [->|]; [done|]. apply Z.log2_lt_pow2; lia.
  - destruct (decide (f = 0)) as [->|]; [done|]. apply Z.log2_lt_pow2; lia.
Qed.

Lemma PTE_ADDR_land_lnot a f :
  0 <= f < PGSIZE -> PTE_ADDR (Z.land a (Z.lnot f)) = PTE_ADDR a.
Proof.
  intros Hf. unfold PTE_ADDR. apply Z.bits_inj'. intros i Hi.
  rewrite !Z.land_spec, !Z.lnot_spec by lia.
  destruct (Z.lt_ge_cases i 12).
  - change 0xFFF with (Z.ones 12). rewrite Z.ones_spec_low by lia.
    by rewrite !andb_false_r.
  - rewrite <- (Z.mod_small f (2 ^ 12)) by (change (2 ^ 12) with PGSIZE; lia).
    rewrite Z.mod_pow2_bits_high by lia. by rewrite andb_true_r.
Qed.

Lemma PTE_ADDR_lor_flag a f : 0 <= f < PGSIZE -> PTE_ADDR (Z.lor a f) = PTE_ADDR a.
Proof.
  intros Hf. unfold PTE_ADDR. rewrite Z.land_lor_distr_l.
  replace (Z.land f (Z.lnot 0xFFF)) with 0; [apply Z.lor_0_r|].
  change 0xFFF with (2 ^ 12 - 1). rewrite land_lnot_ones by lia.
  change (2 ^ 12) with PGSIZE. rewrite Z.mod_small by done. lia.
Qed.

Lemma has_land_lnot a f g :
  has (Z.land a (Z.lnot f)) g = negb (Z.land a (Z.land (Z.lnot f) g) =? 0).
Proof. unfold has. by rewrite Z.land_assoc. Qed.

Lemma has_lor_flag a f g :
  has (Z.lor a f) g = has a g || negb (Z.land f g =? 0).
Proof.
  unfold has. rewrite Z.land_lor_distr_l.
  destruct (Z.eqb_spec (Z.land a g) 0) as [->|Ha];
    destruct (Z.eqb_spec (Z.land f g) 0) as [E|Hf]; cbn [negb orb].
  - by rewrite E.
  - rewrite Z.lor_0_l. by rewrite (proj2 (Z.eqb_neq _ _) Hf).
  - rewrite E, Z.lor_0_r. by rewrite (proj2 (Z.eqb_neq _ _) Ha).
  - apply negb_true_iff, Z.eqb_neq. rewrite Z.lor_eq_0_iff. tauto.
Qed.

(** ** Channels that processes sleep on

    C uses the address of a kernel object; the constructors name the objects. *)
Inductive chan : Type :=
  | ChProc (i : nat)      (* a process, by its slot: wait() *)
  | ChLog                 (* &log *)
  | ChBuf (i : nat)       (* a buffer *)
  | ChInode (i : nat)     (* an in-memory inode *)
  | ChTicks               (* &ticks *)
  | ChNread (p : Z)       (* &p->nread of a pipe *)
  | ChNwrite (p : Z)      (* &p->nwrite of a pipe *)
  | ChInput.              (* &input.r *)

#[export] Instance chan_eq_dec : EqDecision chan.
Proof. solve_decision. Defined.

(** ** An example kernel image, for the witnesses *)
Definition example_image : KernelImage := {| data_ := 0x80108000; end_ := 0x8010C350 |}.

Lemma example_image_ok : @KernelImageOk example_image.
Proof. split; vm_compute; try done; discriminate. Qed.
