(* ===== verification/Mem.v ===== *)
(** * Memory and string.c

    Memory is a total map from addresses to bytes, seen through the kernel's
    direct mapping: the byte at physical address [pa] is at [p2v pa].  The file
    models the block and string routines of string.c as the loops they are,
    and proves what each leaves in memory; the lemmas on words and pages at the
    end are what the allocator and the paging code are verified with. *)

From S2P Require Import Prelude Layout.

Open Scope Z_scope.

Abbreviation mem := (Z -> byte).

Definition upd (m : mem) (a : Z) (b : byte) : mem :=
  fun x => if x =? a then b else m x.

(** ** 32-bit little-endian words *)

Definition rd32 (m : mem) (a : Z) : Z :=
  b2z (m a) + 2 ^ 8 * b2z (m (a + 1)) + 2 ^ 16 * b2z (m (a + 2))
  + 2 ^ 24 * b2z (m (a + 3)).

Definition wr32 (m : mem) (a : Z) (v : Z) : mem :=
  upd (upd (upd (upd m a (z2b v)) (a + 1) (z2b (v / 2 ^ 8)))
           (a + 2) (z2b (v / 2 ^ 16)))
      (a + 3) (z2b (v / 2 ^ 24)).

(** ** string.c, x86.h *)

(** [rep stosb]: store the low byte of [data] at [cnt] successive addresses. *)
Fixpoint stosb (m : mem) (addr data : Z) (cnt : nat) : mem :=
  match cnt with
  | O => m
  | S k => stosb (upd m addr (z2b data)) (addr + 1) data k
  end.

(** [rep stosl]: store the word [data] at [cnt] successive word addresses. *)
Fixpoint stosl (m : mem) (addr data : Z) (cnt : nat) : mem :=
  match cnt with
  | O => m
  | S k => stosl (wr32 m addr data) (addr + 4) data k
  end.

Definition memset (m : mem) (dst c n : Z) : mem :=
  if (Z.rem (s32 dst) 4 =? 0) && (n mod 4 =? 0) then
    let c := Z.land c 0xFF in
    stosl m dst
      (Z.lor (Z.lor (Z.lor (Z.shiftl c 24) (Z.shiftl c 16)) (Z.shiftl c 8)) c)
      (Z.to_nat (n / 4))
  else stosb m dst c (Z.to_nat n).

(** Strings and blocks that are only read are seen from their first byte. *)
Definition at_ (m : mem) (p : Z) : Z -> byte := fun i => m (p + i).

Fixpoint memcmp_loop (s1 s2 : Z -> byte) (i : Z) (n : nat) : Z :=
  match n with
  | O => 0
  | S k =>
      if negb (b2z (s1 i) =? b2z (s2 i)) then b2z (s1 i) - b2z (s2 i)
      else memcmp_loop s1 s2 (i + 1) k
  end.

Definition memcmp (s1 s2 : Z -> byte) (n : Z) : Z :=
  memcmp_loop s1 s2 0 (Z.to_nat n).

(** [while(n-- > 0) *--d = *--s;] *)
Fixpoint copy_down (m : mem) (d s : Z) (n : nat) : mem :=
  match n with
  | O => m
  | S k => copy_down (upd m (d - 1) (m (s - 1))) (d - 1) (s - 1) k
  end.

(** [while(n-- > 0) *d++ = *s++;] *)
Fixpoint copy_up (m : mem) (d s : Z) (n : nat) : mem :=
  match n with
  | O => m
  | S k => copy_up (upd m d (m s)) (d + 1) (s + 1) k
  end.

Definition memmove (m : mem) (dst src n : Z) : mem :=
  if (src <? dst) && (dst <? src + n) then
    copy_down m (dst + n) (src + n) (Z.to_nat n)
  else copy_up m dst src (Z.to_nat n).

Definition memcpy (m : mem) (dst src n : Z) : mem := memmove m dst src n.

Fixpoint strncmp_loop (p q : Z -> byte) (i : Z) (n : nat) : Z :=
  match n with
  | O => 0
  | S k =>
      if negb (b2z (p i) =? 0) && (b2z (p i) =? b2z (q i))
      then strncmp_loop p q (i + 1) k
      else b2z (p i) - b2z (q i)
  end.

Definition strncmp (p q : Z -> byte) (n : Z) : Z :=
  strncmp_loop p q 0 (Z.to_nat n).

(** The tail loop of [strncpy]: [while(n-- > 0) *s++ = 0;] *)
Fixpoint fill0 (m : mem) (s : Z) (n : nat) : mem :=
  match n with
  | O => m
  | S k => fill0 (upd m s x00) (s + 1) k
  end.

Fixpoint strncpy_loop (m : mem) (s t : Z) (n : nat) : mem :=
  match n with
  | O => m
  | S k =>
      let m' := upd m s (m t) in
      if negb (b2z (m t) =? 0) then strncpy_loop m' (s + 1) (t + 1) k
      else fill0 m' (s + 1) k
  end.

Definition strncpy (m : mem) (s t n : Z) : mem := strncpy_loop m s t (Z.to_nat n).

(** [while(--n > 0 && ( *s++ = *t++ ) != 0);], then [*s = 0]. *)
Fixpoint safestrcpy_loop (m : mem) (s t : Z) (n : nat) : mem :=
  match n with
  | O => upd m s x00
  | S k =>
      let m' := upd m s (m t) in
      if negb (b2z (m t) =? 0) then safestrcpy_loop m' (s + 1) (t + 1) k
      else upd m' (s + 1) x00
  end.

Definition safestrcpy (m : mem) (s t n : Z) : mem :=
  if n <=? 0 then m else safestrcpy_loop m s t (Z.to_nat (n - 1)).

(** The loop has no bound of its own: [fuel] bounds the scan. *)
Fixpoint strlen_loop (s : Z -> byte) (n : Z) (fuel : nat) : option Z :=
  match fuel with
  | O => None
  | S k => if b2z (s n) =? 0 then Some n else strlen_loop s (n + 1) k
  end.

Definition strlen (fuel : nat) (s : Z -> byte) : option Z := strlen_loop s 0 fuel.

(** ** Lemmas: words *)

Lemma upd_eq m a b : upd m a b a = b.
Proof. unfold upd. by rewrite Z.eqb_refl. Qed.

Lemma upd_ne m a b x : x <> a -> upd m a b x = m x.
Proof. intros H. unfold upd. by rewrite (proj2 (Z.eqb_neq x a) H). Qed.

Lemma rd32_range m a : 0 <= rd32 m a < 2 ^ 32.
Proof.
  unfold rd32. pose proof (b2z_range (m a)). pose proof (b2z_range (m (a + 1))).
  pose proof (b2z_range (m (a + 2))). pose proof (b2z_range (m (a + 3))). lia.
Qed.

Lemma rd32_ext m m' a b :
  (forall i, 0 <= i < 4 -> m' (b + i) = m (a + i)) -> rd32 m' b = rd32 m a.
Proof.
  intros H. unfold rd32.
  rewrite <- (Z.add_0_r a) at 1. rewrite <- (Z.add_0_r b) at 1.
  rewrite !H by lia. done.
Qed.

Lemma rd32_inj m m' a b :
  rd32 m' b = rd32 m a -> forall i, 0 <= i < 4 -> m' (b + i) = m (a + i).
Proof.
  unfold rd32. intros H i Hi.
  pose proof (b2z_range (m a)). pose proof (b2z_range (m (a + 1))).
  pose proof (b2z_range (m (a + 2))). pose proof (b2z_range (m (a + 3))).
  pose proof (b2z_range (m' b)). pose proof (b2z_range (m' (b + 1))).
  pose proof (b2z_range (m' (b + 2))). pose proof (b2z_range (m' (b + 3))).
  assert (i = 0 \/ i = 1 \/ i = 2 \/ i = 3) as [->|[->|[->| ->]]] by lia;
    rewrite ?Z.add_0_r; apply b2z_inj; lia.
Qed.

Lemma wr32_other m a v x : x < a \/ a + 4 <= x -> wr32 m a v x = m x.
Proof. intros H. unfold wr32. rewrite !upd_ne by lia. done. Qed.

Lemma rd32_wr32 m a v : 0 <= v < 2 ^ 32 -> rd32 (wr32 m a v) a = v.
Proof.
  intros Hv. unfold rd32, wr32.
  rewrite upd_eq, (upd_ne _ (a + 3) _ a), (upd_ne _ (a + 2) _ a),
    (upd_ne _ (a + 1) _ a), upd_eq by lia.
  rewrite (upd_ne _ (a + 3) _ (a + 1)), (upd_ne _ (a + 2) _ (a + 1)), upd_eq by lia.
  rewrite (upd_ne _ (a + 3) _ (a + 2)), upd_eq by lia.
  rewrite !b2z_z2b. Z.div_mod_to_equations. lia.
Qed.

Lemma rd32_wr32_ne m a b v : b + 4 <= a \/ a + 4 <= b -> rd32 (wr32 m a v) b = rd32 m b.
Proof. intros H. apply rd32_ext. intros i Hi. apply wr32_other. lia. Qed.

(** ** Lemmas: the block routines *)

Lemma stosb_spec n : forall m a d x,
  stosb m a d n x = if (a <=? x) && (x <? a + Z.of_nat n) then z2b d else m x.
Proof.
  induction n as [|n IH]; intros m a d x; cbn [stosb].
  - destruct (Z.leb_spec a x), (Z.ltb_spec x (a + Z.of_nat 0)); try done; lia.
  - rewrite IH. unfold upd.
    destruct (Z.leb_spec (a + 1) x), (Z.ltb_spec x (a + 1 + Z.of_nat n)),
      (Z.eqb_spec x a), (Z.leb_spec a x), (Z.ltb_spec x (a + Z.of_nat (S n)));
      try done; lia.
Qed.

(** A word with four equal bytes. *)
Definition splat (c : Z) : Z := c + 2 ^ 8 * c + 2 ^ 16 * c + 2 ^ 24 * c.

Lemma wr32_splat m a c x :
  0 <= c < 256 ->
  wr32 m a (splat c) x = if (a <=? x) && (x <? a + 4) then z2b c else m x.
Proof.
  intros Hc. unfold wr32, splat, upd.
  assert (Hb : forall k, k = 0 \/ k = 8 \/ k = 16 \/ k = 24 ->
    z2b ((c + 2 ^ 8 * c + 2 ^ 16 * c + 2 ^ 24 * c) / 2 ^ k) = z2b c).
  { intros k Hk. apply b2z_inj. rewrite !b2z_z2b.
    destruct Hk as [->|[->|[->| ->]]]; Z.div_mod_to_equations; lia. }
  pose proof (Hb 0) as H0. rewrite Z.div_1_r in H0.
  rewrite H0, !Hb by auto.
  destruct (Z.leb_spec a x), (Z.ltb_spec x (a + 4)), (Z.eqb_spec x (a + 3)),
    (Z.eqb_spec x (a + 2)), (Z.eqb_spec x (a + 1)), (Z.eqb_spec x a); try done; lia.
Qed.

Lemma stosl_splat c n : 0 <= c < 256 -> forall m a x,
  stosl m a (splat c) n x =
  if (a <=? x) && (x <? a + 4 * Z.of_nat n) then z2b c else m x.
Proof.
  intros Hc. induction n as [|n IH]; intros m a x; cbn [stosl].
  - destruct (Z.leb_spec a x), (Z.ltb_spec x (a + 4 * Z.of_nat 0)); try done; lia.
  - rewrite IH, wr32_splat by done.
    destruct (Z.leb_spec (a + 4) x), (Z.ltb_spec x (a + 4 + 4 * Z.of_nat n)),
      (Z.leb_spec a x), (Z.ltb_spec x (a + 4)),
      (Z.ltb_spec x (a + 4 * Z.of_nat (S n))); try done; lia.
Qed.

Lemma lor_bytes c :
  0 <= c < 256 ->
  Z.lor (Z.lor (Z.lor (Z.shiftl c 24) (Z.shiftl c 16)) (Z.shiftl c 8)) c = splat c.
Proof.
  intros Hc. unfold splat. rewrite !Z.shiftl_mul_pow2 by lia.
  rewrite (lor_disjoint (c * 2 ^ 24) (c * 2 ^ 16) 24) by
    (try lia; apply Z.mod_mul; lia).
  rewrite (lor_disjoint _ (c * 2 ^ 8) 16); try lia.
  2: { replace (c * 2 ^ 24 + c * 2 ^ 16) with ((c * 2 ^ 8 + c) * 2 ^ 16) by lia.
       apply Z.mod_mul; lia. }
  rewrite (lor_disjoint _ c 8); try lia.
  replace (c * 2 ^ 24 + c * 2 ^ 16 + c * 2 ^ 8)
    with ((c * 2 ^ 16 + c * 2 ^ 8 + c) * 2 ^ 8) by lia.
  apply Z.mod_mul; lia.
Qed.

Lemma memset_spec m dst c n x :
  0 <= n ->
  memset m dst c n x = if (dst <=? x) && (x <? dst + n) then z2b c else m x.
Proof.
  intros Hn. unfold memset.
  destruct ((Z.rem (s32 dst) 4 =? 0) && (n mod 4 =? 0)) eqn:E; bool_hyps.
  - change 0xFF with (2 ^ 8 - 1). rewrite land_ones_mod by lia.
    pose proof (Z.mod_pos_bound c (2 ^ 8) ltac:(lia)).
    rewrite lor_bytes, stosl_splat by lia.
    rewrite Z2Nat.id by (apply Z.div_pos; lia).
    replace (4 * (n / 4)) with n by (Z.div_mod_to_equations; lia).
    replace (z2b (c mod 2 ^ 8)) with (z2b c); [done|].
    apply b2z_inj. rewrite !b2z_z2b. by rewrite Z.mod_mod.
  - rewrite stosb_spec, Z2Nat.id by done. done.
Qed.

Lemma copy_up_spec n : forall m d s x,
  d <= s \/ s + Z.of_nat n <= d ->
  copy_up m d s n x =
  if (d <=? x) && (x <? d + Z.of_nat n) then m (s + (x - d)) else m x.
Proof.
  induction n as [|n IH]; intros m d s x Hd; cbn [copy_up].
  - destruct (Z.leb_spec d x), (Z.ltb_spec x (d + Z.of_nat 0)); try done; lia.
  - rewrite IH by lia.
    destruct (Z.leb_spec (d + 1) x), (Z.ltb_spec x (d + 1 + Z.of_nat n)),
      (Z.leb_spec d x), (Z.ltb_spec x (d + Z.of_nat (S n))); simpl; try lia.
    + rewrite upd_ne by lia. f_equal; lia.
    + rewrite upd_ne by lia. done.
    + replace x with d by lia. rewrite upd_eq. f_equal; lia.
    + rewrite upd_ne by lia. done.
Qed.

Lemma copy_down_spec n : forall m d s x,
  s <= d ->
  copy_down m d s n x =
  if (d - Z.of_nat n <=? x) && (x <? d) then m (s - (d - x)) else m x.
Proof.
  induction n as [|n IH]; intros m d s x Hd; cbn [copy_down].
  - destruct (Z.leb_spec (d - Z.of_nat 0) x), (Z.ltb_spec x d); try done; lia.
  - rewrite IH by lia.
    destruct (Z.leb_spec (d - 1 - Z.of_nat n) x), (Z.ltb_spec x (d - 1)),
      (Z.leb_spec (d - Z.of_nat (S n)) x), (Z.ltb_spec x d); simpl; try lia.
    + rewrite upd_ne by lia. f_equal; lia.
    + replace x with (d - 1) by lia. rewrite upd_eq. f_equal; lia.
    + rewrite upd_ne by lia. done.
    + rewrite upd_ne by lia. done.
Qed.

Lemma memmove_spec m dst src n x :
  0 <= n ->
  memmove m dst src n x =
  if (dst <=? x) && (x <? dst + n) then m (src + (x - dst)) else m x.
Proof.
  intros Hn. unfold memmove.
  destruct ((src <? dst) && (dst <? src + n)) eqn:E.
  - bool_hyps. rewrite copy_down_spec, Z2Nat.id by lia.
    replace (dst + n - n) with dst by lia.
    replace (src + n - (dst + n - x)) with (src + (x - dst)) by lia. done.
  - apply andb_false_iff in E as [E|E]; bool_hyps;
      rewrite copy_up_spec; rewrite ?Z2Nat.id; done || lia.
Qed.

Lemma strncmp_loop_spec p q n : forall i,
  0 <= i ->
  (forall j, 0 <= j < i -> p j = q j /\ b2z (p j) <> 0) ->
  (strncmp_loop p q i n = 0 <->
   forall j, 0 <= j < i + Z.of_nat n ->
     (forall k, 0 <= k < j -> b2z (p k) <> 0) -> p j = q j).
Proof.
  induction n as [|n IH]; intros i Hi Hpre; cbn [strncmp_loop].
  - split; [|done]. intros _ j Hj _. apply Hpre. lia.
  - destruct (negb (b2z (p i) =? 0) && (b2z (p i) =? b2z (q i))) eqn:E.
    + bool_hyps. rewrite IH; [|lia|].
      * replace (i + 1 + Z.of_nat n) with (i + Z.of_nat (S n)) by lia. done.
      * intros j Hj. destruct (decide (j = i)) as [->|]; [|apply Hpre; lia].
        split; [by apply b2z_inj|done].
    + apply andb_false_iff in E. split.
      * intros Heq j Hj Hnz. destruct (Z.lt_trichotomy j i) as [?|[->|Hlt]].
        -- apply Hpre; lia.
        -- apply b2z_inj. lia.
        -- exfalso. apply (Hnz i); [lia|]. destruct E as [E|E]; bool_hyps; lia.
      * intros Hall. rewrite (Hall i); [lia|lia|]. intros k Hk. apply Hpre. lia.
Qed.

Lemma fill0_spec n : forall m s x,
  fill0 m s n x = if (s <=? x) && (x <? s + Z.of_nat n) then x00 else m x.
Proof.
  induction n as [|n IH]; intros m s x; cbn [fill0].
  - destruct (Z.leb_spec s x), (Z.ltb_spec x (s + Z.of_nat 0)); try done; lia.
  - rewrite IH. unfold upd.
    destruct (Z.leb_spec (s + 1) x), (Z.ltb_spec x (s + 1 + Z.of_nat n)),
      (Z.eqb_spec x s), (Z.leb_spec s x), (Z.ltb_spec x (s + Z.of_nat (S n)));
      try done; lia.
Qed.

(** ** Lemmas: strings *)

(** Byte [j] of the string at [p], padded with NULs after its end. *)
Definition padded (p : Z -> byte) (j : Z) : byte :=
  if existsb (fun k => b2z (p (Z.of_nat k)) =? 0) (seq 0 (Z.to_nat j))
  then x00 else p j.

Lemma existsb_seq_ext f g i n :
  (forall k, f k = g k) -> existsb f (seq i n) = existsb g (seq i n).
Proof.
  intros H. revert i. induction n as [|n IH]; intros i; [done|].
  cbn. by rewrite H, IH.
Qed.

Lemma existsb_seq_shift f i n :
  existsb f (seq (S i) n) = existsb (fun k => f (S k)) (seq i n).
Proof. revert i. induction n as [|n IH]; intros i; [done|]. cbn. by rewrite IH. Qed.

Lemma padded_shift p j :
  0 < j ->
  padded p j = if b2z (p 0) =? 0 then x00 else padded (fun i => p (1 + i)) (j - 1).
Proof.
  intros Hj. unfold padded.
  replace (Z.to_nat j) with (S (Z.to_nat (j - 1))) by lia.
  cbn [seq existsb]. change (Z.of_nat 0) with 0.
  destruct (b2z (p 0) =? 0); [done|]. cbn [orb].
  rewrite existsb_seq_shift. replace (1 + (j - 1)) with j by lia.
  erewrite existsb_seq_ext; [done|]. intros k. cbn beta.
  replace (Z.of_nat (S k)) with (1 + Z.of_nat k) by lia. done.
Qed.

Lemma padded_0 p : padded p 0 = p 0.
Proof. done. Qed.

Lemma padded_ext p q j :
  (forall i, 0 <= i <= j -> p i = q i) -> 0 <= j -> padded p j = padded q j.
Proof.
  intros H Hj. unfold padded. rewrite (H j) by lia.
  assert (E : existsb (fun k => b2z (p (Z.of_nat k)) =? 0) (seq 0 (Z.to_nat j))
            = existsb (fun k => b2z (q (Z.of_nat k)) =? 0) (seq 0 (Z.to_nat j))).
  { apply eq_iff_eq_true. rewrite !existsb_exists.
    split; intros (k & Hk & Hz); exists k; (split; [done|]);
      apply in_seq in Hk; [rewrite <- H by lia|rewrite H by lia]; done. }
  by rewrite E.
Qed.

Lemma strncpy_loop_spec n : forall m s t x,
  (s + Z.of_nat n <= t \/ t + Z.of_nat n <= s) ->
  strncpy_loop m s t n x =
  if (s <=? x) && (x <? s + Z.of_nat n) then padded (at_ m t) (x - s) else m x.
Proof.
  induction n as [|n IH]; intros m s t x Hd; cbn [strncpy_loop].
  - destruct (Z.leb_spec s x), (Z.ltb_spec x (s + Z.of_nat 0)); try done; lia.
  - destruct (b2z (m t) =? 0) eqn:E; cbn [negb].
    + rewrite fill0_spec.
      destruct (Z.leb_spec (s + 1) x), (Z.ltb_spec x (s + 1 + Z.of_nat n)),
        (Z.leb_spec s x), (Z.ltb_spec x (s + Z.of_nat (S n))); simpl; try lia.
      * rewrite padded_shift by lia. unfold at_ at 1. rewrite Z.add_0_r, E. done.
      * rewrite upd_ne by lia. done.
      * replace x with s by lia. rewrite upd_eq, Z.sub_diag, padded_0.
        unfold at_. by rewrite Z.add_0_r.
      * rewrite upd_ne by lia. done.
    + rewrite IH by lia.
      destruct (Z.leb_spec (s + 1) x), (Z.ltb_spec x (s + 1 + Z.of_nat n)),
        (Z.leb_spec s x), (Z.ltb_spec x (s + Z.of_nat (S n))); simpl; try lia.
      * rewrite (padded_shift (at_ m t)) by lia. unfold at_ at 2.
        rewrite Z.add_0_r, E. replace (x - (s + 1)) with (x - s - 1) by lia.
        apply padded_ext; [|lia]. intros i Hi. unfold at_. rewrite upd_ne by lia.
        f_equal; lia.
      * rewrite upd_ne by lia. done.
      * replace x with s by lia. rewrite upd_eq, Z.sub_diag, padded_0.
        unfold at_. by rewrite Z.add_0_r.
      * rewrite upd_ne by lia. done.
Qed.

Lemma safestrcpy_loop_spec n : forall m s t,
  (s + Z.of_nat n < t \/ t + Z.of_nat n <= s) ->
  exists k, 0 <= k <= Z.of_nat n /\
    safestrcpy_loop m s t n (s + k) = x00 /\
    (forall j, 0 <= j < k ->
       safestrcpy_loop m s t n (s + j) = m (t + j) /\ b2z (m (t + j)) <> 0) /\
    (k < Z.of_nat n -> b2z (m (t + k)) = 0) /\
    (forall x, x < s \/ s + Z.of_nat n < x -> safestrcpy_loop m s t n x = m x).
Proof.
  induction n as [|n IH]; intros m s t Hd; cbn [safestrcpy_loop].
  - exists 0. rewrite Z.add_0_r, upd_eq. split_and!; try lia; try done.
    intros x Hx. apply upd_ne. lia.
  - destruct (b2z (m t) =? 0) eqn:E; cbn [negb]; bool_hyps.
    + exists 0. rewrite !Z.add_0_r, upd_ne, upd_eq by lia. split_and!; try lia.
      * apply b2z_inj. rewrite E. done.
      * intros x Hx. rewrite !upd_ne by lia. done.
    + destruct (IH (upd m s (m t)) (s + 1) (t + 1) ltac:(lia))
        as (k & Hk & Hz & Hcp & Hend & Hout).
      exists (1 + k). split_and!; try lia.
      * replace (s + (1 + k)) with (s + 1 + k) by lia. done.
      * intros j Hj. destruct (decide (j = 0)) as [->|Hne].
        -- rewrite !Z.add_0_r, Hout, upd_eq by lia. done.
        -- specialize (Hcp (j - 1) ltac:(lia)).
           replace (s + 1 + (j - 1)) with (s + j) in Hcp by lia.
           replace (t + 1 + (j - 1)) with (t + j) in Hcp by lia.
           rewrite upd_ne in Hcp by lia. done.
      * intros Hlt. specialize (Hend ltac:(lia)).
        replace (t + 1 + k) with (t + (1 + k)) in Hend by lia.
        rewrite upd_ne in Hend by lia. done.
      * intros x Hx. rewrite Hout, upd_ne by lia. done.
Qed.

Lemma strlen_loop_spec s k : forall n i,
  0 <= i <= k -> b2z (s k) = 0 -> (forall j, i <= j < k -> b2z (s j) <> 0) ->
  (Z.to_nat (k - i) < n)%nat -> strlen_loop s i n = Some k.
Proof.
  induction n as [|n IH]; intros i Hi Hz Hnz Hn; [lia|]. cbn [strlen_loop].
  destruct (Z.eqb_spec (b2z (s i)) 0) as [E|E].
  - destruct (decide (i = k)) as [->|]; [done|]. exfalso. apply (Hnz i); lia.
  - assert (i <> k) by congruence. apply IH; try lia; auto with lia.
Qed.

(** ** Lemmas: pages *)

(** Entry [i] of the page seen as an array of 1024 words. *)
Definition word (m : mem) (p i : Z) : Z := rd32 m (p + 4 * i).

(** The two memories have the same page at [p]. *)
Definition same_page (p : Z) (m m' : mem) : Prop :=
  forall o, 0 <= o < PGSIZE -> m' (p + o) = m (p + o).

#[export] Instance same_page_equiv p : Equivalence (same_page p).
Proof.
  split.
  - intros m o Ho. done.
  - intros m m' H o Ho. by rewrite H.
  - intros m m' m'' H1 H2 o Ho. by rewrite H2, H1.
Qed.

Lemma same_page_word p m m' i :
  same_page p m m' -> 0 <= i < 1024 -> word m' p i = word m p i.
Proof.
  intros H Hi. unfold word. apply rd32_ext. intros j Hj.
  rewrite <- !Z.add_assoc. apply H. unfold PGSIZE. lia.
Qed.

(** Distinct aligned pages do not overlap. *)
Lemma aligned_disjoint p q :
  aligned p -> aligned q -> p <> q -> p + PGSIZE <= q \/ q + PGSIZE <= p.
Proof. unfold aligned, PGSIZE. intros. Z.div_mod_to_equations. lia. Qed.

Lemma aligned_offset p q o o' :
  aligned p -> aligned q -> 0 <= o < PGSIZE -> 0 <= o' < PGSIZE ->
  p + o = q + o' -> p = q /\ o = o'.
Proof. unfold aligned, PGSIZE. intros. Z.div_mod_to_equations. lia. Qed.

Lemma word_wr32 m p q i j v :
  aligned p -> aligned q -> 0 <= i < 1024 -> 0 <= j < 1024 -> 0 <= v < 2 ^ 32 ->
  word (wr32 m (p + 4 * i) v) q j =
  if (p =? q) && (i =? j) then v else word m q j.
Proof.
  intros Hp Hq Hi Hj Hv. unfold word.
  destruct (Z.eqb_spec p q) as [->|Hpq].
  - destruct (Z.eqb_spec i j) as [->|Hij]; simpl; [by apply rd32_wr32|].
    apply rd32_wr32_ne. lia.
  - pose proof (aligned_disjoint p q Hp Hq Hpq). unfold PGSIZE in *.
    apply rd32_wr32_ne. lia.
Qed.

Lemma same_page_wr32 m p q i v :
  aligned p -> aligned q -> p <> q -> 0 <= i < 1024 ->
  same_page q m (wr32 m (p + 4 * i) v).
Proof.
  intros Hp Hq Hne Hi o Ho. pose proof (aligned_disjoint p q Hp Hq Hne).
  unfold PGSIZE in *. apply wr32_other. lia.
Qed.

Lemma same_page_memset m p q c :
  aligned p -> aligned q -> p <> q -> same_page q m (memset m p c PGSIZE).
Proof.
  intros Hp Hq Hne o Ho. rewrite memset_spec by (unfold PGSIZE; lia).
  pose proof (aligned_disjoint p q Hp Hq Hne).
  destruct (Z.leb_spec p (q + o)), (Z.ltb_spec (q + o) (p + PGSIZE)); try done; lia.
Qed.

Lemma word_memset0 m p i : 0 <= i < 1024 -> word (memset m p 0 PGSIZE) p i = 0.
Proof.
  intros Hi. unfold word, rd32.
  rewrite !memset_spec by (unfold PGSIZE; lia).
  repeat match goal with |- context [(p <=? ?x) && (?x <? p + PGSIZE)] =>
    replace ((p <=? x) && (x <? p + PGSIZE)) with true by
      (symmetry; apply andb_true_intro; split;
       [apply Z.leb_le|apply Z.ltb_lt]; unfold PGSIZE; lia) end.
  change (z2b 0) with x00. done.
Qed.

Lemma same_page_memmove m dst src q n :
  aligned dst -> aligned q -> dst <> q -> 0 <= n <= PGSIZE ->
  same_page q m (memmove m dst src n).
Proof.
  intros Hd Hq Hne Hn o Ho. rewrite memmove_spec by lia.
  pose proof (aligned_disjoint dst q Hd Hq Hne).
  destruct (Z.leb_spec dst (q + o)), (Z.ltb_spec (q + o) (dst + n)); try done; lia.
Qed.

Lemma memmove_page m dst src o :
  0 <= o < PGSIZE -> memmove m dst src PGSIZE (dst + o) = m (src + o).
Proof.
  intros Ho. rewrite memmove_spec by lia.
  destruct (Z.leb_spec dst (dst + o)), (Z.ltb_spec (dst + o) (dst + PGSIZE)); try lia.
  simpl. f_equal; lia.
Qed.

Lemma word_memmove m dst src i :
  0 <= i < 1024 -> word (memmove m dst src PGSIZE) dst i = word m src i.
Proof.
  intros Hi. unfold word. apply rd32_ext. intros j Hj.
  rewrite <- !Z.add_assoc. apply memmove_page. unfold PGSIZE. lia.
Qed.

(** ** Properties *)

(** [memmove] is correct for any overlap of source and destination: the
    destination receives the bytes the source had before the call and every
    other byte is unchanged. *)
Theorem memmove_correct m dst src n x :
  0 <= n ->
  memmove m dst src n x =
  if (dst <=? x) && (x <? dst + n) then m (src + (x - dst)) else m x.
Proof. apply memmove_spec. Qed.

(** [memset] stores the low byte of [c] in each of the [n] bytes and
    nowhere else, whether it takes the word-at-a-time path or the byte path. *)
Theorem memset_correct m dst c n x :
  0 <= n ->
  memset m dst c n x = if (dst <=? x) && (x <? dst + n) then z2b c else m x.
Proof. apply memset_spec. Qed.

(** [strncmp] returns 0 exactly when the two strings agree on their first
    [n] bytes, up to and including the first NUL. *)
Theorem strncmp_equal p q n :
  0 <= n ->
  (strncmp p q n = 0 <->
   forall j, 0 <= j < n -> (forall k, 0 <= k < j -> b2z (p k) <> 0) -> p j = q j).
Proof.
  intros Hn. unfold strncmp. rewrite strncmp_loop_spec by (intros; lia).
  by rewrite Z.add_0_l, Z2Nat.id.
Qed.

(** [strncpy] into a disjoint buffer writes exactly [n] bytes: the source
    up to its NUL, then NULs. *)
Theorem strncpy_pads m s t n x :
  0 <= n -> s + n <= t \/ t + n <= s ->
  strncpy m s t n x =
  if (s <=? x) && (x <? s + n) then padded (at_ m t) (x - s) else m x.
Proof.
  intros Hn Hd. unfold strncpy. by rewrite strncpy_loop_spec, Z2Nat.id by lia.
Qed.

(** [safestrcpy] into a disjoint buffer of [n] > 0 bytes leaves a
    NUL-terminated string there: the longest prefix of the source that fits,
    and it writes nothing outside the buffer. *)
Theorem safestrcpy_terminated m s t n :
  0 < n -> s + n <= t \/ t + n <= s ->
  exists k, 0 <= k < n /\ safestrcpy m s t n (s + k) = x00 /\
    (forall j, 0 <= j < k -> safestrcpy m s t n (s + j) = m (t + j) /\ b2z (m (t + j)) <> 0) /\
    (k < n - 1 -> b2z (m (t + k)) = 0) /\
    (forall x, x < s \/ s + n <= x -> safestrcpy m s t n x = m x).
Proof.
  intros Hn Hd. unfold safestrcpy. rewrite (proj2 (Z.leb_gt n 0)) by done.
  destruct (safestrcpy_loop_spec (Z.to_nat (n - 1)) m s t) as (k & Hk & Hz & Hc & He & Ho);
    [lia|].
  exists k. split; [lia|]. split; [done|]. split; [done|]. split.
  - intros Hlt. apply He. lia.
  - intros x Hx. apply Ho. lia.
Qed.

