(* ===== verification/Kalloc.v ===== *)
(** * The physical page allocator: kalloc.c

    Free pages form a singly linked list threaded through the pages
    themselves: the first word of a free page is the address of the next one.
    [chain] reads that list out of memory; [free_wf] is the allocator's
    invariant, and the lemmas show that [kalloc] and [kfree] are pop and push
    on the abstract list of free pages. *)

From S2P Require Import Prelude Layout Mem.

Open Scope Z_scope.

(** ** State

    Memory, the allocator's globals ([kmem]), and the page-table registers the
    paging code uses.  [kmem_lock] says whether this CPU holds [kmem.lock]. *)
Record mstate : Type := MState {
  mm : mem;
  kmem_lock : bool;
  use_lock : bool;
  freelist : Z;
  kpgdir : Z;
  cr3 : Z
}.

Definition set_mm (m : mem) (s : mstate) : mstate :=
  MState m (kmem_lock s) (use_lock s) (freelist s) (kpgdir s) (cr3 s).
Definition set_kmem_lock (b : bool) (s : mstate) : mstate :=
  MState (mm s) b (use_lock s) (freelist s) (kpgdir s) (cr3 s).
Definition set_use_lock (b : bool) (s : mstate) : mstate :=
  MState (mm s) (kmem_lock s) b (freelist s) (kpgdir s) (cr3 s).
Definition set_freelist (p : Z) (s : mstate) : mstate :=
  MState (mm s) (kmem_lock s) (use_lock s) p (kpgdir s) (cr3 s).
Definition set_kpgdir (p : Z) (s : mstate) : mstate :=
  MState (mm s) (kmem_lock s) (use_lock s) (freelist s) p (cr3 s).
Definition set_cr3 (p : Z) (s : mstate) : mstate :=
  MState (mm s) (kmem_lock s) (use_lock s) (freelist s) (kpgdir s) p.

Abbreviation MM := (M mstate).

(** Memory accesses through the kernel's direct mapping. *)
Definition memM (f : mem -> mem) : MM unit := modify (fun s => set_mm (f (mm s)) s).
Definition ld32 (p : Z) : MM Z := gets (fun s => rd32 (mm s) p).
Definition st32 (p v : Z) : MM unit := memM (fun m => wr32 m p v).

(** [acquire(&kmem.lock)] and [release(&kmem.lock)]: the lock is not recursive. *)
Definition acquire_kmem : MM unit :=
  let! held := gets kmem_lock in
  if (held : bool) then panic "acquire" else modify (set_kmem_lock true).
Definition release_kmem : MM unit :=
  let! held := gets kmem_lock in
  if (held : bool) then modify (set_kmem_lock false) else panic "release".

Section Kalloc.
Context `{KernelImage}.

Definition kfree (v : Z) : MM unit :=
  if negb (v mod PGSIZE =? 0) || (v <? end_) || (PHYSTOP <=? v2p v) then
    panic "kfree"
  else
    memM (fun m => memset m v 1 PGSIZE) ;;;
    let! ul := gets use_lock in
    when ul acquire_kmem ;;;
    let! next := gets freelist in
    st32 v next ;;;
    modify (set_freelist v) ;;;
    when ul release_kmem.

Definition kalloc : MM Z :=
  let! ul := gets use_lock in
  when ul acquire_kmem ;;;
  let! r := gets freelist in
  when (negb (r =? 0)) (let! next := ld32 r in modify (set_freelist next)) ;;;
  when ul release_kmem ;;;
  ret r.

(** [for(; p + PGSIZE <= vend; p += PGSIZE) kfree(p);] *)
Fixpoint freerange_loop (p vend : Z) (fuel : nat) : MM unit :=
  if p + PGSIZE <=? vend then
    match fuel with
    | O => nofuel
    | S k => kfree p ;;; freerange_loop (p + PGSIZE) vend k
    end
  else ret tt.

Definition freerange (vstart vend : Z) : MM unit :=
  let p := PGROUNDUP vstart in
  freerange_loop p vend (Z.to_nat ((vend - p) / PGSIZE)).

Definition kinit1 (vstart vend : Z) : MM unit :=
  modify (set_kmem_lock false) ;;;
  modify (set_use_lock false) ;;;
  freerange vstart vend.

Definition kinit2 (vstart vend : Z) : MM unit :=
  freerange vstart vend ;;;
  modify (set_use_lock true).

(** ** The invariant *)

(** A page the allocator may hold. *)
Definition page_ok (p : Z) : Prop :=
  aligned p /\ end_ <= p /\ p + PGSIZE <= KERNBASE + PHYSTOP.

(** Following the links from [p] yields the pages of [l] and then 0. *)
Fixpoint chain (m : mem) (p : Z) (l : list Z) : Prop :=
  match l with
  | [] => p = 0
  | q :: l' => p = q /\ q <> 0 /\ chain m (rd32 m q) l'
  end.

Record free_wf (s : mstate) (l : list Z) : Prop := {
  fw_chain : chain (mm s) (freelist s) l;
  fw_nodup : NoDup l;
  fw_pages : Forall page_ok l;
  fw_lock : kmem_lock s = false
}.

Context `{!KernelImageOk}.

Lemma page_ok_bounds p : page_ok p -> KERNLINK < p /\ p + PGSIZE < 2 ^ 32 /\ p <> 0.
Proof.
  intros (_ & H1 & H2). pose proof data_low. pose proof data_end.
  unfold KERNLINK, KERNBASE, EXTMEM, PHYSTOP, PGSIZE in *. lia.
Qed.

Lemma page_ok_v2p p : page_ok p -> v2p p = p - KERNBASE /\ EXTMEM < v2p p < PHYSTOP.
Proof.
  intros Hp. pose proof (page_ok_bounds p Hp) as (? & ? & ?).
  destruct Hp as (_ & ? & ?). unfold v2p.
  rewrite u32_small; unfold KERNLINK, KERNBASE, EXTMEM, PHYSTOP, PGSIZE in *; lia.
Qed.

(** The guard of [kfree] is exactly [page_ok]. *)
Lemma kfree_guard v :
  0 <= v < 2 ^ 32 ->
  negb (v mod PGSIZE =? 0) || (v <? end_) || (PHYSTOP <=? v2p v) = false <-> page_ok v.
Proof.
  intros Hv. pose proof data_low. pose proof data_end. unfold page_ok, aligned.
  split.
  - intros E. bool_hyps. unfold v2p in *.
    rewrite u32_small in * by (unfold KERNLINK, KERNBASE, EXTMEM in *; lia).
    split_and!; try done. unfold PGSIZE, KERNBASE, PHYSTOP in *.
    Z.div_mod_to_equations. lia.
  - intros Hp. pose proof (page_ok_v2p v Hp) as [_ ?].
    destruct Hp as (Ha & He & Hh).
    rewrite Ha. simpl. apply orb_false_intro; [apply Z.ltb_ge|apply Z.leb_gt]; lia.
Qed.

Lemma chain_ext m m' l : forall p,
  (forall q, In q l -> rd32 m' q = rd32 m q) -> chain m p l -> chain m' p l.
Proof.
  induction l as [|q l IH]; intros p Hext Hc; [done|].
  destruct Hc as (-> & Hnz & Hc). split_and!; [done|done|].
  rewrite Hext by (left; done). apply IH; [|done].
  intros q' Hq'. apply Hext. by right.
Qed.

(** The memory of pages outside the free list may change freely. *)
Lemma free_wf_ext s s' l :
  free_wf s l -> freelist s' = freelist s -> kmem_lock s' = false ->
  (forall p, In p l -> same_page p (mm s) (mm s')) -> free_wf s' l.
Proof.
  intros [Hc Hn Hp Hl] Hf Hk Hm. split; try done. rewrite Hf.
  eapply chain_ext; [|done]. intros q Hq.
  pose proof (same_page_word q (mm s) (mm s') 0 (Hm q Hq) ltac:(lia)) as E.
  unfold word in E. by rewrite Z.mul_0_r, Z.add_0_r in E.
Qed.

Lemma kalloc_spec s p l :
  free_wf s (p :: l) ->
  wp kalloc s (fun r s' => r = p /\ s' = set_freelist (rd32 (mm s) p) s /\ free_wf s' l).
Proof.
  intros [(Hh & Hnz & Hc) Hnd Hpg Hl]. unfold kalloc.
  assert (Hwf : free_wf (set_freelist (rd32 (mm s) p) s) l).
  { apply NoDup_cons in Hnd as [_ Hnd]. apply Forall_cons in Hpg as [_ Hpg].
    split; done. }
  destruct s as [m k u f kp c]; simpl in *. subst f k.
  unfold wp, bind, gets, when, acquire_kmem, release_kmem, ld32, modify; simpl.
  destruct u; simpl; destruct (Z.eqb_spec p 0); simpl; try done; lia.
Qed.

Lemma kalloc_empty s :
  free_wf s [] -> wp kalloc s (fun r s' => r = 0 /\ s' = s).
Proof.
  intros [Hc _ _ Hl]. simpl in Hc. destruct s as [m k u f kp c]; simpl in *. subst f k.
  unfold kalloc, wp, bind, gets, when, acquire_kmem, release_kmem, modify; simpl.
  by destruct u.
Qed.

(** The memory [kfree] leaves: junk in the freed page, and the link word. *)
Definition kfree_mem (s : mstate) (v : Z) : mem :=
  wr32 (memset (mm s) v 1 PGSIZE) v (freelist s).

Lemma kfree_mem_other s v p :
  page_ok v -> aligned p -> p <> v -> same_page p (mm s) (kfree_mem s v).
Proof.
  intros Hv Hp Hne. unfold kfree_mem. transitivity (memset (mm s) v 1 PGSIZE).
  - apply same_page_memset; try done. apply Hv.
  - pose proof (same_page_wr32 (memset (mm s) v 1 PGSIZE) v p 0 (freelist s)) as W.
    rewrite Z.mul_0_r, Z.add_0_r in W. apply W; [apply Hv|done|congruence|lia].
Qed.

Lemma free_wf_range s l : free_wf s l -> 0 <= freelist s < 2 ^ 32.
Proof.
  intros [Hc _ Hp _]. destruct l as [|q l]; simpl in Hc; [lia|].
  destruct Hc as (-> & _ & _). apply Forall_cons in Hp as [Hp _].
  pose proof (page_ok_bounds q Hp). unfold KERNLINK, KERNBASE, EXTMEM, PGSIZE in *. lia.
Qed.

Lemma kfree_spec s v l :
  free_wf s l -> page_ok v -> v ∉ l ->
  wp (kfree v) s (fun _ s' =>
    s' = set_freelist v (set_mm (kfree_mem s v) s) /\ free_wf s' (v :: l)).
Proof.
  intros Hwf Hv Hni. pose proof (page_ok_bounds v Hv) as (? & ? & ?).
  unfold kfree.
  rewrite (proj2 (kfree_guard v ltac:(unfold KERNLINK, KERNBASE, EXTMEM, PGSIZE in *; lia)))
    by done.
  assert (Hwf' : free_wf (set_freelist v (set_mm (kfree_mem s v) s)) (v :: l)).
  { pose proof (free_wf_range s l Hwf) as Hr.
    destruct Hwf as [Hc Hn Hp Hl]. split; simpl.
    - split_and!; [done|done|]. unfold kfree_mem at 2.
      rewrite rd32_wr32 by done.
      eapply chain_ext; [|done]. intros q Hq%list_elem_of_In.
      assert (Hne : q <> v) by congruence.
      rewrite Forall_forall in Hp. pose proof (proj1 (Hp q Hq)) as Hqa.
      pose proof (same_page_word q _ _ 0 (kfree_mem_other s v q Hv Hqa Hne) ltac:(lia)) as W.
      unfold word in W. by rewrite Z.mul_0_r, Z.add_0_r in W.
    - by apply NoDup_cons.
    - by apply Forall_cons.
    - done. }
  destruct Hwf as [Hc Hn Hp Hl]. destruct s as [m k u f kp c]; simpl in *. subst k.
  unfold wp, bind, gets, when, acquire_kmem, release_kmem, st32, memM, modify; simpl.
  destruct u; simpl; done.
Qed.

(** The pages of a range, in ascending order. *)
Definition pages (p : Z) (n : nat) : list Z :=
  (fun i => p + PGSIZE * Z.of_nat i) <$> seq 0 n.

Lemma pages_S p n : pages p (S n) = p :: pages (p + PGSIZE) n.
Proof.
  unfold pages. cbn [seq fmap list_fmap]. f_equal; [lia|].
  rewrite <- fmap_S_seq, <- list_fmap_compose. apply list_fmap_ext.
  intros i x _. unfold compose. lia.
Qed.

Lemma elem_of_pages p n q :
  q ∈ pages p n <-> exists i, 0 <= i < Z.of_nat n /\ q = p + PGSIZE * i.
Proof.
  unfold pages. rewrite list_elem_of_fmap. split.
  - intros (i & -> & Hi%elem_of_seq). exists (Z.of_nat i). unfold PGSIZE. lia.
  - intros (i & Hi & ->). exists (Z.to_nat i). rewrite elem_of_seq, Z2Nat.id by lia.
    split; [done|lia].
Qed.

Lemma freerange_loop_spec n : forall s p vend fuel l,
  free_wf s l -> aligned p -> end_ <= p -> vend <= KERNBASE + PHYSTOP ->
  p + PGSIZE * Z.of_nat n <= vend < p + PGSIZE * (Z.of_nat n + 1) ->
  (n <= fuel)%nat -> (forall q, q ∈ pages p n -> q ∉ l) ->
  wp (freerange_loop p vend fuel) s (fun _ s' =>
    free_wf s' (reverse (pages p n) ++ l) /\
    kpgdir s' = kpgdir s /\ cr3 s' = cr3 s /\ use_lock s' = use_lock s).
Proof.
  induction n as [|n IH]; intros s p vend fuel l Hwf Ha He Hh Hv Hf Hd.
  - destruct fuel; cbn [freerange_loop]; destruct (Z.leb_spec (p + PGSIZE) vend);
      unfold PGSIZE in *; try lia; by apply wp_ret.
  - destruct fuel as [|fuel]; [lia|]. cbn [freerange_loop].
    destruct (Z.leb_spec (p + PGSIZE) vend); [|unfold PGSIZE in *; lia].
    rewrite pages_S in Hd |- *. rewrite reverse_cons, <- app_assoc. cbn [app].
    apply wp_bind. wp_use kfree_spec; [done|split_and!; done || lia|apply Hd; set_solver|].
    intros [] s' [-> Hwf']. wp_use (IH _ (p + PGSIZE) vend fuel (p :: l)); try done.
    all: try (unfold PGSIZE in *; lia).
    + unfold aligned, PGSIZE in *. Z.div_mod_to_equations. lia.
    + intros q Hq. apply not_elem_of_cons. split.
      * apply elem_of_pages in Hq as (i & ? & ->). unfold PGSIZE. lia.
      * apply Hd. set_solver.
Qed.

Lemma freerange_spec s vstart vend n l :
  free_wf s l -> end_ <= vstart -> vend <= KERNBASE + PHYSTOP ->
  vstart <= vend -> n = Z.to_nat ((vend - PGROUNDUP vstart) / PGSIZE) ->
  PGROUNDUP vstart <= vend ->
  (forall q, q ∈ pages (PGROUNDUP vstart) n -> q ∉ l) ->
  wp (freerange vstart vend) s (fun _ s' =>
    free_wf s' (reverse (pages (PGROUNDUP vstart) n) ++ l) /\
    kpgdir s' = kpgdir s /\ cr3 s' = cr3 s /\ use_lock s' = use_lock s).
Proof.
  intros Hwf He Hh Hle -> Hr Hd. pose proof data_low. pose proof data_end.
  assert (Hru : PGROUNDUP vstart = (vstart + PGSIZE - 1) / PGSIZE * PGSIZE).
  { apply PGROUNDUP_eq; unfold KERNLINK, KERNBASE, EXTMEM, PHYSTOP, PGSIZE in *; lia. }
  apply freerange_loop_spec; try done.
  - rewrite Hru. apply Z.mod_mul. unfold PGSIZE. lia.
  - rewrite Hru. unfold PGSIZE. Z.div_mod_to_equations. lia.
  - revert Hr. generalize (PGROUNDUP vstart). intros p Hp. unfold PGSIZE.
    Z.div_mod_to_equations. lia.
Qed.

(** A machine whose allocator holds exactly the pages of a range. *)
Lemma kinit_state vstart vend :
  end_ <= vstart -> vstart <= vend -> vend <= KERNBASE + PHYSTOP ->
  PGROUNDUP vstart <= vend ->
  exists s, free_wf s (reverse (pages (PGROUNDUP vstart)
                         (Z.to_nat ((vend - PGROUNDUP vstart) / PGSIZE)))).
Proof.
  intros H1 H2 H3 H4.
  pose proof (freerange_spec (MState (fun _ => x00) false false 0 0 0) vstart vend
                (Z.to_nat ((vend - PGROUNDUP vstart) / PGSIZE)) []) as W.
  apply wp_Ok in W as (u & s & _ & W & _); try done.
  - exists s. by rewrite app_nil_r in W.
  - split; try done. by apply NoDup_nil.
  - intros q _. apply not_elem_of_nil.
Qed.

(** ** Clients of the allocator

    A client holds the pages it was given.  It may allocate, free a page it
    holds, and write the pages it holds. *)
Inductive client_step : mstate * list Z -> mstate * list Z -> Prop :=
  | client_alloc s held r s' :
      kalloc s = Ok r s' -> r <> 0 -> client_step (s, held) (s', r :: held)
  | client_full s held s' :
      kalloc s = Ok 0 s' -> client_step (s, held) (s', held)
  | client_free s held v s' :
      v ∈ held -> kfree v s = Ok tt s' ->
      client_step (s, held) (s', list_difference held [v])
  | client_write s held v m :
      v ∈ held -> (forall a, a < v \/ v + PGSIZE <= a -> m a = mm s a) ->
      client_step (s, held) (set_mm m s, held).

(** Every page of [all] is either free or held, and not both. *)
Definition accounted (all : list Z) (c : mstate * list Z) : Prop :=
  exists l, free_wf c.1 l /\ l ++ c.2 ≡ₚ all.

Lemma perm_remove (v : Z) l :
  NoDup l -> v ∈ l -> l ≡ₚ v :: list_difference l [v].
Proof.
  intros Hn Hv. apply NoDup_Permutation; [done| |].
  - apply NoDup_cons. split.
    + rewrite list_elem_of_difference. set_solver.
    + by apply NoDup_list_difference.
  - intros x. rewrite elem_of_cons, list_elem_of_difference, list_elem_of_singleton.
    destruct (decide (x = v)); naive_solver.
Qed.

Lemma client_step_accounted all c c' :
  NoDup all -> Forall page_ok all ->
  accounted all c -> client_step c c' -> accounted all c'.
Proof.
  intros Hnd Hok (l & Hwf & Hp) Hst. rewrite <- Hp in Hnd, Hok.
  apply NoDup_app in Hnd as (Hl & Hdis & Hh). apply Forall_app in Hok as [Hlok Hhok].
  rewrite Forall_forall in Hlok, Hhok.
  destruct Hst as [s held r s' E Hr|s held s' E|s held v s' Hv E|s held v m Hv Hm]; simpl in *.
  - destruct l as [|p l].
    { apply kalloc_empty in Hwf. unfold wp in Hwf. rewrite E in Hwf. naive_solver. }
    apply kalloc_spec in Hwf. unfold wp in Hwf. rewrite E in Hwf.
    destruct Hwf as (-> & _ & Hwf). exists l. split; [done|]. simpl.
    by rewrite <- Hp, <- Permutation_middle.
  - destruct l as [|p l].
    { pose proof (kalloc_empty _ Hwf) as W. unfold wp in W. rewrite E in W.
      destruct W as [_ ->]. by exists []. }
    pose proof (kalloc_spec _ _ _ Hwf) as W. unfold wp in W. rewrite E in W.
    destruct W as (<- & _). destruct Hwf as [(_ & Hz & _) _ _ _]. done.
  - pose proof (kfree_spec s v l Hwf (Hhok v Hv)) as W.
    unfold wp in W. rewrite E in W. destruct W as [_ W].
    { intros Hvl. by apply (Hdis v). }
    exists (v :: l). split; [done|]. simpl. rewrite <- Hp.
    rewrite (perm_remove v held) at 2 by done. by rewrite <- Permutation_middle.
  - exists l. split; [|done]. eapply free_wf_ext; [done|done|apply Hwf|].
    intros p Hpl%list_elem_of_In o Ho. apply Hm.
    assert (Hne : p <> v) by (intros ->; by apply (Hdis v)).
    pose proof (aligned_disjoint p v (proj1 (Hlok p Hpl)) (proj1 (Hhok v Hv)) Hne). lia.
Qed.

(** ** Properties *)

(** [kalloc] is pop on the abstract list of free pages: on an
    empty list it returns 0 and changes nothing; otherwise it returns the
    first free page, does not touch memory, and keeps the invariant. *)
Theorem kalloc_refines s l :
  free_wf s l ->
  wp kalloc s (fun r s' =>
    match l with
    | [] => r = 0 /\ s' = s
    | p :: l' => r = p /\ page_ok p /\ p ∉ l' /\ mm s' = mm s /\ free_wf s' l'
    end).
Proof.
  intros Hwf. destruct l as [|p l']; [by apply kalloc_empty|].
  pose proof (fw_nodup _ _ Hwf) as [? _]%NoDup_cons.
  pose proof (fw_pages _ _ Hwf) as [? _]%Forall_cons.
  wp_use (kalloc_spec s p l' Hwf). intros r s' (-> & -> & ?). by split_and!.
Qed.

(** [kfree] of an allocatable page that is not free is push on
    the list of free pages.  It fills the page with junk and changes no byte
    outside it. *)
Theorem kfree_refines s v l :
  free_wf s l -> page_ok v -> v ∉ l ->
  wp (kfree v) s (fun _ s' =>
    free_wf s' (v :: l) /\
    (forall o, 4 <= o < PGSIZE -> mm s' (v + o) = x01) /\
    (forall a, a < v \/ v + PGSIZE <= a -> mm s' a = mm s a)).
Proof.
  intros Hwf Hv Hni. wp_use (kfree_spec s v l Hwf Hv Hni).
  intros _ s' [-> Hwf']. split; [done|]. simpl. unfold kfree_mem.
  split; intros; rewrite wr32_other, memset_spec by (unfold PGSIZE in *; lia).
  - rewrite (proj2 (Z.leb_le _ _)), (proj2 (Z.ltb_lt _ _)) by lia. done.
  - destruct (Z.leb_spec v a), (Z.ltb_spec a (v + PGSIZE)); try done; lia.
Qed.

(** [kfree] panics, without touching the state, exactly on the
    addresses that are not pages above the kernel and below [PHYSTOP]. *)
Theorem kfree_rejects s v l :
  free_wf s l -> 0 <= v < 2 ^ 32 ->
  (kfree v s = Panic "kfree" s <-> ~ page_ok v).
Proof.
  intros Hwf Hv. rewrite <- (kfree_guard v Hv). unfold kfree.
  destruct (negb (v mod PGSIZE =? 0) || (v <? end_) || (PHYSTOP <=? v2p v)).
  - split; [intros _; discriminate|done].
  - split; [|done]. intros E. exfalso. destruct Hwf as [_ _ _ Hl].
    destruct s as [m k u f kp c]; simpl in *. subst k.
    revert E. unfold bind, gets, when, acquire_kmem, release_kmem, st32, memM, modify.
    by destruct u.
Qed.

(** C37. Whatever sequence of allocations, frees of held pages and
    writes to held pages a client performs, no page is lost or given out
    twice: the free pages and the held pages together are always exactly the
    initial free pages. *)
Theorem kalloc_clients s0 l0 s held :
  free_wf s0 l0 -> rtc client_step (s0, []) (s, held) ->
  exists l, free_wf s l /\ l ++ held ≡ₚ l0.
Proof.
  intros Hwf Hr.
  assert (Ha : accounted l0 (s0, [])) by (exists l0; by rewrite app_nil_r).
  change (accounted l0 (s, held)). revert Hr Ha.
  generalize (s0, @nil Z) (s, held). intros c c' Hr. induction Hr as [|c c1 c2 Hs _ IH]; [done|].
  intros Ha. apply IH. eapply client_step_accounted; eauto using fw_nodup, fw_pages.
Qed.

(** From the zeroed data segment, after [kinit1] the allocator holds exactly the whole pages of
    the range it is given, and after [kinit2] of a second, later range also
    those; locking is off before the second call and on after it. *)
Theorem kinit_pages s a b c :
  freelist s = 0 -> end_ <= a -> PGROUNDUP a <= b -> PGROUNDUP b <= c -> c <= KERNBASE + PHYSTOP ->
  a <= b -> b <= c ->
  wp (kinit1 a b ;;; kinit2 b c) s (fun _ s' =>
    use_lock s' = true /\
    exists l, free_wf s' l /\
      forall p, p ∈ l <-> aligned p /\ ((a <= p /\ p + PGSIZE <= b) \/
                                       (b <= p /\ p + PGSIZE <= c))).
Proof.
  intros Hz He H1 H2 H3 H4 H5. pose proof data_low. pose proof data_end.
  assert (Hlow : 0 <= a) by (unfold KERNLINK, KERNBASE, EXTMEM in *; lia).
  assert (Hhi : c + PGSIZE - 1 < 2 ^ 32) by (unfold KERNBASE, PHYSTOP, PGSIZE in *; lia).
  unfold kinit1, kinit2. do 3 (apply wp_bind; try apply wp_modify).
  wp_use (freerange_spec _ a b _ []); try done; try lia.
  { split; try done. by apply NoDup_nil. }
  { intros q _. apply not_elem_of_nil. }
  intros _ s1 (Hwf1 & _). rewrite app_nil_r in Hwf1.
  apply wp_bind. wp_use (freerange_spec s1 b c _ _ Hwf1); try done; try lia.
  { intros q Hq. rewrite elem_of_reverse. rewrite elem_of_pages in Hq |- *.
    destruct Hq as (i & Hi & ->). intros (j & Hj & E).
    rewrite !PGROUNDUP_eq in * by lia. unfold PGSIZE in *. Z.div_mod_to_equations. nia. }
  intros _ s2 (Hwf2 & _). apply wp_modify. split; [done|].
  eexists. split; [eapply free_wf_ext; [exact Hwf2|done|apply Hwf2|done]|].
  intros p. rewrite elem_of_app, !elem_of_reverse, !elem_of_pages, !PGROUNDUP_eq in * by lia.
  clear Hwf1 Hwf2. unfold aligned, PGSIZE in *. split.
  - intros [(i & Hi & ->)|(i & Hi & ->)]; Z.div_mod_to_equations; lia.
  - intros [Ha [Hp|Hp]]; [right|left];
      [exists (p / 4096 - (a + 4096 - 1) / 4096)|exists (p / 4096 - (b + 4096 - 1) / 4096)];
      Z.div_mod_to_equations; lia.
Qed.

End Kalloc.

(** ** Witnesses: one free page, in zeroed memory *)

#[local] Existing Instance example_image.
#[local] Existing Instance example_image_ok.

Definition one_page : mstate := MState (fun _ => x00) false true 0x80200000 0 0.

Lemma one_page_wf : free_wf one_page [0x80200000].
Proof.
  split; try done.
  - by apply NoDup_singleton.
  - repeat constructor; vm_compute; done || discriminate.
Qed.

Lemma page_ok_example : page_ok 0x80300000.
Proof. repeat split; vm_compute; done || discriminate. Qed.

Lemma kalloc_clients_witness :
  exists s held l, free_wf s l /\ l ++ held ≡ₚ [0x80200000] /\ held = [0x80200000].
Proof.
  exists (set_freelist 0 one_page), [0x80200000].
  destruct (kalloc_clients one_page [0x80200000] (set_freelist 0 one_page) [0x80200000])
    as (l & Hwf & Hp).
  - exact one_page_wf.
  - eapply rtc_l; [|apply rtc_refl]. apply client_alloc; [reflexivity|discriminate].
  - exists l. auto.
Defined.

