(* ===== verification/Vm.v ===== *)
(** * Page tables: vm.c

    The operations on two-level page tables, over the memory and the page
    allocator of Kalloc.  A page directory [d] is the kernel address of a page
    of 1024 entries; a present entry points to a page table.  [mapping] reads
    the entry of a virtual address out of memory, and the specifications say
    how each operation changes it. *)

From S2P Require Import Prelude Layout Mem Kalloc.

Open Scope Z_scope.

(** ** The MMU

    Address translation in kernel mode, with [CR0_WP] set (entry.S): a write
    needs [PTE_W] in both entries.  The result is the kernel address of the
    byte. *)
Definition translate (m : mem) (pgdir va : Z) (write : bool) : option Z :=
  let pde := word m pgdir (PDX va) in
  if has pde PTE_P && (negb write || has pde PTE_W) then
    let pte := word m (p2v (PTE_ADDR pde)) (PTX va) in
    if has pte PTE_P && (negb write || has pte PTE_W) then
      Some (p2v (PTE_ADDR pte) + va mod PGSIZE)
    else None
  else None.

(** A word access by the kernel at any address.  Addresses below [KERNBASE],
    the null pointer among them, go through the page table in use; an access
    the MMU refuses ends in the kernel's own trap handler, which panics. *)
Definition ldv (p : Z) : MM Z := fun s =>
  if p <? KERNBASE then
    match translate (mm s) (p2v (cr3 s)) p false with
    | Some k => Ok (rd32 (mm s) k) s
    | None => Panic "trap" s
    end
  else Ok (rd32 (mm s) p) s.

Definition stv (p v : Z) : MM unit := fun s =>
  if p <? KERNBASE then
    match translate (mm s) (p2v (cr3 s)) p true with
    | Some k => Ok tt (set_mm (wr32 (mm s) k v) s)
    | None => Panic "trap" s
    end
  else Ok tt (set_mm (wr32 (mm s) p v) s).

(** [memmove] between any two addresses, of bytes that do not cross a page on
    either side: each side is translated once. *)
Definition mmu (va : Z) (write : bool) : MM Z := fun s =>
  if va <? KERNBASE then
    match translate (mm s) (p2v (cr3 s)) va write with
    | Some k => Ok k s
    | None => Panic "trap" s
    end
  else Ok va s.

Definition memmove_v (dst src n : Z) : MM unit :=
  let! d := mmu dst true in
  let! k := mmu src false in
  memM (fun m => memmove m d k n).

Lemma ldv_high p s : KERNBASE <= p -> ldv p s = Ok (rd32 (mm s) p) s.
Proof. intros Hp. unfold ldv. by rewrite (proj2 (Z.ltb_ge p KERNBASE)). Qed.

Lemma stv_high p v s : KERNBASE <= p -> stv p v s = Ok tt (set_mm (wr32 (mm s) p v) s).
Proof. intros Hp. unfold stv. by rewrite (proj2 (Z.ltb_ge p KERNBASE)). Qed.

Lemma wp_ldv p s Q : KERNBASE <= p -> Q (rd32 (mm s) p) s -> wp (ldv p) s Q.
Proof. intros Hp HQ. unfold wp. by rewrite ldv_high. Qed.

Lemma wp_stv p v s Q :
  KERNBASE <= p -> Q tt (set_mm (wr32 (mm s) p v) s) -> wp (stv p v) s Q.
Proof. intros Hp HQ. unfold wp. by rewrite stv_high. Qed.

Section Vm.
Context `{KernelImage}.

(** ** Operations *)

Definition walkpgdir (pgdir va : Z) (alloc : bool) : MM Z :=
  let pde := pgdir + 4 * PDX va in
  let! e := ldv pde in
  if has e PTE_P then ret (p2v (PTE_ADDR e) + 4 * PTX va)
  else if negb alloc then ret 0
  else
    let! pgtab := kalloc in
    if pgtab =? 0 then ret 0
    else
      memM (fun m => memset m pgtab 0 PGSIZE) ;;;
      stv pde (Z.lor (Z.lor (Z.lor (v2p pgtab) PTE_P) PTE_W) PTE_U) ;;;
      ret (pgtab + 4 * PTX va).

Definition wpgdir (pgdir va : Z) (alloc : bool) : MM Z := walkpgdir pgdir va alloc.

Fixpoint mappages_loop (pgdir a last pa perm : Z) (fuel : nat) : MM Z :=
  let! pte := walkpgdir pgdir a true in
  if pte =? 0 then ret (-1)
  else
    let! e := ld32 pte in
    if has e PTE_P then panic "remap"
    else
      st32 pte (Z.lor (Z.lor pa perm) PTE_P) ;;;
      if a =? last then ret 0
      else
        match fuel with
        | O => nofuel
        | S k => mappages_loop pgdir (u32 (a + PGSIZE)) last (u32 (pa + PGSIZE)) perm k
        end.

Definition mappages (pgdir va size pa perm : Z) : MM Z :=
  let a := PGROUNDDOWN va in
  let last := PGROUNDDOWN (u32 (va + size - 1)) in
  mappages_loop pgdir a last pa perm (Z.to_nat (u32 (last - a) / PGSIZE)).

Definition mappage1 (pgdir va size pa perm : Z) : MM Z := mappages pgdir va size pa perm.

(** The kernel's mappings: virtual start, physical start and end, permissions. *)
Record kmap_entry : Type := KMap {
  virt : Z; phys_start : Z; phys_end : Z; kperm : Z
}.

Definition kmap : list kmap_entry :=
  [ KMap KERNBASE 0 EXTMEM PTE_W;
    KMap KERNLINK (v2p KERNLINK) (v2p data_) 0;
    KMap data_ (v2p data_) PHYSTOP PTE_W;
    KMap DEVSPACE DEVSPACE 0 PTE_W ].

(** The loop over [kmap]: [false] when a mapping failed. *)
Fixpoint setupkvm_loop (pgdir : Z) (ks : list kmap_entry) : MM bool :=
  match ks with
  | [] => ret true
  | k :: ks =>
      let! r := mappages pgdir (virt k) (u32 (phys_end k - phys_start k))
                  (phys_start k) (kperm k) in
      if r <? 0 then ret false else setupkvm_loop pgdir ks
  end.

Definition setupkvm : MM Z :=
  let! pgdir := kalloc in
  if pgdir =? 0 then ret 0
  else
    memM (fun m => memset m pgdir 0 PGSIZE) ;;;
    if DEVSPACE <? p2v PHYSTOP then panic "PHYSTOP too high"
    else
      let! ok := setupkvm_loop pgdir kmap in
      ret (if (ok : bool) then pgdir else 0).

Definition switchkvm : MM unit := modify (fun s => set_cr3 (v2p (kpgdir s)) s).

Definition kvmalloc : MM unit :=
  let! d := setupkvm in
  modify (set_kpgdir d) ;;;
  switchkvm.

(** [init] is the address of the initial program in kernel memory. *)
Definition inituvm (pgdir init sz : Z) : MM unit :=
  if PGSIZE <=? sz then panic "inituvm: more than a page"
  else
    let! p := kalloc in
    memM (fun m => memset m p 0 PGSIZE) ;;;
    mappages pgdir 0 PGSIZE (v2p p) (Z.lor PTE_W PTE_U) ;;;
    memM (fun m => memmove m p init sz).

Fixpoint deallocuvm_loop (pgdir a oldsz : Z) (fuel : nat) : MM unit :=
  if a <? oldsz then
    match fuel with
    | O => nofuel
    | S k =>
        let! pte := walkpgdir pgdir a false in
        if pte =? 0 then
          deallocuvm_loop pgdir (u32 (u32 (a + (NPTENTRIES - 1) * PGSIZE) + PGSIZE)) oldsz k
        else
          let! e := ld32 pte in
          when (has e PTE_P)
            (let pa := PTE_ADDR e in
             if pa =? 0 then panic "kfree deallocuvm"
             else kfree (p2v pa) ;;; st32 pte 0) ;;;
          deallocuvm_loop pgdir (u32 (a + PGSIZE)) oldsz k
    end
  else ret tt.

Definition deallocuvm (pgdir oldsz newsz : Z) : MM Z :=
  if oldsz <=? newsz then ret oldsz
  else
    let a := PGROUNDUP newsz in
    deallocuvm_loop pgdir a oldsz (Z.to_nat (oldsz / PGSIZE + 1)) ;;;
    ret newsz.

(** The message of the failing case goes to the console, which is not part of [mstate]. *)
Fixpoint allocuvm_loop (pgdir a oldsz newsz : Z) (fuel : nat) : MM Z :=
  if a <? newsz then
    match fuel with
    | O => nofuel
    | S k =>
        let! p := kalloc in
        if p =? 0 then deallocuvm pgdir newsz oldsz ;;; ret 0
        else
          memM (fun m => memset m p 0 PGSIZE) ;;;
          mappages pgdir a PGSIZE (v2p p) (Z.lor PTE_W PTE_U) ;;;
          allocuvm_loop pgdir (u32 (a + PGSIZE)) oldsz newsz k
    end
  else ret newsz.

Definition allocuvm (pgdir oldsz newsz : Z) : MM Z :=
  if KERNBASE <=? newsz then ret 0
  else if newsz <? oldsz then ret oldsz
  else allocuvm_loop pgdir (PGROUNDUP oldsz) oldsz newsz (Z.to_nat (newsz / PGSIZE + 1)).

(** [for(i = 0; i < NPDENTRIES; i++) if(pgdir[i] & PTE_P) kfree(...);] *)
Fixpoint freevm_loop (pgdir i : Z) (n : nat) : MM unit :=
  match n with
  | O => ret tt
  | S k =>
      let! e := ld32 (pgdir + 4 * i) in
      when (has e PTE_P) (kfree (p2v (PTE_ADDR e))) ;;;
      freevm_loop pgdir (i + 1) k
  end.

Definition freevm (pgdir : Z) : MM unit :=
  if pgdir =? 0 then panic "freevm: no pgdir"
  else
    deallocuvm pgdir KERNBASE 0 ;;;
    freevm_loop pgdir 0 (Z.to_nat NPDENTRIES) ;;;
    kfree pgdir.

Definition clearpteu (pgdir uva : Z) : MM unit :=
  let! pte := walkpgdir pgdir uva false in
  if pte =? 0 then panic "clearpteu"
  else let! e := ld32 pte in st32 pte (Z.land e (Z.lnot PTE_U)).

Definition clearptew (pgdir uva : Z) : MM unit :=
  let! pte := walkpgdir pgdir uva false in
  if pte =? 0 then panic "clearptew. pte shoul be present"
  else let! e := ld32 pte in st32 pte (Z.land e (Z.lnot PTE_W)).

Definition cleardtew (pgdir uva : Z) : MM unit :=
  let pde := pgdir + 4 * PDX uva in
  let! e := ldv pde in stv pde (Z.land e (Z.lnot PTE_W)).

Definition setptew (pgdir uva : Z) : MM unit :=
  let! pte := walkpgdir pgdir uva false in
  if pte =? 0 then panic "setptew. pte shoul be present"
  else let! e := ld32 pte in st32 pte (Z.lor e PTE_W).

Definition setdtew (pgdir uva : Z) : MM unit :=
  let pde := pgdir + 4 * PDX uva in
  let! e := ldv pde in stv pde (Z.lor e PTE_W).

(** The loop of [copyuvm]; [false] is the jump to [bad]. *)
Fixpoint copyuvm_loop (pgdir d i sz : Z) (fuel : nat) : MM bool :=
  if i <? sz then
    match fuel with
    | O => nofuel
    | S k =>
        let! pte := walkpgdir pgdir i false in
        if pte =? 0 then panic "copyuvm: pte should exist"
        else
          let! e := ld32 pte in
          if negb (has e PTE_P) then panic "copyuvm: page not present"
          else
            let pa := PTE_ADDR e in
            let! p := kalloc in
            if p =? 0 then ret false
            else
              memM (fun m => memmove m p (p2v pa) PGSIZE) ;;;
              let! r := mappages d i PGSIZE (v2p p) (Z.lor PTE_W PTE_U) in
              if r <? 0 then ret false
              else copyuvm_loop pgdir d (u32 (i + PGSIZE)) sz k
    end
  else ret true.

Definition copyuvm (pgdir sz : Z) : MM Z :=
  let! d := setupkvm in
  if d =? 0 then ret 0
  else
    let! ok := copyuvm_loop pgdir d 0 sz (Z.to_nat (sz / PGSIZE + 1)) in
    if (ok : bool) then ret d
    else freevm d ;;; ret 0.

Definition uva2ka (pgdir uva : Z) : MM Z :=
  let! pte := walkpgdir pgdir uva false in
  let! e := ldv pte in
  if negb (has e PTE_P) then ret 0
  else if negb (has e PTE_U) then ret 0
  else ret (p2v (PTE_ADDR e)).

(** Copy [n] bytes of [src] to the kernel address [d]. *)
Fixpoint put_bytes (m : mem) (d : Z) (src : Z -> byte) (i : Z) (n : nat) : mem :=
  match n with
  | O => m
  | S k => put_bytes (upd m d (src i)) (d + 1) src (i + 1) k
  end.

(** [src] is the source block at the time of the call; [i] counts the bytes
    already copied, [len] those that remain. *)
Fixpoint copyout_loop (pgdir va : Z) (src : Z -> byte) (i len : Z) (fuel : nat) : MM Z :=
  if 0 <? len then
    match fuel with
    | O => nofuel
    | S k =>
        let va0 := PGROUNDDOWN va in
        let! pa0 := uva2ka pgdir va0 in
        if pa0 =? 0 then ret (-1)
        else
          let n0 := PGSIZE - (va - va0) in
          let n := if len <? n0 then len else n0 in
          memM (fun m => put_bytes m (pa0 + (va - va0)) src i (Z.to_nat n)) ;;;
          copyout_loop pgdir (u32 (va0 + PGSIZE)) src (i + n) (len - n) k
    end
  else ret 0.

Definition copyout (pgdir va : Z) (src : Z -> byte) (len : Z) : MM Z :=
  copyout_loop pgdir va src 0 len (Z.to_nat (len / PGSIZE + 2)).

End Vm.
