(* ===== verification/VmFacts.v ===== *)
(** * Page tables: invariants and specifications

    [mapping] is the abstract view of a page directory: the present entry of
    each virtual address.  [pt_inv] is the invariant that relates a directory,
    its tables and the free list; [pt_grow] describes what building page
    tables may change.  The lemmas give each operation of Vm its effect on
    these. *)

From S2P Require Import Prelude Layout Mem Kalloc Vm.

Open Scope Z_scope.

Section VmFacts.
Context `{KernelImage} `{!KernelImageOk}.

(** ** The abstract view *)

(** Directory entry [i] is present. *)
Definition present (m : mem) (d i : Z) : Prop := has (word m d i) PTE_P = true.

(** The page table that directory entry [i] points to. *)
Definition tab (m : mem) (d i : Z) : Z := p2v (PTE_ADDR (word m d i)).

Definition mapping (m : mem) (d va : Z) : option Z :=
  if has (word m d (PDX va)) PTE_P then
    let pte := word m (tab m d (PDX va)) (PTX va) in
    if has pte PTE_P then Some pte else None
  else None.

Definition is_table (m : mem) (d q : Z) : Prop :=
  exists i, 0 <= i < 1024 /\ present m d i /\ q = tab m d i.

(** Only pages in [P] differ between the two memories. *)
Definition frame (P : Z -> Prop) (m m' : mem) : Prop :=
  forall q, aligned q -> ~ P q -> same_page q m m'.

Record pd_wf (m : mem) (d : Z) : Prop := {
  pd_page : page_ok d;
  pd_tabs : forall i, 0 <= i < 1024 -> present m d i ->
    page_ok (tab m d i) /\ tab m d i <> d;
  pd_inj : forall i j, 0 <= i < 1024 -> 0 <= j < 1024 ->
    present m d i -> present m d j -> tab m d i = tab m d j -> i = j
}.

Record pt_inv (s : mstate) (d : Z) (l : list Z) : Prop := {
  pt_free : free_wf s l;
  pt_wf : pd_wf (mm s) d;
  pt_dir : d ∉ l;
  pt_tabs : forall i, 0 <= i < 1024 -> present (mm s) d i -> tab (mm s) d i ∉ l
}.

(** From [(s, l)] to [(s', l')], the directory [d] only gained tables, for
    indices in [I], built on the pages [used] taken from the free list. *)
Record pt_grow (I : Z -> Prop) (d : Z) (s : mstate) (l : list Z)
    (s' : mstate) (l' used : list Z) : Prop := {
  pg_split : l = used ++ l';
  pg_inv : pt_inv s' d l';
  pg_keep : forall i, 0 <= i < 1024 -> present (mm s) d i ->
    word (mm s') d i = word (mm s) d i;
  pg_new : forall i, 0 <= i < 1024 -> present (mm s') d i ->
    present (mm s) d i \/ I i /\ tab (mm s') d i ∈ used;
  pg_used : forall q, q ∈ used ->
    exists i, 0 <= i < 1024 /\ I i /\ present (mm s') d i /\ q = tab (mm s') d i;
  pg_frame : frame (fun q => q = d \/ is_table (mm s') d q) (mm s) (mm s');
  pg_regs : kpgdir s' = kpgdir s /\ cr3 s' = cr3 s /\ use_lock s' = use_lock s;
  pg_user : forall i, 0 <= i < 1024 -> present (mm s') d i -> ~ present (mm s) d i ->
    has (word (mm s') d i) PTE_W = true /\ has (word (mm s') d i) PTE_U = true
}.

(** ** Frames *)

Lemma frame_refl P m : frame P m m.
Proof. intros q _ _. reflexivity. Qed.

Lemma frame_trans P m1 m2 m3 : frame P m1 m2 -> frame P m2 m3 -> frame P m1 m3.
Proof. intros H1 H2 q Ha Hq. etransitivity; eauto. Qed.

Lemma frame_mono (P Q : Z -> Prop) m m' :
  frame P m m' -> (forall q, aligned q -> P q -> Q q) -> frame Q m m'.
Proof. intros Hf Hpq q Ha Hq. apply Hf; eauto. Qed.

Lemma frame_wr32 m p i v :
  aligned p -> 0 <= i < 1024 -> frame (fun q => q = p) m (wr32 m (p + 4 * i) v).
Proof. intros Hp Hi q Hq Hne. apply same_page_wr32; done || congruence. Qed.

Lemma frame_memset m p c :
  aligned p -> frame (fun q => q = p) m (memset m p c PGSIZE).
Proof. intros Hp q Hq Hne. apply same_page_memset; done || congruence. Qed.

Lemma frame_memmove m p src n :
  aligned p -> 0 <= n <= PGSIZE -> frame (fun q => q = p) m (memmove m p src n).
Proof. intros Hp Hn q Hq Hne. apply same_page_memmove; done || congruence. Qed.

Lemma frame_word P m m' p i :
  frame P m m' -> aligned p -> ~ P p -> 0 <= i < 1024 -> word m' p i = word m p i.
Proof. intros Hf Ha Hp Hi. apply same_page_word; [by apply Hf|done]. Qed.

Lemma tab_word m m' d i : word m' d i = word m d i -> tab m' d i = tab m d i.
Proof. unfold tab. by intros ->. Qed.

Lemma present_word m m' d i : word m' d i = word m d i -> present m' d i <-> present m d i.
Proof. unfold present. by intros ->. Qed.

Lemma tab_aligned m d i : aligned (tab m d i).
Proof. apply p2v_aligned, PTE_ADDR_aligned. Qed.

Lemma page_ok_aligned p : page_ok p -> aligned p.
Proof. by intros [? _]. Qed.

(** A directory whose page and tables did not change keeps its mapping. *)
Lemma mapping_frame P m m' d va :
  frame P m m' -> aligned d -> ~ P d ->
  (forall i, 0 <= i < 1024 -> present m d i -> ~ P (tab m d i)) ->
  mapping m' d va = mapping m d va.
Proof.
  intros Hf Hd Hpd Hpt. unfold mapping.
  pose proof (PDX_range va) as Hi. pose proof (PTX_range va).
  pose proof (frame_word P m m' d (PDX va) Hf Hd Hpd Hi) as E.
  rewrite (tab_word _ _ _ _ E), E.
  destruct (has (word m d (PDX va)) PTE_P) eqn:Hpr; [|done].
  rewrite (frame_word P m m' _ (PTX va) Hf (tab_aligned _ _ _)); auto.
Qed.

Lemma pd_wf_frame P m m' d :
  frame P m m' -> ~ P d -> pd_wf m d -> pd_wf m' d.
Proof.
  intros Hf Hpd [Hp Ht Hi].
  assert (E : forall i, 0 <= i < 1024 -> word m' d i = word m d i).
  { intros i Hr. eapply frame_word; eauto using page_ok_aligned. }
  split; [done| |].
  - intros i Hr Hpr. apply (present_word _ _ _ _ (E i Hr)) in Hpr.
    rewrite (tab_word _ _ _ _ (E i Hr)). by apply Ht.
  - intros i j Hri Hrj Hpi Hpj. rewrite (tab_word _ _ _ _ (E i Hri)),
      (tab_word _ _ _ _ (E j Hrj)).
    apply (present_word _ _ _ _ (E i Hri)) in Hpi.
    apply (present_word _ _ _ _ (E j Hrj)) in Hpj. by apply Hi.
Qed.

(** ** pt_grow is a preorder *)

Lemma pt_grow_refl I d s l : pt_inv s d l -> pt_grow I d s l s l [].
Proof.
  intros Hi. split; auto using frame_refl.
  intros q Hq. by apply not_elem_of_nil in Hq.
Qed.

Lemma pt_grow_table I d s l s' l' used i :
  pt_grow I d s l s' l' used -> 0 <= i < 1024 -> present (mm s) d i ->
  present (mm s') d i /\ tab (mm s') d i = tab (mm s) d i.
Proof.
  intros G Hi Hp. pose proof (pg_keep _ _ _ _ _ _ _ G i Hi Hp) as E.
  split; [by apply (present_word _ _ _ _ E)|by apply tab_word].
Qed.

Lemma pt_grow_is_table I d s l s' l' used q :
  pt_grow I d s l s' l' used -> is_table (mm s) d q -> is_table (mm s') d q.
Proof.
  intros G (i & Hi & Hp & ->). destruct (pt_grow_table _ _ _ _ _ _ _ i G Hi Hp) as [? E].
  exists i. by rewrite E.
Qed.

Lemma pt_grow_mono (I J : Z -> Prop) d s l s' l' used :
  (forall i, I i -> J i) -> pt_grow I d s l s' l' used -> pt_grow J d s l s' l' used.
Proof.
  intros HIJ [? ? ? Hn Hu ? ? ?]. split; try done.
  - intros i Hi Hp. destruct (Hn i Hi Hp) as [|[]]; eauto.
  - intros q Hq. destruct (Hu q Hq) as (i & ? & ? & ? & ?). eauto 10.
Qed.

Lemma pt_grow_trans I d s1 l1 s2 l2 u1 s3 l3 u2 :
  pt_grow I d s1 l1 s2 l2 u1 -> pt_grow I d s2 l2 s3 l3 u2 ->
  pt_grow I d s1 l1 s3 l3 (u1 ++ u2).
Proof.
  intros G1 G2.
  assert (Ht : forall q, is_table (mm s2) d q -> is_table (mm s3) d q)
    by eauto using pt_grow_is_table.
  destruct G1 as [S1 I1 K1 N1 U1 F1 (R1 & R2 & R3) W1].
  destruct G2 as [S2 I2 K2 N2 U2 F2 (Q1 & Q2 & Q3) W2].
  assert (T1 : forall i, 0 <= i < 1024 -> present (mm s1) d i -> present (mm s2) d i).
  { intros i Hi Hp. by apply (present_word _ _ _ _ (K1 i Hi Hp)). }
  split.
  - subst. by rewrite app_assoc.
  - done.
  - intros i Hi Hp. rewrite (K2 i), (K1 i); auto.
  - intros i Hi Hp. destruct (N2 i Hi Hp) as [Hp2|[HI Hu]].
    + destruct (N1 i Hi Hp2) as [|[HI Hu]]; [by left|right]. split; [done|].
      rewrite (tab_word _ _ _ _ (K2 i Hi Hp2)). set_solver.
    + right. set_solver.
  - intros q Hq. apply elem_of_app in Hq as [Hq|Hq]; [|by apply U2].
    destruct (U1 q Hq) as (i & Hi & HI & Hp & ->).
    pose proof (K2 i Hi Hp) as E. exists i. rewrite (tab_word _ _ _ _ E).
    pose proof (proj2 (present_word _ _ _ _ E) Hp). auto.
  - eapply frame_trans; [eapply frame_mono; [exact F1|]|exact F2].
    intros q _ [->|Hq]; auto.
  - split_and!; congruence.
  - intros i Hi Hp Hn. destruct (has (word (mm s2) d i) PTE_P) eqn:E.
    + rewrite (K2 i Hi E). by apply W1.
    + apply W2; [done|done|]. unfold present. congruence.
Qed.

(** ** walkpgdir *)

Lemma page_ok_high p : page_ok p -> KERNBASE <= p.
Proof.
  intros Hp. pose proof (page_ok_bounds p Hp). unfold KERNLINK, KERNBASE, EXTMEM in *. lia.
Qed.

Lemma pt_inv_high s d l : pt_inv s d l -> KERNBASE <= d.
Proof. intros Hi. apply page_ok_high, Hi. Qed.

Lemma walkpgdir_noalloc d va s :
  KERNBASE <= d ->
  walkpgdir d va false s =
  Ok (if has (word (mm s) d (PDX va)) PTE_P
      then tab (mm s) d (PDX va) + 4 * PTX va else 0) s.
Proof.
  intros Hd. pose proof (PDX_range va).
  unfold walkpgdir, bind, word, tab, ret. rewrite ldv_high by lia. cbn.
  by destruct (has (rd32 (mm s) (d + 4 * PDX va)) PTE_P).
Qed.

(** The entry [walkpgdir] writes for a new table at [p]. *)
Lemma new_pde p :
  page_ok p ->
  let e := Z.lor (Z.lor (Z.lor (v2p p) PTE_P) PTE_W) PTE_U in
  0 <= e < 2 ^ 32 /\ has e PTE_P = true /\ (has e PTE_W = true /\ has e PTE_U = true) /\
  p2v (PTE_ADDR e) = p.
Proof.
  intros Hp e. pose proof (page_ok_bounds p Hp) as (? & ? & ?).
  assert (Ha : aligned (v2p p)) by (apply v2p_aligned, Hp).
  assert (He : e = Z.lor (v2p p) 7) by (unfold e; by rewrite <- !Z.lor_assoc).
  rewrite He. split_and!.
  - apply lor_flags_range; [done|apply u32_range|unfold PGSIZE; lia].
  - apply lor_flags_range; [done|apply u32_range|unfold PGSIZE; lia].
  - by rewrite has_lor by (done || unfold PGSIZE, PTE_P; lia).
  - by rewrite has_lor by (done || unfold PGSIZE, PTE_W; lia).
  - by rewrite has_lor by (done || unfold PGSIZE, PTE_U; lia).
  - rewrite PTE_ADDR_lor by (done || unfold PGSIZE; lia).
    apply p2v_v2p. unfold KERNLINK, KERNBASE, EXTMEM, PGSIZE in *. lia.
Qed.

Section NewTable.
Variables (s : mstate) (d va p : Z) (l' : list Z).
Hypothesis Hinv : pt_inv s d (p :: l').
Hypothesis Habs : ~ present (mm s) d (PDX va).

Let e := Z.lor (Z.lor (Z.lor (v2p p) PTE_P) PTE_W) PTE_U.
Let m2 := wr32 (memset (mm s) p 0 PGSIZE) (d + 4 * PDX va) e.
Let s2 := set_mm m2 (set_freelist (rd32 (mm s) p) s).

Lemma new_table_facts :
  page_ok p /\ d <> p /\ p ∉ l' /\ d ∉ l' /\ aligned d /\
  (forall i, 0 <= i < 1024 -> present (mm s) d i -> tab (mm s) d i <> p /\
     tab (mm s) d i ∉ l').
Proof.
  destruct Hinv as [[_ Hnd Hpg _] Hwf Hd Ht].
  apply NoDup_cons in Hnd as [Hp _]. apply Forall_cons in Hpg as [Hpk _].
  apply not_elem_of_cons in Hd as [? ?].
  split_and!; try done; [apply Hwf|].
  intros i Hi Hpr. by apply not_elem_of_cons, Ht.
Qed.

Lemma new_table_dir i :
  0 <= i < 1024 -> word m2 d i = if PDX va =? i then e else word (mm s) d i.
Proof.
  intros Hi. destruct new_table_facts as (Hp & Hne & _ & _ & Hd & _).
  destruct (new_pde p Hp) as (He & _). unfold m2.
  rewrite word_wr32 by (done || apply PDX_range).
  rewrite Z.eqb_refl. cbn [andb]. destruct (PDX va =? i); [done|].
  eapply frame_word; [apply frame_memset, Hp|done|congruence|done].
Qed.

Lemma new_table_present i :
  0 <= i < 1024 -> present m2 d i <-> i = PDX va \/ present (mm s) d i.
Proof.
  intros Hi. unfold present. rewrite new_table_dir by done.
  destruct new_table_facts as (Hp & _). destruct (new_pde p Hp) as (_ & Hpr & _).
  destruct (Z.eqb_spec (PDX va) i) as [->|]; [unfold e; rewrite Hpr|]; naive_solver.
Qed.

Lemma new_table_tab i :
  0 <= i < 1024 -> tab m2 d i = if PDX va =? i then p else tab (mm s) d i.
Proof.
  intros Hi. unfold tab. rewrite new_table_dir by done.
  destruct new_table_facts as (Hp & _). destruct (new_pde p Hp) as (_ & _ & _ & E).
  by destruct (PDX va =? i).
Qed.

Lemma new_table_frame : frame (fun q => q = d \/ q = p) (mm s) m2.
Proof.
  destruct new_table_facts as (Hp & _ & _ & _ & Hd & _).
  eapply frame_trans.
  - eapply frame_mono; [apply frame_memset, Hp|]. auto.
  - eapply frame_mono; [apply frame_wr32; [done|apply PDX_range]|]. auto.
Qed.

Lemma new_table_mapping va' : mapping m2 d va' = mapping (mm s) d va'.
Proof.
  destruct new_table_facts as (Hp & Hne & _ & _ & Hd & Ht).
  pose proof (PDX_range va') as Hr. pose proof (PTX_range va') as Hr'. unfold mapping.
  rewrite new_table_tab, new_table_dir by done.
  destruct (Z.eqb_spec (PDX va) (PDX va')) as [E|E].
  - rewrite <- E. unfold e. destruct (new_pde p Hp) as (_ & -> & _).
    unfold m2. rewrite word_wr32; try done; try apply PDX_range; try apply Hp.
    2: apply (new_pde p Hp).
    rewrite (proj2 (Z.eqb_neq d p)) by done. cbn [andb].
    rewrite word_memset0 by done.
    replace (has 0 PTE_P) with false by done.
    destruct (has (word (mm s) d (PDX va)) PTE_P) eqn:Ep; [|done]. by destruct Habs.
  - destruct (has (word (mm s) d (PDX va')) PTE_P) eqn:Ep; [|done].
    destruct (Ht (PDX va') Hr Ep) as [Htp _].
    erewrite frame_word; [done|apply new_table_frame|apply tab_aligned| |done].
    intros [Heq|Heq]; [|done].
    by apply (proj2 (pd_tabs _ _ (pt_wf _ _ _ Hinv) (PDX va') Hr Ep)).
Qed.

Lemma new_table_inv : pt_inv s2 d l'.
Proof.
  destruct new_table_facts as (Hp & Hne & Hpl & Hdl & Hd & Ht).
  destruct Hinv as [Hfree [Hdp Htabs Hinj] _ _].
  destruct Hfree as [(Hh & _ & Hc) Hnd Hpg Hl].
  apply NoDup_cons in Hnd as [_ Hnd]. apply Forall_cons in Hpg as [_ Hpg].
  split; [|split| |].
  - apply (free_wf_ext (set_freelist (rd32 (mm s) p) s)); [split; done|done|done|].
    intros q Hq%list_elem_of_In. rewrite Forall_forall in Hpg.
    apply new_table_frame; [apply Hpg, Hq|].
    intros [->| ->]; done.
  - done.
  - intros i Hi Hpr. rewrite new_table_tab by done. apply new_table_present in Hpr; [|done].
    destruct (Z.eqb_spec (PDX va) i); [by split; [|congruence]|].
    destruct Hpr as [->|Hpr]; [done|]. by apply Htabs.
  - intros i j Hi Hj Hpi Hpj. rewrite !new_table_tab by done.
    apply new_table_present in Hpi, Hpj; try done.
    destruct (Z.eqb_spec (PDX va) i), (Z.eqb_spec (PDX va) j); try congruence.
    + intros Heq. destruct Hpj as [->|Hpj]; [done|]. by destruct (Ht j Hj Hpj).
    + intros Heq. destruct Hpi as [->|Hpi]; [done|]. by destruct (Ht i Hi Hpi).
    + destruct Hpi as [->|Hpi], Hpj as [->|Hpj]; try done. by apply Hinj.
  - done.
  - intros i Hi Hpr. simpl mm in *. rewrite new_table_tab by done.
    apply new_table_present in Hpr; [|done].
    destruct (Z.eqb_spec (PDX va) i); [done|].
    destruct Hpr as [->|Hpr]; [done|]. by apply Ht.
Qed.

Lemma new_table_grow (I : Z -> Prop) :
  I (PDX va) -> pt_grow I d s (p :: l') s2 l' [p].
Proof.
  intros HI. pose proof (PDX_range va) as Hr.
  assert (Hpr : present m2 d (PDX va)) by (apply new_table_present; auto).
  assert (Htp : tab m2 d (PDX va) = p) by (by rewrite new_table_tab, Z.eqb_refl by done).
  split.
  - done.
  - apply new_table_inv.
  - intros i Hi Hp. cbn. rewrite new_table_dir by done.
    destruct (Z.eqb_spec (PDX va) i) as [<-|]; done.
  - intros i Hi Hp. cbn in *. apply new_table_present in Hp as [->|Hp]; auto.
    right. rewrite Htp. set_solver.
  - intros q ->%list_elem_of_singleton. exists (PDX va). cbn. auto.
  - cbn. eapply frame_mono; [apply new_table_frame|].
    intros q _ [->| ->]; [by left|right]. exists (PDX va). auto.
  - done.
  - intros i Hi Hp Hn. cbn in *. apply new_table_present in Hp as [->|Hp]; [|done..].
    rewrite new_table_dir, Z.eqb_refl by done. by apply new_pde, new_table_facts.
Qed.
End NewTable.

Lemma walkpgdir_alloc (I : Z -> Prop) s d va l :
  pt_inv s d l -> I (PDX va) ->
  wp (walkpgdir d va true) s (fun r s' => exists used l',
    pt_grow I d s l s' l' used /\
    (forall va', mapping (mm s') d va' = mapping (mm s) d va') /\
    (r = 0 /\ l' = [] /\ ~ present (mm s') d (PDX va) \/
     present (mm s') d (PDX va) /\ r = tab (mm s') d (PDX va) + 4 * PTX va)).
Proof.
  intros Hinv HI. unfold walkpgdir.
  pose proof (pt_inv_high s d l Hinv) as Hd. pose proof (PDX_range va).
  apply wp_bind, wp_ldv; [lia|]. fold (word (mm s) d (PDX va)).
  destruct (has (word (mm s) d (PDX va)) PTE_P) eqn:Ep.
  - apply wp_ret. exists [], l. split; [by apply pt_grow_refl|]. auto.
  - assert (Habs : ~ present (mm s) d (PDX va)) by (unfold present; congruence).
    cbn [negb]. apply wp_bind. destruct l as [|p l'].
    + wp_use kalloc_empty; [apply Hinv|]. intros r s' [-> ->]. cbn. apply wp_ret.
      exists [], []. split; [by apply pt_grow_refl|]. auto.
    + wp_use kalloc_spec; [apply Hinv|]. intros r s' (-> & -> & _).
      destruct (new_table_facts s d p l' Hinv) as (Hp & _).
      pose proof (page_ok_bounds p Hp) as (_ & _ & Hp0).
      rewrite (proj2 (Z.eqb_neq p 0)) by done.
      apply wp_bind, wp_modify, wp_bind, wp_stv; [lia|]. apply wp_ret.
      cbn [mm set_mm set_freelist]. exists [p], l'. split; [by apply new_table_grow|]. split.
      * intros va'. by eapply new_table_mapping.
      * right. pose proof (PDX_range va) as Hr. split.
        -- eapply new_table_present; eauto.
        -- erewrite new_table_tab by eauto. by rewrite Z.eqb_refl.
Qed.

(** ** Writing an entry *)

Lemma vpn_inj va va' :
  0 <= va < 2 ^ 32 -> 0 <= va' < 2 ^ 32 ->
  PDX va = PDX va' /\ PTX va = PTX va' <-> va / PGSIZE = va' / PGSIZE.
Proof.
  intros H1 H2. rewrite !PDX_eq, !PTX_eq. unfold PGSIZE.
  split; intros; Z.div_mod_to_equations; lia.
Qed.

Lemma tab_stable m d i j v :
  pd_wf m d -> 0 <= i < 1024 -> present m d i -> 0 <= j < 1024 ->
  frame (fun q => q = tab m d i) m (wr32 m (tab m d i + 4 * j) v) /\
  forall k, 0 <= k < 1024 -> word (wr32 m (tab m d i + 4 * j) v) d k = word m d k.
Proof.
  intros Hwf Hi Hp Hj.
  pose proof (frame_wr32 m (tab m d i) j v (tab_aligned _ _ _) Hj) as F.
  split; [done|]. intros k Hk. eapply frame_word; [exact F| | |done].
  - apply Hwf.
  - intros E. by apply (proj2 (pd_tabs _ _ Hwf i Hi Hp)).
Qed.

Lemma pt_store (I : Z -> Prop) s d va l v :
  pt_inv s d l -> present (mm s) d (PDX va) ->
  let s' := set_mm (wr32 (mm s) (tab (mm s) d (PDX va) + 4 * PTX va) v) s in
  pt_grow I d s l s' l [].
Proof.
  intros [Hf Hwf Hd Ht] Hp s'.
  pose proof (PDX_range va) as Hi. pose proof (PTX_range va) as Hj.
  destruct (tab_stable (mm s) d (PDX va) (PTX va) v Hwf Hi Hp Hj) as [F W].
  assert (Ep : forall i, 0 <= i < 1024 -> present (mm s') d i <-> present (mm s) d i)
    by (intros; by apply present_word, W).
  assert (Et : forall i, 0 <= i < 1024 -> tab (mm s') d i = tab (mm s) d i)
    by (intros; by apply tab_word, W).
  split.
  - done.
  - split.
    + apply (free_wf_ext s); [done|done|apply Hf|]. intros q Hq%list_elem_of_In.
      pose proof (fw_pages _ _ Hf) as Hpg. rewrite Forall_forall in Hpg.
      apply F; [apply Hpg, Hq|]. intros ->. by apply (Ht (PDX va)).
    + eapply pd_wf_frame; [exact F| |done]. intros E.
      by apply (proj2 (pd_tabs _ _ Hwf _ Hi Hp)).
    + done.
    + intros i Hr Hpr. rewrite Et by done. apply Ht; [done|]. by apply Ep.
  - intros i Hr _. by apply W.
  - intros i Hr Hpr. left. by apply Ep.
  - intros q Hq. by apply not_elem_of_nil in Hq.
  - eapply frame_mono; [exact F|]. intros q _ ->. right. exists (PDX va).
    rewrite Ep, Et by done. auto.
  - done.
  - intros i Hr Hpr Hn. by apply Ep in Hpr.
Qed.

Lemma mapping_store s d va v va' :
  pd_wf (mm s) d -> present (mm s) d (PDX va) -> 0 <= v < 2 ^ 32 ->
  0 <= va < 2 ^ 32 -> 0 <= va' < 2 ^ 32 ->
  mapping (wr32 (mm s) (tab (mm s) d (PDX va) + 4 * PTX va) v) d va' =
  if va' / PGSIZE =? va / PGSIZE then (if has v PTE_P then Some v else None)
  else mapping (mm s) d va'.
Proof.
  intros Hwf Hp Hv Hr Hr'.
  pose proof (PDX_range va) as Hi. pose proof (PTX_range va) as Hj.
  pose proof (PDX_range va') as Hi'. pose proof (PTX_range va') as Hj'.
  destruct (tab_stable (mm s) d (PDX va) (PTX va) v Hwf Hi Hp Hj) as [_ W].
  unfold mapping. rewrite (tab_word _ _ _ _ (W _ Hi')), W by done.
  pose proof (vpn_inj va va' Hr Hr') as Hinj.
  destruct (has (word (mm s) d (PDX va')) PTE_P) eqn:Ep'.
  - rewrite word_wr32 by (done || apply tab_aligned).
    destruct (Z.eqb_spec (va' / PGSIZE) (va / PGSIZE)) as [E|E].
    + destruct (proj2 Hinj (eq_sym E)) as [-> ->]. by rewrite !Z.eqb_refl.
    + destruct (Z.eqb_spec (tab (mm s) d (PDX va)) (tab (mm s) d (PDX va'))) as [Et|Et].
      * assert (PDX va = PDX va') by (by eapply pd_inj).
        destruct (Z.eqb_spec (PTX va) (PTX va')); [|done]. exfalso. apply E.
        symmetry. by apply Hinj.
      * done.
  - destruct (Z.eqb_spec (va' / PGSIZE) (va / PGSIZE)) as [E|E]; [|done].
    destruct (proj2 Hinj (eq_sym E)) as [E1 _]. unfold present in Hp. congruence.
Qed.

(** ** mappages *)

(** The entry that [mappages] gives to [va] when it maps the range at [a] to
    the physical range at [pa]. *)
Definition map_entry (a pa perm va : Z) : Z :=
  Z.lor (Z.lor (pa + (PGROUNDDOWN va - a)) perm) PTE_P.

(** The directory indices of the [n+1] pages from [a]. *)
Definition dir_range (a : Z) (n : nat) (i : Z) : Prop :=
  exists k, 0 <= k <= Z.of_nat n /\ i = PDX (a + k * PGSIZE).

(** The mapping after [k] pages of the range at [a] have been entered. *)
Definition mapped_upto (m m' : mem) (d a pa perm k : Z) : Prop :=
  forall va, 0 <= va < 2 ^ 32 ->
    mapping m' d va =
    if (a <=? va) && (va <? a + k * PGSIZE) then Some (map_entry a pa perm va)
    else mapping m d va.

Lemma map_entry_ok a pa perm va :
  aligned a -> aligned pa -> 0 <= pa + (PGROUNDDOWN va - a) < 2 ^ 32 ->
  0 <= perm < PGSIZE -> Z.lor perm PTE_P < PGSIZE ->
  0 <= map_entry a pa perm va < 2 ^ 32 /\ has (map_entry a pa perm va) PTE_P = true.
Proof.
  intros Ha Hpa Hr Hperm Hp. unfold map_entry. rewrite <- Z.lor_assoc.
  assert (Hal : aligned (pa + (PGROUNDDOWN va - a))).
  { pose proof (PGROUNDDOWN_aligned va). unfold aligned, PGSIZE in *.
    Z.div_mod_to_equations. lia. }
  assert (0 <= Z.lor perm PTE_P) by (apply Z.lor_nonneg; unfold PTE_P; lia).
  split; [by apply lor_flags_range|].
  rewrite has_lor by (done || unfold PTE_P, PGSIZE; lia).
  rewrite Z.land_lor_distr_l. apply negb_true_iff, Z.eqb_neq.
  intros [_ E]%Z.lor_eq_0_iff. done.
Qed.

Lemma map_entry_shift a pa perm va :
  map_entry (a + PGSIZE) (pa + PGSIZE) perm va = map_entry a pa perm va.
Proof. unfold map_entry. do 2 f_equal. lia. Qed.

Lemma mapped_upto_0 m m' d a pa perm :
  (forall va, mapping m' d va = mapping m d va) -> mapped_upto m m' d a pa perm 0.
Proof.
  intros E va Hva. rewrite E.
  destruct (Z.leb_spec a va), (Z.ltb_spec va (a + 0 * PGSIZE)); try done; lia.
Qed.

Lemma mapped_upto_S m1 m2 m3 d a pa perm k :
  0 <= k ->
  mapped_upto m1 m2 d a pa perm 1 ->
  mapped_upto m2 m3 d (a + PGSIZE) (pa + PGSIZE) perm k ->
  mapped_upto m1 m3 d a pa perm (1 + k).
Proof.
  intros Hk H1 H2 va Hva. rewrite H2, H1, map_entry_shift by done.
  unfold PGSIZE in *.
  destruct (Z.leb_spec (a + 4096) va), (Z.ltb_spec va (a + 4096 + k * 4096)),
    (Z.leb_spec a va), (Z.ltb_spec va (a + 1 * 4096)),
    (Z.ltb_spec va (a + (1 + k) * 4096)); try done; lia.
Qed.

Lemma mapped_upto_1 s d a pa perm :
  pd_wf (mm s) d -> present (mm s) d (PDX a) ->
  aligned a -> aligned pa -> 0 <= a -> a + PGSIZE <= 2 ^ 32 ->
  0 <= pa < 2 ^ 32 -> 0 <= perm < PGSIZE -> Z.lor perm PTE_P < PGSIZE ->
  mapped_upto (mm s)
    (wr32 (mm s) (tab (mm s) d (PDX a) + 4 * PTX a) (Z.lor (Z.lor pa perm) PTE_P))
    d a pa perm 1.
Proof.
  intros Hwf Hp Ha Hpa Ha0 Har Hpr Hperm Hpp va Hva.
  assert (Hd : PGROUNDDOWN a = a) by (rewrite PGROUNDDOWN_eq, Ha; lia).
  assert (He : Z.lor (Z.lor pa perm) PTE_P = map_entry a pa perm a).
  { unfold map_entry. rewrite Hd. do 2 f_equal. lia. }
  destruct (map_entry_ok a pa perm a) as [Hr Hhp]; try done; [rewrite Hd; lia|].
  rewrite He, mapping_store by (done || unfold PGSIZE in *; lia). rewrite Hhp.
  unfold aligned, PGSIZE in *.
  destruct (Z.eqb_spec (va / 4096) (a / 4096)) as [E|E].
  - assert (a <= va < a + 4096) by (Z.div_mod_to_equations; lia).
    rewrite (proj2 (Z.leb_le a va)), (proj2 (Z.ltb_lt va (a + 1 * 4096))) by lia.
    simpl. f_equal. unfold map_entry. do 3 f_equal.
    rewrite !PGROUNDDOWN_eq. unfold PGSIZE. Z.div_mod_to_equations. lia.
  - destruct (Z.leb_spec a va), (Z.ltb_spec va (a + 1 * 4096)); try done.
    exfalso. apply E. Z.div_mod_to_equations. lia.
Qed.

Lemma mapping_None_word m d va :
  mapping m d va = None -> present m d (PDX va) ->
  has (word m (tab m d (PDX va)) (PTX va)) PTE_P = false.
Proof.
  unfold mapping, present. intros E Hp. rewrite Hp in E. revert E.
  by destruct (has (word m (tab m d (PDX va)) (PTX va)) PTE_P).
Qed.

(** The outcome of mapping the [n+1] pages at [a]: success, or exhaustion of
    the free list after [k] pages. *)
Definition mapped_result (d : Z) (s : mstate) (a pa perm : Z) (n : nat)
    (r : Z) (s' : mstate) (l' : list Z) : Prop :=
  (r = 0 /\ mapped_upto (mm s) (mm s') d a pa perm (Z.of_nat n + 1)) \/
  (r = -1 /\ l' = [] /\ exists k, 0 <= k <= Z.of_nat n /\
     mapped_upto (mm s) (mm s') d a pa perm k /\
     ~ present (mm s') d (PDX (a + k * PGSIZE))).

Lemma mappages_loop_spec d perm n : forall s l a pa,
  pt_inv s d l -> aligned a -> aligned pa ->
  0 <= a -> a + (Z.of_nat n + 1) * PGSIZE <= 2 ^ 32 ->
  0 <= pa -> pa + Z.of_nat n * PGSIZE < 2 ^ 32 ->
  0 <= perm < PGSIZE -> Z.lor perm PTE_P < PGSIZE ->
  (forall va, a <= va < a + (Z.of_nat n + 1) * PGSIZE -> mapping (mm s) d va = None) ->
  wp (mappages_loop d a (a + Z.of_nat n * PGSIZE) pa perm n) s (fun r s' =>
    exists used l', pt_grow (dir_range a n) d s l s' l' used /\
      mapped_result d s a pa perm n r s' l').
Proof.
  induction n as [|n IH]; intros s l a pa Hinv Ha Hpa Ha0 Har Hpa0 Hpar Hperm Hpp Hnone.
  all: cbn [mappages_loop]; apply wp_bind.
  all: wp_use (walkpgdir_alloc (dir_range a _) s d a l Hinv);
    [exists 0; split; [lia|f_equal; lia]|].
  all: intros r s1 (u1 & l1 & G1 & Hm1 & [(-> & -> & Habs)|[Hp1 ->]]).
  1,3: apply wp_ret; exists u1, []; split; [done|right]; split_and!; try done.
  1,2: exists 0; rewrite Z.mul_0_l, Z.add_0_r; auto using mapped_upto_0 with lia.
  all: pose proof (pg_inv _ _ _ _ _ _ _ G1) as Hinv1;
    pose proof (pt_wf _ _ _ Hinv1) as Hwf1;
    pose proof (PTX_range a) as Hx; pose proof (PDX_range a) as Hy;
    destruct (pd_tabs _ _ Hwf1 (PDX a) Hy Hp1) as [Htp _];
    pose proof (page_ok_bounds _ Htp) as (Hlo & _ & _);
    rewrite (proj2 (Z.eqb_neq _ 0)) by (unfold KERNLINK, KERNBASE, EXTMEM in *; lia);
    apply wp_bind, wp_gets; fold (word (mm s1) (tab (mm s1) d (PDX a)) (PTX a));
    rewrite mapping_None_word by
      (done || rewrite Hm1; apply Hnone; unfold PGSIZE; lia);
    apply wp_bind, wp_modify;
    pose proof (pt_store (dir_range a 0) s1 d a l1 (Z.lor (Z.lor pa perm) PTE_P)
      Hinv1 Hp1) as G2;
    pose proof (mapped_upto_1 s1 d a pa perm Hwf1 Hp1 Ha Hpa Ha0
      ltac:(unfold PGSIZE in *; lia) ltac:(unfold PGSIZE in *; lia) Hperm Hpp) as U1.
  - rewrite (proj2 (Z.eqb_eq a _)) by lia. apply wp_ret.
    exists (u1 ++ []), l1. split; [by eapply pt_grow_trans|left; split; [done|]].
    intros va Hva. rewrite U1, Hm1 by done. done.
  - rewrite (proj2 (Z.eqb_neq a _)) by (unfold PGSIZE; lia).
    rewrite !u32_small by (unfold PGSIZE in *; lia).
    replace (a + Z.of_nat (S n) * PGSIZE) with (a + PGSIZE + Z.of_nat n * PGSIZE)
      by (unfold PGSIZE; lia).
    assert (U1' : mapped_upto (mm s)
      (wr32 (mm s1) (tab (mm s1) d (PDX a) + 4 * PTX a) (Z.lor (Z.lor pa perm) PTE_P))
      d a pa perm 1) by (intros va Hva; by rewrite U1, Hm1).
    wp_use (IH (set_mm (wr32 (mm s1) (tab (mm s1) d (PDX a) + 4 * PTX a)
              (Z.lor (Z.lor pa perm) PTE_P)) s1) l1 (a + PGSIZE) (pa + PGSIZE)).
    all: try (unfold aligned, PGSIZE in *; Z.div_mod_to_equations; lia).
    + by eapply (pg_inv _ _ _ _ _ _ _ G2).
    + intros va Hva. cbn [mm set_mm].
      rewrite U1', Hnone by (unfold PGSIZE in *; lia).
      destruct (Z.ltb_spec va (a + 1 * PGSIZE)); [unfold PGSIZE in *; lia|].
      by rewrite andb_false_r.
    + cbn [mm set_mm]. intros r s3 (u3 & l3 & G3 & Hres).
      exists (u1 ++ [] ++ u3), l3. split.
      * eapply pt_grow_trans; [done|]. eapply pt_grow_trans.
        -- eapply pt_grow_mono; [|exact G2]. intros i (k & Hk & ->). exists k. split; [lia|done].
        -- eapply pt_grow_mono; [|exact G3]. intros i (k & Hk & ->).
           exists (1 + k). split; [lia|]. f_equal. unfold PGSIZE. lia.
      * destruct Hres as [[-> Hu]|(-> & -> & k & Hk & Hu & Habs)]; [left|right].
        -- split; [done|].
           replace (Z.of_nat (S n) + 1) with (1 + (Z.of_nat n + 1)) by lia.
           eapply mapped_upto_S; eauto with lia.
        -- split_and!; try done. exists (1 + k). split; [lia|]. split.
           ++ eapply mapped_upto_S; eauto with lia.
           ++ replace (a + (1 + k) * PGSIZE) with (a + PGSIZE + k * PGSIZE)
                by (unfold PGSIZE; lia). done.
Qed.

Lemma mappages_spec d perm n s l va size pa :
  pt_inv s d l -> aligned va -> aligned pa -> size = (Z.of_nat n + 1) * PGSIZE ->
  0 <= va -> va + size <= 2 ^ 32 -> 0 <= pa -> pa + size <= 2 ^ 32 ->
  0 <= perm < PGSIZE -> Z.lor perm PTE_P < PGSIZE ->
  (forall x, va <= x < va + size -> mapping (mm s) d x = None) ->
  wp (mappages d va size pa perm) s (fun r s' =>
    exists used l', pt_grow (dir_range va n) d s l s' l' used /\
      mapped_result d s va pa perm n r s' l').
Proof.
  intros Hinv Ha Hpa -> Ha0 Har Hp0 Hpr Hperm Hpp Hnone. unfold mappages.
  assert (E1 : PGROUNDDOWN va = va) by (rewrite PGROUNDDOWN_eq, Ha; lia).
  assert (E2 : PGROUNDDOWN (u32 (va + (Z.of_nat n + 1) * PGSIZE - 1))
               = va + Z.of_nat n * PGSIZE).
  { rewrite u32_small by (unfold PGSIZE in *; lia). rewrite PGROUNDDOWN_eq.
    unfold aligned, PGSIZE in *. Z.div_mod_to_equations. lia. }
  rewrite E1, E2.
  replace (va + Z.of_nat n * PGSIZE - va) with (Z.of_nat n * PGSIZE) by lia.
  rewrite u32_small by (unfold PGSIZE in *; lia).
  rewrite Z.div_mul, Nat2Z.id by (unfold PGSIZE; lia).
  apply mappages_loop_spec; try done; unfold PGSIZE in *; lia.
Qed.

(** ** setupkvm *)

Definition ksize (k : kmap_entry) : Z := u32 (phys_end k - phys_start k).

Definition in_kmap (k : kmap_entry) (va : Z) : Prop :=
  virt k <= va < virt k + ksize k.

(** The entry the table [ks] gives to [va]. *)
Fixpoint kmap_lookup (ks : list kmap_entry) (va : Z) : option Z :=
  match ks with
  | [] => None
  | k :: ks =>
      if (virt k <=? va) && (va <? virt k + ksize k)
      then Some (map_entry (virt k) (phys_start k) (kperm k) va)
      else kmap_lookup ks va
  end.

(** The directory entries the kernel part occupies: 224 MB of physical memory
    from [KERNBASE], and the device space. *)
Definition kdirs : list Z := seqZ 512 56 ++ seqZ 1016 8.

Definition kmap_ok (k : kmap_entry) : Prop :=
  aligned (virt k) /\ aligned (phys_start k) /\ 0 <= virt k /\
  (exists n, ksize k = (Z.of_nat n + 1) * PGSIZE) /\
  virt k + ksize k <= 2 ^ 32 /\ 0 <= phys_start k /\
  phys_start k + ksize k <= 2 ^ 32 /\
  0 <= kperm k < PGSIZE /\ Z.lor (kperm k) PTE_P < PGSIZE /\
  (forall va, in_kmap k va -> PDX va ∈ kdirs).

Fixpoint kmap_disjoint (ks : list kmap_entry) : Prop :=
  match ks with
  | [] => True
  | k :: ks =>
      Forall (fun k' => forall va, in_kmap k va -> ~ in_kmap k' va) ks /\ kmap_disjoint ks
  end.

Lemma setupkvm_loop_spec d ks : forall s l,
  pt_inv s d l -> Forall kmap_ok ks -> kmap_disjoint ks ->
  (forall va k, k ∈ ks -> in_kmap k va -> mapping (mm s) d va = None) ->
  wp (setupkvm_loop d ks) s (fun r s' => exists used l',
    pt_grow (fun i => i ∈ kdirs) d s l s' l' used /\
    (r = true /\ (forall va, 0 <= va < 2 ^ 32 -> mapping (mm s') d va =
        match kmap_lookup ks va with Some e => Some e | None => mapping (mm s) d va end) \/
     r = false /\ l' = [] /\ exists i, i ∈ kdirs /\ ~ present (mm s') d i)).
Proof.
  induction ks as [|k ks IH]; intros s l Hinv Hok Hdis Hnone; cbn [setupkvm_loop].
  - apply wp_ret. exists [], l. split; [by apply pt_grow_refl|]. left. auto.
  - apply Forall_cons in Hok as [Hk Hok]. destruct Hdis as [Hd Hdis].
    destruct Hk as (Ha & Hpa & Hv0 & (n & Hn) & Hr & Hp0 & Hpr & Hperm & Hpp & Hdir).
    apply wp_bind. fold (ksize k).
    wp_use (mappages_spec d (kperm k) n s l (virt k) (ksize k) (phys_start k)); try done.
    { intros x Hx. apply (Hnone x k); [by left|done]. }
    intros r s1 (u1 & l1 & G1 & Hres).
    apply (pt_grow_mono _ (fun i => i ∈ kdirs)) in G1.
    2: { intros i (j & Hj & ->). apply Hdir. unfold in_kmap, PGSIZE in *. lia. }
    destruct Hres as [[-> Hu]|(-> & -> & j & Hj & Hu & Habs)]; cbn [Z.ltb Z.compare].
    + assert (Hin : forall va, 0 <= va < 2 ^ 32 -> mapping (mm s1) d va =
        if (virt k <=? va) && (va <? virt k + ksize k)
        then Some (map_entry (virt k) (phys_start k) (kperm k) va)
        else mapping (mm s) d va) by (rewrite Hn; exact Hu).
      wp_use (IH s1 l1); try done.
      * by eapply pg_inv.
      * intros va k' Hk' Hva. rewrite Forall_forall in Hd. rewrite Hin.
        -- pose proof (Hd k' Hk' va) as Hnot.
           destruct ((virt k <=? va) && (va <? virt k + ksize k)) eqn:E; bool_hyps.
           ++ exfalso. apply Hnot; [|done]. unfold in_kmap. lia.
           ++ apply (Hnone va k'); [by right|done].
        -- rewrite Forall_forall in Hok. pose proof (Hok k' Hk') as Hk2.
           unfold kmap_ok, in_kmap in *. lia.
      * intros r s2 (u2 & l2 & G2 & Hres2). exists (u1 ++ u2), l2.
        split; [by eapply pt_grow_trans|].
        destruct Hres2 as [[-> Hall]|Hbad]; [left|by right].
        split; [done|]. intros va Hva. rewrite Hall by done. cbn [kmap_lookup].
        destruct ((virt k <=? va) && (va <? virt k + ksize k)) eqn:E.
        -- destruct (kmap_lookup ks va) eqn:El; [|by rewrite Hin, E].
           exfalso. clear -E El Hd. induction ks as [|k' ks IH]; [done|].
           cbn [kmap_lookup] in El. apply Forall_cons in Hd as [Hk' Hd].
           destruct ((virt k' <=? va) && (va <? virt k' + ksize k')) eqn:E'; [|auto].
           bool_hyps. apply (Hk' va); unfold in_kmap; lia.
        -- destruct (kmap_lookup ks va); [done|]. by rewrite Hin, E.
    + apply wp_ret. exists u1, []. split; [done|]. right. split_and!; try done.
      exists (PDX (virt k + j * PGSIZE)). split; [|done].
      apply Hdir. unfold in_kmap, PGSIZE in *. lia.
Qed.

Lemma elem_of_kdirs i : i ∈ kdirs <-> 512 <= i < 568 \/ 1016 <= i < 1024.
Proof. unfold kdirs. rewrite elem_of_app, !elem_of_seqZ. lia. Qed.

Lemma v2p_data : v2p data_ = data_ - KERNBASE /\ v2p KERNLINK = EXTMEM.
Proof.
  pose proof data_low. pose proof data_end. pose proof end_high. split; [|done].
  unfold v2p. apply u32_small. unfold KERNLINK, KERNBASE, EXTMEM in *. lia.
Qed.

Lemma kmap_sizes :
  ksize (KMap KERNLINK (v2p KERNLINK) (v2p data_) 0) = data_ - KERNLINK /\
  ksize (KMap data_ (v2p data_) PHYSTOP PTE_W) = KERNBASE + PHYSTOP - data_.
Proof.
  pose proof data_low. pose proof data_end. pose proof end_high.
  destruct v2p_data as [E1 E2]. unfold ksize. cbn. rewrite E1, E2.
  unfold KERNLINK, KERNBASE, EXTMEM, PHYSTOP in *.
  split; rewrite u32_small; lia.
Qed.

Lemma kmap_entries_ok : Forall kmap_ok kmap /\ kmap_disjoint kmap.
Proof.
  pose proof data_low. pose proof data_end. pose proof end_high.
  pose proof data_aligned as Hda. destruct kmap_sizes as [Z2 Z3].
  destruct v2p_data as [E1 E2].
  assert (Z1 : ksize (KMap KERNBASE 0 EXTMEM PTE_W) = EXTMEM) by done.
  assert (Z4 : ksize (KMap DEVSPACE DEVSPACE 0 PTE_W) = 0x2000000) by done.
  assert (Hmul : forall z, 0 < z -> z mod PGSIZE = 0 ->
    exists n, z = (Z.of_nat n + 1) * PGSIZE).
  { intros z Hz Hm. exists (Z.to_nat (z / PGSIZE - 1)). unfold PGSIZE in *.
    Z.div_mod_to_equations. lia. }
  split.
  - unfold kmap. repeat (apply Forall_cons; split); [..|apply Forall_nil; done].
    all: unfold kmap_ok, in_kmap; cbn [virt phys_start phys_end kperm];
      rewrite ?Z1, ?Z2, ?Z3, ?Z4, ?E1, ?E2; split_and!.
    all: try (unfold aligned, KERNLINK, KERNBASE, EXTMEM, PHYSTOP, DEVSPACE, PGSIZE, PTE_W,
      PTE_P in *; done || lia).
    all: try (apply Hmul; unfold KERNLINK, KERNBASE, EXTMEM, PHYSTOP, PGSIZE in *;
      Z.div_mod_to_equations; lia).
    all: try (unfold aligned, KERNBASE, PGSIZE in *; Z.div_mod_to_equations; lia).
    all: intros va Hva; rewrite elem_of_kdirs, PDX_eq;
      unfold KERNLINK, KERNBASE, EXTMEM, PHYSTOP, DEVSPACE in *;
      Z.div_mod_to_equations; lia.
  - unfold kmap. cbn [kmap_disjoint]. split_and!; try done.
    all: repeat (apply Forall_cons; split); try (apply Forall_nil; done).
    all: unfold in_kmap; cbn [virt]; rewrite ?Z1, ?Z2, ?Z3, ?Z4; intros va Hva;
      unfold KERNLINK, KERNBASE, EXTMEM, PHYSTOP, DEVSPACE in *; lia.
Qed.

(** A zeroed page is an empty directory. *)
Lemma empty_dir s d l :
  free_wf s (d :: l) ->
  let s1 := set_mm (memset (mm s) d 0 PGSIZE) (set_freelist (rd32 (mm s) d) s) in
  pt_inv s1 d l /\ (forall i, 0 <= i < 1024 -> ~ present (mm s1) d i).
Proof.
  intros [(Hh & _ & Hc) Hnd Hpg Hl] s1.
  apply NoDup_cons in Hnd as [Hd Hnd]. apply Forall_cons in Hpg as [Hdp Hpg].
  assert (Hno : forall i, 0 <= i < 1024 -> ~ present (mm s1) d i).
  { intros i Hi. unfold present. cbn. rewrite word_memset0 by done. done. }
  split; [|done]. split.
  - apply (free_wf_ext (set_freelist (rd32 (mm s) d) s)); [split; done|done|done|].
    intros q Hq%list_elem_of_In. rewrite Forall_forall in Hpg.
    apply frame_memset; [apply Hdp|apply Hpg, Hq|congruence].
  - split; [done| |]; intros i; intros; exfalso; eapply Hno; eauto.
  - done.
  - intros i Hi Hp. exfalso. by eapply Hno.
Qed.

Lemma mapping_absent m d va : ~ present m d (PDX va) -> mapping m d va = None.
Proof. unfold present, mapping. by destruct (has (word m d (PDX va)) PTE_P). Qed.

(** The pages used for tables are at most one per directory index. *)
Lemma pt_grow_used_bound d s l s' l' used (J : list Z) :
  pt_grow (fun i => i ∈ kdirs) d s l s' l' used -> free_wf s l ->
  (forall i, i ∈ kdirs -> present (mm s') d i -> i ∈ J) ->
  (length used <= length J)%nat.
Proof.
  intros G Hwf HJ. rewrite <- (length_fmap (tab (mm s') d) J).
  apply submseteq_length, NoDup_submseteq.
  - pose proof (fw_nodup _ _ Hwf) as Hnd. rewrite (pg_split _ _ _ _ _ _ _ G) in Hnd.
    by apply NoDup_app in Hnd as [? _].
  - intros q Hq. destruct (pg_used _ _ _ _ _ _ _ G q Hq) as (i & _ & HI & Hp & ->).
    apply list_elem_of_fmap. eauto.
Qed.

(** The page directory [setupkvm] returns, and where its pages come from. *)
Record kvm_built (s : mstate) (l : list Z) (d : Z) (s' : mstate)
    (l' used : list Z) : Prop := {
  kb_split : l = d :: used ++ l';
  kb_inv : pt_inv s' d l';
  kb_mapping : forall va, 0 <= va < 2 ^ 32 -> mapping (mm s') d va = kmap_lookup kmap va;
  kb_dirs : forall i, 0 <= i < 1024 -> present (mm s') d i ->
    i ∈ kdirs /\ tab (mm s') d i ∈ used;
  kb_used : (length used <= 64)%nat;
  kb_frame : frame (fun q => q ∈ d :: used) (mm s) (mm s');
  kb_regs : kpgdir s' = kpgdir s /\ cr3 s' = cr3 s /\ use_lock s' = use_lock s
}.

Lemma setupkvm_spec s l :
  free_wf s l ->
  wp setupkvm s (fun d s' => exists used l',
    d <> 0 /\ kvm_built s l d s' l' used \/
    d = 0 /\ l = used /\ (length l < 65)%nat /\ free_wf s' [] /\
      frame (fun q => q ∈ used) (mm s) (mm s')).
Proof.
  intros Hwf. unfold setupkvm. apply wp_bind. destruct l as [|d l].
  { wp_use kalloc_empty; [done|]. intros r s' [-> ->]. cbn. apply wp_ret.
    exists [], []. right. split_and!; try done; cbn; lia || apply frame_refl. }
  wp_use kalloc_spec; [done|]. intros r s0 (-> & -> & _).
  pose proof (fw_pages _ _ Hwf) as Hpg. apply Forall_cons in Hpg as [Hdp _].
  pose proof (page_ok_bounds d Hdp) as (_ & _ & Hd0).
  rewrite (proj2 (Z.eqb_neq d 0)) by done.
  apply wp_bind, wp_modify. replace (DEVSPACE <? p2v PHYSTOP) with false by done.
  destruct (empty_dir s d l Hwf) as [Hinv Hno].
  set (s1 := set_mm _ (set_freelist _ s)) in *.
  destruct kmap_entries_ok as [Hok Hdis].
  apply wp_bind. wp_use (setupkvm_loop_spec d kmap s1 l); try done.
  { intros va k _ _. apply mapping_absent, Hno, PDX_range. }
  intros r s2 (used & l' & G & Hres). apply wp_ret.
  assert (F : frame (fun q => q ∈ d :: used) (mm s) (mm s2)).
  { eapply frame_trans.
    - eapply frame_mono; [apply (frame_memset _ d 0), Hdp|]. intros q _ ->. set_solver.
    - eapply frame_mono; [apply (pg_frame _ _ _ _ _ _ _ G)|].
      intros q _ [->|(i & Hi & Hp & ->)]; [set_solver|].
      destruct (pg_new _ _ _ _ _ _ _ G i Hi Hp) as [Hp1|[_ Hu]]; [|set_solver].
      exfalso. by eapply Hno. }
  destruct Hres as [[-> Hmap]|(-> & -> & i0 & Hi0 & Habs)].
  - exists used, l'. left. split; [done|]. split; try done.
    + by rewrite (pg_split _ _ _ _ _ _ _ G).
    + by eapply pg_inv.
    + intros va Hva. rewrite Hmap by done. destruct (kmap_lookup kmap va); [done|].
      apply mapping_absent, Hno, PDX_range.
    + intros i Hi Hp. destruct (pg_new _ _ _ _ _ _ _ G i Hi Hp) as [Hp1|?]; [|done].
      exfalso. by eapply Hno.
    + change 64%nat with (length kdirs).
      eapply pt_grow_used_bound; [done|apply Hinv|done].
    + by apply (pg_regs _ _ _ _ _ _ _ G).
  - exists (d :: used), []. right. pose proof (pg_split _ _ _ _ _ _ _ G) as E.
    rewrite app_nil_r in E. subst l. split_and!; try done.
    + assert (Hlen : (length used <= length (filter (.≠ i0) kdirs))%nat).
      { eapply pt_grow_used_bound; [done|apply Hinv|].
        intros i Hi Hp. apply list_elem_of_filter. split; [congruence|done]. }
      assert (Hlt : (length (filter (.≠ i0) kdirs) < length kdirs)%nat).
      { apply length_filter_lt with i0; [done|]. naive_solver. }
      assert (Hk : length kdirs = 64%nat) by done. cbn [length]. lia.
    + apply (pt_free s2 d). by eapply pg_inv.
Qed.
End VmFacts.
