(* ===== verification/UvmFacts.v ===== *)
(** * User address spaces: specifications of allocuvm, copyuvm, deallocuvm

    [uread] is a process's view of its memory: the byte a user virtual address
    denotes under a page directory. *)

From S2P Require Import Prelude Layout Mem Kalloc Vm VmFacts.

Open Scope Z_scope.

Section UvmFacts.
Context `{KernelImage} `{!KernelImageOk}.

Definition uread (m : mem) (d va : Z) : option byte :=
  match mapping m d va with
  | Some e => Some (m (p2v (PTE_ADDR e) + va mod PGSIZE))
  | None => None
  end.

(** The entry of a user page backed by the frame [p]: writable, user, present. *)
Definition upte (p : Z) : Z := Z.lor (v2p p) 7.

Lemma upte_facts p :
  page_ok p ->
  0 <= upte p < 2 ^ 32 /\ p2v (PTE_ADDR (upte p)) = p /\ PTE_ADDR (upte p) = v2p p /\
  has (upte p) PTE_P = true /\ has (upte p) PTE_W = true /\ has (upte p) PTE_U = true.
Proof.
  intros Hp. destruct (new_pde p Hp) as (Hr & Hh & (Hw & Hu) & Ht).
  replace (Z.lor (Z.lor (Z.lor (v2p p) PTE_P) PTE_W) PTE_U) with (upte p) in *
    by (unfold upte; by rewrite <- !Z.lor_assoc).
  split_and!; try done; try lia.
  apply PTE_ADDR_lor; [apply v2p_aligned, Hp|unfold PGSIZE; lia].
Qed.

Lemma page_bounds p : page_ok p -> 0 <= p < 2 ^ 32.
Proof.
  intros Hp. pose proof (page_ok_bounds p Hp).
  unfold KERNLINK, KERNBASE, EXTMEM, PGSIZE in *. lia.
Qed.

(** [p] is a page of its own: not free, not the directory, not a table. *)
Definition private_page (s : mstate) (d : Z) (l : list Z) (p : Z) : Prop :=
  page_ok p /\ p ∉ l /\ p <> d /\ ~ is_table (mm s) d p.

Lemma private_grow I s d l s' l' used p :
  pt_grow I d s l s' l' used -> private_page s d l p ->
  private_page s' d l' p /\ same_page p (mm s) (mm s').
Proof.
  intros G (Hp & Hl & Hd & Ht). pose proof (pg_split _ _ _ _ _ _ _ G) as E.
  assert (Ht' : ~ is_table (mm s') d p).
  { intros (i & Hi & Hpr & ->). destruct (pg_new _ _ _ _ _ _ _ G i Hi Hpr) as [Hpr0|[_ Hu]].
    - apply Ht. exists i. split; [done|]. split; [done|].
      by destruct (pt_grow_table _ _ _ _ _ _ _ i G Hi Hpr0).
    - apply Hl. rewrite E. set_solver. }
  split.
  - split_and!; try done. rewrite E in Hl. set_solver.
  - apply (pg_frame _ _ _ _ _ _ _ G); [apply Hp|]. naive_solver.
Qed.

(** Map one private page at an unmapped address. *)
Lemma map_page s d l a p :
  pt_inv s d l -> private_page s d l p -> aligned a -> 0 <= a -> a + PGSIZE <= 2 ^ 32 ->
  (forall x, a <= x < a + PGSIZE -> mapping (mm s) d x = None) ->
  wp (mappages d a PGSIZE (v2p p) (Z.lor PTE_W PTE_U)) s (fun r s' =>
    exists used l', pt_grow (fun i => i = PDX a) d s l s' l' used /\
      (length used <= 1)%nat /\ (l <> [] -> r = 0) /\
      (r = 0 /\ (forall va, 0 <= va < 2 ^ 32 -> mapping (mm s') d va =
          if (a <=? va) && (va <? a + PGSIZE) then Some (upte p) else mapping (mm s) d va) \/
       r = -1 /\ (forall va, 0 <= va < 2 ^ 32 -> mapping (mm s') d va = mapping (mm s) d va))).
Proof.
  intros Hinv Hp Ha Ha0 Har Hnone.
  pose proof (page_ok_v2p p (proj1 Hp)) as [Ev Hv].
  pose proof (v2p_aligned p (page_ok_aligned p (proj1 Hp))) as Hva.
  wp_use (mappages_spec d (Z.lor PTE_W PTE_U) 0 s l a PGSIZE (v2p p)); try done.
  1,2: unfold EXTMEM, PHYSTOP, PGSIZE in *; lia.
  intros r s' (used & l' & G & Hres). exists used, l'.
  assert (Hone : forall i, dir_range a 0 i -> i = PDX a).
  { intros i (k & Hk & ->). f_equal. unfold PGSIZE. lia. }
  apply (pt_grow_mono _ _ _ _ _ _ _ _ Hone) in G.
  assert (Hused : (length used <= 1)%nat).
  { change 1%nat with (length [tab (mm s') d (PDX a)]).
    apply submseteq_length, NoDup_submseteq.
    - pose proof (fw_nodup _ _ (pt_free _ _ _ Hinv)) as Hnd.
      rewrite (pg_split _ _ _ _ _ _ _ G) in Hnd. by apply NoDup_app in Hnd as [? _].
    - intros q Hq. destruct (pg_used _ _ _ _ _ _ _ G q Hq) as (i & _ & -> & _ & ->).
      set_solver. }
  split; [done|]. split; [done|].
  destruct Hres as [[-> Hu]|(-> & -> & k & Hk & Hu & Habs)].
  - split; [done|]. left. split; [done|]. intros va Hr.
    rewrite Hu by done. change (Z.of_nat 0 + 1) with 1. rewrite Z.mul_1_l.
    destruct ((a <=? va) && (va <? a + PGSIZE)) eqn:E; [|done]. bool_hyps.
    f_equal. unfold map_entry, upte.
    replace (PGROUNDDOWN va) with a.
    + rewrite Z.sub_diag, Z.add_0_r, <- !Z.lor_assoc. done.
    + rewrite PGROUNDDOWN_eq. unfold aligned, PGSIZE in *. Z.div_mod_to_equations. lia.
  - assert (k = 0) as -> by lia. rewrite Z.mul_0_l, Z.add_0_r in Habs. split.
    + intros Hl. exfalso. pose proof (pg_split _ _ _ _ _ _ _ G) as E.
      rewrite app_nil_r in E. subst used. destruct l as [|q l]; [done|].
      assert (Hq : q ∈ q :: l) by (by left).
      destruct (pg_used _ _ _ _ _ _ _ G q Hq) as (i & _ & -> & ? & _). done.
    + right. split; [done|]. intros va Hr. rewrite Hu by done.
      rewrite Z.mul_0_l, Z.add_0_r.
      destruct (Z.leb_spec a va), (Z.ltb_spec va a); try done; lia.
Qed.

(** Taking a page off the free list makes it private. *)
Lemma kalloc_private s d p l :
  pt_inv s d (p :: l) ->
  pt_inv (set_freelist (rd32 (mm s) p) s) d l /\
  private_page (set_freelist (rd32 (mm s) p) s) d l p.
Proof.
  intros [[(Hh & Hnz & Hc) Hnd Hpg Hl] Hwf Hd Ht].
  apply NoDup_cons in Hnd as [Hp Hnd]. apply Forall_cons in Hpg as [Hpk Hpg].
  apply not_elem_of_cons in Hd as [Hne Hd].
  split; [split|]; try done.
  - intros i Hi Hpr Hin. apply (Ht i Hi Hpr). by right.
  - split_and!; try done. intros (i & Hi & Hpr & Heq). apply (Ht i Hi Hpr).
    cbn in Heq. rewrite <- Heq. by left.
Qed.

(** Changing the content of a private page keeps the page tables. *)
Lemma private_write s d l p m' :
  pt_inv s d l -> private_page s d l p -> frame (fun q => q = p) (mm s) m' ->
  pt_inv (set_mm m' s) d l /\ private_page (set_mm m' s) d l p /\
  (forall va, mapping m' d va = mapping (mm s) d va) /\
  (forall q, is_table m' d q <-> is_table (mm s) d q).
Proof.
  intros [Hf Hwf Hd Ht] (Hp & Hpl & Hpd & Hpt) F.
  assert (E : forall i, 0 <= i < 1024 -> word m' d i = word (mm s) d i).
  { intros i Hi. eapply frame_word; [exact F|apply Hwf|congruence|done]. }
  assert (Et : forall q, is_table m' d q <-> is_table (mm s) d q).
  { intros q. split; intros (i & Hi & Hpr & ->); exists i;
      apply (present_word _ _ _ _ (E i Hi)) in Hpr;
      rewrite (tab_word _ _ _ _ (E i Hi)); auto. }
  split; [split|split; [|split]]; try done.
  - apply (free_wf_ext s); [done|done|apply Hf|]. intros q Hq%list_elem_of_In.
    pose proof (fw_pages _ _ Hf) as Hpg. rewrite Forall_forall in Hpg.
    apply F; [apply Hpg, Hq|congruence].
  - eapply pd_wf_frame; [exact F|congruence|done].
  - intros i Hi Hpr. cbn in *. rewrite (tab_word _ _ _ _ (E i Hi)).
    apply Ht; [done|]. by apply (present_word _ _ _ _ (E i Hi)).
  - split_and!; try done. intros Hx. apply Hpt, Et, Hx.
  - intros va. eapply mapping_frame; [exact F|apply Hwf|congruence|].
    intros i Hi Hpr Heq. apply Hpt. exists i. auto.
Qed.


(** ** copyuvm *)

Section CopyUvm.
(** The state [s0] before the copy, the parent's directory [pd] and size [sz];
    [L0] are the pages that were free, and [d] is the child's directory. *)
Variables (s0 : mstate) (pd sz : Z) (L0 : list Z) (d : Z).
#[local] Abbreviation m0 := (mm s0).
Hypothesis Hpwf : pd_wf m0 pd.
Hypothesis Hpd : pd ∉ L0.
Hypothesis Hptab : forall i, 0 <= i < 1024 -> present m0 pd i -> tab m0 pd i ∉ L0.
Hypothesis Hpmap : forall va, 0 <= va < sz ->
  exists e, mapping m0 pd va = Some e /\ p2v (PTE_ADDR e) ∉ L0.
Hypothesis Hsz : 0 <= sz <= KERNBASE.

(** Every user page below [i] is backed in the child by a page of its own,
    with the parent's bytes. *)
Definition copied (s : mstate) (l : list Z) (i : Z) : Prop :=
  forall va, 0 <= va < i -> exists f, f ∈ L0 /\
    mapping (mm s) d va = Some (upte f) /\ private_page s d l f /\
    uread (mm s) d va = uread m0 pd va.

Definition distinct_frames (s : mstate) (i : Z) : Prop :=
  forall va va', 0 <= va < i -> 0 <= va' < i -> va / PGSIZE <> va' / PGSIZE ->
    mapping (mm s) d va <> mapping (mm s) d va'.

Record copy_inv (s : mstate) (l : list Z) (i : Z) : Prop := {
  ci_inv : pt_inv s d l;
  ci_frame : frame (fun q => q ∈ L0) m0 (mm s);
  ci_sub : d ∈ L0 /\ (exists pre, L0 = pre ++ l) /\
           (forall q, is_table (mm s) d q -> q ∈ L0);
  ci_regs : kpgdir s = kpgdir s0 /\ cr3 s = cr3 s0 /\ use_lock s = use_lock s0;
  (** The user's tables, open to the user, are those of the pages so far. *)
  ci_dir : forall j, 0 <= j < 512 -> present (mm s) d j ->
    (exists va, 0 <= va < i /\ j = PDX va) /\
    has (word (mm s) d j) PTE_W = true /\ has (word (mm s) d j) PTE_U = true;
  ci_none : forall va, i <= va < KERNBASE -> mapping (mm s) d va = None;
  ci_kern : forall va, KERNBASE <= va < 2 ^ 32 -> mapping (mm s) d va = kmap_lookup kmap va;
  ci_copied : copied s l i;
  ci_distinct : distinct_frames s i
}.

Lemma parent_walk s va :
  frame (fun q => q ∈ L0) m0 (mm s) ->
  0 <= va < sz ->
  exists e, mapping m0 pd va = Some e /\ p2v (PTE_ADDR e) ∉ L0 /\
    has (word (mm s) pd (PDX va)) PTE_P = true /\
    word (mm s) (tab (mm s) pd (PDX va)) (PTX va) = e /\ has e PTE_P = true /\
    tab (mm s) pd (PDX va) + 4 * PTX va <> 0.
Proof.
  intros F Hva. destruct (Hpmap va Hva) as (e & Hm & He). exists e.
  pose proof (PDX_range va) as Hi. pose proof (PTX_range va) as Hj.
  assert (Ew : word (mm s) pd (PDX va) = word m0 pd (PDX va)).
  { eapply frame_word; [exact F|apply Hpwf|apply Hpd|done]. }
  revert Hm. unfold mapping.
  destruct (has (word m0 pd (PDX va)) PTE_P) eqn:Ep; [|done].
  destruct (has (word m0 (tab m0 pd (PDX va)) (PTX va)) PTE_P) eqn:Ep2; [|done].
  intros [= <-]. rewrite (tab_word _ _ _ _ Ew), Ew.
  rewrite (frame_word _ _ _ (tab m0 pd (PDX va)) (PTX va) F (tab_aligned _ _ _)) by auto.
  destruct (pd_tabs _ _ Hpwf (PDX va) Hi Ep) as [Hok _].
  pose proof (page_ok_bounds _ Hok). split_and!; try done.
  unfold KERNLINK, KERNBASE, EXTMEM in *. lia.
Qed.

Lemma copied_grow I s l s' l' used i :
  pt_grow I d s l s' l' used -> copied s l i ->
  (forall va, 0 <= va < i -> mapping (mm s') d va = mapping (mm s) d va) ->
  copied s' l' i.
Proof.
  intros G Hc Hm va Hva. destruct (Hc va Hva) as (f & HfL & Hf & Hpv & Hu).
  destruct (private_grow _ _ _ _ _ _ _ f G Hpv) as [Hpv' Hsame].
  exists f. rewrite Hm by done. split_and!; try done.
  rewrite <- Hu. unfold uread. rewrite Hm, Hf by done.
  destruct (upte_facts f (proj1 Hpv)) as (_ & -> & _). f_equal. apply Hsame.
  apply Z.mod_pos_bound. unfold PGSIZE. lia.
Qed.

Lemma copied_write s l l' i p m' :
  copied s l i -> p ∉ l' -> (forall q, q ∈ l' -> q ∈ l) -> p ∈ l ->
  frame (fun q => q = p) (mm s) m' ->
  (forall va, mapping m' d va = mapping (mm s) d va) ->
  (forall q, is_table m' d q <-> is_table (mm s) d q) ->
  copied (set_mm m' s) l' i.
Proof.
  intros Hc Hp Hsub Hpl F Hm Ht va Hva.
  destruct (Hc va Hva) as (f & HfL & Hf & (Hfp & Hfl & Hfd & Hft) & Hu).
  exists f. cbn. rewrite Hm. split_and!; try done.
  - split_and!; try done; [set_solver|]. intros Hx. by apply Hft, Ht.
  - rewrite <- Hu. unfold uread. rewrite Hm, Hf.
    destruct (upte_facts f Hfp) as (_ & -> & _). f_equal.
    apply F; [apply Hfp|congruence|]. apply Z.mod_pos_bound. unfold PGSIZE. lia.
Qed.

(** The directory after one more page, whose table it may have gained. *)
Lemma copy_dir s p l s1 s2 l' used i :
  pt_inv s d (p :: l) -> frame (fun q => q = p) (mm s) (mm s1) -> 0 <= i ->
  pt_grow (fun j => j = PDX i) d s1 l s2 l' used ->
  (forall j, 0 <= j < 512 -> present (mm s) d j -> (exists va, 0 <= va < i /\ j = PDX va) /\
    has (word (mm s) d j) PTE_W = true /\ has (word (mm s) d j) PTE_U = true) ->
  forall j, 0 <= j < 512 -> present (mm s2) d j -> (exists va, 0 <= va < i + PGSIZE /\ j = PDX va) /\
    has (word (mm s2) d j) PTE_W = true /\ has (word (mm s2) d j) PTE_U = true.
Proof.
  intros Hinv F Hi G Hdir j Hj Hp.
  assert (E : word (mm s1) d j = word (mm s) d j).
  { eapply frame_word; [exact F|apply (pd_page _ _ (pt_wf _ _ _ Hinv))| |lia].
    intros ->. apply (pt_dir _ _ _ Hinv). by left. }
  destruct (has (word (mm s1) d j) PTE_P) eqn:E1.
  - rewrite (pg_keep _ _ _ _ _ _ _ G j ltac:(lia) E1), E. rewrite E in E1. destruct (Hdir j Hj E1) as ((va & ? & ->) & ? & ?).
    split; [|done]. exists va. unfold PGSIZE. split; [lia|done].
  - assert (Hn : ~ present (mm s1) d j) by (unfold present; congruence).
    destruct (pg_new _ _ _ _ _ _ _ G j ltac:(lia) Hp) as [|[-> _]]; [done|].
    split; [exists i; unfold PGSIZE; split; [lia|done]|]. by apply (pg_user _ _ _ _ _ _ _ G); [lia| |].
Qed.

(** The tables after one more page are still pages that were free. *)
Lemma copy_tables I s1 l s2 l' used :
  pt_grow I d s1 l s2 l' used -> (forall q, is_table (mm s1) d q -> q ∈ L0) ->
  (forall q, q ∈ used -> q ∈ L0) -> forall q, is_table (mm s2) d q -> q ∈ L0.
Proof.
  intros G HtL Hu q (j & Hj & Hpr & ->).
  destruct (pg_new _ _ _ _ _ _ _ G j Hj Hpr) as [Hpr1|[_ Hin]]; [|by apply Hu].
  apply HtL. exists j. split; [done|]. split; [done|].
  by destruct (pt_grow_table _ _ _ _ _ _ _ j G Hj Hpr1).
Qed.

(** The new page reads in the child what the parent's page held. *)
Lemma new_page_reads m m2 p i e va :
  frame (fun q => q ∈ L0) m0 m -> page_ok p -> aligned i -> 0 <= i -> i + PGSIZE <= KERNBASE ->
  mapping m0 pd i = Some e -> p2v (PTE_ADDR e) ∉ L0 ->
  (forall o, 0 <= o < PGSIZE -> m2 (p + o) = memmove m p (p2v (PTE_ADDR e)) PGSIZE (p + o)) ->
  i <= va < i + PGSIZE -> mapping m2 d va = Some (upte p) -> uread m2 d va = uread m0 pd va.
Proof.
  intros F Hpg Ha Hi HiK He HeL Hsame Hva Hm. destruct (upte_facts p Hpg) as (_ & Hup & _).
  unfold uread. rewrite Hm, Hup.
  assert (Hpar : mapping m0 pd va = Some e).
  { rewrite <- He. unfold mapping, tab. destruct (proj2 (vpn_inj va i ltac:(klia) ltac:(klia))) as [-> ->]; [|done].
    unfold aligned, PGSIZE in *. Z.div_mod_to_equations. lia. }
  rewrite Hpar. f_equal.
  assert (Ho : 0 <= va mod PGSIZE < PGSIZE) by (apply Z.mod_pos_bound; unfold PGSIZE; lia).
  rewrite Hsame, memmove_page by done. apply F; [apply p2v_aligned, PTE_ADDR_aligned|done|done].
Qed.

(** The new page was free, so that no page copied before uses its frame. *)
Lemma copy_distinct s s2 p l i :
  copied s (p :: l) i -> distinct_frames s i -> page_ok p -> aligned i ->
  (forall va, 0 <= va < i -> mapping (mm s2) d va = mapping (mm s) d va) ->
  (forall va, i <= va < i + PGSIZE -> mapping (mm s2) d va = Some (upte p)) ->
  distinct_frames s2 (i + PGSIZE).
Proof.
  intros Hcop Hdist Hpg Ha Hmlow Hmnew va va' Hva Hva' Hne. destruct (upte_facts p Hpg) as (_ & Hup & _).
  assert (Hold : forall x, 0 <= x < i -> mapping (mm s2) d x <> Some (upte p)).
  { intros x Hx. rewrite Hmlow by done.
    destruct (Hcop x Hx) as (f & _ & Hf & (Hfp & Hfl & _) & _). rewrite Hf. intros [= Heq]. apply Hfl.
    destruct (upte_facts f Hfp) as (_ & Hfu & _). rewrite <- Hfu, Heq, Hup. by left. }
  destruct (Z.lt_ge_cases va i), (Z.lt_ge_cases va' i).
  + rewrite !Hmlow by lia. apply Hdist; [lia|lia|done].
  + rewrite (Hmnew va') by lia. apply Hold. lia.
  + rewrite (Hmnew va) by lia. intros Heq. apply (Hold va'); [lia|done].
  + exfalso. apply Hne. unfold aligned, PGSIZE in *. Z.div_mod_to_equations. lia.
Qed.

(** One iteration of the copy: allocate [p], copy the parent's page, map it. *)
Lemma copy_page s p l i :
  copy_inv s (p :: l) i -> l <> [] -> aligned i -> 0 <= i < sz ->
  forall e, mapping m0 pd i = Some e -> p2v (PTE_ADDR e) ∉ L0 ->
  let s1 := set_mm (memmove (mm s) p (p2v (PTE_ADDR e)) PGSIZE)
              (set_freelist (rd32 (mm s) p) s) in
  wp (mappages d i PGSIZE (v2p p) (Z.lor PTE_W PTE_U)) s1 (fun r s' =>
    r = 0 /\ exists l', copy_inv s' l' (i + PGSIZE) /\
      (length l <= length l' + 1)%nat).
Proof.
  intros [Hinv F (HdL & [pre EL] & HtL) Hregs Hdir Hnone Hkern Hcop Hdist] Hl Ha Hi e He HeL s1.
  assert (HlL : forall q, q ∈ p :: l -> q ∈ L0) by (intros q Hq; rewrite EL; apply elem_of_app; by right).
  destruct (kalloc_private s d p l Hinv) as [Hinv0 Hpriv0].
  assert (HpL : p ∈ L0) by (apply HlL; by left).
  pose proof (proj1 Hpriv0) as Hpok.
  assert (Fw : frame (fun q => q = p) (mm (set_freelist (rd32 (mm s) p) s)) (mm s1)).
  { apply frame_memmove; [apply Hpok|unfold PGSIZE; lia]. }
  destruct (private_write _ d l p (mm s1) Hinv0 Hpriv0 Fw) as (Hinv1 & Hpriv1 & Hm1 & Ht1).
  change (set_mm (mm s1) (set_freelist (rd32 (mm s) p) s)) with s1 in *.
  assert (HiK : i + PGSIZE <= KERNBASE).
  { unfold aligned, KERNBASE, PGSIZE in *. Z.div_mod_to_equations. lia. }
  wp_use (map_page s1 d l i p); try done; try (unfold KERNBASE, PGSIZE in *; lia).
  { intros x Hx. cbn. rewrite Hm1. apply Hnone. unfold KERNBASE, PGSIZE in *; lia. }
  intros r s2 (used & l' & G & Hlen & Hr0 & Hres). specialize (Hr0 Hl). subst r.
  split; [done|]. destruct Hres as [[_ Hmap]|[? _]]; [|done].
  pose proof (pg_split _ _ _ _ _ _ _ G) as E.
  assert (Hpg : page_ok p) by done.
  exists l'. split; [|rewrite E, length_app; lia].
  destruct (private_grow _ _ _ _ _ _ _ p G Hpriv1) as [Hpriv2 Hsame2].
  assert (Hmlow : forall va, 0 <= va < i -> mapping (mm s2) d va = mapping (mm s1) d va).
  { intros va Hva. rewrite Hmap by (unfold KERNBASE in *; lia).
    destruct (Z.leb_spec i va); [lia|done]. }
  assert (Hc1 : copied s1 l i).
  { apply (copied_write (set_freelist (rd32 (mm s) p) s) (p :: l) l i p);
      [exact Hcop|apply Hpriv0|by right|by left|exact Fw|exact Hm1|exact Ht1]. }
  assert (Hmnew : forall va, i <= va < i + PGSIZE -> mapping (mm s2) d va = Some (upte p)).
  { intros va Hva. rewrite Hmap by (unfold KERNBASE, PGSIZE in *; lia).
    destruct (Z.leb_spec i va), (Z.ltb_spec va (i + PGSIZE)); try lia. done. }
  assert (HuL : forall q, q ∈ used -> q ∈ L0) by (intros q Hq; apply HlL; right; rewrite E; apply elem_of_app; by left).
  pose proof (copy_tables _ _ _ _ _ _ G (fun q Hq => HtL q (proj1 (Ht1 q) Hq)) HuL) as Ht2.
  split.
  - by eapply pg_inv.
  - eapply frame_trans; [exact F|]. eapply frame_trans.
    + eapply frame_mono; [exact Fw|]. intros q _ ->. done.
    + eapply frame_mono; [apply (pg_frame _ _ _ _ _ _ _ G)|].
      intros q _ [->|(j & Hj & Hpr & ->)]; [done|]. apply Ht2. exists j. auto.
  - split_and!; [done| |exact Ht2]. exists (pre ++ p :: used). by rewrite EL, E, <- app_assoc.
  - by destruct (pg_regs _ _ _ _ _ _ _ G) as (-> & -> & ->).
  - exact (copy_dir s p l s1 s2 l' used i Hinv Fw (proj1 Hi) G Hdir).
  - intros va Hva. rewrite Hmap by klia. destruct (Z.ltb_spec va (i + PGSIZE)); [lia|].
    rewrite andb_false_r. cbn. rewrite Hm1. apply Hnone. klia.
  - intros va Hva. rewrite Hmap by klia. destruct (Z.ltb_spec va (i + PGSIZE)); [lia|].
    rewrite andb_false_r. cbn. rewrite Hm1. by apply Hkern.
  - intros va Hva. destruct (Z.lt_ge_cases va i) as [Hlt|Hge].
    + apply (copied_grow _ s1 l s2 l' used i G Hc1 Hmlow va). lia.
    + exists p. split; [done|]. split; [apply Hmnew; lia|]. split; [done|].
      apply (new_page_reads (mm s) (mm s2) p i e); try done; try lia. apply Hmnew. lia.
  - apply (copy_distinct s s2 p l i); try done. intros va Hva. by rewrite Hmlow, Hm1.
Qed.

Lemma copyuvm_loop_spec n : forall s l i fuel,
  copy_inv s l i -> aligned i -> 0 <= i ->
  sz <= i + Z.of_nat n * PGSIZE -> i < sz + PGSIZE -> (n <= fuel)%nat -> (2 * n <= length l)%nat ->
  wp (copyuvm_loop pd d i sz fuel) s (fun r s' =>
    r = true /\ exists l' i', sz <= i' < sz + PGSIZE /\ aligned i' /\ copy_inv s' l' i' /\
      (length l <= length l' + 2 * n)%nat).
Proof.
  induction n as [|n IH]; intros s l i fuel Hci Ha Hi Hn Htop Hf Hl.
  - destruct fuel; cbn [copyuvm_loop]; destruct (Z.ltb_spec i sz); try lia;
      apply wp_ret; (split; [done|]); exists l, i; split_and!; try done; lia.
  - destruct fuel as [|fuel]; [lia|]. cbn [copyuvm_loop].
    destruct (Z.ltb_spec i sz) as [Hlt|Hge].
    2: { apply wp_ret. split; [done|]. exists l, i. split_and!; try done; lia. }
    destruct (parent_walk s i (ci_frame _ _ _ Hci) ltac:(lia))
      as (e & Hm & HeL & Hpr & Hw & Hep & Hne).
    apply wp_bind. unfold wp at 1.
    rewrite walkpgdir_noalloc, Hpr by (apply page_ok_high, Hpwf).
    rewrite (proj2 (Z.eqb_neq _ 0)) by done.
    apply wp_bind, wp_gets. fold (word (mm s) (tab (mm s) pd (PDX i)) (PTX i)).
    rewrite Hw, Hep. cbn [negb]. apply wp_bind.
    destruct l as [|p l]; [cbn in Hl; lia|].
    wp_use kalloc_spec; [apply Hci|]. intros r s' (-> & -> & _).
    assert (Hp0 : p <> 0).
    { pose proof (fw_pages _ _ (pt_free _ _ _ (ci_inv _ _ _ Hci))) as Hpg.
      apply Forall_cons in Hpg as [Hp _]. by destruct (page_ok_bounds p Hp) as (_ & _ & ?). }
    rewrite (proj2 (Z.eqb_neq _ 0)) by done.
    apply wp_bind, wp_modify, wp_bind.
    wp_use (copy_page s p l i Hci); try done.
    { destruct l; [cbn in Hl; lia|done]. }
    intros r s2 (-> & l2 & Hci2 & Hlen). cbn [Z.ltb Z.compare length] in *.
    rewrite u32_small by (unfold KERNBASE, PGSIZE in *; lia).
    wp_use (IH s2 l2 (i + PGSIZE) fuel Hci2); try (unfold PGSIZE in *; lia).
    { unfold aligned, PGSIZE in *. Z.div_mod_to_equations. lia. }
    intros r s3 (-> & l3 & i3 & H3 & Ha3 & Hci3 & Hl3). split; [done|]. exists l3, i3. split_and!; try done; lia.
Qed.

End CopyUvm.

Lemma kmap_lookup_user va : 0 <= va < KERNBASE -> kmap_lookup kmap va = None.
Proof.
  intros Hva. pose proof data_low. unfold kmap. cbn [kmap_lookup virt].
  unfold KERNLINK, KERNBASE, DEVSPACE, EXTMEM in *.
  repeat match goal with |- context [?a <=? va] =>
    rewrite (proj2 (Z.leb_gt a va)) by lia end. done.
Qed.

(** The number of pages of a user image of [sz] bytes. *)
Definition npages (sz : Z) : nat := Z.to_nat ((sz + PGSIZE - 1) / PGSIZE).

(** The directory [pd] maps the user image [0..sz) and nothing it uses is on
    the free list [l]. *)
Record image_wf (m : mem) (pd sz : Z) (l : list Z) : Prop := {
  im_wf : pd_wf m pd;
  im_dir : pd ∉ l;
  im_tabs : forall i, 0 <= i < 1024 -> present m pd i -> tab m pd i ∉ l;
  im_pages : forall va, 0 <= va < sz ->
    exists e, mapping m pd va = Some e /\ p2v (PTE_ADDR e) ∉ l;
  im_size : 0 <= sz <= KERNBASE
}.

Lemma copyuvm_spec s pd sz l :
  free_wf s l -> image_wf (mm s) pd sz l -> (65 + 2 * npages sz <= length l)%nat ->
  wp (copyuvm pd sz) s (fun d s' => d <> 0 /\
    exists l' i, sz <= i < sz + PGSIZE /\ aligned i /\ copy_inv s pd l d s' l' i /\
      (length l <= length l' + (65 + 2 * npages sz))%nat).
Proof.
  intros Hwf [Hpw Hpd Hpt Hpm Hsz] Hlen. unfold copyuvm. apply wp_bind.
  wp_use (setupkvm_spec s l Hwf).
  intros d s1 (used & l1 & [[Hd0 Hb]|(_ & _ & Hl & _)]); [|lia].
  rewrite (proj2 (Z.eqb_neq d 0)) by done.
  destruct Hb as [Es Hinv Hmap Hdirs Hused Hframe Hregs].
  apply wp_bind.
  wp_use (copyuvm_loop_spec s pd sz l d Hpw Hpd Hpt Hpm Hsz (npages sz) s1 l1 0);
    try done.
  - split; try done.
    + eapply frame_mono; [exact Hframe|]. intros q _ Hq. rewrite Es. set_solver.
    + split_and!; [rewrite Es; set_solver|by exists (d :: used)|].
      intros q (i & Hi & Hp & ->). destruct (Hdirs i Hi Hp) as [_ Hu].
      rewrite Es. set_solver.
    + intros j Hj Hp. destruct (Hdirs j ltac:(lia) Hp) as [Hk _]. apply elem_of_kdirs in Hk. lia.
    + intros va Hva. rewrite Hmap by (unfold KERNBASE in *; lia).
      by apply kmap_lookup_user.
    + intros va Hva. apply Hmap. unfold KERNBASE in *. lia.
    + intros va Hva. lia.
    + intros va va' Hva. lia.
  - unfold npages, PGSIZE. Z.div_mod_to_equations. lia.
  - unfold PGSIZE. lia.
  - unfold npages, PGSIZE. Z.div_mod_to_equations. lia.
  - rewrite Es in Hlen. cbn [length] in Hlen. rewrite length_app in Hlen. lia.
  - intros r s2 (-> & l2 & i & Hi & Ha & Hci & Hl2). apply wp_ret. split; [done|]. exists l2, i. split_and!; try done; try lia.
    rewrite Es. cbn [length]. rewrite length_app. lia.
Qed.

End UvmFacts.
