(* ===== verification/UvmAlloc.v ===== *)
(** * Growing and shrinking user memory: allocuvm, deallocuvm, freevm

    [uvm] is the invariant of a process's own address space: the user pages in
    a set [U] are mapped, each to a page of its own, and no other user page is.
    [allocuvm] extends the set, [deallocuvm] shrinks it and gives the pages
    back, [freevm] gives back the tables and the directory too. *)

From S2P Require Import Prelude Layout Mem Kalloc Vm VmFacts UvmFacts.

Open Scope Z_scope.

Section UvmAlloc.
Context `{KernelImage} `{!KernelImageOk}.

(** The page a page-table entry points to. *)
Definition frame_of (e : Z) : Z := p2v (PTE_ADDR e).

Record uvm (s : mstate) (d : Z) (l : list Z) (U : Z -> Prop) : Prop := {
  uv_inv : pt_inv s d l;
  uv_some : forall va, 0 <= va < KERNBASE -> U va ->
    exists e, mapping (mm s) d va = Some e /\ private_page s d l (frame_of e);
  uv_none : forall va, 0 <= va < KERNBASE -> ~ U va -> mapping (mm s) d va = None;
  uv_inj : forall va va' e e',
    0 <= va < KERNBASE -> 0 <= va' < KERNBASE ->
    mapping (mm s) d va = Some e -> mapping (mm s) d va' = Some e' ->
    frame_of e = frame_of e' -> va / PGSIZE = va' / PGSIZE
}.

Lemma uvm_ext s d l (U V : Z -> Prop) :
  (forall va, 0 <= va < KERNBASE -> U va <-> V va) -> uvm s d l U -> uvm s d l V.
Proof.
  intros E [Hi Hs Hn Hj]. split; try done.
  - intros va Hva Hv. apply Hs, E; done.
  - intros va Hva Hv. apply Hn; [done|]. by rewrite E.
Qed.

Lemma mapping_page m d va va' :
  0 <= va < 2 ^ 32 -> 0 <= va' < 2 ^ 32 -> va / PGSIZE = va' / PGSIZE ->
  mapping m d va = mapping m d va'.
Proof.
  intros H1 H2 E. unfold mapping, tab.
  by destruct (proj2 (vpn_inj va va' H1 H2) E) as [-> ->].
Qed.

Lemma mapping_Some m d va e :
  mapping m d va = Some e ->
  present m d (PDX va) /\ word m (tab m d (PDX va)) (PTX va) = e /\ has e PTE_P = true.
Proof.
  unfold mapping, present. destruct (has (word m d (PDX va)) PTE_P); [|done].
  destruct (has (word m (tab m d (PDX va)) (PTX va)) PTE_P) eqn:E; [|done].
  by intros [= <-].
Qed.

(** ** Giving one page back *)

(** [kfree] of a private page. *)
Lemma free_private s d l p :
  pt_inv s d l -> private_page s d l p ->
  let s1 := set_freelist p (set_mm (kfree_mem s p) s) in
  wp (kfree p) s (fun _ s' => s' = s1) /\ pt_inv s1 d (p :: l) /\
  frame (fun q => q = p) (mm s) (mm s1) /\
  (forall va, mapping (mm s1) d va = mapping (mm s) d va) /\
  (forall i, 0 <= i < 1024 -> word (mm s1) d i = word (mm s) d i).
Proof.
  intros Hinv Hp s1. pose proof Hp as (Hok & Hl & Hd & Ht).
  assert (F : frame (fun q => q = p) (mm s) (kfree_mem s p)).
  { intros q Hq Hne. by apply kfree_mem_other. }
  destruct (private_write s d l p _ Hinv Hp F) as ([Hf Hwf Hdl Htl] & _ & Hm & Hti).
  pose proof (kfree_spec s p l (pt_free _ _ _ Hinv) Hok Hl) as W.
  assert (Hw : forall i, 0 <= i < 1024 -> word (mm s1) d i = word (mm s) d i).
  { intros i Hi. eapply frame_word; [exact F|apply Hinv|congruence|done]. }
  split; [|split; [|split]]; try done.
  - wp_use W. by intros _ s' [-> _].
  - apply wp_Ok in W as (u & s' & _ & -> & Hf'). split; try done.
    + by apply not_elem_of_cons.
    + intros i Hi Hpr. apply not_elem_of_cons. split; [|by apply Htl].
      intros E. apply Ht, Hti. exists i. auto.
Qed.

Section Unmap.
Variables (s : mstate) (d : Z) (l : list Z) (U : Z -> Prop) (a e : Z).
Hypothesis Hu : uvm s d l U.
Hypothesis Ha : 0 <= a < KERNBASE.
Hypothesis HU : U a.
Hypothesis He : mapping (mm s) d a = Some e.

Let p := frame_of e.
Let s1 := set_freelist p (set_mm (kfree_mem s p) s).
Let s2 := set_mm (wr32 (mm s1) (tab (mm s) d (PDX a) + 4 * PTX a) 0) s1.

Lemma unmap_private : private_page s d l p.
Proof.
  destruct (uv_some _ _ _ _ Hu a Ha HU) as (e' & E & Hp). unfold p. congruence.
Qed.

Lemma unmap_tab : present (mm s1) d (PDX a) /\ tab (mm s1) d (PDX a) = tab (mm s) d (PDX a).
Proof.
  destruct (free_private s d l p (uv_inv _ _ _ _ Hu) unmap_private) as (_ & _ & _ & _ & W).
  pose proof (PDX_range a) as Hi. destruct (mapping_Some _ _ _ _ He) as (Hp & _).
  split; [by apply (present_word _ _ _ _ (W _ Hi))|by apply tab_word, W].
Qed.

Lemma unmap_facts :
  pt_inv s2 d (p :: l) /\
  (forall i, 0 <= i < 1024 -> word (mm s2) d i = word (mm s) d i) /\
  (forall va, 0 <= va < 2 ^ 32 -> mapping (mm s2) d va =
     if va / PGSIZE =? a / PGSIZE then None else mapping (mm s) d va) /\
  frame (fun q => q = p \/ q = tab (mm s) d (PDX a)) (mm s) (mm s2).
Proof.
  destruct (free_private s d l p (uv_inv _ _ _ _ Hu) unmap_private)
    as (_ & Hinv1 & F1 & Hm1 & W1).
  destruct unmap_tab as [Hp1 Et]. pose proof (PDX_range a) as Hi. pose proof (PTX_range a).
  pose proof (pt_store (fun _ => False) s1 d a (p :: l) 0 Hinv1 Hp1) as G.
  rewrite Et in G. split; [by eapply pg_inv|].
  destruct (tab_stable (mm s1) d (PDX a) (PTX a) 0 (pt_wf _ _ _ Hinv1) Hi Hp1 ltac:(done))
    as [F2 W2]. rewrite Et in F2, W2.
  split; [|split].
  - intros i Hr. cbn. rewrite W2 by done. by apply W1.
  - intros va Hva.
    change (mm s2) with (wr32 (mm s1) (tab (mm s) d (PDX a) + 4 * PTX a) 0).
    rewrite <- Et, mapping_store by
      (done || apply Hinv1 || unfold KERNBASE in *; lia).
    replace (has 0 PTE_P) with false by done. by rewrite Hm1.
  - eapply frame_trans; (eapply frame_mono; [eassumption|]); naive_solver.
Qed.

(** The page taken out of the address space is free, everything else stays. *)
Lemma uvm_unmap :
  uvm s2 d (p :: l) (fun va => U va /\ va / PGSIZE <> a / PGSIZE) /\
  (forall va, 0 <= va < KERNBASE -> U va -> va / PGSIZE <> a / PGSIZE ->
     uread (mm s2) d va = uread (mm s) d va).
Proof.
  destruct unmap_facts as (Hinv2 & W2 & Hm2 & F2).
  pose proof unmap_private as Hpp.
  assert (Hkeep : forall va e', 0 <= va < KERNBASE -> U va -> va / PGSIZE <> a / PGSIZE ->
    mapping (mm s) d va = Some e' -> private_page s d l (frame_of e') /\ frame_of e' <> p).
  { intros va e' Hva HUva Hne Ee.
    destruct (uv_some _ _ _ _ Hu va Hva HUva) as (e2 & E2 & Hp2).
    assert (e2 = e') as -> by congruence. split; [done|].
    intros E. apply Hne. by eapply (uv_inj _ _ _ _ Hu). }
  assert (Hmr : forall va, 0 <= va < KERNBASE -> va / PGSIZE <> a / PGSIZE ->
    mapping (mm s2) d va = mapping (mm s) d va).
  { intros va Hva Hne. rewrite Hm2 by (unfold KERNBASE in *; lia).
    by rewrite (proj2 (Z.eqb_neq _ _)). }
  split; [split|].
  - done.
  - intros va Hva [HUva Hne]. destruct (uv_some _ _ _ _ Hu va Hva HUva) as (e' & E' & _).
    exists e'. rewrite Hmr by done. split; [done|].
    destruct (Hkeep va e' Hva HUva Hne E') as [(Hok & Hl & Hd & Ht) Hnp].
    split_and!; [done|by apply not_elem_of_cons|done|].
    intros (i & Hi & Hpr & E). apply Ht. exists i. pose proof (W2 i Hi) as E2.
    rewrite <- (tab_word _ _ _ _ E2). by apply (present_word _ _ _ _ E2) in Hpr.
  - intros va Hva Hn. destruct (decide (va / PGSIZE = a / PGSIZE)) as [E|E].
    + rewrite Hm2 by (unfold KERNBASE in *; lia). by rewrite (proj2 (Z.eqb_eq _ _)).
    + rewrite Hmr by done. apply (uv_none _ _ _ _ Hu); tauto.
  - intros va va' e1 e2 H1 H2 E1 E2. rewrite Hm2 in E1, E2 by (unfold KERNBASE in *; lia).
    destruct (va / PGSIZE =? a / PGSIZE), (va' / PGSIZE =? a / PGSIZE); try done.
    by eapply (uv_inj _ _ _ _ Hu).
  - intros va Hva HUva Hne. unfold uread. rewrite Hmr by done.
    destruct (mapping (mm s) d va) as [e'|] eqn:E'; [|done].
    destruct (Hkeep va e' Hva HUva Hne E') as [(Hok & _ & _ & Ht) Hnp].
    f_equal. apply F2; [apply p2v_aligned, PTE_ADDR_aligned| |apply Z.mod_pos_bound; done].
    intros [Eq|Eq]; [done|]. apply Ht. destruct (mapping_Some _ _ _ _ He) as (Hp & _).
    exists (PDX a). split; [apply PDX_range|]. split; [done|exact Eq].
Qed.
End Unmap.

(** ** deallocuvm *)

(** From [s] to [s'] the user pages of [a..top) were unmapped and their frames
    [freed]; nothing else in the address space changed. *)
Record shrunk (d a top : Z) (s s' : mstate) (freed : list Z) : Prop := {
  sh_dir : forall i, 0 <= i < 1024 -> word (mm s') d i = word (mm s) d i;
  sh_map : forall va, 0 <= va < 2 ^ 32 -> va < a \/ top <= va ->
    mapping (mm s') d va = mapping (mm s) d va;
  sh_read : forall va, 0 <= va < a -> uread (mm s') d va = uread (mm s) d va;
  sh_freed : forall q, q ∈ freed <->
    exists va e, a <= va < top /\ mapping (mm s) d va = Some e /\ q = frame_of e;
  sh_frame : frame (fun q => is_table (mm s) d q \/ q ∈ freed) (mm s) (mm s');
  sh_regs : kpgdir s' = kpgdir s /\ cr3 s' = cr3 s /\ use_lock s' = use_lock s
}.

Lemma shrunk_refl d a top s : top <= a -> shrunk d a top s s [].
Proof.
  intros Ht. split; auto using frame_refl.
  intros q. split; [by intros ?%not_elem_of_nil|]. intros (va & e & ? & _). lia.
Qed.

(** Above the mapped pages the loop only walks. *)
Lemma deallocuvm_loop_nop d oldsz fuel : forall s a,
  KERNBASE <= d -> oldsz <= KERNBASE -> 0 <= a ->
  oldsz <= a + Z.of_nat fuel * PGSIZE ->
  pd_wf (mm s) d ->
  (forall va, a <= va < KERNBASE -> mapping (mm s) d va = None) ->
  deallocuvm_loop d a oldsz fuel s = Ok tt s.
Proof.
  induction fuel as [|fuel IH]; intros s a Hd Ho Ha Hf Hwf Hn; cbn [deallocuvm_loop];
    destruct (Z.ltb_spec a oldsz); try done; [lia|].
  unfold bind. rewrite walkpgdir_noalloc by done. cbn [obind].
  pose proof (Hn a ltac:(lia)) as Hna.
  destruct (has (word (mm s) d (PDX a)) PTE_P) eqn:Ep.
  - destruct (pd_tabs _ _ Hwf (PDX a) (PDX_range a) Ep) as [Hok _].
    pose proof (page_ok_bounds _ Hok). pose proof (PTX_range a).
    rewrite (proj2 (Z.eqb_neq _ 0)) by klia.
    pose proof (mapping_None_word _ _ _ Hna Ep) as E.
    unfold ld32, gets. cbn [obind].
    fold (word (mm s) (tab (mm s) d (PDX a)) (PTX a)). rewrite E.
    unfold when, ret. cbn -[deallocuvm_loop].
    rewrite u32_small by (unfold KERNBASE, PGSIZE in *; lia).
    apply IH; try done; try (unfold PGSIZE in *; lia). intros va Hva. apply Hn.
    unfold PGSIZE in *. lia.
  - cbn -[deallocuvm_loop]. rewrite !u32_small; unfold KERNBASE, NPTENTRIES, PGSIZE in *; try lia.
    all: rewrite ?u32_small by lia; try lia.
    apply IH; try done; unfold KERNBASE, PGSIZE in *; try lia. intros va Hva. apply Hn. lia.
Qed.

(** One iteration on a mapped page. *)
Lemma deallocuvm_step s d l U a e oldsz fuel :
  uvm s d l U -> 0 <= a < oldsz -> oldsz <= KERNBASE -> U a ->
  mapping (mm s) d a = Some e ->
  let p := frame_of e in
  let s1 := set_freelist p (set_mm (kfree_mem s p) s) in
  deallocuvm_loop d a oldsz (S fuel) s =
  deallocuvm_loop d (a + PGSIZE) oldsz fuel
    (set_mm (wr32 (mm s1) (tab (mm s) d (PDX a) + 4 * PTX a) 0) s1).
Proof.
  intros Hu Ha Ho HU He p s1. cbn [deallocuvm_loop].
  rewrite (proj2 (Z.ltb_lt a oldsz)) by lia.
  assert (HaK : 0 <= a < KERNBASE) by lia.
  pose proof (unmap_private s d l U a e Hu HaK HU He) as Hpp.
  destruct (mapping_Some _ _ _ _ He) as (Hp & Hw & Heh).
  pose proof (pt_wf _ _ _ (uv_inv _ _ _ _ Hu)) as Hwf.
  unfold bind at 1. rewrite walkpgdir_noalloc by (apply page_ok_high, Hwf).
  cbn [obind]. unfold present in Hp. rewrite Hp.
  destruct (pd_tabs _ _ Hwf (PDX a) (PDX_range a) Hp) as [Hok _].
  pose proof (page_ok_bounds _ Hok) as (Hlo & _). pose proof (PTX_range a).
  rewrite (proj2 (Z.eqb_neq _ 0)) by (unfold KERNLINK, KERNBASE, EXTMEM in *; lia).
  unfold bind at 1, ld32, gets at 1. cbn [obind].
  fold (word (mm s) (tab (mm s) d (PDX a)) (PTX a)). rewrite Hw, Heh.
  assert (Hpa : PTE_ADDR e <> 0).
  { intros E. pose proof (page_ok_bounds _ (proj1 Hpp)) as (Hb & _). unfold frame_of in Hb.
    rewrite E in Hb. revert Hb. done. }
  unfold when. rewrite (proj2 (Z.eqb_neq _ 0)) by done.
  destruct (free_private s d l p (uv_inv _ _ _ _ Hu) Hpp) as (Wk & _).
  unfold wp in Wk. unfold bind. fold (frame_of e). fold p.
  destruct (kfree p s) as [[] s'|?|?|]; cbn [obind]; try done. subst s'.
  cbn -[deallocuvm_loop kfree_mem].
  rewrite u32_small by (unfold KERNBASE, PGSIZE in *; lia). done.
Qed.

Lemma same_page_div a va : aligned a -> va / PGSIZE = a / PGSIZE <-> a <= va < a + PGSIZE.
Proof. unfold aligned, PGSIZE. intros Ha. split; intros; Z.div_mod_to_equations; lia. Qed.

Lemma deallocuvm_loop_spec d lo top oldsz fuel : forall s l a,
  uvm s d l (fun va => va < lo \/ a <= va < top) ->
  aligned a -> aligned top -> 0 <= lo <= a -> top < oldsz + PGSIZE -> oldsz <= KERNBASE ->
  oldsz <= a + Z.of_nat fuel * PGSIZE ->
  wp (deallocuvm_loop d a oldsz fuel) s (fun _ s' => exists freed,
    uvm s' d (freed ++ l) (fun va => va < lo) /\ shrunk d a top s s' freed /\ NoDup freed).
Proof.
  induction fuel as [|fuel IH]; intros s l a Hu Ha Htop Hlo Ht Ho Hf.
  all: assert (Hdone : top <= a -> forall fuel, oldsz <= a + Z.of_nat fuel * PGSIZE ->
    wp (deallocuvm_loop d a oldsz fuel) s (fun _ s' => exists freed,
      uvm s' d (freed ++ l) (fun va => va < lo) /\ shrunk d a top s s' freed /\ NoDup freed)).
  1,3: intros Hta n Hn; pose proof (pt_wf _ _ _ (uv_inv _ _ _ _ Hu)) as Hwf;
    unfold wp; rewrite deallocuvm_loop_nop;
    [exists []; split; [|split]; [|by apply shrunk_refl|by apply NoDup_nil]
    |by apply page_ok_high, Hwf|done|lia|done|done
    |intros va Hva; apply (uv_none _ _ _ _ Hu); lia];
    eapply uvm_ext; [|exact Hu]; intros; cbv beta; lia.
  { apply Hdone; [|done]. unfold aligned, PGSIZE in *. Z.div_mod_to_equations. lia. }
  destruct (Z.lt_ge_cases a top) as [Hlt|Hge]; [|by apply Hdone].
  assert (Hao : a < oldsz) by (unfold aligned, PGSIZE in *; Z.div_mod_to_equations; lia).
  assert (Hap : a + PGSIZE <= top) by (unfold aligned, PGSIZE in *; Z.div_mod_to_equations; lia).
  assert (HaK : 0 <= a < KERNBASE) by lia.
  destruct (uv_some _ _ _ _ Hu a HaK (or_intror (conj (Z.le_refl a) Hlt))) as (e & He & _).
  assert (HUa : a < lo \/ a <= a < top) by lia.
  unfold wp. rewrite (deallocuvm_step s d l _ a e oldsz fuel Hu) by (done || lia || (right; lia)).
  destruct (unmap_facts s d l _ a e Hu HaK HUa He) as (_ & W1 & Hm1 & F1).
  destruct (uvm_unmap s d l _ a e Hu HaK HUa He) as (Hu1 & Hr1).
  pose proof (unmap_private s d l _ a e Hu HaK HUa He) as Hpp.
  destruct (mapping_Some _ _ _ _ He) as (Hpa & _).
  set (s1 := set_mm _ _) in *.
  assert (Htab : forall q, is_table (mm s1) d q <-> is_table (mm s) d q).
  { intros q. split; intros (i & Hi & Hp & ->); exists i; pose proof (W1 i Hi) as E;
      rewrite (tab_word _ _ _ _ E); apply (present_word _ _ _ _ E) in Hp; auto. }
  assert (Hmo : forall va, 0 <= va < 2 ^ 32 -> ~ (a <= va < a + PGSIZE) ->
    mapping (mm s1) d va = mapping (mm s) d va).
  { intros va Hva Hn. rewrite Hm1 by done.
    rewrite (proj2 (Z.eqb_neq _ _)); [done|]. by rewrite same_page_div. }
  pose proof (IH s1 (frame_of e :: l) (a + PGSIZE)) as W. fold (wp (deallocuvm_loop d (a + PGSIZE) oldsz fuel) s1).
  eapply wp_mono; [apply W; try done; try klia|].
  - eapply uvm_ext; [|exact Hu1]. intros va Hva. cbv beta. rewrite same_page_div by done. klia.
  - unfold aligned, PGSIZE in *. Z.div_mod_to_equations. lia.
  - intros _ s2 (freed & Hu2 & [D2 M2 R2 F2 P2 G2] & Hnd).
    exists (freed ++ [frame_of e]). rewrite <- app_assoc. split; [done|].
    assert (Hfr : forall q, q ∈ freed ++ [frame_of e] <->
      exists va e0, a <= va < top /\ mapping (mm s) d va = Some e0 /\ q = frame_of e0).
    { intros q. rewrite elem_of_app, list_elem_of_singleton, F2. split.
      - intros [(va & e0 & Hva & E0 & ->)| ->].
        + rewrite Hmo in E0 by klia. exists va, e0. split; [klia|done].
        + exists a, e. split; [lia|done].
      - intros (va & e0 & Hva & E0 & ->).
        destruct (decide (va / PGSIZE = a / PGSIZE)) as [E|E].
        + right. rewrite (mapping_page _ _ va a) in E0 by (done || klia). congruence.
        + left. rewrite same_page_div in E by done. exists va, e0. split; [klia|].
          rewrite Hmo by klia. done. }
    split; [split|].
    + intros i Hi. by rewrite D2, W1.
    + intros va Hva Hr. rewrite M2, Hmo by (done || klia). done.
    + intros va Hva. rewrite R2 by klia. destruct (Z.lt_ge_cases va lo).
      * apply Hr1; [klia|lia|]. rewrite same_page_div by done. klia.
      * unfold uread. rewrite Hmo by klia.
        rewrite (uv_none _ _ _ _ Hu va) by klia. done.
    + exact Hfr.
    + eapply frame_trans; (eapply frame_mono; [eassumption|]).
      * intros q _ [->| ->]; [right; set_solver|left]. exists (PDX a).
        split; [apply PDX_range|done].
      * intros q _ [Hq|Hq]; [left; by apply Htab|right; set_solver].
    + by destruct G2 as (-> & -> & ->).
    + apply NoDup_app. split; [done|]. split; [|by apply NoDup_singleton].
      intros q Hq ->%list_elem_of_singleton.
      pose proof (fw_nodup _ _ (pt_free _ _ _ (uv_inv _ _ _ _ Hu2))) as Hn2.
      apply NoDup_app in Hn2 as (_ & Hn2 & _). apply (Hn2 _ Hq). set_solver.
Qed.

Lemma deallocuvm_spec s d l top oldsz newsz :
  uvm s d l (fun va => va < top) -> aligned top ->
  0 <= newsz -> top < oldsz + PGSIZE -> oldsz <= KERNBASE -> newsz < oldsz ->
  PGROUNDUP newsz <= top ->
  wp (deallocuvm d oldsz newsz) s (fun r s' => r = newsz /\ exists freed,
    uvm s' d (freed ++ l) (fun va => va < PGROUNDUP newsz) /\
    shrunk d (PGROUNDUP newsz) top s s' freed /\ NoDup freed).
Proof.
  intros Hu Ht Hn Hto Ho Hlt Hle. unfold deallocuvm.
  rewrite (proj2 (Z.leb_gt oldsz newsz)) by lia.
  assert (E : PGROUNDUP newsz = (newsz + PGSIZE - 1) / PGSIZE * PGSIZE)
    by (apply PGROUNDUP_eq; klia).
  assert (Hal : aligned (PGROUNDUP newsz)) by (rewrite E; by apply Z.mod_mul).
  apply wp_bind.
  wp_use (deallocuvm_loop_spec d (PGROUNDUP newsz) top oldsz
            (Z.to_nat (oldsz / PGSIZE + 1)) s l); try done.
  - eapply uvm_ext; [|exact Hu]. intros va Hva. cbv beta. lia.
  - rewrite E. unfold PGSIZE. Z.div_mod_to_equations. lia.
  - rewrite E. unfold PGSIZE in *. Z.div_mod_to_equations. lia.
Qed.

(** ** freevm *)

Lemma freevm_loop_spec d n : forall s l i,
  free_wf s l -> page_ok d -> d ∉ l -> 0 <= i -> i + Z.of_nat n <= 1024 ->
  (forall j, i <= j < i + Z.of_nat n -> present (mm s) d j ->
     page_ok (tab (mm s) d j) /\ tab (mm s) d j <> d /\ tab (mm s) d j ∉ l) ->
  (forall j k, i <= j < i + Z.of_nat n -> i <= k < i + Z.of_nat n ->
     present (mm s) d j -> present (mm s) d k -> tab (mm s) d j = tab (mm s) d k -> j = k) ->
  wp (freevm_loop d i n) s (fun _ s' => exists tabs,
    free_wf s' (tabs ++ l) /\ d ∉ tabs /\
    (forall q, q ∈ tabs <->
      exists j, i <= j < i + Z.of_nat n /\ present (mm s) d j /\ q = tab (mm s) d j) /\
    frame (fun q => q ∈ tabs) (mm s) (mm s') /\
    kpgdir s' = kpgdir s /\ cr3 s' = cr3 s /\ use_lock s' = use_lock s).
Proof.
  induction n as [|n IH]; intros s l i Hwf Hd Hdl Hi Hn Ht Hinj; cbn [freevm_loop].
  { apply wp_ret. exists []. split; [done|]. split; [apply not_elem_of_nil|]. split; [|split; [apply frame_refl|done]].
    intros q. split; [by intros ?%not_elem_of_nil|]. intros (j & ? & _). lia. }
  apply wp_bind, wp_gets. fold (word (mm s) d i). apply wp_bind, wp_when.
  destruct (has (word (mm s) d i) PTE_P) eqn:Ep.
  - fold (tab (mm s) d i). destruct (Ht i ltac:(lia) Ep) as (Hok & Hne & Hl).
    wp_use (kfree_spec s _ l Hwf Hok Hl). intros _ s1 [-> Hwf1].
    set (s1 := set_freelist _ _) in *.
    assert (W : forall j, 0 <= j < 1024 -> word (mm s1) d j = word (mm s) d j).
    { intros j Hj. apply same_page_word; [|done]. apply kfree_mem_other; [done|apply Hd|done]. }
    assert (Tr : forall j, i + 1 <= j < i + 1 + Z.of_nat n ->
      tab (mm s1) d j = tab (mm s) d j /\ (present (mm s1) d j <-> present (mm s) d j)).
    { intros j Hj. pose proof (W j ltac:(lia)) as E.
      split; [by apply tab_word|by apply present_word]. }
    wp_use (IH s1 (tab (mm s) d i :: l) (i + 1)); try done; try lia.
    + apply not_elem_of_cons. done.
    + intros j Hj Hp. destruct (Tr j Hj) as [-> Epr]. apply Epr in Hp.
      destruct (Ht j ltac:(lia) Hp) as (? & ? & ?). split_and!; try done.
      apply not_elem_of_cons. split; [|done]. intros E.
      pose proof (Hinj j i ltac:(lia) ltac:(lia) Hp Ep E). lia.
    + intros j k Hj Hk. destruct (Tr j Hj) as [-> ->], (Tr k Hk) as [-> ->].
      apply Hinj; lia.
    + intros _ s2 (tabs & Hwf2 & Hdt & Hq & F2 & R2). exists (tabs ++ [tab (mm s) d i]).
      rewrite <- app_assoc. split; [done|].
      split; [by intros [?|?%list_elem_of_singleton]%elem_of_app|].
      split; [|split; [|by destruct R2 as (-> & -> & ->)]].
      2: { eapply frame_trans; [|eapply frame_mono; [exact F2|intros q _ Hqt; apply elem_of_app; by left]].
           intros q Hqa Hqn. apply kfree_mem_other; [done|done|]. intros ->. apply Hqn, elem_of_app. right. by apply list_elem_of_singleton. }
      intros q. rewrite elem_of_app, list_elem_of_singleton, Hq. split.
      * intros [(j & Hj & Hp & ->)| ->]; [|exists i; split; [lia|done]].
        destruct (Tr j Hj) as [-> Epr]. exists j. split; [lia|]. by rewrite <- Epr.
      * intros (j & Hj & Hp & ->). destruct (decide (j = i)) as [->|]; [by right|left].
        exists j. destruct (Tr j ltac:(lia)) as [-> ->]. split; [lia|done].
  - wp_use (IH s l (i + 1)); try done; try lia.
    + intros j Hj. apply Ht. lia.
    + intros j k Hj Hk. apply Hinj; lia.
    + intros _ s2 (tabs & Hwf2 & Hdt & Hq & F2 & R2). exists tabs. split; [done|]. split; [done|]. split; [|done].
      intros q. rewrite Hq. split; intros (j & Hj & Hp & ->); exists j; [split; [lia|done]|].
      split; [|done]. destruct (decide (j = i)) as [->|]; [|lia].
      unfold present in Hp. congruence.
Qed.

Lemma freevm_spec s d l top :
  uvm s d l (fun va => va < top) -> aligned top -> 0 <= top <= KERNBASE ->
  wp (freevm d) s (fun _ s' => exists given, free_wf s' (given ++ l) /\
    (forall q, q ∈ given <-> q = d \/ is_table (mm s) d q \/
      exists va e, 0 <= va < top /\ mapping (mm s) d va = Some e /\ q = frame_of e) /\
    frame (fun q => q ∈ given) (mm s) (mm s') /\
    kpgdir s' = kpgdir s /\ cr3 s' = cr3 s /\ use_lock s' = use_lock s).
Proof.
  intros Hu Ht Hr. pose proof (uv_inv _ _ _ _ Hu) as Hinv.
  pose proof (pd_page _ _ (pt_wf _ _ _ Hinv)) as Hd.
  pose proof (page_ok_bounds d Hd) as (_ & _ & Hd0).
  unfold freevm. rewrite (proj2 (Z.eqb_neq d 0)) by done. apply wp_bind.
  wp_use (deallocuvm_spec s d l top KERNBASE 0 Hu Ht); try klia.
  { change (PGROUNDUP 0) with 0. lia. }
  change (PGROUNDUP 0) with 0.
  intros r s1 (_ & freed & Hu1 & Hs & Hnd). pose proof (uv_inv _ _ _ _ Hu1) as Hinv1.
  assert (Hdir : forall i, 0 <= i < 1024 ->
    tab (mm s1) d i = tab (mm s) d i /\ (present (mm s1) d i <-> present (mm s) d i)).
  { intros i Hi. pose proof (sh_dir _ _ _ _ _ _ Hs i Hi).
    split; [by apply tab_word|by apply present_word]. }
  apply wp_bind. wp_use (freevm_loop_spec d (Z.to_nat NPDENTRIES) s1 (freed ++ l) 0).
  - apply Hinv1.
  - done.
  - apply Hinv1.
  - lia.
  - done.
  - intros j Hj Hp. change (0 + Z.of_nat (Z.to_nat NPDENTRIES)) with 1024 in Hj.
    destruct (pd_tabs _ _ (pt_wf _ _ _ Hinv1) j Hj Hp). split_and!; try done.
    by apply (pt_tabs _ _ _ Hinv1).
  - change (0 + Z.of_nat (Z.to_nat NPDENTRIES)) with 1024. intros j k Hj Hk.
    by apply (pd_inj _ _ (pt_wf _ _ _ Hinv1)).
  - change (0 + Z.of_nat (Z.to_nat NPDENTRIES)) with 1024.
    intros _ s2 (tabs & Hwf2 & Hdt & Htabs & F2 & R2).
    wp_use (kfree_spec s2 d _ Hwf2 Hd).
    { intros [?|?]%elem_of_app; [done|]. by apply (pt_dir _ _ _ Hinv1). }
    intros _ s3 [-> Hwf3]. exists (d :: tabs ++ freed).
    assert (Ett : forall q, q ∈ tabs <-> is_table (mm s) d q).
    { intros q. rewrite Htabs. split; intros (j & Hj & Hp & ->); exists j; destruct (Hdir j Hj) as [E1 E2];
        rewrite ?E1, ?E2 in *; auto. }
    split; [by rewrite <- app_comm_cons, <- app_assoc|]. split; [|split].
    + intros q. by rewrite elem_of_cons, elem_of_app, Ett, (sh_freed _ _ _ _ _ _ Hs).
    + apply (frame_trans _ _ (mm s1)); [|apply (frame_trans _ _ (mm s2))].
      * eapply frame_mono; [apply (sh_frame _ _ _ _ _ _ Hs)|]. intros q _ Hq. rewrite elem_of_cons, elem_of_app, Ett. tauto.
      * eapply frame_mono; [exact F2|]. intros q _ Hq. rewrite elem_of_cons, elem_of_app. tauto.
      * intros q Hqa Hqn. apply kfree_mem_other; [done|done|]. intros ->. apply Hqn. by left.
    + cbn. destruct (sh_regs _ _ _ _ _ _ Hs) as (<- & <- & <-), R2 as (<- & <- & <-). done.
Qed.

(** ** allocuvm *)

(** From [(s, l)] to [(s', l')] the user pages [lo..cur) were added, zeroed, on
    pages of [l]; the pages below [lo] and the kernel part did not change. *)
Record grown (d lo cur : Z) (s : mstate) (l : list Z) (s' : mstate) (l' : list Z) : Prop := {
  gr_sub : forall q, q ∈ l' -> q ∈ l;
  gr_tabs : forall q, is_table (mm s') d q -> q ∈ l \/ is_table (mm s) d q;
  gr_map : forall va, 0 <= va < lo \/ KERNBASE <= va < 2 ^ 32 ->
    mapping (mm s') d va = mapping (mm s) d va;
  gr_read : forall va, 0 <= va < lo -> uread (mm s') d va = uread (mm s) d va;
  gr_new : forall va e, lo <= va < cur -> mapping (mm s') d va = Some e -> frame_of e ∈ l;
  gr_zero : forall va, lo <= va < cur -> uread (mm s') d va = Some x00;
  gr_frame : frame (fun q => q ∈ l \/ q = d \/ is_table (mm s) d q) (mm s) (mm s');
  gr_regs : kpgdir s' = kpgdir s /\ cr3 s' = cr3 s /\ use_lock s' = use_lock s;
  gr_user : forall va e, lo <= va < cur -> mapping (mm s') d va = Some e ->
    has e PTE_W = true /\ has e PTE_U = true
}.

(** Mapping one page at [top] adds at most its own table, open to the user. *)
Definition dir_grown (d top : Z) (s s' : mstate) : Prop := forall i,
  0 <= i < 1024 -> present (mm s') d i -> word (mm s') d i = word (mm s) d i \/
  i = PDX top /\ has (word (mm s') d i) PTE_W = true /\ has (word (mm s') d i) PTE_U = true.

Lemma grown_refl d lo s l : grown d lo lo s l s l.
Proof. split; auto using frame_refl; intros; lia. Qed.

Lemma grown_trans d lo cur nxt s1 l1 s2 l2 s3 l3 :
  0 <= lo <= cur -> grown d lo cur s1 l1 s2 l2 -> grown d cur nxt s2 l2 s3 l3 ->
  grown d lo nxt s1 l1 s3 l3.
Proof.
  intros Hlo [S1 T1 M1 R1 N1 Z1 F1 (G1 & G2 & G3) W1] [S2 T2 M2 R2 N2 Z2 F2 (K1 & K2 & K3) W2].
  split.
  - auto.
  - intros q Hq. destruct (T2 q Hq); auto.
  - intros va Hva. rewrite M2, M1 by lia. done.
  - intros va Hva. rewrite R2, R1 by lia. done.
  - intros va e Hva E. destruct (Z.lt_ge_cases va cur).
    + rewrite M2 in E by lia. apply (N1 va); [lia|done].
    + apply S1, (N2 va); [lia|done].
  - intros va Hva. destruct (Z.lt_ge_cases va cur).
    + rewrite R2 by lia. apply Z1. lia.
    + apply Z2. lia.
  - eapply frame_trans; (eapply frame_mono; [eassumption|]).
    + auto.
    + intros q _ [Hq|[->|Hq]]; auto. destruct (T1 q Hq); auto.
  - by rewrite K1, K2, K3.
  - intros va e Hva E. destruct (Z.lt_ge_cases va cur).
    + rewrite M2 in E by lia. apply (W1 va); [lia|done].
    + apply (W2 va); [lia|done].
Qed.

Section AddPage.
Variables (s : mstate) (d p : Z) (l : list Z) (top : Z).
Hypothesis Hu : uvm s d (p :: l) (fun va => va < top).
Hypothesis Ht : aligned top.
Hypothesis Hr : 0 <= top /\ top + PGSIZE <= KERNBASE.

Let s1 := set_mm (memset (mm s) p 0 PGSIZE) (set_freelist (rd32 (mm s) p) s).

Lemma add_zeroed :
  uvm s1 d l (fun va => va < top) /\ private_page s1 d l p /\
  (forall va, mapping (mm s1) d va = mapping (mm s) d va) /\
  (forall q, is_table (mm s1) d q <-> is_table (mm s) d q) /\
  (forall va e, 0 <= va < top -> mapping (mm s) d va = Some e -> frame_of e <> p) /\
  (forall va, 0 <= va < top -> uread (mm s1) d va = uread (mm s) d va).
Proof.
  destruct (kalloc_private s d p l (uv_inv _ _ _ _ Hu)) as [Hinv0 Hp0].
  assert (F : frame (fun q => q = p) (mm s) (mm s1)).
  { apply frame_memset, (page_ok_aligned _ (proj1 Hp0)). }
  destruct (private_write _ d l p (mm s1) Hinv0 Hp0 F) as (Hinv1 & Hp1 & Hm1 & Ht1).
  change (set_mm (mm s1) (set_freelist (rd32 (mm s) p) s)) with s1 in *.
  assert (Hne : forall va e, 0 <= va < top -> mapping (mm s) d va = Some e ->
    frame_of e <> p /\ private_page s d (p :: l) (frame_of e)).
  { intros va e Hva E. destruct (uv_some _ _ _ _ Hu va) as (e' & E' & Hpp); [klia|lia|].
    assert (e' = e) as -> by congruence. split; [|done].
    destruct Hpp as (_ & Hpl & _). intros Eq. apply Hpl. rewrite Eq. by left. }
  split; [|split; [|split; [|split; [|split]]]]; try done.
  - split; [done| | |].
    + intros va Hva HU. destruct (uv_some _ _ _ _ Hu va Hva HU) as (e & E & (H1 & H2 & H3 & H4)).
      exists e. rewrite Hm1. split; [done|]. split_and!; try done.
      * intros Hin. apply H2. by right.
      * intros Hx. apply H4. by apply Ht1 in Hx.
    + intros va Hva HU. rewrite Hm1. by apply (uv_none _ _ _ _ Hu).
    + intros va va' e e'. rewrite !Hm1. apply (uv_inj _ _ _ _ Hu).
  - intros va e Hva E. by apply (Hne va e Hva E).
  - intros va Hva. unfold uread. rewrite Hm1. cbn [mm set_freelist].
    destruct (mapping (mm s) d va) as [e|] eqn:E; [|done]. f_equal.
    apply F; [apply p2v_aligned, PTE_ADDR_aligned|apply (Hne va e Hva E)|].
    by apply Z.mod_pos_bound.
Qed.

(** What mapping the page does outside [top..top+PGSIZE), whether or not it
    succeeds. *)
Section Mapped.
Variables (I : Z -> Prop) (s2 : mstate) (l' used : list Z).
Hypothesis G : pt_grow I d s1 l s2 l' used.
Hypothesis Hm2 : forall va, 0 <= va < top \/ top + PGSIZE <= va < 2 ^ 32 ->
  mapping (mm s2) d va = mapping (mm s1) d va.

Lemma add_map va :
  0 <= va < top \/ top + PGSIZE <= va < 2 ^ 32 -> mapping (mm s2) d va = mapping (mm s) d va.
Proof. intros Hva. rewrite Hm2 by done. by apply add_zeroed. Qed.

Lemma add_tabs q : is_table (mm s2) d q -> q ∈ p :: l \/ is_table (mm s) d q.
Proof.
  intros (i & Hi & Hp & ->). destruct (pg_new _ _ _ _ _ _ _ G i Hi Hp) as [Ho|[_ Hin]].
  - right. apply add_zeroed. exists i.
    destruct (pt_grow_table _ _ _ _ _ _ _ i G Hi Ho) as [_ ->]. auto.
  - left. right. rewrite (pg_split _ _ _ _ _ _ _ G). apply elem_of_app. by left.
Qed.

Lemma add_frame : frame (fun q => q ∈ p :: l \/ q = d \/ is_table (mm s) d q) (mm s) (mm s2).
Proof.
  destruct add_zeroed as (_ & Hp1 & _). eapply frame_trans.
  - eapply frame_mono; [apply (frame_memset (mm s) p 0), (proj1 Hp1)|]. intros q _ ->.
    left. by left.
  - eapply frame_mono; [apply (pg_frame _ _ _ _ _ _ _ G)|].
    intros q _ [->|Hq]; [auto|]. destruct (add_tabs q Hq); auto.
Qed.

Lemma add_kept va :
  0 <= va < top -> exists e, mapping (mm s2) d va = Some e /\
    mapping (mm s) d va = Some e /\ frame_of e <> p /\
    private_page s2 d l' (frame_of e) /\ same_page (frame_of e) (mm s1) (mm s2).
Proof.
  intros Hva. destruct add_zeroed as (Hu1 & _ & Hm1 & _ & Hne & _).
  destruct (uv_some _ _ _ _ Hu1 va) as (e & E & Hpp); [klia|lia|].
  exists e. rewrite Hm2, Hm1 in * by lia.
  destruct (private_grow _ _ _ _ _ _ _ _ G Hpp). eauto 10.
Qed.

Lemma add_grown :
  (forall va e, top <= va < top + PGSIZE -> mapping (mm s2) d va = Some e -> e = upte p) ->
  forall cur, cur <= top + PGSIZE ->
  (forall va, top <= va < cur -> mapping (mm s2) d va = Some (upte p)) ->
  grown d top cur s (p :: l) s2 l'.
Proof.
  intros Hnew cur Hc Hz. destruct add_zeroed as (_ & Hp1 & _ & _ & _ & Hrd).
  destruct (upte_facts p (proj1 Hp1)) as (_ & Hup & _ & _ & HW & HU). fold (frame_of (upte p)) in Hup.
  split.
  - intros q Hq. right. rewrite (pg_split _ _ _ _ _ _ _ G). apply elem_of_app. by right.
  - apply add_tabs.
  - intros va Hva. apply add_map. klia.
  - intros va Hva. rewrite <- Hrd by done. unfold uread.
    rewrite Hm2 by lia. destruct (add_kept va Hva) as (e & E & _ & _ & _ & Hs).
    rewrite Hm2 in E by lia. rewrite E. f_equal. apply Hs. by apply Z.mod_pos_bound.
  - intros va e Hva Ee. rewrite (Hnew va e) by (lia || done). rewrite Hup. by left.
  - intros va Hva. unfold uread. rewrite Hz by lia. fold (frame_of (upte p)). rewrite Hup.
    destruct (private_grow _ _ _ _ _ _ _ p G Hp1) as [_ Hsame].
    rewrite Hsame by (by apply Z.mod_pos_bound). cbn. rewrite memset_spec by done.
    pose proof (Z.mod_pos_bound va PGSIZE ltac:(done)).
    rewrite (proj2 (Z.leb_le _ _)), (proj2 (Z.ltb_lt _ _)) by lia. done.
  - apply add_frame.
  - by apply (pg_regs _ _ _ _ _ _ _ G).
  - intros va e Hva Ee. by rewrite (Hnew va e) by (lia || done).
Qed.

Lemma add_uvm_mapped :
  (forall va, top <= va < top + PGSIZE -> mapping (mm s2) d va = Some (upte p)) ->
  uvm s2 d l' (fun va => va < top + PGSIZE).
Proof.
  intros Enew. destruct add_zeroed as (Hu1 & Hp1 & Hm1 & _).
  destruct (upte_facts p (proj1 Hp1)) as (_ & Hup & _). fold (frame_of (upte p)) in Hup.
  assert (Hcase : forall va e, 0 <= va < KERNBASE -> mapping (mm s2) d va = Some e ->
    va < top /\ mapping (mm s) d va = Some e /\ frame_of e <> p \/
    va / PGSIZE = top / PGSIZE /\ frame_of e = p).
  { intros va e Hva Ee. destruct (Z.lt_ge_cases va top).
    { destruct (add_kept va ltac:(lia)) as (e' & E' & Es & Hne & _). left. naive_solver. }
    destruct (Z.lt_ge_cases va (top + PGSIZE)).
    - rewrite Enew in Ee by lia. injection Ee as <-. right. by rewrite same_page_div.
    - rewrite add_map, (uv_none _ _ _ _ Hu) in Ee by klia. done. }
  split.
  - by eapply pg_inv.
  - intros va Hva HU. destruct (Z.lt_ge_cases va top).
    + destruct (add_kept va ltac:(lia)) as (e & E & _ & _ & Hpp & _). eauto.
    + exists (upte p). rewrite Enew, Hup by lia. split; [done|].
      by apply (private_grow _ _ _ _ _ _ _ p G Hp1).
  - intros va Hva HU. rewrite add_map by klia. apply (uv_none _ _ _ _ Hu); klia.
  - intros va va' e e' Hva Hva' Ee Ee' Ef.
    destruct (Hcase va e Hva Ee) as [(?&?&?)|[??]], (Hcase va' e' Hva' Ee') as [(?&?&?)|[??]];
      try congruence. by eapply (uv_inj _ _ _ _ Hu).
Qed.

Lemma add_dir : (forall i, I i -> i = PDX top) -> dir_grown d top s s2.
Proof.
  clear Hm2. intros HI i Hi Hp. destruct add_zeroed as (_ & (Hp1 & _) & _).
  assert (E : word (mm s1) d i = word (mm s) d i).
  { eapply frame_word; [apply (frame_memset (mm s) p 0), Hp1| | |done].
    - apply (pd_page _ _ (pt_wf _ _ _ (uv_inv _ _ _ _ Hu))).
    - intros ->. apply (pt_dir _ _ _ (uv_inv _ _ _ _ Hu)). by left. }
  rewrite <- E. destruct (has (word (mm s1) d i) PTE_P) eqn:E1.
  - left. by apply (pg_keep _ _ _ _ _ _ _ G).
  - right. assert (Hn : ~ present (mm s1) d i) by (unfold present; congruence).
    destruct (pg_new _ _ _ _ _ _ _ G i Hi Hp) as [|[Hin _]]; [done|].
    split; [auto|]. by apply (pg_user _ _ _ _ _ _ _ G).
Qed.

Lemma add_uvm_failed :
  (forall va, 0 <= va < 2 ^ 32 -> mapping (mm s2) d va = mapping (mm s1) d va) ->
  uvm s2 d l' (fun va => va < top).
Proof.
  intros E. destruct add_zeroed as (Hu1 & _). split.
  - by eapply pg_inv.
  - intros va Hva HU. destruct (add_kept va ltac:(lia)) as (e & Ee & _ & _ & Hpp & _). eauto.
  - intros va Hva HU. rewrite E by klia. by apply (uv_none _ _ _ _ Hu1).
  - intros va va' e e' Hva Hva'. rewrite !E by klia. by apply (uv_inj _ _ _ _ Hu1).
Qed.
End Mapped.

Lemma uvm_add :
  wp (mappages d top PGSIZE (v2p p) (Z.lor PTE_W PTE_U)) s1 (fun r s' => exists l',
    dir_grown d top s s' /\
    ((r = 0 /\ uvm s' d l' (fun va => va < top + PGSIZE) /\
       grown d top (top + PGSIZE) s (p :: l) s' l' /\ (length l <= length l' + 1)%nat) \/
    (r = -1 /\ l = [] /\ l' = [] /\ uvm s' d l' (fun va => va < top) /\
       grown d top top s (p :: l) s' l'))).
Proof.
  destruct add_zeroed as (Hu1 & Hp1 & _).
  wp_use (map_page s1 d l top p (uv_inv _ _ _ _ Hu1) Hp1 Ht); try klia.
  { intros x Hx. apply (uv_none _ _ _ _ Hu1); klia. }
  intros r s2 (used & l' & G & Hlen & Hr0 & Hres).
  pose proof (pg_split _ _ _ _ _ _ _ G) as El. exists l'.
  split; [apply (add_dir _ _ _ _ G); auto|]. destruct Hres as [[-> E]|[-> E]].
  - assert (Enew : forall va, top <= va < top + PGSIZE -> mapping (mm s2) d va = Some (upte p)).
    { intros va Hva. rewrite E by klia.
      rewrite (proj2 (Z.leb_le _ _)), (proj2 (Z.ltb_lt _ _)) by lia. done. }
    assert (Hm2 : forall va, 0 <= va < top \/ top + PGSIZE <= va < 2 ^ 32 ->
      mapping (mm s2) d va = mapping (mm s1) d va).
    { intros va Hva. rewrite E by klia.
      destruct (Z.leb_spec top va), (Z.ltb_spec va (top + PGSIZE)); try done; klia. }
    left. split_and!; [done|by eapply add_uvm_mapped| |rewrite El, length_app; lia].
    eapply add_grown; [done|done| |reflexivity|done]. intros va e Hva. rewrite Enew by done. congruence.
  - right. assert (El0 : l = []) by (destruct l; [done|by discriminate Hr0]).
    assert (El1 : l' = []) by (rewrite El0 in El; by destruct used, l').
    assert (Hm2 : forall va, 0 <= va < top \/ top + PGSIZE <= va < 2 ^ 32 ->
      mapping (mm s2) d va = mapping (mm s1) d va) by (intros va Hva; apply E; klia).
    split_and!; [done|done|done|eapply add_uvm_failed; done|].
    eapply add_grown; [done|done| |klia|intros; lia].
    intros va e Hva. rewrite E, (uv_none _ _ _ _ Hu1) by klia. done.
Qed.
End AddPage.

Section AllocLoop.
Variables (s0 : mstate) (l0 : list Z) (d oldsz newsz : Z).
Hypothesis Hsz : 0 <= oldsz <= newsz /\ newsz < KERNBASE.

Let lo := PGROUNDUP oldsz.
Let hi := PGROUNDUP newsz.

Lemma alloc_bounds :
  aligned lo /\ aligned hi /\ oldsz <= lo < oldsz + PGSIZE /\ newsz <= hi < newsz + PGSIZE.
Proof.
  unfold lo, hi. rewrite !PGROUNDUP_eq by klia. unfold aligned.
  rewrite !Z.mod_mul by done. unfold PGSIZE. Z.div_mod_to_equations. lia.
Qed.

(** Out of memory: the pages added so far are given back. *)
Lemma alloc_giveup s l top :
  uvm s d l (fun va => va < top) -> grown d lo top s0 l0 s l -> aligned top ->
  lo <= top < newsz + PGSIZE -> oldsz < newsz ->
  wp (deallocuvm d newsz oldsz ;;; ret 0) s (fun r s' => r = 0 /\ exists l',
    uvm s' d l' (fun va => va < lo) /\ grown d lo lo s0 l0 s' l').
Proof.
  intros Hu [S1 T1 M1 R1 N1 Z1 F1 (G1 & G2 & G3)] Ht Hr Hlt. destruct alloc_bounds as (? & ? & ? & ?).
  assert (HtK : top <= KERNBASE)
    by (unfold aligned, KERNBASE, PGSIZE in *; Z.div_mod_to_equations; lia).
  apply wp_bind. wp_use (deallocuvm_spec s d l top newsz oldsz Hu Ht); try lia.
  intros r s' (_ & freed & Hu' & [Sd Sm Sr Sf Sfr (K1 & K2 & K3)] & _). apply wp_ret.
  split; [done|]. exists (freed ++ l). split; [done|].
  assert (Hin : forall q, q ∈ freed -> q ∈ l0).
  { intros q Hq. apply Sf in Hq as (va & e & Hva & E & ->). by eapply N1. }
  split.
  - intros q [Hq|Hq]%elem_of_app; auto.
  - intros q (i & Hi & Hp & ->). apply T1. exists i. pose proof (Sd i Hi) as E.
    rewrite (tab_word _ _ _ _ E). by apply (present_word _ _ _ _ E) in Hp.
  - intros va Hva. fold lo in Sm. rewrite Sm by klia. by apply M1.
  - intros va Hva. rewrite Sr by (fold lo; lia). by apply R1.
  - intros; lia.
  - intros; lia.
  - eapply frame_trans; [exact F1|]. eapply frame_mono; [exact Sfr|].
    intros q _ [Hq|Hq]; auto. destruct (T1 q Hq); auto.
  - by rewrite K1, K2, K3.
  - intros va e Hva. lia.
Qed.

(** The results of [allocuvm]: the image has grown to [newsz]; or nothing is
    added; or the last page table could not be allocated, and [newsz] is
    returned although the last page is not mapped. *)
Definition alloc_result (r : Z) (s' : mstate) (l' : list Z) : Prop :=
  r = newsz /\ uvm s' d l' (fun va => va < hi) /\ grown d lo hi s0 l0 s' l' \/
  r = 0 /\ uvm s' d l' (fun va => va < lo) /\ grown d lo lo s0 l0 s' l' \/
  r = newsz /\ l' = [] /\ uvm s' d l' (fun va => va < hi - PGSIZE) /\
    grown d lo (hi - PGSIZE) s0 l0 s' l' /\ lo < hi.

Lemma allocuvm_empty s a top fuel :
  uvm s d [] (fun va => va < top) -> grown d lo top s0 l0 s [] -> aligned top ->
  lo <= top -> top <= a -> a < newsz -> (0 < fuel)%nat ->
  wp (allocuvm_loop d a oldsz newsz fuel) s (fun r s' => exists l', alloc_result r s' l').
Proof.
  intros Hu Hg Ht H1 H2 H3 Hf. destruct fuel as [|fuel]; [lia|]. cbn [allocuvm_loop].
  destruct alloc_bounds as (_ & _ & ? & _).
  rewrite (proj2 (Z.ltb_lt _ _)) by lia. apply wp_bind.
  wp_use kalloc_empty; [apply Hu|]. intros r s' [-> ->]. cbn [Z.eqb].
  wp_use (alloc_giveup s [] top Hu Hg Ht); try klia.
  intros r s' (-> & l' & ? & ?). exists l'. right. left. auto.
Qed.

Lemma allocuvm_loop_spec fuel : forall s l a,
  uvm s d l (fun va => va < a) -> grown d lo a s0 l0 s l -> aligned a ->
  lo <= a <= hi -> newsz <= a + Z.of_nat fuel * PGSIZE ->
  wp (allocuvm_loop d a oldsz newsz fuel) s (fun r s' => exists l', alloc_result r s' l' /\
    (2 * (hi - a) <= Z.of_nat (length l) * PGSIZE ->
     r = newsz /\ uvm s' d l' (fun va => va < hi) /\ grown d lo hi s0 l0 s' l' /\
     Z.of_nat (length l) * PGSIZE <= Z.of_nat (length l') * PGSIZE + 2 * (hi - a))).
Proof.
  destruct alloc_bounds as (Hl & Hh & Hlb & Hhb).
  induction fuel as [|fuel IH]; intros s l a Hu Hg Ha Hr Hf; cbn [allocuvm_loop];
    destruct (Z.ltb_spec a newsz) as [Hlt|Hge].
  1: lia.
  1,3: assert (a = hi) as -> by (unfold aligned, PGSIZE in *; Z.div_mod_to_equations; lia);
    apply wp_ret; exists l; (split; [left; auto|intros _; split_and!; done || lia]).
  assert (Hah : a + PGSIZE <= hi) by (unfold aligned, PGSIZE in *; Z.div_mod_to_equations; lia).
  assert (HhK : hi <= KERNBASE) by (unfold aligned, KERNBASE, PGSIZE in *; Z.div_mod_to_equations; lia).
  apply wp_bind. destruct l as [|p l].
  { wp_use kalloc_empty; [apply Hu|]. intros r s' [-> ->]. cbn [Z.eqb].
    wp_use (alloc_giveup s [] a Hu Hg Ha); try klia.
    intros r s' (-> & l' & ? & ?). exists l'. split; [right; left; auto|]. cbn. klia. }
  wp_use kalloc_spec; [apply Hu|]. intros r s' (-> & -> & _).
  pose proof (fw_pages _ _ (pt_free _ _ _ (uv_inv _ _ _ _ Hu))) as [Hp _]%Forall_cons.
  pose proof (page_ok_bounds p Hp) as (_ & _ & Hp0).
  rewrite (proj2 (Z.eqb_neq p 0)) by done.
  apply wp_bind, wp_modify, wp_bind.
  wp_use (uvm_add s d p l a Hu Ha); [klia|].
  rewrite (u32_small (a + PGSIZE)) by klia.
  intros r s2 (l2 & _ & [(_ & Hu2 & Hg2 & Hlen)|(_ & -> & -> & Hu2 & Hg2)]).
  - wp_use (IH s2 l2 (a + PGSIZE) Hu2); try klia.
    + eapply grown_trans; [|done|done]. lia.
    + unfold aligned, PGSIZE in *. Z.div_mod_to_equations. lia.
    + intros r' s' (l' & Hres & Hok). exists l'. split; [done|]. intros Hm. cbn [length] in *.
      destruct Hok as (? & ? & ? & ?); [klia|]. split_and!; try done. klia.
  - assert (Hg3 : grown d lo a s0 l0 s2 []) by (eapply grown_trans; [|done|done]; lia).
    destruct (Z.lt_ge_cases (a + PGSIZE) newsz) as [Hlt2|Hge2].
    + wp_use (allocuvm_empty s2 (a + PGSIZE) a fuel Hu2 Hg3 Ha); try klia.
      intros r' s' (l' & Hres). exists l'. split; [done|]. cbn. klia.
    + assert (a + PGSIZE = hi) as Ehi
        by (unfold aligned, PGSIZE in *; Z.div_mod_to_equations; lia).
      destruct fuel; cbn [allocuvm_loop]; rewrite (proj2 (Z.ltb_ge _ _)) by lia;
        apply wp_ret; exists []; (split; [|cbn; klia]); right; right;
        replace (hi - PGSIZE) with a by lia; split_and!; done || lia.
Qed.

End AllocLoop.

Lemma allocuvm_spec s d l oldsz newsz :
  uvm s d l (fun va => va < PGROUNDUP oldsz) -> 0 <= oldsz <= newsz -> newsz < KERNBASE ->
  wp (allocuvm d oldsz newsz) s (fun r s' => exists l',
    alloc_result s l d oldsz newsz r s' l' /\
    (2 * (PGROUNDUP newsz - PGROUNDUP oldsz) <= Z.of_nat (length l) * PGSIZE ->
     r = newsz /\ uvm s' d l' (fun va => va < PGROUNDUP newsz) /\
     grown d (PGROUNDUP oldsz) (PGROUNDUP newsz) s l s' l' /\
     Z.of_nat (length l) * PGSIZE <= Z.of_nat (length l') * PGSIZE + 2 * (PGROUNDUP newsz - PGROUNDUP oldsz))).
Proof.
  intros Hu Hs Hn. unfold allocuvm.
  rewrite (proj2 (Z.leb_gt _ _)), (proj2 (Z.ltb_ge _ _)) by lia.
  destruct (alloc_bounds oldsz newsz) as (Ha & Hb & ? & ?); [done|].
  apply allocuvm_loop_spec; try done.
  - apply grown_refl.
  - split; [lia|]. rewrite !PGROUNDUP_eq by klia. unfold PGSIZE in *.
    Z.div_mod_to_equations. lia.
  - unfold PGSIZE in *. Z.div_mod_to_equations. lia.
Qed.

End UvmAlloc.
