(* ===== verification/UvmProps.v ===== *)
(** * Properties of the paging code

    The theorems about vm.c that the rest of the kernel relies on, with a
    machine on which they apply: the pages of a range given to the allocator,
    a directory built by [setupkvm], and an image allocated in it. *)

From S2P Require Import Prelude Layout Mem Kalloc Vm VmFacts UvmFacts UvmAlloc.

Open Scope Z_scope.

Section Properties.
Context `{KernelImage} `{!KernelImageOk}.

Lemma kvm_built_uvm s l d s' l' used :
  kvm_built s l d s' l' used -> uvm s' d l' (fun va => va < 0).
Proof.
  intros Hb.
  assert (Hn : forall va, 0 <= va < KERNBASE -> mapping (mm s') d va = None).
  { intros va Hva. rewrite (kb_mapping _ _ _ _ _ _ Hb) by klia. by apply kmap_lookup_user. }
  split.
  - apply Hb.
  - intros va ? ?. lia.
  - auto.
  - intros va va' e e' Hva _ E. by rewrite Hn in E.
Qed.

Lemma uvm_image_wf s d l top sz :
  uvm s d l (fun va => va < top) -> 0 <= sz <= top -> top <= KERNBASE ->
  image_wf (mm s) d sz l.
Proof.
  intros Hu Hs Ht. pose proof (uv_inv _ _ _ _ Hu) as Hi. split.
  - apply Hi.
  - apply Hi.
  - apply Hi.
  - intros va Hva. destruct (uv_some _ _ _ _ Hu va) as (e & E & (_ & Hl & _)); [lia|lia|].
    eauto.
  - lia.
Qed.

(** Pages taken off the free list and left alone. *)
Lemma uvm_drop s d p l U :
  uvm s d (p :: l) U -> exists s', mm s' = mm s /\ uvm s' d l U.
Proof.
  intros Hu. exists (set_freelist (rd32 (mm s) p) s). split; [done|].
  destruct (kalloc_private s d p l (uv_inv _ _ _ _ Hu)) as [Hi _].
  split; [done| |apply Hu|apply Hu].
  intros va Hva HU. destruct (uv_some _ _ _ _ Hu va Hva HU) as (e & E & (? & Hl & ? & ?)).
  exists e. split; [done|]. split_and!; try done. intros Hin. apply Hl. by right.
Qed.

Lemma uvm_last_page s d l U :
  uvm s d l U -> (0 < length l)%nat ->
  exists s' p, mm s' = mm s /\ uvm s' d [p] U.
Proof.
  revert s. induction l as [|p l IH]; intros s Hu Hl; cbn in Hl; [lia|].
  destruct l as [|q l]; [by exists s, p|].
  destruct (uvm_drop s d p (q :: l) U Hu) as (s1 & E1 & Hu1).
  destruct (IH s1 Hu1) as (s2 & r & E2 & Hu2); [cbn; lia|].
  exists s2, r. by rewrite E2.
Qed.

(** [n] more pages. *)
Lemma add_pages n s d l top :
  uvm s d l (fun va => va < top) -> aligned top -> 0 <= top ->
  top + Z.of_nat n * PGSIZE < KERNBASE -> (2 * n <= length l)%nat ->
  exists s' l', uvm s' d l' (fun va => va < top + Z.of_nat n * PGSIZE) /\
    (length l <= length l' + 2 * n)%nat /\
    grown d top (top + Z.of_nat n * PGSIZE) s l s' l' /\
    (forall i, 0 <= i < 1024 -> present (mm s') d i -> word (mm s') d i = word (mm s) d i \/
      (exists va, top <= va < top + Z.of_nat n * PGSIZE /\ i = PDX va) /\
      has (word (mm s') d i) PTE_W = true /\ has (word (mm s') d i) PTE_U = true).
Proof.
  revert s l top. induction n as [|n IH]; intros s l top Hu Ha Hz Hk Hl.
  { rewrite Z.mul_0_l, Z.add_0_r. exists s, l. split; [done|]. split; [lia|]. auto using grown_refl. }
  replace (Z.of_nat (S n) * PGSIZE) with (PGSIZE + Z.of_nat n * PGSIZE) in * by lia.
  rewrite Z.add_assoc in *.
  destruct l as [|p l]; [cbn in Hl; lia|].
  pose proof (uvm_add s d p l top Hu Ha ltac:(klia)) as W.
  apply wp_Ok in W as (r & s1 & _ & l1 & Hdir & [(_ & Hu1 & Hg1 & Hl1)|(_ & -> & _)]).
  - destruct (IH s1 l1 (top + PGSIZE) Hu1) as (s2 & l2 & Hu2 & Hl2 & Hg2 & Hd2);
      cbn [length] in *; try klia.
    { unfold aligned, PGSIZE in *. Z.div_mod_to_equations. lia. }
    exists s2, l2. split_and!; [done|lia|eapply grown_trans; [|done|done]; klia|].
    intros i Hi Hp. destruct (Hd2 i Hi Hp) as [E|((va & Hva & ->) & HW)].
    + rewrite E. destruct (Hdir i Hi) as [|[-> HW]]; [by apply (present_word _ _ _ _ E)|auto|].
      right. split; [|done]. exists top. klia.
    + right. split; [|done]. exists va. klia.
  - cbn in Hl. lia.
Qed.

(** ** Theorems *)

(** [mappages] of a page-aligned, unmapped range: it never panics; when it
    returns 0, exactly the addresses of the range map to the corresponding
    physical addresses with the given permissions and every other address
    maps as before; when it returns -1, the free list is exhausted. *)
Theorem mappages_exact d perm n s l va size pa :
  pt_inv s d l -> aligned va -> aligned pa -> size = (Z.of_nat n + 1) * PGSIZE ->
  0 <= va -> va + size <= 2 ^ 32 -> 0 <= pa -> pa + size <= 2 ^ 32 ->
  0 <= perm < PGSIZE -> Z.lor perm PTE_P < PGSIZE ->
  (forall x, va <= x < va + size -> mapping (mm s) d x = None) ->
  wp (mappages d va size pa perm) s (fun r s' => exists l', pt_inv s' d l' /\
    (r = 0 /\ (forall x, 0 <= x < 2 ^ 32 -> mapping (mm s') d x =
        if (va <=? x) && (x <? va + size)
        then Some (Z.lor (Z.lor (pa + (PGROUNDDOWN x - va)) perm) PTE_P)
        else mapping (mm s) d x) \/
     r = -1 /\ l' = [])).
Proof.
  intros Hinv Ha Hp -> H1 H2 H3 H4 H5 H6 H7.
  wp_use (mappages_spec d perm n s l va _ pa); try done.
  intros r s' (used & l' & G & Hres). exists l'. split; [by eapply pg_inv|].
  destruct Hres as [[-> Hm]|(-> & -> & _)]; [left|by right]. by split.
Qed.

(** [setupkvm] never panics; with at least 65 free pages it succeeds, and
    the directory it returns maps every address exactly as the table [kmap]
    says: in particular no user address. *)
Theorem setupkvm_maps s l :
  free_wf s l ->
  wp setupkvm s (fun d s' =>
    (d = 0 /\ (length l < 65)%nat) \/
    (d <> 0 /\ exists l', pt_inv s' d l' /\
       (forall va, 0 <= va < 2 ^ 32 -> mapping (mm s') d va = kmap_lookup kmap va) /\
       (forall va, 0 <= va < KERNBASE -> mapping (mm s') d va = None))).
Proof.
  intros Hwf. wp_use (setupkvm_spec s l Hwf).
  intros d s' (used & l' & [[Hd Hb]|(-> & _ & Hl & _)]); [right|by left].
  split; [done|]. exists l'. pose proof (kb_mapping _ _ _ _ _ _ Hb) as Hm. split; [apply Hb|].
  split; [done|]. intros va Hva. rewrite Hm by klia. by apply kmap_lookup_user.
Qed.

(** [copyuvm] on an image of [sz] bytes, given enough free pages, returns
    a directory in which every user address below [sz] reads the parent's
    byte, from a page that was free before: the child's pages are its own.
    The parent's memory is as before and the kernel part is [kmap]. *)
Theorem copyuvm_copies s pd sz l :
  free_wf s l -> image_wf (mm s) pd sz l -> (65 + 2 * npages sz <= length l)%nat ->
  wp (copyuvm pd sz) s (fun d s' => d <> 0 /\
    (forall va, 0 <= va < sz ->
       uread (mm s') d va = uread (mm s) pd va /\
       uread (mm s') pd va = uread (mm s) pd va /\
       exists e, mapping (mm s') d va = Some e /\ frame_of e ∈ l) /\
    (forall va, KERNBASE <= va < 2 ^ 32 -> mapping (mm s') d va = kmap_lookup kmap va)).
Proof.
  intros Hwf Him Hlen. wp_use (copyuvm_spec s pd sz l Hwf Him Hlen).
  intros d s' (Hd & l' & i & Hi & _ & Hci & _). split; [done|]. split; [|apply Hci].
  intros va Hva. destruct (ci_copied _ _ _ _ _ _ _ Hci va ltac:(lia))
    as (f & Hf & Hm & Hp & Hr).
  split; [done|]. split.
  - unfold uread. rewrite (mapping_frame _ _ _ pd va (ci_frame _ _ _ _ _ _ _ Hci)).
    2: apply page_ok_aligned, (pd_page _ _ (im_wf _ _ _ _ Him)).
    2: apply (im_dir _ _ _ _ Him).
    2: apply (im_tabs _ _ _ _ Him).
    destruct (im_pages _ _ _ _ Him va Hva) as (e & -> & He). f_equal.
    apply (ci_frame _ _ _ _ _ _ _ Hci); [apply p2v_aligned, PTE_ADDR_aligned|done|].
    by apply Z.mod_pos_bound.
  - exists (upte f). split; [done|].
    unfold frame_of. by destruct (upte_facts f (proj1 Hp)) as (_ & -> & _).
Qed.

(** [allocuvm] with two free pages per page to add returns [newsz]; the
    new addresses read as zero, the old ones as before, every page of the
    image has a frame of its own, and the kernel part is untouched. *)
Theorem allocuvm_grows s d l oldsz newsz :
  uvm s d l (fun va => va < PGROUNDUP oldsz) -> 0 <= oldsz <= newsz -> newsz < KERNBASE ->
  2 * (PGROUNDUP newsz - PGROUNDUP oldsz) <= Z.of_nat (length l) * PGSIZE ->
  wp (allocuvm d oldsz newsz) s (fun r s' => r = newsz /\
    (exists l', uvm s' d l' (fun va => va < PGROUNDUP newsz)) /\
    (forall va, 0 <= va < PGROUNDUP oldsz -> uread (mm s') d va = uread (mm s) d va) /\
    (forall va, PGROUNDUP oldsz <= va < PGROUNDUP newsz -> uread (mm s') d va = Some x00) /\
    (forall va, KERNBASE <= va < 2 ^ 32 -> mapping (mm s') d va = mapping (mm s) d va)).
Proof.
  intros Hu H1 H2 H3. wp_use (allocuvm_spec s d l oldsz newsz Hu H1 H2).
  intros r s' (l' & _ & Hok). destruct (Hok H3) as (-> & Hu' & [_ _ M R _ Z0 _ _] & _).
  split; [done|]. split; [eauto|]. auto.
Qed.

(** Whatever memory is left, [allocuvm] returns: [newsz], or 0 after
    giving back every page it had mapped, with the old image intact; and when
    it returns [newsz] the image is complete or lacks its last page, which
    happens when [mappages] found no page for a table. *)
Theorem allocuvm_outcomes s d l oldsz newsz :
  uvm s d l (fun va => va < PGROUNDUP oldsz) -> 0 <= oldsz <= newsz -> newsz < KERNBASE ->
  wp (allocuvm d oldsz newsz) s (fun r s' => exists l',
    (forall va, 0 <= va < PGROUNDUP oldsz -> uread (mm s') d va = uread (mm s) d va) /\
    (r = newsz /\ uvm s' d l' (fun va => va < PGROUNDUP newsz) \/
     r = 0 /\ uvm s' d l' (fun va => va < PGROUNDUP oldsz) \/
     r = newsz /\ l' = [] /\ uvm s' d l' (fun va => va < PGROUNDUP newsz - PGSIZE))).
Proof.
  intros Hu H1 H2. wp_use (allocuvm_spec s d l oldsz newsz Hu H1 H2).
  intros r s' (l' & Hres & _). exists l'. split.
  - by destruct Hres as [(_ & _ & [])|[(_ & _ & [])|(_ & _ & _ & [] & _)]].
  - destruct Hres as [(? & ? & _)|[(? & ? & _)|(? & ? & ? & _)]]; auto.
Qed.

(** vm.c does not check the result of [mappages] in [allocuvm]: with one
    free page left and no page table for the first four megabytes, growing an
    empty image to one page is reported as a success, yet the page is not
    mapped and the free page is lost. *)
Theorem allocuvm_ignores_failure s d p :
  uvm s d [p] (fun va => va < 0) -> ~ present (mm s) d 0 ->
  wp (allocuvm d 0 PGSIZE) s (fun r s' => r = PGSIZE /\
    mapping (mm s') d 0 = None /\ free_wf s' []).
Proof.
  intros Hu Hn. unfold allocuvm. cbn [Z.leb Z.ltb Z.compare].
  change (KERNBASE <=? PGSIZE) with false. change (PGROUNDUP 0) with 0.
  change (Z.to_nat (PGSIZE / PGSIZE + 1)) with 2%nat. cbn [allocuvm_loop].
  change (0 <? PGSIZE) with true. cbv iota. apply wp_bind.
  wp_use kalloc_spec; [apply Hu|]. intros r s' (-> & -> & _).
  pose proof (fw_pages _ _ (pt_free _ _ _ (uv_inv _ _ _ _ Hu))) as [Hp _]%Forall_cons.
  pose proof (page_ok_bounds p Hp) as (_ & _ & Hp0).
  rewrite (proj2 (Z.eqb_neq p 0)) by done. apply wp_bind, wp_modify, wp_bind.
  destruct (add_zeroed s d p [] 0 Hu ltac:(klia)) as (Hu1 & Hp1 & Hm1 & Ht1 & _).
  set (s1 := set_mm _ _) in *.
  assert (Hn1 : ~ present (mm s1) d 0).
  { unfold present. rewrite (frame_word (fun q => q = p) (mm s) (mm s1) d 0); try done.
    - by apply frame_memset, page_ok_aligned.
    - apply page_ok_aligned, (pd_page _ _ (pt_wf _ _ _ (uv_inv _ _ _ _ Hu))).
    - intros ->. apply (pt_dir _ _ _ (uv_inv _ _ _ _ Hu)). by left. }
  unfold mappages. change (PGROUNDDOWN 0) with 0.
  change (PGROUNDDOWN (u32 (0 + PGSIZE - 1))) with 0.
  change (Z.to_nat (u32 (0 - 0) / PGSIZE)) with 0%nat. cbn [mappages_loop].
  apply wp_bind.
  wp_use (walkpgdir_alloc (fun _ => True) s1 d 0 [] (uv_inv _ _ _ _ Hu1)); [done|].
  intros r s2 (used & l2 & G & Hm2 & Hc).
  pose proof (pg_split _ _ _ _ _ _ _ G) as El. symmetry in El.
  apply app_eq_nil in El as [-> ->].
  destruct Hc as [(-> & _ & _)|[Hpr _]].
  - cbn [Z.eqb]. apply wp_ret. change (u32 (0 + PGSIZE)) with PGSIZE.
    rewrite Z.ltb_irrefl. apply wp_ret. split; [done|]. split.
    + rewrite Hm2. apply (uv_none _ _ _ _ Hu1); klia.
    + eapply pt_free, pg_inv, G.
  - exfalso. destruct (pg_new _ _ _ _ _ _ _ G 0 ltac:(lia) Hpr) as [?|[_ ?%not_elem_of_nil]];
      done.
Qed.

(** [deallocuvm] of a contiguous image returns [newsz]; the pages above
    [newsz] are unmapped and exactly their frames are added to the free list;
    the pages below keep their content, the kernel part its mapping. *)
Theorem deallocuvm_shrinks s d l oldsz newsz :
  uvm s d l (fun va => va < PGROUNDUP oldsz) -> 0 <= newsz < oldsz -> oldsz <= KERNBASE ->
  wp (deallocuvm d oldsz newsz) s (fun r s' => r = newsz /\ exists freed,
    uvm s' d (freed ++ l) (fun va => va < PGROUNDUP newsz) /\
    (forall q, q ∈ freed <-> exists va e, PGROUNDUP newsz <= va < PGROUNDUP oldsz /\
       mapping (mm s) d va = Some e /\ q = frame_of e) /\
    (forall va, 0 <= va < PGROUNDUP newsz -> uread (mm s') d va = uread (mm s) d va) /\
    (forall va, KERNBASE <= va < 2 ^ 32 -> mapping (mm s') d va = mapping (mm s) d va)).
Proof.
  intros Hu Hn Ho.
  assert (E : forall z, 0 <= z <= KERNBASE ->
    aligned (PGROUNDUP z) /\ z <= PGROUNDUP z < z + PGSIZE /\ PGROUNDUP z <= KERNBASE).
  { intros z Hz. rewrite PGROUNDUP_eq by klia. unfold aligned.
    rewrite Z.mod_mul by done. unfold KERNBASE, PGSIZE in *. Z.div_mod_to_equations. lia. }
  destruct (E oldsz ltac:(lia)) as (Ha & ? & ?), (E newsz ltac:(lia)) as (Hb & ? & ?).
  wp_use (deallocuvm_spec s d l (PGROUNDUP oldsz) oldsz newsz Hu Ha); try lia.
  { rewrite !PGROUNDUP_eq in * by klia. unfold PGSIZE in *. Z.div_mod_to_equations. lia. }
  intros r s' (-> & freed & Hu' & [Sd Sm Sr Sf _ _] & _). split; [done|]. exists freed.
  split; [done|]. split; [done|]. split; [done|]. intros va Hva. apply Sm; lia.
Qed.

(** [freevm] gives back everything: afterwards the free list is the old
    one plus exactly the directory, its page tables and the frames of the
    user image, each once. *)
Theorem freevm_gives_back s d l top :
  uvm s d l (fun va => va < top) -> aligned top -> 0 <= top <= KERNBASE ->
  wp (freevm d) s (fun _ s' => exists given, free_wf s' (given ++ l) /\ NoDup given /\
    forall q, q ∈ given <-> q = d \/ is_table (mm s) d q \/
      exists va e, 0 <= va < top /\ mapping (mm s) d va = Some e /\ q = frame_of e).
Proof.
  intros Hu Ha Ht. wp_use (freevm_spec s d l top Hu Ha Ht).
  intros _ s' (given & Hwf & Hq & _). exists given. split; [done|]. split; [|done].
  pose proof (fw_nodup _ _ Hwf) as Hnd. by apply NoDup_app in Hnd as [? _].
Qed.

End Properties.

(** ** Witnesses: a machine with a thousand free pages *)

#[local] Existing Instance example_image.
#[local] Existing Instance example_image_ok.

Lemma free_example : exists s l, free_wf s l /\ length l = 1000%nat.
Proof.
  destruct (kinit_state 0x80400000 (0x80400000 + 1000 * 4096)) as [s Hs];
    try (vm_compute; discriminate).
  eexists _, _. split; [exact Hs|]. rewrite length_reverse. unfold pages.
  rewrite length_fmap, length_seq. reflexivity.
Qed.

Lemma fresh_example :
  exists s d l, uvm s d l (fun va => va < 0) /\ (900 <= length l)%nat /\
    (forall i, 0 <= i < 512 -> ~ present (mm s) d i).
Proof.
  destruct free_example as (s & l & Hwf & Hlen).
  pose proof (setupkvm_spec s l Hwf) as W.
  apply wp_Ok in W as (d & s' & _ & used & l' & [[_ Hb]|(_ & _ & Hl & _)]); [|lia].
  exists s', d, l'. split; [by eapply kvm_built_uvm|]. split.
  - pose proof (kb_split _ _ _ _ _ _ Hb) as E. pose proof (kb_used _ _ _ _ _ _ Hb).
    rewrite E in Hlen. cbn [length] in Hlen. rewrite length_app in Hlen. lia.
  - intros i Hi Hp. destruct (kb_dirs _ _ _ _ _ _ Hb i ltac:(lia) Hp) as [Hk _].
    apply elem_of_kdirs in Hk. lia.
Qed.

Lemma image_example :
  exists s d l, uvm s d l (fun va => va < 8192) /\ (800 <= length l)%nat /\
    (forall i, 0 <= i < 512 -> present (mm s) d i -> i = 0 /\
      has (word (mm s) d i) PTE_W = true /\ has (word (mm s) d i) PTE_U = true) /\
    (forall va e, 0 <= va < 8192 -> mapping (mm s) d va = Some e -> has e PTE_U = true).
Proof.
  destruct fresh_example as (s & d & l & Hu & Hlen & Hn).
  destruct (add_pages 2 s d l 0 Hu) as (s' & l' & Hu' & Hl' & Hg & Hd); try done; [lia..|].
  exists s', d, l'. split; [exact Hu'|]. split; [lia|]. split.
  - intros i Hi Hp. destruct (Hd i ltac:(lia) Hp) as [E|((va & Hva & ->) & HW)].
    + destruct (Hn i Hi). by apply (present_word _ _ _ _ E).
    + split; [|done]. rewrite PDX_eq, (Z.div_small va) by klia. done.
  - intros va e Hva E. by apply (gr_user _ _ _ _ _ _ _ Hg va e).
Qed.

