(* ===== verification/State.v ===== *)
(** * The kernel's global state: proc.h, x86.h, buf.h, file.h, spinlock.h

    The C structs as records and the kernel's globals as one record
    [kstate], with the monad [KM] of kernel routines over it.  Objects that C
    refers to by pointer are referred to by their index in the table they
    live in: processes, buffers, in-memory inodes and open files.  A field
    [x] of a record is set with [..s_x]. *)

From S2P Require Import Prelude Layout Mem Kalloc.

Open Scope Z_scope.

(** ** Processes *)

Inductive procstate : Type := UNUSED | EMBRYO | SLEEPING | RUNNABLE | RUNNING | ZOMBIE.

#[export] Instance procstate_eq_dec : EqDecision procstate.
Proof. solve_decision. Defined.

Inductive sharedmemorylevel : Type := DIRECTORY | TABLE | FRAME | NOTHING.

#[export] Instance sharedmemorylevel_eq_dec : EqDecision sharedmemorylevel.
Proof. solve_decision. Defined.

(** The trap frame at [p->tf], without the padding words. *)
Record trapframe : Type := TrapFrame {
  tf_edi : Z;
  tf_esi : Z;
  tf_ebp : Z;
  tf_oesp : Z;
  tf_ebx : Z;
  tf_edx : Z;
  tf_ecx : Z;
  tf_eax : Z;
  tf_gs : Z;
  tf_fs : Z;
  tf_es : Z;
  tf_ds : Z;
  tf_trapno : Z;
  tf_err : Z;
  tf_eip : Z;
  tf_cs : Z;
  tf_eflags : Z;
  tf_esp : Z;
  tf_ss : Z
}.

Definition tf0 : trapframe := TrapFrame 0 0 0 0 0 0 0 0 0 0 0 0 0 0 0 0 0 0 0.

Definition tf_set_eax (v : Z) (t : trapframe) : trapframe :=
  TrapFrame (tf_edi t) (tf_esi t) (tf_ebp t) (tf_oesp t) (tf_ebx t) (tf_edx t)
    (tf_ecx t) v (tf_gs t) (tf_fs t) (tf_es t) (tf_ds t) (tf_trapno t) (tf_err t)
    (tf_eip t) (tf_cs t) (tf_eflags t) (tf_esp t) (tf_ss t).
Definition tf_set_es (v : Z) (t : trapframe) : trapframe :=
  TrapFrame (tf_edi t) (tf_esi t) (tf_ebp t) (tf_oesp t) (tf_ebx t) (tf_edx t)
    (tf_ecx t) (tf_eax t) (tf_gs t) (tf_fs t) v (tf_ds t) (tf_trapno t) (tf_err t)
    (tf_eip t) (tf_cs t) (tf_eflags t) (tf_esp t) (tf_ss t).
Definition tf_set_ds (v : Z) (t : trapframe) : trapframe :=
  TrapFrame (tf_edi t) (tf_esi t) (tf_ebp t) (tf_oesp t) (tf_ebx t) (tf_edx t)
    (tf_ecx t) (tf_eax t) (tf_gs t) (tf_fs t) (tf_es t) v (tf_trapno t) (tf_err t)
    (tf_eip t) (tf_cs t) (tf_eflags t) (tf_esp t) (tf_ss t).
Definition tf_set_eip (v : Z) (t : trapframe) : trapframe :=
  TrapFrame (tf_edi t) (tf_esi t) (tf_ebp t) (tf_oesp t) (tf_ebx t) (tf_edx t)
    (tf_ecx t) (tf_eax t) (tf_gs t) (tf_fs t) (tf_es t) (tf_ds t) (tf_trapno t)
    (tf_err t) v (tf_cs t) (tf_eflags t) (tf_esp t) (tf_ss t).
Definition tf_set_cs (v : Z) (t : trapframe) : trapframe :=
  TrapFrame (tf_edi t) (tf_esi t) (tf_ebp t) (tf_oesp t) (tf_ebx t) (tf_edx t)
    (tf_ecx t) (tf_eax t) (tf_gs t) (tf_fs t) (tf_es t) (tf_ds t) (tf_trapno t)
    (tf_err t) (tf_eip t) v (tf_eflags t) (tf_esp t) (tf_ss t).
Definition tf_set_eflags (v : Z) (t : trapframe) : trapframe :=
  TrapFrame (tf_edi t) (tf_esi t) (tf_ebp t) (tf_oesp t) (tf_ebx t) (tf_edx t)
    (tf_ecx t) (tf_eax t) (tf_gs t) (tf_fs t) (tf_es t) (tf_ds t) (tf_trapno t)
    (tf_err t) (tf_eip t) (tf_cs t) v (tf_esp t) (tf_ss t).
Definition tf_set_esp (v : Z) (t : trapframe) : trapframe :=
  TrapFrame (tf_edi t) (tf_esi t) (tf_ebp t) (tf_oesp t) (tf_ebx t) (tf_edx t)
    (tf_ecx t) (tf_eax t) (tf_gs t) (tf_fs t) (tf_es t) (tf_ds t) (tf_trapno t)
    (tf_err t) (tf_eip t) (tf_cs t) (tf_eflags t) v (tf_ss t).
Definition tf_set_ss (v : Z) (t : trapframe) : trapframe :=
  TrapFrame (tf_edi t) (tf_esi t) (tf_ebp t) (tf_oesp t) (tf_ebx t) (tf_edx t)
    (tf_ecx t) (tf_eax t) (tf_gs t) (tf_fs t) (tf_es t) (tf_ds t) (tf_trapno t)
    (tf_err t) (tf_eip t) (tf_cs t) (tf_eflags t) (tf_esp t) v.

(** Where a kernel thread resumes: the [eip] of its saved context is the only
    word of it that C code sets. *)
Inductive code : Type := Forkret | Resume.

Record proc : Type := Proc {
  p_sz : Z;
  p_pgdir : Z;
  p_kstack : Z;
  p_state : procstate;
  p_pid : Z;
  p_parent : option nat;
  p_tf : trapframe;
  p_context : code;
  p_chan : option chan;
  p_killed : bool;
  p_ofile : list (option nat);
  p_cwd : option nat;
  p_name : list byte
}.

(** A slot of the zeroed process table. *)
Definition proc0 : proc :=
  Proc 0 0 0 UNUSED 0 None tf0 Resume None false (replicate (Z.to_nat NOFILE) None) None
    (replicate 16 x00).

Definition ps_sz (v : Z) (p : proc) : proc :=
  Proc v (p_pgdir p) (p_kstack p) (p_state p) (p_pid p) (p_parent p) (p_tf p)
    (p_context p) (p_chan p) (p_killed p) (p_ofile p) (p_cwd p) (p_name p).
Definition ps_pgdir (v : Z) (p : proc) : proc :=
  Proc (p_sz p) v (p_kstack p) (p_state p) (p_pid p) (p_parent p) (p_tf p) (p_context p)
    (p_chan p) (p_killed p) (p_ofile p) (p_cwd p) (p_name p).
Definition ps_kstack (v : Z) (p : proc) : proc :=
  Proc (p_sz p) (p_pgdir p) v (p_state p) (p_pid p) (p_parent p) (p_tf p) (p_context p)
    (p_chan p) (p_killed p) (p_ofile p) (p_cwd p) (p_name p).
Definition ps_state (v : procstate) (p : proc) : proc :=
  Proc (p_sz p) (p_pgdir p) (p_kstack p) v (p_pid p) (p_parent p) (p_tf p) (p_context p)
    (p_chan p) (p_killed p) (p_ofile p) (p_cwd p) (p_name p).
Definition ps_pid (v : Z) (p : proc) : proc :=
  Proc (p_sz p) (p_pgdir p) (p_kstack p) (p_state p) v (p_parent p) (p_tf p)
    (p_context p) (p_chan p) (p_killed p) (p_ofile p) (p_cwd p) (p_name p).
Definition ps_parent (v : option nat) (p : proc) : proc :=
  Proc (p_sz p) (p_pgdir p) (p_kstack p) (p_state p) (p_pid p) v (p_tf p) (p_context p)
    (p_chan p) (p_killed p) (p_ofile p) (p_cwd p) (p_name p).
Definition ps_tf (v : trapframe) (p : proc) : proc :=
  Proc (p_sz p) (p_pgdir p) (p_kstack p) (p_state p) (p_pid p) (p_parent p) v
    (p_context p) (p_chan p) (p_killed p) (p_ofile p) (p_cwd p) (p_name p).
Definition ps_context (v : code) (p : proc) : proc :=
  Proc (p_sz p) (p_pgdir p) (p_kstack p) (p_state p) (p_pid p) (p_parent p) (p_tf p) v
    (p_chan p) (p_killed p) (p_ofile p) (p_cwd p) (p_name p).
Definition ps_chan (v : option chan) (p : proc) : proc :=
  Proc (p_sz p) (p_pgdir p) (p_kstack p) (p_state p) (p_pid p) (p_parent p) (p_tf p)
    (p_context p) v (p_killed p) (p_ofile p) (p_cwd p) (p_name p).
Definition ps_killed (v : bool) (p : proc) : proc :=
  Proc (p_sz p) (p_pgdir p) (p_kstack p) (p_state p) (p_pid p) (p_parent p) (p_tf p)
    (p_context p) (p_chan p) v (p_ofile p) (p_cwd p) (p_name p).
Definition ps_ofile (v : list (option nat)) (p : proc) : proc :=
  Proc (p_sz p) (p_pgdir p) (p_kstack p) (p_state p) (p_pid p) (p_parent p) (p_tf p)
    (p_context p) (p_chan p) (p_killed p) v (p_cwd p) (p_name p).
Definition ps_cwd (v : option nat) (p : proc) : proc :=
  Proc (p_sz p) (p_pgdir p) (p_kstack p) (p_state p) (p_pid p) (p_parent p) (p_tf p)
    (p_context p) (p_chan p) (p_killed p) (p_ofile p) v (p_name p).
Definition ps_name (v : list byte) (p : proc) : proc :=
  Proc (p_sz p) (p_pgdir p) (p_kstack p) (p_state p) (p_pid p) (p_parent p) (p_tf p)
    (p_context p) (p_chan p) (p_killed p) (p_ofile p) (p_cwd p) v.

(** ** Buffers, the disk and the log *)

Abbreviation block := (list byte).

Definition BSIZE : Z := 512.

Definition B_BUSY : Z := 0x1.
Definition B_VALID : Z := 0x2.
Definition B_DIRTY : Z := 0x4.

(** [prev] and [next] are buffer numbers; number [NBUF] is [bcache.head]. *)
Record buf : Type := Buf {
  b_flags : Z;
  b_dev : Z;
  b_sector : Z;
  b_prev : nat;
  b_next : nat;
  b_data : block
}.

Definition bs_flags (v : Z) (b : buf) : buf :=
  Buf v (b_dev b) (b_sector b) (b_prev b) (b_next b) (b_data b).
Definition bs_dev (v : Z) (b : buf) : buf :=
  Buf (b_flags b) v (b_sector b) (b_prev b) (b_next b) (b_data b).
Definition bs_sector (v : Z) (b : buf) : buf :=
  Buf (b_flags b) (b_dev b) v (b_prev b) (b_next b) (b_data b).
Definition bs_prev (v : nat) (b : buf) : buf :=
  Buf (b_flags b) (b_dev b) (b_sector b) v (b_next b) (b_data b).
Definition bs_next (v : nat) (b : buf) : buf :=
  Buf (b_flags b) (b_dev b) (b_sector b) (b_prev b) v (b_data b).
Definition bs_data (v : block) (b : buf) : buf :=
  Buf (b_flags b) (b_dev b) (b_sector b) (b_prev b) (b_next b) v.

(** The disk, as an image and the history of writes to it, last write first.
    A crash cuts the history short. *)
Record disk : Type := Disk {
  d_size : Z;
  d_image : Z -> block;
  d_writes : list (Z * block)
}.

Fixpoint d_replay (ws : list (Z * block)) (img : Z -> block) (sec : Z) : block :=
  match ws with
  | [] => img sec
  | (x, b) :: ws => if x =? sec then b else d_replay ws img sec
  end.

Definition d_read (d : disk) (sec : Z) : block := d_replay (d_writes d) (d_image d) sec.
Definition d_write (sec : Z) (b : block) (d : disk) : disk :=
  Disk (d_size d) (d_image d) ((sec, b) :: d_writes d).

(** [struct log], with its in-memory header flattened. *)
Record logstate : Type := LogState {
  lg_start : Z;
  lg_size : Z;
  lg_busy : bool;
  lg_dev : Z;
  lh_n : Z;
  lh_sector : list Z
}.

Definition lgs_busy (v : bool) (l : logstate) : logstate :=
  LogState (lg_start l) (lg_size l) v (lg_dev l) (lh_n l) (lh_sector l).
Definition lgs_n (v : Z) (l : logstate) : logstate :=
  LogState (lg_start l) (lg_size l) (lg_busy l) (lg_dev l) v (lh_sector l).
Definition lgs_sector (v : list Z) (l : logstate) : logstate :=
  LogState (lg_start l) (lg_size l) (lg_busy l) (lg_dev l) (lh_n l) v.
Definition lgs_place (start size dev : Z) (l : logstate) : logstate :=
  LogState start size (lg_busy l) dev (lh_n l) (lh_sector l).

(** ** Inodes, files, pipes *)

Definition I_BUSY : Z := 0x1.
Definition I_VALID : Z := 0x2.

Record inode : Type := Inode {
  i_dev : Z;
  i_inum : Z;
  i_ref : Z;
  i_flags : Z;
  i_type : Z;
  i_major : Z;
  i_minor : Z;
  i_nlink : Z;
  i_size : Z;
  i_addrs : list Z
}.

Definition inode0 : inode := Inode 0 0 0 0 0 0 0 0 0 (replicate 13 0).

Definition is_dev (v : Z) (i : inode) : inode :=
  Inode v (i_inum i) (i_ref i) (i_flags i) (i_type i) (i_major i) (i_minor i)
    (i_nlink i) (i_size i) (i_addrs i).
Definition is_inum (v : Z) (i : inode) : inode :=
  Inode (i_dev i) v (i_ref i) (i_flags i) (i_type i) (i_major i) (i_minor i) (i_nlink i)
    (i_size i) (i_addrs i).
Definition is_ref (v : Z) (i : inode) : inode :=
  Inode (i_dev i) (i_inum i) v (i_flags i) (i_type i) (i_major i) (i_minor i)
    (i_nlink i) (i_size i) (i_addrs i).
Definition is_flags (v : Z) (i : inode) : inode :=
  Inode (i_dev i) (i_inum i) (i_ref i) v (i_type i) (i_major i) (i_minor i) (i_nlink i)
    (i_size i) (i_addrs i).
Definition is_type (v : Z) (i : inode) : inode :=
  Inode (i_dev i) (i_inum i) (i_ref i) (i_flags i) v (i_major i) (i_minor i) (i_nlink i)
    (i_size i) (i_addrs i).
Definition is_major (v : Z) (i : inode) : inode :=
  Inode (i_dev i) (i_inum i) (i_ref i) (i_flags i) (i_type i) v (i_minor i) (i_nlink i)
    (i_size i) (i_addrs i).
Definition is_minor (v : Z) (i : inode) : inode :=
  Inode (i_dev i) (i_inum i) (i_ref i) (i_flags i) (i_type i) (i_major i) v (i_nlink i)
    (i_size i) (i_addrs i).
Definition is_nlink (v : Z) (i : inode) : inode :=
  Inode (i_dev i) (i_inum i) (i_ref i) (i_flags i) (i_type i) (i_major i) (i_minor i) v
    (i_size i) (i_addrs i).
Definition is_size (v : Z) (i : inode) : inode :=
  Inode (i_dev i) (i_inum i) (i_ref i) (i_flags i) (i_type i) (i_major i) (i_minor i)
    (i_nlink i) v (i_addrs i).
Definition is_addrs (v : list Z) (i : inode) : inode :=
  Inode (i_dev i) (i_inum i) (i_ref i) (i_flags i) (i_type i) (i_major i) (i_minor i)
    (i_nlink i) (i_size i) v.

Inductive ftype : Type := FD_NONE | FD_PIPE | FD_INODE.

#[export] Instance ftype_eq_dec : EqDecision ftype.
Proof. solve_decision. Defined.

Record file : Type := File {
  f_type : ftype;
  f_ref : Z;
  f_readable : bool;
  f_writable : bool;
  f_pipe : Z;
  f_ip : option nat;
  f_off : Z
}.

Definition file0 : file := File FD_NONE 0 false false 0 None 0.

Definition fs_type (v : ftype) (f : file) : file :=
  File v (f_ref f) (f_readable f) (f_writable f) (f_pipe f) (f_ip f) (f_off f).
Definition fs_ref (v : Z) (f : file) : file :=
  File (f_type f) v (f_readable f) (f_writable f) (f_pipe f) (f_ip f) (f_off f).
Definition fs_readable (v : bool) (f : file) : file :=
  File (f_type f) (f_ref f) v (f_writable f) (f_pipe f) (f_ip f) (f_off f).
Definition fs_writable (v : bool) (f : file) : file :=
  File (f_type f) (f_ref f) (f_readable f) v (f_pipe f) (f_ip f) (f_off f).
Definition fs_pipe (v : Z) (f : file) : file :=
  File (f_type f) (f_ref f) (f_readable f) (f_writable f) v (f_ip f) (f_off f).
Definition fs_ip (v : option nat) (f : file) : file :=
  File (f_type f) (f_ref f) (f_readable f) (f_writable f) (f_pipe f) v (f_off f).
Definition fs_off (v : Z) (f : file) : file :=
  File (f_type f) (f_ref f) (f_readable f) (f_writable f) (f_pipe f) (f_ip f) v.

Record pipe : Type := Pipe {
  pi_lock : bool;
  pi_data : list byte;
  pi_nread : Z;
  pi_nwrite : Z;
  pi_readopen : bool;
  pi_writeopen : bool
}.

Definition pis_lock (v : bool) (p : pipe) : pipe :=
  Pipe v (pi_data p) (pi_nread p) (pi_nwrite p) (pi_readopen p) (pi_writeopen p).
Definition pis_data (v : list byte) (p : pipe) : pipe :=
  Pipe (pi_lock p) v (pi_nread p) (pi_nwrite p) (pi_readopen p) (pi_writeopen p).
Definition pis_nread (v : Z) (p : pipe) : pipe :=
  Pipe (pi_lock p) (pi_data p) v (pi_nwrite p) (pi_readopen p) (pi_writeopen p).
Definition pis_nwrite (v : Z) (p : pipe) : pipe :=
  Pipe (pi_lock p) (pi_data p) (pi_nread p) v (pi_readopen p) (pi_writeopen p).
Definition pis_readopen (v : bool) (p : pipe) : pipe :=
  Pipe (pi_lock p) (pi_data p) (pi_nread p) (pi_nwrite p) v (pi_writeopen p).
Definition pis_writeopen (v : bool) (p : pipe) : pipe :=
  Pipe (pi_lock p) (pi_data p) (pi_nread p) (pi_nwrite p) (pi_readopen p) v.

(** The console's input buffer and its read, write and edit indices. *)
Record inputbuf : Type := InputBuf {
  in_buf : list byte;
  in_r : Z;
  in_w : Z;
  in_e : Z
}.

Definition ins_buf (v : list byte) (i : inputbuf) : inputbuf :=
  InputBuf v (in_r i) (in_w i) (in_e i).
Definition ins_r (v : Z) (i : inputbuf) : inputbuf :=
  InputBuf (in_buf i) v (in_w i) (in_e i).
Definition ins_w (v : Z) (i : inputbuf) : inputbuf :=
  InputBuf (in_buf i) (in_r i) v (in_e i).
Definition ins_e (v : Z) (i : inputbuf) : inputbuf :=
  InputBuf (in_buf i) (in_r i) (in_w i) v.

(** ** The kernel

    A spin lock field says whether this CPU holds the lock. *)

Record kstate : Type := KState {
  ms : mstate;                (* memory, the page allocator, page-table registers *)
  procs : list proc;          (* ptable.proc *)
  nextpid : Z;
  initproc : option nat;
  first : bool;               (* the static of forkret *)
  cur : option nat;           (* proc, the process running on this CPU *)
  esp0 : Z;                   (* cpu->ts.esp0 *)
  cr2 : Z;                    (* the address of the last page fault *)
  ticks : Z;
  bufs : list buf;            (* bcache.buf, and bcache.head at index NBUF *)
  dsk : disk;
  klog : logstate;            (* log *)
  inodes : list inode;        (* icache.inode *)
  files : list file;          (* ftable.file *)
  pipes : gmap Z pipe;        (* the pages that hold a struct pipe *)
  input : inputbuf;           (* the console line editor *)
  console : list Z;           (* the characters sent to the console, last first *)
  cons_locking : bool;        (* cons.locking *)
  pt_lock : bool;             (* ptable.lock *)
  ticks_lock : bool;          (* tickslock *)
  bc_lock : bool;             (* bcache.lock *)
  lg_lock : bool;             (* log.lock *)
  ic_lock : bool;             (* icache.lock *)
  ft_lock : bool;             (* ftable.lock *)
  in_lock : bool;             (* input.lock *)
  cons_lock : bool            (* cons.lock *)
}.

Definition ks_ms (v : mstate) (k : kstate) : kstate :=
  KState v (procs k) (nextpid k) (initproc k) (first k) (cur k) (esp0 k) (cr2 k)
    (ticks k) (bufs k) (dsk k) (klog k) (inodes k) (files k) (pipes k) (input k)
    (console k) (cons_locking k) (pt_lock k) (ticks_lock k) (bc_lock k) (lg_lock k)
    (ic_lock k) (ft_lock k) (in_lock k) (cons_lock k).
Definition ks_procs (v : list proc) (k : kstate) : kstate :=
  KState (ms k) v (nextpid k) (initproc k) (first k) (cur k) (esp0 k) (cr2 k) (ticks k)
    (bufs k) (dsk k) (klog k) (inodes k) (files k) (pipes k) (input k) (console k)
    (cons_locking k) (pt_lock k) (ticks_lock k) (bc_lock k) (lg_lock k) (ic_lock k)
    (ft_lock k) (in_lock k) (cons_lock k).
Definition ks_nextpid (v : Z) (k : kstate) : kstate :=
  KState (ms k) (procs k) v (initproc k) (first k) (cur k) (esp0 k) (cr2 k) (ticks k)
    (bufs k) (dsk k) (klog k) (inodes k) (files k) (pipes k) (input k) (console k)
    (cons_locking k) (pt_lock k) (ticks_lock k) (bc_lock k) (lg_lock k) (ic_lock k)
    (ft_lock k) (in_lock k) (cons_lock k).
Definition ks_initproc (v : option nat) (k : kstate) : kstate :=
  KState (ms k) (procs k) (nextpid k) v (first k) (cur k) (esp0 k) (cr2 k) (ticks k)
    (bufs k) (dsk k) (klog k) (inodes k) (files k) (pipes k) (input k) (console k)
    (cons_locking k) (pt_lock k) (ticks_lock k) (bc_lock k) (lg_lock k) (ic_lock k)
    (ft_lock k) (in_lock k) (cons_lock k).
Definition ks_first (v : bool) (k : kstate) : kstate :=
  KState (ms k) (procs k) (nextpid k) (initproc k) v (cur k) (esp0 k) (cr2 k) (ticks k)
    (bufs k) (dsk k) (klog k) (inodes k) (files k) (pipes k) (input k) (console k)
    (cons_locking k) (pt_lock k) (ticks_lock k) (bc_lock k) (lg_lock k) (ic_lock k)
    (ft_lock k) (in_lock k) (cons_lock k).
Definition ks_cur (v : option nat) (k : kstate) : kstate :=
  KState (ms k) (procs k) (nextpid k) (initproc k) (first k) v (esp0 k) (cr2 k)
    (ticks k) (bufs k) (dsk k) (klog k) (inodes k) (files k) (pipes k) (input k)
    (console k) (cons_locking k) (pt_lock k) (ticks_lock k) (bc_lock k) (lg_lock k)
    (ic_lock k) (ft_lock k) (in_lock k) (cons_lock k).
Definition ks_esp0 (v : Z) (k : kstate) : kstate :=
  KState (ms k) (procs k) (nextpid k) (initproc k) (first k) (cur k) v (cr2 k) (ticks k)
    (bufs k) (dsk k) (klog k) (inodes k) (files k) (pipes k) (input k) (console k)
    (cons_locking k) (pt_lock k) (ticks_lock k) (bc_lock k) (lg_lock k) (ic_lock k)
    (ft_lock k) (in_lock k) (cons_lock k).
Definition ks_cr2 (v : Z) (k : kstate) : kstate :=
  KState (ms k) (procs k) (nextpid k) (initproc k) (first k) (cur k) (esp0 k) v
    (ticks k) (bufs k) (dsk k) (klog k) (inodes k) (files k) (pipes k) (input k)
    (console k) (cons_locking k) (pt_lock k) (ticks_lock k) (bc_lock k) (lg_lock k)
    (ic_lock k) (ft_lock k) (in_lock k) (cons_lock k).
Definition ks_ticks (v : Z) (k : kstate) : kstate :=
  KState (ms k) (procs k) (nextpid k) (initproc k) (first k) (cur k) (esp0 k) (cr2 k) v
    (bufs k) (dsk k) (klog k) (inodes k) (files k) (pipes k) (input k) (console k)
    (cons_locking k) (pt_lock k) (ticks_lock k) (bc_lock k) (lg_lock k) (ic_lock k)
    (ft_lock k) (in_lock k) (cons_lock k).
Definition ks_bufs (v : list buf) (k : kstate) : kstate :=
  KState (ms k) (procs k) (nextpid k) (initproc k) (first k) (cur k) (esp0 k) (cr2 k)
    (ticks k) v (dsk k) (klog k) (inodes k) (files k) (pipes k) (input k) (console k)
    (cons_locking k) (pt_lock k) (ticks_lock k) (bc_lock k) (lg_lock k) (ic_lock k)
    (ft_lock k) (in_lock k) (cons_lock k).
Definition ks_dsk (v : disk) (k : kstate) : kstate :=
  KState (ms k) (procs k) (nextpid k) (initproc k) (first k) (cur k) (esp0 k) (cr2 k)
    (ticks k) (bufs k) v (klog k) (inodes k) (files k) (pipes k) (input k) (console k)
    (cons_locking k) (pt_lock k) (ticks_lock k) (bc_lock k) (lg_lock k) (ic_lock k)
    (ft_lock k) (in_lock k) (cons_lock k).
Definition ks_klog (v : logstate) (k : kstate) : kstate :=
  KState (ms k) (procs k) (nextpid k) (initproc k) (first k) (cur k) (esp0 k) (cr2 k)
    (ticks k) (bufs k) (dsk k) v (inodes k) (files k) (pipes k) (input k) (console k)
    (cons_locking k) (pt_lock k) (ticks_lock k) (bc_lock k) (lg_lock k) (ic_lock k)
    (ft_lock k) (in_lock k) (cons_lock k).
Definition ks_inodes (v : list inode) (k : kstate) : kstate :=
  KState (ms k) (procs k) (nextpid k) (initproc k) (first k) (cur k) (esp0 k) (cr2 k)
    (ticks k) (bufs k) (dsk k) (klog k) v (files k) (pipes k) (input k) (console k)
    (cons_locking k) (pt_lock k) (ticks_lock k) (bc_lock k) (lg_lock k) (ic_lock k)
    (ft_lock k) (in_lock k) (cons_lock k).
Definition ks_files (v : list file) (k : kstate) : kstate :=
  KState (ms k) (procs k) (nextpid k) (initproc k) (first k) (cur k) (esp0 k) (cr2 k)
    (ticks k) (bufs k) (dsk k) (klog k) (inodes k) v (pipes k) (input k) (console k)
    (cons_locking k) (pt_lock k) (ticks_lock k) (bc_lock k) (lg_lock k) (ic_lock k)
    (ft_lock k) (in_lock k) (cons_lock k).
Definition ks_pipes (v : gmap Z pipe) (k : kstate) : kstate :=
  KState (ms k) (procs k) (nextpid k) (initproc k) (first k) (cur k) (esp0 k) (cr2 k)
    (ticks k) (bufs k) (dsk k) (klog k) (inodes k) (files k) v (input k) (console k)
    (cons_locking k) (pt_lock k) (ticks_lock k) (bc_lock k) (lg_lock k) (ic_lock k)
    (ft_lock k) (in_lock k) (cons_lock k).
Definition ks_input (v : inputbuf) (k : kstate) : kstate :=
  KState (ms k) (procs k) (nextpid k) (initproc k) (first k) (cur k) (esp0 k) (cr2 k)
    (ticks k) (bufs k) (dsk k) (klog k) (inodes k) (files k) (pipes k) v (console k)
    (cons_locking k) (pt_lock k) (ticks_lock k) (bc_lock k) (lg_lock k) (ic_lock k)
    (ft_lock k) (in_lock k) (cons_lock k).
Definition ks_console (v : list Z) (k : kstate) : kstate :=
  KState (ms k) (procs k) (nextpid k) (initproc k) (first k) (cur k) (esp0 k) (cr2 k)
    (ticks k) (bufs k) (dsk k) (klog k) (inodes k) (files k) (pipes k) (input k) v
    (cons_locking k) (pt_lock k) (ticks_lock k) (bc_lock k) (lg_lock k) (ic_lock k)
    (ft_lock k) (in_lock k) (cons_lock k).
Definition ks_cons_locking (v : bool) (k : kstate) : kstate :=
  KState (ms k) (procs k) (nextpid k) (initproc k) (first k) (cur k) (esp0 k) (cr2 k)
    (ticks k) (bufs k) (dsk k) (klog k) (inodes k) (files k) (pipes k) (input k)
    (console k) v (pt_lock k) (ticks_lock k) (bc_lock k) (lg_lock k) (ic_lock k)
    (ft_lock k) (in_lock k) (cons_lock k).
Definition ks_pt_lock (v : bool) (k : kstate) : kstate :=
  KState (ms k) (procs k) (nextpid k) (initproc k) (first k) (cur k) (esp0 k) (cr2 k)
    (ticks k) (bufs k) (dsk k) (klog k) (inodes k) (files k) (pipes k) (input k)
    (console k) (cons_locking k) v (ticks_lock k) (bc_lock k) (lg_lock k) (ic_lock k)
    (ft_lock k) (in_lock k) (cons_lock k).
Definition ks_ticks_lock (v : bool) (k : kstate) : kstate :=
  KState (ms k) (procs k) (nextpid k) (initproc k) (first k) (cur k) (esp0 k) (cr2 k)
    (ticks k) (bufs k) (dsk k) (klog k) (inodes k) (files k) (pipes k) (input k)
    (console k) (cons_locking k) (pt_lock k) v (bc_lock k) (lg_lock k) (ic_lock k)
    (ft_lock k) (in_lock k) (cons_lock k).
Definition ks_bc_lock (v : bool) (k : kstate) : kstate :=
  KState (ms k) (procs k) (nextpid k) (initproc k) (first k) (cur k) (esp0 k) (cr2 k)
    (ticks k) (bufs k) (dsk k) (klog k) (inodes k) (files k) (pipes k) (input k)
    (console k) (cons_locking k) (pt_lock k) (ticks_lock k) v (lg_lock k) (ic_lock k)
    (ft_lock k) (in_lock k) (cons_lock k).
Definition ks_lg_lock (v : bool) (k : kstate) : kstate :=
  KState (ms k) (procs k) (nextpid k) (initproc k) (first k) (cur k) (esp0 k) (cr2 k)
    (ticks k) (bufs k) (dsk k) (klog k) (inodes k) (files k) (pipes k) (input k)
    (console k) (cons_locking k) (pt_lock k) (ticks_lock k) (bc_lock k) v (ic_lock k)
    (ft_lock k) (in_lock k) (cons_lock k).
Definition ks_ic_lock (v : bool) (k : kstate) : kstate :=
  KState (ms k) (procs k) (nextpid k) (initproc k) (first k) (cur k) (esp0 k) (cr2 k)
    (ticks k) (bufs k) (dsk k) (klog k) (inodes k) (files k) (pipes k) (input k)
    (console k) (cons_locking k) (pt_lock k) (ticks_lock k) (bc_lock k) (lg_lock k) v
    (ft_lock k) (in_lock k) (cons_lock k).
Definition ks_ft_lock (v : bool) (k : kstate) : kstate :=
  KState (ms k) (procs k) (nextpid k) (initproc k) (first k) (cur k) (esp0 k) (cr2 k)
    (ticks k) (bufs k) (dsk k) (klog k) (inodes k) (files k) (pipes k) (input k)
    (console k) (cons_locking k) (pt_lock k) (ticks_lock k) (bc_lock k) (lg_lock k)
    (ic_lock k) v (in_lock k) (cons_lock k).
Definition ks_in_lock (v : bool) (k : kstate) : kstate :=
  KState (ms k) (procs k) (nextpid k) (initproc k) (first k) (cur k) (esp0 k) (cr2 k)
    (ticks k) (bufs k) (dsk k) (klog k) (inodes k) (files k) (pipes k) (input k)
    (console k) (cons_locking k) (pt_lock k) (ticks_lock k) (bc_lock k) (lg_lock k)
    (ic_lock k) (ft_lock k) v (cons_lock k).
Definition ks_cons_lock (v : bool) (k : kstate) : kstate :=
  KState (ms k) (procs k) (nextpid k) (initproc k) (first k) (cur k) (esp0 k) (cr2 k)
    (ticks k) (bufs k) (dsk k) (klog k) (inodes k) (files k) (pipes k) (input k)
    (console k) (cons_locking k) (pt_lock k) (ticks_lock k) (bc_lock k) (lg_lock k)
    (ic_lock k) (ft_lock k) (in_lock k) v.

Abbreviation KM := (M kstate).

(** Run a routine of the paging layer. *)
Fixpoint lift_outcome {A} (o : outcome mstate A) (k : kstate) : outcome kstate A :=
  match o with
  | Ok a s => Ok a (ks_ms s k)
  | Panic e s => Panic e (ks_ms s k)
  | Switch s r => Switch (ks_ms s k) (fun k' => lift_outcome (r (ms k')) k')
  | NoFuel => NoFuel
  end.

Definition liftM {A} (m : MM A) : KM A := fun k => lift_outcome (m (ms k)) k.

Lemma wp_liftM {A} (m : MM A) k Q :
  wp m (ms k) (fun a s => Q a (ks_ms s k)) -> wp (liftM m) k Q.
Proof. unfold wp, liftM. by destruct (m (ms k)). Qed.

(** ** Spin locks

    The locks of the kernel, but for [kmem.lock], which belongs to the page
    allocator.  No other CPU is in a critical section while this one runs:
    acquiring a lock this CPU holds, or releasing one it does not hold,
    panics. *)
Inductive lock : Type :=
  | LkPtable | LkTicks | LkBcache | LkLog | LkIcache | LkFtable | LkInput | LkCons
  | LkPipe (p : Z).

#[export] Instance lock_eq_dec : EqDecision lock.
Proof. solve_decision. Defined.

Definition pipe_locked (k : kstate) (p : Z) : bool :=
  match pipes k !! p with Some pi => pi_lock pi | None => false end.

Definition holding (l : lock) (k : kstate) : bool :=
  match l with
  | LkPtable => pt_lock k | LkTicks => ticks_lock k | LkBcache => bc_lock k
  | LkLog => lg_lock k | LkIcache => ic_lock k | LkFtable => ft_lock k
  | LkInput => in_lock k | LkCons => cons_lock k
  | LkPipe p => pipe_locked k p
  end.

Definition set_lock (l : lock) (b : bool) (k : kstate) : kstate :=
  match l with
  | LkPtable => ks_pt_lock b k | LkTicks => ks_ticks_lock b k | LkBcache => ks_bc_lock b k
  | LkLog => ks_lg_lock b k | LkIcache => ks_ic_lock b k | LkFtable => ks_ft_lock b k
  | LkInput => ks_in_lock b k | LkCons => ks_cons_lock b k
  | LkPipe p => ks_pipes (alter (pis_lock b) p (pipes k)) k
  end.

Definition acquire (l : lock) : KM unit :=
  let! h := gets (holding l) in
  if (h : bool) then panic "acquire" else modify (set_lock l true).

Definition release (l : lock) : KM unit :=
  let! h := gets (holding l) in
  if (h : bool) then modify (set_lock l false) else panic "release".

(** [cpu->ncli]: every lock this CPU holds counts once. *)
Definition ncli (k : kstate) : nat :=
  (Nat.b2n (kmem_lock (ms k)) + Nat.b2n (pt_lock k) + Nat.b2n (ticks_lock k) +
   Nat.b2n (bc_lock k) + Nat.b2n (lg_lock k) + Nat.b2n (ic_lock k) + Nat.b2n (ft_lock k) +
   Nat.b2n (in_lock k) + Nat.b2n (cons_lock k) +
   size (filter (fun x : Z * pipe => pi_lock x.2 = true) (pipes k)))%nat.

(** The lock exists: a pipe's lock does until the pipe is freed. *)
Definition lock_ok (l : lock) (k : kstate) : Prop :=
  match l with LkPipe p => is_Some (pipes k !! p) | _ => True end.

Lemma set_lock_cur l b k : cur (set_lock l b k) = cur k.
Proof. by destruct l. Qed.

Lemma set_lock_procs l b k : procs (set_lock l b k) = procs k.
Proof. by destruct l. Qed.

Lemma set_lock_ms l b k : ms (set_lock l b k) = ms k.
Proof. by destruct l. Qed.

Lemma holding_ok l k : holding l k = true -> lock_ok l k.
Proof. destruct l; try done. cbn. unfold pipe_locked. by destruct (pipes k !! p). Qed.

Lemma holding_same l b k : lock_ok l k -> holding l (set_lock l b k) = b.
Proof.
  destruct l; try done. cbn. intros [pi E]. unfold pipe_locked. cbn.
  by rewrite lookup_alter_eq, E.
Qed.

Lemma holding_other l l' b k : l <> l' -> holding l' (set_lock l b k) = holding l' k.
Proof.
  intros Hne. destruct l, l'; try done. cbn. unfold pipe_locked. cbn.
  by rewrite lookup_alter_ne by congruence.
Qed.

Lemma lock_ok_set l l' b k : lock_ok l (set_lock l' b k) <-> lock_ok l k.
Proof. destruct l, l'; try done. cbn. apply lookup_alter_is_Some. Qed.

Lemma set_lock_twice l b k : holding l k = b -> set_lock l b (set_lock l (negb b) k) = k.
Proof.
  destruct l, k; cbn; intros E; subst; try done. unfold pipe_locked, ks_pipes. cbn. f_equal.
  apply map_eq. intros i. destruct (decide (i = p)) as [->|Hne].
  - rewrite !lookup_alter_eq. by destruct (pipes0 !! p) as [[]|].
  - by rewrite !lookup_alter_ne.
Qed.

Lemma ncli_release l k : holding l k = true -> ncli k = S (ncli (set_lock l false k)).
Proof.
  destruct l; cbn; unfold ncli; cbn; intros E; try (rewrite E; cbn; lia).
  unfold pipe_locked in E. destruct (pipes k !! p) as [pi|] eqn:Ep; [|done].
  assert (Hd : filter (fun x : Z * pipe => pi_lock x.2 = true) (alter (pis_lock false) p (pipes k)) =
    delete p (filter (fun x : Z * pipe => pi_lock x.2 = true) (pipes k))).
  { rewrite <- map_filter_delete. apply map_eq. intros i. rewrite !map_lookup_filter.
    destruct (decide (i = p)) as [->|Hne].
    - by rewrite lookup_alter_eq, lookup_delete_eq, Ep.
    - by rewrite lookup_alter_ne, lookup_delete_ne. }
  rewrite Hd. assert (Hs : filter (fun x : Z * pipe => pi_lock x.2 = true) (pipes k) !! p = Some pi)
    by (by apply map_lookup_filter_Some).
  rewrite map_size_delete, Hs. pose proof (map_size_ne_0_lookup_2 _ p (ex_intro _ pi Hs)). lia.
Qed.

Lemma ncli_acquire l k :
  holding l k = false -> lock_ok l k -> ncli (set_lock l true k) = S (ncli k).
Proof.
  intros E Hok. rewrite (ncli_release l).
  - f_equal. f_equal. by apply (set_lock_twice l false).
  - by apply holding_same.
Qed.

(** Holding two locks makes [ncli] at least two. *)
Lemma ncli_other l l' k :
  holding l k = true -> ncli k = 1%nat -> l <> l' -> holding l' k = false.
Proof.
  intros Hl Hn Hne. destruct (holding l' k) eqn:E; [|done].
  rewrite (ncli_release l), (ncli_release l') in Hn; [lia|by rewrite holding_other|done].
Qed.

#[global] Arguments set_lock : simpl never.
#[global] Arguments holding : simpl never.

(** ** Processes by slot *)

(** An access outside the object a pointer belongs to.  What C does then is
    undefined; the model stops. *)
Definition wild {A} : KM A := panic "wild access".

Definition from_option_wild {A} (o : option A) : KM A :=
  match o with Some a => ret a | None => wild end.

(** Access to a process by its slot. *)
Definition pget (i : nat) : KM proc :=
  let! ps := gets procs in from_option_wild (ps !! i).
Definition pupd (i : nat) (f : proc -> proc) : KM unit :=
  modify (fun k => ks_procs (alter f i (procs k)) k).

(** How often a thread that waits may be woken to find its condition false
    before the model gives up on it.  Every theorem holds for every number. *)
Class Wakeups : Type := wakeups : nat.

(** [proc], the current process; using it when there is none is a null
    pointer access. *)
Definition myproc : KM nat :=
  let! c := gets cur in
  match c with
  | Some i => ret i
  | None => panic "trap"
  end.

Lemma wp_pget i p k Q : procs k !! i = Some p -> Q p k -> wp (pget i) k Q.
Proof. intros E HQ. unfold pget. apply wp_bind, wp_gets. by rewrite E. Qed.

Lemma wp_myproc i k Q : cur k = Some i -> Q i k -> wp myproc k Q.
Proof. intros E HQ. unfold myproc. apply wp_bind, wp_gets. by rewrite E. Qed.

Lemma wp_acquire l k Q : holding l k = false -> Q tt (set_lock l true k) -> wp (acquire l) k Q.
Proof. intros E HQ. unfold acquire. apply wp_bind, wp_gets. by rewrite E. Qed.

Lemma wp_release l k Q : holding l k = true -> Q tt (set_lock l false k) -> wp (release l) k Q.
Proof. intros E HQ. unfold release. apply wp_bind, wp_gets. by rewrite E. Qed.
