(* ===== verification/Sched.v ===== *)
(** * Scheduling: the process-table routines of proc.c that block and wake

    [sched], [yield], [sleep], [wakeup], [kill] and the scheduler loop, with
    [switchuvm] of vm.c.  A thread that calls [swtch] leaves the outcome
    [Switch]. *)

From S2P Require Import Prelude Layout Mem Kalloc Vm State.

Open Scope Z_scope.

(** ** Operations *)

(** [swtch]: the thread stops here, and goes on from the state in which it is
    resumed. *)
Definition swtch : KM unit := fun k => Switch k (fun k' => Ok tt k').

(** [switchuvm(p)], for the process in slot [i].  The task state gets the
    kernel stack of [proc], not of [p].  The descriptor of the task state is in Desc.v,
    [pushcli] and [popcli] are in Spin.v. *)
Definition switchuvm (i : nat) : KM unit :=
  let! me := myproc in
  let! q := pget me in
  modify (ks_esp0 (p_kstack q + KSTACKSIZE)) ;;;
  let! p := pget i in
  if p_pgdir p =? 0 then panic "switchuvm: no pgdir"
  else liftM (modify (set_cr3 (v2p (p_pgdir p)))).

(** On one CPU; the test of the interrupt flag and the life of [intena] are in [Spin.sched]. *)
Definition sched : KM unit :=
  let! k := get in
  if negb (holding LkPtable k) then panic "sched ptable.lock"
  else if negb (ncli k =? 1)%nat then panic "sched locks"
  else
    let! me := myproc in
    let! p := pget me in
    if bool_decide (p_state p = RUNNING) then panic "sched running"
    else swtch.

Definition yield : KM unit :=
  acquire LkPtable ;;;
  let! me := myproc in
  pupd me (ps_state RUNNABLE) ;;;
  sched ;;;
  release LkPtable.

Definition sleep (c : chan) (lk : lock) : KM unit :=
  let! o := gets cur in
  match o with
  | None => panic "sleep"
  | Some me =>
      when (bool_decide (lk <> LkPtable)) (acquire LkPtable ;;; release lk) ;;;
      pupd me (ps_chan (Some c)) ;;;
      pupd me (ps_state SLEEPING) ;;;
      sched ;;;
      let! me := myproc in
      pupd me (ps_chan None) ;;;
      when (bool_decide (lk <> LkPtable)) (release LkPtable ;;; acquire lk)
  end.

Definition wake (c : chan) (p : proc) : proc :=
  if bool_decide (p_state p = SLEEPING /\ p_chan p = Some c) then ps_state RUNNABLE p else p.

Definition wakeup1 (c : chan) : KM unit :=
  modify (fun k => ks_procs (wake c <$> procs k) k).

Definition wakeup (c : chan) : KM unit :=
  acquire LkPtable ;;;
  wakeup1 c ;;;
  release LkPtable.

Fixpoint kill_loop (pid : Z) (i n : nat) : KM Z :=
  match n with
  | O => release LkPtable ;;; ret (-1)
  | S n =>
      let! p := pget i in
      if p_pid p =? pid then
        pupd i (ps_killed true) ;;;
        when (bool_decide (p_state p = SLEEPING)) (pupd i (ps_state RUNNABLE)) ;;;
        release LkPtable ;;;
        ret 0
      else kill_loop pid (S i) n
  end.

Definition kill (pid : Z) : KM Z :=
  acquire LkPtable ;;;
  kill_loop pid 0 (Z.to_nat NPROC).

(** [proc = p; switchuvm(p); p->state = RUNNING;] *)
Definition dispatch (i : nat) : KM unit :=
  modify (ks_cur (Some i)) ;;;
  switchuvm i ;;;
  pupd i (ps_state RUNNING).

(** The loop over the process table of [scheduler], from slot [i]. *)
Fixpoint scheduler_loop (i n : nat) : KM unit :=
  match n with
  | O => ret tt
  | S n =>
      let! p := pget i in
      when (bool_decide (p_state p = RUNNABLE))
        (dispatch i ;;;
         swtch ;;;
         liftM switchkvm ;;;
         modify (ks_cur None)) ;;;
      scheduler_loop (S i) n
  end.

(** [scheduler] for [rounds] passes over the table. *)
Fixpoint scheduler (rounds : nat) : KM unit :=
  match rounds with
  | O => nofuel
  | S rounds =>
      acquire LkPtable ;;;
      scheduler_loop 0 (Z.to_nat NPROC) ;;;
      release LkPtable ;;;
      scheduler rounds
  end.

(** ** Growing a process and allocating a slot *)

Section Slots.
Context `{KernelImage}.

Definition growproc (n : Z) : KM Z :=
  let! me := myproc in
  let! p := pget me in
  let sz := p_sz p in
  let! r := (if 0 <? n then liftM (allocuvm (p_pgdir p) sz (u32 (sz + n)))
             else if n <? 0 then liftM (deallocuvm (p_pgdir p) sz (u32 (sz + n)))
             else ret sz) in
  if negb (n =? 0) && (r =? 0) then ret (-1)
  else
    pupd me (ps_sz r) ;;;
    switchuvm me ;;;
    ret 0.

(** The first unused slot from [i] on. *)
Fixpoint find_unused (i n : nat) : KM (option nat) :=
  match n with
  | O => ret None
  | S n =>
      let! p := pget i in
      if bool_decide (p_state p = UNUSED) then ret (Some i) else find_unused (S i) n
  end.

(** The new thread starts in [forkret], which returns to [trapret].  Its trap
    frame lies at the top of the new stack; every caller fills it in. *)
Definition allocproc : KM (option nat) :=
  acquire LkPtable ;;;
  let! o := find_unused 0 (Z.to_nat NPROC) in
  match o with
  | None => release LkPtable ;;; ret None
  | Some i =>
      pupd i (ps_state EMBRYO) ;;;
      let! pid := gets nextpid in
      pupd i (ps_pid pid) ;;;
      modify (ks_nextpid (s32 (pid + 1))) ;;;
      release LkPtable ;;;
      let! kstack := liftM kalloc in
      pupd i (ps_kstack kstack) ;;;
      if kstack =? 0 then
        pupd i (ps_state UNUSED) ;;;
        ret None
      else
        pupd i (ps_context Forkret) ;;;
        ret (Some i)
  end.

End Slots.

(** ** wakeup, kill, allocproc *)

Lemma wp_wakeup c k Q :
  pt_lock k = false -> Q tt (ks_procs (wake c <$> procs k) k) -> wp (wakeup c) k Q.
Proof.
  intros Hl HQ. unfold wakeup. apply wp_bind, wp_acquire; [done|].
  apply wp_bind, wp_modify, wp_release; [done|].
  replace (set_lock LkPtable false _) with (ks_procs (wake c <$> procs k) k); [done|].
  destruct k. cbn in Hl. by subst.
Qed.

Lemma wake_lookup c (ps : list proc) i p :
  ps !! i = Some p -> (wake c <$> ps) !! i = Some (wake c p).
Proof. intros E. by rewrite list_lookup_fmap, E. Qed.

(** The first slot whose process satisfies [P]. *)
Definition first_slot (P : proc -> Prop) (ps : list proc) (i : nat) : Prop :=
  (exists p, ps !! i = Some p /\ P p) /\ forall j q, ps !! j = Some q -> (j < i)%nat -> ~ P q.

(** What [kill] does to the process it finds. *)
Definition kill_proc (p : proc) : proc :=
  let p' := ps_killed true p in
  if bool_decide (p_state p = SLEEPING) then ps_state RUNNABLE p' else p'.

Lemma kill_loop_spec k pid n : forall i,
  length (procs k) = 64%nat -> (i + n = 64)%nat -> pt_lock k = true ->
  (forall j q, procs k !! j = Some q -> (j < i)%nat -> p_pid q <> pid) ->
  wp (kill_loop pid i n) k (fun r k' =>
    (r = 0 /\ exists i, first_slot (fun p => p_pid p = pid) (procs k) i /\
       k' = set_lock LkPtable false (ks_procs (alter kill_proc i (procs k)) k)) \/
    (r = -1 /\ k' = set_lock LkPtable false k /\ Forall (fun p => p_pid p <> pid) (procs k))).
Proof.
  induction n as [|n IH]; intros i Hlen Hin Hl Hno; cbn [kill_loop].
  - apply wp_bind, wp_release; [done|]. apply wp_ret. right. split_and!; [done..|].
    apply Forall_lookup. intros j q E. apply (Hno j q E).
    apply lookup_lt_Some in E. lia.
  - destruct (lookup_lt_is_Some_2 (procs k) i) as [p E]; [lia|].
    apply wp_bind, (wp_pget i p); [done|]. destruct (Z.eqb_spec (p_pid p) pid) as [Ep|Ep].
    + apply wp_bind, wp_modify, wp_bind, wp_when.
      assert (Hfin : wp (release LkPtable ;;; ret 0) (ks_procs (alter kill_proc i (procs k)) k)
        (fun r k' => (r = 0 /\ exists i, first_slot (fun p => p_pid p = pid) (procs k) i /\
           k' = set_lock LkPtable false (ks_procs (alter kill_proc i (procs k)) k)) \/
          (r = -1 /\ k' = set_lock LkPtable false k /\ Forall (fun p => p_pid p <> pid) (procs k)))).
      { apply wp_bind, wp_release; [done|]. apply wp_ret. left. split; [done|].
        exists i. split; [|done]. split; [by exists p|]. intros j q Ej Hj. by apply (Hno j q). }
      assert (Ea : alter kill_proc i (procs k) =
        (if bool_decide (p_state p = SLEEPING) then alter (ps_state RUNNABLE) i
           (alter (ps_killed true) i (procs k)) else alter (ps_killed true) i (procs k))).
      { apply list_eq. intros j. destruct (decide (j = i)) as [->|Hne].
        - rewrite list_lookup_alter_eq, E. unfold kill_proc. cbn.
          case_bool_decide; by rewrite !list_lookup_alter_eq, E.
        - rewrite list_lookup_alter_ne by done.
          case_bool_decide; by rewrite !list_lookup_alter_ne by done. }
      rewrite Ea in Hfin. destruct (bool_decide (p_state p = SLEEPING)).
      * apply wp_modify. exact Hfin.
      * exact Hfin.
    + apply IH; [done|lia|done|]. intros j q Ej Hj. destruct (decide (j = i)) as [->|].
      * congruence.
      * apply (Hno j q Ej). lia.
Qed.

Section Alloc.
Context `{KernelImage} `{!KernelImageOk}.

Lemma find_unused_spec k n : forall i,
  length (procs k) = 64%nat -> (i + n = 64)%nat ->
  (forall j q, procs k !! j = Some q -> (j < i)%nat -> p_state q <> UNUSED) ->
  wp (find_unused i n) k (fun o k' => k' = k /\
    match o with
    | Some i => first_slot (fun p => p_state p = UNUSED) (procs k) i
    | None => Forall (fun p => p_state p <> UNUSED) (procs k)
    end).
Proof.
  induction n as [|n IH]; intros i Hlen Hin Hno; cbn [find_unused].
  - apply wp_ret. split; [done|]. apply Forall_lookup. intros j q E. apply (Hno j q E).
    apply lookup_lt_Some in E. lia.
  - destruct (lookup_lt_is_Some_2 (procs k) i) as [p E]; [lia|].
    apply wp_bind, (wp_pget i p); [done|]. case_bool_decide as Hu.
    + apply wp_ret. split; [done|]. split; [by exists p|]. intros j q Ej Hj. by apply (Hno j q).
    + apply IH; [done|lia|]. intros j q Ej Hj. destruct (decide (j = i)) as [->|].
      * congruence.
      * apply (Hno j q Ej). lia.
Qed.

(** A slot that [allocproc] set up. *)
Definition embryo (pid kstack : Z) (p : proc) : proc :=
  ps_context Forkret (ps_kstack kstack (ps_pid pid (ps_state EMBRYO p))).

(** The slot after a failure to allocate the stack: unused again, but with the
    process number it was given. *)
Definition stillborn (pid : Z) (p : proc) : proc :=
  ps_state UNUSED (ps_kstack 0 (ps_pid pid (ps_state EMBRYO p))).

(** The outcomes of [allocproc] from state [k] with free pages [l]. *)
Definition allocated (k : kstate) (l : list Z) (o : option nat) (k' : kstate) : Prop :=
  match o with
  | Some i => exists kstack l', l = kstack :: l' /\
      first_slot (fun p => p_state p = UNUSED) (procs k) i /\
      k' = ks_ms (ms k') (ks_nextpid (s32 (nextpid k + 1))
             (ks_procs (alter (embryo (nextpid k) kstack) i (procs k)) k)) /\
      ms k' = set_freelist (rd32 (mm (ms k)) kstack) (ms k) /\ free_wf (ms k') l'
  | None =>
      (Forall (fun p => p_state p <> UNUSED) (procs k) /\ k' = k) \/
      (l = [] /\ exists i, first_slot (fun p => p_state p = UNUSED) (procs k) i /\
         k' = ks_nextpid (s32 (nextpid k + 1))
                (ks_procs (alter (stillborn (nextpid k)) i (procs k)) k))
  end.

Lemma allocproc_spec k l :
  free_wf (ms k) l -> length (procs k) = 64%nat -> pt_lock k = false ->
  wp allocproc k (allocated k l).
Proof.
  intros Hwf Hlen Hpt. unfold allocproc. apply wp_bind, wp_acquire; [done|].
  apply wp_bind. wp_use (find_unused_spec (set_lock LkPtable true k) 64 0); [done|done|lia|].
  intros o k1 [-> Ho]. rewrite set_lock_procs in Ho.
  assert (Er : forall f g, set_lock LkPtable false (ks_nextpid g (ks_procs f (set_lock LkPtable true k))) =
    ks_nextpid g (ks_procs f k)) by (intros; destruct k; cbn in Hpt; by subst).
  destruct o as [i|].
  2: { apply wp_bind, wp_release; [done|]. apply wp_ret. left. split; [done|].
       by apply (set_lock_twice LkPtable false). }
  apply wp_bind, wp_modify, wp_bind, wp_gets, wp_bind, wp_modify, wp_bind, wp_modify.
  apply wp_bind, wp_release; [done|]. cbn [nextpid ks_procs procs].
  change (ks_procs ?f (ks_procs ?g ?x)) with (ks_procs f x). rewrite Er, alter_fuse.
  apply wp_bind, wp_liftM. destruct l as [|kst l'].
  - wp_use (kalloc_empty _ Hwf). intros r s [-> ->]. apply wp_bind, wp_modify. cbn [Z.eqb].
    apply wp_bind, wp_modify, wp_ret. right. split; [done|]. exists i. split; [done|].
    cbn. rewrite !alter_fuse. by destruct k.
  - wp_use (kalloc_spec _ _ _ Hwf). intros r s (-> & -> & Hwf').
    apply wp_bind, wp_modify.
    pose proof (page_ok_bounds kst) as Hb. pose proof (fw_pages _ _ Hwf) as [Hok _]%Forall_cons.
    rewrite (proj2 (Z.eqb_neq _ 0)) by (specialize (Hb Hok); klia).
    apply wp_bind, wp_modify, wp_ret. exists kst, l'. split; [done|]. split; [done|].
    split; [|done]. cbn. by rewrite !alter_fuse.
Qed.

End Alloc.
