(* ===== verification/Rely.v ===== *)
(** * Threads that switch: rely and guarantee

    A kernel thread runs until it calls [swtch]; other threads then change the
    state before it resumes.  A thread is specified by a guarantee, what it does
    to the state between two switches, and a rely, what it tolerates from the
    others.  [par_sound] composes such threads: under every interleaving each
    keeps its specification when the guarantee of each implies the rely of the
    others. *)

From S2P Require Import Prelude Layout Mem Kalloc Vm State Sched.

Open Scope Z_scope.

(** The scheduler resumed process [me]: it is the current process, running,
    and holds [ptable.lock] and no other lock. *)
Definition resumed (me : nat) (k : kstate) : Prop :=
  cur k = Some me /\ pt_lock k = true /\ ncli k = 1%nat /\
  exists p, procs k !! me = Some p /\ p_state p = RUNNING.

(** Process [me] entered the scheduler: it no longer runs, and holds
    [ptable.lock] and no other lock. *)
Definition parked (me : nat) (k : kstate) : Prop :=
  cur k = Some me /\ pt_lock k = true /\ ncli k = 1%nat /\
  exists p, procs k !! me = Some p /\ p_state p <> RUNNING.

(** The state of process [me] asleep on [c]. *)
Definition asleep (me : nat) (c : chan) (k : kstate) : kstate :=
  ks_procs (alter (ps_state SLEEPING) me (alter (ps_chan (Some c)) me (procs k))) k.

(** The state in which [sleep] gives up the CPU. *)
Definition sleep_state (me : nat) (c : chan) (lk : lock) (k : kstate) : kstate :=
  asleep me c (set_lock lk false (set_lock LkPtable true k)).


(** The state after [sleep] was resumed in [k] and has its lock back. *)
Definition woken (me : nat) (lk : lock) (k : kstate) : kstate :=
  set_lock lk true (set_lock LkPtable false (ks_procs (alter (ps_chan None) me (procs k)) k)).

Lemma sleep_parked me c lk k p :
  lk <> LkPtable -> cur k = Some me -> procs k !! me = Some p -> holding lk k = true ->
  ncli k = 1%nat -> parked me (sleep_state me c lk k).
Proof.
  intros Hne Hc Hp Hl Hn. pose proof (ncli_other lk LkPtable k Hl Hn Hne) as Hpt.
  unfold sleep_state, asleep. split; [cbn; by rewrite !set_lock_cur|]. split.
  - change (holding LkPtable (set_lock lk false (set_lock LkPtable true k)) = true).
    by rewrite holding_other.
  - split.
    + change (ncli (set_lock lk false (set_lock LkPtable true k)) = 1%nat).
      assert (S (ncli (set_lock lk false (set_lock LkPtable true k))) = 2%nat); [|lia].
      rewrite <- ncli_release, ncli_acquire by (done || by rewrite holding_other). lia.
    + cbn. rewrite !set_lock_procs, !list_lookup_alter_eq, Hp. eexists. by split.
Qed.

Lemma woken_holds me lk k :
  resumed me k -> lock_ok lk k -> lk <> LkPtable ->
  cur (woken me lk k) = Some me /\ ncli (woken me lk k) = 1%nat /\ holding lk (woken me lk k) = true /\
  exists p, procs (woken me lk k) !! me = Some p.
Proof.
  intros (Hc & Hpt & Hn & p & Hp & _) Hok Hne. unfold woken.
  set (k1 := ks_procs _ k). assert (Hok1 : lock_ok lk (set_lock LkPtable false k1)) by (by apply lock_ok_set).
  assert (N1 : ncli k1 = S (ncli (set_lock LkPtable false k1))) by (by apply (ncli_release LkPtable)).
  assert (Hl : holding lk (set_lock LkPtable false k1) = false).
  { rewrite holding_other by done. by apply (ncli_other LkPtable). }
  split; [by rewrite !set_lock_cur|]. split.
  { rewrite ncli_acquire by done. rewrite <- N1. exact Hn. }
  split; [by apply holding_same|]. rewrite !set_lock_procs. unfold k1. cbn.
  rewrite list_lookup_alter_eq, Hp. by eexists.
Qed.

(** ** The proof rule *)

Section Rely.
Context (G R : kstate -> kstate -> Prop) (me : nat).

(** [orely o k0 Q]: [o], the rest of a run that last resumed in [k0], does not
    panic; when it gives up the CPU it has gone from [k0] by a step of [G]; it
    may resume after any step of [R]; if it returns, then with [Q].  Running
    out of fuel stands for a thread that is still waiting. *)
Fixpoint orely {A} (o : outcome kstate A) (k0 : kstate) (Q : kstate -> A -> kstate -> Prop) : Prop :=
  match o with
  | Ok a k => Q k0 a k
  | Panic _ _ => False
  | Switch k r => G k0 k /\ parked me k /\ forall k', R k k' -> resumed me k' -> orely (r k') k' Q
  | NoFuel => True
  end.

Definition rely {A} (m : KM A) k0 k Q : Prop := orely (A:=A) (m k) k0 Q.

Lemma orely_mono {A} (o : outcome kstate A) : forall k0 (P Q : kstate -> A -> kstate -> Prop),
  orely o k0 P -> (forall k0 a k, P k0 a k -> Q k0 a k) -> orely o k0 Q.
Proof.
  induction o as [a s|e s|s r IH|]; cbn; intros k0 P Q Ho HPQ; auto.
  destruct Ho as (Hg & Hp & Hr). do 2 (split; [done|]). intros k' HR Hk'. by eapply IH; [apply Hr|].
Qed.

Lemma rely_mono {A} (m : KM A) k0 k (P Q : kstate -> A -> kstate -> Prop) :
  rely m k0 k P -> (forall k0 a k, P k0 a k -> Q k0 a k) -> rely m k0 k Q.
Proof. apply orely_mono. Qed.

Lemma rely_wp {A} (m : KM A) k0 k Q : wp m k (Q k0) -> rely m k0 k Q.
Proof. unfold wp, rely. by destruct (m k). Qed.

Lemma rely_bind {A B} (m : KM A) (f : A -> KM B) k0 k Q :
  rely m k0 k (fun k1 a k' => rely (f a) k1 k' Q) -> rely (bind m f) k0 k Q.
Proof.
  unfold rely, bind. generalize (m k). intros o. revert k0.
  induction o as [a s|e s|s r IH|]; cbn; intros k0 Ho; auto.
  destruct Ho as (Hg & Hp & Hr). do 2 (split; [done|]). intros k' HR Hk'. by apply IH, Hr.
Qed.

Lemma rely_ret {A} (a : A) k0 k (Q : kstate -> A -> kstate -> Prop) : Q k0 a k -> rely (ret a) k0 k Q.
Proof. done. Qed.

Lemma rely_nofuel {A} k0 k (Q : kstate -> A -> kstate -> Prop) : rely nofuel k0 k Q.
Proof. done. Qed.

Lemma rely_sched k0 k Q :
  G k0 k -> parked me k -> (forall k', R k k' -> resumed me k' -> Q k' tt k') -> rely sched k0 k Q.
Proof.
  intros Hg Hp HQ. pose proof Hp as (Hc & Hpt & Hn & p & E & Hs).
  unfold sched. apply rely_bind, rely_wp, wp_get. unfold holding. rewrite Hpt, Hn. cbn.
  apply rely_bind, rely_wp, (wp_myproc me); [done|]. apply rely_bind, rely_wp, (wp_pget me p); [done|].
  rewrite bool_decide_eq_false_2 by done. split; [done|]. split; [done|]. intros k' HR Hk'. by apply HQ.
Qed.

(** [sleep] with a lock other than [ptable.lock]: at the switch the lock is
    free and the process asleep; afterwards the lock is held again. *)
Lemma rely_sleep c lk k0 k p Q :
  lk <> LkPtable -> cur k = Some me -> procs k !! me = Some p -> holding lk k = true ->
  ncli k = 1%nat -> G k0 (sleep_state me c lk k) ->
  (forall k', R (sleep_state me c lk k) k' -> resumed me k' -> Q k' tt (woken me lk k')) ->
  rely (sleep c lk) k0 k Q.
Proof.
  intros Hne Hc Hp Hl Hn Hg HQ.
  pose proof (ncli_other lk LkPtable k Hl Hn Hne) as Hpt.
  unfold sleep. apply rely_bind, rely_wp, wp_gets. rewrite Hc.
  rewrite bool_decide_eq_true_2 by done. cbn [when].
  apply rely_bind, rely_wp, wp_bind, wp_acquire; [done|].
  apply wp_release; [by rewrite holding_other|].
  apply rely_bind, rely_wp, wp_modify. apply rely_bind, rely_wp, wp_modify.
  apply rely_bind. change (ks_procs _ (ks_procs _ _)) with (sleep_state me c lk k).
  apply rely_sched; [done|by apply (sleep_parked _ _ _ _ p)|].
  intros k' HR Hr. pose proof Hr as (Hc' & Hpt' & Hn' & p' & Hp' & _).
  apply rely_bind, rely_wp, (wp_myproc me); [done|].
  apply rely_bind, rely_wp, wp_modify. unfold when. apply rely_wp.
  apply wp_bind, wp_release; [done|]. apply wp_acquire; [|by apply HQ].
  rewrite holding_other by done. change (holding lk k' = false).
  by apply (ncli_other LkPtable).
Qed.

End Rely.

#[global] Arguments rely : simpl never.

(** ** Threads side by side *)

Inductive thread (A : Type) : Type :=
  | Waiting (r : kstate -> outcome kstate A)
  | Done (a : A).
#[global] Arguments Waiting {A} r.
#[global] Arguments Done {A} a.

Section Parallel.
Context {A : Type}.

(** What happens between the switch of one thread and the resumption of the
    next: the scheduler, interrupts and every thread that is not listed. *)
Context (env : kstate -> kstate -> Prop).

(** A state and the threads, each with the slot of its process. *)
Abbreviation config := (kstate * list (nat * thread A))%type.

(** One thread is resumed and runs until it switches or returns. *)
Inductive par_step : config -> config -> Prop :=
  | par_switch k ts i me r k1 k2 r' :
      ts !! i = Some (me, Waiting r) -> env k k1 -> resumed me k1 -> r k1 = Switch k2 r' ->
      par_step (k, ts) (k2, <[i := (me, Waiting r')]> ts)
  | par_done k ts i me r k1 k2 a :
      ts !! i = Some (me, Waiting r) -> env k k1 -> resumed me k1 -> r k1 = Ok a k2 ->
      par_step (k, ts) (k2, <[i := (me, Done a)]> ts).

(** Some thread can be resumed and panics. *)
Definition par_panics (c : config) : Prop :=
  exists i me r k1 msg k2, c.2 !! i = Some (me, Waiting r) /\ env c.1 k1 /\ resumed me k1 /\
    r k1 = Panic msg k2.

(** The specification of the thread at each position. *)
Context (G R : nat -> kstate -> kstate -> Prop) (Post : nat -> A -> kstate -> Prop).
Hypothesis env_rely : forall i k k', env k k' -> R i k k'.
Hypothesis rely_trans : forall i k1 k2 k3, R i k1 k2 -> R i k2 k3 -> R i k1 k3.
Hypothesis guar_rely : forall i j k k', i <> j -> G i k k' -> R j k k'.
Hypothesis post_stable : forall i a k k', Post i a k -> R i k k' -> Post i a k'.

Definition thread_ok (k : kstate) (i : nat) (t : nat * thread A) : Prop :=
  match t.2 with
  | Waiting r => forall k', R i k k' -> resumed t.1 k' ->
      orely (G i) (R i) t.1 (r k') k' (fun k0 a k => G i k0 k /\ Post i a k)
  | Done a => Post i a k
  end.

Definition par_ok (c : config) : Prop := forall i t, c.2 !! i = Some t -> thread_ok c.1 i t.

Lemma thread_ok_rely k k' i t : thread_ok k i t -> R i k k' -> thread_ok k' i t.
Proof.
  unfold thread_ok. destruct t.2 as [r|a]; intros Hok HR; [|by eapply post_stable].
  intros k2 HR2. apply Hok. by eapply rely_trans.
Qed.

Lemma par_run k ts i me r k1 :
  par_ok (k, ts) -> ts !! i = Some (me, Waiting r) -> env k k1 -> resumed me k1 ->
  orely (G i) (R i) me (r k1) k1 (fun k0 a k => G i k0 k /\ Post i a k).
Proof. intros Hok Hi He Hr. by apply (Hok i _ Hi k1 (env_rely i _ _ He)). Qed.

Lemma par_others k ts i t k1 k2 :
  par_ok (k, ts) -> env k k1 -> G i k1 k2 -> thread_ok k2 i t -> par_ok (k2, <[i := t]> ts).
Proof.
  intros Hok He Hg Ht j u Hj. destruct (decide (i = j)) as [<-|Hne].
  - apply list_lookup_insert_Some in Hj as [(_ & <- & _)|[[] _]]; done.
  - cbn in Hj. rewrite list_lookup_insert_ne in Hj by done. apply (thread_ok_rely k); [by apply Hok|].
    eapply rely_trans; [by apply env_rely|by apply (guar_rely i)].
Qed.

Lemma par_step_ok c c' : par_ok c -> par_step c c' -> par_ok c'.
Proof.
  intros Hok Hs. destruct Hs as [k ts i me r k1 k2 r' Hi He Hr E|k ts i me r k1 k2 a Hi He Hr E];
    pose proof (par_run _ _ _ _ _ _ Hok Hi He Hr) as Ho; rewrite E in Ho; cbn in Ho.
  - destruct Ho as (Hg & _ & Hn). by apply (par_others k ts i _ k1).
  - destruct Ho as [Hg Hp]. by apply (par_others k ts i _ k1).
Qed.

(** Every interleaving keeps every thread's specification, and none panics. *)
Lemma par_sound c c' : par_ok c -> rtc par_step c c' -> par_ok c' /\ ~ par_panics c'.
Proof.
  intros Hok Hs. assert (Hok' : par_ok c') by (induction Hs; eauto using par_step_ok). split; [done|].
  intros (i & me & r & k1 & msg & k2 & Hi & He & Hr & E). destruct c' as [k ts].
  pose proof (par_run _ _ _ _ _ _ Hok' Hi He Hr) as Ho. by rewrite E in Ho.
Qed.

(** What all the threads and the environment respect relates the states. *)
Lemma par_states (T : kstate -> kstate -> Prop) c c' :
  (forall k, T k k) -> (forall k1 k2 k3, T k1 k2 -> T k2 k3 -> T k1 k3) ->
  (forall k k', env k k' -> T k k') -> (forall i k k', G i k k' -> T k k') ->
  par_ok c -> rtc par_step c c' -> T c.1 c'.1.
Proof.
  intros Trefl Ttrans Tenv TG Hok Hs. induction Hs as [|c c1 c2 Hs1 Hs2 IH]; [done|].
  eapply Ttrans; [|by eapply IH, par_step_ok].
  destruct Hs1 as [k ts i me r k1 k2 r' Hi He Hr E|k ts i me r k1 k2 a Hi He Hr E];
    pose proof (par_run _ _ _ _ _ _ Hok Hi He Hr) as Ho; rewrite E in Ho; cbn in Ho;
    (eapply Ttrans; [by apply Tenv|apply (TG i)]); tauto.
Qed.

End Parallel.
