(* ===== verification/Spin.v ===== *)
(** * Spin locks on several CPUs

    spinlock.c at the granularity of memory accesses.  Each CPU executes
    [acquire], [release], [holding], [pushcli] and [popcli] one access at a
    time, in any interleaving with the other CPUs; interrupts arrive whenever the
    interrupt flag is on, and threads move between CPUs through [swtch].

    Elsewhere the kernel is modelled with locks as flags that one thread takes
    and gives back in one step.  The theorems of this file are what allows that:
    no two CPUs are ever inside the same lock, a CPU inside a lock is not
    interrupted, and the only panics are those of a caller that breaks the
    protocol.  Reads and writes of one word are atomic and seen in program order,
    which the locked exchange and the order of i386 stores give the code.

    The last module is [getcallerpcs], which follows the saved frame pointers:
    its ten words are the return addresses of the innermost frames, and zero
    where there are fewer. *)

From stdpp Require Import functions.
From S2P Require Import Prelude Layout Mem.

Open Scope Z_scope.

(** ** Program counters *)

(** Inside [pushcli]: before [readeflags]; before [cli], with the flags read;
    before [cpu->ncli++]. *)
Inductive at_pushcli := ReadFlags | Cli (eflags : bool) | Nest (eflags : bool).

(** Inside [holding]: before the read of [lock->locked], and of [lock->cpu]. *)
Inductive at_holding := ReadLocked | ReadCpu.

#[export] Instance at_holding_eq_dec : EqDecision at_holding.
Proof. solve_decision. Defined.

(** Inside [popcli]: before the test of the flags, before [--cpu->ncli], and
    before the conditional [sti]. *)
Inductive at_popcli := TestFlags | Unnest | Restore.

Inductive pc :=
  | Client
  | AcqPush (l : nat) (p : at_pushcli)
  | AcqHolding (l : nat) (p : at_holding)
  | AcqXchg (l : nat)
  | AcqCpu (l : nat)
  | RelHolding (l : nat) (p : at_holding)
  | RelCpu (l : nat)
  | RelXchg (l : nat)
  | RelPop (p : at_popcli)
  | Panicked (msg : string).

(** ** State *)

(** The fields of a lock that the code branches on. *)
Record spinlock := Spinlock { sl_locked : Z; sl_cpu : option nat }.

Definition initlock : spinlock := Spinlock 0 None.

(** A CPU: the code it runs, the code its interrupt handlers will return to, the
    interrupt flag, and [ncli] and [intena] of [struct cpu].  [c_held] records
    the client's view: the locks it has acquired and not begun to release. *)
Record cpu := Cpu {
  c_pc : pc;
  c_frames : list pc;
  c_if : bool;
  c_ncli : Z;
  c_intena : bool;
  c_held : gset nat;
}.

(** A thread that is not running: its interrupted code and, if it stopped in
    [sched], the [intena] it will restore. *)
Record ctx := Ctx { x_frames : list pc; x_intena : option bool }.

Record machine := Machine {
  m_lock : nat -> spinlock;
  m_cpu : nat -> cpu;
  m_pool : list ctx;
}.

Definition set_pc (p : pc) (x : cpu) : cpu :=
  Cpu p (c_frames x) (c_if x) (c_ncli x) (c_intena x) (c_held x).
Definition set_if (b : bool) (x : cpu) : cpu :=
  Cpu (c_pc x) (c_frames x) b (c_ncli x) (c_intena x) (c_held x).
Definition set_ncli (n : Z) (x : cpu) : cpu :=
  Cpu (c_pc x) (c_frames x) (c_if x) n (c_intena x) (c_held x).
Definition set_intena (b : bool) (x : cpu) : cpu :=
  Cpu (c_pc x) (c_frames x) (c_if x) (c_ncli x) b (c_held x).
Definition set_held (h : gset nat) (x : cpu) : cpu :=
  Cpu (c_pc x) (c_frames x) (c_if x) (c_ncli x) (c_intena x) h.
Definition set_frames (f : list pc) (x : cpu) : cpu :=
  Cpu (c_pc x) f (c_if x) (c_ncli x) (c_intena x) (c_held x).

(** [panic] begins with [cli] and never returns. *)
Definition panic (msg : string) (x : cpu) : cpu := set_pc (Panicked msg) (set_if false x).

(** ** The code, one access at a time

    Each function gives the lock and the CPU after the access.  [next] is where
    the caller continues. *)

Definition pushcli (p : at_pushcli) (at_ : at_pushcli -> pc) (next : pc) (x : cpu) : cpu :=
  match p with
  | ReadFlags => set_pc (at_ (Cli (c_if x))) x
  | Cli eflags => set_pc (at_ (Nest eflags)) (set_if false x)
  | Nest eflags =>
      let x := if c_ncli x =? 0 then set_intena eflags x else x in
      set_pc next (set_ncli (s32 (c_ncli x + 1)) x)
  end.

Definition popcli (p : at_popcli) (next : pc) (x : cpu) : cpu :=
  match p with
  | TestFlags =>
      if c_if x then panic "popcli - interruptible" x else set_pc (RelPop Unnest) x
  | Unnest =>
      let x := set_ncli (s32 (c_ncli x - 1)) x in
      if c_ncli x <? 0 then panic "popcli" x else set_pc (RelPop Restore) x
  | Restore =>
      set_pc next (if (c_ncli x =? 0) && c_intena x then set_if true x else x)
  end.

(** [lock->locked && lock->cpu == cpu] on CPU [c]; the continuation gets the
    result. *)
Definition holding (c : nat) (p : at_holding) (lk : spinlock) (x : cpu)
    (at_ : at_holding -> pc) (result : bool -> cpu) : cpu :=
  match p with
  | ReadLocked => if sl_locked lk =? 0 then result false else set_pc (at_ ReadCpu) x
  | ReadCpu => result (bool_decide (sl_cpu lk = Some c))
  end.

(** The exchange instruction: the old word and the new lock. *)
Definition xchg (lk : spinlock) (newval : Z) : Z * spinlock :=
  (sl_locked lk, Spinlock newval (sl_cpu lk)).

Definition acquire (c l : nat) (p : pc) (lk : spinlock) (x : cpu) : spinlock * cpu :=
  match p with
  | AcqPush _ q => (lk, pushcli q (AcqPush l) (AcqHolding l ReadLocked) x)
  | AcqHolding _ q =>
      (lk, holding c q lk x (AcqHolding l)
             (fun r => if r then panic "acquire" x else set_pc (AcqXchg l) x))
  | AcqXchg _ =>
      let (old, lk') := xchg lk 1 in
      (lk', if old =? 0 then set_pc (AcqCpu l) x else x)
  | AcqCpu _ =>
      (Spinlock (sl_locked lk) (Some c), set_pc Client (set_held ({[l]} ∪ c_held x) x))
  | _ => (lk, x)
  end.

Definition release (c l : nat) (p : pc) (lk : spinlock) (x : cpu) : spinlock * cpu :=
  match p with
  | RelHolding _ q =>
      (lk, holding c q lk x (RelHolding l)
             (fun r => if r then set_pc (RelCpu l) (set_held (c_held x ∖ {[l]}) x)
                       else panic "release" x))
  | RelCpu _ => (Spinlock (sl_locked lk) None, set_pc (RelXchg l) x)
  | RelXchg _ => ((xchg lk 0).2, set_pc (RelPop TestFlags) x)
  | _ => (lk, x)
  end.

(** The lock whose [acquire] or [release] the CPU is executing. *)
Definition target (p : pc) : option nat :=
  match p with
  | AcqPush l _ | AcqHolding l _ | AcqXchg l | AcqCpu l
  | RelHolding l _ | RelCpu l | RelXchg l => Some l
  | _ => None
  end.

Definition upd (m : machine) (c : nat) (x : cpu) : machine :=
  Machine (m_lock m) (<[c := x]> (m_cpu m)) (m_pool m).

Definition upd_lock (m : machine) (c l : nat) (r : spinlock * cpu) : machine :=
  Machine (<[l := r.1]> (m_lock m)) (<[c := r.2]> (m_cpu m)) (m_pool m).

(** One access of the lock routines on CPU [c]; none while the client runs or
    after a panic. *)
Definition exec (m : machine) (c : nat) : option machine :=
  let x := m_cpu m c in
  match c_pc x with
  | Client | Panicked _ => None
  | RelPop q => Some (upd m c (popcli q Client x))
  | (AcqPush l _ | AcqHolding l _ | AcqXchg l | AcqCpu l) as p =>
      Some (upd_lock m c l (acquire c l p (m_lock m l) x))
  | (RelHolding l _ | RelCpu l | RelXchg l) as p =>
      Some (upd_lock m c l (release c l p (m_lock m l) x))
  end.

(** ** Clients

    What the code outside spinlock.c does: call the routines on any lock, be
    interrupted, return from an interrupt, enable interrupts as [scheduler] does
    (the last two with no lock held), and switch threads.  [Sched j] is [sched]
    giving up the CPU to the waiting thread [j]; [Dispatch j] is the [swtch] of
    [scheduler], which holds [ptable.lock] only. *)

Inductive act :=
  | Exec | CallAcquire (l : nat) | CallRelease (l : nat)
  | Interrupt | Iret | Sti | Sched (j : nat) | Dispatch (j : nat).

(** The number of [ptable.lock]. *)
Definition ptable : nat := 0.

(** A lock takes 52 bytes, so there are fewer than [2^27] of them in a 32-bit
    address space; this is why [ncli], an [int], does not overflow. *)
Definition nlock : Z := 2 ^ 27.

Definition interruptible (p : pc) : bool :=
  match p with Panicked _ => false | _ => true end.

Definition at_client (p : pc) : bool := match p with Client => true | _ => false end.

(** [swtch]: the CPU leaves [saved] behind and continues thread [j]. *)
Definition swtch (m : machine) (c j : nat) (saved : option bool) : option machine :=
  let x := m_cpu m c in
  match m_pool m !! j with
  | Some t =>
      Some (Machine (m_lock m)
        (<[c := set_intena (default (c_intena x) (x_intena t)) (set_frames (x_frames t) x)]>
           (m_cpu m))
        (<[j := Ctx (c_frames x) saved]> (m_pool m)))
  | None => None
  end.

Definition sched (m : machine) (c j : nat) : option machine :=
  let x := m_cpu m c in
  let lk := m_lock m ptable in
  if negb (negb (sl_locked lk =? 0) && bool_decide (sl_cpu lk = Some c)) then
    Some (upd m c (panic "sched ptable.lock" x))
  else if negb (c_ncli x =? 1) then Some (upd m c (panic "sched locks" x))
  else if c_if x then Some (upd m c (panic "sched interruptible" x))
  else swtch m c j (Some (c_intena x)).

Definition step (m : machine) (c : nat) (a : act) : option machine :=
  let x := m_cpu m c in
  match a with
  | Exec => exec m c
  | CallAcquire l =>
      if at_client (c_pc x) && (Z.of_nat l <? nlock) then Some (upd m c (set_pc (AcqPush l ReadFlags) x)) else None
  | CallRelease l =>
      if at_client (c_pc x) && (Z.of_nat l <? nlock) then Some (upd m c (set_pc (RelHolding l ReadLocked) x)) else None
  | Interrupt =>
      if c_if x && interruptible (c_pc x) then
        Some (upd m c (set_pc Client (set_if false (set_frames (c_pc x :: c_frames x) x))))
      else None
  | Iret =>
      match c_frames x with
      | p :: fs =>
          if at_client (c_pc x) && bool_decide (c_held x = ∅) then
            Some (upd m c (set_pc p (set_if true (set_frames fs x))))
          else None
      | [] => None
      end
  | Sti =>
      if at_client (c_pc x) && bool_decide (c_held x = ∅) then Some (upd m c (set_if true x))
      else None
  | Sched j => if at_client (c_pc x) then sched m c j else None
  | Dispatch j =>
      if at_client (c_pc x) && bool_decide (c_held x = {[ptable]}) then swtch m c j None
      else None
  end.

(** ** Runs *)

Fixpoint run (m : machine) (tr : list (nat * act)) : option machine :=
  match tr with
  | [] => Some m
  | (c, a) :: tr => match step m c a with Some m' => run m' tr | None => None end
  end.

Definition cpu0 : cpu := Cpu Client [] false 0 false ∅.

(** After boot: all locks initialised, every CPU in client code with interrupts
    off, and [n] new threads that wait to be run for the first time. *)
Definition init (n : nat) : machine :=
  Machine (fun _ => initlock) (fun _ => cpu0) (replicate n (Ctx [] None)).

Inductive reachable : machine -> Prop :=
  | reach_init n : reachable (init n)
  | reach_step m c a m' : reachable m -> step m c a = Some m' -> reachable m'.

(** ** The invariant *)

(** The CPU has the lock but the client does not know yet, or not any more. *)
Definition mid (p : pc) : option nat :=
  match p with AcqCpu l | RelCpu l | RelXchg l => Some l | _ => None end.

Definition owns (x : cpu) (l : nat) : Prop := l ∈ c_held x \/ mid (c_pc x) = Some l.

(** Past the check of [holding]: the client does not have this lock. *)
Definition checked (p : pc) : option nat :=
  match p with AcqXchg l => Some l | p => mid p end.

(** [lk->cpu] names this CPU. *)
Definition recorded (x : cpu) (l : nat) : Prop := l ∈ c_held x \/ c_pc x = RelCpu l.

(** Nested [pushcli]s beyond those of the locks in [c_held]. *)
Definition pending (p : pc) : Z :=
  match p with
  | AcqHolding _ _ | AcqXchg _ | AcqCpu _ | RelCpu _ | RelXchg _
  | RelPop TestFlags | RelPop Unnest => 1
  | _ => 0
  end.

(** Places where interrupts may be on. *)
Definition early (p : pc) : bool :=
  match p with
  | Client | AcqPush _ ReadFlags | AcqPush _ (Cli _) | RelHolding _ _ => true
  | _ => false
  end.

Definition panicked (p : pc) : bool := match p with Panicked _ => true | _ => false end.

Definition in_range (p : pc) : Prop :=
  match target p with Some l => Z.of_nat l < nlock | None => True end.

Record cpu_ok (x : cpu) : Prop := {
  ok_ncli : panicked (c_pc x) = false -> c_ncli x = Z.of_nat (size (c_held x)) + pending (c_pc x);
  ok_if : c_if x = true -> early (c_pc x) = true /\ c_held x = ∅;
  ok_frames : Forall (fun p => early p = true /\ in_range p) (c_frames x);
  ok_range : in_range (c_pc x);
  ok_held : forall l, l ∈ c_held x -> Z.of_nat l < nlock;
  ok_mid : forall l, checked (c_pc x) = Some l -> l ∉ c_held x;
}.

Record inv (m : machine) : Prop := {
  inv_cpu : forall c, cpu_ok (m_cpu m c);
  inv_pool : Forall (fun t => Forall (fun p => early p = true /\ in_range p) (x_frames t)) (m_pool m);
  inv_locked : forall l, sl_locked (m_lock m l) <> 0 <-> exists c, owns (m_cpu m c) l;
  inv_one : forall l c c', owns (m_cpu m c) l -> owns (m_cpu m c') l -> c = c';
  inv_rec : forall l c, sl_cpu (m_lock m l) = Some c <-> recorded (m_cpu m c) l;
}.

(** The number of locks held fits an [int] with room to spare. *)
Lemma held_small x : cpu_ok x -> 0 <= Z.of_nat (size (c_held x)) <= nlock.
Proof.
  intros H. split; [lia|].
  assert (c_held x ⊆ set_seq 0 (Z.to_nat nlock)) as Hs.
  { intros l Hl%(ok_held _ H). apply elem_of_set_seq. lia. }
  apply subseteq_size in Hs. rewrite size_set_seq in Hs. unfold nlock in *. lia.
Qed.

Lemma ncli_small x : cpu_ok x -> panicked (c_pc x) = false -> 0 <= c_ncli x <= nlock + 1.
Proof.
  intros H Hp. rewrite (ok_ncli _ H Hp). pose proof (held_small x H).
  assert (0 <= pending (c_pc x) <= 1) by (destruct (c_pc x) as [| | | | | | | |[]|]; simpl; lia).
  lia.
Qed.

(** *** Updates of one CPU *)

Lemma inv_upd m c x :
  inv m -> cpu_ok x ->
  (forall l, owns x l <-> owns (m_cpu m c) l) ->
  (forall l, recorded x l <-> recorded (m_cpu m c) l) ->
  inv (upd m c x).
Proof.
  intros [Hc Hp Hl H1 Hr] Hx Ho Hrec.
  assert (forall c' l, owns (<[c:=x]> (m_cpu m) c') l <-> owns (m_cpu m c') l) as HO.
  { intros c' l. destruct (decide (c = c')) as [<-|]; [rewrite fn_lookup_insert|rewrite fn_lookup_insert_ne]; auto. }
  split; simpl; auto.
  - intros c'. destruct (decide (c = c')) as [<-|]; [rewrite fn_lookup_insert|rewrite fn_lookup_insert_ne]; auto.
  - intros l. rewrite Hl. by setoid_rewrite HO.
  - intros l c1 c2. rewrite !HO. apply H1.
  - intros l c'. rewrite Hr. destruct (decide (c = c')) as [<-|];
      [rewrite fn_lookup_insert|rewrite fn_lookup_insert_ne]; auto. by rewrite Hrec.
Qed.

Lemma inv_upd_lock m c l lk x :
  inv m -> cpu_ok x ->
  (forall l', l' <> l -> owns x l' <-> owns (m_cpu m c) l') ->
  (forall l', l' <> l -> recorded x l' <-> recorded (m_cpu m c) l') ->
  (sl_locked lk <> 0 <-> owns x l \/ exists c', c' <> c /\ owns (m_cpu m c') l) ->
  (owns x l -> forall c', c' <> c -> ~ owns (m_cpu m c') l) ->
  (sl_cpu lk = Some c <-> recorded x l) ->
  (forall c', c' <> c -> sl_cpu lk = Some c' <-> recorded (m_cpu m c') l) ->
  inv (upd_lock m c l (lk, x)).
Proof.
  intros [Hc Hp Hl H1 Hr] Hx Ho Hrec Hlk Hex Hc1 Hc2.
  assert (forall c', c' <> c -> (<[c:=x]> (m_cpu m)) c' = m_cpu m c') as HN
    by (intros; by apply fn_lookup_insert_ne).
  assert ((<[c:=x]> (m_cpu m)) c = x) as HE by apply fn_lookup_insert.
  split; simpl; auto.
  - intros c'. destruct (decide (c' = c)) as [->|]; [by rewrite HE|by rewrite HN].
  - intros l'. destruct (decide (l' = l)) as [->|Hne].
    + rewrite fn_lookup_insert, Hlk. split.
      * intros [?|[c' [? ?]]]; [exists c; by rewrite HE|exists c'; by rewrite HN].
      * intros [c' ?]. destruct (decide (c' = c)) as [->|]; [rewrite HE in *; auto|].
        rewrite HN in * by done. eauto.
    + rewrite fn_lookup_insert_ne, Hl by done. apply exist_proper. intros c'.
      destruct (decide (c' = c)) as [->|]; [rewrite HE; symmetry; auto|by rewrite HN].
  - intros l' c1 c2. destruct (decide (c1 = c)) as [->|], (decide (c2 = c)) as [->|]; auto;
      rewrite ?HE, ?HN by done; destruct (decide (l' = l)) as [->|].
    all: try (rewrite ?Ho by done; apply H1).
    + intros A B. by destruct (Hex A c2).
    + intros A B. by destruct (Hex B c1).
  - intros l' c'. destruct (decide (l' = l)) as [->|]; rewrite ?fn_lookup_insert, ?fn_lookup_insert_ne by done.
    + destruct (decide (c' = c)) as [->|]; [by rewrite HE|rewrite HN; auto].
    + rewrite Hr. destruct (decide (c' = c)) as [->|]; [by rewrite HE, Hrec|by rewrite HN].
Qed.

(** A CPU of the invariant, taken apart. *)
Ltac cpu_inv H :=
  let Hn := fresh "Hn" in let Hi := fresh "Hi" in let Hf := fresh "Hf" in
  let Hg := fresh "Hg" in let Hh := fresh "Hh" in let Hm := fresh "Hm" in
  pose proof H as [Hn Hi Hf Hg Hh Hm]; cbn in Hn, Hi, Hf, Hg, Hh, Hm;
  try specialize (Hn eq_refl).

(** The obligations of [cpu_ok] that follow from the old CPU. *)
Ltac cpu_solve := split; cbn; intros; try done; try tauto; try lia; auto.

Lemma owns_other m c l c' : inv m -> owns (m_cpu m c) l -> c' <> c -> ~ owns (m_cpu m c') l.
Proof. intros I H Hne H'. by apply Hne, (inv_one _ I l). Qed.

(** The lock keeps its word and its owner when CPU [c] neither gains nor loses
    it. *)
Lemma inv_same m c l x :
  inv m -> cpu_ok x ->
  (forall l, owns x l <-> owns (m_cpu m c) l) ->
  (forall l, recorded x l <-> recorded (m_cpu m c) l) ->
  inv (upd_lock m c l (m_lock m l, x)).
Proof.
  intros I Hx Ho Hr. apply inv_upd_lock; auto.
  - rewrite (inv_locked _ I). split.
    + intros [c' H]. destruct (decide (c' = c)) as [->|]; [left; by apply Ho|eauto].
    + intros [H|[c' [_ H]]]; [exists c; by apply Ho|eauto].
  - intros H c'. apply owns_other; auto. by apply Ho.
  - rewrite (inv_rec _ I). symmetry. auto.
  - intros. apply (inv_rec _ I).
Qed.

Lemma pushcli_inv m c l q :
  inv m -> c_pc (m_cpu m c) = AcqPush l q ->
  inv (upd_lock m c l (m_lock m l, pushcli q (AcqPush l) (AcqHolding l ReadLocked) (m_cpu m c))).
Proof.
  intros I E. pose proof (inv_cpu _ I c) as H. pose proof (held_small _ H) as Hs.
  destruct (m_cpu m c) as [p fs f n e h] eqn:Ec. cbn in E. subst p. cpu_inv H.
  unfold nlock in *.
  apply inv_same; auto; rewrite ?Ec; destruct q; cbn; try destruct (n =? 0); unfold owns, recorded; cbn;
    try (intros; intuition congruence); cpu_solve; cbn in Hs; rewrite s32_small; lia.
Qed.

Lemma acquire_check_inv m c l q :
  inv m -> c_pc (m_cpu m c) = AcqHolding l q ->
  inv (upd_lock m c l (acquire c l (AcqHolding l q) (m_lock m l) (m_cpu m c))).
Proof.
  intros I E. pose proof (inv_cpu _ I c) as H. pose proof (inv_rec _ I l c) as HR.
  assert (l ∈ c_held (m_cpu m c) -> sl_locked (m_lock m l) <> 0) as HL.
  { intros Hl. apply (inv_locked _ I). exists c. by left. }
  destruct (m_cpu m c) as [p fs f n e h] eqn:Ec. cbn in E. subst p. cpu_inv H. cbn [acquire].
  unfold recorded in HR. cbn in HL, HR.
  apply inv_same; auto; rewrite ?Ec; destruct q; cbn; try case_match; unfold owns, recorded; cbn;
    try (intros; intuition congruence); cpu_solve.
  - intros Hl. apply HL; [congruence|by apply Z.eqb_eq].
  - intros Hl. apply bool_decide_eq_false in H0. apply H0, HR. left. congruence.
Qed.

Lemma acquire_xchg_inv m c l :
  inv m -> c_pc (m_cpu m c) = AcqXchg l ->
  inv (upd_lock m c l (acquire c l (AcqXchg l) (m_lock m l) (m_cpu m c))).
Proof.
  intros I E. pose proof (inv_cpu _ I c) as H. pose proof (inv_locked _ I l) as HL.
  destruct (m_cpu m c) as [p fs f n e h] eqn:Ec. cbn in E. subst p. cpu_inv H. cbn.
  destruct (Z.eqb_spec (sl_locked (m_lock m l)) 0) as [E0|E0].
  - assert (forall c', ~ owns (m_cpu m c') l) as Hno by (intros c' Ho; apply (proj2 HL); eauto).
    specialize (Hm l eq_refl).
    apply inv_upd_lock; rewrite ?Ec; unfold recorded; cbn; auto.
    + cpu_solve; try (rewrite Hn; lia). naive_solver.
    + intros l' Hne. unfold owns. cbn. naive_solver.
    + naive_solver.
    + split; [left; by right|done].
    + rewrite (inv_rec _ I), Ec. unfold recorded. cbn. naive_solver.
    + intros. by rewrite (inv_rec _ I).
  - apply inv_upd_lock; rewrite ?Ec; auto; try done; cbn.
    + split; [intros _|lia]. destruct (proj1 HL E0) as [c' Hc].
      destruct (decide (c' = c)) as [->|]; [left; by rewrite <- Ec|eauto].
    + intros Ho c'. rewrite <- Ec in Ho. by apply owns_other.
    + rewrite <- Ec. apply (inv_rec _ I).
    + intros. by rewrite (inv_rec _ I).
Qed.

Lemma acquire_cpu_inv m c l :
  inv m -> c_pc (m_cpu m c) = AcqCpu l ->
  inv (upd_lock m c l (acquire c l (AcqCpu l) (m_lock m l) (m_cpu m c))).
Proof.
  intros I E. pose proof (inv_cpu _ I c) as H. pose proof (inv_locked _ I l) as HL.
  assert (owns (m_cpu m c) l) as Ho by (right; by rewrite E).
  pose proof (fun c' => owns_other m c l c' I Ho) as Hot.
  destruct (m_cpu m c) as [p fs f n e h] eqn:Ec. cbn in E. subst p. cpu_inv H. cbn.
  specialize (Hm l eq_refl).
  apply inv_upd_lock; rewrite ?Ec; unfold owns, recorded; cbn; auto.
  - cpu_solve.
    + rewrite size_union, size_singleton by set_solver. rewrite Hn. lia.
    + by destruct (Hi H0).
    + apply elem_of_union in H0 as [->%elem_of_singleton|]; auto.
  - intros l' Hne. set_solver.
  - intros l' Hne. set_solver.
  - rewrite HL. split; [intros _; left; set_solver|]. exists c. by rewrite Ec.
  - set_solver.
  - intros c' Hne. split; [congruence|]. intros Hr. destruct (Hot c' Hne).
    unfold owns. destruct Hr as [?|Hr]; auto. right. by rewrite Hr.
Qed.

(** A call that fails its check, or goes on with it, changes nothing else. *)
Lemma release_goes m c l x :
  inv m -> m_cpu m c = x -> c_pc x = RelHolding l ReadCpu -> l ∈ c_held x ->
  inv (upd_lock m c l (m_lock m l, set_pc (RelCpu l) (set_held (c_held x ∖ {[l]}) x))).
Proof.
  intros I Ec E Hl. pose proof (inv_cpu _ I c) as H. rewrite Ec in H.
  destruct x as [p fs f n e h]. cbn in E, Hl |- *. subst p. cpu_inv H.
  apply inv_same; auto; rewrite ?Ec; unfold owns, recorded; cbn.
  - cpu_solve; [|destruct (Hi H0); set_solver|set_solver|set_solver].
    rewrite size_difference, size_singleton by set_solver.
    assert (size h <> 0%nat) by (apply size_non_empty_iff; set_solver). rewrite Hn. lia.
  - intros l'. destruct (decide (l' = l)) as [->|]; set_solver.
  - intros l'. destruct (decide (l' = l)) as [->|]; set_solver.
Qed.

Lemma release_check_inv m c l q :
  inv m -> c_pc (m_cpu m c) = RelHolding l q ->
  inv (upd_lock m c l (release c l (RelHolding l q) (m_lock m l) (m_cpu m c))).
Proof.
  intros I E. pose proof (inv_cpu _ I c) as H. pose proof (inv_rec _ I l c) as HR.
  cbn [release]. destruct (decide (q = ReadCpu /\ l ∈ c_held (m_cpu m c))) as [[-> Hl]|Hno].
  - cbn [holding]. rewrite bool_decide_eq_true_2 by (apply HR; by left). by apply release_goes.
  - destruct (m_cpu m c) as [p fs f n e h] eqn:Ec. cbn in E, Hno. subst p. cpu_inv H.
    unfold recorded in HR. cbn in HR.
    apply inv_same; auto; rewrite ?Ec; destruct q; cbn; unfold owns, recorded;
      try (case_bool_decide; [destruct (proj1 HR ltac:(done)); naive_solver|]);
      try case_match; cbn; try (intros; intuition congruence); cpu_solve.
Qed.

Lemma release_cpu_inv m c l :
  inv m -> c_pc (m_cpu m c) = RelCpu l ->
  inv (upd_lock m c l (release c l (RelCpu l) (m_lock m l) (m_cpu m c))).
Proof.
  intros I E. pose proof (inv_cpu _ I c) as H. pose proof (inv_locked _ I l) as HL.
  assert (owns (m_cpu m c) l) as Ho by (right; by rewrite E).
  pose proof (fun c' => owns_other m c l c' I Ho) as Hot.
  destruct (m_cpu m c) as [p fs f n e h] eqn:Ec. cbn in E. subst p. cpu_inv H. cbn.
  apply inv_upd_lock; rewrite ?Ec; unfold owns, recorded; cbn; auto.
  - cpu_solve.
  - intros l' Hne. naive_solver.
  - rewrite HL. split; [auto|]. exists c. by rewrite Ec.
  - naive_solver.
  - intros c' Hne. split; [congruence|]. intros Hr. destruct (Hot c' Hne).
    unfold owns. destruct Hr as [?|Hr]; auto. right. by rewrite Hr.
Qed.

Lemma release_xchg_inv m c l :
  inv m -> c_pc (m_cpu m c) = RelXchg l ->
  inv (upd_lock m c l (release c l (RelXchg l) (m_lock m l) (m_cpu m c))).
Proof.
  intros I E. pose proof (inv_cpu _ I c) as H.
  assert (owns (m_cpu m c) l) as Ho by (right; by rewrite E).
  pose proof (fun c' => owns_other m c l c' I Ho) as Hot.
  pose proof (inv_rec _ I l) as HR.
  destruct (m_cpu m c) as [p fs f n e h] eqn:Ec. cbn in E. subst p. cpu_inv H. cbn.
  specialize (Hm l eq_refl).
  apply inv_upd_lock; rewrite ?Ec; unfold owns, recorded; cbn; auto.
  - cpu_solve.
  - intros l' Hne. naive_solver.
  - naive_solver.
  - split; [done|]. intros [?|[c' [Hne ?]]]; [naive_solver|by destruct (Hot c')].
  - rewrite HR, Ec. unfold recorded. cbn. naive_solver.
Qed.

Lemma popcli_inv m c q :
  inv m -> c_pc (m_cpu m c) = RelPop q -> inv (upd m c (popcli q Client (m_cpu m c))).
Proof.
  intros I E. pose proof (inv_cpu _ I c) as H. pose proof (held_small _ H) as Hs.
  destruct (m_cpu m c) as [p fs f n e h] eqn:Ec. cbn in E. subst p. cpu_inv H.
  unfold nlock in *. destruct f; [by destruct (Hi eq_refl)|].
  apply inv_upd; auto; rewrite ?Ec; destruct q; cbn; unfold owns, recorded;
    try case_match; cbn; try (intros; intuition congruence); cpu_solve.
  all: cbn in Hs; try (rewrite s32_small; lia).
  split; [done|]. apply leibniz_equiv, size_empty_iff.
  apply andb_true_iff in H0 as [?%Z.eqb_eq _]. cbn in *. lia.
Qed.

Lemma exec_inv m c m' : inv m -> exec m c = Some m' -> inv m'.
Proof.
  intros I E. unfold exec in E. destruct (c_pc (m_cpu m c)) eqn:Ep; try done; injection E as <-.
  - by apply pushcli_inv.
  - by apply acquire_check_inv.
  - by apply acquire_xchg_inv.
  - by apply acquire_cpu_inv.
  - by apply release_check_inv.
  - by apply release_cpu_inv.
  - by apply release_xchg_inv.
  - by apply popcli_inv.
Qed.

(** What is true of all places where interrupts may be on. *)
Lemma early_facts p :
  early p = true -> checked p = None /\ pending p = 0 /\ panicked p = false.
Proof. by destruct p as [|l []| | | | | | | |]. Qed.

Lemma checked_mid p : checked p = None -> mid p = None.
Proof. by destruct p. Qed.

(** A step of a client or an interrupt, which leaves the locks alone. *)
Lemma client_inv m c x :
  inv m -> early (c_pc (m_cpu m c)) = true -> c_held x = c_held (m_cpu m c) ->
  early (c_pc x) = true /\ c_ncli x = c_ncli (m_cpu m c) \/ (exists msg, c_pc x = Panicked msg) ->
  (c_if x = true -> early (c_pc x) = true /\ c_held x = ∅) ->
  Forall (fun p => early p = true /\ in_range p) (c_frames x) -> in_range (c_pc x) ->
  inv (upd m c x).
Proof.
  intros I Ep Eh En Ei Ef Er. pose proof (inv_cpu _ I c) as [Hn _ _ _ Hh _].
  destruct (early_facts _ Ep) as (Em & Epe & Epa). specialize (Hn Epa).
  assert (checked (c_pc x) = None /\ (forall l, c_pc x <> RelCpu l)) as [Em' Hrc].
  { destruct En as [[(?&?&?)%early_facts _]|[msg ->]]; [split; [done|]|done].
    intros l F. by rewrite F in *. }
  assert (forall l, c_pc (m_cpu m c) <> RelCpu l) by (intros l F; by rewrite F in Em).
  apply inv_upd; auto.
  - split; auto; rewrite Eh; auto; [|congruence]. intros Hp.
    destruct En as [[(?&?&?)%early_facts ?]|[msg F]]; [lia|by rewrite F in Hp].
  - intros l. unfold owns. rewrite Eh. pose proof (checked_mid _ Em). pose proof (checked_mid _ Em').
    intuition congruence.
  - intros l. unfold recorded. rewrite Eh. naive_solver.
Qed.

Lemma swtch_inv m c j sv m' :
  inv m -> c_pc (m_cpu m c) = Client -> swtch m c j sv = Some m' -> inv m'.
Proof.
  unfold swtch. intros I Ep E. destruct (m_pool m !! j) as [t|] eqn:Et; [injection E as <-|done].
  pose proof (inv_pool _ I) as Hp. rewrite Forall_forall in Hp.
  pose proof (Hp t (list_elem_of_lookup_2 _ _ _ Et)) as Ht.
  pose proof (inv_cpu _ I c) as [? Hi Hf ? ? ?].
  assert (inv (upd m c (set_intena (default (c_intena (m_cpu m c)) (x_intena t))
                          (set_frames (x_frames t) (m_cpu m c))))) as [I1 _ I3 I4 I5].
  { apply client_inv; cbn; auto. all: rewrite Ep; cbn; auto. }
  split; auto. cbn. apply Forall_insert; [by rewrite Forall_forall|done].
Qed.

Lemma call_inv m c p :
  inv m -> c_pc (m_cpu m c) = Client -> early p = true -> in_range p ->
  inv (upd m c (set_pc p (m_cpu m c))).
Proof.
  intros I Ep He Hr. pose proof (inv_cpu _ I c) as [_ Hi Hf _ _ _].
  apply client_inv; cbn; auto; [by rewrite Ep|]. intros Hif. by destruct (Hi Hif).
Qed.

Lemma panic_inv m c msg :
  inv m -> c_pc (m_cpu m c) = Client -> inv (upd m c (panic msg (m_cpu m c))).
Proof.
  intros I Ep. pose proof (inv_cpu _ I c) as [_ Hi Hf _ _ _].
  apply client_inv; cbn; eauto; try done. by rewrite Ep.
Qed.

Lemma interrupt_inv m c :
  inv m -> c_if (m_cpu m c) = true ->
  inv (upd m c (set_pc Client (set_if false (set_frames (c_pc (m_cpu m c) :: c_frames (m_cpu m c))
                                               (m_cpu m c))))).
Proof.
  intros I Hif. pose proof (inv_cpu _ I c) as [_ Hi Hf Hr _ _]. destruct (Hi Hif).
  apply client_inv; cbn; auto.
Qed.

Lemma iret_inv m c p fs :
  inv m -> c_pc (m_cpu m c) = Client -> c_held (m_cpu m c) = ∅ -> c_frames (m_cpu m c) = p :: fs ->
  inv (upd m c (set_pc p (set_if true (set_frames fs (m_cpu m c))))).
Proof.
  intros I Ep Hh Ef. pose proof (inv_cpu _ I c) as [_ Hi Hf _ _ _].
  rewrite Ef in Hf. apply Forall_cons in Hf as [[? ?] ?].
  apply client_inv; cbn; auto; by rewrite Ep.
Qed.

Lemma at_client_eq p : at_client p = true -> p = Client.
Proof. by destruct p. Qed.

Lemma step_inv m c a m' : inv m -> step m c a = Some m' -> inv m'.
Proof.
  intros I E. destruct a; unfold step in E; [by eapply exec_inv|..].
  - case_match eqn:Ha; [injection E as <-|done]. apply andb_true_iff in Ha as [?%at_client_eq ?].
    apply call_inv; auto. by apply Z.ltb_lt.
  - case_match eqn:Ha; [injection E as <-|done]. apply andb_true_iff in Ha as [?%at_client_eq ?].
    apply call_inv; auto. by apply Z.ltb_lt.
  - case_match eqn:Ha; [injection E as <-|done]. apply andb_true_iff in Ha as [? _].
    by apply interrupt_inv.
  - destruct (c_frames (m_cpu m c)) eqn:Ef; [done|]. case_match eqn:Ha; [injection E as <-|done].
    apply andb_true_iff in Ha as [?%at_client_eq ?%bool_decide_eq_true]. by apply iret_inv.
  - case_match eqn:Ha; [injection E as <-|done].
    apply andb_true_iff in Ha as [Ep%at_client_eq ?%bool_decide_eq_true].
    pose proof (inv_cpu _ I c) as [_ ? ? _ _ _]. apply client_inv; cbn; rewrite ?Ep; auto. done.
  - case_match eqn:Ha; [apply at_client_eq in Ha|done].
    unfold sched in E. repeat (case_match; [injection E as <-; by apply panic_inv|]).
    by eapply swtch_inv.
  - case_match eqn:Ha; [|done]. apply andb_true_iff in Ha as [?%at_client_eq _].
    by eapply swtch_inv.
Qed.

Lemma init_inv n : inv (init n).
Proof.
  split; cbn.
  - intros c. cpu_solve; by constructor.
  - apply Forall_replicate. by constructor.
  - intros l. split; [done|]. intros [c [?|?]]; [set_solver|done].
  - intros l c c' [?|?]; [set_solver|done].
  - intros l c. split; [done|]. intros [?|?]; [set_solver|done].
Qed.

Lemma reachable_inv m : reachable m -> inv m.
Proof. induction 1; [apply init_inv|by eapply step_inv]. Qed.

(** ** Breaking the protocol *)

(** The calls that panic: acquiring a lock the CPU has, releasing one it does not
    have, and switching threads without [ptable.lock] or with another lock. *)
Inductive misuse (x : cpu) : act -> string -> Prop :=
  | acquire_twice l :
      c_pc x = AcqHolding l ReadCpu -> l ∈ c_held x -> misuse x Exec "acquire"
  | release_free l q :
      c_pc x = RelHolding l q -> l ∉ c_held x -> misuse x Exec "release"
  | sched_unlocked j : ptable ∉ c_held x -> misuse x (Sched j) "sched ptable.lock"
  | sched_nested j : c_held x <> {[ptable]} -> misuse x (Sched j) "sched locks".

(** The record in the lock is the CPU's own view, outside [release]. *)
Lemma cpu_field m c l :
  inv m -> (forall l, c_pc (m_cpu m c) <> RelCpu l) ->
  sl_cpu (m_lock m l) = Some c <-> l ∈ c_held (m_cpu m c).
Proof. intros I Hp. rewrite (inv_rec _ I). unfold recorded. naive_solver. Qed.

Lemma held_locked m c l : inv m -> l ∈ c_held (m_cpu m c) -> sl_locked (m_lock m l) <> 0.
Proof. intros I H. apply (inv_locked _ I). exists c. by left. Qed.

Lemma acquire_panics m c l q msg :
  inv m -> c_pc (m_cpu m c) = AcqHolding l q ->
  c_pc (acquire c l (AcqHolding l q) (m_lock m l) (m_cpu m c)).2 = Panicked msg ->
  misuse (m_cpu m c) Exec msg.
Proof.
  intros I Ep. pose proof (cpu_field m c l I ltac:(by rewrite Ep)) as HR.
  destruct q; cbn; [by case_match|]. case_bool_decide as Hb; [|done].
  intros [= <-]. eapply acquire_twice; [done|by apply HR].
Qed.

Lemma release_panics m c l q msg :
  inv m -> c_pc (m_cpu m c) = RelHolding l q ->
  c_pc (release c l (RelHolding l q) (m_lock m l) (m_cpu m c)).2 = Panicked msg ->
  misuse (m_cpu m c) Exec msg.
Proof.
  intros I Ep. pose proof (cpu_field m c l I ltac:(by rewrite Ep)) as HR.
  pose proof (held_locked m c l I) as HL.
  destruct q; cbn.
  - case_match eqn:E0; [|done]. intros [= <-]. eapply release_free; [done|].
    intros Hl. by apply HL; [|apply Z.eqb_eq].
  - case_bool_decide as Hb; [done|]. intros [= <-]. eapply release_free; [done|]. by rewrite <- HR.
Qed.

Lemma popcli_panics m c q msg :
  inv m -> c_pc (m_cpu m c) = RelPop q ->
  c_pc (popcli q Client (m_cpu m c)) <> Panicked msg.
Proof.
  intros I Ep. pose proof (inv_cpu _ I c) as H. pose proof (ncli_small _ H) as Hs.
  pose proof (ok_ncli _ H) as Hn. pose proof (ok_if _ H) as Hi. rewrite Ep in Hi, Hs, Hn.
  specialize (Hn eq_refl). specialize (Hs eq_refl). unfold nlock in Hs.
  destruct q; cbn in *; [|case_match eqn:E; [|done]|done].
  - destruct (c_if (m_cpu m c)); [by destruct (Hi eq_refl)|done].
  - rewrite s32_small in E; lia.
Qed.

Lemma sched_panics m c j m' msg :
  inv m -> c_pc (m_cpu m c) = Client -> sched m c j = Some m' ->
  c_pc (m_cpu m' c) = Panicked msg -> misuse (m_cpu m c) (Sched j) msg.
Proof.
  intros I Ep E Hm. pose proof (inv_cpu _ I c) as H.
  pose proof (cpu_field m c ptable I ltac:(by rewrite Ep)) as HR.
  pose proof (held_locked m c ptable I) as HL.
  pose proof (ok_ncli _ H) as Hn. pose proof (ok_if _ H) as Hi. rewrite Ep in Hi, Hn.
  specialize (Hn eq_refl). unfold sched in E.
  destruct (decide (ptable ∈ c_held (m_cpu m c))) as [Hin|Hout]; [|
    rewrite bool_decide_eq_false_2, andb_false_r in E by (by rewrite HR);
    injection E as <-; cbn in Hm; rewrite fn_lookup_insert in Hm; injection Hm as <-;
    by apply sched_unlocked].
  rewrite bool_decide_eq_true_2, andb_true_r, negb_involutive in E by (by apply HR).
  destruct (Z.eqb_spec (sl_locked (m_lock m ptable)) 0) as [E0|_]; [by destruct HL|].
  destruct (Z.eqb_spec (c_ncli (m_cpu m c)) 1) as [E1|E1]; cbn in E.
  - destruct (c_if (m_cpu m c)); [destruct (Hi eq_refl); set_solver|].
    unfold swtch in E. case_match; [|done]. injection E as <-. cbn in Hm.
    rewrite fn_lookup_insert in Hm. cbn in Hm. congruence.
  - injection E as <-. cbn in Hm. rewrite fn_lookup_insert in Hm. injection Hm as <-.
    apply sched_nested. intros Hh. apply E1. rewrite Hn, Hh, size_singleton. done.
Qed.

Lemma exec_panics m c m' msg :
  inv m -> exec m c = Some m' -> c_pc (m_cpu m' c) = Panicked msg ->
  misuse (m_cpu m c) Exec msg.
Proof.
  intros I E Hm. unfold exec in E.
  destruct (c_pc (m_cpu m c)) eqn:Ep; try done; injection E as <-; cbn in Hm;
    rewrite fn_lookup_insert in Hm.
  - by destruct p.
  - by eapply acquire_panics.
  - cbn in Hm. case_match; cbn in Hm; congruence.
  - done.
  - by eapply release_panics.
  - done.
  - done.
  - by apply popcli_panics in Hm.
Qed.

(** ** Progress *)

(** The accesses the routine still makes when no other CPU has its lock; a panic is further
    from the return than anything else. *)
Definition left (p : pc) : nat :=
  match p with
  | AcqPush _ ReadFlags => 7 | AcqPush _ (Cli _) => 6 | AcqPush _ (Nest _) => 5
  | AcqHolding _ ReadLocked => 4 | AcqHolding _ ReadCpu => 3 | AcqXchg _ => 2 | AcqCpu _ => 1
  | RelHolding _ ReadLocked => 7 | RelHolding _ ReadCpu => 6 | RelCpu _ => 5 | RelXchg _ => 4
  | RelPop TestFlags => 3 | RelPop Unnest => 2 | RelPop Restore => 1
  | Client => 0
  | Panicked _ => 8
  end.

(** The call keeps to the protocol: the lock to acquire is not one of the CPU's own, and the
    lock to release is. *)
Definition proper (x : cpu) : Prop :=
  match c_pc x with
  | AcqPush l _ | AcqHolding l _ => l ∉ c_held x
  | RelHolding l _ => l ∈ c_held x
  | Panicked _ => False
  | _ => True
  end.

(** The locks of the client after its call. *)
Definition held_after (x : cpu) : gset nat :=
  match c_pc x with
  | AcqPush l _ | AcqHolding l _ | AcqXchg l | AcqCpu l => {[l]} ∪ c_held x
  | RelHolding l _ => c_held x ∖ {[l]}
  | _ => c_held x
  end.

(** Another CPU has the lock that this CPU is about to take. *)
Definition waits (m : machine) (c : nat) : Prop :=
  exists l c', c_pc (m_cpu m c) = AcqXchg l /\ c' <> c /\ owns (m_cpu m c') l.

(** From [x] to [x'] the call has come nearer to its return, and will still do what it is
    meant to do. *)
Definition nearer (x x' : cpu) : Prop :=
  (left (c_pc x') < left (c_pc x))%nat /\ proper x' /\ held_after x' = held_after x /\
  (target (c_pc x') = target (c_pc x) \/ target (c_pc x') = None).

Lemma acquire_nearer m c l q :
  inv m -> c_pc (m_cpu m c) = AcqHolding l q -> l ∉ c_held (m_cpu m c) ->
  nearer (m_cpu m c) (acquire c l (AcqHolding l q) (m_lock m l) (m_cpu m c)).2.
Proof.
  intros I Ep Hl. unfold nearer, proper, held_after. rewrite Ep. destruct q; cbn; [by case_match; cbn; auto with lia|].
  rewrite bool_decide_eq_false_2; [cbn; auto with lia|]. by rewrite cpu_field by (done || by rewrite Ep).
Qed.

Lemma release_nearer m c l q :
  inv m -> c_pc (m_cpu m c) = RelHolding l q -> l ∈ c_held (m_cpu m c) ->
  nearer (m_cpu m c) (release c l (RelHolding l q) (m_lock m l) (m_cpu m c)).2.
Proof.
  intros I Ep Hl. unfold nearer, proper, held_after. rewrite Ep. destruct q; cbn.
  - rewrite (proj2 (Z.eqb_neq _ _) (held_locked m c l I Hl)). cbn. auto with lia.
  - rewrite bool_decide_eq_true_2; [cbn; auto with lia|]. by apply cpu_field; [|rewrite Ep|].
Qed.

Lemma popcli_nearer m c q :
  inv m -> c_pc (m_cpu m c) = RelPop q -> nearer (m_cpu m c) (popcli q Client (m_cpu m c)).
Proof.
  intros I Ep. pose proof (fun msg => popcli_panics m c q msg I Ep) as Hp.
  unfold nearer, proper, held_after in *. rewrite Ep. destruct q; cbn in *;
    case_match; cbn in *; try (by destruct (Hp _ eq_refl)); auto with lia.
Qed.

Lemma exec_nearer m c :
  inv m -> c_pc (m_cpu m c) <> Client -> proper (m_cpu m c) ->
  exists m', exec m c = Some m' /\ (forall c', c' <> c -> m_cpu m' c' = m_cpu m c') /\
    (nearer (m_cpu m c) (m_cpu m' c) \/ waits m c /\ m_cpu m' c = m_cpu m c).
Proof.
  intros I Hc Hp. unfold exec. unfold proper in Hp.
  destruct (c_pc (m_cpu m c)) as [|l q|l q|l|l|l q|l|l|q|msg] eqn:Ep; try done; eexists; (split; [reflexivity|]);
    (split; [intros c' Hne; cbn; by rewrite fn_lookup_insert_ne|]); cbn [upd upd_lock m_cpu]; rewrite fn_lookup_insert.
  - left. unfold nearer, proper, held_after. rewrite Ep. destruct q; cbn; try case_match; cbn; auto with lia.
  - left. by apply acquire_nearer.
  - cbn. case_match eqn:E0; [left; unfold nearer, proper, held_after; rewrite Ep; cbn; auto with lia|]. right. split; [|done].
    destruct (proj1 (inv_locked _ I l)) as [c' Ho]; [by apply Z.eqb_neq|]. exists l, c'. split_and!; try done.
    intros ->. destruct Ho as [Ho|Ho]; [|by rewrite Ep in Ho]. by eapply (ok_mid _ (inv_cpu _ I c)); [rewrite Ep|].
  - left. unfold nearer, proper, held_after. rewrite Ep. cbn. auto with lia.
  - left. by apply release_nearer.
  - left. unfold nearer, proper, held_after. rewrite Ep. cbn. auto with lia.
  - left. unfold nearer, proper, held_after. rewrite Ep. cbn. auto with lia.
  - left. by apply popcli_nearer.
Qed.

(** No other CPU has the lock of the call. *)
Definition uncontended (m : machine) (c : nat) : Prop :=
  forall l c', target (c_pc (m_cpu m c)) = Some l -> c' <> c -> ~ owns (m_cpu m c') l.

Lemma uncontended_waits m c : uncontended m c -> ~ waits m c.
Proof. intros Hu (l & c' & Ep & Hne & Ho). eapply Hu; [by rewrite Ep|done|done]. Qed.

Lemma exec_returns n : forall m c,
  inv m -> proper (m_cpu m c) -> uncontended m c -> (left (c_pc (m_cpu m c)) <= n)%nat ->
  exists k m', (k <= n)%nat /\ run m (replicate k (c, Exec)) = Some m' /\
    c_pc (m_cpu m' c) = Client /\ c_held (m_cpu m' c) = held_after (m_cpu m c) /\
    forall c', c' <> c -> m_cpu m' c' = m_cpu m c'.
Proof.
  induction n as [|n IH]; intros m c I Hp Hu Hl.
  - exists 0%nat, m. unfold held_after. destruct (c_pc (m_cpu m c)) as [|? []|? []| | |? []| | |[]|] eqn:Ep; cbn in Hl; try lia.
    cbn. auto with lia.
  - destruct (at_client (c_pc (m_cpu m c))) eqn:Hat.
    { apply at_client_eq in Hat as Ep. exists 0%nat, m. unfold held_after. rewrite Ep. auto with lia. }
    assert (Hc : c_pc (m_cpu m c) <> Client) by (intros Hc; by rewrite Hc in Hat).
    destruct (exec_nearer m c I Hc Hp) as (m1 & E & Ho & [(Hlt & Hp1 & Hh & Ht)|[Hw _]]); [|by destruct (uncontended_waits m c Hu)].
    destruct (IH m1 c) as (k & m' & Hk & Er & Hd & Hh' & Ho'); [by eapply exec_inv|done| |lia|].
    { intros l c' Hl' Hne. rewrite (Ho c' Hne). destruct Ht as [Ht|Ht]; [|congruence]. apply Hu; [congruence|done]. }
    exists (S k), m'. split_and!; [lia|by cbn; rewrite E|done|congruence|]. intros c' Hne. by rewrite Ho', Ho.
Qed.

Lemma run_app m tr1 tr2 :
  run m (tr1 ++ tr2) = match run m tr1 with Some m' => run m' tr2 | None => None end.
Proof. revert m. induction tr1 as [|[c a] tr1 IH]; intros m; cbn; [done|]. by case_match. Qed.

Lemma run_reachable m tr m' : reachable m -> run m tr = Some m' -> reachable m'.
Proof.
  revert m. induction tr as [|[c a] tr IH]; cbn; intros m Hr E; [congruence|].
  case_match eqn:Es; [|done]. eapply IH; [|done]. by eapply reach_step.
Qed.

#[local] Arguments insert : simpl never.

(** A call of [release] on CPU [c] that nobody delays. *)
Definition release_trace (c l : nat) : list (nat * act) :=
  (c, CallRelease l) :: replicate 7 (c, Exec).

(** Evaluates the next access. *)
Ltac exec1 :=
  unfold exec at 1;
  repeat first [rewrite fn_lookup_insert |progress
  cbn [upd upd_lock m_cpu m_lock c_pc set_pc set_held set_if set_ncli release acquire holding popcli fst snd xchg
       c_held c_if c_ncli c_intena c_frames sl_locked sl_cpu]].

Lemma release_run m c l :
  inv m -> c_pc (m_cpu m c) = Client -> l ∈ c_held (m_cpu m c) ->
  exists m', run m (release_trace c l) = Some m' /\
    sl_locked (m_lock m' l) = 0 /\ c_pc (m_cpu m' c) = Client /\
    c_held (m_cpu m' c) = c_held (m_cpu m c) ∖ {[l]} /\
    (forall c', c' <> c -> m_cpu m' c' = m_cpu m c').
Proof.
  intros I Ep Hl. pose proof (inv_cpu _ I c) as H. pose proof (held_small _ H) as Hs.
  pose proof (held_locked m c l I Hl) as HL. pose proof (ok_held _ H l Hl) as Hr.
  pose proof (proj2 (cpu_field m c l I ltac:(by rewrite Ep)) Hl) as Hc.
  assert (size (c_held (m_cpu m c)) <> 0%nat) by (apply size_non_empty_iff; set_solver).
  destruct (m_cpu m c) as [p fs f n e h] eqn:Ec. cbn in *. subst p. cpu_inv H.
  destruct f; [destruct (Hi eq_refl); set_solver|].
  rewrite Ec. cbn. rewrite (proj2 (Z.ltb_lt _ _) Hr). cbn.
  exec1. rewrite (proj2 (Z.eqb_neq _ _) HL).
  exec1. rewrite (bool_decide_eq_true_2 _ Hc).
  do 4 exec1. unfold nlock in *.
  rewrite s32_small by lia. rewrite (proj2 (Z.ltb_ge _ _)) by lia. exec1.
  eexists. split; [done|]. cbn. rewrite !fn_lookup_insert. split_and!; cbn; [done..| |].
  - by case_match.
  - intros c' Hne. by rewrite !fn_lookup_insert_ne.
Qed.

(** ** What the locks promise *)

(** C32. At any moment at most one CPU has a lock: when CPU [c] has acquired [l] and not
    begun to release it, no other CPU has.  While it has the lock, interrupts are off
    on [c], the word in memory is nonzero, its client code runs with [ncli] equal to
    the number of its locks, and it does not wait for a lock it already has. *)
Theorem mutual_exclusion m c l :
  reachable m -> l ∈ c_held (m_cpu m c) ->
  (forall c', l ∈ c_held (m_cpu m c') -> c' = c) /\
  c_if (m_cpu m c) = false /\
  sl_locked (m_lock m l) <> 0 /\
  (c_pc (m_cpu m c) = Client -> c_ncli (m_cpu m c) = Z.of_nat (size (c_held (m_cpu m c)))) /\
  c_pc (m_cpu m c) <> AcqXchg l.
Proof.
  intros I%reachable_inv Hl. pose proof (inv_cpu _ I c) as H. split_and!.
  - intros c' Hc. apply (inv_one _ I l); by left.
  - destruct (c_if (m_cpu m c)) eqn:E; [|done]. destruct (ok_if _ H E). set_solver.
  - by eapply held_locked.
  - intros Ep. rewrite (ok_ncli _ H); rewrite Ep; cbn; [lia|done].
  - intros Ep. by apply (ok_mid _ H l); [rewrite Ep|].
Qed.

(** The panics of the lock routines are exactly misuse: whenever a step panics, the
    CPU was acquiring a lock it has, releasing one it does not have, or switching
    threads without [ptable.lock] or with a further lock.  In particular [popcli]
    never panics, whatever the other CPUs and the interrupts do. *)
Theorem lock_panics m c a m' msg :
  reachable m -> step m c a = Some m' ->
  (forall s, c_pc (m_cpu m c) <> Panicked s) -> c_pc (m_cpu m' c) = Panicked msg ->
  misuse (m_cpu m c) a msg.
Proof.
  intros I%reachable_inv E Hp Hm. destruct a; unfold step in E; [by eapply exec_panics|..].
  6: case_match eqn:Ha; [|done]; apply at_client_eq in Ha; by eapply sched_panics.
  6: { case_match eqn:Ha; [|done]. unfold swtch in E. case_match; [|done]. injection E as <-.
       cbn in Hm. rewrite fn_lookup_insert in Hm. by destruct (Hp msg). }
  all: repeat case_match; try done; injection E as <-; cbn in Hm; rewrite fn_lookup_insert in Hm;
    cbn in Hm; try done; try by destruct (Hp msg).
  pose proof (ok_frames _ (inv_cpu _ I c)) as Hf. subst p. rewrite H in Hf.
  by apply Forall_cons in Hf as [[? ?] ?].
Qed.

(** C35. The lock routines terminate.  Inside a call of [acquire] for a lock the CPU does not
    have, or of [release] for one it has, the CPU can always make its next access.  The access
    does not panic and brings it nearer to its return, whatever the other CPUs have done in the
    meantime, unless it is at the exchange of [acquire] and another CPU has the lock: then it
    stays where it is.  When no other CPU has the lock, at most seven accesses bring it back to
    its client, with the lock acquired, or given back, and the other CPUs as they were. *)
Theorem lock_progress m c :
  reachable m -> c_pc (m_cpu m c) <> Client -> proper (m_cpu m c) ->
  (exists m', step m c Exec = Some m' /\
    (nearer (m_cpu m c) (m_cpu m' c) \/ waits m c /\ m_cpu m' c = m_cpu m c)) /\
  (uncontended m c ->
   exists n m', (n <= 7)%nat /\ run m (replicate n (c, Exec)) = Some m' /\
     c_pc (m_cpu m' c) = Client /\ c_held (m_cpu m' c) = held_after (m_cpu m c) /\
     forall c', c' <> c -> m_cpu m' c' = m_cpu m c').
Proof.
  intros I%reachable_inv Hc Hp. split.
  - destruct (exec_nearer m c I Hc Hp) as (m' & E & _ & H). by exists m'.
  - intros Hu. apply exec_returns; auto. unfold proper in Hp.
    destruct (c_pc (m_cpu m c)) as [|? []|? []| | |? []| | |[]|]; cbn; (lia || done).
Qed.

(** A waiting CPU gets the lock: when [c] has [l] and [c'] spins for it, the eight steps
    of a release by [c] and two accesses by [c'] leave the lock with [c'] and [c] in its
    client code without it. *)
Theorem lock_handoff m c c' l :
  reachable m -> c_pc (m_cpu m c) = Client -> l ∈ c_held (m_cpu m c) ->
  c_pc (m_cpu m c') = AcqXchg l ->
  exists m', run m (release_trace c l ++ [(c', Exec); (c', Exec)]) = Some m' /\
    l ∈ c_held (m_cpu m' c') /\ c_pc (m_cpu m' c') = Client /\
    l ∉ c_held (m_cpu m' c) /\ c_pc (m_cpu m' c) = Client.
Proof.
  intros I%reachable_inv Ep Hl Ec. destruct (release_run m c l I Ep Hl) as (m1 & E & H0 & Hp & Hh & Ho).
  assert (c' <> c) as Hne by congruence.
  rewrite run_app, E. cbn [run step]. unfold exec at 1. rewrite (Ho c' Hne), Ec. cbn [acquire xchg].
  rewrite H0. cbn. exec1. eexists. split; [done|]. cbn.
  rewrite fn_lookup_insert, !(fn_lookup_insert_ne _ c' c) by done. cbn. rewrite Hh, Hp.
  set_solver.
Qed.

(** ** Examples *)

(** CPU 0 acquires lock 3, and CPU 1 waits for it. *)
Definition ex_trace : list (nat * act) :=
  (0%nat, CallAcquire 3) :: replicate 6 (0%nat, Exec) ++
  (1%nat, CallAcquire 3) :: replicate 5 (1%nat, Exec).

Definition after (tr : list (nat * act)) : machine := default (init 2) (run (init 2) tr).

Lemma after_reachable tr : reachable (after tr).
Proof.
  unfold after. destruct (run (init 2) tr) eqn:E; [|apply reach_init].
  by eapply run_reachable; [apply reach_init|].
Qed.

Lemma mutual_exclusion_witness :
  3%nat ∈ c_held (m_cpu (after ex_trace) 0) /\
  forall c', 3%nat ∈ c_held (m_cpu (after ex_trace) c') -> c' = 0%nat.
Proof.
  assert (3%nat ∈ c_held (m_cpu (after ex_trace) 0)) as H
    by (apply (bool_decide_unpack _); vm_compute; exact I).
  split; [exact H|]. apply (mutual_exclusion (after ex_trace) 0 3 (after_reachable _) H).
Defined.

(** CPU 1 waits for the lock; CPU 0 begins to release it, and returns without it. *)
Definition ex_release : list (nat * act) := ex_trace ++ [(0%nat, CallRelease 3)].

Lemma lock_progress_witness :
  (exists m', step (after ex_trace) 1 Exec = Some m' /\
    (nearer (m_cpu (after ex_trace) 1) (m_cpu m' 1) \/ waits (after ex_trace) 1 /\ m_cpu m' 1 = m_cpu (after ex_trace) 1)) /\
  exists n m', (n <= 7)%nat /\ run (after ex_release) (replicate n (0%nat, Exec)) = Some m' /\
    c_pc (m_cpu m' 0) = Client /\ c_held (m_cpu m' 0) = held_after (m_cpu (after ex_release) 0) /\
    forall c', c' <> 0%nat -> m_cpu m' c' = m_cpu (after ex_release) c'.
Proof.
  assert (E1 : c_pc (m_cpu (after ex_trace) 1) = AcqXchg 3) by (vm_compute; reflexivity).
  assert (E0 : c_pc (m_cpu (after ex_release) 0) = RelHolding 3 ReadLocked) by (vm_compute; reflexivity).
  assert (Hl : 3%nat ∈ c_held (m_cpu (after ex_release) 0)) by (apply (bool_decide_unpack _); vm_compute; exact I).
  split.
  - refine (proj1 (lock_progress (after ex_trace) 1 (after_reachable _) _ _)); unfold proper; rewrite E1; [discriminate|exact I].
  - refine (proj2 (lock_progress (after ex_release) 0 (after_reachable _) _ _) _); unfold proper, uncontended; rewrite E0.
    + discriminate.
    + exact Hl.
    + intros l c' Ht Hne Ho. injection Ht as <-.
      exact (Hne (inv_one _ (reachable_inv _ (after_reachable ex_release)) 3%nat c' 0%nat Ho (or_introl Hl))).
Defined.

(** ** The call stack *)

Module Callers.

(** The test that ends the walk. *)
Definition frame_end (ebp : Z) : bool := (ebp =? 0) || (ebp <? KERNBASE) || (ebp =? 0xffffffff).

(** Both loops, with [n] words to go. *)
Fixpoint pcs_loop (m : mem) (ebp : Z) (n : nat) : list Z :=
  match n with
  | O => []
  | S n' => if frame_end ebp then replicate n 0 else rd32 m (u32 (ebp + 4)) :: pcs_loop m (rd32 m ebp) n'
  end.

Definition getcallerpcs (m : mem) (v : Z) : list Z := pcs_loop m (u32 (v - 8)) 10.

(** The stack frames in memory from a frame pointer on, with their return addresses. *)
Inductive frames (m : mem) : Z -> list Z -> Prop :=
  | frames_end ebp : frame_end ebp = true -> frames m ebp []
  | frames_more ebp pcs : frame_end ebp = false -> frames m (rd32 m ebp) pcs -> frames m ebp (rd32 m (u32 (ebp + 4)) :: pcs).

Lemma pcs_loop_frames m ebp pcs : frames m ebp pcs -> forall n, pcs_loop m ebp n = take n (pcs ++ replicate n 0).
Proof.
  induction 1 as [ebp E|ebp pcs E F IH]; intros [|n]; cbn [pcs_loop app]; rewrite ?E; try done.
  - by rewrite take_ge by (rewrite length_replicate; lia).
  - cbn [take]. f_equal. rewrite IH. rewrite !take_app, !take_replicate. do 2 f_equal. lia.
Qed.

(** However deep the stack, ten words: the innermost return addresses, then zeros. *)
Theorem getcallerpcs_frames m v pcs : frames m (u32 (v - 8)) pcs ->
  getcallerpcs m v = take 10 pcs ++ replicate (10 - length pcs) 0 /\ length (getcallerpcs m v) = 10%nat.
Proof.
  intros F. unfold getcallerpcs. rewrite (pcs_loop_frames m _ _ F), take_app, take_replicate, Nat.min_l by lia. split; [done|].
  rewrite length_app, length_take, length_replicate. lia.
Qed.

End Callers.
