(* ===== verification/Cow.v ===== *)
(** * Copy-on-write: the shared-memory routines of proc.c

    [isshared] looks for a process that shares the faulting address with the
    current one, [copypage] gives the current process its own copy,
    [copystackpage] builds a child's address space, and
    [unlinkzombiesharedmemory] takes shared memory out of a zombie before it
    is freed. *)

From S2P Require Import Prelude Layout Mem Kalloc Vm State.

Open Scope Z_scope.

Section Cow.
Context `{KernelImage}.

(** [for(p = ptable.proc; p < &ptable.proc[NPROC] && p->pid != 0; p++)], from
    slot [i] with [n] slots to go; [me] is the current process. *)
Fixpoint isshared_loop (me : nat) (registroCR2 : Z) (i n : nat) : KM sharedmemorylevel :=
  match n with
  | O => ret NOTHING
  | S n =>
      let! p := pget i in
      if p_pid p =? 0 then ret NOTHING
      else if bool_decide (p_state p = ZOMBIE) || (i =? me)%nat then
        isshared_loop me registroCR2 (S i) n
      else
        let! proc := pget me in
        if p_pgdir proc =? p_pgdir p then ret DIRECTORY
        else
          let indiceDirectorio := PDX registroCR2 in
          let! tablaProc := liftM (ldv (p_pgdir proc + 4 * indiceDirectorio)) in
          let! tablaP := liftM (ldv (p_pgdir p + 4 * indiceDirectorio)) in
          if tablaProc =? tablaP then ret TABLE
          else
            let! pteProc := liftM (wpgdir (p_pgdir proc) registroCR2 false) in
            let! pteP := liftM (wpgdir (p_pgdir p) registroCR2 false) in
            let! eProc := liftM (ldv pteProc) in
            let! eP := liftM (ldv pteP) in
            if eProc =? eP then ret FRAME
            else isshared_loop me registroCR2 (S i) n
  end.

Definition isshared (registroCR2 : Z) : KM sharedmemorylevel :=
  let! me := myproc in
  isshared_loop me registroCR2 0 (Z.to_nat NPROC).

(** The inner loop of [unlinkzombiesharedmemory] on the directories [dp] and
    [dz] of a process and the zombie, whose size is [sz]. *)
Fixpoint unlink_pages (dp dz i sz : Z) (fuel : nat) : MM unit :=
  if i <? sz then
    match fuel with
    | O => nofuel
    | S fuel =>
        let! pteP := wpgdir dp i false in
        let! ptePZ := wpgdir dz i false in
        let! eP := ldv pteP in
        let! ePZ := ldv ptePZ in
        when (eP =? ePZ)
          (let tablaP := dp + 4 * PDX i in
           let tablaPZ := dz + 4 * PDX i in
           let! tPZ := ldv tablaPZ in
           let! tP := ldv tablaP in
           if negb (tPZ =? 0) && (tP =? tPZ) then stv tablaPZ 0
           else stv ptePZ 0) ;;;
        unlink_pages dp dz (i + PGSIZE) sz fuel
    end
  else ret tt.

Fixpoint unlink_loop (z i n : nat) : KM unit :=
  match n with
  | O => ret tt
  | S n =>
      let! p := pget i in
      if p_pid p =? 0 then ret tt
      else
        when (negb (i =? z)%nat)
          (let! pz := pget z in
           liftM (unlink_pages (p_pgdir p) (p_pgdir pz) 0 (p_sz pz)
                    (Z.to_nat (p_sz pz / PGSIZE + 1)))) ;;;
        unlink_loop z (S i) n
  end.

Definition unlinkzombiesharedmemory (procesoZombie : nat) : KM unit :=
  unlink_loop procesoZombie 0 (Z.to_nat NPROC).

(** The part of [copystackpage] after the directory exists: [cd] is the
    directory of the current process and [dir] that of the new one. *)
Definition copystack_tables (rcr2 cd dir : Z) : MM unit :=
  let! e := ldv (cd + 4 * PDX rcr2) in
  if negb (has e PTE_P) then panic "copystackpage. Page table (pte) should be present"
  else
    let pte := p2v (PTE_ADDR e) in
    let! tabla := kalloc in
    if tabla =? 0 then panic "kalloc on copystackpage"
    else
      memM (fun m => memset m tabla 0 PGSIZE) ;;;
      setdtew cd (PGROUNDDOWN rcr2) ;;;
      setdtew dir (PGROUNDDOWN rcr2) ;;;
      memM (fun m => memmove m tabla pte PGSIZE) ;;;
      stv (dir + 4 * PDX rcr2) (Z.lor (Z.lor (Z.lor (v2p tabla) PTE_W) PTE_U) PTE_P) ;;;
      let! frame := kalloc in
      if frame =? 0 then panic "kalloc on copystackpage"
      else
        memM (fun m => memset m frame 0 PGSIZE) ;;;
        memmove_v frame (PGROUNDDOWN rcr2) PGSIZE ;;;
        let! pte := wpgdir dir (PGROUNDDOWN rcr2) false in
        stv pte (Z.lor (Z.lor (Z.lor (v2p frame) PTE_W) PTE_U) PTE_P).

Definition copystackpage (rcr2 : Z) (currentproc newproc : nat) : KM unit :=
  let! cp := pget currentproc in
  let! dir := liftM setupkvm in
  liftM (memmove_v dir (p_pgdir cp) (PGSIZE / 2 - 1)) ;;;
  pupd newproc (ps_pgdir dir) ;;;
  liftM (copystack_tables rcr2 (p_pgdir cp) dir).

(** [case FRAME] of [copypage] and what it falls through to, for the
    directory [d] of the current process. *)
Definition copypage_nothing (d va : Z) : MM unit := setptew d (PGROUNDDOWN va).

Definition copypage_frame (d va : Z) : MM unit :=
  let! frame := kalloc in
  if frame =? 0 then panic "kalloc on copypage"
  else
    memM (fun m => memset m frame 0 PGSIZE) ;;;
    memmove_v frame (PGROUNDDOWN va) PGSIZE ;;;
    let! pte := wpgdir d (PGROUNDDOWN va) false in
    stv pte (Z.lor (Z.lor (Z.lor (v2p frame) PTE_W) PTE_U) PTE_P) ;;;
    copypage_nothing d va.

Definition copypage_table (d va : Z) : MM unit :=
  let! e := ldv (d + 4 * PDX va) in
  if negb (has e PTE_P) then panic "copypage. Page table (pte) should be present"
  else
    let pte := p2v (PTE_ADDR e) in
    let! tabla := kalloc in
    if tabla =? 0 then panic "kalloc on copypage"
    else
      memM (fun m => memset m tabla 0 PGSIZE) ;;;
      memM (fun m => memmove m tabla pte PGSIZE) ;;;
      stv (d + 4 * PDX va) (Z.lor (Z.lor (Z.lor (v2p tabla) PTE_W) PTE_U) PTE_P) ;;;
      copypage_frame d va.

Definition copypage : KM unit :=
  let! va := gets cr2 in
  let! shared := isshared va in
  let! me := myproc in
  let! p := pget me in
  match shared with
  | DIRECTORY => panic "proc should have its own pgdir"
  | TABLE => liftM (copypage_table (p_pgdir p) va)
  | FRAME => liftM (copypage_frame (p_pgdir p) va)
  | NOTHING => liftM (copypage_nothing (p_pgdir p) va)
  end.

Definition trapCOW : KM unit :=
  acquire LkPtable ;;;
  copypage ;;;
  release LkPtable.

(** The loop of [fork] that write-protects the image:
    [for(i = 0; i < proc->sz - PGSIZE; i += PGSIZE)]; returns the last [i]. *)
Fixpoint protect_loop (d i lim : Z) (fuel : nat) : MM Z :=
  if i <? lim then
    match fuel with
    | O => nofuel
    | S fuel =>
        cleardtew d i ;;;
        clearptew d i ;;;
        protect_loop d (u32 (i + PGSIZE)) lim fuel
    end
  else ret i.

(** The copy-on-write branch of [fork]. *)
Definition fork_cow (me np : nat) : KM unit :=
  let! p := pget me in
  let lim := u32 (p_sz p - PGSIZE) in
  let! i := liftM (protect_loop (p_pgdir p) 0 lim (Z.to_nat (lim / PGSIZE + 1))) in
  copystackpage i me np.

End Cow.
