(* ===== verification/CowFacts.v ===== *)
(** * Copy-on-write: the sharing invariant

    [cow s l A] relates the address spaces [A] (directory and size of each
    process): each is well formed on its own, no directory or page table is
    used twice, and a frame that two of them map is mapped at the same address,
    by the same entry, without write permission.

    Every image is at most 4 MB and uses the first page table only ([cw_size],
    [cw_one]).  This is the limit of the code, not of the proofs: [fork] shares the
    tables of a larger image and takes the write permission out of the directory,
    and the fault handler does not give it back to a process that has stopped
    sharing the table ([large_image_stuck] in CowTrap.v). *)

From S2P Require Import Prelude Layout Mem Kalloc Vm VmFacts UvmFacts UvmAlloc State Cow.

Open Scope Z_scope.

(** The user addresses of an image of [sz] bytes. *)
Abbreviation image sz := (fun va => va < PGROUNDUP sz).

Section CowFacts.
Context `{KernelImage} `{!KernelImageOk}.

(** The directory and the tables of an address space, and its user frames. *)
Definition foot (m : mem) (d q : Z) : Prop := q = d \/ is_table m d q.
Definition ufoot (m : mem) (d q : Z) : Prop :=
  exists va e, 0 <= va < KERNBASE /\ mapping m d va = Some e /\ q = frame_of e.

(** A user address that user code may access. *)
Definition uacc (m : mem) (d va : Z) : Prop :=
  exists e, mapping m d va = Some e /\ has e PTE_U = true.

Record cow (s : mstate) (l : list Z) (A : list (Z * Z)) : Prop := {
  cw_free : free_wf s l;
  cw_uvm : forall d sz, (d, sz) ∈ A -> uvm s d l (image sz);
  (** One page table: at most 4 MB. *)
  cw_size : forall d sz, (d, sz) ∈ A -> PGSIZE <= sz <= 2 ^ 22;
  cw_one : forall d sz i, (d, sz) ∈ A -> 1 <= i < 512 -> ~ present (mm s) d i;
  cw_nodup : NoDup A.*1;
  cw_sep : forall d sz d' sz' q, (d, sz) ∈ A -> (d', sz') ∈ A -> d <> d' ->
    foot (mm s) d q -> ~ foot (mm s) d' q /\ ~ ufoot (mm s) d' q;
  cw_share : forall d sz d' sz' va va' e e', (d, sz) ∈ A -> (d', sz') ∈ A -> d <> d' ->
    0 <= va < KERNBASE -> 0 <= va' < KERNBASE ->
    mapping (mm s) d va = Some e -> mapping (mm s) d' va' = Some e' ->
    frame_of e = frame_of e' ->
    va / PGSIZE = va' / PGSIZE /\ e = e' /\ has e PTE_W = false
}.

(** ** An address space whose pages did not change *)

Lemma frame_of_aligned e : aligned (frame_of e).
Proof. apply p2v_aligned, PTE_ADDR_aligned. Qed.

Lemma uvm_move s s' d l l' U P :
  uvm s d l U -> frame P (mm s) (mm s') -> (forall q, foot (mm s) d q -> ~ P q) ->
  free_wf s' l' -> (forall q, foot (mm s) d q \/ ufoot (mm s) d q -> q ∉ l') ->
  uvm s' d l' U /\ (forall va, mapping (mm s') d va = mapping (mm s) d va) /\
  (forall i, 0 <= i < 1024 -> word (mm s') d i = word (mm s) d i).
Proof.
  intros [[Hf Hwf Hd Ht] Hs Hn Hi] F HP Hf' Hsub.
  assert (Hw : forall i, 0 <= i < 1024 -> word (mm s') d i = word (mm s) d i).
  { intros i Hr. eapply frame_word; [exact F|apply Hwf|apply HP; by left|done]. }
  assert (Hm : forall va, mapping (mm s') d va = mapping (mm s) d va).
  { intros va. eapply mapping_frame; [exact F|apply Hwf|apply HP; by left|].
    intros i Hr Hp. apply HP. right. by exists i. }
  split; [|done]. split.
  - split; [done| | |].
    + eapply pd_wf_frame; [exact F|apply HP; by left|done].
    + apply Hsub. left. by left.
    + intros i Hr Hp. rewrite (tab_word _ _ _ _ (Hw i Hr)).
      apply (present_word _ _ _ _ (Hw i Hr)) in Hp. apply Hsub. left. right. by exists i.
  - intros va Hva HU. destruct (Hs va Hva HU) as (e & E & (H1 & H2 & H3 & H4)).
    exists e. rewrite Hm. split; [done|]. split_and!; try done; [apply Hsub; right; by exists va, e|].
    intros (i & Hr & Hp & E'). apply H4. exists i. rewrite <- (tab_word _ _ _ _ (Hw i Hr)).
    by apply (present_word _ _ _ _ (Hw i Hr)) in Hp.
  - intros va Hva HU. rewrite Hm. auto.
  - intros va va' e e'. rewrite !Hm. apply Hi.
Qed.

Lemma uvm_change s s' d l l' sz P :
  uvm s d l (image sz) -> frame P (mm s) (mm s') -> (forall q, foot (mm s) d q -> ~ P q) ->
  free_wf s' l' -> (forall q, q ∈ l' -> q ∈ l) ->
  uvm s' d l' (image sz) /\ (forall va, mapping (mm s') d va = mapping (mm s) d va) /\
  (forall i, 0 <= i < 1024 -> word (mm s') d i = word (mm s) d i).
Proof.
  intros Hu F HP Hf Hsub. apply (uvm_move s s' d l l' _ P Hu F HP Hf). intros q [[->|(i & Hi & Hp & ->)]|(va & e & Hva & E & ->)] Hq%Hsub.
  - by apply (pt_dir _ _ _ (uv_inv _ _ _ _ Hu)).
  - by apply (pt_tabs _ _ _ (uv_inv _ _ _ _ Hu) i).
  - destruct (Z.lt_ge_cases va (PGROUNDUP sz)) as [Hlt|Hge].
    + destruct (uv_some _ _ _ _ Hu va Hva Hlt) as (e' & E' & (_ & Hn & _)). congruence.
    + rewrite (uv_none _ _ _ _ Hu va Hva) in E by lia. done.
Qed.

Lemma foot_change m m' d :
  (forall i, 0 <= i < 1024 -> word m' d i = word m d i) ->
  forall q, foot m' d q <-> foot m d q.
Proof.
  intros Hw q. unfold foot. split; (intros [?|(i & Hi & Hp & ->)]; [by left|right]);
    exists i; pose proof (Hw i Hi) as E; rewrite (tab_word _ _ _ _ E);
    apply (present_word _ _ _ _ E) in Hp; auto.
Qed.

Lemma ufoot_change m m' d :
  (forall va, mapping m' d va = mapping m d va) ->
  forall q, ufoot m' d q <-> ufoot m d q.
Proof.
  intros Hm q. split; intros (va & e & Hva & E & ->); exists va, e;
    [rewrite <- Hm|rewrite Hm]; auto.
Qed.

Lemma uread_change P m m' d va :
  frame P m m' -> (forall q, ufoot m d q -> ~ P q) -> 0 <= va < KERNBASE ->
  mapping m' d va = mapping m d va -> uread m' d va = uread m d va.
Proof.
  intros F HP Hva E. unfold uread. rewrite E.
  destruct (mapping m d va) as [e|] eqn:Ee; [|done]. f_equal.
  apply F; [apply frame_of_aligned| |by apply Z.mod_pos_bound].
  apply HP. by exists va, e.
Qed.

(** Members of [A] and the free list do not meet. *)
Lemma cow_foot_free s l A d sz q :
  cow s l A -> (d, sz) ∈ A -> foot (mm s) d q -> q ∉ l /\ page_ok q.
Proof.
  intros Hc Hd. pose proof (uv_inv _ _ _ _ (cw_uvm _ _ _ Hc d sz Hd)) as [_ Hwf Hl Ht].
  intros [->|(i & Hi & Hp & ->)].
  - split; [done|apply Hwf].
  - split; [by apply Ht|by apply Hwf].
Qed.

Lemma cow_mapped s l A d sz va e :
  cow s l A -> (d, sz) ∈ A -> 0 <= va < KERNBASE -> mapping (mm s) d va = Some e ->
  va < PGROUNDUP sz /\ private_page s d l (frame_of e).
Proof.
  intros Hc Hd Hva E. pose proof (cw_uvm _ _ _ Hc d sz Hd) as Hu.
  destruct (Z.lt_ge_cases va (PGROUNDUP sz)) as [Hlt|Hge].
  - split; [done|]. destruct (uv_some _ _ _ _ Hu va Hva Hlt) as (e' & E' & Hp). congruence.
  - rewrite (uv_none _ _ _ _ Hu va Hva) in E by lia. done.
Qed.

Lemma cow_ufoot_free s l A d sz q :
  cow s l A -> (d, sz) ∈ A -> ufoot (mm s) d q -> private_page s d l q.
Proof. intros Hc Hd (va & e & Hva & E & ->). by eapply cow_mapped. Qed.

(** Small images: one page table. *)
Lemma cow_small s l A d sz va e :
  cow s l A -> (d, sz) ∈ A -> 0 <= va < KERNBASE -> mapping (mm s) d va = Some e ->
  va < 2 ^ 22 /\ PDX va = 0.
Proof.
  intros Hc Hd Hva E. destruct (cow_mapped _ _ _ _ _ _ _ Hc Hd Hva E) as [Hlt _].
  pose proof (cw_size _ _ _ Hc d sz Hd) as Hs. rewrite PGROUNDUP_eq in Hlt by klia.
  assert (va < 2 ^ 22) by (unfold PGSIZE in *; Z.div_mod_to_equations; lia).
  split; [done|]. rewrite PDX_eq. unfold KERNBASE in *. Z.div_mod_to_equations. lia.
Qed.

Lemma NoDup_fmap_fst_inj (A : list (Z * Z)) d x y :
  NoDup A.*1 -> (d, x) ∈ A -> (d, y) ∈ A -> x = y.
Proof.
  induction A as [|[a b] A IH]; cbn; [by intros _ ?%not_elem_of_nil|].
  intros [Hn Hnd]%NoDup_cons [E1|H1]%elem_of_cons [E2|H2]%elem_of_cons.
  - congruence.
  - injection E1 as -> ->. destruct Hn. apply list_elem_of_fmap. by exists (a, y).
  - injection E2 as -> ->. destruct Hn. apply list_elem_of_fmap. by exists (a, x).
  - auto.
Qed.

(** ** Changing one page-table entry *)

Section Store.
Variables (s : mstate) (l : list Z) (A : list (Z * Z)) (d sz va e e2 : Z).
Hypothesis Hc : cow s l A.
Hypothesis Hd : (d, sz) ∈ A.
Hypothesis Hva : 0 <= va < KERNBASE.
Hypothesis He : mapping (mm s) d va = Some e.
Hypothesis He2 : 0 <= e2 < 2 ^ 32 /\ has e2 PTE_P = true.
(** The new frame: a page of its own in this address space, no directory or
    table elsewhere, and shared with others only as the invariant allows. *)
Hypothesis Hpriv : private_page s d l (frame_of e2).
Hypothesis Huniq : forall va' e', 0 <= va' < KERNBASE -> mapping (mm s) d va' = Some e' ->
  frame_of e' = frame_of e2 -> va' / PGSIZE = va / PGSIZE.
Hypothesis Hfoot : forall d' sz', (d', sz') ∈ A -> d' <> d -> ~ foot (mm s) d' (frame_of e2).
Hypothesis Hshare : forall d' sz' va' e', (d', sz') ∈ A -> d' <> d -> 0 <= va' < KERNBASE ->
  mapping (mm s) d' va' = Some e' -> frame_of e' = frame_of e2 ->
  va' / PGSIZE = va / PGSIZE /\ e' = e2 /\ has e2 PTE_W = false.

Let tb := tab (mm s) d (PDX va).
Let s' := set_mm (wr32 (mm s) (tb + 4 * PTX va) e2) s.

Lemma store_grow : pt_grow (fun _ => False) d s l s' l [].
Proof.
  destruct (mapping_Some _ _ _ _ He) as (Hp & _).
  exact (pt_store (fun _ => False) s d va l e2 (uv_inv _ _ _ _ (cw_uvm _ _ _ Hc d sz Hd)) Hp).
Qed.

Lemma store_frame : frame (fun q => q = tb) (mm s) (mm s').
Proof. apply frame_wr32; [apply tab_aligned|apply PTX_range]. Qed.

Lemma store_foot : foot (mm s) d tb.
Proof.
  destruct (mapping_Some _ _ _ _ He) as (Hp & _). right. exists (PDX va).
  split; [apply PDX_range|done].
Qed.

Lemma store_word i : 0 <= i < 1024 -> word (mm s') d i = word (mm s) d i.
Proof.
  destruct (mapping_Some _ _ _ _ He) as (Hp & _). intros Hi.
  apply (tab_stable (mm s) d (PDX va) (PTX va) e2); try done.
  - apply (uv_inv _ _ _ _ (cw_uvm _ _ _ Hc d sz Hd)).
  - apply PDX_range.
  - apply PTX_range.
Qed.

Lemma store_mapping va' :
  0 <= va' < 2 ^ 32 -> mapping (mm s') d va' =
    if va' / PGSIZE =? va / PGSIZE then Some e2 else mapping (mm s) d va'.
Proof.
  intros Hva'. destruct (mapping_Some _ _ _ _ He) as (Hp & _). destruct He2 as [Hr Hp2].
  unfold s', tb. cbn [mm set_mm]. pose proof (uv_inv _ _ _ _ (cw_uvm _ _ _ Hc d sz Hd)) as Hi.
  by rewrite mapping_store, Hp2 by (apply Hi || done || klia).
Qed.

Lemma store_uacc va' :
  0 <= va' < KERNBASE -> (has e PTE_U = true -> has e2 PTE_U = true) ->
  uacc (mm s) d va' -> uacc (mm s') d va'.
Proof.
  intros Hva' HU (ex & Ex & Hx). unfold uacc. rewrite store_mapping by klia.
  destruct (Z.eqb_spec (va' / PGSIZE) (va / PGSIZE)) as [E|E].
  - exists e2. split; [done|]. apply HU.
    rewrite (mapping_page (mm s) d va' va), He in Ex by (done || klia). congruence.
  - by exists ex.
Qed.

Lemma store_other d' sz' :
  (d', sz') ∈ A -> d' <> d ->
  uvm s' d' l (image sz') /\ (forall va', mapping (mm s') d' va' = mapping (mm s) d' va') /\
  (forall i, 0 <= i < 1024 -> word (mm s') d' i = word (mm s) d' i).
Proof.
  intros Hd' Hne. eapply uvm_change; [by apply (cw_uvm _ _ _ Hc)|apply store_frame| | |done].
  - intros q Hq ->.
    by destruct (cw_sep _ _ _ Hc d sz d' sz' tb Hd Hd' (not_eq_sym Hne) store_foot).
  - apply (pt_free s' d), (pg_inv _ _ _ _ _ _ _ store_grow).
Qed.

Lemma store_uvm : uvm s' d l (image sz).
Proof.
  pose proof (cw_uvm _ _ _ Hc d sz Hd) as Hu.
  assert (Hpg : forall x, private_page s d l x -> private_page s' d l x)
    by (intros x Hx; by apply (private_grow _ _ _ _ _ _ _ x store_grow)).
  split.
  - apply (pg_inv _ _ _ _ _ _ _ store_grow).
  - intros x Hx HU. rewrite store_mapping by klia. destruct (x / PGSIZE =? va / PGSIZE).
    + exists e2. auto.
    + destruct (uv_some _ _ _ _ Hu x Hx HU) as (e' & E' & Hp). exists e'. auto.
  - intros x Hx HU. rewrite store_mapping by klia.
    destruct (Z.eqb_spec (x / PGSIZE) (va / PGSIZE)) as [E|]; [|by apply (uv_none _ _ _ _ Hu)].
    exfalso. rewrite (mapping_page _ _ va x) in He by (done || klia).
    rewrite (uv_none _ _ _ _ Hu x Hx HU) in He. done.
  - intros x y ex ey Hx Hy. rewrite !store_mapping by klia.
    destruct (Z.eqb_spec (x / PGSIZE) (va / PGSIZE)),
      (Z.eqb_spec (y / PGSIZE) (va / PGSIZE)); intros Ex Ey Ef; try congruence.
    + injection Ex as <-. symmetry. rewrite e0. by apply (Huniq y ey).
    + injection Ey as <-. rewrite e0. by apply (Huniq x ex).
    + by eapply (uv_inj _ _ _ _ Hu).
Qed.

Lemma store_foots d' sz' q : (d', sz') ∈ A -> foot (mm s') d' q <-> foot (mm s) d' q.
Proof.
  intros Hd'. apply foot_change. intros i Hi. destruct (decide (d' = d)) as [->|].
  - by apply store_word.
  - by apply (store_other d' sz').
Qed.

Lemma store_ufoot q : ufoot (mm s') d q -> q = frame_of e2 \/ ufoot (mm s) d q.
Proof.
  intros (x & ex & Hx & Ex & ->). rewrite store_mapping in Ex by klia.
  destruct (x / PGSIZE =? va / PGSIZE); [left; congruence|right]. by exists x, ex.
Qed.

Lemma cow_store : cow s' l A.
Proof.
  split.
  - apply (pt_free s' d), (pg_inv _ _ _ _ _ _ _ store_grow).
  - intros d' sz' Hd'. destruct (decide (d' = d)) as [->|]; [|by apply store_other].
    pose proof (cw_uvm _ _ _ Hc d sz' Hd') as Hu. pose proof store_uvm as Hu'.
    assert (sz' = sz) as ->; [|done].
    pose proof (cw_nodup _ _ _ Hc) as Hnd. by eapply NoDup_fmap_fst_inj.
  - apply (cw_size _ _ _ Hc).
  - intros d' sz' i Hd' Hi Hp. apply (cw_one _ _ _ Hc d' sz' i Hd' Hi).
    destruct (decide (d' = d)) as [->|].
    + by apply (present_word _ _ _ _ (store_word i ltac:(lia))).
    + destruct (store_other d' sz') as (_ & _ & W); try done.
      by apply (present_word _ _ _ _ (W i ltac:(lia))).
  - apply (cw_nodup _ _ _ Hc).
  - intros d1 sz1 d2 sz2 q H1 H2 Hne Hq. rewrite (store_foots d1 sz1) in Hq by done.
    rewrite (store_foots d2 sz2) by done.
    destruct (cw_sep _ _ _ Hc d1 sz1 d2 sz2 q H1 H2 Hne Hq) as [Hf Hu]. split; [done|].
    destruct (decide (d2 = d)) as [->|Hn2].
    + intros [->|Hq2]%store_ufoot; [|done]. by apply (Hfoot d1 sz1).
    + destruct (store_other d2 sz2) as (_ & W & _); try done. by rewrite (ufoot_change _ _ _ W).
  - intros d1 sz1 d2 sz2 x y ex ey H1 H2 Hne Hx Hy.
    assert (Hm : forall d' sz' z, (d', sz') ∈ A -> d' <> d ->
      mapping (mm s') d' z = mapping (mm s) d' z).
    { intros d' sz' z Hd' Hn. by apply (store_other d' sz'). }
    destruct (decide (d1 = d)) as [->|Hn1]; [|destruct (decide (d2 = d)) as [->|Hn2]].
    + rewrite store_mapping, (Hm d2 sz2) by (done || congruence || klia).
      destruct (Z.eqb_spec (x / PGSIZE) (va / PGSIZE)) as [Ep|Ep].
      * intros [= <-] Ey Ef.
        destruct (Hshare d2 sz2 y ey H2 (not_eq_sym Hne) Hy Ey (eq_sym Ef)) as (Q1 & -> & Q3).
        by rewrite Ep, Q1.
      * by apply (cw_share _ _ _ Hc d sz1 d2 sz2).
    + rewrite (Hm d1 sz1), store_mapping by (done || klia).
      destruct (Z.eqb_spec (y / PGSIZE) (va / PGSIZE)) as [Ep|Ep].
      * intros Ex [= <-] Ef. destruct (Hshare d1 sz1 x ex H1 Hne Hx Ex Ef) as (Q1 & -> & Q3).
        by rewrite Ep, Q1.
      * by apply (cw_share _ _ _ Hc d1 sz1 d sz2).
    + rewrite (Hm d1 sz1), (Hm d2 sz2) by done. by apply (cw_share _ _ _ Hc d1 sz1 d2 sz2).
Qed.

(** The views of the other processes do not change; neither does this one's
    if the new frame holds the same bytes. *)
Lemma store_views :
  same_page (frame_of e2) (fun a => mm s (a - frame_of e2 + frame_of e)) (mm s) ->
  forall d' sz' va', (d', sz') ∈ A -> 0 <= va' < KERNBASE ->
    uread (mm s') d' va' = uread (mm s) d' va'.
Proof.
  intros Hcopy d' sz' x Hd' Hx.
  assert (Hu : forall q, ufoot (mm s) d' q -> q <> tb).
  { intros q Hq ->. destruct (decide (d' = d)) as [->|Hn].
    - destruct (cow_ufoot_free s l A d sz' tb Hc Hd' Hq) as (_ & _ & Hq1 & Hq2).
      by destruct store_foot.
    - by destruct (cw_sep _ _ _ Hc d sz d' sz' tb Hd Hd' (not_eq_sym Hn) store_foot). }
  destruct (decide (d' = d)) as [->|Hn].
  - unfold uread. rewrite store_mapping by klia.
    destruct (Z.eqb_spec (x / PGSIZE) (va / PGSIZE)) as [E|E].
    + rewrite (mapping_page (mm s) d x va), He by (done || klia). f_equal.
      pose proof (Z.mod_pos_bound x PGSIZE ltac:(done)) as Hr.
      change (mm s' (frame_of e2 + x mod PGSIZE) = mm s (frame_of e + x mod PGSIZE)).
      rewrite store_frame; [|apply frame_of_aligned| |done].
      * rewrite Hcopy by done. f_equal. lia.
      * intros Eq. destruct Hpriv as (_ & _ & P1 & P2). rewrite Eq in P1, P2.
        by destruct store_foot.
    + destruct (mapping (mm s) d x) as [ex|] eqn:Ex; [|done]. f_equal.
      apply store_frame; [apply frame_of_aligned| |by apply Z.mod_pos_bound].
      apply Hu. by exists x, ex.
  - eapply uread_change; [apply store_frame|exact Hu|done|]. by apply (store_other d' sz').
Qed.
End Store.

(** ** What the operations keep *)

(** Every process of [A] reads the same memory and may access what it could,
    and the directories are the same. *)
Record same_views (A : list (Z * Z)) (s s' : mstate) : Prop := {
  sv_read : forall d sz va, (d, sz) ∈ A -> 0 <= va < KERNBASE ->
    uread (mm s') d va = uread (mm s) d va;
  sv_word : forall d sz i, (d, sz) ∈ A -> 0 <= i < 1024 ->
    word (mm s') d i = word (mm s) d i;
  sv_user : forall d sz va, (d, sz) ∈ A -> 0 <= va < KERNBASE ->
    uacc (mm s) d va -> uacc (mm s') d va;
  sv_regs : kpgdir s' = kpgdir s /\ cr3 s' = cr3 s /\ use_lock s' = use_lock s
}.

Lemma same_views_refl A s : same_views A s s.
Proof. by split. Qed.

Lemma same_views_trans A s1 s2 s3 :
  same_views A s1 s2 -> same_views A s2 s3 -> same_views A s1 s3.
Proof.
  intros [R1 W1 U1 (a1 & b1 & c1)] [R2 W2 U2 (a2 & b2 & c2)]. split.
  - intros d sz va Hd Hva. by rewrite (R2 d sz), (R1 d sz).
  - intros d sz i Hd Hi. by rewrite (W2 d sz), (W1 d sz).
  - intros d sz va Hd Hva Hu. apply (U2 d sz); [done|done|]. by apply (U1 d sz).
  - by rewrite a2, b2, c2.
Qed.

(** Changing pages that are no directory and no table of any process, while the free list
    stays away from all of them. *)
Lemma cow_move (P : Z -> Prop) s s' l l' A :
  cow s l A -> frame P (mm s) (mm s') -> free_wf s' l' ->
  (forall d sz q, (d, sz) ∈ A -> foot (mm s) d q \/ ufoot (mm s) d q -> q ∉ l') ->
  (forall d sz q, (d, sz) ∈ A -> foot (mm s) d q -> ~ P q) ->
  cow s' l' A /\
  (forall d sz va, (d, sz) ∈ A -> mapping (mm s') d va = mapping (mm s) d va) /\
  (forall d sz i, (d, sz) ∈ A -> 0 <= i < 1024 -> word (mm s') d i = word (mm s) d i).
Proof.
  intros Hc F Hwf Hsub Hn.
  assert (Hch : forall d sz, (d, sz) ∈ A -> uvm s' d l' (image sz) /\
    (forall va, mapping (mm s') d va = mapping (mm s) d va) /\
    (forall i, 0 <= i < 1024 -> word (mm s') d i = word (mm s) d i)).
  { intros d sz Hd. eapply uvm_move; [by apply (cw_uvm _ _ _ Hc)|exact F| |done|].
    - intros q. by apply (Hn d sz).
    - intros q. by apply (Hsub d sz). }
  split; [|split; intros d sz ? Hd; by apply (Hch d sz)].
  split; try apply Hc; try done.
  - intros d sz Hd. by apply Hch.
  - intros d sz i Hd Hi Hp. apply (cw_one _ _ _ Hc d sz i Hd Hi).
    destruct (Hch d sz Hd) as (_ & _ & W). by apply (present_word _ _ _ _ (W i ltac:(lia))).
  - intros d sz d' sz' q Hd Hd' Hne.
    destruct (Hch d sz Hd) as (_ & _ & W), (Hch d' sz' Hd') as (_ & M' & W').
    rewrite (foot_change _ _ _ W), (foot_change _ _ _ W'), (ufoot_change _ _ _ M').
    by apply (cw_sep _ _ _ Hc d sz d' sz').
  - intros d sz d' sz' va va' e e' Hd Hd'.
    destruct (Hch d sz Hd) as (_ & -> & _), (Hch d' sz' Hd') as (_ & -> & _).
    by apply (cw_share _ _ _ Hc d sz d' sz').
Qed.

(** If no user page changes either, every view stays. *)
Lemma cow_move_views (P : Z -> Prop) s s' l l' A :
  cow s l A -> frame P (mm s) (mm s') -> free_wf s' l' ->
  (forall d sz q, (d, sz) ∈ A -> foot (mm s) d q \/ ufoot (mm s) d q -> q ∉ l' /\ ~ P q) ->
  kpgdir s' = kpgdir s -> cr3 s' = cr3 s -> use_lock s' = use_lock s ->
  cow s' l' A /\ same_views A s s' /\
  (forall d sz va, (d, sz) ∈ A -> mapping (mm s') d va = mapping (mm s) d va).
Proof.
  intros Hc F Hwf Hn H1 H2 H3.
  destruct (cow_move P s s' l l' A Hc F Hwf) as (C & M & W); [naive_solver|naive_solver|].
  split; [done|]. split; [|done]. split; [|done| |done].
  - intros d sz va Hd Hva. eapply uread_change; [exact F|naive_solver|done|by apply (M d sz)].
  - intros d sz va Hd _. unfold uacc. by rewrite (M d sz).
Qed.

(** The free list may shrink. *)
Lemma cow_off_list s (l l' : list Z) A : cow s l A -> (forall q, q ∈ l' -> q ∈ l) ->
  forall d sz q, (d, sz) ∈ A -> foot (mm s) d q \/ ufoot (mm s) d q -> q ∉ l'.
Proof.
  intros Hc Hsub d sz q Hd Hq Hl%Hsub. destruct Hq as [Hq|Hq].
  - by destruct (cow_foot_free _ _ _ _ _ _ Hc Hd Hq).
  - by destruct (cow_ufoot_free _ _ _ _ _ _ Hc Hd Hq) as (_ & ? & _).
Qed.

Lemma cow_perm s l A A' : A ≡ₚ A' -> cow s l A -> cow s l A'.
Proof.
  intros Hp [C1 C2 C3 C4 C5 C6 C7].
  assert (Hin : forall d sz, (d, sz) ∈ A' -> (d, sz) ∈ A) by (intros d sz; by rewrite Hp).
  split; eauto. by rewrite <- Hp.
Qed.

Lemma cow_frame (P : Z -> Prop) s s' l l' A :
  cow s l A -> frame P (mm s) (mm s') -> free_wf s' l' -> (forall q, q ∈ l' -> q ∈ l) ->
  (forall d sz q, (d, sz) ∈ A -> foot (mm s) d q -> ~ P q) ->
  cow s' l' A /\
  (forall d sz va, (d, sz) ∈ A -> mapping (mm s') d va = mapping (mm s) d va) /\
  (forall d sz i, (d, sz) ∈ A -> 0 <= i < 1024 -> word (mm s') d i = word (mm s) d i).
Proof. intros Hc F Hwf Hsub Hn. apply (cow_move P s s' l l' A Hc F Hwf); [by apply (cow_off_list s l l')|done]. Qed.

Lemma cow_frame_views (P : Z -> Prop) s s' l l' A :
  cow s l A -> frame P (mm s) (mm s') -> free_wf s' l' -> (forall q, q ∈ l' -> q ∈ l) ->
  (forall d sz q, (d, sz) ∈ A -> foot (mm s) d q \/ ufoot (mm s) d q -> ~ P q) ->
  kpgdir s' = kpgdir s -> cr3 s' = cr3 s -> use_lock s' = use_lock s ->
  cow s' l' A /\ same_views A s s' /\
  (forall d sz va, (d, sz) ∈ A -> mapping (mm s') d va = mapping (mm s) d va).
Proof.
  intros Hc F Hwf Hsub Hn. apply (cow_move_views P s s' l l' A Hc F Hwf). intros d sz q Hd Hq.
  split; [by apply (cow_off_list s l l' A Hc Hsub d sz)|by apply (Hn d sz)].
Qed.

(** Taking a page off the free list and writing it. *)
Lemma cow_alloc s f l A m' :
  cow s (f :: l) A -> frame (fun q => q = f) (mm s) m' ->
  let s' := set_mm m' (set_freelist (rd32 (mm s) f) s) in
  cow s' l A /\ same_views A s s' /\
  (forall d sz va, (d, sz) ∈ A -> mapping m' d va = mapping (mm s) d va) /\
  (page_ok f /\ f ∉ l /\
   forall d sz, (d, sz) ∈ A -> ~ foot m' d f /\ ~ ufoot m' d f).
Proof.
  intros Hc F s'.
  pose proof (fw_nodup _ _ (cw_free _ _ _ Hc)) as [Hfl _]%NoDup_cons.
  pose proof (fw_pages _ _ (cw_free _ _ _ Hc)) as [Hok _]%Forall_cons.
  assert (Hfree : forall d sz, (d, sz) ∈ A -> ~ foot (mm s) d f /\ ~ ufoot (mm s) d f).
  { intros d sz Hd. split; intros Hq.
    - destruct (cow_foot_free _ _ _ _ _ _ Hc Hd Hq) as [Hn _]. apply Hn. by left.
    - destruct (cow_ufoot_free _ _ _ _ _ _ Hc Hd Hq) as (_ & Hn & _). apply Hn. by left. }
  assert (Hwf' : free_wf s' l).
  { pose proof (kalloc_spec s f l (cw_free _ _ _ Hc)) as W.
    apply wp_Ok in W as (r & s1 & _ & _ & -> & W).
    apply (free_wf_ext (set_freelist (rd32 (mm s) f) s)); try apply W; [done|].
    intros q Hq%list_elem_of_In. pose proof (fw_pages _ _ W) as Hp.
    rewrite Forall_forall in Hp. apply F; [apply Hp, Hq|congruence]. }
  destruct (cow_frame_views (fun q => q = f) s s' (f :: l) l A Hc F Hwf') as (C & V & M);
    try done.
  { by right. }
  { intros d sz q Hd Hq ->. destruct (Hfree d sz Hd). tauto. }
  split; [done|]. split; [done|]. split; [done|]. split; [done|]. split; [done|].
  intros d sz Hd. destruct (Hfree d sz Hd) as [Q1 Q2]. split; intros Hq.
  - apply Q1. by apply (foot_change _ _ _ (fun i => sv_word _ _ _ V d sz i Hd)) in Hq.
  - apply Q2. by apply (ufoot_change _ _ _ (fun va => M d sz va Hd)) in Hq.
Qed.

(** ** The page fault *)

Lemma page_base va :
  0 <= va < KERNBASE ->
  aligned (PGROUNDDOWN va) /\ 0 <= PGROUNDDOWN va < KERNBASE /\
  PGROUNDDOWN va / PGSIZE = va / PGSIZE.
Proof.
  intros Hva. rewrite PGROUNDDOWN_eq. unfold aligned, KERNBASE, PGSIZE in *.
  Z.div_mod_to_equations. lia.
Qed.

(** The entry of a mapped address, as the code reaches it. *)
Lemma wpgdir_eq s d va e :
  pd_wf (mm s) d -> mapping (mm s) d va = Some e ->
  let pte := tab (mm s) d (PDX va) + 4 * PTX va in
  walkpgdir d va false s = Ok pte s /\ KERNBASE <= pte /\ rd32 (mm s) pte = e.
Proof.
  intros Hwf E pte. destruct (mapping_Some _ _ _ _ E) as (Hp & Hw & _).
  pose proof (page_ok_high _ (pd_page _ _ Hwf)) as Hd.
  rewrite walkpgdir_noalloc by done. unfold present in Hp. rewrite Hp.
  destruct (pd_tabs _ _ Hwf (PDX va) (PDX_range va) Hp) as [Hok _].
  pose proof (page_ok_high _ Hok). pose proof (PTX_range va).
  split; [done|]. split; [unfold pte; lia|exact Hw].
Qed.

Lemma setptew_eq s d va e :
  pd_wf (mm s) d -> mapping (mm s) d va = Some e ->
  setptew d va s =
  Ok tt (set_mm (wr32 (mm s) (tab (mm s) d (PDX va) + 4 * PTX va) (Z.lor e PTE_W)) s).
Proof.
  intros Hwf E. destruct (wpgdir_eq s d va e Hwf E) as (W & Hh & R).
  unfold setptew, bind. rewrite W. cbn [obind]. rewrite (proj2 (Z.eqb_neq _ 0)) by klia.
  unfold ld32, gets. cbn [obind]. by rewrite R.
Qed.

Lemma clearptew_eq s d va e :
  pd_wf (mm s) d -> mapping (mm s) d va = Some e ->
  clearptew d va s =
  Ok tt (set_mm (wr32 (mm s) (tab (mm s) d (PDX va) + 4 * PTX va) (Z.land e (Z.lnot PTE_W))) s).
Proof.
  intros Hwf E. destruct (wpgdir_eq s d va e Hwf E) as (W & Hh & R).
  unfold clearptew, bind. rewrite W. cbn [obind]. rewrite (proj2 (Z.eqb_neq _ 0)) by klia.
  unfold ld32, gets. cbn [obind]. by rewrite R.
Qed.

Lemma entry_range m d va e : mapping m d va = Some e -> 0 <= e < 2 ^ 32.
Proof. intros E. destruct (mapping_Some _ _ _ _ E) as (_ & <- & _). apply rd32_range. Qed.

Lemma frame_of_lor e f : 0 <= f < PGSIZE -> frame_of (Z.lor e f) = frame_of e.
Proof. intros Hf. unfold frame_of. by rewrite PTE_ADDR_lor_flag. Qed.

Lemma frame_of_clear e f : 0 <= f < PGSIZE -> frame_of (Z.land e (Z.lnot f)) = frame_of e.
Proof. intros Hf. unfold frame_of. by rewrite PTE_ADDR_land_lnot. Qed.

(** Rewriting flags of an entry keeps its frame: the store lemmas apply. *)
Lemma cow_flags s l A d sz va e e2 :
  cow s l A -> (d, sz) ∈ A -> 0 <= va < KERNBASE -> mapping (mm s) d va = Some e ->
  0 <= e2 < 2 ^ 32 -> has e2 PTE_P = true -> has e2 PTE_U = has e PTE_U ->
  frame_of e2 = frame_of e ->
  (forall d' sz' va' e', (d', sz') ∈ A -> d' <> d -> 0 <= va' < KERNBASE ->
     mapping (mm s) d' va' = Some e' -> frame_of e' = frame_of e ->
     e2 = e) ->
  let s' := set_mm (wr32 (mm s) (tab (mm s) d (PDX va) + 4 * PTX va) e2) s in
  cow s' l A /\ same_views A s s' /\
  (forall va', 0 <= va' < 2 ^ 32 -> mapping (mm s') d va' =
     if va' / PGSIZE =? va / PGSIZE then Some e2 else mapping (mm s) d va') /\
  (forall d' sz' va', (d', sz') ∈ A -> d' <> d -> mapping (mm s') d' va' = mapping (mm s) d' va').
Proof.
  intros Hc Hd Hva He Hr Hp HU Hf Hsh s'.
  destruct (cow_mapped _ _ _ _ _ _ _ Hc Hd Hva He) as [_ Hpriv].
  assert (Q1 : private_page s d l (frame_of e2)) by by rewrite Hf.
  assert (Q2 : forall va' e', 0 <= va' < KERNBASE -> mapping (mm s) d va' = Some e' ->
    frame_of e' = frame_of e2 -> va' / PGSIZE = va / PGSIZE).
  { intros va' e' Hva' E Ef. rewrite Hf in Ef.
    by apply (uv_inj _ _ _ _ (cw_uvm _ _ _ Hc d sz Hd) va' va e' e). }
  assert (Q3 : forall d' sz', (d', sz') ∈ A -> d' <> d -> ~ foot (mm s) d' (frame_of e2)).
  { intros d' sz' Hd' Hne Hq. rewrite Hf in Hq.
    destruct (cw_sep _ _ _ Hc d' sz' d sz _ Hd' Hd Hne Hq) as [_ Hu]. apply Hu. by exists va, e. }
  assert (Q4 : forall d' sz' va' e', (d', sz') ∈ A -> d' <> d -> 0 <= va' < KERNBASE ->
    mapping (mm s) d' va' = Some e' -> frame_of e' = frame_of e2 ->
    va' / PGSIZE = va / PGSIZE /\ e' = e2 /\ has e2 PTE_W = false).
  { intros d' sz' va' e' Hd' Hne Hva' E Ef. rewrite Hf in Ef.
    rewrite (Hsh d' sz' va' e') by done.
    destruct (cw_share _ _ _ Hc d' sz' d sz va' va e' e) as (? & -> & ?); done. }
  split; [by eapply cow_store|]. split; [split|split].
  - intros d' sz' va' Hd' Hva'. eapply (store_views s l A d sz va e e2); try done.
    intros o Ho. cbn beta. rewrite Hf. f_equal. lia.
  - intros d' sz' i Hd' Hi. destruct (decide (d' = d)) as [->|Hne].
    + by apply (store_word s l A d sz va e e2).
    + by apply (store_other s l A d sz va e e2 Hc Hd He d' sz').
  - intros d' sz' x Hd' Hx. destruct (decide (d' = d)) as [->|Hne].
    + apply (store_uacc s l A d sz va e e2); try done. congruence.
    + unfold uacc. by rewrite (proj1 (proj2 (store_other s l A d sz va e e2 Hc Hd He d' sz' Hd' Hne))).
  - done.
  - intros va' Hva'. by apply (store_mapping s l A d sz va e e2).
  - intros d' sz' va' Hd' Hne. by apply (store_other s l A d sz va e e2 Hc Hd He d' sz').
Qed.

Lemma has_lor_W e : has (Z.lor e PTE_W) PTE_P = has e PTE_P /\ has (Z.lor e PTE_W) PTE_W = true.
Proof.
  rewrite !has_lor_flag. change (Z.land PTE_W PTE_P) with 0.
  change (Z.land PTE_W PTE_W) with 2. cbn. by rewrite orb_false_r, orb_true_r.
Qed.

(** No other process of [A] maps the frame [f]. *)
Definition unshared (m : mem) (A : list (Z * Z)) (d f : Z) : Prop :=
  forall d' sz', (d', sz') ∈ A -> d' <> d -> ~ ufoot m d' f.

Lemma copypage_nothing_spec s l A d sz va e :
  cow s l A -> (d, sz) ∈ A -> 0 <= va < KERNBASE -> mapping (mm s) d va = Some e ->
  unshared (mm s) A d (frame_of e) ->
  wp (copypage_nothing d va) s (fun _ s' => cow s' l A /\ same_views A s s' /\
    mapping (mm s') d va = Some (Z.lor e PTE_W) /\ unshared (mm s') A d (frame_of e)).
Proof.
  intros Hc Hd Hva He Hun. destruct (page_base va Hva) as (Ha & Hr & Hp).
  rewrite (mapping_page _ _ va (PGROUNDDOWN va)) in He by (done || klia).
  pose proof (entry_range _ _ _ _ He) as He32.
  destruct (mapping_Some _ _ _ _ He) as (_ & _ & HeP).
  pose proof (pt_wf _ _ _ (uv_inv _ _ _ _ (cw_uvm _ _ _ Hc d sz Hd))) as Hwf.
  unfold copypage_nothing, wp. rewrite (setptew_eq s d _ e Hwf He).
  edestruct (cow_flags s l A d sz (PGROUNDDOWN va) e (Z.lor e PTE_W)) as (C1 & C2 & C3 & C4);
    try done.
  - apply lor_range; [done|unfold PTE_W; lia].
  - by rewrite (proj1 (has_lor_W e)).
  - rewrite has_lor_flag. apply orb_false_r.
  - apply frame_of_lor. unfold PTE_W, PGSIZE. lia.
  - intros d' sz' va' e' Hd' Hne Hva' E Ef. exfalso. apply (Hun d' sz' Hd' Hne).
    rewrite <- Ef. by exists va', e'.
  - split; [done|]. split; [done|]. split.
    + rewrite C3 by klia. rewrite Hp, Z.eqb_refl. done.
    + intros d' sz' Hd' Hne (x & ex & Hx & Ex & Ef). rewrite C4 with (sz' := sz') in Ex by done.
      apply (Hun d' sz' Hd' Hne). by exists x, ex.
Qed.

Lemma pte_new f : Z.lor (Z.lor (Z.lor (v2p f) PTE_W) PTE_U) PTE_P = upte f.
Proof. unfold upte. by rewrite <- !Z.lor_assoc. Qed.

(** The MMU reads the current process's page. *)
Lemma mmu_user s d va e :
  cr3 s = v2p d -> pd_wf (mm s) d -> 0 <= va < KERNBASE ->
  mapping (mm s) d va = Some e ->
  mmu va false s = Ok (frame_of e + va mod PGSIZE) s.
Proof.
  intros Hcr Hwf Hva E. unfold mmu. rewrite (proj2 (Z.ltb_lt _ _)) by lia.
  pose proof (page_bounds d (pd_page _ _ Hwf)) as Hd.
  destruct (mapping_Some _ _ _ _ E) as (Hp & Hw & He). unfold translate, present in *.
  rewrite Hcr, p2v_v2p, Hp by lia. cbn [negb orb andb].
  fold (tab (mm s) d (PDX va)). by rewrite Hw, He.
Qed.

Lemma mmu_high va w s : KERNBASE <= va -> mmu va w s = Ok va s.
Proof. intros Hva. unfold mmu. by rewrite (proj2 (Z.ltb_ge _ _)). Qed.

(** Filling a fresh page [f] with the current process's page at [a]: the
    memory [copypage] and [copystackpage] leave. *)
Definition copied_page (m : mem) (f src : Z) : mem :=
  memmove (memset m f 0 PGSIZE) f src PGSIZE.

Lemma copied_page_frame m f src : aligned f -> frame (fun q => q = f) m (copied_page m f src).
Proof.
  intros Hf. eapply frame_trans; [by apply frame_memset|by apply frame_memmove].
Qed.

Lemma copied_page_same m f src o :
  aligned f -> aligned src -> src <> f -> 0 <= o < PGSIZE ->
  copied_page m f src (f + o) = m (src + o).
Proof.
  intros Hf Hs Hne Ho. unfold copied_page. rewrite memmove_page by done.
  by apply (frame_memset m f 0).
Qed.

(** The state after a fresh page [f] was filled from the page of the entry
    [e]. *)
Definition copy_state (s : mstate) (f e : Z) : mstate :=
  set_mm (copied_page (mm s) f (frame_of e)) (set_freelist (rd32 (mm s) f) s).

Lemma copy_fresh s f l A d sz a e (k : MM unit) Q :
  cow s (f :: l) A -> (d, sz) ∈ A -> cr3 s = v2p d -> aligned a -> 0 <= a < KERNBASE ->
  mapping (mm s) d a = Some e ->
  wp k (copy_state s f e) Q ->
  wp (memM (fun m => memset m f 0 PGSIZE) ;;; memmove_v f a PGSIZE ;;; k)
     (set_freelist (rd32 (mm s) f) s) Q.
Proof.
  intros Hc Hd Hcr Ha Hr He Hk.
  pose proof (fw_pages _ _ (cw_free _ _ _ Hc)) as [Hok _]%Forall_cons.
  destruct (cow_alloc s f l A (memset (mm s) f 0 PGSIZE) Hc) as (C1 & _ & Hm & _).
  { apply frame_memset, Hok. }
  apply wp_bind, wp_modify, wp_bind. unfold memmove_v. apply wp_bind.
  unfold wp at 1. rewrite mmu_high by (by apply page_ok_high). apply wp_bind.
  unfold wp at 1. erewrite (mmu_user _ d a e); [|exact Hcr| |done|].
  - apply wp_modify. rewrite Ha, Z.add_0_r. exact Hk.
  - apply (uv_inv _ _ _ _ (cw_uvm _ _ _ C1 d sz Hd)).
  - cbn. by rewrite (Hm d sz).
Qed.

(** A fresh page with the bytes of the old one takes its place. *)
Lemma cow_replace s l A d sz a e f :
  cow s l A -> (d, sz) ∈ A -> 0 <= a < KERNBASE -> mapping (mm s) d a = Some e ->
  page_ok f -> f ∉ l ->
  (forall d' sz', (d', sz') ∈ A -> ~ foot (mm s) d' f /\ ~ ufoot (mm s) d' f) ->
  (forall o, 0 <= o < PGSIZE -> mm s (f + o) = mm s (frame_of e + o)) ->
  let s' := set_mm (wr32 (mm s) (tab (mm s) d (PDX a) + 4 * PTX a) (upte f)) s in
  cow s' l A /\ same_views A s s' /\ mapping (mm s') d a = Some (upte f) /\
  unshared (mm s') A d f.
Proof.
  intros Hc Hd Ha He Hok Hfl Hff Hcopy s'.
  destruct (upte_facts f Hok) as (Hu1 & Hu2 & _ & Hu3 & _ & Hu5). fold (frame_of (upte f)) in Hu2.
  assert (Q1 : private_page s d l (frame_of (upte f))).
  { rewrite Hu2. destruct (Hff d sz Hd) as [Hn _]. split_and!; try done.
    - intros ->. apply Hn. by left.
    - intros Ht. apply Hn. by right. }
  assert (Q2 : forall va' e', 0 <= va' < KERNBASE -> mapping (mm s) d va' = Some e' ->
    frame_of e' = frame_of (upte f) -> va' / PGSIZE = a / PGSIZE).
  { intros va' e' Hva' E Ef. rewrite Hu2 in Ef. destruct (Hff d sz Hd) as [_ []].
    rewrite <- Ef. by exists va', e'. }
  assert (Q3 : forall d' sz', (d', sz') ∈ A -> d' <> d -> ~ foot (mm s) d' (frame_of (upte f))).
  { intros d' sz' Hd' _. rewrite Hu2. by apply (Hff d' sz'). }
  assert (Q4 : forall d' sz' va' e', (d', sz') ∈ A -> d' <> d -> 0 <= va' < KERNBASE ->
    mapping (mm s) d' va' = Some e' -> frame_of e' = frame_of (upte f) ->
    va' / PGSIZE = a / PGSIZE /\ e' = upte f /\ has (upte f) PTE_W = false).
  { intros d' sz' va' e' Hd' _ Hva' E Ef. rewrite Hu2 in Ef. destruct (Hff d' sz' Hd') as [_ []].
    rewrite <- Ef. by exists va', e'. }
  split; [by eapply cow_store|]. split; [split|split].
  - intros d' sz' va' Hd' Hva'. eapply (store_views s l A d sz a e (upte f)); try done.
    intros o Ho. cbn beta. rewrite Hu2, Hcopy by done. f_equal. lia.
  - intros d' sz' i Hd' Hi. destruct (decide (d' = d)) as [->|Hne].
    + by apply (store_word s l A d sz a e (upte f)).
    + by apply (store_other s l A d sz a e (upte f) Hc Hd He d' sz').
  - intros d' sz' x Hd' Hx. destruct (decide (d' = d)) as [->|Hne].
    + by apply (store_uacc s l A d sz a e (upte f)).
    + unfold uacc.
      by rewrite (proj1 (proj2 (store_other s l A d sz a e (upte f) Hc Hd He d' sz' Hd' Hne))).
  - done.
  - cbn. rewrite (store_mapping s l A d sz a e (upte f)) by (done || klia).
    by rewrite Z.eqb_refl.
  - intros d' sz' Hd' Hne (x & ex & Hx & Ex & Ef).
    destruct (store_other s l A d sz a e (upte f) Hc Hd He d' sz' Hd' Hne) as (_ & W & _).
    fold s' in W. rewrite W in Ex. apply (Hff d' sz' Hd'). by exists x, ex.
Qed.

Lemma copypage_frame_spec s f l A d sz va e :
  cow s (f :: l) A -> (d, sz) ∈ A -> cr3 s = v2p d -> 0 <= va < KERNBASE ->
  mapping (mm s) d va = Some e ->
  wp (copypage_frame d va) s (fun _ s' => cow s' l A /\ same_views A s s' /\
    mapping (mm s') d va = Some (upte f) /\ unshared (mm s') A d f).
Proof.
  intros Hc Hd Hcr Hva He. destruct (page_base va Hva) as (Ha & Hr & Hp).
  pose proof He as He0.
  rewrite (mapping_page _ _ va (PGROUNDDOWN va)) in He by (done || klia).
  pose proof (fw_pages _ _ (cw_free _ _ _ Hc)) as [Hok _]%Forall_cons.
  pose proof (page_ok_bounds f Hok) as (_ & _ & Hf0).
  unfold copypage_frame. apply wp_bind. wp_use kalloc_spec; [apply Hc|].
  intros r s0 (-> & -> & _). rewrite (proj2 (Z.eqb_neq f 0)) by done.
  apply (copy_fresh s f l A d sz (PGROUNDDOWN va) e); try done.
  destruct (cow_mapped _ _ _ _ _ _ _ Hc Hd Hr He) as [_ (Heok & Hel & _)].
  assert (Hne : frame_of e <> f) by (intros Eq; apply Hel; rewrite Eq; by left).
  destruct (cow_alloc s f l A (copied_page (mm s) f (frame_of e)) Hc) as (C1 & V1 & Hm & F1).
  { by apply copied_page_frame, page_ok_aligned. }
  fold (copy_state s f e) in C1, V1. set (s1 := copy_state s f e) in *.
  change (copied_page (mm s) f (frame_of e)) with (mm s1) in Hm, F1.
  destruct F1 as (_ & Hfl & Hff).
  rewrite <- (Hm d sz) in He by done.
  pose proof (pt_wf _ _ _ (uv_inv _ _ _ _ (cw_uvm _ _ _ C1 d sz Hd))) as Hwf.
  destruct (wpgdir_eq s1 d _ e Hwf He) as (W & Hh & _).
  apply wp_bind. unfold wp at 1, wpgdir. rewrite W. apply wp_bind, wp_stv; [done|].
  rewrite pte_new.
  destruct (cow_replace s1 l A d sz (PGROUNDDOWN va) e f C1 Hd Hr He Hok Hfl Hff)
    as (C2 & V2 & M2 & U2).
  { intros o Ho. cbn. rewrite copied_page_same by
      (done || (by apply page_ok_aligned) || apply frame_of_aligned).
    symmetry. apply copied_page_frame; [by apply page_ok_aligned|apply frame_of_aligned|done|done]. }
  set (s2 := set_mm _ s1) in *.
  destruct (upte_facts f Hok) as (_ & Hu2 & _). fold (frame_of (upte f)) in Hu2.
  wp_use (copypage_nothing_spec s2 l A d sz va (upte f)); try done.
  - by rewrite (mapping_page _ _ va (PGROUNDDOWN va)) by (done || klia).
  - by rewrite Hu2.
  - intros _ s3 (C3 & V3 & M3 & U3). rewrite Hu2 in U3.
    split; [done|]. split; [by repeat (eapply same_views_trans; [eassumption|])|].
    split; [|done]. rewrite M3. f_equal. unfold upte. by rewrite <- Z.lor_assoc.
Qed.

End CowFacts.
