(* ===== verification/CowFault.v ===== *)
(** * Copy-on-write: the page fault handler

    [cow_k] extends the sharing invariant to the kernel state: the used slots
    of the process table are a prefix of it, each holds a live process, and
    the page directory in use is the current process's.  Under it [isshared]
    finds a sharer if there is one, and [trapCOW] makes the faulting page
    private and writable without changing what any process reads. *)

From S2P Require Import Prelude Layout Mem Kalloc Vm VmFacts UvmFacts UvmAlloc State Cow CowFacts.

Open Scope Z_scope.

Section CowFault.
Context `{KernelImage} `{!KernelImageOk}.

Definition live (p : proc) : Prop :=
  p_pid p <> 0 /\ (p_state p = SLEEPING \/ p_state p = RUNNABLE \/ p_state p = RUNNING).

Definition space (p : proc) : Z * Z := (p_pgdir p, p_sz p).

(** The address spaces of the first [n] slots. *)
Definition spaces (k : kstate) (n : nat) : list (Z * Z) := space <$> take n (procs k).

Record cow_k (k : kstate) (l : list Z) (n me : nat) (p : proc) : Prop := {
  ck_len : length (procs k) = 64%nat;
  ck_live : forall i q, procs k !! i = Some q -> (i < n)%nat -> live q;
  ck_unused : forall i q, procs k !! i = Some q -> (n <= i)%nat ->
    p_pid q = 0 /\ p_state q = UNUSED;
  ck_cow : cow (ms k) l (spaces k n);
  ck_pde : forall d sz, (d, sz) ∈ spaces k n ->
    has (word (mm (ms k)) d 0) PTE_W = true /\ has (word (mm (ms k)) d 0) PTE_U = true;
  ck_cur : cur k = Some me /\ (me < n)%nat /\ procs k !! me = Some p;
  ck_cr3 : cr3 (ms k) = v2p (p_pgdir p)
}.

Lemma spaces_elem k n i q :
  procs k !! i = Some q -> (i < n)%nat -> (p_pgdir q, p_sz q) ∈ spaces k n.
Proof.
  intros E Hi. unfold spaces. apply list_elem_of_fmap. exists q. split; [done|].
  apply list_elem_of_lookup. exists i. by rewrite lookup_take_lt.
Qed.

Lemma spaces_inv k n d sz :
  (d, sz) ∈ spaces k n -> exists i q, procs k !! i = Some q /\ (i < n)%nat /\
    d = p_pgdir q /\ sz = p_sz q.
Proof.
  unfold spaces. rewrite list_elem_of_fmap. intros (q & [= -> ->] & Hq).
  apply list_elem_of_lookup in Hq as [i Hi]. apply lookup_take_Some in Hi as [Hi Hlt].
  exists i, q. auto.
Qed.

(** Distinct slots have distinct directories. *)
Lemma spaces_distinct k n i j q r :
  NoDup (spaces k n).*1 -> procs k !! i = Some q -> procs k !! j = Some r ->
  (i < n)%nat -> (j < n)%nat -> i <> j -> p_pgdir q <> p_pgdir r.
Proof.
  intros Hnd Hi Hj Hin Hjn Hne E. apply Hne.
  eapply (NoDup_lookup _ i j (p_pgdir q) Hnd); unfold spaces;
    rewrite <- list_fmap_compose, list_lookup_fmap, lookup_take_lt by done.
  - by rewrite Hi.
  - rewrite Hj. cbn. by rewrite E.
Qed.

Section Shared.
Variables (k : kstate) (l : list Z) (n me : nat) (p : proc) (va e : Z).
Hypothesis Hk : cow_k k l n me p.
Hypothesis Hva : 0 <= va < KERNBASE.
Hypothesis He : mapping (mm (ms k)) (p_pgdir p) va = Some e.

Let m := mm (ms k).
Let d := p_pgdir p.
Let A := spaces k n.

Lemma me_in : (d, p_sz p) ∈ A.
Proof. destruct (ck_cur _ _ _ _ _ Hk) as (_ & Hn & Hp). by apply (spaces_elem k n me). Qed.

(** What the code reads of another process at the faulting address. *)
Lemma other_entry i q :
  procs k !! i = Some q -> (i < n)%nat -> i <> me ->
  d <> p_pgdir q /\ word m d (PDX va) <> word m (p_pgdir q) (PDX va) /\
  present m (p_pgdir q) (PDX va) /\
  (word m (tab m (p_pgdir q) (PDX va)) (PTX va) = e <-> ufoot m (p_pgdir q) (frame_of e)).
Proof.
  intros Hq Hi Hne. pose proof (ck_cow _ _ _ _ _ Hk) as Hc.
  destruct (ck_cur _ _ _ _ _ Hk) as (_ & Hn & Hp).
  assert (Hdd : d <> p_pgdir q).
  { apply (spaces_distinct k n me i p q (cw_nodup _ _ _ Hc) Hp Hq Hn Hi). congruence. }
  pose proof (spaces_elem k n i q Hq Hi) as Hqa. fold A in Hqa.
  destruct (mapping_Some _ _ _ _ He) as (Hpr & Hw & Hep).
  destruct (cow_small _ _ _ _ _ _ _ Hc me_in Hva He) as [_ Hx].
  pose proof (PDX_range va) as Hrx.
  assert (Hq0 : present m (p_pgdir q) (PDX va)).
  { pose proof (cw_size _ _ _ Hc _ _ Hqa) as Hs.
    destruct (uv_some _ _ _ _ (cw_uvm _ _ _ Hc _ _ Hqa) 0) as (e0 & E0 & _); [klia| |].
    - rewrite PGROUNDUP_eq by klia. unfold PGSIZE in *. Z.div_mod_to_equations. lia.
    - destruct (mapping_Some _ _ _ _ E0) as (Hp0 & _). by rewrite Hx. }
  split; [done|]. split.
  - intros E. destruct (cw_sep _ _ _ Hc d (p_sz p) (p_pgdir q) (p_sz q) (tab m d (PDX va)))
      as [Hf _]; [apply me_in|done|done| |].
    + right. exists (PDX va). auto.
    + apply Hf. right. exists (PDX va). split; [done|]. split; [done|].
      unfold tab. do 2 f_equal. exact E.
  - split; [done|]. split.
    + intros E. exists va, e. split; [done|]. split; [|done].
      unfold mapping. unfold present in Hq0. fold m. by rewrite Hq0, E, Hep.
    + intros (x & ex & Hxr & Ex & Ef).
      destruct (cw_share _ _ _ Hc d (p_sz p) (p_pgdir q) (p_sz q) va x e ex)
        as (Epg & -> & _); [apply me_in|done..|].
      fold m in Ex. rewrite (mapping_page m _ x va) in Ex by (done || klia).
      by destruct (mapping_Some _ _ _ _ Ex) as (_ & ? & _).
Qed.

(** One iteration of [isshared] on the slot of another process. *)
Lemma isshared_step i q c Q :
  procs k !! i = Some q -> (i < n)%nat -> i <> me ->
  (if e =? word m (tab m (p_pgdir q) (PDX va)) (PTX va) then Q FRAME k
   else wp (isshared_loop me va (S i) c) k Q) ->
  wp (isshared_loop me va i (S c)) k Q.
Proof.
  intros Hq Hlt Hne HQ. cbn [isshared_loop].
  destruct (ck_cur _ _ _ _ _ Hk) as (_ & Hn & Hp). pose proof (ck_cow _ _ _ _ _ Hk) as Hc.
  apply wp_bind, (wp_pget i q); [done|].
  destruct (ck_live _ _ _ _ _ Hk i q Hq Hlt) as [Hpid Hst].
  rewrite (proj2 (Z.eqb_neq _ 0)) by done.
  rewrite bool_decide_eq_false_2 by (intros E; rewrite E in Hst; naive_solver).
  cbn [orb]. rewrite (proj2 (Nat.eqb_neq i me)) by done.
  apply wp_bind, (wp_pget me p); [done|].
  destruct (other_entry i q Hq Hlt Hne) as (Hd & Hw & Hpr & _).
  rewrite (proj2 (Z.eqb_neq _ _)) by done.
  assert (Hwf : forall r j, procs k !! j = Some r -> (j < n)%nat -> pd_wf m (p_pgdir r)).
  { intros r j Hr Hj. eapply pt_wf, uv_inv, (cw_uvm _ _ _ Hc).
    by apply (spaces_elem k n j r). }
  pose proof (Hwf p me Hp Hn) as Hwp. pose proof (Hwf q i Hq Hlt) as Hwq.
  pose proof (page_ok_high _ (pd_page _ _ Hwp)). pose proof (page_ok_high _ (pd_page _ _ Hwq)).
  pose proof (PDX_range va) as Hrx. pose proof (PTX_range va) as Htx.
  assert (Eks : ks_ms (ms k) k = k) by (by destruct k).
  apply wp_bind, wp_liftM, wp_ldv; [lia|]. rewrite Eks.
  apply wp_bind, wp_liftM, wp_ldv; [lia|]. rewrite Eks.
  fold (word (mm (ms k)) (p_pgdir p) (PDX va)) (word (mm (ms k)) (p_pgdir q) (PDX va)).
  rewrite (proj2 (Z.eqb_neq _ _)) by done.
  destruct (wpgdir_eq (ms k) (p_pgdir p) va e Hwp He) as (W1 & G1 & R1).
  apply wp_bind, wp_liftM. unfold wp at 1, wpgdir. rewrite W1, Eks.
  apply wp_bind, wp_liftM. unfold wp at 1, wpgdir.
  rewrite walkpgdir_noalloc by done. unfold present, m in Hpr. rewrite Hpr, Eks.
  destruct (pd_tabs _ _ Hwq (PDX va) Hrx Hpr) as [Htok _].
  pose proof (page_ok_high _ Htok) as Hth. unfold m in Hth.
  apply wp_bind, wp_liftM, wp_ldv; [done|]. rewrite R1, Eks.
  apply wp_bind, wp_liftM, wp_ldv; [lia|]. rewrite Eks.
  fold (word (mm (ms k)) (tab (mm (ms k)) (p_pgdir q) (PDX va)) (PTX va)). fold m.
  by destruct (e =? word m (tab m (p_pgdir q) (PDX va)) (PTX va)).
Qed.

(** No process in the slots below [i] shares the frame. *)
Definition none_below (i : nat) : Prop :=
  forall j q, procs k !! j = Some q -> (j < i)%nat -> (j < n)%nat -> j <> me ->
    ~ ufoot m (p_pgdir q) (frame_of e).

Lemma none_below_all i : (n <= i)%nat \/ i = 64%nat -> none_below i -> unshared m A d (frame_of e).
Proof.
  destruct (ck_cur _ _ _ _ _ Hk) as (_ & Hn & Hp).
  intros Hi Hall d' sz' Hd' Hne. apply spaces_inv in Hd' as (j & q & Hq & Hj & -> & ->).
  pose proof (lookup_lt_Some _ _ _ Hq) as Hlt. rewrite (ck_len _ _ _ _ _ Hk) in Hlt.
  apply (Hall j q Hq); [lia|done|]. intros ->. apply Hne. unfold d. congruence.
Qed.

Lemma isshared_loop_spec c : forall i,
  (i + c = 64)%nat -> none_below i ->
  wp (isshared_loop me va i c) k (fun r k' => k' = k /\
    (r = FRAME /\ ~ unshared m A d (frame_of e) \/ r = NOTHING /\ unshared m A d (frame_of e))).
Proof.
  induction c as [|c IH]; intros i Hic Hall.
  { apply wp_ret. split; [done|]. right. split; [done|].
    apply (none_below_all i); [lia|done]. }
  destruct (lookup_lt_is_Some_2 (procs k) i) as [q Hq].
  { rewrite (ck_len _ _ _ _ _ Hk). lia. }
  destruct (Nat.le_gt_cases n i) as [Hge|Hlt].
  { cbn [isshared_loop]. apply wp_bind, (wp_pget i q); [done|].
    destruct (ck_unused _ _ _ _ _ Hk i q Hq Hge) as [-> _]. cbn [Z.eqb]. apply wp_ret.
    split; [done|]. right. split; [done|]. apply (none_below_all i); [by left|done]. }
  destruct (decide (i = me)) as [->|Hne].
  { cbn [isshared_loop]. apply wp_bind, (wp_pget me q); [done|].
    destruct (ck_live _ _ _ _ _ Hk me q Hq Hlt) as [Hpid _].
    rewrite (proj2 (Z.eqb_neq _ 0)), Nat.eqb_refl, orb_true_r by done.
    apply IH; [lia|]. intros j r Hr Hj Hjn Hjm. apply (Hall j r Hr); [lia|done|done]. }
  destruct (other_entry i q Hq Hlt Hne) as (Hd & _ & _ & Hiff).
  apply (isshared_step i q); try done.
  destruct (Z.eqb_spec e (word m (tab m (p_pgdir q) (PDX va)) (PTX va))) as [E|E].
  - split; [done|]. left. split; [done|]. intros Hun.
    apply (Hun (p_pgdir q) (p_sz q)); [by apply (spaces_elem k n i)|congruence|].
    by apply Hiff.
  - apply IH; [lia|]. intros j r Hr Hj Hjn Hjm. destruct (decide (j = i)) as [->|].
    + assert (r = q) as -> by congruence. intros Hu. by apply E, eq_sym, Hiff.
    + apply (Hall j r Hr); [lia|done|done].
Qed.

Lemma isshared_spec :
  wp (isshared va) k (fun r k' => k' = k /\
    (r = FRAME /\ ~ unshared m A d (frame_of e) \/ r = NOTHING /\ unshared m A d (frame_of e))).
Proof.
  destruct (ck_cur _ _ _ _ _ Hk) as (Hcur & _). unfold isshared.
  apply wp_bind, (wp_myproc me); [done|]. apply isshared_loop_spec; [done|].
  intros j q _ Hj. lia.
Qed.
End Shared.

(** ** trapCOW *)

(** The invariant after a change of memory that keeps the views. *)
Lemma cow_k_ms k l n me p s l' :
  cow_k k l n me p -> cow s l' (spaces k n) -> same_views (spaces k n) (ms k) s ->
  cow_k (ks_ms s k) l' n me p.
Proof.
  intros Hk Hc [_ W _ (_ & R & _)]. destruct Hk as [K1 K2 K3 _ K4 K5 K6]. split; try done.
  - intros d sz Hd. cbn in *. rewrite (W d sz) by (done || lia). by apply (K4 d sz).
  - cbn. by rewrite R.
Qed.

Lemma copypage_spec k f l n me p e :
  cow_k k (f :: l) n me p -> 0 <= cr2 k < KERNBASE ->
  mapping (mm (ms k)) (p_pgdir p) (cr2 k) = Some e ->
  wp copypage k (fun _ k' => exists s' l' e', k' = ks_ms s' k /\
    cow s' l' (spaces k n) /\ same_views (spaces k n) (ms k) s' /\
    mapping (mm s') (p_pgdir p) (cr2 k) = Some e' /\ has e' PTE_W = true /\
    (has e PTE_U = true -> has e' PTE_U = true) /\
    unshared (mm s') (spaces k n) (p_pgdir p) (frame_of e') /\
    (l' = f :: l \/ l' = l)).
Proof.
  intros Hk Hva He. destruct (ck_cur _ _ _ _ _ Hk) as (Hcur & Hn & Hp).
  pose proof (ck_cow _ _ _ _ _ Hk) as Hc.
  pose proof (me_in k (f :: l) n me p Hk) as Hin.
  unfold copypage. apply wp_bind, wp_gets. apply wp_bind.
  wp_use (isshared_spec k (f :: l) n me p (cr2 k) e Hk Hva He).
  intros r k' (-> & Hr). apply wp_bind, (wp_myproc me); [done|].
  apply wp_bind, (wp_pget me p); [done|].
  destruct Hr as [[-> _]|[-> Hun]]; apply wp_liftM.
  - pose proof (fw_pages _ _ (cw_free _ _ _ Hc)) as [Hok _]%Forall_cons.
    destruct (upte_facts f Hok) as (_ & Hu2 & _ & _ & Hu3 & Hu4).
    wp_use (copypage_frame_spec (ms k) f l _ _ _ (cr2 k) e Hc Hin (ck_cr3 _ _ _ _ _ Hk)); try done.
    intros _ s' (C & V & M & U). exists s', l, (upte f).
    split_and!; try done; [|by right]. unfold frame_of. by rewrite Hu2.
  - wp_use (copypage_nothing_spec (ms k) (f :: l) _ _ _ (cr2 k) e Hc Hin); try done.
    intros _ s' (C & V & M & U). exists s', (f :: l), (Z.lor e PTE_W).
    split_and!; try done.
    + apply has_lor_W.
    + intros HU. rewrite has_lor_flag, HU. done.
    + rewrite frame_of_lor; [done|]. unfold PTE_W, PGSIZE. lia.
    + by left.
Qed.

Lemma cow_k_lock k l n me p b : cow_k k l n me p -> cow_k (ks_pt_lock b k) l n me p.
Proof. intros [K1 K2 K3 K4 K5 K6 K7]. by split. Qed.

Lemma trapCOW_spec k f l n me p e :
  cow_k k (f :: l) n me p -> pt_lock k = false -> 0 <= cr2 k < KERNBASE ->
  mapping (mm (ms k)) (p_pgdir p) (cr2 k) = Some e ->
  wp trapCOW k (fun _ k' => exists s' l' e', k' = ks_ms s' k /\
    cow_k k' l' n me p /\ same_views (spaces k n) (ms k) s' /\
    mapping (mm s') (p_pgdir p) (cr2 k) = Some e' /\ has e' PTE_W = true /\
    (has e PTE_U = true -> has e' PTE_U = true) /\
    unshared (mm s') (spaces k n) (p_pgdir p) (frame_of e') /\
    (l' = f :: l \/ l' = l)).
Proof.
  intros Hk Hl Hva He. unfold trapCOW. apply wp_bind, wp_acquire; [done|].
  apply wp_bind. wp_use (copypage_spec (ks_pt_lock true k) f l n me p e
    (cow_k_lock _ _ _ _ _ true Hk) Hva He).
  intros _ k' (s' & l' & e' & -> & C & V & M & Rest). apply wp_release; [done|].
  assert (E : set_lock LkPtable false (ks_ms s' (ks_pt_lock true k)) = ks_ms s' k).
  { destruct k. cbn in Hl. by subst. }
  rewrite E. exists s', l', e'. split; [done|]. split; [|done].
  by apply (cow_k_ms k (f :: l)).
Qed.

(** ** Stores by user code *)

(** The address a user-mode store reaches: both entries must be present,
    writable and accessible to the user. *)
Definition user_flags (e : Z) : bool := has e PTE_P && has e PTE_W && has e PTE_U.

Definition user_translate (m : mem) (d va : Z) : option Z :=
  let pde := word m d (PDX va) in
  let pte := word m (tab m d (PDX va)) (PTX va) in
  if user_flags pde && user_flags pte then Some (frame_of pte + va mod PGSIZE) else None.

(** A store instruction of the current process: [false] when it faults, with
    the address in [cr2]. *)
Definition try_store (va : Z) (b : byte) : KM bool :=
  let! me := myproc in
  let! p := pget me in
  let! m := gets (fun k => mm (ms k)) in
  match user_translate m (p_pgdir p) va with
  | Some a => liftM (memM (fun m => upd m a b)) ;;; ret true
  | None => modify (ks_cr2 va) ;;; ret false
  end.

(** A byte written into a page with write permission. *)
Lemma cow_write s l A d sz va e b :
  cow s l A -> (d, sz) ∈ A -> 0 <= va < KERNBASE -> mapping (mm s) d va = Some e ->
  has e PTE_W = true ->
  let s' := set_mm (upd (mm s) (frame_of e + va mod PGSIZE) b) s in
  cow s' l A /\
  (forall d' sz' i, (d', sz') ∈ A -> 0 <= i < 1024 -> word (mm s') d' i = word (mm s) d' i) /\
  (forall d' sz' va', (d', sz') ∈ A -> uacc (mm s) d' va' -> uacc (mm s') d' va') /\
  uread (mm s') d va = Some b /\
  (forall va', 0 <= va' < KERNBASE -> va' <> va -> uread (mm s') d va' = uread (mm s) d va') /\
  (forall d' sz' va', (d', sz') ∈ A -> d' <> d -> 0 <= va' < KERNBASE ->
     uread (mm s') d' va' = uread (mm s) d' va').
Proof.
  intros Hc Hd Hva He HW s'.
  pose proof (Z.mod_pos_bound va PGSIZE ltac:(done)) as Ho.
  destruct (cow_mapped _ _ _ _ _ _ _ Hc Hd Hva He) as [_ (Hok & Hl & Hfd & Hft)].
  assert (F : frame (fun q => q = frame_of e) (mm s) (mm s')).
  { intros q Hq Hne o Hoo. apply upd_ne. intros E.
    destruct (aligned_offset q (frame_of e) o (va mod PGSIZE)); try done; by apply frame_of_aligned. }
  assert (Hue : ufoot (mm s) d (frame_of e)) by (by exists va, e).
  assert (Hnf : forall d' sz', (d', sz') ∈ A -> ~ foot (mm s) d' (frame_of e)).
  { intros d' sz' Hd' Hf. destruct (decide (d' = d)) as [->|Hne].
    - destruct Hf; done.
    - by destruct (cw_sep _ _ _ Hc d' sz' d sz _ Hd' Hd Hne Hf). }
  assert (Hun : forall d' sz', (d', sz') ∈ A -> d' <> d -> ~ ufoot (mm s) d' (frame_of e)).
  { intros d' sz' Hd' Hne (x & ex & Hx & Ex & Ef).
    destruct (cw_share _ _ _ Hc d sz d' sz' va x e ex) as (_ & _ & HW0); try done; congruence. }
  assert (Hwf' : free_wf s' l).
  { apply (free_wf_ext s); [apply Hc|done|apply (cw_free _ _ _ Hc)|].
    intros q Hq%list_elem_of_In. pose proof (fw_pages _ _ (cw_free _ _ _ Hc)) as Hp.
    rewrite Forall_forall in Hp. apply F; [apply Hp, Hq|congruence]. }
  destruct (cow_frame _ s s' l l A Hc F Hwf') as (C & M & W).
  { done. }
  { intros d' sz' q Hd' Hq ->. by apply (Hnf d' sz'). }
  split; [done|]. split; [done|]. split; [|split; [|split]].
  - intros d' sz' x Hd'. unfold uacc. by rewrite (M d' sz').
  - unfold uread. rewrite (M d sz), He by done. f_equal. apply upd_eq.
  - intros x Hx Hne. unfold uread. rewrite (M d sz) by done.
    destruct (mapping (mm s) d x) as [ex|] eqn:Ex; [|done]. f_equal.
    apply upd_ne. intros E. apply Hne.
    destruct (aligned_offset (frame_of ex) (frame_of e) (x mod PGSIZE) (va mod PGSIZE)) as [E1 E2];
      try done; try apply frame_of_aligned; [by apply Z.mod_pos_bound|].
    pose proof (uv_inj _ _ _ _ (cw_uvm _ _ _ Hc d sz Hd) x va ex e Hx Hva Ex He E1).
    rewrite (Z.div_mod x PGSIZE), (Z.div_mod va PGSIZE) by done. congruence.
  - intros d' sz' x Hd' Hne Hx. eapply uread_change; [exact F| |done|by apply (M d' sz')].
    intros q Hq ->. by apply (Hun d' sz' Hd' Hne).
Qed.

Lemma cow_k_cr2 k l n me p v : cow_k k l n me p -> cow_k (ks_cr2 v k) l n me p.
Proof. intros [K1 K2 K3 K4 K5 K6 K7]. by split. Qed.

(** What a store of [b] at [va] by process [d] may change of the views. *)
Definition stored (A : list (Z * Z)) (d va : Z) (b : byte) (s s' : mstate) : Prop :=
  (forall d' sz' va', (d', sz') ∈ A -> 0 <= va' < KERNBASE ->
     uacc (mm s) d' va' -> uacc (mm s') d' va') /\
  uread (mm s') d va = Some b /\
  (forall va', 0 <= va' < KERNBASE -> va' <> va -> uread (mm s') d va' = uread (mm s) d va') /\
  (forall d' sz' va', (d', sz') ∈ A -> d' <> d -> 0 <= va' < KERNBASE ->
     uread (mm s') d' va' = uread (mm s) d' va').

(** A store to a page that is mapped writable succeeds. *)
Lemma try_store_ok k l n me p va b e :
  cow_k k l n me p -> 0 <= va < KERNBASE -> mapping (mm (ms k)) (p_pgdir p) va = Some e ->
  has e PTE_U = true ->
  wp (try_store va b) k (fun ok k' =>
    if has e PTE_W
    then ok = true /\ exists s', k' = ks_ms s' k /\ cow_k k' l n me p /\
           stored (spaces k n) (p_pgdir p) va b (ms k) s'
    else ok = false /\ k' = ks_cr2 va k).
Proof.
  intros Hk Hva He HU. destruct (ck_cur _ _ _ _ _ Hk) as (Hcur & Hn & Hp).
  pose proof (me_in k l n me p Hk) as Hin. pose proof (ck_cow _ _ _ _ _ Hk) as Hc.
  destruct (mapping_Some _ _ _ _ He) as (Hpr & Hw & HP).
  destruct (cow_small _ _ _ _ _ _ _ Hc Hin Hva He) as [_ Hx].
  destruct (ck_pde _ _ _ _ _ Hk _ _ Hin) as [HdW HdU].
  unfold try_store. apply wp_bind, (wp_myproc me); [done|].
  apply wp_bind, (wp_pget me p); [done|]. apply wp_bind, wp_gets.
  unfold user_translate, user_flags. rewrite Hw.
  unfold present in Hpr. rewrite Hpr, Hx, HdW, HdU, HP, HU. cbn [andb].
  destruct (has e PTE_W) eqn:HW; cbn [andb].
  - apply wp_bind, wp_liftM, wp_modify, wp_ret. split; [done|].
    destruct (cow_write (ms k) l (spaces k n) (p_pgdir p) (p_sz p) va e b Hc Hin Hva He HW)
      as (C & W & Su & S).
    eexists. split; [done|]. split; [|split; [|exact S]].
    2: { intros d' sz' x Hd' _. by apply (Su d' sz'). }
    destruct Hk as [K1 K2 K3 _ K4 K5 K6]. split; try done.
    intros d sz Hd. cbn in *. rewrite (W d sz) by (done || lia). by apply (K4 d sz).
  - apply wp_bind, wp_modify, wp_ret. done.
Qed.

Lemma same_views_stored A d sz va b s s1 s2 :
  (d, sz) ∈ A -> same_views A s s1 -> stored A d va b s1 s2 -> stored A d va b s s2.
Proof.
  intros Hd [R _ U _] (S0 & S1 & S2 & S3). split; [|split; [done|split]].
  - intros d' sz' x Hd' Hx Hu. apply (S0 d' sz'); [done|done|]. by apply (U d' sz').
  - intros x Hx Hne. rewrite S2 by done. by apply (R d sz).
  - intros d' sz' x Hd' Hne Hx. rewrite (S3 d' sz') by done. by apply (R d' sz').
Qed.

End CowFault.
