(* ===== verification/CowFork.v ===== *)
(** * Copy-on-write: fork

    [fork_cow] write-protects the parent's image and builds the child's
    address space: a new directory, a copy of the page table and a copy of the
    last page.  The theorem: every process, the parent included, reads what it
    read before, the child reads the parent's memory, and the sharing invariant
    holds with the child added. *)

From S2P Require Import Prelude Layout Mem Kalloc Vm VmFacts UvmFacts UvmAlloc State Cow CowFacts.
From S2P Require Import CowFault.

Open Scope Z_scope.

Section CowFork.
Context `{KernelImage} `{!KernelImageOk}.

(** ** Flags of a directory entry *)

(** An address space whose tables are where they were, with the same content. *)
Lemma uvm_retab s s' d l U :
  uvm s d l U -> free_wf s' l ->
  (forall i, 0 <= i < 1024 -> present (mm s') d i <-> present (mm s) d i) ->
  (forall i, 0 <= i < 1024 -> present (mm s) d i ->
     tab (mm s') d i = tab (mm s) d i /\ same_page (tab (mm s) d i) (mm s) (mm s')) ->
  uvm s' d l U /\ (forall va, mapping (mm s') d va = mapping (mm s) d va) /\
  (forall q, foot (mm s') d q <-> foot (mm s) d q).
Proof.
  intros [[_ [Hd Ht Hj] Hdl Htl] Hs Hn Hi] Hf' Hp Htab.
  assert (Hm : forall va, mapping (mm s') d va = mapping (mm s) d va).
  { intros va. pose proof (PDX_range va) as Hr. pose proof (PTX_range va) as Hr'.
    unfold mapping. pose proof (Hp _ Hr) as E. unfold present in E.
    destruct (has (word (mm s) d (PDX va)) PTE_P) eqn:Ep.
    - destruct (Htab _ Hr Ep) as [-> Hsame].
      rewrite (proj2 E eq_refl), (same_page_word _ _ _ _ Hsame Hr'). done.
    - destruct (has (word (mm s') d (PDX va)) PTE_P); [|done]. by discriminate (proj1 E eq_refl). }
  assert (Hft : forall q, foot (mm s') d q <-> foot (mm s) d q).
  { intros q. unfold foot. split; (intros [?|(i & Hr & Hpr & ->)]; [by left|right]); exists i.
    - apply Hp in Hpr; [|done]. destruct (Htab i Hr Hpr) as [-> _]. auto.
    - destruct (Htab i Hr Hpr) as [-> _]. by rewrite Hp. }
  split; [|done]. split.
  - split; [done| |done|].
    + split; [done| |].
      * intros i Hr Hpr. apply Hp in Hpr; [|done]. destruct (Htab i Hr Hpr) as [-> _]. auto.
      * intros i j Hr Hr' Hpi Hpj. apply Hp in Hpi, Hpj; try done.
        destruct (Htab i Hr Hpi) as [-> _], (Htab j Hr' Hpj) as [-> _]. auto.
    + intros i Hr Hpr. apply Hp in Hpr; [|done]. destruct (Htab i Hr Hpr) as [-> _]. auto.
  - intros va Hva HU. destruct (Hs va Hva HU) as (e & E & (P1 & P2 & P3 & P4)).
    exists e. rewrite Hm. split; [done|]. split_and!; try done.
    intros Hx. assert (Hfo : foot (mm s) d (frame_of e)) by (apply Hft; by right).
    by destruct Hfo.
  - intros va Hva HU. rewrite Hm. auto.
  - intros va va' e e'. rewrite !Hm. apply Hi.
Qed.

(** Processes read the same; directories may differ in the entry for the
    first page table of [d], in the write flag only. *)
Record same_but_pde (A : list (Z * Z)) (d : Z) (s s' : mstate) : Prop := {
  sb_read : forall d' sz' va, (d', sz') ∈ A -> 0 <= va < KERNBASE ->
    uread (mm s') d' va = uread (mm s) d' va;
  sb_word : forall d' sz' i, (d', sz') ∈ A -> 0 <= i < 1024 -> ~ (d' = d /\ i = 0) ->
    word (mm s') d' i = word (mm s) d' i;
  sb_pde : PTE_ADDR (word (mm s') d 0) = PTE_ADDR (word (mm s) d 0) /\
    has (word (mm s') d 0) PTE_P = has (word (mm s) d 0) PTE_P /\
    has (word (mm s') d 0) PTE_U = has (word (mm s) d 0) PTE_U;
  sb_user : forall d' sz' va, (d', sz') ∈ A -> 0 <= va < KERNBASE ->
    uacc (mm s) d' va -> uacc (mm s') d' va;
  sb_regs : kpgdir s' = kpgdir s /\ cr3 s' = cr3 s /\ use_lock s' = use_lock s
}.

Lemma same_but_refl A d s : same_but_pde A d s s.
Proof. by split. Qed.

Lemma same_but_trans A d s1 s2 s3 :
  same_but_pde A d s1 s2 -> same_but_pde A d s2 s3 -> same_but_pde A d s1 s3.
Proof.
  intros [R1 W1 (a1 & b1 & c1) U1 (x1 & y1 & z1)] [R2 W2 (a2 & b2 & c2) U2 (x2 & y2 & z2)]. split.
  - intros d' sz' va Hd Hva. by rewrite (R2 d' sz'), (R1 d' sz').
  - intros d' sz' i Hd Hi Hn. by rewrite (W2 d' sz'), (W1 d' sz').
  - by rewrite a2, b2, c2.
  - intros d' sz' va Hd' Hva Hu. apply (U2 d' sz'); [done|done|]. by apply (U1 d' sz').
  - by rewrite x2, y2, z2.
Qed.

Lemma same_views_but A d sz s s' :
  (d, sz) ∈ A -> same_views A s s' -> same_but_pde A d s s'.
Proof.
  intros Hd [R W U G]. split; try done.
  - intros d' sz' i Hd' Hi _. by apply (W d' sz').
  - by rewrite (W d sz 0) by (done || lia).
Qed.

Section Pde.
Variables (s : mstate) (l : list Z) (A : list (Z * Z)) (d sz v : Z).
Hypothesis Hc : cow s l A.
Hypothesis Hd : (d, sz) ∈ A.
Hypothesis Hv : 0 <= v < 2 ^ 32.
Hypothesis Ea : PTE_ADDR v = PTE_ADDR (word (mm s) d 0).
Hypothesis Ep : has v PTE_P = has (word (mm s) d 0) PTE_P.
Hypothesis Eu : has v PTE_U = has (word (mm s) d 0) PTE_U.

Let s' := set_mm (wr32 (mm s) (d + 4 * 0) v) s.

Lemma pde_words :
  word (mm s') d 0 = v /\
  forall i, 0 <= i < 1024 -> i <> 0 -> word (mm s') d i = word (mm s) d i.
Proof.
  pose proof (page_ok_aligned _ (pd_page _ _ (pt_wf _ _ _
    (uv_inv _ _ _ _ (cw_uvm _ _ _ Hc d sz Hd))))) as Hda.
  unfold s'. cbn [mm set_mm]. split.
  - rewrite word_wr32 by (done || lia). by rewrite Z.eqb_refl.
  - intros i Hi Hne. rewrite word_wr32 by (done || lia).
    rewrite (proj2 (Z.eqb_neq 0 i)) by done. by rewrite andb_false_r.
Qed.

Lemma pde_frame : frame (fun q => q = d) (mm s) (mm s').
Proof.
  apply frame_wr32; [|lia]. apply page_ok_aligned.
  by apply (cow_foot_free s l A d sz d Hc Hd); left.
Qed.

Lemma pde_free : free_wf s' l.
Proof.
  pose proof (cw_free _ _ _ Hc) as Hf.
  apply (free_wf_ext s); [done|done|apply Hf|]. intros q Hq%list_elem_of_In.
  pose proof (fw_pages _ _ Hf) as Hp. rewrite Forall_forall in Hp.
  apply pde_frame; [apply Hp, Hq|]. intros ->.
  by destruct (cow_foot_free s l A d sz d Hc Hd); [left|].
Qed.

Lemma pde_space d' sz' :
  (d', sz') ∈ A -> uvm s' d' l (image sz') /\
  (forall va, mapping (mm s') d' va = mapping (mm s) d' va) /\
  (forall q, foot (mm s') d' q <-> foot (mm s) d' q) /\
  (forall i, 0 <= i < 1024 -> ~ (d' = d /\ i = 0) -> word (mm s') d' i = word (mm s) d' i) /\
  (forall i, 0 <= i < 1024 -> present (mm s') d' i <-> present (mm s) d' i).
Proof.
  intros Hd'. destruct pde_words as [Hw0 Hwi]. destruct (decide (d' = d)) as [->|Hne].
  - assert (Hp : forall i, 0 <= i < 1024 -> present (mm s') d i <-> present (mm s) d i).
    { intros i Hi. unfold present. destruct (decide (i = 0)) as [->|];
        [by rewrite Hw0, Ep|by rewrite Hwi]. }
    destruct (uvm_retab s s' d l (image sz') (cw_uvm _ _ _ Hc d sz' Hd') pde_free Hp)
      as (H1 & H2 & H3).
    + intros i Hi Hpr. split.
      * unfold tab. destruct (decide (i = 0)) as [->|]; [by rewrite Hw0, Ea|by rewrite Hwi].
      * apply pde_frame; [apply tab_aligned|].
        by apply (pt_wf _ _ _ (uv_inv _ _ _ _ (cw_uvm _ _ _ Hc d sz Hd))).
    + split_and!; try done. intros i Hi Hn. apply Hwi; [done|]. intros ->. by apply Hn.
  - destruct (uvm_change s s' d' l l sz' (fun q => q = d)) as (H1 & H2 & H3);
      [by apply (cw_uvm _ _ _ Hc)|apply pde_frame| |apply pde_free|done|].
    + intros q Hq ->.
      by destruct (cw_sep _ _ _ Hc d sz d' sz' d Hd Hd' (not_eq_sym Hne) (or_introl eq_refl)).
    + split; [done|]. split; [done|]. split; [by apply foot_change|].
      split; [auto|]. intros i Hi. by apply present_word, H3.
Qed.

Lemma cow_pde :
  cow s' l A /\ same_but_pde A d s s' /\ word (mm s') d 0 = v /\
  (forall d' sz' va, (d', sz') ∈ A -> mapping (mm s') d' va = mapping (mm s) d' va).
Proof.
  split; [|split; [split|split]].
  - split; try apply Hc; try apply pde_free.
    + intros d' sz' Hd'. by apply pde_space.
    + intros d' sz' i Hd' Hi Hp. apply (cw_one _ _ _ Hc d' sz' i Hd' Hi).
      destruct (pde_space d' sz' Hd') as (_ & _ & _ & _ & E). apply E; [lia|done].
    + intros d1 sz1 d2 sz2 q H1 H2 Hne.
      destruct (pde_space d1 sz1 H1) as (_ & _ & -> & _), (pde_space d2 sz2 H2) as (_ & M2 & -> & _).
      rewrite (ufoot_change _ _ _ M2). by apply (cw_sep _ _ _ Hc d1 sz1 d2 sz2).
    + intros d1 sz1 d2 sz2 va va' e e' H1 H2.
      destruct (pde_space d1 sz1 H1) as (_ & -> & _), (pde_space d2 sz2 H2) as (_ & -> & _).
      by apply (cw_share _ _ _ Hc d1 sz1 d2 sz2).
  - intros d' sz' va Hd' Hva. eapply uread_change; [apply pde_frame| |done|by apply (pde_space d' sz')].
    intros q Hq ->. destruct (decide (d' = d)) as [->|Hne].
    + by destruct (cow_ufoot_free s l A d sz' d Hc Hd' Hq) as (_ & _ & ? & _).
    + by destruct (cw_sep _ _ _ Hc d sz d' sz' d Hd Hd' (not_eq_sym Hne) (or_introl eq_refl)).
  - intros d' sz' i Hd'. by apply (pde_space d' sz').
  - by rewrite (proj1 pde_words).
  - intros d' sz' va Hd' _. unfold uacc. by rewrite (proj1 (proj2 (pde_space d' sz' Hd'))).
  - done.
  - apply pde_words.
  - intros d' sz' va Hd'. by apply (pde_space d' sz').
Qed.
End Pde.

(** ** Write-protecting the parent *)

Lemma clear_W_flags e :
  has (Z.land e (Z.lnot PTE_W)) PTE_P = has e PTE_P /\
  has (Z.land e (Z.lnot PTE_W)) PTE_U = has e PTE_U /\
  has (Z.land e (Z.lnot PTE_W)) PTE_W = false.
Proof.
  rewrite !has_land_lnot. change (Z.land (Z.lnot PTE_W) PTE_P) with PTE_P.
  change (Z.land (Z.lnot PTE_W) PTE_U) with PTE_U. change (Z.land (Z.lnot PTE_W) PTE_W) with 0.
  by rewrite Z.land_0_r.
Qed.

Lemma clear_W_id e : has e PTE_W = false -> Z.land e (Z.lnot PTE_W) = e.
Proof.
  unfold has. intros E. apply negb_false_iff, Z.eqb_eq in E.
  rewrite <- (Z.lor_ldiff_and e PTE_W) at 2. rewrite E, Z.lor_0_r. symmetry. apply Z.ldiff_land.
Qed.

Lemma small_PDX va : 0 <= va < 2 ^ 22 -> PDX va = 0.
Proof. intros Hva. rewrite PDX_eq. Z.div_mod_to_equations. lia. Qed.

Lemma image_bounds sz :
  PGSIZE <= sz <= 2 ^ 22 ->
  aligned (PGROUNDUP sz) /\ sz <= PGROUNDUP sz < sz + PGSIZE /\ PGROUNDUP sz <= 2 ^ 22.
Proof.
  intros Hs. rewrite PGROUNDUP_eq by klia. unfold aligned. rewrite Z.mod_mul by done.
  unfold PGSIZE in *. Z.div_mod_to_equations. lia.
Qed.

(** Setting the flags of the first directory entry, as the code does it. *)
Lemma wp_pde_store s l A d sz i v (Q : unit -> mstate -> Prop) :
  cow s l A -> (d, sz) ∈ A -> 0 <= i < 2 ^ 22 ->
  Q tt (set_mm (wr32 (mm s) (d + 4 * 0) (v (word (mm s) d 0))) s) ->
  wp (let! e := ldv (d + 4 * PDX i) in stv (d + 4 * PDX i) (v e)) s Q.
Proof.
  intros Hc Hd Hi HQ. rewrite small_PDX by done.
  pose proof (page_ok_high d (proj2 (cow_foot_free s l A d sz d Hc Hd (or_introl eq_refl)))).
  apply wp_bind, wp_ldv; [lia|]. apply wp_stv; [lia|]. exact HQ.
Qed.

Section Protect.
Variables (l : list Z) (A : list (Z * Z)) (d sz : Z).
Hypothesis Hd : (d, sz) ∈ A.

Lemma protect_step s i (Q : unit -> mstate -> Prop) :
  cow s l A -> 0 <= i < PGROUNDUP sz -> aligned i ->
  (forall s' e, cow s' l A -> same_but_pde A d s s' -> has e PTE_W = false ->
     (forall va, 0 <= va < KERNBASE -> mapping (mm s') d va =
        if va / PGSIZE =? i / PGSIZE then Some e else mapping (mm s) d va) -> Q tt s') ->
  wp (cleardtew d i ;;; clearptew d i) s Q.
Proof.
  intros Hc Hi Ha HQ. pose proof (cw_size _ _ _ Hc d sz Hd) as Hs.
  destruct (image_bounds sz Hs) as (Hr & Hb & Hk).
  assert (HiK : 0 <= i < KERNBASE) by klia.
  destruct (uv_some _ _ _ _ (cw_uvm _ _ _ Hc d sz Hd) i HiK) as (e & He & _); [lia|].
  apply wp_bind. unfold cleardtew.
  apply (wp_pde_store s l A d sz i (fun e => Z.land e (Z.lnot PTE_W)) _ Hc Hd); [lia|].
  destruct (clear_W_flags (word (mm s) d 0)) as (F1 & F2 & _).
  destruct (cow_pde s l A d sz (Z.land (word (mm s) d 0) (Z.lnot PTE_W)) Hc Hd)
    as (C1 & S1 & _ & M1); try done.
  { apply land_lnot_range; [apply rd32_range|unfold PTE_W; lia]. }
  { apply PTE_ADDR_land_lnot. unfold PTE_W, PGSIZE. lia. }
  set (s1 := set_mm _ s) in *.
  assert (He1 : mapping (mm s1) d i = Some e) by (by rewrite (M1 d sz)).
  unfold wp. rewrite (clearptew_eq s1 d i e) by
    (done || apply (uv_inv _ _ _ _ (cw_uvm _ _ _ C1 d sz Hd))).
  destruct (mapping_Some _ _ _ _ He) as (_ & _ & HeP).
  destruct (clear_W_flags e) as (G1 & G2 & G3).
  destruct (cow_flags s1 l A d sz i e (Z.land e (Z.lnot PTE_W)) C1 Hd HiK He1)
    as (C2 & S2 & M2 & _).
  { apply land_lnot_range; [by eapply entry_range|unfold PTE_W; lia]. }
  { by rewrite G1. }
  { done. }
  { apply frame_of_clear. unfold PTE_W, PGSIZE. lia. }
  { intros d' sz' va' e' Hd' Hne Hva' E Ef. apply clear_W_id.
    by destruct (cw_share _ _ _ C1 d sz d' sz' i va' e e') as (_ & _ & ?). }
  apply (HQ _ (Z.land e (Z.lnot PTE_W))); try done.
  - eapply same_but_trans; [exact S1|]. by apply (same_views_but A d sz).
  - intros va Hva. rewrite M2 by klia. by rewrite (M1 d sz).
Qed.

Lemma protect_loop_spec n : forall s i fuel,
  cow s l A -> aligned i -> 0 <= i -> i + Z.of_nat n * PGSIZE = PGROUNDUP sz - PGSIZE ->
  (n <= fuel)%nat ->
  wp (protect_loop d i (sz - PGSIZE) fuel) s (fun r s' =>
    r = PGROUNDUP sz - PGSIZE /\ cow s' l A /\ same_but_pde A d s s' /\
    (forall va e, i <= va < PGROUNDUP sz - PGSIZE -> mapping (mm s') d va = Some e ->
       has e PTE_W = false) /\
    (forall va, 0 <= va < i \/ PGROUNDUP sz - PGSIZE <= va < KERNBASE ->
       mapping (mm s') d va = mapping (mm s) d va)).
Proof.
  induction n as [|n IH]; intros s i fuel Hc Ha Hi Hn Hf.
  all: pose proof (cw_size _ _ _ Hc d sz Hd) as Hs; destruct (image_bounds sz Hs) as (Hr & Hb & Hk).
  - assert (i = PGROUNDUP sz - PGSIZE) as -> by lia.
    destruct fuel; cbn [protect_loop]; rewrite (proj2 (Z.ltb_ge _ _)) by lia;
      apply wp_ret; (split; [done|]); (split; [done|]); (split; [apply same_but_refl|]);
      split; intros; done || lia.
  - destruct fuel as [|fuel]; [lia|]. cbn [protect_loop].
    rewrite (proj2 (Z.ltb_lt _ _)) by klia.
    assert (Hcomb : forall (a b : MM unit) (k : MM Z) Q,
      wp (a ;;; b) s (fun _ s' => wp k s' Q) -> wp (a ;;; b ;;; k) s Q).
    { intros a b k Q W. apply wp_bind. apply wp_bind_inv in W.
      eapply wp_mono; [exact W|]. intros [] s' W'. by apply wp_bind. }
    apply Hcomb. apply (protect_step s i _ Hc); [klia|done|].
    intros s1 e C1 S1 HW M1. rewrite u32_small by klia.
    wp_use (IH s1 (i + PGSIZE) fuel C1); try klia.
    { unfold aligned, PGSIZE in *. Z.div_mod_to_equations. lia. }
    intros r s2 (-> & C2 & S2 & P2 & K2). split; [done|]. split; [done|].
    split; [by eapply same_but_trans|]. split.
    + intros va ev Hva E. destruct (Z.lt_ge_cases va (i + PGSIZE)).
      * rewrite K2, M1 in E by klia. rewrite (proj2 (Z.eqb_eq _ _)) in E;
          [injection E as <-; done|]. apply same_page_div; [done|lia].
      * apply (P2 va ev); [lia|done].
    + intros va Hva. rewrite K2, M1 by klia. rewrite (proj2 (Z.eqb_neq _ _)); [done|].
      rewrite same_page_div by done. klia.
Qed.
End Protect.

(** ** The child's address space *)

(** The present bit is in the first byte of an entry. *)
Lemma has_P_byte m m' p i q j :
  m' (p + 4 * i) = m (q + 4 * j) -> has (word m' p i) PTE_P = has (word m q j) PTE_P.
Proof.
  intros E. unfold has, word, rd32. rewrite E. do 2 f_equal.
  change PTE_P with (2 ^ 1 - 1). rewrite !land_ones_mod by lia.
  Z.div_mod_to_equations. lia.
Qed.

(** A directory whose first 2047 bytes were copied from another. *)
Lemma dir_copied m dst src i :
  aligned dst -> 0 <= i < 1024 ->
  let m' := memmove m dst src (PGSIZE / 2 - 1) in
  (i < 512 -> has (word m' dst i) PTE_P = has (word m src i) PTE_P) /\
  (512 <= i -> word m' dst i = word m dst i).
Proof.
  intros Hd Hi m'. change (PGSIZE / 2 - 1) with 2047 in m'. split; intros Hlt.
  - apply has_P_byte. unfold m'. rewrite memmove_spec by lia.
    rewrite (proj2 (Z.leb_le _ _)), (proj2 (Z.ltb_lt _ _)) by lia. cbn. f_equal. lia.
  - unfold word. apply rd32_ext. intros o Ho. unfold m'. rewrite memmove_spec by lia.
    rewrite (proj2 (Z.ltb_ge _ (dst + 2047))) by lia. by rewrite andb_false_r.
Qed.

(** The facts about memory from which the child's address space follows:
    [s1] is the state after [setupkvm], [s] the final one; [dn] is the child's
    directory, [t] its page table and [f] its copy of the last page. *)
Record child_mem (A : list (Z * Z)) (d last : Z) (dn t f : Z) (s1 s : mstate) : Prop := {
  cm_pde : word (mm s) dn 0 = upte t;
  cm_user : forall i, 1 <= i < 512 -> ~ present (mm s) dn i;
  cm_kern : forall i, 512 <= i < 1024 -> word (mm s) dn i = word (mm s1) dn i;
  cm_tab : forall j, 0 <= j < 1024 -> word (mm s) t j =
    if j =? PTX last then upte f else word (mm s1) (tab (mm s1) d 0) j;
  cm_frame : frame (fun q => q = dn \/ q = t \/ q = f \/ q = d) (mm s1) (mm s);
  cm_map : forall d' sz' va, (d', sz') ∈ A -> mapping (mm s) d' va = mapping (mm s1) d' va;
  cm_copy : forall e o, mapping (mm s1) d last = Some e -> 0 <= o < PGSIZE ->
    mm s (f + o) = mm s1 (frame_of e + o);
  cm_foot : forall d' sz' q, (d', sz') ∈ A -> foot (mm s) d' q <-> foot (mm s1) d' q
}.

(** The last page of an image. *)
Lemma last_bounds sz :
  PGSIZE <= sz <= 2 ^ 22 ->
  let last := PGROUNDUP sz - PGSIZE in
  aligned last /\ 0 <= last <= 2 ^ 22 - 4096 /\ last + PGSIZE = PGROUNDUP sz.
Proof.
  intros Hs last. destruct (image_bounds sz Hs) as (Hr & Hb & Hk). unfold last.
  unfold aligned, PGSIZE in *. Z.div_mod_to_equations. lia.
Qed.

Lemma cow_table0 s l A d sz : cow s l A -> (d, sz) ∈ A -> present (mm s) d 0.
Proof.
  intros Hc Hd. destruct (last_bounds sz (cw_size _ _ _ Hc d sz Hd)) as (_ & Hr & Hl).
  destruct (uv_some _ _ _ _ (cw_uvm _ _ _ Hc d sz Hd) 0) as (e & E & _); [klia|klia|].
  by destruct (mapping_Some _ _ _ _ E).
Qed.

Section Child.
Variables (s1 s : mstate) (l used : list Z) (A : list (Z * Z)) (d sz dn t f : Z).
Hypothesis Hc1 : cow s1 (t :: f :: l) A.
Hypothesis Hc : cow s l A.
Hypothesis Hd : (d, sz) ∈ A.
Hypothesis Hdn : pt_inv s1 dn (t :: f :: l).
Hypothesis Hused : forall i, 0 <= i < 1024 -> present (mm s1) dn i ->
  512 <= i /\ tab (mm s1) dn i ∈ used.
(** The pages of the kernel part are new: neither free nor in use. *)
Hypothesis Hnew : forall q, q ∈ dn :: used -> forall d' sz', (d', sz') ∈ A ->
  ~ foot (mm s1) d' q /\ ~ ufoot (mm s1) d' q.
Hypothesis Hnd : NoDup (dn :: used ++ t :: f :: l).
Hypothesis Hcm : child_mem A d (PGROUNDUP sz - PGSIZE) dn t f s1 s.
Hypothesis Hprot : forall va e, 0 <= va < PGROUNDUP sz - PGSIZE ->
  mapping (mm s1) d va = Some e -> has e PTE_W = false.

Let last := PGROUNDUP sz - PGSIZE.

Lemma child_pages :
  page_ok dn /\ page_ok t /\ page_ok f /\ t <> f /\ t <> dn /\ f <> dn /\
  t ∉ l /\ f ∉ l /\ dn ∉ l /\ t ∉ used /\ f ∉ used.
Proof.
  pose proof (fw_pages _ _ (cw_free _ _ _ Hc1)) as [Ht [Hf _]%Forall_cons]%Forall_cons.
  pose proof (pd_page _ _ (pt_wf _ _ _ Hdn)) as Hp.
  apply NoDup_cons in Hnd as [H1 (H2 & H3 & H4)%NoDup_app].
  apply NoDup_cons in H4 as [H4 [H5 _]%NoDup_cons].
  rewrite elem_of_app, !elem_of_cons in H1. rewrite elem_of_cons in H4.
  split_and!; [done|done|done|tauto| | |tauto|done|tauto| |].
  - intros Hx. symmetry in Hx. tauto.
  - intros Hx. symmetry in Hx. tauto.
  - intros Hu. apply (H3 _ Hu). by left.
  - intros Hu. apply (H3 _ Hu). right. by left.
Qed.

(** Free pages are not in use. *)
Lemma free_unused q d' sz' :
  q ∈ t :: f :: l -> (d', sz') ∈ A -> ~ foot (mm s1) d' q /\ ~ ufoot (mm s1) d' q.
Proof.
  intros Hq Hd'. split; intros Hx.
  - by destruct (cow_foot_free _ _ _ _ _ _ Hc1 Hd' Hx).
  - by destruct (cow_ufoot_free _ _ _ _ _ _ Hc1 Hd' Hx) as (_ & ? & _).
Qed.

Lemma child_bounds :
  aligned last /\ 0 <= last <= 2 ^ 22 - 4096 /\ last + PGSIZE = PGROUNDUP sz.
Proof. by apply last_bounds, (cw_size _ _ _ Hc1 d). Qed.

Lemma parent_table : present (mm s1) d 0.
Proof. by apply (cow_table0 s1 (t :: f :: l) A d sz). Qed.

(** The child maps what the parent maps, except for the last page. *)
Lemma child_mapping va :
  0 <= va < KERNBASE -> mapping (mm s) dn va =
    if va / PGSIZE =? last / PGSIZE then Some (upte f) else mapping (mm s1) d va.
Proof.
  intros Hva. destruct child_pages as (_ & Ht & Hf & _).
  destruct child_bounds as (Ha & Hr & _).
  destruct (upte_facts t Ht) as (_ & Et & _ & EtP & _).
  destruct (upte_facts f Hf) as (_ & _ & _ & EfP & _).
  pose proof (vpn_inj va last ltac:(klia) ltac:(lia)) as Hinj.
  pose proof (PTX_range va) as Hx. pose proof parent_table as Hp. unfold present in Hp.
  destruct (Z.lt_ge_cases va (2 ^ 22)) as [Hlt|Hge].
  - assert (E0 : PDX va = 0) by (apply small_PDX; lia). unfold mapping.
    assert (Etab : tab (mm s) dn 0 = t) by (unfold tab; by rewrite (cm_pde _ _ _ _ _ _ _ _ Hcm)).
    rewrite E0, Etab, (cm_pde _ _ _ _ _ _ _ _ Hcm), EtP, Hp.
    rewrite (cm_tab _ _ _ _ _ _ _ _ Hcm) by done.
    fold last. rewrite E0, small_PDX in Hinj by lia.
    destruct (Z.eqb_spec (PTX va) (PTX last)), (Z.eqb_spec (va / PGSIZE) (last / PGSIZE));
      [by rewrite EfP|exfalso; tauto|exfalso; tauto|done].
  - assert (Hi : 1 <= PDX va < 512).
    { rewrite PDX_eq. unfold KERNBASE in *. Z.div_mod_to_equations. lia. }
    rewrite !mapping_absent.
    + rewrite (proj2 (Z.eqb_neq _ _)); [done|]. rewrite same_page_div by done. klia.
    + by apply (cw_one _ _ _ Hc1 d sz).
    + by apply (cm_user _ _ _ _ _ _ _ _ Hcm).
Qed.

Lemma child_tables i :
  0 <= i < 1024 -> present (mm s) dn i ->
  i = 0 /\ tab (mm s) dn i = t \/
  512 <= i /\ present (mm s1) dn i /\ tab (mm s) dn i = tab (mm s1) dn i /\
    tab (mm s) dn i ∈ used.
Proof.
  intros Hi Hp. destruct (decide (i = 0)) as [->|Hne].
  - left. split; [done|]. unfold tab. rewrite (cm_pde _ _ _ _ _ _ _ _ Hcm).
    destruct child_pages as (_ & Ht & _). by destruct (upte_facts t Ht) as (_ & -> & _).
  - destruct (Z.lt_ge_cases i 512).
    { exfalso. apply (cm_user _ _ _ _ _ _ _ _ Hcm i); [lia|done]. }
    right. pose proof (cm_kern _ _ _ _ _ _ _ _ Hcm i ltac:(lia)) as E.
    apply (present_word _ _ _ _ E) in Hp. rewrite (tab_word _ _ _ _ E).
    destruct (Hused i Hi Hp). auto.
Qed.

Lemma child_foot q : foot (mm s) dn q -> q = dn \/ q = t \/ q ∈ used.
Proof.
  intros [->|(i & Hi & Hp & ->)]; [by left|right].
  destruct (child_tables i Hi Hp) as [[_ ->]|(_ & _ & _ & Hu)]; auto.
Qed.

Lemma child_ufoot q : ufoot (mm s) dn q -> q = f \/ ufoot (mm s1) d q.
Proof.
  intros (va & e & Hva & E & ->). rewrite child_mapping in E by done.
  destruct (va / PGSIZE =? last / PGSIZE).
  - left. injection E as <-. destruct child_pages as (_ & _ & Hf & _). unfold frame_of.
    by destruct (upte_facts f Hf) as (_ & -> & _).
  - right. by exists va, e.
Qed.

(** The child's directory and tables meet nobody's pages. *)
Lemma child_foot_new q d' sz' :
  foot (mm s) dn q -> (d', sz') ∈ A -> ~ foot (mm s1) d' q /\ ~ ufoot (mm s1) d' q.
Proof.
  intros Hq Hd'. destruct (child_foot q Hq) as [->|[->|Hu]].
  - apply (Hnew dn ltac:(by left) d' sz' Hd').
  - apply (free_unused t d' sz'); [by left|done].
  - apply (Hnew q ltac:(by right) d' sz' Hd').
Qed.

Lemma child_inv : pt_inv s dn l.
Proof.
  destruct child_pages as (P1 & P2 & P3 & P4 & P5 & P6 & P7 & P8 & P9 & P10 & P11).
  pose proof (pt_wf _ _ _ Hdn) as [_ Ht Hj]. split.
  - apply Hc.
  - split; [done| |].
    + intros i Hi Hp. destruct (child_tables i Hi Hp) as [[-> ->]|(_ & Hp1 & -> & _)]; auto.
    + intros i j Hi Hj' Hpi Hpj.
      destruct (child_tables i Hi Hpi) as [[-> ->]|(_ & Hp1 & Ei & Hu)],
        (child_tables j Hj' Hpj) as [[-> ->]|(_ & Hp2 & Ej & Hu')]; try congruence.
      rewrite Ei, Ej. auto.
  - done.
  - intros i Hi Hp. destruct (child_tables i Hi Hp) as [[-> ->]|(_ & Hp1 & Ei & Hu)]; [done|].
    rewrite Ei. intros Hin. apply (pt_tabs _ _ _ Hdn i Hi Hp1). right. by right.
Qed.

Lemma child_uvm : uvm s dn l (image sz).
Proof.
  destruct child_pages as (P1 & P2 & P3 & P4 & P5 & P6 & P7 & P8 & P9 & P10 & P11).
  destruct child_bounds as (Ha & Hr & Hl). pose proof (cw_uvm _ _ _ Hc1 d sz Hd) as Hu.
  destruct (upte_facts f P3) as (_ & Ef & _). fold (frame_of (upte f)) in Ef.
  split.
  - apply child_inv.
  - intros va Hva HU. rewrite child_mapping by done.
    destruct (Z.eqb_spec (va / PGSIZE) (last / PGSIZE)) as [E|E].
    + exists (upte f). rewrite Ef. split; [done|]. split_and!; try done.
      intros (i & Hi & Hp & Eq). destruct (child_tables i Hi Hp) as [[_ E1]|(_ & _ & _ & E1)];
        congruence.
    + destruct (uv_some _ _ _ _ Hu va Hva HU) as (e & Ee & (Q1 & Q2 & _)).
      exists e. split; [done|].
      assert (Hx : ~ foot (mm s) dn (frame_of e)).
      { intros Hx. destruct (child_foot_new _ d sz Hx Hd) as [_ []]. by exists va, e. }
      split; [done|]. split; [|split].
      * intros Hin. apply Q2. right. by right.
      * intros Eq. apply Hx. by left.
      * intros Ht. apply Hx. by right.
  - intros va Hva HU. rewrite child_mapping by done. rewrite (proj2 (Z.eqb_neq _ _)).
    + by apply (uv_none _ _ _ _ Hu).
    + rewrite same_page_div by done. lia.
  - intros va va' e e' Hva Hva' E E' Eq. rewrite child_mapping in E, E' by done.
    assert (Hno : forall x ex, 0 <= x < KERNBASE -> mapping (mm s1) d x = Some ex ->
      frame_of ex <> f).
    { intros x ex Hx Ex Ex'. destruct (free_unused f d sz) as [_ []]; [right; by left|done|].
      rewrite <- Ex'. by exists x, ex. }
    destruct (Z.eqb_spec (va / PGSIZE) (last / PGSIZE)), (Z.eqb_spec (va' / PGSIZE) (last / PGSIZE));
      try congruence.
    + injection E as <-. rewrite Ef in Eq. by destruct (Hno va' e').
    + injection E' as <-. rewrite Ef in Eq. by destruct (Hno va e).
    + by eapply (uv_inj _ _ _ _ Hu).
Qed.

Lemma child_reads va :
  0 <= va < KERNBASE -> uread (mm s) dn va = uread (mm s1) d va.
Proof.
  intros Hva. destruct child_pages as (P1 & P2 & P3 & _).
  destruct child_bounds as (Ha & Hr & Hl).
  destruct (upte_facts f P3) as (_ & Ef & _). fold (frame_of (upte f)) in Ef.
  pose proof (Z.mod_pos_bound va PGSIZE ltac:(done)) as Ho.
  unfold uread. rewrite child_mapping by done.
  destruct (Z.eqb_spec (va / PGSIZE) (last / PGSIZE)) as [E|E].
  - rewrite (mapping_page (mm s1) d va last) by (done || klia).
    destruct (uv_some _ _ _ _ (cw_uvm _ _ _ Hc1 d sz Hd) last) as (e & Ee & _); [klia|klia|].
    rewrite Ee. f_equal. fold (frame_of (upte f)) (frame_of e). rewrite Ef.
    by apply (cm_copy _ _ _ _ _ _ _ _ Hcm).
  - destruct (mapping (mm s1) d va) as [e|] eqn:Ee; [|done]. f_equal.
    assert (Hu : ufoot (mm s1) d (frame_of e)) by (by exists va, e).
    apply (cm_frame _ _ _ _ _ _ _ _ Hcm); [apply frame_of_aligned| |done].
    fold (frame_of e). intros [Eq|[Eq|[Eq|Eq]]]; rewrite Eq in Hu.
    + destruct (Hnew dn ltac:(by left) d sz Hd). done.
    + destruct (free_unused t d sz ltac:(by left) Hd). done.
    + destruct (free_unused f d sz ltac:(right; by left) Hd). done.
    + by destruct (cow_ufoot_free _ _ _ _ _ _ Hc1 Hd Hu) as (_ & _ & ? & _).
Qed.

Lemma child_uacc va : 0 <= va < KERNBASE -> uacc (mm s1) d va -> uacc (mm s) dn va.
Proof.
  intros Hva (e & E & HU). unfold uacc. rewrite child_mapping by done.
  destruct child_pages as (_ & _ & Hf & _).
  destruct (upte_facts f Hf) as (_ & _ & _ & _ & _ & EfU).
  destruct (va / PGSIZE =? last / PGSIZE); [by exists (upte f)|by exists e].
Qed.

Lemma child_ufoots d' sz' q : (d', sz') ∈ A -> ufoot (mm s) d' q <-> ufoot (mm s1) d' q.
Proof.
  intros Hd'. apply ufoot_change. intros va. by apply (cm_map _ _ _ _ _ _ _ _ Hcm d' sz').
Qed.

Lemma child_sep d' sz' q :
  (d', sz') ∈ A -> foot (mm s) dn q -> ~ foot (mm s) d' q /\ ~ ufoot (mm s) d' q.
Proof.
  intros Hd' Hq. rewrite (cm_foot _ _ _ _ _ _ _ _ Hcm d' sz'), (child_ufoots d' sz') by done.
  by apply (child_foot_new q d' sz').
Qed.

Lemma child_sep' d' sz' q : (d', sz') ∈ A -> foot (mm s) d' q -> ~ ufoot (mm s) dn q.
Proof.
  intros Hd' Hq Hu. rewrite (cm_foot _ _ _ _ _ _ _ _ Hcm d' sz') in Hq by done.
  destruct (child_ufoot q Hu) as [->|Hu1].
  - by destruct (free_unused f d' sz' ltac:(right; by left) Hd').
  - destruct (decide (d' = d)) as [->|Hne].
    + destruct (cow_ufoot_free _ _ _ _ _ _ Hc1 Hd Hu1) as (_ & _ & Q1 & Q2). by destruct Hq.
    + by destruct (cw_sep _ _ _ Hc1 d' sz' d sz q Hd' Hd Hne Hq).
Qed.

Lemma child_share d' sz' va va' e e' :
  (d', sz') ∈ A -> 0 <= va < KERNBASE -> 0 <= va' < KERNBASE ->
  mapping (mm s) dn va = Some e -> mapping (mm s) d' va' = Some e' ->
  frame_of e = frame_of e' -> va / PGSIZE = va' / PGSIZE /\ e = e' /\ has e PTE_W = false.
Proof.
  intros Hd' Hva Hva' E E' Eq. destruct child_pages as (P1 & P2 & P3 & _).
  destruct child_bounds as (Ha & Hr & Hl).
  destruct (upte_facts f P3) as (_ & Ef & _). fold (frame_of (upte f)) in Ef.
  rewrite child_mapping in E by done.
  rewrite (cm_map _ _ _ _ _ _ _ _ Hcm d' sz') in E' by done.
  destruct (Z.eqb_spec (va / PGSIZE) (last / PGSIZE)) as [El|El].
  - injection E as <-. rewrite Ef in Eq.
    destruct (free_unused f d' sz' ltac:(right; by left) Hd') as [_ []]. rewrite Eq.
    by exists va', e'.
  - assert (HW : has e PTE_W = false).
    { apply (Hprot va e); [|done]. destruct (cow_mapped _ _ _ _ _ _ _ Hc1 Hd Hva E) as [Hlt _].
      rewrite same_page_div in El by done. fold last. lia. }
    destruct (decide (d' = d)) as [->|Hne].
    + pose proof (uv_inj _ _ _ _ (cw_uvm _ _ _ Hc1 d sz Hd) va va' e e' Hva Hva' E E' Eq) as Ep.
      rewrite (mapping_page _ _ va va') in E by (done || klia).
      split; [done|]. split; [congruence|done].
    + by destruct (cw_share _ _ _ Hc1 d sz d' sz' va va' e e').
Qed.

Lemma cow_child : cow s l ((dn, sz) :: A).
Proof.
  split.
  - apply Hc.
  - intros d' sz' [[= -> ->]|Hd']%elem_of_cons; [apply child_uvm|by apply (cw_uvm _ _ _ Hc)].
  - intros d' sz' [[= -> ->]|Hd']%elem_of_cons;
      [by apply (cw_size _ _ _ Hc d)|by apply (cw_size _ _ _ Hc d')].
  - intros d' sz' i [[= -> ->]|Hd']%elem_of_cons Hi.
    + by apply (cm_user _ _ _ _ _ _ _ _ Hcm).
    + by apply (cw_one _ _ _ Hc d' sz').
  - cbn. apply NoDup_cons. split; [|apply Hc]. intros Hin.
    apply list_elem_of_fmap in Hin as ([d' sz'] & E & Hd'). cbn in E. subst d'.
    destruct (child_sep dn sz' dn Hd' (or_introl eq_refl)) as [Hx _]. apply Hx. by left.
  - intros d1 sz1 d2 sz2 q [[= -> ->]|H1]%elem_of_cons [[= -> ->]|H2]%elem_of_cons Hne Hq;
      try done.
    + by apply (child_sep d2 sz2).
    + split; [|by apply (child_sep' d1 sz1)]. intros Hq2. by destruct (child_sep d1 sz1 q H1 Hq2).
    + by apply (cw_sep _ _ _ Hc d1 sz1 d2 sz2).
  - intros d1 sz1 d2 sz2 va va' e e' [[= -> ->]|H1]%elem_of_cons [[= -> ->]|H2]%elem_of_cons
      Hne Hva Hva' E E' Eq; try done.
    + by apply (child_share d2 sz2 va va').
    + destruct (child_share d1 sz1 va' va e' e H1 Hva' Hva E' E (eq_sym Eq)) as (? & -> & ?). done.
    + by apply (cw_share _ _ _ Hc d1 sz1 d2 sz2 va va' e e').
Qed.

End Child.

(** ** Running copystackpage *)

Section Run.
Variables (s1 : mstate) (l used : list Z) (A : list (Z * Z)) (d sz dn t f eL : Z).
Hypothesis Hc1 : cow s1 (t :: f :: l) A.
Hypothesis Hd : (d, sz) ∈ A.
Hypothesis Hdn : pt_inv s1 dn (t :: f :: l).
Hypothesis Hnew : forall q, q ∈ dn :: used -> forall d' sz', (d', sz') ∈ A ->
  ~ foot (mm s1) d' q /\ ~ ufoot (mm s1) d' q.
Hypothesis Hnd : NoDup (dn :: used ++ t :: f :: l).
Hypothesis Hcr3 : cr3 s1 = v2p d.

Let last := PGROUNDUP sz - PGSIZE.
Hypothesis HeL : mapping (mm s1) d last = Some eL.

Let T := tab (mm s1) d 0.
Let m2 := memmove (mm s1) dn d (PGSIZE / 2 - 1).
Let s2 := set_mm m2 s1.
Let m3 := memset m2 t 0 PGSIZE.
Let s3 := set_mm m3 (set_freelist (rd32 m2 t) s2).
Let m4 := wr32 m3 (d + 4 * 0) (Z.lor (word m3 d 0) PTE_W).
Let s4 := set_mm m4 s3.
Let m5 := wr32 m4 (dn + 4 * 0) (Z.lor (word m4 dn 0) PTE_W).
Let m6 := memmove m5 t T PGSIZE.
Let m7 := wr32 m6 (dn + 4 * 0) (upte t).
Let s7 := set_mm m7 s4.
Let s8 := copy_state s7 f eL.
Let m9 := wr32 (mm s8) (t + 4 * PTX last) (upte f).
Let s9 := set_mm m9 s8.

Lemma run_pages :
  aligned dn /\ page_ok t /\ page_ok f /\ t <> f /\ t <> dn /\ f <> dn /\ dn ∉ t :: f :: l /\
  t ∉ f :: l /\ f ∉ l /\ aligned d /\ d <> dn /\ d <> t /\ d <> f.
Proof.
  destruct (child_pages s1 l used A dn t f Hc1 Hdn Hnd)
    as (P1 & P2 & P3 & P4 & P5 & P6 & P7 & P8 & P9 & _).
  destruct (cow_foot_free _ _ _ _ _ d Hc1 Hd (or_introl eq_refl)) as [Hf Hok].
  assert (d <> dn).
  { intros ->. destruct (Hnew dn ltac:(by left) dn sz Hd) as [Hx _]. apply Hx. by left. }
  rewrite !not_elem_of_cons in *. split_and!; try done; try (by apply page_ok_aligned); tauto || congruence.
Qed.

Lemma run_unused q d' sz' :
  (d', sz') ∈ A -> foot (mm s1) d' q \/ ufoot (mm s1) d' q -> q <> dn /\ q <> t /\ q <> f.
Proof.
  intros Hd' Hq. destruct (Hnew dn ltac:(by left) d' sz' Hd').
  destruct (free_unused s1 l A t f Hc1 t d' sz' ltac:(by left) Hd').
  destruct (free_unused s1 l A t f Hc1 f d' sz' ltac:(right; by left) Hd').
  split_and!; intros ->; tauto.
Qed.

Lemma run_frame3 : frame (fun q => q = dn \/ q = t) (mm s1) m3.
Proof.
  destruct run_pages as (Hdna & Ht & _). eapply frame_trans.
  - eapply frame_mono; [apply (frame_memmove (mm s1) dn d (PGSIZE / 2 - 1) Hdna); done|]. auto.
  - eapply frame_mono; [apply frame_memset, (page_ok_aligned _ Ht)|]. auto.
Qed.

Lemma run_free2 : free_wf s2 (t :: f :: l).
Proof.
  destruct run_pages as (Hdna & _ & _ & _ & _ & _ & Hn & _).
  pose proof (cw_free _ _ _ Hc1) as Hwf.
  apply (free_wf_ext s1); [done|done|apply Hwf|]. intros q Hq%list_elem_of_In.
  pose proof (fw_pages _ _ Hwf) as Hp. rewrite Forall_forall in Hp.
  apply (frame_memmove (mm s1) dn d (PGSIZE / 2 - 1) Hdna); [done|apply Hp, Hq|congruence].
Qed.

Lemma run_free3 : free_wf s3 (f :: l).
Proof.
  destruct run_pages as (_ & Ht & _ & _ & _ & _ & _ & Hn & _).
  pose proof (kalloc_spec s2 t (f :: l) run_free2) as W.
  apply wp_Ok in W as (r & s' & _ & _ & -> & W).
  apply (free_wf_ext (set_freelist (rd32 m2 t) s2)); [done|done|apply W|].
  intros q Hq%list_elem_of_In. pose proof (fw_pages _ _ W) as Hp. rewrite Forall_forall in Hp.
  apply (frame_memset m2 t 0); [by apply page_ok_aligned|apply Hp, Hq|congruence].
Qed.

Lemma run_cow3 : cow s3 (f :: l) A /\ same_views A s1 s3 /\
  (forall d' sz' va, (d', sz') ∈ A -> mapping m3 d' va = mapping (mm s1) d' va).
Proof.
  apply (cow_frame_views (fun q => q = dn \/ q = t) s1 s3 (t :: f :: l) (f :: l) A Hc1);
    try done.
  - apply run_frame3.
  - apply run_free3.
  - by right.
  - intros d' sz' q Hd' Hq. destruct (run_unused q d' sz' Hd' Hq). tauto.
Qed.

Lemma run_cow4 : cow s4 (f :: l) A /\ same_but_pde A d s3 s4 /\
  word m4 d 0 = Z.lor (word m3 d 0) PTE_W /\
  (forall d' sz' va, (d', sz') ∈ A -> mapping m4 d' va = mapping m3 d' va).
Proof.
  destruct run_cow3 as (C3 & _). destruct (has_lor_W (word m3 d 0)) as [E _].
  apply (cow_pde s3 (f :: l) A d sz); try done.
  - apply lor_range; [apply rd32_range|unfold PTE_W; lia].
  - apply PTE_ADDR_lor_flag. unfold PTE_W, PGSIZE. lia.
  - rewrite has_lor_flag. change (Z.land PTE_W PTE_U) with 0. apply orb_false_r.
Qed.

Lemma run_frame7 : frame (fun q => q = dn \/ q = t) m4 m7.
Proof.
  destruct run_pages as (Hdna & Ht & _).
  eapply frame_trans; [|eapply frame_trans].
  - eapply frame_mono; [apply (frame_wr32 m4 dn 0 (Z.lor (word m4 dn 0) PTE_W) Hdna); lia|]. auto.
  - eapply frame_mono; [apply (frame_memmove m5 t T PGSIZE (page_ok_aligned _ Ht)); done|]. auto.
  - eapply frame_mono; [apply (frame_wr32 m6 dn 0 (upte t) Hdna); lia|]. auto.
Qed.

(** The directories, tables and user pages of the other processes are the
    same pages throughout. *)
Lemma run_foots4 d' sz' q :
  (d', sz') ∈ A -> (foot m4 d' q <-> foot (mm s1) d' q) /\ (ufoot m4 d' q <-> ufoot (mm s1) d' q).
Proof.
  intros Hd'. destruct run_cow3 as (C3 & V3 & M3), run_cow4 as (C4 & V4 & W4 & M4). split.
  - rewrite <- (foot_change _ _ d' (fun i => sv_word _ _ _ V3 d' sz' i Hd')).
    destruct (pde_space s3 (f :: l) A d sz (Z.lor (word m3 d 0) PTE_W) C3 Hd) with (d' := d') (sz' := sz')
      as (_ & _ & E & _); try done.
    + apply lor_range; [apply rd32_range|unfold PTE_W; lia].
    + apply PTE_ADDR_lor_flag. unfold PTE_W, PGSIZE. lia.
    + apply (has_lor_W (word m3 d 0)).
  - rewrite <- (ufoot_change _ _ d' (fun va => M3 d' sz' va Hd')).
    apply ufoot_change. intros va. by apply (M4 d' sz').
Qed.

Lemma run_cow7 : cow s7 (f :: l) A /\ same_views A s4 s7 /\
  (forall d' sz' va, (d', sz') ∈ A -> mapping m7 d' va = mapping m4 d' va).
Proof.
  destruct run_cow4 as (C4 & _).
  destruct run_pages as (_ & _ & _ & P4 & P5 & P6 & Hn & P8 & _).
  apply (cow_frame_views (fun q => q = dn \/ q = t) s4 s7 (f :: l) (f :: l) A C4); try done.
  - apply run_frame7.
  - apply (free_wf_ext s4); [apply C4|done|apply (cw_free _ _ _ C4)|].
    intros q Hq%list_elem_of_In. pose proof (fw_pages _ _ (cw_free _ _ _ C4)) as Hp.
    rewrite Forall_forall in Hp. apply run_frame7; [apply Hp, Hq|].
    intros [->| ->]; [|done]. apply Hn. by right.
  - intros d' sz' q Hd' Hq. destruct (run_foots4 d' sz' q Hd') as [E1 E2].
    change (mm s4) with m4 in Hq. rewrite E1, E2 in Hq.
    destruct (run_unused q d' sz' Hd' Hq). tauto.
Qed.

Lemma run_map7 d' sz' va : (d', sz') ∈ A -> mapping m7 d' va = mapping (mm s1) d' va.
Proof.
  intros Hd'. destruct run_cow3 as (_ & _ & M3), run_cow4 as (_ & _ & _ & M4),
    run_cow7 as (_ & _ & M7). by rewrite (M7 d' sz'), (M4 d' sz'), (M3 d' sz').
Qed.

Lemma run_frame8 : frame (fun q => q = f) m7 (mm s8).
Proof. destruct run_pages as (_ & _ & Hf & _). by apply copied_page_frame, page_ok_aligned. Qed.

Lemma run_cow8 : cow s8 l A /\ same_views A s7 s8 /\
  (forall d' sz' va, (d', sz') ∈ A -> mapping (mm s8) d' va = mapping m7 d' va).
Proof.
  destruct run_cow7 as (C7 & _).
  by destruct (cow_alloc s7 f l A (mm s8) C7 run_frame8) as (C8 & V8 & M8 & _).
Qed.

Lemma run_foots8 d' sz' q :
  (d', sz') ∈ A -> (foot (mm s8) d' q <-> foot (mm s1) d' q) /\
    (ufoot (mm s8) d' q <-> ufoot (mm s1) d' q).
Proof.
  intros Hd'. destruct run_cow7 as (C7 & V7 & M7), run_cow8 as (C8 & V8 & M8).
  destruct (run_foots4 d' sz' q Hd') as [E1 E2]. split.
  - rewrite <- E1, (foot_change _ _ d' (fun i => sv_word _ _ _ V8 d' sz' i Hd')).
    by rewrite (foot_change _ _ d' (fun i => sv_word _ _ _ V7 d' sz' i Hd')).
  - rewrite <- E2, (ufoot_change _ _ d' (fun va => M8 d' sz' va Hd')).
    by rewrite (ufoot_change _ _ d' (fun va => M7 d' sz' va Hd')).
Qed.

Lemma run_frame9 : frame (fun q => q = t) (mm s8) (mm s9).
Proof.
  destruct run_pages as (_ & Ht & _). apply frame_wr32; [by apply page_ok_aligned|apply PTX_range].
Qed.

Lemma run_cow9 : cow s9 l A /\ same_views A s8 s9 /\
  (forall d' sz' va, (d', sz') ∈ A -> mapping m9 d' va = mapping (mm s8) d' va).
Proof.
  destruct run_cow8 as (C8 & _). destruct run_pages as (_ & _ & _ & _ & _ & _ & _ & P8 & _).
  apply (cow_frame_views (fun q => q = t) s8 s9 l l A C8); try done.
  - apply run_frame9.
  - apply (free_wf_ext s8); [apply C8|done|apply (cw_free _ _ _ C8)|].
    intros q Hq%list_elem_of_In. pose proof (fw_pages _ _ (cw_free _ _ _ C8)) as Hp.
    rewrite Forall_forall in Hp. apply run_frame9; [apply Hp, Hq|].
    intros ->. apply P8. by right.
  - intros d' sz' q Hd' Hq. destruct (run_foots8 d' sz' q Hd') as [E1 E2].
    rewrite E1, E2 in Hq. by destruct (run_unused q d' sz' Hd' Hq) as (_ & ? & _).
Qed.

Lemma run_same : same_but_pde A d s1 s9.
Proof.
  destruct run_cow3 as (_ & V3 & _), run_cow4 as (_ & V4 & _), run_cow7 as (_ & V7 & _),
    run_cow8 as (_ & V8 & _), run_cow9 as (_ & V9 & _).
  apply (same_views_but A d sz) in V3, V7, V8, V9; try done.
  eapply same_but_trans; [exact V3|]. eapply same_but_trans; [exact V4|].
  eapply same_but_trans; [exact V7|]. by eapply same_but_trans.
Qed.

Lemma run_parent_pde : has (word m9 d 0) PTE_W = true.
Proof.
  destruct run_cow4 as (_ & _ & W4 & _), run_cow7 as (_ & V7 & _),
    run_cow8 as (_ & V8 & _), run_cow9 as (_ & V9 & _).
  change m9 with (mm s9). rewrite (sv_word _ _ _ V9 d sz), (sv_word _ _ _ V8 d sz),
    (sv_word _ _ _ V7 d sz) by (done || lia).
  change (mm s4) with m4. rewrite W4. apply has_lor_W.
Qed.

(** The child's directory. *)
Lemma run_dir i :
  0 <= i < 1024 -> word m9 dn i = if i =? 0 then upte t else word m2 dn i.
Proof.
  intros Hi. destruct run_pages as (Hdna & Ht & Hf & P4 & P5 & P6 & _ & _ & _ & Hda & P7 & _).
  pose proof (upte_facts t Ht) as (Hu & _). change m9 with (mm s9).
  rewrite (frame_word _ _ _ dn i run_frame9) by (done || congruence).
  rewrite (frame_word _ _ _ dn i run_frame8) by (done || congruence).
  unfold m7. rewrite word_wr32 by (done || lia). rewrite Z.eqb_refl, (Z.eqb_sym i). cbn [andb].
  destruct (Z.eqb_spec 0 i) as [|Hne]; [done|].
  unfold m6. rewrite (frame_word _ _ _ dn i (frame_memmove m5 t T PGSIZE (page_ok_aligned _ Ht) ltac:(done)))
    by (done || congruence).
  unfold m5. rewrite word_wr32; try done; try lia.
  2: { apply lor_range; [apply rd32_range|unfold PTE_W; lia]. }
  rewrite (proj2 (Z.eqb_neq 0 i)), andb_false_r by done.
  unfold m4. rewrite (frame_word _ _ _ dn i (frame_wr32 m3 d 0 (Z.lor (word m3 d 0) PTE_W) Hda ltac:(lia)))
    by (done || congruence).
  by apply (frame_word _ _ _ dn i (frame_memset m2 t 0 (page_ok_aligned _ Ht))).
Qed.

(** The child's page table. *)
Lemma run_table j :
  0 <= j < 1024 -> word m9 t j = if j =? PTX last then upte f else word (mm s1) T j.
Proof.
  intros Hj. destruct run_pages as (Hdna & Ht & Hf & P4 & P5 & P6 & _ & _ & _ & Hda & P7 & _).
  pose proof (upte_facts f Hf) as (Hu & _). pose proof (PTX_range last) as Hx.
  pose proof (page_ok_aligned _ Ht) as Hta.
  unfold m9. rewrite word_wr32 by done. rewrite Z.eqb_refl, (Z.eqb_sym j). cbn [andb].
  destruct (PTX last =? j); [done|].
  rewrite (frame_word _ _ _ t j run_frame8) by (done || congruence).
  unfold m7. rewrite (frame_word _ _ _ t j (frame_wr32 m6 dn 0 (upte t) Hdna ltac:(lia)))
    by (done || congruence).
  unfold m6. rewrite word_memmove by done.
  assert (Hp : present (mm s1) d 0) by (by apply (cow_table0 s1 (t :: f :: l) A d sz)).
  assert (HT : foot (mm s1) d T) by (right; exists 0; split; [lia|split; [exact Hp|reflexivity]]).
  destruct (run_unused T d sz Hd (or_introl HT)) as (N1 & N2 & N3).
  assert (N4 : T <> d).
  { apply (pt_wf _ _ _ (uv_inv _ _ _ _ (cw_uvm _ _ _ Hc1 d sz Hd))); [lia|done]. }
  assert (HTa : aligned T) by apply tab_aligned.
  unfold m5. rewrite (frame_word _ _ _ T j (frame_wr32 m4 dn 0 (Z.lor (word m4 dn 0) PTE_W) Hdna ltac:(lia)))
    by (done || congruence).
  unfold m4. rewrite (frame_word _ _ _ T j (frame_wr32 m3 d 0 (Z.lor (word m3 d 0) PTE_W) Hda ltac:(lia)))
    by (done || congruence).
  apply (frame_word _ _ _ T j run_frame3); [done|tauto|done].
Qed.

Lemma run_child : child_mem A d last dn t f s1 s9.
Proof.
  destruct run_pages as (Hdna & Ht & Hf & P4 & P5 & P6 & _ & _ & _ & Hda & P7 & P8 & P9).
  destruct run_cow9 as (_ & V9 & M9), run_cow8 as (_ & _ & M8).
  assert (Fall : frame (fun q => q = dn \/ q = t \/ q = f \/ q = d) (mm s1) (mm s9)).
  { eapply frame_trans; [eapply frame_mono; [apply run_frame3|cbv beta; tauto]|].
    eapply frame_trans; [eapply frame_mono; [apply (frame_wr32 m3 d 0 (Z.lor (word m3 d 0) PTE_W) Hda); lia|cbv beta; tauto]|].
    eapply frame_trans; [eapply frame_mono; [apply run_frame7|cbv beta; tauto]|].
    eapply frame_trans; [eapply frame_mono; [apply run_frame8|cbv beta; tauto]|].
    eapply frame_mono; [apply run_frame9|cbv beta; tauto]. }
  assert (Hmap : forall d' sz' va, (d', sz') ∈ A ->
    mapping (mm s9) d' va = mapping (mm s1) d' va).
  { intros d' sz' va Hd'. rewrite (M9 d' sz'), (M8 d' sz'), (run_map7 d' sz'); done. }
  split.
  - change (mm s9) with m9. rewrite run_dir by lia. done.
  - intros i Hi. unfold present. change (mm s9) with m9. rewrite run_dir by lia.
    rewrite (proj2 (Z.eqb_neq i 0)) by lia. unfold m2.
    rewrite (proj1 (dir_copied (mm s1) dn d i Hdna ltac:(lia))) by lia.
    by apply (cw_one _ _ _ Hc1 d sz).
  - intros i Hi. change (mm s9) with m9. rewrite run_dir by lia.
    rewrite (proj2 (Z.eqb_neq i 0)) by lia.
    apply (dir_copied (mm s1) dn d i Hdna ltac:(lia)). lia.
  - apply run_table.
  - exact Fall.
  - exact Hmap.
  - intros e o E Ho. rewrite HeL in E. injection E as <-.
    assert (Hu : ufoot (mm s1) d (frame_of eL)).
    { exists last, eL. split; [|done]. destruct (last_bounds sz (cw_size _ _ _ Hc1 d sz Hd)) as (_ & ? & _).
      unfold last. klia. }
    destruct (run_unused _ d sz Hd (or_intror Hu)) as (N1 & N2 & N3).
    destruct (cow_ufoot_free _ _ _ _ _ _ Hc1 Hd Hu) as (_ & _ & N4 & _).
    pose proof (page_ok_aligned _ Hf) as Hfa. pose proof (frame_of_aligned eL) as Hea.
    rewrite run_frame9 by (done || congruence).
    change (mm s8) with (copied_page m7 f (frame_of eL)). rewrite copied_page_same by done.
    rewrite run_frame7 by (done || tauto).
    rewrite (frame_wr32 m3 d 0 (Z.lor (word m3 d 0) PTE_W) Hda ltac:(lia)) by (done || congruence).
    by apply run_frame3; [|tauto|].
  - intros d' sz' q Hd'. rewrite (foot_change _ _ d' (fun i => sv_word _ _ _ V9 d' sz' i Hd')).
    by apply (run_foots8 d' sz').
Qed.

Lemma copystack_tables_run (Q : unit -> mstate -> Prop) :
  Q tt s9 -> wp (copystack_tables last d dn) s2 Q.
Proof.
  intros HQ. destruct run_pages as (Hdna & Ht & Hf & P4 & P5 & P6 & Hn & _ & _ & Hda & P7 & P8 & P9).
  destruct (last_bounds sz (cw_size _ _ _ Hc1 d sz Hd)) as (Hla & Hlr & _).
  fold last in Hla, Hlr.
  assert (Hx : PDX last = 0) by (apply small_PDX; lia).
  assert (Hpg : PGROUNDDOWN last = last) by (rewrite PGROUNDDOWN_eq, Hla; lia).
  destruct run_cow3 as (C3 & _), run_cow7 as (C7 & _).
  destruct (cow_foot_free _ _ _ _ _ d Hc1 Hd (or_introl eq_refl)) as [_ Hdok].
  pose proof (page_ok_high _ Hdok) as Hdh.
  pose proof (page_ok_high _ (pd_page _ _ (pt_wf _ _ _ Hdn))) as Hdnh.
  assert (Ew : word m2 d 0 = word (mm s1) d 0).
  { apply (frame_word _ _ _ d 0 (frame_memmove (mm s1) dn d (PGSIZE / 2 - 1) Hdna ltac:(done)));
      done || lia. }
  assert (Hp : present (mm s1) d 0) by (by apply (cow_table0 s1 (t :: f :: l) A d sz)). unfold present in Hp.
  unfold copystack_tables. rewrite Hpg, Hx. apply wp_bind, wp_ldv; [lia|].
  change (rd32 (mm s2) (d + 4 * 0)) with (word m2 d 0). rewrite Ew, Hp. cbn [negb].
  change (p2v (PTE_ADDR (word (mm s1) d 0))) with T.
  apply wp_bind. wp_use (kalloc_spec s2 t (f :: l) run_free2). intros r s' (-> & -> & _).
  pose proof (page_ok_bounds t Ht) as (_ & _ & Ht0). rewrite (proj2 (Z.eqb_neq t 0)) by done.
  apply wp_bind, wp_modify. change (set_mm _ (set_freelist _ s2)) with s3.
  apply wp_bind. unfold setdtew at 1.
  apply (wp_pde_store s3 (f :: l) A d sz last (fun e => Z.lor e PTE_W) _ C3 Hd); [lia|].
  change (set_mm _ s3) with s4. apply wp_bind. unfold setdtew. rewrite Hx.
  apply wp_bind, wp_ldv; [lia|]. apply wp_stv; [lia|].
  apply wp_bind, wp_modify. apply wp_bind, wp_stv; [lia|]. rewrite pte_new.
  change (set_mm _ (set_mm _ (set_mm _ s4))) with s7.
  apply wp_bind. wp_use (kalloc_spec s7 f l (cw_free _ _ _ C7)). intros r s' (-> & -> & _).
  pose proof (page_ok_bounds f Hf) as (_ & _ & Hf0). rewrite (proj2 (Z.eqb_neq f 0)) by done.
  apply (copy_fresh s7 f l A d sz last eL); try done.
  - klia.
  - rewrite <- HeL. by apply (run_map7 d sz).
  - change (copy_state s7 f eL) with s8.
    assert (Ew8 : word (mm s8) dn 0 = upte t).
    { rewrite <- (frame_word _ _ _ dn 0 run_frame9) by (done || congruence || lia).
      change (mm s9) with m9. by rewrite run_dir by lia. }
    destruct (upte_facts t Ht) as (_ & Etb & _ & EtP & _).
    apply wp_bind. unfold wp at 1, wpgdir. rewrite walkpgdir_noalloc by done.
    rewrite Hx, Ew8, EtP. unfold tab. rewrite Ew8, Etb.
    pose proof (page_ok_high _ Ht). pose proof (PTX_range last).
    apply wp_stv; [lia|]. rewrite pte_new. exact HQ.
Qed.

End Run.

(** ** fork_cow *)

(** [setupkvm] uses free pages only: no process notices. *)
Lemma setupkvm_cow s L A (Q : Z -> mstate -> Prop) :
  cow s L A -> (67 <= length L)%nat ->
  (forall dn s1 used t f l, L = dn :: used ++ t :: f :: l -> (length used <= 64)%nat ->
     cow s1 (t :: f :: l) A -> same_views A s s1 ->
     (forall d sz va, (d, sz) ∈ A -> mapping (mm s1) d va = mapping (mm s) d va) ->
     pt_inv s1 dn (t :: f :: l) ->
     (forall i, 0 <= i < 1024 -> present (mm s1) dn i ->
        512 <= i /\ tab (mm s1) dn i ∈ used) ->
     (forall q, q ∈ dn :: used -> forall d' sz', (d', sz') ∈ A ->
        ~ foot (mm s1) d' q /\ ~ ufoot (mm s1) d' q) ->
     Q dn s1) ->
  wp setupkvm s Q.
Proof.
  intros Hc Hlen HQ. wp_use (setupkvm_spec s L (cw_free _ _ _ Hc)).
  intros dn s1 (used & l1 & [[Hd0 Hb]|(_ & _ & Hl & _)]); [|lia].
  destruct Hb as [Es Hinv Hmap Hdirs Hused Hframe (G1 & G2 & G3)].
  assert (exists t f l, l1 = t :: f :: l) as (t & f & l & ->).
  { rewrite Es in Hlen. cbn [length] in Hlen. rewrite length_app in Hlen.
    destruct l1 as [|t [|f l]]; cbn in Hlen; try lia. eauto. }
  assert (Hin : forall q, q ∈ dn :: used -> q ∈ L).
  { intros q Hq. rewrite Es. apply elem_of_cons in Hq as [->|Hq]; [by left|right].
    apply elem_of_app. by left. }
  destruct (cow_frame_views (fun q => q ∈ dn :: used) s s1 L (t :: f :: l) A Hc Hframe)
    as (C & V & M); try done.
  { apply (pt_free s1 dn), Hinv. }
  { intros q Hq. rewrite Es. right. apply elem_of_app. by right. }
  { intros d sz q Hd [Hq|Hq] Hx; apply Hin in Hx.
    - by destruct (cow_foot_free _ _ _ _ _ _ Hc Hd Hq).
    - by destruct (cow_ufoot_free _ _ _ _ _ _ Hc Hd Hq) as (_ & ? & _). }
  apply (HQ dn s1 used t f l); try done.
  - intros i Hi Hp. destruct (Hdirs i Hi Hp) as [Hk Hu]. apply elem_of_kdirs in Hk.
    split; [lia|done].
  - intros q Hq d' sz' Hd'. apply Hin in Hq.
    rewrite (foot_change _ _ d' (fun i => sv_word _ _ _ V d' sz' i Hd')).
    rewrite (ufoot_change _ _ d' (fun va => M d' sz' va Hd')). split; intros Hx.
    + by destruct (cow_foot_free _ _ _ _ _ _ Hc Hd' Hx).
    + by destruct (cow_ufoot_free _ _ _ _ _ _ Hc Hd' Hx) as (_ & ? & _).
Qed.

End CowFork.

(** ** What the child reads

    After [fork] the child reads the parent's memory, and from then on a store by one process is
    seen by that process only. *)

Section CowCopy.
Context `{KernelImage} `{!KernelImageOk}.

(** The child of [d] in state [s'], after a fork from state [s] with free pages
    [L], which took at most [N] of them. *)
Record forked (N : nat) (A : list (Z * Z)) (d sz : Z) (s : mstate) (L : list Z) (dn : Z) (s' : mstate)
    (l' : list Z) : Prop := {
  fk_cow : cow s' l' ((dn, sz) :: A);
  fk_same : same_but_pde A d s s';
  fk_child : forall va, 0 <= va < KERNBASE -> uread (mm s') dn va = uread (mm s) d va;
  fk_user : forall va, 0 <= va < KERNBASE -> uacc (mm s) d va -> uacc (mm s') dn va;
  fk_pde : has (word (mm s') d 0) PTE_W = true /\
    has (word (mm s') dn 0) PTE_W = true /\ has (word (mm s') dn 0) PTE_U = true;
  fk_free : exists pre, L = pre ++ l' /\ (length pre <= N)%nat
}.

(** The child maps the frames of [d], but for the last page. *)
Definition shares (d dn sz : Z) (s : mstate) : Prop := forall va, 0 <= va < PGROUNDUP sz - PGSIZE ->
  mapping (mm s) dn va = mapping (mm s) d va.

Lemma copystack_spec k L A d sz me np p :
  cow (ms k) L A -> (d, sz) ∈ A -> (67 <= length L)%nat -> cr3 (ms k) = v2p d ->
  procs k !! me = Some p -> p_pgdir p = d ->
  (forall va e, 0 <= va < PGROUNDUP sz - PGSIZE -> mapping (mm (ms k)) d va = Some e ->
     has e PTE_W = false) ->
  wp (copystackpage (PGROUNDUP sz - PGSIZE) me np) k (fun _ k' => exists dn s' l',
    k' = ks_procs (alter (ps_pgdir dn) np (procs k)) (ks_ms s' k) /\
    forked 67 A d sz (ms k) L dn s' l' /\ shares d dn sz s').
Proof.
  intros Hc Hd Hlen Hcr Hp Hpd Hprot. unfold copystackpage.
  apply wp_bind, (wp_pget me p); [done|]. rewrite Hpd.
  apply wp_bind, wp_liftM. apply (setupkvm_cow (ms k) L A _ Hc Hlen).
  intros dn s1 used t f l EL Hul C1 V1 M1 Hdn Hused Hnew.
  assert (Hnd : NoDup (dn :: used ++ t :: f :: l))
    by (rewrite <- EL; apply (fw_nodup _ _ (cw_free _ _ _ Hc))).
  destruct (cow_foot_free _ _ _ _ _ d Hc Hd (or_introl eq_refl)) as [_ Hdok].
  pose proof (page_ok_high _ Hdok) as Hdh.
  pose proof (page_ok_high _ (pd_page _ _ (pt_wf _ _ _ Hdn))) as Hdnh.
  apply wp_bind, wp_liftM. unfold memmove_v. apply wp_bind. unfold wp at 1.
  rewrite mmu_high by done. apply wp_bind. unfold wp at 1. rewrite mmu_high by done.
  apply wp_modify, wp_bind, wp_modify, wp_liftM.
  destruct (last_bounds sz (cw_size _ _ _ Hc d sz Hd)) as (Hla & Hlr & Hlp).
  destruct (uv_some _ _ _ _ (cw_uvm _ _ _ C1 d sz Hd) (PGROUNDUP sz - PGSIZE))
    as (eL & HeL & _); [klia|klia|].
  assert (Hcr1 : cr3 s1 = v2p d) by (destruct (sv_regs _ _ _ V1) as (_ & -> & _); done).
  apply (copystack_tables_run s1 l used A d sz dn t f eL); try done.
  pose proof (run_child s1 l used A d sz dn t f eL C1 Hd Hdn Hnew Hnd Hcr1 HeL) as Hcm.
  pose proof (run_same s1 l used A d sz dn t f eL C1 Hd Hdn Hnew Hnd Hcr1 HeL) as Hsame.
  pose proof (run_parent_pde s1 l used A d sz dn t f eL C1 Hd Hdn Hnew Hnd Hcr1 HeL) as HpW.
  destruct (run_cow9 s1 l used A d sz dn t f eL C1 Hd Hdn Hnew Hnd Hcr1 HeL) as (C9 & _).
  set (s9 := set_mm _ _) in *.
  exists dn, s9, l. split; [done|].
  assert (Hprot1 : forall va e, 0 <= va < PGROUNDUP sz - PGSIZE ->
    mapping (mm s1) d va = Some e -> has e PTE_W = false).
  { intros va e Hva E. rewrite (M1 d sz) in E by done. by apply (Hprot va). }
  pose proof (fw_pages _ _ (cw_free _ _ _ C1)) as [Ht _]%Forall_cons.
  destruct (upte_facts t Ht) as (_ & _ & _ & _ & HtW & HtU).
  split; [split|].
  - by apply (cow_child s1 s9 l used A d sz dn t f).
  - eapply same_but_trans; [by apply (same_views_but A d sz)|done].
  - intros va Hva. rewrite (child_reads s1 s9 l used A d sz dn t f) by done.
    by apply (sv_read _ _ _ V1 d sz).
  - intros va Hva Hu. apply (child_uacc s1 s9 l used A d sz dn t f); try done.
    by apply (sv_user _ _ _ V1 d sz).
  - rewrite (cm_pde _ _ _ _ _ _ _ _ Hcm). done.
  - exists (dn :: used ++ [t; f]). split; [rewrite EL; cbn; by rewrite <- app_assoc|].
    cbn. rewrite length_app. cbn. lia.
  - intros va Hva. rewrite (child_mapping s1 s9 l used A d sz dn t f) by (done || klia).
    destruct (Z.eqb_spec (va / PGSIZE) ((PGROUNDUP sz - PGSIZE) / PGSIZE)) as [E|_]; [|symmetry; by apply (cm_map _ _ _ _ _ _ _ _ Hcm d sz)].
    exfalso. unfold aligned, PGSIZE in *. Z.div_mod_to_equations. lia.
Qed.

(** The copy-on-write branch of [fork]. *)
Lemma fork_cow_spec k L A d sz me np p :
  cow (ms k) L A -> (d, sz) ∈ A -> (67 <= length L)%nat -> cr3 (ms k) = v2p d ->
  procs k !! me = Some p -> p_pgdir p = d -> p_sz p = sz ->
  wp (fork_cow me np) k (fun _ k' => exists dn s' l',
    k' = ks_procs (alter (ps_pgdir dn) np (procs k)) (ks_ms s' k) /\
    forked 67 A d sz (ms k) L dn s' l' /\ shares d dn sz s').
Proof.
  intros Hc Hd Hlen Hcr Hp Hpd Hps. unfold fork_cow.
  pose proof (cw_size _ _ _ Hc d sz Hd) as Hs.
  destruct (last_bounds sz Hs) as (Hla & Hlr & Hlp). destruct (image_bounds sz Hs) as (_ & Hib & _).
  apply wp_bind, (wp_pget me p); [done|]. rewrite Hpd, Hps, u32_small by klia.
  apply wp_bind, wp_liftM.
  wp_use (protect_loop_spec L A d sz Hd (Z.to_nat ((PGROUNDUP sz - PGSIZE) / PGSIZE))
            (ms k) 0 _ Hc); try done.
  - unfold aligned, PGSIZE in *. Z.div_mod_to_equations. lia.
  - unfold PGSIZE in *. Z.div_mod_to_equations. lia.
  - intros r s1 (-> & C1 & S1 & P1 & _).
    wp_use (copystack_spec (ks_ms s1 k) L A d sz me np p C1 Hd Hlen); try done.
    + cbn. by destruct (sb_regs _ _ _ _ S1) as (_ & -> & _).
    + intros _ k' (dn & s' & l' & -> & [F1 F2 F3 F4 F5 F6] & F7). exists dn, s', l'. split; [done|]. split; [|done].
      split; [done| | | |done|done].
      * eapply same_but_trans; [exact S1|exact F2].
      * intros va Hva. rewrite F3 by done. by apply (sb_read _ _ _ _ S1 d sz).
      * intros va Hva Hu. apply F4; [done|]. by apply (sb_user _ _ _ _ S1 d sz).
Qed.

End CowCopy.
