(* ===== verification/Bytes.v ===== *)
(** * Byte lists: C structs inside disk blocks

    Little-endian integers in a list of bytes, and overwriting a part of a
    list; the shape in which file-system structures lie in a block. *)

From S2P Require Import Prelude.

Open Scope Z_scope.

(** [n] bytes of [z], least significant first. *)
Fixpoint le_bytes (n : nat) (z : Z) : list byte :=
  match n with
  | O => []
  | S n => z2b z :: le_bytes n (z / 256)
  end.

Fixpoint of_le (l : list byte) : Z :=
  match l with
  | [] => 0
  | b :: l => b2z b + 256 * of_le l
  end.

(** [len] bytes at offset [off]. *)
Definition slice (off len : Z) (l : list byte) : list byte :=
  take (Z.to_nat len) (drop (Z.to_nat off) l).

(** [memmove] of [src] into [l] at offset [off]. *)
Definition splice (off : Z) (src l : list byte) : list byte :=
  take (Z.to_nat off) l ++ src ++ drop (Z.to_nat off + length src) l.

Definition get32 (off : Z) (l : list byte) : Z := of_le (slice off 4 l).
Definition put32 (off v : Z) (l : list byte) : list byte := splice off (le_bytes 4 v) l.
Definition get16 (off : Z) (l : list byte) : Z := of_le (slice off 2 l).
Definition put16 (off v : Z) (l : list byte) : list byte := splice off (le_bytes 2 v) l.

(** A [short] in memory. *)
Definition s16 (z : Z) : Z := (z + 2 ^ 15) mod 2 ^ 16 - 2 ^ 15.

(** The characters of a NUL-terminated array. *)
Fixpoint cstring (l : list byte) : list byte :=
  match l with
  | [] => []
  | b :: l => if bool_decide (b = x00) then [] else b :: cstring l
  end.

Lemma cstring_app l r : x00 ∉ l -> cstring (l ++ x00 :: r) = l.
Proof.
  induction l as [|b l IH]; intros Hn; [done|]. cbn [app cstring].
  apply not_elem_of_cons in Hn as [Hb Hn]. rewrite bool_decide_eq_false_2 by congruence.
  by rewrite IH.
Qed.

Lemma le_bytes_length n : forall z, length (le_bytes n z) = n.
Proof. induction n; intros z; cbn; [done|by rewrite IHn]. Qed.

Lemma of_le_le_bytes n : forall z, of_le (le_bytes n z) = z mod 256 ^ Z.of_nat n.
Proof.
  induction n as [|n IH]; intros z.
  - cbn. by rewrite Z.mod_1_r.
  - cbn [le_bytes of_le]. rewrite IH, b2z_z2b.
    rewrite Nat2Z.inj_succ, Z.pow_succ_r by lia.
    rewrite (Z.rem_mul_r z 256 (256 ^ Z.of_nat n)) by (try apply Z.pow_nonzero; lia). lia.
Qed.

Lemma le_bytes_of_le l : le_bytes (length l) (of_le l) = l.
Proof.
  induction l as [|b l IH]; [done|]. cbn [length le_bytes of_le].
  pose proof (b2z_range b). f_equal.
  - apply b2z_inj. rewrite b2z_z2b, (Z.mul_comm 256), Z.mod_add, Z.mod_small; lia.
  - rewrite (Z.mul_comm 256), Z.div_add, Z.div_small by lia. exact IH.
Qed.

Lemma of_le_range l : 0 <= of_le l < 256 ^ Z.of_nat (length l).
Proof.
  induction l as [|b l IH]; [done|]. cbn [of_le length].
  rewrite Nat2Z.inj_succ, Z.pow_succ_r by lia. pose proof (b2z_range b). lia.
Qed.

Lemma splice_length off src l :
  0 <= off -> off + Z.of_nat (length src) <= Z.of_nat (length l) ->
  length (splice off src l) = length l.
Proof. intros H1 H2. unfold splice. rewrite !length_app, length_take, length_drop. lia. Qed.

Lemma slice_length off len l :
  0 <= off -> 0 <= len -> off + len <= Z.of_nat (length l) ->
  Z.of_nat (length (slice off len l)) = len.
Proof. intros H1 H2 H3. unfold slice. rewrite length_take, length_drop. lia. Qed.

(** Reading back what was written. *)
Lemma slice_splice off src l :
  0 <= off -> off + Z.of_nat (length src) <= Z.of_nat (length l) ->
  slice off (Z.of_nat (length src)) (splice off src l) = src.
Proof.
  intros H1 H2. unfold slice, splice. rewrite Nat2Z.id.
  rewrite drop_app_length' by (rewrite length_take; lia). by rewrite take_app_length.
Qed.

(** A part that the write does not overlap. *)
Lemma slice_splice_ne off' len off src l :
  0 <= off -> 0 <= off' -> 0 <= len -> off + Z.of_nat (length src) <= Z.of_nat (length l) ->
  off' + len <= off \/ off + Z.of_nat (length src) <= off' ->
  slice off' len (splice off src l) = slice off' len l.
Proof.
  intros H1 H2 H3 H4 Hd. apply list_eq. intros i. unfold slice, splice.
  rewrite !lookup_take. case_decide as Hi; [|done]. rewrite !lookup_drop.
  destruct Hd as [Hd|Hd].
  - rewrite lookup_app_l by (rewrite length_take; lia). apply lookup_take_lt. lia.
  - rewrite lookup_app_r by (rewrite length_take; lia).
    rewrite lookup_app_r by (rewrite length_take; lia).
    rewrite lookup_drop. f_equal. rewrite length_take. lia.
Qed.

Lemma get32_put32 off v l :
  0 <= off -> off + 4 <= Z.of_nat (length l) -> get32 off (put32 off v l) = u32 v.
Proof.
  intros H1 H2. unfold get32, put32. change 4 with (Z.of_nat (length (le_bytes 4 v))).
  rewrite slice_splice by (rewrite ?le_bytes_length; lia). by rewrite of_le_le_bytes.
Qed.

Lemma get32_put32_ne off' off v l :
  0 <= off -> 0 <= off' -> off + 4 <= Z.of_nat (length l) -> off' + 4 <= off \/ off + 4 <= off' ->
  get32 off' (put32 off v l) = get32 off' l.
Proof.
  intros H1 H2 H3 H4. unfold get32, put32. f_equal.
  apply slice_splice_ne; rewrite ?le_bytes_length; lia.
Qed.

Lemma put32_length off v l :
  0 <= off -> off + 4 <= Z.of_nat (length l) -> length (put32 off v l) = length l.
Proof. intros H1 H2. apply splice_length; rewrite ?le_bytes_length; lia. Qed.

Lemma get32_range off l : 0 <= get32 off l < 2 ^ 32.
Proof.
  unfold get32. pose proof (of_le_range (slice off 4 l)) as Hr.
  assert (Hle : (length (slice off 4 l) <= 4)%nat) by (unfold slice; rewrite length_take; lia).
  assert (256 ^ Z.of_nat (length (slice off 4 l)) <= 256 ^ 4) by (apply Z.pow_le_mono_r; lia).
  change (2 ^ 32) with (256 ^ 4). lia.
Qed.

#[global] Arguments get32 : simpl never.
#[global] Arguments put32 : simpl never.
#[global] Arguments get16 : simpl never.
#[global] Arguments put16 : simpl never.
#[global] Arguments slice : simpl never.
#[global] Arguments splice : simpl never.
