(* ===== verification/Bio.v ===== *)
(** * The disk and the buffer cache: memide.c, bio.c

    [iderw] of the in-memory disk, and the cache of NBUF buffers on a doubly
    linked list in order of last use.  Buffer number [NBUF] is
    [bcache.head]. *)

From S2P Require Import Prelude Layout Mem Kalloc Vm State Sched.

Open Scope Z_scope.

(** ** Operations *)

Definition nbuf : nat := Z.to_nat NBUF.

Definition bufget (i : nat) : KM buf :=
  let! bs := gets bufs in from_option_wild (bs !! i).
Definition bufupd (i : nat) (f : buf -> buf) : KM unit :=
  modify (fun k => ks_bufs (alter f i (bufs k)) k).

(** [ideinit]: the disk is the file system image linked into the kernel. *)
Definition ideinit (image : Z -> block) (size : Z) : KM unit :=
  modify (ks_dsk (Disk (size / 512) image [])).

Definition ideintr : KM unit := ret tt.

Definition iderw (i : nat) : KM unit :=
  let! b := bufget i in
  let! d := gets dsk in
  if negb (has (b_flags b) B_BUSY) then panic "iderw: buf not busy"
  else if Z.land (b_flags b) (Z.lor B_VALID B_DIRTY) =? B_VALID then panic "iderw: nothing to do"
  else if negb (b_dev b =? 1) then panic "iderw: request not for disk 1"
  else if d_size d <=? b_sector b then panic "iderw: sector out of range"
  else
    (if has (b_flags b) B_DIRTY then
       bufupd i (fun b => bs_flags (Z.land (b_flags b) (Z.lnot B_DIRTY)) b) ;;;
       modify (ks_dsk (d_write (b_sector b) (b_data b) d))
     else bufupd i (bs_data (d_read d (b_sector b)))) ;;;
    bufupd i (fun b => bs_flags (Z.lor (b_flags b) B_VALID) b).

Fixpoint binit_loop (i n : nat) : KM unit :=
  match n with
  | O => ret tt
  | S n =>
      let! h := bufget nbuf in
      bufupd i (bs_next (b_next h)) ;;;
      bufupd i (bs_prev nbuf) ;;;
      bufupd i (bs_dev (u32 (-1))) ;;;
      let! h := bufget nbuf in
      bufupd (b_next h) (bs_prev i) ;;;
      bufupd nbuf (bs_next i) ;;;
      binit_loop (S i) n
  end.

Definition binit : KM unit :=
  modify (set_lock LkBcache false) ;;;
  bufupd nbuf (bs_prev nbuf) ;;;
  bufupd nbuf (bs_next nbuf) ;;;
  binit_loop 0 nbuf.

(** [for(b = bcache.head.next; b != &bcache.head; b = b->next)]: the buffer of
    the sector, if it is cached. *)
Fixpoint bget_find (dev sector : Z) (i fuel : nat) : KM (option nat) :=
  if (i =? nbuf)%nat then ret None
  else
    match fuel with
    | O => nofuel
    | S fuel =>
        let! b := bufget i in
        if (b_dev b =? dev) && (b_sector b =? sector) then ret (Some i)
        else bget_find dev sector (b_next b) fuel
    end.

(** [for(b = bcache.head.prev; b != &bcache.head; b = b->prev)]: the least
    recently used buffer that is neither busy nor dirty. *)
Fixpoint bget_recycle (i fuel : nat) : KM (option nat) :=
  if (i =? nbuf)%nat then ret None
  else
    match fuel with
    | O => nofuel
    | S fuel =>
        let! b := bufget i in
        if negb (has (b_flags b) B_BUSY) && negb (has (b_flags b) B_DIRTY) then ret (Some i)
        else bget_recycle (b_prev b) fuel
    end.

(** From [loop:] on; [w] bounds the number of times [sleep] returns. *)
Fixpoint bget_loop (dev sector : Z) (w : nat) : KM nat :=
  let! h := bufget nbuf in
  let! o := bget_find dev sector (b_next h) nbuf in
  match o with
  | Some i =>
      let! b := bufget i in
      if negb (has (b_flags b) B_BUSY) then
        bufupd i (bs_flags (Z.lor (b_flags b) B_BUSY)) ;;;
        release LkBcache ;;;
        ret i
      else
        match w with
        | O => nofuel
        | S w => sleep (ChBuf i) LkBcache ;;; bget_loop dev sector w
        end
  | None =>
      let! h := bufget nbuf in
      let! o := bget_recycle (b_prev h) nbuf in
      match o with
      | Some i =>
          bufupd i (bs_dev dev) ;;;
          bufupd i (bs_sector sector) ;;;
          bufupd i (bs_flags B_BUSY) ;;;
          release LkBcache ;;;
          ret i
      | None => panic "bget: no buffers"
      end
  end.

Section Bio.
Context `{Wakeups}.

Definition bget (dev sector : Z) : KM nat :=
  acquire LkBcache ;;;
  bget_loop dev sector wakeups.

Definition bread (dev sector : Z) : KM nat :=
  let! i := bget dev sector in
  let! b := bufget i in
  when (negb (has (b_flags b) B_VALID)) (iderw i) ;;;
  ret i.

Definition bwrite (i : nat) : KM unit :=
  let! b := bufget i in
  if negb (has (b_flags b) B_BUSY) then panic "bwrite"
  else
    bufupd i (bs_flags (Z.lor (b_flags b) B_DIRTY)) ;;;
    iderw i.

Definition brelse (i : nat) : KM unit :=
  let! b := bufget i in
  if negb (has (b_flags b) B_BUSY) then panic "brelse"
  else
    acquire LkBcache ;;;
    let! b := bufget i in
    bufupd (b_next b) (bs_prev (b_prev b)) ;;;
    let! b := bufget i in
    bufupd (b_prev b) (bs_next (b_next b)) ;;;
    let! h := bufget nbuf in
    bufupd i (bs_next (b_next h)) ;;;
    bufupd i (bs_prev nbuf) ;;;
    let! h := bufget nbuf in
    bufupd (b_next h) (bs_prev i) ;;;
    bufupd nbuf (bs_next i) ;;;
    bufupd i (fun b => bs_flags (Z.land (b_flags b) (Z.lnot B_BUSY)) b) ;;;
    wakeup (ChBuf i) ;;;
    release LkBcache.

(** The data of a buffer the caller has locked. *)
Definition bdata (i : nat) : KM block := let! b := bufget i in ret (b_data b).
Definition bset (i : nat) (f : block -> block) : KM unit :=
  bufupd i (fun b => bs_data (f (b_data b)) b).

End Bio.
