(* ===== verification/BioFacts.v ===== *)
(** * The buffer cache: facts

    The buffers lie on a ring in order of last use.  Without the links the
    cache is a list of buffers ([cores]); [bread], [bwrite] and [brelse] are
    described by what they do to that list, the ring and the disk. *)

From S2P Require Import Prelude Layout Mem Kalloc Vm State Sched Bytes Bio.

Open Scope Z_scope.

(** ** Circular lists, by their link function *)

(** Following [f] from [a] passes through the nodes [o] and ends at [z]. *)
Fixpoint nexts (f : nat -> nat) (a : nat) (o : list nat) (z : nat) : Prop :=
  match o with
  | [] => f a = z
  | b :: o => f a = b /\ nexts f b o z
  end.

Definition fupd (f : nat -> nat) (j v : nat) : nat -> nat := fun i => if decide (i = j) then v else f i.

Lemma nexts_ext f g a o z : (forall i, i ∈ a :: o -> g i = f i) -> nexts f a o z -> nexts g a o z.
Proof.
  revert a. induction o as [|b o IH]; cbn; intros a E.
  - rewrite E; [done|by left].
  - rewrite E by (by left). intros [-> Hn]. split; [done|]. apply IH; [|done].
    intros i Hi. apply E. by right.
Qed.

Lemma nexts_fupd f a o z j v : j ∉ a :: o -> nexts f a o z -> nexts (fupd f j v) a o z.
Proof.
  intros Hj. apply nexts_ext. intros i Hi. unfold fupd. rewrite decide_False; [done|]. by intros ->.
Qed.

Lemma nexts_app f a o1 b o2 z : nexts f a (o1 ++ b :: o2) z <-> nexts f a o1 b /\ nexts f b o2 z.
Proof.
  revert a. induction o1 as [|c o1 IH]; intros a; cbn; [done|].
  rewrite IH. naive_solver.
Qed.

(** The node before the end of the path. *)
Fixpoint prev_of (a : nat) (o : list nat) : nat :=
  match o with
  | [] => a
  | b :: o => prev_of b o
  end.

Lemma prev_of_in a o : prev_of a o ∈ a :: o.
Proof. revert a. induction o as [|b o IH]; intros a; cbn; [by left|right; apply IH]. Qed.

Lemma prev_of_snoc a o b : prev_of a (o ++ [b]) = b.
Proof. revert a. induction o as [|c o IH]; intros a; [done|]. apply IH. Qed.

Lemma prev_of_rev a o : prev_of a (rev o) = hd a o.
Proof. destruct o as [|b o]; [done|]. apply prev_of_snoc. Qed.

Lemma hd_rev a o : hd a (rev o) = prev_of a o.
Proof. rewrite <- (rev_involutive o) at 2. by rewrite prev_of_rev. Qed.

Lemma nexts_last f a o x y : NoDup (a :: o) -> nexts f a o x -> nexts (fupd f (prev_of a o) y) a o y.
Proof.
  revert a. induction o as [|b o IH]; intros a Hnd; cbn [nexts prev_of].
  - intros _. unfold fupd. by rewrite decide_True.
  - intros [Ea Hn]. apply NoDup_cons in Hnd as [Ha Hnd].
    split; [|by apply IH]. unfold fupd. rewrite decide_False; [done|].
    intros ->. by apply Ha, prev_of_in.
Qed.

Lemma nexts_hd f a o z : nexts f a o z -> f a = hd z o.
Proof. destruct o; cbn; [done|naive_solver]. Qed.

Lemma nexts_at f a o1 i o2 z : nexts f a (o1 ++ i :: o2) z -> f i = hd z o2.
Proof. intros [_ Hn]%nexts_app. by eapply nexts_hd. Qed.

Lemma nexts_unlink f a o1 i o2 z :
  NoDup (a :: o1 ++ i :: o2) -> nexts f a (o1 ++ i :: o2) z ->
  nexts (fupd f (prev_of a o1) (hd z o2)) a (o1 ++ o2) z.
Proof.
  intros Hnd [H1 H2]%nexts_app. rewrite app_comm_cons in Hnd.
  apply NoDup_app in Hnd as (Hnd & Hd & _). pose proof (prev_of_in a o1) as Hp.
  destruct o2 as [|b o2]; cbn [hd].
  - rewrite app_nil_r. by eapply nexts_last.
  - apply nexts_app. split; [by eapply nexts_last|]. destruct H2 as [_ H2].
    apply nexts_fupd; [|done]. intros Hin. apply (Hd _ Hp). by right.
Qed.

Lemma nexts_push f a o z i :
  i ∉ a :: o -> a ∉ o -> nexts f a o z -> nexts (fupd (fupd f i (hd z o)) a i) a (i :: o) z.
Proof.
  intros Hi Ha Hn. apply not_elem_of_cons in Hi as [Hia Hio]. split; [unfold fupd; by rewrite decide_True|].
  assert (E : fupd (fupd f i (hd z o)) a i i = hd z o).
  { unfold fupd. rewrite decide_False, decide_True by done. done. }
  destruct o as [|b o]; cbn [nexts hd] in *; [done|]. split; [done|].
  apply nexts_fupd; [done|]. apply nexts_fupd; [done|]. tauto.
Qed.

Lemma nexts_snoc f a o z i :
  NoDup (a :: o) -> i ∉ a :: o -> nexts f a o z ->
  nexts (fupd (fupd f i z) (prev_of a o) i) a (o ++ [i]) z.
Proof.
  intros Hnd Hi Hn. apply nexts_app. split.
  - eapply nexts_last; [done|]. by apply nexts_fupd.
  - cbn. unfold fupd. rewrite decide_False, decide_True; [done|done|].
    intros ->. apply Hi, prev_of_in.
Qed.

(** ** The ring of buffers *)

Definition nx (bs : list buf) (i : nat) : nat := from_option b_next 0%nat (bs !! i).
Definition pv (bs : list buf) (i : nat) : nat := from_option b_prev 0%nat (bs !! i).

(** Buffer [nbuf] is the head; [o] is the order from the most recently used. *)
Record ring (bs : list buf) (o : list nat) : Prop := {
  rg_len : length bs = S nbuf;
  rg_next : nexts (nx bs) nbuf o nbuf;
  rg_prev : nexts (pv bs) nbuf (rev o) nbuf;
  rg_perm : o ≡ₚ seq 0 nbuf
}.

(** A buffer without its links, and the cache without the head. *)
Definition core (b : buf) : buf := bs_next 0 (bs_prev 0 b).
Definition cores (bs : list buf) : list buf := core <$> take nbuf bs.

Lemma cores_lookup bs i b : bs !! i = Some b -> (i < nbuf)%nat -> cores bs !! i = Some (core b).
Proof. intros E Hi. unfold cores. by rewrite list_lookup_fmap, lookup_take_lt, E. Qed.

Lemma cores_inv bs i c : cores bs !! i = Some c -> exists b, bs !! i = Some b /\ c = core b /\ (i < nbuf)%nat.
Proof.
  unfold cores. rewrite list_lookup_fmap. intros E.
  destruct (take nbuf bs !! i) as [b|] eqn:Eb; [|done]. injection E as <-.
  apply lookup_take_Some in Eb as [Eb Hi]. eauto.
Qed.

Lemma nx_alter f (bs : list buf) j i :
  (forall b, b_next (f b) = b_next b) -> nx (alter f j bs) i = nx bs i.
Proof.
  intros Hf. unfold nx. destruct (decide (i = j)) as [->|Hne].
  - rewrite list_lookup_alter_eq. destruct (bs !! j); [apply Hf|done].
  - by rewrite list_lookup_alter_ne.
Qed.

Lemma pv_alter f (bs : list buf) j i :
  (forall b, b_prev (f b) = b_prev b) -> pv (alter f j bs) i = pv bs i.
Proof.
  intros Hf. unfold pv. destruct (decide (i = j)) as [->|Hne].
  - rewrite list_lookup_alter_eq. destruct (bs !! j); [apply Hf|done].
  - by rewrite list_lookup_alter_ne.
Qed.

Lemma nx_set v (bs : list buf) j i :
  (j < length bs)%nat -> nx (alter (bs_next v) j bs) i = fupd (nx bs) j v i.
Proof.
  intros Hj. unfold nx, fupd. case_decide as E; subst.
  - apply lookup_lt_is_Some_2 in Hj as [b Hb]. by rewrite list_lookup_alter_eq, Hb.
  - by rewrite list_lookup_alter_ne.
Qed.

Lemma pv_set v (bs : list buf) j i :
  (j < length bs)%nat -> pv (alter (bs_prev v) j bs) i = fupd (pv bs) j v i.
Proof.
  intros Hj. unfold pv, fupd. case_decide as E; subst.
  - apply lookup_lt_is_Some_2 in Hj as [b Hb]. by rewrite list_lookup_alter_eq, Hb.
  - by rewrite list_lookup_alter_ne.
Qed.

Lemma cores_alter f i bs :
  (forall b, core (f b) = f (core b)) -> (i < nbuf)%nat -> cores (alter f i bs) = alter f i (cores bs).
Proof.
  intros Hf Hi. apply list_eq. intros j. unfold cores. rewrite list_lookup_fmap.
  destruct (decide (j < nbuf)%nat) as [Hj|Hj].
  - rewrite lookup_take_lt by done. destruct (decide (j = i)) as [->|Hne].
    + rewrite !list_lookup_alter_eq, list_lookup_fmap, lookup_take_lt by done.
      destruct (bs !! i); [|done]. cbn. by rewrite Hf.
    + rewrite !list_lookup_alter_ne, list_lookup_fmap, lookup_take_lt by done. done.
  - rewrite lookup_take_ge by lia. rewrite list_lookup_alter_ne by lia.
    rewrite list_lookup_fmap, lookup_take_ge by lia. done.
Qed.

Lemma cores_links f i bs : (forall b, core (f b) = core b) -> cores (alter f i bs) = cores bs.
Proof.
  intros Hf. apply list_eq. intros j. unfold cores. rewrite !list_lookup_fmap, !lookup_take.
  case_decide; [|done]. destruct (decide (j = i)) as [->|Hne].
  - rewrite list_lookup_alter_eq. destruct (bs !! i); [|done]. cbn. by rewrite Hf.
  - by rewrite list_lookup_alter_ne.
Qed.

Lemma ring_alter f i bs o :
  (forall b, b_next (f b) = b_next b /\ b_prev (f b) = b_prev b) ->
  ring bs o -> ring (alter f i bs) o.
Proof.
  intros Hf [L N P Pm]. split; [by rewrite length_alter| | |done].
  - eapply nexts_ext; [|exact N]. intros j _. apply nx_alter. intros b. apply Hf.
  - eapply nexts_ext; [|exact P]. intros j _. apply pv_alter. intros b. apply Hf.
Qed.

Lemma ring_in bs o i : ring bs o -> i ∈ o <-> (i < nbuf)%nat.
Proof. intros R. rewrite (rg_perm _ _ R), elem_of_seq. lia. Qed.

Lemma ring_nodup bs o : ring bs o -> NoDup (nbuf :: o).
Proof.
  intros R. apply NoDup_cons. split.
  - rewrite (ring_in _ _ _ R). lia.
  - rewrite (rg_perm _ _ R). apply NoDup_seq.
Qed.

Lemma ring_lookup bs o i : ring bs o -> (i <= nbuf)%nat -> exists b, bs !! i = Some b.
Proof. intros R Hi. apply lookup_lt_is_Some_2. rewrite (rg_len _ _ R). lia. Qed.

(** ** Walking the ring *)

Lemma wp_bufget i b k Q : bufs k !! i = Some b -> Q b k -> wp (bufget i) k Q.
Proof. intros E HQ. unfold bufget. apply wp_bind, wp_gets. by rewrite E. Qed.

(** The buffer caches the sector. *)
Definition caches (dev sec : Z) (b : buf) : bool := (b_dev b =? dev) && (b_sector b =? sec).

Lemma bget_find_walk dev sec k : forall o fuel i z,
  nexts (nx (bufs k)) i o z -> z = nbuf -> (forall j, j ∈ i :: o -> (j < nbuf)%nat) ->
  length (bufs k) = S nbuf -> (S (length o) <= fuel)%nat ->
  wp (bget_find dev sec i fuel) k (fun r k' => k' = k /\
    match r with
    | Some j => j ∈ i :: o /\ exists b, bufs k !! j = Some b /\ caches dev sec b = true
    | None => forall j b, j ∈ i :: o -> bufs k !! j = Some b -> caches dev sec b = false
    end).
Proof.
  induction o as [|j o IH]; intros fuel i z Hn -> Hin Hlen Hfuel.
  all: assert (Hi : (i < nbuf)%nat) by (apply Hin; by left).
  all: destruct (lookup_lt_is_Some_2 (bufs k) i) as [b Hb]; [lia|].
  all: destruct fuel as [|fuel]; [cbn in Hfuel; lia|]; cbn [bget_find].
  all: rewrite (proj2 (Nat.eqb_neq i nbuf)) by lia.
  all: apply wp_bind, (wp_bufget i b); [done|]; fold (caches dev sec b).
  all: destruct (caches dev sec b) eqn:Ec;
    [apply wp_ret; split; [done|]; split; [by left|]; by exists b|].
  - cbn in Hn. unfold nx in Hn. rewrite Hb in Hn. cbn in Hn. rewrite Hn.
    assert (W : bget_find dev sec nbuf fuel k = Ok None k)
      by (destruct fuel; cbn [bget_find]; by rewrite Nat.eqb_refl).
    unfold wp. rewrite W. split; [done|]. intros j c ->%list_elem_of_singleton Hc. congruence.
  - cbn in Hn. destruct Hn as [Ej Hn]. unfold nx in Ej. rewrite Hb in Ej. cbn in Ej. rewrite Ej.
    wp_use (IH fuel j nbuf Hn); [done| |done|cbn in Hfuel; lia|].
    + intros x Hx. apply Hin. by right.
    + intros r k' [-> Hr]. split; [done|]. destruct r as [x|].
      * destruct Hr as [Hx Hr]. split; [by right|done].
      * intros x c [->|Hx]%elem_of_cons Hc; [congruence|]. by apply (Hr x).
Qed.

(** A buffer [bget] may take for another sector. *)
Definition idle (b : buf) : bool := negb (has (b_flags b) B_BUSY) && negb (has (b_flags b) B_DIRTY).

Lemma bget_recycle_walk k : forall o fuel i z,
  nexts (pv (bufs k)) i o z -> z = nbuf -> (forall j, j ∈ i :: o -> (j < nbuf)%nat) ->
  length (bufs k) = S nbuf -> (S (length o) <= fuel)%nat ->
  wp (bget_recycle i fuel) k (fun r k' => k' = k /\
    match r with
    | Some j => exists o1 o2 b, i :: o = o1 ++ j :: o2 /\ bufs k !! j = Some b /\ idle b = true /\
        forall x c, x ∈ o1 -> bufs k !! x = Some c -> idle c = false
    | None => forall j b, j ∈ i :: o -> bufs k !! j = Some b -> idle b = false
    end).
Proof.
  induction o as [|j o IH]; intros fuel i z Hn -> Hin Hlen Hfuel.
  all: assert (Hi : (i < nbuf)%nat) by (apply Hin; by left).
  all: destruct (lookup_lt_is_Some_2 (bufs k) i) as [b Hb]; [lia|].
  all: destruct fuel as [|fuel]; [cbn in Hfuel; lia|]; cbn [bget_recycle].
  all: rewrite (proj2 (Nat.eqb_neq i nbuf)) by lia.
  all: apply wp_bind, (wp_bufget i b); [done|]; fold (idle b).
  all: destruct (idle b) eqn:Ec; [apply wp_ret; split; [done|]; eexists [], _, b;
    split_and!; [done..|]; by intros x c Hx%not_elem_of_nil|].
  - cbn in Hn. unfold pv in Hn. rewrite Hb in Hn. cbn in Hn. rewrite Hn.
    assert (W : bget_recycle nbuf fuel k = Ok None k)
      by (destruct fuel; cbn [bget_recycle]; by rewrite Nat.eqb_refl).
    unfold wp. rewrite W. split; [done|]. intros j c ->%list_elem_of_singleton Hc. congruence.
  - cbn in Hn. destruct Hn as [Ej Hn]. unfold pv in Ej. rewrite Hb in Ej. cbn in Ej. rewrite Ej.
    wp_use (IH fuel j nbuf Hn); [done| |done|cbn in Hfuel; lia|].
    + intros x Hx. apply Hin. by right.
    + intros r k' [-> Hr]. split; [done|]. destruct r as [x|].
      * destruct Hr as (o1 & o2 & c & E & Hc & Hid & Hr). exists (i :: o1), o2, c.
        split_and!; [by rewrite E|done|done|]. intros y d [->|Hy]%elem_of_cons Hd; [congruence|].
        by apply (Hr y).
      * intros x c [->|Hx]%elem_of_cons Hc; [congruence|]. by apply (Hr x).
Qed.

(** ** bget *)

Section BioFacts.
Context `{Wakeups}.

(** Nothing but the buffers, the disk, the log and the processes changed. *)
Definition bfr (k k' : kstate) : Prop :=
  k' = ks_procs (procs k') (ks_bufs (bufs k') (ks_dsk (dsk k') (ks_klog (klog k') k))).

Lemma bfr_refl k : bfr k k.
Proof. by destruct k. Qed.

Lemma bfr_trans k1 k2 k3 : bfr k1 k2 -> bfr k2 k3 -> bfr k1 k3.
Proof. intros E1 E2. unfold bfr in *. rewrite E1 in E2. exact E2. Qed.

(** Processes that slept may have been woken; nothing else about them changed. *)
Definition woken : list proc -> list proc -> Prop :=
  Forall2 (fun p p' => p' = p \/ p_state p = SLEEPING /\ p' = ps_state RUNNABLE p).

Lemma woken_refl ps : woken ps ps.
Proof. induction ps; constructor; auto. Qed.

Lemma woken_wake c ps : woken ps (wake c <$> ps).
Proof.
  induction ps as [|p ps IH]; constructor; [|done]. unfold wake. case_bool_decide as E; [right|by left]. by destruct E.
Qed.

Lemma woken_trans ps1 ps2 ps3 : woken ps1 ps2 -> woken ps2 ps3 -> woken ps1 ps3.
Proof.
  intros E1. revert ps3. induction E1 as [|p1 p2 ps1 ps2 H1 _ IH]; intros ps3 E2; inversion E2 as [|? p3 ? ps3' H2 W]; subst.
  - constructor.
  - constructor; [|by apply IH]. destruct H1 as [->|[Hs ->]]; [done|]. destruct H2 as [->|[Hr _]]; [by right|done].
Qed.

(** A process that is not asleep is as it was. *)
Lemma woken_awake ps ps' i p : woken ps ps' -> ps !! i = Some p -> p_state p <> SLEEPING -> ps' !! i = Some p.
Proof.
  intros W E Hs. destruct (Forall2_lookup_l _ _ _ _ _ W E) as (p' & E' & [->|[Hr _]]); [done|by elim Hs].
Qed.

Definition unlocked (k : kstate) : Prop := bc_lock k = false /\ pt_lock k = false /\ lg_lock k = false.

Lemma bfr_unlocked k k' : bfr k k' -> unlocked k -> unlocked k'.
Proof. intros E Hu. unfold bfr in E. rewrite E. exact Hu. Qed.

(** The buffer table after [bget] chose buffer [i]: it had the sector, or it
    was idle and the least recently used of the idle ones. *)
Inductive got (dev sec : Z) (bs : list buf) (o : list nat) (i : nat) : list buf -> Prop :=
  | got_hit b : bs !! i = Some b -> (i < nbuf)%nat -> caches dev sec b = true ->
      has (b_flags b) B_BUSY = false ->
      got dev sec bs o i (alter (bs_flags (Z.lor (b_flags b) B_BUSY)) i bs)
  | got_new b o1 o2 : bs !! i = Some b -> (i < nbuf)%nat -> idle b = true ->
      (forall j c, (j < nbuf)%nat -> bs !! j = Some c -> caches dev sec c = false) ->
      o = o1 ++ i :: o2 ->
      (forall j c, j ∈ o2 -> bs !! j = Some c -> idle c = false) ->
      got dev sec bs o i
        (alter (bs_flags B_BUSY) i (alter (bs_sector sec) i (alter (bs_dev dev) i bs))).

Lemma bget_loop_unfold dev sec w :
  bget_loop dev sec w =
    (let! h := bufget nbuf in
     let! o := bget_find dev sec (b_next h) nbuf in
     match o with
     | Some i =>
         let! b := bufget i in
         if negb (has (b_flags b) B_BUSY) then
           bufupd i (bs_flags (Z.lor (b_flags b) B_BUSY)) ;;; release LkBcache ;;; ret i
         else match w with O => nofuel | S w => sleep (ChBuf i) LkBcache ;;; bget_loop dev sec w end
     | None =>
         let! h := bufget nbuf in
         let! o := bget_recycle (b_prev h) nbuf in
         match o with
         | Some i =>
             bufupd i (bs_dev dev) ;;; bufupd i (bs_sector sec) ;;; bufupd i (bs_flags B_BUSY) ;;;
             release LkBcache ;;; ret i
         | None => panic "bget: no buffers"
         end
     end).
Proof. by destruct w. Qed.

(** The two walks over the whole ring. *)
Lemma bget_find_ring dev sec k o h :
  ring (bufs k) o -> bufs k !! nbuf = Some h ->
  wp (bget_find dev sec (b_next h) nbuf) k (fun r k' => k' = k /\
    match r with
    | Some j => (j < nbuf)%nat /\ exists b, bufs k !! j = Some b /\ caches dev sec b = true
    | None => forall j b, (j < nbuf)%nat -> bufs k !! j = Some b -> caches dev sec b = false
    end).
Proof.
  intros R Hh. assert (En : nx (bufs k) nbuf = b_next h) by (unfold nx; by rewrite Hh).
  pose proof (rg_next _ _ R) as Hn. pose proof (rg_len _ _ R) as Hlen.
  assert (Hlo : length o = nbuf) by (rewrite (rg_perm _ _ R); apply length_seq).
  destruct o as [|f o]; [done|]. destruct Hn as [Ef Hn]. rewrite <- En, Ef.
  wp_use (bget_find_walk dev sec k o nbuf f nbuf Hn eq_refl); [|done|cbn [length] in Hlo; lia|].
  - intros j Hj. by apply (ring_in _ _ _ R).
  - intros r k' [-> Hr]. split; [done|]. destruct r as [j|].
    + destruct Hr as [Hj Hr]. split; [by apply (ring_in _ _ _ R)|done].
    + intros j b Hj. apply Hr. by apply (ring_in _ _ _ R).
Qed.

Lemma bget_recycle_ring k o h :
  ring (bufs k) o -> bufs k !! nbuf = Some h ->
  wp (bget_recycle (b_prev h) nbuf) k (fun r k' => k' = k /\
    match r with
    | Some j => (j < nbuf)%nat /\ exists o1 o2 b, o = o1 ++ j :: o2 /\ bufs k !! j = Some b /\
        idle b = true /\ forall x c, x ∈ o2 -> bufs k !! x = Some c -> idle c = false
    | None => forall j b, (j < nbuf)%nat -> bufs k !! j = Some b -> idle b = false
    end).
Proof.
  intros R Hh. assert (Ep : pv (bufs k) nbuf = b_prev h) by (unfold pv; by rewrite Hh).
  pose proof (rg_prev _ _ R) as Hp. pose proof (rg_len _ _ R) as Hlen.
  assert (Hlo : length (rev o) = nbuf) by (rewrite length_rev, (rg_perm _ _ R); apply length_seq).
  assert (Hro : forall j, j ∈ rev o <-> (j < nbuf)%nat)
    by (intros j; rewrite <- (ring_in _ _ j R); rewrite !list_elem_of_In; symmetry; apply in_rev).
  destruct (rev o) as [|f o'] eqn:Er; [done|]. destruct Hp as [Ef Hp]. rewrite <- Ep, Ef.
  wp_use (bget_recycle_walk k o' nbuf f nbuf Hp eq_refl);
    [intros j Hj; by apply Hro|done|cbn [length] in Hlo; lia|].
  intros r k' [-> Hr]. split; [done|]. destruct r as [j|].
  - destruct Hr as (o1 & o2 & b & E & Hb & Hid & Hlru).
    split; [apply Hro; rewrite E; apply elem_of_app; right; by left|].
    exists (rev o2), (rev o1), b. split_and!; try done.
    + rewrite <- (rev_involutive o), Er, E, rev_app_distr. cbn. by rewrite <- app_assoc.
    + intros x c Hx. apply Hlru. by rewrite list_elem_of_In, in_rev, <- list_elem_of_In.
  - intros j b Hj. apply Hr. by apply Hro.
Qed.

Lemma bget_spec dev sec k o :
  ring (bufs k) o -> bc_lock k = false ->
  (forall i b, (i < nbuf)%nat -> bufs k !! i = Some b -> caches dev sec b = true ->
    has (b_flags b) B_BUSY = false) ->
  (exists i b, (i < nbuf)%nat /\ bufs k !! i = Some b /\ (idle b = true \/ caches dev sec b = true)) ->
  wp (bget dev sec) k (fun i k' => exists bs', k' = ks_bufs bs' k /\ got dev sec (bufs k) o i bs').
Proof.
  intros R Hl Hfree (i0 & b0 & Hi0 & Hb0 & Hor).
  unfold bget. apply wp_bind, wp_acquire; [done|]. set (k1 := set_lock LkBcache true k).
  assert (Hend : forall bs', set_lock LkBcache false (ks_bufs bs' k1) = ks_bufs bs' k).
  { intros bs'. unfold k1. destruct k. cbn in Hl. by subst. }
  destruct (ring_lookup _ _ nbuf R) as [h Hh]; [lia|].
  rewrite bget_loop_unfold. apply wp_bind, (wp_bufget nbuf h); [done|]. apply wp_bind.
  wp_use (bget_find_ring dev sec k1 o h R Hh). intros r k' [-> Hr]. destruct r as [j|].
  { destruct Hr as (Hj & b & Hb & Hc). apply wp_bind, (wp_bufget j b); [done|].
    rewrite (Hfree j b Hj Hb Hc). apply wp_bind, wp_modify, wp_bind, wp_release; [done|].
    apply wp_ret. rewrite Hend. eexists. split; [done|]. by apply (got_hit dev sec _ _ _ b Hb Hj Hc), (Hfree j b). }
  apply wp_bind, (wp_bufget nbuf h); [done|]. apply wp_bind.
  wp_use (bget_recycle_ring k1 o h R Hh). intros r k' [-> Hr2]. destruct r as [j|].
  - destruct Hr2 as (Hj & o1 & o2 & b & E & Hb & Hid & Hlru).
    do 3 (apply wp_bind, wp_modify). apply wp_bind, wp_release; [done|]. apply wp_ret.
    unfold k1 in Hend. cbn in Hend. eexists. split; [apply Hend|].
    by apply (got_new dev sec (bufs k) o j b o1 o2).
  - exfalso. destruct Hor as [Hid|Hc].
    + by rewrite (Hr2 i0 b0 Hi0 Hb0) in Hid.
    + by rewrite (Hr i0 b0 Hi0 Hb0) in Hc.
Qed.

(** ** What the cache holds *)

Definition busy (b : buf) : bool := has (b_flags b) B_BUSY.
Definition valid (b : buf) : bool := has (b_flags b) B_VALID.
Definition dirty (b : buf) : bool := has (b_flags b) B_DIRTY.

(** The cache over the disk [d] gives sector [s] the contents [V s].  The
    caller holds the buffers of [L], pairs of a buffer and its sector; the
    sectors [D] have been modified and may not leave the cache. *)
Record cstate (cs : list buf) (d : disk) (V : Z -> block) (L : list (nat * Z)) (D : list Z) : Prop := {
  cs_uniq : forall i j x y, cs !! i = Some x -> cs !! j = Some y -> b_dev x = 1 -> b_dev y = 1 ->
    b_sector x = b_sector y -> i = j;
  cs_data : forall i x, cs !! i = Some x -> b_dev x = 1 ->
    valid x = true /\ b_data x = V (b_sector x);
  cs_busy : forall i x, cs !! i = Some x -> busy x = true <-> i ∈ L.*1;
  cs_held : forall i s, (i, s) ∈ L -> exists x, cs !! i = Some x /\ b_dev x = 1 /\ b_sector x = s;
  cs_dirty : forall i x, cs !! i = Some x -> dirty x = true -> b_dev x = 1 /\ b_sector x ∈ D;
  cs_pinned : forall s, s ∈ D -> exists i x, cs !! i = Some x /\ b_dev x = 1 /\ b_sector x = s /\
    dirty x = true;
  cs_disk : forall s, s ∉ D -> s ∉ L.*2 -> V s = d_read d s;
  cs_len : (forall s, length (V s) = 512%nat) /\ forall s, length (d_read d s) = 512%nat
}.

Definition cache (k : kstate) (V : Z -> block) (L : list (nat * Z)) (D : list Z) : Prop :=
  (exists o, ring (bufs k) o) /\ cstate (cores (bufs k)) (dsk k) V L D /\ NoDup L.*1 /\ NoDup D.

(** Replace the contents of one sector. *)
Definition fset (s : Z) (x : block) (V : Z -> block) : Z -> block := fun t => if t =? s then x else V t.

Lemma cores_length k V L D : cache k V L D -> length (cores (bufs k)) = nbuf.
Proof.
  intros ((o & R) & _). unfold cores. rewrite length_fmap, length_take, (rg_len _ _ R). lia.
Qed.

Lemma not_idle b : ~ idle b = true -> busy b = false -> dirty b = true.
Proof.
  unfold idle, busy, dirty. intros Hi E. rewrite E in Hi. by destruct (has (b_flags b) B_DIRTY).
Qed.

(** A buffer that is neither held nor dirty exists while few are. *)
Lemma cache_idle k V L D :
  cache k V L D -> (length L + length D < nbuf)%nat ->
  exists i b, (i < nbuf)%nat /\ bufs k !! i = Some b /\ idle b = true.
Proof.
  intros Hc Hlt. pose proof (cores_length _ _ _ _ Hc) as Hlen. destruct Hc as (_ & C & _ & _).
  destruct (decide (Exists (fun b => idle b = true) (cores (bufs k)))) as [He|Hn].
  { apply Exists_exists in He as (c & [i Hi]%list_elem_of_lookup & Hid).
    apply cores_inv in Hi as (b & Hb & -> & Hi). eauto. }
  exfalso. rewrite <- Forall_Exists_neg in Hn.
  set (f := fun i => match cores (bufs k) !! i with
    | Some x => if busy x then inl i else inr (b_sector x) | None => inl i end).
  assert (Hsub : f <$> seq 0 nbuf ⊆+ (inl <$> L.*1) ++ (inr <$> D)).
  { apply NoDup_submseteq.
    - apply NoDup_fmap_2_strong; [|apply NoDup_seq]. intros i j Hi%elem_of_seq Hj%elem_of_seq.
      destruct (lookup_lt_is_Some_2 (cores (bufs k)) i) as [x Hx]; [lia|].
      destruct (lookup_lt_is_Some_2 (cores (bufs k)) j) as [y Hy]; [lia|].
      unfold f. rewrite Hx, Hy. destruct (busy x) eqn:Bx, (busy y) eqn:By; try congruence.
      intros [= E]. apply (cs_uniq _ _ _ _ _ C i j x y Hx Hy); [| |done].
      + eapply (cs_dirty _ _ _ _ _ C); [done|]. apply not_idle; [|done].
        rewrite Forall_lookup in Hn. by apply (Hn i x).
      + eapply (cs_dirty _ _ _ _ _ C); [done|]. apply not_idle; [|done].
        rewrite Forall_lookup in Hn. by apply (Hn j y).
    - intros z (i & -> & Hi%elem_of_seq)%list_elem_of_fmap.
      destruct (lookup_lt_is_Some_2 (cores (bufs k)) i) as [x Hx]; [lia|].
      unfold f. rewrite Hx. apply elem_of_app. destruct (busy x) eqn:Bx.
      + left. apply list_elem_of_fmap. exists i. split; [done|]. by apply (cs_busy _ _ _ _ _ C i x).
      + right. apply list_elem_of_fmap. exists (b_sector x). split; [done|].
        eapply (cs_dirty _ _ _ _ _ C); [done|]. apply not_idle; [|done].
        rewrite Forall_lookup in Hn. by apply (Hn i x). }
  apply submseteq_length in Hsub. rewrite length_app, !length_fmap, length_seq in Hsub. lia.
Qed.

(** Flags *)
Lemma set_flag f g h : Z.land g h = 0 -> has (Z.lor f g) g = negb (g =? 0) /\ has (Z.lor f g) h = has f h.
Proof.
  intros E. rewrite !has_lor_flag, E, Z.land_diag. cbn. rewrite orb_false_r. split; [|done].
  destruct (Z.eqb_spec g 0) as [->|Hg]; [|apply orb_true_r]. unfold has. by rewrite Z.land_0_r.
Qed.

Lemma clear_flag f g h :
  Z.land (Z.lnot g) h = h -> has (Z.land f (Z.lnot g)) g = false /\ has (Z.land f (Z.lnot g)) h = has f h.
Proof.
  intros E. rewrite !has_land_lnot, E. rewrite Z.land_comm with (a := Z.lnot g).
  rewrite Z.land_lnot_diag, Z.land_0_r. done.
Qed.

(** *** The effect of each operation on the contents *)

Section Contents.
Variables (cs : list buf) (d : disk) (V : Z -> block) (L : list (nat * Z)) (D : list Z).
Variables (i : nat) (x y : buf) (s : Z).
Hypothesis C : cstate cs d V L D.
Hypothesis Hx : cs !! i = Some x.
Hypothesis Hy : b_dev y = 1 /\ b_sector y = s /\ valid y = true.

Lemma ins_lookup j z : <[i := y]> cs !! j = Some z -> j = i /\ z = y \/ j <> i /\ cs !! j = Some z.
Proof. intros [(? & ? & ?)|[? ?]]%list_lookup_insert_Some; auto. Qed.

Lemma ins_same : <[i := y]> cs !! i = Some y.
Proof. apply list_lookup_insert_eq. by eapply lookup_lt_Some. Qed.

Lemma ins_other j z : cs !! j = Some z -> j <> i -> <[i := y]> cs !! j = Some z.
Proof. intros E Hne. by rewrite list_lookup_insert_ne. Qed.

(** Sector [s] is in no other buffer. *)
Hypothesis Hsole : forall j z, cs !! j = Some z -> b_dev z = 1 -> b_sector z = s -> j = i.

Lemma ins_uniq j k z w : <[i := y]> cs !! j = Some z -> <[i := y]> cs !! k = Some w ->
  b_dev z = 1 -> b_dev w = 1 -> b_sector z = b_sector w -> j = k.
Proof.
  destruct Hy as (Hd & Hs & _).
  intros [[-> ->]|[Hj Ej]]%ins_lookup [[-> ->]|[Hk Ek]]%ins_lookup Dz Dw E; try done.
  - symmetry. apply (Hsole k w); congruence.
  - apply (Hsole j z); congruence.
  - by apply (cs_uniq _ _ _ _ _ C j k z w).
Qed.

(** Take the buffer: its data are those of the sector. *)
Lemma cstate_take :
  busy x = false -> busy y = true -> b_data y = V s -> dirty y = dirty x ->
  (b_dev x = 1 /\ b_sector x = s \/ dirty x = false) ->
  cstate (<[i := y]> cs) d V ((i, s) :: L) D.
Proof.
  intros Bx By Ed Dy Hor. destruct Hy as (Hd & Hs & Hv). split.
  - apply ins_uniq.
  - intros j z [[-> ->]|[Hj Ej]]%ins_lookup Dz; [by rewrite Hs|by apply (cs_data _ _ _ _ _ C j)].
  - intros j z [[-> ->]|[Hj Ej]]%ins_lookup; cbn.
    + rewrite By. split; [intros _; by left|done].
    + rewrite (cs_busy _ _ _ _ _ C j z Ej), elem_of_cons. naive_solver.
  - intros j t [[= -> ->]|Hin]%elem_of_cons; [exists y; split; [apply ins_same|done]|].
    destruct (cs_held _ _ _ _ _ C j t Hin) as (z & Ez & Hz). exists z. split; [|done].
    apply ins_other; [done|]. intros ->. assert (Hb : busy x = true); [|congruence].
    apply (cs_busy _ _ _ _ _ C i x Hx). apply list_elem_of_fmap. by exists (i, t).
  - intros j z [[-> ->]|[Hj Ej]]%ins_lookup Dz; [|by apply (cs_dirty _ _ _ _ _ C j)].
    rewrite Dy in Dz. destruct (cs_dirty _ _ _ _ _ C i x Hx Dz). destruct Hor as [[? <-]|?]; [|congruence].
    split; [done|]. by rewrite Hs.
  - intros t Ht. destruct (cs_pinned _ _ _ _ _ C t Ht) as (j & z & Ez & Dz & Sz & Pz).
    destruct (decide (j = i)) as [->|Hj]; [|exists j, z; split; [by apply ins_other|done]].
    assert (z = x) as -> by congruence. exists i, y. split; [apply ins_same|].
    destruct Hor as [[? ?]|?]; [|congruence]. split_and!; congruence.
  - intros t HtD HtL. apply (cs_disk _ _ _ _ _ C); [done|]. cbn in HtL. set_solver.
  - apply (cs_len _ _ _ _ _ C).
Qed.

(** Give the buffer back. *)
Lemma cstate_release L' :
  L = (i, s) :: L' -> b_sector x = s -> busy y = false -> b_data y = b_data x -> dirty y = dirty x ->
  i ∉ L'.*1 -> (s ∈ D \/ V s = d_read d s) ->
  cstate (<[i := y]> cs) d V L' D.
Proof.
  intros EL Sx By Ed Dy Hi Hor. destruct Hy as (Hd & Hs & Hv).
  destruct (cs_held _ _ _ _ _ C i s) as (x' & Ex' & Dx & _); [rewrite EL; by left|].
  assert (x' = x) as -> by congruence. split.
  - apply ins_uniq.
  - intros j z [[-> ->]|[Hj Ej]]%ins_lookup Dz; [|by apply (cs_data _ _ _ _ _ C j)].
    split; [done|]. rewrite Ed, Hs, <- Sx. by apply (cs_data _ _ _ _ _ C i).
  - intros j z [[-> ->]|[Hj Ej]]%ins_lookup; [by rewrite By|].
    rewrite (cs_busy _ _ _ _ _ C j z Ej), EL. cbn. rewrite elem_of_cons. naive_solver.
  - intros j t Hin. destruct (cs_held _ _ _ _ _ C j t) as (z & Ez & Hz); [rewrite EL; by right|].
    exists z. split; [|done]. apply ins_other; [done|]. intros ->. apply Hi.
    apply list_elem_of_fmap. by exists (i, t).
  - intros j z [[-> ->]|[Hj Ej]]%ins_lookup Dz; [|by apply (cs_dirty _ _ _ _ _ C j)].
    split; [done|]. rewrite Hs, <- Sx. apply (cs_dirty _ _ _ _ _ C i); congruence.
  - intros t Ht. destruct (cs_pinned _ _ _ _ _ C t Ht) as (j & z & Ez & Dz & Sz & Pz).
    destruct (decide (j = i)) as [->|Hj]; [|exists j, z; split; [by apply ins_other|done]].
    assert (z = x) as -> by congruence. exists i, y. split; [apply ins_same|]. split_and!; congruence.
  - intros t HtD HtL. destruct (decide (t = s)) as [->|Hne]; [naive_solver|].
    apply (cs_disk _ _ _ _ _ C); [done|]. rewrite EL. cbn. set_solver.
  - apply (cs_len _ _ _ _ _ C).
Qed.

(** Change a held buffer, its dirty bit or its sector on disk. *)
Lemma cstate_update d' D' v :
  (i, s) ∈ L -> busy y = true -> b_data y = v -> length v = 512%nat ->
  (dirty y = true <-> s ∈ D') -> (forall t, t <> s -> t ∈ D' <-> t ∈ D) ->
  (forall t, t <> s -> d_read d' t = d_read d t) -> length (d_read d' s) = 512%nat ->
  cstate (<[i := y]> cs) d' (fset s v V) L D'.
Proof.
  intros Hin By Ed Hv HD HDt Hdt Hdl. destruct Hy as (Hd & Hs & Hvy).
  assert (HL : i ∈ L.*1 /\ s ∈ L.*2) by (split; apply list_elem_of_fmap; by exists (i, s)).
  assert (Hns : forall j z, cs !! j = Some z -> j <> i -> b_dev z = 1 -> b_sector z <> s).
  { intros j z Ej Hj Dz E. by apply Hj, (Hsole j z). }
  split.
  - apply ins_uniq.
  - intros j z [[-> ->]|[Hj Ej]]%ins_lookup Dz.
    + split; [done|]. unfold fset. by rewrite Hs, Z.eqb_refl.
    + destruct (cs_data _ _ _ _ _ C j z Ej Dz) as [? ->]. split; [done|]. unfold fset.
      by rewrite (proj2 (Z.eqb_neq _ _)) by (by apply (Hns j z)).
  - intros j z [[-> ->]|[Hj Ej]]%ins_lookup; [rewrite By; tauto|]. by apply (cs_busy _ _ _ _ _ C j z).
  - intros j t Hjt. destruct (decide (j = i)) as [->|Hj].
    + exists y. split; [apply ins_same|]. split; [done|].
      destruct (cs_held _ _ _ _ _ C i t Hjt) as (z & Ez & _ & <-).
      destruct (cs_held _ _ _ _ _ C i s Hin) as (z' & Ez' & _ & <-). congruence.
    + destruct (cs_held _ _ _ _ _ C j t Hjt) as (z & Ez & Hz). exists z. split; [by apply ins_other|done].
  - intros j z [[-> ->]|[Hj Ej]]%ins_lookup Dz; [split; [done|]; rewrite Hs; by apply HD|].
    destruct (cs_dirty _ _ _ _ _ C j z Ej Dz) as [D1 D2]. split; [done|].
    apply HDt; [by apply (Hns j z)|done].
  - intros t Ht. destruct (decide (t = s)) as [->|Hne].
    + exists i, y. split; [apply ins_same|]. split_and!; [done|done|by apply HD].
    + apply (HDt t Hne) in Ht. destruct (cs_pinned _ _ _ _ _ C t Ht) as (j & z & Ez & Dz & Sz & Pz).
      exists j, z. split; [|done]. apply ins_other; [done|]. intros ->.
      destruct (cs_held _ _ _ _ _ C i s Hin) as (z' & Ez' & _ & Es). congruence.
  - intros t HtD HtL. assert (Hne : t <> s) by (intros ->; tauto). unfold fset.
    rewrite (proj2 (Z.eqb_neq _ _)), Hdt by done. apply (cs_disk _ _ _ _ _ C); [|done].
    by rewrite <- HDt.
  - destruct (cs_len _ _ _ _ _ C) as [L1 L2]. split; intros t.
    + unfold fset. by destruct (t =? s).
    + destruct (decide (t = s)) as [->|Hne]; [done|by rewrite Hdt].
Qed.
End Contents.

(** ** The operations on the cache *)

Lemma cache_ext k k' V L D :
  bufs k' = bufs k -> dsk k' = dsk k -> cache k V L D -> cache k' V L D.
Proof. unfold cache. by intros -> ->. Qed.

(** A buffer the caller holds. *)
Lemma held_buf k V L D i s :
  cache k V L D -> (i, s) ∈ L -> exists b, bufs k !! i = Some b /\ (i < nbuf)%nat /\ b_dev b = 1 /\
    b_sector b = s /\ valid b = true /\ busy b = true /\ b_data b = V s.
Proof.
  intros (_ & C & _) Hin. destruct (cs_held _ _ _ _ _ C i s Hin) as (x & Ex & Dx & Sx).
  destruct (cs_data _ _ _ _ _ C i x Ex Dx) as [Vx Hd].
  assert (Bx : busy x = true).
  { apply (cs_busy _ _ _ _ _ C i x Ex). apply list_elem_of_fmap. by exists (i, s). }
  apply cores_inv in Ex as (b & Hb & -> & Hi). exists b. rewrite <- Sx. done.
Qed.

Lemma cores_set k i b y f :
  bufs k !! i = Some b -> (i < nbuf)%nat -> (forall c, core (f c) = f (core c)) -> y = f (core b) ->
  cores (alter f i (bufs k)) = <[i := y]> (cores (bufs k)).
Proof.
  intros Hb Hi Hf ->. rewrite cores_alter by done. apply alter_insert. by apply cores_lookup.
Qed.

Lemma wp_iderw_read k i b Q :
  bufs k !! i = Some b -> b_flags b = B_BUSY -> b_dev b = 1 -> b_sector b < d_size (dsk k) ->
  Q tt (ks_bufs (alter (fun b => bs_flags (Z.lor (b_flags b) B_VALID) b) i
    (alter (bs_data (d_read (dsk k) (b_sector b))) i (bufs k))) k) ->
  wp (iderw i) k Q.
Proof.
  intros Hb Hf Hd Hs HQ. unfold iderw. apply wp_bind, (wp_bufget i b); [done|].
  apply wp_bind, wp_gets. rewrite Hf, Hd. cbn [has]. 
  change (negb (has B_BUSY B_BUSY)) with false. change (has B_BUSY B_DIRTY) with false.
  change (Z.land B_BUSY (Z.lor B_VALID B_DIRTY) =? B_VALID) with false. cbn [negb Z.eqb Pos.eqb].
  rewrite (proj2 (Z.leb_gt _ _)) by lia. apply wp_bind, wp_modify, wp_modify. exact HQ.
Qed.

Lemma sole_of cs d V L D i x s :
  cstate cs d V L D -> cs !! i = Some x -> b_dev x = 1 -> b_sector x = s ->
  forall j z, cs !! j = Some z -> b_dev z = 1 -> b_sector z = s -> j = i.
Proof. intros C Hx Dx Sx j z Hz Dz Sz. apply (cs_uniq _ _ _ _ _ C j i z x); congruence. Qed.

Lemma not_busy_held k V L D i b :
  cache k V L D -> bufs k !! i = Some b -> (i < nbuf)%nat -> busy b = false -> i ∉ L.*1.
Proof.
  intros (_ & C & _) Hb Hi Hn Hin.
  apply (cs_busy _ _ _ _ _ C i (core b) (cores_lookup _ _ _ Hb Hi)) in Hin.
  unfold busy in *. cbn in Hin. congruence.
Qed.

Lemma cache_hit k V L D i b s :
  cache k V L D -> bufs k !! i = Some b -> (i < nbuf)%nat -> caches 1 s b = true -> busy b = false ->
  cache (ks_bufs (alter (bs_flags (Z.lor (b_flags b) B_BUSY)) i (bufs k)) k) V ((i, s) :: L) D.
Proof.
  intros Hc Hb Hi Hca Hbu. pose proof (not_busy_held _ _ _ _ _ _ Hc Hb Hi Hbu) as HiL.
  destruct Hc as ((o & R) & C & NL & ND). pose proof (cores_lookup _ _ _ Hb Hi) as Hx.
  unfold caches in Hca. bool_hyps.
  destruct (set_flag (b_flags b) B_BUSY B_VALID eq_refl) as [F1 F2].
  destruct (set_flag (b_flags b) B_BUSY B_DIRTY eq_refl) as [_ F3].
  destruct (cs_data _ _ _ _ _ C i (core b) Hx) as [Vb Db]; [done|].
  split; [exists o; by apply ring_alter|]. split; [|split; [by apply NoDup_cons|done]].
  cbn [bufs ks_bufs dsk].
  rewrite (cores_set k i b (core (bs_flags (Z.lor (b_flags b) B_BUSY) b))) by done.
  apply (cstate_take _ _ _ _ _ i (core b)); try done; auto.
  - unfold valid. cbn. by rewrite F2.
  - by apply (sole_of _ _ _ _ _ i (core b) s C).
  - cbn in *. congruence.
Qed.

(** The table after a miss: the buffer now holds the sector's contents. *)
Definition filled (s : Z) (d : disk) (i : nat) (bs : list buf) : list buf :=
  alter (fun b => bs_flags (Z.lor (b_flags b) B_VALID) b) i (alter (bs_data (d_read d s)) i
    (alter (bs_flags B_BUSY) i (alter (bs_sector s) i (alter (bs_dev 1) i bs)))).

Lemma cache_miss k V L D i b s :
  cache k V L D -> bufs k !! i = Some b -> (i < nbuf)%nat -> idle b = true -> s ∉ L.*2 ->
  (forall j c, (j < nbuf)%nat -> bufs k !! j = Some c -> caches 1 s c = false) ->
  cache (ks_bufs (filled s (dsk k) i (bufs k)) k) V ((i, s) :: L) D.
Proof.
  intros Hc Hb Hi Hid HsL Hno. apply andb_prop in Hid as [Hbu Hdi]. bool_hyps.
  pose proof (not_busy_held _ _ _ _ _ _ Hc Hb Hi Hbu) as HiL.
  destruct Hc as ((o & R) & C & NL & ND). pose proof (cores_lookup _ _ _ Hb Hi) as Hx.
  split; [exists o; unfold filled; by repeat apply ring_alter|].
  split; [|split; [by apply NoDup_cons|done]]. cbn [bufs ks_bufs dsk]. unfold filled.
  rewrite !alter_fuse. rewrite (cores_set k i b (Buf 3 1 s 0 0 (d_read (dsk k) s))) by done.
  assert (Hnone : forall j z, cores (bufs k) !! j = Some z -> b_dev z = 1 -> b_sector z = s -> False).
  { intros j z Hz Dz Sz. apply cores_inv in Hz as (c & Hcj & -> & Hj).
    specialize (Hno j c Hj Hcj). unfold caches in Hno. cbn in Dz, Sz.
    rewrite Dz, Sz, !Z.eqb_refl in Hno. done. }
  apply (cstate_take _ _ _ _ _ i (core b)); try done.
  - intros j z Hz Dz Sz. by destruct (Hnone j z).
  - symmetry. apply (cs_disk _ _ _ _ _ C); [|done]. intros Hin.
    destruct (cs_pinned _ _ _ _ _ C s Hin) as (j & z & Hz & Dz & Sz & _). by apply (Hnone j z).
  - by right.
Qed.

(** The buffer an access to sector [s] uses: the one that caches it, or the
    least recently used idle one. *)
Definition chosen (s : Z) (bs : list buf) (o : list nat) (i : nat) : Prop :=
  (exists b, bs !! i = Some b /\ caches 1 s b = true) \/
  (forall j c, (j < nbuf)%nat -> bs !! j = Some c -> caches 1 s c = false) /\
  exists b o1 o2, bs !! i = Some b /\ idle b = true /\ o = o1 ++ i :: o2 /\
    forall j c, j ∈ o2 -> bs !! j = Some c -> idle c = false.

Lemma got_chosen s bs o i bs' : got 1 s bs o i bs' -> chosen s bs o i.
Proof.
  intros [b Hb Hi Hca Hbu|b o1 o2 Hb Hi Hid Hno Eo Hlru]; [left; eauto|right]. split; [done|].
  by exists b, o1, o2.
Qed.

Lemma bread_run k V L D s o :
  cache k V L D -> ring (bufs k) o -> unlocked k -> s < d_size (dsk k) -> s ∉ L.*2 ->
  (length L + length D < nbuf)%nat \/ s ∈ D ->
  wp (bread 1 s) k (fun i k' => exists bs', k' = ks_bufs bs' k /\ cache k' V ((i, s) :: L) D /\
    ring bs' o /\ chosen s (bufs k) o i).
Proof.
  intros Hc R (Hl & _) Hs HsL Hlt. pose proof Hc as (_ & C & NL & ND).
  unfold bread. apply wp_bind. wp_use (bget_spec 1 s k o R Hl).
  { intros i b Hi Hb Hca. destruct (has (b_flags b) B_BUSY) eqn:E; [|done].
    unfold caches in Hca. bool_hyps. destruct HsL. pose proof (cores_lookup _ _ _ Hb Hi) as Hx.
    pose proof (proj1 (cs_busy _ _ _ _ _ C i (core b) Hx) E) as Hin.
    apply list_elem_of_fmap in Hin as ([j t] & -> & Hin). apply list_elem_of_fmap. exists (j, t).
    destruct (cs_held _ _ _ _ _ C j t Hin) as (x & Ex & _ & <-). cbn in Hx, Ex.
    split; [|done]. rewrite Hx in Ex. injection Ex as <-. done. }
  { destruct Hlt as [Hlt|HD].
    - destruct (cache_idle _ _ _ _ Hc Hlt) as (i & b & ? & ? & ?). eauto 10.
    - destruct (cs_pinned _ _ _ _ _ C s HD) as (i & x & Hx & Dx & Sx & _).
      apply cores_inv in Hx as (b & Hb & -> & Hi). exists i, b. split; [done|]. split; [done|].
      right. unfold caches. cbn in Dx, Sx. by rewrite Dx, Sx, !Z.eqb_refl. }
  intros i k' (bs' & -> & G). pose proof (got_chosen _ _ _ _ _ G) as Hch.
  destruct G as [b Hb Hi Hca Hbu|b o1 o2 Hb Hi Hid Hno Eo Hlru].
  - pose proof (cache_hit _ _ _ _ _ _ _ Hc Hb Hi Hca Hbu) as Hc'.
    destruct (held_buf _ _ _ _ i s Hc') as (b' & Hb' & _ & _ & _ & Hv & _); [by left|].
    apply wp_bind, (wp_bufget i b'); [done|]. unfold valid in Hv. rewrite Hv.
    apply wp_bind, wp_ret, wp_ret. eexists. do 2 (split; [done|]). split; [by apply ring_alter|done].
  - pose proof (cache_miss _ _ _ _ _ _ _ Hc Hb Hi Hid HsL Hno) as Hc'.
    apply wp_bind, (wp_bufget i (Buf B_BUSY 1 s (b_prev b) (b_next b) (b_data b))).
    { cbn. by rewrite !list_lookup_alter_eq, Hb. }
    apply wp_bind, (wp_iderw_read _ i (Buf B_BUSY 1 s (b_prev b) (b_next b) (b_data b)));
      [cbn; by rewrite !list_lookup_alter_eq, Hb|done..|].
    apply wp_ret. eexists. do 2 (split; [done|]). split; [|done]. cbn. repeat (apply ring_alter; [done|]). done.
Qed.

Lemma wp_bread k V L D s :
  cache k V L D -> unlocked k -> s < d_size (dsk k) -> s ∉ L.*2 ->
  (length L + length D < nbuf)%nat \/ s ∈ D ->
  wp (bread 1 s) k (fun i k' => exists bs', k' = ks_bufs bs' k /\ cache k' V ((i, s) :: L) D).
Proof.
  intros Hc Hu Hs HsL Hlt. pose proof Hc as ((o & R) & _). wp_use (bread_run k V L D s o Hc R Hu Hs HsL Hlt).
  intros i k' (bs' & -> & Hc' & _). by exists bs'.
Qed.

(** *** Reading, changing and writing a held buffer *)

Lemma cstate_ext cs d V V' L D :
  (forall s, V' s = V s) -> cstate cs d V L D -> cstate cs d V' L D.
Proof.
  intros E [C1 C2 C3 C4 C5 C6 C7 [C8 C9]]. split; try done.
  - intros i x Hx Dx. rewrite E. by apply (C2 i).
  - intros s HD HL. rewrite E. by apply C7.
  - split; [|done]. intros s. by rewrite E.
Qed.

Lemma cache_vext k V V' L D : (forall s, V' s = V s) -> cache k V L D -> cache k V' L D.
Proof. intros E (R & C & N). split; [done|]. split; [by eapply cstate_ext|done]. Qed.

Lemma cache_perm k V L L' D : L ≡ₚ L' -> cache k V L D -> cache k V L' D.
Proof.
  intros E (R & [C1 C2 C3 C4 C5 C6 C7 C8] & NL & ND). split; [done|]. split; [|by rewrite <- E].
  split; try done.
  - intros i x Hx. rewrite <- E. by apply (C3 i).
  - intros i s. rewrite <- E. apply C4.
  - intros s. rewrite <- E. apply C7.
Qed.

Lemma fset_same s V t : fset s (V s) V t = V t.
Proof. unfold fset. by destruct (Z.eqb_spec t s) as [->|]. Qed.

Lemma fset_at s x V : fset s x V s = x.
Proof. unfold fset. by rewrite Z.eqb_refl. Qed.

Lemma fset_ne s x V t : t <> s -> fset s x V t = V t.
Proof. intros Hne. unfold fset. by rewrite (proj2 (Z.eqb_neq _ _)). Qed.

Lemma fset_fset s x y V t : fset s x (fset s y V) t = fset s x V t.
Proof. unfold fset. by destruct (t =? s). Qed.

Lemma dirty_iff k V L D i s b :
  cache k V L D -> (i, s) ∈ L -> bufs k !! i = Some b -> dirty b = true <-> s ∈ D.
Proof.
  intros Hc Hin Hb. destruct (held_buf _ _ _ _ _ _ Hc Hin) as (b' & Hb' & Hi & Dv & Sb & _).
  assert (b' = b) as -> by congruence. destruct Hc as (_ & C & _).
  pose proof (cores_lookup _ _ _ Hb Hi) as Hx. split.
  - intros Hd. rewrite <- Sb. by apply (cs_dirty _ _ _ _ _ C i (core b)).
  - intros Hs. destruct (cs_pinned _ _ _ _ _ C s Hs) as (j & z & Hz & Dz & Sz & Pz).
    assert (j = i) as -> by (apply (cs_uniq _ _ _ _ _ C j i z (core b)); cbn; congruence).
    rewrite Hx in Hz. injection Hz as <-. exact Pz.
Qed.

(** A change of a held buffer and of its sector on disk. *)
Lemma cache_update k V L D i s b f d' D' :
  cache k V L D -> (i, s) ∈ L -> bufs k !! i = Some b ->
  (forall c, core (f c) = f (core c)) -> (forall c, b_next (f c) = b_next c /\ b_prev (f c) = b_prev c) ->
  b_dev (f b) = 1 -> b_sector (f b) = s -> valid (f b) = true -> busy (f b) = true ->
  length (b_data (f b)) = 512%nat -> (dirty (f b) = true <-> s ∈ D') ->
  (forall t, t <> s -> t ∈ D' <-> t ∈ D) -> NoDup D' ->
  (forall t, t <> s -> d_read d' t = d_read (dsk k) t) -> length (d_read d' s) = 512%nat ->
  cache (ks_bufs (alter f i (bufs k)) (ks_dsk d' k)) (fset s (b_data (f b)) V) L D'.
Proof.
  intros Hc Hin Hb Hf Hl H1 H2 H3 H4 H5 H6 H7 ND' H8 H9.
  destruct (held_buf _ _ _ _ _ _ Hc Hin) as (b' & Hb' & Hi & Dv & Sb & Vb & _).
  assert (b' = b) as -> by congruence. destruct Hc as ((o & R) & C & NL & ND).
  pose proof (cores_lookup _ _ _ Hb Hi) as Hx.
  split; [exists o; by apply ring_alter|]. split; [|done]. cbn [bufs ks_bufs dsk ks_dsk].
  rewrite (cores_set k i b (core (f b)) f) by (done || by rewrite Hf).
  apply (cstate_update _ (dsk k) _ _ D i (core b)); try done.
  by apply (sole_of _ _ _ _ _ i (core b) s C).
Qed.

Lemma wp_bdata k V L D i s Q :
  cache k V L D -> (i, s) ∈ L -> Q (V s) k -> wp (bdata i) k Q.
Proof.
  intros Hc Hin HQ. destruct (held_buf _ _ _ _ _ _ Hc Hin) as (b & Hb & _ & _ & _ & _ & _ & Eb).
  unfold bdata. apply wp_bind, (wp_bufget i b); [done|]. apply wp_ret. by rewrite Eb.
Qed.

Lemma ks_dsk_id k : ks_dsk (dsk k) k = k.
Proof. by destruct k. Qed.

Lemma wp_bset k V L D i s f :
  cache k V L D -> (i, s) ∈ L -> length (f (V s)) = 512%nat ->
  wp (bset i f) k (fun _ k' => exists bs', k' = ks_bufs bs' k /\ cache k' (fset s (f (V s)) V) L D).
Proof.
  intros Hc Hin Hf. destruct (held_buf _ _ _ _ _ _ Hc Hin) as (b & Hb & Hi & Dv & Sb & Vb & Bb & Eb).
  apply wp_modify. eexists. split; [done|].
  pose proof (cache_update k V L D i s b (fun b => bs_data (f (b_data b)) b) (dsk k) D Hc Hin Hb) as HU.
  rewrite ks_dsk_id in HU. cbn in HU. rewrite Eb in HU.
  pose proof (dirty_iff _ _ _ _ _ _ _ Hc Hin Hb). destruct Hc as (_ & C & _ & ND).
  apply HU; try done. apply (cs_len _ _ _ _ _ C).
Qed.

(** Mark a held buffer dirty: it must not leave the cache. *)
Lemma wp_mark k V L D i s D' :
  cache k V L D -> (i, s) ∈ L -> s ∈ D' -> (forall t, t <> s -> t ∈ D' <-> t ∈ D) -> NoDup D' ->
  wp (bufupd i (fun x => bs_flags (Z.lor (b_flags x) B_DIRTY) x)) k (fun _ k' => exists bs',
    k' = ks_bufs bs' k /\ cache k' V L D').
Proof.
  intros Hc Hin HsD HD ND'.
  destruct (held_buf _ _ _ _ _ _ Hc Hin) as (b & Hb & Hi & Dv & Sb & Vb & Bb & Eb).
  apply wp_modify. eexists. split; [done|].
  pose proof (cache_update k V L D i s b (fun x => bs_flags (Z.lor (b_flags x) B_DIRTY) x) (dsk k) D'
    Hc Hin Hb) as HU.
  rewrite ks_dsk_id in HU. cbn [b_data bs_flags] in HU. rewrite Eb in HU.
  destruct (set_flag (b_flags b) B_DIRTY B_BUSY eq_refl) as [F1 F2].
  destruct (set_flag (b_flags b) B_DIRTY B_VALID eq_refl) as [_ F3].
  destruct Hc as (_ & C & _ & _).
  eapply cache_vext; [|apply HU]; try done; try apply (cs_len _ _ _ _ _ C).
  - intros t. by rewrite fset_same.
  - unfold valid. cbn. by rewrite F3.
  - unfold busy. cbn. by rewrite F2.
Qed.

Lemma filter_ne (D : list Z) s : s ∉ D -> filter (fun t => t <> s) D = D.
Proof.
  induction D as [|t D IH]; [done|]. intros [Hne Hn]%not_elem_of_cons.
  rewrite filter_cons_True by done. by rewrite IH.
Qed.

Lemma d_read_write s x d t : d_read (d_write s x d) t = if t =? s then x else d_read d t.
Proof. unfold d_read. cbn. by rewrite Z.eqb_sym. Qed.

Lemma wp_bwrite k V L D i s :
  cache k V L D -> (i, s) ∈ L -> s < d_size (dsk k) ->
  wp (bwrite i) k (fun _ k' => exists bs', k' = ks_bufs bs' (ks_dsk (d_write s (V s) (dsk k)) k) /\
    cache k' V L (filter (fun t => t <> s) D)).
Proof.
  intros Hc Hin Hs.
  destruct (held_buf _ _ _ _ _ _ Hc Hin) as (b & Hb & Hi & Dv & Sb & Vb & Bb & Eb).
  pose proof (cache_update k V L D i s b (fun b => bs_flags (Z.lor (Z.land (Z.lor (b_flags b) B_DIRTY)
    (Z.lnot B_DIRTY)) B_VALID) b) (d_write s (V s) (dsk k)) (filter (fun t => t <> s) D) Hc Hin Hb) as HU.
  destruct (set_flag (b_flags b) B_DIRTY B_BUSY eq_refl) as [F1 F2].
  destruct (clear_flag (Z.lor (b_flags b) B_DIRTY) B_DIRTY B_BUSY eq_refl) as [G1 G2].
  destruct (set_flag (Z.land (Z.lor (b_flags b) B_DIRTY) (Z.lnot B_DIRTY)) B_VALID B_BUSY eq_refl) as [K1 K2].
  destruct (set_flag (Z.land (Z.lor (b_flags b) B_DIRTY) (Z.lnot B_DIRTY)) B_VALID B_DIRTY eq_refl) as [_ K3].
  destruct Hc as (_ & C & _ & ND). destruct (cs_len _ _ _ _ _ C) as [L1 L2]. unfold busy in Bb.
  unfold bwrite. apply wp_bind, (wp_bufget i b); [done|]. rewrite Bb.
  apply wp_bind, wp_modify. unfold iderw. apply wp_bind, (wp_bufget i (bs_flags (Z.lor (b_flags b) B_DIRTY) b)).
  { cbn. by rewrite list_lookup_alter_eq, Hb. }
  apply wp_bind, wp_gets. cbn [b_flags bs_flags b_dev b_sector b_data]. rewrite F2, Bb, Dv, Sb, F1, Eb. cbn [negb].
  rewrite (proj2 (Z.eqb_neq (Z.land _ _) B_VALID)).
  2: { intros E. apply (f_equal (fun z => Z.land z B_DIRTY)) in E. rewrite <- Z.land_assoc in E.
       unfold has in F1. change (Z.land (Z.lor B_VALID B_DIRTY) B_DIRTY) with B_DIRTY in E.
       rewrite E in F1. done. }
  cbn [Z.eqb Pos.eqb negb]. rewrite (proj2 (Z.leb_gt _ _)) by done.
  apply wp_bind, wp_bind, wp_modify, wp_modify, wp_modify.
  eexists. split; [done|]. cbn [bufs ks_bufs ks_dsk]. rewrite !alter_fuse. cbn [b_flags bs_flags].
  eapply cache_vext; [|erewrite alter_ext_at; [apply HU|exact Hb|]]; cbn [b_data bs_flags b_flags]; try done.
  all: rewrite ?Eb; try done.
  - intros t. by rewrite fset_same.
  - unfold busy. cbn. by rewrite K2, G2, F2.
  - unfold dirty. cbn. rewrite K3, G1, list_elem_of_filter. split; [done|by intros [? _]].
  - intros t Ht. rewrite list_elem_of_filter. tauto.
  - by apply NoDup_filter.
  - intros t Ht. rewrite d_read_write. by rewrite (proj2 (Z.eqb_neq t s)).
  - by rewrite d_read_write, Z.eqb_refl.
Qed.
(** *** Giving a buffer back *)

(** The six pointer updates of [brelse] on buffer [i] with neighbours [n] and
    [p], where [f] is the first buffer once [i] is unlinked. *)
Definition moved (i n p f : nat) (bs : list buf) : list buf :=
  alter (bs_next i) nbuf (alter (bs_prev i) f (alter (bs_prev nbuf) i (alter (bs_next f) i
    (alter (bs_next n) p (alter (bs_prev p) n bs))))).

Lemma moved_cores i n p f bs : cores (moved i n p f bs) = cores bs.
Proof. unfold moved. by rewrite !cores_links. Qed.

Lemma moved_length i n p f bs : length (moved i n p f bs) = length bs.
Proof. unfold moved. by rewrite !length_alter. Qed.

Lemma fupd_ext f g j v i : (forall i, f i = g i) -> fupd f j v i = fupd g j v i.
Proof. intros E. unfold fupd. by case_decide. Qed.

Lemma moved_next i n p f bs j :
  length bs = S nbuf -> (i <= nbuf)%nat -> (p <= nbuf)%nat ->
  nx (moved i n p f bs) j = fupd (fupd (fupd (nx bs) p n) i f) nbuf i j.
Proof.
  intros Hlen Hi Hp. unfold moved. rewrite nx_set by (rewrite !length_alter; lia).
  apply fupd_ext. intros j1. rewrite !(nx_alter (bs_prev _)) by done.
  rewrite nx_set by (rewrite !length_alter; lia). apply fupd_ext. intros j2.
  rewrite nx_set by (rewrite !length_alter; lia). apply fupd_ext. intros j3. by rewrite nx_alter.
Qed.

Lemma moved_prev i n p f bs j :
  length bs = S nbuf -> (i <= nbuf)%nat -> (n <= nbuf)%nat -> (f <= nbuf)%nat ->
  pv (moved i n p f bs) j = fupd (fupd (fupd (pv bs) n p) i nbuf) f i j.
Proof.
  intros Hlen Hi Hn Hf. unfold moved. rewrite (pv_alter (bs_next _)) by done.
  rewrite pv_set by (rewrite !length_alter; lia). apply fupd_ext. intros j1.
  rewrite pv_set by (rewrite !length_alter; lia). apply fupd_ext. intros j2.
  rewrite !(pv_alter (bs_next _)) by done. rewrite pv_set by lia. done.
Qed.

Lemma ring_moved bs o1 i o2 :
  ring bs (o1 ++ i :: o2) ->
  ring (moved i (hd nbuf o2) (prev_of nbuf o1) (hd nbuf (o1 ++ o2)) bs) (i :: o1 ++ o2).
Proof.
  intros R. pose proof (ring_nodup _ _ R) as Hnd. pose proof (ring_in _ _ i R) as Hi.
  assert (Hle : forall j, j ∈ nbuf :: o1 ++ i :: o2 -> (j <= nbuf)%nat).
  { intros j [->|Hj]%elem_of_cons; [done|]. apply (ring_in _ _ j R) in Hj. lia. }
  destruct R as [Rl Rn Rp Rm].
  assert (Hil : (i < nbuf)%nat) by (apply Hi, elem_of_app; right; by left).
  assert (Hp : (prev_of nbuf o1 <= nbuf)%nat).
  { apply Hle. pose proof (prev_of_in nbuf o1) as Hin. apply elem_of_cons in Hin as [->|Hin]; [by left|].
    right. apply elem_of_app. by left. }
  assert (Hhd : forall o, (forall j, j ∈ o -> j ∈ o1 ++ i :: o2) -> (hd nbuf o <= nbuf)%nat).
  { intros [|x o] Hsub; [done|]. apply Hle. right. apply Hsub. by left. }
  assert (Hn : (hd nbuf o2 <= nbuf)%nat).
  { apply Hhd. intros j Hj. apply elem_of_app. right. by right. }
  assert (Hf : (hd nbuf (o1 ++ o2) <= nbuf)%nat).
  { apply Hhd. intros j [Hj|Hj]%elem_of_app; apply elem_of_app; [by left|right; by right]. }
  assert (Hout : i ∉ nbuf :: o1 ++ o2 /\ NoDup (nbuf :: o1 ++ o2)).
  { rewrite <- Permutation_middle in Hnd. apply NoDup_cons in Hnd as [Hb Hnd].
    apply NoDup_cons in Hnd as [Hio Hnd]. rewrite !not_elem_of_cons in *.
    split; [split; [lia|done]|]. apply NoDup_cons. tauto. }
  destruct Hout as [Hout Hnd2]. split.
  - by rewrite moved_length.
  - eapply nexts_ext; [intros j _; apply moved_next; lia|]. apply nexts_push; [done| |].
    + by apply NoDup_cons in Hnd2 as [? _].
    + by apply nexts_unlink with (i := i).
  - eapply nexts_ext; [intros j _; apply moved_prev; lia|]. cbn [rev].
    rewrite <- (prev_of_rev nbuf (o1 ++ o2)).
    assert (Er : forall l : list nat, (rev l) ≡ₚ l) by (intros l; symmetry; apply Permutation_rev).
    apply nexts_snoc; [by rewrite Er|by rewrite Er|].
    rewrite rev_app_distr. rewrite rev_app_distr in Rp. cbn [rev] in Rp. rewrite <- app_assoc in Rp.
    rewrite <- (hd_rev nbuf o1), <- (prev_of_rev nbuf o2).
    apply nexts_unlink with (i := i); [|exact Rp].
    rewrite !Er, Permutation_app_comm.
    by rewrite <- Permutation_middle in Hnd.
  - rewrite <- Rm. apply Permutation_middle.
Qed.

Lemma neighbours_ne bs o1 i o2 :
  ring bs (o1 ++ i :: o2) -> hd nbuf o2 <> i /\ prev_of nbuf o1 <> i.
Proof.
  intros R. pose proof (ring_nodup _ _ R) as Hnd. rewrite app_comm_cons in Hnd.
  apply NoDup_app in Hnd as (_ & Hd & Hnd). apply NoDup_cons in Hnd as [Hi _].
  assert (Hil : (i < nbuf)%nat) by (apply (ring_in _ _ i R), elem_of_app; right; by left).
  split.
  - destruct o2 as [|x o2]; cbn; [lia|]. intros ->. apply Hi. by left.
  - intros E. apply (Hd (prev_of nbuf o1)); [apply prev_of_in|]. rewrite E. by left.
Qed.

Lemma wp_bufget_nx i k Q :
  (i < length (bufs k))%nat -> (forall b, b_next b = nx (bufs k) i -> Q b k) -> wp (bufget i) k Q.
Proof.
  intros Hi HQ. destruct (lookup_lt_is_Some_2 (bufs k) i Hi) as [b Hb].
  apply (wp_bufget i b); [done|]. apply HQ. unfold nx. by rewrite Hb.
Qed.

Lemma unlinked_first bs o1 i o2 :
  ring bs (o1 ++ i :: o2) ->
  nx (alter (bs_next (hd nbuf o2)) (prev_of nbuf o1) (alter (bs_prev (prev_of nbuf o1)) (hd nbuf o2) bs))
    nbuf = hd nbuf (o1 ++ o2).
Proof.
  intros R. pose proof (ring_nodup _ _ R) as Hnd.
  pose proof (nexts_unlink _ _ _ _ _ _ Hnd (rg_next _ _ R)) as Hn.
  apply nexts_hd in Hn. rewrite <- Hn. rewrite nx_set.
  - unfold fupd. case_decide; [done|]. by rewrite nx_alter.
  - rewrite length_alter, (rg_len _ _ R). pose proof (prev_of_in nbuf o1) as Hin.
    apply elem_of_cons in Hin as [->|Hin]; [lia|].
    assert (prev_of nbuf o1 < nbuf)%nat; [|lia]. apply (ring_in _ _ _ R), elem_of_app. by left.
Qed.

Lemma cache_released k k' V L D i s b o1 o2 :
  cache k V ((i, s) :: L) D -> ring (bufs k) (o1 ++ i :: o2) -> bufs k !! i = Some b ->
  (s ∈ D \/ V s = d_read (dsk k) s) -> dsk k' = dsk k ->
  bufs k' = alter (fun b => bs_flags (Z.land (b_flags b) (Z.lnot B_BUSY)) b) i
    (moved i (hd nbuf o2) (prev_of nbuf o1) (hd nbuf (o1 ++ o2)) (bufs k)) ->
  cache k' V L D.
Proof.
  intros Hc R Hb Hor Ed Eb.
  destruct (held_buf _ _ _ _ i s Hc) as (b' & Hb' & Hi & Dv & Sb & Vb & Bb & _); [by left|].
  assert (b' = b) as -> by congruence. destruct Hc as (_ & C & NL & ND).
  apply NoDup_cons in NL as [HiL NL]. pose proof (cores_lookup _ _ _ Hb Hi) as Hx.
  destruct (clear_flag (b_flags b) B_BUSY B_VALID eq_refl) as [F1 F2].
  destruct (clear_flag (b_flags b) B_BUSY B_DIRTY eq_refl) as [_ F3].
  unfold cache. rewrite Eb, Ed. split.
  { eexists. apply ring_alter; [done|]. by apply ring_moved. }
  split; [|done]. rewrite cores_alter, moved_cores by done. rewrite (alter_insert _ _ _ _ Hx).
  eapply (cstate_release _ _ _ _ _ i (core b)); try done.
  - split; [done|]. split; [done|]. unfold valid. cbn. by rewrite F2.
  - by apply (sole_of _ _ _ _ _ i (core b) s C).
Qed.

Lemma brelse_run k V L D i s o1 o2 :
  cache k V ((i, s) :: L) D -> ring (bufs k) (o1 ++ i :: o2) -> unlocked k ->
  (s ∈ D \/ V s = d_read (dsk k) s) ->
  wp (brelse i) k (fun _ k' => exists bs', k' = ks_procs (wake (ChBuf i) <$> procs k) (ks_bufs bs' k) /\
    cache k' V L D /\ ring bs' (i :: o1 ++ o2)).
Proof.
  intros Hc R (Hl & Hp & _) Hor.
  destruct (held_buf _ _ _ _ i s Hc) as (b & Hb & Hi & Dv & Sb & Vb & Bb & Eb); [by left|].
  pose proof Hc as (_ & C & NL & ND). apply NoDup_cons in NL as [HiL NL].
  pose proof (ring_nodup _ _ R) as Hnd. pose proof (rg_len _ _ R) as Hlen.
  assert (En : b_next b = hd nbuf o2).
  { rewrite <- (nexts_at _ _ _ _ _ _ (rg_next _ _ R)). unfold nx. by rewrite Hb. }
  assert (Ep : b_prev b = prev_of nbuf o1).
  { pose proof (rg_prev _ _ R) as Hpv. rewrite rev_app_distr in Hpv. cbn [rev] in Hpv.
    rewrite <- app_assoc in Hpv. rewrite <- hd_rev, <- (nexts_at _ _ _ _ _ _ Hpv). unfold pv. by rewrite Hb. }
  unfold brelse. apply wp_bind, (wp_bufget i b); [done|]. unfold busy in Bb. rewrite Bb. cbn [negb].
  pose proof (neighbours_ne _ _ _ _ R) as [Hni Hpi].
  set (n := hd nbuf o2) in *. set (p := prev_of nbuf o1) in *. set (f := hd nbuf (o1 ++ o2)).
  assert (Hne : n <> i /\ p <> i) by (split; by eapply neighbours_ne).
  apply wp_bind, wp_acquire; [done|]. change (set_lock LkBcache true k) with (ks_bc_lock true k).
  apply wp_bind, (wp_bufget i b); [done|]. rewrite En, Ep. apply wp_bind, wp_modify.
  apply wp_bind, (wp_bufget i b); [cbn; by rewrite list_lookup_alter_ne|]. rewrite En, Ep.
  apply wp_bind, wp_modify. cbn [bufs ks_bufs ks_bc_lock].
  set (bs2 := alter (bs_next n) p (alter (bs_prev p) n (bufs k))).
  assert (H2 : length bs2 = S nbuf) by (unfold bs2; by rewrite !length_alter).
  assert (E2 : nx bs2 nbuf = f) by (by apply (unlinked_first (bufs k) o1 i o2)).
  apply wp_bind, (wp_bufget_nx nbuf); [change (nbuf < length bs2)%nat; lia|].
  intros h Eh. change (b_next h = nx bs2 nbuf) in Eh. rewrite Eh, E2.
  do 2 (apply wp_bind, wp_modify). cbn [bufs ks_bufs ks_bc_lock].
  apply wp_bind, (wp_bufget_nx nbuf); cbn [bufs ks_bufs ks_bc_lock]; [rewrite !length_alter; lia|].
  intros h' Eh'. rewrite (nx_alter (bs_prev _)), nx_set in Eh' by (done || lia).
  unfold fupd in Eh'. rewrite decide_False, E2 in Eh' by lia. rewrite Eh'.
  do 3 (apply wp_bind, wp_modify). cbn [bufs ks_bufs ks_bc_lock]. fold (moved i n p f (bufs k)).
  apply wp_bind, wp_wakeup; [done|]. apply wp_release; [done|].
  eexists. split; [destruct k; cbn in Hl; by subst|]. split.
  - apply (cache_released k _ V L D i s b o1 o2); done.
  - apply ring_alter; [done|]. by apply ring_moved.
Qed.

Lemma wp_brelse k V L D i s :
  cache k V ((i, s) :: L) D -> unlocked k -> (s ∈ D \/ V s = d_read (dsk k) s) ->
  wp (brelse i) k (fun _ k' => exists bs', k' = ks_procs (wake (ChBuf i) <$> procs k) (ks_bufs bs' k) /\
    cache k' V L D).
Proof.
  intros Hc Hu Hor. destruct (held_buf _ _ _ _ i s Hc) as (b & _ & Hi & _); [by left|].
  pose proof Hc as ((o & R) & _). assert (Hio : i ∈ o) by (by apply (ring_in _ _ i R)).
  apply list_elem_of_split in Hio as (o1 & o2 & ->). wp_use (brelse_run k V L D i s o1 o2 Hc R Hu Hor).
  intros [] k' (bs' & -> & Hc' & _). by exists bs'.
Qed.
End BioFacts.
