(* ===== verification/BioProps.v ===== *)
(** * The buffer cache as its clients see it

    The cache after [binit], sequences of accesses through it against a plain
    array of sectors, and the replacement order. *)

From S2P Require Import Prelude Layout Mem Kalloc Vm State Sched Bytes Bio BioFacts.

Open Scope Z_scope.

(** ** Initialisation *)

(** The zeroed buffers of the kernel's bss. *)
Definition buf0 : buf := Buf 0 0 0 0 0 (replicate 512 x00).

Definition booted : list buf :=
  ((fun i => Buf 0 (u32 (-1)) 0 (if (i =? 9)%nat then nbuf else S i) (if (i =? 0)%nat then nbuf else i - 1)
     (replicate 512 x00)) <$> seq 0 10) ++ [Buf 0 0 0 0 9 (replicate 512 x00)].

Lemma binit_run k :
  bufs k = replicate (S nbuf) buf0 -> binit k = Ok tt (ks_bufs booted (ks_bc_lock false k)).
Proof. intros E. destruct k. cbn in E. subst. vm_compute. reflexivity. Qed.

Lemma booted_ring : ring booted (rev (seq 0 nbuf)).
Proof. change nbuf with 10%nat. split; [done|cbn; split_and!; reflexivity..|]. symmetry. apply Permutation_rev. Qed.

Lemma booted_cache k :
  (forall s, length (d_read (dsk k) s) = 512%nat) -> bufs k = booted -> cache k (d_read (dsk k)) [] [].
Proof.
  intros Hl E. unfold cache. rewrite E. split.
  { eexists. apply booted_ring. }
  assert (Hd : forall i x, cores booted !! i = Some x -> b_dev x = u32 (-1) /\ b_flags x = 0).
  { assert (HF : Forall (fun x => b_dev x = u32 (-1) /\ b_flags x = 0) (cores booted)).
    { vm_compute. repeat constructor. }
    intros i x Hx. by apply (Forall_lookup_1 _ _ i x HF). }
  split; [|split; apply NoDup_nil_2]. split; try done.
  - intros i j x y Hx _ Dx. destruct (Hd i x Hx) as [Ex _]. rewrite Ex in Dx. discriminate Dx.
  - intros i x Hx Dx. destruct (Hd i x Hx) as [Ex _]. rewrite Ex in Dx. discriminate Dx.
  - intros i x Hx. destruct (Hd i x Hx) as [_ Ex]. unfold busy. rewrite Ex. cbn. split; [done|].
    intros Hin. by apply not_elem_of_nil in Hin.
  - intros i s Hin. by apply not_elem_of_nil in Hin.
  - intros i x Hx. destruct (Hd i x Hx) as [_ Ex]. unfold dirty. by rewrite Ex.
  - intros s Hin. by apply not_elem_of_nil in Hin.
Qed.

(** ** Accesses *)

(** What the file system does with a sector between [bread] and [brelse]. *)
Inductive access : Type :=
  | Read (s : Z)
  | Update (s : Z) (f : block -> block).

Definition sector_of (a : access) : Z := match a with Read s => s | Update s _ => s end.

Section Accesses.
Context `{Wakeups}.

(** One access; the result is what was read. *)
Definition perform (a : access) : KM block :=
  let! i := bread 1 (sector_of a) in
  let! x := bdata i in
  match a with
  | Read _ => ret tt
  | Update _ f => bset i f ;;; bwrite i
  end ;;;
  brelse i ;;;
  ret x.

Fixpoint performs (l : list access) : KM (list block) :=
  match l with
  | [] => ret []
  | a :: l =>
      let! x := perform a in
      let! xs := performs l in
      ret (x :: xs)
  end.

(** The same on an array of sectors: the blocks read and the array after. *)
Definition array_after (a : access) (V : Z -> block) : Z -> block :=
  match a with Read _ => V | Update s f => fset s (f (V s)) V end.
Fixpoint array_reads (l : list access) (V : Z -> block) : list block :=
  match l with
  | [] => []
  | a :: l => V (sector_of a) :: array_reads l (array_after a V)
  end.

Definition access_ok (size : Z) (a : access) : Prop :=
  sector_of a < size /\
  match a with Read _ => True | Update _ f => forall x, length x = 512%nat -> length (f x) = 512%nat end.

(** The cache is idle: every sector it holds is what the disk holds. *)
Definition clean (k : kstate) : Prop := cache k (d_read (dsk k)) [] [] /\ unlocked k.

Lemma bufget_inv i k b k' : bufget i k = Ok b k' -> k' = k /\ bufs k !! i = Some b.
Proof.
  unfold bufget. rewrite (bind_Ok _ _ _ (bufs k) k) by done. intros E.
  destruct (bufs k !! i) as [c|] eqn:Hc; cbn in E; [|discriminate E]. by injection E as -> ->.
Qed.

Lemma bwrite_ring i k k' o : bwrite i k = Ok tt k' -> ring (bufs k) o -> ring (bufs k') o.
Proof.
  unfold bwrite, iderw. intros E R. run_inv E. apply bufget_inv in E0 as [-> _].
  destruct (negb _); [discriminate E|]. run_inv E. injection E0 as <- <-. run_inv E.
  apply bufget_inv in E0 as [-> _]. run_inv E. injection E0 as <- <-.
  do 4 match type of E with (if ?c then _ else _) _ = _ => destruct c; [discriminate E|] end.
  run_inv E. injection E as <-. cbn. apply ring_alter; [done|].
  destruct (has _ B_DIRTY).
  - run_inv E0. injection E as <- <-. injection E0 as <- <-. cbn. by repeat (apply ring_alter; [done|]).
  - injection E0 as <- <-. cbn. by repeat (apply ring_alter; [done|]).
Qed.

Lemma perform_spec a k o :
  clean k -> ring (bufs k) o -> access_ok (d_size (dsk k)) a ->
  wp (perform a) k (fun x k' => x = d_read (dsk k) (sector_of a) /\ clean k' /\
    d_size (dsk k') = d_size (dsk k) /\
    (forall s, d_read (dsk k') s = array_after a (d_read (dsk k)) s) /\
    exists i o1 o2, o = o1 ++ i :: o2 /\ ring (bufs k') (i :: o1 ++ o2) /\ chosen (sector_of a) (bufs k) o i).
Proof.
  intros [Hc Hu] R [Hs Hf]. set (s := sector_of a) in *. set (V := d_read (dsk k)) in *.
  unfold perform. apply wp_bind. fold s.
  wp_use (bread_run k V [] [] s o Hc R Hu Hs (not_elem_of_nil _)); [left; cbn; unfold nbuf, NBUF; lia|].
  intros i k1 (bs1 & -> & Hc1 & R1 & Hch). set (k1 := ks_bufs bs1 k) in *.
  apply wp_bind, (wp_bdata k1 V [(i, s)] [] i s); [done|by left|].
  assert (Hio : i ∈ o).
  { destruct (held_buf _ _ _ _ i s Hc1) as (b & _ & Hi & _); [by left|]. by apply (ring_in _ _ i R). }
  apply list_elem_of_split in Hio as (o1 & o2 & ->). apply wp_bind.
  assert (Hw : wp (match a with Read _ => ret tt | Update _ f => bset i f ;;; bwrite i end) k1
    (fun _ k2 => cache k2 (array_after a V) [(i, s)] [] /\ unlocked k2 /\ ring (bufs k2) (o1 ++ i :: o2) /\
      d_size (dsk k2) = d_size (dsk k) /\ forall t, d_read (dsk k2) t = array_after a V t)).
  { destruct a as [t|t f]; cbn in s; subst s; [by apply wp_ret|].
    assert (Hl : length (f (V t)) = 512%nat).
    { apply Hf. destruct Hc as (_ & C & _). apply (cs_len _ _ _ _ _ C). }
    pose proof (wp_bset k1 V _ _ i t f Hc1 ltac:(by left) Hl) as (bs2 & E2 & Hc2).
    apply wp_bind, wp_modify. rewrite E2 in *. set (k2 := ks_bufs bs2 k1) in *.
    assert (R2 : ring (bufs k2) (o1 ++ i :: o2)) by (rewrite <- E2; by apply ring_alter).
    pose proof (wp_bwrite k2 _ _ _ i t Hc2 ltac:(by left) Hs) as Hw.
    apply wp_Ok in Hw as ([] & k3 & E3 & bs3 & E3' & Hc3). unfold wp. rewrite E3.
    apply (bwrite_ring _ _ _ _ E3) in R2. subst k3. split; [done|]. split; [done|]. split; [done|].
    split; [done|]. intros u. cbn [dsk ks_bufs ks_dsk array_after]. rewrite d_read_write, fset_at. done. }
  wp_use Hw. intros [] k2 (Hc2 & U2 & R2 & Z2 & E2). apply wp_bind.
  wp_use (brelse_run k2 (array_after a V) [] [] i s o1 o2 Hc2 R2 U2); [by right|].
  intros [] k3 (bs3 & -> & Hc3 & R3). apply wp_ret. cbn [dsk bufs ks_procs ks_bufs].
  split; [done|]. split.
  { split; [|done]. by apply (cache_vext _ (array_after a V)). }
  split; [done|]. split; [done|]. by exists i, o1, o2.
Qed.

Lemma perform_all k l :
  clean k -> Forall (access_ok (d_size (dsk k))) l ->
  wp (performs l) k (fun xs k' => xs = array_reads l (d_read (dsk k)) /\ clean k' /\
    d_size (dsk k') = d_size (dsk k) /\
    forall s, d_read (dsk k') s = foldl (fun V a => array_after a V) (d_read (dsk k)) l s).
Proof.
  enough (G : forall V k, (forall s, d_read (dsk k) s = V s) -> clean k -> Forall (access_ok (d_size (dsk k))) l ->
    wp (performs l) k (fun xs k' => xs = array_reads l V /\ clean k' /\ d_size (dsk k') = d_size (dsk k) /\
      forall s, d_read (dsk k') s = foldl (fun V a => array_after a V) V l s)) by eauto.
  clear k. induction l as [|a l IH]; intros V k HV Hc Hl; cbn; [by apply wp_ret|].
  apply Forall_cons in Hl as [Ha Hl]. pose proof Hc as [((o & R) & _) _]. apply wp_bind.
  wp_use (perform_spec a k o Hc R Ha). intros x k1 (-> & Hc1 & Z1 & E1 & _).
  apply wp_bind. rewrite <- Z1 in Hl. wp_use (IH (array_after a V) k1); [|done..|].
  { intros s. rewrite E1. destruct a as [t|t f]; cbn; [done|]. unfold fset. rewrite HV. by destruct (s =? t). }
  intros xs k2 (-> & Hc2 & Z2 & E2). apply wp_ret. rewrite HV, Z2. done.
Qed.

(** ** Theorems *)

(** C30. The cache is transparent: from any idle state, every sequence of reads
    and updates through [bread], [bwrite] and [brelse] returns what the same
    sequence returns on a plain array of sectors, leaves the disk equal to
    that array, and leaves no buffer locked or dirty. *)
Theorem cache_transparent k l :
  clean k -> Forall (access_ok (d_size (dsk k))) l ->
  wp (performs l) k (fun xs k' => xs = array_reads l (d_read (dsk k)) /\ clean k' /\
    forall s, d_read (dsk k') s = foldl (fun V a => array_after a V) (d_read (dsk k)) l s).
Proof. intros Hc Hl. wp_use (perform_all k l Hc Hl). naive_solver. Qed.

(** Replacement is least recently used: an access takes the buffer that
    caches the sector if there is one, and otherwise the idle buffer furthest
    down the list; afterwards that buffer is first and the others keep their
    order. *)
Theorem access_lru a k o :
  clean k -> ring (bufs k) o -> access_ok (d_size (dsk k)) a ->
  wp (perform a) k (fun _ k' => exists i o1 o2, o = o1 ++ i :: o2 /\ ring (bufs k') (i :: o1 ++ o2) /\
    chosen (sector_of a) (bufs k) o i).
Proof. intros Hc R Ha. wp_use (perform_spec a k o Hc R Ha). naive_solver. Qed.

(** [binit] builds the list of all buffers and leaves a cache in which
    nothing is cached, locked or dirty: the state every access starts from. *)
Theorem binit_clean k :
  bufs k = replicate (S nbuf) buf0 -> (forall s, length (d_read (dsk k) s) = 512%nat) ->
  pt_lock k = false -> lg_lock k = false ->
  wp binit k (fun _ k' => clean k' /\ ring (bufs k') (rev (seq 0 nbuf)) /\ dsk k' = dsk k).
Proof.
  intros E Hl Hp Hg. unfold wp. rewrite binit_run by done.
  split; [|split; [apply booted_ring|done]]. split; [by apply booted_cache|done].
Qed.

End Accesses.

(** ** A disk of zeroes behind its superblock *)

#[local] Instance bio_wakeups : Wakeups := 1%nat.

Definition zero_block : block := replicate 512 x00.
Definition ex_image (s : Z) : block :=
  if s =? 1 then put32 12 10 (put32 0 30 zero_block) else zero_block.
Definition ex_disk : disk := Disk 30 ex_image [].
Definition ex_machine (bs : list buf) (l : logstate) : kstate :=
  KState (MState (fun _ => x00) false false 0 0 0) [] 1 None false None 0 0 0 bs ex_disk l [] [] ∅
    (InputBuf [] 0 0 0) [] false false false false false false false false false.

Lemma ex_blocks s : length (d_read ex_disk s) = 512%nat.
Proof. unfold d_read. cbn. unfold ex_image. by destruct (s =? 1). Qed.

Definition no_log : logstate := LogState 0 0 false 0 0 (replicate 10 0).

Lemma ex_clean : clean (ex_machine booted no_log).
Proof. split; [|done]. apply booted_cache; [apply ex_blocks|done]. Qed.

(** Twelve sectors, more than there are buffers, and back to the first. *)
Definition ex_accesses : list access :=
  (fun s => Update s (put32 0 (s + 100))) <$> [5; 6; 7; 8; 9; 10; 11; 12; 13; 14; 15; 16].

Lemma ex_accesses_ok : Forall (access_ok 30) (ex_accesses ++ [Read 5]).
Proof.
  repeat constructor; cbn; try lia; intros x Hx; rewrite put32_length; lia.
Qed.

Lemma cache_transparent_witness :
  wp (performs (ex_accesses ++ [Read 5])) (ex_machine booted no_log) (fun xs k' =>
    get32 0 (List.last xs []) = 105 /\ get32 0 (d_read (dsk k') 16) = 116).
Proof.
  eapply wp_mono; [apply (cache_transparent _ (ex_accesses ++ [Read 5]) ex_clean ex_accesses_ok)|].
  intros xs k' (-> & _ & E). rewrite E. vm_compute. split; reflexivity.
Defined.

