(* ===== verification/Log.v ===== *)
(** * The write-ahead log: log.c

    Transactions over the buffer cache.  [log_write] copies a modified block
    to the log on disk; [commit_trans] writes the header, which commits the
    transaction, then copies the blocks to their home location and erases the
    header.  [initlog] repeats the copying after a crash. *)

From S2P Require Import Prelude Layout Mem Kalloc Vm State Sched Bytes Bio.

Open Scope Z_scope.

(** ** The super block: fs.h, readsb of fs.c *)

Record superblock : Type := SuperBlock {
  sb_size : Z; sb_nblocks : Z; sb_ninodes : Z; sb_nlog : Z
}.

Definition decode_sb (b : block) : superblock :=
  SuperBlock (get32 0 b) (get32 4 b) (get32 8 b) (get32 12 b).

Section Log.
Context `{Wakeups}.

Definition readsb (dev : Z) : KM superblock :=
  let! bp := bread dev 1 in
  let! d := bdata bp in
  brelse bp ;;;
  ret (decode_sb d).

(** ** Operations *)

Definition logupd (f : logstate -> logstate) : KM unit :=
  modify (fun k => ks_klog (f (klog k)) k).

(** Element [i] of [log.lh.sector]. *)
Definition lh_get (i : Z) : KM Z :=
  let! l := gets klog in
  if i <? 0 then wild else from_option_wild (lh_sector l !! Z.to_nat i).
Definition lh_set (i v : Z) : KM unit :=
  let! l := gets klog in
  if (i <? 0) || (LOGSIZE <=? i) then wild
  else logupd (lgs_sector (<[Z.to_nat i := v]> (lh_sector l))).

(** [for (tail = 0; tail < log.lh.n; tail++)] with [n] blocks to go. *)
Fixpoint install_loop (tail : Z) (n : nat) : KM unit :=
  match n with
  | O => ret tt
  | S n =>
      let! l := gets klog in
      let! lbuf := bread (lg_dev l) (u32 (lg_start l + tail + 1)) in
      let! l := gets klog in
      let! sec := lh_get tail in
      let! dbuf := bread (lg_dev l) (u32 sec) in
      let! data := bdata lbuf in
      bset dbuf (fun _ => data) ;;;
      bwrite dbuf ;;;
      brelse lbuf ;;;
      brelse dbuf ;;;
      install_loop (tail + 1) n
  end.

Definition install_trans : KM unit :=
  let! l := gets klog in
  install_loop 0 (Z.to_nat (lh_n l)).

(** The header block: the count at offset 0, sector [i] at offset [4 + 4 * i]. *)
Fixpoint read_sectors (d : block) (i : Z) (n : nat) : KM unit :=
  match n with
  | O => ret tt
  | S n =>
      lh_set i (s32 (get32 (4 + 4 * i) d)) ;;;
      read_sectors d (i + 1) n
  end.

Definition read_head : KM unit :=
  let! l := gets klog in
  let! i := bread (lg_dev l) (u32 (lg_start l)) in
  let! d := bdata i in
  logupd (lgs_n (s32 (get32 0 d))) ;;;
  let! l := gets klog in
  read_sectors d 0 (Z.to_nat (lh_n l)) ;;;
  brelse i.

Fixpoint write_sectors (b : nat) (i : Z) (n : nat) : KM unit :=
  match n with
  | O => ret tt
  | S n =>
      let! v := lh_get i in
      bset b (put32 (4 + 4 * i) v) ;;;
      write_sectors b (i + 1) n
  end.

Definition write_head : KM unit :=
  let! l := gets klog in
  let! i := bread (lg_dev l) (u32 (lg_start l)) in
  let! l := gets klog in
  bset i (put32 0 (lh_n l)) ;;;
  write_sectors i 0 (Z.to_nat (lh_n l)) ;;;
  bwrite i ;;;
  brelse i.

Definition recover_from_log : KM unit :=
  read_head ;;;
  install_trans ;;;
  logupd (lgs_n 0) ;;;
  write_head.

(** [sizeof(struct logheader)] is 44, less than [BSIZE]. *)
Definition initlog : KM unit :=
  if BSIZE <=? 4 + 4 * LOGSIZE then panic "initlog: too big logheader"
  else
    modify (set_lock LkLog false) ;;;
    let! sb := readsb ROOTDEV in
    logupd (lgs_place (s32 (sb_size sb - sb_nlog sb)) (s32 (sb_nlog sb)) ROOTDEV) ;;;
    recover_from_log.

Fixpoint begin_loop (w : nat) : KM unit :=
  let! l := gets klog in
  if lg_busy l then
    match w with
    | O => nofuel
    | S w => sleep ChLog LkLog ;;; begin_loop w
    end
  else ret tt.

Definition begin_trans : KM unit :=
  acquire LkLog ;;;
  begin_loop wakeups ;;;
  logupd (lgs_busy true) ;;;
  release LkLog.

Definition commit_trans : KM unit :=
  let! l := gets klog in
  when (0 <? lh_n l)
    (write_head ;;;
     install_trans ;;;
     logupd (lgs_n 0) ;;;
     write_head) ;;;
  acquire LkLog ;;;
  logupd (lgs_busy false) ;;;
  wakeup ChLog ;;;
  release LkLog.

(** [for (i = 0; i < log.lh.n; i++) if (log.lh.sector[i] == b->sector) break;] *)
Fixpoint absorb (sector : Z) (i : Z) (n : nat) : KM Z :=
  match n with
  | O => ret i
  | S n =>
      let! v := lh_get i in
      if u32 v =? sector then ret i else absorb sector (i + 1) n
  end.

Definition log_write (b : nat) : KM unit :=
  let! l := gets klog in
  if (LOGSIZE <=? lh_n l) || (lg_size l - 1 <=? lh_n l) then panic "too big a transaction"
  else if negb (lg_busy l) then panic "write outside of trans"
  else
    let! x := bufget b in
    let! i := absorb (b_sector x) 0 (Z.to_nat (lh_n l)) in
    lh_set i (s32 (b_sector x)) ;;;
    let! lbuf := bread (b_dev x) (u32 (lg_start l + i + 1)) in
    let! d := bdata b in
    bset lbuf (fun _ => d) ;;;
    bwrite lbuf ;;;
    brelse lbuf ;;;
    let! l := gets klog in
    when (i =? lh_n l) (logupd (lgs_n (lh_n l + 1))) ;;;
    bufupd b (fun x => bs_flags (Z.lor (b_flags x) B_DIRTY) x).

End Log.
