(* ===== verification/LogFacts.v ===== *)
(** * The write-ahead log: facts

    Histories of the disk, the states a crash can leave it in while a
    transaction commits, and what each routine of log.c does to the disk and
    the cache. *)

From S2P Require Import Prelude Layout Mem Kalloc Vm State Sched Bytes Bio BioFacts Log.

Open Scope Z_scope.

(** ** Histories *)

(** Every disk a crash can leave between [d] and [d'] satisfies [P]. *)
Definition hist (P : disk -> Prop) (d d' : disk) : Prop :=
  exists ws, d' = Disk (d_size d) (d_image d) (ws ++ d_writes d) /\
    forall w1 w2, ws = w1 ++ w2 -> P (Disk (d_size d) (d_image d) (w2 ++ d_writes d)).

Lemma hist_refl (P : disk -> Prop) d : P d -> hist P d d.
Proof.
  intros HP. exists []. split; [by destruct d|]. intros w1 w2 E.
  symmetry in E. apply app_nil in E as [_ ->]. by destruct d.
Qed.

Lemma hist_write (P : disk -> Prop) d s x : P d -> P (d_write s x d) -> hist P d (d_write s x d).
Proof.
  intros H1 H2. exists [(s, x)]. split; [done|]. intros w1 w2 E. destruct w1 as [|w w1]; cbn in E.
  - by subst.
  - injection E as _ E. symmetry in E. apply app_nil in E as [_ ->]. by destruct d.
Qed.

Lemma hist_trans (P : disk -> Prop) d1 d2 d3 : hist P d1 d2 -> hist P d2 d3 -> hist P d1 d3.
Proof.
  intros (u & -> & H1) (v & -> & H2). exists (v ++ u). cbn in *. split; [by rewrite app_assoc|].
  intros w1 w2 E. apply app_eq_app in E as (w & [[E1 E2]|[E1 E2]]).
  - subst. rewrite <- app_assoc. by apply (H2 w1 w).
  - subst. by apply (H1 w w2).
Qed.

Lemma hist_mono (P Q : disk -> Prop) d d' : (forall d, P d -> Q d) -> hist P d d' -> hist Q d d'.
Proof. intros HPQ (u & E & HP). exists u. split; [done|]. intros w1 w2 Eu. eapply HPQ, HP, Eu. Qed.

Lemma hist_size P d d' : hist P d d' -> d_size d' = d_size d.
Proof. by intros (u & -> & _). Qed.

Lemma hist_last P d d' : hist P d d' -> P d'.
Proof. intros (u & -> & HP). by apply (HP [] u). Qed.

(** ** The states of a commit *)

(** The contents after the writes of a transaction. *)
Fixpoint install (ws : list (Z * block)) (V : Z -> block) : Z -> block :=
  match ws with
  | [] => V
  | (s, x) :: ws => fset s x (install ws V)
  end.

(** The header block names the sectors [ss]. *)
Definition hdr_is (b : block) (ss : list Z) : Prop :=
  get32 0 b = Z.of_nat (length ss) /\
  forall i s, ss !! i = Some s -> get32 (4 + 4 * Z.of_nat i) b = s.

(** The layout of the disk: the log's header is block [start], its slots
    follow it. *)
Record layout (d : disk) (start size : Z) : Prop := {
  ly_start : 2 <= start;
  ly_size : 2 <= size <= 10;
  ly_end : start + size <= d_size d;
  ly_disk : d_size d < 2 ^ 31
}.

(** A transaction that fits the log: distinct home sectors. *)
Record wset (start size : Z) (ws : list (Z * block)) : Prop := {
  wt_nodup : NoDup ws.*1;
  wt_home : forall s, s ∈ ws.*1 -> 2 <= s < start;
  wt_len : forall s x, (s, x) ∈ ws -> length x = 512%nat;
  wt_fits : Z.of_nat (length ws) <= size - 1
}.

(** Every sector has 512 bytes. *)
Definition blocks (d : disk) : Prop := forall s, length (d_read d s) = 512%nat.

Lemma blocks_write d s x : blocks d -> length x = 512%nat -> blocks (d_write s x d).
Proof. intros Hb Hx t. rewrite d_read_write. by destruct (t =? s). Qed.

Definition home (start : Z) (d : disk) (V : Z -> block) : Prop :=
  forall s, 0 <= s < start -> d_read d s = V s.

Definition slots (start : Z) (d : disk) (ws : list (Z * block)) : Prop :=
  forall i s x, ws !! i = Some (s, x) -> d_read d (start + 1 + Z.of_nat i) = x.

Section States.
Variables (start : Z) (old : Z -> block) (ws : list (Z * block)).

(** Before the header is written. *)
Definition uncommitted (d : disk) : Prop :=
  blocks d /\ hdr_is (d_read d start) [] /\ home start d old.

(** After it: any of the blocks may have been copied to its home. *)
Definition committed (d : disk) : Prop :=
  blocks d /\ hdr_is (d_read d start) ws.*1 /\ slots start d ws /\
  forall s, 0 <= s < start -> d_read d s = old s \/ d_read d s = install ws old s.

(** After the header was erased. *)
Definition installed (d : disk) : Prop :=
  blocks d /\ hdr_is (d_read d start) [] /\ home start d (install ws old).

Definition crash_ok (d : disk) : Prop := uncommitted d \/ committed d \/ installed d.
End States.

Lemma install_notin ws V s : s ∉ ws.*1 -> install ws V s = V s.
Proof.
  induction ws as [|[t x] ws IH]; cbn; [done|]. intros [Hne Hn]%not_elem_of_cons. unfold fset.
  rewrite (proj2 (Z.eqb_neq _ _)) by done. by apply IH.
Qed.

Lemma install_in ws V s x : NoDup ws.*1 -> (s, x) ∈ ws -> install ws V s = x.
Proof.
  induction ws as [|[t y] ws IH]; cbn; intros Hnd Hin; [by apply not_elem_of_nil in Hin|].
  apply NoDup_cons in Hnd as [Ht Hnd]. unfold fset.
  apply elem_of_cons in Hin as [[= -> ->]|Hin]; [by rewrite Z.eqb_refl|].
  rewrite (proj2 (Z.eqb_neq _ _)); [by apply IH|]. intros ->. apply Ht.
  apply list_elem_of_fmap. by exists (t, x).
Qed.

Lemma install_fset ws V s x t :
  s ∉ ws.*1 -> install ws (fset s x V) t = fset s x (install ws V) t.
Proof.
  induction ws as [|[u y] ws IH]; cbn; intros Hs; [done|]. apply not_elem_of_cons in Hs as [Hne Hs].
  destruct (decide (t = u)) as [->|Hu].
  - by rewrite fset_at, fset_ne, fset_at by done.
  - rewrite fset_ne, IH by done. destruct (decide (t = s)) as [->|Ht].
    + by rewrite !fset_at.
    + by rewrite !fset_ne by done.
Qed.

Lemma committed_write start old ws d s x :
  NoDup ws.*1 -> (forall s, s ∈ ws.*1 -> 2 <= s < start) -> length x = 512%nat ->
  committed start old ws d -> (s, x) ∈ ws -> committed start old ws (d_write s x d).
Proof.
  intros Hnd Hhm Hx (Hb & Hh & Hs & Hv) Hin.
  assert (Hr : 2 <= s < start) by (apply Hhm, list_elem_of_fmap; by exists (s, x)).
  assert (E : forall t, t <> s -> d_read (d_write s x d) t = d_read d t).
  { intros t Ht. by rewrite d_read_write, (proj2 (Z.eqb_neq t s)). }
  split; [by apply blocks_write|]. split; [|split].
  - by rewrite E by lia.
  - intros i t y Hi. rewrite E by lia. by eapply Hs.
  - intros t Ht. destruct (decide (t = s)) as [->|Hne].
    + right. rewrite d_read_write, Z.eqb_refl. symmetry. by apply install_in.
    + rewrite E by done. by apply Hv.
Qed.

(** ** The routines *)

Section LogFacts.
Context `{Wakeups}.
Variables (start size : Z).

(** The in-memory header names the sectors [ss]. *)
Record logk (l : logstate) (ss : list Z) : Prop := {
  lk_start : lg_start l = start;
  lk_size : lg_size l = size;
  lk_dev : lg_dev l = 1;
  lk_n : lh_n l = Z.of_nat (length ss);
  lk_ss : forall i s, ss !! i = Some s -> lh_sector l !! i = Some s;
  lk_len : length (lh_sector l) = 10%nat
}.

Definition sectors_ok (ss : list Z) : Prop := (length ss <= 10)%nat /\ forall s, s ∈ ss -> 0 <= s < 2 ^ 31.

(** The header block up to entry [i]. *)
Definition hdr_upto (b : block) (ss : list Z) (i : nat) : Prop :=
  get32 0 b = Z.of_nat (length ss) /\
  forall j s, ss !! j = Some s -> (j < i)%nat -> get32 (4 + 4 * Z.of_nat j) b = s.

Lemma hdr_upto_S b ss i s :
  length b = 512%nat -> (length ss <= 10)%nat -> ss !! i = Some s -> 0 <= s < 2 ^ 32 -> hdr_upto b ss i ->
  hdr_upto (put32 (4 + 4 * Z.of_nat i) s b) ss (S i).
Proof.
  intros Hb Hss Hi Hs [H0 Hj]. pose proof (lookup_lt_Some _ _ _ Hi). split.
  - rewrite get32_put32_ne by lia. done.
  - intros j t Ht Hlt. destruct (decide (j = i)) as [->|Hne].
    + rewrite get32_put32 by lia. rewrite u32_small by done. congruence.
    + pose proof (lookup_lt_Some _ _ _ Ht). rewrite get32_put32_ne by lia. apply Hj; [done|lia].
Qed.

Lemma wp_lh_get k ss i s Q :
  logk (klog k) ss -> ss !! i = Some s -> Q s k -> wp (lh_get (Z.of_nat i)) k Q.
Proof.
  intros Lk Hi HQ. unfold lh_get. apply wp_bind, wp_gets.
  rewrite (proj2 (Z.ltb_ge _ _)) by lia. rewrite Nat2Z.id, (lk_ss _ _ Lk i s Hi). by apply wp_ret.
Qed.

Lemma write_sectors_spec ss D n : forall i k V b,
  cache k V [(b, start)] D -> logk (klog k) ss -> sectors_ok ss -> (i + n = length ss)%nat ->
  hdr_upto (V start) ss i ->
  wp (write_sectors b (Z.of_nat i) n) k (fun _ k' => exists bs' h, k' = ks_bufs bs' k /\
    cache k' (fset start h V) [(b, start)] D /\ hdr_is h ss /\ length h = 512%nat).
Proof.
  induction n as [|n IH]; intros i k V b Hc Lk [Hl Hs] Hin Hh; cbn [write_sectors].
  - apply wp_ret. exists (bufs k), (V start). split; [by destruct k|]. split; [|split].
    + eapply cache_vext; [|exact Hc]. intros t. by rewrite fset_same.
    + destruct Hh as [H0 Hj]. split; [done|]. intros j s Hjs. apply Hj; [done|].
      pose proof (lookup_lt_Some _ _ _ Hjs). lia.
    + destruct Hc as (_ & C & _). apply (cs_len _ _ _ _ _ C).
  - destruct (lookup_lt_is_Some_2 ss i) as [s Hi]; [lia|].
    assert (Hsr : 0 <= s < 2 ^ 31) by (apply Hs, list_elem_of_lookup; eauto).
    assert (Hlen : length (V start) = 512%nat).
    { destruct Hc as (_ & C & _). apply (cs_len _ _ _ _ _ C). }
    apply wp_bind, (wp_lh_get k ss i s); [done|done|]. apply wp_bind.
    wp_use (wp_bset k V _ D b start (put32 (4 + 4 * Z.of_nat i) s) Hc); [by left|rewrite put32_length; lia|].
    intros [] k' (bs' & -> & Hc'). replace (Z.of_nat i + 1) with (Z.of_nat (S i)) by lia.
    wp_use (IH (S i) (ks_bufs bs' k) _ b Hc'); [done|done|lia| |].
    + unfold fset. rewrite Z.eqb_refl. apply hdr_upto_S; try done. lia.
    + intros _ k'' (bs'' & h & -> & Hc'' & Hh' & Hlh). exists bs'', h. split; [done|].
      split; [|done]. eapply cache_vext; [|exact Hc'']. intros t. by rewrite fset_fset.
Qed.

Lemma write_head_spec k V D ss :
  cache k V [] D -> unlocked k -> logk (klog k) ss -> sectors_ok ss -> (length D < nbuf)%nat ->
  0 <= start < d_size (dsk k) -> d_size (dsk k) < 2 ^ 31 -> start ∉ D ->
  wp write_head k (fun _ k' => exists h, bfr k k' /\ klog k' = klog k /\
    dsk k' = d_write start h (dsk k) /\ hdr_is h ss /\ length h = 512%nat /\
    cache k' (fset start h V) [] D).
Proof.
  intros Hc Hu Lk Hs HD Hst Hsz HsD. unfold write_head. apply wp_bind, wp_gets, wp_bind.
  rewrite (lk_start _ _ Lk), (lk_dev _ _ Lk), u32_small by lia.
  wp_use (wp_bread k V [] D start Hc Hu); [lia|apply not_elem_of_nil|left; cbn; lia|].
  intros b k1 (bs1 & -> & Hc1). apply wp_bind, wp_gets, wp_bind.
  assert (Hlen : length (V start) = 512%nat).
  { destruct Hc as (_ & C & _). apply (cs_len _ _ _ _ _ C). }
  wp_use (wp_bset _ V _ D b start (put32 0 (lh_n (klog k))) Hc1); [by left|rewrite put32_length; lia|].
  intros [] k2 (bs2 & -> & Hc2). apply wp_bind. cbn [klog ks_bufs].
  rewrite (lk_n _ _ Lk), Nat2Z.id.
  wp_use (write_sectors_spec ss D (length ss) 0 _ _ b Hc2); [done|done|done| |].
  { unfold fset. rewrite Z.eqb_refl, (lk_n _ _ Lk). split; [|lia].
    rewrite get32_put32 by lia. apply u32_small. destruct Hs. lia. }
  intros [] k3 (bs3 & h & -> & Hc3 & Hh & Hlh). apply wp_bind.
  wp_use (wp_bwrite _ _ _ D b start Hc3); [by left|cbn; lia|].
  rewrite fset_at, filter_ne by done. intros [] k4 (bs4 & -> & Hc4).
  wp_use (wp_brelse _ _ [] D b start Hc4); [exact Hu| |].
  { right. cbn [dsk ks_bufs ks_dsk]. by rewrite d_read_write, Z.eqb_refl, fset_at. }
  intros _ k5 (bs5 & -> & Hc5). exists h. split_and!; try done.
  eapply cache_vext; [|exact Hc5]. intros t. by rewrite fset_fset.
Qed.

(** Copying one block from the log to its home. *)
Lemma install_step k V D ss i s x n (Q : unit -> kstate -> Prop) :
  cache k V [] D -> unlocked k -> logk (klog k) ss -> layout (dsk k) start size ->
  ss !! i = Some s -> 2 <= s < start -> Z.of_nat i + 1 < size ->
  V (start + 1 + Z.of_nat i) = x -> (forall t, t ∈ D -> t < start) ->
  (length D < nbuf)%nat -> (s ∈ D \/ (1 + length D < nbuf)%nat) ->
  (forall k', bfr k k' -> klog k' = klog k -> dsk k' = d_write s x (dsk k) ->
    cache k' (fset s x V) [] (filter (fun t => t <> s) D) ->
    wp (install_loop (Z.of_nat (S i)) n) k' Q) ->
  wp (install_loop (Z.of_nat i) (S n)) k Q.
Proof.
  intros Hc Hu Lk [Y1 Y2 Y3 Y4] Hi Hs Hsz Hx HD Hn Hor HQ. cbn [install_loop].
  set (ls := start + 1 + Z.of_nat i) in *.
  assert (Hlen : forall t, length (V t) = 512%nat) by (destruct Hc as (_ & C & _); apply (cs_len _ _ _ _ _ C)).
  assert (Hls : V ls = d_read (dsk k) ls).
  { destruct Hc as (_ & C & _). apply (cs_disk _ _ _ _ _ C); [|apply not_elem_of_nil].
    intros Hin. specialize (HD _ Hin). unfold ls in HD. lia. }
  apply wp_bind, wp_gets, wp_bind. rewrite (lk_start _ _ Lk), (lk_dev _ _ Lk).
  replace (start + Z.of_nat i + 1) with ls by (unfold ls; lia). rewrite u32_small by (unfold ls; lia).
  wp_use (wp_bread k V [] D ls Hc Hu); [unfold ls; lia|apply not_elem_of_nil|left; cbn; lia|].
  intros lb k1 (bs1 & -> & Hc1). apply wp_bind, wp_gets, wp_bind.
  apply (wp_lh_get (ks_bufs bs1 k) ss i s); [done|done|]. apply wp_bind. cbn [klog ks_bufs].
  rewrite (lk_dev _ _ Lk), u32_small by lia.
  wp_use (wp_bread _ V _ D s Hc1 Hu); [cbn; lia| |cbn [length]; destruct Hor; [by right|left; lia]|].
  { cbn. rewrite list_elem_of_singleton. unfold ls. lia. }
  intros db k2 (bs2 & -> & Hc2). apply wp_bind, (wp_bdata _ V [(db, s); (lb, ls)] D lb ls); [done|right; by left|].
  apply wp_bind. wp_use (wp_bset _ V _ D db s (fun _ => V ls) Hc2); [by left|apply Hlen|].
  intros [] k3 (bs3 & -> & Hc3). apply wp_bind. cbv beta in Hc3. rewrite Hx in Hc3.
  wp_use (wp_bwrite _ _ _ D db s Hc3); [by left|cbn; lia|]. rewrite fset_at.
  intros [] k4 (bs4 & -> & Hc4). apply wp_bind.
  eapply cache_perm in Hc4; [|apply perm_swap].
  wp_use (wp_brelse _ _ _ _ lb ls Hc4); [exact Hu| |].
  { right. cbn [dsk ks_bufs ks_dsk]. rewrite d_read_write, fset_ne by (unfold ls; lia).
    rewrite (proj2 (Z.eqb_neq _ _)) by (unfold ls; lia). exact Hls. }
  intros [] k5 (bs5 & -> & Hc5). apply wp_bind. wp_use (wp_brelse _ _ [] _ db s Hc5); [exact Hu| |].
  { right. cbn [dsk ks_bufs ks_dsk ks_procs]. by rewrite d_read_write, Z.eqb_refl, fset_at. }
  intros [] k6 (bs6 & -> & Hc6). replace (Z.of_nat i + 1) with (Z.of_nat (S i)) by lia. by apply HQ.
Qed.

Lemma layout_write d s x : layout d start size -> layout (d_write s x d) start size.
Proof. intros [Y1 Y2 Y3 Y4]. by split. Qed.

(** Copying the blocks from number [i] on. *)
Lemma install_loop_spec ws old : forall n i k V D,
  wset start size ws -> (i + n = length ws)%nat ->
  cache k V [] D -> unlocked k -> logk (klog k) ws.*1 -> layout (dsk k) start size ->
  (forall j s x, ws !! j = Some (s, x) -> V (start + 1 + Z.of_nat j) = x) ->
  (forall t, t ∈ D -> t < start) -> (length D < nbuf)%nat ->
  (forall s, s ∈ (drop i ws).*1 -> s ∈ D) \/ (1 + length D < nbuf)%nat ->
  committed start old ws (dsk k) ->
  wp (install_loop (Z.of_nat i) n) k (fun _ k' => exists D', bfr k k' /\ klog k' = klog k /\
    cache k' (install (drop i ws) V) [] D' /\
    (forall t, t ∈ D' <-> t ∈ D /\ t ∉ (drop i ws).*1) /\
    hist (committed start old ws) (dsk k) (dsk k')).
Proof.
  induction n as [|n IH]; intros i k V D W Hin Hc Hu Lk Ly Hsl HD Hn Hor Hcm.
  { cbn [install_loop]. apply wp_ret. exists D. rewrite drop_ge by lia.
    split_and!; try done; [apply bfr_refl| |by apply hist_refl].
    intros t. split; [intros; split; [done|apply not_elem_of_nil]|tauto]. }
  destruct (lookup_lt_is_Some_2 ws i) as [[s x] Hi]; [lia|].
  pose proof (list_elem_of_lookup_2 _ _ _ Hi) as Hel.
  assert (Hs1 : s ∈ ws.*1) by (apply list_elem_of_fmap; by exists (s, x)).
  pose proof (wt_home _ _ _ W s Hs1) as Hs. pose proof (wt_fits _ _ _ W) as Hf.
  pose proof (drop_S _ _ _ Hi) as Edr.
  assert (Hsr : s ∉ (drop (S i) ws).*1).
  { pose proof (wt_nodup _ _ _ W) as Hnd. rewrite <- (take_drop i ws), Edr, fmap_app in Hnd.
    apply NoDup_app in Hnd as (_ & _ & Hnd). by apply NoDup_cons in Hnd as [? _]. }
  apply (install_step k V D ws.*1 i s x); try done.
  1: by rewrite list_lookup_fmap, Hi. 1: lia. 1: by apply (Hsl i s).
  1: destruct Hor as [Hor|]; [left; apply Hor; rewrite Edr; by left|by right].
  intros k' Fr Ek Ed Hc'.
  wp_use (IH (S i) k' _ _ W ltac:(lia) Hc'); try done.
  - by eapply bfr_unlocked.
  - by rewrite Ek.
  - rewrite Ed. by apply layout_write.
  - intros j t y Hj. rewrite fset_ne by lia. by apply (Hsl j t).
  - intros t [_ Ht]%list_elem_of_filter. auto.
  - pose proof (length_filter (fun t => t <> s) D). lia.
  - destruct Hor as [Hor|Hor].
    + left. intros t Ht. apply list_elem_of_filter. split; [by intros ->|]. apply Hor. rewrite Edr. by right.
    + right. pose proof (length_filter (fun t => t <> s) D). lia.
  - rewrite Ed. apply committed_write; try done; try apply W. by apply (wt_len _ _ _ W s).
  - intros [] k2 (D' & Fr2 & Ek2 & Hc2 & HD' & Hh). exists D'. split_and!.
    + by eapply bfr_trans.
    + congruence.
    + eapply cache_vext; [|exact Hc2]. intros t. rewrite Edr. cbn. by rewrite install_fset.
    + intros t. rewrite HD', list_elem_of_filter, Edr. cbn. rewrite not_elem_of_cons. tauto.
    + eapply hist_trans; [|exact Hh]. rewrite Ed. apply hist_write; [done|].
      apply committed_write; try done; try apply W. by apply (wt_len _ _ _ W s).
Qed.

(** A clean cache shows the disk. *)
Lemma cache_clean k V :
  cache k V [] [] -> cache k (d_read (dsk k)) [] [] /\ forall s, V s = d_read (dsk k) s.
Proof.
  intros Hc. assert (E : forall s, V s = d_read (dsk k) s).
  { intros s. destruct Hc as (_ & C & _). apply (cs_disk _ _ _ _ _ C); apply not_elem_of_nil. }
  split; [|done]. eapply cache_vext; [|exact Hc]. done.
Qed.

Lemma sectors_of d ws : layout d start size -> wset start size ws -> sectors_ok ws.*1.
Proof.
  intros [Y1 Y2 Y3 Y4] [W1 W2 W3 W4]. split; [rewrite length_fmap; lia|].
  intros s Hs. specialize (W2 s Hs). lia.
Qed.

Lemma sectors_nil : sectors_ok [].
Proof. split; [cbn; lia|]. intros s Hs. by apply not_elem_of_nil in Hs. Qed.

Lemma logk_clear l ss : logk l ss -> logk (lgs_n 0 l) [].
Proof. intros [L1 L2 L3 L4 L5 L6]. by split. Qed.

(** Copy the logged blocks home and erase the header. *)
Lemma apply_log_spec ws old k V D :
  wset start size ws -> cache k V [] D -> unlocked k -> logk (klog k) ws.*1 ->
  layout (dsk k) start size ->
  (forall j s x, ws !! j = Some (s, x) -> V (start + 1 + Z.of_nat j) = x) ->
  (forall t, t ∈ D -> t ∈ ws.*1) -> (length D < nbuf)%nat ->
  (forall s, s ∈ ws.*1 -> s ∈ D) \/ (1 + length D < nbuf)%nat ->
  committed start old ws (dsk k) ->
  wp (install_trans ;;; logupd (lgs_n 0) ;;; write_head) k (fun _ k' => bfr k k' /\
    logk (klog k') [] /\ lg_busy (klog k') = lg_busy (klog k) /\
    hist (crash_ok start old ws) (dsk k) (dsk k') /\ installed start old ws (dsk k') /\
    cache k' (d_read (dsk k')) [] []).
Proof.
  intros W Hc Hu Lk Ly Hsl HD Hn Hor Hcm. unfold install_trans.
  apply wp_bind, wp_bind, wp_gets. rewrite (lk_n _ _ Lk), Nat2Z.id, length_fmap.
  wp_use (install_loop_spec ws old (length ws) 0 k V D W eq_refl Hc); try done.
  { intros t Ht. apply (wt_home _ _ _ W), HD, Ht. }
  intros [] k1 (D1 & Fr1 & Ek1 & Hc1 & HD1 & Hh1). rewrite drop_0 in *.
  assert (D1 = []) as ->.
  { destruct D1 as [|t D1]; [done|]. destruct (proj1 (HD1 t)) as [Ht Hn']; [by left|]. by destruct Hn'; auto. }
  apply wp_bind, wp_modify. set (k2 := ks_klog (lgs_n 0 (klog k1)) k1).
  pose proof (hist_last _ _ _ Hh1) as Hcm1. pose proof (hist_size _ _ _ Hh1) as Hsz.
  destruct Ly as [Y1 Y2 Y3 Y4]. destruct (cache_clean _ _ Hc1) as [_ E1].
  wp_use (write_head_spec k2 (install ws V) [] []).
  - exact Hc1.
  - exact (bfr_unlocked _ _ Fr1 Hu).
  - cbn. apply logk_clear with (ss := ws.*1). by rewrite Ek1.
  - apply sectors_nil.
  - cbn. lia.
  - cbn. lia.
  - cbn. lia.
  - apply not_elem_of_nil.
  - intros [] k3 (h & Fr3 & Ek3 & Ed3 & Hh3 & Hlh & Hc3). cbn [dsk k2 ks_klog] in Ed3.
    assert (Hin : installed start old ws (dsk k3)).
    { rewrite Ed3. split; [apply blocks_write; [apply Hcm1|done]|].
      split; [by rewrite d_read_write, Z.eqb_refl|]. intros s Hs.
      rewrite d_read_write, (proj2 (Z.eqb_neq _ _)) by lia. rewrite <- E1.
      destruct (decide (s ∈ ws.*1)) as [Hsw|Hsw].
      - apply list_elem_of_fmap in Hsw as ([s' x] & -> & Hin). cbn.
        by rewrite !(install_in ws _ s' x) by (done || apply W).
      - rewrite !install_notin by done. destruct Hcm as (_ & _ & _ & Hv).
        assert (E0 : V s = d_read (dsk k) s).
        { destruct Hc as (_ & C & _). apply (cs_disk _ _ _ _ _ C); [|apply not_elem_of_nil]. auto. }
        rewrite E0. destruct (Hv s Hs) as [->| ->]; [done|]. by apply install_notin. }
    destruct (cache_clean _ _ Hc3) as [Hc3' _]. split_and!; try done.
    + eapply bfr_trans; [exact Fr1|]. eapply bfr_trans; [|exact Fr3]. by destruct k1.
    + rewrite Ek3. cbn. apply logk_clear with (ss := ws.*1). by rewrite Ek1.
    + rewrite Ek3. cbn. by rewrite Ek1.
    + eapply hist_trans.
      * eapply hist_mono; [|exact Hh1]. intros d' Hd'. right. by left.
      * rewrite Ed3. apply hist_write; [right; by left|]. rewrite <- Ed3. right. by right.
Qed.

(** ** The transaction in progress *)

(** [ws] are the blocks logged so far, [V] what the cache shows; the buffers [L] are
    held and not yet changed. *)
Record txh (L : list (nat * Z)) (k : kstate) (old : Z -> block) (ws : list (Z * block)) (V : Z -> block)
    (D : list Z) : Prop := {
  tx_cache : cache k V L D;
  tx_held : forall t, t ∈ L.*2 -> t < start /\ (t ∈ D \/ V t = d_read (dsk k) t);
  tx_unl : unlocked k;
  tx_log : logk (klog k) ws.*1;
  tx_busy : lg_busy (klog k) = true;
  tx_lay : layout (dsk k) start size;
  tx_wset : wset start size ws;
  tx_slots : slots start (dsk k) ws;
  tx_unc : uncommitted start old (dsk k);
  tx_dirty : forall t, t ∈ D <-> t ∈ ws.*1;
  tx_cur : forall s, 0 <= s < start -> V s = install ws old s
}.
Abbreviation txi := (txh []).

Lemma dirty_length L k old ws V D : txh L k old ws V D -> length D = length ws.
Proof.
  intros T. rewrite <- (length_fmap fst ws). apply Permutation_length, NoDup_Permutation.
  - apply (tx_cache _ _ _ _ _ _ T).
  - apply (wt_nodup _ _ _ (tx_wset _ _ _ _ _ _ T)).
  - apply (tx_dirty _ _ _ _ _ _ T).
Qed.

Lemma slot_shown k V D ws i s x :
  cache k V [] D -> (forall t, t ∈ D -> t < start) -> slots start (dsk k) ws ->
  ws !! i = Some (s, x) -> V (start + 1 + Z.of_nat i) = x.
Proof.
  intros (_ & C & _) HD Hs Hi. rewrite (cs_disk _ _ _ _ _ C); [by apply (Hs i s)| |apply not_elem_of_nil].
  intros Hin. specialize (HD _ Hin). lia.
Qed.

(** The end of a transaction: it is on disk, the cache is clean. *)
Definition closed (k : kstate) (old : Z -> block) (ws : list (Z * block)) (k' : kstate) : Prop :=
  bfr k k' /\ logk (klog k') [] /\ lg_busy (klog k') = false /\ unlocked k' /\
  hist (crash_ok start old ws) (dsk k) (dsk k') /\ installed start old ws (dsk k') /\
  cache k' (d_read (dsk k')) [] [].

Lemma unbusy_spec k old ws k1 :
  unlocked k -> bfr k k1 -> logk (klog k1) [] -> hist (crash_ok start old ws) (dsk k) (dsk k1) ->
  installed start old ws (dsk k1) -> cache k1 (d_read (dsk k1)) [] [] ->
  wp (acquire LkLog ;;; logupd (lgs_busy false) ;;; wakeup ChLog ;;; release LkLog) k1
    (fun _ k' => closed k old ws k').
Proof.
  intros Hu Fr L1 H1 I1 C1. destruct (bfr_unlocked _ _ Fr Hu) as (U1 & U2 & U3).
  apply wp_bind, wp_acquire; [done|]. apply wp_bind, wp_modify. apply wp_bind, wp_wakeup; [done|].
  apply wp_release; [done|]. split_and!; try done.
  - eapply bfr_trans; [exact Fr|]. destruct k1. cbn in U3. by subst.
  - destruct L1. by split.
Qed.

Lemma commit_spec k old ws V D :
  txi k old ws V D ->
  wp commit_trans k (fun _ k' => closed k old ws k').
Proof.
  intros T. pose proof (dirty_length _ _ _ _ _ _ T) as HlD. destruct T as [Hc _ Hu Lk Bz Ly W Sl Un Dt Cu].
  assert (HD : forall t, t ∈ D -> 2 <= t < start) by (intros t Ht; by apply (wt_home _ _ _ W), Dt).
  pose proof (wt_fits _ _ _ W) as Hf. pose proof Ly as [Y1 Y2 Y3 Y4].
  assert (Hn : (length D < nbuf)%nat) by (rewrite HlD; unfold nbuf, NBUF; lia).
  unfold commit_trans. apply wp_bind, wp_gets, wp_bind, wp_when. rewrite (lk_n _ _ Lk), length_fmap.
  destruct (Z.ltb_spec 0 (Z.of_nat (length ws))) as [Hpos|Hz].
  - apply wp_bind. wp_use (write_head_spec k V D ws.*1 Hc Hu Lk); try done; try lia.
    { by apply (sectors_of (dsk k)). }
    { intros Hin. specialize (HD _ Hin). lia. }
    intros [] k1 (h & Fr1 & Ek1 & Ed1 & Hh & Hlh & Hc1).
    assert (Hne : forall t, t <> start -> d_read (dsk k1) t = d_read (dsk k) t).
    { intros t Ht. by rewrite Ed1, d_read_write, (proj2 (Z.eqb_neq _ _)). }
    assert (Cm : committed start old ws (dsk k1)).
    { split; [rewrite Ed1; apply blocks_write; [apply Un|done]|].
      split; [by rewrite Ed1, d_read_write, Z.eqb_refl|]. split.
      - intros i s x Hi. rewrite Hne by lia. by apply (Sl i s).
      - intros s Hs. left. rewrite Hne by lia. by apply Un. }
    wp_use (apply_log_spec ws old k1 _ D W Hc1); try done.
    + by apply (bfr_unlocked k).
    + by rewrite Ek1.
    + rewrite Ed1. by apply layout_write.
    + intros i s x Hi. rewrite fset_ne by lia. eapply slot_shown; try done. intros t Ht. by apply HD.
    + intros t. apply Dt.
    + left. intros s. apply Dt.
    + intros [] k2 (Fr2 & L2 & B2 & H2 & I2 & C2). apply unbusy_spec; try done; [by eapply bfr_trans|].
      eapply hist_trans; [|exact H2]. rewrite Ed1. apply hist_write; [by left|].
      rewrite <- Ed1. right. by left.
  - assert (ws = []) as -> by (destruct ws; [done|cbn in Hz; lia]).
    assert (D = []) as -> by (destruct D; [done|cbn in HlD; lia]).
    apply unbusy_spec; try done; [apply bfr_refl|apply hist_refl; by left|by apply (cache_clean k V)].
Qed.

(** ** log_write *)

Lemma absorb_spec k ss s n : forall i,
  logk (klog k) ss -> sectors_ok ss -> (i + n = length ss)%nat ->
  (forall j t, ss !! j = Some t -> (j < i)%nat -> t <> s) ->
  wp (absorb s (Z.of_nat i) n) k (fun r k' => k' = k /\ exists j, r = Z.of_nat j /\
    (ss !! j = Some s \/ j = length ss /\ s ∉ ss)).
Proof.
  induction n as [|n IH]; intros i Lk Hs Hin Hno; cbn [absorb].
  - apply wp_ret. split; [done|]. exists i. split; [done|]. right. split; [lia|].
    intros [j Hj]%list_elem_of_lookup. pose proof (lookup_lt_Some _ _ _ Hj).
    by apply (Hno j s Hj ltac:(lia)).
  - destruct (lookup_lt_is_Some_2 ss i) as [t Hi]; [lia|].
    apply wp_bind, (wp_lh_get k ss i t); [done|done|].
    rewrite u32_small by (destruct Hs as [_ Hs]; specialize (Hs t (list_elem_of_lookup_2 _ _ _ Hi)); lia).
    destruct (Z.eqb_spec t s) as [->|Hne]; [apply wp_ret; split; [done|]; eauto|].
    replace (Z.of_nat i + 1) with (Z.of_nat (S i)) by lia. apply IH; try done; [lia|].
    intros j u Hj Hlt. destruct (decide (j = i)) as [->|]; [congruence|]. apply (Hno j u Hj). lia.
Qed.

(** The logged blocks after [log_write]. *)
Definition wput (j : nat) (s : Z) (x : block) (ws : list (Z * block)) : list (Z * block) :=
  if decide (j < length ws)%nat then <[j := (s, x)]> ws else ws ++ [(s, x)].

Lemma wput_lookup j s x ws i : (j <= length ws)%nat ->
  wput j s x ws !! i = if decide (i = j) then Some (s, x) else ws !! i.
Proof.
  intros Hj. unfold wput. case_decide as Hl.
  - case_decide as E; subst; [by apply list_lookup_insert_eq|by apply list_lookup_insert_ne].
  - assert (j = length ws) as -> by lia. case_decide as E; subst.
    + rewrite lookup_app_r, Nat.sub_diag by lia. done.
    + destruct (decide (i < length ws)%nat); [by rewrite lookup_app_l|].
      rewrite lookup_app_r, (lookup_ge_None_2 ws) by lia. apply lookup_ge_None_2. cbn. lia.
Qed.

(** Slot [j] belongs to sector [s], or is the next one and [s] is new. *)
Definition slot_of (ws : list (Z * block)) (j : nat) (s : Z) : Prop :=
  ws.*1 !! j = Some s \/ j = length ws /\ s ∉ ws.*1.

Lemma wput_fst j s x ws : slot_of ws j s ->
  (wput j s x ws).*1 = if decide (j < length ws)%nat then ws.*1 else ws.*1 ++ [s].
Proof.
  intros Hj. unfold wput. case_decide; [|by rewrite fmap_app].
  destruct Hj as [Hj|[-> _]]; [|lia]. rewrite list_fmap_insert. by apply list_insert_id.
Qed.

Lemma wput_wset j s x ws :
  slot_of ws j s -> wset start size ws -> 2 <= s < start -> length x = 512%nat ->
  Z.of_nat (length ws) < size - 1 -> wset start size (wput j s x ws).
Proof.
  intros Hj [W1 W2 W3 W4] Hs Hx Hlt.
  assert (Hle : (j <= length ws)%nat).
  { destruct Hj as [Hj%lookup_lt_Some|[-> _]]; [rewrite length_fmap in Hj|]; lia. }
  split.
  - rewrite wput_fst by done. case_decide; [done|]. destruct Hj as [Hj%lookup_lt_Some|[_ Hn]].
    + rewrite length_fmap in Hj. lia.
    + apply NoDup_app. split; [done|]. split; [|apply NoDup_singleton].
      intros t Ht ->%list_elem_of_singleton. done.
  - intros t. rewrite wput_fst by done. case_decide; [apply W2|].
    intros [Ht| ->%list_elem_of_singleton]%elem_of_app; [by apply W2|done].
  - intros t y [i Hi]%list_elem_of_lookup. rewrite wput_lookup in Hi by done. case_decide.
    + by injection Hi as <- <-.
    + apply (W3 t y). eauto using list_elem_of_lookup_2.
  - unfold wput. case_decide; [rewrite length_insert|rewrite length_app; cbn]; lia.
Qed.

Lemma wput_install j s x ws V t :
  slot_of ws j s -> NoDup ws.*1 -> install (wput j s x ws) V t = fset s x (install ws V) t.
Proof.
  unfold wput. case_decide as Hl.
  - intros [Hj|[-> _]] Hnd; [|lia]. revert j Hl Hj. induction ws as [|[u y] ws IH]; intros j Hl Hj; [cbn in Hl; lia|].
    cbn in Hnd. apply NoDup_cons in Hnd as [Hu Hnd]. destruct j as [|j]; cbn in Hl, Hj |- *.
    + injection Hj as ->. by rewrite fset_fset.
    + assert (Hus : u <> s) by (intros ->; apply Hu; eauto using list_elem_of_lookup_2).
      destruct (decide (t = u)) as [->|Ht]; [by rewrite fset_at, fset_ne, fset_at by done|].
      rewrite fset_ne, IH by (done || lia). destruct (decide (t = s)) as [->|Hts]; [by rewrite !fset_at|].
      by rewrite !fset_ne by done.
  - intros [Hj%lookup_lt_Some|[_ Hn]] _; [rewrite length_fmap in Hj; lia|].
    rewrite <- (install_fset ws V s x t Hn). clear. induction ws as [|[u y] ws IH]; cbn; [done|].
    destruct (decide (t = u)) as [->|Ht]; [by rewrite !fset_at|]. by rewrite !fset_ne.
Qed.

(** The in-memory header after [log_write]. *)
Definition lput (j : nat) (s : Z) (l : logstate) : logstate :=
  let l' := lgs_sector (<[j := s]> (lh_sector l)) l in
  if Z.of_nat j =? lh_n l then lgs_n (lh_n l + 1) l' else l'.

Lemma logk_lput l ws j s x :
  logk l ws.*1 -> slot_of ws j s -> (length ws < 10)%nat -> logk (lput j s l) (wput j s x ws).*1.
Proof.
  intros [L1 L2 L3 L4 L5 L6] Hj Hlt. rewrite wput_fst by done. unfold lput. rewrite length_fmap in L4.
  assert (Hins : forall i t, ws.*1 !! i = Some t -> <[j := s]> (lh_sector l) !! i = Some t).
  { intros i t Hi. destruct (decide (i = j)) as [->|Hne].
    - rewrite list_lookup_insert_eq by (rewrite L6; apply lookup_lt_Some in Hi; rewrite length_fmap in Hi; lia).
      destruct Hj as [Hj|[-> _]]; [congruence|]. apply lookup_lt_Some in Hi. rewrite length_fmap in Hi. lia.
    - rewrite list_lookup_insert_ne by done. by apply L5. }
  case_decide as Hl.
  - rewrite (proj2 (Z.eqb_neq _ _)) by lia.
    split; cbn; try done; [by rewrite length_fmap|by rewrite length_insert].
  - assert (j = length ws) as ->.
    { destruct Hj as [Hj%lookup_lt_Some|[-> _]]; [rewrite length_fmap in Hj; lia|done]. }
    rewrite L4, Z.eqb_refl. split; cbn; try done.
    + rewrite length_app, length_fmap. cbn. lia.
    + intros i t [Hi|[Hi1 Hi2]]%lookup_app_Some; [by apply Hins|]. rewrite length_fmap in *.
      destruct (i - length ws)%nat eqn:E; [|done]. injection Hi2 as <-.
      assert (i = length ws) as -> by lia. apply list_lookup_insert_eq. lia.
    + by rewrite length_insert.
Qed.

Lemma wp_lh_set k j s Q :
  (j < 10)%nat -> Q tt (ks_klog (lgs_sector (<[j := s]> (lh_sector (klog k))) (klog k)) k) ->
  wp (lh_set (Z.of_nat j) s) k Q.
Proof.
  intros Hj HQ. unfold lh_set. apply wp_bind, wp_gets.
  rewrite (proj2 (Z.ltb_ge _ _)), (proj2 (Z.leb_gt LOGSIZE _)) by (unfold LOGSIZE; lia).
  rewrite Nat2Z.id. by apply wp_modify.
Qed.

(** The state after [log_write]: slot [j] of the log holds the block. *)
Definition logged (k : kstate) (V : Z -> block) (L : list (nat * Z)) (D : list Z) (b : nat) (s : Z)
    (ws : list (Z * block)) (k' : kstate) : Prop :=
  exists j D', slot_of ws j s /\ bfr k k' /\ klog k' = lput j s (klog k) /\
    dsk k' = d_write (start + 1 + Z.of_nat j) (V s) (dsk k) /\
    cache k' (fset (start + 1 + Z.of_nat j) (V s) V) ((b, s) :: L) D' /\
    (forall t, t ∈ D' <-> t = s \/ t ∈ D).

Lemma logged_spec k V L D b s ws j k6 :
  slot_of ws j s -> NoDup D -> klog k6 = lput j s (klog k) -> bfr k k6 ->
  dsk k6 = d_write (start + 1 + Z.of_nat j) (V s) (dsk k) ->
  cache k6 (fset (start + 1 + Z.of_nat j) (V s) V) ((b, s) :: L) D ->
  wp (bufupd b (fun x => bs_flags (Z.lor (b_flags x) B_DIRTY) x)) k6
    (fun _ k' => logged k V L D b s ws k').
Proof.
  intros Hj ND E1 E2 E3 Hc6. set (D' := if decide (s ∈ D) then D else s :: D).
  assert (HD' : forall t, t ∈ D' <-> t = s \/ t ∈ D).
  { intros t. unfold D'. case_decide; [|apply elem_of_cons].
    split; [by right|]. by intros [->|]. }
  wp_use (wp_mark k6 _ _ D b s D' Hc6); [by left|apply HD'; by left|intros t Ht; rewrite HD'; tauto| |].
  - unfold D'. case_decide; [done|]. by apply NoDup_cons.
  - intros [] k7 (bs7 & -> & Hc7). exists j, D'. split_and!; try done.
    eapply bfr_trans; [exact E2|]. by destruct k6.
Qed.

Lemma log_write_spec k V L D b s ws :
  cache k V ((b, s) :: L) D -> (forall t, t ∈ L.*2 -> t < start) -> unlocked k -> logk (klog k) ws.*1 -> lg_busy (klog k) = true ->
  layout (dsk k) start size -> wset start size ws -> (forall t, t ∈ D <-> t ∈ ws.*1) ->
  2 <= s < start -> Z.of_nat (length ws) < size - 1 -> (S (length L) + length D < nbuf)%nat ->
  wp (log_write b) k (fun _ k' => logged k V L D b s ws k').
Proof.
  intros Hc HL Hu Lk Bz Ly W Dt Hs Hfit HlD. pose proof Ly as [Y1 Y2 Y3 Y4].
  unfold log_write. apply wp_bind, wp_gets. rewrite (lk_n _ _ Lk), (lk_size _ _ Lk), length_fmap, Bz.
  rewrite (proj2 (Z.leb_gt LOGSIZE _)), (proj2 (Z.leb_gt (size - 1) _)) by (unfold LOGSIZE; lia). cbn [orb negb].
  destruct (held_buf _ _ _ _ b s Hc) as (x & Hx & _ & Dx & Sx & _); [by left|].
  apply wp_bind, (wp_bufget b x); [done|]. rewrite Dx, Sx. apply wp_bind. rewrite Nat2Z.id.
  wp_use (absorb_spec k ws.*1 s (length ws) 0 Lk); [by apply (sectors_of (dsk k))|by rewrite length_fmap|lia|].
  intros i k0 [-> (j & -> & Hslot)]. rewrite length_fmap in Hslot. change (slot_of ws j s) in Hslot.
  assert (Hj : (j <= length ws)%nat).
  { destruct Hslot as [Hj%lookup_lt_Some|[-> _]]; [rewrite length_fmap in Hj|]; lia. }
  rewrite s32_small by lia. apply wp_bind, wp_lh_set; [lia|].
  set (k1 := ks_klog _ k). set (ls := start + 1 + Z.of_nat j) in *. rewrite (lk_start _ _ Lk).
  assert (Hc1 : cache k1 V ((b, s) :: L) D) by exact Hc.
  replace (start + Z.of_nat j + 1) with ls by (unfold ls; lia). rewrite u32_small by (unfold ls; lia).
  apply wp_bind. wp_use (wp_bread k1 V _ D ls Hc1 Hu); [cbn; unfold ls; lia| | |].
  { cbn. rewrite elem_of_cons. unfold ls. intros [?|Hin%HL]; lia. }
  { left. exact HlD. }
  intros lb k2 (bs2 & -> & Hc2). apply wp_bind.
  apply (wp_bdata _ V ((lb, ls) :: (b, s) :: L) D b s); [done|right; by left|]. apply wp_bind.
  assert (Hlen : length (V s) = 512%nat) by (destruct Hc as (_ & C & _); apply (cs_len _ _ _ _ _ C)).
  wp_use (wp_bset _ V _ D lb ls (fun _ => V s) Hc2); [by left|done|].
  intros [] k3 (bs3 & -> & Hc3). apply wp_bind. wp_use (wp_bwrite _ _ _ D lb ls Hc3); [by left|cbn; unfold ls; lia|].
  rewrite fset_at, filter_ne by (rewrite Dt; intros Hin%(wt_home _ _ _ W); unfold ls in Hin; lia).
  intros [] k4 (bs4 & -> & Hc4). apply wp_bind. wp_use (wp_brelse _ _ _ D lb ls Hc4); [exact Hu| |].
  { right. cbn [dsk ks_bufs ks_dsk]. by rewrite d_read_write, Z.eqb_refl, fset_at. }
  intros [] k5 (bs5 & -> & Hc5). apply wp_bind, wp_gets, wp_bind, wp_when.
  cbn [klog ks_procs ks_bufs ks_dsk k1 ks_klog lh_n lgs_sector].
  pose proof (logged_spec k V L D b s ws j) as Hmark. unfold lput in Hmark.
  destruct (Z.of_nat j =? lh_n (klog k)); [apply wp_modify|]; apply Hmark; try done; apply Hc.
Qed.

(** ** Transactions *)

(** What the file system does to a block: read it, change it, log it. *)
Definition update (u : Z * (block -> block)) : KM unit :=
  let! b := bread 1 (fst u) in
  bset b (snd u) ;;;
  log_write b ;;;
  brelse b.

Fixpoint updates (us : list (Z * (block -> block))) : KM unit :=
  match us with
  | [] => ret tt
  | u :: us => update u ;;; updates us
  end.

Definition apply_update (u : Z * (block -> block)) (V : Z -> block) : Z -> block :=
  fset (fst u) (snd u (V (fst u))) V.
Definition apply_updates (us : list (Z * (block -> block))) (V : Z -> block) : Z -> block :=
  foldl (fun V u => apply_update u V) V us.

Definition update_ok (u : Z * (block -> block)) : Prop :=
  2 <= fst u < start /\ forall x, length x = 512%nat -> length (snd u x) = 512%nat.

Lemma uncommitted_slot old d j x :
  0 <= j -> length x = 512%nat -> uncommitted start old d ->
  uncommitted start old (d_write (start + 1 + j) x d).
Proof.
  intros Hj Hx (Hb & Hh & Hv). split; [by apply blocks_write|]. split.
  - by rewrite d_read_write, (proj2 (Z.eqb_neq _ _)) by lia.
  - intros s Hs. rewrite d_read_write, (proj2 (Z.eqb_neq _ _)) by lia. by apply Hv.
Qed.

Lemma txi_logged b L k old ws V D s x j k' D' :
  txh ((b, s) :: L) k old ws V D -> slot_of ws j s -> 2 <= s < start -> length x = 512%nat ->
  Z.of_nat (length ws) < size - 1 -> bfr k k' -> klog k' = lput j s (klog k) ->
  dsk k' = d_write (start + 1 + Z.of_nat j) x (dsk k) ->
  cache k' (fset (start + 1 + Z.of_nat j) x (fset s x V)) L D' ->
  (forall t, t ∈ D' <-> t = s \/ t ∈ D) ->
  txh L k' old (wput j s x ws) (fset (start + 1 + Z.of_nat j) x (fset s x V)) D'.
Proof.
  intros [Hc Hh Hu Lk Bz Ly W Sl Un Dt Cu] Hj Hs Hx Hfit Fr Ek Ed Hc' HD'. pose proof Ly as [Y1 Y2 Y3 Y4].
  assert (Hle : (j <= length ws)%nat).
  { destruct Hj as [Hj%lookup_lt_Some|[-> _]]; [rewrite length_fmap in Hj|]; lia. }
  split; try done.
  - intros t Ht. destruct (Hh t) as [H1 H2]; [by right|]. split; [done|]. rewrite HD'.
    destruct (decide (t = s)) as [->|Hne]; [by left; left|]. destruct H2 as [H2|H2]; [by left; right|]. right.
    rewrite !fset_ne, Ed, d_read_write, (proj2 (Z.eqb_neq _ _)) by lia. done.
  - by apply (bfr_unlocked _ _ Fr).
  - rewrite Ek. apply logk_lput; [done|done|lia].
  - rewrite Ek. unfold lput. by destruct (_ =? _).
  - rewrite Ed. by apply layout_write.
  - by apply wput_wset.
  - intros i t y Hi. rewrite wput_lookup in Hi by done. rewrite Ed, d_read_write.
    case_decide as E; [subst; injection Hi as _ <-; by rewrite Z.eqb_refl|].
    rewrite (proj2 (Z.eqb_neq _ _)) by lia. by apply (Sl i t).
  - rewrite Ed. apply uncommitted_slot; [lia|done|done].
  - intros t. rewrite HD', Dt, wput_fst by done. case_decide as E.
    + split; [|by right]. intros [->|]; [|done]. destruct Hj as [Hj|[-> _]]; [|lia].
      eauto using list_elem_of_lookup_2.
    + rewrite elem_of_app, list_elem_of_singleton. tauto.
  - intros t Ht. rewrite fset_ne by lia. rewrite wput_install by (done || apply W). unfold fset.
    destruct (t =? s); [done|]. by apply Cu.
Qed.

(** Changing and logging a block that is held. *)
Lemma update_held b s L k old ws V D f :
  txh ((b, s) :: L) k old ws V D -> 2 <= s < start -> length (f (V s)) = 512%nat ->
  Z.of_nat (length ws) < size - 1 -> (S (length L) + length ws < nbuf)%nat ->
  wp (bset b f ;;; log_write b ;;; brelse b) k (fun _ k' => exists ws' V' D', bfr k k' /\
    txh L k' old ws' V' D' /\ (forall t, 0 <= t < start -> V' t = fset s (f (V s)) V t) /\
    hist (uncommitted start old) (dsk k) (dsk k') /\ (length ws' <= S (length ws))%nat /\
    forall t, t ∈ ws'.*1 -> t = s \/ t ∈ ws.*1).
Proof.
  intros T Hs Hf Hfit Hbuf. pose proof (dirty_length _ _ _ _ _ _ T) as HlD.
  pose proof T as [Hc Hh Hu Lk Bz Ly W Sl Un Dt Cu].
  pose proof Ly as [Y1 Y2 Y3 Y4].
  apply wp_bind. wp_use (wp_bset _ V _ D b s f Hc); [by left|done|].
  intros [] k2 (bs2 & -> & Hc2). apply wp_bind.
  wp_use (log_write_spec _ _ L D b s ws Hc2); try done; [intros t Ht; by apply Hh; right|lia|].
  intros [] k3 (j & D' & Hj & Fr3 & Ek3 & Ed3 & Hc3 & HD'). rewrite fset_at in *. cbn [klog dsk ks_bufs] in Ek3, Ed3.
  assert (Fr : bfr k k3) by (eapply bfr_trans; [|exact Fr3]; by destruct k).
  wp_use (wp_brelse k3 _ L D' b s Hc3); [by apply (bfr_unlocked _ _ Fr)|left; apply HD'; by left|].
  intros [] k4 (bs4 & E4 & Hc4). set (V' := fset (start + 1 + Z.of_nat j) (f (V s)) (fset s (f (V s)) V)) in *.
  exists (wput j s (f (V s)) ws), V', D'.
  assert (Fr4 : bfr k k4) by (eapply bfr_trans; [exact Fr|]; rewrite E4; by destruct k3).
  assert (Ed4 : dsk k4 = d_write (start + 1 + Z.of_nat j) (f (V s)) (dsk k)) by (by rewrite E4).
  split_and!; [done| | | | |].
  - apply (txi_logged b L k old ws V D); try done; by rewrite E4.
  - intros t Ht. unfold V'. by rewrite fset_ne by lia.
  - rewrite Ed4. apply hist_write; [done|]. apply uncommitted_slot; [lia|done|done].
  - unfold wput. case_decide; [rewrite length_insert|rewrite length_app; cbn]; lia.
  - intros t Ht. unfold wput in Ht. case_decide.
    + rewrite list_fmap_insert in Ht. apply list_elem_of_lookup in Ht as (i & Hi).
      apply list_lookup_insert_Some in Hi as [(-> & <- & _)|[_ Hi]]; [by left|].
      right. by eapply list_elem_of_lookup_2.
    + rewrite fmap_app in Ht. apply elem_of_app in Ht as [Ht| ->%list_elem_of_singleton]; [by right|by left].
Qed.

(** Reading a block into a buffer that is then held. *)
Lemma read_held s L k old ws V D :
  txh L k old ws V D -> s < start -> s ∉ L.*2 -> (length L + length ws < nbuf)%nat ->
  wp (bread 1 s) k (fun b k' => exists bs, k' = ks_bufs bs k /\ txh ((b, s) :: L) k' old ws V D).
Proof.
  intros T Hs Hn Hbuf. pose proof (dirty_length _ _ _ _ _ _ T) as HlD.
  pose proof T as [Hc Hh Hu Lk Bz Ly W Sl Un Dt Cu]. pose proof Ly as [Y1 Y2 Y3 Y4].
  wp_use (wp_bread k V L D s Hc Hu); [lia|done|left; lia|]. intros b k' (bs & -> & Hc'). exists bs. split; [done|].
  split; try done. cbn. intros t [->|Ht]%elem_of_cons; [|by apply Hh]. split; [done|].
  destruct (decide (s ∈ D)); [by left|]. right. destruct Hc as (_ & C & _). by apply (cs_disk _ _ _ _ _ C).
Qed.

(** Releasing a block that was only looked at. *)
Lemma release_held b s L k old ws V D :
  txh ((b, s) :: L) k old ws V D ->
  wp (brelse b) k (fun _ k' => bfr k k' /\ woken (procs k) (procs k') /\ dsk k' = dsk k /\ txh L k' old ws V D).
Proof.
  intros [Hc Hh Hu Lk Bz Ly W Sl Un Dt Cu].
  wp_use (wp_brelse k V L D b s Hc Hu); [by apply (Hh s); left|]. intros [] k' (bs & -> & Hc').
  split; [by destruct k|]. split; [apply woken_wake|]. split; [done|]. split; try done. intros t Ht. apply Hh. by right.
Qed.

Lemma update_spec k old ws V D u :
  txi k old ws V D -> update_ok u -> Z.of_nat (length ws) < size - 1 ->
  wp (update u) k (fun _ k' => exists ws' V' D', bfr k k' /\ txi k' old ws' V' D' /\
    (forall t, 0 <= t < start -> V' t = apply_update u V t) /\
    hist (uncommitted start old) (dsk k) (dsk k') /\ (length ws' <= S (length ws))%nat).
Proof.
  intros T Hok Hfit. pose proof T as [Hc _ Hu _ _ Ly W _ _ _ _]. destruct u as [s f]. pose proof Hok as [Hs Hf].
  cbn [fst snd] in *. pose proof Ly as [Y1 Y2 Y3 Y4]. unfold update. cbn [fst snd].
  apply wp_bind. wp_use (read_held s [] k old ws V D T); [lia|apply not_elem_of_nil|unfold nbuf, NBUF; cbn; lia|].
  intros b k1 (bs1 & -> & T1). wp_use (update_held b s [] _ old ws V D f T1 Hs); [|done|unfold nbuf, NBUF; cbn; lia|].
  { apply Hf. destruct Hc as (_ & C & _). apply (cs_len _ _ _ _ _ C). }
  intros [] k4 (ws' & V' & D' & Fr & ? & ? & ? & ? & _). exists ws', V', D'. split_and!; try done.
Qed.

Lemma apply_updates_ext us : forall V W,
  Forall update_ok us -> (forall t, 0 <= t < start -> V t = W t) ->
  forall t, 0 <= t < start -> apply_updates us V t = apply_updates us W t.
Proof.
  induction us as [|[s f] us IH]; intros V W Hok E t Ht; [by apply E|]. apply Forall_cons in Hok as [[Hs _] Hok].
  cbn in Hs |- *. apply IH; try done. intros r Hr. unfold apply_update. cbn.
  rewrite (E s) by lia. unfold fset. destruct (r =? s); [done|]. by apply E.
Qed.

Lemma updates_spec us : forall k old ws V D,
  txi k old ws V D -> Forall update_ok us -> Z.of_nat (length ws + length us) <= size - 1 ->
  wp (updates us) k (fun _ k' => exists ws' V' D', bfr k k' /\ txi k' old ws' V' D' /\
    (forall t, 0 <= t < start -> V' t = apply_updates us V t) /\
    hist (uncommitted start old) (dsk k) (dsk k')).
Proof.
  induction us as [|u us IH]; intros k old ws V D T Hok Hfit; cbn [updates].
  { apply wp_ret. exists ws, V, D. split_and!; [apply bfr_refl|done|done|apply hist_refl, T]. }
  apply Forall_cons in Hok as [Hu Hok]. cbn [length] in Hfit.
  apply wp_bind. wp_use (update_spec k old ws V D u T Hu); [lia|].
  intros [] k1 (ws1 & V1 & D1 & Fr1 & T1 & E1 & H1 & Hl1).
  wp_use (IH k1 old ws1 V1 D1 T1 Hok); [lia|].
  intros [] k2 (ws2 & V2 & D2 & Fr2 & T2 & E2 & H2). exists ws2, V2, D2. split_and!; try done.
  - by eapply bfr_trans.
  - intros t Ht. rewrite E2 by done. by apply (apply_updates_ext us V1 (apply_update u V)).
  - by eapply hist_trans.
Qed.

(** Between transactions: the cache is clean, the log is empty and closed. *)
Record quiet (k : kstate) : Prop := {
  qt_cache : cache k (d_read (dsk k)) [] [];
  qt_unl : unlocked k;
  qt_log : logk (klog k) [];
  qt_idle : lg_busy (klog k) = false;
  qt_lay : layout (dsk k) start size;
  qt_hdr : hdr_is (d_read (dsk k) start) []
}.

Lemma wset_nil d : layout d start size -> wset start size [].
Proof.
  intros [Y1 Y2 Y3 Y4]. split; [apply NoDup_nil_2|..].
  - intros s Hs. by apply not_elem_of_nil in Hs.
  - intros s x Hs. by apply not_elem_of_nil in Hs.
  - cbn. lia.
Qed.

Lemma begin_spec k Q :
  quiet k -> (forall k', bfr k k' -> dsk k' = dsk k ->
    txi k' (d_read (dsk k)) [] (d_read (dsk k)) [] -> Q tt k') -> wp begin_trans k Q.
Proof.
  intros [Qc Qu Ql Qi Qy Qh] HQ. destruct Qu as (U1 & U2 & U3). unfold begin_trans.
  apply wp_bind, wp_acquire; [done|]. change (set_lock LkLog true k) with (ks_lg_lock true k).
  apply wp_bind.
  assert (Hb : begin_loop wakeups (ks_lg_lock true k) = Ok tt (ks_lg_lock true k)).
  { destruct wakeups; cbn [begin_loop]; unfold bind, gets; cbn [obind klog ks_lg_lock]; by rewrite Qi. }
  unfold wp at 1. rewrite Hb. apply wp_bind, wp_modify, wp_release; [done|]. apply HQ.
  - destruct k. cbn in U3. by subst.
  - done.
  - split; try done.
    + intros t Ht. by apply not_elem_of_nil in Ht.
    + destruct Ql. by split.
    + by apply (wset_nil (dsk k)).
    + split; [|done]. destruct Qc as (_ & C & _). intros s. apply (cs_len _ _ _ _ _ C).
Qed.

(** Any body that keeps a transaction going commits. *)
Definition in_trans {A} (m : KM A) : KM A :=
  begin_trans ;;;
  let! a := m in
  commit_trans ;;;
  ret a.

(** What a commit of the writes [ws] leaves behind. *)
Definition commits (k : kstate) (ws : list (Z * block)) (k' : kstate) : Prop :=
  wset start size ws /\ quiet k' /\ hist (crash_ok start (d_read (dsk k)) ws) (dsk k) (dsk k') /\
  installed start (d_read (dsk k)) ws (dsk k').

Lemma in_trans_spec {A} (m : KM A) k (R : A -> kstate -> (Z -> block) -> Prop) :
  let old := d_read (dsk k) in
  quiet k ->
  (forall k1, bfr k k1 -> dsk k1 = dsk k -> txi k1 old [] old [] -> wp m k1 (fun a k2 => exists ws V D,
    txi k2 old ws V D /\ hist (uncommitted start old) (dsk k) (dsk k2) /\ R a k2 V)) ->
  wp (in_trans m) k (fun a k' => exists ws V k2, commits k ws k' /\ bfr k2 k' /\ R a k2 V /\
    forall s, 0 <= s < start -> V s = install ws old s).
Proof.
  intros old Hq Hm. unfold in_trans. apply wp_bind, begin_spec; [done|]. intros k1 Fr1 Ed1 T1.
  apply wp_bind. wp_use (Hm k1 Fr1 Ed1 T1). intros a k2 (ws & V & D & T2 & H2 & HR).
  apply wp_bind. wp_use (commit_spec k2 _ ws V D T2).
  intros [] k3 (Fr3 & L3 & B3 & U3 & H3 & I3 & C3). apply wp_ret. exists ws, V, k2.
  split_and!; [|done|done|by apply (tx_cur _ _ _ _ _ _ T2)]. split_and!; try done.
  - apply T2.
  - split; try done; [|apply I3]. destruct (qt_lay _ Hq) as [Y1 Y2 Y3 Y4].
    pose proof (hist_size _ _ _ H3) as S3. pose proof (hist_size _ _ _ H2) as S2. split; lia.
  - eapply hist_trans; [|exact H3]. eapply hist_mono; [|exact H2]. intros d Hd. by left.
Qed.

(** A transaction of block updates. *)
Definition transaction (us : list (Z * (block -> block))) : KM unit := in_trans (updates us).

Lemma transaction_spec k us :
  quiet k -> Forall update_ok us -> Z.of_nat (length us) <= size - 1 ->
  wp (transaction us) k (fun _ k' => exists ws, commits k ws k' /\
    forall s, 0 <= s < start -> install ws (d_read (dsk k)) s = apply_updates us (d_read (dsk k)) s).
Proof.
  intros Hq Hok Hfit. unfold transaction. eapply wp_mono; [apply (in_trans_spec (updates us) k (fun _ _ V =>
    forall s, 0 <= s < start -> V s = apply_updates us (d_read (dsk k)) s) Hq)|].
  - intros k1 Fr1 Ed1 T1. wp_use (updates_spec us k1 _ [] _ [] T1 Hok); [cbn; lia|].
    intros [] k2 (ws & V & D & Fr2 & T2 & E2 & H2). exists ws, V, D. by rewrite <- Ed1 at 3.
  - intros [] k' (ws & V & k2 & Hc & _ & HR & E). exists ws. split; [done|]. intros s Hs. rewrite <- E, HR by done. done.
Qed.

End LogFacts.

Abbreviation txi start size := (txh start size []).
