(* ===== verification/LogProps.v ===== *)
(** * The log across crashes

    Recovery from every state a crash can leave, and the theorem that a
    transaction is atomic: after any number of crashes, recovery shows all of
    its writes or none. *)

From S2P Require Import Prelude Layout Mem Kalloc Vm State Sched Bytes Bio BioFacts BioProps Log.
From S2P Require Import LogFacts.

Open Scope Z_scope.

Section Recovery.
Context `{Wakeups}.
Variables (start size : Z).

(** ** Reading the header *)

(** The in-memory header up to entry [i]. *)
Definition logk_upto (l : logstate) (ss : list Z) (i : nat) : Prop :=
  lg_start l = start /\ lg_size l = size /\ lg_dev l = 1 /\ lh_n l = Z.of_nat (length ss) /\
  (forall j s, ss !! j = Some s -> (j < i)%nat -> lh_sector l !! j = Some s) /\
  length (lh_sector l) = 10%nat.

Lemma read_sectors_spec ss h n : forall i k,
  hdr_is h ss -> sectors_ok ss -> (i + n = length ss)%nat -> logk_upto (klog k) ss i ->
  wp (read_sectors h (Z.of_nat i) n) k (fun _ k' => exists l, k' = ks_klog l k /\
    logk start size l ss /\ lg_busy l = lg_busy (klog k)).
Proof.
  induction n as [|n IH]; intros i k Hh Hs Hin (L1 & L2 & L3 & L4 & L5 & L6); cbn [read_sectors].
  - apply wp_ret. exists (klog k). split; [by destruct k|]. split; [|done]. split; try done.
    intros j s Hj. apply L5; [done|]. pose proof (lookup_lt_Some _ _ _ Hj). lia.
  - destruct (lookup_lt_is_Some_2 ss i) as [s Hi]; [lia|]. destruct Hs as [Hl Hs].
    pose proof (Hs s (list_elem_of_lookup_2 _ _ _ Hi)) as Hsr.
    rewrite (proj2 Hh i s Hi), s32_small by lia. apply wp_bind, wp_lh_set; [lia|].
    replace (Z.of_nat i + 1) with (Z.of_nat (S i)) by lia.
    wp_use (IH (S i)); [done|done|lia| |].
    + split_and!; try done; cbn.
      * intros j t Hj Hlt. destruct (decide (j = i)) as [->|Hne].
        -- rewrite list_lookup_insert_eq by lia. congruence.
        -- rewrite list_lookup_insert_ne by done. apply L5; [done|lia].
      * by rewrite length_insert.
    + intros [] k' (l & -> & Lk & Bz). exists l. done.
Qed.

Lemma read_head_spec k V ss :
  cache k V [] [] -> unlocked k -> layout (dsk k) start size -> hdr_is (V start) ss -> sectors_ok ss ->
  lg_start (klog k) = start -> lg_size (klog k) = size -> lg_dev (klog k) = 1 ->
  length (lh_sector (klog k)) = 10%nat ->
  wp read_head k (fun _ k' => bfr k k' /\ dsk k' = dsk k /\ logk start size (klog k') ss /\
    lg_busy (klog k') = lg_busy (klog k) /\ cache k' V [] []).
Proof.
  intros Hc Hu [Y1 Y2 Y3 Y4] Hh Hs L1 L2 L3 L4. unfold read_head. apply wp_bind, wp_gets, wp_bind.
  rewrite L1, L3, u32_small by lia.
  wp_use (wp_bread k V [] [] start Hc Hu); [lia|apply not_elem_of_nil|left; cbn; unfold nbuf, NBUF; lia|].
  intros b k1 (bs1 & -> & Hc1). apply wp_bind, (wp_bdata _ V [(b, start)] [] b start); [done|by left|].
  apply wp_bind, wp_modify, wp_bind, wp_gets, wp_bind. cbn [klog ks_bufs ks_klog lh_n lgs_n].
  rewrite (proj1 Hh), s32_small by (destruct Hs; lia). rewrite Nat2Z.id.
  wp_use (read_sectors_spec ss (V start) (length ss) 0); [done|done|done| |].
  { split_and!; try done. cbn. lia. }
  intros [] k2 (l & -> & Lk & Bz).
  wp_use (wp_brelse (ks_klog l (ks_klog (lgs_n (Z.of_nat (length ss)) (klog k)) (ks_bufs bs1 k)))
    V [] [] b start Hc1); [exact Hu| |].
  { right. destruct Hc as (_ & C & _). apply (cs_disk _ _ _ _ _ C); apply not_elem_of_nil. }
  intros [] k3 (bs3 & -> & Hc3). done.
Qed.

(** ** Recovery *)

Lemma crash_ok_nil V d : crash_ok start V [] d -> blocks d /\ hdr_is (d_read d start) [] /\ home start d V.
Proof.
  intros [(H0 & H1 & H2)|[(H0 & H1 & _ & H2)|(H0 & H1 & H2)]]; split_and!; try done.
  intros s Hs. by destruct (H2 s Hs).
Qed.

Definition recovered (old : Z -> block) (ws : list (Z * block)) (k k' : kstate) : Prop :=
  bfr k k' /\ quiet start size k' /\ hist (crash_ok start old ws) (dsk k) (dsk k') /\
  (home start (dsk k') old \/ home start (dsk k') (install ws old)).

Section Recover.
Variables (k : kstate).
Hypothesis Hc : cache k (d_read (dsk k)) [] [].
Hypothesis Hu : unlocked k.
Hypothesis Ly : layout (dsk k) start size.
Hypothesis L1 : lg_start (klog k) = start.
Hypothesis L2 : lg_size (klog k) = size.
Hypothesis L3 : lg_dev (klog k) = 1.
Hypothesis L4 : length (lh_sector (klog k)) = 10%nat.
Hypothesis L5 : lg_busy (klog k) = false.

(** A committed transaction is copied home. *)
Lemma recover_run old ws :
  wset start size ws -> committed start old ws (dsk k) ->
  wp recover_from_log k (fun _ k' => bfr k k' /\ quiet start size k' /\
    hist (crash_ok start old ws) (dsk k) (dsk k') /\ installed start old ws (dsk k')).
Proof.
  intros W Cm. pose proof Cm as (_ & Hh & Sl & _). unfold recover_from_log. apply wp_bind.
  wp_use (read_head_spec k _ ws.*1 Hc Hu Ly Hh); try done; [by apply (sectors_of start size (dsk k))|].
  intros [] k1 (Fr1 & Ed1 & Lk & Bz & Hc1). assert (U1 : unlocked k1) by (by apply (bfr_unlocked k)).
  wp_use (apply_log_spec start size ws old k1 _ [] W Hc1 U1 Lk); try (rewrite ?Ed1; done).
  - intros t Ht. by apply not_elem_of_nil in Ht.
  - cbn. unfold nbuf, NBUF. lia.
  - right. cbn. unfold nbuf, NBUF. lia.
  - intros [] k2 (Fr2 & L2' & B2 & H2 & I2 & C2). rewrite Ed1 in H2.
    assert (Fr : bfr k k2) by (by eapply bfr_trans).
    assert (Ly2 : layout (dsk k2) start size).
    { pose proof (hist_size _ _ _ H2) as Hs. destruct Ly. by split; rewrite ?Hs. }
    split_and!; try done. split; try done; [by apply (bfr_unlocked k)|congruence|apply I2].
Qed.

(** An empty header: nothing is copied. *)
Lemma recover_empty old ws :
  blocks (dsk k) -> hdr_is (d_read (dsk k) start) [] ->
  (forall d, blocks d -> hdr_is (d_read d start) [] -> home start d (d_read (dsk k)) -> crash_ok start old ws d) ->
  (home start (dsk k) old \/ home start (dsk k) (install ws old)) ->
  wp recover_from_log k (fun _ k' => recovered old ws k k').
Proof.
  intros Hb Hh Hd Hhm. wp_use (recover_run (d_read (dsk k)) [] (wset_nil start size _ Ly)).
  { split; [done|]. split; [done|]. split; [done|]. intros s Hs. by left. }
  intros [] k' (Fr & Q & Hi & _). split_and!; try done.
  - eapply hist_mono; [|exact Hi]. intros d Hcd. apply crash_ok_nil in Hcd as (? & ? & ?). by apply Hd.
  - destruct (crash_ok_nil _ _ (hist_last _ _ _ Hi)) as (_ & _ & Hm).
    destruct Hhm as [Hm'|Hm']; [left|right]; intros s Hs; rewrite Hm by done; by apply Hm'.
Qed.

Lemma recover_spec old ws :
  wset start size ws -> crash_ok start old ws (dsk k) ->
  wp recover_from_log k (fun _ k' => recovered old ws k k').
Proof.
  intros W [(Hb & Hh & Hm)|[Cm|(Hb & Hh & Hm)]].
  - apply recover_empty; [done|done| |by left]. intros d Hd0 Hd1 Hd2. left. do 2 (split; [done|]).
    intros s Hs. rewrite Hd2 by done. by apply Hm.
  - wp_use (recover_run old ws W Cm). intros [] k' (Fr & Q & Hi & I2). split_and!; try done. right. apply I2.
  - apply recover_empty; [done|done| |by right]. intros d Hd0 Hd1 Hd2. right. right. do 2 (split; [done|]).
    intros s Hs. rewrite Hd2 by done. by apply Hm.
Qed.
End Recover.

(** ** Booting *)

(** A machine that was just switched on, with the disk [d]. *)
Record fresh (k : kstate) (d : disk) : Prop := {
  fs_dsk : dsk k = d;
  fs_bufs : bufs k = replicate (S nbuf) buf0;
  fs_unl : unlocked k;
  fs_log : length (lh_sector (klog k)) = 10%nat /\ lg_busy (klog k) = false
}.

(** [main] initialises the cache; the first process runs [initlog]. *)
Definition boot : KM unit := binit ;;; initlog.

(** The super block places the log. *)
Definition placed (V : Z -> block) : Prop :=
  get32 0 (V 1) = start + size /\ get32 12 (V 1) = size.

Lemma crash_ok_sb old ws d : 2 <= start -> wset start size ws -> crash_ok start old ws d -> d_read d 1 = old 1.
Proof.
  intros Hs W Hd. assert (E : install ws old 1 = old 1).
  { apply install_notin. intros Hin. pose proof (wt_home _ _ _ W 1 Hin). lia. }
  destruct Hd as [(_ & _ & Hm)|[(_ & _ & _ & Hm)|(_ & _ & Hm)]].
  - apply Hm. lia.
  - destruct (Hm 1) as [->| ->]; [lia|done|done].
  - rewrite Hm by lia. done.
Qed.

Lemma boot_spec old ws k d :
  fresh k d -> layout d start size -> placed old -> wset start size ws -> crash_ok start old ws d ->
  wp boot k (fun _ k' => quiet start size k' /\ hist (crash_ok start old ws) d (dsk k') /\
    (home start (dsk k') old \/ home start (dsk k') (install ws old))).
Proof.
  intros [F1 F2 F3 [F4 F5]] Ly [P1 P2] W Hok. unfold boot. apply wp_bind.
  unfold wp at 1. rewrite binit_run by done. pose proof F3 as (U1 & U2 & U3).
  replace (ks_bc_lock false k) with k by (destruct k; cbn in U1; by subst). subst d.
  set (k0 := ks_bufs booted k).
  assert (Hb : blocks (dsk k)) by (by destruct Hok as [[]|[[]|[]]]).
  assert (Hc : cache k0 (d_read (dsk k)) [] []) by (by apply (booted_cache k0)).
  unfold initlog. change (BSIZE <=? 4 + 4 * LOGSIZE) with false. cbv iota.
  apply wp_bind, wp_modify.
  replace (set_lock LkLog false k0) with k0 by (unfold k0; destruct k; cbn in U3; by subst).
  apply wp_bind. unfold readsb. pose proof Ly as [Y1 Y2 Y3 Y4]. apply wp_bind.
  wp_use (wp_bread k0 _ [] [] 1 Hc F3); [cbn; lia|apply not_elem_of_nil|left; cbn; unfold nbuf, NBUF; lia|].
  intros b k1 (bs1 & -> & Hc1). apply wp_bind, (wp_bdata _ (d_read (dsk k)) [(b, 1)] [] b 1); [done|by left|].
  apply wp_bind. wp_use (wp_brelse _ _ [] [] b 1 Hc1); [exact F3|by right|].
  intros [] k2 (bs2 & -> & Hc2). apply wp_ret, wp_bind, wp_modify. cbn [sb_size sb_nlog decode_sb].
  rewrite (crash_ok_sb old ws) by (done || lia). rewrite P1, P2.
  replace (start + size - size) with start by lia. rewrite !s32_small by lia.
  eapply wp_mono; [by apply recover_spec|].
  intros [] k3 (_ & Q & Hh & Hm). done.
Qed.

(** ** Crashes *)

(** A crash between [d] and [d'] leaves the disk [dc]: a prefix of the writes. *)
Definition crash_point (d d' dc : disk) : Prop :=
  exists w1 w2, d_writes d' = w1 ++ w2 ++ d_writes d /\
    dc = Disk (d_size d) (d_image d) (w2 ++ d_writes d).

Lemma hist_point P d d' dc : hist P d d' -> crash_point d d' dc -> P dc /\ d_size dc = d_size d.
Proof.
  intros (ws & -> & HP) (w1 & w2 & E & ->). cbn in E. rewrite app_assoc in E.
  apply app_inv_tail in E. split; [by apply (HP w1)|done].
Qed.

(** The disks that crashes can leave: of a routine [m], then of any number of
    attempts to recover from it. *)
Inductive crashes {A} (m : KM A) (k : kstate) : disk -> Prop :=
  | crash_run a k' d :
      m k = Ok a k' -> crash_point (dsk k) (dsk k') d -> crashes m k d
  | crash_boot d kb kb' d' :
      crashes m k d -> fresh kb d -> boot kb = Ok tt kb' -> crash_point d (dsk kb') d' ->
      crashes m k d'.

(** A crash before the first write. *)
Lemma crash_none {A} (m : KM A) k ws Q :
  wp m k (fun a k' => commits start size k ws k' /\ Q a k') -> crashes m k (dsk k).
Proof.
  intros W. apply wp_Ok in W as (a & k' & E & (_ & _ & (w & Ed & _) & _) & _).
  apply (crash_run _ _ a k'); [done|]. exists w, []. rewrite Ed. split; [done|]. by destruct (dsk k).
Qed.

Lemma transaction_crash k us :
  quiet start size k -> Forall (update_ok start) us -> Z.of_nat (length us) <= size - 1 ->
  crashes (transaction us) k (dsk k).
Proof.
  intros Hq Hok Hfit. pose proof (transaction_spec start size k us Hq Hok Hfit) as W.
  apply wp_Ok in W as ([] & k' & E & ws & Hc & _).
  apply (crash_none _ _ ws (fun _ _ => True)). unfold wp. by rewrite E.
Qed.

Lemma layout_size d d' : layout d start size -> d_size d' = d_size d -> layout d' start size.
Proof. intros [Y1 Y2 Y3 Y4] E. by split; rewrite ?E. Qed.

Lemma crashes_ok {A} (m : KM A) k ws old :
  layout (dsk k) start size -> placed old -> wset start size ws ->
  (forall a k', m k = Ok a k' -> hist (crash_ok start old ws) (dsk k) (dsk k')) ->
  forall d, crashes m k d -> crash_ok start old ws d /\ layout d start size.
Proof.
  intros Ly Hp W Hrun d Hd. induction Hd as [a k' d Hr Hc|d kb kb' d' Hd [IH1 IH2] Hf Hb Hc].
  - destruct (hist_point _ _ _ _ (Hrun a k' Hr) Hc) as [Hok Hs]. split; [done|]. by eapply layout_size.
  - pose proof (boot_spec old ws kb d Hf IH2 Hp W IH1) as Wb. unfold wp in Wb. rewrite Hb in Wb.
    destruct Wb as (_ & Hh & _). destruct (hist_point _ _ _ _ Hh Hc) as [Hok Hs].
    split; [done|]. by eapply layout_size.
Qed.

(** Whatever commits [ws] is atomic. *)
Lemma commit_atomic {A} (m : KM A) k ws d kb Q :
  quiet start size k -> placed (d_read (dsk k)) -> wp m k (fun a k' => commits start size k ws k' /\ Q a k') ->
  crashes m k d -> fresh kb d ->
  wp boot kb (fun _ kb' => quiet start size kb' /\
    (home start (dsk kb') (d_read (dsk k)) \/ home start (dsk kb') (install ws (d_read (dsk k))))).
Proof.
  intros Hq Hp Wt Hd Hf. apply wp_Ok in Wt as (a & k1 & Hr & (W & Q1 & Hh & I1) & _).
  destruct (crashes_ok m k ws (d_read (dsk k)) (qt_lay _ _ _ Hq) Hp W) with d as [Hcd Hld]; try done.
  { intros a' k' Hr'. rewrite Hr in Hr'. by injection Hr' as <- <-. }
  wp_use (boot_spec (d_read (dsk k)) ws kb d Hf Hld Hp W Hcd). intros [] kb' (Q' & _ & Hm). done.
Qed.

(** ** Theorems *)

(** A transaction that fits the log commits: it returns, the disk then
    holds every one of its writes in place, the log is empty again and the
    cache is clean. *)
Theorem transaction_commits k us :
  quiet start size k -> Forall (update_ok start) us -> Z.of_nat (length us) <= size - 1 ->
  wp (transaction us) k (fun _ k' => quiet start size k' /\
    home start (dsk k') (apply_updates us (d_read (dsk k)))).
Proof.
  intros Hq Hok Hfit. wp_use (transaction_spec start size k us Hq Hok Hfit).
  intros [] k' (ws & (W & Q & _ & I2) & E). split; [done|]. intros s Hs.
  rewrite <- E by done. by apply I2.
Qed.

(** C3. Transactions are atomic across crashes: whatever prefix of the disk
    writes of the transaction reached the disk, and however often recovery
    itself was interrupted, booting the machine returns and leaves on disk
    either all of the transaction's writes or none of them. *)
Theorem log_atomic k us d kb :
  quiet start size k -> placed (d_read (dsk k)) -> Forall (update_ok start) us ->
  Z.of_nat (length us) <= size - 1 -> crashes (transaction us) k d -> fresh kb d ->
  wp boot kb (fun _ kb' => quiet start size kb' /\
    (home start (dsk kb') (d_read (dsk k)) \/
     home start (dsk kb') (apply_updates us (d_read (dsk k))))).
Proof.
  intros Hq Hp Hok Hfit Hd Hf. pose proof (transaction_spec start size k us Hq Hok Hfit) as Wt.
  apply wp_Ok in Wt as ([] & k1 & Hr & ws & Hc & E).
  wp_use (commit_atomic (transaction us) k ws d kb (fun _ _ => True) Hq Hp); [|done|done|].
  { unfold wp. by rewrite Hr. }
  intros [] kb' [Q' [Hm|Hm]]; (split; [done|]); [by left|]. right. intros s Hs. rewrite <- E by done. by apply Hm.
Qed.

(** [log_write] refuses what it must refuse: outside a transaction and
    when the log is full it panics without touching disk or cache. *)
Theorem log_write_guards k b :
  (LOGSIZE <= lh_n (klog k) \/ lg_size (klog k) - 1 <= lh_n (klog k) ->
    log_write b k = Panic "too big a transaction" k) /\
  (lh_n (klog k) < LOGSIZE -> lh_n (klog k) < lg_size (klog k) - 1 -> lg_busy (klog k) = false ->
    log_write b k = Panic "write outside of trans" k).
Proof.
  unfold log_write. split.
  - intros Hf. rewrite (bind_Ok _ _ _ (klog k) k) by done.
    destruct Hf as [Hf|Hf]; apply Z.leb_le in Hf; rewrite Hf; [done|by rewrite orb_true_r].
  - intros H1 H2 H3. rewrite (bind_Ok _ _ _ (klog k) k) by done.
    rewrite (proj2 (Z.leb_gt _ _)), (proj2 (Z.leb_gt _ _)), H3 by lia. done.
Qed.

End Recovery.

(** ** A disk with an empty log *)

#[local] Instance log_wakeups : Wakeups := 1%nat.

Definition ex_log : logstate := LogState 20 10 false 1 0 (replicate 10 0).

Lemma ex_quiet : quiet 20 10 (ex_machine booted ex_log).
Proof.
  split; try done.
  apply booted_cache; [apply ex_blocks|done].
Qed.

(** One transaction over two blocks. *)
Definition ex_us : list (Z * (block -> block)) := [(5, put32 0 7); (6, put32 8 9); (5, put32 4 8)].

Lemma ex_us_ok : Forall (update_ok 20) ex_us.
Proof.
  repeat constructor; cbn; try lia; intros x Hx; rewrite put32_length; lia.
Qed.

Lemma log_atomic_witness :
  exists d kb, crashes (transaction ex_us) (ex_machine booted ex_log) d /\
    wp boot kb (fun _ kb' => d_read (dsk kb') 5 = zero_block \/ get32 4 (d_read (dsk kb') 5) = 8).
Proof.
  exists ex_disk, (ex_machine (replicate 11 buf0) (LogState 0 0 false 0 0 (replicate 10 0))).
  assert (Hc : crashes (transaction ex_us) (ex_machine booted ex_log) ex_disk).
  { apply (transaction_crash 20 10 _ ex_us ex_quiet ex_us_ok). cbn. lia. }
  split; [exact Hc|].
  eapply wp_mono; [apply (log_atomic 20 10 (ex_machine booted ex_log) ex_us ex_disk _ ex_quiet)|].
  - split; vm_compute; reflexivity.
  - exact ex_us_ok.
  - cbn. lia.
  - exact Hc.
  - split; try reflexivity; [split_and!; reflexivity|split; reflexivity].
  - intros [] kb' [_ [Hh|Hh]]; rewrite Hh by lia; [left|right]; vm_compute; reflexivity.
Defined.

