(* ===== verification/Inode.v ===== *)
(** * Blocks and inodes: fs.h and the lower half of fs.c

    The block allocator, the on-disk inode format, the inode cache with its
    reference counts and locks, and the map from file offsets to blocks. *)

From S2P Require Import Prelude Layout Mem Kalloc Vm State Sched Bytes Bio Log.

Open Scope Z_scope.

(** ** The disk layout *)

Definition ROOTINO : Z := 1.
Definition NDIRECT : Z := 12.
Definition NINDIRECT : Z := BSIZE / 4.
Definition MAXFILE : Z := NDIRECT + NINDIRECT.
Definition DIRSIZ : Z := 14.

Definition T_DIR : Z := 1.
Definition T_FILE : Z := 2.
Definition T_DEV : Z := 3.

(** [struct dinode]: four shorts, the size, and 13 block numbers. *)
Record dinode : Type := DInode {
  di_type : Z; di_major : Z; di_minor : Z; di_nlink : Z; di_size : Z; di_addrs : list Z
}.

Definition dinode_size : Z := 64.
Definition IPB : Z := BSIZE / dinode_size.
Definition IBLOCK (i : Z) : Z := i / IPB + 2.
Definition BPB : Z := BSIZE * 8.
Definition BBLOCK (b ninodes : Z) : Z := b / BPB + ninodes / IPB + 3.

Definition decode_dinode (off : Z) (b : block) : dinode :=
  DInode (s16 (get16 off b)) (s16 (get16 (off + 2) b)) (s16 (get16 (off + 4) b))
    (s16 (get16 (off + 6) b)) (get32 (off + 8) b)
    ((fun j => get32 (off + 12 + 4 * Z.of_nat j) b) <$> seq 0 13).

Fixpoint put_addrs (off : Z) (l : list Z) (b : block) : block :=
  match l with
  | [] => b
  | a :: l => put_addrs (off + 4) l (put32 off a b)
  end.

Definition encode_dinode (off : Z) (d : dinode) (b : block) : block :=
  put_addrs (off + 12) (di_addrs d)
    (put32 (off + 8) (di_size d)
      (put16 (off + 6) (di_nlink d)
        (put16 (off + 4) (di_minor d)
          (put16 (off + 2) (di_major d) (put16 off (di_type d) b))))).

Section Inode.
Context `{Wakeups}.

(** ** Blocks *)

Definition bzero (dev bno : Z) : KM unit :=
  let! bp := bread dev bno in
  bset bp (fun _ => replicate (Z.to_nat BSIZE) x00) ;;;
  log_write bp ;;;
  brelse bp.

Definition byte_of (d : block) (i : Z) : Z := b2z (nth (Z.to_nat i) d x00).

(** The bit of block [bi] in a bitmap block. *)
Definition bit_mask (bi : Z) : Z := Z.shiftl 1 (bi mod 8).
Definition in_use (d : block) (bi : Z) : bool :=
  negb (Z.land (byte_of d (bi / 8)) (bit_mask bi) =? 0).
Definition mark_used (bi : Z) (d : block) : block :=
  <[Z.to_nat (bi / 8) := z2b (Z.lor (byte_of d (bi / 8)) (bit_mask bi))]> d.
Definition mark_free (bi : Z) (d : block) : block :=
  <[Z.to_nat (bi / 8) := z2b (Z.land (byte_of d (bi / 8)) (Z.lnot (bit_mask bi)))]> d.

(** [for(bi = 0; bi < BPB && b + bi < sb.size; bi++)]: the first free bit. *)
Fixpoint balloc_scan (d : block) (b bi size : Z) (n : nat) : option Z :=
  match n with
  | O => None
  | S n =>
      if b + bi <? size then
        if in_use d bi then balloc_scan d b (bi + 1) size n else Some bi
      else None
  end.

(** [for(b = 0; b < sb.size; b += BPB)] *)
Fixpoint balloc_loop (dev b : Z) (sb : superblock) (fuel : nat) : KM Z :=
  if b <? sb_size sb then
    match fuel with
    | O => nofuel
    | S fuel =>
        let! bp := bread dev (BBLOCK b (sb_ninodes sb)) in
        let! d := bdata bp in
        match balloc_scan d b 0 (sb_size sb) (Z.to_nat BPB) with
        | Some bi =>
            bset bp (mark_used bi) ;;;
            log_write bp ;;;
            brelse bp ;;;
            bzero dev (b + bi) ;;;
            ret (b + bi)
        | None =>
            brelse bp ;;;
            balloc_loop dev (b + BPB) sb fuel
        end
    end
  else panic "balloc: out of blocks".

Definition balloc (dev : Z) : KM Z :=
  let! sb := readsb dev in
  balloc_loop dev 0 sb (Z.to_nat (sb_size sb / BPB + 1)).

Definition bfree (dev b : Z) : KM unit :=
  let! sb := readsb dev in
  let! bp := bread dev (BBLOCK b (sb_ninodes sb)) in
  let bi := b mod BPB in
  let! d := bdata bp in
  if negb (in_use d bi) then panic "freeing free block"
  else
    bset bp (mark_free bi) ;;;
    log_write bp ;;;
    brelse bp.

(** ** The inode cache *)

Definition inoget (i : nat) : KM inode :=
  let! l := gets inodes in from_option_wild (l !! i).
Definition inoupd (i : nat) (f : inode -> inode) : KM unit :=
  modify (fun k => ks_inodes (alter f i (inodes k)) k).

(** A pointer that must not be null. *)
Definition deref (o : option nat) : KM nat := from_option_wild o.

Definition iinit : KM unit := modify (set_lock LkIcache false).

(** The scan of [iget] from slot [i]: a cached entry, or the first empty one. *)
Fixpoint iget_scan (dev inum : Z) (empty : option nat) (i n : nat) :
    KM (option nat * option nat) :=
  match n with
  | O => ret (None, empty)
  | S n =>
      let! ip := inoget i in
      if (0 <? i_ref ip) && (i_dev ip =? dev) && (i_inum ip =? inum) then ret (Some i, empty)
      else
        let empty :=
          match empty with
          | None => if i_ref ip =? 0 then Some i else None
          | Some j => Some j
          end in
        iget_scan dev inum empty (S i) n
  end.

Definition iget (dev inum : Z) : KM nat :=
  acquire LkIcache ;;;
  let! r := iget_scan dev inum None 0 (Z.to_nat NINODE) in
  match r with
  | (Some i, _) =>
      inoupd i (fun ip => is_ref (s32 (i_ref ip + 1)) ip) ;;;
      release LkIcache ;;;
      ret i
  | (None, None) => panic "iget: no inodes"
  | (None, Some i) =>
      inoupd i (is_dev dev) ;;;
      inoupd i (is_inum inum) ;;;
      inoupd i (is_ref 1) ;;;
      inoupd i (is_flags 0) ;;;
      release LkIcache ;;;
      ret i
  end.

Fixpoint ialloc_loop (dev type inum : Z) (sb : superblock) (fuel : nat) : KM nat :=
  if inum <? sb_ninodes sb then
    match fuel with
    | O => nofuel
    | S fuel =>
        let! bp := bread dev (IBLOCK inum) in
        let! d := bdata bp in
        let off := inum mod IPB * dinode_size in
        if di_type (decode_dinode off d) =? 0 then
          bset bp (fun d => put16 off type
                     (splice off (replicate (Z.to_nat dinode_size) x00) d)) ;;;
          log_write bp ;;;
          brelse bp ;;;
          iget dev inum
        else
          brelse bp ;;;
          ialloc_loop dev type (inum + 1) sb fuel
    end
  else panic "ialloc: no inodes".

Definition ialloc (dev type : Z) : KM nat :=
  let! sb := readsb dev in
  ialloc_loop dev type 1 sb (Z.to_nat (sb_ninodes sb)).

Definition to_dinode (ip : inode) : dinode :=
  DInode (i_type ip) (i_major ip) (i_minor ip) (i_nlink ip) (i_size ip) (i_addrs ip).

Definition iupdate (i : nat) : KM unit :=
  let! ip := inoget i in
  let! bp := bread (i_dev ip) (IBLOCK (i_inum ip)) in
  let! ip := inoget i in
  bset bp (encode_dinode (i_inum ip mod IPB * dinode_size) (to_dinode ip)) ;;;
  log_write bp ;;;
  brelse bp.

Definition idup (i : nat) : KM nat :=
  acquire LkIcache ;;;
  inoupd i (fun ip => is_ref (s32 (i_ref ip + 1)) ip) ;;;
  release LkIcache ;;;
  ret i.

(** [while(ip->flags & I_BUSY) sleep(ip, &icache.lock);] *)
Fixpoint ilock_wait (i w : nat) : KM unit :=
  let! ip := inoget i in
  if has (i_flags ip) I_BUSY then
    match w with
    | O => nofuel
    | S w => sleep (ChInode i) LkIcache ;;; ilock_wait i w
    end
  else ret tt.

Definition load_inode (d : dinode) (ip : inode) : inode :=
  Inode (i_dev ip) (i_inum ip) (i_ref ip) (i_flags ip) (di_type d) (di_major d) (di_minor d)
    (di_nlink d) (di_size d) (di_addrs d).

Definition ilock (o : option nat) : KM unit :=
  match o with
  | None => panic "ilock"
  | Some i =>
      let! ip := inoget i in
      if i_ref ip <? 1 then panic "ilock"
      else
        acquire LkIcache ;;;
        ilock_wait i wakeups ;;;
        inoupd i (fun ip => is_flags (Z.lor (i_flags ip) I_BUSY) ip) ;;;
        release LkIcache ;;;
        let! ip := inoget i in
        when (negb (has (i_flags ip) I_VALID))
          (let! bp := bread (i_dev ip) (IBLOCK (i_inum ip)) in
           let! d := bdata bp in
           inoupd i (fun ip =>
             load_inode (decode_dinode (i_inum ip mod IPB * dinode_size) d) ip) ;;;
           brelse bp ;;;
           inoupd i (fun ip => is_flags (Z.lor (i_flags ip) I_VALID) ip) ;;;
           let! ip := inoget i in
           when (i_type ip =? 0) (panic "ilock: no type"))
  end.

Definition iunlock (o : option nat) : KM unit :=
  match o with
  | None => panic "iunlock"
  | Some i =>
      let! ip := inoget i in
      if negb (has (i_flags ip) I_BUSY) || (i_ref ip <? 1) then panic "iunlock"
      else
        acquire LkIcache ;;;
        inoupd i (fun ip => is_flags (Z.land (i_flags ip) (Z.lnot I_BUSY)) ip) ;;;
        wakeup (ChInode i) ;;;
        release LkIcache
  end.

(** ** Inode content *)

(** [ip->addrs[bn]] and its assignment. *)
Definition addr_get (i : nat) (bn : Z) : KM Z :=
  let! ip := inoget i in from_option_wild (i_addrs ip !! Z.to_nat bn).
Definition addr_set (i : nat) (bn v : Z) : KM unit :=
  inoupd i (fun ip => is_addrs (<[Z.to_nat bn := v]> (i_addrs ip)) ip).

(** [if((addr = ip->addrs[bn]) == 0) ip->addrs[bn] = addr = balloc(ip->dev);] *)
Definition bmap_direct (i : nat) (bn : Z) : KM Z :=
  let! addr := addr_get i bn in
  if addr =? 0 then
    let! ip := inoget i in
    let! addr := balloc (i_dev ip) in
    addr_set i bn addr ;;;
    ret addr
  else ret addr.

Definition bmap (i : nat) (bn : Z) : KM Z :=
  if bn <? NDIRECT then bmap_direct i bn
  else
    let bn := bn - NDIRECT in
    if bn <? NINDIRECT then
      let! addr := bmap_direct i NDIRECT in
      let! ip := inoget i in
      let! bp := bread (i_dev ip) addr in
      let! a := bdata bp in
      let addr := get32 (4 * bn) a in
      if addr =? 0 then
        let! addr := balloc (i_dev ip) in
        bset bp (put32 (4 * bn) addr) ;;;
        log_write bp ;;;
        brelse bp ;;;
        ret addr
      else
        brelse bp ;;;
        ret addr
    else panic "bmap: out of range".

Fixpoint itrunc_direct (i : nat) (bn : Z) (n : nat) : KM unit :=
  match n with
  | O => ret tt
  | S n =>
      let! a := addr_get i bn in
      when (negb (a =? 0))
        (let! ip := inoget i in
         bfree (i_dev ip) a ;;;
         addr_set i bn 0) ;;;
      itrunc_direct i (bn + 1) n
  end.

Fixpoint itrunc_indirect (dev : Z) (bp : nat) (j : Z) (n : nat) : KM unit :=
  match n with
  | O => ret tt
  | S n =>
      let! a := bdata bp in
      when (negb (get32 (4 * j) a =? 0)) (bfree dev (get32 (4 * j) a)) ;;;
      itrunc_indirect dev bp (j + 1) n
  end.

Definition itrunc (i : nat) : KM unit :=
  itrunc_direct i 0 (Z.to_nat NDIRECT) ;;;
  let! ia := addr_get i NDIRECT in
  when (negb (ia =? 0))
    (let! ip := inoget i in
     let! bp := bread (i_dev ip) ia in
     itrunc_indirect (i_dev ip) bp 0 (Z.to_nat NINDIRECT) ;;;
     brelse bp ;;;
     bfree (i_dev ip) ia ;;;
     addr_set i NDIRECT 0) ;;;
  inoupd i (is_size 0) ;;;
  iupdate i.

Definition iput (i : nat) : KM unit :=
  acquire LkIcache ;;;
  let! ip := inoget i in
  when ((i_ref ip =? 1) && has (i_flags ip) I_VALID && (i_nlink ip =? 0))
    (if has (i_flags ip) I_BUSY then panic "iput busy"
     else
       inoupd i (fun ip => is_flags (Z.lor (i_flags ip) I_BUSY) ip) ;;;
       release LkIcache ;;;
       itrunc i ;;;
       inoupd i (is_type 0) ;;;
       iupdate i ;;;
       acquire LkIcache ;;;
       inoupd i (is_flags 0) ;;;
       wakeup (ChInode i)) ;;;
  inoupd i (fun ip => is_ref (s32 (i_ref ip - 1)) ip) ;;;
  release LkIcache.

Definition iunlockput (i : nat) : KM unit :=
  iunlock (Some i) ;;;
  iput i.

(** [struct stat] *)
Record stat : Type := Stat {
  st_type : Z; st_dev : Z; st_ino : Z; st_nlink : Z; st_size : Z
}.

Definition stati (i : nat) : KM stat :=
  let! ip := inoget i in
  ret (Stat (i_type ip) (s32 (i_dev ip)) (i_inum ip) (i_nlink ip) (i_size ip)).

End Inode.
