(* ===== verification/Console.v ===== *)
(** * The console: console.c

    Formatted output, the line editor fed by the keyboard and serial
    interrupts, the device's read and write, and the text screen.  The
    sequence of characters passed to [consputc] is kept in the state. *)

From S2P Require Import Prelude Layout Mem Kalloc Vm State Sched Bytes Bio Log Inode.

Open Scope Z_scope.

(** ** Formatted output *)

Definition digits : list byte :=
  ["0"; "1"; "2"; "3"; "4"; "5"; "6"; "7"; "8"; "9"; "a"; "b"; "c"; "d"; "e"; "f"]%byte.

Definition digit (d : Z) : byte := nth (Z.to_nat d) digits x00.

(** [do{ buf[i++] = digits[x % base]; }while((x /= base) != 0);], least
    significant digit first. *)
Fixpoint print_digits (x base : Z) (fuel : nat) : list byte :=
  digit (x mod base) ::
  match fuel with
  | O => []
  | S fuel => if x / base =? 0 then [] else print_digits (x / base) base fuel
  end.

(** The characters [printint] puts out; [xx] is an [int], and [-xx] wraps.  A
    32-bit number has at most 32 digits. *)
Definition printint (xx base : Z) (sign : bool) : list byte :=
  let neg := sign && (s32 xx <? 0) in
  let x := if neg then u32 (- xx) else u32 xx in
  rev (print_digits x base 32 ++ (if neg then ["-"%byte] else [])).

(** An argument of [cprintf]: a word, or a string pointer that may be null. *)
Inductive carg : Type := CInt (v : Z) | CStr (s : option (list byte)).

Definition arg_int (args : list carg) : Z := match args with CInt v :: _ => v | _ => 0 end.
Definition arg_str (args : list carg) : list byte :=
  match args with
  | CStr (Some s) :: _ => cstring s
  | _ => ["("; "n"; "u"; "l"; "l"; ")"]%byte
  end.

(** The characters of [cprintf(fmt, args)], as the bytes the devices send. *)
Fixpoint cformat (fmt : list byte) (args : list carg) : list byte :=
  match fmt with
  | [] => []
  | c :: fmt =>
      if negb (bool_decide (c = "%"%byte)) then c :: cformat fmt args
      else
        match fmt with
        | [] => []
        | c :: fmt =>
            match c with
            | "d"%byte => printint (arg_int args) 10 true ++ cformat fmt (tail args)
            | "x"%byte => printint (arg_int args) 16 false ++ cformat fmt (tail args)
            | "p"%byte => printint (arg_int args) 16 false ++ cformat fmt (tail args)
            | "s"%byte => arg_str args ++ cformat fmt (tail args)
            | "%"%byte => "%"%byte :: cformat fmt args
            | c => "%"%byte :: c :: cformat fmt args
            end
        end
  end.

Definition consputc (c : Z) : KM unit := modify (fun k => ks_console (c :: console k) k).

Fixpoint cons_puts (l : list byte) : KM unit :=
  match l with
  | [] => ret tt
  | b :: l => consputc (b2z b) ;;; cons_puts l
  end.

Definition cprintf (fmt : list byte) (args : list carg) : KM unit :=
  let! locking := gets cons_locking in
  when locking (acquire LkCons) ;;;
  cons_puts (cformat fmt args) ;;;
  when locking (release LkCons).

Lemma wp_cons_puts l : forall k Q,
  (forall c, Q tt (ks_console c k)) -> wp (cons_puts l) k Q.
Proof.
  induction l as [|b l IH]; intros k Q HQ; cbn [cons_puts].
  - specialize (HQ (console k)). destruct k. exact HQ.
  - apply wp_bind, wp_modify, IH. intros c. apply HQ.
Qed.

Lemma wp_cprintf fmt args k Q :
  cons_lock k = false -> (forall c, Q tt (ks_console c k)) -> wp (cprintf fmt args) k Q.
Proof.
  intros Hl HQ. unfold cprintf. apply wp_bind, wp_gets. destruct (cons_locking k).
  - apply wp_bind, wp_acquire; [done|]. apply wp_bind, wp_cons_puts. intros c.
    apply wp_release; [done|].
    replace (set_lock LkCons false _) with (ks_console c k); [apply HQ|].
    destruct k; cbn in Hl; by subst.
  - apply wp_bind, wp_ret, wp_bind, wp_cons_puts. intros c. apply wp_ret, HQ.
Qed.

(** ** Input *)

Definition BACKSPACE : Z := 0x100.
Definition INPUT_BUF : Z := 128.

(** [C(x)], control characters: [C('P')], [C('U')], [C('H')], [C('D')]. *)
Definition ctrl (c : byte) : Z := b2z c - 64.

Definition inupd (f : inputbuf -> inputbuf) : KM unit :=
  modify (fun k => ks_input (f (input k)) k).
Definition in_at (i : inputbuf) (x : Z) : byte :=
  nth (Z.to_nat (u32 x mod INPUT_BUF)) (in_buf i) x00.

(** [while(input.e != input.w && input.buf[(input.e-1) % INPUT_BUF] != '\n')] *)
Fixpoint kill_line (fuel : nat) : KM unit :=
  let! i := gets input in
  if negb (in_e i =? in_w i) && negb (bool_decide (in_at i (in_e i - 1) = x0a)) then
    match fuel with
    | O => nofuel
    | S fuel =>
        inupd (ins_e (u32 (in_e i - 1))) ;;;
        consputc BACKSPACE ;;;
        kill_line fuel
    end
  else ret tt.

Definition state_name (s : procstate) : string :=
  match s with
  | UNUSED => "unused" | EMBRYO => "embryo" | SLEEPING => "sleep "
  | RUNNABLE => "runble" | RUNNING => "run   " | ZOMBIE => "zombie"
  end.

Definition cstr (s : string) : list byte := String.list_byte_of_string s.

(** The process listing, without the call stacks of sleeping processes. *)
Fixpoint procdump_loop (ps : list proc) : KM unit :=
  match ps with
  | [] => ret tt
  | p :: ps =>
      when (negb (bool_decide (p_state p = UNUSED)))
        (cprintf (cstr "%d %s %s") [CInt (p_pid p); CStr (Some (cstr (state_name (p_state p))));
                                    CStr (Some (p_name p))] ;;;
         cprintf [x0a] []) ;;;
      procdump_loop ps
  end.

Definition procdump : KM unit := let! ps := gets procs in procdump_loop ps.

(** The handling of one character. *)
Definition console_char (c : Z) : KM unit :=
  if c =? ctrl "P" then procdump
  else if c =? ctrl "U" then kill_line (Z.to_nat INPUT_BUF)
  else if (c =? ctrl "H") || (c =? 0x7f) then
    let! i := gets input in
    when (negb (in_e i =? in_w i))
      (inupd (ins_e (u32 (in_e i - 1))) ;;; consputc BACKSPACE)
  else
    let! i := gets input in
    when (negb (c =? 0) && (u32 (in_e i - in_r i) <? INPUT_BUF))
      (let c := if c =? 13 then 10 else c in
       inupd (fun i => ins_buf (<[Z.to_nat (in_e i mod INPUT_BUF) := z2b c]> (in_buf i)) i) ;;;
       inupd (fun i => ins_e (u32 (in_e i + 1)) i) ;;;
       consputc c ;;;
       let! i := gets input in
       when ((c =? 10) || (c =? ctrl "D") || (in_e i =? u32 (in_r i + INPUT_BUF)))
         (inupd (fun i => ins_w (in_e i) i) ;;;
          wakeup ChInput)).

Fixpoint console_chars (cs : list Z) : KM unit :=
  match cs with
  | [] => ret tt
  | c :: cs => if 0 <=? c then console_char c ;;; console_chars cs else ret tt
  end.

(** [consoleintr(getc)], where [getc] returns the elements of [cs] and then a
    negative number. *)
Definition consoleintr (cs : list Z) : KM unit :=
  acquire LkInput ;;;
  console_chars cs ;;;
  release LkInput.

(** ** The device *)

(** Where a read puts its bytes and a write takes them from: at an offset
    from the caller's pointer. *)
Abbreviation sink := (Z -> list byte -> KM unit).
Abbreviation source := (Z -> Z -> KM (list byte)).

Section Device.
Context `{Wakeups}.

(** [while(input.r == input.w)]: [true] when the process was killed. *)
Fixpoint console_wait (w : nat) : KM bool :=
  let! i := gets input in
  if in_r i =? in_w i then
    let! me := myproc in
    let! p := pget me in
    if p_killed p then ret true
    else
      match w with
      | O => nofuel
      | S w => sleep ChInput LkInput ;;; console_wait w
      end
  else ret false.

(** The loop of [consoleread] with [n] characters to go out of [target]: how
    many are left at the end, and the bytes stored; [None] when the process
    was killed. *)
Fixpoint console_copy (dst : sink) (target : Z) (acc : list byte) (n : nat) :
    KM (option (Z * list byte)) :=
  match n with
  | O => ret (Some (0, acc))
  | S n' =>
      let! killed := console_wait wakeups in
      if (killed : bool) then ret None
      else
        let! i := gets input in
        let c := in_at i (in_r i) in
        inupd (ins_r (u32 (in_r i + 1))) ;;;
        if b2z c =? ctrl "D" then
          when (Z.of_nat n <? target) (inupd (ins_r (in_r i))) ;;;
          ret (Some (Z.of_nat n, acc))
        else
          dst (target - Z.of_nat n) [c] ;;;
          if bool_decide (c = x0a) then ret (Some (Z.of_nat n', acc ++ [c]))
          else console_copy dst target (acc ++ [c]) n'
  end.

(** The result, and the bytes stored at [dst]. *)
Definition consoleread (ip : nat) (dst : sink) (n : Z) : KM (Z * list byte) :=
  iunlock (Some ip) ;;;
  acquire LkInput ;;;
  let! r := console_copy dst n [] (Z.to_nat n) in
  release LkInput ;;;
  ilock (Some ip) ;;;
  match r with
  | None => ret (-1, [])
  | Some (rest, bs) => ret (n - (if n <? 0 then n else rest), bs)
  end.

Fixpoint console_out (src : source) (i : Z) (n : nat) : KM unit :=
  match n with
  | O => ret tt
  | S n =>
      let! bs := src i 1 in
      cons_puts bs ;;;
      console_out src (i + 1) n
  end.

Definition consolewrite (ip : nat) (src : source) (n : Z) : KM Z :=
  iunlock (Some ip) ;;;
  acquire LkCons ;;;
  console_out src 0 (Z.to_nat n) ;;;
  release LkCons ;;;
  ilock (Some ip) ;;;
  ret n.

Definition CONSOLE : Z := 1.

(** [devsw], as [consoleinit] leaves it. *)
Definition devsw_read (major : Z) : option (nat -> sink -> Z -> KM (Z * list byte)) :=
  if major =? CONSOLE then Some consoleread else None.
Definition devsw_write (major : Z) : option (nat -> source -> Z -> KM Z) :=
  if major =? CONSOLE then Some consolewrite else None.

End Device.

Definition consoleinit : KM unit :=
  modify (set_lock LkCons false) ;;;
  modify (set_lock LkInput false) ;;;
  modify (ks_cons_locking true).

(** ** The screen *)

(** The text screen: character cells and the cursor position. *)
Record cga : Type := Cga { crt : list Z; crt_pos : Z }.

Definition scroll (c : cga) : cga :=
  let pos := crt_pos c - 80 in
  let moved := take (23 * 80) (drop 80 (crt c)) ++ drop (23 * 80) (crt c) in
  Cga (take (Z.to_nat pos) moved ++ replicate (Z.to_nat (24 * 80 - pos)) 0 ++ drop (24 * 80) moved)
    pos.

Definition cgaputc (ch : Z) (c : cga) : cga :=
  let pos := crt_pos c in
  let c1 :=
    if ch =? 10 then Cga (crt c) (pos + (80 - pos mod 80))
    else if ch =? BACKSPACE then (if 0 <? pos then Cga (crt c) (pos - 1) else c)
    else Cga (<[Z.to_nat pos := Z.lor (Z.land ch 0xff) 0x0700]> (crt c)) (pos + 1) in
  let c2 := if 24 <=? crt_pos c1 / 80 then scroll c1 else c1 in
  Cga (<[Z.to_nat (crt_pos c2) := Z.lor 32 0x0700]> (crt c2)) (crt_pos c2).
