(* ===== verification/Fs.v ===== *)
(** * Files, directories and path names: the upper half of fs.c

    Reading and writing the content of an inode, directories as files of
    fixed-size entries, and the walk along a path. *)

From S2P Require Import Prelude Layout Mem Kalloc Vm State Sched Bytes Bio Log Inode Console.

Open Scope Z_scope.

(** ** Memory at a pointer the caller passed

    A pointer below [KERNBASE] is translated by the page table in use. *)

Fixpoint put_va (va : Z) (bs : list byte) : KM unit :=
  match bs with
  | [] => ret tt
  | b :: bs =>
      liftM (let! a := mmu va true in memM (fun m => upd m a b)) ;;;
      put_va (u32 (va + 1)) bs
  end.

Fixpoint get_va (va : Z) (n : nat) : KM (list byte) :=
  match n with
  | O => ret []
  | S n =>
      let! b := liftM (let! a := mmu va false in gets (fun s => mm s a)) in
      let! bs := get_va (u32 (va + 1)) n in
      ret (b :: bs)
  end.

Definition to_va (dst : Z) : sink := fun off bs => put_va (u32 (dst + off)) bs.
Definition from_va (src : Z) : source := fun off n => get_va (u32 (src + off)) (Z.to_nat n).

(** A local variable of the caller. *)
Definition to_local : sink := fun _ _ => ret tt.
Definition from_local (bs : list byte) : source := fun off n => ret (slice off n bs).

(** ** Names *)

Definition slash : byte := "/"%byte.

Fixpoint drop_slashes (path : list byte) : list byte :=
  match path with
  | c :: path' => if bool_decide (c = slash) then drop_slashes path' else path
  | [] => []
  end.

(** The loop that passes over the characters up to a slash: what is passed over, and the
    rest. *)
Fixpoint span_elem (path : list byte) : list byte * list byte :=
  match path with
  | c :: path' =>
      if bool_decide (c = slash) then ([], path)
      else let (s, rest) := span_elem path' in (c :: s, rest)
  | [] => ([], [])
  end.

(** [skipelem(path, name)] on the characters of the string, without the NUL:
    the name, cut to [DIRSIZ] characters, and the rest of the path. *)
Definition skipelem (path : list byte) : option (list byte * list byte) :=
  match drop_slashes path with
  | [] => None
  | p =>
      let (s, rest) := span_elem p in
      Some (take (Z.to_nat DIRSIZ) s, drop_slashes rest)
  end.

(** [strncmp(p, q, n)], where a list stands for a string that ends with it. *)
Fixpoint strncmp_list (n : nat) (p q : list byte) : Z :=
  match n with
  | O => 0
  | S n =>
      let a := hd x00 p in
      let b := hd x00 q in
      if negb (bool_decide (a = x00)) && bool_decide (a = b) then strncmp_list n (tl p) (tl q)
      else b2z a - b2z b
  end.

Definition namecmp (s t : list byte) : Z := strncmp_list (Z.to_nat DIRSIZ) s t.

(** ** Directory entries *)

Record dirent : Type := DirEnt { de_inum : Z; de_name : list byte }.

Definition dirent_size : Z := 16.

Definition decode_dirent (b : list byte) : dirent :=
  DirEnt (get16 0 b) (slice 2 DIRSIZ b).

(** [strncpy(de.name, name, DIRSIZ); de.inum = inum;] *)
Definition encode_dirent (name : list byte) (inum : Z) : list byte :=
  le_bytes 2 inum ++ take (Z.to_nat DIRSIZ) name
    ++ replicate (Z.to_nat DIRSIZ - length name) x00.

Section Fs.
Context `{Wakeups}.

(** ** Reading and writing *)

(** The loop of [readi]; [acc] is what has been moved so far. *)
Fixpoint readi_loop (i : nat) (dst : sink) (off tot n : Z) (acc : list byte) (fuel : nat) :
    KM (list byte) :=
  if tot <? n then
    match fuel with
    | O => nofuel
    | S fuel =>
        let! bno := bmap i (off / BSIZE) in
        let! ip := inoget i in
        let! bp := bread (i_dev ip) bno in
        let m := Z.min (n - tot) (BSIZE - off mod BSIZE) in
        let! d := bdata bp in
        let bs := slice (off mod BSIZE) m d in
        dst tot bs ;;;
        brelse bp ;;;
        readi_loop i dst (off + m) (tot + m) n (acc ++ bs) fuel
    end
  else ret acc.

(** The result of [readi], and the bytes it put at [dst]. *)
Definition readi (i : nat) (dst : sink) (off n : Z) : KM (Z * list byte) :=
  let! ip := inoget i in
  if i_type ip =? T_DEV then
    if (i_major ip <? 0) || (NDEV <=? i_major ip) then ret (-1, [])
    else
      match devsw_read (i_major ip) with
      | None => ret (-1, [])
      | Some f => f i dst (s32 n)
      end
  else if (i_size ip <? off) || (u32 (off + n) <? off) then ret (-1, [])
  else
    let n := if i_size ip <? u32 (off + n) then i_size ip - off else n in
    let! bs := readi_loop i dst off 0 n [] (Z.to_nat (n / BSIZE + 2)) in
    ret (s32 n, bs).

Fixpoint writei_loop (i : nat) (src : source) (off tot n : Z) (fuel : nat) : KM Z :=
  if tot <? n then
    match fuel with
    | O => nofuel
    | S fuel =>
        let! bno := bmap i (off / BSIZE) in
        let! ip := inoget i in
        let! bp := bread (i_dev ip) bno in
        let m := Z.min (n - tot) (BSIZE - off mod BSIZE) in
        let! bs := src tot m in
        bset bp (splice (off mod BSIZE) bs) ;;;
        log_write bp ;;;
        brelse bp ;;;
        writei_loop i src (off + m) (tot + m) n fuel
    end
  else ret off.

Definition writei (i : nat) (src : source) (off n : Z) : KM Z :=
  let! ip := inoget i in
  if i_type ip =? T_DEV then
    if (i_major ip <? 0) || (NDEV <=? i_major ip) then ret (-1)
    else
      match devsw_write (i_major ip) with
      | None => ret (-1)
      | Some f => f i src (s32 n)
      end
  else if (i_size ip <? off) || (u32 (off + n) <? off) then ret (-1)
  else if MAXFILE * BSIZE <? u32 (off + n) then ret (-1)
  else
    let! off := writei_loop i src off 0 n (Z.to_nat (n / BSIZE + 2)) in
    let! ip := inoget i in
    when ((0 <? n) && (i_size ip <? off))
      (inoupd i (is_size off) ;;;
       iupdate i) ;;;
    ret (s32 n).

(** ** Directories *)

(** A directory entry read into a local variable. *)
Definition read_dirent (dp : nat) (off : Z) (msg : string) : KM dirent :=
  let! r := readi dp to_local off dirent_size in
  if negb (r.1 =? dirent_size) then panic msg else ret (decode_dirent r.2).

(** The entry's inode and its offset. *)
Fixpoint dirlookup_loop (dp : nat) (name : list byte) (off : Z) (fuel : nat) :
    KM (option (nat * Z)) :=
  let! ip := inoget dp in
  if off <? i_size ip then
    match fuel with
    | O => nofuel
    | S fuel =>
        let! de := read_dirent dp off "dirlink read" in
        if de_inum de =? 0 then dirlookup_loop dp name (off + dirent_size) fuel
        else if namecmp name (de_name de) =? 0 then
          let! ip := inoget dp in
          let! i := iget (i_dev ip) (de_inum de) in
          ret (Some (i, off))
        else dirlookup_loop dp name (off + dirent_size) fuel
    end
  else ret None.

Definition dirlookup (dp : nat) (name : list byte) : KM (option (nat * Z)) :=
  let! ip := inoget dp in
  if negb (i_type ip =? T_DIR) then panic "dirlookup not DIR"
  else dirlookup_loop dp name 0 (Z.to_nat (i_size ip / dirent_size + 1)).

(** The offset of the first empty entry, or the size. *)
Fixpoint dirlink_loop (dp : nat) (off : Z) (fuel : nat) : KM Z :=
  let! ip := inoget dp in
  if off <? i_size ip then
    match fuel with
    | O => nofuel
    | S fuel =>
        let! de := read_dirent dp off "dirlink read" in
        if de_inum de =? 0 then ret off else dirlink_loop dp (off + dirent_size) fuel
    end
  else ret off.

Definition dirlink (dp : nat) (name : list byte) (inum : Z) : KM Z :=
  let! o := dirlookup dp name in
  match o with
  | Some (i, _) => iput i ;;; ret (-1)
  | None =>
      let! ip := inoget dp in
      let! off := dirlink_loop dp 0 (Z.to_nat (i_size ip / dirent_size + 1)) in
      let! r := writei dp (from_local (encode_dirent name inum)) off dirent_size in
      if negb (r =? dirent_size) then panic "dirlink" else ret 0
  end.

(** ** Paths *)

(** The loop of [namex] from inode [ip]: the inode, and the last element if
    the parent was asked for.  Every round consumes a character of the path. *)
Fixpoint namex_loop (path : list byte) (parent : bool) (ip : nat) (fuel : nat) :
    KM (option (nat * list byte)) :=
  match skipelem path with
  | None =>
      if parent then iput ip ;;; ret None else ret (Some (ip, []))
  | Some (name, path) =>
      match fuel with
      | O => nofuel
      | S fuel =>
          ilock (Some ip) ;;;
          let! x := inoget ip in
          if negb (i_type x =? T_DIR) then iunlockput ip ;;; ret None
          else if parent && bool_decide (path = []) then
            iunlock (Some ip) ;;;
            ret (Some (ip, name))
          else
            let! next := dirlookup ip name in
            match next with
            | None => iunlockput ip ;;; ret None
            | Some (next, _) =>
                iunlockput ip ;;;
                namex_loop path parent next fuel
            end
      end
  end.

Definition namex (path : list byte) (parent : bool) : KM (option (nat * list byte)) :=
  let! ip :=
    (if bool_decide (hd x00 path = slash) then iget ROOTDEV ROOTINO
     else
       let! me := myproc in
       let! p := pget me in
       let! cwd := deref (p_cwd p) in
       idup cwd) in
  namex_loop path parent ip (length path).

Definition namei (path : list byte) : KM (option nat) :=
  let! r := namex path false in
  ret (fst <$> r).

Definition nameiparent (path : list byte) : KM (option (nat * list byte)) := namex path true.

End Fs.
