(* ===== verification/Mkfs.v ===== *)
(** * The file system builder: mkfs.c

    The host program that writes the initial disk image.  The image file is a
    partial map from sectors to blocks: a sector that was never written is past its
    end, and reading it fails, which ends the program as a failed assertion does.
    The host is little-endian. *)

From S2P Require Import Prelude Layout Mem Kalloc Vm State Sched Bytes Bio Log Inode Console Fs.

Open Scope Z_scope.

(** ** Globals *)

Definition nblocks : Z := 985.
Definition nlog : Z := LOGSIZE.
Definition ninodes : Z := 200.
Definition fssize : Z := 1024.

Record mkstate : Type := Mk {
  mk_img : Z -> option block;
  freeblock : Z;
  usedblocks : Z;
  freeinode : Z
}.

Definition MK (A : Type) : Type := M mkstate A.

Definition assert_ (b : bool) : MK unit := if b then ret tt else panic "assert".

(** Values whose bytes in memory are in Intel order. *)
Definition xshort (x : Z) : Z := of_le (le_bytes 2 x).
Definition xint (x : Z) : Z := of_le (le_bytes 4 x).

(** ** Sectors *)

Definition wsect (sec : Z) (buf : block) : MK unit :=
  modify (fun s => Mk (fun t => if t =? sec then Some buf else mk_img s t) (freeblock s) (usedblocks s) (freeinode s)).

Definition rsect (sec : Z) : MK block :=
  let! img := gets mk_img in
  match img sec with
  | Some b => ret b
  | None => panic "read"
  end.

(** [freeblock++; usedblocks++] *)
Definition take_block : MK Z :=
  let! b := gets freeblock in
  modify (fun s => Mk (mk_img s) (u32 (freeblock s + 1)) (u32 (usedblocks s + 1)) (freeinode s)) ;;;
  ret b.

(** ** Inodes *)

Definition i2b (inum : Z) : Z := inum / IPB + 2.

Definition winode (inum : Z) (ip : dinode) : MK unit :=
  let bn := i2b inum in
  let! buf := rsect bn in
  wsect bn (encode_dinode (inum mod IPB * dinode_size) ip buf).

Definition rinode (inum : Z) : MK dinode :=
  let bn := i2b inum in
  let! buf := rsect bn in
  ret (decode_dinode (inum mod IPB * dinode_size) buf).

Definition mk_ialloc (type : Z) : MK Z :=
  let! inum := gets freeinode in
  modify (fun s => Mk (mk_img s) (freeblock s) (usedblocks s) (u32 (freeinode s + 1))) ;;;
  winode inum (DInode (xshort type) 0 0 (xshort 1) (xint 0) (replicate 13 0)) ;;;
  ret inum.

(** ** The bitmap *)

(** [for(i = 0; i < used; i++) buf[i/8] = buf[i/8] | (0x1 << (i%8));] *)
Fixpoint set_bits (i : Z) (n : nat) (buf : block) : block :=
  match n with
  | O => buf
  | S n => set_bits (i + 1) n (mark_used i buf)
  end.

Definition mk_balloc (used : Z) : MK unit :=
  assert_ (used <? 512 * 8) ;;;
  wsect (ninodes / IPB + 3) (set_bits 0 (Z.to_nat used) (replicate 512 x00)).

(** ** Appending to a file *)

Definition di_addr (d : dinode) (j : Z) : Z := nth (Z.to_nat j) (di_addrs d) 0.
Definition dset_addr (j a : Z) (d : dinode) : dinode :=
  DInode (di_type d) (di_major d) (di_minor d) (di_nlink d) (di_size d) (<[Z.to_nat j := a]> (di_addrs d)).
Definition dset_size (n : Z) (d : dinode) : dinode :=
  DInode (di_type d) (di_major d) (di_minor d) (di_nlink d) n (di_addrs d).

(** [if(xint(din.addrs[j]) == 0) { din.addrs[j] = xint(freeblock++); usedblocks++; }] *)
Definition iappend_addr (j : Z) (din : dinode) : MK dinode :=
  if xint (di_addr din j) =? 0 then
    let! b := take_block in
    ret (dset_addr j (xint b) din)
  else ret din.

(** The block in entry [j] of the indirect block [ib]. *)
Definition iappend_entry (ib j : Z) : MK Z :=
  let! indirect := rsect ib in
  if get32 (4 * j) indirect =? 0 then
    let! b := take_block in
    let indirect := put32 (4 * j) (xint b) indirect in
    wsect ib indirect ;;;
    ret (xint (get32 (4 * j) indirect))
  else ret (xint (get32 (4 * j) indirect)).

(** The block for file block [fbn], and the inode. *)
Definition iappend_block (fbn : Z) (din : dinode) : MK (Z * dinode) :=
  if fbn <? NDIRECT then
    let! din := iappend_addr fbn din in
    ret (xint (di_addr din fbn), din)
  else
    let! din := iappend_addr NDIRECT din in
    let! x := iappend_entry (xint (di_addr din NDIRECT)) (fbn - NDIRECT) in
    ret (x, din).

(** [while(n > 0)] of [iappend]: the final offset and inode. *)
Fixpoint iappend_loop (p : list byte) (off : Z) (din : dinode) (fuel : nat) : MK (Z * dinode) :=
  match p with
  | [] => ret (off, din)
  | _ =>
      match fuel with
      | O => nofuel
      | S fuel =>
          let fbn := off / 512 in
          assert_ (fbn <? MAXFILE) ;;;
          let! r := iappend_block fbn din in
          let (x, din) := (r : Z * dinode) in
          let n1 := Z.min (Z.of_nat (length p)) ((fbn + 1) * 512 - off) in
          let! buf := rsect x in
          wsect x (splice (off - fbn * 512) (take (Z.to_nat n1) p) buf) ;;;
          iappend_loop (drop (Z.to_nat n1) p) (off + n1) din fuel
      end
  end.

Definition iappend (inum : Z) (p : list byte) : MK unit :=
  let! din := rinode inum in
  let! r := iappend_loop p (xint (di_size din)) din (length p) in
  winode inum (dset_size (xint r.1) r.2).

(** ** main *)

(** [for(i = 0; i < nblocks + usedblocks + nlog; i++) wsect(i, zeroes);] *)
Fixpoint wzero (i : Z) (n : nat) : MK unit :=
  match n with
  | O => ret tt
  | S n => wsect i (replicate 512 x00) ;;; wzero (i + 1) n
  end.

(** [while((cc = read(fd, buf, sizeof(buf))) > 0) iappend(inum, buf, cc);] *)
Fixpoint copy_in (inum : Z) (content : list byte) (fuel : nat) : MK unit :=
  match content with
  | [] => ret tt
  | _ =>
      match fuel with
      | O => nofuel
      | S fuel =>
          iappend inum (take 512 content) ;;;
          copy_in inum (drop 512 content) fuel
      end
  end.

(** Skip leading [_]. *)
Definition strip (name : list byte) : list byte :=
  match name with
  | c :: rest => if bool_decide (c = "_"%byte) then rest else name
  | [] => []
  end.

(** One file of the command line, by its name and content. *)
Definition add_file (rootino : Z) (f : list byte * list byte) : MK unit :=
  assert_ (bool_decide (slash ∉ f.1)) ;;;
  let! inum := mk_ialloc T_FILE in
  iappend rootino (encode_dirent (strip f.1) (xshort inum)) ;;;
  copy_in inum f.2 (length f.2).

Fixpoint add_files (rootino : Z) (fs : list (list byte * list byte)) : MK unit :=
  match fs with
  | [] => ret tt
  | f :: fs => add_file rootino f ;;; add_files rootino fs
  end.

Definition bitblocks : Z := fssize / (512 * 8) + 1.
Definition firstfree : Z := ninodes / IPB + 3 + bitblocks.

(** [struct superblock sb], at the start of a zeroed buffer. *)
Definition sb_image : block :=
  splice 0 (le_bytes 4 (xint fssize) ++ le_bytes 4 (xint nblocks) ++ le_bytes 4 (xint ninodes) ++
            le_bytes 4 (xint nlog)) (replicate 512 x00).

(** Fix the size of the root directory. *)
Definition fix_root (rootino : Z) : MK unit :=
  let! din := rinode rootino in
  let off := (xint (di_size din) / BSIZE + 1) * BSIZE in
  winode rootino (dset_size (xint off) din).

Definition mkfs (fs : list (list byte * list byte)) : MK unit :=
  modify (fun s => Mk (mk_img s) firstfree firstfree (freeinode s)) ;;;
  assert_ (nblocks + firstfree + nlog =? fssize) ;;;
  wzero 0 (Z.to_nat (nblocks + firstfree + nlog)) ;;;
  wsect 1 sb_image ;;;
  let! rootino := mk_ialloc T_DIR in
  assert_ (rootino =? ROOTINO) ;;;
  iappend rootino (encode_dirent (cstr ".") (xshort rootino)) ;;;
  iappend rootino (encode_dirent (cstr "..") (xshort rootino)) ;;;
  add_files rootino fs ;;;
  fix_root rootino ;;;
  let! used := gets usedblocks in
  mk_balloc (s32 used).

(** The program starts with an empty image file. *)
Definition mk_start : mkstate := Mk (fun _ => None) 0 0 1.
