(* ===== verification/Pipe.v ===== *)
(** * Pipes: pipe.c

    A ring buffer of [PIPESIZE] bytes between a writer and a reader, with the
    counts of bytes ever read and written as 32-bit numbers.  A pipe lives in
    a page of its own and is referred to by the address of the page. *)

From S2P Require Import Prelude Layout Mem Kalloc Vm State Sched Bytes Bio Log Inode Console Fs.

Open Scope Z_scope.

Definition PIPESIZE : Z := 512.

(** ** Operations *)

Definition pipeget (p : Z) : KM pipe :=
  let! ps := gets pipes in from_option_wild (ps !! p).
Definition pipeupd (p : Z) (f : pipe -> pipe) : KM unit :=
  modify (fun k => ks_pipes (alter f p (pipes k)) k).

Section Pipe.
Context `{KernelImage} `{Wakeups}.

Definition pipeclose (p : Z) (writable : bool) : KM unit :=
  pipeget p ;;;
  acquire (LkPipe p) ;;;
  (if writable then
     pipeupd p (pis_writeopen false) ;;; wakeup (ChNread p)
   else
     pipeupd p (pis_readopen false) ;;; wakeup (ChNwrite p)) ;;;
  let! x := pipeget p in
  if negb (pi_readopen x) && negb (pi_writeopen x) then
    release (LkPipe p) ;;;
    modify (fun k => ks_pipes (delete p (pipes k)) k) ;;;
    liftM (kfree p)
  else release (LkPipe p).

(** [while(p->nwrite == p->nread + PIPESIZE)]: [false] when the writer gives
    up. *)
Fixpoint pipewrite_wait (p : Z) (w : nat) : KM bool :=
  let! x := pipeget p in
  if pi_nwrite x =? u32 (pi_nread x + PIPESIZE) then
    let! me := myproc in
    let! q := pget me in
    if negb (pi_readopen x) || p_killed q then ret false
    else
      match w with
      | O => nofuel
      | S w =>
          wakeup (ChNread p) ;;;
          sleep (ChNwrite p) (LkPipe p) ;;;
          pipewrite_wait p w
      end
  else ret true.

(** [p->data[p->nwrite++ % PIPESIZE] = b;] *)
Definition pipe_push (b : byte) (x : pipe) : pipe :=
  pis_nwrite (u32 (pi_nwrite x + 1))
    (pis_data (<[Z.to_nat (pi_nwrite x mod PIPESIZE) := b]> (pi_data x)) x).

(** [for(i = 0; i < n; i++)] with [n] bytes to go: [false] when the writer gave
    up. *)
Fixpoint pipewrite_loop (p : Z) (addr : source) (i : Z) (n : nat) : KM bool :=
  match n with
  | O => ret true
  | S n =>
      let! ok := pipewrite_wait p wakeups in
      if (ok : bool) then
        let! bs := addr i 1 in
        pipeupd p (pipe_push (hd x00 bs)) ;;;
        pipewrite_loop p addr (i + 1) n
      else ret false
  end.

Definition pipewrite (p : Z) (addr : source) (n : Z) : KM Z :=
  pipeget p ;;;
  acquire (LkPipe p) ;;;
  let! ok := pipewrite_loop p addr 0 (Z.to_nat n) in
  if (ok : bool) then
    wakeup (ChNread p) ;;;
    release (LkPipe p) ;;;
    ret n
  else
    release (LkPipe p) ;;;
    ret (-1).

(** [while(p->nread == p->nwrite && p->writeopen)]: [false] when the reader was
    killed. *)
Fixpoint piperead_wait (p : Z) (w : nat) : KM bool :=
  let! x := pipeget p in
  if (pi_nread x =? pi_nwrite x) && pi_writeopen x then
    let! me := myproc in
    let! q := pget me in
    if p_killed q then ret false
    else
      match w with
      | O => nofuel
      | S w => sleep (ChNread p) (LkPipe p) ;;; piperead_wait p w
      end
  else ret true.

(** [p->data[p->nread++ % PIPESIZE]] *)
Definition pipe_top (x : pipe) : byte := nth (Z.to_nat (pi_nread x mod PIPESIZE)) (pi_data x) x00.
Definition pipe_pop (x : pipe) : pipe := pis_nread (u32 (pi_nread x + 1)) x.

Fixpoint piperead_loop (p : Z) (addr : sink) (i : Z) (n : nat) : KM Z :=
  match n with
  | O => ret i
  | S n =>
      let! x := pipeget p in
      if pi_nread x =? pi_nwrite x then ret i
      else
        pipeupd p pipe_pop ;;;
        addr i [pipe_top x] ;;;
        piperead_loop p addr (i + 1) n
  end.

Definition piperead (p : Z) (addr : sink) (n : Z) : KM Z :=
  pipeget p ;;;
  acquire (LkPipe p) ;;;
  let! ok := piperead_wait p wakeups in
  if (ok : bool) then
    let! i := piperead_loop p addr 0 (Z.to_nat n) in
    wakeup (ChNwrite p) ;;;
    release (LkPipe p) ;;;
    ret i
  else
    release (LkPipe p) ;;;
    ret (-1).

End Pipe.
