(* ===== verification/PipeFacts.v ===== *)
(** * The pipe's ring buffer

    The cells between the two 32-bit counters are a window of the stream of
    bytes that passes through the pipe; [pipewrite] and [piperead] extend it at
    the two ends, also where the counters wrap around. *)

From S2P Require Import Prelude Layout Mem Kalloc Vm State Sched Rely Bytes Bio Log Inode Console.
From S2P Require Import Fs Pipe.

Open Scope Z_scope.

(** ** The window *)

Section Window.
Context (str : Z -> byte) (lo hi : Z).

(** The pipe [x] holds the bytes [str r], ..., [str (w - 1)] of a stream of
    which [lo] to [hi] matter. *)
Record holds (r w : Z) (x : pipe) : Prop := {
  hd_order : lo <= r <= w /\ w <= hi;
  hd_cap : w <= r + PIPESIZE;
  hd_read : pi_nread x = u32 r;
  hd_write : pi_nwrite x = u32 w;
  hd_len : length (pi_data x) = 512%nat;
  hd_data : forall j, r <= j < w -> pi_data x !! Z.to_nat (j mod PIPESIZE) = Some (str j)
}.

Lemma u32_mod w : u32 w mod PIPESIZE = w mod PIPESIZE.
Proof. unfold u32, PIPESIZE. Z.to_euclidean_division_equations. lia. Qed.

Lemma u32_inj a b : - 2 ^ 32 < a - b < 2 ^ 32 -> u32 a = u32 b -> a = b.
Proof. unfold u32. intros Hd E. Z.to_euclidean_division_equations. lia. Qed.

Lemma holds_unique r w r' w' x :
  hi - lo < 2 ^ 32 -> holds r w x -> holds r' w' x -> r' = r /\ w' = w.
Proof.
  intros Hlo [O1 _ R1 W1 _ _] [O2 _ R2 W2 _ _].
  split; apply u32_inj; try lia; congruence.
Qed.

Lemma holds_full r w x : holds r w x -> (pi_nwrite x =? u32 (pi_nread x + PIPESIZE)) = (w =? r + PIPESIZE).
Proof.
  intros [O C -> -> _ _]. apply Bool.eq_iff_eq_true. rewrite !Z.eqb_eq. unfold u32, PIPESIZE in *.
  split; [intros E|intros ->]; Z.to_euclidean_division_equations; lia.
Qed.

Lemma holds_empty r w x : holds r w x -> (pi_nread x =? pi_nwrite x) = (r =? w).
Proof.
  intros [O C -> -> _ _]. apply Bool.eq_iff_eq_true. rewrite !Z.eqb_eq. unfold PIPESIZE in *.
  split; [|by intros ->]. intros E. apply u32_inj; [lia|done].
Qed.

Lemma holds_push r w x :
  holds r w x -> w < r + PIPESIZE -> w < hi -> holds r (w + 1) (pipe_push (str w) x).
Proof.
  intros [O C Hr Hw Hl Hd] Hn Hh. unfold PIPESIZE in *. split; cbn; unfold PIPESIZE; try (lia || done).
  - rewrite Hw. unfold u32. Z.to_euclidean_division_equations. lia.
  - by rewrite length_insert.
  - intros j Hj. rewrite Hw. rewrite (u32_mod w : u32 w mod 512 = w mod 512). destruct (decide (j = w)) as [->|Hne].
    + apply list_lookup_insert_eq. rewrite Hl. Z.to_euclidean_division_equations. lia.
    + rewrite list_lookup_insert_ne; [apply Hd; lia|]. Z.to_euclidean_division_equations. lia.
Qed.

Lemma holds_pop r w x : holds r w x -> r < w -> pipe_top x = str r /\ holds (r + 1) w (pipe_pop x).
Proof.
  intros [O C Hr Hw Hl Hd] Hn. split.
  - unfold pipe_top. rewrite Hr, u32_mod. apply nth_lookup_Some, Hd. lia.
  - split; cbn; try done; try lia.
    + rewrite Hr. unfold u32. Z.to_euclidean_division_equations. lia.
    + intros j Hj. apply Hd. lia.
Qed.

Lemma holds_lock r w x b : holds r w (pis_lock b x) <-> holds r w x.
Proof. split; intros [O C Hr Hw Hl Hd]; by split. Qed.
End Window.

(** ** Sleepers *)

Definition asleep_on (c : chan) (k : kstate) : Prop :=
  exists i q, procs k !! i = Some q /\ p_state q = SLEEPING /\ p_chan q = Some c.

Definition someone_killed (k : kstate) : Prop := exists i q, procs k !! i = Some q /\ p_killed q = true.

Lemma asleep_on_procs c k k' : procs k' = procs k -> asleep_on c k' <-> asleep_on c k.
Proof. unfold asleep_on. by intros ->. Qed.

Lemma killed_procs k k' : procs k' = procs k -> someone_killed k' <-> someone_killed k.
Proof. unfold someone_killed. by intros ->. Qed.

Lemma woken_up c k : ~ asleep_on c (ks_procs (wake c <$> procs k) k).
Proof.
  intros (i & q & Hq & Hs & Hc). cbn in Hq. apply list_lookup_fmap_Some in Hq as (q0 & -> & _).
  unfold wake in *. case_bool_decide as Hd; [done|]. by destruct Hd.
Qed.

Lemma wake_asleep c c' k : asleep_on c' (ks_procs (wake c <$> procs k) k) -> asleep_on c' k.
Proof.
  intros (i & q & Hq & Hs & Hc). cbn in Hq. apply list_lookup_fmap_Some in Hq as (q0 & -> & Hq).
  unfold wake in *. case_bool_decide; [done|]. by exists i, q0.
Qed.

Lemma wake_killed c k : someone_killed (ks_procs (wake c <$> procs k) k) <-> someone_killed k.
Proof.
  split; intros (i & q & Hq & Hk).
  - cbn in Hq. apply list_lookup_fmap_Some in Hq as (q0 & -> & Hq). exists i, q0. split; [done|].
    unfold wake in Hk. by case_bool_decide.
  - exists i, (wake c q). split; [cbn; by rewrite list_lookup_fmap, Hq|]. unfold wake. by case_bool_decide.
Qed.

(** A process that changed state and channel. *)
Lemma alter_asleep (f : proc -> proc) me c k :
  asleep_on c (ks_procs (alter f me (procs k)) k) -> asleep_on c k \/
  exists q, procs k !! me = Some q /\ p_state (f q) = SLEEPING /\ p_chan (f q) = Some c.
Proof.
  intros (i & q & Hq & Hs & Hc). cbn in Hq. destruct (decide (me = i)) as [<-|Hne].
  - rewrite list_lookup_alter_eq in Hq. destruct (procs k !! me) as [q0|]; [|done].
    injection Hq as <-. right. by exists q0.
  - rewrite list_lookup_alter_ne in Hq by done. left. by exists i, q.
Qed.

Lemma alter_killed (f : proc -> proc) me k :
  (forall q, p_killed (f q) = p_killed q) ->
  someone_killed (ks_procs (alter f me (procs k)) k) <-> someone_killed k.
Proof.
  intros Hf. split; intros (i & q & Hq & Hk).
  - cbn in Hq. destruct (decide (me = i)) as [<-|Hne].
    + rewrite list_lookup_alter_eq in Hq. destruct (procs k !! me) as [q0|] eqn:E; [|done].
      injection Hq as <-. exists me, q0. by rewrite <- Hf.
    + rewrite list_lookup_alter_ne in Hq by done. by exists i, q.
  - destruct (decide (me = i)) as [<-|Hne].
    + exists me, (f q). cbn. by rewrite list_lookup_alter_eq, Hq, Hf.
    + exists i, q. cbn. by rewrite list_lookup_alter_ne.
Qed.

(** The number of locks held does not depend on a pipe's other fields. *)
Lemma ncli_pipes f p k :
  (forall x, pi_lock (f x) = pi_lock x) -> ncli (ks_pipes (alter f p (pipes k)) k) = ncli k.
Proof.
  intros Hf. unfold ncli. cbn. f_equal. rewrite <- !(size_dom (D:=gset Z)). f_equal. apply set_eq. intros i.
  rewrite !elem_of_dom. unfold is_Some. destruct (decide (p = i)) as [<-|Hne].
  - split; intros [x Hx]; apply map_lookup_filter_Some in Hx as [Hx Hl].
    + rewrite lookup_alter_eq in Hx. destruct (pipes k !! p) as [y|] eqn:E; [|done].
      injection Hx as <-. exists y. apply map_lookup_filter_Some. by rewrite <- Hf.
    + exists (f x). apply map_lookup_filter_Some. rewrite lookup_alter_eq, Hx. cbn in *. by rewrite Hf.
  - split; intros [x Hx]; exists x; apply map_lookup_filter_Some; apply map_lookup_filter_Some in Hx as [Hx Hl];
      by rewrite ?lookup_alter_ne in * by done.
Qed.

(** ** Readers and writers *)

Section Ends.
Context `{Wakeups} (str : Z -> byte) (lo hi p : Z) (Hwin : hi - lo < 2 ^ 32).

(** [J] says that the writer's buffer in memory still holds its bytes; [peek]
    reads the reader's buffer. *)
Context (J : kstate -> Prop) (peek : kstate -> Z -> byte).
Context (J_ms : forall k k', ms k' = ms k -> J k -> J k').
Context (peek_ms : forall k k' j, ms k' = ms k -> peek k' j = peek k j).

(** Nobody sleeps without a reason: a sleeping reader has found the pipe empty
    (a writer killed in mid-write may leave it non-empty), a sleeping writer
    has found it full. *)
Definition no_lost (k : kstate) (x : pipe) : Prop :=
  (asleep_on (ChNread p) k -> pi_readopen x = true /\ pi_writeopen x = true /\
    (pi_nread x = pi_nwrite x \/ someone_killed k)) /\
  (asleep_on (ChNwrite p) k -> pi_readopen x = true /\ pi_writeopen x = true /\
    pi_nwrite x = u32 (pi_nread x + PIPESIZE)).

(** Outside critical sections: the window, the two ends and the sleepers. *)
Definition sees (k : kstate) (r w : Z) (ro wo : bool) : Prop :=
  exists x, pipes k !! p = Some x /\ holds str lo hi r w x /\ pi_readopen x = ro /\
    pi_writeopen x = wo /\ no_lost k x /\ J k.

Lemma sees_unique k r w ro wo r' w' ro' wo' :
  sees k r w ro wo -> sees k r' w' ro' wo' -> r' = r /\ w' = w /\ ro' = ro /\ wo' = wo.
Proof.
  intros (x & Hx & Hh & <- & <- & _) (x' & Hx' & Hh' & <- & <- & _).
  rewrite Hx in Hx'. injection Hx' as <-. destruct (holds_unique _ _ _ _ _ _ _ _ Hwin Hh Hh'). done.
Qed.

(** What a writer lets happen: readers take bytes, and may close their end. *)
Definition while_writing (k k' : kstate) : Prop :=
  forall r w ro wo, sees k r w ro wo -> exists r' ro', r <= r' /\ sees k' r' w ro' wo.

(** What a reader lets happen: writers add bytes, and may close their end for
    good; the reader's buffer stays as it is. *)
Definition while_reading (k k' : kstate) : Prop :=
  (forall r w ro wo, sees k r w ro wo -> exists w' wo', w <= w' /\
    (wo = false -> wo' = false /\ w' = w) /\ sees k' r w' ro wo') /\
  forall j, peek k' j = peek k j.

(** What a writer does: it adds bytes. *)
Definition adds (k k' : kstate) : Prop :=
  (forall r w ro wo, sees k r w ro wo -> exists w', w <= w' /\ (wo = false -> w' = w) /\ sees k' r w' ro wo) /\
  forall j, peek k' j = peek k j.

(** What a reader does: it takes bytes. *)
Definition takes (k k' : kstate) : Prop :=
  forall r w ro wo, sees k r w ro wo -> exists r', r <= r' /\ sees k' r' w ro wo.

Lemma adds_reading k k' : adds k k' -> while_reading k k'.
Proof.
  intros [Ha Hp]. split; [|done]. intros r w ro wo S. destruct (Ha _ _ _ _ S) as (w' & Hw & Hc & S').
  exists w', wo. split; [done|]. split; [|done]. intros E. by rewrite (Hc E).
Qed.

Lemma takes_writing k k' : takes k k' -> while_writing k k'.
Proof.
  intros Ht r w ro wo S. destruct (Ht _ _ _ _ S) as (r' & Hr & S'). by exists r', ro.
Qed.

Lemma while_writing_trans k1 k2 k3 : while_writing k1 k2 -> while_writing k2 k3 -> while_writing k1 k3.
Proof.
  intros H1 H2 r w ro wo S1. destruct (H1 _ _ _ _ S1) as (r2 & ro2 & L2 & S2).
  destruct (H2 _ _ _ _ S2) as (r3 & ro3 & L3 & S3). exists r3, ro3. split; [lia|done].
Qed.

Lemma while_reading_trans k1 k2 k3 : while_reading k1 k2 -> while_reading k2 k3 -> while_reading k1 k3.
Proof.
  intros [H1 P1] [H2 P2]. split; [|intros j; by rewrite P2].
  intros r w ro wo S1. destruct (H1 _ _ _ _ S1) as (w2 & wo2 & L2 & C2 & S2).
  destruct (H2 _ _ _ _ S2) as (w3 & wo3 & L3 & C3 & S3). exists w3, wo3. split; [lia|]. split; [|done].
  intros E. destruct (C2 E) as [E2 ->]. by apply C3.
Qed.

(** Inside a critical section of process [me], with the sleepers as [L] has
    them. *)
Definition mid (L : kstate -> pipe -> Prop) (me : nat) (k : kstate) (r w : Z) (ro wo : bool) : Prop :=
  exists x, pipes k !! p = Some x /\ holds str lo hi r w x /\ pi_readopen x = ro /\
    pi_writeopen x = wo /\ L k x /\ J k /\ pi_lock x = true /\ cur k = Some me /\ ncli k = 1%nat /\
    exists q, procs k !! me = Some q.

(** While a writer adds bytes a reader may be asleep, and conversely. *)
Definition writing (k : kstate) (x : pipe) : Prop :=
  (asleep_on (ChNread p) k -> pi_readopen x = true /\ pi_writeopen x = true) /\
  (asleep_on (ChNwrite p) k -> pi_readopen x = true /\ pi_writeopen x = true /\
    pi_nwrite x = u32 (pi_nread x + PIPESIZE)).

Definition reading (k : kstate) (x : pipe) : Prop :=
  (asleep_on (ChNread p) k -> pi_readopen x = true /\ pi_writeopen x = true /\
    (pi_nread x = pi_nwrite x \/ someone_killed k)) /\
  (asleep_on (ChNwrite p) k -> pi_readopen x = true /\ pi_writeopen x = true).

Lemma wp_pipeget k x Q : pipes k !! p = Some x -> Q x k -> wp (pipeget p) k Q.
Proof. intros E HQ. unfold pipeget. apply wp_bind, wp_gets. by rewrite E. Qed.

Lemma pipe_holding k x : pipes k !! p = Some x -> holding (LkPipe p) k = pi_lock x.
Proof. intros E. unfold holding, pipe_locked. by rewrite E. Qed.

Lemma no_lost_lock k k' x b : procs k' = procs k -> no_lost k' (pis_lock b x) <-> no_lost k x.
Proof.
  intros E. unfold no_lost. by rewrite !(asleep_on_procs _ k k'), (killed_procs k k').
Qed.

(** Entering and leaving the critical section. *)
Lemma mid_enter me k r w ro wo :
  sees k r w ro wo -> ncli k = 0%nat -> cur k = Some me -> (exists q, procs k !! me = Some q) ->
  holding (LkPipe p) k = false /\ mid no_lost me (set_lock (LkPipe p) true k) r w ro wo.
Proof.
  intros (x & Hx & Hh & <- & <- & Hn & HJ) Hc Hm Hq. assert (Hl : holding (LkPipe p) k = false).
  { destruct (holding (LkPipe p) k) eqn:E; [|done]. pose proof (ncli_release _ _ E). lia. }
  split; [done|]. exists (pis_lock true x).
  split; [unfold set_lock; cbn; by rewrite lookup_alter_eq, Hx|].
  split; [by apply holds_lock|]. do 2 (split; [done|]).
  split; [apply (no_lost_lock k); [by rewrite set_lock_procs|done]|].
  split; [apply (J_ms k); [by rewrite set_lock_ms|done]|]. split; [done|].
  split; [by rewrite set_lock_cur|]. rewrite set_lock_procs. split; [|done].
  rewrite ncli_acquire; [lia|done|]. by exists x.
Qed.

Lemma mid_leave me k r w ro wo :
  mid no_lost me k r w ro wo ->
  holding (LkPipe p) k = true /\ sees (set_lock (LkPipe p) false k) r w ro wo.
Proof.
  intros (x & Hx & Hh & <- & <- & Hn & HJ & Hl & _). split; [by rewrite (pipe_holding _ x)|].
  exists (pis_lock false x). split; [unfold set_lock; cbn; by rewrite lookup_alter_eq, Hx|].
  split; [by apply holds_lock|]. do 2 (split; [done|]).
  split; [apply (no_lost_lock k); [by rewrite set_lock_procs|done]|].
  apply (J_ms k); [by rewrite set_lock_ms|done].
Qed.

Lemma mid_weaken (L L' : kstate -> pipe -> Prop) me k r w ro wo :
  (forall x, pi_readopen x = ro -> pi_writeopen x = wo -> holds str lo hi r w x -> L k x -> L' k x) ->
  mid L me k r w ro wo -> mid L' me k r w ro wo.
Proof.
  intros HL (x & Hx & Hh & Hr & Hw & Hn & Hrest). exists x. do 4 (split; [done|]). split; [by apply HL|done].
Qed.

Lemma mid_unlocked L me k r w ro wo : mid L me k r w ro wo -> pt_lock k = false.
Proof.
  intros (x & Hx & _ & _ & _ & _ & _ & Hl & _ & Hn & _).
  apply (ncli_other (LkPipe p) LkPtable); [by rewrite (pipe_holding _ x)|done|done].
Qed.

(** [wakeup] inside the critical section. *)
Lemma mid_wakeup (L L' : kstate -> pipe -> Prop) c me k r w ro wo (Q : unit -> kstate -> Prop) :
  (forall x, holds str lo hi r w x -> L k x -> L' (ks_procs (wake c <$> procs k) k) x) ->
  mid L me k r w ro wo ->
  (forall k', ms k' = ms k -> mid L' me k' r w ro wo -> Q tt k') -> wp (wakeup c) k Q.
Proof.
  intros HL M HQ. apply wp_wakeup; [by eapply mid_unlocked|]. apply HQ; [done|].
  destruct M as (x & Hx & Hh & Hr & Hw & Hn & HJ & Hl & Hc & Hcl & q & Hq).
  exists x. do 4 (split; [done|]). split; [by apply HL|]. split; [by apply (J_ms k)|]. do 3 (split; [done|]).
  cbn. rewrite list_lookup_fmap, Hq. by eexists.
Qed.

(** Changing the pipe inside the critical section. *)
Lemma mid_update (L L' : kstate -> pipe -> Prop) f me k r w r' w' ro wo :
  (forall x, holds str lo hi r w x -> holds str lo hi r' w' (f x)) ->
  (forall x, pi_readopen (f x) = pi_readopen x /\ pi_writeopen (f x) = pi_writeopen x /\
    pi_lock (f x) = pi_lock x) ->
  (forall x, pi_readopen x = ro -> pi_writeopen x = wo -> holds str lo hi r w x -> L k x ->
    L' (ks_pipes (alter f p (pipes k)) k) (f x)) ->
  mid L me k r w ro wo -> mid L' me (ks_pipes (alter f p (pipes k)) k) r' w' ro wo.
Proof.
  intros Hf Hk HL (x & Hx & Hh & Hr & Hw & Hn & HJ & Hl & Hc & Hcl & Hq). destruct (Hk x) as (K1 & K2 & K3).
  exists (f x). split; [cbn; by rewrite lookup_alter_eq, Hx|]. split; [by apply Hf|].
  split; [by rewrite K1|]. split; [by rewrite K2|]. split; [by apply HL|].
  split; [by apply (J_ms k)|]. split; [by rewrite K3|]. split; [done|]. split; [|done].
  rewrite ncli_pipes; [done|]. intros y. by apply Hk.
Qed.

(** Falling asleep, and waking up. *)
Definition reason (c : chan) (x : pipe) : Prop :=
  pi_readopen x = true /\ pi_writeopen x = true /\
  (c = ChNread p /\ pi_nread x = pi_nwrite x \/
   c = ChNwrite p /\ pi_nwrite x = u32 (pi_nread x + PIPESIZE)).

Lemma mid_sleep me c k r w ro wo :
  mid (fun k x => no_lost k x /\ reason c x) me k r w ro wo ->
  sees (sleep_state me c (LkPipe p) k) r w ro wo.
Proof.
  intros (x & Hx & Hh & <- & <- & [Hn (Ro & Wo & Hc)] & HJ & Hl & Hm & Hcl & q & Hq).
  exists (pis_lock false x). split; [unfold sleep_state, asleep, set_lock; cbn; by rewrite lookup_alter_eq, Hx|].
  split; [by apply holds_lock|]. do 2 (split; [done|]).
  split; [|apply (J_ms k); [cbn; by rewrite !set_lock_ms|done]].
  set (f := fun q => ps_state SLEEPING (ps_chan (Some c) q)).
  apply (no_lost_lock (ks_procs (alter f me (procs k)) k)).
  { unfold sleep_state, asleep. cbn. by rewrite !set_lock_procs, alter_fuse. }
  destruct Hn as [N1 N2]. unfold no_lost. rewrite alter_killed by done. split; intros Ha; apply alter_asleep in Ha.
  - destruct Ha as [Ha|(q' & _ & _ & [= ->])]; [by apply N1|].
    destruct Hc as [[_ Hc]|[[=] _]]. do 2 (split; [done|]). by left.
  - destruct Ha as [Ha|(q' & _ & _ & [= ->])]; [by apply N2|].
    destruct Hc as [[[=] _]|[_ Hc]]. done.
Qed.

Lemma mid_resume me k r w ro wo :
  sees k r w ro wo -> resumed me k -> mid no_lost me (woken me (LkPipe p) k) r w ro wo.
Proof.
  intros (x & Hx & Hh & <- & <- & Hn & HJ) Hr.
  destruct (woken_holds me (LkPipe p) k Hr) as (W1 & W2 & W3 & q & W4); [by exists x|done|].
  exists (pis_lock true x). split; [unfold woken, set_lock; cbn; by rewrite lookup_alter_eq, Hx|].
  split; [by apply holds_lock|]. do 2 (split; [done|]).
  split; [|split; [apply (J_ms k); [unfold woken; by rewrite !set_lock_ms|done]|by eauto 10]].
  apply (no_lost_lock (ks_procs (alter (ps_chan None) me (procs k)) k)).
  { unfold woken. by rewrite !set_lock_procs. }
  destruct Hn as [N1 N2]. unfold no_lost. rewrite alter_killed by done.
  split; intros [Ha|(q' & _ & _ & [=])]%alter_asleep; [by apply N1|by apply N2].
Qed.

(** *** The writer *)

(** The segment of the writer that began in [k0] has added bytes up to [w] and
    changed nothing else that the reader sees. *)
Definition wseg (k0 k : kstate) (r w : Z) (ro wo : bool) : Prop :=
  (exists w1, w1 <= w /\ sees k0 r w1 ro wo) /\ ms k = ms k0.

Lemma wseg_start k r w ro wo : sees k r w ro wo -> wseg k k r w ro wo.
Proof. intros S. split; [|done]. exists w. split; [lia|done]. Qed.

Lemma wseg_guar k0 k k' r w ro :
  wseg k0 k r w ro true -> ms k' = ms k -> sees k' r w ro true -> adds k0 k'.
Proof.
  intros [(w1 & Hw & S0) Hm] Hm' S'. split; [|intros j; apply peek_ms; congruence].
  intros r2 w2 ro2 wo2 S2. destruct (sees_unique _ _ _ _ _ _ _ _ _ S0 S2) as (-> & -> & -> & ->).
  exists w. split; [done|]. by split.
Qed.

Lemma wseg_ms k0 k k' r w ro wo : wseg k0 k r w ro wo -> ms k' = ms k -> wseg k0 k' r w ro wo.
Proof. intros [? ?] ?. split; [done|congruence]. Qed.

Lemma wseg_more k0 k r w w' ro wo : wseg k0 k r w ro wo -> w <= w' -> wseg k0 k r w' ro wo.
Proof. intros [(w1 & ? & ?) ?] ?. split; [|done]. exists w1. split; [lia|done]. Qed.

Lemma pipewrite_wait_unfold n :
  pipewrite_wait p n =
  let! x := pipeget p in
  if pi_nwrite x =? u32 (pi_nread x + PIPESIZE) then
    let! me := myproc in
    let! q := pget me in
    if negb (pi_readopen x) || p_killed q then ret false
    else match n with
         | O => nofuel
         | S n => wakeup (ChNread p) ;;; sleep (ChNwrite p) (LkPipe p) ;;; pipewrite_wait p n
         end
  else ret true.
Proof. by destruct n. Qed.

Abbreviation rely_w me := (rely adds while_writing me).
Abbreviation rely_r me := (rely takes while_reading me).

Lemma wake_readers k x :
  writing k x -> no_lost (ks_procs (wake (ChNread p) <$> procs k) k) x.
Proof.
  intros [W1 W2]. split; intros Ha; [by apply woken_up in Ha|]. apply wake_asleep in Ha. by apply W2.
Qed.

Lemma write_wait me n : forall k0 k r w ro,
  mid writing me k r w ro true -> wseg k0 k r w ro true ->
  rely_w me (pipewrite_wait p n) k0 k (fun k1 ok k' => exists r' ro',
    mid writing me k' r' w ro' true /\ wseg k1 k' r' w ro' true /\
    if ok : bool then w < r' + PIPESIZE else ro' = false \/ someone_killed k').
Proof.
  induction n as [n IH] using lt_wf_ind. intros k0 k r w ro M S. rewrite pipewrite_wait_unfold.
  pose proof M as (x & Hx & Hh & Hro & _ & _ & _ & Hl & Hc & Hcl & q & Hq).
  apply rely_bind, rely_wp, (wp_pipeget k x); [done|]. rewrite (holds_full _ _ _ _ _ _ Hh).
  destruct (Z.eqb_spec w (r + PIPESIZE)) as [Ef|Ef].
  2: { apply rely_ret. exists r, ro. do 2 (split; [done|]). pose proof (hd_cap _ _ _ _ _ _ Hh). lia. }
  apply rely_bind, rely_wp, (wp_myproc me); [done|]. apply rely_bind, rely_wp, (wp_pget me q); [done|].
  destruct (pi_readopen x) eqn:Ero; cbn [negb orb].
  2: { apply rely_ret. exists r, ro. do 2 (split; [done|]). left. congruence. }
  destruct (p_killed q) eqn:Ek.
  { apply rely_ret. exists r, ro. do 2 (split; [done|]). right. by exists me, q. }
  destruct n as [|n]; [apply rely_nofuel|]. subst ro.
  apply rely_bind, rely_wp. apply (mid_wakeup writing (fun k x => no_lost k x) _ me k r w true true); [|done|].
  { intros y _. apply wake_readers. }
  intros k2 Em M2. apply rely_bind. pose proof M2 as (y & Hy & _ & _ & _ & _ & _ & Hly & Hcy & Hcly & q2 & Hq2).
  assert (S2 : sees (sleep_state me (ChNwrite p) (LkPipe p) k2) r w true true).
  { apply mid_sleep. eapply mid_weaken; [|exact M2]. intros z Rz Wz Hz Nz. split; [done|].
    do 2 (split; [done|]). right. split; [done|]. apply Z.eqb_eq. rewrite (holds_full _ _ _ _ _ _ Hz). lia. }
  eapply (rely_sleep _ _ _ _ _ _ _ q2); try done.
  - by rewrite (pipe_holding _ y).
  - eapply (wseg_guar k0 k); [done| |done]. unfold sleep_state, asleep. cbn. by rewrite !set_lock_ms.
  - intros k3 HR Hr3. destruct (HR _ _ _ _ S2) as (r3 & ro3 & Hr & S3).
    eapply rely_mono; [apply (IH n ltac:(lia) k3 _ r3 w ro3)|].
    + eapply mid_weaken; [|by apply mid_resume]. intros z _ _ _ [N1 N2]. split; [|done].
      intros Ha. destruct (N1 Ha) as (? & ? & _). done.
    + apply (wseg_ms k3 k3); [by apply wseg_start|]. unfold woken. by rewrite !set_lock_ms.
    + done.
Qed.

Lemma sees_ext k k' r w ro wo :
  pipes k' = pipes k -> procs k' = procs k -> ms k' = ms k -> sees k r w ro wo -> sees k' r w ro wo.
Proof.
  intros Ep Eq Em (x & Hx & Hh & Hr & Hw & Hn & HJ). exists x. rewrite Ep. do 4 (split; [done|]).
  split; [|by apply (J_ms k)]. by apply (no_lost_lock k k' x (pi_lock x) Eq).
Qed.

(** A thread of process [me] on its way out of [sched] or [yield]. *)
Lemma resumed_free me k :
  resumed me k -> ncli (set_lock LkPtable false k) = 0%nat /\ holding LkPtable k = true /\
  cur (set_lock LkPtable false k) = Some me /\ exists q, procs (set_lock LkPtable false k) !! me = Some q.
Proof.
  intros (Hc & Hp & Hn & q & Hq & _). assert (Hh : holding LkPtable k = true) by done.
  pose proof (ncli_release _ _ Hh) as En. split; [lia|]. split; [done|]. rewrite set_lock_cur, set_lock_procs.
  split; [done|]. by exists q.
Qed.

Section Write.
Context (src : source) (base N : Z) (me : nat).
Context (Hsrc : forall k i, J k -> 0 <= i < N -> src i 1 k = Ok [str (base + i)] k).
Context (Hfit : base + N <= hi).

Lemma push_ok k k' x b r w :
  holds str lo hi r w x -> w < r + PIPESIZE -> procs k' = procs k -> writing k x -> writing k' (pipe_push b x).
Proof.
  intros Hh Hw Ep [W1 W2]. unfold writing. rewrite !(asleep_on_procs _ k k') by done. split; [done|].
  intros Ha. destruct (W2 Ha) as (_ & _ & Hf). apply Z.eqb_eq in Hf. rewrite (holds_full _ _ _ _ _ _ Hh) in Hf. lia.
Qed.

Lemma write_loop n : forall i k0 k r ro,
  0 <= i -> i + Z.of_nat n = N -> mid writing me k r (base + i) ro true -> wseg k0 k r (base + i) ro true ->
  rely_w me (pipewrite_loop p src i n) k0 k (fun k1 ok k' => exists r' w' ro',
    mid writing me k' r' w' ro' true /\ wseg k1 k' r' w' ro' true /\ base + i <= w' <= base + N /\
    if ok : bool then w' = base + N else ro' = false \/ someone_killed k').
Proof.
  induction n as [|n IH]; intros i k0 k r ro Hi Hn M S; cbn [pipewrite_loop].
  - apply rely_ret. exists r, (base + i), ro. split; [done|]. split; [done|]. lia.
  - apply rely_bind. eapply rely_mono; [exact (write_wait me wakeups k0 k r (base + i) ro M S)|].
    intros k1 ok k2 (r2 & ro2 & M2 & S2 & Hok). destruct ok.
    2: { apply rely_ret. exists r2, (base + i), ro2. split; [done|]. split; [done|]. split; [lia|done]. }
    pose proof M2 as (x & Hx & Hh & _ & _ & _ & HJ & _).
    apply rely_bind. unfold rely. rewrite (Hsrc k2 i) by (done || lia). cbn [orely hd].
    apply rely_bind, rely_wp, wp_modify.
    assert (M3 : mid writing me (ks_pipes (alter (pipe_push (str (base + i))) p (pipes k2)) k2)
      r2 (base + (i + 1)) ro2 true).
    { rewrite Z.add_assoc. eapply (mid_update writing); [|done| |exact M2].
      - intros y Hy. apply holds_push; [done|done|lia].
      - intros y _ _ Hy Wy. by apply (push_ok k2 _ y _ r2 (base + i)). }
    eapply rely_mono; [apply (IH (i + 1) k1 _ r2 ro2); [lia|lia|exact M3|]|].
    + apply (wseg_more _ _ _ (base + i)); [|lia]. by apply (wseg_ms k1 k2).
    + intros k4 ok k5 (r5 & w5 & ro5 & M5 & S5 & Hw5 & Hok5). exists r5, w5, ro5.
      do 2 (split; [done|]). split; [lia|done].
Qed.

Lemma write_rely k r ro :
  0 <= N -> resumed me k -> sees k r base ro true ->
  rely_w me (release LkPtable ;;; pipewrite p src N) k k (fun k1 a k' => adds k1 k' /\
    exists r' w' ro', sees k' r' w' ro' true /\ base <= w' <= base + N /\
      (a = N /\ w' = base + N \/ a = -1)).
Proof.
  intros HN Hr S. destruct (resumed_free me k Hr) as (Hn & Hh & Hc & Hq).
  apply rely_bind, rely_wp, wp_release; [done|]. set (k1 := set_lock LkPtable false k) in *.
  assert (S1 : sees k1 r base ro true) by (by apply (sees_ext k)).
  destruct (mid_enter me k1 r base ro true S1 Hn Hc Hq) as [Hl M]. pose proof S1 as (x & Hx & _).
  unfold pipewrite. apply rely_bind, rely_wp, (wp_pipeget _ x); [done|].
  apply rely_bind, rely_wp, wp_acquire; [done|]. apply rely_bind.
  eapply rely_mono; [apply (write_loop (Z.to_nat N) 0 k _ r ro); [lia|lia| |]|].
  - rewrite Z.add_0_r. eapply mid_weaken; [|exact M]. intros z _ _ _ [N1 N2]. split; [|done].
    intros Ha. destruct (N1 Ha) as (? & ? & _). done.
  - rewrite Z.add_0_r. apply (wseg_ms k k); [by apply wseg_start|done].
  - intros k2 ok k3 (r3 & w3 & ro3 & M3 & S3 & Hw3 & Hok). destruct ok.
    + apply rely_bind, rely_wp. apply (mid_wakeup writing no_lost _ me k3 r3 w3 ro3 true); [|done|].
      { intros y _. apply wake_readers. }
      intros k4 Em M4. destruct (mid_leave _ _ _ _ _ _ M4) as [Hl4 S4].
      apply rely_bind, rely_wp, wp_release; [done|]. apply rely_ret. split.
      * eapply (wseg_guar k2 k3); [done| |done]. by rewrite set_lock_ms.
      * exists r3, w3, ro3. split; [done|]. split; [lia|]. by left.
    + assert (M4 : mid no_lost me k3 r3 w3 ro3 true).
      { eapply mid_weaken; [|exact M3]. intros y Hro Hwo _ [W1 W2]. split; [|done]. intros Ha.
        destruct (W1 Ha) as [A1 A2]. do 2 (split; [done|]). destruct Hok as [->|Hk]; [congruence|by right]. }
      destruct (mid_leave _ _ _ _ _ _ M4) as [Hl4 S4].
      apply rely_bind, rely_wp, wp_release; [done|]. apply rely_ret. split.
      * eapply (wseg_guar k2 k3); [done| |done]. by rewrite set_lock_ms.
      * exists r3, w3, ro3. split; [done|]. split; [lia|]. by right.
Qed.
End Write.

(** *** The reader *)

Lemma rseg_guar k0 k r0 r w ro wo :
  sees k0 r0 w ro wo -> r0 <= r -> sees k r w ro wo -> takes k0 k.
Proof.
  intros S0 Hr S r2 w2 ro2 wo2 S2. destruct (sees_unique _ _ _ _ _ _ _ _ _ S0 S2) as (-> & -> & -> & ->).
  by exists r.
Qed.

Lemma piperead_wait_unfold n :
  piperead_wait p n =
  let! x := pipeget p in
  if (pi_nread x =? pi_nwrite x) && pi_writeopen x then
    let! me := myproc in
    let! q := pget me in
    if p_killed q then ret false
    else match n with
         | O => nofuel
         | S n => sleep (ChNread p) (LkPipe p) ;;; piperead_wait p n
         end
  else ret true.
Proof. by destruct n. Qed.

Lemma read_wait me r n : forall k0 k w wo,
  mid no_lost me k r w true wo -> sees k0 r w true wo ->
  rely_r me (piperead_wait p n) k0 k (fun k1 ok k' => exists w' wo',
    mid no_lost me k' r w' true wo' /\ sees k1 r w' true wo' /\
    if ok : bool then r < w' \/ wo' = false else someone_killed k').
Proof.
  induction n as [n IH] using lt_wf_ind. intros k0 k w wo M S. rewrite piperead_wait_unfold.
  pose proof M as (x & Hx & Hh & Hro & Hwo & _ & _ & Hl & Hc & Hcl & q & Hq).
  apply rely_bind, rely_wp, (wp_pipeget k x); [done|]. rewrite (holds_empty _ _ _ _ _ _ Hh).
  destruct (Z.eqb_spec r w) as [->|Ef]; cbn [andb].
  2: { apply rely_ret. exists w, wo. do 2 (split; [done|]). left. pose proof (hd_order _ _ _ _ _ _ Hh). lia. }
  destruct (pi_writeopen x) eqn:Ewo.
  2: { apply rely_ret. exists w, wo. do 2 (split; [done|]). right. congruence. }
  apply rely_bind, rely_wp, (wp_myproc me); [done|]. apply rely_bind, rely_wp, (wp_pget me q); [done|].
  destruct (p_killed q) eqn:Ek.
  { apply rely_ret. exists w, wo. do 2 (split; [done|]). by exists me, q. }
  destruct n as [|n]; [apply rely_nofuel|]. subst wo. apply rely_bind.
  assert (S2 : sees (sleep_state me (ChNread p) (LkPipe p) k) w w true true).
  { apply mid_sleep. eapply mid_weaken; [|exact M]. intros z Rz Wz Hz Nz. split; [done|].
    do 2 (split; [done|]). left. split; [done|]. apply Z.eqb_eq. rewrite (holds_empty _ _ _ _ _ _ Hz).
    apply Z.eqb_refl. }
  eapply (rely_sleep _ _ _ _ _ _ _ q); try done.
  - by rewrite (pipe_holding _ x).
  - eapply (rseg_guar k0 _ w w); [done|lia|done].
  - intros k3 [HR _] Hr3. destruct (HR _ _ _ _ S2) as (w3 & wo3 & Hr & _ & S3).
    apply (IH n ltac:(lia) k3 _ w3 wo3); [by apply mid_resume|done].
Qed.

Section Read.
Context (dst : sink) (base N : Z) (me : nat).

(** The buffer takes a byte; nothing else of interest changes. *)
Definition stores : Prop := forall k i b, 0 <= i < N -> exists s,
  dst i [b] k = Ok tt (ks_ms s k) /\ kmem_lock s = kmem_lock (ms k) /\ (J k -> J (ks_ms s k)) /\
  forall j, peek (ks_ms s k) j = if j =? i then b else peek k j.
Context (Hdst : stores).

Lemma pop_ok k k' x r w :
  holds str lo hi r w x -> r < w -> procs k' = procs k -> reading k x -> reading k' (pipe_pop x).
Proof.
  intros Hh Hw Ep [R1 R2]. unfold reading. rewrite !(asleep_on_procs _ k k'), (killed_procs k k') by done.
  split; [|done]. intros Ha. destruct (R1 Ha) as (A1 & A2 & [Hf|Hk]).
  - apply Z.eqb_eq in Hf. rewrite (holds_empty _ _ _ _ _ _ Hh) in Hf. lia.
  - do 2 (split; [done|]). by right.
Qed.

Lemma mid_memory L k s r w ro wo :
  kmem_lock s = kmem_lock (ms k) -> (J k -> J (ks_ms s k)) ->
  (forall x, L k x -> L (ks_ms s k) x) -> mid L me k r w ro wo -> mid L me (ks_ms s k) r w ro wo.
Proof.
  intros Hs HJs HL (x & Hx & Hh & Hr & Hw & Hn & HJ & Hl & Hc & Hcl & Hq). exists x.
  do 4 (split; [done|]). split; [by apply HL|]. split; [by apply HJs|]. do 2 (split; [done|]).
  split; [|done]. unfold ncli in *. cbn. by rewrite Hs.
Qed.

Lemma read_loop n : forall i k w wo,
  0 <= i -> i + Z.of_nat n = N -> mid reading me k (base + i) w true wo ->
  wp (piperead_loop p dst i n) k (fun a k' => mid reading me k' (base + a) w true wo /\
    i <= a <= N /\ (a < N -> base + a = w) /\ (forall j, i <= j < a -> peek k' j = str (base + j)) /\
    forall j, j < i -> peek k' j = peek k j).
Proof.
  induction n as [|n IH]; intros i k w wo Hi Hn M; cbn [piperead_loop].
  - apply wp_ret. split; [done|]. split; [lia|]. split; [lia|]. split; [lia|done].
  - pose proof M as (x & Hx & Hh & _). apply wp_bind, (wp_pipeget k x); [done|].
    rewrite (holds_empty _ _ _ _ _ _ Hh). destruct (Z.eqb_spec (base + i) w) as [E|E].
    { apply wp_ret. split; [done|]. split; [lia|]. split; [done|]. split; [lia|done]. }
    assert (Hw : base + i < w) by (pose proof (hd_order _ _ _ _ _ _ Hh); lia).
    destruct (holds_pop _ _ _ _ _ _ Hh Hw) as [Ht _]. apply wp_bind, wp_modify.
    assert (M2 : mid reading me (ks_pipes (alter pipe_pop p (pipes k)) k) (base + (i + 1)) w true wo).
    { rewrite Z.add_assoc. eapply (mid_update reading); [|done| |exact M].
      - intros y Hy. by apply holds_pop.
      - intros y _ _ Hy Wy. by apply (pop_ok k _ y (base + i) w). }
    rewrite Ht. set (k2 := ks_pipes _ k) in *. destruct (Hdst k2 i (str (base + i))) as (s & Es & Hs & HJs & Hp); [lia|].
    apply wp_bind. unfold wp at 1. rewrite Es.
    wp_use (IH (i + 1) (ks_ms s k2) w wo); [lia|lia|by apply mid_memory|].
    intros a k' (Ma & Ha & Hf & Hd & Hk). split; [done|]. split; [lia|]. split; [done|]. split.
    + intros j Hj. destruct (decide (j = i)) as [->|Hne]; [|apply Hd; lia].
      rewrite Hk, Hp, Z.eqb_refl by lia. done.
    + intros j Hj. rewrite Hk, Hp by lia. destruct (Z.eqb_spec j i); [lia|]. by apply peek_ms.
Qed.

Lemma wake_writers k x : reading k x -> no_lost (ks_procs (wake (ChNwrite p) <$> procs k) k) x.
Proof.
  intros [R1 R2]. unfold no_lost. rewrite wake_killed.
  split; intros Ha; [|by apply woken_up in Ha]. apply wake_asleep in Ha. by apply R1.
Qed.

Lemma read_rely k w wo :
  0 <= N -> resumed me k -> sees k base w true wo ->
  rely_r me (release LkPtable ;;; piperead p dst N) k k (fun k1 a k' => takes k1 k' /\
    exists w' wo', sees k' (base + Z.max a 0) w' true wo' /\ -1 <= a <= N /\
      (a = 0 -> N = 0 \/ wo' = false /\ w' = base) /\
      forall j, 0 <= j < a -> peek k' j = str (base + j)).
Proof.
  intros HN Hr S. destruct (resumed_free me k Hr) as (Hn & Hh & Hc & Hq).
  apply rely_bind, rely_wp, wp_release; [done|]. set (k1 := set_lock LkPtable false k) in *.
  assert (S1 : sees k1 base w true wo) by (by apply (sees_ext k)).
  destruct (mid_enter me k1 base w true wo S1 Hn Hc Hq) as [Hl M]. pose proof S1 as (x & Hx & _).
  unfold piperead. apply rely_bind, rely_wp, (wp_pipeget _ x); [done|].
  apply rely_bind, rely_wp, wp_acquire; [done|]. apply rely_bind.
  eapply rely_mono; [exact (read_wait me base wakeups k _ w wo M S)|].
  intros k2 ok k3 (w3 & wo3 & M3 & S3 & Hok). destruct ok.
  - assert (M4 : mid reading me k3 (base + 0) w3 true wo3).
    { rewrite Z.add_0_r. eapply mid_weaken; [|exact M3]. intros z _ _ _ [N1 N2]. split; [done|].
      intros Ha. destruct (N2 Ha) as (? & ? & _). done. }
    apply rely_bind, rely_wp. wp_use (read_loop (Z.to_nat N) 0 k3 w3 wo3); [lia|lia|done|].
    intros a k5 (M5 & Ha & Hf & Hd & _). apply rely_bind, rely_wp.
    apply (mid_wakeup reading no_lost _ me k5 (base + a) w3 true wo3); [|done|].
    { intros y _. apply wake_writers. }
    intros k6 Em M6. destruct (mid_leave _ _ _ _ _ _ M6) as [Hl6 S6].
    apply rely_bind, rely_wp, wp_release; [done|]. apply rely_ret. split.
    + eapply (rseg_guar k2 _ base (base + a)); [done|lia|done].
    + exists w3, wo3. rewrite Z.max_l by lia. split; [done|]. split; [lia|]. split.
      * intros ->. destruct (decide (N = 0)); [by left|]. right. destruct Hok; [lia|]. split; [done|lia].
      * intros j Hj. rewrite (peek_ms k6) by (by rewrite set_lock_ms). rewrite (peek_ms k5) by done. by apply Hd.
  - destruct (mid_leave _ _ _ _ _ _ M3) as [Hl4 S4].
    apply rely_bind, rely_wp, wp_release; [done|]. apply rely_ret. split.
    + eapply (rseg_guar k2 _ base base); [done|lia|done].
    + exists w3, wo3. rewrite Z.add_0_r. split; [done|]. split; [lia|]. split; [lia|lia].
Qed.
End Read.

End Ends.
