(* ===== verification/PipeProps.v ===== *)
(** * Pipes under every interleaving

    A writer and a reader of one pipe, resumed by the scheduler in any order
    and any number of times. *)

From S2P Require Import Prelude Layout Mem Kalloc Vm State Sched Rely Bytes Bio Log Inode Console.
From S2P Require Import Fs.
From S2P Require Import Pipe PipeFacts.

Open Scope Z_scope.

Section Pair.
Context `{Wakeups}.

(** The pipe, the stream of bytes through it, what says that the writer's
    buffer is intact, and how to read the reader's buffer. *)
Context (p : Z) (str : Z -> byte) (J : kstate -> Prop) (peek : kstate -> Z -> byte).
Context (src : source) (dst : sink) (mw mr : nat).

(** The pipe holds the bytes [r0], ..., [w0 - 1] of the stream; the writer has
    the next [n], the reader asks for [m]. *)
Context (r0 w0 n m : Z).

(** Everybody else leaves the pipe and the two buffers alone, and puts nobody
    to sleep on it without a reason. *)
Definition elsewhere (k k' : kstate) : Prop :=
  (forall x, pipes k !! p = Some x -> pipes k' !! p = Some x /\ (no_lost p k x -> no_lost p k' x)) /\
  (J k -> J k') /\ forall j, peek k' j = peek k j.

(** The two threads, on their way out of the scheduler. *)
Definition writer : nat * thread Z := (mw, Waiting (release LkPtable ;;; pipewrite p src n)).
Definition reader : nat * thread Z := (mr, Waiting (release LkPtable ;;; piperead p dst m)).

(** Memory determines the buffers; the source delivers the stream from [w0],
    and the sink stores single bytes. *)
Record buffers : Prop := {
  bf_J : forall k k', ms k' = ms k -> J k -> J k';
  bf_peek : forall k k' j, ms k' = ms k -> peek k' j = peek k j;
  bf_src : forall k i, J k -> 0 <= i < n -> src i 1 k = Ok [str (w0 + i)] k;
  bf_dst : stores J peek dst m
}.

Abbreviation see := (sees str r0 (w0 + n) p J).

Definition guar (i : nat) : kstate -> kstate -> Prop :=
  match i with
  | 0%nat => adds str r0 (w0 + n) p J peek
  | 1%nat => takes str r0 (w0 + n) p J
  | _ => fun _ _ => False
  end.
Definition tolerates (i : nat) : kstate -> kstate -> Prop :=
  match i with
  | 0%nat => while_writing str r0 (w0 + n) p J
  | 1%nat => while_reading str r0 (w0 + n) p J peek
  | _ => fun _ _ => True
  end.

(** What the two calls promise when they have returned. *)
Definition returned (i : nat) (a : Z) (k : kstate) : Prop :=
  match i with
  | 0%nat => exists r w ro, see k r w ro true /\ (a = n /\ w = w0 + n \/ a = -1)
  | 1%nat => exists w wo, see k (r0 + Z.max a 0) w true wo /\ -1 <= a <= m /\
      (a = 0 -> m = 0 \/ wo = false) /\ forall j, 0 <= j < a -> peek k j = str (r0 + j)
  | _ => False
  end.

Lemma elsewhere_sees k k' r w ro wo : elsewhere k k' -> see k r w ro wo -> see k' r w ro wo.
Proof.
  intros (He & HJ & _) (x & Hx & Hh & Hr & Hw & Hn & Hj). destruct (He x Hx) as [Hx' Hn'].
  exists x. do 4 (split; [done|]). split; [by apply Hn'|by apply HJ].
Qed.

Lemma elsewhere_tolerated i k k' : elsewhere k k' -> tolerates i k k'.
Proof.
  intros He. destruct i as [|[|i]]; [| |done].
  - intros r w ro wo S. exists r, ro. split; [lia|]. by apply (elsewhere_sees k).
  - split; [|apply He]. intros r w ro wo S. exists w, wo. split; [lia|]. split; [done|]. by apply (elsewhere_sees k).
Qed.

Lemma tolerates_trans i k1 k2 k3 : tolerates i k1 k2 -> tolerates i k2 k3 -> tolerates i k1 k3.
Proof. destruct i as [|[|i]]; [apply while_writing_trans|apply while_reading_trans|done]. Qed.

Lemma guar_tolerated i j k k' : i <> j -> guar i k k' -> tolerates j k k'.
Proof.
  destruct i as [|[|i]], j as [|[|j]]; cbn; try done; intros _; [apply adds_reading|apply takes_writing].
Qed.

Lemma returned_stable i a k k' : returned i a k -> tolerates i k k' -> returned i a k'.
Proof.
  destruct i as [|[|i]]; cbn; [| |done].
  - intros (r & w & ro & S & Ha) HR. destruct (HR _ _ _ _ S) as (r' & ro' & _ & S'). by exists r', w, ro'.
  - intros (w & wo & S & Ha & He & Hd) [HR Hp]. destruct (HR _ _ _ _ S) as (w' & wo' & _ & Hc & S').
    exists w', wo'. split; [done|]. split; [done|]. split.
    + intros Ha0. destruct (He Ha0) as [|Ew]; [by left|]. right. by apply Hc.
    + intros j Hj. rewrite Hp. by apply Hd.
Qed.

Hypothesis Hbuf : buffers.
Hypothesis Hn : 0 <= n < 2 ^ 31.
Hypothesis Hm : 0 <= m < 2 ^ 31.

Lemma see_window k r w ro wo : see k r0 w0 ro wo -> see k r w ro wo -> w0 + n - r0 < 2 ^ 32.
Proof.
  intros (x & _ & Hh & _) _. pose proof (hd_cap _ _ _ _ _ _ Hh). pose proof (hd_order _ _ _ _ _ _ Hh).
  unfold PIPESIZE in *. lia.
Qed.

Lemma pair_ok k : see k r0 w0 true true -> par_ok guar tolerates returned (k, [writer; reader]).
Proof.
  intros S. pose proof (see_window _ _ _ _ _ S S) as Hwin. destruct Hbuf as [BJ BP BS BD].
  intros i t Hi. destruct i as [|[|i]]; [| |done]; injection Hi as <-; intros k' HR Hr.
  - destruct (HR _ _ _ _ S) as (r & ro & _ & S').
    eapply orely_mono; [apply (write_rely str r0 (w0 + n) p Hwin J peek BJ BP src w0 n mw BS (Z.le_refl _) k' r ro); [lia|done..]|].
    intros k1 a k2 (Ha & r' & w' & ro' & S2 & _ & Hc). split; [done|]. by exists r', w', ro'.
  - destruct HR as [HR _]. destruct (HR _ _ _ _ S) as (w & wo & _ & _ & S').
    eapply orely_mono; [apply (read_rely str r0 (w0 + n) p Hwin J peek BJ BP dst r0 m mr BD k' w wo); [lia|done..]|].
    intros k1 a k2 (Ha & w' & wo' & S2 & Hb & He & Hd). split; [done|]. exists w', wo'.
    split; [done|]. split; [done|]. split; [|done]. intros E. destruct (He E) as [|[? _]]; [by left|by right].
Qed.

(** The window only moves forward. *)
Definition forward (k k' : kstate) : Prop :=
  forall r w ro wo, see k r w ro wo -> exists r' w', r <= r' /\ w <= w' /\ see k' r' w' ro wo.

Lemma pair_forward k c :
  see k r0 w0 true true -> rtc (par_step elsewhere) (k, [writer; reader]) c -> forward k c.1.
Proof.
  intros S Hs. refine (par_states elsewhere guar tolerates returned elsewhere_tolerated tolerates_trans
    guar_tolerated returned_stable forward (k, [writer; reader]) c _ _ _ _ (pair_ok k S) Hs).
  - intros k1 r w ro wo S1. exists r, w. split; [lia|]. split; [lia|done].
  - intros k1 k2 k3 H1 H2 r w ro wo S1. destruct (H1 _ _ _ _ S1) as (r2 & w2 & ? & ? & S2).
    destruct (H2 _ _ _ _ S2) as (r3 & w3 & ? & ? & S3). exists r3, w3. split; [lia|]. split; [lia|done].
  - intros k1 k2 He r w ro wo S1. exists r, w. split; [lia|]. split; [lia|]. by apply (elsewhere_sees k1).
  - intros i k1 k2 Hg r w ro wo S1. destruct i as [|[|i]]; [| |done].
    + destruct Hg as [Hg _]. destruct (Hg _ _ _ _ S1) as (w' & ? & _ & S2). exists r, w'. split; [lia|done].
    + destruct (Hg _ _ _ _ S1) as (r' & ? & S2). exists r', w. split; [done|]. split; [lia|done].
Qed.

(** C4. A pipe is a bounded first-in first-out queue under every interleaving:
    however a [pipewrite] of [n] bytes and a [piperead] of [m] bytes are
    scheduled, sleep and wake each other, neither panics; the pipe always holds
    a window of at most 512 bytes of the stream, also across the wrap-around of
    its 32-bit counters; a reader or writer that sleeps has found the pipe
    empty or full; when [pipewrite] returns [n] all its bytes are in the
    stream; and what [piperead] returned are the oldest bytes in order, at
    least one of them while the write end is open. *)
Theorem pipe_fifo k k' ts :
  see k r0 w0 true true -> rtc (par_step elsewhere) (k, [writer; reader]) (k', ts) ->
  ~ par_panics elsewhere (k', ts) /\
  exists r w, r0 <= r /\ w0 <= w <= w0 + n /\ see k' r w true true /\
    (forall a, ts !! 0%nat = Some (mw, Done a) -> a = n /\ w = w0 + n \/ a = -1) /\
    (forall a, ts !! 1%nat = Some (mr, Done a) -> r = r0 + Z.max a 0 /\ -1 <= a <= m /\
      (a = 0 -> m = 0) /\ forall j, 0 <= j < a -> peek k' j = str (r0 + j)).
Proof.
  intros S Hs. destruct (pair_forward _ _ S Hs _ _ _ _ S) as (r & w & Hr & Hw & S'). cbn in S'.
  destruct (par_sound elsewhere guar tolerates returned elsewhere_tolerated tolerates_trans
    guar_tolerated returned_stable _ _ (pair_ok k S) Hs) as [Hok Hp].
  pose proof (see_window _ _ _ _ _ S S) as Hwin. split; [done|]. exists r, w. split; [done|].
  split. { split; [done|]. destruct S' as (x & _ & Hh & _). pose proof (hd_order _ _ _ _ _ _ Hh). lia. }
  split; [done|]. split.
  - intros a Ha. destruct (Hok 0%nat _ Ha) as (r2 & w2 & ro2 & S2 & Hc).
    destruct (sees_unique _ _ _ _ Hwin _ _ _ _ _ _ _ _ _ _ S' S2) as (-> & -> & _). done.
  - intros a Ha. destruct (Hok 1%nat _ Ha) as (w2 & wo2 & S2 & Hb & He & Hd).
    destruct (sees_unique _ _ _ _ Hwin _ _ _ _ _ _ _ _ _ _ S' S2) as (-> & -> & _ & ->).
    split; [done|]. split; [done|]. split; [|done]. intros E. by destruct (He E).
Qed.

End Pair.

(** ** Two processes and an empty pipe *)

#[local] Instance pipe_wakeups : Wakeups := 3%nat.

(** The pipe at address 4096 is empty; its counters are about to wrap. *)
Definition px_pipe : pipe := Pipe false (replicate 512 x00) (2 ^ 32 - 2) (2 ^ 32 - 2) true true.
Definition px_proc (st : procstate) (pid : Z) : proc := ps_state st (ps_pid pid proc0).
Definition px_kernel (ps : list proc) (me : nat) : kstate :=
  KState (MState (fun _ => x00) false false 0 0 0) ps 3 None false (Some me) 0 0 0 []
    (Disk 0 (fun _ => []) []) (LogState 0 0 false 0 0 []) [] [] {[4096 := px_pipe]}
    (InputBuf [] 0 0 0) [] false true false false false false false false false.

Definition px_bytes : list byte := [x61; x62; x63].
Definition px_str (j : Z) : byte := nth (Z.to_nat (j - (2 ^ 32 - 2))) px_bytes x00.
Definition px_peek (k : kstate) (j : Z) : byte := mm (ms k) (0x8000 + j).
Definition px_sink : sink := fun i bs =>
  modify (fun k => ks_ms (set_mm (upd (mm (ms k)) (0x8000 + i) (hd x00 bs)) (ms k)) k).

Lemma px_buffers : buffers px_str (fun _ => True) px_peek (from_local px_bytes) px_sink (2 ^ 32 - 2) 3 10.
Proof.
  split.
  - done.
  - intros k k' j E. unfold px_peek. by rewrite E.
  - intros k i _ Hi. assert (Hc : i = 0 \/ i = 1 \/ i = 2) by lia. by destruct Hc as [->|[->| ->]].
  - intros k i b Hi. eexists. split; [done|]. split; [done|]. split; [done|]. intros j. unfold px_peek. cbn.
    unfold upd. destruct (Z.eqb_spec j i) as [->|Hne]; [by rewrite Z.eqb_refl|].
    destruct (Z.eqb_spec (0x8000 + j) (0x8000 + i)); [lia|done].
Qed.

Definition px_start : kstate := px_kernel [px_proc RUNNING 1; px_proc RUNNABLE 2] 0.

Lemma px_sees : sees px_str (2 ^ 32 - 2) (2 ^ 32 - 2 + 3) 4096 (fun _ => True) px_start
  (2 ^ 32 - 2) (2 ^ 32 - 2) true true.
Proof.
  exists px_pipe. split; [done|]. split; [by split; cbn; try done; unfold PIPESIZE; lia|].
  do 2 (split; [done|]). split; [|done].
  assert (Hno : forall c, ~ asleep_on c px_start).
  { intros c (i & q & Hq & Hs & _). by destruct i as [|[|i]]; [injection Hq as <-..|]. }
  split; intros Ha; by apply Hno in Ha.
Qed.

(** The writer runs to its end. *)
Lemma pipe_fifo_witness :
  exists k' ts, ts !! 0%nat = Some (0%nat, Done 3) /\
    ~ par_panics (elsewhere 4096 (fun _ => True) px_peek) (k', ts) /\
    exists r, sees px_str (2 ^ 32 - 2) (2 ^ 32 - 2 + 3) 4096 (fun _ => True) k' r (2 ^ 32 + 1) true true.
Proof.
  set (th := (release LkPtable ;;; pipewrite 4096 (from_local px_bytes) 3)).
  destruct (th px_start) as [a k'| | |] eqn:E; [|vm_compute in E; discriminate E..].
  assert (Ea : a = 3).
  { assert (F : match th px_start with Ok a _ => a = 3 | _ => False end) by (vm_compute; reflexivity).
    rewrite E in F. exact F. }
  subst a. exists k', [(0%nat, Done 3); reader 4096 px_sink 1 10]. split; [reflexivity|].
  destruct (pipe_fifo 4096 px_str (fun _ => True) px_peek (from_local px_bytes) px_sink 0 1
    (2 ^ 32 - 2) (2 ^ 32 - 2) 3 10 px_buffers ltac:(lia) ltac:(lia) px_start k'
    [(0%nat, Done 3); reader 4096 px_sink 1 10] px_sees) as (Hp & r & w & Hr & Hw & S & Hd & _).
  - apply rtc_once. apply (par_done _ px_start [writer 4096 (from_local px_bytes) 0 3; reader 4096 px_sink 1 10]
      0 0%nat th px_start k' 3).
    + reflexivity.
    + split; [|split; [done|reflexivity]]. intros x Hx. by split.
    + split; [reflexivity|]. split; [reflexivity|]. split; [vm_compute; reflexivity|]. eexists. by split.
    + exact E.
  - split; [exact Hp|]. exists r. destruct (Hd 3 eq_refl) as [[_ ->]|Hc]; [exact S|discriminate Hc].
Defined.
