(* ===== verification/Codec.v ===== *)
(** * On-disk formats

    Inodes and directory entries as bytes: what is written is read back, and
    writing one leaves its neighbours alone. *)

From S2P Require Import Prelude Layout Mem Kalloc Vm State Sched Bytes Bio Log Inode Console Fs.

Open Scope Z_scope.

(** ** Shorts *)

Lemma s16_small z : - 2 ^ 15 <= z < 2 ^ 15 -> s16 z = z.
Proof. intros Hz. unfold s16. rewrite Z.mod_small; lia. Qed.

Lemma s16_u16 z : s16 (z mod 2 ^ 16) = s16 z.
Proof. unfold s16. rewrite Zplus_mod_idemp_l. done. Qed.

Lemma get16_put16 off v l :
  0 <= off -> off + 2 <= Z.of_nat (length l) -> get16 off (put16 off v l) = v mod 2 ^ 16.
Proof.
  intros H1 H2. unfold get16, put16. pose proof (slice_splice off (le_bytes 2 v) l) as E.
  rewrite le_bytes_length in E. change (Z.of_nat 2) with 2 in E. rewrite E by lia.
  by rewrite of_le_le_bytes.
Qed.

Lemma put16_length off v l : 0 <= off -> off + 2 <= Z.of_nat (length l) -> length (put16 off v l) = length l.
Proof. intros H1 H2. unfold put16. apply splice_length; rewrite ?le_bytes_length; lia. Qed.

(** Any part that a store does not overlap. *)
Lemma slice_put16 off' len off v l :
  0 <= off -> 0 <= off' -> 0 <= len -> off + 2 <= Z.of_nat (length l) -> off' + len <= off \/ off + 2 <= off' ->
  slice off' len (put16 off v l) = slice off' len l.
Proof. intros H1 H2 H3 H4 Hd. unfold put16. apply slice_splice_ne; rewrite ?le_bytes_length; lia. Qed.

Lemma slice_put32 off' len off v l :
  0 <= off -> 0 <= off' -> 0 <= len -> off + 4 <= Z.of_nat (length l) -> off' + len <= off \/ off + 4 <= off' ->
  slice off' len (put32 off v l) = slice off' len l.
Proof. intros H1 H2 H3 H4 Hd. unfold put32. apply slice_splice_ne; rewrite ?le_bytes_length; lia. Qed.

(** ** Inodes *)

Lemma put_addrs_length l : forall off b,
  0 <= off -> off + 4 * Z.of_nat (length l) <= Z.of_nat (length b) -> length (put_addrs off l b) = length b.
Proof.
  induction l as [|a l IH]; intros off b H1 H2; cbn [put_addrs]; [done|]. cbn [length] in H2.
  rewrite IH; rewrite ?put32_length; lia.
Qed.

Lemma slice_put_addrs l : forall off b off' len,
  0 <= off -> off + 4 * Z.of_nat (length l) <= Z.of_nat (length b) -> 0 <= off' -> 0 <= len ->
  off' + len <= off \/ off + 4 * Z.of_nat (length l) <= off' ->
  slice off' len (put_addrs off l b) = slice off' len b.
Proof.
  induction l as [|a l IH]; intros off b off' len H1 H2 H3 H4 Hd; cbn [put_addrs]; [done|]. cbn [length] in *.
  rewrite IH by (rewrite ?put32_length; lia). apply slice_put32; lia.
Qed.

Lemma get_put_addrs l : forall off b j a,
  0 <= off -> off + 4 * Z.of_nat (length l) <= Z.of_nat (length b) -> l !! j = Some a ->
  get32 (off + 4 * Z.of_nat j) (put_addrs off l b) = u32 a.
Proof.
  induction l as [|x l IH]; intros off b j a H1 H2 Hj; [done|]. cbn [put_addrs length] in *. destruct j as [|j].
  - injection Hj as ->. unfold get32. rewrite slice_put_addrs by (rewrite ?put32_length; lia).
    rewrite Z.mul_0_r, Z.add_0_r. apply get32_put32; lia.
  - cbn in Hj. rewrite <- (IH (off + 4) (put32 off x b) j a); [|lia|rewrite put32_length; lia|done].
    f_equal. lia.
Qed.

(** A dinode whose fields fit their types. *)
Record dinode_fits (d : dinode) : Prop := {
  df_shorts : Forall (fun z => - 2 ^ 15 <= z < 2 ^ 15) [di_type d; di_major d; di_minor d; di_nlink d];
  df_uints : Forall (fun z => 0 <= z < 2 ^ 32) (di_size d :: di_addrs d);
  df_addrs : length (di_addrs d) = 13%nat
}.

Section Encode.
Context (off : Z) (d : dinode) (b : block).
Context (Hoff : 0 <= off) (Hlen : off + dinode_size <= Z.of_nat (length b)).
Context (H13 : length (di_addrs d) = 13%nat).

(** The stores of [encode_dinode] one after the other. *)
Let b1 := put16 off (di_type d) b.
Let b2 := put16 (off + 2) (di_major d) b1.
Let b3 := put16 (off + 4) (di_minor d) b2.
Let b4 := put16 (off + 6) (di_nlink d) b3.
Let b5 := put32 (off + 8) (di_size d) b4.

Lemma encode_lengths :
  length b1 = length b /\ length b2 = length b /\ length b3 = length b /\ length b4 = length b /\ length b5 = length b.
Proof.
  change dinode_size with 64 in Hlen.
  assert (L1 : length b1 = length b) by (apply put16_length; lia).
  assert (L2 : length b2 = length b) by (rewrite <- L1; apply put16_length; lia).
  assert (L3 : length b3 = length b) by (rewrite <- L2; apply put16_length; lia).
  assert (L4 : length b4 = length b) by (rewrite <- L3; apply put16_length; lia).
  assert (L5 : length b5 = length b) by (rewrite <- L4; apply put32_length; lia). done.
Qed.

Lemma encode_length : length (encode_dinode off d b) = length b.
Proof.
  destruct encode_lengths as (L1 & L2 & L3 & L4 & L5). rewrite <- L5. change dinode_size with 64 in Hlen.
  apply put_addrs_length; lia.
Qed.

(** Nothing outside the inode's 64 bytes changes. *)
Lemma encode_other off' len :
  0 <= off' -> 0 <= len -> off' + len <= off \/ off + dinode_size <= off' ->
  slice off' len (encode_dinode off d b) = slice off' len b.
Proof.
  intros Ho Hn Hd. destruct encode_lengths as (L1 & L2 & L3 & L4 & L5). change dinode_size with 64 in *.
  unfold encode_dinode. fold b1 b2 b3 b4 b5. rewrite slice_put_addrs by lia. unfold b5.
  rewrite slice_put32 by lia. unfold b4. rewrite slice_put16 by lia. unfold b3. rewrite slice_put16 by lia.
  unfold b2. rewrite slice_put16 by lia. unfold b1. by rewrite slice_put16 by lia.
Qed.

(** Nor does any other inode of the block. *)
Lemma decode_other off' :
  0 <= off' -> off' + dinode_size <= off \/ off + dinode_size <= off' ->
  decode_dinode off' (encode_dinode off d b) = decode_dinode off' b.
Proof.
  intros Ho' Hd.
  assert (E : forall o len, off' <= o -> 0 <= len -> o + len <= off' + dinode_size ->
    slice o len (encode_dinode off d b) = slice o len b).
  { intros o len H1 H2 H3. apply encode_other; (done || lia). }
  change dinode_size with 64 in E. unfold decode_dinode, get16, get32. f_equal; try (by rewrite E by lia).
  apply list_eq. intros j. rewrite !list_lookup_fmap. destruct (decide (j < 13)%nat) as [Hj|Hj].
  - rewrite lookup_seq_lt by done. cbn. by rewrite E by lia.
  - by rewrite lookup_seq_ge by lia.
Qed.

Lemma decode_encode : dinode_fits d -> decode_dinode off (encode_dinode off d b) = d.
Proof.
  intros [F1 F2 _]. destruct encode_lengths as (L1 & L2 & L3 & L4 & L5). change dinode_size with 64 in *.
  assert (HA : (fun j => get32 (off + 12 + 4 * Z.of_nat j) (encode_dinode off d b)) <$> seq 0 13 = di_addrs d).
  { apply list_eq. intros j. rewrite list_lookup_fmap. destruct (decide (j < 13)%nat) as [Hj|Hj].
    - rewrite lookup_seq_lt by done. cbn [fmap option_fmap option_map Nat.add].
      destruct (lookup_lt_is_Some_2 (di_addrs d) j ltac:(lia)) as [a Ha]. rewrite Ha. f_equal.
      unfold encode_dinode. fold b1 b2 b3 b4 b5. rewrite (get_put_addrs _ _ _ _ a) by (done || lia).
      apply u32_small. apply Forall_cons in F2 as [_ F2]. by apply (Forall_lookup_1 _ _ j a F2).
    - rewrite lookup_seq_ge by lia. symmetry. apply lookup_ge_None_2. lia. }
  unfold decode_dinode. rewrite HA. clear HA. unfold encode_dinode. fold b1 b2 b3 b4 b5.
  repeat (apply Forall_cons in F1 as [? F1]). apply Forall_cons in F2 as [Fs _].
  unfold get16, get32. rewrite !slice_put_addrs by lia. unfold b5 at 1 2 3 4. rewrite !slice_put32 by lia.
  fold (get32 (off + 8) b5). unfold b5. rewrite get32_put32 by lia. rewrite u32_small by done.
  assert (E : forall o v l, 0 <= o -> o + 2 <= Z.of_nat (length l) -> - 2 ^ 15 <= v < 2 ^ 15 ->
    s16 (of_le (slice o 2 (put16 o v l))) = v).
  { intros o v l Ho Hl Hv. fold (get16 o (put16 o v l)). by rewrite get16_put16, s16_u16, s16_small. }
  unfold b4. rewrite E by lia. rewrite !slice_put16 by lia. unfold b3. rewrite E by lia.
  rewrite !slice_put16 by lia. unfold b2. rewrite E by lia. rewrite !slice_put16 by lia. unfold b1.
  rewrite E by lia. by destruct d.
Qed.

End Encode.

(** ** Directory entries *)

(** A string without its terminator. *)
Definition no_nul (l : list byte) : Prop := x00 ∉ l.

Lemma strncmp_list_eq n : forall p q,
  strncmp_list n p q = 0 <-> take n (cstring p) = take n (cstring q).
Proof.
  induction n as [|n IH]; intros p q; cbn [strncmp_list]; [by rewrite !take_0|].
  assert (Hz : forall a, b2z a = 0 -> a = x00) by (intros a Ha; by apply b2z_inj).
  destruct p as [|a p], q as [|b q]; cbn [hd tl cstring].
  - done.
  - rewrite bool_decide_eq_true_2 by done. cbn [negb andb]. case_bool_decide as Hb.
    + by subst b.
    + rewrite take_nil. split; [|done]. intros E. destruct Hb. apply Hz. change (b2z x00) with 0 in E. lia.
  - case_bool_decide as Ha; cbn [negb andb].
    + subst a. by rewrite take_nil.
    + rewrite take_nil. split; [|done]. intros E. destruct Ha. apply Hz.
      change (b2z x00) with 0 in E. lia.
  - case_bool_decide as Ha; cbn [negb andb].
    + subst a. case_bool_decide as Hb; [by subst b|]. rewrite take_nil. split; [|done]. intros E. destruct Hb.
      apply Hz. change (b2z x00) with 0 in E. lia.
    + case_bool_decide as Hab.
      * subst b. rewrite bool_decide_eq_false_2 by done. cbn [take]. rewrite IH. split; [by intros ->|by intros [=]].
      * split; [|case_bool_decide; [done|by intros [=]]]. intros E. destruct Hab. apply b2z_inj. lia.
Qed.

Lemma cstring_no_nul l : no_nul l -> cstring l = l.
Proof.
  induction l as [|a l IH]; intros Hn; cbn; [done|]. unfold no_nul in Hn. rewrite not_elem_of_cons in Hn.
  destruct Hn as [Ha Hl]. rewrite bool_decide_eq_false_2 by done. by rewrite IH.
Qed.

Lemma cstring_app_nul l n : no_nul l -> cstring (l ++ replicate n x00) = l.
Proof.
  induction l as [|a l IH]; intros Hn; cbn; [by destruct n|].
  unfold no_nul in Hn. rewrite not_elem_of_cons in Hn. destruct Hn as [Ha Hl].
  rewrite bool_decide_eq_false_2 by done. by rewrite IH.
Qed.

Lemma encode_dirent_length name inum : length (encode_dirent name inum) = 16%nat.
Proof.
  unfold encode_dirent. rewrite !length_app, le_bytes_length, length_take, length_replicate.
  change (Z.to_nat DIRSIZ) with 14%nat. lia.
Qed.

Lemma decode_encode_dirent name inum :
  decode_dirent (encode_dirent name inum) =
  DirEnt (inum mod 2 ^ 16) (take 14 name ++ replicate (14 - length name) x00).
Proof.
  unfold decode_dirent, encode_dirent. f_equal.
  - unfold get16, slice. rewrite drop_0, take_app_length' by (by rewrite le_bytes_length). by rewrite of_le_le_bytes.
  - unfold slice. rewrite drop_app_length' by (by rewrite le_bytes_length). change (Z.to_nat DIRSIZ) with 14%nat.
    apply take_ge. rewrite length_app, length_take, length_replicate. lia.
Qed.

(** ** Theorems *)

(** An inode written by [iupdate]'s encoding is read back unchanged by
    [ilock]'s decoding, every field at its width, and the other inodes of the
    block are not touched. *)
Theorem dinode_roundtrip off d b :
  0 <= off -> off + dinode_size <= Z.of_nat (length b) -> dinode_fits d ->
  decode_dinode off (encode_dinode off d b) = d /\
  length (encode_dinode off d b) = length b /\
  forall off', 0 <= off' -> off' + dinode_size <= off \/ off + dinode_size <= off' ->
    decode_dinode off' (encode_dinode off d b) = decode_dinode off' b.
Proof.
  intros Ho Hl F. pose proof (df_addrs _ F) as H13. split; [by apply decode_encode|].
  split; [by apply encode_length|]. intros off' Ho' Hd. by apply decode_other.
Qed.

(** The entry that [dirlink] writes carries the inode number, and [namecmp] finds
    it for exactly the names with the same first [DIRSIZ] characters. *)
Lemma dirent_facts name inum key :
  no_nul name -> no_nul key -> 0 <= inum < 2 ^ 16 ->
  de_inum (decode_dirent (encode_dirent name inum)) = inum /\
  length (encode_dirent name inum) = 16%nat /\
  (namecmp key (de_name (decode_dirent (encode_dirent name inum))) = 0 <->
   take (Z.to_nat DIRSIZ) key = take (Z.to_nat DIRSIZ) name).
Proof.
  intros Hn Hk Hi. rewrite decode_encode_dirent. cbn [de_inum de_name]. split; [by apply Z.mod_small|]. split.
  - unfold encode_dirent. rewrite !length_app, le_bytes_length, length_take, length_replicate.
    change (Z.to_nat DIRSIZ) with 14%nat. lia.
  - unfold namecmp. rewrite strncmp_list_eq, (cstring_no_nul key) by done. change (Z.to_nat DIRSIZ) with 14%nat.
    rewrite cstring_app_nul, take_take; [done|]. intros Hin. apply Hn. apply elem_of_take in Hin as (j & Hj & _). by
    eapply list_elem_of_lookup_2.
Qed.

(** ** Witnesses *)

