(* ===== verification/FsFacts.v ===== *)
(** * Blocks of the file system inside a transaction

    The logical disk that a transaction sees, reading and logging one block of
    it, the bitmap, and the block allocator. *)

From S2P Require Import Prelude Layout Mem Kalloc Vm State Sched Bytes Bio BioFacts Log LogFacts.
From S2P Require Import Inode.

Open Scope Z_scope.

(** ** The bitmap *)

Lemma land_mask x i : 0 <= i -> (Z.land x (Z.shiftl 1 i) =? 0) = negb (Z.testbit x i).
Proof.
  intros Hi. rewrite Z.shiftl_1_l. destruct (Z.testbit x i) eqn:E.
  - apply Z.eqb_neq. intros H0. apply (f_equal (fun z => Z.testbit z i)) in H0.
    rewrite Z.land_spec, E, Z.pow2_bits_true, Z.bits_0 in H0 by done. done.
  - apply Z.eqb_eq, Z.bits_inj'. intros j Hj. rewrite Z.land_spec, Z.bits_0, Z.pow2_bits_eqb by done.
    destruct (Z.eqb_spec i j) as [->|]; [by rewrite E|apply andb_false_r].
Qed.

Lemma in_use_bit d bi : in_use d bi = Z.testbit (byte_of d (bi / 8)) (bi mod 8).
Proof.
  unfold in_use, bit_mask. rewrite land_mask, negb_involutive; [done|]. apply Z.mod_pos_bound. lia.
Qed.

Lemma byte_of_insert d i j v :
  0 <= i < 512 -> 0 <= j -> length d = 512%nat ->
  byte_of (<[Z.to_nat i := v]> d) j = if j =? i then b2z v else byte_of d j.
Proof.
  intros Hi Hj Hl. unfold byte_of. destruct (Z.eqb_spec j i) as [->|Hne].
  - f_equal. apply nth_lookup_Some, list_lookup_insert_eq. lia.
  - rewrite !nth_lookup, list_lookup_insert_ne; [done|lia].
Qed.

Lemma byte_of_testbit d j i : 8 <= i -> Z.testbit (byte_of d j) i = false.
Proof.
  intros Hi. unfold byte_of. pose proof (b2z_range (nth (Z.to_nat j) d x00)) as Hr. revert Hr.
  generalize (b2z (nth (Z.to_nat j) d x00)). intros z Hz. destruct (decide (z = 0)) as [->|]; [apply Z.bits_0|].
  apply Z.bits_above_log2; [lia|]. assert (Z.log2 z < 8); [|lia]. apply Z.log2_lt_pow2; lia.
Qed.

Lemma testbit_mod8 x i : 0 <= i < 8 -> Z.testbit (x mod 256) i = Z.testbit x i.
Proof. intros Hi. change 256 with (2 ^ 8). apply Z.mod_pow2_bits_low. lia. Qed.

Lemma same_bit a b : a / 8 = b / 8 -> a mod 8 = b mod 8 -> a = b.
Proof. intros. rewrite (Z.div_mod a 8), (Z.div_mod b 8) by lia. lia. Qed.

Lemma in_use_mark_used d bi bj :
  0 <= bi < BPB -> 0 <= bj < BPB -> length d = 512%nat ->
  in_use (mark_used bi d) bj = if bj =? bi then true else in_use d bj.
Proof.
  intros Hi Hj Hl. change BPB with 4096 in *. rewrite !in_use_bit. unfold mark_used.
  assert (0 <= bi / 8 < 512 /\ 0 <= bj / 8 < 512) by (Z.to_euclidean_division_equations; lia).
  pose proof (Z.mod_pos_bound bi 8 ltac:(lia)). pose proof (Z.mod_pos_bound bj 8 ltac:(lia)).
  rewrite byte_of_insert by (done || lia). destruct (Z.eqb_spec (bj / 8) (bi / 8)) as [E|E].
  - rewrite b2z_z2b, testbit_mod8, Z.lor_spec by lia. unfold bit_mask.
    rewrite Z.shiftl_1_l, Z.pow2_bits_eqb by lia. rewrite E. destruct (Z.eqb_spec bj bi) as [->|Hne].
    + rewrite Z.eqb_refl. apply orb_true_r.
    + destruct (Z.eqb_spec (bi mod 8) (bj mod 8)) as [E2|_]; [by destruct Hne; apply same_bit|].
      apply orb_false_r.
  - destruct (Z.eqb_spec bj bi); [congruence|done].
Qed.

Lemma in_use_mark_free d bi bj :
  0 <= bi < BPB -> 0 <= bj < BPB -> length d = 512%nat ->
  in_use (mark_free bi d) bj = if bj =? bi then false else in_use d bj.
Proof.
  intros Hi Hj Hl. change BPB with 4096 in *. rewrite !in_use_bit. unfold mark_free.
  assert (0 <= bi / 8 < 512 /\ 0 <= bj / 8 < 512) by (Z.to_euclidean_division_equations; lia).
  pose proof (Z.mod_pos_bound bi 8 ltac:(lia)). pose proof (Z.mod_pos_bound bj 8 ltac:(lia)).
  rewrite byte_of_insert by (done || lia). destruct (Z.eqb_spec (bj / 8) (bi / 8)) as [E|E].
  - rewrite b2z_z2b, testbit_mod8, Z.land_spec, Z.lnot_spec by lia. unfold bit_mask.
    rewrite Z.shiftl_1_l, Z.pow2_bits_eqb by lia. rewrite E. destruct (Z.eqb_spec bj bi) as [->|Hne].
    + rewrite Z.eqb_refl. apply andb_false_r.
    + destruct (Z.eqb_spec (bi mod 8) (bj mod 8)) as [E2|_]; [by destruct Hne; apply same_bit|].
      apply andb_true_r.
  - destruct (Z.eqb_spec bj bi); [congruence|done].
Qed.

Lemma mark_used_length bi d : length (mark_used bi d) = length d.
Proof. apply length_insert. Qed.

Lemma mark_free_length bi d : length (mark_free bi d) = length d.
Proof. apply length_insert. Qed.

(** [balloc_scan] finds the first clear bit of a bitmap block. *)
Lemma balloc_scan_spec d b size n : forall bi,
  match balloc_scan d b bi size n with
  | Some r => bi <= r < bi + Z.of_nat n /\ b + r < size /\ in_use d r = false /\
      forall j, bi <= j < r -> in_use d j = true
  | None => forall j, bi <= j < bi + Z.of_nat n -> b + j < size -> in_use d j = true
  end.
Proof.
  induction n as [|n IH]; intros bi; cbn [balloc_scan]; [lia|].
  destruct (Z.ltb_spec (b + bi) size) as [Hs|Hs]; [|lia].
  destruct (in_use d bi) eqn:E.
  - specialize (IH (bi + 1)). destruct (balloc_scan d b (bi + 1) size n) as [r|].
    + destruct IH as (Hr & Hb & Hu & Hj). split; [lia|]. do 2 (split; [done|]). intros j Hjr.
      destruct (decide (j = bi)) as [->|]; [done|]. apply Hj. lia.
    + intros j Hj Hjs. destruct (decide (j = bi)) as [->|]; [done|]. apply IH; lia.
  - split; [lia|]. split; [done|]. split; [done|]. lia.
Qed.

(** ** A transaction under way *)

Section Tx.
Context `{Wakeups} (start lsize : Z).

(** The transaction sees the logical disk [V]; it has logged blocks of [T]
    only and holds the buffers [L].  It began on the disk [d0] with the contents
    [old]. *)
Definition txw (L : list (nat * Z)) (old : Z -> block) (d0 : disk) (k : kstate) (V : Z -> block) (T : gset Z) : Prop :=
  exists ws D, txh start lsize L k old ws V D /\ (forall s, s ∈ ws.*1 -> s ∈ T) /\
    hist (uncommitted start old) d0 (dsk k).

Lemma logged_size L old d0 k V T : txw L old d0 k V T -> exists ws D, txh start lsize L k old ws V D /\
  (length ws <= size T)%nat /\ (forall s, s ∈ ws.*1 -> s ∈ T) /\ hist (uncommitted start old) d0 (dsk k).
Proof.
  intros (ws & D & X & Hs & Hh). exists ws, D. split_and!; try done.
  pose proof (wt_nodup _ _ _ (tx_wset _ _ _ _ _ _ _ _ X)) as ND.
  rewrite <- (length_fmap fst), <- (size_list_to_set (C:=gset Z)) by done.
  apply subseteq_size. intros t Ht. apply elem_of_list_to_set in Ht. by apply Hs.
Qed.

Context (old : Z -> block) (d0 : disk).

Section Held.
Context {L : list (nat * Z)}.

Lemma tx_block k V T s : txw L old d0 k V T -> length (V s) = 512%nat.
Proof.
  intros (ws & D & X & _). destruct (tx_cache _ _ _ _ _ _ _ _ X) as (_ & C & _). apply (cs_len _ _ _ _ _ C).
Qed.

Lemma tx_layout k V T : txw L old d0 k V T -> layout (dsk k) start lsize.
Proof. intros (ws & D & X & _). apply (tx_lay _ _ _ _ _ _ _ _ X). Qed.

Lemma tx_more k V T T' : txw L old d0 k V T -> T ⊆ T' -> txw L old d0 k V T'.
Proof. intros (ws & D & X & Hs & Hh) HT. exists ws, D. split_and!; [done|set_solver|done]. Qed.

(** A transaction does not look at the rest of the state. *)
Lemma tx_frame k k' V T :
  txw L old d0 k V T -> bufs k' = bufs k -> dsk k' = dsk k -> klog k' = klog k ->
  bc_lock k' = bc_lock k -> pt_lock k' = pt_lock k -> lg_lock k' = lg_lock k -> txw L old d0 k' V T.
Proof.
  intros (ws & D & X & Hs & Hh) E1 E2 E3 E4 E5 E6. exists ws, D. split_and!; [|done|by rewrite E2].
  destruct X as [Hc Hl Hu Lk Bz Ly W Sl Un Dt Cu]. split; rewrite ?E2, ?E3; try done.
  - by apply (cache_ext k).
  - unfold unlocked. by rewrite E4, E5, E6.
Qed.

(** Block 0 is never logged. *)
Lemma tx_zero k V T : txw L old d0 k V T -> txw L old d0 k V (T ∖ {[0]}).
Proof.
  intros (ws & D & X & Hs & Hh). exists ws, D. split_and!; [done| |done]. intros s Hin.
  pose proof (wt_home _ _ _ (tx_wset _ _ _ _ _ _ _ _ X) s Hin). apply elem_of_difference. split; [by apply Hs|].
  rewrite elem_of_singleton. lia.
Qed.

Lemma tx_read k V T s Q :
  txw L old d0 k V T -> s < start -> s ∉ L.*2 -> (length L + size T < nbuf)%nat ->
  (forall bp bs, txw ((bp, s) :: L) old d0 (ks_bufs bs k) V T -> Q bp (ks_bufs bs k)) -> wp (bread 1 s) k Q.
Proof.
  intros (ws & D & X & Hl & Hs & Hh)%logged_size Hlt Hn Hb HQ.
  wp_use (read_held start lsize s L k old ws V D X); [done|done|lia|].
  intros bp k' (bs & -> & X'). apply HQ. by exists ws, D.
Qed.

Lemma hold_bdata k V T bp s Q :
  txw ((bp, s) :: L) old d0 k V T -> Q (V s) k -> wp (bdata bp) k Q.
Proof.
  intros (ws & D & X & _). apply (wp_bdata k V ((bp, s) :: L) D); [apply X|by left].
Qed.

Lemma bufs_bfr k0 bs : bfr k0 (ks_bufs bs k0).
Proof. by destruct k0. Qed.

Lemma hold_release k V T bp s (Q : unit -> kstate -> Prop) :
  txw ((bp, s) :: L) old d0 k V T ->
  (forall k', bfr k k' -> woken (procs k) (procs k') -> txw L old d0 k' V T -> Q tt k') -> wp (brelse bp) k Q.
Proof.
  intros (ws & D & X & Hs & Hh) HQ. wp_use (release_held start lsize bp s L k old ws V D X).
  intros [] k' (Fr & Wk & Ed & X'). apply HQ; [done|done|]. exists ws, D. by rewrite Ed.
Qed.

Lemma hold_brelse k V T bp s (Q : unit -> kstate -> Prop) :
  txw ((bp, s) :: L) old d0 k V T -> (forall k', bfr k k' -> txw L old d0 k' V T -> Q tt k') -> wp (brelse bp) k Q.
Proof. intros X HQ. apply (hold_release k V T bp s); auto. Qed.

(** Changing a held block through the log. *)
Lemma held_write k V T bp s f (Q : unit -> kstate -> Prop) :
  txw ((bp, s) :: L) old d0 k V T -> 2 <= s < start -> length (f (V s)) = 512%nat ->
  Z.of_nat (size T) < lsize - 1 -> (S (length L) + size T < nbuf)%nat ->
  (forall k' V', bfr k k' -> txw L old d0 k' V' ({[s]} ∪ T) ->
    (forall t, 0 <= t < start -> V' t = fset s (f (V s)) V t) -> Q tt k') ->
  wp (bset bp f ;;; log_write bp ;;; brelse bp) k Q.
Proof.
  intros (ws & D & X & Hl & Hs & Hh)%logged_size Hb Hf Hfit Hbuf HQ.
  wp_use (update_held start lsize bp s L k old ws V D f X Hb Hf); [lia|lia|].
  intros [] k' (ws' & V' & D' & Fr & X' & EV & Hh' & _ & Hin). apply (HQ k' V'); [done| |done].
  exists ws', D'. split_and!; [done| |by eapply hist_trans]. intros t Ht. apply Hin in Ht as [->|Ht]; set_solver.
Qed.

End Held.

(** With no other buffer held. *)
Lemma tx_bread k V T s Q :
  txw [] old d0 k V T -> s < start ->
  (forall bp bs, txw [(bp, s)] old d0 (ks_bufs bs k) V T -> Q bp (ks_bufs bs k)) -> wp (bread 1 s) k Q.
Proof.
  intros (ws & D & X & Hs & Hh) Hlt HQ. pose proof (tx_lay _ _ _ _ _ _ _ _ X) as [Y1 Y2 Y3 Y4].
  pose proof (wt_fits _ _ _ (tx_wset _ _ _ _ _ _ _ _ X)).
  wp_use (read_held start lsize s [] k old ws V D X); [done|apply not_elem_of_nil|unfold nbuf, NBUF; cbn; lia|].
  intros bp k' (bs & -> & X'). apply HQ. by exists ws, D.
Qed.

Lemma hold_write k V T bp s f (Q : unit -> kstate -> Prop) :
  txw [(bp, s)] old d0 k V T -> 2 <= s < start -> length (f (V s)) = 512%nat ->
  Z.of_nat (size T) < lsize - 1 ->
  (forall k' V', bfr k k' -> txw [] old d0 k' V' ({[s]} ∪ T) ->
    (forall t, 0 <= t < start -> V' t = fset s (f (V s)) V t) -> Q tt k') ->
  wp (bset bp f ;;; log_write bp ;;; brelse bp) k Q.
Proof.
  intros X Hb Hf Hfit. pose proof (tx_layout _ _ _ X) as [Y1 Y2 Y3 Y4].
  apply held_write with (V := V) (s := s); try done. unfold nbuf, NBUF. cbn. lia.
Qed.

Lemma wp_seq3 {A} (a b c : KM unit) (m : KM A) k Q :
  wp (a ;;; b ;;; c) k (fun _ k' => wp m k' Q) -> wp (a ;;; b ;;; c ;;; m) k Q.
Proof.
  intros Hw. apply wp_bind. apply wp_bind_inv in Hw. eapply wp_mono; [exact Hw|]. intros ? k1 Hw1.
  apply wp_bind. apply wp_bind_inv in Hw1. eapply wp_mono; [exact Hw1|]. intros ? k2 Hw2.
  apply wp_bind. exact Hw2.
Qed.

(** ** The allocator *)

(** The superblock describes a disk with the log at its end and [nino] inodes;
    block [meta] is the first after the bitmap. *)
Definition meta (nino : Z) : Z := (start + lsize) / BPB + nino / IPB + 4.

Record geom (nino : Z) (V : Z -> block) : Prop := {
  gm_size : sb_size (decode_sb (V 1)) = start + lsize;
  gm_inodes : sb_ninodes (decode_sb (V 1)) = nino;
  gm_meta : meta nino < start;
  gm_nino : 0 <= nino
}.

(** The bit of block [b]. *)
Definition used (nino : Z) (V : Z -> block) (b : Z) : bool := in_use (V (BBLOCK b nino)) (b mod BPB).

(** The buffers held elsewhere are of data blocks, and there are enough others. *)
Definition aside (nino : Z) (L : list (nat * Z)) (T : gset Z) : Prop :=
  (forall s, s ∈ L.*2 -> meta nino <= s) /\ (S (length L) + size T < nbuf)%nat.

Lemma aside_nil nino T : Z.of_nat (size T) < 9 -> aside nino [] T.
Proof. intros Hs. split; [intros s Hin; by apply not_elem_of_nil in Hin|]. unfold nbuf, NBUF. cbn. lia. Qed.

Lemma aside_meta nino L s T : aside nino L T -> s < meta nino -> s ∉ L.*2.
Proof. intros [A _] Hs Hin. specialize (A s Hin). lia. Qed.

Lemma meta_pos nino : 0 <= nino -> 0 <= start + lsize -> 4 <= meta nino.
Proof.
  intros Hn Hs. unfold meta. assert (0 <= nino / IPB) by (apply Z.div_pos; [done|reflexivity]).
  assert (0 <= (start + lsize) / BPB) by (apply Z.div_pos; [lia|reflexivity]). lia.
Qed.

Lemma readsb_spec nino L k V T (Q : superblock -> kstate -> Prop) :
  txw L old d0 k V T -> 0 <= nino -> aside nino L T ->
  (forall k', bfr k k' -> txw L old d0 k' V T -> Q (decode_sb (V 1)) k') -> wp (readsb 1) k Q.
Proof.
  intros X Hn A HQ. pose proof (tx_layout _ _ _ X) as [Y1 Y2 Y3 Y4]. pose proof (meta_pos nino Hn ltac:(lia)).
  unfold readsb. apply wp_bind, (tx_read (L := L) k V T);
    [done|lia|apply (aside_meta nino L 1 T A); lia|destruct A; lia|]. intros bp bs Hh.
  apply wp_bind, (hold_bdata (L := L) _ V T bp 1); [done|]. apply wp_bind, (hold_brelse (L := L) _ V T bp 1); [done|].
  intros k' Fr X'. apply wp_ret, HQ; [|done]. eapply bfr_trans; [apply bufs_bfr|done].
Qed.

Lemma bblock_range nino b :
  0 <= nino -> 0 <= b < start + lsize -> 3 <= BBLOCK b nino < meta nino.
Proof.
  intros Hn Hb. unfold BBLOCK, meta. assert (0 <= nino / IPB) by (apply Z.div_pos; [done|reflexivity]).
  assert (0 <= b / BPB) by (apply Z.div_pos; [lia|reflexivity]).
  assert (b / BPB <= (start + lsize) / BPB) by (apply Z.div_le_mono; [reflexivity|lia]). lia.
Qed.

(** The disk after block [r] was allocated. *)
Definition allocated_at (nino r : Z) (V : Z -> block) : Z -> block :=
  fset r (replicate 512 x00) (fset (BBLOCK r nino) (mark_used (r mod BPB) (V (BBLOCK r nino))) V).

Lemma bzero_spec L k V T s (Q : unit -> kstate -> Prop) :
  txw L old d0 k V T -> 2 <= s < start -> s ∉ L.*2 -> Z.of_nat (size T) < lsize - 1 -> (S (length L) + size T < nbuf)%nat ->
  (forall k' V', bfr k k' -> txw L old d0 k' V' ({[s]} ∪ T) ->
    (forall t, 0 <= t < start -> V' t = fset s (replicate 512 x00) V t) -> Q tt k') ->
  wp (bzero 1 s) k Q.
Proof.
  intros X Hs Hn Hfit Hb HQ.
  unfold bzero. apply wp_bind, (tx_read (L := L) k V T); [done|lia|done|lia|]. intros bp bs Hh.
  eapply held_write; [done..|]. intros k' V' Fr X' E. apply (HQ k' V'); [|done|done].
  eapply bfr_trans; [apply bufs_bfr|done].
Qed.

Lemma scan_block nino V b r :
  0 <= b -> b mod BPB = 0 -> b <= r < start + lsize -> used nino V r = false ->
  (forall j, 0 <= j < r -> used nino V j = true) ->
  match balloc_scan (V (BBLOCK b nino)) b 0 (start + lsize) (Z.to_nat BPB) with
  | Some bi => b + bi = r /\ r mod BPB = bi /\ BBLOCK b nino = BBLOCK r nino
  | None => b + BPB <= r
  end.
Proof.
  intros Hb Hbm Hbr Hu Hj.
  pose proof (balloc_scan_spec (V (BBLOCK b nino)) b (start + lsize) (Z.to_nat BPB) 0) as Hsc.
  assert (Hub : forall j, 0 <= j < BPB -> used nino V (b + j) = in_use (V (BBLOCK b nino)) j).
  { intros j Hjr. unfold used, BBLOCK. change BPB with 4096 in *.
    replace ((b + j) / 4096) with (b / 4096) by (Z.to_euclidean_division_equations; lia).
    replace ((b + j) mod 4096) with j by (Z.to_euclidean_division_equations; lia). done. }
  destruct (balloc_scan (V (BBLOCK b nino)) b 0 (start + lsize) (Z.to_nat BPB)) as [bi|].
  - destruct Hsc as (Hbi & Hsz & Hin & Hbefore). change (0 + Z.of_nat (Z.to_nat BPB)) with BPB in Hbi.
    rewrite <- Hub in Hin by lia.
    assert (b + bi = r) as Er.
    { destruct (decide (b + bi < r)); [rewrite Hj in Hin; [done|lia]|].
      destruct (decide (r < b + bi)); [|lia].
      assert (Hx : in_use (V (BBLOCK b nino)) (r - b) = true) by (apply Hbefore; lia).
      rewrite <- Hub in Hx by lia. replace (b + (r - b)) with r in Hx by lia. congruence. }
    split; [done|]. subst r. unfold BBLOCK. change BPB with 4096 in *.
    replace ((b + bi) / 4096) with (b / 4096) by (Z.to_euclidean_division_equations; lia).
    split; [|done]. Z.to_euclidean_division_equations. lia.
  - destruct (decide (b + BPB <= r)); [done|]. exfalso.
    assert (Hx : in_use (V (BBLOCK b nino)) (r - b) = true) by (apply Hsc; lia).
    rewrite <- Hub in Hx by lia. replace (b + (r - b)) with r in Hx by lia. congruence.
Qed.

Lemma size_add (t : Z) (T : gset Z) : (size ({[t]} ∪ T) <= S (size T))%nat.
Proof.
  rewrite size_union_alt, size_singleton. assert (size (T ∖ {[t]}) <= size T)%nat; [|lia].
  apply subseteq_size. set_solver.
Qed.

Lemma balloc_loop_spec nino L sb V T r fuel : forall k b,
  txw L old d0 k V T -> geom nino V -> Z.of_nat (size T) < lsize - 2 -> sb = decode_sb (V 1) ->
  aside nino L ({[BBLOCK r nino]} ∪ T) -> r ∉ L.*2 ->
  0 <= b -> b mod BPB = 0 -> b <= r -> meta nino <= r < start -> used nino V r = false ->
  (forall j, 0 <= j < r -> used nino V j = true) -> r / BPB - b / BPB < Z.of_nat fuel ->
  wp (balloc_loop 1 b sb fuel) k (fun a k' => a = r /\ exists V', bfr k k' /\
    txw L old d0 k' V' ({[r]} ∪ ({[BBLOCK r nino]} ∪ T)) /\
    forall t, 0 <= t < start -> V' t = allocated_at nino r V t).
Proof.
  induction fuel as [|fuel IH]; intros k b X G Hfit Esb A Hn Hb Hbm Hbr Hr Hu Hj Hf.
  { assert (b / BPB <= r / BPB) by (apply Z.div_le_mono; [reflexivity|done]). lia. }
  pose proof G as [G1 G2 G3 G4]. pose proof (tx_layout _ _ _ X) as [Y1 Y2 Y3 Y4].
  assert (HT : (size T <= size ({[BBLOCK r nino]} ∪ T))%nat) by (apply subseteq_size; set_solver).
  cbn [balloc_loop]. rewrite Esb at 1. rewrite G1, (proj2 (Z.ltb_lt _ _)) by lia.
  rewrite Esb at 1. rewrite G2. pose proof (bblock_range nino b G4 ltac:(lia)) as Hbb.
  apply wp_bind, (tx_read (L := L) k V T); [done|lia|apply (aside_meta nino L _ _ A); lia|destruct A; lia|]. intros bp bs Hh.
  apply wp_bind, (hold_bdata (L := L) _ V T bp (BBLOCK b nino)); [done|].
  rewrite Esb at 1. rewrite G1. pose proof (scan_block nino V b r Hb Hbm ltac:(lia) Hu Hj) as Hsc.
  destruct (balloc_scan (V (BBLOCK b nino)) b 0 (start + lsize) (Z.to_nat BPB)) as [bi|].
  - destruct Hsc as (Er & Emod & Ebb). rewrite Ebb in *. apply wp_seq3.
    apply (held_write (L := L) _ V T bp (BBLOCK r nino)); [done|lia| |lia|destruct A; lia|].
    { rewrite mark_used_length. by eapply tx_block. }
    intros k1 V1 Fr1 X1 E1. apply wp_bind. rewrite Er. pose proof (size_add (BBLOCK r nino) T).
    apply (bzero_spec L k1 V1 ({[BBLOCK r nino]} ∪ T)); [done|lia|done|lia|apply A|].
    intros k2 V2 Fr2 X2 E2. apply wp_ret. split; [done|]. exists V2. split; [|split; [done|]].
    + eapply bfr_trans; [|done]. eapply bfr_trans; [apply bufs_bfr|done].
    + intros t Ht. rewrite E2 by done. unfold allocated_at, fset. rewrite Emod.
      destruct (t =? r); [done|]. by apply E1.
  - apply wp_bind, (hold_brelse (L := L) _ V T bp (BBLOCK b nino)); [done|]. intros k1 Fr1 X1.
    wp_use (IH k1 (b + BPB)); try done.
    + change BPB with 4096 in *. lia.
    + change BPB with 4096 in *. Z.to_euclidean_division_equations. lia.
    + replace ((b + BPB) / BPB) with (b / BPB + 1); [lia|]. change BPB with 4096.
      Z.to_euclidean_division_equations. lia.
    + intros a k2 (-> & V2 & Fr2 & X2 & E2). split; [done|]. exists V2. split; [|done].
      eapply bfr_trans; [|exact Fr2]. eapply bfr_trans; [apply bufs_bfr|done].
Qed.

(** The first free block, if it lies before the log. *)
Definition first_free (nino : Z) (V : Z -> block) (r : Z) : Prop :=
  meta nino <= r < start /\ used nino V r = false /\ forall j, 0 <= j < r -> used nino V j = true.

Lemma balloc_held nino L k V T r :
  txw L old d0 k V T -> geom nino V -> Z.of_nat (size T) < lsize - 2 -> first_free nino V r ->
  aside nino L ({[BBLOCK r nino]} ∪ T) -> r ∉ L.*2 ->
  wp (balloc 1) k (fun a k' => a = r /\ exists V', bfr k k' /\
    txw L old d0 k' V' ({[r]} ∪ ({[BBLOCK r nino]} ∪ T)) /\
    forall t, 0 <= t < start -> V' t = allocated_at nino r V t).
Proof.
  intros X G Hfit (Hr & Hu & Hj) A Hn. pose proof G as [G1 G2 G3 G4]. pose proof (tx_layout _ _ _ X) as [Y1 Y2 Y3 Y4].
  pose proof (meta_pos nino G4 ltac:(lia)).
  assert (HT : (size T <= size ({[BBLOCK r nino]} ∪ T))%nat) by (apply subseteq_size; set_solver).
  unfold balloc. apply wp_bind, (readsb_spec nino L k V T); [done|done|split; [apply A|destruct A; lia]|]. intros k1 Fr1 X1.
  wp_use (balloc_loop_spec nino L (decode_sb (V 1)) V T r _ k1 0 X1 G Hfit eq_refl); try done; try lia.
  { rewrite Z2Nat.id by (rewrite G1; apply Z.add_nonneg_nonneg; [apply Z.div_pos; [lia|reflexivity]|lia]).
    rewrite G1. assert (r / BPB <= (start + lsize) / BPB) by (apply Z.div_le_mono; [reflexivity|lia]).
    change (0 / BPB) with 0. lia. }
  intros a k2 (-> & V2 & Fr2 & X2 & E2). split; [done|]. exists V2. split; [by eapply bfr_trans|done].
Qed.

Lemma balloc_spec nino k V T r :
  txw [] old d0 k V T -> geom nino V -> Z.of_nat (size T) < lsize - 2 -> first_free nino V r ->
  wp (balloc 1) k (fun a k' => a = r /\ exists V', bfr k k' /\
    txw [] old d0 k' V' ({[r]} ∪ ({[BBLOCK r nino]} ∪ T)) /\
    forall t, 0 <= t < start -> V' t = allocated_at nino r V t).
Proof.
  intros X G Hfit Hr. pose proof (tx_layout _ _ _ X) as [Y1 Y2 Y3 Y4]. pose proof (size_add (BBLOCK r nino) T).
  apply balloc_held; try done; [apply aside_nil; lia|apply not_elem_of_nil].
Qed.

(** ** Freeing *)

Definition freed_at (nino b : Z) (V : Z -> block) : Z -> block :=
  fset (BBLOCK b nino) (mark_free (b mod BPB) (V (BBLOCK b nino))) V.

Lemma bfree_held nino L k V T b :
  txw L old d0 k V T -> geom nino V -> Z.of_nat (size T) < lsize - 1 -> aside nino L T -> 0 <= b < start + lsize ->
  used nino V b = true ->
  wp (bfree 1 b) k (fun _ k' => exists V', bfr k k' /\ txw L old d0 k' V' ({[BBLOCK b nino]} ∪ T) /\
    forall t, 0 <= t < start -> V' t = freed_at nino b V t).
Proof.
  intros X G Hfit A Hb Hu. pose proof G as [G1 G2 G3 G4]. pose proof (tx_layout _ _ _ X) as [Y1 Y2 Y3 Y4].
  pose proof (bblock_range nino b G4 Hb) as Hbb. unfold bfree. apply wp_bind, (readsb_spec nino L k V T); [done..|].
  intros k1 Fr1 X1. rewrite G2. apply wp_bind, (tx_read (L := L) k1 V T);
    [done|lia|apply (aside_meta nino L _ _ A); lia|destruct A; lia|]. intros bp bs H2.
  apply wp_bind, (hold_bdata (L := L) _ V T bp (BBLOCK b nino)); [done|]. unfold used in Hu. rewrite Hu. cbn [negb].
  apply (held_write (L := L) _ V T bp (BBLOCK b nino)); [done|lia| |done|apply A|].
  { rewrite mark_free_length. by eapply tx_block. }
  intros k3 V3 Fr3 X3 E3. exists V3. split; [|done]. eapply bfr_trans; [exact Fr1|].
  eapply bfr_trans; [apply bufs_bfr|done].
Qed.

Lemma bfree_spec nino k V T b :
  txw [] old d0 k V T -> geom nino V -> Z.of_nat (size T) < lsize - 1 -> 0 <= b < start + lsize ->
  used nino V b = true ->
  wp (bfree 1 b) k (fun _ k' => exists V', bfr k k' /\ txw [] old d0 k' V' ({[BBLOCK b nino]} ∪ T) /\
    forall t, 0 <= t < start -> V' t = freed_at nino b V t).
Proof.
  intros X G Hfit. pose proof (tx_layout _ _ _ X) as [Y1 Y2 Y3 Y4]. apply bfree_held; try done. apply aside_nil. lia.
Qed.

Lemma bfree_free nino k V T b :
  txw [] old d0 k V T -> geom nino V -> Z.of_nat (size T) < lsize - 1 -> 0 <= b < start + lsize -> used nino V b = false ->
  panics (bfree 1 b) k "freeing free block".
Proof.
  intros X G Hfit Hb Hu. pose proof G as [G1 G2 G3 G4]. pose proof (bblock_range nino b G4 Hb) as Hbb.
  pose proof (tx_layout _ _ _ X) as [Y1 Y2 Y3 Y4].
  unfold bfree. apply panics_bind, (readsb_spec nino [] k V T); [done|done|apply aside_nil; lia|]. intros k1 Fr1 X1. rewrite G2.
  apply panics_bind, (tx_bread k1 V T); [done|lia|]. intros bp bs H2.
  apply panics_bind, (hold_bdata (L := []) _ V T bp (BBLOCK b nino)); [done|]. unfold used in Hu. rewrite Hu. apply panics_now.
Qed.

(** With every bit set there is nothing to allocate. *)
Lemma balloc_loop_full nino V T fuel : forall k b,
  txw [] old d0 k V T -> geom nino V -> 0 <= b -> b mod BPB = 0 ->
  (forall j, 0 <= j < start + lsize -> used nino V j = true) ->
  (start + lsize) / BPB + 1 - b / BPB <= Z.of_nat fuel ->
  panics (balloc_loop 1 b (decode_sb (V 1)) fuel) k "balloc: out of blocks".
Proof.
  induction fuel as [|fuel IH]; intros k b X G Hb Hbm Hj Hf; pose proof G as [G1 G2 G3 G4];
    pose proof (tx_layout _ _ _ X) as [Y1 Y2 Y3 Y4]; cbn [balloc_loop]; rewrite G1.
  - rewrite (proj2 (Z.ltb_ge _ _)); [apply panics_now|]. change BPB with 4096 in *.
    Z.to_euclidean_division_equations. lia.
  - destruct (Z.ltb_spec b (start + lsize)) as [Hlt|Hge]; [|apply panics_now].
    rewrite G2. pose proof (bblock_range nino b G4 ltac:(lia)) as Hbb.
    apply panics_bind, (tx_bread k V T); [done|lia|]. intros bp bs Hh.
    apply panics_bind, (hold_bdata (L := []) _ V T bp (BBLOCK b nino)); [done|].
    pose proof (balloc_scan_spec (V (BBLOCK b nino)) b (start + lsize) (Z.to_nat BPB) 0) as Hsc.
    destruct (balloc_scan (V (BBLOCK b nino)) b 0 (start + lsize) (Z.to_nat BPB)) as [bi|].
    + destruct Hsc as (Hbi & Hsz & Hin & _). exfalso. change (0 + Z.of_nat (Z.to_nat BPB)) with 4096 in Hbi.
      specialize (Hj (b + bi) ltac:(lia)). unfold used, BBLOCK in Hj. change BPB with 4096 in *.
      replace ((b + bi) / 4096) with (b / 4096) in Hj by (Z.to_euclidean_division_equations; lia).
      replace ((b + bi) mod 4096) with bi in Hj by (Z.to_euclidean_division_equations; lia).
      unfold BBLOCK in Hin. change BPB with 4096 in Hin. congruence.
    + apply panics_bind, (hold_brelse (L := []) _ V T bp (BBLOCK b nino)); [done|]. intros k1 Fr1 X1.
      apply IH; [done|done| | |done|]; change BPB with 4096 in *; Z.to_euclidean_division_equations; lia.
Qed.

Lemma balloc_full nino k V T :
  txw [] old d0 k V T -> geom nino V -> Z.of_nat (size T) < lsize - 1 -> (forall j, 0 <= j < start + lsize -> used nino V j = true) ->
  panics (balloc 1) k "balloc: out of blocks".
Proof.
  intros X G Hfit Hj. pose proof G as [G1 G2 G3 G4]. pose proof (tx_layout _ _ _ X) as [Y1 Y2 Y3 Y4].
  unfold balloc. apply panics_bind, (readsb_spec nino [] k V T); [done|done|apply aside_nil; lia|]. intros k1 Fr1 X1.
  apply (balloc_loop_full nino V T); [done|done|lia|done|done|]. rewrite G1.
  change BPB with 4096. change (0 / 4096) with 0. Z.to_euclidean_division_equations. lia.
Qed.
End Tx.

(** With no buffer held, and with one. *)
Abbreviation tx start lsize := (txw start lsize []).
Abbreviation hold start lsize old d0 k V T bp s := (txw start lsize [(bp, s)] old d0 k V T).

(** ** Reading blocks

    What the routines that only read need of the state: it shows the logical
    disk [V], and a block can be locked, looked at and released. *)

Class Readable (start : Z) (P : kstate -> (Z -> block) -> Prop)
    (H : kstate -> (Z -> block) -> nat -> Z -> Prop) `{Wakeups} : Prop := {
  rd_block : forall k V s, P k V -> length (V s) = 512%nat;
  rd_bread : forall k V s Q, P k V -> 0 <= s < start ->
    (forall bp bs, H (ks_bufs bs k) V bp s -> Q bp (ks_bufs bs k)) -> wp (bread 1 s) k Q;
  rd_bdata : forall k V bp s Q, H k V bp s -> Q (V s) k -> wp (bdata bp) k Q;
  rd_brelse : forall k V bp s (Q : unit -> kstate -> Prop), H k V bp s ->
    (forall k', bfr k k' -> woken (procs k) (procs k') -> P k' V -> Q tt k') -> wp (brelse bp) k Q;
  rd_frame : forall k k' V bp s, H k V bp s -> bufs k' = bufs k -> dsk k' = dsk k -> klog k' = klog k ->
    bc_lock k' = bc_lock k -> pt_lock k' = pt_lock k -> lg_lock k' = lg_lock k ->
    woken (procs k) (procs k') -> H k' V bp s;
  rd_same : forall k k' V, P k V -> bufs k' = bufs k -> dsk k' = dsk k -> klog k' = klog k ->
    bc_lock k' = bc_lock k -> pt_lock k' = pt_lock k -> lg_lock k' = lg_lock k ->
    woken (procs k) (procs k') -> P k' V;
  rd_unlocked : forall k V, P k V -> unlocked k
}.

(** Inside a transaction. *)
#[export] Instance tx_readable `{Wakeups} start lsize old d0 T :
  Readable start (fun k V => tx start lsize old d0 k V T) (fun k V bp s => hold start lsize old d0 k V T bp s).
Proof.
  split.
  - intros k V s. apply tx_block.
  - intros k V s Q X Hs HQ. apply (tx_bread start lsize old d0 k V T); [done|lia|done].
  - intros k V bp s Q Hh. by apply (hold_bdata start lsize old d0 (L := []) k V T bp s).
  - intros k V bp s Q Hh. by apply (hold_release start lsize old d0 (L := []) k V T bp s).
  - intros k k' V bp s Hh E1 E2 E3 E4 E5 E6 _. by apply (tx_frame start lsize old d0 k).
  - intros k k' V X E1 E2 E3 E4 E5 E6 _. by apply (tx_frame start lsize old d0 k).
  - intros k V (ws & D & X & _). apply (tx_unl _ _ _ _ _ _ _ _ X).
Qed.

(** Between transactions. *)
Definition at_rest (start lsize : Z) (k : kstate) (V : Z -> block) : Prop :=
  quiet start lsize k /\ forall s, V s = d_read (dsk k) s.

Lemma at_rest_same start lsize k k' V :
  at_rest start lsize k V -> bufs k' = bufs k -> dsk k' = dsk k -> klog k' = klog k ->
  bc_lock k' = bc_lock k -> pt_lock k' = pt_lock k -> lg_lock k' = lg_lock k -> at_rest start lsize k' V.
Proof.
  intros [[Qc Qu Ql Qi Qy Qh] E] E1 E2 E3 E4 E5 E6. split; [|intros s; by rewrite E2].
  split; rewrite ?E2, ?E3; try done; [by apply (cache_ext k)|]. unfold unlocked. by rewrite E4, E5, E6.
Qed.

Definition at_rest_held (start lsize : Z) (k : kstate) (V : Z -> block) (bp : nat) (s : Z) : Prop :=
  exists k0, at_rest start lsize k0 V /\ k = ks_bufs (bufs k) k0 /\ cache k V [(bp, s)] [].

#[export] Instance quiet_readable `{Wakeups} start lsize :
  Readable start (at_rest start lsize) (at_rest_held start lsize).
Proof.
  assert (Hca : forall k V, at_rest start lsize k V -> cache k V [] []).
  { intros k V [Q E]. apply (cache_vext k (d_read (dsk k))); [done|]. apply (qt_cache _ _ _ Q). }
  split.
  - intros k V s R. destruct (Hca _ _ R) as (_ & C & _). apply (cs_len _ _ _ _ _ C).
  - intros k V s Q R Hs HQ. pose proof R as [Qk _]. pose proof (qt_lay _ _ _ Qk) as [Y1 Y2 Y3 Y4].
    wp_use (wp_bread k V [] [] s (Hca _ _ R) (qt_unl _ _ _ Qk));
      [lia|apply not_elem_of_nil|left; unfold nbuf, NBUF; cbn; lia|].
    intros bp k' (bs & -> & Hc). apply HQ. by exists k.
  - intros k V bp s Q (k0 & _ & _ & Hc). apply (wp_bdata k V [(bp, s)] []); [done|by left].
  - intros k V bp s Q (k0 & R & Ek & Hc) HQ. pose proof R as [[Qc Qu Ql Qi Qy Qh] E].
    assert (Ed : dsk k = dsk k0) by (by rewrite Ek).
    wp_use (wp_brelse k V [] [] bp s Hc); [by rewrite Ek|right; by rewrite E, Ed|].
    intros [] k' (bs & -> & Hc'). apply HQ; [by destruct k|apply woken_wake|]. rewrite Ek in *. split; [|done]. split; try done.
    by apply (cache_vext _ V).
  - intros k k' V bp s (k0 & [[Qc Qu Ql Qi Qy Qh] E] & Ek & Hc) E1 E2 E3 E4 E5 E6 _.
    exists (ks_bufs (bufs k0) k'). rewrite Ek in E2, E3, E4, E5, E6. cbn in E2, E3, E4, E5, E6. split; [|split].
    + split; [|intros s'; cbn [dsk ks_bufs]; by rewrite E, E2].
      split; cbn [dsk klog ks_bufs]; rewrite ?E2, ?E3; try done.
      * apply (cache_ext k0); [done|exact E2|done].
      * unfold unlocked. cbn. by rewrite E4, E5, E6.
    + by destruct k'.
    + apply (cache_ext k); [done|rewrite E2, Ek; done|done].
  - intros k k' V R E1 E2 E3 E4 E5 E6 _. by apply (at_rest_same start lsize k).
  - intros k V [Q _]. apply (qt_unl _ _ _ Q).
Qed.

(** Either way, while the processes only wake up. *)
Definition with_procs (ps : list proc) (P : kstate -> (Z -> block) -> Prop) (k : kstate) (V : Z -> block) : Prop :=
  P k V /\ woken ps (procs k).

Definition with_procs_held (ps : list proc) (Hd : kstate -> (Z -> block) -> nat -> Z -> Prop)
    (k : kstate) (V : Z -> block) (bp : nat) (s : Z) : Prop :=
  Hd k V bp s /\ woken ps (procs k).

#[export] Instance procs_readable `{Wakeups} start P Hd ps `{!Readable start P Hd} :
  Readable start (with_procs ps P) (with_procs_held ps Hd).
Proof.
  split.
  - intros k V s [X _]. by apply (rd_block k).
  - intros k V s Q [X W] Hs HQ. apply (rd_bread k V); [done|done|]. intros bp bs Hh. by apply HQ.
  - intros k V bp s Q [Hh _]. by apply rd_bdata.
  - intros k V bp s Q [Hh W] HQ. apply (rd_brelse k V bp s); [done|]. intros k' Fr W' X'.
    apply HQ; [done|done|]. split; [done|by eapply woken_trans].
  - intros k k' V bp s [Hh W] E1 E2 E3 E4 E5 E6 W'. split; [by apply (rd_frame k)|by eapply woken_trans].
  - intros k k' V [X W] E1 E2 E3 E4 E5 E6 W'. split; [by apply (rd_same k)|by eapply woken_trans].
  - intros k V [X _]. by eapply rd_unlocked.
Qed.
