(* ===== verification/FileFacts.v ===== *)
(** * Files as sequences of bytes

    The bytes of a file behind its inode's block numbers; [bmap], [readi] and
    [writei] in terms of them. *)

From S2P Require Import Prelude Layout Mem Kalloc Vm State Sched Bytes Bio BioFacts Log LogFacts.
From S2P Require Import Inode Console Fs FsFacts.

Open Scope Z_scope.

(** ** The bytes of a file *)

(** The address in slot [b] of an inode, and the disk block of block [b] of the
    file. *)
Definition addr (ip : inode) (b : Z) : Z := nth (Z.to_nat b) (i_addrs ip) 0.
Definition blk (V : Z -> block) (ip : inode) (b : Z) : Z :=
  if b <? NDIRECT then addr ip b else get32 (4 * (b - NDIRECT)) (V (addr ip NDIRECT)).

Definition fbyte (V : Z -> block) (ip : inode) (j : Z) : byte :=
  nth (Z.to_nat (j mod BSIZE)) (V (blk V ip (j / BSIZE))) x00.

(** [n] bytes of a function from offset [off] on. *)
Definition window (f : Z -> byte) (off n : Z) : list byte :=
  (fun j => f (off + Z.of_nat j)) <$> seq 0 (Z.to_nat n).

Lemma window_length f off n : length (window f off n) = Z.to_nat n.
Proof. unfold window. by rewrite length_fmap, length_seq. Qed.

Lemma window_lookup f off n j : (j < Z.to_nat n)%nat -> window f off n !! j = Some (f (off + Z.of_nat j)).
Proof. intros Hj. unfold window. by rewrite list_lookup_fmap, lookup_seq_lt. Qed.

Lemma window_app f off n m : 0 <= n -> 0 <= m -> window f off (n + m) = window f off n ++ window f (off + n) m.
Proof.
  intros Hn Hm. apply list_eq. intros j. destruct (decide (j < Z.to_nat n)%nat) as [Hj|Hj].
  - rewrite lookup_app_l by (rewrite window_length; done). rewrite !window_lookup by lia. done.
  - rewrite lookup_app_r by (rewrite window_length; lia). rewrite window_length.
    destruct (decide (j < Z.to_nat (n + m))%nat).
    + rewrite !window_lookup by lia. f_equal. f_equal. lia.
    + rewrite !lookup_ge_None_2 by (rewrite window_length; lia). done.
Qed.

Lemma window_0 f off n : n <= 0 -> window f off n = [].
Proof. intros Hn. unfold window. by replace (Z.to_nat n) with 0%nat by lia. Qed.

(** A part of one block. *)
Lemma block_window V ip off m :
  0 <= off -> 0 <= m -> off mod BSIZE + m <= BSIZE -> length (V (blk V ip (off / BSIZE))) = 512%nat ->
  slice (off mod BSIZE) m (V (blk V ip (off / BSIZE))) = window (fbyte V ip) off m.
Proof.
  intros Ho Hm Hb Hl. change BSIZE with 512 in *. pose proof (Z.mod_pos_bound off 512 ltac:(lia)).
  apply list_eq. intros j. unfold slice. rewrite lookup_take. case_decide as Hj.
  - rewrite window_lookup, lookup_drop by done. unfold fbyte. change BSIZE with 512.
    replace ((off + Z.of_nat j) / 512) with (off / 512) by (Z.to_euclidean_division_equations; lia).
    replace ((off + Z.of_nat j) mod 512) with (off mod 512 + Z.of_nat j)
      by (Z.to_euclidean_division_equations; lia).
    rewrite nth_lookup. replace (Z.to_nat (off mod 512 + Z.of_nat j)) with (Z.to_nat (off mod 512) + j)%nat by lia.
    destruct (lookup_lt_is_Some_2 (V (blk V ip (off / 512))) (Z.to_nat (off mod 512) + j)) as [x Hx]; [lia|].
    by rewrite Hx.
  - rewrite lookup_ge_None_2; [done|]. rewrite window_length. lia.
Qed.

(** ** Reading *)

(** Everything but the caches, the disk, the log and memory is as it was. *)
Definition ffr (k k' : kstate) : Prop :=
  k' = ks_procs (procs k') (ks_bufs (bufs k') (ks_dsk (dsk k') (ks_klog (klog k') (ks_ms (ms k') k)))).

Lemma ffr_refl k : ffr k k.
Proof. by destruct k. Qed.

Lemma ffr_trans k1 k2 k3 : ffr k1 k2 -> ffr k2 k3 -> ffr k1 k3.
Proof. intros E1 E2. unfold ffr in *. rewrite E1 in E2. exact E2. Qed.

Lemma bfr_ffr k k' : bfr k k' -> ffr k k'.
Proof. intros E. unfold bfr, ffr in *. rewrite E. by destruct k. Qed.

Lemma ffr_inodes k k' : ffr k k' -> inodes k' = inodes k.
Proof. intros E. by rewrite E. Qed.

Lemma bfr_inodes k k' : bfr k k' -> inodes k' = inodes k.
Proof. intros E. by rewrite E. Qed.

Lemma wp_inoget k i ip Q : inodes k !! i = Some ip -> Q ip k -> wp (inoget i) k Q.
Proof. intros E HQ. unfold inoget. apply wp_bind, wp_gets. by rewrite E. Qed.

Lemma wp_addr_get k i ip b Q :
  inodes k !! i = Some ip -> (Z.to_nat b < length (i_addrs ip))%nat -> Q (addr ip b) k -> wp (addr_get i b) k Q.
Proof.
  intros E Hb HQ. unfold addr_get. apply wp_bind, (wp_inoget k i ip); [done|].
  destruct (lookup_lt_is_Some_2 (i_addrs ip) (Z.to_nat b) Hb) as [a Ha]. rewrite Ha.
  unfold addr in HQ. by rewrite (nth_lookup_Some _ _ _ _ Ha) in HQ.
Qed.

Section Read.
Context `{Wakeups} (start : Z) (P : kstate -> (Z -> block) -> Prop)
  (Hd : kstate -> (Z -> block) -> nat -> Z -> Prop) `{!Readable start P Hd}.

(** A file on disk 1 whose blocks below its size all exist. *)
Record file_ok (V : Z -> block) (ip : inode) : Prop := {
  fo_dev : i_dev ip = 1;
  fo_type : i_type ip <> T_DEV;
  fo_addrs : length (i_addrs ip) = 13%nat;
  fo_size : 0 <= i_size ip <= MAXFILE * BSIZE;
  fo_blocks : forall b, 0 <= b -> BSIZE * b < i_size ip -> 0 < blk V ip b < start;
  fo_indirect : NDIRECT * BSIZE < i_size ip -> 0 < addr ip NDIRECT < start
}.

(** [bmap] of a block that exists. *)
Lemma bmap_read k V i ip b (Q : Z -> kstate -> Prop) :
  P k V -> inodes k !! i = Some ip -> file_ok V ip -> 0 <= b -> BSIZE * b < i_size ip ->
  (forall k', bfr k k' -> P k' V -> Q (blk V ip b) k') -> wp (bmap i b) k Q.
Proof.
  intros X Ei [F1 F2 F3 F4 F5 F6] Hb Hs HQ. pose proof (F5 b Hb Hs) as Hr. unfold blk in Hr. unfold bmap.
  change (NDIRECT * BSIZE) with 6144 in F6. change (MAXFILE * BSIZE) with 71680 in F4.
  change BSIZE with 512 in *. change NDIRECT with 12 in *. change NINDIRECT with 128 in *.
  unfold blk in HQ. change NDIRECT with 12 in HQ. destruct (Z.ltb_spec b 12) as [Hd12|Hi].
  - unfold bmap_direct. apply wp_bind, (wp_addr_get k i ip); [done|lia|].
    rewrite (proj2 (Z.eqb_neq _ 0)) by lia. apply wp_ret, HQ; [apply bfr_refl|done].
  - rewrite (proj2 (Z.ltb_lt _ _)) by lia. specialize (F6 ltac:(lia)). unfold bmap_direct.
    apply wp_bind, wp_bind, (wp_addr_get k i ip); [done|rewrite F3; cbn; lia|]. change NDIRECT with 12.
    rewrite (proj2 (Z.eqb_neq _ 0)) by lia. apply wp_ret, wp_bind, (wp_inoget k i ip); [done|]. rewrite F1.
    apply wp_bind, (rd_bread k V); [done|lia|]. intros bp bs Hh. apply wp_bind, (rd_bdata _ V bp (addr ip 12)); [done|].
    rewrite (proj2 (Z.eqb_neq _ 0)) by lia. apply wp_bind, (rd_brelse _ V bp (addr ip 12)); [done|].
    intros k' Fr _ X'. apply wp_ret, HQ; [|done]. eapply bfr_trans; [apply bufs_bfr|done].
Qed.

(** A sink that changes nothing but memory. *)
Definition plain (dst : sink) : Prop := forall k i bs, exists s, dst i bs k = Ok tt (ks_ms s k).

(** A sink that, given the bytes [f] from [off] on piece by piece, makes [J] true
    of memory: [J tot] holds once [tot] of the [n] bytes are there. *)
Definition fills (dst : sink) (f : Z -> byte) (off n : Z) (J : Z -> mstate -> Prop) : Prop :=
  forall k tot m, J tot (ms k) -> 0 <= tot -> 0 <= m -> tot + m <= n ->
    exists s, dst tot (window f (off + tot) m) k = Ok tt (ks_ms s k) /\ J (tot + m) s.

Lemma plain_fills dst f off n : plain dst -> fills dst f off n (fun _ _ => True).
Proof. intros Hp k tot m _ _ _ _. destruct (Hp k tot (window f (off + tot) m)) as [s Es]. eauto. Qed.

Lemma bfr_ms k k' : bfr k k' -> ms k' = ms k.
Proof. intros E. by rewrite E. Qed.

Lemma readi_loop_spec V i ip dst o n J fuel : fills dst (fbyte V ip) o n J -> forall k off tot acc,
  P k V -> inodes k !! i = Some ip -> file_ok V ip -> 0 <= off -> 0 <= tot <= n -> off + (n - tot) <= i_size ip ->
  (tot < n -> off mod BSIZE + (n - tot) <= BSIZE * Z.of_nat fuel) -> off = o + tot -> J tot (ms k) ->
  wp (readi_loop i dst off tot n acc fuel) k (fun bs k' =>
    bs = acc ++ window (fbyte V ip) off (n - tot) /\ ffr k k' /\ P k' V /\ J n (ms k')).
Proof.
  intros Hp. induction fuel as [|fuel IH]; intros k off tot acc X Ei F Ho Ht Hs Hf Eo HJ; cbn [readi_loop].
  all: destruct (Z.ltb_spec tot n) as [Hlt|Hge];
    [|apply wp_ret; rewrite window_0, app_nil_r by lia; split; [done|]; split; [apply ffr_refl|]; split; [done|];
      replace n with tot by lia; done].
  { pose proof (Z.mod_pos_bound off BSIZE ltac:(reflexivity)). specialize (Hf Hlt). lia. }
  pose proof (Z.mod_pos_bound off BSIZE ltac:(reflexivity)) as Hm.
  assert (Hb : 0 <= off / BSIZE) by (apply Z.div_pos; [done|reflexivity]).
  assert (Hbs : BSIZE * (off / BSIZE) < i_size ip).
  { change BSIZE with 512. Z.to_euclidean_division_equations. lia. }
  apply wp_bind, (bmap_read k V i ip); [done..|]. intros k1 Fr1 X1.
  assert (Ei1 : inodes k1 !! i = Some ip) by (by rewrite (bfr_inodes _ _ Fr1)).
  apply wp_bind, (wp_inoget k1 i ip); [done|]. rewrite (fo_dev _ _ F).
  pose proof (fo_blocks _ _ F _ Hb Hbs) as Hr.
  apply wp_bind, (rd_bread k1 V); [done|lia|]. intros bp bs Hh.
  apply wp_bind, (rd_bdata _ V bp (blk V ip (off / BSIZE))); [done|].
  set (m := Z.min (n - tot) (BSIZE - off mod BSIZE)).
  rewrite block_window by (unfold m; lia || by eapply rd_block).
  set (w := window (fbyte V ip) off m).
  destruct (Hp (ks_bufs bs k1) tot m) as (s & Es & HJ1); [cbn; by rewrite (bfr_ms _ _ Fr1)|lia|unfold m; lia|unfold m; lia|].
  rewrite <- Eo in Es. fold w in Es.
  apply wp_bind. unfold wp at 1. rewrite Es.
  apply wp_bind, (rd_brelse _ V bp (blk V ip (off / BSIZE))); [by apply (rd_frame (ks_bufs bs k1)); try done; apply woken_refl|].
  intros k2 Fr2 _ X2.
  assert (Fr : ffr k k2).
  { eapply ffr_trans; [by apply bfr_ffr|]. eapply ffr_trans; [|by apply bfr_ffr]. by destruct k1. }
  assert (Hm0 : 0 <= m <= n - tot) by (unfold m; lia).
  wp_use (IH k2 (off + m) (tot + m) (acc ++ w)); [done|by rewrite (ffr_inodes _ _ Fr)|done|lia..| |lia| |].
  { intros Hlt'. specialize (Hf Hlt). unfold m in *. change BSIZE with 512 in *.
    Z.to_euclidean_division_equations. lia. }
  { by rewrite (bfr_ms _ _ Fr2). }
  intros bs' k3 (-> & Fr3 & X3 & HJ3). split; [|split; [by eapply ffr_trans|done]].
  replace (n - tot) with (m + (n - (tot + m))) by lia. rewrite window_app by (unfold m; lia).
  by rewrite app_assoc.
Qed.

(** [readi] returns the bytes from [off] on, cut at the end of the file, and hands
    them to the sink. *)
Lemma readi_into k V i ip dst off n J :
  let m := Z.min n (i_size ip - off) in
  fills dst (fbyte V ip) off m J -> P k V -> inodes k !! i = Some ip -> file_ok V ip -> 0 <= off <= i_size ip ->
  0 <= n < 2 ^ 31 -> J 0 (ms k) ->
  wp (readi i dst off n) k (fun r k' => r = (m, window (fbyte V ip) off m) /\ ffr k k' /\ P k' V /\ J m (ms k')).
Proof.
  intros m Hp X Ei F Ho Hn HJ. pose proof (fo_size _ _ F) as Hsz. change (MAXFILE * BSIZE) with 71680 in Hsz.
  unfold readi. apply wp_bind, (wp_inoget k i ip); [done|].
  rewrite (proj2 (Z.eqb_neq _ _)) by apply F. rewrite u32_small by lia.
  rewrite (proj2 (Z.ltb_ge (i_size ip) off)), (proj2 (Z.ltb_ge (off + n) off)) by lia. cbn [orb].
  replace (if i_size ip <? off + n then i_size ip - off else n) with m
    by (unfold m; destruct (Z.ltb_spec (i_size ip) (off + n)); lia).
  apply wp_bind. wp_use (readi_loop_spec V i ip dst off m J _ Hp k off 0 []); try done; try (unfold m; lia).
  { intros _. pose proof (Z.mod_pos_bound off BSIZE ltac:(reflexivity)). assert (0 <= m) by (unfold m; lia).
    change BSIZE with 512 in *. Z.to_euclidean_division_equations. lia. }
  intros bs k' (-> & Fr & X' & HJ'). apply wp_ret. rewrite Z.sub_0_r, s32_small by (unfold m; lia). done.
Qed.

Lemma readi_spec k V i ip dst off n :
  plain dst -> P k V -> inodes k !! i = Some ip -> file_ok V ip -> 0 <= off <= i_size ip -> 0 <= n < 2 ^ 31 ->
  let m := Z.min n (i_size ip - off) in
  wp (readi i dst off n) k (fun r k' => r = (m, window (fbyte V ip) off m) /\ ffr k k' /\ P k' V).
Proof.
  intros Hp X Ei F Ho Hn m.
  wp_use (readi_into k V i ip dst off n (fun _ _ => True) (plain_fills _ _ _ _ Hp) X Ei F Ho Hn I).
  by intros r k' (? & ? & ? & _).
Qed.

(** Into a local variable of the caller: memory stays as it is. *)
Lemma readi_local k V i ip off n :
  P k V -> inodes k !! i = Some ip -> file_ok V ip -> 0 <= off <= i_size ip -> 0 <= n < 2 ^ 31 ->
  let m := Z.min n (i_size ip - off) in
  wp (readi i to_local off n) k (fun r k' => r = (m, window (fbyte V ip) off m) /\ bfr k k' /\ P k' V).
Proof.
  intros X Ei F Ho Hn m.
  wp_use (readi_into k V i ip to_local off n (fun _ s => s = ms k)); try done.
  - intros k1 tot m' E _ _ _. exists (ms k1). split; [by destruct k1|done].
  - intros r k' (-> & Fr & X' & Em). split; [done|]. split; [|done]. unfold ffr, bfr in *. rewrite Fr, Em. by destruct k.
Qed.

End Read.
