(* ===== verification/WriteFacts.v ===== *)
(** * Writing files

    [bmap] with allocation, and [writei], for files up to the largest size: direct
    blocks, and those behind the block of indirect addresses. *)

From S2P Require Import Prelude Layout Mem Kalloc Vm State Sched Bytes Bio BioFacts Log LogFacts.
From S2P Require Import Inode Console Fs Codec FsFacts FileFacts.

Open Scope Z_scope.

Lemma nth_replicate {A} n m (x : A) : nth n (replicate m x) x = x.
Proof. revert m. induction n as [|n IH]; intros [|m]; cbn; auto. Qed.

Lemma filter_ext_in (P Q : Z -> Prop) `{!forall x, Decision (P x), !forall x, Decision (Q x)} (l : list Z) :
  (forall x, x ∈ l -> P x <-> Q x) -> filter P l = filter Q l.
Proof.
  induction l as [|x l IH]; intros HPQ; [done|]. rewrite !filter_cons, IH by (intros y Hy; apply HPQ; by right).
  specialize (HPQ x ltac:(by left)). destruct (decide (P x)), (decide (Q x)); tauto.
Qed.

Section Write.
Context `{Wakeups} (start lsize nino : Z).

(** ** The allocation state *)

(** The bitmap fits one block, which is the case for disks of up to 4096
    blocks; everything before the data blocks is marked. *)
Definition bmblock : Z := nino / IPB + 3.

Record fs_ok (V : Z -> block) : Prop := {
  fk_geom : geom start lsize nino V;
  fk_one : start + lsize <= BPB;
  fk_meta : forall j, 0 <= j < meta start lsize nino -> used nino V j = true;
  fk_len : forall t, 0 <= t < start -> length (V t) = 512%nat
}.

Definition free_blocks (V : Z -> block) : gset Z :=
  list_to_set (filter (fun b => used nino V b = false)
    (seqZ (meta start lsize nino) (start - meta start lsize nino))).

Lemma elem_of_free V b : b ∈ free_blocks V <-> meta start lsize nino <= b < start /\ used nino V b = false.
Proof.
  unfold free_blocks. rewrite elem_of_list_to_set, list_elem_of_filter, elem_of_seqZ. split; intros [? ?]; split; (done || lia).
Qed.

Lemma bblock_one b : 0 <= b < start + lsize -> start + lsize <= BPB -> BBLOCK b nino = bmblock.
Proof. intros Hb Ho. unfold BBLOCK, bmblock. rewrite Z.div_small by lia. lia. Qed.

Lemma bm_range V : fs_ok V -> 3 <= bmblock < meta start lsize nino /\ 0 <= start + lsize.
Proof.
  intros [[G1 G2 G3 G4] F2 F3 F4]. unfold bmblock, meta in *.
  assert (0 <= nino / IPB) by (apply Z.div_pos; [done|reflexivity]).
  assert (0 <= sb_size (decode_sb (V 1))) by (unfold decode_sb, sb_size; pose proof (get32_range 0 (V 1)); lia).
  assert (0 <= (start + lsize) / BPB) by (apply Z.div_pos; [lia|reflexivity]). lia.
Qed.

(** Only the blocks before the log matter. *)
Lemma fs_ok_ext V V' : (forall t, 0 <= t < start -> V' t = V t) -> 0 <= lsize -> fs_ok V -> fs_ok V'.
Proof.
  intros E Hl F. pose proof (bm_range V F) as [Hbm _]. destruct F as [[G1 G2 G3 G4] F2 F3 F4].
  assert (E1 : V' 1 = V 1) by (apply E; lia). split.
  - split; rewrite ?E1; done.
  - done.
  - intros j Hj. unfold used. rewrite bblock_one by (done || lia). rewrite E by lia.
    specialize (F3 j Hj). unfold used in F3. rewrite bblock_one in F3 by (done || lia). done.
  - intros t Ht. rewrite E by done. by apply F4.
Qed.

Lemma used_ext V V' j :
  (forall t, 0 <= t < start -> V' t = V t) -> fs_ok V -> 0 <= j < start + lsize -> used nino V' j = used nino V j.
Proof.
  intros E F Hj. pose proof (bm_range V F) as [Hbm _]. destruct F as [[G1 G2 G3 G4] F2 F3 F4]. unfold used.
  rewrite bblock_one by (done || lia). by rewrite E by lia.
Qed.

(** Allocating block [r] marks it and nothing else. *)
Lemma used_allocated V r j :
  fs_ok V -> meta start lsize nino <= r < start -> 0 <= j < start + lsize -> 0 <= lsize ->
  used nino (allocated_at nino r V) j = if j =? r then true else used nino V j.
Proof.
  intros F Hr Hj Hl. pose proof (bm_range V F) as [Hbm _]. destruct F as [[G1 G2 G3 G4] F2 F3 F4].
  unfold used, allocated_at. rewrite !bblock_one by (done || lia).
  rewrite fset_ne, fset_at by lia. rewrite in_use_mark_used.
  - rewrite !Z.mod_small by lia. done.
  - apply Z.mod_pos_bound. reflexivity.
  - apply Z.mod_pos_bound. reflexivity.
  - apply F4. lia.
Qed.

Lemma fs_ok_allocated V r :
  fs_ok V -> meta start lsize nino <= r < start -> 0 <= lsize -> fs_ok (allocated_at nino r V).
Proof.
  intros F Hr Hl. pose proof (bm_range V F) as [Hbm _]. pose proof F as [[G1 G2 G3 G4] F2 F3 F4].
  assert (E1 : allocated_at nino r V 1 = V 1).
  { unfold allocated_at. rewrite bblock_one by (done || lia). rewrite !fset_ne by lia. done. }
  split.
  - split; rewrite ?E1; done.
  - done.
  - intros j Hj. rewrite used_allocated by (done || lia). destruct (j =? r); [done|]. by apply F3.
  - intros t Ht. unfold allocated_at, fset. destruct (t =? r); [apply length_replicate|].
    destruct (t =? BBLOCK r nino); [|by apply F4]. rewrite mark_used_length. apply F4.
    rewrite bblock_one by (done || lia). lia.
Qed.

Lemma free_allocated V r :
  fs_ok V -> meta start lsize nino <= r < start -> 0 <= lsize ->
  free_blocks (allocated_at nino r V) = free_blocks V ∖ {[r]}.
Proof.
  intros F Hr Hl. pose proof (bm_range V F) as [Hbm _]. apply set_eq. intros b.
  rewrite elem_of_difference, !elem_of_free, elem_of_singleton. split.
  - intros [Hb Hu]. rewrite used_allocated in Hu by (done || lia). by destruct (Z.eqb_spec b r).
  - intros [[Hb Hu] Hne]. split; [done|]. rewrite used_allocated by (done || lia). by destruct (Z.eqb_spec b r).
Qed.

Lemma free_ext V V' :
  (forall t, 0 <= t < start -> V' t = V t) -> fs_ok V -> 0 <= lsize -> free_blocks V' = free_blocks V.
Proof.
  intros E F Hl. pose proof (bm_range V F) as [Hbm _]. apply set_eq. intros b. rewrite !elem_of_free.
  split; intros [Hb Hu]; (split; [done|]); [rewrite <- Hu; symmetry|rewrite <- Hu]; apply used_ext; (done || lia).
Qed.

Lemma free_same V V' :
  (forall t, 0 <= t < start + lsize -> used nino V' t = used nino V t) -> fs_ok V -> 0 <= lsize -> free_blocks V' = free_blocks V.
Proof.
  intros U F Hl. pose proof (bm_range V F) as [Hbm _]. apply set_eq. intros b. rewrite !elem_of_free.
  split; intros [Hb Hu]; (split; [done|]); rewrite <- Hu; [symmetry|]; apply U; lia.
Qed.

(** There is a first free block when there is any. *)
Lemma first_free_exists V n : forall b0,
  0 <= b0 -> (forall j, 0 <= j < b0 -> used nino V j = true) ->
  (exists b, b0 <= b < b0 + Z.of_nat n /\ used nino V b = false) ->
  exists r, b0 <= r < b0 + Z.of_nat n /\ used nino V r = false /\ forall j, 0 <= j < r -> used nino V j = true.
Proof.
  induction n as [|n IH]; intros b0 H0 Hj (b & Hb & Hu); [lia|].
  destruct (used nino V b0) eqn:E0; [|exists b0; split; [lia|done]].
  destruct (IH (b0 + 1)) as (r & Hr & Hur & Hjr); [lia| | |].
  - intros j Hjj. destruct (decide (j = b0)) as [->|]; [done|]. apply Hj. lia.
  - exists b. split; [|done]. destruct (decide (b = b0)) as [->|]; [congruence|lia].
  - exists r. split; [lia|done].
Qed.

Lemma free_first V : fs_ok V -> free_blocks V <> ∅ -> exists r, first_free start lsize nino V r.
Proof.
  intros F Hne. pose proof (bm_range V F) as [Hbm _]. apply set_choose_L in Hne as (b & Hb). apply elem_of_free in Hb as [Hb Hu].
  destruct (first_free_exists V (Z.to_nat (start - meta start lsize nino)) (meta start lsize nino)) as (r & Hr & Hur & Hj).
  - lia.
  - apply F.
  - exists b. split; [lia|done].
  - exists r. split; [lia|done].
Qed.
(** ** The blocks of a file

    The cells of an inode hold its block addresses: cells 0 to 11 the direct
    ones, cell 12 the block of indirect addresses, and the cells from 13 on the
    addresses in that block. *)

Definition NCELLS : Z := NDIRECT + 1 + NINDIRECT.

Definition cell (V : Z -> block) (ip : inode) (c : Z) : Z :=
  if c <=? NDIRECT then addr ip c
  else if addr ip NDIRECT =? 0 then 0 else get32 (4 * (c - NDIRECT - 1)) (V (addr ip NDIRECT)).

(** The cell of block [b] of the file, and what it holds. *)
Definition cellno (b : Z) : Z := if b <? NDIRECT then b else b + 1.
Definition bcell (V : Z -> block) (ip : inode) (b : Z) : Z := cell V ip (cellno b).

Lemma cellno_range b : 0 <= b < MAXFILE -> 0 <= cellno b < NCELLS /\ cellno b <> NDIRECT.
Proof.
  unfold cellno, NCELLS. change MAXFILE with 140. change NDIRECT with 12. change NINDIRECT with 128.
  intros Hb. destruct (Z.ltb_spec b 12); lia.
Qed.

Lemma cellno_inj b b' : cellno b = cellno b' -> b = b'.
Proof. unfold cellno. destruct (Z.ltb_spec b NDIRECT), (Z.ltb_spec b' NDIRECT); lia. Qed.

Lemma cell_ind V ip : cell V ip NDIRECT = addr ip NDIRECT.
Proof. unfold cell. by rewrite Z.leb_refl. Qed.

(** Only the block of indirect addresses matters. *)
Lemma cell_ext V V' ip c :
  (addr ip NDIRECT <> 0 -> V' (addr ip NDIRECT) = V (addr ip NDIRECT)) -> cell V' ip c = cell V ip c.
Proof.
  intros E. unfold cell. destruct (_ <=? _); [done|]. destruct (Z.eqb_spec (addr ip NDIRECT) 0); [done|].
  by rewrite E.
Qed.

Lemma bcell_blk V ip b : bcell V ip b <> 0 -> blk V ip b = bcell V ip b.
Proof.
  unfold bcell, cell, cellno, blk. change NDIRECT with 12. destruct (Z.ltb_spec b 12).
  - by rewrite (proj2 (Z.leb_le b 12)) by lia.
  - rewrite (proj2 (Z.leb_gt (b + 1) 12)) by lia. destruct (_ =? 0); [done|]. intros _. do 2 f_equal. lia.
Qed.

(** A block beyond the direct ones needs the indirect block. *)
Lemma bcell_ind V ip b : NDIRECT <= b -> bcell V ip b <> 0 -> addr ip NDIRECT <> 0.
Proof.
  intros Hb. unfold bcell, cell, cellno. rewrite (proj2 (Z.ltb_ge b NDIRECT)), (proj2 (Z.leb_gt (b + 1) NDIRECT)) by lia.
  by destruct (Z.eqb_spec (addr ip NDIRECT) 0).
Qed.

Lemma fbyte_cell V ip j :
  bcell V ip (j / BSIZE) <> 0 -> fbyte V ip j = nth (Z.to_nat (j mod BSIZE)) (V (bcell V ip (j / BSIZE))) x00.
Proof. intros Ha. unfold fbyte. by rewrite bcell_blk. Qed.

(** The blocks of a file are data blocks in use, and no two cells share one. *)
Record sound_file (V : Z -> block) (ip : inode) : Prop := {
  sf_ok : file_ok start V ip;
  sf_cell : forall c, 0 <= c < NCELLS -> cell V ip c <> 0 ->
    meta start lsize nino <= cell V ip c < start /\ used nino V (cell V ip c) = true;
  sf_inj : forall c c', 0 <= c < NCELLS -> 0 <= c' < NCELLS -> cell V ip c <> 0 -> cell V ip c = cell V ip c' -> c = c'
}.

(** Blocks below the size exist. *)
Lemma block_of j : 0 <= j < MAXFILE * BSIZE -> 0 <= j / BSIZE < MAXFILE.
Proof.
  intros Hj. change BSIZE with 512 in *. change MAXFILE with 140 in *. Z.to_euclidean_division_equations. lia.
Qed.

Lemma below_block V ip b : file_ok start V ip -> 0 <= b -> BSIZE * b < i_size ip -> bcell V ip b <> 0.
Proof.
  intros So Hb Hs. pose proof (fo_blocks _ _ _ So b Hb Hs) as Hr. pose proof (fo_indirect _ _ _ So) as Hi.
  unfold blk in Hr. unfold bcell, cell, cellno. change (NDIRECT * BSIZE) with 6144 in Hi. change BSIZE with 512 in *.
  change NDIRECT with 12 in *. destruct (Z.ltb_spec b 12).
  - rewrite (proj2 (Z.leb_le b 12)) by lia. lia.
  - rewrite (proj2 (Z.leb_gt (b + 1) 12)), (proj2 (Z.eqb_neq _ 0)) by lia.
    replace (b + 1 - 12 - 1) with (b - 12) by lia. lia.
Qed.

Lemma below_size V ip j : file_ok start V ip -> 0 <= j < i_size ip -> bcell V ip (j / BSIZE) <> 0.
Proof.
  intros So Hj. apply below_block; [done|apply Z.div_pos; [lia|reflexivity]|].
  change BSIZE with 512. Z.to_euclidean_division_equations. lia.
Qed.

(** The indirect block of a file that reaches it. *)
Lemma ind_range V ip : fs_ok V -> sound_file V ip -> addr ip NDIRECT <> 0 ->
  meta start lsize nino <= addr ip NDIRECT < start /\ used nino V (addr ip NDIRECT) = true.
Proof. intros F Sf. rewrite <- (cell_ind V). by apply (sf_cell _ _ Sf). Qed.

(** A disk on which the cells are the same and no block was freed. *)
Lemma sound_file_kept V V' ip :
  (forall c, 0 <= c < NCELLS -> cell V' ip c = cell V ip c) ->
  (forall t, 0 <= t < start -> used nino V t = true -> used nino V' t = true) -> 0 <= meta start lsize nino ->
  sound_file V ip -> sound_file V' ip.
Proof.
  intros Ec Eu Hm [So Sc Si]. pose proof So as [O1 O2 O3 O4 O5 O6]. split.
  - split; try done. intros b Hb Hs. pose proof (below_block V ip b So Hb Hs) as Ha.
    assert (Hbm : 0 <= b < MAXFILE) by (change (MAXFILE * BSIZE) with 71680 in O4; change BSIZE with 512 in *; change MAXFILE with 140; lia).
    pose proof (cellno_range b Hbm) as [Hc _]. assert (E : bcell V' ip b = bcell V ip b) by (by apply Ec).
    rewrite bcell_blk by (by rewrite E). rewrite E. rewrite <- bcell_blk by done. by apply O5.
  - intros c Hc. rewrite Ec by done. intros Ha. destruct (Sc c Hc Ha) as [R1 R2]. split; [done|]. apply Eu; [lia|done].
  - intros c c' Hc Hc'. rewrite !Ec by done. by apply Si.
Qed.

(** The bytes [lo], ..., [hi - 1] of the file are now [g]; new blocks are
    otherwise zero, the rest of the file and every other used block is as it
    was. *)
Record wrote (V : Z -> block) (ip : inode) (V' : Z -> block) (ip' : inode) (lo hi : Z) (g : Z -> byte) : Prop := {
  wr_bytes : forall j, 0 <= j < MAXFILE * BSIZE -> bcell V' ip' (j / BSIZE) <> 0 -> fbyte V' ip' j =
    if (lo <=? j) && (j <? hi) then g j else if bcell V ip (j / BSIZE) =? 0 then x00 else fbyte V ip j;
  wr_covers : forall j, lo <= j < hi -> bcell V' ip' (j / BSIZE) <> 0;
  wr_cells : forall c, 0 <= c < NCELLS -> cell V ip c <> 0 -> cell V' ip' c = cell V ip c;
  wr_new : forall c, 0 <= c < NCELLS -> cell V' ip' c <> 0 ->
    cell V' ip' c = cell V ip c \/ used nino V (cell V' ip' c) = false;
  wr_frame : forall t, 0 <= t < start -> t <> bmblock -> used nino V t = true ->
    (forall c, 0 <= c < NCELLS -> cell V ip c <> 0 -> cell V ip c <> t) -> V' t = V t;
  wr_used : forall t, 0 <= t < start -> used nino V t = true -> used nino V' t = true;
  wr_inode : ip' = is_addrs (i_addrs ip') ip;
  wr_fits : Forall (fun z => 0 <= z < 2 ^ 32) (i_addrs ip) -> Forall (fun z => 0 <= z < 2 ^ 32) (i_addrs ip')
}.

Lemma wrote_trans V ip V1 ip1 V2 ip2 lo mid hi g :
  0 <= lo <= mid -> mid <= hi <= MAXFILE * BSIZE ->
  (forall c, 0 <= c < NCELLS -> cell V2 ip2 c <> 0 -> 0 <= cell V2 ip2 c < start) ->
  wrote V ip V1 ip1 lo mid g -> wrote V1 ip1 V2 ip2 mid hi g -> wrote V ip V2 ip2 lo hi g.
Proof.
  intros Hm Hh Hr1 [A1 Ac A2 A3 A4 A5 A6 A7] [B1 Bc B2 B3 B4 B5 B6 B7].
  assert (Az : forall c, 0 <= c < NCELLS -> cell V1 ip1 c = 0 -> cell V ip c = 0).
  { intros c Hb E. destruct (decide (cell V ip c = 0)); [done|]. by rewrite <- (A2 c). }
  assert (Bl : forall j, 0 <= j < MAXFILE * BSIZE -> 0 <= cellno (j / BSIZE) < NCELLS).
  { intros j Hj. by apply cellno_range, block_of. }
  split.
  - intros j Hj Ha. pose proof (Bl j Hj) as Hb. rewrite B1 by done.
    destruct (Z.eqb_spec (bcell V1 ip1 (j / BSIZE)) 0) as [E1|E1].
    + assert (E0 : bcell V ip (j / BSIZE) = 0) by (by apply Az). rewrite E0, Z.eqb_refl. assert (Hno : ~ lo <= j < mid) by (intros Hc; by apply (Ac j Hc)).
      destruct (Z.leb_spec mid j), (Z.ltb_spec j hi), (Z.leb_spec lo j); cbn; try done; lia.
    + rewrite A1 by done.
      destruct (Z.leb_spec mid j), (Z.ltb_spec j hi), (Z.leb_spec lo j), (Z.ltb_spec j mid); cbn; try done; lia.
  - intros j Hj. destruct (decide (j < mid)).
    + unfold bcell. rewrite B2; [apply Ac; lia|apply Bl; lia|apply Ac; lia].
    + apply Bc. lia.
  - intros c Hb Ha. rewrite B2, A2; try done. by rewrite A2.
  - intros c Hb Ha. destruct (B3 c Hb Ha) as [E|E].
    + rewrite E in *. by apply A3.
    + right. destruct (used nino V (cell V2 ip2 c)) eqn:Eu; [|done]. by rewrite A5 in E by auto.
  - intros t Ht Hbm Hu Hne. rewrite B4; [apply A4; done|done|done|by apply A5|].
    intros c Hb Ha E. destruct (A3 c Hb Ha) as [E2|E2]; [|congruence].
    apply (Hne c Hb); congruence.
  - intros t Ht Hu. by apply B5, A5.
  - rewrite B6, A6. done.
  - intros Hf. by apply B7, A7.
Qed.

Lemma wrote_refl V ip lo g : wrote V ip V ip lo lo g.
Proof.
  split; try done.
  - intros j Hj Ha. rewrite (proj2 (Z.eqb_neq _ 0)) by done.
    destruct (Z.leb_spec lo j), (Z.ltb_spec j lo); cbn; try done; lia.
  - lia.
  - intros c Hb Ha. by left.
  - by destruct ip.
Qed.

(** Looking at addresses after an assignment. *)
Lemma addr_insert ip b b' a :
  length (i_addrs ip) = 13%nat -> 0 <= b < 13 -> 0 <= b' ->
  addr (is_addrs (<[Z.to_nat b := a]> (i_addrs ip)) ip) b' = if b' =? b then a else addr ip b'.
Proof.
  intros Hl Hb Hb'. unfold addr. cbn. rewrite !nth_lookup. destruct (Z.eqb_spec b' b) as [->|Hne].
  - by rewrite list_lookup_insert_eq by lia.
  - by rewrite list_lookup_insert_ne by lia.
Qed.

(** ** bmap with allocation *)

(** The inode after cell [b] was given the disk block [a]. *)
Definition set_addr (b a : Z) (ip : inode) : inode := is_addrs (<[Z.to_nat b := a]> (i_addrs ip)) ip.

(** Block [r] was free and is now the block of cell [c], which had none; it is zero. *)
Record took (V : Z -> block) (ip : inode) (V1 : Z -> block) (ip1 : inode) (c r : Z) : Prop := {
  tk_none : cell V ip c = 0;
  tk_free : meta start lsize nino <= r < start /\ used nino V r = false;
  tk_cells : forall c', 0 <= c' < NCELLS -> cell V1 ip1 c' = if c' =? c then r else cell V ip c';
  tk_zero : V1 r = replicate 512 x00;
  tk_rest : forall t, 0 <= t < start -> t <> r -> t <> bmblock -> (NDIRECT < c -> t <> addr ip NDIRECT) -> V1 t = V t;
  tk_ind : NDIRECT < c -> addr ip NDIRECT <> 0;
  tk_used : forall j, 0 <= j < start + lsize -> used nino V1 j = if j =? r then true else used nino V j;
  tk_len : length (i_addrs ip1) = 13%nat;
  tk_inode : ip1 = is_addrs (i_addrs ip1) ip;
  tk_fits : Forall (fun z => 0 <= z < 2 ^ 32) (i_addrs ip) -> Forall (fun z => 0 <= z < 2 ^ 32) (i_addrs ip1)
}.

Lemma took_file V ip V1 ip1 c r :
  fs_ok V -> 0 <= lsize -> sound_file V ip -> 0 <= c < NCELLS -> took V ip V1 ip1 c r -> sound_file V1 ip1.
Proof.
  intros F Hl Sf Hc [Kn [Kr Ku] Kc Kz Kt Ki Us K13 Kin Kf]. pose proof (bm_range V F) as [Hbm _].
  pose proof Sf as [So Sc Si]. pose proof So as [O1 O2 O3 O4 O5 O6].
  assert (Hfresh : forall c', 0 <= c' < NCELLS -> cell V ip c' <> 0 -> cell V ip c' <> r).
  { intros c' Hc' Ha E. destruct (Sc c' Hc' Ha) as [_ Hua]. rewrite E in Hua. congruence. }
  split.
  - split; try (by rewrite Kin).
    + rewrite Kin. cbn. intros b Hb Hs. assert (Hs' : BSIZE * b < i_size ip) by done.
      pose proof (below_block V ip b So Hb Hs') as Ha.
      assert (Hbm' : 0 <= b < MAXFILE) by (change (MAXFILE * BSIZE) with 71680 in O4; change BSIZE with 512 in *; change MAXFILE with 140; lia).
      pose proof (cellno_range b Hbm') as [Hcr _]. rewrite <- Kin.
      assert (E : bcell V1 ip1 b = bcell V ip b).
      { unfold bcell. rewrite Kc by done. destruct (Z.eqb_spec (cellno b) c) as [E|]; [|done].
        unfold bcell in Ha. by rewrite E in Ha. }
      rewrite bcell_blk by (by rewrite E). rewrite E, <- bcell_blk by done. by apply O5.
    + rewrite Kin at 1. cbn. intros Hs. specialize (O6 Hs). rewrite <- (cell_ind V1), Kc by done. rewrite cell_ind.
      destruct (Z.eqb_spec NDIRECT c); [lia|done].
  - intros c' Hc'. rewrite Kc by done. destruct (Z.eqb_spec c' c) as [->|].
    + intros _. split; [done|]. rewrite Us by lia. by rewrite Z.eqb_refl.
    + intros Ha. destruct (Sc c' Hc' Ha) as [R1 R2]. split; [done|]. rewrite Us by lia. by destruct (_ =? r).
  - intros c1 c2 H1 H2. rewrite !Kc by done. destruct (Z.eqb_spec c1 c), (Z.eqb_spec c2 c); subst; try done.
    + intros _ E2. destruct (Hfresh c2 H2); [lia|done].
    + intros Ha E2. destruct (Hfresh c1 H1 Ha E2).
    + intros Ha E2. by apply Si.
Qed.

Lemma took_wrote V ip V1 ip1 c r g :
  fs_ok V -> 0 <= lsize -> sound_file V ip -> 0 <= c < NCELLS -> took V ip V1 ip1 c r -> wrote V ip V1 ip1 0 0 g.
Proof.
  intros F Hl Sf Hc [Kn [Kr Ku] Kc Kz Kt Ki Us K13 Kin Kf]. pose proof (bm_range V F) as [Hbm _].
  pose proof Sf as [So Sc Si].
  assert (Hfresh : forall c', 0 <= c' < NCELLS -> cell V ip c' <> 0 -> cell V ip c' <> r).
  { intros c' Hc' Ha E. destruct (Sc c' Hc' Ha) as [_ Hua]. rewrite E in Hua. congruence. }
  split; try done.
  - intros j Hj0 Ha1. destruct (cellno_range _ (block_of j Hj0)) as [Hbj Hnd]. rewrite fbyte_cell by done.
    rewrite (proj2 (Z.ltb_ge j 0)), andb_false_r by lia. unfold bcell in *. rewrite Kc in * by done.
    destruct (Z.eqb_spec (cellno (j / BSIZE)) c) as [->|Hne].
    + rewrite Kn, Z.eqb_refl, Kz. apply nth_replicate.
    + rewrite (proj2 (Z.eqb_neq _ 0)), fbyte_cell by done. unfold bcell. destruct (Sc _ Hbj Ha1) as [R1 R2].
      rewrite Kt; [done|lia|by apply Hfresh|lia|]. intros _. rewrite <- (cell_ind V). intros E.
      apply Hnd, (Si _ NDIRECT); done.
  - lia.
  - intros c' Hb' Ha. rewrite Kc by done. destruct (Z.eqb_spec c' c) as [->|]; done.
  - intros c' Hb'. rewrite Kc by done. destruct (Z.eqb_spec c' c) as [->|]; intros Ha; [by right|by left].
  - intros t Ht Hne Hut Hno. apply Kt; [done|congruence|done|]. intros Hcd E. apply (Hno NDIRECT); rewrite ?cell_ind; auto. done.
  - intros t Ht Hut. rewrite Us by lia. by destruct (t =? r).
Qed.

Lemma took_fs V ip V1 ip1 c r :
  fs_ok V -> 0 <= lsize -> sound_file V ip -> took V ip V1 ip1 c r ->
  (forall t, 0 <= t < start -> length (V1 t) = 512%nat) ->
  fs_ok V1 /\ free_blocks V1 = free_blocks V ∖ {[r]}.
Proof.
  intros F Hl Sf [Kn [Kr Ku] Kc Kz Kt Ki Us K13 Kin Kf] Len. pose proof (bm_range V F) as [Hbm _].
  pose proof (ind_range V ip F Sf) as Hind. pose proof F as [[G1 G2 G3 G4] F2 F3 F4]. split.
  - assert (E1 : V1 1 = V 1) by (apply Kt; [lia|lia|lia|intros Hc%Ki; specialize (Hind Hc); lia]).
    split; [split; by rewrite ?E1|done| |done]. intros j Hj. rewrite Us by lia. destruct (j =? r); [done|]. by apply F3.
  - apply set_eq. intros b. rewrite elem_of_difference, !elem_of_free, elem_of_singleton. split.
    + intros [Hb Hu]. rewrite Us in Hu by lia. by destruct (Z.eqb_spec b r).
    + intros [[Hb Hu] Hne]. split; [done|]. rewrite Us by lia. by destruct (Z.eqb_spec b r).
Qed.

Lemma get32_zero off : 0 <= off -> get32 off (replicate 512 x00) = 0.
Proof.
  intros Ho. unfold get32, slice. rewrite drop_replicate, take_replicate. by induction (_ `min` _)%nat as [|m IH]; cbn; rewrite ?IH.
Qed.

(** The blocks after [balloc]. *)
Lemma allocated_rest V r t : fs_ok V -> 0 <= lsize -> meta start lsize nino <= r < start ->
  t <> r -> t <> bmblock -> allocated_at nino r V t = V t.
Proof.
  intros F Hl Hr H1 H2. pose proof (bm_range V F) as [Hbm _]. unfold allocated_at.
  rewrite bblock_one by (apply F || lia). by rewrite !fset_ne.
Qed.

Lemma took_direct V ip V1 c r :
  fs_ok V -> 0 <= lsize -> sound_file V ip -> 0 <= c <= NDIRECT -> addr ip c = 0 -> first_free start lsize nino V r ->
  (forall t, 0 <= t < start -> V1 t = allocated_at nino r V t) -> took V ip V1 (set_addr c r ip) c r.
Proof.
  intros F Hl Sf Hc Ea (Hr & Hu & Hj) E. pose proof (bm_range V F) as [Hbm _]. pose proof (ind_range V ip F Sf) as Hind.
  pose proof (fo_addrs _ _ _ (sf_ok _ _ Sf)) as H13. change NDIRECT with 12 in *.
  assert (Ad : forall b', 0 <= b' -> addr (set_addr c r ip) b' = if b' =? c then r else addr ip b').
  { intros b' Hb'. apply addr_insert; (done || lia). }
  assert (Fr : forall t, 0 <= t < start -> t <> r -> t <> bmblock -> V1 t = V t).
  { intros t Ht H1 H2. rewrite E by done. by apply allocated_rest. }
  assert (Er : V1 r = replicate 512 x00) by (rewrite E by lia; apply fset_at).
  split; try done.
  - unfold cell. change NDIRECT with 12. by rewrite (proj2 (Z.leb_le c 12)) by lia.
  - intros c' Hc'. unfold cell. change NDIRECT with 12. rewrite !Ad by lia. destruct (Z.leb_spec c' 12); [done|].
    rewrite (proj2 (Z.eqb_neq c' c)) by lia. destruct (Z.eqb_spec 12 c) as [<-|].
    + rewrite Ea, Z.eqb_refl, (proj2 (Z.eqb_neq r 0)), Er by lia. apply get32_zero. lia.
    + destruct (Z.eqb_spec (addr ip 12) 0) as [|Hn]; [done|]. destruct (Hind Hn) as [R1 R2].
      rewrite Fr; [done|lia|congruence|lia].
  - intros t Ht H1 H2 _. by apply Fr.
  - change NDIRECT with 12. lia.
  - intros j Hjj. rewrite (used_ext (allocated_at nino r V)); [|done|by apply fs_ok_allocated|done].
    by apply used_allocated.
  - cbn. by rewrite length_insert.
  - intros Hf. apply Forall_insert; [done|]. pose proof (fk_one _ F). change BPB with 4096 in *. lia.
Qed.

Lemma took_entry V ip V1 c r :
  fs_ok V -> 0 <= lsize -> sound_file V ip -> NDIRECT < c < NCELLS -> addr ip NDIRECT <> 0 -> cell V ip c = 0 ->
  first_free start lsize nino V r ->
  (forall t, 0 <= t < start -> V1 t = fset (addr ip NDIRECT)
    (put32 (4 * (c - NDIRECT - 1)) r (V (addr ip NDIRECT))) (allocated_at nino r V) t) ->
  took V ip V1 ip c r.
Proof.
  intros F Hl Sf Hc Hn Ez (Hr & Hu & Hj) E. pose proof (bm_range V F) as [Hbm _]. destruct (ind_range V ip F Sf Hn) as [R1 R2].
  pose proof (fk_len _ F (addr ip NDIRECT) ltac:(lia)) as L512.
  unfold NCELLS in Hc. change NDIRECT with 12 in *. change NINDIRECT with 128 in *. set (a := addr ip 12) in *.
  assert (Hne : r <> a) by congruence. pose proof (fk_one _ F) as H1. change BPB with 4096 in H1.
  split; try done.
  - intros c' Hc'. unfold NCELLS in Hc'. change NDIRECT with 12 in *. change NINDIRECT with 128 in *.
    unfold cell. change NDIRECT with 12. fold a. destruct (Z.leb_spec c' 12).
    { by rewrite (proj2 (Z.eqb_neq c' c)) by lia. }
    rewrite (proj2 (Z.eqb_neq a 0)) by done. rewrite E, fset_at by lia.
    destruct (Z.eqb_spec c' c) as [->|].
    + rewrite get32_put32 by lia. rewrite u32_small by lia. done.
    + rewrite get32_put32_ne by lia. done.
  - rewrite E, fset_ne by lia. apply fset_at.
  - intros t Ht H2 H3 H4. change NDIRECT with 12 in *. rewrite E, fset_ne by (try apply H4; lia). by apply allocated_rest.
  - intros j Hjj. transitivity (used nino (allocated_at nino r V) j); [|by apply used_allocated]. unfold used.
    rewrite bblock_one by (done || apply F). by rewrite E, fset_ne by lia.
  - apply (sf_ok _ _ Sf).
  - by destruct ip.
Qed.

(** *** Storing bytes in one block *)

Lemma nth_splice o bs l i :
  0 <= o -> 0 <= i -> o + Z.of_nat (length bs) <= Z.of_nat (length l) ->
  nth (Z.to_nat i) (splice o bs l) x00 =
  if (o <=? i) && (i <? o + Z.of_nat (length bs)) then nth (Z.to_nat (i - o)) bs x00 else nth (Z.to_nat i) l x00.
Proof.
  intros Ho Hi Hl. rewrite !nth_lookup. unfold splice.
  destruct (Z.leb_spec o i); cbn [andb].
  - rewrite lookup_app_r by (rewrite length_take; lia). rewrite length_take.
    destruct (Z.ltb_spec i (o + Z.of_nat (length bs))).
    + rewrite lookup_app_l by lia. f_equal. f_equal. lia.
    + rewrite lookup_app_r by lia. rewrite lookup_drop. f_equal. f_equal. lia.
  - rewrite lookup_app_l by (rewrite length_take; lia). by rewrite lookup_take_lt by lia.
Qed.

Lemma nth_window g off m i : 0 <= i < m -> nth (Z.to_nat i) (window g off m) x00 = g (off + i).
Proof.
  intros Hi. apply nth_lookup_Some. rewrite window_lookup by lia. f_equal. f_equal. lia.
Qed.

(** The file after [m] bytes of [g] were stored at [off], within one block. *)
Definition stored (off m : Z) (g : Z -> byte) (a : Z) (V : Z -> block) : Z -> block :=
  fset a (splice (off mod BSIZE) (window g off m) (V a)) V.

Lemma store_bytes V ip V1 ip1 V2 off m g :
  0 <= lsize -> fs_ok V1 -> sound_file V1 ip1 -> wrote V ip V1 ip1 0 0 g ->
  0 <= off -> 0 <= m -> off mod BSIZE + m <= BSIZE -> off + m <= MAXFILE * BSIZE -> off < MAXFILE * BSIZE ->
  bcell V1 ip1 (off / BSIZE) <> 0 ->
  (forall t, 0 <= t < start -> V2 t = stored off m g (bcell V1 ip1 (off / BSIZE)) V1 t) ->
  fs_ok V2 /\ sound_file V2 ip1 /\ wrote V ip V2 ip1 off (off + m) g /\ free_blocks V2 = free_blocks V1 /\
  forall c, 0 <= c < NCELLS -> cell V2 ip1 c = cell V1 ip1 c.
Proof.
  intros Hl F1 Sf W Ho Hm Hbl Hend Hoff Ha E. set (b := off / BSIZE) in *. set (a := bcell V1 ip1 b) in *.
  pose proof (bm_range V1 F1) as [Hbm _]. pose proof Sf as [So Sc Si].
  destruct (cellno_range _ (block_of off ltac:(lia))) as [Hb Hbd]. fold b in Hb, Hbd. destruct (Sc _ Hb Ha) as [Hra Hua].
  fold (bcell V1 ip1 b) in Hra, Hua. fold a in Hra, Hua. pose proof F1 as [[G1 G2 G3 G4] K2 K3 K4].
  assert (Hlen : length (splice (off mod BSIZE) (window g off m) (V1 a)) = 512%nat).
  { pose proof (Z.mod_pos_bound off BSIZE ltac:(reflexivity)). rewrite splice_length; [apply K4; lia|lia|].
    rewrite K4, window_length by lia. change BSIZE with 512 in *. lia. }
  assert (Fr : forall t, 0 <= t < start -> t <> a -> V2 t = V1 t).
  { intros t Ht Hne. rewrite E by done. by apply fset_ne. }
  assert (Us : forall j, 0 <= j < start + lsize -> used nino V2 j = used nino V1 j).
  { intros j Hj. unfold used. rewrite bblock_one by done. rewrite Fr; [done|lia|lia]. }
  assert (F2 : fs_ok V2).
  { assert (E1 : V2 1 = V1 1) by (apply Fr; lia). split; [split; rewrite ?E1; done|done| |].
    - intros j Hj. rewrite Us by lia. by apply K3.
    - intros t Ht. rewrite E by done. unfold stored, fset. destruct (t =? a); [done|]. by apply K4. }
  assert (Ce : forall c, cell V2 ip1 c = cell V1 ip1 c).
  { intros c. apply cell_ext. intros Hn. apply Fr; [pose proof (ind_range V1 ip1 F1 Sf Hn); lia|].
    rewrite <- (cell_ind V1). intros Ei. apply Hbd. symmetry. apply Si; [done|done|by rewrite cell_ind|done]. }
  split; [done|]. split; [|split; [|split; [|done]]].
  - apply (sound_file_kept V1); [done| |lia|done]. intros t Ht Hu. by rewrite Us by lia.
  - destruct W as [B1 Bc B2 B3 B4 B5 B6 B7]. split; try done.
    + intros j Hj Haj. unfold bcell in Haj. rewrite Ce in Haj. destruct (cellno_range _ (block_of j Hj)) as [Hbj _].
      specialize (B1 j Hj Haj). rewrite (proj2 (Z.ltb_ge j 0)), andb_false_r in B1 by lia. rewrite <- B1.
      rewrite !fbyte_cell by (unfold bcell; by rewrite ?Ce). unfold bcell. rewrite Ce.
      destruct (decide (j / BSIZE = b)) as [Ej|Nj].
      * rewrite Ej. fold (bcell V1 ip1 b). fold a. rewrite E by lia. unfold stored. rewrite fset_at.
        assert (Ho2 : off mod BSIZE + Z.of_nat (length (window g off m)) <= Z.of_nat (length (V1 a))).
        { rewrite window_length, K4 by lia. change BSIZE with 512 in *. lia. }
        rewrite nth_splice; [|apply Z.mod_pos_bound; reflexivity|apply Z.mod_pos_bound; reflexivity|done].
        rewrite window_length. unfold b in Ej. change BSIZE with 512 in *.
        assert (Hjo : j mod 512 - off mod 512 = j - off) by (Z.to_euclidean_division_equations; lia).
        replace (off mod 512 <=? j mod 512) with (off <=? j)
          by (destruct (Z.leb_spec off j), (Z.leb_spec (off mod 512) (j mod 512)); (done || lia)).
        replace (j mod 512 <? off mod 512 + Z.of_nat (Z.to_nat m)) with (j <? off + m)
          by (destruct (Z.ltb_spec j (off + m)), (Z.ltb_spec (j mod 512) (off mod 512 + Z.of_nat (Z.to_nat m))); (done || lia)).
        destruct (Z.leb_spec off j), (Z.ltb_spec j (off + m)); cbn [andb]; try done.
        rewrite Hjo, nth_window by lia. f_equal. lia.
      * assert (Hna : cell V1 ip1 (cellno (j / BSIZE)) <> a) by (intros Ea; apply Nj, cellno_inj, (Si _ _ Hbj Hb Haj Ea)).
        destruct (Sc _ Hbj Haj) as [R1 _]. rewrite Fr by (done || lia).
        replace ((off <=? j) && (j <? off + m)) with false; [done|]. symmetry. unfold b in Nj.
        change BSIZE with 512 in *. destruct (Z.leb_spec off j), (Z.ltb_spec j (off + m)); try done.
        exfalso. apply Nj. Z.to_euclidean_division_equations. lia.
    + intros j Hj. unfold bcell. rewrite Ce. replace (j / BSIZE) with b; [done|]. unfold b. change BSIZE with 512 in *.
      Z.to_euclidean_division_equations. lia.
    + intros c Hc Hn. rewrite Ce. by apply B2.
    + intros c Hc. rewrite Ce. by apply B3.
    + intros t Ht Hne Hu Hno. rewrite Fr; [by apply B4|done|]. intros ->.
      destruct (B3 _ Hb Ha) as [Eb|Eb]; fold (bcell V1 ip1 b) in Eb; fold a in Eb; [|congruence].
      apply (Hno _ Hb); congruence.
    + intros t Ht Hu. rewrite Us by lia. by apply B5.
  - by apply free_same.
Qed.

(** ** The routines *)

Context (old : Z -> block) (d0 : disk) (i : nat).

(** Besides the caches, the disk and the log only the inode table changes. *)
Definition ifr (k k' : kstate) : Prop := bfr (ks_inodes (inodes k') k) k'.

Lemma bfr_ifr k k' : bfr k k' -> ifr k k'.
Proof. intros E. unfold ifr. rewrite (bfr_inodes _ _ E). by destruct k. Qed.

Lemma ifr_trans k1 k2 k3 : ifr k1 k2 -> ifr k2 k3 -> ifr k1 k3.
Proof. intros E1 E2. unfold ifr, bfr in *. rewrite E1 in E2. exact E2. Qed.

(** The state of a file that is being written. *)
Record writing_file (k : kstate) (V : Z -> block) (T : gset Z) (ip : inode) : Prop := {
  wf_tx : tx start lsize old d0 k V T;
  wf_zero : 0 ∉ T;
  wf_ino : inodes k !! i = Some ip;
  wf_fs : fs_ok V;
  wf_file : sound_file V ip
}.

Lemma wf_lsize k V T ip : writing_file k V T ip -> 2 <= lsize <= 10.
Proof. intros [X _ _ _ _]. pose proof (tx_layout _ _ _ _ _ _ _ X) as [Y1 Y2 Y3 Y4]. lia. Qed.

Lemma cell_range V ip c : sound_file V ip -> fs_ok V -> 0 <= c < NCELLS -> cell V ip c <> 0 -> 0 <= cell V ip c < start.
Proof.
  intros Sf F Hb Ha. pose proof (bm_range V F) as [Hbm _]. destruct (sf_cell _ _ Sf c Hb Ha) as [? _]. lia.
Qed.

(** Cell [c] has a block, a new one if it had none; nothing else changed. *)
Record filled (V : Z -> block) (ip : inode) (V' : Z -> block) (ip' : inode) (c : Z) : Prop := {
  fl_wrote : forall g, wrote V ip V' ip' 0 0 g;
  fl_cell : cell V' ip' c <> 0;
  fl_cells : forall c', 0 <= c' < NCELLS -> c' <> c -> cell V' ip' c' = cell V ip c';
  fl_free : size (free_blocks V) = (size (free_blocks V') + (if decide (cell V ip c = 0%Z) then 1 else 0))%nat;
  fl_same : cell V ip c <> 0 -> ip' = ip
}.

Lemma filled_refl V ip c : cell V ip c <> 0 -> filled V ip V ip c.
Proof. intros Ha. split; try done; [intros g; apply wrote_refl|]. rewrite decide_False by done. lia. Qed.

Lemma filled_took V ip V1 ip1 c r :
  fs_ok V -> 0 <= lsize -> sound_file V ip -> 0 <= c < NCELLS -> took V ip V1 ip1 c r ->
  (forall t, 0 <= t < start -> length (V1 t) = 512%nat) -> filled V ip V1 ip1 c.
Proof.
  intros F Hl Sf Hc K Len. pose proof (bm_range V F) as [Hbm _]. destruct (took_fs V ip V1 ip1 c r F Hl Sf K Len) as [_ Ef].
  pose proof K as [Kn [Kr Ku] Kc _ _ _ _ _ _ _]. split.
  - intros g. by apply (took_wrote V ip V1 ip1 c r).
  - rewrite Kc, Z.eqb_refl by done. lia.
  - intros c' Hc' Hne. rewrite Kc by done. by rewrite (proj2 (Z.eqb_neq c' c)).
  - rewrite Ef, decide_True by done. assert (Hin : r ∈ free_blocks V) by (by apply elem_of_free).
    assert (Hne0 : size (free_blocks V) <> 0%nat) by (intros E0; apply size_empty_inv in E0; set_solver).
    rewrite size_difference, size_singleton; [lia|]. set_solver.
  - done.
Qed.

(** [bmap_direct] of a direct cell or of the indirect block. *)
Lemma bmap_direct_write k V T ip c :
  writing_file k V T ip -> 0 <= c <= NDIRECT -> (addr ip c = 0 -> free_blocks V <> ∅) ->
  Z.of_nat (size T) < lsize - 2 ->
  wp (bmap_direct i c) k (fun a k' => exists V' ip' T', a = addr ip' c /\ ifr k k' /\
    inodes k' = <[i := ip']> (inodes k) /\ writing_file k' V' T' ip' /\ T' ⊆ {[a]} ∪ ({[bmblock]} ∪ T) /\
    filled V ip V' ip' c).
Proof.
  intros Wf Hb Hfree Hfit. pose proof (wf_lsize _ _ _ _ Wf) as Hl. destruct Wf as [X Tz Ei F Sf].
  pose proof (fo_addrs _ _ _ (sf_ok _ _ Sf)) as H13. pose proof (fo_dev _ _ _ (sf_ok _ _ Sf)) as Hdev.
  assert (Hc : 0 <= c < NCELLS) by (unfold NCELLS; change NINDIRECT with 128; lia).
  assert (Ec : cell V ip c = addr ip c) by (unfold cell; by rewrite (proj2 (Z.leb_le c NDIRECT)) by lia).
  unfold bmap_direct. change NDIRECT with 12 in Hb.
  apply wp_bind, (wp_addr_get k i ip); [done|lia|]. destruct (Z.eqb_spec (addr ip c) 0) as [Ea|Ea].
  - apply wp_bind, (wp_inoget k i ip); [done|]. rewrite Hdev. destruct (free_first V F (Hfree Ea)) as [r Hr].
    apply wp_bind. wp_use (balloc_spec start lsize old d0 nino k V T r X (fk_geom _ F) Hfit Hr).
    intros a k1 (-> & V1 & Fr1 & X1 & E1). apply wp_bind, wp_modify, wp_ret.
    assert (Ei1 : inodes k1 !! i = Some ip) by (by rewrite (bfr_inodes _ _ Fr1)).
    rewrite (alter_insert _ _ _ _ Ei1). set (k2 := ks_inodes _ k1).
    pose proof (took_direct V ip V1 c r F ltac:(lia) Sf Hb Ea Hr E1) as K. fold (set_addr c r ip).
    assert (Len : forall t, 0 <= t < start -> length (V1 t) = 512%nat) by (intros t _; by eapply tx_block).
    destruct (took_fs V ip V1 _ c r F ltac:(lia) Sf K Len) as [F1 _].
    pose proof Hr as (Hrr & Hru & _). pose proof (bm_range V F) as [Hbm _].
    exists V1, (set_addr c r ip), ({[r]} ∪ ({[BBLOCK r nino]} ∪ T)). rewrite (bblock_one r) in * by (apply F || lia).
    split_and!; try done.
    + unfold set_addr. by rewrite addr_insert, Z.eqb_refl by lia.
    + unfold ifr, bfr, k2. cbn. rewrite Fr1. done.
    + unfold k2. cbn. by rewrite (bfr_inodes _ _ Fr1).
    + split; [by apply (tx_frame _ _ _ _ k1)| | |done|apply (took_file V ip V1 _ c r); (done || lia)].
      * rewrite !elem_of_union, !elem_of_singleton. intros [?|[?|?]]; [lia|lia|done].
      * unfold k2. cbn. rewrite list_lookup_insert_eq; [done|]. by eapply lookup_lt_Some.
    + apply (filled_took V ip V1 _ c r); (done || lia).
  - apply wp_ret. exists V, ip, T. split_and!; try done.
    + apply bfr_ifr, bfr_refl.
    + by rewrite list_insert_id.
    + set_solver.
    + apply filled_refl. by rewrite Ec.
Qed.

(** The second half of [bmap] beyond the direct blocks: cell [c] of a file that
    has its indirect block. *)
Lemma bmap_entry k V T ip c off :
  writing_file k V T ip -> NDIRECT < c < NCELLS -> off = 4 * (c - NDIRECT - 1) -> addr ip NDIRECT <> 0 ->
  (cell V ip c = 0 -> free_blocks V <> ∅) -> Z.of_nat (size ({[bmblock]} ∪ T)) < lsize - 2 ->
  wp (let! bp := bread 1 (addr ip NDIRECT) in
      let! a := bdata bp in
      let addr := get32 off a in
      if addr =? 0 then
        let! addr := balloc 1 in
        bset bp (put32 off addr) ;;;
        log_write bp ;;;
        brelse bp ;;;
        ret addr
      else
        brelse bp ;;;
        ret addr) k (fun a k' => exists V' T', a = cell V' ip c /\ bfr k k' /\ writing_file k' V' T' ip /\
    T' ⊆ {[a]} ∪ ({[bmblock]} ∪ ({[addr ip NDIRECT]} ∪ T)) /\ filled V ip V' ip c).
Proof.
  intros Wf Hc -> Hn Hfree Hfit. pose proof (wf_lsize _ _ _ _ Wf) as Hl. destruct Wf as [X Tz Ei F Sf].
  pose proof (bm_range V F) as [Hbm _]. destruct (ind_range V ip F Sf Hn) as [R1 R2]. set (a := addr ip NDIRECT) in *.
  assert (HT : (size T <= size ({[bmblock]} ∪ T))%nat) by (apply subseteq_size; set_solver).
  assert (Ec : get32 (4 * (c - NDIRECT - 1)) (V a) = cell V ip c).
  { unfold cell. rewrite (proj2 (Z.leb_gt c NDIRECT)) by lia. fold a. by rewrite (proj2 (Z.eqb_neq a 0)). }
  assert (Hc0 : 0 <= c < NCELLS) by (change NDIRECT with 12 in Hc; lia).
  apply wp_bind, (tx_bread start lsize old d0 k V T); [done|lia|]. intros bp bs Hh.
  apply wp_bind, (hold_bdata start lsize old d0 (L := []) _ V T bp a); [done|]. cbn zeta. rewrite Ec.
  destruct (Z.eqb_spec (cell V ip c) 0) as [Ez|Ez].
  - destruct (free_first V F (Hfree Ez)) as [r Hr]. pose proof Hr as (Hrr & Hru & _).
    pose proof (bblock_one r ltac:(lia) (fk_one _ F)) as Ebb.
    apply wp_bind. wp_use (balloc_held start lsize old d0 nino [(bp, a)] _ V T r Hh (fk_geom _ F)); [lia|done| | |].
    { split; [cbn; intros s ->%list_elem_of_singleton; lia|]. rewrite Ebb. unfold nbuf, NBUF. cbn [length]. lia. }
    { cbn. intros E%list_elem_of_singleton. congruence. }
    intros x k1 (-> & V1 & Fr1 & X1 & E1). rewrite Ebb in X1. pose proof (size_add r ({[bmblock]} ∪ T)).
    assert (Ea : V1 a = V a) by (rewrite E1 by lia; apply allocated_rest; [done|lia|lia|congruence|lia]).
    apply wp_seq3. apply (hold_write start lsize old d0 _ V1 ({[r]} ∪ ({[bmblock]} ∪ T)) bp a); [done|lia| |lia|].
    { pose proof (tx_block start lsize old d0 _ _ _ a X1) as L5. unfold NCELLS in Hc. change NDIRECT with 12 in *.
      change NINDIRECT with 128 in *. by rewrite put32_length by lia. }
    intros k2 V2 Fr2 X2 E2. apply wp_ret.
    assert (K : took V ip V2 ip c r).
    { apply took_entry; try done; [lia|]. intros t Ht. rewrite E2 by done. fold a. rewrite Ea. unfold fset.
      destruct (t =? a); [done|]. by apply E1. }
    assert (Len : forall t, 0 <= t < start -> length (V2 t) = 512%nat) by (intros t _; by eapply tx_block).
    destruct (took_fs V ip V2 _ c r F ltac:(lia) Sf K Len) as [F2 _].
    exists V2, ({[a]} ∪ ({[r]} ∪ ({[bmblock]} ∪ T))). split_and!.
    + rewrite (tk_cells _ _ _ _ _ _ K), Z.eqb_refl by done. done.
    + eapply bfr_trans; [|exact Fr2]. eapply bfr_trans; [apply bufs_bfr|done].
    + split; [done| | |done|apply (took_file V ip V2 _ c r); (done || lia)].
      * rewrite !elem_of_union, !elem_of_singleton. intros [?|[?|[?|?]]]; [lia|lia|lia|done].
      * rewrite (bfr_inodes _ _ Fr2), (bfr_inodes _ _ Fr1). done.
    + set_solver.
    + apply (filled_took V ip V2 _ c r); (done || lia).
  - apply wp_bind, (hold_brelse start lsize old d0 (L := []) _ V T bp a); [done|]. intros k1 Fr1 X1. apply wp_ret.
    exists V, T. split_and!; [done| | |set_solver|by apply filled_refl].
    + eapply bfr_trans; [apply bufs_bfr|done].
    + split; try done. by rewrite (bfr_inodes _ _ Fr1).
Qed.

(** The blocks a write logs besides those of its data: the bitmap, and with
    [ind] the block of indirect addresses. *)
Definition logset (ind : bool) (ip : inode) : gset Z := {[bmblock]} ∪ (if ind then {[addr ip NDIRECT]} else ∅).

Lemma logset_size ind ip ip' T :
  (addr ip NDIRECT <> 0 -> addr ip' NDIRECT = addr ip NDIRECT) -> 0 ∉ T -> bmblock <> 0 ->
  (size (logset ind ip' ∪ T) <= size (logset ind ip ∪ T))%nat.
Proof.
  intros E Tz Hb. unfold logset. destruct ind; [|done]. destruct (decide (addr ip NDIRECT = 0)) as [->|Hn]; [|by rewrite E].
  transitivity (S (size ({[bmblock]} ∪ T))).
  - etrans; [|apply (size_add (addr ip' NDIRECT))]. apply subseteq_size. set_solver.
  - assert (D : ({[0]} : gset Z) ## {[bmblock]} ∪ T) by set_solver.
    apply size_union in D. rewrite size_singleton in D. cbn in D. rewrite <- D. apply subseteq_size. set_solver.
Qed.

Lemma logset_count ind ip : (size (logset ind ip) <= if ind then 2 else 1)%nat.
Proof.
  unfold logset. destruct ind; [etrans; [apply size_add|by rewrite size_singleton]|].
  by rewrite (right_id_L ∅ (∪)), size_singleton.
Qed.

(** The blocks that must be allocated for block [b] of the file. *)
Definition need (V : Z -> block) (ip : inode) (b : Z) : nat :=
  (if decide (bcell V ip b = 0%Z) then 1 else 0) + (if decide (NDIRECT <= b /\ addr ip NDIRECT = 0) then 1 else 0).

(** Block [b] of the file exists, allocated if it was missing. *)
Record grew (V : Z -> block) (ip : inode) (V' : Z -> block) (ip' : inode) (b : Z) : Prop := {
  gr_block : bcell V' ip' b <> 0;
  gr_cells : forall c, 0 <= c < NCELLS -> c <> cellno b -> c <> NDIRECT -> cell V' ip' c = cell V ip c;
  gr_ind : b < NDIRECT -> addr ip' NDIRECT = addr ip NDIRECT;
  gr_free : size (free_blocks V) = (size (free_blocks V') + need V ip b)%nat;
  gr_same : bcell V ip b <> 0 -> ip' = ip
}.

Lemma bmap_write k V T ip b ind :
  writing_file k V T ip -> 0 <= b < MAXFILE -> (NDIRECT <= b -> ind = true) ->
  (need V ip b <= size (free_blocks V))%nat -> Z.of_nat (size (logset ind ip ∪ T)) < lsize - 2 ->
  wp (bmap i b) k (fun a k' => exists V' ip' T', a = bcell V' ip' b /\ ifr k k' /\
    inodes k' = <[i := ip']> (inodes k) /\ writing_file k' V' T' ip' /\ T' ⊆ {[a]} ∪ (logset ind ip' ∪ T) /\
    (forall g, wrote V ip V' ip' 0 0 g) /\ grew V ip V' ip' b).
Proof.
  intros Wf Hb Hind Hfree Hfit. pose proof Wf as [X Tz Ei F Sf]. pose proof (bm_range V F) as [Hbm _].
  assert (HT : (size T <= size (logset ind ip ∪ T))%nat) by (apply subseteq_size; set_solver).
  assert (Hne : forall n, (n <= size (free_blocks V))%nat -> (0 < n)%nat -> free_blocks V <> ∅).
  { intros m Hm1 Hm2 E0. rewrite E0, size_empty in Hm1. lia. }
  destruct (cellno_range b Hb) as [Hcr Hcn]. unfold bmap. destruct (Z.ltb_spec b NDIRECT) as [Hlt|Hge].
  - assert (Ecn : cellno b = b) by (unfold cellno; by rewrite (proj2 (Z.ltb_lt b NDIRECT))).
    assert (Eb : forall V ip, bcell V ip b = addr ip b).
    { intros V0 ip0. unfold bcell, cell. by rewrite Ecn, (proj2 (Z.leb_le b NDIRECT)) by lia. }
    wp_use (bmap_direct_write k V T ip b Wf); [lia| |lia|].
    { intros Ea. apply (Hne _ Hfree). unfold need. rewrite Eb, decide_True by done. lia. }
    intros a k1 (V1 & ip1 & T1 & -> & Fr & I1 & Wf1 & HT1 & [L1 L2 L3 L4 L5]). exists V1, ip1, T1.
    split_and!; [by rewrite Eb|done|done|done|clear -HT1; unfold logset; set_solver|done|]. split; try done.
    + unfold bcell. by rewrite Ecn.
    + intros c Hc H1 H2. apply L3; [done|]. by rewrite <- Ecn.
    + intros _. rewrite <- (cell_ind V1), <- (cell_ind V). apply L3; [done|lia].
    + unfold need, bcell. rewrite Ecn. rewrite (decide_False (P := NDIRECT <= b /\ _)) by lia. lia.
    + intros Ha. apply L5. unfold bcell in Ha. by rewrite Ecn in Ha.
  - rewrite Hind in * by done. rewrite (proj2 (Z.ltb_lt (b - NDIRECT) NINDIRECT))
      by (change MAXFILE with 140 in Hb; change NDIRECT with 12; change NINDIRECT with 128; lia).
    assert (Ecn : cellno b = b + 1) by (unfold cellno; by rewrite (proj2 (Z.ltb_ge b NDIRECT))).
    assert (Hz : addr ip NDIRECT = 0 -> bcell V ip b = 0).
    { intros Ea. destruct (decide (bcell V ip b = 0)) as [|Hn]; [done|]. by apply bcell_ind in Hn. }
    apply wp_bind. wp_use (bmap_direct_write k V T ip NDIRECT Wf); [done| |lia|].
    { intros Ea. apply (Hne _ Hfree). unfold need. rewrite decide_True by auto. lia. }
    intros a k1 (V1 & ip1 & T1 & -> & Fr & I1 & Wf1 & HT1 & [L1 L2 L3 L4 L5]). pose proof Wf1 as [X1 Tz1 Ei1 F1 Sf1].
    rewrite cell_ind in L2. apply wp_bind, (wp_inoget k1 i ip1); [done|]. rewrite (fo_dev _ _ _ (sf_ok _ _ Sf1)).
    assert (Hl1 : (size (logset true ip1 ∪ T) <= size (logset true ip ∪ T))%nat).
    { apply logset_size; [|done|lia]. intros Hn. rewrite <- (cell_ind V1), <- (cell_ind V).
      apply (wr_cells _ _ _ _ _ _ _ (L1 (fun _ => x00))); [done|by rewrite cell_ind]. }
    assert (Ec1 : cell V1 ip1 (b + 1) = bcell V ip b) by (unfold bcell; rewrite Ecn in *; apply L3; [done|lia]).
    wp_use (bmap_entry k1 V1 T1 ip1 (b + 1) (4 * (b - NDIRECT)) Wf1); [lia|lia|done| | |].
    { rewrite Ec1. intros Ea E0. unfold need in Hfree. rewrite decide_True in Hfree by done. rewrite cell_ind in L4.
      rewrite E0, size_empty in L4.
      destruct (decide (addr ip NDIRECT = 0)); [rewrite decide_True in Hfree by done|]; lia. }
    { assert (size ({[bmblock]} ∪ T1) <= size (logset true ip1 ∪ T))%nat; [|lia].
      apply subseteq_size. clear -HT1. unfold logset. set_solver. }
    intros a k2 (V2 & T2 & -> & Fr2 & Wf2 & HT2 & [M1 M2 M3 M4 M5]). exists V2, ip1, T2. rewrite <- Ecn in *.
    split_and!; try done.
    + eapply ifr_trans; [exact Fr|by apply bfr_ifr].
    + by rewrite (bfr_inodes _ _ Fr2).
    + clear -HT1 HT2. unfold logset. set_solver.
    + intros g. eapply (wrote_trans V ip V1 ip1 V2 ip1 0 0 0); [done|done| |done|done].
      intros c Hc Ha. by apply (cell_range V2); [apply Wf2|apply Wf2|..].
    + split; try done.
      * intros c Hc H1 H2. rewrite M3, L3; done.
      * lia.
      * unfold need. rewrite L4, M4, Ec1, cell_ind. unfold bcell.
        destruct (decide (addr ip NDIRECT = 0)) as [Ea|Ea];
          [rewrite (decide_True (P := NDIRECT <= b /\ _)) by done|rewrite (decide_False (P := NDIRECT <= b /\ _)) by tauto]; lia.
      * intros Ha. apply L5. rewrite cell_ind. by apply (bcell_ind V ip b).
Qed.

(** Writing [n] bytes of [g] from offset [o]. *)
Section Loop.
Context (src : source) (g : Z -> byte) (o n : Z).
Context (Ho : 0 <= o) (Hn : 0 <= n) (Hend : o + n <= MAXFILE * BSIZE).
Context (Hsrc : forall k tot m, 0 <= tot -> 0 <= m -> tot + m <= n -> src tot m k = Ok (window g (o + tot) m) k).

(** The blocks still to be written when [tot] bytes are done. *)
Definition blocks_left (tot : Z) : Z :=
  if tot <? n then (o + n - 1) / BSIZE - (o + tot) / BSIZE + 1 else 0.

(** The write goes beyond the direct blocks. *)
Definition reach : bool := (0 <? n) && (NDIRECT * BSIZE <? o + n).

Definition chunk (tot : Z) : Z := Z.min (n - tot) (BSIZE - (o + tot) mod BSIZE).

Lemma chunk_range tot : 0 <= tot < n -> 0 < chunk tot <= n - tot /\ (o + tot) mod BSIZE + chunk tot <= BSIZE.
Proof.
  intros Ht. unfold chunk. pose proof (Z.mod_pos_bound (o + tot) BSIZE ltac:(reflexivity)). lia.
Qed.

Lemma blocks_left_step tot : 0 <= tot < n -> 1 <= blocks_left tot /\ blocks_left (tot + chunk tot) <= blocks_left tot - 1.
Proof.
  intros Ht. unfold blocks_left, chunk. change BSIZE with 512. rewrite (proj2 (Z.ltb_lt _ _)) by lia.
  destruct (Z.ltb_spec (tot + Z.min (n - tot) (512 - (o + tot) mod 512)) n);
    Z.to_euclidean_division_equations; lia.
Qed.

Lemma reach_block tot : 0 <= tot < n -> NDIRECT <= (o + tot) / BSIZE -> reach = true.
Proof.
  intros Ht Hb. unfold reach. change (NDIRECT * BSIZE) with 6144. change NDIRECT with 12 in Hb. change BSIZE with 512 in Hb.
  rewrite (proj2 (Z.ltb_lt 0 n)), (proj2 (Z.ltb_lt 6144 _)); [done| |lia]. Z.to_euclidean_division_equations. lia.
Qed.

(** One round: find the block, store the bytes and log it. *)
Lemma write_round k V T ip tot m {A} (cont : KM A) (Q : A -> kstate -> Prop) :
  writing_file k V T ip -> 0 <= tot < n -> m = chunk tot ->
  (need V ip ((o + tot) / BSIZE) <= size (free_blocks V))%nat -> Z.of_nat (size (logset reach ip ∪ T)) < lsize - 2 ->
  (forall k' V' T' ip', ifr k k' -> inodes k' = <[i := ip']> (inodes k) -> writing_file k' V' T' ip' ->
     wrote V ip V' ip' (o + tot) (o + tot + m) g ->
     (size (logset reach ip' ∪ T') <= S (size (logset reach ip ∪ T)))%nat ->
     grew V ip V' ip' ((o + tot) / BSIZE) -> wp cont k' Q) ->
  wp (let! bno := bmap i ((o + tot) / BSIZE) in
      let! ip := inoget i in
      let! bp := bread (i_dev ip) bno in
      let! bs := src tot m in
      bset bp (splice ((o + tot) mod BSIZE) bs) ;;; log_write bp ;;; brelse bp ;;; cont) k Q.
Proof.
  intros Wf Ht Em Hfr Hfit HQ. destruct (chunk_range tot Ht) as [Hc1 Hc2]. rewrite <- Em in *.
  pose proof (wf_lsize _ _ _ _ Wf) as Hl. pose proof (block_of (o + tot) ltac:(lia)) as Hb.
  pose proof (bm_range V (wf_fs _ _ _ _ Wf)) as [Hbm0 _].
  apply wp_bind. wp_use (bmap_write k V T ip ((o + tot) / BSIZE) reach Wf Hb); [by apply (reach_block tot)|done|done|].
  intros a k1 (V1 & ip1 & T1 & Ea & Fr1 & Ei1 & Wf1 & HT1 & W1 & Gr). pose proof (gr_block _ _ _ _ _ Gr) as Ha.
  pose proof Wf1 as [X1 Tz1 Ino1 F1 Sf1]. apply wp_bind, (wp_inoget k1 i ip1); [done|].
  rewrite (fo_dev _ _ _ (sf_ok _ _ Sf1)). destruct (cellno_range _ Hb) as [Hcr _].
  pose proof (sf_cell _ _ Sf1 _ Hcr Ha) as [Hra _]. fold (bcell V1 ip1 ((o + tot) / BSIZE)) in Hra. rewrite <- Ea in *.
  pose proof (bm_range V1 F1) as [Hbm _].
  apply wp_bind, (tx_bread start lsize old d0 k1 V1 T1); [done|lia|]. intros bp bs Hh.
  apply wp_bind. unfold wp at 1. rewrite Hsrc by lia. apply wp_seq3.
  assert (Hls : (size (logset reach ip1 ∪ T) <= size (logset reach ip ∪ T))%nat).
  { apply logset_size; [|apply Wf|lia]. intros Hn0. rewrite <- (cell_ind V1), <- (cell_ind V).
    apply (wr_cells _ _ _ _ _ _ _ (W1 g)); [done|by rewrite cell_ind]. }
  assert (HsT : (size T1 <= S (size (logset reach ip1 ∪ T)))%nat).
  { etrans; [apply subseteq_size, HT1|apply size_add]. }
  apply (hold_write start lsize old d0 _ V1 T1 bp a); [done|lia| |lia|].
  { pose proof (Z.mod_pos_bound (o + tot) BSIZE ltac:(reflexivity)).
    pose proof (tx_block start lsize old d0 _ _ _ a Hh) as L5. change BSIZE with 512 in *.
    rewrite splice_length; rewrite ?window_length; lia. }
  intros k3 V3 Fr3 X3 E3. subst a.
  destruct (store_bytes V ip V1 ip1 V3 (o + tot) m g ltac:(lia) F1 Sf1 (W1 g)) as (F3 & Sf3 & W3 & Ef3 & Ce);
    try done; try lia.
  assert (Ik : inodes k3 = inodes k1) by (by rewrite (bfr_inodes _ _ Fr3)).
  eapply (HQ k3 V3 _ ip1); [| | |exact W3| |].
  - eapply ifr_trans; [exact Fr1|]. apply bfr_ifr. eapply bfr_trans; [apply bufs_bfr|done].
  - by rewrite Ik.
  - split; [exact X3| |by rewrite Ik|done|done]. rewrite elem_of_union, elem_of_singleton. intros [?|?]; [lia|done].
  - etrans; [|apply le_n_S, Hls]. etrans; [|apply (size_add (bcell V1 ip1 ((o + tot) / BSIZE)))]. apply subseteq_size.
    clear -HT1. set_solver.
  - destruct Gr as [G2 G3 G4 G5 G6]. split; try done.
    + unfold bcell. by rewrite Ce.
    + intros c Hc Hc1' Hc2'. rewrite Ce by done. by apply G3.
    + by rewrite Ef3.
Qed.

(** The blocks that the rest of the write needs. *)
Definition missing (V : Z -> block) (ip : inode) (tot : Z) : nat :=
  length (filter (fun b => bcell V ip b = 0) (seqZ ((o + tot) / BSIZE) (blocks_left tot))) +
  (if reach && (addr ip NDIRECT =? 0) then 1 else 0).

(** What the next block needs is part of it. *)
Lemma missing_need V ip tot : 0 <= tot < n -> (need V ip ((o + tot) / BSIZE) <= missing V ip tot)%nat.
Proof.
  intros Ht. unfold missing, need. destruct (blocks_left_step tot Ht) as [Hb1 _].
  rewrite (seqZ_cons _ (blocks_left tot)) by lia. rewrite filter_cons. apply Nat.add_le_mono.
  - destruct (decide _); cbn [length]; lia.
  - destruct (decide (_ /\ _)) as [[Hge ->]|]; [|lia]. by rewrite (reach_block tot).
Qed.

Lemma missing_step V ip V' ip' tot :
  0 <= tot < n -> grew V ip V' ip' ((o + tot) / BSIZE) ->
  (missing V' ip' (tot + chunk tot) + need V ip ((o + tot) / BSIZE) <= missing V ip tot)%nat.
Proof.
  intros Ht [G2 G3 G4 G5 G6]. unfold missing, need. destruct (blocks_left_step tot Ht) as [Hb1 Hb2].
  pose proof (block_of (o + tot) ltac:(lia)) as Hb. set (b := (o + tot) / BSIZE) in *.
  assert (Hi : ((if (reach && (addr ip' NDIRECT =? 0))%Z then 1 else 0) +
    (if decide (NDIRECT <= b /\ addr ip NDIRECT = 0)%Z then 1 else 0) <= (if (reach && (addr ip NDIRECT =? 0))%Z then 1 else 0))%nat).
  { destruct (decide (NDIRECT <= b)) as [Hge|Hlt].
    - rewrite (reach_block tot Ht Hge), (proj2 (Z.eqb_neq (addr ip' NDIRECT) 0)) by (by apply (bcell_ind V' ip' b)).
      cbn [andb]. destruct (decide (_ /\ _)) as [[_ ->]|]; cbn; lia.
    - rewrite G4, decide_False by lia. lia. }
  assert (Hs : (length (filter (fun b => bcell V' ip' b = 0%Z) (seqZ ((o + (tot + chunk tot)) / BSIZE) (blocks_left (tot + chunk tot)))%Z) +
    (if decide (bcell V ip b = 0%Z) then 1 else 0) <= length (filter (fun b => bcell V ip b = 0%Z) (seqZ b (blocks_left tot))))%nat); [|lia].
  rewrite (seqZ_cons _ (blocks_left tot)) by lia. rewrite filter_cons. unfold blocks_left at 1.
  destruct (Z.ltb_spec (tot + chunk tot) n) as [Hlt|Hge].
  - assert (Enext : (o + (tot + chunk tot)) / BSIZE = Z.succ b).
    { unfold b, chunk in *. change BSIZE with 512 in *. Z.to_euclidean_division_equations. lia. }
    assert (El : (o + n - 1) / BSIZE - (o + (tot + chunk tot)) / BSIZE + 1 = Z.pred (blocks_left tot)).
    { unfold blocks_left. rewrite (proj2 (Z.ltb_lt tot n)) by lia. lia. }
    rewrite El, Enext. rewrite (filter_ext_in (fun b => bcell V' ip' b = 0) (fun b => bcell V ip b = 0)).
    + repeat destruct (decide _); cbn [length]; lia.
    + intros x Hx. apply elem_of_seqZ in Hx. assert (Hxr : 0 <= x < MAXFILE).
      { assert (0 <= (o + n - 1) / BSIZE < MAXFILE) by (apply block_of; lia). lia. }
      destruct (cellno_range x Hxr) as [Hc1 Hc2]. unfold bcell. rewrite G3; [done|done| |done].
      intros E%cellno_inj. lia.
  - rewrite seqZ_nil by lia. cbn [filter length list_filter]. repeat destruct (decide _); cbn [length]; lia.
Qed.

(** ** The whole routine *)

Lemma writei_loop_spec fuel : forall k V T ip tot,
  writing_file k V T ip -> 0 <= tot <= n -> (missing V ip tot <= size (free_blocks V))%nat ->
  Z.of_nat (size (logset reach ip ∪ T)) + blocks_left tot <= lsize - 2 -> blocks_left tot <= Z.of_nat fuel ->
  wp (writei_loop i src (o + tot) tot n fuel) k (fun off k' => off = o + n /\ exists V' T' ip',
    ifr k k' /\ inodes k' = <[i := ip']> (inodes k) /\ writing_file k' V' T' ip' /\
    wrote V ip V' ip' (o + tot) (o + n) g /\ Z.of_nat (size (logset reach ip' ∪ T')) <= lsize - 2 /\
    (missing V ip tot = 0%nat -> ip' = ip) /\ (size (free_blocks V) <= size (free_blocks V') + missing V ip tot)%nat).
Proof.
  induction fuel as [|fuel IH]; intros k V T ip tot Wf Ht Hmiss Hfit Hfuel; cbn [writei_loop].
  all: destruct (Z.ltb_spec tot n) as [Hlt|Hge].
  { destruct (blocks_left_step tot ltac:(lia)). lia. }
  1, 3: apply wp_ret; assert (tot = n) as -> by lia; split; [done|]; exists V, T, ip; split_and!; try done;
    [apply bfr_ifr, bfr_refl|rewrite list_insert_id; [done|apply Wf]|apply wrote_refl|
     unfold blocks_left in Hfit; rewrite Z.ltb_irrefl in Hfit; lia|lia].
  destruct (blocks_left_step tot ltac:(lia)) as [Hb1 Hb2]. fold (chunk tot).
  apply (write_round k V T ip tot (chunk tot)); [done|lia|done| |lia|].
  { pose proof (missing_need V ip tot ltac:(lia)). lia. }
  intros k1 V1 T1 ip1 Fr1 I1 Wf1 W1 HT1 Gr.
  pose proof (missing_step V ip V1 ip1 tot ltac:(lia) Gr) as Hs. rewrite <- Z.add_assoc.
  pose proof (gr_free _ _ _ _ _ Gr) as Hfree1. destruct (chunk_range tot ltac:(lia)) as [Hc _].
  wp_use (IH k1 V1 T1 ip1 (tot + chunk tot)); [done|lia|lia|lia|lia|].
  intros off k2 (-> & V2 & T2 & ip2 & Fr2 & I2 & Wf2 & W2 & HT2 & Hsame2 & Hfree2). split; [done|]. exists V2, T2, ip2.
  split_and!; [by eapply ifr_trans|by rewrite I2, I1, list_insert_insert_eq|done| |done| |lia].
  2: { intros Hz. unfold need in Hs. destruct (decide (bcell V ip ((o + tot) / BSIZE) = 0%Z)) as [|Hb]; [lia|].
       rewrite <- (gr_same _ _ _ _ _ Gr Hb). apply Hsame2. lia. }
  rewrite <- Z.add_assoc in W1. eapply (wrote_trans V ip V1 ip1 V2 ip2 _ (o + (tot + chunk tot))); [lia|lia| |done|done].
  intros c Hb Ha. apply (cell_range V2); [apply Wf2|apply Wf2|done|done].
Qed.

(** The inode on disk. *)
Definition ioff (inum : Z) : Z := inum mod IPB * dinode_size.

Lemma ioff_range inum : 0 <= ioff inum /\ ioff inum + dinode_size <= 512.
Proof.
  unfold ioff. pose proof (Z.mod_pos_bound inum IPB ltac:(reflexivity)). change IPB with 8 in *.
  change dinode_size with 64. lia.
Qed.

(** Two inodes of one block do not overlap. *)
Lemma ioff_apart m m' : IBLOCK m = IBLOCK m' -> m <> m' ->
  ioff m + dinode_size <= ioff m' \/ ioff m' + dinode_size <= ioff m.
Proof.
  unfold IBLOCK, ioff. change IPB with 8. change dinode_size with 64. intros E Hne.
  Z.to_euclidean_division_equations. lia.
Qed.

Lemma iblock_range V inum : fs_ok V -> 0 <= inum <= nino -> 2 <= IBLOCK inum < bmblock.
Proof.
  intros F Hi. unfold IBLOCK, bmblock. assert (0 <= inum / IPB) by (apply Z.div_pos; [lia|reflexivity]).
  assert (inum / IPB <= nino / IPB) by (apply Z.div_le_mono; [reflexivity|lia]). lia.
Qed.

Definition updated (ip : inode) (V : Z -> block) : Z -> block :=
  fset (IBLOCK (i_inum ip)) (encode_dinode (ioff (i_inum ip)) (to_dinode ip) (V (IBLOCK (i_inum ip)))) V.

Lemma iupdate_spec k V T ip (Q : unit -> kstate -> Prop) :
  tx start lsize old d0 k V T -> fs_ok V -> inodes k !! i = Some ip -> i_dev ip = 1 ->
  0 <= i_inum ip <= nino -> length (i_addrs ip) = 13%nat -> Z.of_nat (size T) < lsize - 1 ->
  (forall k' V', bfr k k' -> tx start lsize old d0 k' V' ({[IBLOCK (i_inum ip)]} ∪ T) ->
    (forall t, 0 <= t < start -> V' t = updated ip V t) -> Q tt k') ->
  wp (iupdate i) k Q.
Proof.
  intros X F Ei Hd Hi H13 Hfit HQ. pose proof (iblock_range V _ F Hi) as Hib. pose proof (bm_range V F) as [Hbm _].
  pose proof (tx_layout _ _ _ _ _ _ _ X) as [Y1 Y2 Y3 Y4]. pose proof (gm_meta _ _ _ _ (fk_geom _ F)) as Hm.
  unfold iupdate. apply wp_bind, (wp_inoget k i ip); [done|]. rewrite Hd.
  apply wp_bind, (tx_bread start lsize old d0 k V T); [done|lia|]. intros bp bs Hh.
  apply wp_bind, (wp_inoget _ i ip); [done|].
  apply (hold_write start lsize old d0 _ V T bp (IBLOCK (i_inum ip))); [done|lia| |done|].
  { pose proof (ioff_range (i_inum ip)) as [? ?]. pose proof (tx_block start lsize old d0 _ _ _ (IBLOCK (i_inum ip)) Hh) as Hl.
    rewrite encode_length; [done|done| |done]. rewrite Hl. done. }
  intros k' V' Fr X' E. apply (HQ k' V'); [|done|done]. eapply bfr_trans; [apply bufs_bfr|done].
Qed.

(** Updating the inode leaves the file system and the file's bytes alone. *)
Lemma updated_ok V ip V' :
  fs_ok V -> 0 <= lsize -> sound_file V ip -> 0 <= i_inum ip <= nino ->
  (forall t, 0 <= t < start -> V' t = updated ip V t) ->
  fs_ok V' /\ sound_file V' ip /\ (forall t, 0 <= t < start + lsize -> used nino V' t = used nino V t) /\
  (forall c, cell V' ip c = cell V ip c) /\
  (forall j, 0 <= j < MAXFILE * BSIZE -> bcell V ip (j / BSIZE) <> 0 -> fbyte V' ip j = fbyte V ip j) /\
  forall t, 0 <= t < start -> t <> IBLOCK (i_inum ip) -> V' t = V t.
Proof.
  intros F Hl Sf Hi E. pose proof (iblock_range V _ F Hi) as Hib. pose proof (bm_range V F) as [Hbm _].
  pose proof F as [[G1 G2 G3 G4] K2 K3 K4]. pose proof Sf as [So Sc Si].
  assert (Fr : forall t, 0 <= t < start -> t <> IBLOCK (i_inum ip) -> V' t = V t).
  { intros t Ht Hne. rewrite E by done. by apply fset_ne. }
  assert (Us : forall j, 0 <= j < start + lsize -> used nino V' j = used nino V j).
  { intros j Hj. unfold used. rewrite bblock_one by done. by rewrite Fr by lia. }
  assert (Ce : forall c, cell V' ip c = cell V ip c).
  { intros c. apply cell_ext. intros Ha. destruct (ind_range V ip F Sf Ha) as [R1 _]. by rewrite Fr by lia. }
  split; [|split; [|split; [done|split; [done|split; [|done]]]]].
  - assert (E1 : V' 1 = V 1) by (apply Fr; lia). split; [split; rewrite ?E1; done|done| |].
    + intros j Hj. rewrite Us by lia. by apply K3.
    + intros t Ht. rewrite E by done. unfold updated, fset. destruct (t =? _); [|by apply K4].
      pose proof (ioff_range (i_inum ip)) as [? ?].
      rewrite encode_length; [apply K4; lia|done|rewrite K4 by lia; done|apply So].
  - apply (sound_file_kept V); [done| |lia|done]. intros t Ht Hu. by rewrite Us by lia.
  - intros j Hj Ha. destruct (cellno_range _ (block_of j Hj)) as [Hbj _].
    rewrite !fbyte_cell by (unfold bcell in *; by rewrite ?Ce). unfold bcell. rewrite Ce.
    destruct (Sc _ Hbj Ha) as [R1 _]. by rewrite Fr by lia.
Qed.

(** The file after the write: its size, its bytes, the other blocks, and the
    inode on disk. *)
Record file_written (V : Z -> block) (ip : inode) (V' : Z -> block) (ip' : inode) : Prop := {
  fw_size : i_size ip' = Z.max (i_size ip) (o + n);
  fw_bytes : forall j, 0 <= j < i_size ip' -> fbyte V' ip' j =
    if (o <=? j) && (j <? o + n) then g j else fbyte V ip j;
  fw_frame : forall t, 0 <= t < start -> t <> bmblock -> t <> IBLOCK (i_inum ip) -> used nino V t = true ->
    (forall c, 0 <= c < NCELLS -> cell V ip c <> 0 -> cell V ip c <> t) -> V' t = V t;
  fw_used : forall t, 0 <= t < start -> used nino V t = true -> used nino V' t = true;
  fw_inode : decode_dinode (ioff (i_inum ip)) (V (IBLOCK (i_inum ip))) = to_dinode ip ->
    decode_dinode (ioff (i_inum ip)) (V' (IBLOCK (i_inum ip))) = to_dinode ip';
  fw_others : forall m, 0 <= m <= nino -> m <> i_inum ip ->
    decode_dinode (ioff m) (V' (IBLOCK m)) = decode_dinode (ioff m) (V (IBLOCK m));
  fw_same : ip' = is_size (i_size ip') (is_addrs (i_addrs ip') ip);
  fw_cells : forall c, 0 <= c < NCELLS -> cell V ip c <> 0 -> cell V' ip' c = cell V ip c;
  fw_new : forall c, 0 <= c < NCELLS -> cell V' ip' c <> 0 ->
    cell V' ip' c = cell V ip c \/ used nino V (cell V' ip' c) = false;
  fw_covers : forall j, o <= j < o + n -> bcell V' ip' (j / BSIZE) <> 0;
  fw_fits : dinode_fits (to_dinode ip) -> dinode_fits (to_dinode ip')
}.

Lemma missing_none V ip : sound_file V ip -> o + n <= i_size ip -> missing V ip 0 = 0%nat.
Proof.
  intros [So _ _] Hs. unfold missing. rewrite (filter_ext_in _ (fun _ => False)).
  - assert (E : filter (fun _ => False) (seqZ ((o + 0) / BSIZE) (blocks_left 0)) = []).
    { induction (seqZ _ _) as [|x l IH]; [done|]. rewrite filter_cons_False by (intros []). exact IH. }
    rewrite E. cbn [length]. unfold reach. destruct (Z.ltb_spec 0 n), (Z.ltb_spec (NDIRECT * BSIZE) (o + n)); try done.
    cbn [andb]. rewrite (proj2 (Z.eqb_neq _ 0)); [done|]. pose proof (fo_indirect _ _ _ So ltac:(lia)). lia.
  - intros b Hb. split; [|done]. apply elem_of_seqZ in Hb. unfold blocks_left in Hb.
    destruct (Z.ltb_spec 0 n) as [Hn0|]; [|lia]. rewrite Z.add_0_r in Hb.
    intros E. apply (below_block V ip b So); [|change BSIZE with 512 in *; Z.to_euclidean_division_equations; lia|done].
    assert (0 <= o / BSIZE) by (apply Z.div_pos; [done|reflexivity]). lia.
Qed.

(** The bytes after the loop. *)
Lemma wrote_bytes V ip V' ip' j :
  sound_file V ip -> o <= i_size ip -> wrote V ip V' ip' o (o + n) g -> 0 <= j < Z.max (i_size ip) (o + n) ->
  bcell V' ip' (j / BSIZE) <> 0 /\ fbyte V' ip' j = if (o <=? j) && (j <? o + n) then g j else fbyte V ip j.
Proof.
  intros Sf Ho' W Hj. pose proof (sf_ok _ _ Sf) as So. pose proof (fo_size _ _ _ So) as Hsz.
  destruct (cellno_range _ (block_of j ltac:(lia))) as [Hb _].
  assert (Ha : bcell V' ip' (j / BSIZE) <> 0).
  { destruct (decide (j < i_size ip)) as [Hlt|Hge].
    - assert (bcell V ip (j / BSIZE) <> 0) by (apply (below_size V); [done|lia]).
      unfold bcell. by rewrite (wr_cells _ _ _ _ _ _ _ W).
    - apply (wr_covers _ _ _ _ _ _ _ W). lia. }
  split; [done|]. rewrite (wr_bytes _ _ _ _ _ _ _ W) by (done || lia).
  destruct (Z.leb_spec o j), (Z.ltb_spec j (o + n)); cbn [andb]; try done;
    (rewrite (proj2 (Z.eqb_neq _ 0)); [done|]); apply (below_size V); (done || lia).
Qed.

(** A file whose size grew to the end of the write. *)
Lemma grown_file V ip V' ip' :
  fs_ok V' -> sound_file V ip -> o <= i_size ip < o + n -> sound_file V' ip' -> wrote V ip V' ip' o (o + n) g ->
  sound_file V' (is_size (o + n) ip').
Proof.
  intros F' Sf Hs Sf' W. pose proof (bm_range V' F') as [Hbm _]. pose proof Sf' as [[O1 O2 O3 O4 O5 O6] Sc Si].
  pose proof (fo_size _ _ _ (sf_ok _ _ Sf)) as Hsz.
  assert (Hb : forall b, 0 <= b -> BSIZE * b < o + n -> bcell V' ip' b <> 0).
  { intros b Hb0 Hlt. destruct (wrote_bytes V ip V' ip' (BSIZE * b) Sf ltac:(lia) W) as [Ha _].
    - change BSIZE with 512 in *. lia.
    - by rewrite Z.mul_comm, Z.div_mul in Ha by (change BSIZE with 512; lia). }
  split; try done. split; try done.
  - cbn. lia.
  - cbn. intros b Hb0 Hlt. specialize (Hb b Hb0 Hlt). change (0 < blk V' ip' b < start). rewrite bcell_blk by done.
    assert (Hbr : 0 <= b < MAXFILE) by (change (MAXFILE * BSIZE) with 71680 in *; change BSIZE with 512 in *; change MAXFILE with 140; lia).
    destruct (cellno_range b Hbr) as [Hc _]. destruct (Sc _ Hc Hb) as [R1 _]. unfold bcell. lia.
  - cbn. intros Hlt. change (0 < addr ip' NDIRECT < start).
    assert (Hn0 : addr ip' NDIRECT <> 0).
    { apply (bcell_ind V' ip' NDIRECT); [done|]. apply Hb; [done|]. rewrite Z.mul_comm. done. }
    destruct (ind_range V' ip' F' Sf' Hn0). lia.
Qed.

(** The inode block is not one that the loop writes. *)
Lemma wrote_iblock V ip V' ip' m :
  fs_ok V -> sound_file V ip -> 0 <= m <= nino -> wrote V ip V' ip' o (o + n) g ->
  V' (IBLOCK m) = V (IBLOCK m).
Proof.
  intros F Sf Hi W. pose proof (iblock_range V _ F Hi) as Hib. pose proof (bm_range V F) as [Hbm _].
  pose proof (gm_meta _ _ _ _ (fk_geom _ F)). apply (wr_frame _ _ _ _ _ _ _ W); [lia|lia|apply F; lia|].
  intros c Hc Ha. destruct (sf_cell _ _ Sf c Hc Ha). lia.
Qed.

Lemma fits_after V ip V' ip' sz :
  dinode_fits (to_dinode ip) -> sound_file V' ip' -> wrote V ip V' ip' o (o + n) g -> 0 <= sz < 2 ^ 32 ->
  dinode_fits (to_dinode (is_size sz ip')).
Proof.
  intros [F1 F2 F3] Sf' W Hz. pose proof (wr_inode _ _ _ _ _ _ _ W) as E.
  apply Forall_cons in F2 as [_ F2]. apply (wr_fits _ _ _ _ _ _ _ W) in F2.
  assert (H13 : length (i_addrs ip') = 13%nat) by apply Sf'. rewrite E in *. split; [done| |done].
  apply Forall_cons. done.
Qed.

Lemma written_inside V ip V' :
  fs_ok V -> sound_file V ip -> 0 <= i_inum ip <= nino -> o + n <= i_size ip ->
  wrote V ip V' ip o (o + n) g -> file_written V ip V' ip.
Proof.
  intros F Sf Hi Hs W. split.
  - lia.
  - intros j Hj. eapply wrote_bytes; [done|lia|done|lia].
  - intros t Ht Hb _ Hu Hno. by apply (wr_frame _ _ _ _ _ _ _ W).
  - intros t Ht Hu. by apply (wr_used _ _ _ _ _ _ _ W).
  - by rewrite (wrote_iblock V ip V' ip).
  - intros m Hm _. by rewrite (wrote_iblock V ip V' ip).
  - by destruct ip.
  - apply (wr_cells _ _ _ _ _ _ _ W).
  - apply (wr_new _ _ _ _ _ _ _ W).
  - apply (wr_covers _ _ _ _ _ _ _ W).
  - done.
Qed.

Lemma written_grown V ip V1 ip1 V2 :
  fs_ok V -> fs_ok V1 -> 0 <= lsize -> sound_file V ip -> sound_file V1 ip1 -> 0 <= i_inum ip <= nino ->
  dinode_fits (to_dinode ip) -> o <= i_size ip < o + n -> wrote V ip V1 ip1 o (o + n) g ->
  (forall t, 0 <= t < start -> V2 t = updated (is_size (o + n) ip1) V1 t) ->
  fs_ok V2 /\ sound_file V2 (is_size (o + n) ip1) /\ file_written V ip V2 (is_size (o + n) ip1) /\ free_blocks V2 = free_blocks V1.
Proof.
  intros F F1 Hl Sf Sf1 Hi Hfits Hs W E. pose proof (wr_inode _ _ _ _ _ _ _ W) as Ein.
  assert (En1 : i_inum ip1 = i_inum ip) by (by rewrite Ein). set (ip2 := is_size (o + n) ip1) in *.
  assert (En2 : i_inum ip2 = i_inum ip) by (by rewrite <- En1).
  assert (Sf2 : sound_file V1 ip2) by (by apply (grown_file V ip)).
  destruct (updated_ok V1 ip2 V2 F1 Hl Sf2) as (F2 & Sf3 & U2 & Ce2 & B2 & Fr2); [by rewrite En2|done|].
  split; [done|]. split; [done|]. split; [|by apply free_same]. pose proof (iblock_range V _ F Hi) as Hib. pose proof (bm_range V F) as [Hbm _].
  pose proof (gm_meta _ _ _ _ (fk_geom _ F)) as Hm.
  assert (Hf2 : dinode_fits (to_dinode ip2)).
  { apply (fits_after V ip V1); try done. change (MAXFILE * BSIZE) with 71680 in Hend. lia. }
  split.
  - cbn. lia.
  - intros j Hj. cbn in Hj. destruct (wrote_bytes V ip V1 ip1 j Sf ltac:(lia) W ltac:(lia)) as [Ha Hby].
    rewrite <- Hby. apply B2; [|done]. lia.
  - intros t Ht Hb Hib' Hu Hno. rewrite Fr2 by (rewrite ?En2; done). by apply (wr_frame _ _ _ _ _ _ _ W).
  - intros t Ht Hu. rewrite U2 by lia. by apply (wr_used _ _ _ _ _ _ _ W).
  - intros _. rewrite E by lia. unfold updated. rewrite En2, fset_at. pose proof (ioff_range (i_inum ip)) as [? ?].
    apply decode_encode; [done| |apply Hf2|done]. rewrite (fk_len _ F1) by lia. done.
  - intros m Hmi Hne. pose proof (iblock_range V _ F Hmi) as Hibm. rewrite E by lia. unfold updated, fset. rewrite En2.
    rewrite <- (wrote_iblock V ip V1 ip1 m) by done.
    destruct (Z.eqb_spec (IBLOCK m) (IBLOCK (i_inum ip))) as [Eb|]; [rewrite <- Eb|done].
    pose proof (ioff_range (i_inum ip)) as [? ?]. pose proof (ioff_range m) as [? ?].
    apply decode_other; [done|rewrite (fk_len _ F1) by lia; done|apply Sf2|done|].
    by apply ioff_apart.
  - unfold ip2. cbn. rewrite Ein. done.
  - intros c Hc Ha. rewrite Ce2. by apply (wr_cells _ _ _ _ _ _ _ W).
  - intros c Hc. rewrite Ce2. by apply (wr_new _ _ _ _ _ _ _ W).
  - intros j Hj. unfold bcell. rewrite Ce2. by apply (wr_covers _ _ _ _ _ _ _ W).
  - done.
Qed.

Lemma writei_spec k V T ip :
  writing_file k V T ip -> o <= i_size ip -> 0 <= i_inum ip <= nino -> dinode_fits (to_dinode ip) ->
  (missing V ip 0 <= size (free_blocks V))%nat ->
  Z.of_nat (size (logset reach ip ∪ T)) + blocks_left 0 <= lsize - 2 ->
  wp (writei i src o n) k (fun r k' => r = n /\ exists V' T' ip', ifr k k' /\
    inodes k' = <[i := ip']> (inodes k) /\ writing_file k' V' T' ip' /\ file_written V ip V' ip' /\
    (size (free_blocks V) <= size (free_blocks V') + missing V ip 0)%nat).
Proof.
  intros Wf Hos Hi Hfits Hmiss Hbud. pose proof Wf as [X Tz Ei F Sf]. pose proof (wf_lsize _ _ _ _ Wf) as Hl.
  pose proof (fo_type _ _ _ (sf_ok _ _ Sf)) as Hty.
  pose proof (fo_size _ _ _ (sf_ok _ _ Sf)) as Hsz0.
  unfold writei. apply wp_bind, (wp_inoget k i ip); [done|]. rewrite (proj2 (Z.eqb_neq _ _)) by done.
  change (MAXFILE * BSIZE) with 71680 in *. rewrite u32_small by lia.
  rewrite (proj2 (Z.ltb_ge (i_size ip) o)), (proj2 (Z.ltb_ge (o + n) o)), (proj2 (Z.ltb_ge 71680 _)) by lia.
  cbn [orb]. apply wp_bind. pose proof (writei_loop_spec (Z.to_nat (n / BSIZE + 2)) k V T ip 0 Wf ltac:(lia) Hmiss Hbud) as Wl.
  rewrite Z.add_0_r in Wl. wp_use Wl.
  { rewrite Z2Nat.id by (assert (0 <= n / BSIZE) by (apply Z.div_pos; [done|reflexivity]); lia).
    unfold blocks_left. rewrite Z.add_0_r. change BSIZE with 512.
    destruct (0 <? n) eqn:E0; Z.to_euclidean_division_equations; lia. }
  intros off k1 (-> & V1 & T1 & ip1 & Fr1 & I1 & Wf1 & W1 & HT1 & Hsame & Hcnt). pose proof Wf1 as [X1 Tz1 Ei1 F1 Sf1].
  pose proof (wr_inode _ _ _ _ _ _ _ W1) as Ein. assert (Es1 : i_size ip1 = i_size ip) by (by rewrite Ein).
  assert (En1 : i_inum ip1 = i_inum ip) by (by rewrite Ein).
  apply wp_bind, (wp_inoget k1 i ip1); [done|]. rewrite Es1. apply wp_bind, wp_when.
  rewrite s32_small by lia. destruct (decide (o + n <= i_size ip)) as [Hin|Hgr].
  - rewrite (proj2 (Z.ltb_ge (i_size ip) (o + n))), andb_false_r by lia. apply wp_ret. split; [done|].
    rewrite Hsame in * by (by apply (missing_none V)). exists V1, T1, ip. split_and!; try done.
    by apply written_inside.
  - rewrite (proj2 (Z.ltb_lt 0 n)), (proj2 (Z.ltb_lt (i_size ip) (o + n))) by lia. cbn [andb].
    apply wp_bind, wp_modify. rewrite (alter_insert _ _ _ _ Ei1). set (ip2 := is_size (o + n) ip1).
    set (k2 := ks_inodes _ k1). assert (Ei2 : inodes k2 !! i = Some ip2).
    { unfold k2. cbn. apply list_lookup_insert_eq. by eapply lookup_lt_Some. }
    assert (Sf2 : sound_file V1 ip2) by (apply (grown_file V ip); (done || lia)).
    assert (HTle : (size T1 <= size (logset reach ip1 ∪ T1))%nat) by (apply subseteq_size, union_subseteq_r).
    pose proof (iblock_range V _ F Hi) as Hib.
    apply (iupdate_spec k2 V1 T1 ip2); try done; [by apply (tx_frame _ _ _ _ k1)|apply Sf2|cbn; by rewrite En1|apply Sf2|lia|].
    intros k3 V3 Fr3 X3 E3. apply wp_ret. split; [done|].
    destruct (written_grown V ip V1 ip1 V3 F F1 ltac:(lia) Sf Sf1 Hi Hfits ltac:(lia) W1 E3) as (F3 & Sf3 & Wr & Ef3).
    assert (I3 : inodes k3 = <[i := ip2]> (inodes k)).
    { rewrite (bfr_inodes _ _ Fr3). unfold k2. cbn. by rewrite I1, list_insert_insert_eq. }
    eexists V3, _, ip2. split_and!; [|done| |done|by rewrite Ef3].
    + eapply ifr_trans; [exact Fr1|]. unfold ifr. rewrite (bfr_inodes _ _ Fr3). exact Fr3.
    + split; [exact X3| |by rewrite (bfr_inodes _ _ Fr3)|done|done].
      rewrite elem_of_union, elem_of_singleton. cbn. rewrite En1. intros [?|?]; [lia|done].
Qed.

End Loop.

End Write.
