(* ===== verification/FsProps.v ===== *)
(** * Theorems on blocks and files

    The block allocator, and files written in a transaction: what is read back,
    and what a crash leaves. *)

From S2P Require Import Prelude Layout Mem Kalloc Vm State Sched Bytes Bio BioFacts BioProps Log.
From S2P Require Import LogFacts.
From S2P Require Import LogProps Inode Console Fs Codec FsFacts FileFacts WriteFacts.

Open Scope Z_scope.

Section FsProps.
Context `{Wakeups} (start lsize nino : Z).

(** ** Transactions on the file system *)

Lemma tx_start k k1 :
  dsk k1 = dsk k -> txi start lsize k1 (d_read (dsk k)) [] (d_read (dsk k)) [] ->
  tx start lsize (d_read (dsk k)) (dsk k) k1 (d_read (dsk k)) ∅.
Proof.
  intros Ed X. exists [], []. split; [done|]. split; [intros s Hs; by apply not_elem_of_nil in Hs|].
  rewrite <- Ed. apply hist_refl. rewrite Ed. pose proof (tx_unc _ _ _ _ _ _ _ _ X) as U. by rewrite Ed in U.
Qed.

(** The files of a disk that agrees with [V] before the log. *)
Lemma cell_before V V' ip c :
  (forall t, 0 <= t < start -> V' t = V t) -> fs_ok start lsize nino V -> sound_file start lsize nino V ip ->
  cell V' ip c = cell V ip c.
Proof.
  intros E F Sf. pose proof (bm_range _ _ _ V F) as [Hbm _]. apply cell_ext. intros Hn.
  destruct (ind_range _ _ _ V ip F Sf Hn). apply E. lia.
Qed.

Lemma sound_file_ext V V' ip :
  (forall t, 0 <= t < start -> V' t = V t) -> 0 <= lsize -> fs_ok start lsize nino V ->
  sound_file start lsize nino V ip -> sound_file start lsize nino V' ip.
Proof.
  intros E Hl F Sf. pose proof (bm_range _ _ _ V F) as [Hbm _].
  apply (sound_file_kept start lsize nino V); [intros c _; by apply cell_before| |lia|done].
  intros t Ht Hu. by rewrite (used_ext start lsize nino V) by (done || lia).
Qed.

Lemma fbyte_ext V V' ip j :
  (forall t, 0 <= t < start -> V' t = V t) -> fs_ok start lsize nino V -> sound_file start lsize nino V ip ->
  0 <= j < i_size ip -> fbyte V' ip j = fbyte V ip j.
Proof.
  intros E F Sf Hj. pose proof (sf_ok _ _ _ _ _ Sf) as So. pose proof (fo_size _ _ _ So) as Hsz.
  destruct (cellno_range _ (block_of j ltac:(lia))) as [Hb _]. pose proof (below_size start V ip j So Hj) as Ha.
  assert (Ec : bcell V' ip (j / BSIZE) = bcell V ip (j / BSIZE)) by (by apply cell_before).
  rewrite !fbyte_cell by (by rewrite ?Ec). rewrite Ec, E; [done|]. by apply (cell_range start lsize nino V).
Qed.

(** ** Writing a file *)

Section WriteFile.
Context (i : nat) (src : source) (g : Z -> byte) (o n : Z) (k : kstate) (ip : inode).

(** The file system is at rest, the write starts inside the file or at its end
    and stays within the largest size of a file, there is room on the disk and
    in the log, and the source delivers [g]. *)
Record can_write : Prop := {
  cw_quiet : quiet start lsize k;
  cw_ino : inodes k !! i = Some ip;
  cw_fs : fs_ok start lsize nino (d_read (dsk k));
  cw_file : sound_file start lsize nino (d_read (dsk k)) ip;
  cw_off : 0 <= o <= i_size ip;
  cw_len : 0 <= n /\ o + n <= MAXFILE * BSIZE;
  cw_inum : 0 <= i_inum ip <= nino;
  cw_fits : dinode_fits (to_dinode ip);
  cw_free : (missing o n (d_read (dsk k)) ip 0 <= size (free_blocks start lsize nino (d_read (dsk k))))%nat;
  cw_log : (if reach o n then 2 else 1) + blocks_left o n 0 <= lsize - 2;
  cw_src : forall k tot m, 0 <= tot -> 0 <= m -> tot + m <= n -> src tot m k = Ok (window g (o + tot) m) k
}.

(** The disk [V'] with the inode [ip'] holds the file after the write. *)
Definition new_file (V' : Z -> block) (ip' : inode) : Prop :=
  fs_ok start lsize nino V' /\ sound_file start lsize nino V' ip' /\
  file_written start nino g o n (d_read (dsk k)) ip V' ip'.

Lemma new_file_ext V V' ip' :
  (forall t, 0 <= t < start -> V' t = V t) -> 0 <= lsize -> 0 <= i_inum ip <= nino -> new_file V ip' -> new_file V' ip'.
Proof.
  intros E Hl Hi (F & Sf & [W1 W2 W3 W4 W5 W6 W7 W8 W9 W10 W11]). pose proof (bm_range _ _ _ V F) as [Hbm _].
  pose proof (iblock_range start lsize nino V _ F Hi) as Hib. pose proof (gm_meta _ _ _ _ (fk_geom _ _ _ _ F)) as Hm.
  split; [by apply (fs_ok_ext start lsize nino V)|]. split; [by apply (sound_file_ext V)|]. split; try done.
  - intros j Hj. rewrite <- W2 by done. by apply fbyte_ext.
  - intros t Ht Hb Hn Hu Hno. rewrite E by done. by apply W3.
  - intros t Ht Hu. rewrite (used_ext start lsize nino V) by (done || lia). by apply W4.
  - intros Hd. rewrite E by lia. by apply W5.
  - intros m Hmi Hne. pose proof (iblock_range start lsize nino V _ F Hmi). rewrite E by lia. by apply W6.
  - intros c Hc. rewrite (cell_before V V') by done. by apply W8.
  - intros c Hc. rewrite (cell_before V V') by done. by apply W9.
  - intros j Hj. unfold bcell. rewrite (cell_before V V') by done. by apply W10.
Qed.

Lemma write_file_spec :
  can_write ->
  wp (in_trans (writei i src o n)) k (fun r k' => r = n /\ exists ws ip', commits start lsize k ws k' /\
    inodes k' = <[i := ip']> (inodes k) /\ new_file (install ws (d_read (dsk k))) ip').
Proof.
  intros [Hq Ei F Sf Ho [Hn Hend] Hi Hfits Hfree Hlog Hsrc]. pose proof (qt_lay _ _ _ Hq) as [Y1 Y2 Y3 Y4].
  eapply wp_mono; [apply (in_trans_spec start lsize (writei i src o n) k (fun r k2 V => r = n /\ exists ip',
    inodes k2 = <[i := ip']> (inodes k) /\ new_file V ip') Hq)|].
  - intros k1 Fr1 Ed1 X1. pose proof (tx_start k k1 Ed1 X1) as T1.
    assert (I1 : inodes k1 = inodes k) by (by rewrite (bfr_inodes _ _ Fr1)).
    wp_use (writei_spec start lsize nino (d_read (dsk k)) (dsk k) i src g o n ltac:(lia) Hn Hend Hsrc k1
      (d_read (dsk k)) ∅ ip); [split; rewrite ?I1; (done || apply not_elem_of_empty)|lia|done|done|done| |].
    { rewrite (right_id_L ∅ (∪)). pose proof (logset_count nino (reach o n) ip). destruct (reach o n); lia. }
    intros r k2 (-> & V' & T' & ip' & Fr2 & I2 & [(ws & D & X2 & _ & H2) _ _ F2 Sf2] & Wr & _).
    exists ws, V', D. split; [done|]. split; [done|]. split; [done|]. exists ip'. by rewrite I2, I1.
  - intros r k' (ws & V & k2 & Hc & Fr & (-> & ip' & I2 & Hnew) & E). split; [done|]. exists ws, ip'.
    split; [done|]. split; [by rewrite (bfr_inodes _ _ Fr)|]. apply (new_file_ext V); [|lia|done|done].
    intros t Ht. by rewrite E.
Qed.

Lemma write_crash : can_write -> crashes (in_trans (writei i src o n)) k (dsk k).
Proof.
  intros C. pose proof (write_file_spec C) as W. apply wp_Ok in W as (r & k' & E & _ & ws & ip' & Hc & _).
  apply (crash_none start lsize _ _ ws (fun _ _ => True)). unfold wp. by rewrite E.
Qed.

End WriteFile.

(** The state just after [begin_trans]. *)
Lemma tx_begun k :
  quiet start lsize k -> tx start lsize (d_read (dsk k)) (dsk k) (ks_klog (lgs_busy true (klog k)) k) (d_read (dsk k)) ∅.
Proof.
  intros [Qc Qu Ql Qi Qy Qh]. apply tx_start; [done|]. split; try done.
  - intros t Ht. by apply not_elem_of_nil in Ht.
  - destruct Ql. by split.
  - by apply (wset_nil start lsize (dsk k)).
  - split; [|done]. destruct Qc as (_ & C & _). intros s. apply (cs_len _ _ _ _ _ C).
Qed.

(** ** Theorems *)

(** A file write is durable and exact: [writei] inside a transaction
    returns the number of bytes; afterwards the disk itself holds the file
    with its new size and inode, every byte of the range is the one written,
    every other byte of the file and every other block in use is unchanged,
    and blocks taken for the file were free. *)
Theorem write_commits i src g o n k ip :
  can_write i src g o n k ip ->
  wp (in_trans (writei i src o n)) k (fun r k' => r = n /\ quiet start lsize k' /\ exists ip',
    inodes k' = <[i := ip']> (inodes k) /\ new_file g o n k ip (d_read (dsk k')) ip').
Proof.
  intros C. pose proof (qt_lay _ _ _ (cw_quiet _ _ _ _ _ _ _ C)) as [Y1 Y2 Y3 Y4].
  wp_use (write_file_spec i src g o n k ip C). intros r k' (-> & ws & ip' & (W & Q & _ & I1) & I2 & Hnew).
  split; [done|]. split; [done|]. exists ip'. split; [done|].
  apply (new_file_ext _ _ _ _ _ (install ws (d_read (dsk k)))); [|lia|apply C|done]. apply I1.
Qed.

(** C6. What is written is read: after a committed [writei], [readi] of any
    range of the file returns the new bytes where they were written and the
    old ones elsewhere, cut at the end of the file. *)
Theorem write_read i src g o n k ip dst off m :
  can_write i src g o n k ip -> plain dst -> 0 <= off <= Z.max (i_size ip) (o + n) -> 0 <= m < 2 ^ 31 ->
  let len := Z.min m (Z.max (i_size ip) (o + n) - off) in
  wp (in_trans (writei i src o n) ;;; readi i dst off m) k (fun r _ => r = (len,
    window (fun j => if (o <=? j) && (j <? o + n) then g j else fbyte (d_read (dsk k)) ip j) off len)).
Proof.
  intros C Hp Hoff Hm len. pose proof (qt_lay _ _ _ (cw_quiet _ _ _ _ _ _ _ C)) as [Y1 Y2 Y3 Y4].
  apply wp_bind. wp_use (write_file_spec i src g o n k ip C).
  intros r k' (_ & ws & ip' & (W & Q & _ & I1) & I2 & Hnew).
  apply (new_file_ext _ _ _ _ _ _ (d_read (dsk k'))) in Hnew as (F' & Sf' & Wr); [|apply I1|lia|apply C].
  pose proof (fw_size _ _ _ _ _ _ _ _ _ Wr) as Esz.
  wp_use (readi_spec start (at_rest start lsize) (at_rest_held start lsize) k' (d_read (dsk k')) i ip' dst off m Hp).
  - by split.
  - rewrite I2. apply list_lookup_insert_eq. eapply lookup_lt_Some, C.
  - apply Sf'.
  - by rewrite Esz.
  - done.
  - intros r' k2 (-> & _). rewrite Esz. fold len. f_equal. apply list_eq. intros j.
    destruct (decide (j < Z.to_nat len)%nat) as [Hj|Hj].
    + rewrite !window_lookup by done. f_equal. apply (fw_bytes _ _ _ _ _ _ _ _ _ Wr). unfold len in Hj. lia.
    + by rewrite !lookup_ge_None_2 by (rewrite window_length; lia).
Qed.

(** File writes survive crashes whole or not at all: wherever the machine
    stops during the transaction around [writei], also during later recovery,
    booting returns and leaves the disk of before the write, or a disk that
    holds the complete new file. *)
Theorem write_atomic i src g o n k ip d kb :
  can_write i src g o n k ip -> placed start lsize (d_read (dsk k)) ->
  crashes (in_trans (writei i src o n)) k d -> fresh kb d ->
  wp boot kb (fun _ kb' => quiet start lsize kb' /\
    (home start (dsk kb') (d_read (dsk k)) \/ exists ip', new_file g o n k ip (d_read (dsk kb')) ip')).
Proof.
  intros C Hp Hd Hf. pose proof (qt_lay _ _ _ (cw_quiet _ _ _ _ _ _ _ C)) as [Y1 Y2 Y3 Y4].
  pose proof (write_file_spec i src g o n k ip C) as W.
  apply wp_Ok in W as (r & k' & E & _ & ws & ip' & Hc & _ & Hnew).
  wp_use (commit_atomic start lsize (in_trans (writei i src o n)) k ws d kb (fun _ _ => True)
    (cw_quiet _ _ _ _ _ _ _ C) Hp); [by unfold wp; rewrite E|done|done|].
  intros [] kb' [Q' [Hm|Hm]]; (split; [done|]); [by left|]. right. exists ip'.
  apply (new_file_ext _ _ _ _ _ (install ws (d_read (dsk k)))); [done|lia|apply C|done].
Qed.

(** C31. The block allocator: inside a transaction [balloc] returns the first
    block whose bit is clear, marks exactly that bit, zeroes the block and
    changes no other block; [bfree] clears the bit again, and panics if it is
    already clear; with every bit set [balloc] panics. *)
Theorem balloc_correct old d0 k V T :
  tx start lsize old d0 k V T -> fs_ok start lsize nino V -> Z.of_nat (size T) < lsize - 2 ->
  (forall r, first_free start lsize nino V r ->
    wp (balloc 1) k (fun a k' => a = r /\ exists V', tx start lsize old d0 k' V' ({[r]} ∪ ({[bmblock nino]} ∪ T)) /\
      V' r = replicate 512 x00 /\ free_blocks start lsize nino V' = free_blocks start lsize nino V ∖ {[r]} /\
      forall t, 0 <= t < start -> t <> r -> t <> bmblock nino -> V' t = V t)) /\
  ((forall j, 0 <= j < start + lsize -> used nino V j = true) -> panics (balloc 1) k "balloc: out of blocks") /\
  (forall b, 0 <= b < start + lsize -> used nino V b = false -> panics (bfree 1 b) k "freeing free block") /\
  (forall b, 0 <= b < start + lsize -> used nino V b = true ->
    wp (bfree 1 b) k (fun _ k' => exists V', tx start lsize old d0 k' V' ({[bmblock nino]} ∪ T) /\
      used nino V' b = false /\ (forall j, 0 <= j < start + lsize -> j <> b -> used nino V' j = used nino V j) /\
      forall t, 0 <= t < start -> t <> bmblock nino -> V' t = V t)).
Proof.
  intros X F Hfit. pose proof (tx_layout _ _ _ _ _ _ _ X) as [Y1 Y2 Y3 Y4]. pose proof (fk_geom _ _ _ _ F) as G.
  pose proof (bm_range _ _ _ V F) as [Hbm _]. pose proof (gm_meta _ _ _ _ G) as Hm. pose proof (fk_one _ _ _ _ F) as H1.
  split_and!.
  - intros r Hr. wp_use (balloc_spec start lsize old d0 nino k V T r X G Hfit Hr).
    intros a k' (-> & V' & _ & X' & E). split; [done|]. exists V'. pose proof Hr as (Hrr & _ & _).
    rewrite (bblock_one start lsize nino) in X' by (done || lia). split; [done|].
    split; [rewrite E by lia; apply fset_at|]. split.
    + rewrite (free_ext start lsize nino (allocated_at nino r V)); [|done|apply fs_ok_allocated; (done || lia)|lia].
      apply free_allocated; (done || lia).
    + intros t Ht Hn Hb. rewrite E by done. unfold allocated_at.
      rewrite (bblock_one start lsize nino) by (done || lia). by rewrite !fset_ne.
  - intros Hj. apply (balloc_full start lsize old d0 nino k V T); (done || lia).
  - intros b Hb Hu. apply (bfree_free start lsize old d0 nino k V T); (done || lia).
  - intros b Hb Hu. wp_use (bfree_spec start lsize old d0 nino k V T b X G); [lia|done|done|].
    intros [] k' (V' & _ & X' & E). rewrite (bblock_one start lsize nino) in X' by (done || lia).
    exists V'. split; [done|].
    assert (Eb : V' (bmblock nino) = mark_free b (V (bmblock nino))).
    { rewrite E by lia. unfold freed_at. rewrite (bblock_one start lsize nino), fset_at by (done || lia).
      by rewrite Z.mod_small by lia. }
    assert (Us : forall j, 0 <= j < start + lsize -> used nino V' j = if j =? b then false else used nino V j).
    { intros j Hj. unfold used. rewrite (bblock_one start lsize nino) by (done || lia).
      rewrite Eb, Z.mod_small by lia. apply in_use_mark_free; [lia|lia|]. apply (fk_len _ _ _ _ F). lia. }
    split; [rewrite Us, Z.eqb_refl by done; done|]. split.
    + intros j Hj Hne. rewrite Us by done. by destruct (Z.eqb_spec j b).
    + intros t Ht Hne. rewrite E by done. unfold freed_at. rewrite (bblock_one start lsize nino) by (done || lia).
      by apply fset_ne.
Qed.

End FsProps.

(** ** A small disk *)

#[local] Instance fs_wakeups : Wakeups := 1%nat.

(** Thirty blocks: eight inodes, the bitmap in block 4, data from block 5, the
    log from block 20.  Inode 2 is a file of 6100 bytes in blocks 5 to 16, all its
    direct blocks. *)
Definition fx_inode : inode := Inode 1 2 1 3 T_FILE 0 0 1 6100 [5; 6; 7; 8; 9; 10; 11; 12; 13; 14; 15; 16; 0].
Definition fx_image (s : Z) : block :=
  if s =? 1 then put32 12 10 (put32 8 8 (put32 0 30 zero_block))
  else if s =? 2 then encode_dinode (ioff 2) (to_dinode fx_inode) zero_block
  else if s =? 4 then xff :: xff :: x01 :: replicate 509 x00
  else zero_block.
Definition fx_machine : kstate :=
  KState (MState (fun _ => x00) false false 0 0 0) [] 1 None false None 0 0 0 booted (Disk 30 fx_image [])
    (LogState 20 10 false 1 0 (replicate 10 0)) [fx_inode] [] ∅
    (InputBuf [] 0 0 0) [] false false false false false false false false false.

Lemma fx_read s : d_read (dsk fx_machine) s = fx_image s.
Proof. reflexivity. Qed.

Lemma fx_blocks s : length (d_read (dsk fx_machine) s) = 512%nat.
Proof.
  rewrite fx_read. unfold fx_image.
  destruct (s =? 1); [by vm_compute|]. destruct (s =? 2); [by vm_compute|]. destruct (s =? 4); by vm_compute.
Qed.

Lemma fx_quiet : quiet 20 10 fx_machine.
Proof. split; try done. apply booted_cache; [apply fx_blocks|done]. Qed.

Lemma fx_used j : 0 <= j < 30 -> used 8 (d_read (dsk fx_machine)) j = (j <? 17).
Proof.
  intros Hj. assert (F : forallb (fun j => Bool.eqb (used 8 (d_read (dsk fx_machine)) j) (j <? 17)) (seqZ 0 30) = true).
  { vm_compute. reflexivity. }
  rewrite forallb_forall in F. apply Bool.eqb_prop, F, list_elem_of_In, elem_of_seqZ. lia.
Qed.

Lemma fx_fs : fs_ok 20 10 8 (d_read (dsk fx_machine)).
Proof.
  split.
  - split; vm_compute; congruence.
  - vm_compute. congruence.
  - intros j Hj. change (meta 20 10 8) with 5 in Hj. rewrite fx_used by lia. apply Z.ltb_lt. lia.
  - intros t _. apply fx_blocks.
Qed.

Lemma fx_cell c : 0 <= c < NCELLS -> cell (d_read (dsk fx_machine)) fx_inode c = if c <? 12 then 5 + c else 0.
Proof.
  intros Hc. assert (F : forallb (fun c => cell (d_read (dsk fx_machine)) fx_inode c =? if c <? 12 then 5 + c else 0)
    (seqZ 0 141) = true) by (vm_compute; reflexivity).
  rewrite forallb_forall in F. apply Z.eqb_eq, F, list_elem_of_In, elem_of_seqZ. change NCELLS with 141 in Hc. lia.
Qed.

Lemma fx_file : sound_file 20 10 8 (d_read (dsk fx_machine)) fx_inode.
Proof.
  split.
  - split; try done.
    intros b Hb Hs. cbn [i_size fx_inode] in Hs. change BSIZE with 512 in Hs. assert (Hb12 : b < 12) by lia.
    assert (E : bcell (d_read (dsk fx_machine)) fx_inode b = 5 + b).
    { unfold bcell, cellno. change NDIRECT with 12. rewrite (proj2 (Z.ltb_lt b 12)), fx_cell by (change NCELLS with 141; lia).
      by rewrite (proj2 (Z.ltb_lt b 12)). }
    rewrite bcell_blk by lia. lia.
  - intros c Hc. rewrite fx_cell by done. change (meta 20 10 8) with 5. destruct (Z.ltb_spec c 12); [|done].
    intros _. rewrite fx_used by lia. split; [lia|]. apply Z.ltb_lt. lia.
  - intros c c' Hc Hc'. rewrite !fx_cell by done. destruct (Z.ltb_spec c 12), (Z.ltb_spec c' 12); lia.
Qed.

(** A write of 700 bytes at offset 6000, beyond the direct blocks. *)
Definition fx_src : source := from_local (replicate 700 x41).

Lemma replicate_source m x k o tot n :
  0 <= tot -> 0 <= n -> tot + n <= Z.of_nat m -> from_local (replicate m x) tot n k = Ok (window (fun _ => x) o n) k.
Proof.
  intros Ht Hn Hle. unfold from_local, ret. f_equal. apply list_eq. intros j. unfold slice. rewrite lookup_take.
  case_decide as Hj.
  - rewrite lookup_drop, lookup_replicate_2, window_lookup by lia. done.
  - rewrite lookup_ge_None_2; [done|]. rewrite window_length. lia.
Qed.

Lemma fx_can : can_write 20 10 8 0 fx_src (fun _ => x41) 6000 700 fx_machine fx_inode.
Proof.
  split; try done.
  - apply fx_quiet.
  - apply fx_fs.
  - apply fx_file.
  - split; [| |done]; cbn; unfold T_FILE; repeat (apply Forall_cons; split; [lia|]); apply Forall_nil_2.
  - intros k tot m Ht Hm Hle. apply replicate_source; lia.
Qed.

Lemma write_read_witness :
  wp (in_trans (writei 0 fx_src 6000 700) ;;; readi 0 to_local 6500 500) fx_machine (fun r _ =>
    r = (200, replicate 200 x41)).
Proof.
  eapply wp_mono; [apply (write_read 20 10 8 0 fx_src (fun _ => x41) 6000 700 fx_machine fx_inode to_local 6500 500 fx_can)|].
  - intros k i bs. exists (ms k). destruct k. reflexivity.
  - cbn. lia.
  - lia.
  - intros r k' ->. vm_compute. reflexivity.
Defined.

Definition fx_begun : kstate := ks_klog (lgs_busy true (klog fx_machine)) fx_machine.

Lemma fx_first : first_free 20 10 8 (d_read (dsk fx_machine)) 17.
Proof.
  split; [change (meta 20 10 8) with 5; lia|]. split; [apply fx_used; lia|]. intros j Hj.
  rewrite fx_used by lia. apply Z.ltb_lt. lia.
Qed.

Lemma balloc_correct_witness :
  wp (balloc 1) fx_begun (fun a _ => a = 17) /\ panics (bfree 1 17) fx_begun "freeing free block".
Proof.
  destruct (balloc_correct 20 10 8 _ _ fx_begun _ ∅ (tx_begun 20 10 fx_machine fx_quiet) fx_fs) as (H1 & _ & H2 & _).
  - rewrite size_empty. lia.
  - split.
    + eapply wp_mono; [apply (H1 17)|].
      * exact fx_first.
      * intros a k' [-> _]. reflexivity.
    + apply H2; [split; [discriminate|reflexivity]|]. exact (proj1 (proj2 fx_first)).
Defined.

(** ** Where the bitmap ends

    [mkfs] marks the blocks before the data and those of the initial files; the
    blocks of the log, at the end of the disk, stay clear, and [balloc] looks
    at all [sb.size] bits. *)

(** The disk above with every data block taken. *)
Definition fx_full : kstate :=
  ks_klog (LogState 20 10 true 1 0 (replicate 10 0))
    (ks_dsk (Disk 30 (fun s => if s =? 4 then xff :: xff :: x0f :: replicate 509 x00 else fx_image s) []) fx_machine).

(** With all data blocks in use [balloc] does not report a full disk: the
    bits of the log's own blocks are clear on a disk that [mkfs] made, so it
    hands out the header block of the log as a data block. *)
Theorem balloc_takes_log :
  lg_start (klog fx_full) = 20 /\ (forall j, 0 <= j < 20 -> used 8 (d_read (dsk fx_full)) j = true) /\
  wp (balloc 1) fx_full (fun b _ => b = lg_start (klog fx_full)).
Proof.
  split; [done|]. split.
  - intros j Hj. assert (F : forallb (fun j => used 8 (d_read (dsk fx_full)) j) (seqZ 0 20) = true).
    { vm_compute. reflexivity. }
    rewrite forallb_forall in F. apply F, list_elem_of_In, elem_of_seqZ. lia.
  - assert (E : match balloc 1 fx_full with Ok b _ => b =? 20 | _ => false end = true) by (vm_compute; reflexivity).
    unfold wp. destruct (balloc 1 fx_full); try discriminate E. by apply Z.eqb_eq.
Qed.
