(* ===== verification/IcacheFacts.v ===== *)
(** * The inode cache

    [iget], [idup], [ilock], [iunlock] and [iput] as operations on the table of
    cached inodes: the invariant of the table, the reference counts, and what
    each operation does to them.  [iput] is specified where it does not free the
    inode. *)

From S2P Require Import Prelude Layout Mem Kalloc Vm State Sched Bytes Bio BioFacts Log LogFacts.
From S2P Require Import Inode Console Fs FsFacts FileFacts WriteFacts.

Open Scope Z_scope.

(** ** Reference counts *)

(** What a slot contributes to the count of inode [n], and the count. *)
Definition share (x : inode) (n : Z) : Z := if i_inum x =? n then i_ref x else 0.

Definition refs (l : list inode) (n : Z) : Z := foldr (fun x a => share x n + a) 0 l.

(** One more reference to inode [m]. *)
Definition one (m n : Z) : Z := if m =? n then 1 else 0.

(** The live slots keep their inodes; the count of slot [i] changes by [d]. *)
Definition moved (i : nat) (d : Z) (l l' : list inode) : Prop :=
  forall j x, l !! j = Some x -> 0 < i_ref x -> exists x', l' !! j = Some x' /\ i_inum x' = i_inum x /\
    i_ref x' = i_ref x + (if decide (j = i) then d else 0).

Lemma moved_insert i d l x y :
  l !! i = Some x -> (0 < i_ref x -> i_inum y = i_inum x /\ i_ref y = i_ref x + d) ->
  moved i d l (<[i := y]> l).
Proof.
  intros E Hy j z Ez Hz. destruct (decide (j = i)) as [->|Hne].
  - rewrite E in Ez. injection Ez as <-. exists y. destruct (Hy Hz).
    by rewrite list_lookup_insert_eq by (by eapply lookup_lt_Some).
  - exists z. rewrite list_lookup_insert_ne by done. split; [done|]. split; [done|lia].
Qed.

(** The counts do not change, and then that of slot [i] does. *)
Lemma moved_then i d l1 l2 l3 : moved i 0 l1 l2 -> moved i d l2 l3 -> moved i d l1 l3.
Proof.
  intros H1 H2 j x Ex Hx. destruct (H1 j x Ex Hx) as (y & Ey & E1 & E2).
  destruct (H2 j y Ey) as (z & Ez & E3 & E4); [destruct (decide (j = i)); lia|].
  exists z. split; [done|]. split; [congruence|]. destruct (decide (j = i)); lia.
Qed.

Lemma refs_insert l i x y n :
  l !! i = Some x -> refs (<[i := y]> l) n = refs l n - share x n + share y n.
Proof.
  revert i. induction l as [|z l IH]; intros [|i] E; try done.
  - injection E as ->. cbn. lia.
  - cbn in E. change (share z n + refs (<[i := y]> l) n = share z n + refs l n - share x n + share y n).
    rewrite (IH i E). lia.
Qed.

Lemma refs_zero l n : (forall i x, l !! i = Some x -> share x n = 0) -> refs l n = 0.
Proof.
  induction l as [|z l IH]; intros Hz; [done|]. change (share z n + refs l n = 0).
  rewrite (Hz 0%nat z eq_refl), IH; [done|]. intros i x E. by apply (Hz (S i)).
Qed.

Lemma refs_single l i x n :
  l !! i = Some x -> (forall j y, l !! j = Some y -> j <> i -> share y n = 0) -> refs l n = share x n.
Proof.
  revert i. induction l as [|z l IH]; intros [|i] E Hz; try done; cbn in E;
    change (refs (z :: l) n) with (share z n + refs l n).
  - injection E as ->. rewrite refs_zero; [lia|]. intros j y Ey. by apply (Hz (S j)).
  - rewrite (Hz 0%nat z eq_refl) by done. rewrite (IH i); [done|done|]. intros j y Ey Hne. apply (Hz (S j)); [done|lia].
Qed.

(** ** The table *)

(** The inode on the logical disk [V]. *)
Definition dnode (V : Z -> block) (n : Z) : dinode := decode_dinode (ioff n) (V (IBLOCK n)).

Record icache (nino : Z) (V : Z -> block) (L : gset nat) (l : list inode) : Prop := {
  ic_len : length l = 50%nat;
  ic_ref : forall i x, l !! i = Some x -> 0 <= i_ref x;
  ic_uniq : forall i j x y, l !! i = Some x -> l !! j = Some y -> 0 < i_ref x -> 0 < i_ref y ->
    i_inum x = i_inum y -> i = j;
  ic_dev : forall i x, l !! i = Some x -> 0 < i_ref x -> i_dev x = 1 /\ 1 <= i_inum x < nino;
  ic_busy : forall i x, l !! i = Some x -> 0 < i_ref x -> has (i_flags x) I_BUSY = bool_decide (i ∈ L);
  ic_valid : forall i x, l !! i = Some x -> 0 < i_ref x -> has (i_flags x) I_VALID = true ->
    to_dinode x = dnode V (i_inum x);
  ic_locked : forall i, i ∈ L -> exists x, l !! i = Some x /\ 0 < i_ref x /\ has (i_flags x) I_VALID = true
}.

(** Slots that hold no inode. *)
Definition nfree (l : list inode) : nat := length (filter (fun x => i_ref x = 0) l).

Section Table.
Context {nino : Z} {V : Z -> block} {L : gset nat} {l : list inode}.
Hypothesis (I : icache nino V L l).

Lemma share_nonneg i x n : l !! i = Some x -> 0 <= share x n.
Proof. intros E. unfold share. pose proof (ic_ref _ _ _ _ I i x E). by destruct (_ =? _). Qed.

Lemma refs_live i x : l !! i = Some x -> 0 < i_ref x -> refs l (i_inum x) = i_ref x.
Proof.
  intros E Hx. rewrite (refs_single l i x); [unfold share; by rewrite Z.eqb_refl|done|].
  intros j y Ey Hne. unfold share. destruct (Z.eqb_spec (i_inum y) (i_inum x)) as [En|]; [|done].
  pose proof (ic_ref _ _ _ _ I j y Ey). destruct (decide (i_ref y = 0)); [done|].
  destruct Hne. apply (ic_uniq _ _ _ _ I j i y x); (done || lia).
Qed.

Lemma refs_found n : 0 < refs l n -> exists i x, l !! i = Some x /\ 0 < i_ref x /\ i_inum x = n.
Proof.
  intros Hn. destruct (decide (Exists (fun x => 0 < i_ref x /\ i_inum x = n) l)) as [He|He].
  - apply Exists_exists in He as (x & Hin & Hx). apply list_elem_of_lookup in Hin as [i Hi]. eauto.
  - rewrite refs_zero in Hn; [lia|]. intros i x E. unfold share.
    destruct (Z.eqb_spec (i_inum x) n) as [En|]; [|done]. pose proof (ic_ref _ _ _ _ I i x E).
    destruct (decide (i_ref x = 0)); [done|]. destruct He. apply Exists_exists. exists x.
    split; [by eapply list_elem_of_lookup_2|lia].
Qed.

Definition live_set : gset Z := list_to_set (i_inum <$> filter (fun x => 0 < i_ref x) l).

Lemma elem_live n : n ∈ live_set <-> 0 < refs l n.
Proof.
  unfold live_set. rewrite elem_of_list_to_set, list_elem_of_fmap. split.
  - intros (x & -> & Hx). apply list_elem_of_filter in Hx as [Hx Hin].
    apply list_elem_of_lookup in Hin as [i Hi]. by rewrite (refs_live i x).
  - intros (i & x & E & Hx & <-)%refs_found. exists x. split; [done|].
    apply list_elem_of_filter. split; [done|]. by eapply list_elem_of_lookup_2.
Qed.

End Table.

Lemma filter_NoDup_inum l :
  (forall i j x y, l !! i = Some x -> l !! j = Some y -> 0 < i_ref x -> 0 < i_ref y ->
    i_inum x = i_inum y -> i = j) ->
  NoDup (i_inum <$> filter (fun x => 0 < i_ref x) l).
Proof.
  induction l as [|z l IH]; intros Hu; [apply NoDup_nil_2|].
  assert (NoDup (i_inum <$> filter (fun x => 0 < i_ref x) l)) as Hl.
  { apply IH. intros i j x y Ei Ej H1 H2 H3. by injection (Hu (S i) (S j) x y Ei Ej H1 H2 H3). }
  rewrite filter_cons. case_decide as Hz; [|done]. cbn. constructor; [|done].
  rewrite list_elem_of_fmap. intros (y & Ey & Hy). apply list_elem_of_filter in Hy as [Hy Hin].
  apply list_elem_of_lookup in Hin as [j Hj]. by discriminate (Hu 0%nat (S j) z y eq_refl Hj Hz Hy Ey).
Qed.

Lemma filter_split l :
  (forall i x, l !! i = Some x -> 0 <= i_ref x) ->
  (length (filter (fun x => 0 < i_ref x)%Z l) + nfree l = length l)%nat.
Proof.
  unfold nfree. induction l as [|z l IH]; intros Hr; [done|]. rewrite !filter_cons.
  pose proof (Hr 0%nat z eq_refl). specialize (IH (fun i => Hr (S i))).
  repeat case_decide; cbn [length]; try lia.
Qed.

Lemma nfree_live nino V L l : icache nino V L l -> (size (live_set (l:=l)) + nfree l = 50)%nat.
Proof.
  intros I. unfold live_set. rewrite size_list_to_set by (apply filter_NoDup_inum, I).
  rewrite length_fmap, <- (ic_len _ _ _ _ I). apply filter_split, I.
Qed.

(** References to one more inode take at most one slot. *)
Lemma nfree_one nino V L l L' l' m :
  icache nino V L l -> icache nino V L' l' -> (forall n, refs l' n <= refs l n + one m n) ->
  (nfree l <= nfree l' + 1)%nat.
Proof.
  intros I I' Hr. pose proof (nfree_live _ _ _ _ I). pose proof (nfree_live _ _ _ _ I').
  assert (live_set (l:=l') ⊆ {[m]} ∪ live_set (l:=l)) as Hs.
  { intros n Hn. apply (elem_live I') in Hn. specialize (Hr n). unfold one in Hr.
    destruct (Z.eqb_spec m n) as [->|]; [set_solver|]. apply elem_of_union_r, (elem_live I). lia. }
  apply subseteq_size in Hs. rewrite size_union_alt, size_singleton in Hs.
  pose proof (subseteq_size (live_set (l:=l) ∖ {[m]}) (live_set (l:=l)) ltac:(set_solver)). lia.
Qed.

(** Changing one slot. *)
Lemma icache_insert nino V L L' l i x y :
  icache nino V L l -> l !! i = Some x -> 0 <= i_ref y ->
  (forall j, j <> i -> j ∈ L' <-> j ∈ L) ->
  (0 < i_ref y -> i_dev y = 1 /\ 1 <= i_inum y < nino) ->
  (0 < i_ref y -> has (i_flags y) I_BUSY = bool_decide (i ∈ L')) ->
  (0 < i_ref y -> has (i_flags y) I_VALID = true -> to_dinode y = dnode V (i_inum y)) ->
  (0 < i_ref y -> refs l (i_inum y) = share x (i_inum y)) ->
  (i ∈ L' -> 0 < i_ref y /\ has (i_flags y) I_VALID = true) ->
  icache nino V L' (<[i := y]> l).
Proof.
  intros I E Hy HL H1 H2 H3 H4 H5. pose proof (lookup_lt_Some _ _ _ E) as Hlt.
  assert (forall j z, <[i := y]> l !! j = Some z -> j = i /\ z = y \/ j <> i /\ l !! j = Some z) as Hl.
  { intros j z Hj. destruct (decide (j = i)) as [->|Hne].
    - rewrite list_lookup_insert_eq in Hj by done. left. by injection Hj as <-.
    - rewrite list_lookup_insert_ne in Hj by done. by right. }
  assert (forall j z, j <> i -> l !! j = Some z -> 0 < i_ref z -> 0 < i_ref y -> i_inum z <> i_inum y) as Hu.
  { intros j z Hne Ez Hz Hy0 En. specialize (H4 Hy0). rewrite <- En in H4.
    rewrite (refs_live I j z Ez Hz) in H4. unfold share in H4.
    destruct (Z.eqb_spec (i_inum x) (i_inum z)) as [Ex|]; [|lia].
    destruct Hne. apply (ic_uniq _ _ _ _ I j i z x); (done || lia). }
  split.
  - rewrite length_insert. apply I.
  - intros j z [[-> ->]|[_ Hj]]%Hl; [done|]. by eapply I.
  - intros j1 j2 z1 z2 [[-> ->]|[N1 J1]]%Hl [[-> ->]|[N2 J2]]%Hl; intros P1 P2 En; try done.
    + by destruct (Hu j2 z2 N2 J2).
    + by destruct (Hu j1 z1 N1 J1).
    + by apply (ic_uniq _ _ _ _ I j1 j2 z1 z2).
  - intros j z [[-> ->]|[_ Hj]]%Hl; [done|]. by eapply I.
  - intros j z [[-> ->]|[Hne Hj]]%Hl; [done|]. intros Hz. rewrite (ic_busy _ _ _ _ I j z Hj Hz).
    apply bool_decide_ext. symmetry. by apply HL.
  - intros j z [[-> ->]|[_ Hj]]%Hl; [done|]. by eapply I.
  - intros j Hj. destruct (decide (j = i)) as [->|Hne].
    + exists y. rewrite list_lookup_insert_eq by done. split; [done|]. by apply H5.
    + rewrite list_lookup_insert_ne by done. apply (ic_locked _ _ _ _ I). by apply HL.
Qed.

(** ** Operations *)

Lemma wp_inoupd k i f (Q : unit -> kstate -> Prop) :
  Q tt (ks_inodes (alter f i (inodes k)) k) -> wp (inoupd i f) k Q.
Proof. done. Qed.

Section Icache.
Context `{Wakeups} (start nino : Z) (P : kstate -> (Z -> block) -> Prop)
  (Hd : kstate -> (Z -> block) -> nat -> Z -> Prop) `{!Readable start P Hd}.

(** The state shows the disk [V], and the slots of [L] are locked. *)
Record view (k : kstate) (V : Z -> block) (L : gset nat) : Prop := {
  vw_disk : P k V;
  vw_lock : ic_lock k = false;
  vw_table : icache nino V L (inodes k)
}.

(** Only the table changed. *)
Lemma view_table k V L l L' : view k V L -> icache nino V L' l -> view (ks_inodes l k) V L'.
Proof. intros [H1 H2 H3] I. split; [|done|done]. apply (rd_same k); try done. apply woken_refl. Qed.

Lemma inodes_ifr k l : ifr k (ks_inodes l k).
Proof. by destruct k. Qed.

Lemma icache_unlock k l :
  ic_lock k = false -> set_lock LkIcache false (ks_inodes l (set_lock LkIcache true k)) = ks_inodes l k.
Proof. intros E. destruct k. cbn in *. by subst. Qed.

Ltac unlock_ic k :=
  match goal with
  | |- context [set_lock LkIcache false ?st] =>
      change (set_lock LkIcache false st)
        with (set_lock LkIcache false (ks_inodes (inodes st) (set_lock LkIcache true k)));
      rewrite icache_unlock by done
  end.

(** The scan finds the slot that holds the inode, or else a free one. *)
Lemma iget_scan_spec k n cnt : forall i e,
  (i + cnt = length (inodes k))%nat ->
  wp (iget_scan 1 n e i cnt) k (fun r k' => k' = k /\
    match r with
    | (Some j, _) => exists x, inodes k !! j = Some x /\ 0 < i_ref x /\ i_dev x = 1 /\ i_inum x = n
    | (None, e') =>
        (forall j x, (i <= j)%nat -> inodes k !! j = Some x -> 0 < i_ref x -> i_dev x = 1 -> i_inum x <> n) /\
        match e' with
        | Some j => e = Some j \/ exists x, inodes k !! j = Some x /\ i_ref x = 0
        | None => e = None /\ forall j x, (i <= j)%nat -> inodes k !! j = Some x -> i_ref x <> 0
        end
    end).
Proof.
  induction cnt as [|cnt IH]; intros i e Hl; cbn [iget_scan].
  { apply wp_ret. assert (Hno : forall j x, (i <= j)%nat -> inodes k !! j <> Some x).
    { intros j x Hj E. apply lookup_lt_Some in E. lia. }
    split; [done|]. split; [intros j x Hj E; by destruct (Hno j x)|].
    destruct e; [by left|]. split; [done|]. intros j x Hj E. by destruct (Hno j x). }
  destruct (lookup_lt_is_Some_2 (inodes k) i) as [x Ex]; [lia|].
  apply wp_bind, (wp_inoget k i x); [done|]. destruct (_ && _) eqn:Eb; bool_hyps.
  { apply wp_ret. split; [done|]. by exists x. }
  wp_use (IH (S i) (match e with None => if i_ref x =? 0 then Some i else None | Some j => Some j end)); [lia|].
  intros [[j|] e'] k' [-> Hr]; (split; [done|]); [done|]. destruct Hr as [Hr He]. split.
  - intros j y Hj Ey H1 H2 H3. destruct (decide (j = i)) as [->|]; [|apply (Hr j y); (done || lia)].
    rewrite Ex in Ey. injection Ey as <-. rewrite H3, H2, !Z.eqb_refl, !andb_true_r in Eb.
    apply Z.ltb_ge in Eb. lia.
  - destruct e' as [j|].
    + destruct He as [He|He]; [|by right]. destruct e as [j'|]; [by left|].
      destruct (Z.eqb_spec (i_ref x) 0); [|done]. injection He as <-. right. by exists x.
    + destruct He as [He Hj]. destruct e; [done|]. destruct (Z.eqb_spec (i_ref x) 0); [done|].
      split; [done|]. intros j y Hij Ey. destruct (decide (j = i)) as [->|]; [congruence|].
      apply (Hj j y); (done || lia).
Qed.

Lemma share_ref x y n : i_inum y = i_inum x -> i_ref y = i_ref x + 1 -> share y n = share x n + one (i_inum x) n.
Proof. intros E1 E2. unfold share, one. rewrite E1, E2. by destruct (_ =? _). Qed.

(** One more reference to the inode in slot [i]. *)
Lemma table_up V L l i x :
  icache nino V L l -> l !! i = Some x -> 0 < i_ref x ->
  let y := is_ref (i_ref x + 1) x in
  icache nino V L (<[i := y]> l) /\ forall m, refs (<[i := y]> l) m = refs l m + one (i_inum x) m.
Proof.
  intros I E Hx y. split.
  - apply (icache_insert nino V L L l i x); try done.
    + cbn. lia.
    + intros _. by apply (ic_dev _ _ _ _ I i x).
    + intros _. by apply (ic_busy _ _ _ _ I i x).
    + intros _. by apply (ic_valid _ _ _ _ I i x).
    + intros _. cbn. rewrite (refs_live I i x E Hx). unfold share. by rewrite Z.eqb_refl.
    + intros Hi. destruct (ic_locked _ _ _ _ I i Hi) as (x' & E' & _ & Hv). rewrite E in E'.
      injection E' as <-. split; [cbn; lia|done].
  - intros m. rewrite (refs_insert l i x) by done. rewrite (share_ref x y) by done. lia.
Qed.

(** A free slot taken for inode [n]. *)
Lemma table_new V L l i x n :
  icache nino V L l -> l !! i = Some x -> i_ref x = 0 -> 1 <= n < nino -> refs l n = 0 ->
  let y := is_flags 0 (is_ref 1 (is_inum n (is_dev 1 x))) in
  icache nino V L (<[i := y]> l) /\ forall m, refs (<[i := y]> l) m = refs l m + one n m.
Proof.
  intros I E Hx Hn Hr y.
  assert (Hi : i ∉ L).
  { intros Hi. destruct (ic_locked _ _ _ _ I i Hi) as (x' & E' & Hp & _). rewrite E in E'. injection E' as <-. lia. }
  split.
  - apply (icache_insert nino V L L l i x); try done.
    + intros _. by rewrite bool_decide_eq_false_2.
    + intros _. cbn. rewrite Hr. unfold share. rewrite Hx. by destruct (_ =? _).
  - intros m. rewrite (refs_insert l i x) by done. unfold share, one. cbn. rewrite Hx.
    destruct (_ =? m), (_ =? m); lia.
Qed.

Lemma iget_spec k V L n :
  view k V L -> 1 <= n < nino -> refs (inodes k) n < 2 ^ 31 - 1 ->
  (0 < nfree (inodes k))%nat \/ 0 < refs (inodes k) n ->
  wp (iget 1 n) k (fun i k' => view k' V L /\ ifr k k' /\
    (exists x, inodes k' !! i = Some x /\ 0 < i_ref x /\ i_inum x = n) /\
    (forall m, refs (inodes k') m = refs (inodes k) m + one n m) /\ moved i 1 (inodes k) (inodes k')).
Proof.
  intros Vw Hn Hb Hroom. pose proof Vw as [Hp Hl I]. unfold iget.
  apply wp_bind, wp_acquire; [done|]. apply wp_bind.
  wp_use (iget_scan_spec (set_lock LkIcache true k) n (Z.to_nat NINODE) 0 None); [symmetry; apply I|].
  change (inodes (set_lock LkIcache true k)) with (inodes k).
  intros [[i|] e] k' [-> Hr].
  - destruct Hr as (x & Ex & Hx & _ & En). apply wp_bind, wp_inoupd, wp_bind, wp_release; [done|].
    apply wp_ret. rewrite icache_unlock by done. cbn [inodes set_lock ks_ic_lock].
    rewrite (alter_insert _ _ _ _ Ex), s32_small by (rewrite <- En, (refs_live I i x Ex Hx) in Hb; lia).
    destruct (table_up V L (inodes k) i x I Ex Hx) as [I' Hrefs].
    split; [by apply (view_table k V L)|]. split; [apply inodes_ifr|]. split_and!.
    + eexists. cbn. rewrite list_lookup_insert_eq by (by eapply lookup_lt_Some). split; [done|].
      cbn. split; [lia|done].
    + intros m. cbn. rewrite <- En. apply Hrefs.
    + by eapply moved_insert.
  - destruct Hr as [Hno He].
    assert (Hn0 : refs (inodes k) n = 0).
    { apply refs_zero. intros j x E. unfold share. destruct (Z.eqb_spec (i_inum x) n) as [En|]; [|done].
      pose proof (ic_ref _ _ _ _ I j x E). destruct (decide (i_ref x = 0)); [done|].
      destruct (Hno j x ltac:(lia) E ltac:(lia)); [|done]. apply (ic_dev _ _ _ _ I j x); (done || lia). }
    destruct e as [i|].
    + destruct He as [|(x & Ex & Hx)]; [done|].
      do 4 (apply wp_bind, wp_inoupd). apply wp_bind, wp_release; [done|]. apply wp_ret. unlock_ic k.
      cbn [inodes ks_inodes set_lock ks_ic_lock]. rewrite !alter_fuse, (alter_insert _ _ _ _ Ex).
      destruct (table_new V L (inodes k) i x n I Ex Hx Hn Hn0) as [I' Hrefs].
      split; [by apply (view_table k V L)|]. split; [apply inodes_ifr|]. split_and!; [|done|].
      * eexists. cbn. by rewrite list_lookup_insert_eq by (by eapply lookup_lt_Some).
      * eapply moved_insert; [done|lia].
    + destruct He as [_ He]. exfalso. destruct Hroom as [Hf|Hr]; [|lia]. unfold nfree in Hf.
      destruct (filter _ _) as [|x fl] eqn:Ef; [cbn in Hf; lia|].
      assert (Hx : x ∈ filter (fun x => i_ref x = 0) (inodes k)) by (rewrite Ef; by left).
      apply list_elem_of_filter in Hx as [Hx [j Hj]%list_elem_of_lookup]. apply (He j x); (done || lia).
Qed.

Lemma idup_spec k V L i x :
  view k V L -> inodes k !! i = Some x -> 0 < i_ref x < 2 ^ 31 - 1 ->
  wp (idup i) k (fun j k' => j = i /\ view k' V L /\ ifr k k' /\
    inodes k' !! i = Some (is_ref (i_ref x + 1) x) /\
    forall m, refs (inodes k') m = refs (inodes k) m + one (i_inum x) m).
Proof.
  intros Vw Ex Hx. pose proof Vw as [Hp Hl I]. unfold idup.
  apply wp_bind, wp_acquire; [done|]. apply wp_bind, wp_inoupd, wp_bind, wp_release; [done|]. apply wp_ret.
  rewrite icache_unlock by done. cbn [inodes set_lock ks_ic_lock].
  rewrite (alter_insert _ _ _ _ Ex), s32_small by lia.
  destruct (table_up V L (inodes k) i x I Ex ltac:(lia)) as [I' Hrefs].
  split; [done|]. split; [by apply (view_table k V L)|]. split; [apply inodes_ifr|]. split; [|done].
  cbn. by rewrite list_lookup_insert_eq by (by eapply lookup_lt_Some).
Qed.

(** *** Locking *)

Lemma busy_bits f :
  has (Z.lor f I_BUSY) I_BUSY = true /\ has (Z.lor f I_BUSY) I_VALID = has f I_VALID /\
  has (Z.lor f I_VALID) I_VALID = true /\ has (Z.lor f I_VALID) I_BUSY = has f I_BUSY /\
  has (Z.land f (Z.lnot I_BUSY)) I_BUSY = false /\ has (Z.land f (Z.lnot I_BUSY)) I_VALID = has f I_VALID.
Proof.
  destruct (set_flag f I_BUSY I_VALID eq_refl). destruct (set_flag f I_VALID I_BUSY eq_refl).
  destruct (clear_flag f I_BUSY I_VALID eq_refl). done.
Qed.

(** Replacing a slot by the same inode with other flags. *)
Lemma table_flags V L L' l i x y :
  icache nino V L l -> l !! i = Some x -> 0 < i_ref x ->
  i_ref y = i_ref x -> i_dev y = i_dev x -> i_inum y = i_inum x ->
  (forall j, j <> i -> j ∈ L' <-> j ∈ L) ->
  has (i_flags y) I_BUSY = bool_decide (i ∈ L') ->
  (i ∈ L' -> has (i_flags y) I_VALID = true) ->
  (has (i_flags y) I_VALID = true -> to_dinode y = dnode V (i_inum y)) ->
  icache nino V L' (<[i := y]> l) /\ forall m, refs (<[i := y]> l) m = refs l m.
Proof.
  intros I E Hx E1 E2 E3 HL Hb Hv Hd'. split.
  - apply (icache_insert nino V L L' l i x); try done; rewrite ?E1; try lia.
    + intros _. rewrite E2, E3. by apply (ic_dev _ _ _ _ I i x).
    + intros _. rewrite E3, (refs_live I i x E Hx). unfold share. by rewrite Z.eqb_refl.
    + intros Hi. by split; [|apply Hv].
  - intros m. rewrite (refs_insert l i x) by done. unfold share. rewrite E1, E3. lia.
Qed.

(** What [ilock] promises: the slot is locked and holds the inode of the disk. *)
Definition locked_at (k k' : kstate) (V : Z -> block) (L : gset nat) (i : nat) (x : inode) : Prop :=
  view k' V ({[i]} ∪ L) /\ ifr k k' /\
  (exists y, inodes k' !! i = Some y /\ i_ref y = i_ref x /\ i_dev y = 1 /\ i_inum y = i_inum x /\
    to_dinode y = dnode V (i_inum x)) /\
  (forall m, refs (inodes k') m = refs (inodes k) m) /\ moved i 0 (inodes k) (inodes k').

Lemma locked_table k k' V L i x y :
  view k V L -> inodes k !! i = Some x -> 0 < i_ref x ->
  P k' V -> ifr k k' -> inodes k' = <[i := y]> (inodes k) ->
  i_ref y = i_ref x -> i_dev y = i_dev x -> i_inum y = i_inum x ->
  has (i_flags y) I_BUSY = true -> has (i_flags y) I_VALID = true -> to_dinode y = dnode V (i_inum x) ->
  locked_at k k' V L i x.
Proof.
  intros [Hp Hl I] Ex Hx Hp' Fr El E1 E2 E3 Hb Hv Ed.
  destruct (table_flags V L ({[i]} ∪ L) (inodes k) i x y I Ex Hx E1 E2 E3) as [I' Hr].
  - set_solver.
  - rewrite Hb. symmetry. apply bool_decide_eq_true_2. set_solver.
  - done.
  - intros _. by rewrite E3.
  - split; [|split; [done|]].
    + split; [done| |by rewrite El]. unfold ifr, bfr in Fr. by rewrite Fr.
    + rewrite El. split; [|split; [done|eapply moved_insert; [done|rewrite E1, Z.add_0_r; done]]]. exists y. rewrite list_lookup_insert_eq by (by eapply lookup_lt_Some).
      destruct (ic_dev _ _ _ _ I i x Ex Hx) as [Ed1 _]. split_and!; (done || congruence).
Qed.

(** The inode's block lies before the log. *)
Lemma ilock_spec k V L i x :
  (forall n, 1 <= n < nino -> 0 <= IBLOCK n < start) -> view k V L -> inodes k !! i = Some x -> 0 < i_ref x -> i ∉ L -> di_type (dnode V (i_inum x)) <> 0 ->
  wp (ilock (Some i)) k (fun _ k' => locked_at k k' V L i x).
Proof.
  intros Hinodes Vw Ex Hx HiL Ht. pose proof Vw as [Hp Hl I]. destruct (ic_dev _ _ _ _ I i x Ex Hx) as [Edev Hn].
  pose proof (ic_busy _ _ _ _ I i x Ex Hx) as Hb. rewrite bool_decide_eq_false_2 in Hb by done.
  destruct (busy_bits (i_flags x)) as (F1 & F2 & F3 & F4 & _).
  unfold ilock. apply wp_bind, (wp_inoget k i x); [done|]. rewrite (proj2 (Z.ltb_ge _ _)) by lia.
  apply wp_bind, wp_acquire; [done|]. apply wp_bind.
  assert (Ew : forall w, ilock_wait i w (set_lock LkIcache true k) = Ok tt (set_lock LkIcache true k)).
  { intros w. assert (E : inoget i (set_lock LkIcache true k) = Ok x (set_lock LkIcache true k)).
    { unfold inoget, bind, gets. cbn [obind]. change (inodes (set_lock LkIcache true k)) with (inodes k). by rewrite Ex. }
    destruct w; cbn [ilock_wait]; rewrite (bind_Ok _ _ _ _ _ E), Hb; done. }
  unfold wp at 1. rewrite Ew. apply wp_bind, wp_inoupd, wp_bind, wp_release; [done|]. rewrite icache_unlock by done.
  cbn [inodes set_lock ks_ic_lock]. rewrite (alter_insert _ _ _ _ Ex).
  set (x1 := is_flags (Z.lor (i_flags x) I_BUSY) x). set (k1 := ks_inodes (<[i := x1]> (inodes k)) k).
  assert (Ex1 : inodes k1 !! i = Some x1) by (apply list_lookup_insert_eq; by eapply lookup_lt_Some).
  assert (Hp1 : P k1 V) by (apply (rd_same k); try done; apply woken_refl).
  apply wp_bind, (wp_inoget k1 i x1); [done|]. apply wp_when. cbn [i_flags x1 is_flags]. rewrite F2.
  destruct (has (i_flags x) I_VALID) eqn:Hv; cbn [negb].
  { apply (locked_table k k1 V L i x x1); try done.
    by apply (ic_valid _ _ _ _ I i x). }
  change (i_dev x1) with (i_dev x). change (i_inum x1) with (i_inum x). rewrite Edev.
  apply wp_bind, (rd_bread k1 V); [done|by apply Hinodes|].
  intros bp bs Hh. apply wp_bind, (rd_bdata _ V bp (IBLOCK (i_inum x))); [done|].
  apply wp_bind, wp_inoupd. cbn [inodes ks_bufs]. rewrite (alter_insert _ _ _ _ Ex1).
  apply wp_bind, (rd_brelse _ V bp (IBLOCK (i_inum x))); [by apply (rd_frame (ks_bufs bs k1)); try done; apply woken_refl|].
  intros k2 Fr2 _ Hp2. apply wp_bind, wp_inoupd.
  set (x2 := load_inode _ x1) in *. set (x3 := is_flags (Z.lor (i_flags x2) I_VALID) x2).
  assert (E2 : inodes k2 = <[i := x2]> (inodes k)).
  { rewrite (bfr_inodes _ _ Fr2). cbn. apply list_insert_insert_eq. }
  assert (Ex2 : inodes k2 !! i = Some x2) by (rewrite E2; apply list_lookup_insert_eq; by eapply lookup_lt_Some).
  rewrite (alter_insert _ _ _ _ Ex2), E2, list_insert_insert_eq. fold x3.
  apply wp_bind, (wp_inoget _ i x3); [apply list_lookup_insert_eq; by eapply lookup_lt_Some|].
  apply wp_when. rewrite (proj2 (Z.eqb_neq (i_type x3) 0)) by done.
  apply (locked_table k _ V L i x x3); try done.
  - apply (rd_same k2); try done. apply woken_refl.
  - unfold ifr, bfr in *. rewrite Fr2. by destruct k.
  - cbn. destruct (busy_bits (Z.lor (i_flags x) I_BUSY)) as (_ & _ & _ & G & _). by rewrite G.
  - cbn. apply (busy_bits (Z.lor (i_flags x) I_BUSY)).
Qed.

Lemma iunlock_spec k V L i x :
  view k V L -> inodes k !! i = Some x -> i ∈ L ->
  wp (iunlock (Some i)) k (fun _ k' => view k' V (L ∖ {[i]}) /\ ifr k k' /\
    (exists y, inodes k' !! i = Some y /\ i_ref y = i_ref x /\ i_inum y = i_inum x) /\
    (forall m, refs (inodes k') m = refs (inodes k) m) /\ moved i 0 (inodes k) (inodes k')).
Proof.
  intros Vw Ex HiL. pose proof Vw as [Hp Hl I].
  destruct (ic_locked _ _ _ _ I i HiL) as (x' & E' & Hx & Hv). rewrite Ex in E'. injection E' as <-.
  pose proof (ic_busy _ _ _ _ I i x Ex Hx) as Hb. rewrite bool_decide_eq_true_2 in Hb by done.
  destruct (busy_bits (i_flags x)) as (_ & _ & _ & _ & F5 & F6).
  unfold iunlock. apply wp_bind, (wp_inoget k i x); [done|]. rewrite Hb, (proj2 (Z.ltb_ge _ _)) by lia.
  cbn [negb orb]. apply wp_bind, wp_acquire; [done|]. apply wp_bind, wp_inoupd.
  cbn [inodes set_lock ks_ic_lock]. rewrite (alter_insert _ _ _ _ Ex).
  set (y := is_flags (Z.land (i_flags x) (Z.lnot I_BUSY)) x).
  destruct (rd_unlocked k V Hp) as (U1 & U2 & U3).
  apply wp_bind, wp_wakeup; [done|]. apply wp_release; [done|].
  set (ps := wake _ <$> _).
  match goal with |- context [set_lock LkIcache false ?st] =>
    replace (set_lock LkIcache false st) with (ks_procs ps (ks_inodes (<[i := y]> (inodes k)) k))
      by (destruct k; cbn in *; by subst) end.
  destruct (table_flags V L (L ∖ {[i]}) (inodes k) i x y I Ex Hx) as [I' Hr]; try done.
  - set_solver.
  - cbn. rewrite F5. symmetry. apply bool_decide_eq_false_2. set_solver.
  - set_solver.
  - intros _. by apply (ic_valid _ _ _ _ I i x).
  - split; [split; [apply (rd_same k); try done; apply woken_wake|done|done]|]. split; [by destruct k|]. split.
    + exists y. cbn. by rewrite list_lookup_insert_eq by (by eapply lookup_lt_Some).
    + split; [done|]. eapply moved_insert; [done|]. cbn. by rewrite Z.add_0_r.
Qed.

(** One reference less. *)
Lemma table_down V L l i x :
  icache nino V L l -> l !! i = Some x -> 0 < i_ref x -> (i ∈ L -> 1 < i_ref x) ->
  let y := is_ref (i_ref x - 1) x in
  icache nino V L (<[i := y]> l) /\ forall m, refs (<[i := y]> l) m = refs l m - one (i_inum x) m.
Proof.
  intros I E Hx Hi y. split.
  - apply (icache_insert nino V L L l i x); try done.
    + cbn. lia.
    + intros _. by apply (ic_dev _ _ _ _ I i x).
    + intros _. by apply (ic_busy _ _ _ _ I i x).
    + intros _. by apply (ic_valid _ _ _ _ I i x).
    + intros _. cbn. rewrite (refs_live I i x E Hx). unfold share. by rewrite Z.eqb_refl.
    + intros HiL. specialize (Hi HiL). destruct (ic_locked _ _ _ _ I i HiL) as (x' & E' & _ & Hv). rewrite E in E'.
      injection E' as <-. split; [cbn; lia|done].
  - intros m. rewrite (refs_insert l i x) by done. unfold share, one. cbn. destruct (_ =? m); lia.
Qed.

(** [iput] when the inode stays in use. *)
Lemma iput_spec k V L i x :
  view k V L -> inodes k !! i = Some x -> 0 < i_ref x < 2 ^ 31 -> (i ∈ L -> 1 < i_ref x) ->
  1 < i_ref x \/ di_nlink (dnode V (i_inum x)) <> 0 ->
  wp (iput i) k (fun _ k' => view k' V L /\ ifr k k' /\
    (forall m, refs (inodes k') m = refs (inodes k) m - one (i_inum x) m) /\
    moved i (-1) (inodes k) (inodes k')).
Proof.
  intros Vw Ex Hx HiL Hkeep. pose proof Vw as [Hp Hl I].
  unfold iput. apply wp_bind, wp_acquire; [done|]. apply wp_bind, (wp_inoget _ i x); [done|].
  assert (Hc : (i_ref x =? 1) && has (i_flags x) I_VALID && (i_nlink x =? 0) = false).
  { destruct (Z.eqb_spec (i_ref x) 1); [|done]. destruct (has (i_flags x) I_VALID) eqn:Hv; [|done].
    destruct Hkeep as [|Hn]; [lia|]. rewrite <- (ic_valid _ _ _ _ I i x) in Hn by (done || lia).
    by destruct (Z.eqb_spec (i_nlink x) 0). }
  rewrite Hc. apply wp_bind, wp_when, wp_bind, wp_inoupd, wp_release; [done|].
  rewrite icache_unlock by done. cbn [inodes set_lock ks_ic_lock].
  rewrite (alter_insert _ _ _ _ Ex), s32_small by lia.
  destruct (table_down V L (inodes k) i x I Ex ltac:(lia) HiL) as [I' Hrefs].
  split; [by apply (view_table k V L)|]. split; [apply inodes_ifr|]. split; [done|].
  by eapply moved_insert.
Qed.

Lemma iunlockput_spec k V L i x :
  view k V L -> inodes k !! i = Some x -> i ∈ L -> i_ref x < 2 ^ 31 ->
  1 < i_ref x \/ di_nlink (dnode V (i_inum x)) <> 0 ->
  wp (iunlockput i) k (fun _ k' => view k' V (L ∖ {[i]}) /\ ifr k k' /\
    (forall m, refs (inodes k') m = refs (inodes k) m - one (i_inum x) m) /\
    moved i (-1) (inodes k) (inodes k')).
Proof.
  intros Vw Ex HiL Hx Hkeep. destruct (ic_locked _ _ _ _ (vw_table _ _ _ Vw) i HiL) as (x' & E' & Hx0 & _).
  rewrite Ex in E'. injection E' as <-. unfold iunlockput. apply wp_bind.
  wp_use (iunlock_spec k V L i x Vw Ex HiL). intros [] k1 (V1 & F1 & (y & Ey & E1 & E2) & R1 & M1).
  wp_use (iput_spec k1 V (L ∖ {[i]}) i y V1 Ey); [lia|set_solver|by rewrite E1, E2|].
  intros [] k2 (V2 & F2 & R2 & M2). split; [done|]. split; [by eapply ifr_trans|]. split.
  - intros m. by rewrite R2, R1, E2.
  - by eapply moved_then.
Qed.

End Icache.
