(* ===== verification/DirFacts.v ===== *)
(** * Directories and paths

    A directory as a list of entries; [dirlookup] as a search in it; path names
    split into elements; and [namex] as a walk from inode to inode on the disk. *)

From S2P Require Import Prelude Layout Mem Kalloc Vm State Sched Bytes Bio BioFacts Log LogFacts.
From S2P Require Import Inode Console Fs FsFacts FileFacts WriteFacts IcacheFacts.

Open Scope Z_scope.

(** ** Path names *)

(** The pieces between slashes, empty ones included. *)
Fixpoint pieces (path : list byte) : list (list byte) :=
  match path with
  | [] => [[]]
  | c :: path =>
      if bool_decide (c = slash) then [] :: pieces path
      else match pieces path with
           | p :: ps => (c :: p) :: ps
           | [] => [[c]]
           end
  end.

(** The elements of a path: the pieces that are not empty, cut to the length of
    a name in a directory. *)
Definition elements (path : list byte) : list (list byte) :=
  take (Z.to_nat DIRSIZ) <$> filter (fun p => p <> []) (pieces path).

Lemma elements_slash path : elements (slash :: path) = elements path.
Proof. reflexivity. Qed.

Lemma elements_drop path : elements (drop_slashes path) = elements path.
Proof.
  induction path as [|c path IH]; cbn [drop_slashes]; [done|].
  case_bool_decide as Hc; [|done]. subst. by rewrite elements_slash.
Qed.

Lemma pieces_span path :
  exists ps, pieces path = (span_elem path).1 :: ps /\
    match (span_elem path).2 with [] => ps = [] | _ :: rest => ps = pieces rest end.
Proof.
  induction path as [|c path IH]; cbn; [by exists []|].
  case_bool_decide as Hc; cbn; [by eexists|].
  destruct IH as (ps & E & Hr). destruct (span_elem path) as [s rest]. cbn in *. rewrite E.
  by exists ps.
Qed.

Lemma span_rest path c rest : (span_elem path).2 = c :: rest -> c = slash.
Proof.
  induction path as [|d path IH]; cbn; [done|]. case_bool_decide as Hd; cbn; [congruence|].
  destruct (span_elem path). done.
Qed.

Lemma drop_slashes_head path c p : drop_slashes path = c :: p -> c <> slash.
Proof.
  induction path as [|d path IH]; cbn; [done|]. case_bool_decide; [done|]. congruence.
Qed.

(** [skipelem] takes the first element off a path. *)
Lemma skipelem_elements path :
  match skipelem path with
  | None => elements path = []
  | Some (name, rest) => elements path = name :: elements rest
  end.
Proof.
  unfold skipelem. rewrite <- (elements_drop path). destruct (drop_slashes path) as [|c p] eqn:Ed; [done|].
  apply drop_slashes_head in Ed. clear path.
  destruct (pieces_span (c :: p)) as (ps & E & Hr). pose proof (span_rest (c :: p)) as Hs.
  assert ((span_elem (c :: p)).1 <> []) as Hne.
  { cbn. rewrite bool_decide_eq_false_2 by done. by destruct (span_elem p). }
  destruct (span_elem (c :: p)) as [s rest]. cbn [fst snd] in E, Hr, Hs, Hne.
  rewrite elements_drop. unfold elements at 1. rewrite E, filter_cons, decide_True by done.
  rewrite fmap_cons. f_equal. fold (elements rest). destruct rest as [|d rest]; subst ps; [done|].
  rewrite (Hs d rest eq_refl). by rewrite elements_slash.
Qed.

Lemma drop_slashes_length path : (length (drop_slashes path) <= length path)%nat.
Proof. induction path as [|c path IH]; cbn; [done|]. case_bool_decide; cbn; lia. Qed.

Lemma span_length path : length path = (length (span_elem path).1 + length (span_elem path).2)%nat.
Proof.
  induction path as [|c path IH]; cbn; [done|]. case_bool_decide; cbn; [done|].
  destruct (span_elem path). cbn in *. lia.
Qed.

(** It consumes at least one character. *)
Lemma skipelem_shorter path name rest : skipelem path = Some (name, rest) -> (length rest < length path)%nat.
Proof.
  unfold skipelem. pose proof (drop_slashes_length path). pose proof (drop_slashes_head path).
  destruct (drop_slashes path) as [|c p]; [done|].
  pose proof (span_length (c :: p)) as Hl. cbn [span_elem] in *.
  rewrite bool_decide_eq_false_2 in * by eauto. destruct (span_elem p) as [s r]. intros [= <- <-].
  cbn in *. pose proof (drop_slashes_length r). lia.
Qed.

(** What is left after the last element is the empty string. *)
Lemma skipelem_last path name rest :
  skipelem path = Some (name, rest) -> elements rest = [] <-> rest = [].
Proof.
  intros E. assert (exists r, rest = drop_slashes r) as [r ->].
  { unfold skipelem in E. destruct (drop_slashes path) as [|c p]; [done|]. destruct (span_elem _) as [s r].
    injection E as _ <-. by exists r. }
  pose proof (drop_slashes_head r) as Hh. destruct (drop_slashes r) as [|c p]; [done|].
  specialize (Hh c p eq_refl). split; [|done]. intros He. pose proof (skipelem_elements (c :: p)) as Hs.
  unfold skipelem in Hs. cbn [drop_slashes] in Hs. rewrite bool_decide_eq_false_2 in Hs by done.
  destruct (span_elem (c :: p)). by rewrite He in Hs.
Qed.

(** ** Directories *)

(** Entry [j] of a directory, and all of them. *)
Definition dirent_at (V : Z -> block) (ip : inode) (j : nat) : dirent :=
  decode_dirent (window (fbyte V ip) (dirent_size * Z.of_nat j) dirent_size).

Definition entries (V : Z -> block) (ip : inode) : list dirent :=
  dirent_at V ip <$> seq 0 (Z.to_nat (i_size ip / dirent_size)).

Definition matches (name : list byte) (e : dirent) : bool :=
  negb (de_inum e =? 0) && (namecmp name (de_name e) =? 0).

(** The first entry with the name: its inode number and its offset. *)
Fixpoint dir_find (name : list byte) (es : list dirent) (off : Z) : option (Z * Z) :=
  match es with
  | [] => None
  | e :: es => if matches name e then Some (de_inum e, off) else dir_find name es (off + dirent_size)
  end.

Definition dir_lookup (V : Z -> block) (ip : inode) (name : list byte) : option (Z * Z) :=
  dir_find name (entries V ip) 0.

Lemma dir_find_in name es : forall off n o,
  dir_find name es off = Some (n, o) -> exists e, e ∈ es /\ de_inum e = n /\ n <> 0.
Proof.
  induction es as [|e es IH]; intros off n o E; cbn in E; [done|].
  destruct (matches name e) eqn:Em.
  - injection E as <- <-. exists e. split; [by left|]. split; [done|]. unfold matches in Em. by bool_hyps.
  - destruct (IH _ _ _ E) as (e' & ? & ? & ?). exists e'. split; [by right|done].
Qed.

(** Everything but memory, the processes, the disk, the log and the caches is
    as it was. *)
Definition cfr (k k' : kstate) : Prop := bfr (ks_inodes (inodes k') k) k'.

Lemma cfr_refl k : cfr k k.
Proof. by destruct k. Qed.

Lemma cfr_trans k1 k2 k3 : cfr k1 k2 -> cfr k2 k3 -> cfr k1 k3.
Proof. intros E1 E2. unfold cfr, bfr in *. rewrite E1 in E2. exact E2. Qed.

Lemma ifr_cfr k k' : ifr k k' -> cfr k k'.
Proof. done. Qed.

Lemma bfr_cfr k k' : bfr k k' -> cfr k k'.
Proof. apply bfr_ifr. Qed.

Section Dir.
Context `{Wakeups} (start nino : Z) (P : kstate -> (Z -> block) -> Prop)
  (Hd : kstate -> (Z -> block) -> nat -> Z -> Prop) `{!Readable start P Hd}.

Abbreviation view := (view nino P).

(** A directory: a file of whole entries. *)
Record dir_ok (V : Z -> block) (ip : inode) : Prop := {
  do_file : file_ok start V ip;
  do_type : i_type ip = T_DIR;
  do_size : i_size ip mod dirent_size = 0
}.

Lemma view_ffr k k' V L : view k V L -> ffr k k' -> P k' V -> view k' V L.
Proof.
  intros [H1 H2 H3] Fr Hp. split; [done| |by rewrite (ffr_inodes _ _ Fr)].
  unfold ffr in Fr. by rewrite Fr.
Qed.

Lemma read_dirent_spec k V L dp ip j msg :
  view k V L -> inodes k !! dp = Some ip -> dir_ok V ip ->
  (dirent_size * Z.of_nat j < i_size ip) ->
  wp (read_dirent dp (dirent_size * Z.of_nat j) msg) k (fun e k' =>
    e = dirent_at V ip j /\ bfr k k' /\ view k' V L).
Proof.
  intros Vw Ei [F T S] Hj. pose proof (vw_disk _ _ _ _ _ Vw) as Hp. change dirent_size with 16 in *.
  unfold read_dirent. apply wp_bind.
  wp_use (readi_local start P Hd k V dp ip (16 * Z.of_nat j) 16); try done; try lia.
  rewrite Z.min_l by (Z.to_euclidean_division_equations; lia). intros r k' (-> & Fr & Hp'). cbn [fst snd].
  change (negb (16 =? dirent_size)) with false. cbn. apply wp_ret.
  split; [done|]. split; [done|]. apply (view_ffr k); [done|by apply bfr_ffr|done].
Qed.

Lemma entries_split V ip j :
  dirent_size * Z.of_nat j < i_size ip -> i_size ip mod dirent_size = 0 ->
  drop j (entries V ip) = dirent_at V ip j :: drop (S j) (entries V ip).
Proof.
  intros Hj Hm. change dirent_size with 16 in *. unfold entries.
  apply drop_S. rewrite list_lookup_fmap, lookup_seq_lt; [done|].
  change dirent_size with 16. Z.to_euclidean_division_equations. lia.
Qed.

Lemma entries_end V ip j :
  i_size ip <= dirent_size * Z.of_nat j -> drop j (entries V ip) = [].
Proof.
  intros Hj. apply drop_ge. unfold entries. rewrite length_fmap, length_seq. change dirent_size with 16 in *.
  Z.to_euclidean_division_equations. lia.
Qed.

(** What [dirlookup] promises, for the entry found on the disk. *)
Definition looked_up (k : kstate) (V : Z -> block) (L : gset nat) (o : option (Z * Z))
    (r : option (nat * Z)) (k' : kstate) : Prop :=
  view k' V L /\ cfr k k' /\
  match o with
  | None => r = None /\ inodes k' = inodes k
  | Some (n, off) => exists i x, r = Some (i, off) /\ inodes k' !! i = Some x /\ 0 < i_ref x /\
      i_inum x = n /\ (forall m, refs (inodes k') m = refs (inodes k) m + one n m) /\
      moved i 1 (inodes k) (inodes k')
  end.

Lemma dirlookup_loop_spec V L dp ip name fuel : forall k j,
  view k V L -> inodes k !! dp = Some ip -> dir_ok V ip -> (0 < nfree (inodes k))%nat ->
  (forall n off, dir_lookup V ip name = Some (n, off) -> 1 <= n < nino /\ refs (inodes k) n < 2 ^ 31 - 1) ->
  dir_lookup V ip name = dir_find name (drop j (entries V ip)) (dirent_size * Z.of_nat j) ->
  i_size ip <= dirent_size * Z.of_nat (j + fuel) ->
  wp (dirlookup_loop dp name (dirent_size * Z.of_nat j) fuel) k (looked_up k V L (dir_lookup V ip name)).
Proof.
  induction fuel as [|fuel IH]; intros k j Vw Ei D Hroom Hn El Hf; cbn [dirlookup_loop].
  all: apply wp_bind, (wp_inoget k dp ip); [done|].
  all: destruct (Z.ltb_spec (dirent_size * Z.of_nat j) (i_size ip)) as [Hlt|Hge];
    [|apply wp_ret; rewrite entries_end in El by done; rewrite El; cbn; split; [done|]; split; [apply cfr_refl|done]].
  { rewrite Nat.add_0_r in Hf. lia. }
  rewrite (entries_split V ip j) in El by (done || apply D). cbn [dir_find] in El.
  apply wp_bind. wp_use (read_dirent_spec k V L dp ip j "dirlink read"); [done..|].
  intros e k1 (-> & Fr & V1). pose proof (bfr_inodes _ _ Fr) as E1. set (e := dirent_at V ip j) in *.
  assert (Next : dir_lookup V ip name = dir_find name (drop (S j) (entries V ip)) (dirent_size * Z.of_nat (S j)) ->
    wp (dirlookup_loop dp name (dirent_size * Z.of_nat j + dirent_size) fuel) k1
      (looked_up k V L (dir_lookup V ip name))).
  { intros El'. replace (dirent_size * Z.of_nat j + dirent_size) with (dirent_size * Z.of_nat (S j))
      by (change dirent_size with 16; lia).
    wp_use (IH k1 (S j)); try done; try (by rewrite E1); [by rewrite Nat.add_succ_r in Hf|].
    intros r k' (V' & Fr' & Hr). split; [done|]. split; [eapply cfr_trans; [by apply bfr_cfr|done]|].
    rewrite E1 in Hr. done. }
  unfold matches in El. replace (dirent_size * Z.of_nat j + dirent_size) with (dirent_size * Z.of_nat (S j)) in El
    by (change dirent_size with 16; lia).
  destruct (Z.eqb_spec (de_inum e) 0) as [E0|E0]; [by apply Next|].
  destruct (Z.eqb_spec (namecmp name (de_name e)) 0) as [En|En]; [|by apply Next]. cbn in El.
  clear Next. destruct (Hn _ _ El) as [Hr1 Hr2].
  apply wp_bind, (wp_inoget k1 dp ip); [by rewrite E1|]. rewrite (fo_dev _ _ _ (do_file _ _ D)).
  apply wp_bind. wp_use (iget_spec start nino P Hd k1 V L (de_inum e) V1); rewrite ?E1; [done|done|by left|].
  intros i k2 (V2 & Fr2 & (x & Ex & Hx & Exn) & R2 & M2). apply wp_ret. rewrite El. split; [done|]. split.
  - eapply cfr_trans; [by apply bfr_cfr|by apply ifr_cfr].
  - by exists i, x.
Qed.

Lemma dirlookup_spec k V L dp ip name :
  view k V L -> inodes k !! dp = Some ip -> dir_ok V ip -> (0 < nfree (inodes k))%nat ->
  (forall n off, dir_lookup V ip name = Some (n, off) -> 1 <= n < nino /\ refs (inodes k) n < 2 ^ 31 - 1) ->
  wp (dirlookup dp name) k (looked_up k V L (dir_lookup V ip name)).
Proof.
  intros Vw Ei D Hroom Hn. pose proof (fo_size _ _ _ (do_file _ _ D)) as Hs. unfold dirlookup.
  apply wp_bind, (wp_inoget k dp ip); [done|]. rewrite (do_type _ _ D). cbn.
  apply (dirlookup_loop_spec V L dp ip name _ k 0); try done.
  change dirent_size with 16. Z.to_euclidean_division_equations. lia.
Qed.

(** ** Paths *)

(** Inode [n] of the disk, as it would be in memory. *)
Definition dino (V : Z -> block) (n : Z) : inode := load_inode (dnode V n) (Inode 1 n 1 0 0 0 0 0 0 []).

(** A file system in which every directory is well formed and names only inodes
    that are in use and linked. *)
Record tree (V : Z -> block) : Prop := {
  tr_blocks : forall n, 1 <= n < nino -> 0 <= IBLOCK n < start;
  tr_dir : forall n, 1 <= n < nino -> di_type (dnode V n) = T_DIR -> dir_ok V (dino V n);
  tr_entry : forall n e, 1 <= n < nino -> di_type (dnode V n) = T_DIR -> e ∈ entries V (dino V n) ->
    de_inum e <> 0 -> 1 <= de_inum e < nino /\ di_type (dnode V (de_inum e)) <> 0 /\
    di_nlink (dnode V (de_inum e)) <> 0
}.

(** The walk along the elements of a path from inode [c]: the inode at the end, or
    the one before the last element, with that element. *)
Fixpoint walk (V : Z -> block) (parent : bool) (c : Z) (es : list (list byte)) : option (Z * list byte) :=
  match es with
  | [] => if parent then None else Some (c, [])
  | e :: es =>
      if negb (di_type (dnode V c) =? T_DIR) then None
      else if parent && bool_decide (es = []) then Some (c, e)
      else match dir_lookup V (dino V c) e with
           | None => None
           | Some (n, _) => walk V parent n es
           end
  end.

Lemma fbyte_addrs V x y : i_addrs x = i_addrs y -> fbyte V x = fbyte V y.
Proof. intros E. unfold fbyte, blk, addr. by rewrite E. Qed.

(** A slot that holds inode [n] of the disk. *)
Lemma slot_dir V n y :
  i_dev y = 1 -> to_dinode y = dnode V n ->
  i_type y = di_type (dnode V n) /\ (dir_ok V (dino V n) -> dir_ok V y) /\
  forall name, dir_lookup V y name = dir_lookup V (dino V n) name.
Proof.
  intros Ed E. unfold dino. rewrite <- E. destruct y as [dv nm rf fl ty mj mn nl sz ad]. cbn in Ed. subst dv.
  split; [done|]. split.
  - intros [[F1 F2 F3 F4 F5 F6] T S]. split; [|done|done]. by split.
  - intros name. unfold dir_lookup, entries, dirent_at. cbn [i_size load_inode to_dinode di_size].
    by rewrite (fbyte_addrs V (Inode 1 nm rf fl ty mj mn nl sz ad) (load_inode (DInode ty mj mn nl sz ad)
      (Inode 1 n 1 0 0 0 0 0 0 []))).
Qed.

Section Namex.
Context (V : Z -> block) (R : Z -> Z).
Hypothesis (HT : tree V).
Hypothesis (HR : forall m, 0 <= R m < 2 ^ 31 - 2).
Hypothesis (Hroom : forall L l c, icache nino V L l -> (forall m, refs l m <= R m + one c m) -> (0 < nfree l)%nat).

(** The result of a walk: on success one more reference, to the inode found; else
    the references are [R]. *)
Definition resolved (k : kstate) (w : option (Z * list byte)) (r : option (nat * list byte)) (k' : kstate) : Prop :=
  view k' V ∅ /\ cfr k k' /\
  match w with
  | None => r = None /\ forall m, refs (inodes k') m = R m
  | Some (n, name) => exists i x, r = Some (i, name) /\ inodes k' !! i = Some x /\ 0 < i_ref x /\
      i_inum x = n /\ forall m, refs (inodes k') m = R m + one n m
  end.

(** The loop holds a reference to inode [c], in slot [ip]. *)
Record at_inode (k : kstate) (ip : nat) (x : inode) (c : Z) : Prop := {
  ai_view : view k V ∅;
  ai_slot : inodes k !! ip = Some x;
  ai_ref : 0 < i_ref x;
  ai_inum : i_inum x = c;
  ai_type : di_type (dnode V c) <> 0;
  ai_keep : di_nlink (dnode V c) <> 0 \/ 0 < R c;
  ai_refs : forall m, refs (inodes k) m = R m + one c m
}.

Lemma one_same c : one c c = 1.
Proof. unfold one. by rewrite Z.eqb_refl. Qed.

Lemma one_range c m : 0 <= one c m <= 1.
Proof. unfold one. destruct (_ =? _); lia. Qed.

(** Giving the reference up. *)
Lemma namex_put k ip y L c (Q : option (nat * list byte) -> kstate -> Prop) k0 :
  view k V L -> L ∖ {[ip]} = ∅ -> inodes k !! ip = Some y -> ip ∈ L -> i_inum y = c ->
  (forall m, refs (inodes k) m = R m + one c m) -> di_nlink (dnode V c) <> 0 \/ 0 < R c -> cfr k0 k ->
  (forall k', resolved k0 None None k' -> Q None k') ->
  wp (iunlockput ip ;;; ret None) k Q.
Proof.
  intros Vw HL Ey HiL En Hr Hk Fr HQ. pose proof (vw_table _ _ _ _ _ Vw) as I.
  destruct (ic_locked _ _ _ _ I ip HiL) as (y' & E' & Hy & _). rewrite Ey in E'. injection E' as <-.
  pose proof (refs_live I ip y Ey Hy) as Hry. rewrite Hr, En, one_same in Hry. pose proof (HR c).
  apply wp_bind. wp_use (iunlockput_spec start nino P Hd k V L ip y Vw Ey HiL); [lia|rewrite En; lia|].
  intros [] k' (V' & Fr' & Hr' & _). apply wp_ret, HQ. rewrite HL in V'. split; [done|].
  split; [eapply cfr_trans; [done|by apply ifr_cfr]|]. split; [done|]. intros m. rewrite Hr', Hr, En. lia.
Qed.

(** The path is used up. *)
Lemma namex_end (parent : bool) k ip x c :
  at_inode k ip x c ->
  wp (if parent then iput ip ;;; ret None else ret (Some (ip, []))) k (resolved k (walk V parent c [])).
Proof.
  intros [Vw Ex Hx En Ht Hk Hr]. pose proof (vw_table _ _ _ _ _ Vw) as I. pose proof (HR c) as HRc.
  pose proof (refs_live I ip x Ex Hx) as Hrx. rewrite Hr, En, one_same in Hrx.
  destruct parent; cbn [walk].
  - apply wp_bind. wp_use (iput_spec start nino P Hd k V ∅ ip x Vw Ex); [lia|set_solver|rewrite En; lia|].
    intros [] k' (V' & F' & R' & _). apply wp_ret. split; [done|]. split; [by apply ifr_cfr|].
    split; [done|]. intros m. rewrite R', Hr, En. lia.
  - apply wp_ret. split; [done|]. split; [apply cfr_refl|]. by exists ip, x.
Qed.

(** From the locked directory [c], in slot [ip], to the inode [n] in slot [nx]. *)
Lemma namex_next k ip y nx z c n :
  view k V {[ip]} -> inodes k !! ip = Some y -> i_inum y = c -> inodes k !! nx = Some z -> 0 < i_ref z ->
  i_inum z = n -> (forall m, refs (inodes k) m = R m + one c m + one n m) ->
  di_nlink (dnode V c) <> 0 \/ 0 < R c -> di_type (dnode V n) <> 0 -> di_nlink (dnode V n) <> 0 ->
  wp (iunlockput ip) k (fun _ k' => cfr k k' /\ exists z', at_inode k' nx z' n).
Proof.
  intros Vw Ey En Ez Hz Enz Hr Hk Ht Hl. pose proof (vw_table _ _ _ _ _ Vw) as I.
  destruct (ic_locked _ _ _ _ I ip ltac:(set_solver)) as (y' & E' & Hy & _). rewrite Ey in E'. injection E' as <-.
  pose proof (refs_live I ip y Ey Hy) as Hry. rewrite Hr, En, one_same in Hry.
  pose proof (refs_live I nx z Ez Hz) as Hrz. rewrite Hr, Enz, one_same in Hrz.
  pose proof (HR c). pose proof (HR n). pose proof (one_range n c). pose proof (one_range c n).
  wp_use (iunlockput_spec start nino P Hd k V {[ip]} ip y Vw Ey); [set_solver|lia|rewrite En; lia|].
  intros [] k' (V' & F' & R' & M'). split; [by apply ifr_cfr|].
  destruct (M' nx z Ez Hz) as (z' & Ez' & E1 & E2). exists z'.
  replace ({[ip]} ∖ {[ip]}) with (∅ : gset nat) in V' by set_solver.
  split; try done; [|congruence|by left|intros m; rewrite R', Hr, En; lia].
  destruct (decide (nx = ip)) as [->|]; [|lia]. rewrite Ez in Ey. injection Ey as ->.
  rewrite En in Enz. subst. rewrite one_same in *. lia.
Qed.

Lemma namex_loop_spec (parent : bool) fuel : forall path k ip x c,
  (length path <= fuel)%nat -> 1 <= c < nino -> at_inode k ip x c ->
  wp (namex_loop path parent ip fuel) k (resolved k (walk V parent c (elements path))).
Proof.
  induction fuel as [|fuel IH]; intros path k ip x c Hf Hc A; cbn [namex_loop].
  all: pose proof (skipelem_elements path) as He; pose proof (skipelem_shorter path) as Hsh.
  all: pose proof (skipelem_last path) as Hlast.
  all: destruct (skipelem path) as [[name rest]|]; [|rewrite He; by apply (namex_end parent k ip x)].
  { specialize (Hsh _ _ eq_refl). lia. }
  specialize (Hsh _ _ eq_refl). specialize (Hlast _ _ eq_refl). rewrite He. cbn [walk].
  pose proof A as [Vw Ex Hx En Ht Hk Hr]. pose proof (HR c) as HRc.
  apply wp_bind. wp_use (ilock_spec start nino P Hd k V ∅ ip x (tr_blocks _ HT) Vw Ex Hx); [set_solver|by rewrite En|].
  intros [] k1 (V1 & F1 & (y & Ey & Ery & Edy & Eny & Eyd) & R1 & M1). rewrite En in Eyd.
  destruct (slot_dir V c y Edy Eyd) as (Ety & Hdir & Hlook). rewrite right_id_L in V1 by apply _.
  assert (Hr1 : forall m, refs (inodes k1) m = R m + one c m) by (intros m; by rewrite R1).
  assert (Fr1 : cfr k k1) by (by apply ifr_cfr).
  apply wp_bind, (wp_inoget k1 ip y); [done|]. rewrite Ety.
  destruct (Z.eqb_spec (di_type (dnode V c)) T_DIR) as [Ed|Ed]; cbn [negb].
  2: { apply (namex_put k1 ip y {[ip]} c _ k); try done; [set_solver|set_solver|congruence]. }
  rewrite (bool_decide_ext (elements rest = []) (rest = [])) by done.
  destruct (parent && bool_decide (rest = [])).
  { apply wp_bind. wp_use (iunlock_spec start nino P Hd k1 V {[ip]} ip y V1 Ey); [set_solver|].
    intros [] k2 (V2 & F2 & (z & Ez & Ez1 & Ez2) & R2 & _). apply wp_ret.
    replace ({[ip]} ∖ {[ip]}) with (∅ : gset nat) in V2 by set_solver. split; [done|].
    split; [eapply cfr_trans; [done|by apply ifr_cfr]|]. exists ip, z.
    split_and!; [done|done|lia|congruence|]. intros m. by rewrite R2. }
  assert (Hin : forall n off, dir_lookup V (dino V c) name = Some (n, off) ->
    1 <= n < nino /\ di_type (dnode V n) <> 0 /\ di_nlink (dnode V n) <> 0).
  { intros n off (e & Hin & <- & Hne)%dir_find_in. by apply (tr_entry _ HT c). }
  apply wp_bind. wp_use (dirlookup_spec k1 V {[ip]} ip y name V1 Ey).
  { by apply Hdir, HT. }
  { apply (Hroom {[ip]} _ c (vw_table _ _ _ _ _ V1)). intros m. by rewrite Hr1. }
  { intros n off El. rewrite Hlook in El. split; [by eapply Hin|].
    rewrite Hr1. pose proof (HR n). pose proof (one_range c n). lia. }
  rewrite Hlook. intros r k2 (V2 & F2 & Hres).
  assert (Fr2 : cfr k k2) by (by eapply cfr_trans).
  destruct (dir_lookup V (dino V c) name) as [[n off]|].
  - destruct Hres as (i & z & -> & Ez & Hz & Enz & R2 & M2). destruct (Hin n off eq_refl) as (Hn & Htn & Hln).
    destruct (M2 ip y Ey ltac:(lia)) as (y2 & Ey2 & Ey2n & _).
    apply wp_bind. wp_use (namex_next k2 ip y2 i z c n); try done; [congruence|intros m; rewrite R2, Hr1; lia|].
    intros [] k3 (F3 & z' & A'). wp_use (IH rest k3 i z' n); [lia|done..|].
    intros r k4 (V4 & F4 & H4). split; [done|]. split; [|done]. eapply cfr_trans; [done|]. by eapply cfr_trans.
  - destruct Hres as [-> E2]. apply (namex_put k2 ip y {[ip]} c _ k); rewrite ?E2; try done; [set_solver|set_solver|congruence].
Qed.

End Namex.
End Dir.
