(* ===== verification/DirLink.v ===== *)
(** * Adding a directory entry

    [dirlink] inside a transaction: where the entry goes, and what the directory
    holds afterwards. *)

From S2P Require Import Prelude Layout Mem Kalloc Vm State Sched Bytes Bio BioFacts Log LogFacts.
From S2P Require Import Inode Console Fs Codec FsFacts FileFacts WriteFacts IcacheFacts DirFacts.

Open Scope Z_scope.

(** ** Lists of entries *)

(** The first unused entry, or the end. *)
Fixpoint dir_slot (es : list dirent) : nat :=
  match es with
  | [] => 0
  | e :: es => if de_inum e =? 0 then 0 else S (dir_slot es)
  end.

(** The entries with [e] in place [j]. *)
Definition put_entry (j : nat) (e : dirent) (es : list dirent) : list dirent :=
  take j es ++ e :: drop (S j) es.

Lemma dir_slot_le es : (dir_slot es <= length es)%nat.
Proof. induction es as [|e es IH]; cbn; [done|]. destruct (_ =? _); lia. Qed.

Lemma put_find_other key e es : forall off,
  matches key e = false -> dir_find key (put_entry (dir_slot es) e es) off = dir_find key es off.
Proof.
  unfold put_entry. induction es as [|x es IH]; intros off Hm; cbn.
  - by rewrite Hm.
  - destruct (Z.eqb_spec (de_inum x) 0) as [E|E]; cbn.
    + rewrite Hm, drop_0. unfold matches at 1. by rewrite E.
    + destruct (matches key x); [done|]. by apply IH.
Qed.

Lemma put_find_same key e es : forall off,
  matches key e = true -> dir_find key es off = None ->
  dir_find key (put_entry (dir_slot es) e es) off =
  Some (de_inum e, off + dirent_size * Z.of_nat (dir_slot es)).
Proof.
  unfold put_entry. change dirent_size with 16. induction es as [|x es IH]; intros off Hm Hn; cbn in *.
  - rewrite Hm. do 2 f_equal. lia.
  - destruct (Z.eqb_spec (de_inum x) 0) as [E|E]; cbn.
    + rewrite Hm. do 2 f_equal. lia.
    + destruct (matches key x); [done|]. change dirent_size with 16 in *. rewrite IH by done. do 2 f_equal. lia.
Qed.

Lemma put_entry_lookup j e es i :
  (j <= length es)%nat ->
  put_entry j e es !! i = if decide (i = j) then Some e else if decide (i < length es)%nat then es !! i else None.
Proof.
  intros Hj. unfold put_entry. destruct (decide (i = j)) as [->|Hne].
  - rewrite lookup_app_r by (rewrite length_take; lia). rewrite length_take.
    by replace (j - j `min` length es)%nat with 0%nat by lia.
  - destruct (decide (i < j)%nat).
    + rewrite lookup_app_l by (rewrite length_take; lia). rewrite lookup_take_lt by lia.
      by rewrite decide_True by lia.
    + rewrite lookup_app_r by (rewrite length_take; lia). rewrite length_take.
      replace (i - j `min` length es)%nat with (S (i - j - 1)) by lia.
      rewrite lookup_cons. rewrite lookup_drop.
      replace (S j + (i - j - 1))%nat with i by lia. case_decide; [done|]. apply lookup_ge_None_2. lia.
Qed.

Section Link.
Context `{Wakeups} (start lsize nino : Z) (old : Z -> block) (d0 : disk).

Abbreviation txs T := (fun k V => tx start lsize old d0 k V T).
Abbreviation viewT T := (view nino (txs T)).

Lemma dirlink_loop_spec V T L dp ip fuel : forall k j,
  viewT T k V L -> inodes k !! dp = Some ip -> dir_ok start V ip ->
  (j <= length (entries V ip))%nat -> i_size ip <= dirent_size * Z.of_nat (j + fuel) ->
  wp (dirlink_loop dp (dirent_size * Z.of_nat j) fuel) k (fun off k' =>
    off = dirent_size * Z.of_nat (j + dir_slot (drop j (entries V ip))) /\ bfr k k' /\ viewT T k' V L).
Proof.
  induction fuel as [|fuel IH]; intros k j Vw Ei D Hj Hf; cbn [dirlink_loop].
  all: apply wp_bind, (wp_inoget k dp ip); [done|].
  all: destruct (Z.ltb_spec (dirent_size * Z.of_nat j) (i_size ip)) as [Hlt|Hge];
    [|apply wp_ret; rewrite entries_end by done; cbn; rewrite Nat.add_0_r; split; [done|]; split; [apply bfr_refl|done]].
  { rewrite Nat.add_0_r in Hf. lia. }
  rewrite (entries_split V ip j) by (done || apply D). cbn [dir_slot].
  apply wp_bind. wp_use (read_dirent_spec start nino (txs T) _ k V L dp ip j "dirlink read"); [done..|].
  intros e k1 (-> & Fr & V1). destruct (Z.eqb_spec (de_inum (dirent_at V ip j)) 0) as [E|E].
  { apply wp_ret. by rewrite Nat.add_0_r. }
  replace (dirent_size * Z.of_nat j + dirent_size) with (dirent_size * Z.of_nat (S j))
    by (change dirent_size with 16; lia).
  wp_use (IH k1 (S j)); try done; [by rewrite (bfr_inodes _ _ Fr)| |by rewrite Nat.add_succ_r in Hf|].
  { pose proof (do_size _ _ _ D). unfold entries. rewrite length_fmap, length_seq. change dirent_size with 16 in *.
    Z.to_euclidean_division_equations. lia. }
  intros off k2 (-> & Fr2 & V2). split; [f_equal; lia|]. split; [by eapply bfr_trans|done].
Qed.

(** The bytes of an entry, as a function of the offset in the file. *)
Definition entry_bytes (o : Z) (name : list byte) (inum : Z) (t : Z) : byte :=
  nth (Z.to_nat (t - o)) (encode_dirent name inum) x00.

Lemma entry_window o name inum tot m :
  0 <= tot -> 0 <= m -> tot + m <= 16 ->
  slice tot m (encode_dirent name inum) = window (entry_bytes o name inum) (o + tot) m.
Proof.
  intros Ht Hm Hs. pose proof (encode_dirent_length name inum) as Hl. apply list_eq. intros j.
  unfold slice. rewrite lookup_take. case_decide as Hj.
  - rewrite lookup_drop, window_lookup by done. unfold entry_bytes. rewrite nth_lookup.
    replace (Z.to_nat (o + tot + Z.of_nat j - o)) with (Z.to_nat tot + j)%nat by lia.
    destruct (lookup_lt_is_Some_2 (encode_dirent name inum) (Z.to_nat tot + j)) as [b ->]; [lia|done].
  - rewrite lookup_ge_None_2; [done|]. rewrite window_length. lia.
Qed.

Lemma entry_source o name inum k tot m :
  0 <= tot -> 0 <= m -> tot + m <= 16 ->
  from_local (encode_dirent name inum) tot m k = Ok (window (entry_bytes o name inum) (o + tot) m) k.
Proof. intros Ht Hm Hs. unfold from_local. by rewrite (entry_window o). Qed.

(** The directory after the entry was written in place [j]. *)
Lemma entries_written V ip V' ip' name inum j :
  dir_ok start V ip -> (j <= length (entries V ip))%nat ->
  let o := dirent_size * Z.of_nat j in
  file_written start nino (entry_bytes o name inum) o dirent_size V ip V' ip' ->
  entries V' ip' = put_entry j (decode_dirent (encode_dirent name inum)) (entries V ip) /\
  i_size ip' mod dirent_size = 0.
Proof.
  intros D Hj o W. pose proof (fw_size _ _ _ _ _ _ _ _ _ W) as Es. pose proof (do_size _ _ _ D) as Hm.
  pose proof (fw_bytes _ _ _ _ _ _ _ _ _ W) as Hb.
  assert (Hlen : length (entries V ip) = Z.to_nat (i_size ip / dirent_size))
    by (unfold entries; by rewrite length_fmap, length_seq).
  pose proof (fo_size _ _ _ (do_file _ _ _ D)) as Hs0. rewrite Hlen in Hj. unfold o in *.
  change dirent_size with 16 in *. split; [|rewrite Es; Z.to_euclidean_division_equations; lia].
  apply list_eq. intros t. rewrite put_entry_lookup by (rewrite Hlen; lia). rewrite Hlen.
  unfold entries at 1. rewrite list_lookup_fmap. change dirent_size with 16.
  destruct (decide (t < Z.to_nat (i_size ip' / 16))%nat) as [Ht|Ht].
  2: { rewrite lookup_seq_ge by lia. rewrite Es in Ht. rewrite !decide_False; [done|..];
       Z.to_euclidean_division_equations; lia. }
  rewrite lookup_seq_lt by done. cbn [fmap option_fmap option_map Nat.add].
  assert (Ht' : 16 * Z.of_nat t + 16 <= i_size ip') by (Z.to_euclidean_division_equations; lia).
  case_decide as Htj.
  - f_equal. unfold dirent_at. f_equal. change dirent_size with 16. subst t.
    transitivity (window (entry_bytes (16 * Z.of_nat j) name inum) (16 * Z.of_nat j + 0) 16).
    + rewrite Z.add_0_r. apply list_eq. intros i. destruct (decide (i < 16)%nat) as [Hi|Hi].
      * rewrite !window_lookup by (change (Z.to_nat 16) with 16%nat; done). rewrite Hb by lia.
        rewrite (proj2 (Z.leb_le _ _)), (proj2 (Z.ltb_lt _ _)) by lia. done.
      * by rewrite !lookup_ge_None_2 by (rewrite window_length; change (Z.to_nat 16) with 16%nat; lia).
    + rewrite <- entry_window by lia. unfold slice. cbn [Z.to_nat drop].
      apply take_ge. rewrite encode_dirent_length. done.
  - rewrite decide_True by (rewrite Es in Ht; Z.to_euclidean_division_equations; lia).
    unfold entries. rewrite list_lookup_fmap, lookup_seq_lt
      by (rewrite Es in Ht; change dirent_size with 16; Z.to_euclidean_division_equations; lia).
    cbn [fmap option_fmap option_map Nat.add]. f_equal. unfold dirent_at. f_equal. change dirent_size with 16.
    apply list_eq. intros i. destruct (decide (i < 16)%nat) as [Hi|Hi].
    + rewrite !window_lookup by (change (Z.to_nat 16) with 16%nat; done). rewrite Hb by lia.
      destruct (Z.leb_spec (16 * Z.of_nat j) (16 * Z.of_nat t + Z.of_nat i)),
        (Z.ltb_spec (16 * Z.of_nat t + Z.of_nat i) (16 * Z.of_nat j + 16)); try done; lia.
    + by rewrite !lookup_ge_None_2 by (rewrite window_length; change (Z.to_nat 16) with 16%nat; lia).
Qed.

(** The table after the inode of one slot changed, in memory and on disk. *)
Lemma icache_written V V' L l i x y :
  icache nino V L l -> l !! i = Some x -> 0 < i_ref x ->
  i_ref y = i_ref x -> i_dev y = i_dev x -> i_inum y = i_inum x -> i_flags y = i_flags x ->
  to_dinode y = dnode V' (i_inum x) ->
  (forall m, 1 <= m < nino -> m <> i_inum x -> dnode V' m = dnode V m) ->
  icache nino V' L (<[i := y]> l) /\ forall m, refs (<[i := y]> l) m = refs l m.
Proof.
  intros I E Hx E1 E2 E3 E4 Hy Ho.
  assert (I' : icache nino V L (<[i := x]> l)) by (by rewrite list_insert_id).
  split; [|intros m; rewrite (refs_insert l i x) by done; unfold share; rewrite E1, E3; lia].
  pose proof (lookup_lt_Some _ _ _ E) as Hlt.
  assert (Hl : forall j z, <[i := y]> l !! j = Some z ->
    exists z', l !! j = Some z' /\ i_ref z' = i_ref z /\ i_dev z' = i_dev z /\ i_inum z' = i_inum z /\
      i_flags z' = i_flags z /\ (j = i /\ z = y \/ j <> i /\ z' = z)).
  { intros j z Hj. destruct (decide (j = i)) as [->|Hne].
    - rewrite list_lookup_insert_eq in Hj by done. injection Hj as <-. exists x. split_and!; auto.
    - rewrite list_lookup_insert_ne in Hj by done. exists z. split_and!; auto. }
  split.
  - rewrite length_insert. apply I.
  - intros j z (z' & Ez & <- & _)%Hl. by eapply I.
  - intros j1 j2 z1 z2 (z1' & A1 & <- & _ & <- & _)%Hl (z2' & A2 & <- & _ & <- & _)%Hl. by apply I.
  - intros j z (z' & Ez & <- & <- & <- & _)%Hl. by eapply I.
  - intros j z (z' & Ez & <- & _ & _ & <- & _)%Hl. by apply I.
  - intros j z (z' & Ez & Er & _ & En & Ef & [[-> ->]|[Hne ->]])%Hl Hz Hv; [by rewrite E3|].
    rewrite Ho; [by apply (ic_valid _ _ _ _ I j z)|by eapply I|].
    intros Hn. destruct Hne. by apply (ic_uniq _ _ _ _ I j i z x).
  - intros j Hj. destruct (ic_locked _ _ _ _ I j Hj) as (z & Ez & Hz & Hv).
    destruct (decide (j = i)) as [->|Hne].
    + rewrite E in Ez. injection Ez as <-. exists y. rewrite list_lookup_insert_eq by done. by rewrite E1, E4.
    + exists z. by rewrite list_lookup_insert_ne.
Qed.

Context (k : kstate) (V : Z -> block) (T : gset Z) (L : gset nat) (dp : nat) (ip : inode).

(** The directory is locked and may grow by an entry; there is room on the disk,
    in the log and in the inode cache, and the entry that a name finds is an
    inode in use.  A directory that is about to grow beyond its direct blocks
    takes two blocks of the disk. *)
Record can_link : Prop := {
  cl_view : viewT T k V L;
  cl_slot : inodes k !! dp = Some ip;
  cl_locked : dp ∈ L;
  cl_dir : dir_ok start V ip;
  cl_fs : fs_ok start lsize nino V;
  cl_sound : sound_file start lsize nino V ip;
  cl_fits : dinode_fits (to_dinode ip);
  cl_grow : i_size ip + dirent_size <= MAXFILE * BSIZE;
  cl_free : ((if (i_size ip <? NDIRECT * BSIZE)%Z then 1 else 2) <= size (free_blocks start lsize nino V))%nat;
  cl_log : Z.of_nat (size (logset nino true ip ∪ T)) + 1 <= lsize - 2;
  cl_room : (0 < nfree (inodes k))%nat;
  cl_entry : forall e, e ∈ entries V ip -> de_inum e <> 0 -> 1 <= de_inum e < nino /\
    di_nlink (dnode V (de_inum e)) <> 0 /\ refs (inodes k) (de_inum e) < 2 ^ 31 - 1
}.

(** A write of one entry stays in one block. *)
Lemma entry_one_block j : blocks_left (dirent_size * Z.of_nat j) dirent_size 0 = 1.
Proof.
  unfold blocks_left. change dirent_size with 16. change BSIZE with 512. cbn [Z.ltb Z.compare].
  Z.to_euclidean_division_equations. lia.
Qed.

(** The blocks an entry needs. *)
Lemma entry_missing W jp o j : o = dirent_size * Z.of_nat j ->
  (missing o dirent_size W jp 0 <= if (o <? NDIRECT * BSIZE)%Z then 1 else 2)%nat.
Proof.
  intros Eo. unfold missing. pose proof (entry_one_block j) as Hone. rewrite <- Eo in Hone.
  assert (Hf : (length (filter (fun b => bcell W jp b = 0%Z) (seqZ ((o + 0) / BSIZE) (blocks_left o dirent_size 0))%Z) <= 1)%nat).
  { etransitivity; [apply length_filter|]. rewrite length_seqZ, Hone. done. }
  unfold reach. change (NDIRECT * BSIZE) with 6144. change dirent_size with 16 in *.
  destruct (Z.ltb_spec o 6144); [|match goal with |- context [if ?b then _ else _] => destruct b end; lia]. rewrite (proj2 (Z.ltb_ge 6144 (o + 16))) by lia. rewrite andb_false_r. cbn [andb]. lia.
Qed.

(** What [dirlink] returns for a name that is taken. *)
Lemma dirlink_taken name inum n off :
  can_link -> dir_lookup V ip name = Some (n, off) ->
  wp (dirlink dp name inum) k (fun r k' => r = -1 /\ viewT T k' V L /\ cfr k k' /\
    forall m, refs (inodes k') m = refs (inodes k) m).
Proof.
  intros [Vw Ei HL D F Sf Hfit Hgr Hfr Hlog Hroom He] El.
  assert (Hin : forall n off, dir_lookup V ip name = Some (n, off) -> 1 <= n < nino /\
    di_nlink (dnode V n) <> 0 /\ refs (inodes k) n < 2 ^ 31 - 1).
  { intros n' off' (e & Hin & <- & Hne)%dir_find_in. by apply He. }
  unfold dirlink. apply wp_bind. wp_use (dirlookup_spec start nino (txs T) _ k V L dp ip name Vw Ei D Hroom).
  { intros n' off' E. destruct (Hin n' off' E) as (? & ? & ?). done. }
  rewrite El. intros r k1 (V1 & F1 & i & x & -> & Ex & Hx & En & R1 & M1).
  destruct (Hin n off El) as (Hn & Hl & Hb). pose proof (vw_table _ _ _ _ _ V1) as I1.
  pose proof (refs_live I1 i x Ex Hx) as Hrx. rewrite R1, En, one_same in Hrx.
  apply wp_bind. wp_use (iput_spec start nino (txs T) _ k1 V L i x V1 Ex); [lia| |right; by rewrite En|].
  { intros Hi. destruct (ic_locked _ _ _ _ (vw_table _ _ _ _ _ Vw) i Hi) as (y & Ey & Hy & _).
    destruct (M1 i y Ey Hy) as (x' & Ex' & E1 & E2). rewrite Ex in Ex'. injection Ex' as <-.
    rewrite decide_True in E2 by done. lia. }
  intros [] k2 (V2 & F2 & R2 & _). apply wp_ret. split; [done|]. split; [done|].
  split; [eapply cfr_trans; [done|by apply ifr_cfr]|]. intros m. rewrite R2, R1, En. lia.
Qed.

(** The directory with a new entry: what it holds, and that nothing else changed. *)
Record linked (name : list byte) (inum : Z) (V' : Z -> block) (ip' : inode) : Prop := {
  lk_entries : entries V' ip' =
    put_entry (dir_slot (entries V ip)) (decode_dirent (encode_dirent name inum)) (entries V ip);
  lk_dir : dir_ok start V' ip';
  lk_fs : fs_ok start lsize nino V';
  lk_sound : sound_file start lsize nino V' ip';
  lk_dnode : dnode V' (i_inum ip) = to_dinode ip';
  lk_inodes : forall m, 1 <= m < nino -> m <> i_inum ip -> dnode V' m = dnode V m;
  lk_blocks : forall t, 0 <= t < start -> t <> bmblock nino -> t <> IBLOCK (i_inum ip) -> used nino V t = true ->
    (forall c, 0 <= c < NCELLS -> cell V ip c <> 0 -> cell V ip c <> t) -> V' t = V t
}.

Lemma dirlink_new name inum :
  can_link -> dir_lookup V ip name = None ->
  wp (dirlink dp name inum) k (fun r k' => r = 0 /\ cfr k k' /\ exists V' T' ip', viewT T' k' V' L /\
    inodes k' = <[dp := ip']> (inodes k) /\ linked name inum V' ip' /\
    forall m, refs (inodes k') m = refs (inodes k) m).
Proof.
  intros [Vw Ei HL D F Sf Hfit Hgr Hfr Hlog Hroom He] El. pose proof (vw_table _ _ _ _ _ Vw) as I.
  destruct (ic_locked _ _ _ _ I dp HL) as (ip0 & E0 & Hx & Hv). rewrite Ei in E0. injection E0 as <-.
  destruct (ic_dev _ _ _ _ I dp ip Ei Hx) as [_ Hn]. pose proof (ic_valid _ _ _ _ I dp ip Ei Hx Hv) as Edn.
  unfold dirlink. apply wp_bind. wp_use (dirlookup_spec start nino (txs T) _ k V L dp ip name Vw Ei D Hroom).
  { intros n off E. by rewrite El in E. }
  rewrite El. intros r k1 (V1 & F1 & -> & E1). apply wp_bind, (wp_inoget k1 dp ip); [by rewrite E1|].
  pose proof (fo_size _ _ _ (do_file _ _ _ D)) as Hs0.
  apply wp_bind. wp_use (dirlink_loop_spec V T L dp ip _ k1 0 V1); [by rewrite E1|done|lia| |].
  { change dirent_size with 16. Z.to_euclidean_division_equations. lia. }
  intros off k2 (-> & F2 & V2). rewrite drop_0, Nat.add_0_l. set (j := dir_slot (entries V ip)).
  set (o := dirent_size * Z.of_nat j). pose proof (dir_slot_le (entries V ip)) as Hj. fold j in Hj.
  assert (E2 : inodes k2 = inodes k) by (by rewrite (bfr_inodes _ _ F2)).
  assert (Ho : 0 <= o <= i_size ip).
  { unfold entries in Hj. rewrite length_fmap, length_seq in Hj. unfold o. pose proof (do_size _ _ _ D).
    change dirent_size with 16 in *. Z.to_euclidean_division_equations. lia. }
  pose proof (entry_one_block j) as Hone. fold o in Hone.
  apply wp_bind. wp_use (writei_spec start lsize nino old d0 dp (from_local (encode_dirent name inum))
    (entry_bytes o name inum) o dirent_size ltac:(lia) ltac:(done) ltac:(lia) (entry_source o name inum) k2 V (T ∖ {[0]}) ip).
  - split; [apply tx_zero, V2|set_solver|by rewrite E2|done|done].
  - lia.
  - lia.
  - done.
  - etrans; [apply (entry_missing V ip o j eq_refl)|]. etrans; [|exact Hfr].
    destruct (Z.ltb_spec (i_size ip) (NDIRECT * BSIZE)), (Z.ltb_spec o (NDIRECT * BSIZE)); lia.
  - assert (size (logset nino (reach o dirent_size) ip ∪ T ∖ {[0%Z]}) <= size (logset nino true ip ∪ T))%nat; [|lia].
    apply subseteq_size. unfold logset. clear. destruct (reach o dirent_size); set_solver.
  - intros r k3 (-> & V' & T' & ip' & F3 & I3 & [X3 _ Ei3 Fs3 Sf3] & W & _). rewrite Z.eqb_refl. cbn [negb].
    apply wp_ret. split; [done|]. rewrite E2 in I3. pose proof (fw_same _ _ _ _ _ _ _ _ _ W) as Esame.
    destruct (entries_written V ip V' ip' name inum j D Hj W) as [Ees Hmod].
    assert (Ednode : dnode V' (i_inum ip) = to_dinode ip') by (by apply (fw_inode _ _ _ _ _ _ _ _ _ W)).
    assert (Eoth : forall m, 1 <= m < nino -> m <> i_inum ip -> dnode V' m = dnode V m)
      by (intros m Hm; apply (fw_others _ _ _ _ _ _ _ _ _ W); lia).
    destruct (icache_written V V' L (inodes k) dp ip ip' I Ei Hx) as [I' R']; try (by rewrite Esame); [done|done|].
    split; [eapply cfr_trans; [done|]; eapply cfr_trans; [by apply bfr_cfr|by apply ifr_cfr]|].
    exists V', T', ip'. rewrite I3. split; [|split; [done|split; [|done]]].
    + split; [done| |by rewrite I3]. destruct V2 as [_ Hic _]. unfold ifr, bfr in F3. by rewrite F3.
    + split; try done; [|apply (fw_frame _ _ _ _ _ _ _ _ _ W)].
      split; [apply Sf3| |done]. rewrite Esame. apply D.
Qed.

End Link.
