(* ===== verification/DirProps.v ===== *)
(** * Theorems on directories and paths

    Path names resolve to the inode they denote on the disk, with the reference
    counts of the inode cache; directory entries are added where they are found
    again. *)

From S2P Require Import Prelude Layout Mem Kalloc Vm State Sched Bytes Bio BioFacts BioProps Log.
From S2P Require Import LogFacts LogProps Inode Console Fs Codec FsFacts FileFacts WriteFacts.
From S2P Require Import FsProps.
From S2P Require Import IcacheFacts DirFacts DirLink.

Open Scope Z_scope.

(** ** Paths *)

Section Paths.
Context `{Wakeups} (start nino : Z) (P : kstate -> (Z -> block) -> Prop)
  (Hd : kstate -> (Z -> block) -> nat -> Z -> Prop) `{!Readable start P Hd}.

(** Where the walk along [path] begins: at the root, or at the directory of the
    running process. *)
Definition begins_at (k : kstate) (V : Z -> block) (path : list byte) (c : Z) : Prop :=
  if bool_decide (hd x00 path = slash) then
    c = ROOTINO /\ 1 < nino /\ di_type (dnode V c) <> 0 /\ di_nlink (dnode V c) <> 0
  else exists me p w x, cur k = Some me /\ procs k !! me = Some p /\ p_cwd p = Some w /\
    inodes k !! w = Some x /\ 0 < i_ref x /\ i_inum x = c /\ di_type (dnode V c) <> 0.

(** No inode is locked, the directories of the disk are well formed, and the
    inode cache has two free slots. *)
Record can_resolve (k : kstate) (V : Z -> block) (path : list byte) (c : Z) : Prop := {
  cr_view : view nino P k V ∅;
  cr_tree : tree start nino V;
  cr_refs : forall m, refs (inodes k) m < 2 ^ 31 - 2;
  cr_room : (2 <= nfree (inodes k))%nat;
  cr_start : begins_at k V path c
}.

Lemma refs_nonneg V L l m : icache nino V L l -> 0 <= refs l m.
Proof.
  intros I. destruct (decide (0 < refs l m)); [lia|].
  assert (E : refs l m = 0); [|lia]. apply refs_zero. intros i x E.
  pose proof (share_nonneg I i x m E) as Hs. destruct (decide (share x m = 0)); [done|].
  unfold share in *. destruct (Z.eqb_spec (i_inum x) m) as [<-|]; [|lia].
  rewrite (refs_live I i x E) in *; lia.
Qed.

(** The state after the first reference is taken. *)
Lemma namex_start k V path c :
  can_resolve k V path c ->
  wp (if bool_decide (hd x00 path = slash) then iget ROOTDEV ROOTINO
      else let! me := myproc in let! p := pget me in let! cwd := deref (p_cwd p) in idup cwd) k
    (fun ip k' => cfr k k' /\ 1 <= c < nino /\ exists x, at_inode nino P V (refs (inodes k)) k' ip x c).
Proof.
  intros [Vw HT HR Hroom Hs]. unfold begins_at in Hs. pose proof (vw_table _ _ _ _ _ Vw) as I.
  case_bool_decide as Hp.
  - destruct Hs as (-> & Hn & Ht & Hl). change ROOTINO with 1 in *.
    wp_use (iget_spec start nino P Hd k V ∅ 1 Vw); [lia|specialize (HR 1); lia|left; lia|].
    intros i k' (V' & F' & (x & Ex & Hx & En) & R' & _). split; [by apply ifr_cfr|]. split; [lia|].
    exists x. split; try done. by left.
  - destruct Hs as (me & p & w & x & E1 & E2 & E3 & Ex & Hx & En & Ht).
    apply wp_bind, (wp_myproc me); [done|]. apply wp_bind, (wp_pget me p); [done|]. rewrite E3.
    apply wp_bind, wp_ret. pose proof (refs_live I w x Ex Hx) as Hrx. specialize (HR (i_inum x)) as Hb.
    wp_use (idup_spec start nino P Hd k V ∅ w x Vw Ex); [lia|].
    intros i k' (-> & V' & F' & E' & R'). split; [by apply ifr_cfr|].
    split; [rewrite <- En; apply (ic_dev _ _ _ _ I w x Ex Hx)|].
    exists (is_ref (i_ref x + 1) x). split; try done.
    + cbn. lia.
    + right. rewrite <- En, Hrx. done.
    + intros m. by rewrite R', En.
Qed.

Lemma namex_spec k V path parent c :
  can_resolve k V path c ->
  wp (namex path parent) k (fun r k' => view nino P k' V ∅ /\ cfr k k' /\
    match walk V parent c (elements path) with
    | None => r = None /\ forall m, refs (inodes k') m = refs (inodes k) m
    | Some (n, name) => exists i x, r = Some (i, name) /\ inodes k' !! i = Some x /\ 0 < i_ref x /\
        i_inum x = n /\ forall m, refs (inodes k') m = refs (inodes k) m + one n m
    end).
Proof.
  intros C. pose proof C as [Vw HT HR Hroom _]. pose proof (vw_table _ _ _ _ _ Vw) as I.
  unfold namex. apply wp_bind. wp_use (namex_start k V path c C).
  intros ip k1 (F1 & Hc & x & A).
  assert (Hfree : forall L l d, icache nino V L l -> (forall m, refs l m <= refs (inodes k) m + one d m) -> (0 < nfree l)%nat).
  { intros L l d I' Hr. pose proof (nfree_one _ _ _ _ _ _ d I I' Hr). lia. }
  wp_use (namex_loop_spec start nino P Hd V (refs (inodes k)) HT (fun m => conj (refs_nonneg V ∅ _ m I) (HR m))
    Hfree parent _ path k1 ip x c (Nat.le_refl _) Hc A).
  intros r k' (V' & F' & Hr). split; [done|]. split; [by eapply cfr_trans|done].
Qed.

(** C33. Path names resolve: [namex] returns the inode that the walk along the elements of
    the path reaches on the disk (or the directory before the last element, with that
    element), and nothing where an element is missing or is looked up in something
    that is not a directory.  All locks and references taken on the way are given back:
    afterwards no inode is locked and the reference counts are those of before, plus one
    for the inode returned. *)
Theorem namex_resolves k V path parent c :
  can_resolve k V path c ->
  wp (namex path parent) k (fun r k' => view nino P k' V ∅ /\ cfr k k' /\
    match walk V parent c (elements path) with
    | None => r = None /\ forall m, refs (inodes k') m = refs (inodes k) m
    | Some (n, name) => exists i x, r = Some (i, name) /\ inodes k' !! i = Some x /\ 0 < i_ref x /\
        i_inum x = n /\ forall m, refs (inodes k') m = refs (inodes k) m + one n m
    end).
Proof. apply namex_spec. Qed.

End Paths.

(** ** Directory entries *)

Section Entries.
Context `{Wakeups} (start lsize nino : Z) (old : Z -> block) (d0 : disk).

(** C34. [dirlink] adds a name to a directory: if the name is there it returns -1 and changes
    nothing; otherwise it returns 0, the name is found afterwards with its inode number,
    every other name is found as before, and every other inode and block in use is
    unchanged. *)
Theorem dirlink_correct k V T L dp ip name inum :
  can_link start lsize nino old d0 k V T L dp ip -> no_nul name -> 0 < inum < 2 ^ 16 ->
  wp (dirlink dp name inum) k (fun r k' => cfr k k' /\ (forall m, refs (inodes k') m = refs (inodes k) m) /\
    match dir_lookup V ip name with
    | Some _ => r = -1 /\ view nino (fun k V => tx start lsize old d0 k V T) k' V L
    | None => r = 0 /\ exists V' T' ip' off,
        view nino (fun k V => tx start lsize old d0 k V T') k' V' L /\ inodes k' !! dp = Some ip' /\
        dir_ok start V' ip' /\ dnode V' (i_inum ip) = to_dinode ip' /\ dir_lookup V' ip' name = Some (inum, off) /\
        (forall key, no_nul key -> take 14 key <> take 14 name -> dir_lookup V' ip' key = dir_lookup V ip key) /\
        (forall m, 1 <= m < nino -> m <> i_inum ip -> dnode V' m = dnode V m) /\
        (forall t, 0 <= t < start -> t <> bmblock nino -> t <> IBLOCK (i_inum ip) -> used nino V t = true ->
          (forall c, 0 <= c < NCELLS -> cell V ip c <> 0 -> cell V ip c <> t) -> V' t = V t)
    end).
Proof.
  intros C Hname Hi. destruct (dir_lookup V ip name) as [[n off]|] eqn:El.
  - wp_use (dirlink_taken start lsize nino old d0 k V T L dp ip name inum n off C El).
    intros r k' (-> & V' & F' & R'). done.
  - wp_use (dirlink_new start lsize nino old d0 k V T L dp ip name inum C El).
    intros r k' (-> & F' & V' & T' & ip' & Vw & I' & K & R').
    destruct K as [K1 K2 K3 K4 K5 K6 K7]. split; [done|]. split; [done|]. split; [done|].
    assert (Hm : forall key, no_nul key -> matches key (decode_dirent (encode_dirent name inum)) =
      bool_decide (take 14 key = take 14 name)).
    { intros key Hk. destruct (dirent_facts name inum key Hname Hk ltac:(lia)) as (E1 & _ & E2).
      unfold matches. rewrite E1, (proj2 (Z.eqb_neq inum 0)) by lia. cbn.
      change (Z.to_nat DIRSIZ) with 14%nat in E2. case_bool_decide as Hd; [apply Z.eqb_eq|apply Z.eqb_neq]; naive_solver. }
    exists V', T', ip', (0 + dirent_size * Z.of_nat (dir_slot (entries V ip))).
    split; [done|]. split; [rewrite I'; apply list_lookup_insert_eq; eapply lookup_lt_Some, C|].
    split_and!; try done; unfold dir_lookup in *; rewrite K1.
    + rewrite put_find_same; [|by rewrite Hm by done; apply bool_decide_eq_true_2|done].
      destruct (dirent_facts name inum name Hname Hname ltac:(lia)) as (E1 & _). by rewrite E1.
    + intros key Hk Hne. apply put_find_other. rewrite Hm by done. by apply bool_decide_eq_false_2.
Qed.

End Entries.

(** ** A small tree *)

#[local] Instance dir_wakeups : Wakeups := 1%nat.

(** The root directory, inode 1 in block 5, holds itself, its parent (itself)
    and the file "ab", inode 2 in block 6: an ELF program that puts four bytes at
    address 0 of an image of eight. *)
Definition dx_root : inode := Inode 1 1 1 I_VALID T_DIR 0 0 1 48 (5 :: replicate 12 0).
Definition dx_file : inode := Inode 1 2 0 0 T_FILE 0 0 1 88 (6 :: replicate 12 0).
Definition dx_program : list byte :=
  foldr (fun '(off, v) => put32 off v) (replicate 512 x00)
    [(0, 0x464C457F); (28, 52); (44, 1); (52, 1); (56, 84); (68, 4); (72, 8); (84, 0x44434241)].
Definition dx_image (s : Z) : block :=
  if s =? 1 then put32 12 10 (put32 8 8 (put32 0 30 zero_block))
  else if s =? 2 then encode_dinode (ioff 1) (to_dinode dx_root) (encode_dinode (ioff 2) (to_dinode dx_file) zero_block)
  else if s =? 4 then x7f :: replicate 511 x00
  else if s =? 5 then
    encode_dirent (cstr ".") 1 ++ encode_dirent (cstr "..") 1 ++ encode_dirent (cstr "ab") 2 ++ replicate 464 x00
  else if s =? 6 then dx_program
  else zero_block.

(** The root is the directory of the running process; slot 0 caches it with flags
    [fl]. *)
Definition dx_machine (fl : Z) : kstate :=
  KState (MState (fun _ => x00) false false 0 0 0) [ps_cwd (Some 0%nat) proc0] 1 None false (Some 0%nat) 0 0 0
    booted (Disk 30 dx_image []) (LogState 20 10 false 1 0 (replicate 10 0))
    (is_flags fl dx_root :: replicate 49 dx_file) [] ∅
    (InputBuf [] 0 0 0) [] false false false false false false false false false.

Lemma dx_blocks s : length (dx_image s) = 512%nat.
Proof.
  unfold dx_image. destruct (s =? 1); [by vm_compute|]. destruct (s =? 2); [by vm_compute|].
  destruct (s =? 4); [by vm_compute|]. destruct (s =? 5); [by vm_compute|]. destruct (s =? 6); by vm_compute.
Qed.

Lemma dx_quiet fl : quiet 20 10 (dx_machine fl).
Proof. split; try done. apply booted_cache; [apply dx_blocks|done]. Qed.

Lemma dx_dnode n : 1 <= n < 8 ->
  dnode dx_image n = if n =? 1 then to_dinode dx_root else if n =? 2 then to_dinode dx_file
                     else DInode 0 0 0 0 0 (replicate 13 0).
Proof.
  intros Hn. assert (n = 1 \/ n = 2 \/ n = 3 \/ n = 4 \/ n = 5 \/ n = 6 \/ n = 7) as Hc by lia.
  repeat destruct Hc as [->|Hc]; [vm_compute; reflexivity..|subst; vm_compute; reflexivity].
Qed.

Lemma dx_entries : entries dx_image (dino dx_image 1) =
  [DirEnt 1 (cstr "." ++ replicate 13 x00); DirEnt 1 (cstr ".." ++ replicate 12 x00);
   DirEnt 2 (cstr "ab" ++ replicate 12 x00)].
Proof. vm_compute. reflexivity. Qed.

Lemma dx_dir x : i_dev x = 1 -> to_dinode x = to_dinode dx_root -> dir_ok 20 dx_image x.
Proof.
  intros E1 E2. destruct x as [dv nm rf fl ty mj mn nl sz ad]. cbn in *. injection E2 as -> -> -> -> -> ->.
  subst dv. split; [|done|done]. split; try done. intros b Hb Hs. cbn in Hs. change BSIZE with 512 in Hs.
  assert (b = 0) as -> by lia. done.
Qed.

Lemma dx_tree : tree 20 8 dx_image.
Proof.
  split.
  - intros n Hn. unfold IBLOCK. change IPB with 8. Z.to_euclidean_division_equations. lia.
  - intros n Hn Ht. rewrite dx_dnode in Ht by done. destruct (Z.eqb_spec n 1) as [->|]; [by apply dx_dir|].
    by destruct (n =? 2).
  - intros n e Hn Ht He Hne. rewrite dx_dnode in Ht by done.
    destruct (Z.eqb_spec n 1) as [->|]; [|by destruct (n =? 2)]. rewrite dx_entries in He.
    repeat (apply elem_of_cons in He as [->|He]); [..|by apply not_elem_of_nil in He].
    all: cbn [de_inum]; rewrite dx_dnode by lia; done.
Qed.

Lemma dx_rest fl i x : inodes (dx_machine fl) !! S i = Some x -> x = dx_file.
Proof. intros E. change (replicate 49 dx_file !! i = Some x) in E. by apply lookup_replicate in E as [-> _]. Qed.

Lemma dx_slot fl i x :
  inodes (dx_machine fl) !! i = Some x -> 0 < i_ref x -> i = 0%nat /\ x = is_flags fl dx_root.
Proof.
  destruct i as [|i]; [intros [= <-]; done|]. intros ->%dx_rest. cbn. lia.
Qed.

Lemma dx_icache fl L :
  has fl I_BUSY = bool_decide (0%nat ∈ L) -> has fl I_VALID = true -> (forall i, i ∈ L -> i = 0%nat) ->
  icache 8 dx_image L (inodes (dx_machine fl)).
Proof.
  intros Hb Hv HL. split.
  - done.
  - intros [|i] x; [by intros [= <-]|]. by intros ->%dx_rest.
  - intros i j x y Ex Ey Hx Hy _. destruct (dx_slot _ _ _ Ex Hx), (dx_slot _ _ _ Ey Hy). congruence.
  - intros i x Ex Hx. by destruct (dx_slot _ _ _ Ex Hx) as [-> ->].
  - intros i x Ex Hx. by destruct (dx_slot _ _ _ Ex Hx) as [-> ->].
  - intros i x Ex Hx _. destruct (dx_slot _ _ _ Ex Hx) as [-> ->]. vm_compute. reflexivity.
  - intros i Hi. rewrite (HL i Hi). by exists (is_flags fl dx_root).
Qed.

Lemma dx_refs fl m : refs (inodes (dx_machine fl)) m <= 1.
Proof.
  rewrite (refs_single _ 0 (is_flags fl dx_root)); [unfold share; destruct (_ =? _); cbn; lia|done|].
  intros [|j] y E Hne; [done|]. apply dx_rest in E as ->. unfold share.
  by destruct (_ =? _).
Qed.

Lemma dx_resolve : can_resolve 20 8 (at_rest 20 10) (dx_machine I_VALID) dx_image (cstr "/ab") 1.
Proof.
  split.
  - split; [split; [apply dx_quiet|done]|done|]. by apply dx_icache.
  - apply dx_tree.
  - intros m. pose proof (dx_refs I_VALID m). lia.
  - vm_compute. lia.
  - split; [done|]. split; [lia|]. rewrite dx_dnode by lia. done.
Qed.

Lemma namex_resolves_witness :
  wp (namex (cstr "/ab") false) (dx_machine I_VALID) (fun r k' => exists i x,
    r = Some (i, []) /\ inodes k' !! i = Some x /\ i_inum x = 2 /\ refs (inodes k') 1 = 1).
Proof.
  eapply wp_mono; [apply (namex_resolves 20 8 (at_rest 20 10) (at_rest_held 20 10) (dx_machine I_VALID)
    dx_image (cstr "/ab") false 1 dx_resolve)|].
  assert (E : walk dx_image false 1 (elements (cstr "/ab")) = Some (2, [])) by (vm_compute; reflexivity).
  rewrite E. intros r k' (_ & _ & i & x & -> & Ex & _ & En & R). exists i, x. split; [reflexivity|].
  split; [exact Ex|]. split; [exact En|]. rewrite R. reflexivity.
Defined.

(** The root directory locked, inside a transaction. *)
Definition dx_begun : kstate :=
  let k := dx_machine (Z.lor I_BUSY I_VALID) in ks_klog (lgs_busy true (klog k)) k.

Lemma dx_used j : 0 <= j < 30 -> used 8 dx_image j = (j <? 7).
Proof.
  intros Hj. assert (F : forallb (fun j => Bool.eqb (used 8 dx_image j) (j <? 7)) (seqZ 0 30) = true)
    by (vm_compute; reflexivity).
  rewrite forallb_forall in F. apply Bool.eqb_prop, F, list_elem_of_In, elem_of_seqZ. lia.
Qed.

Lemma dx_fs : fs_ok 20 10 8 dx_image.
Proof.
  split.
  - split; vm_compute; congruence.
  - vm_compute. congruence.
  - intros j Hj. change (meta 20 10 8) with 5 in Hj. rewrite dx_used by lia. apply Z.ltb_lt. lia.
  - intros t _. apply dx_blocks.
Qed.

Lemma dx_cell fl c : 0 <= c < NCELLS -> cell dx_image (is_flags fl dx_root) c = if c =? 0 then 5 else 0.
Proof.
  intros Hc. assert (F : forallb (fun c => cell dx_image dx_root c =? if c =? 0 then 5 else 0) (seqZ 0 141) = true)
    by (vm_compute; reflexivity).
  rewrite forallb_forall in F. apply Z.eqb_eq, F, list_elem_of_In, elem_of_seqZ. change NCELLS with 141 in Hc. lia.
Qed.

Lemma dx_sound fl : sound_file 20 10 8 dx_image (is_flags fl dx_root).
Proof.
  split.
  - by apply dx_dir.
  - intros c Hc. rewrite dx_cell by done. change (meta 20 10 8) with 5.
    destruct (c =? 0); [by rewrite dx_used by lia|done].
  - intros c c' Hc Hc'. rewrite !dx_cell by done. destruct (Z.eqb_spec c 0), (Z.eqb_spec c' 0); lia.
Qed.

Lemma dx_link : can_link 20 10 8 dx_image (Disk 30 dx_image []) dx_begun dx_image ∅ {[0%nat]} 0
  (is_flags (Z.lor I_BUSY I_VALID) dx_root).
Proof.
  split; try done.
  - split; [apply (tx_begun 20 10 (dx_machine 3)), dx_quiet|done|].
    apply (dx_icache 3); [done|done|set_solver].
  - by apply dx_dir.
  - apply dx_fs.
  - apply dx_sound.
  - split; [| |done]; cbn; unfold T_DIR; repeat (apply Forall_cons; split; [lia|]); apply Forall_nil_2.
  - vm_compute. lia.
  - vm_compute. lia.
  - intros e He Hne. destruct (tr_entry _ _ _ dx_tree 1 e) as (H1 & _ & H3); [lia|by rewrite dx_dnode|done|done|].
    split; [done|]. split; [done|]. pose proof (dx_refs 3 (de_inum e)) as Hr.
    change (inodes dx_begun) with (inodes (dx_machine 3)). lia.
Qed.

Lemma dirlink_correct_witness :
  wp (dirlink 0 (cstr "c") 2) dx_begun (fun r _ => r = 0) /\
  wp (dirlink 0 (cstr "ab") 2) dx_begun (fun r _ => r = -1).
Proof.
  assert (N : no_nul (cstr "c") /\ no_nul (cstr "ab")).
  { unfold no_nul. split; apply (bool_decide_unpack _); vm_compute; exact I. }
  destruct N as [N1 N2]. split.
  - eapply wp_mono; [apply (dirlink_correct 20 10 8 _ _ dx_begun dx_image ∅ _ 0 _ (cstr "c") 2 dx_link N1)|];
      [split; reflexivity|].
    assert (E : dir_lookup dx_image (is_flags (Z.lor I_BUSY I_VALID) dx_root) (cstr "c") = None)
      by (vm_compute; reflexivity).
    rewrite E. intros r k' (_ & _ & -> & _). reflexivity.
  - eapply wp_mono; [apply (dirlink_correct 20 10 8 _ _ dx_begun dx_image ∅ _ 0 _ (cstr "ab") 2 dx_link N2)|];
      [split; reflexivity|].
    assert (E : dir_lookup dx_image (is_flags (Z.lor I_BUSY I_VALID) dx_root) (cstr "ab") = Some (2, 32))
      by (vm_compute; reflexivity).
    rewrite E. intros r k' (_ & _ & -> & _). reflexivity.
Defined.
