(* ===== verification/MkfsFacts.v ===== *)
(** * The layout that mkfs builds

    Each inode owns the blocks of its file, no two of them the same; appending to a
    file extends it and leaves the others alone. *)

From stdpp Require Import functions.
From S2P Require Import Prelude Layout Mem Kalloc Vm State Sched Bytes Bio BioFacts Log LogFacts.
From S2P Require Import Inode Console Fs Codec FsFacts FileFacts WriteFacts IcacheFacts DirFacts.
From S2P Require Import Mkfs.

Open Scope Z_scope.
#[local] Arguments insert : simpl never.

Lemma xint_id x : 0 <= x < 2 ^ 32 -> xint x = x.
Proof. intros Hx. unfold xint. rewrite of_le_le_bytes. apply Z.mod_small. exact Hx. Qed.

Lemma xshort_id x : 0 <= x < 2 ^ 16 -> xshort x = x.
Proof. intros Hx. unfold xshort. rewrite of_le_le_bytes. apply Z.mod_small. exact Hx. Qed.

(** Updates of tables. *)
Lemma tab_eq {B} (f : Z -> B) n x : (<[n := x]> f) n = x.
Proof. exact (fn_lookup_insert f n x). Qed.

Lemma tab_ne {B} (f : Z -> B) n m x : m <> n -> (<[n := x]> f) m = f m.
Proof. intros Hne. apply (fn_lookup_insert_ne). done. Qed.

Definition zeros : block := replicate 512 x00.

(** ** The image *)

(** The image holds [V], [F] is the first free block and [N] the first free inode. *)
Record holds (st : mkstate) (V : Z -> block) (F N : Z) : Prop := {
  hl_img : forall s, 0 <= s < 1024 -> mk_img st s = Some (V s);
  hl_len : forall s, 0 <= s < 1024 -> length (V s) = 512%nat;
  hl_free : freeblock st = F;
  hl_used : usedblocks st = F;
  hl_ino : freeinode st = N
}.

Section Sectors.
Context (st : mkstate) (V : Z -> block) (F N : Z) (H : holds st V F N).

Lemma wp_rsect s (Q : block -> mkstate -> Prop) : 0 <= s < 1024 -> Q (V s) st -> wp (rsect s) st Q.
Proof. intros Hs HQ. unfold rsect. apply wp_bind, wp_gets. by rewrite (hl_img _ _ _ _ H s Hs). Qed.

Lemma wp_wsect s b (Q : unit -> mkstate -> Prop) :
  length b = 512%nat -> (forall st', holds st' (fset s b V) F N -> Q tt st') -> wp (wsect s b) st Q.
Proof.
  intros Hb HQ. apply wp_modify, HQ. destruct H as [H1 H2 H3 H4 H5]. split; try done; intros t Ht.
  - cbn. unfold fset. destruct (t =? s); [done|auto].
  - unfold fset. destruct (t =? s); auto.
Qed.

Lemma wp_take_block (Q : Z -> mkstate -> Prop) :
  0 <= F < 1024 -> (forall st', holds st' V (F + 1) N -> Q F st') -> wp take_block st Q.
Proof.
  intros HF HQ. unfold take_block. apply wp_bind, wp_gets, wp_bind, wp_modify, wp_ret.
  destruct H as [H1 H2 H3 H4 H5]. rewrite H3. apply HQ. split; cbn; rewrite ?H3, ?H4, ?u32_small by (cbn; lia); done.
Qed.

End Sectors.

(** ** Block numbers of an inode *)

(** The thirteen addresses of the inode, then those of its indirect block. *)
Definition slot (V : Z -> block) (d : dinode) (s : Z) : Z :=
  if s <=? 12 then di_addr d s else get32 (4 * (s - 13)) (V (di_addr d 12)).

(** The slot of file block [b]; how many slots a file of [a] blocks takes. *)
Definition dslot (b : Z) : Z := if b <? 12 then b else b + 1.
Definition nslots (a : Z) : Z := if a <=? 12 then a else a + 1.

(** The blocks that [n] bytes take. *)
Definition nblk (n : Z) : Z := (n + 511) / 512.

Ltac slots := unfold nslots, dslot in *; repeat match goal with
  | |- context [?a <=? 12] => destruct (Z.leb_spec a 12)
  | H : context [?a <=? 12] |- _ => destruct (Z.leb_spec a 12)
  | |- context [?a <? 12] => destruct (Z.ltb_spec a 12)
  | H : context [?a <? 12] |- _ => destruct (Z.ltb_spec a 12)
  end; try lia.

(** A file of [a] blocks with the bytes [c], all below block [F]. *)
Record owns (V : Z -> block) (d : dinode) (a : Z) (c : list byte) (F : Z) : Prop := {
  ow_addrs : length (di_addrs d) = 13%nat;
  ow_range : 0 <= a <= 140;
  ow_some : forall s, 0 <= s < nslots a -> 29 <= slot V d s < F;
  ow_none : forall s, nslots a <= s < 141 -> s <= 12 \/ 12 < a -> slot V d s = 0;
  ow_data : forall j, 0 <= j < 512 * a ->
    nth (Z.to_nat (j mod 512)) (V (slot V d (dslot (j / 512)))) x00 = nth (Z.to_nat j) c x00;
  ow_size : Z.of_nat (length c) <= 512 * a
}.

(** The inodes below [N] own their blocks, and no block belongs to two of them; the
    blocks from [F] on are zero. *)
Record lay (V : Z -> block) (F : Z) (D : Z -> dinode) (A : Z -> Z) (C : Z -> list byte) (N : Z) : Prop := {
  ly_first : 29 <= F;
  ly_owns : forall n, 1 <= n < N -> owns V (D n) (A n) (C n) F;
  ly_inj : forall n n' s s', 1 <= n < N -> 1 <= n' < N -> 0 <= s < nslots (A n) -> 0 <= s' < nslots (A n') ->
    slot V (D n) s = slot V (D n') s' -> n = n' /\ s = s';
  ly_zero : forall s, F <= s < 1024 -> V s = zeros
}.

(** Slots depend on the indirect block only. *)
Lemma slot_frame V V' d a s :
  (12 < a -> V' (di_addr d 12) = V (di_addr d 12)) -> s <= 12 \/ 12 < a -> slot V' d s = slot V d s.
Proof. intros E Hs. unfold slot. destruct (Z.leb_spec s 12); [done|]. rewrite E; [done|lia]. Qed.

Lemma slot_12 V d : slot V d 12 = di_addr d 12.
Proof. done. Qed.

Lemma owns_frame V V' d a c F F' :
  owns V d a c F -> F <= F' -> (forall s, 0 <= s < nslots a -> V' (slot V d s) = V (slot V d s)) ->
  owns V' d a c F'.
Proof.
  intros [O1 O2 O3 O4 O5 O6] HF E.
  assert (E12 : 12 < a -> V' (di_addr d 12) = V (di_addr d 12)).
  { intros Ha. apply (E 12). slots. }
  split; try done.
  - intros s Hs. rewrite (slot_frame V V' d a) by (done || slots). specialize (O3 s Hs). lia.
  - intros s Hs Hc. rewrite (slot_frame V V' d a) by done. auto.
  - intros j Hj. assert (Hb : 0 <= j / 512 < a) by (Z.to_euclidean_division_equations; lia).
    rewrite (slot_frame V V' d a) by (done || slots). rewrite E by slots. auto.
Qed.

(** A new block at the end of file [n], and its indirect block where that is the first
    it needs. *)
Section Grow.
Context (V V' : Z -> block) (F F' : Z) (D : Z -> dinode) (A : Z -> Z) (C : Z -> list byte) (N n : Z) (d' : dinode).
Context (L : lay V F D A C N) (Hn : 1 <= n < N) (Ha : A n < 140).
Context (EF : F' = F + nslots (A n + 1) - nslots (A n)) (HF : F' <= 1024) (H13 : length (di_addrs d') = 13%nat).
Context (Hold : forall s, 0 <= s < nslots (A n) -> slot V' d' s = slot V (D n) s).
Context (Hnew : forall s, nslots (A n) <= s < nslots (A n + 1) -> slot V' d' s = F + (s - nslots (A n))).
Context (Hnone : forall s, nslots (A n + 1) <= s < 141 -> s <= 12 \/ 12 < A n + 1 -> slot V' d' s = 0).
Context (HV : forall t, t <> di_addr d' 12 \/ A n < 12 -> V' t = V t).

(** The blocks in use other than the indirect block of [n] are as before. *)
Lemma grow_keep m s :
  1 <= m < N -> 0 <= s < nslots (A m) -> m <> n \/ s <> 12 -> V' (slot V (D m) s) = V (slot V (D m) s).
Proof.
  intros Hm Hs Hne. pose proof (ly_owns _ _ _ _ _ _ L n Hn) as On. pose proof (ow_range _ _ _ _ _ On).
  pose proof (ow_some _ _ _ _ _ (ly_owns _ _ _ _ _ _ L m Hm) s Hs) as Hr.
  apply HV. destruct (decide (A n < 12)) as [|H12]; [by right|left]. rewrite <- (slot_12 V' d').
  destruct (decide (A n = 12)) as [E|].
  - rewrite Hnew by (rewrite E; slots). rewrite E. slots.
  - rewrite Hold by slots. intros E. destruct (ly_inj _ _ _ _ _ _ L m n s 12) as [-> ->]; (done || slots).
Qed.

Lemma grow_fresh s : nslots (A n) <= s < nslots (A n + 1) -> s <> 12 -> V' (slot V' d' s) = zeros.
Proof.
  intros Hs H12. pose proof (ow_range _ _ _ _ _ (ly_owns _ _ _ _ _ _ L n Hn)).
  rewrite Hnew by done. rewrite HV.
  - apply (ly_zero _ _ _ _ _ _ L). lia.
  - destruct (decide (A n < 12)) as [|Hge]; [by right|left]. rewrite <- (slot_12 V' d').
    destruct (decide (A n = 12)) as [E|].
    + rewrite Hnew by (rewrite E; slots). lia.
    + rewrite Hold by slots. pose proof (ow_some _ _ _ _ _ (ly_owns _ _ _ _ _ _ L n Hn) 12 ltac:(slots)). lia.
Qed.

Lemma grow_owns : owns V' d' (A n + 1) (C n) F'.
Proof.
  pose proof (ly_owns _ _ _ _ _ _ L n Hn) as [O1 O2 O3 O4 O5 O6]. pose proof (ly_first _ _ _ _ _ _ L).
  split; try done; try lia.
  - intros s Hs. destruct (decide (s < nslots (A n))).
    + rewrite Hold by lia. specialize (O3 s ltac:(lia)). slots.
    + rewrite Hnew by lia. lia.
  - intros j Hj. assert (Hb : 0 <= j / 512 < A n + 1) by (Z.to_euclidean_division_equations; lia).
    destruct (decide (j / 512 < A n)) as [Hlt|Hge].
    + rewrite Hold by slots. rewrite grow_keep by (done || slots). apply O5.
      Z.to_euclidean_division_equations. lia.
    + assert (E : j / 512 = A n) by lia. rewrite E, grow_fresh by slots.
      rewrite nth_overflow with (l := C n) by (Z.to_euclidean_division_equations; lia). apply nth_replicate.
Qed.

Lemma lay_grow : lay V' F' (<[n := d']> D) (<[n := A n + 1]> A) C N.
Proof.
  pose proof (ly_owns _ _ _ _ _ _ L) as HO. pose proof (ow_range _ _ _ _ _ (HO n Hn)) as Hrn.
  assert (HFF : F <= F') by slots.
  assert (Hslot : forall m s, 1 <= m < N -> m <> n -> 0 <= s < nslots (A m) -> slot V' (D m) s = slot V (D m) s).
  { intros m s Hm Hne Hs. apply (slot_frame V V' (D m) (A m)); [|slots]. intros. apply (grow_keep m 12); slots. }
  assert (Hlt : forall m s, 1 <= m < N -> 0 <= s < nslots (A m) -> 29 <= slot V (D m) s < F)
    by (intros m s Hm; apply (ow_some _ _ _ _ _ (HO m Hm))).
  split.
  - pose proof (ly_first _ _ _ _ _ _ L). lia.
  - intros m Hm. destruct (decide (m = n)) as [->|Hne].
    + rewrite !tab_eq. apply grow_owns.
    + rewrite !tab_ne by done. eapply owns_frame; [by apply HO|done|]. intros s Hs.
      apply grow_keep; tauto.
  - intros m m' s s' Hm Hm'. destruct (decide (m = n)) as [->|Hne], (decide (m' = n)) as [->|Hne'];
      rewrite ?tab_eq, ?tab_ne by done; intros Hs Hs' E.
    + split; [done|]. destruct (decide (s < nslots (A n))) as [Hs1|Hs1], (decide (s' < nslots (A n))) as [Hs2|Hs2].
      * rewrite !Hold in E by lia. by apply (ly_inj _ _ _ _ _ _ L n n s s'); try lia.
      * rewrite Hold, Hnew in E by lia. pose proof (Hlt n s Hm ltac:(lia)). lia.
      * rewrite Hnew, Hold in E by lia. pose proof (Hlt n s' Hm ltac:(lia)). lia.
      * rewrite !Hnew in E by lia. lia.
    + rewrite Hslot in E by done. pose proof (Hlt m' s' Hm' Hs'). destruct (decide (s < nslots (A n))).
      * rewrite Hold in E by lia. apply (ly_inj _ _ _ _ _ _ L); (done || lia).
      * rewrite Hnew in E by lia. lia.
    + rewrite Hslot in E by done. pose proof (Hlt m s Hm Hs). destruct (decide (s' < nslots (A n))).
      * rewrite Hold in E by lia. apply (ly_inj _ _ _ _ _ _ L); (done || lia).
      * rewrite Hnew in E by lia. lia.
    + rewrite !Hslot in E by done. by apply (ly_inj _ _ _ _ _ _ L).
  - intros s Hs. rewrite HV; [apply (ly_zero _ _ _ _ _ _ L); lia|].
    destruct (decide (A n < 12)) as [|Hge]; [by right|left]. rewrite <- (slot_12 V' d').
    pose proof (ow_some _ _ _ _ _ grow_owns 12 ltac:(slots)). lia.
Qed.

End Grow.

(** ** Appending *)

(** Only the block addresses differ. *)
Definition keeps (d d' : dinode) : Prop :=
  d' = DInode (di_type d) (di_major d) (di_minor d) (di_nlink d) (di_size d) (di_addrs d').

Lemma keeps_refl d : keeps d d.
Proof. by destruct d. Qed.

Lemma keeps_trans d1 d2 d3 : keeps d1 d2 -> keeps d2 d3 -> keeps d1 d3.
Proof. intros E1 E2. unfold keeps in *. rewrite E1 in E2. exact E2. Qed.

Lemma dset_addr_at j a d : 0 <= j < Z.of_nat (length (di_addrs d)) -> di_addr (dset_addr j a d) j = a.
Proof. intros Hj. unfold di_addr. cbn. rewrite nth_lookup, list_lookup_insert_eq by lia. done. Qed.

Lemma dset_addr_ne j a d s : 0 <= j -> 0 <= s -> s <> j -> di_addr (dset_addr j a d) s = di_addr d s.
Proof. intros Hj Hs Hne. unfold di_addr. cbn. rewrite !nth_lookup, list_lookup_insert_ne by lia. done. Qed.

Lemma get32_zeros off : get32 off zeros = 0.
Proof.
  unfold get32, slice, zeros. rewrite drop_replicate, take_replicate.
  generalize (Z.to_nat 4 `min` (512 - Z.to_nat off))%nat. intros m. induction m as [|m IH]; [done|].
  cbn. by rewrite IH.
Qed.

(** Bytes copied into the last block of a file. *)
Lemma append_nth (d c p : list byte) b j :
  length d = 512%nat -> Z.of_nat (length c) / 512 = b -> Z.of_nat (length c) + Z.of_nat (length p) <= 512 * (b + 1) ->
  0 <= j -> j / 512 = b -> nth (Z.to_nat (j mod 512)) d x00 = nth (Z.to_nat j) c x00 ->
  nth (Z.to_nat (j mod 512)) (splice (Z.of_nat (length c) - b * 512) p d) x00 = nth (Z.to_nat j) (c ++ p) x00.
Proof.
  intros Hl Eb Hp Hj E. rewrite !nth_lookup. unfold splice. intros Hd.
  assert (Hm : j mod 512 = j - b * 512 /\ 0 <= j mod 512 < 512 /\ 0 <= Z.of_nat (length c) - b * 512 <= 512 /\ 0 <= b)
    by (Z.to_euclidean_division_equations; lia).
  destruct (decide (j < Z.of_nat (length c))) as [Hjc|Hjc].
  - rewrite lookup_app_l by (rewrite length_take; lia). rewrite lookup_take_lt by lia. rewrite Hd.
    by rewrite lookup_app_l by lia.
  - rewrite lookup_app_r by (rewrite length_take; lia). rewrite length_take. rewrite (lookup_app_r c) by lia.
    destruct (decide (j < Z.of_nat (length c) + Z.of_nat (length p))) as [Hjp|Hjp].
    + rewrite lookup_app_l by lia. do 2 f_equal. lia.
    + rewrite lookup_app_r, lookup_drop by lia. rewrite (lookup_ge_None_2 p) by lia.
      rewrite (lookup_ge_None_2 c) in Hd by lia. rewrite <- Hd. do 2 f_equal. lia.
Qed.

Section Append.
Context (st : mkstate) (V : Z -> block) (F N : Z) (D : Z -> dinode) (A : Z -> Z) (C : Z -> list byte) (n : Z).
Context (H : holds st V F N) (L : lay V F D A C N) (Hn : 1 <= n < N).

Let O := ly_owns _ _ _ _ _ _ L n Hn.

(** A block that the file has. *)
Lemma iappend_block_old b :
  F <= 1024 -> 0 <= b < A n ->
  wp (iappend_block b (D n)) st (fun r st' => r = (slot V (D n) (dslot b), D n) /\ st' = st).
Proof.
  intros HF Hb. pose proof (ow_range _ _ _ _ _ O) as Hr. pose proof (ow_some _ _ _ _ _ O) as Hs.
  unfold iappend_block, iappend_addr. change NDIRECT with 12. destruct (Z.ltb_spec b 12) as [Hlt|Hge].
  - specialize (Hs b ltac:(slots)). unfold slot in *. rewrite (proj2 (Z.leb_le b 12)) in Hs by lia.
    rewrite (xint_id (di_addr (D n) b)) by (cbn; lia). rewrite (proj2 (Z.eqb_neq _ 0)) by lia.
    apply wp_bind, wp_ret, wp_ret. split; [|done]. f_equal. rewrite xint_id by (cbn; lia).
    replace (dslot b) with b by slots. by rewrite (proj2 (Z.leb_le b 12)) by lia.
  - pose proof (Hs 12 ltac:(slots)) as H12. pose proof (Hs (b + 1) ltac:(slots)) as Hb1. rewrite slot_12 in H12.
    rewrite (xint_id (di_addr (D n) 12)) by (cbn; lia). rewrite (proj2 (Z.eqb_neq _ 0)) by lia.
    apply wp_bind, wp_ret, wp_bind, wp_bind. rewrite (xint_id (di_addr (D n) 12)) by (cbn; lia).
    apply (wp_rsect st V F N H); [lia|]. replace (dslot b) with (b + 1) by slots. unfold slot in *.
    rewrite (proj2 (Z.leb_gt (b + 1) 12)) in * by lia. replace (b + 1 - 13) with (b - 12) in * by lia.
    rewrite (proj2 (Z.eqb_neq _ 0)) by lia. apply wp_ret, wp_ret. rewrite xint_id by (cbn; lia). done.
Qed.

(** The next block of the file. *)
Definition grown (V' : Z -> block) (d' : dinode) (st' : mkstate) : Prop :=
  let F' := F + nslots (A n + 1) - nslots (A n) in
  holds st' V' F' N /\ lay V' F' (<[n := d']> D) (<[n := A n + 1]> A) C N /\ keeps (D n) d' /\
  forall s, s < 29 -> V' s = V s.

Lemma iappend_direct :
  A n < 12 -> F + 1 <= 1024 ->
  wp (iappend_block (A n) (D n)) st (fun r st' => r.1 = slot V r.2 (dslot (A n)) /\ grown V r.2 st').
Proof.
  intros Ha HF. pose proof (ow_range _ _ _ _ _ O) as Hr. pose proof (ly_first _ _ _ _ _ _ L) as HF0.
  pose proof (ow_addrs _ _ _ _ _ O) as H13. pose proof (ow_none _ _ _ _ _ O (A n) ltac:(slots) ltac:(lia)) as Hz.
  unfold iappend_block, iappend_addr. change NDIRECT with 12. rewrite (proj2 (Z.ltb_lt _ _)) by lia.
  unfold slot in Hz. rewrite (proj2 (Z.leb_le (A n) 12)) in Hz by lia. rewrite Hz. 
  change (xint 0 =? 0) with true. cbv iota.
  apply wp_bind, wp_bind, (wp_take_block st V F N H); [lia|]. intros st' H'. apply wp_ret, wp_ret. cbn [fst snd].
  set (d' := dset_addr (A n) (xint F) (D n)).
  assert (E : di_addr d' (A n) = F) by (unfold d'; rewrite dset_addr_at by lia; apply xint_id; cbn; lia).
  rewrite E, xint_id by (cbn; lia). split.
  { unfold slot. replace (dslot (A n)) with (A n) by slots. by rewrite (proj2 (Z.leb_le _ _)), E by lia. }
  assert (EF : F + nslots (A n + 1) - nslots (A n) = F + 1) by slots.
  unfold grown. rewrite EF. split; [done|]. split; [|done].
  assert (Es : forall s, 0 <= s <= 12 -> s <> A n -> slot V d' s = slot V (D n) s).
  { intros s Hs Hne. unfold slot. rewrite (proj2 (Z.leb_le _ _)) by lia. apply dset_addr_ne; lia. }
  apply (lay_grow V V F (F + 1) D A C N n d'); try done; try lia.
  - by unfold d', dset_addr; cbn; rewrite length_insert.
  - intros s Hs. apply Es; slots.
  - intros s Hs. assert (s = A n) as -> by slots. unfold slot. rewrite (proj2 (Z.leb_le _ _)), E by lia. lia.
  - intros s Hs Hc. assert (nslots (A n) <= s) by slots. rewrite Es by slots. apply (ow_none _ _ _ _ _ O); slots.
Qed.

(** A new entry of the indirect block at [ib], the first free block being [G]. *)
Lemma iappend_entry_new V1 G ib j st1 Q :
  holds st1 V1 G N -> 29 <= ib < G -> G < 1024 -> get32 (4 * j) (V1 ib) = 0 -> 0 <= j < 128 ->
  (forall st', holds st' (fset ib (put32 (4 * j) G (V1 ib)) V1) (G + 1) N -> Q G st') ->
  wp (iappend_entry ib j) st1 Q.
Proof.
  intros H1 Hib HG Ez Hj HQ. pose proof (hl_len _ _ _ _ H1 ib ltac:(lia)) as Hl. unfold iappend_entry.
  apply wp_bind, (wp_rsect st1 V1 G N H1); [lia|]. rewrite Ez. cbn [Z.eqb].
  apply wp_bind, (wp_take_block st1 V1 G N H1); [lia|]. intros st2 H2. rewrite (xint_id G) by (cbn; lia).
  apply wp_bind, (wp_wsect st2 V1 _ N H2); [rewrite put32_length; lia|]. intros st3 H3.
  apply wp_ret. rewrite get32_put32 by lia. rewrite u32_small, xint_id by (cbn; lia). by apply HQ.
Qed.

(** The slots after the new entry. *)
Lemma slot_entry V1 d s j v :
  length (V1 (di_addr d 12)) = 512%nat -> 0 <= j < 128 -> 0 <= v < 2 ^ 32 -> s < 141 ->
  slot (fset (di_addr d 12) (put32 (4 * j) v (V1 (di_addr d 12))) V1) d s =
  if s =? 13 + j then v else slot V1 d s.
Proof.
  intros Hl Hj Hv Hs. unfold slot. destruct (Z.leb_spec s 12).
  - by rewrite (proj2 (Z.eqb_neq s (13 + j))) by lia.
  - rewrite fset_at. destruct (Z.eqb_spec s (13 + j)) as [->|].
    + replace (13 + j - 13) with j by lia. rewrite get32_put32 by lia. by apply u32_small.
    + apply get32_put32_ne; lia.
Qed.

Lemma iappend_indirect :
  12 < A n < 140 -> F + 1 <= 1024 ->
  wp (iappend_block (A n) (D n)) st (fun r st' => exists V', r.1 = slot V' r.2 (dslot (A n)) /\ grown V' r.2 st').
Proof.
  intros Ha HF. pose proof (ly_first _ _ _ _ _ _ L) as HF0. pose proof (ow_addrs _ _ _ _ _ O) as H13.
  pose proof (ow_some _ _ _ _ _ O 12 ltac:(slots)) as H12. rewrite slot_12 in H12.
  pose proof (ow_none _ _ _ _ _ O (A n + 1) ltac:(slots) ltac:(lia)) as Hz. unfold slot in Hz.
  rewrite (proj2 (Z.leb_gt (A n + 1) 12)) in Hz by lia. replace (A n + 1 - 13) with (A n - 12) in Hz by lia.
  unfold iappend_block, iappend_addr. change NDIRECT with 12. rewrite (proj2 (Z.ltb_ge _ _)) by lia.
  rewrite (xint_id (di_addr (D n) 12)) by (cbn; lia). rewrite (proj2 (Z.eqb_neq _ 0)) by lia.
  apply wp_bind, wp_ret, wp_bind. rewrite (xint_id (di_addr (D n) 12)) by (cbn; lia).
  apply (iappend_entry_new V F _ _ st); [done|lia|lia|done|lia|]. intros st' H'. apply wp_ret. cbn [fst snd].
  eexists. split; [|split; [|split]].
  2: { replace (F + nslots (A n + 1) - nslots (A n)) with (F + 1) by slots. exact H'. }
  - rewrite slot_entry by (first [apply (hl_len _ _ _ _ H); lia|cbn; slots]).
    by rewrite (proj2 (Z.eqb_eq _ _)) by slots.
  - replace (F + nslots (A n + 1) - nslots (A n)) with (F + 1) by slots.
    assert (Es : forall s, s < 141 -> slot (fset (di_addr (D n) 12) (put32 (4 * (A n - 12)) F (V (di_addr (D n) 12))) V)
      (D n) s = if s =? A n + 1 then F else slot V (D n) s).
    { intros s Hs. rewrite slot_entry by (first [apply (hl_len _ _ _ _ H); lia|cbn; lia]). by replace (13 + (A n - 12)) with (A n + 1) by lia. }
    apply (lay_grow V _ F (F + 1) D A C N n (D n)); try done; try lia; try slots; intros s Hs.
    + rewrite Es, (proj2 (Z.eqb_neq _ _)) by slots. done.
    + rewrite Es, (proj2 (Z.eqb_eq _ _)) by slots. slots.
    + intros Hc. rewrite Es, (proj2 (Z.eqb_neq _ _)) by slots. apply (ow_none _ _ _ _ _ O); slots.
    + destruct Hs as [Hs|]; [by apply fset_ne|lia].
  - split; [apply keeps_refl|]. intros s Hs. apply fset_ne. lia.
Qed.

(** The first block beyond the direct ones: the indirect block comes with it. *)
Lemma iappend_first :
  A n = 12 -> F + 2 <= 1024 ->
  wp (iappend_block (A n) (D n)) st (fun r st' => exists V', r.1 = slot V' r.2 (dslot (A n)) /\ grown V' r.2 st').
Proof.
  intros Ha HF. pose proof (ly_first _ _ _ _ _ _ L) as HF0. pose proof (ow_addrs _ _ _ _ _ O) as H13.
  pose proof (ow_none _ _ _ _ _ O 12 ltac:(rewrite Ha; slots) ltac:(lia)) as Hz. rewrite slot_12 in Hz.
  pose proof (ly_zero _ _ _ _ _ _ L F ltac:(lia)) as HzF.
  unfold iappend_block, iappend_addr. change NDIRECT with 12. rewrite Hz, (proj2 (Z.ltb_ge _ _)) by lia.
  change (xint 0 =? 0) with true. cbv iota.
  apply wp_bind, wp_bind, (wp_take_block st V F N H); [lia|]. intros st1 H1. apply wp_ret.
  rewrite (xint_id F) by (cbn; lia). set (d' := dset_addr 12 F (D n)).
  assert (E : di_addr d' 12 = F) by (unfold d'; rewrite dset_addr_at by lia; done).
  apply wp_bind. rewrite E, xint_id by (cbn; lia).
  apply (iappend_entry_new V (F + 1) _ _ st1); [done|lia|lia|rewrite HzF; apply get32_zeros|lia|].
  intros st' H'. apply wp_ret. cbn [fst snd].
  assert (Es : forall s, s < 141 -> slot (fset F (put32 (4 * (A n - 12)) (F + 1) (V F)) V) d' s =
    if s =? 13 then F + 1 else slot V d' s).
  { intros s Hs. pose proof (slot_entry V d' s (A n - 12) (F + 1)) as Hse. rewrite E in Hse.
    rewrite Hse by (first [apply (hl_len _ _ _ _ H); lia|cbn; lia]). by replace (13 + (A n - 12)) with 13 by lia. }
  assert (Ed : forall s, 0 <= s < 12 -> slot V d' s = slot V (D n) s).
  { intros s Hs. unfold slot. rewrite (proj2 (Z.leb_le _ _)) by lia. apply dset_addr_ne; lia. }
  assert (EF : F + nslots (A n + 1) - nslots (A n) = F + 2) by (rewrite Ha; slots).
  eexists. unfold grown. rewrite EF. split; [|split; [|split]].
  2: { replace (F + 2) with (F + 1 + 1) by lia. exact H'. }
  - by rewrite Es by (rewrite Ha; slots); rewrite Ha.
  - apply (lay_grow V _ F (F + 2) D A C N n d'); try done; try lia.
    + by unfold d', dset_addr; cbn; rewrite length_insert.
    + intros s Hs. rewrite Es, (proj2 (Z.eqb_neq _ _)), Ed by slots. done.
    + intros s Hs. rewrite Es by slots. destruct (Z.eqb_spec s 13) as [->|]; [slots|].
      assert (s = 12) as -> by slots. rewrite slot_12, E. slots.
    + intros s Hs _. rewrite Es, (proj2 (Z.eqb_neq _ _)) by slots. unfold slot.
      rewrite E, HzF, (proj2 (Z.leb_gt _ _)) by slots. apply get32_zeros.
    + intros t [Ht|]; [|lia]. rewrite E in Ht. by apply fset_ne.
  - split; [done|]. intros s Hs. apply fset_ne. lia.
Qed.

Lemma iappend_block_new :
  A n < 140 -> F + nslots (A n + 1) - nslots (A n) <= 1024 ->
  wp (iappend_block (A n) (D n)) st (fun r st' => exists V', r.1 = slot V' r.2 (dslot (A n)) /\ grown V' r.2 st').
Proof.
  intros Ha HF. destruct (decide (A n < 12)); [|destruct (decide (A n = 12))].
  - wp_use iappend_direct; [done|slots|]. intros r st' Hr. by exists V.
  - apply iappend_first; [done|slots].
  - apply iappend_indirect; slots.
Qed.

(** Bytes after the end of the file, in its last block. *)
Lemma lay_write b p :
  0 <= b < A n -> Z.of_nat (length (C n)) / 512 = b -> Z.of_nat (length (C n)) + Z.of_nat (length p) <= 512 * (b + 1) ->
  F <= 1024 ->
  let x := slot V (D n) (dslot b) in
  lay (fset x (splice (Z.of_nat (length (C n)) - b * 512) p (V x)) V) F D A (<[n := C n ++ p]> C) N.
Proof.
  intros Hb Eb Hp HF x. set (c := Z.of_nat (length (C n))) in *.
  assert (Hx : 29 <= x < F) by (apply (ow_some _ _ _ _ _ O); slots).
  pose proof (hl_len _ _ _ _ H x ltac:(lia)) as Hl.
  set (V' := fset x _ V).
  assert (Hk : forall m s, 1 <= m < N -> 0 <= s < nslots (A m) -> m <> n \/ s <> dslot b ->
    V' (slot V (D m) s) = V (slot V (D m) s)).
  { intros m s Hm Hs Hne. apply fset_ne. intros E. destruct (ly_inj _ _ _ _ _ _ L m n s (dslot b)) as [-> ->]; (done || slots). }
  assert (Hs : forall m s, 1 <= m < N -> s <= 12 \/ 12 < A m -> slot V' (D m) s = slot V (D m) s).
  { intros m s Hm Hs. apply (slot_frame V V' (D m) (A m)); [|done]. intros. apply (Hk m 12); slots. }
  pose proof (ly_owns _ _ _ _ _ _ L) as HO. destruct L as [L1 L2 L3 L4]. split; [done| | |].
  - intros m Hm. destruct (decide (m = n)) as [->|Hne].
    2: { rewrite tab_ne by done. eapply owns_frame; [by apply HO|done|]. intros s Hs0. apply Hk; tauto. }
    rewrite tab_eq. pose proof O as [O1 O2 O3 O4 O5 O6]. split; try done.
    + intros s Hs0. rewrite Hs by slots. auto.
    + intros s Hs0 Hc. rewrite Hs by done. auto.
    + intros j Hj. assert (Hjb : 0 <= j / 512 < A n) by (Z.to_euclidean_division_equations; lia).
      rewrite Hs by slots. destruct (decide (j / 512 = b)) as [E|E].
      * rewrite E. fold x. unfold V'. rewrite fset_at. apply append_nth; try done; try lia.
        rewrite <- O5 by done. by rewrite E.
      * rewrite Hk by slots. rewrite O5 by done. rewrite !nth_lookup.
        destruct (decide (j < c)) as [Hjc|Hjc]; [by rewrite lookup_app_l by lia|].
        rewrite !lookup_ge_None_2; rewrite ?length_app; try done; Z.to_euclidean_division_equations; lia.
    + rewrite length_app. lia.
  - intros m m' s s' Hm Hm' Hs1 Hs2. rewrite !Hs by slots. by apply L3.
  - intros s Hs0. rewrite <- (L4 s) by done. apply fset_ne. lia.
Qed.

End Append.

(** The layout depends on the tables pointwise. *)
Lemma lay_ext V F D D' A A' C C' N :
  lay V F D A C N -> (forall m, 1 <= m < N -> D' m = D m /\ A' m = A m /\ C' m = C m) -> lay V F D' A' C' N.
Proof.
  intros [L1 L2 L3 L4] E. split; try done.
  - intros m Hm. destruct (E m Hm) as (-> & -> & ->). auto.
  - intros m m' s s' Hm Hm'. destruct (E m Hm) as (-> & -> & _), (E m' Hm') as (-> & -> & _). auto.
Qed.

Lemma nslots_mono a b : a <= b -> nslots a <= nslots b.
Proof. intros. slots. Qed.

Lemma nblk_mono a b : a <= b -> nblk a <= nblk b.
Proof. intros. unfold nblk. apply Z.div_le_mono; lia. Qed.

Lemma nblk_at c b : b * 512 < c <= (b + 1) * 512 -> nblk c = b + 1.
Proof. intros. unfold nblk. Z.to_euclidean_division_equations. lia. Qed.

(** File [n] has grown by the bytes [p], to [a] blocks; nothing below block 29 has changed. *)
Record appended (V : Z -> block) (F : Z) (D : Z -> dinode) (A : Z -> Z) (C : Z -> list byte) (N n : Z)
    (p : list byte) (a : Z) (V' : Z -> block) (d' : dinode) (st' : mkstate) : Prop := {
  ap_holds : holds st' V' (F + nslots a - nslots (A n)) N;
  ap_lay : lay V' (F + nslots a - nslots (A n)) (<[n := d']> D) (<[n := a]> A) (<[n := C n ++ p]> C) N;
  ap_keeps : keeps (D n) d';
  ap_low : forall s, s < 29 -> V' s = V s
}.

Lemma wp_seq {A B R} (m : MK A) (f : A -> MK B) (g : MK R) s Q :
  wp (let! a := m in f a) s (fun _ s' => wp g s' Q) -> wp (let! a := m in f a ;;; g) s Q.
Proof. intros Hw. apply wp_bind. apply wp_bind_inv in Hw. wp_use Hw. intros a s' Ha. by apply wp_bind. Qed.

Section Loop.
Context (N n : Z) (Hn : 1 <= n < N).

Lemma appended_trans V F D A C p p' a a' V' V'' d' d'' st' st'' :
  appended V F D A C N n p a V' d' st' ->
  appended V' (F + nslots a - nslots (A n)) (<[n := d']> D) (<[n := a]> A) (<[n := C n ++ p]> C) N n p' a' V'' d'' st'' ->
  appended V F D A C N n (p ++ p') a' V'' d'' st''.
Proof.
  intros [A1 A2 A3 A4] [B1 B2 B3 B4]. rewrite tab_eq in B1. rewrite (tab_eq A), (tab_eq C) in B2. rewrite tab_eq in B3.
  replace (F + nslots a - nslots (A n) + nslots a' - nslots a) with (F + nslots a' - nslots (A n)) in * by lia.
  split; [done| |by eapply keeps_trans|intros s Hs; by rewrite B4, A4].
  apply (lay_ext _ _ _ _ _ _ _ _ _ B2). intros m Hm. destruct (decide (m = n)) as [->|Hne].
  - rewrite !tab_eq, app_assoc. done.
  - by rewrite !tab_ne by done.
Qed.

Lemma appended_nil st V F D A C : holds st V F N -> lay V F D A C N -> appended V F D A C N n [] (A n) V (D n) st.
Proof.
  intros H L. assert (EF : F + nslots (A n) - nslots (A n) = F) by lia.
  split; rewrite ?EF; [done| |apply keeps_refl|done]. apply (lay_ext _ _ _ _ _ _ _ _ _ L). intros m Hm.
  destruct (decide (m = n)) as [->|]; [by rewrite !tab_eq, app_nil_r|by rewrite !tab_ne].
Qed.

(** The block for the next bytes of the file. *)
Lemma iappend_block_spec st V F D A C :
  holds st V F N -> lay V F D A C N -> A n = nblk (Z.of_nat (length (C n))) ->
  let b := Z.of_nat (length (C n)) / 512 in b < 140 -> F + nslots (b + 1) - nslots (A n) <= 1024 ->
  wp (iappend_block b (D n)) st (fun r st' => exists V',
    r.1 = slot V' r.2 (dslot b) /\ appended V F D A C N n [] (b + 1) V' r.2 st').
Proof.
  intros H L Ea b Hb HF. unfold nblk in Ea. pose proof (ly_owns _ _ _ _ _ _ L n Hn) as O.
  assert (Hext : forall V' F' d a, lay V' F' (<[n := d]> D) (<[n := a]> A) C N ->
    lay V' F' (<[n := d]> D) (<[n := a]> A) (<[n := C n ++ []]> C) N).
  { intros V' F' d a L'. apply (lay_ext _ _ _ _ _ _ _ _ _ L'). intros m Hm. split; [done|]. split; [done|].
    rewrite app_nil_r. destruct (decide (m = n)) as [->|]; [apply tab_eq|by apply tab_ne]. }
  destruct (decide (b < A n)) as [Hlt|Hge].
  - assert (E : A n = b + 1) by (unfold b in *; Z.to_euclidean_division_equations; lia).
    wp_use (iappend_block_old st V F N D A C n H L Hn b); [rewrite <- E in HF; lia|unfold b in *; split; [Z.to_euclidean_division_equations; lia|done]|].
    intros r st' [-> ->]. exists V. split; [done|]. rewrite <- E.
    by apply appended_nil.
  - assert (E : A n = b) by (unfold b in *; Z.to_euclidean_division_equations; lia). rewrite <- E in *.
    wp_use (iappend_block_new st V F N D A C n H L Hn); [done|done|].
    intros r st' (V' & E1 & H' & L' & K' & Lo'). exists V'. split; [done|]. split; try done. by apply Hext.
Qed.

Lemma appended_write st V F D A C p :
  holds st V F N -> lay V F D A C N -> F <= 1024 ->
  let b := Z.of_nat (length (C n)) / 512 in A n = b + 1 -> Z.of_nat (length (C n)) + Z.of_nat (length p) <= 512 * (b + 1) ->
  let x := slot V (D n) (dslot b) in
  wp (let! buf := rsect x in wsect x (splice (Z.of_nat (length (C n)) - b * 512) p buf)) st (fun _ st' =>
    exists V', appended V F D A C N n p (b + 1) V' (D n) st').
Proof.
  intros H L HF b Ea Hp x. pose proof (ly_owns _ _ _ _ _ _ L n Hn) as O.
  assert (Hb : 0 <= b) by (apply Z.div_pos; lia).
  assert (Hx : 29 <= x < F) by (apply (ow_some _ _ _ _ _ O); rewrite Ea; slots).
  apply wp_bind, (wp_rsect st V F N H); [lia|]. pose proof (hl_len _ _ _ _ H x ltac:(lia)) as Hl.
  assert (0 <= Z.of_nat (length (C n)) - b * 512) by (unfold b; Z.to_euclidean_division_equations; lia).
  apply (wp_wsect st V F N H); [rewrite splice_length by lia; done|].
  intros st' H'. eexists. split.
  - rewrite <- Ea. replace (F + nslots (A n) - nslots (A n)) with F by lia. exact H'.
  - rewrite <- Ea. replace (F + nslots (A n) - nslots (A n)) with F by lia.
    pose proof (lay_write st V F N D A C n H L Hn b p ltac:(lia) eq_refl Hp HF) as L'. fold x in L'.
    apply (lay_ext _ _ _ _ _ _ _ _ _ L'). intros m Hm.
    destruct (decide (m = n)) as [->|]; [by rewrite !tab_eq|by rewrite !tab_ne].
  - apply keeps_refl.
  - intros s Hs. apply fset_ne. lia.
Qed.

(** One round of the loop of [iappend], and what follows it. *)
Lemma iappend_chunk {R} st V F D A C p (K : dinode -> MK R) Q :
  holds st V F N -> lay V F D A C N -> A n = nblk (Z.of_nat (length (C n))) ->
  let c := Z.of_nat (length (C n)) in let b := c / 512 in
  b < 140 -> c + Z.of_nat (length p) <= 512 * (b + 1) -> F + nslots (b + 1) - nslots (A n) <= 1024 ->
  (forall d' st' V', appended V F D A C N n p (b + 1) V' d' st' -> wp (K d') st' Q) ->
  wp (let! r := iappend_block b (D n) in
      let (x, din) := (r : Z * dinode) in
      let! buf := rsect x in
      wsect x (splice (c - b * 512) p buf) ;;;
      K din) st Q.
Proof.
  intros H L Ea c b Hb Hp HF HK.
  apply wp_bind. wp_use (iappend_block_spec st V F D A C H L Ea); [done|done|]. fold c b.
  intros [x d1] st1 (V1 & E1 & A1). cbn [fst snd] in E1, A1.
  set (D1 := <[n := d1]> D). set (A1' := <[n := b + 1]> A). set (C1 := <[n := C n ++ []]> C).
  assert (EC : C1 n = C n) by (unfold C1; rewrite tab_eq; apply app_nil_r).
  assert (ED : D1 n = d1) by apply tab_eq. assert (EA : A1' n = b + 1) by apply tab_eq.
  pose proof (appended_write st1 V1 _ D1 A1' C1 p (ap_holds _ _ _ _ _ _ _ _ _ _ _ _ A1)
    (ap_lay _ _ _ _ _ _ _ _ _ _ _ _ A1) HF) as W. cbv zeta in W. rewrite EC, ED, EA in W. fold c b in W.
  rewrite E1. apply wp_seq. wp_use W; [done|done|]. intros [] st2 (V2 & A2).
  apply (HK d1 st2 V2). by apply (appended_trans _ _ _ _ _ _ _ _ _ _ _ _ _ _ _ A1 A2).
Qed.

Lemma iappend_loop_spec fuel : forall st V F D A C p,
  holds st V F N -> lay V F D A C N -> A n = nblk (Z.of_nat (length (C n))) ->
  let c := Z.of_nat (length (C n)) in let c' := c + Z.of_nat (length p) in
  c' <= 71680 -> F + nslots (nblk c') - nslots (A n) <= 1024 -> (length p <= fuel)%nat ->
  wp (iappend_loop p c (D n) fuel) st (fun r st' => r.1 = c' /\ exists V',
    appended V F D A C N n p (nblk c') V' r.2 st').
Proof.
  induction fuel as [|fuel IH]; intros st V F D A C p H L Ea c c' Hc' HF Hf.
  all: destruct (decide (p = [])) as [->|Hne];
    [by apply wp_ret; split; [unfold c'; cbn; lia|]; exists V; unfold c', c; cbn [length fst snd];
      rewrite Z.add_0_r, <- Ea; apply appended_nil|].
  { destruct p; [done|cbn in Hf; lia]. }
  assert (Hp : (0 < length p)%nat) by (destruct p; [done|cbn; lia]).
  replace (iappend_loop p c (D n) (S fuel)) with
    (let fbn := c / 512 in
     assert_ (fbn <? MAXFILE) ;;;
     let! r := iappend_block fbn (D n) in
     let (x, din) := (r : Z * dinode) in
     let n1 := Z.min (Z.of_nat (length p)) ((fbn + 1) * 512 - c) in
     let! buf := rsect x in
     wsect x (splice (c - fbn * 512) (take (Z.to_nat n1) p) buf) ;;;
     iappend_loop (drop (Z.to_nat n1) p) (c + n1) din fuel) by (by destruct p).
  cbv zeta. change MAXFILE with 140. set (b := c / 512).
  assert (Hb : 0 <= b < 140 /\ b * 512 <= c < (b + 1) * 512)
    by (unfold b, c' in *; Z.to_euclidean_division_equations; lia).
  unfold assert_. rewrite (proj2 (Z.ltb_lt _ _)) by lia. apply wp_bind, wp_ret.
  assert (Hbn : b + 1 <= nblk c') by (unfold nblk, c', b; Z.to_euclidean_division_equations; lia).
  pose proof (nslots_mono _ _ Hbn) as Hm.
  set (n1 := Z.min (Z.of_nat (length p)) ((b + 1) * 512 - c)). set (p1 := take (Z.to_nat n1) p).
  assert (Hl1 : Z.of_nat (length p1) = n1) by (unfold p1, n1; rewrite length_take; lia).
  apply (iappend_chunk st V F D A C p1 (fun din => iappend_loop (drop (Z.to_nat n1) p) (c + n1) din fuel)); [done|done|done|fold c b; lia|fold c b; lia|fold c b; lia|].
  intros d1 st1 V1 A1. set (C1 := <[n := C n ++ p1]> C).
  assert (EC1 : Z.of_nat (length (C1 n)) = c + n1) by (unfold C1; rewrite tab_eq, length_app; unfold c; lia).
  pose proof (IH st1 V1 _ (<[n := d1]> D) (<[n := b + 1]> A) C1 (drop (Z.to_nat n1) p)
    (ap_holds _ _ _ _ _ _ _ _ _ _ _ _ A1) (ap_lay _ _ _ _ _ _ _ _ _ _ _ _ A1)) as IH'. cbv zeta in IH'.
  rewrite EC1, (tab_eq D), (tab_eq A), length_drop in IH'.
  replace (c + n1 + Z.of_nat (length p - Z.to_nat n1)) with c' in IH' by (unfold c', n1; lia).
  wp_use IH'; [symmetry; apply nblk_at; unfold n1; lia|done|fold c b; lia|unfold n1; lia|].
  intros r st3 (Er & V3 & A3). split; [done|]. exists V3.
  rewrite <- (take_drop (Z.to_nat n1) p). by eapply appended_trans.
Qed.

End Loop.
