(* ===== verification/MkfsImage.v ===== *)
(** * The image that mkfs builds

    The invariant of the image between two calls of mkfs's routines, what each routine
    does to it, and what the kernel's definitions see in such an image. *)

From stdpp Require Import functions.
From S2P Require Import Prelude Layout Mem Kalloc Vm State Sched Bytes Bio BioFacts Log LogFacts.
From S2P Require Import Inode Console Fs Codec FsFacts FileFacts WriteFacts IcacheFacts DirFacts.
From S2P Require Import Mkfs MkfsFacts.

Open Scope Z_scope.
#[local] Arguments insert : simpl never.

(** ** The image between two calls *)

Definition blank : dinode := DInode 0 0 0 0 0 (replicate 13 0).

(** Inode 1 is the root directory, the others are files; each has one link. *)
Definition plain_inode (m : Z) (d : dinode) : Prop :=
  di_type d = (if m =? 1 then T_DIR else T_FILE) /\ di_major d = 0 /\ di_minor d = 0 /\ di_nlink d = 1.

Definition len (l : list byte) : Z := Z.of_nat (length l).

(** Inode [m] below [N] holds the bytes [C m]. *)
Record image_ok (st : mkstate) (V : Z -> block) (F N : Z) (C : Z -> list byte) : Prop := {
  io_holds : holds st V F N;
  io_lay : lay V F (dnode V) (fun m => nblk (len (C m))) C N;
  io_size : forall m, 1 <= m < N -> di_size (dnode V m) = len (C m);
  io_plain : forall m, 1 <= m < N -> plain_inode m (dnode V m);
  io_free : forall m, N <= m < 200 -> dnode V m = blank;
  io_sb : V 1 = sb_image;
  io_inodes : 1 <= N <= 200;
  io_blocks : F <= 1024
}.

(** ** Inodes on disk *)

Lemma iblock_bounds n : 1 <= n < 200 -> 2 <= IBLOCK n <= 26.
Proof. intros Hn. unfold IBLOCK. change IPB with 8. Z.to_euclidean_division_equations. lia. Qed.

Lemma wp_rinode st V F N n Q : holds st V F N -> 1 <= n < 200 -> Q (dnode V n) st -> wp (rinode n) st Q.
Proof.
  intros H Hn HQ. pose proof (iblock_bounds n Hn). unfold rinode. change (i2b n) with (IBLOCK n).
  apply wp_bind, (wp_rsect st V F N H); [lia|]. by apply wp_ret.
Qed.

Lemma wp_winode st V F N n d (Q : unit -> mkstate -> Prop) :
  holds st V F N -> 1 <= n < 200 -> dinode_fits d ->
  (forall st' V', holds st' V' F N -> dnode V' n = d -> (forall m, m <> n -> dnode V' m = dnode V m) ->
    (forall s, s <> IBLOCK n -> V' s = V s) -> Q tt st') ->
  wp (winode n d) st Q.
Proof.
  intros H Hn Hd HQ. pose proof (iblock_bounds n Hn) as Hb. unfold winode. change (i2b n) with (IBLOCK n).
  change (n mod IPB * dinode_size) with (ioff n).
  apply wp_bind, (wp_rsect st V F N H); [lia|]. pose proof (hl_len _ _ _ _ H (IBLOCK n) ltac:(lia)) as Hl.
  pose proof (ioff_range n) as Ho. pose proof (df_addrs _ Hd) as H13.
  apply (wp_wsect st V F N H); [rewrite encode_length by lia; done|]. intros st' H'.
  apply (HQ st' _ H').
  - unfold dnode. rewrite fset_at. apply decode_encode; (done || lia).
  - intros m Hm. unfold dnode. destruct (decide (IBLOCK m = IBLOCK n)) as [E|E].
    + rewrite E, fset_at. apply decode_other; try (done || lia). { apply ioff_range. }
      destruct (ioff_apart V m n E Hm); tauto.
    + by rewrite fset_ne.
  - intros s Hs. by apply fset_ne.
Qed.

(** Blocks below 29 and the fields of inodes other than the addresses do not matter to the layout. *)
Lemma lay_low V V' F D D' A C N :
  lay V F D A C N -> (forall s, 29 <= s -> V' s = V s) ->
  (forall m, 1 <= m < N -> di_addrs (D' m) = di_addrs (D m)) -> lay V' F D' A C N.
Proof.
  intros [L1 L2 L3 L4] E ED.
  assert (Es : forall m s, 1 <= m < N -> slot V (D' m) s = slot V (D m) s).
  { intros m s Hm. unfold slot, di_addr. by rewrite ED. }
  assert (HO : forall m, 1 <= m < N -> owns V (D' m) (A m) (C m) F).
  { intros m Hm. destruct (L2 m Hm) as [O1 O2 O3 O4 O5 O6].
    split; try done; [by rewrite ED|..]; intros j; rewrite Es by done; auto. }
  assert (Hs : forall m s, 1 <= m < N -> 0 <= s < nslots (A m) -> slot V' (D' m) s = slot V (D' m) s).
  { intros m s Hm Hs. apply (slot_frame V V' (D' m) (A m)); [|slots].
    intros. apply E. apply (ow_some _ _ _ _ _ (HO m Hm) 12). slots. }
  split; [done| | |intros s Hs'; rewrite E by lia; auto].
  - intros m Hm. eapply owns_frame; [by apply HO|done|]. intros s Hs'. apply E.
    apply (ow_some _ _ _ _ _ (HO m Hm) s Hs').
  - intros m m' s s' Hm Hm' H1 H2. rewrite !Hs, !Es by done. by apply L3.
Qed.

Lemma owns_addrs V d a c F :
  owns V d a c F -> F <= 1024 -> Forall (fun z => 0 <= z < 2 ^ 32) (di_addrs d).
Proof.
  intros O HF. apply Forall_lookup_2. intros j x Hj. pose proof (lookup_lt_Some _ _ _ Hj) as Hl.
  rewrite (ow_addrs _ _ _ _ _ O) in Hl. assert (E : slot V d (Z.of_nat j) = x).
  { unfold slot, di_addr. rewrite (proj2 (Z.leb_le _ _)), Nat2Z.id by lia. by apply nth_lookup_Some. }
  rewrite <- E. destruct (decide (Z.of_nat j < nslots a)) as [Hn|Hn].
  - pose proof (ow_some _ _ _ _ _ O (Z.of_nat j) ltac:(lia)). lia.
  - rewrite (ow_none _ _ _ _ _ O); lia.
Qed.

Lemma plain_fits V m d a c F n :
  owns V d a c F -> F <= 1024 -> plain_inode m d -> 0 <= n < 2 ^ 32 -> dinode_fits (dset_size n d).
Proof.
  intros O HF (P1 & P2 & P3 & P4) Hn. split; cbn; [|apply Forall_cons; split; [done|by eapply owns_addrs]|apply O].
  rewrite P1, P2, P3, P4. destruct (m =? 1); repeat (apply Forall_cons; split; [cbv; split; congruence|]); by apply Forall_nil.
Qed.

(** ** The routines *)

Lemma iappend_spec st V F N C n p :
  image_ok st V F N C -> 1 <= n < N ->
  let c' := len (C n) + len p in let F' := F + nslots (nblk c') - nslots (nblk (len (C n))) in
  c' <= 71680 -> F' <= 1024 ->
  wp (iappend n p) st (fun _ st' => exists V', image_ok st' V' F' N (<[n := C n ++ p]> C)).
Proof.
  intros I Hn c' F' Hc HF. pose proof I as [H L Hs Hp Hf Hb HN HF0]. unfold iappend.
  apply wp_bind, (wp_rinode st V F N); [done|lia|]. rewrite (Hs n Hn).
  pose proof (ow_size _ _ _ _ _ (ly_owns _ _ _ _ _ _ L n Hn)). pose proof (ow_range _ _ _ _ _ (ly_owns _ _ _ _ _ _ L n Hn)).
  unfold len in *. rewrite xint_id by lia.
  apply wp_bind. wp_use (iappend_loop_spec N n Hn (length p) st V F (dnode V) (fun m => nblk (len (C m))) C p H L eq_refl);
    [done|done|done|]. intros [off d'] st1 (Er & V1 & [A1 A2 A3 A4]). cbn [fst snd] in *. fold c' in A1, A2, Er. fold F' in A1, A2.
  subst off. pose proof (ly_owns _ _ _ _ _ _ A2 n Hn) as O. rewrite !tab_eq in O.
  assert (Hd1 : forall m, 1 <= m < 200 -> dnode V1 m = dnode V m).
  { intros m Hm. unfold dnode. rewrite A4; [done|]. pose proof (iblock_bounds m Hm). lia. }
  assert (Pd : plain_inode n d') by (destruct (Hp n Hn) as (P1 & P2 & P3 & P4); unfold keeps in A3; rewrite A3; done).
  rewrite xint_id by lia.
  apply (wp_winode st1 V1 F' N); [done|lia|eapply plain_fits; [done..|lia]|].
  intros st2 V2 H2 Ed Eo Es. exists V2. split; try done.
  - apply (lay_ext V2 F' (<[n := dset_size c' d']> (dnode V)) _ (<[n := nblk c']> (fun m => nblk (len (C m)))) _ (<[n := C n ++ p]> C)).
    + apply (lay_low V1 _ _ (<[n := d']> (dnode V))); [done| |].
      * intros s Hs'. apply Es. pose proof (iblock_bounds n ltac:(lia)). lia.
      * intros m Hm. destruct (decide (m = n)) as [->|]; [by rewrite !tab_eq|by rewrite !tab_ne].
    + intros m Hm. destruct (decide (m = n)) as [->|Hne].
      * rewrite !tab_eq. split; [done|]. split; [|done]. unfold len, c'. rewrite length_app. f_equal. lia.
      * rewrite !tab_ne by done. rewrite Eo, Hd1 by (done || lia). done.
  - intros m Hm. destruct (decide (m = n)) as [->|Hne].
    + rewrite tab_eq, Ed. cbn. unfold len, c'. rewrite length_app. lia.
    + rewrite tab_ne, Eo, Hd1 by (done || lia). auto.
  - intros m Hm. destruct (decide (m = n)) as [->|Hne]; [by rewrite Ed|]. rewrite Eo, Hd1 by (done || lia). auto.
  - intros m Hm. rewrite Eo, Hd1 by lia. auto.
  - rewrite Es, A4; [done|lia|]. pose proof (iblock_bounds n ltac:(lia)). lia.
Qed.

Lemma ialloc_spec st V F N C type :
  image_ok st V F N C -> N < 200 -> type = (if N =? 1 then T_DIR else T_FILE) ->
  wp (mk_ialloc type) st (fun r st' => r = N /\ exists V', image_ok st' V' F (N + 1) (<[N := []]> C)).
Proof.
  intros I HN Et. pose proof I as [H L Hs Hp Hf Hb HN1 HF0]. unfold mk_ialloc. apply wp_bind, wp_gets, wp_bind, wp_modify.
  destruct H as [H1 H2 H3 H4 H5]. rewrite H5. rewrite (u32_small (N + 1)) by lia.
  assert (Htype : xshort type = type) by (rewrite Et; by destruct (N =? 1)).
  rewrite Htype. change (xshort 1) with 1. change (xint 0) with 0. set (d := DInode _ _ _ _ _ _). apply wp_bind.
  apply (wp_winode _ V F (N + 1) N d); [by split|lia| |].
  { split; cbn; [|apply Forall_cons; split; [lia|]; by apply (Forall_replicate _ 13 0)|done].
    rewrite Et. destruct (N =? 1); repeat (apply Forall_cons; split; [cbv; split; congruence|]); by apply Forall_nil. }
  intros st' V' H' Ed Eo Es. apply wp_ret. split; [done|]. exists V'.
  pose proof (iblock_bounds N ltac:(lia)) as Hib.
  assert (Hd : forall m, 1 <= m < N -> dnode V' m = dnode V m) by (intros; apply Eo; lia).
  assert (LV : lay V' F (dnode V') (fun m => nblk (len (C m))) C N).
  { apply (lay_low V V' F (dnode V)); [done|intros; apply Es; lia|]. intros m Hm. by rewrite Hd. }
  split; try done; try lia.
  - destruct LV as [L1 L2 L3 L4]. assert (H0 : nslots (nblk (len [])) = 0) by done. split; try done.
    + intros m Hm. destruct (decide (m = N)) as [->|Hne]; [|rewrite tab_ne by done; apply L2; lia].
      rewrite tab_eq, Ed. split; try done.
      * intros s Hs'. rewrite H0 in Hs'. lia.
      * rewrite H0. intros s Hs' [Hc|Hc]; [|done]. unfold slot. rewrite (proj2 (Z.leb_le _ _)) by done.
        apply nth_replicate.
      * intros j Hj. change (nblk (len [])) with 0 in Hj. lia.
    + intros m m' s s' Hm Hm' Hs1 Hs2. destruct (decide (m = N)) as [->|], (decide (m' = N)) as [->|];
        try (rewrite tab_eq, H0 in Hs1; lia); try (rewrite tab_eq, H0 in Hs2; lia).
      rewrite tab_ne in Hs1 by done. rewrite tab_ne in Hs2 by done. apply L3; lia.
  - intros m Hm. destruct (decide (m = N)) as [->|]; [by rewrite tab_eq, Ed|]. rewrite tab_ne, Hd by lia. apply Hs. lia.
  - intros m Hm. destruct (decide (m = N)) as [->|]; [by rewrite Ed|]. rewrite Hd by lia. apply Hp. lia.
  - intros m Hm. rewrite Eo by lia. apply Hf. lia.
  - rewrite Es; [done|lia].
Qed.

Lemma image_ext st V F N C C' : image_ok st V F N C -> (forall m, 1 <= m < N -> C' m = C m) -> image_ok st V F N C'.
Proof.
  intros [H L Hs Hp Hf Hb HN HF] E. split; try done.
  - apply (lay_ext _ _ _ _ _ _ _ _ _ L). intros m Hm. by rewrite E.
  - intros m Hm. rewrite E by done. auto.
Qed.

Lemma nblocks_mono a b : a <= b -> nslots (nblk a) <= nslots (nblk b).
Proof. intros. by apply nslots_mono, nblk_mono. Qed.

Lemma copy_in_spec n fuel : forall st V F N C p,
  image_ok st V F N C -> 1 <= n < N -> (length p <= fuel)%nat ->
  let c' := len (C n) + len p in let F' := F + nslots (nblk c') - nslots (nblk (len (C n))) in
  c' <= 71680 -> F' <= 1024 ->
  wp (copy_in n p fuel) st (fun _ st' => exists V', image_ok st' V' F' N (<[n := C n ++ p]> C)).
Proof.
  induction fuel as [|fuel IH]; intros st V F N C p I Hn Hf c' F' Hc HF.
  all: destruct (decide (p = [])) as [->|Hne].
  1,3: apply wp_ret; exists V; replace F' with F by (unfold F', c', len; cbn [length]; rewrite Z.add_0_r; lia);
    apply (image_ext _ _ _ _ C); [done|]; intros m Hm; destruct (decide (m = n)) as [->|];
    [by rewrite tab_eq, app_nil_r|by rewrite tab_ne].
  { destruct p; [done|cbn in Hf; lia]. }
  replace (copy_in n p (S fuel)) with (iappend n (take 512 p) ;;; copy_in n (drop 512 p) fuel) by (by destruct p).
  assert (Hl : len p = len (take 512 p) + len (drop 512 p))
    by (unfold len; rewrite <- Nat2Z.inj_add, <- length_app, take_drop; done).
  assert (0 < length p)%nat by (destruct p; [done|cbn; lia]).
  assert (Hm : nslots (nblk (len (C n) + len (take 512 p))) <= nslots (nblk c'))
    by (apply nblocks_mono; unfold c', len in *; lia).
  apply wp_bind. wp_use (iappend_spec st V F N C n (take 512 p) I Hn); [unfold c', len in *; lia|lia|].
  intros [] st1 (V1 & I1). set (C1 := <[n := C n ++ take 512 p]> C) in *.
  assert (E1 : len (C1 n) = len (C n) + len (take 512 p)) by (unfold C1; rewrite tab_eq; unfold len; rewrite length_app; lia).
  assert (E2 : len (C1 n) + len (drop 512 p) = c') by (unfold c'; lia).
  pose proof (IH st1 V1 _ N C1 (drop 512 p) I1 Hn) as IH'. cbv zeta in IH'. rewrite E2, E1 in IH'.
  wp_use IH'; [rewrite length_drop; lia|done|lia|]. intros [] st2 (V2 & I2). exists V2.
  replace F' with (F + nslots (nblk (len (C n) + len (take 512 p))) - nslots (nblk (len (C n))) + nslots (nblk c') -
    nslots (nblk (len (C n) + len (take 512 p)))) by lia.
  apply (image_ext _ _ _ _ _ _ I2). intros m Hm'. destruct (decide (m = n)) as [->|].
  - unfold C1. by rewrite !tab_eq, <- app_assoc, take_drop.
  - unfold C1. by rewrite !tab_ne.
Qed.

(** ** The files of the command line *)

(** The directory entry of a file, and those of files with consecutive inodes. *)
Definition entry (f : list byte * list byte) (n : Z) : list byte := encode_dirent (strip f.1) n.

Fixpoint file_entries (n : Z) (fs : list (list byte * list byte)) : list (list byte) :=
  match fs with
  | [] => []
  | f :: fs => entry f n :: file_entries (n + 1) fs
  end.

(** The blocks of the files. *)
Definition fblocks (f : list byte * list byte) : Z := nslots (nblk (len f.2)).
Definition cost (fs : list (list byte * list byte)) : Z := foldr (fun f a => fblocks f + a) 0 fs.

Lemma nslots_nonneg n : 0 <= n -> 0 <= nslots (nblk n).
Proof. intros Hn. assert (0 <= nblk n) by (apply Z.div_pos; lia). slots. Qed.

Lemma cost_nonneg fs : 0 <= cost fs.
Proof.
  induction fs as [|f fs IH]; [done|]. change (0 <= fblocks f + cost fs). assert (0 <= fblocks f) by (apply nslots_nonneg; unfold len; lia). lia.
Qed.

Definition file_ok_in (f : list byte * list byte) : Prop := slash ∉ f.1 /\ len f.2 <= 71680.

Lemma add_file_spec st V F N C f :
  image_ok st V F N C -> 2 <= N < 200 -> file_ok_in f -> len (C 1) + 16 <= 71680 ->
  let F' := F + nslots (nblk (len (C 1) + 16)) - nslots (nblk (len (C 1))) + fblocks f in F' <= 1024 ->
  wp (add_file 1 f) st (fun _ st' => exists V',
    image_ok st' V' F' (N + 1) (<[N := f.2]> (<[1 := C 1 ++ entry f N]> C))).
Proof.
  intros I HN [Hs Hl] Hr F' HF. unfold add_file, assert_. rewrite bool_decide_eq_true_2 by done. apply wp_bind, wp_ret.
  pose proof (nslots_nonneg (len f.2) ltac:(unfold len; lia)) as H0. fold (fblocks f) in H0.
  apply wp_bind. wp_use (ialloc_spec st V F N C T_FILE I); [lia|by rewrite (proj2 (Z.eqb_neq N 1)) by lia|].
  intros r st1 (-> & V1 & I1). set (C1 := <[N := []]> C) in *.
  assert (E1 : C1 1 = C 1) by (unfold C1; apply tab_ne; lia). rewrite xshort_id by (cbn; lia).
  assert (E16 : len (encode_dirent (strip f.1) N) = 16) by (unfold len; by rewrite encode_dirent_length).
  pose proof (iappend_spec st1 V1 F (N + 1) C1 1 (encode_dirent (strip f.1) N) I1 ltac:(lia)) as W. cbv zeta in W.
  rewrite E1, E16 in W. apply wp_bind. wp_use W; [done|lia|]. intros [] st2 (V2 & I2).
  set (C2 := <[1 := C 1 ++ entry f N]> C1). fold (entry f N) in I2. fold C2 in I2.
  assert (E2 : C2 N = []) by (unfold C2, C1; rewrite tab_ne by lia; apply tab_eq).
  pose proof (copy_in_spec N (length f.2) st2 V2 _ (N + 1) C2 f.2 I2 ltac:(lia) (le_n _)) as W'. cbv zeta in W'.
  rewrite E2 in W'. change (len []) with 0 in W'. rewrite Z.add_0_l in W'. change (nslots (nblk 0)) with 0 in W'.
  fold (fblocks f) in W'. wp_use W'; [done|lia|]. intros [] st3 (V3 & I3). exists V3.
  replace F' with (F + nslots (nblk (len (C 1) + 16)) - nslots (nblk (len (C 1))) + fblocks f - 0) by lia.
  apply (image_ext _ _ _ _ _ _ I3). intros m Hm. unfold C2, C1.
  destruct (decide (m = N)) as [->|]; [by rewrite !tab_eq|]. rewrite (tab_ne _ N) by done.
  rewrite (tab_ne (<[1 := _]> _) N) by done.
  destruct (decide (m = 1)) as [->|]; [by rewrite !tab_eq|by rewrite !tab_ne].
Qed.

(** The contents after the files were added. *)
Fixpoint contents (C : Z -> list byte) (n : Z) (fs : list (list byte * list byte)) : Z -> list byte :=
  match fs with
  | [] => C
  | f :: fs => contents (<[n := f.2]> (<[1 := C 1 ++ entry f n]> C)) (n + 1) fs
  end.

Lemma contents_root fs : forall C n, 2 <= n -> contents C n fs 1 = C 1 ++ mjoin (file_entries n fs).
Proof.
  induction fs as [|f fs IH]; intros C n Hn; cbn [contents file_entries]; [by rewrite app_nil_r|].
  rewrite IH, tab_ne, tab_eq by lia. by rewrite <- app_assoc.
Qed.

Lemma contents_file fs : forall C n m, 2 <= n -> m <> 1 ->
  contents C n fs m = match fs !! Z.to_nat (m - n) with
                      | Some f => if n <=? m then f.2 else C m
                      | None => C m
                      end.
Proof.
  induction fs as [|f fs IH]; intros C n m Hn Hm; cbn [contents]; [done|]. rewrite IH by lia.
  destruct (decide (m < n)) as [Hlt|Hge]; [|destruct (decide (m = n)) as [->|Hne]].
  - replace (Z.to_nat (m - (n + 1))) with 0%nat by lia. replace (Z.to_nat (m - n)) with 0%nat by lia.
    rewrite (proj2 (Z.leb_gt (n + 1) m)), (proj2 (Z.leb_gt n m)) by lia. cbn. rewrite !tab_ne by lia. by destruct fs.
  - replace (Z.to_nat (n - n)) with 0%nat by lia. rewrite (proj2 (Z.leb_gt (n + 1) n)), Z.leb_refl by lia. cbn.
    rewrite tab_eq. by destruct (fs !! _).
  - replace (Z.to_nat (m - n)) with (S (Z.to_nat (m - (n + 1)))) by lia. cbn.
    rewrite (proj2 (Z.leb_le (n + 1) m)), (proj2 (Z.leb_le n m)) by lia. rewrite !tab_ne by lia. done.
Qed.

Lemma add_files_spec fs : forall st V F N C,
  image_ok st V F N C -> 2 <= N -> N + Z.of_nat (length fs) <= 200 -> Forall file_ok_in fs ->
  let r' := len (C 1) + 16 * Z.of_nat (length fs) in r' <= 71680 ->
  let F' := F + nslots (nblk r') - nslots (nblk (len (C 1))) + cost fs in F' <= 1024 ->
  wp (add_files 1 fs) st (fun _ st' => exists V', image_ok st' V' F' (N + Z.of_nat (length fs)) (contents C N fs)).
Proof.
  induction fs as [|f fs IH]; intros st V F N C I HN H200 Hfs r' Hr F' HF; cbn [add_files contents length] in *.
  { apply wp_ret. exists V. unfold F', r'. cbn. rewrite !Z.add_0_r. by replace (F + _ - _) with F by lia. }
  apply Forall_cons in Hfs as [Hf Hfs]. pose proof (cost_nonneg fs) as Hc. cbn [cost foldr] in F'. fold (cost fs) in F'.
  assert (Hm : nslots (nblk (len (C 1) + 16)) <= nslots (nblk r')) by (apply nblocks_mono; unfold r'; lia).
  apply wp_bind. wp_use (add_file_spec st V F N C f I); [lia|done|lia|lia|]. intros [] st1 (V1 & I1).
  set (C1 := <[N := f.2]> (<[1 := C 1 ++ entry f N]> C)) in *.
  assert (E1 : len (C1 1) = len (C 1) + 16).
  { unfold C1. rewrite tab_ne, tab_eq by lia. unfold len, entry. rewrite length_app, encode_dirent_length. lia. }
  pose proof (IH st1 V1 _ (N + 1) C1 I1 ltac:(lia) ltac:(lia) Hfs) as W. cbv zeta in W. rewrite E1 in W.
  replace (len (C 1) + 16 + 16 * Z.of_nat (length fs)) with r' in W by (unfold r'; lia).
  wp_use W; [done|lia|]. intros [] st2 (V2 & I2). exists V2.
  replace (N + Z.of_nat (S (length fs))) with (N + 1 + Z.of_nat (length fs)) by lia.
  by replace F' with (F + nslots (nblk (len (C 1) + 16)) - nslots (nblk (len (C 1))) + fblocks f + nslots (nblk r') -
    nslots (nblk (len (C 1) + 16)) + cost fs) by lia.
Qed.

(** ** The empty image *)

Lemma get16_zeros off : get16 off zeros = 0.
Proof.
  unfold get16, slice, zeros. rewrite drop_replicate, take_replicate.
  generalize (Z.to_nat 2 `min` (512 - Z.to_nat off))%nat. intros m. induction m as [|m IH]; [done|].
  cbn. by rewrite IH.
Qed.

Lemma decode_zeros off : decode_dinode off zeros = blank.
Proof.
  unfold decode_dinode. rewrite !get16_zeros, get32_zeros. unfold blank. f_equal.
  cbn [seq fmap list_fmap]. by rewrite !get32_zeros.
Qed.

Lemma wzero_spec n : forall i st, 0 <= i ->
  wp (wzero i n) st (fun _ st' => freeblock st' = freeblock st /\ usedblocks st' = usedblocks st /\
    freeinode st' = freeinode st /\
    (forall t, i <= t < i + Z.of_nat n -> mk_img st' t = Some zeros) /\
    forall t, t < i -> mk_img st' t = mk_img st t).
Proof.
  induction n as [|n IH]; intros i st Hi; cbn [wzero]; [apply wp_ret; split_and!; (done || lia)|].
  apply wp_bind, wp_modify. wp_use (IH (i + 1)); [lia|].
  intros [] st' (H1 & H2 & H3 & H4 & H5). split_and!; try done.
  - intros t Ht. destruct (decide (t = i)) as [->|]; [|apply H4; lia].
    rewrite H5 by lia. cbn. by rewrite Z.eqb_refl.
  - intros t Ht. rewrite H5 by lia. cbn. by rewrite (proj2 (Z.eqb_neq t i)) by lia.
Qed.

Definition sb_only : Z -> block := fset 1 sb_image (fun _ => zeros).

Lemma empty_ok st C : holds st sb_only 29 1 -> image_ok st sb_only 29 1 C.
Proof.
  intros H. split; try done; try lia.
  - split; try done; try lia. intros s Hs. by apply fset_ne; lia.
  - intros m Hm. unfold dnode, sb_only. pose proof (iblock_bounds m Hm). rewrite fset_ne by lia. apply decode_zeros.
Qed.

(** ** The bitmap *)

Lemma set_bits_spec n : forall i d, 0 <= i -> i + Z.of_nat n <= 4096 -> length d = 512%nat ->
  length (set_bits i n d) = 512%nat /\
  forall b, 0 <= b < 4096 -> in_use (set_bits i n d) b = ((i <=? b) && (b <? i + Z.of_nat n)) || in_use d b.
Proof.
  induction n as [|n IH]; intros i d Hi Hn Hl; cbn [set_bits].
  - split; [done|]. intros b Hb. destruct (Z.leb_spec i b), (Z.ltb_spec b (i + Z.of_nat 0)); (done || lia).
  - destruct (IH (i + 1) (mark_used i d)) as [L U]; [lia|lia|by rewrite mark_used_length|]. split; [done|].
    intros b Hb. rewrite U, in_use_mark_used by (done || (change BPB with 4096; lia)).
    destruct (Z.eqb_spec b i) as [->|Hne].
    + rewrite orb_true_r, Z.leb_refl, (proj2 (Z.ltb_lt _ _)) by lia. done.
    + f_equal. destruct (Z.leb_spec (i + 1) b), (Z.leb_spec i b), (Z.ltb_spec b (i + 1 + Z.of_nat n)),
        (Z.ltb_spec b (i + Z.of_nat (S n))); (done || lia).
Qed.

Lemma in_use_zeros b : in_use zeros b = false.
Proof.
  rewrite in_use_bit. unfold byte_of, zeros. rewrite nth_replicate. apply Z.bits_0.
Qed.

(** Lists of 16-byte entries. *)
Lemma join_length (es : list (list byte)) :
  Forall (fun e => length e = 16%nat) es -> length (mjoin es) = (16 * length es)%nat.
Proof.
  induction 1 as [|e es He _ IH]; [done|]. change (mjoin (e :: es)) with (e ++ mjoin es).
  rewrite length_app, He, IH. cbn. lia.
Qed.

Lemma join_slice (es : list (list byte)) : Forall (fun e => length e = 16%nat) es -> forall j e,
  es !! j = Some e -> slice (16 * Z.of_nat j) 16 (mjoin es) = e.
Proof.
  induction 1 as [|e0 es He _ IH]; intros j e Ej; [done|].
  change (mjoin (e0 :: es)) with (e0 ++ mjoin es). destruct j as [|j].
  - injection Ej as <-. unfold slice. rewrite drop_0. by apply take_app_length'.
  - rewrite <- (IH j e Ej). unfold slice. rewrite drop_app_ge by lia. rewrite He. do 2 f_equal. lia.
Qed.

(** ** What the kernel sees *)

Section Files.
Context (V : Z -> block) (F N : Z) (C : Z -> list byte) (HF : F <= 1014) (HN : N <= 200).
Context (L : lay V F (dnode V) (fun m => nblk (len (C m))) C N).
Context (Hsize : forall m, 1 <= m < N -> di_size (dnode V m) = len (C m)).
Context (Hplain : forall m, 1 <= m < N -> plain_inode m (dnode V m)).

Lemma blk_slot m b : 0 <= b -> blk V (dino V m) b = slot V (dnode V m) (dslot b).
Proof.
  intros Hb. unfold blk, slot, dslot. change NDIRECT with 12. destruct (Z.ltb_spec b 12).
  - by rewrite (proj2 (Z.leb_le b 12)) by lia.
  - rewrite (proj2 (Z.leb_gt (b + 1) 12)) by lia. by replace (b + 1 - 13) with (b - 12) by lia.
Qed.

Lemma image_blocks m : 1 <= m < N -> file_ok 1014 V (dino V m).
Proof.
  intros Hm. pose proof (ly_owns _ _ _ _ _ _ L m Hm) as O. destruct (Hplain m Hm) as (P1 & _).
  pose proof (ow_size _ _ _ _ _ O) as Hs. pose proof (ow_range _ _ _ _ _ O) as Hr. unfold len in *. split.
  - done.
  - change (i_type (dino V m)) with (di_type (dnode V m)). rewrite P1. by destruct (m =? 1).
  - apply O.
  - change (i_size (dino V m)) with (di_size (dnode V m)). rewrite Hsize by done. change (MAXFILE * BSIZE) with 71680. unfold len. lia.
  - intros b Hb. change (i_size (dino V m)) with (di_size (dnode V m)). rewrite Hsize by done. change BSIZE with 512. unfold len. intros Hlt.
    rewrite blk_slot by done. pose proof (ow_some _ _ _ _ _ O (dslot b) ltac:(slots)). lia.
  - change (i_size (dino V m)) with (di_size (dnode V m)). rewrite Hsize by done. change (NDIRECT * BSIZE) with 6144. unfold len. intros Hlt.
    pose proof (ow_some _ _ _ _ _ O 12 ltac:(slots)) as H12. rewrite slot_12 in H12. unfold di_addr in H12.
    unfold addr. change NDIRECT with 12. change (i_addrs (dino V m)) with (di_addrs (dnode V m)). lia.
Qed.

Lemma image_bytes m off n :
  1 <= m < N -> 0 <= off -> 0 <= n -> off + n <= len (C m) -> window (fbyte V (dino V m)) off n = slice off n (C m).
Proof.
  intros Hm Ho Hn Hl. pose proof (ly_owns _ _ _ _ _ _ L m Hm) as O. pose proof (ow_size _ _ _ _ _ O) as Hs.
  unfold len in *. apply list_eq. intros j. unfold slice. rewrite lookup_take. case_decide as Hj.
  - rewrite window_lookup by done. unfold fbyte. change BSIZE with 512.
    rewrite blk_slot by (apply Z.div_pos; lia). rewrite (ow_data _ _ _ _ _ O) by lia. rewrite nth_lookup, lookup_drop.
    replace (Z.to_nat (off + Z.of_nat j)) with (Z.to_nat off + j)%nat by lia.
    destruct (lookup_lt_is_Some_2 (C m) (Z.to_nat off + j)) as [x ->]; [lia|done].
  - apply lookup_ge_None_2. rewrite window_length. lia.
Qed.

(** A directory made of 16-byte entries. *)
Lemma image_entries m es :
  1 <= m < N -> C m = mjoin es -> Forall (fun e => length e = 16%nat) es ->
  entries V (dino V m) = decode_dirent <$> es.
Proof.
  intros Hm Ec He. assert (Hlen : len (C m) = 16 * Z.of_nat (length es))
    by (unfold len; rewrite Ec, (join_length es) by done; lia).
  unfold entries. change (i_size (dino V m)) with (di_size (dnode V m)). rewrite Hsize by done. change dirent_size with 16.
  replace (Z.to_nat (len (C m) / 16)) with (length es) by (rewrite Hlen, Z.mul_comm, Z.div_mul by lia; lia).
  apply list_eq. intros j. rewrite !list_lookup_fmap. destruct (es !! j) as [e|] eqn:Ej.
  - rewrite lookup_seq_lt by (by eapply lookup_lt_Some). cbn [fmap option_fmap option_map Nat.add]. f_equal.
    pose proof (lookup_lt_Some _ _ _ Ej) as Hj. unfold dirent_at. change dirent_size with 16.
    rewrite image_bytes by lia. f_equal. rewrite Ec. by apply join_slice.
  - rewrite lookup_seq_ge by (by apply lookup_ge_None_1). done.
Qed.

End Files.

(** ** The whole program *)

Lemma pad_len r : 0 <= r -> r mod 512 <> 0 -> (r / 512 + 1) * 512 = 512 * nblk r.
Proof. intros Hr Hm. unfold nblk. Z.to_euclidean_division_equations. lia. Qed.

Lemma fix_root_spec st V F N C :
  image_ok st V F N C -> 1 < N -> len (C 1) mod 512 <> 0 ->
  let k := Z.to_nat (512 * nblk (len (C 1)) - len (C 1)) in
  wp (fix_root 1) st (fun _ st' => exists V', image_ok st' V' F N (<[1 := C 1 ++ replicate k x00]> C)).
Proof.
  intros I HN Hm k. pose proof I as [H L Hs Hp Hf Hb HN1 HF]. pose proof (ly_owns _ _ _ _ _ _ L 1 ltac:(lia)) as O.
  pose proof (ow_size _ _ _ _ _ O) as Hz. pose proof (ow_range _ _ _ _ _ O) as Hr. fold (len (C 1)) in Hz.
  assert (Hl0 : 0 <= len (C 1)) by (unfold len; lia).
  unfold fix_root. apply wp_bind, (wp_rinode st V F N); [done|lia|]. rewrite (Hs 1) by lia. change BSIZE with 512.
  rewrite (xint_id (len (C 1))) by lia. rewrite pad_len by done. rewrite xint_id by lia.
  set (n' := 512 * nblk (len (C 1))) in *. apply (wp_winode st V F N); [done|lia|eapply plain_fits; [done..|apply Hp; lia|lia]|].
  intros st' V' H' Ed Eo Es. exists V'. set (C' := <[1 := C 1 ++ replicate k x00]> C).
  assert (Hl' : len (C' 1) = n') by (unfold C', len in *; rewrite tab_eq, length_app, length_replicate; lia).
  assert (Hd : forall m, m <> 1 -> dnode V' m = dnode V m) by auto.
  split; try done.
  - assert (Lp : lay V F (dnode V) (fun m => nblk (len (C' m))) C' N).
    { destruct L as [L1 L2 L3 L4].
      assert (Hn : forall m, nblk (len (C' m)) = nblk (len (C m))).
      { intros m. destruct (decide (m = 1)) as [->|]; [|unfold C'; by rewrite tab_ne].
        rewrite Hl'. unfold n', nblk in *. Z.to_euclidean_division_equations. lia. }
      split; [done| | |done].
      - intros m Hm'. rewrite Hn. destruct (decide (m = 1)) as [->|]; [|unfold C'; rewrite tab_ne by done; auto].
        destruct O as [O1 O2 O3 O4 O5 O6]. split; try done; [|fold (len (C' 1)); lia].
        intros j Hj. rewrite O5 by done. unfold C'. rewrite tab_eq.
        destruct (decide (j < len (C 1))) as [Hlt|Hge]; unfold len in *.
        + by rewrite app_nth1 by lia.
        + rewrite app_nth2 by lia. rewrite nth_replicate. apply nth_overflow. lia.
      - intros m m' s s' Hm1 Hm2. rewrite !Hn. by apply L3. }
    apply (lay_low V V' F (dnode V)); [done| |].
    + intros s Hs'. apply Es. pose proof (iblock_bounds 1 ltac:(lia)). lia.
    + intros m Hm'. destruct (decide (m = 1)) as [->|]; [by rewrite Ed|by rewrite Hd].
  - intros m Hm'. destruct (decide (m = 1)) as [->|]; [by rewrite Ed, Hl'|].
    unfold C'. rewrite tab_ne, Hd by done. auto.
  - intros m Hm'. destruct (decide (m = 1)) as [->|]; [rewrite Ed; apply (Hp 1); lia|]. rewrite Hd by done. auto.
  - intros m Hm'. rewrite Hd by lia. auto.
  - rewrite Es; [done|]. pose proof (iblock_bounds 1 ltac:(lia)). lia.
Qed.

Lemma wp_mk_balloc st V F N (Q : unit -> mkstate -> Prop) :
  holds st V F N -> 0 <= F <= 1024 ->
  (forall st' bm, holds st' (fset 28 bm V) F N -> (forall b, 0 <= b < 4096 -> in_use bm b = (b <? F)) -> Q tt st') ->
  wp (let! used := gets usedblocks in mk_balloc (s32 used)) st Q.
Proof.
  intros H HF HQ. apply wp_bind, wp_gets. rewrite (hl_used _ _ _ _ H), s32_small by lia.
  unfold mk_balloc, assert_. rewrite (proj2 (Z.ltb_lt _ _)) by lia. apply wp_bind, wp_ret.
  fold zeros. destruct (set_bits_spec (Z.to_nat F) 0 zeros) as [Hl Hu]; [lia|lia|done|].
  apply (wp_wsect st V F N H); [done|]. intros st' H'. change (ninodes / IPB + 3) with 28 in *.
  apply (HQ _ _ H'). intros b Hb. rewrite Hu, in_use_zeros, orb_false_r by done.
  rewrite (proj2 (Z.leb_le 0 b)), Z2Nat.id by lia. done.
Qed.

Lemma bitmap_spec st V F N C :
  image_ok st V F N C ->
  wp (let! used := gets usedblocks in mk_balloc (s32 used)) st (fun _ st' => exists V', image_ok st' V' F N C /\
    forall b, 0 <= b < 4096 -> in_use (V' 28) b = (b <? F)).
Proof.
  intros I. pose proof I as [H L Hs Hp Hf Hb HN HF]. pose proof (ly_first _ _ _ _ _ _ L) as H29.
  apply (wp_mk_balloc st V F N); [done|lia|]. intros st' bm H' Hu. set (V' := fset 28 _ V) in *. exists V'.
  assert (Ed : forall m, 1 <= m < 200 -> dnode V' m = dnode V m).
  { intros m Hm. unfold dnode, V'. pose proof (iblock_bounds m Hm). by rewrite fset_ne by lia. }
  split; [|unfold V'; by rewrite fset_at]. split; try done.
  - apply (lay_low V V' F (dnode V)); [done|intros s Hs'; apply fset_ne; lia|].
    intros m Hm. by rewrite Ed by lia.
  - intros m Hm. rewrite Ed by lia. auto.
  - intros m Hm. rewrite Ed by lia. auto.
  - intros m Hm. rewrite Ed by lia. auto.
Qed.
