(* ===== verification/MkfsProps.v ===== *)
(** * Theorems on the file system builder

    The image that mkfs writes is a file system the kernel can use: its super block,
    bitmap, inodes, root directory and files are what the kernel's code reads. *)

From stdpp Require Import functions.
From S2P Require Import Prelude Layout Mem Kalloc Vm State Sched Bytes Bio BioFacts Log LogFacts.
From S2P Require Import LogProps.
From S2P Require Import Inode Console Fs Codec FsFacts FileFacts WriteFacts IcacheFacts DirFacts.
From S2P Require Import Mkfs MkfsFacts MkfsImage.

Open Scope Z_scope.
#[local] Arguments insert : simpl never.

(** ** The files given *)

(** The name in the directory. *)
Definition short_name (f : list byte * list byte) : list byte := take 14 (strip f.1).

(** The blocks of the root directory. *)
Definition root_blocks (fs : list (list byte * list byte)) : Z := nslots (nblk (16 * (Z.of_nat (length fs) + 2))).

(** Plain file names, all different, and files that fit the disk. *)
Record inputs_ok (fs : list (list byte * list byte)) : Prop := {
  in_files : Forall file_ok_in fs;
  in_names : Forall (fun f => no_nul f.1 /\ strip f.1 <> []) fs;
  in_nodup : NoDup (cstr "." :: cstr ".." :: (short_name <$> fs));
  in_count : Z.of_nat (length fs) <= 198;
  in_room : root_blocks fs + cost fs <= 985
}.

(** The entries do not fill the blocks of the root directory. *)
Definition part_full (fs : list (list byte * list byte)) : Prop := (Z.of_nat (length fs) + 2) mod 32 <> 0.

Definition root_start : list (list byte) := [encode_dirent (cstr ".") 1; encode_dirent (cstr "..") 1].
Definition root_chunks (fs : list (list byte * list byte)) : list (list byte) := root_start ++ file_entries 2 fs.

Lemma file_entries_16 fs : forall n, Forall (fun e => length e = 16%nat) (file_entries n fs).
Proof. induction fs as [|f fs IH]; intros n; cbn; constructor; [apply encode_dirent_length|auto]. Qed.

Lemma root_chunks_16 fs : Forall (fun e => length e = 16%nat) (root_chunks fs).
Proof. apply Forall_app. split; [|apply file_entries_16]. repeat constructor. Qed.

Lemma file_entries_lookup fs : forall n j, file_entries n fs !! j = (fun f => entry f (n + Z.of_nat j)) <$> fs !! j.
Proof.
  induction fs as [|f fs IH]; intros n [|j]; try done; cbn [file_entries].
  - change (Some (entry f n) = Some (entry f (n + 0))). by rewrite Z.add_0_r.
  - change (file_entries (n + 1) fs !! j = (fun f => entry f (n + Z.of_nat (S j))) <$> fs !! j).
    rewrite (IH (n + 1) j). destruct (fs !! j); cbn [fmap option_fmap option_map]; [do 2 f_equal; lia|done].
Qed.

Lemma file_entries_length fs n : length (file_entries n fs) = length fs.
Proof. revert n. induction fs as [|f fs IH]; intros n; cbn; auto. Qed.

Lemma root_chunks_len fs : len (mjoin (root_chunks fs)) = 16 * (Z.of_nat (length fs) + 2).
Proof.
  unfold len. rewrite (join_length _ (root_chunks_16 fs)). unfold root_chunks.
  rewrite length_app, file_entries_length. cbn. lia.
Qed.

(** ** Running mkfs *)

(** The contents of the inodes when the size of the root directory has been fixed. *)
Definition final (fs : list (list byte * list byte)) (m : Z) : list byte :=
  if m =? 1 then
    mjoin (root_chunks fs ++
      replicate (Z.to_nat (32 * nblk (16 * (Z.of_nat (length fs) + 2)) - (Z.of_nat (length fs) + 2))) (replicate 16 x00))
  else match fs !! Z.to_nat (m - 2) with Some f => f.2 | None => [] end.

Definition first_free (fs : list (list byte * list byte)) : Z := 29 + root_blocks fs + cost fs.

Lemma join_zeros n : mjoin (replicate n (replicate 16 x00)) = replicate (16 * n) x00.
Proof.
  induction n as [|n IH]; [done|]. change (mjoin (replicate (S n) (replicate 16 x00))) with
    (replicate 16 x00 ++ mjoin (replicate n (replicate 16 x00))). rewrite IH, <- replicate_add. f_equal. lia.
Qed.

(** Up to the first two entries of the root directory. *)
Lemma mkfs_start_spec (K : Z -> MK unit) Q :
  (forall st V, image_ok st V 30 2 (<[1 := mjoin root_start]> (fun _ => [])) -> wp (K 1) st Q) ->
  wp (modify (fun s => Mk (mk_img s) firstfree firstfree (freeinode s)) ;;;
      assert_ (nblocks + firstfree + nlog =? fssize) ;;;
      wzero 0 (Z.to_nat (nblocks + firstfree + nlog)) ;;;
      wsect 1 sb_image ;;;
      let! rootino := mk_ialloc T_DIR in
      assert_ (rootino =? ROOTINO) ;;;
      iappend rootino (encode_dirent (cstr ".") (xshort rootino)) ;;;
      iappend rootino (encode_dirent (cstr "..") (xshort rootino)) ;;;
      K rootino) mk_start Q.
Proof.
  intros HK. apply wp_bind, wp_modify, wp_bind, wp_ret, wp_bind. change firstfree with 29.
  change (nblocks + 29 + nlog) with 1024. wp_use wzero_spec; [done|].
  intros [] st1 (E1 & E2 & E3 & E4 & _). cbn in E1, E2, E3.
  assert (H1 : holds st1 (fun _ => zeros) 29 1) by (split; try done; intros; apply E4; lia).
  apply wp_bind, (wp_wsect st1 _ _ _ H1); [done|]. intros st2 H2. pose proof (empty_ok st2 (fun _ => []) H2) as I2.
  apply wp_bind. wp_use (ialloc_spec st2 _ _ _ _ T_DIR I2); [lia|done|]. intros r st3 (-> & V3 & I3).
  apply wp_bind, wp_ret. change (xshort 1) with 1. change (1 + 1) with 2 in I3.
  set (C3 := <[1 := []]> _) in I3. assert (EC3 : C3 1 = []) by apply tab_eq.
  pose proof (iappend_spec st3 V3 29 2 C3 1 (encode_dirent (cstr ".") 1) I3 ltac:(lia)) as W. cbv zeta in W.
  rewrite EC3 in W. apply wp_bind. wp_use W; [by apply Z.leb_le|by apply Z.leb_le|]. clear W.
  intros [] st4 (V4 & I4). set (C4 := <[1 := _]> C3) in I4. assert (EC4 : C4 1 = encode_dirent (cstr ".") 1) by apply tab_eq.
  pose proof (iappend_spec st4 V4 _ 2 C4 1 (encode_dirent (cstr "..") 1) I4 ltac:(lia)) as W. cbv zeta in W.
  rewrite EC4 in W. apply wp_bind. wp_use W; [by apply Z.leb_le|by apply Z.leb_le|]. clear W.
  intros [] st5 (V5 & I5). apply (HK st5 V5).
  apply (image_ext st5 V5 30 2 _ _ I5). intros m Hm. assert (m = 1) as -> by lia. by rewrite !tab_eq.
Qed.

Lemma final_root fs : final fs 1 = mjoin (root_chunks fs) ++
  replicate (Z.to_nat (512 * nblk (len (mjoin (root_chunks fs))) - len (mjoin (root_chunks fs)))) x00.
Proof.
  unfold final. cbn [Z.eqb Pos.eqb]. rewrite join_app, join_zeros, root_chunks_len. f_equal. f_equal. lia.
Qed.

(** Up to the last file. *)
Lemma mkfs_files_spec fs Q : inputs_ok fs ->
  (forall st V C, image_ok st V (first_free fs) (2 + Z.of_nat (length fs)) C -> C 1 = mjoin (root_chunks fs) ->
    (forall m, 1 < m < 2 + Z.of_nat (length fs) -> C m = final fs m) ->
    wp (fix_root 1 ;;; let! used := gets usedblocks in mk_balloc (s32 used)) st Q) ->
  wp (mkfs fs) mk_start Q.
Proof.
  intros [Hf Hnm Hnd Hc Hr] HQ. unfold mkfs.
  apply (mkfs_start_spec (fun rootino => add_files rootino fs ;;; fix_root rootino ;;;
    let! used := gets usedblocks in mk_balloc (s32 used))). intros st V I.
  set (C := <[1 := mjoin root_start]> (fun _ => [])) in I. assert (EC : C 1 = mjoin root_start) by apply tab_eq.
  pose proof (add_files_spec fs st V 30 2 C I ltac:(lia) ltac:(lia) Hf) as W. cbv zeta in W.
  rewrite EC in W. change (len (mjoin root_start)) with 32 in W.
  replace (32 + 16 * Z.of_nat (length fs)) with (16 * (Z.of_nat (length fs) + 2)) in W by lia.
  change (nslots (nblk 32)) with 1 in W. fold (root_blocks fs) in W.
  replace (30 + root_blocks fs - 1 + cost fs) with (first_free fs) in W by (unfold first_free; lia).
  apply wp_bind. wp_use W; [lia|unfold first_free; lia|]. clear W. intros [] st1 (V1 & I1).
  apply (HQ st1 V1 _ I1).
  - rewrite contents_root, EC by lia. unfold root_chunks. by rewrite join_app.
  - intros m Hm. rewrite contents_file by lia. unfold final. rewrite (proj2 (Z.eqb_neq m 1)) by lia.
    unfold C. rewrite tab_ne by lia. destruct (fs !! _); [|done]. by rewrite (proj2 (Z.leb_le 2 m)) by lia.
Qed.

Lemma mkfs_run fs : inputs_ok fs -> part_full fs ->
  wp (mkfs fs) mk_start (fun _ st => exists V,
    image_ok st V (first_free fs) (2 + Z.of_nat (length fs)) (final fs) /\
    forall b, 0 <= b < 4096 -> in_use (V 28) b = (b <? first_free fs)).
Proof.
  intros Hin Hd. apply mkfs_files_spec; [done|]. intros st V C I E1 EC.
  apply wp_bind. wp_use (fix_root_spec st V _ _ _ I); [lia| |].
  { rewrite E1, root_chunks_len. unfold part_full in Hd. Z.to_euclidean_division_equations. lia. }
  intros [] st2 (V2 & I2).
  assert (I3 : image_ok st2 V2 (first_free fs) (2 + Z.of_nat (length fs)) (final fs)).
  { apply (image_ext _ _ _ _ _ _ I2). intros m Hm. destruct (decide (m = 1)) as [->|Hne].
    - rewrite tab_eq, E1. apply final_root.
    - rewrite tab_ne, EC by (done || lia). done. }
  wp_use (bitmap_spec st2 V2 _ _ _ I3). intros [] st3 H3. done.
Qed.

(** ** The root directory *)

(** Each entry in use carries a name and an inode number. *)
Lemma chunk_at fs j e : inputs_ok fs -> root_chunks fs !! j = Some e ->
  exists nm, e = encode_dirent nm (if (j <? 2)%nat then 1 else Z.of_nat j) /\ no_nul nm /\
    (cstr "." :: cstr ".." :: (short_name <$> fs)) !! j = Some (take 14 nm).
Proof.
  intros [Hf Hnm _ _ _] Ej. unfold root_chunks, root_start in Ej. destruct j as [|[|j]].
  - injection Ej as <-. exists (cstr "."). split; [done|]. split; [|done]. by apply (bool_decide_unpack _).
  - injection Ej as <-. exists (cstr ".."). split; [done|]. split; [|done]. by apply (bool_decide_unpack _).
  - cbn [app] in Ej. change (file_entries 2 fs !! j = Some e) in Ej. rewrite file_entries_lookup in Ej.
    destruct (fs !! j) as [f|] eqn:E; [|done]. injection Ej as <-. exists (strip f.1).
    rewrite Forall_lookup in Hnm. destruct (Hnm j f E) as [Hn _]. split_and!.
    + unfold entry. f_equal. replace (S (S j) <? 2)%nat with false by (symmetry; apply Nat.ltb_ge; lia). lia.
    + unfold strip. destruct f.1 as [|c l]; [done|]. case_bool_decide; [|done]. unfold no_nul in *. set_solver.
    + change ((short_name <$> fs) !! j = Some (take 14 (strip f.1))). by rewrite list_lookup_fmap, E.
Qed.

Lemma dir_find_at name es : forall off j e,
  es !! j = Some e -> matches name e = true -> (forall i e', (i < j)%nat -> es !! i = Some e' -> matches name e' = false) ->
  dir_find name es off = Some (de_inum e, off + dirent_size * Z.of_nat j).
Proof.
  induction es as [|e0 es IH]; intros off j e Ej Hm Hb; [done|]. cbn [dir_find]. destruct j as [|j].
  - injection Ej as ->. rewrite Hm. do 2 f_equal. lia.
  - rewrite (Hb 0%nat e0) by (done || lia). rewrite (IH _ j e) by (try done; intros i e' Hi; apply (Hb (S i)); lia).
    do 2 f_equal. lia.
Qed.

(** The directory as the kernel's definitions see it. *)
Section Root.
Context (fs : list (list byte * list byte)) (Hin : inputs_ok fs) (V : Z -> block).
Context (es : list dirent) (k : nat)
  (Ees : es = decode_dirent <$> (root_chunks fs ++ replicate k (replicate 16 x00))).

Lemma root_length : length (root_chunks fs) = (2 + length fs)%nat.
Proof. unfold root_chunks. by rewrite length_app, file_entries_length. Qed.

Lemma entry_at j e : es !! j = Some e -> (j < 2 + length fs)%nat ->
  de_inum e = (if (j <? 2)%nat then 1 else Z.of_nat j) /\
  forall key, no_nul key -> matches key e = true <->
    (cstr "." :: cstr ".." :: (short_name <$> fs)) !! j = Some (take 14 key).
Proof.
  intros Ej Hj. rewrite Ees, list_lookup_fmap, lookup_app_l in Ej by (rewrite root_length; lia).
  destruct (root_chunks fs !! j) as [c|] eqn:Ec; [|done]. injection Ej as <-.
  destruct (chunk_at fs j c Hin Ec) as (nm & -> & Hn & ->). pose proof (in_count _ Hin) as Hc.
  set (i := if (j <? 2)%nat then 1 else Z.of_nat j).
  assert (Hi : 0 < i < 2 ^ 16) by (unfold i; destruct (Nat.ltb_spec j 2); lia).
  split; [by apply (dirent_facts nm i []); [done|apply not_elem_of_nil|lia]|].
  intros key Hk. destruct (dirent_facts nm i key Hn Hk) as (E1 & _ & E3); [lia|].
  unfold matches. rewrite E1, (proj2 (Z.eqb_neq i 0)) by lia. cbn [negb andb]. rewrite Z.eqb_eq, E3.
  change (Z.to_nat DIRSIZ) with 14%nat. split; [by intros ->|by intros [=]].
Qed.

(** Behind them all entries are free. *)
Lemma entry_free j e : es !! j = Some e -> (2 + length fs <= j)%nat -> de_inum e = 0.
Proof.
  intros Ej Hj. rewrite Ees, list_lookup_fmap, lookup_app_r in Ej by (rewrite root_length; lia).
  destruct (replicate k (replicate 16 x00) !! _) as [c|] eqn:Ec; [|done]. injection Ej as <-.
  by apply lookup_replicate in Ec as [-> _].
Qed.

Lemma entry_inum e : e ∈ es -> de_inum e <> 0 -> 1 <= de_inum e < 2 + Z.of_nat (length fs).
Proof.
  intros [j Ej]%list_elem_of_lookup Hz. destruct (decide (j < 2 + length fs)%nat) as [Hj|Hj].
  - destruct (entry_at j e Ej Hj) as [-> _]. destruct (Nat.ltb_spec j 2); lia.
  - destruct Hz. apply (entry_free j e Ej). lia.
Qed.

Lemma root_find i f : fs !! i = Some f ->
  dir_find (short_name f) es 0 = Some (2 + Z.of_nat i, dirent_size * (2 + Z.of_nat i)).
Proof.
  intros Ef. pose proof (lookup_lt_Some _ _ _ Ef) as Hi.
  assert (Hk : no_nul (short_name f)).
  { pose proof (in_names _ Hin) as Hn. rewrite Forall_lookup in Hn. destruct (Hn i f Ef) as [Hn1 _].
    unfold short_name, no_nul in *. intros (p & Ep & _)%elem_of_take. apply Hn1.
    unfold strip in Ep. destruct f.1 as [|c l]; [done|]. case_bool_decide; [|by eapply list_elem_of_lookup_2].
    right. by eapply list_elem_of_lookup_2. }
  assert (Hlt : (2 + i < length es)%nat).
  { rewrite Ees, length_fmap, length_app, root_length. lia. }
  destruct (lookup_lt_is_Some_2 es (2 + i) Hlt) as [e Ee].
  assert (En : forall j, (cstr "." :: cstr ".." :: (short_name <$> fs)) !! j = Some (take 14 (short_name f)) <-> j = (2 + i)%nat).
  { assert (E2 : (cstr "." :: cstr ".." :: (short_name <$> fs)) !! (2 + i)%nat = Some (take 14 (short_name f))).
    { change ((short_name <$> fs) !! i = Some (take 14 (short_name f))). rewrite list_lookup_fmap, Ef. cbn.
      unfold short_name. by rewrite take_take. }
    intros j. split; [|by intros ->]. intros Ej. by apply (NoDup_lookup _ _ _ _ (in_nodup _ Hin) Ej E2). }
  destruct (entry_at (2 + i) e Ee ltac:(lia)) as [E1 E2].
  rewrite (dir_find_at _ es 0 (2 + i) e); [|done|by apply E2, En|].
  - rewrite E1. replace (2 + i <? 2)%nat with false by (symmetry; apply Nat.ltb_ge; lia). do 2 f_equal; lia.
  - intros j e' Hj Ej. destruct (entry_at j e' Ej ltac:(lia)) as [_ E']. destruct (matches (short_name f) e') eqn:Em; [|done].
    apply E' in Em; [|done]. apply En in Em. lia.
Qed.

End Root.

(** ** The disk *)

(** Block [b] of the file of an inode in use. *)
Definition in_file (V : Z -> block) (n b : Z) : Prop :=
  1 <= n < 200 /\ di_type (dnode V n) <> 0 /\ 0 <= b /\ BSIZE * b < di_size (dnode V n).

(** What the kernel finds on the disk: the geometry and the log where it expects them;
    well-formed directories; the blocks before [F] marked and the rest, the log included,
    zero; no block in two places; and every file, found under its name in the root
    directory, with its bytes. *)
Record disk_of (fs : list (list byte * list byte)) (F : Z) (V : Z -> block) : Prop := {
  dk_fs : fs_ok 1014 10 200 V;
  dk_log : placed 1014 10 V;
  dk_tree : tree 1014 200 V;
  dk_bitmap : forall b, 0 <= b < 1024 -> used 200 V b = (b <? F);
  dk_clean : forall b, F <= b < 1024 -> V b = replicate 512 x00;
  dk_range : forall n b, in_file V n b -> 29 <= blk V (dino V n) b < F;
  dk_once : forall n b n' b', in_file V n b -> in_file V n' b' ->
    blk V (dino V n) b = blk V (dino V n') b' -> n = n' /\ b = b';
  dk_free : forall n, 2 + Z.of_nat (length fs) <= n < 200 -> di_type (dnode V n) = 0;
  dk_files : forall i f, fs !! i = Some f -> let n := 2 + Z.of_nat i in
    walk V false ROOTINO (elements (slash :: strip f.1)) = Some (n, []) /\
    di_type (dnode V n) = T_FILE /\ di_nlink (dnode V n) = 1 /\ file_ok 1014 V (dino V n) /\
    i_size (dino V n) = Z.of_nat (length f.2) /\ window (fbyte V (dino V n)) 0 (Z.of_nat (length f.2)) = f.2
}.

Lemma elements_one name : name <> [] -> slash ∉ name -> elements (slash :: name) = [take 14 name].
Proof.
  intros Hne Hs. rewrite elements_slash. unfold elements.
  assert (E : pieces name = [name]).
  { clear Hne. induction name as [|c name IH]; [done|]. rewrite not_elem_of_cons in Hs. destruct Hs as [Hc Hs].
    cbn [pieces]. rewrite bool_decide_eq_false_2 by congruence. by rewrite IH. }
  rewrite E. rewrite filter_cons_True by done. done.
Qed.

Section Disk.
Context (fs : list (list byte * list byte)) (Hin : inputs_ok fs) (st : mkstate) (V : Z -> block).
Context (I : image_ok st V (first_free fs) (2 + Z.of_nat (length fs)) (final fs)).
Context (Hbm : forall b, 0 <= b < 4096 -> in_use (V 28) b = (b <? first_free fs)).

Lemma first_bound : first_free fs <= 1014.
Proof. pose proof (in_room _ Hin). unfold first_free. lia. Qed.

Lemma root_entries : exists k, entries V (dino V 1) = decode_dirent <$> (root_chunks fs ++ replicate k (replicate 16 x00)).
Proof.
  eexists. eapply image_entries; [exact (io_lay _ _ _ _ _ I)|exact (io_size _ _ _ _ _ I)|lia|reflexivity|].
  apply Forall_app. split; [apply root_chunks_16|by apply Forall_replicate].
Qed.

Lemma disk_in_file n b : in_file V n b -> 1 <= n < 2 + Z.of_nat (length fs) /\ 0 <= b /\ b < nblk (len (final fs n)).
Proof.
  intros (Hn & Ht & Hb & Hs). destruct (decide (n < 2 + Z.of_nat (length fs))) as [Hlt|Hge].
  - split; [lia|]. split; [done|]. rewrite (io_size _ _ _ _ _ I) in Hs by lia. unfold nblk.
    change BSIZE with 512 in Hs. Z.to_euclidean_division_equations. lia.
  - destruct Ht. by rewrite (io_free _ _ _ _ _ I) by lia.
Qed.

Lemma disk_tree : tree 1014 200 V.
Proof.
  pose proof (in_count _ Hin) as Hc. pose proof first_bound as HF.
  assert (Hone : forall n, 1 <= n < 200 -> di_type (dnode V n) = T_DIR -> n = 1).
  { intros n Hn Ht. destruct (decide (n < 2 + Z.of_nat (length fs))) as [Hlt|Hge].
    - destruct (io_plain _ _ _ _ _ I n ltac:(lia)) as (P1 & _). rewrite Ht in P1.
      by destruct (Z.eqb_spec n 1).
    - by rewrite (io_free _ _ _ _ _ I) in Ht by lia. }
  split.
  - intros n Hn. pose proof (iblock_bounds n Hn). lia.
  - intros n Hn Ht. pose proof (Hone n Hn Ht) as ->. split.
    + eapply image_blocks; [done|exact (io_lay _ _ _ _ _ I)|apply I|apply I|lia].
    + exact Ht.
    + change (i_size (dino V 1)) with (di_size (dnode V 1)). rewrite (io_size _ _ _ _ _ I) by lia.
      unfold len, final. cbn [Z.eqb Pos.eqb]. rewrite join_length.
      * rewrite Nat2Z.inj_mul, Z.mul_comm. by apply Z.mod_mul.
      * apply Forall_app. split; [apply root_chunks_16|by apply Forall_replicate].
  - intros n e Hn Ht He Hz. pose proof (Hone n Hn Ht) as ->. destruct root_entries as [k Ek].
    pose proof (entry_inum fs Hin _ k Ek e He Hz) as Hr. split; [lia|].
    destruct (io_plain _ _ _ _ _ I (de_inum e) ltac:(lia)) as (-> & _ & _ & ->).
    split; [by destruct (_ =? 1)|done].
Qed.

Lemma disk_file i f : fs !! i = Some f -> let n := 2 + Z.of_nat i in
  walk V false ROOTINO (elements (slash :: strip f.1)) = Some (n, []) /\
  di_type (dnode V n) = T_FILE /\ di_nlink (dnode V n) = 1 /\ file_ok 1014 V (dino V n) /\
  i_size (dino V n) = Z.of_nat (length f.2) /\ window (fbyte V (dino V n)) 0 (Z.of_nat (length f.2)) = f.2.
Proof.
  intros Ef n. pose proof (lookup_lt_Some _ _ _ Ef) as Hi. pose proof first_bound as HF.
  assert (Hn : 1 <= n < 2 + Z.of_nat (length fs)) by (unfold n; lia).
  assert (En : final fs n = f.2).
  { unfold final. rewrite (proj2 (Z.eqb_neq n 1)) by (unfold n; lia). replace (Z.to_nat (n - 2)) with i by (unfold n; lia). by rewrite Ef. }
  destruct (io_plain _ _ _ _ _ I n Hn) as (P1 & _ & _ & P4). rewrite (proj2 (Z.eqb_neq n 1)) in P1 by (unfold n; lia).
  pose proof (in_names _ Hin) as Hnm. rewrite Forall_lookup in Hnm. destruct (Hnm i f Ef) as [_ Hne].
  pose proof (in_files _ Hin) as Hfl. rewrite Forall_lookup in Hfl. destruct (Hfl i f Ef) as [Hsl _].
  split_and!; try done.
  - rewrite elements_one; [|done|].
    2: { unfold strip. destruct f.1 as [|c l]; [done|]. case_bool_decide; set_solver. }
    cbn [walk]. destruct (io_plain _ _ _ _ _ I 1 ltac:(lia)) as (Q1 & _).
    change (di_type (dnode V ROOTINO)) with (di_type (dnode V 1)). rewrite Q1. cbn [Z.eqb Pos.eqb negb andb].
    destruct root_entries as [k Ek]. unfold dir_lookup. change ROOTINO with 1. fold (short_name f).
    by rewrite (root_find fs Hin _ k Ek i f Ef).
  - eapply image_blocks; [done|exact (io_lay _ _ _ _ _ I)|apply I|apply I|done].
  - change (i_size (dino V n)) with (di_size (dnode V n)). rewrite (io_size _ _ _ _ _ I n Hn), En. done.
  - erewrite image_bytes; [|exact (io_lay _ _ _ _ _ I)|done|lia|lia|rewrite En; unfold len; lia].
    rewrite En. unfold slice. rewrite drop_0, Nat2Z.id. apply take_ge. lia.
Qed.

Lemma disk_image : disk_of fs (first_free fs) V.
Proof.
  pose proof first_bound as HF. pose proof (in_count _ Hin) as Hc. pose proof I as [H L Hs Hp Hf Hb HN HF1].
  pose proof (ly_first _ _ _ _ _ _ L) as H29.
  assert (Hu : forall b, 0 <= b < 1024 -> used 200 V b = (b <? first_free fs)).
  { intros b Hb'. unfold used. rewrite Z.mod_small by (change BPB with 4096; lia). unfold BBLOCK.
    rewrite Z.div_small by (change BPB with 4096; lia). apply Hbm. lia. }
  split; try done.
  - split; [split; rewrite ?Hb; done|done| |].
    + intros j Hj. change (meta 1014 10 200) with 29 in Hj. rewrite Hu by lia. apply Z.ltb_lt. lia.
    + intros t Ht. apply (hl_len _ _ _ _ H). lia.
  - unfold placed. rewrite Hb. done.
  - apply disk_tree.
  - intros b Hb'. apply (ly_zero _ _ _ _ _ _ L). lia.
  - intros n b Hnb. destruct (disk_in_file n b Hnb) as (Hn & Hb0 & Hlt). rewrite blk_slot by done.
    apply (ow_some _ _ _ _ _ (ly_owns _ _ _ _ _ _ L n Hn)). slots.
  - intros n b n' b' Hnb Hnb'. destruct (disk_in_file n b Hnb) as (Hn & Hb0 & Hlt), (disk_in_file n' b' Hnb') as (Hn' & Hb0' & Hlt').
    rewrite !blk_slot by done. intros E. apply (ly_inj _ _ _ _ _ _ L) in E as [-> E]; [|done|done|slots|slots].
    split; [done|]. slots.
  - intros n Hn. by rewrite Hf.
  - apply disk_file.
Qed.

End Disk.

(** C11. The program that builds the disk and the kernel agree: for plain files that fit, in a
    number that leaves room in the last block of the root directory,
    [mkfs] ends without a failed assertion, and the image it writes is a file system in the
    sense of the kernel's theorems.  The super block places the log, the bitmap marks exactly
    the blocks in use, no block belongs to two files, every directory entry names an inode in
    use, and the walk along the path of each file reaches an inode with exactly the bytes of
    the file. *)
Theorem mkfs_correct fs :
  inputs_ok fs -> part_full fs -> exists st V, mkfs fs mk_start = Ok tt st /\
    (forall s, 0 <= s < 1024 -> mk_img st s = Some (V s)) /\ disk_of fs (first_free fs) V.
Proof.
  intros Hin Hd. pose proof (mkfs_run fs Hin Hd) as W. destruct (proj1 (wp_Ok _ _ _) W) as ([] & st & E & V & I & Hb).
  exists st, V. split; [done|]. split; [apply I|]. by apply (disk_image fs Hin st).
Qed.

(** The end of the program when the entries end with a block. *)
Lemma fix_root_full st V F N C :
  image_ok st V F N C -> 1 < N -> len (C 1) mod 512 = 0 -> len (C 1) <= 3200 ->
  wp (fix_root 1 ;;; let! used := gets usedblocks in mk_balloc (s32 used)) st (fun _ st' => exists V',
    (forall s, 0 <= s < 1024 -> mk_img st' s = Some (V' s)) /\
    i_size (dino V' 1) = len (C 1) + 512 /\ blk V' (dino V' 1) (len (C 1) / 512) = 0).
Proof.
  intros I HN1 Hm Hle. set (r := len (C 1)) in *. assert (H0 : 0 <= r) by (unfold r, len; lia).
  pose proof I as [H L Hs Hp Hf Hb HN HF]. pose proof (ly_first _ _ _ _ _ _ L) as H29.
  pose proof (ly_owns _ _ _ _ _ _ L 1 ltac:(lia)) as O. cbv beta in O. fold r in O.
  assert (Hq : nblk r = r / 512 /\ 0 <= r / 512 <= 6 /\ (r / 512 + 1) * 512 = r + 512)
    by (unfold nblk; Z.to_euclidean_division_equations; lia).
  destruct Hq as (Eq & Hq & Er). rewrite Eq in O. apply wp_bind. unfold fix_root.
  apply wp_bind, (wp_rinode st V F N); [done|lia|]. rewrite (Hs 1) by lia. fold r.
  change BSIZE with 512. rewrite (xint_id r), Er, xint_id by lia.
  apply (wp_winode st V F N); [done|lia|eapply plain_fits; [done..|apply Hp; lia|lia]|].
  intros st1 V1 H1 Ed Eo Es.
  apply (wp_mk_balloc st1 V1 F N); [done|lia|]. intros st2 bm H2 _. exists (fset 28 bm V1). split; [apply H2|].
  assert (Ed2 : dnode (fset 28 bm V1) 1 = dset_size (r + 512) (dnode V 1)) by (rewrite <- Ed; done).
  split; [change (di_size (dnode (fset 28 bm V1) 1) = r + 512); by rewrite Ed2|].
  rewrite blk_slot by lia. unfold slot. replace (dslot (r / 512)) with (r / 512) by slots.
  rewrite (proj2 (Z.leb_le _ _)), Ed2 by lia.
  change (di_addr (dnode V 1) (r / 512) = 0). rewrite <- (ow_none _ _ _ _ _ O (r / 512)) by slots.
  unfold slot. by rewrite (proj2 (Z.leb_le _ _)) by lia.
Qed.

(** A root directory whose blocks are full is damaged: when the number of files makes
    the entries end with a block, the size that [mkfs] writes covers one more block, which
    is not there.  The kernel's file is not well formed, and a lookup that gets that far
    makes [bmap] allocate a block in the middle of reading. *)
Theorem mkfs_full_directory fs :
  inputs_ok fs -> ~ part_full fs -> exists st V, mkfs fs mk_start = Ok tt st /\
    (forall s, 0 <= s < 1024 -> mk_img st s = Some (V s)) /\
    let ip := dino V ROOTINO in let entries_end := 16 * (Z.of_nat (length fs) + 2) in
    i_size ip = entries_end + BSIZE /\ blk V ip (entries_end / BSIZE) = 0 /\ ~ file_ok 1014 V ip.
Proof.
  intros Hin Hd. set (r := 16 * (Z.of_nat (length fs) + 2)). pose proof (in_count _ Hin) as Hc.
  assert (Hr : r mod 512 = 0 /\ 0 < r <= 3200).
  { unfold part_full in Hd. assert ((Z.of_nat (length fs) + 2) mod 32 = 0) by lia. unfold r.
    Z.to_euclidean_division_equations. lia. }
  assert (W : wp (mkfs fs) mk_start (fun _ st => exists V, (forall s, 0 <= s < 1024 -> mk_img st s = Some (V s)) /\
    i_size (dino V 1) = r + 512 /\ blk V (dino V 1) (r / 512) = 0)).
  { apply mkfs_files_spec; [done|]. intros st V C I E1 _.
    assert (El : len (C 1) = r) by (rewrite E1; apply root_chunks_len). rewrite <- El.
    apply (fix_root_full st V _ _ _ I); [lia|rewrite El; apply Hr|lia]. }
  destruct (proj1 (wp_Ok _ _ _) W) as ([] & st & E & V & H1 & H2 & H3). exists st, V.
  do 4 (split; [done|]). intros Fo.
  pose proof (fo_blocks _ _ _ Fo (r / 512)) as Hb. change ROOTINO with 1 in Hb. change BSIZE with 512 in Hb.
  rewrite H2, H3 in Hb. Z.to_euclidean_division_equations. lia.
Qed.

(** ** Witnesses *)

(** Two files; thirty empty ones. *)
Definition ex_files : list (list byte * list byte) :=
  [(cstr "_cat", replicate 700 x41); (cstr "README", cstr "hello")].
Definition ex_many : list (list byte * list byte) :=
  (fun i : nat => ([z2b (97 + Z.of_nat i)], [])) <$> seq 0 30.

#[global] Instance file_ok_in_dec f : Decision (file_ok_in f).
Proof. unfold file_ok_in. apply _. Defined.
#[global] Instance named_dec (f : list byte * list byte) : Decision (no_nul f.1 /\ strip f.1 <> []).
Proof. unfold no_nul. apply _. Defined.

Lemma mkfs_correct_witness : exists st V, mkfs ex_files mk_start = Ok tt st /\
  (forall s, 0 <= s < 1024 -> mk_img st s = Some (V s)) /\ disk_of ex_files (first_free ex_files) V.
Proof.
  apply mkfs_correct; [split|].
  - apply (bool_decide_unpack _). vm_compute. exact I.
  - apply (bool_decide_unpack _). vm_compute. exact I.
  - apply (bool_decide_unpack _). vm_compute. exact I.
  - by apply Z.leb_le.
  - by apply Z.leb_le.
  - by apply Z.eqb_neq.
Defined.

