(* ===== verification/ConsoleProps.v ===== *)
(** * Theorems on the console

    Numbers are printed as their digits; the input buffer is a line editor in
    front of a queue of finished lines. *)

From S2P Require Import Prelude Layout Mem Kalloc Vm State Sched Bytes Bio BioFacts Log LogFacts.
From S2P Require Import Inode Console Fs FsFacts FileFacts WriteFacts IcacheFacts.

Open Scope Z_scope.

(** ** Printed numbers *)

(** The value of a digit, and of a string of digits, most significant first. *)
Definition digit_val (c : byte) : Z :=
  let z := b2z c in if z <? 58 then z - 48 else z - 87.

Definition digits_val (base : Z) (l : list byte) : Z :=
  foldl (fun a c => base * a + digit_val c) 0 l.

(** The number a string stands for. *)
Definition read_int (base : Z) (l : list byte) : Z :=
  match l with
  | "-"%byte :: l => - digits_val base l
  | l => digits_val base l
  end.

Lemma digit_val_digit d : 0 <= d < 16 -> digit_val (digit d) = d /\ digit d <> "-"%byte.
Proof.
  intros Hd. assert (F : forallb (fun d => (digit_val (digit d) =? d) && negb (bool_decide (digit d = "-"%byte)))
    (seqZ 0 16) = true) by (vm_compute; reflexivity).
  rewrite forallb_forall in F. specialize (F d ltac:(apply list_elem_of_In, elem_of_seqZ; lia)).
  bool_hyps. split; [done|]. by apply bool_decide_eq_false in H0.
Qed.

Lemma digits_val_snoc base l c : digits_val base (l ++ [c]) = base * digits_val base l + digit_val c.
Proof. unfold digits_val. by rewrite foldl_app. Qed.

Lemma digits_val_one base c : digits_val base [c] = digit_val c.
Proof. unfold digits_val. cbn. lia. Qed.

(** The digits, least significant first: their value, and that there is no
    leading zero. *)
Lemma print_digits_val base fuel : forall x,
  2 <= base <= 16 -> 0 <= x < base * base ^ Z.of_nat fuel ->
  digits_val base (rev (print_digits x base fuel)) = x /\
  (forall c, c ∈ print_digits x base fuel -> c <> "-"%byte) /\
  (0 < x -> exists c l, rev (print_digits x base fuel) = c :: l /\ c <> "0"%byte).
Proof.
  induction fuel as [|fuel IH]; intros x Hb Hx; cbn [print_digits rev];
    pose proof (Z.mod_pos_bound x base ltac:(lia)) as Hm; pose proof (Z.div_mod x base ltac:(lia)) as Hdm;
    destruct (digit_val_digit (x mod base) ltac:(lia)) as [Hv Hs].
  - cbn [app]. rewrite digits_val_one, Hv. change (base ^ Z.of_nat 0) with 1 in Hx.
    assert (E : x / base = 0) by (apply Z.div_small; lia). split_and!.
    + lia.
    + intros c Hc. apply list_elem_of_singleton in Hc as ->. done.
    + intros Hp. exists (digit (x mod base)), []. split; [done|]. intros E0. rewrite E0 in Hv.
      change (digit_val "0"%byte) with 0 in Hv. lia.
  - rewrite Nat2Z.inj_succ, Z.pow_succ_r in Hx by lia. pose proof (Z.div_pos x base ltac:(lia) ltac:(lia)).
    destruct (Z.eqb_spec (x / base) 0) as [E|E].
    + cbn [rev app]. rewrite digits_val_one, Hv. split_and!.
      * lia.
      * intros c Hc. apply list_elem_of_singleton in Hc as ->. done.
      * intros Hp. exists (digit (x mod base)), []. split; [done|]. intros E0. rewrite E0 in Hv.
        change (digit_val "0"%byte) with 0 in Hv. lia.
    + destruct (IH (x / base)) as (I1 & I2 & I3); [done|split; [done|apply Z.div_lt_upper_bound; lia]|].
      rewrite digits_val_snoc, I1, Hv. split_and!; [lia| |].
      * intros c [->|Hc]%elem_of_cons; [done|by apply I2].
      * intros _. destruct (I3 ltac:(lia)) as (c & l & E1 & E2). exists c, (l ++ [digit (x mod base)]).
        by rewrite E1.
Qed.

Lemma read_digits base l :
  (forall c, c ∈ l -> c <> "-"%byte) -> read_int base (rev l) = digits_val base (rev l).
Proof.
  intros Hl. unfold read_int. destruct (rev l) as [|c l'] eqn:E; [done|].
  assert (Hc : c ∈ l). { apply list_elem_of_In, in_rev. rewrite E. by left. }
  specialize (Hl c Hc). by destruct c.
Qed.

(** [printint] prints every number so that it can be read back: in base 10 with a sign
    the 32-bit integer, the most negative one included, in base 16 its unsigned value;
    and the digits have no leading zero. *)
Theorem printint_roundtrip xx :
  read_int 10 (printint xx 10 true) = s32 xx /\
  read_int 16 (printint xx 16 false) = u32 xx /\
  (u32 xx <> 0 -> exists c l, printint xx 16 false = c :: l /\ c <> "0"%byte).
Proof.
  pose proof (u32_range xx) as Hu. pose proof (s32_range xx) as Hs.
  assert (B : forall base, 10 <= base <= 16 -> 2 ^ 32 <= base * base ^ Z.of_nat 32).
  { intros base Hb. transitivity (10 ^ 32); [by apply Z.leb_le|].
    assert (10 ^ 32 <= base ^ Z.of_nat 32) by (apply Z.pow_le_mono_l; lia). nia. }
  unfold printint. split_and!.
  - cbn [andb]. destruct (Z.ltb_spec (s32 xx) 0) as [Hneg|Hpos].
    + assert (E : u32 (- xx) = - s32 xx).
      { unfold u32, s32 in *. Z.to_euclidean_division_equations. lia. }
      rewrite E. destruct (print_digits_val 10 32 (- s32 xx)) as (I1 & I2 & _); [lia|specialize (B 10); lia|].
      rewrite rev_app_distr. cbn [rev app read_int]. rewrite I1. lia.
    + assert (E : u32 xx = s32 xx).
      { unfold u32, s32 in *. Z.to_euclidean_division_equations. lia. }
      rewrite E, app_nil_r. destruct (print_digits_val 10 32 (s32 xx)) as (I1 & I2 & _); [lia|specialize (B 10); lia|].
      by rewrite read_digits.
  - cbn [andb]. rewrite app_nil_r. destruct (print_digits_val 16 32 (u32 xx)) as (I1 & I2 & _); [lia|specialize (B 16); lia|].
    by rewrite read_digits.
  - cbn [andb]. rewrite app_nil_r. destruct (print_digits_val 16 32 (u32 xx)) as (_ & _ & I3); [lia|specialize (B 16); lia|].
    intros Hn. apply I3. lia.
Qed.

(** ** The line editor *)

(** The input buffer holds the finished characters [q], to be read next, and then
    the line being typed. *)
Record holds (i : inputbuf) (q line : list byte) : Prop := {
  hd_len : length (in_buf i) = 128%nat;
  hd_w : in_w i = u32 (in_r i + Z.of_nat (length q));
  hd_e : in_e i = u32 (in_r i + Z.of_nat (length q + length line));
  hd_r : 0 <= in_r i < 2 ^ 32;
  hd_room : (length q + length line <= 128)%nat;
  hd_data : forall j c, (q ++ line) !! j = Some c -> in_at i (in_r i + Z.of_nat j) = c
}.

(** What a character does to the finished characters and the line: control-P lists
    the processes, control-U empties the line, control-H and delete remove its last
    character, and any other character is added while there is room.  A newline,
    control-D or a full buffer finishes the line. *)
Definition edit (s : list byte * list byte) (c : Z) : list byte * list byte :=
  let (q, line) := s in
  if c =? ctrl "P" then s
  else if c =? ctrl "U" then (q, [])
  else if (c =? ctrl "H") || (c =? 0x7f) then (q, removelast line)
  else if negb (c =? 0) && (length q + length line <? 128)%nat then
    let c := if c =? 13 then 10 else c in
    let line := line ++ [z2b c] in
    if (c =? 10) || (c =? ctrl "D") || (length q + length line =? 128)%nat then (q ++ line, [])
    else (q, line)
  else s.

Lemma u32_mod128 x : u32 x mod 128 = x mod 128.
Proof. unfold u32. apply Z.mod_mod_divide. by exists (2 ^ 25). Qed.

Lemma in_at_mod i x : in_at i x = nth (Z.to_nat (x mod 128)) (in_buf i) x00.
Proof. unfold in_at. change INPUT_BUF with 128. by rewrite u32_mod128. Qed.

Lemma u32_near a n m : - 2 ^ 32 < n - m < 2 ^ 32 -> u32 (a + n) = u32 (a + m) <-> n = m.
Proof.
  intros Hnm. split; [|by intros ->]. unfold u32. intros E. Z.to_euclidean_division_equations. nia.
Qed.

Lemma u32_back a n : 0 <= n < 2 ^ 32 -> u32 (u32 (a + n) - a) = n.
Proof. intros Hn. rewrite u32_sub_l. replace (a + n - a) with n by lia. by apply u32_small. Qed.

Section Editor.
Context {i : inputbuf} {q line : list byte}.
Hypothesis (H : holds i q line).

Lemma line_empty : (in_e i =? in_w i) = (length line =? 0)%nat.
Proof.
  rewrite (hd_e _ _ _ H), (hd_w _ _ _ H). pose proof (hd_room _ _ _ H).
  destruct (Z.eqb_spec (u32 (in_r i + Z.of_nat (length q + length line))) (u32 (in_r i + Z.of_nat (length q)))) as [E|E].
  - apply u32_near in E; [|lia]. symmetry. apply Nat.eqb_eq. lia.
  - symmetry. apply Nat.eqb_neq. intros E0. apply E. do 2 f_equal. lia.
Qed.

Lemma holds_back c l : line = l ++ [c] -> holds (ins_e (u32 (in_e i - 1)) i) q l /\ in_at i (in_e i - 1) = c.
Proof.
  intros ->. destruct H as [H1 H2 H3 H4 H5 H6]. rewrite length_app in *. cbn [length] in *. split.
  - split; try done; cbn [in_buf in_r in_w in_e ins_e].
    + rewrite H3, u32_sub_l. f_equal. lia.
    + lia.
    + intros j d Hj. apply (H6 j d). rewrite app_assoc. by apply lookup_app_l_Some.
  - rewrite <- (H6 (length q + length l)%nat c).
    + rewrite !in_at_mod. do 2 f_equal. rewrite H3, <- Zminus_mod_idemp_l, u32_mod128, Zminus_mod_idemp_l. f_equal. lia.
    + rewrite app_assoc, lookup_app_r by (rewrite length_app; lia). rewrite length_app.
      by rewrite Nat.sub_diag.
Qed.

Lemma holds_add b :
  (length q + length line < 128)%nat ->
  holds (ins_e (u32 (in_e i + 1)) (ins_buf (<[Z.to_nat (in_e i mod INPUT_BUF) := b]> (in_buf i)) i)) q (line ++ [b]).
Proof.
  intros Hlt. destruct H as [H1 H2 H3 H4 H5 H6]. change INPUT_BUF with 128.
  split; cbn [in_buf in_r in_w in_e ins_e ins_buf]; try done.
  - by rewrite length_insert.
  - rewrite H3, u32_add_l, length_app. f_equal. cbn [length]. lia.
  - rewrite length_app. cbn [length]. lia.
  - intros j c Hj. rewrite in_at_mod. cbn [in_buf ins_e ins_buf].
    assert (Ee : in_e i mod 128 = (in_r i + Z.of_nat (length q + length line)) mod 128).
    { by rewrite H3, u32_mod128. }
    rewrite Ee, nth_lookup. rewrite app_assoc in Hj. apply lookup_app_Some in Hj as [Hj|[Hj1 Hj2]].
    + pose proof (lookup_lt_Some _ _ _ Hj) as Hjl. rewrite length_app in Hjl.
      rewrite list_lookup_insert_ne.
      * rewrite <- nth_lookup, <- in_at_mod. by apply H6.
      * intros E. apply Z2Nat.inj in E; [|apply Z.mod_pos_bound; lia..]. Z.to_euclidean_division_equations. lia.
    + rewrite length_app in *. assert (j = length q + length line)%nat as -> by (apply lookup_lt_Some in Hj2; cbn in Hj2; lia).
      rewrite Nat.sub_diag in Hj2. injection Hj2 as <-. rewrite list_lookup_insert_eq; [done|].
      pose proof (Z.mod_pos_bound (in_r i + Z.of_nat (length q + length line)) 128 ltac:(lia)). lia.
Qed.

Lemma holds_commit : holds (ins_w (in_e i) i) (q ++ line) [].
Proof.
  destruct H as [H1 H2 H3 H4 H5 H6]. split; cbn [in_buf in_r in_w in_e ins_w]; try done.
  - by rewrite length_app.
  - rewrite length_app. rewrite H3. do 3 f_equal. cbn. lia.
  - rewrite length_app. cbn. lia.
  - by rewrite app_nil_r.
Qed.

End Editor.

(** Only the input buffer, the output and the states of processes changed. *)
Definition confr (k k' : kstate) : Prop :=
  k' = ks_procs (procs k') (ks_input (input k') (ks_console (console k') k)).

Lemma confr_refl k : confr k k.
Proof. by destruct k. Qed.

Lemma confr_trans k1 k2 k3 : confr k1 k2 -> confr k2 k3 -> confr k1 k3.
Proof. intros E1 E2. unfold confr in *. rewrite E1 in E2. exact E2. Qed.

Lemma procdump_loop_spec ps : forall k Q,
  cons_lock k = false -> (forall c, Q tt (ks_console c k)) -> wp (procdump_loop ps) k Q.
Proof.
  induction ps as [|p ps IH]; intros k Q Hl HQ; cbn [procdump_loop].
  - apply wp_ret. specialize (HQ (console k)). by destruct k.
  - apply wp_bind, wp_when. destruct (negb _); [|by apply IH].
    apply wp_bind, wp_cprintf; [done|]. intros c1. apply wp_cprintf; [done|]. intros c2.
    apply IH; [done|]. intros c3. apply HQ.
Qed.

Lemma removelast_snoc {A} (l : list A) x : removelast (l ++ [x]) = l.
Proof. rewrite removelast_app by done. cbn. apply app_nil_r. Qed.

(** Control-U removes the whole line: an unfinished line has no newline. *)
Lemma kill_line_spec fuel : forall k q line,
  holds (input k) q line -> x0a ∉ line -> (length line <= fuel)%nat ->
  wp (kill_line fuel) k (fun _ k' => confr k k' /\ holds (input k') q []).
Proof.
  induction fuel as [|fuel IH]; intros k q line Hh Hn Hf.
  all: cbn [kill_line]; apply wp_bind, wp_gets; rewrite (line_empty Hh).
  all: destruct line as [|c l _] using rev_ind.
  all: try (cbn; apply wp_ret; split; [apply confr_refl|done]).
  { rewrite length_app in Hf. cbn in Hf. lia. }
  destruct (holds_back Hh c l eq_refl) as [Hh' Hc]. rewrite Hc, length_app.
  rewrite (proj2 (Nat.eqb_neq _ _)) by (cbn; lia). rewrite bool_decide_eq_false_2 by set_solver. cbn [negb andb].
  apply wp_bind, wp_modify, wp_bind, wp_modify.
  wp_use (IH _ q l); [exact Hh'|set_solver|rewrite length_app in Hf; cbn in Hf; lia|].
  intros [] k' [Fr Hh2]. split; [|done]. eapply confr_trans; [|done]. by destruct k.
Qed.

Lemma z2b_newline c : 0 <= c < 256 -> z2b c = x0a -> c = 10.
Proof. intros Hc E. apply (f_equal b2z) in E. rewrite b2z_z2b, Z.mod_small in E by done. done. Qed.

(** One character. *)
Lemma console_char_spec k q line c :
  holds (input k) q line -> x0a ∉ line -> 0 <= c < 256 -> cons_lock k = false -> pt_lock k = false ->
  wp (console_char c) k (fun _ k' => confr k k' /\ let (q', line') := edit (q, line) c in
    holds (input k') q' line' /\ x0a ∉ line').
Proof.
  intros Hh Hn Hc Hl Hp. unfold console_char, edit. destruct (c =? ctrl "P").
  { unfold procdump. apply wp_bind, wp_gets, procdump_loop_spec; [done|]. intros o.
    split; [by destruct k|done]. }
  destruct (c =? ctrl "U").
  { wp_use (kill_line_spec _ k q line Hh Hn).
    - change (Z.to_nat INPUT_BUF) with 128%nat. pose proof (hd_room _ _ _ Hh). lia.
    - intros [] k' [Fr Hh']. split; [done|]. split; [done|apply not_elem_of_nil]. }
  destruct ((c =? ctrl "H") || (c =? 0x7f)).
  { apply wp_bind, wp_gets, wp_when. rewrite (line_empty Hh). destruct line as [|d l _] using rev_ind.
    - cbn. split; [apply confr_refl|done].
    - rewrite length_app, (proj2 (Nat.eqb_neq _ _)) by (cbn; lia). cbn [negb].
      destruct (holds_back Hh d l eq_refl) as [Hh' _]. apply wp_bind, wp_modify, wp_modify.
      split; [by destruct k|]. rewrite removelast_snoc. split; [exact Hh'|set_solver]. }
  apply wp_bind, wp_gets, wp_when. pose proof (hd_room _ _ _ Hh) as Hr.
  assert (Ee : (u32 (in_e (input k) - in_r (input k)) <? INPUT_BUF) = (length q + length line <? 128)%nat).
  { rewrite (hd_e _ _ _ Hh), u32_back by lia. change INPUT_BUF with 128.
    destruct (Nat.ltb_spec (length q + length line) 128), (Z.ltb_spec (Z.of_nat (length q + length line)) 128); (done || lia). }
  rewrite Ee. destruct (negb (c =? 0) && _) eqn:Eb; [|split; [apply confr_refl|done]].
  apply andb_true_iff in Eb as [_ Hlt%Nat.ltb_lt]. set (c' := if c =? 13 then 10 else c).
  assert (Hc' : 0 <= c' < 256) by (unfold c'; destruct (_ =? _); lia).
  pose proof (holds_add Hh (z2b c') Hlt) as Ha. set (i' := ins_e _ _) in Ha.
  do 2 (apply wp_bind, wp_modify). apply wp_bind, wp_modify, wp_bind, wp_gets, wp_when.
  match goal with |- context [input ?st] => change (input st) with i' end.
  assert (Ef : (in_e i' =? u32 (in_r i' + INPUT_BUF)) = (length q + length (line ++ [z2b c']) =? 128)%nat).
  { rewrite (hd_e _ _ _ Ha). change INPUT_BUF with 128. pose proof (hd_room _ _ _ Ha).
    destruct (Z.eqb_spec (u32 (in_r i' + Z.of_nat (length q + length (line ++ [z2b c'])))) (u32 (in_r i' + 128))) as [E|E].
    - apply u32_near in E; [|lia]. symmetry. apply Nat.eqb_eq. lia.
    - symmetry. apply Nat.eqb_neq. intros E0. apply E. do 2 f_equal. lia. }
  rewrite Ef. destruct (_ || _) eqn:Ec.
  - apply wp_bind, wp_modify, wp_wakeup; [done|]. split; [by destruct k|].
    split; [exact (holds_commit Ha)|apply not_elem_of_nil].
  - split; [by destruct k|]. split; [exact Ha|]. rewrite not_elem_of_app. split; [done|].
    bool_hyps. rewrite list_elem_of_singleton. intros E. symmetry in E. by apply z2b_newline in E.
Qed.

Lemma console_chars_spec cs : forall k q line,
  holds (input k) q line -> x0a ∉ line -> Forall (fun c => 0 <= c < 256) cs ->
  cons_lock k = false -> pt_lock k = false ->
  wp (console_chars cs) k (fun _ k' => confr k k' /\ let (q', line') := foldl edit (q, line) cs in
    holds (input k') q' line' /\ x0a ∉ line').
Proof.
  induction cs as [|c cs IH]; intros k q line Hh Hn Hc Hl Hp; cbn [console_chars foldl].
  - apply wp_ret. split; [apply confr_refl|done].
  - apply Forall_cons in Hc as [Hc Hcs]. rewrite (proj2 (Z.leb_le _ _)) by lia.
    apply wp_bind. wp_use (console_char_spec k q line c); [done..|].
    intros [] k1 [F1 H1]. destruct (edit (q, line) c) as [q1 l1]. destruct H1 as [H1 N1].
    wp_use (IH k1 q1 l1 H1 N1 Hcs); [by rewrite F1|by rewrite F1|].
    intros [] k2 [F2 H2]. split; [by eapply confr_trans|done].
Qed.

(** C36. The console is a line editor: whatever characters the keyboard sends, the input
    buffer holds the finished characters and the current line of the editor's
    specification, with the indices wrapping around at [2^32] and the buffer at 128. *)
Theorem consoleintr_edits k q line cs :
  holds (input k) q line -> x0a ∉ line -> Forall (fun c => 0 <= c < 256) cs ->
  in_lock k = false -> cons_lock k = false -> pt_lock k = false ->
  wp (consoleintr cs) k (fun _ k' => confr k k' /\ let (q', line') := foldl edit (q, line) cs in
    holds (input k') q' line' /\ x0a ∉ line').
Proof.
  intros Hh Hn Hc Hi Hl Hp. unfold consoleintr. apply wp_bind, wp_acquire; [done|].
  apply wp_bind. wp_use (console_chars_spec cs (set_lock LkInput true k) q line Hh Hn Hc Hl Hp).
  intros [] k1 [F1 H1]. apply wp_release; [unfold confr in F1; by rewrite F1|]. split.
  - unfold confr in *. rewrite F1. destruct k. cbn in *. by subst.
  - destruct (foldl edit (q, line) cs). done.
Qed.

(** ** Reading lines *)

(** The first of the finished characters, up to [n] of them and to the end of the line.
    Control-D ends the input; it stays in the buffer if something was read before it.
    [None] if the reader has to wait. *)
Fixpoint getline (some : bool) (n : nat) (q : list byte) : option (list byte * list byte) :=
  match n with
  | O => Some ([], q)
  | S n =>
      match q with
      | [] => None
      | c :: q' =>
          if b2z c =? ctrl "D" then Some ([], if some then q else q')
          else if bool_decide (c = x0a) then Some ([c], q')
          else (fun r => (c :: r.1, r.2)) <$> getline true n q'
      end
  end.

Lemma holds_next i c q line :
  holds i (c :: q) line -> in_at i (in_r i) = c /\ holds (ins_r (u32 (in_r i + 1)) i) q line.
Proof.
  intros [H1 H2 H3 H4 H5 H6]. cbn [length] in *. split.
  - rewrite <- (H6 0%nat c eq_refl). f_equal. lia.
  - split; cbn [in_buf in_r in_w in_e ins_r]; try done.
    + rewrite H2, u32_add_l. f_equal. lia.
    + rewrite H3, u32_add_l. f_equal. lia.
    + apply u32_range.
    + lia.
    + intros j d Hj. rewrite <- (H6 (S j) d Hj), !in_at_mod. cbn [in_buf ins_r]. do 2 f_equal.
      rewrite <- Zplus_mod_idemp_l, u32_mod128, Zplus_mod_idemp_l. f_equal. lia.
Qed.

Lemma holds_nonempty i c q line : holds i (c :: q) line -> (in_r i =? in_w i) = false.
Proof.
  intros [H1 H2 H3 H4 H5 H6]. apply Z.eqb_neq. rewrite H2. rewrite <- (u32_small (in_r i)) at 1 by done.
  rewrite <- (Z.add_0_r (in_r i)) at 1. cbn [length] in *. rewrite u32_near; lia.
Qed.

Section Read.
Context `{Wakeups}.

(** Only memory, the input buffer and the states of processes changed. *)
Definition rdfr (k k' : kstate) : Prop := k' = ks_procs (procs k') (ks_input (input k') (ks_ms (ms k') k)).

Lemma rdfr_trans k1 k2 k3 : rdfr k1 k2 -> rdfr k2 k3 -> rdfr k1 k3.
Proof. intros E1 E2. unfold rdfr in *. rewrite E1 in E2. exact E2. Qed.

Lemma console_copy_spec dst target n : plain dst -> forall k q line acc out q',
  holds (input k) q line -> getline (bool_decide (Z.of_nat n < target)) n q = Some (out, q') ->
  Z.of_nat n <= target ->
  wp (console_copy dst target acc n) k (fun r k' => r = Some (Z.of_nat n - Z.of_nat (length out), acc ++ out) /\
    rdfr k k' /\ holds (input k') q' line).
Proof.
  intros Hp. induction n as [|n IH]; intros k q line acc out q' Hh Hg Ht; cbn [console_copy].
  { injection Hg as <- <-. apply wp_ret. rewrite app_nil_r. split; [done|]. split; [by destruct k|done]. }
  destruct q as [|c q]; [done|]. cbn [getline] in Hg. destruct (holds_next _ _ _ _ Hh) as [Hc Hh'].
  apply wp_bind. assert (Ew : console_wait wakeups k = Ok false k).
  { destruct wakeups; cbn [console_wait]; unfold bind, gets; cbn [obind]; by rewrite (holds_nonempty _ _ _ _ Hh). }
  unfold wp at 1. rewrite Ew. apply wp_bind, wp_gets. rewrite Hc. apply wp_bind, wp_modify.
  destruct (b2z c =? ctrl "D") eqn:Ed.
  { injection Hg as <- <-. apply wp_bind, wp_when. rewrite app_nil_r, Z.sub_0_r.
    destruct (decide (Z.of_nat (S n) < target)) as [Hlt|Hlt];
      [rewrite bool_decide_eq_true_2 by done|rewrite bool_decide_eq_false_2 by done].
    - rewrite (proj2 (Z.ltb_lt _ _) Hlt). apply wp_modify, wp_ret. split; [done|]. split; [by destruct k|].
      cbn. destruct (input k) eqn:Ei. exact Hh.
    - rewrite (proj2 (Z.ltb_ge (Z.of_nat (S n)) target)) by lia. apply wp_ret. split; [done|]. split; [by destruct k|exact Hh']. }
  set (k1 := ks_input (ins_r (u32 (in_r (input k) + 1)) (input k)) k).
  destruct (Hp k1 (target - Z.of_nat (S n)) [c]) as [s Es]. apply wp_bind. unfold wp at 1.
  change (dst (target - Z.of_nat (S n)) [c] k1) with (dst (target - Z.of_nat (S n)) [c] k1) in Es. rewrite Es.
  destruct (bool_decide (c = x0a)).
  { injection Hg as <- <-. apply wp_ret. split; [do 2 f_equal; cbn; lia|]. split; [by destruct k|exact Hh']. }
  destruct (getline true n q) as [[o r]|] eqn:Eg; [|done]. injection Hg as <- <-.
  wp_use (IH (ks_ms s k1) q line (acc ++ [c]) o r Hh'); [by rewrite bool_decide_eq_true_2 by lia|lia|].
  intros r' k' (-> & Fr & Hh2). split; [rewrite <- app_assoc; do 2 f_equal; cbn; lia|].
  split; [|done]. eapply rdfr_trans; [|done]. by destruct k.
Qed.

(** Reading from the console: with enough finished input to answer, [consoleread] returns
    one line at most, never more than [n] bytes, in the order typed; control-D yields the
    bytes before it, and an end of file if there are none.  The rest of the input and the
    line being typed stay, and the inode is locked again. *)
Theorem consoleread_line k ip x dst n q line out q' :
  plain dst -> inodes k !! ip = Some x -> 0 < i_ref x -> has (i_flags x) I_BUSY = true -> has (i_flags x) I_VALID = true ->
  ic_lock k = false -> pt_lock k = false -> in_lock k = false ->
  0 < n < 2 ^ 31 -> holds (input k) q line -> getline false (Z.to_nat n) q = Some (out, q') ->
  wp (consoleread ip dst n) k (fun r k' => r = (Z.of_nat (length out), out) /\ holds (input k') q' line /\
    exists y, inodes k' !! ip = Some y /\ has (i_flags y) I_BUSY = true).
Proof.
  intros Hp Ex Hx Hb Hv Hic Hpt Hin Hn Hh Hg. destruct (busy_bits (i_flags x)) as (_ & _ & _ & _ & F5 & F6).
  unfold consoleread. apply wp_bind. unfold iunlock. apply wp_bind, (wp_inoget k ip x); [done|].
  rewrite Hb, (proj2 (Z.ltb_ge _ _)) by lia. cbn [negb orb].
  apply wp_bind, wp_acquire; [done|]. apply wp_bind, wp_inoupd. cbn [inodes set_lock ks_ic_lock].
  rewrite (alter_insert _ _ _ _ Ex). set (y := is_flags _ x).
  apply wp_bind, wp_wakeup; [done|]. apply wp_release; [done|].
  match goal with |- wp _ ?st _ => set (k1 := st) end.
  assert (Ey : inodes k1 !! ip = Some y) by (apply list_lookup_insert_eq; by eapply lookup_lt_Some).
  apply wp_bind, wp_acquire; [done|]. apply wp_bind.
  wp_use (console_copy_spec dst n (Z.to_nat n) Hp (set_lock LkInput true k1) q line [] out q'); [done| |lia|].
  { rewrite Z2Nat.id by lia. by rewrite bool_decide_eq_false_2 by lia. }
  intros r k2 (-> & F2 & H2). apply wp_bind, wp_release; [unfold rdfr in F2; by rewrite F2|].
  set (k3 := set_lock LkInput false k2).
  assert (E3 : inodes k3 = inodes k1 /\ ic_lock k3 = false) by (unfold k3, rdfr in *; by rewrite F2).
  destruct E3 as [E3 L3]. apply wp_bind. unfold ilock. apply wp_bind, (wp_inoget k3 ip y); [by rewrite E3|].
  change (i_ref y) with (i_ref x). rewrite (proj2 (Z.ltb_ge _ _)) by lia.
  apply wp_bind, wp_acquire; [done|]. apply wp_bind.
  assert (E4 : inoget ip (set_lock LkIcache true k3) = Ok y (set_lock LkIcache true k3)).
  { unfold inoget, bind, gets. cbn [obind]. change (inodes (set_lock LkIcache true k3)) with (inodes k3). by rewrite E3, Ey. }
  assert (Ew : forall w, ilock_wait ip w (set_lock LkIcache true k3) = Ok tt (set_lock LkIcache true k3)).
  { intros w. destruct w; cbn [ilock_wait]; rewrite (bind_Ok _ _ _ _ _ E4); cbn; by rewrite F5. }
  unfold wp at 1. rewrite Ew. apply wp_bind, wp_inoupd, wp_bind, wp_release; [done|].
  change (inodes (set_lock LkIcache true k3)) with (inodes k3). rewrite E3, (alter_insert _ _ _ _ Ey).
  set (z := is_flags _ y). destruct (busy_bits (i_flags y)) as (G1 & G2 & _).
  match goal with |- wp _ ?st _ => set (k4 := st) end.
  assert (Ez : inodes k4 !! ip = Some z) by (apply list_lookup_insert_eq; by eapply lookup_lt_Some).
  apply wp_bind, (wp_inoget k4 ip z); [done|]. apply wp_when.
  change (i_flags z) with (Z.lor (i_flags y) I_BUSY). rewrite G2. change (i_flags y) with (Z.land (i_flags x) (Z.lnot I_BUSY)).
  rewrite F6, Hv. cbn [negb].
  apply wp_ret. rewrite (proj2 (Z.ltb_ge n 0)) by lia. split; [f_equal; lia|]. split; [exact H2|]. exists z. done.
Qed.

End Read.

(** ** Witnesses *)

#[local] Instance console_wakeups : Wakeups := 1%nat.

(** A console whose indices are about to wrap around, with the input [q] at index
    [r], and the console's inode locked in slot 0. *)
Definition cx_machine (buf : list byte) (r n : Z) : kstate :=
  KState (MState (fun _ => x00) false false 0 0 0) [] 1 None false None 0 0 0 []
    (Disk 0 (fun _ => []) []) (LogState 0 0 false 0 0 []) [Inode 1 3 1 3 T_DEV 1 1 1 0 []] [] ∅
    (InputBuf (buf ++ replicate (128 - length buf) x00) r (r + n) (r + n)) []
    false false false false false false false false false.

Lemma consoleintr_edits_witness :
  wp (consoleintr [97; 98; 8; 99; 13]) (cx_machine [] (2 ^ 32 - 2) 0) (fun _ k' =>
    holds (input k') (cstr "ac" ++ [x0a]) []).
Proof.
  eapply wp_mono; [apply (consoleintr_edits _ [] [] [97; 98; 8; 99; 13]); try reflexivity|].
  - split; [reflexivity|vm_compute; reflexivity|vm_compute; reflexivity|split; [discriminate|reflexivity]|cbn; lia|].
    intros j c E. discriminate E.
  - apply not_elem_of_nil.
  - repeat (apply Forall_cons; split; [lia|]). apply Forall_nil_2.
  - intros [] k' [_ Hk].
    assert (E : foldl edit ([], []) [97; 98; 8; 99; 13] = (cstr "ac" ++ [x0a], [])) by (vm_compute; reflexivity).
    rewrite E in Hk. exact (proj1 Hk).
Defined.

