(* ===== verification/Kbd.v ===== *)
(** * The keyboard (kbd.c, kbd.h)

    Scan codes become characters.  The state is the set of modifiers, [shift]; the port is
    the list of codes that the controller has in its buffer.  The theorem: the
    keystrokes of a US keyboard, whose layout is written down here by key caps, give the
    console the characters on the caps, whatever the locks. *)

From S2P Require Import Prelude Layout Mem Kalloc Vm State Sched Bytes Bio Log Inode Console.
From S2P Require Import ConsoleProps.

Open Scope Z_scope.

Definition NO : Z := 0.
Definition SHIFT : Z := Z.shiftl 1 0.
Definition CTL : Z := Z.shiftl 1 1.
Definition ALT : Z := Z.shiftl 1 2.
Definition CAPSLOCK : Z := Z.shiftl 1 3.
Definition NUMLOCK : Z := Z.shiftl 1 4.
Definition SCROLLLOCK : Z := Z.shiftl 1 5.
Definition E0ESC : Z := Z.shiftl 1 6.

Definition KEY_HOME : Z := 0xE0.
Definition KEY_END : Z := 0xE1.
Definition KEY_UP : Z := 0xE2.
Definition KEY_DN : Z := 0xE3.
Definition KEY_LF : Z := 0xE4.
Definition KEY_RT : Z := 0xE5.
Definition KEY_PGUP : Z := 0xE6.
Definition KEY_PGDN : Z := 0xE7.
Definition KEY_INS : Z := 0xE8.
Definition KEY_DEL : Z := 0xE9.

(** A character constant, and [C('x')] as an [uchar]. *)
Definition ch (b : byte) : Z := b2z b.
Definition C (b : byte) : Z := (b2z b - b2z "@"%byte) mod 256.

(** An array of 256 elements from its initialiser: the first elements, and those with a
    designator. *)
Definition table (first : list Z) (designated : list (Z * Z)) : list Z :=
  foldl (fun t d => <[Z.to_nat d.1 := d.2]> t) (first ++ replicate (256 - length first) 0) designated.

Definition at_ (t : list Z) (i : Z) : Z := nth (Z.to_nat i) t 0.

Definition shiftcode : list Z :=
  table [] [(0x1D, CTL); (0x2A, SHIFT); (0x36, SHIFT); (0x38, ALT); (0x9D, CTL); (0xB8, ALT)].

Definition togglecode : list Z := table [] [(0x3A, CAPSLOCK); (0x45, NUMLOCK); (0x46, SCROLLLOCK)].

Definition arrows : list (Z * Z) :=
  [(0xC8, KEY_UP); (0xD0, KEY_DN); (0xC9, KEY_PGUP); (0xD1, KEY_PGDN); (0xCB, KEY_LF); (0xCD, KEY_RT);
   (0x97, KEY_HOME); (0xCF, KEY_END); (0xD2, KEY_INS); (0xD3, KEY_DEL)].

Definition normalmap : list Z := table
  ([NO; 0x1B] ++ (ch <$> ["1"; "2"; "3"; "4"; "5"; "6"; "7"; "8"; "9"; "0"; "-"; "="]%byte) ++ [8; 9] ++
   (ch <$> ["q"; "w"; "e"; "r"; "t"; "y"; "u"; "i"; "o"; "p"; "["; "]"]%byte) ++ [10; NO] ++
   (ch <$> ["a"; "s"; "d"; "f"; "g"; "h"; "j"; "k"; "l"; ";"; "'"; "`"]%byte) ++ [NO; 0x5C] ++
   (ch <$> ["z"; "x"; "c"; "v"; "b"; "n"; "m"; ","; "."; "/"]%byte) ++ [NO; ch "*"] ++
   [NO; ch " "] ++ replicate 13 NO ++
   (ch <$> ["7"; "8"; "9"; "-"; "4"; "5"; "6"; "+"; "1"; "2"; "3"; "0"; "."]%byte) ++ [NO; NO; NO; NO])
  ([(0x9C, 10); (0xB5, ch "/")] ++ arrows).

Definition shiftmap : list Z := table
  ([NO; 0x1B] ++ (ch <$> ["!"; "@"; "#"; "$"; "%"; "^"; "&"; "*"; "("; ")"; "_"; "+"]%byte) ++ [8; 9] ++
   (ch <$> ["Q"; "W"; "E"; "R"; "T"; "Y"; "U"; "I"; "O"; "P"; "{"; "}"]%byte) ++ [10; NO] ++
   (ch <$> ["A"; "S"; "D"; "F"; "G"; "H"; "J"; "K"; "L"; ":"]%byte) ++ [0x22; ch "~"; NO; ch "|"] ++
   (ch <$> ["Z"; "X"; "C"; "V"; "B"; "N"; "M"; "<"; ">"; "?"]%byte) ++ [NO; ch "*"] ++
   [NO; ch " "] ++ replicate 13 NO ++
   (ch <$> ["7"; "8"; "9"; "-"; "4"; "5"; "6"; "+"; "1"; "2"; "3"; "0"; "."]%byte) ++ [NO; NO; NO; NO])
  ([(0x9C, 10); (0xB5, ch "/")] ++ arrows).

Definition ctlmap : list Z := table
  (replicate 16 NO ++
   (C <$> ["Q"; "W"; "E"; "R"; "T"; "Y"; "U"; "I"; "O"; "P"]%byte) ++ [NO; NO; 13; NO] ++
   (C <$> ["A"; "S"; "D"; "F"; "G"; "H"; "J"; "K"; "L"]%byte) ++ [NO; NO; NO; NO; C x5c] ++
   (C <$> ["Z"; "X"; "C"; "V"; "B"; "N"; "M"]%byte) ++ [NO; NO; C "/"; NO; NO])
  ([(0x9C, 13); (0xB5, C "/")] ++ arrows).

Definition charcode (i : Z) : list Z :=
  nth (Z.to_nat i) [normalmap; shiftmap; ctlmap; ctlmap] [].

(** The character, the new modifiers, and what is left in the controller. *)
Definition kbdgetc (shift : Z) (port : list Z) : Z * Z * list Z :=
  match port with
  | [] => (-1, shift, [])
  | data :: port =>
      if data =? 0xE0 then (0, Z.lor shift E0ESC, port)
      else if has data 0x80 then
        let data := if has shift E0ESC then data else Z.land data 0x7F in
        (0, Z.land shift (u32 (Z.lnot (Z.lor (at_ shiftcode data) E0ESC))), port)
      else
        let esc := has shift E0ESC in
        let data := if esc then Z.lor data 0x80 else data in
        let shift := if esc then Z.land shift (u32 (Z.lnot E0ESC)) else shift in
        let shift := Z.lor shift (at_ shiftcode data) in
        let shift := Z.lxor shift (at_ togglecode data) in
        let c := at_ (charcode (Z.land shift (Z.lor CTL SHIFT))) data in
        let c :=
          if has shift CAPSLOCK then
            if (ch "a" <=? c) && (c <=? ch "z") then u32 (c + (ch "A" - ch "a"))
            else if (ch "A" <=? c) && (c <=? ch "Z") then u32 (c + (ch "a" - ch "A"))
            else c
          else c in
        (c, shift, port)
  end.

(** [while((c = getc()) >= 0)] of [consoleintr]: the characters, and the modifiers at the end. *)
Fixpoint kbd_chars (shift : Z) (port : list Z) (fuel : nat) : list Z * Z :=
  match fuel with
  | O => ([], shift)
  | S fuel =>
      let '(c, shift, port) := kbdgetc shift port in
      if c <? 0 then ([], shift) else let '(cs, shift) := kbd_chars shift port fuel in (c :: cs, shift)
  end.

Definition kbdintr (shift : Z) (port : list Z) : KM Z :=
  let '(cs, shift) := kbd_chars shift port (S (length port)) in
  consoleintr cs ;;;
  ret shift.

(** ** The keyboard

    The keys of a US keyboard by what is printed on their caps, and the codes that they send
    (scan code set 1): the keys of a row are numbered in order, a key that is let go sends its
    code with the highest bit set. *)

Definition row (code : Z) (plain shifted : list byte) : list (Z * (Z * Z)) :=
  zip (seqZ code (Z.of_nat (length plain))) (zip (b2z <$> plain) (b2z <$> shifted)).

Definition us_keys : list (Z * (Z * Z)) :=
  [(0x01, (27, 27)); (0x0E, (8, 8)); (0x0F, (9, 9)); (0x1C, (10, 10)); (0x39, (32, 32)); (0x37, (42, 42))] ++
  row 0x02 (cstr "1234567890-=") (cstr "!@#$%^&*()_+") ++
  row 0x10 (cstr "qwertyuiop[]") (cstr "QWERTYUIOP{}") ++
  row 0x1E (cstr "asdfghjkl;'`") (cstr "ASDFGHJKL:" ++ [x22] ++ cstr "~") ++
  row 0x2B (cstr "\zxcvbnm,./") (cstr "|ZXCVBNM<>?") ++
  row 0x47 (cstr "789-456+1230.") (cstr "789-456+1230.").

Definition keycap (code : Z) : option (Z * Z) := snd <$> (snd <$> list_find (fun e => e.1 = code) us_keys).

(** A key is pressed alone, or while a modifier key is held down. *)
Inductive modifier : Type := Alone | LeftShift | RightShift | LeftCtl | RightCtl.

Definition held (m : modifier) (codes : list Z) : list Z :=
  match m with
  | Alone => codes
  | LeftShift => 0x2A :: codes ++ [0xAA]
  | RightShift => 0x36 :: codes ++ [0xB6]
  | LeftCtl => 0x1D :: codes ++ [0x9D]
  | RightCtl => 0xE0 :: 0x1D :: codes ++ [0xE0; 0x9D]
  end.

Definition stroke (s : modifier * Z) : list Z := held s.1 [s.2; s.2 + 0x80].

Definition is_lower (c : Z) : bool := (97 <=? c) && (c <=? 122).
Definition is_upper (c : Z) : bool := (65 <=? c) && (c <=? 90).

Definition swap_case (c : Z) : Z := if is_lower c then c - 32 else if is_upper c then c + 32 else c.

(** What a keystroke means: the character on the key cap, the upper one with a shift key, a
    letter in the other case when the caps lock is on; with a control key a letter or the
    backslash is a control character, and other keys are left open. *)
Definition meaning (caps : bool) (s : modifier * Z) : option Z :=
  match keycap s.2 with
  | None => None
  | Some (plain, shifted) =>
      match s.1 with
      | Alone => Some (if caps then swap_case plain else plain)
      | LeftShift | RightShift => Some (if caps then swap_case shifted else shifted)
      | LeftCtl | RightCtl =>
          if is_lower plain then Some (plain - 96) else if plain =? 92 then Some 28 else None
      end
  end.

Definition means (caps : bool) : modifier * Z -> Z -> Prop := fun s c => meaning caps s = Some c.

(** Every printable character, and the control characters up to control-backslash. *)
Definition typable (c : Z) : bool := ((1 <=? c) && (c <=? 28)) || ((32 <=? c) && (c <=? 126)).

Definition modifiers : list modifier := [Alone; LeftShift; RightShift; LeftCtl; RightCtl].

Definition all_strokes : list (modifier * Z) := m ← modifiers; (m,.) <$> us_keys.*1.

Lemma stroke_listed caps s c : means caps s c -> s ∈ all_strokes.
Proof.
  unfold means, meaning. destruct s as [m code]. cbn [fst snd]. intros E.
  assert (Hk : code ∈ us_keys.*1).
  { unfold keycap in E. destruct (list_find (fun e => e.1 = code) us_keys) as [[i e]|] eqn:Ef; [|done].
    apply list_find_Some in Ef as (Ei & <- & _). apply list_elem_of_fmap. exists e. split; [done|]. by eapply list_elem_of_lookup_2. }
  apply list_elem_of_bind. exists m. split; [by apply list_elem_of_fmap; exists code|].
  clear E Hk. destruct m; repeat constructor.
Qed.

Definition has_stroke (caps : bool) (c : Z) : bool :=
  existsb (fun s => bool_decide (meaning caps s = Some c)) all_strokes.

(** Every such character can be typed. *)
Lemma typable_typed caps c : typable c = true -> exists s, means caps s c.
Proof.
  assert (F : forallb (fun b => forallb (fun c => negb (typable c) || has_stroke b c) (seqZ 0 128)) [false; true] = true)
    by (vm_compute; reflexivity).
  intros Hc. rewrite forallb_forall in F. specialize (F caps ltac:(destruct caps; cbn; auto)).
  rewrite forallb_forall in F. specialize (F c). rewrite Hc in F. cbn [negb orb] in F.
  unfold has_stroke in F. rewrite existsb_exists in F. destruct F as (s & _ & Hs%bool_decide_eq_true); [|by exists s].
  apply list_elem_of_In, elem_of_seqZ. unfold typable in Hc. bool_hyps. lia.
Qed.

(** ** Typing *)

(** No shift, control or alt key is down and no escape code is pending; the locks are as they
    are. *)
Definition released (shift : Z) : Prop := shift ∈ [0; 8; 16; 24; 32; 40; 48; 56].

(** The driver on codes one by one. *)
Definition step (shift d : Z) : Z * Z := (kbdgetc shift [d]).1.

Fixpoint run (shift : Z) (codes : list Z) : option (list Z * Z) :=
  match codes with
  | [] => Some ([], shift)
  | d :: codes =>
      let (c, shift) := step shift d in
      if c <? 0 then None else (fun r => (c :: r.1, r.2)) <$> run shift codes
  end.

Lemma kbdgetc_cons shift d port : kbdgetc shift (d :: port) = (step shift d, port).
Proof. unfold step. cbn [kbdgetc]. destruct (d =? 0xE0); [done|]. by destruct (has d 0x80). Qed.

Lemma kbd_chars_run codes : forall shift cs shift' port fuel, run shift codes = Some (cs, shift') ->
  kbd_chars shift (codes ++ port) (length codes + fuel) = (cs ++ (kbd_chars shift' port fuel).1, (kbd_chars shift' port fuel).2).
Proof.
  induction codes as [|d codes IH]; intros shift cs shift' port fuel E; cbn [run] in E.
  - injection E as <- <-. cbn. by destruct (kbd_chars shift port fuel).
  - cbn [app length Nat.add kbd_chars]. rewrite kbdgetc_cons. destruct (step shift d) as [c s]. destruct (c <? 0); [done|].
    destruct (run s codes) as [[cs' s']|] eqn:Er; [|done]. injection E as <- <-. by rewrite (IH _ _ _ _ _ Er).
Qed.

Definition typed_ok (shift : Z) (s : modifier * Z) : bool :=
  match meaning (has shift CAPSLOCK) s, run shift (stroke s) with
  | Some c, Some (cs, shift') => bool_decide (filter (fun c => c <> 0) cs = [c] /\ shift' = shift)
  | Some _, None => false
  | None, _ => true
  end.

Lemma typed_all : forallb (fun x => forallb (typed_ok x) all_strokes) [0; 8; 16; 24; 32; 40; 48; 56] = true.
Proof. vm_compute. reflexivity. Qed.

Lemma typed_run shift s c : released shift -> means (has shift CAPSLOCK) s c ->
  exists cs, run shift (stroke s) = Some (cs, shift) /\ filter (fun c => c <> 0) cs = [c].
Proof.
  intros Hs Hc. pose proof typed_all as F. rewrite forallb_forall in F. specialize (F shift ltac:(by apply list_elem_of_In)).
  rewrite forallb_forall in F. specialize (F s). unfold typed_ok in F. pose proof (stroke_listed _ _ _ Hc) as Hl.
  unfold means in Hc. rewrite Hc in F. destruct (run _ _) as [[cs s']|].
  - apply bool_decide_eq_true in F as [Hf ->]; [by exists cs|]. by apply list_elem_of_In.
  - discriminate F. by apply list_elem_of_In.
Qed.

Lemma codes_app p : forall shift cs shift' q, run shift p = Some (cs, shift') ->
  run shift (p ++ q) = (fun r => (cs ++ r.1, r.2)) <$> run shift' q.
Proof.
  induction p as [|d p IH]; intros shift cs shift' q E; cbn [run app] in *.
  - injection E as <- <-. by destruct (run shift q) as [[]|].
  - destruct (step shift d) as [c s]. destruct (c <? 0); [done|].
    destruct (run s p) as [[cs' s']|] eqn:Er; [|done]. injection E as <- <-. rewrite (IH _ _ _ _ Er). by destruct (run s' q) as [[]|].
Qed.

Lemma text_run shift ss text : released shift -> Forall2 (means (has shift CAPSLOCK)) ss text ->
  exists cs, run shift (mjoin (stroke <$> ss)) = Some (cs, shift) /\ filter (fun c => c <> 0) cs = text.
Proof.
  intros Hs. induction 1 as [|s c ss text Hc _ (ds & Ed & Fd)]; [by exists []|].
  destruct (typed_run shift s c Hs Hc) as (cs & Ec & Fc). exists (cs ++ ds). rewrite filter_app, Fc, Fd. split; [|done].
  change (mjoin (stroke <$> (s :: ss))) with (stroke s ++ mjoin (stroke <$> ss)).
  by rewrite (codes_app _ _ _ _ _ Ec), Ed.
Qed.

(** The console does nothing on a zero. *)
Lemma console_chars_filter cs Q : forall k, Forall (fun c => 0 <= c) cs ->
  wp (console_chars cs) k Q <-> wp (console_chars (filter (fun c => c <> 0) cs)) k Q.
Proof.
  induction cs as [|c cs IH]; intros k Hc; [done|]. apply Forall_cons in Hc as [Hc Hcs]. cbn [console_chars].
  rewrite (proj2 (Z.leb_le 0 c)) by lia. destruct (decide (c <> 0)) as [Hn|Hn].
  - rewrite filter_cons_True by done. cbn [console_chars]. rewrite (proj2 (Z.leb_le 0 c)) by lia.
    unfold wp, bind. destruct (console_char c k); cbn [obind]; try tauto. by apply IH.
  - rewrite filter_cons_False by done. assert (c = 0) as -> by lia. rewrite <- IH by done. done.
Qed.

Lemma run_pos codes : forall shift cs s', run shift codes = Some (cs, s') -> Forall (fun c => 0 <= c) cs.
Proof.
  induction codes as [|d codes IH]; intros shift cs s' E; cbn [run] in E; [by injection E as <- <-|].
  destruct (step shift d) as [c s]. destruct (Z.ltb_spec c 0); [done|]. destruct (run s codes) as [[ds s2]|] eqn:Er; [|done].
  injection E as <- <-. apply Forall_cons. split; [done|]. by apply (IH _ _ _ Er).
Qed.

(** C21. What is typed on a US keyboard arrives: with no modifier held down and the locks in any
    position, the keyboard interrupt on the scan codes of any keystrokes (each key pressed and
    let go, alone or with either shift or control key around it) does to the console what the
    characters do that the key caps and the caps lock say, and returns with the modifiers as
    they were. *)
Theorem kbd_types shift ss text k :
  released shift -> Forall2 (means (has shift CAPSLOCK)) ss text ->
  forall Q, wp (kbdintr shift (mjoin (stroke <$> ss))) k Q <-> wp (consoleintr text) k (fun _ => Q shift).
Proof.
  intros Hs Ht Q. destruct (text_run shift ss text Hs Ht) as (cs & E & F). unfold kbdintr.
  pose proof (kbd_chars_run _ _ _ _ [] 1 E) as R. rewrite app_nil_r, Nat.add_1_r in R. rewrite R. cbn [kbd_chars kbdgetc fst snd].
  rewrite app_nil_r, wp_bind_iff. unfold consoleintr. rewrite !wp_bind_iff. apply wp_iff. intros _ k1. rewrite !wp_bind_iff, <- F.
  apply console_chars_filter, (run_pos _ _ _ _ E).
Qed.

(** ** Witness *)

Lemma kx_released : released CAPSLOCK.
Proof. apply list_elem_of_In. right. left. reflexivity. Qed.

(** The keys [a], [1] with the left shift key, [c] with the right control key, and Enter. *)
Definition kx_strokes : list (modifier * Z) := [(Alone, 0x1E); (LeftShift, 0x02); (RightCtl, 0x2E); (Alone, 0x1C)].

Lemma kx_means : Forall2 (means (has CAPSLOCK CAPSLOCK)) kx_strokes [65; 33; 3; 10].
Proof. repeat (apply Forall2_cons_2; [vm_compute; reflexivity|]). apply Forall2_nil_2. Qed.

(** [A!], control-C and a newline, with the caps lock on. *)
Lemma kbd_types_witness :
  wp (kbdintr CAPSLOCK [0x1E; 0x9E; 0x2A; 0x02; 0x82; 0xAA; 0xE0; 0x1D; 0x2E; 0xAE; 0xE0; 0x9D; 0x1C; 0x9C]) (cx_machine [] 0 0)
    (fun s k => s = CAPSLOCK /\ take 4 (in_buf (input k)) = [x41; x21; x03; x0a]).
Proof.
  assert (E : mjoin (stroke <$> kx_strokes) = [0x1E; 0x9E; 0x2A; 0x02; 0x82; 0xAA; 0xE0; 0x1D; 0x2E; 0xAE; 0xE0; 0x9D; 0x1C; 0x9C])
    by (vm_compute; reflexivity).
  rewrite <- E. apply (proj2 (kbd_types CAPSLOCK kx_strokes [65; 33; 3; 10] (cx_machine [] 0 0) kx_released kx_means _)).
  vm_compute. split; reflexivity.
Defined.
