(* ===== verification/Ata.v ===== *)
(** * The disk controller

    The controller is hardware; the drivers of ide.c and bootmain.c reach it through four
    instructions.  [AtaPorts] are these instructions as operations on an unknown state of
    the device, [Ata] what the ATA standard says about them for one-sector transfers without
    DMA: the registers, the two commands, the transfer of the data, and that the controller
    gets ready after it was polled often enough.  After a write command the standard has the
    host wait until the controller asks for the data (DRQ); how soon it asks is left open.
    [prompt] names the controllers that ask for it at once, as emulated ones do; it is not a
    law of [Ata]. *)

From S2P Require Import Prelude.

Open Scope Z_scope.

Class AtaPorts (D : Type) : Type := {
  inb : Z -> D -> Z * D;
  outb : Z -> Z -> D -> D;
  insl : Z -> D -> list byte * D;
  outsl : Z -> list byte -> D -> D
}.

(** What the controller is doing.  The sectors are named by drive and block number. *)
Inductive phase : Type :=
  | Ready
  | Preparing (drive lba : Z)
  | WantData (drive lba : Z)
  | Reading (drive lba : Z)
  | Writing (drive lba : Z) (bs : list byte)
  | HasData (bs : list byte)
  | Failed.

Record ata : Type := AtaView {
  sectors : Z -> Z -> list byte;
  damaged : Z -> Z -> bool;
  regs : Z -> Z;
  doing : phase
}.

Definition with_phase (p : phase) (v : ata) : ata := AtaView (sectors v) (damaged v) (regs v) p.
Definition with_reg (r x : Z) (v : ata) : ata :=
  AtaView (sectors v) (damaged v) (fun q => if q =? r then x else regs v q) (doing v).
Definition with_sector (drive lba : Z) (bs : list byte) (v : ata) : ata :=
  AtaView (fun d l => if (d =? drive) && (l =? lba) then bs else sectors v d l) (damaged v) (regs v) Ready.

(** The end of a command. *)
Definition settle (v : ata) : ata :=
  match doing v with
  | Reading d l => if damaged v d l then with_phase Failed v else with_phase (HasData (sectors v d l)) v
  | Writing d l bs => with_sector d l bs v
  | _ => v
  end.

(** The drive and the block that the registers name. *)
Definition drive_of (v : ata) : Z := Z.land (Z.shiftr (regs v 0x1f6) 4) 1.
Definition lba_of (v : ata) : Z :=
  regs v 0x1f3 + 2 ^ 8 * regs v 0x1f4 + 2 ^ 16 * regs v 0x1f5 + 2 ^ 24 * Z.land (regs v 0x1f6) 15.

Definition working (v : ata) : bool :=
  match doing v with Reading _ _ | Writing _ _ _ => true | _ => false end.

Definition failed (v : ata) : bool := match doing v with Failed => true | _ => false end.

Definition idle (v : ata) : Prop := doing v = Ready \/ doing v = Failed.

(** No write command is waiting for its data. *)
Definition no_want (v : ata) : Prop :=
  match doing v with Preparing _ _ | WantData _ _ => False | _ => True end.

(** Status register: neither busy nor in want of a drive. *)
Definition ready (st : Z) : bool := Z.land st 0xC0 =? 0x40.

(** Polling the status register until the controller is ready. *)
Inductive polls {D} `{AtaPorts D} : D -> Z -> D -> Prop :=
  | polls_now d st d' : inb 0x1f7 d = (st, d') -> ready st = true -> polls d st d'
  | polls_later d st d1 st' d' : inb 0x1f7 d = (st, d1) -> ready st = false -> polls d1 st' d' -> polls d st' d'.

(** A command that the controller accepts: one sector, addressed by its block number. *)
Definition addressed (v : ata) : Prop := regs v 0x1f2 = 1 /\ Z.land (regs v 0x1f6) 0xE0 = 0xE0.

Class Ata (D : Type) `{AtaPorts D} : Type := {
  view : D -> ata;
  (** The controller ends its command at a time of its own, and then interrupts. *)
  ends : D -> D -> Prop;
  ata_ends d d' : ends d d' -> view d' = settle (view d);
  ata_works d : working (view d) = true -> exists d', ends d d';
  ata_poll d : no_want (view d) -> exists st d', polls d st d' /\
    view d' = settle (view d) /\ negb (Z.land st 0x21 =? 0) = failed (view d');
  ata_reg d p x : idle (view d) -> p ∈ [0x1f2; 0x1f3; 0x1f4; 0x1f5; 0x1f6; 0x3f6] -> 0 <= x < 256 ->
    view (outb p x d) = with_reg p x (view d);
  ata_read d : idle (view d) -> addressed (view d) ->
    view (outb 0x1f7 0x20 d) = with_phase (Reading (drive_of (view d)) (lba_of (view d))) (view d);
  (** The controller asks for the data at once, or later; it does ask when it is polled. *)
  ata_write d : idle (view d) -> addressed (view d) ->
    exists p, p ∈ [Preparing (drive_of (view d)) (lba_of (view d)); WantData (drive_of (view d)) (lba_of (view d))] /\
      view (outb 0x1f7 0x30 d) = with_phase p (view d);
  ata_drq d dv l : doing (view d) ∈ [Preparing dv l; WantData dv l] ->
    exists st d', polls d st d' /\ view d' = with_phase (WantData dv l) (view d);
  (** Data that is not asked for has no defined effect. *)
  ata_out d dv l bs : doing (view d) = WantData dv l -> length bs = 512%nat ->
    view (outsl 0x1f0 bs d) = with_phase (Writing dv l bs) (view d);
  ata_in d bs : doing (view d) = HasData bs ->
    exists d', insl 0x1f0 d = (bs, d') /\ view d' = with_phase Ready (view d)
}.

(** ** Addressing a sector *)

Section Setup.
Context {D : Type} `{Ata D}.

(** The registers of a one-sector command. *)
Definition setup (b0 b1 b2 b3 : Z) (d : D) : D :=
  outb 0x1f6 b3 (outb 0x1f5 b2 (outb 0x1f4 b1 (outb 0x1f3 b0 (outb 0x1f2 1 d)))).

Lemma reg_idle d p x : idle (view d) -> p ∈ [0x1f2; 0x1f3; 0x1f4; 0x1f5; 0x1f6; 0x3f6] -> 0 <= x < 256 ->
  view (outb p x d) = with_reg p x (view d) /\ idle (view (outb p x d)).
Proof. intros Hi Hp Hx. rewrite ata_reg by done. done. Qed.

Lemma setup_view b0 b1 b2 b3 d :
  idle (view d) -> 0 <= b0 < 256 -> 0 <= b1 < 256 -> 0 <= b2 < 256 -> 0 <= b3 < 256 ->
  view (setup b0 b1 b2 b3 d) =
    with_reg 0x1f6 b3 (with_reg 0x1f5 b2 (with_reg 0x1f4 b1 (with_reg 0x1f3 b0 (with_reg 0x1f2 1 (view d))))).
Proof.
  intros Hi R0 R1 R2 R3. unfold setup.
  destruct (reg_idle d 0x1f2 1 Hi ltac:(apply list_elem_of_In; cbn; tauto) ltac:(lia)) as [E1 I1].
  destruct (reg_idle _ 0x1f3 b0 I1 ltac:(apply list_elem_of_In; cbn; tauto) R0) as [E2 I2].
  destruct (reg_idle _ 0x1f4 b1 I2 ltac:(apply list_elem_of_In; cbn; tauto) R1) as [E3 I3].
  destruct (reg_idle _ 0x1f5 b2 I3 ltac:(apply list_elem_of_In; cbn; tauto) R2) as [E4 I4].
  destruct (reg_idle _ 0x1f6 b3 I4 ltac:(apply list_elem_of_In; cbn; tauto) R3) as [E5 _]. congruence.
Qed.

(** The four bytes of a block number make up the number again. *)
Lemma lba_bytes s : 0 <= s < 2 ^ 28 ->
  s mod 2 ^ 8 + 2 ^ 8 * (s / 2 ^ 8 mod 2 ^ 8) + 2 ^ 16 * (s / 2 ^ 16 mod 2 ^ 8) + 2 ^ 24 * (s / 2 ^ 24 mod 2 ^ 4) = s.
Proof.
  intros Hs. pose proof (Z.div_mod s (2 ^ 8) ltac:(lia)) as E0.
  pose proof (Z.div_mod (s / 2 ^ 8) (2 ^ 8) ltac:(lia)) as E1. rewrite Z.div_div in E1 by lia. change (2 ^ 8 * 2 ^ 8) with (2 ^ 16) in E1.
  pose proof (Z.div_mod (s / 2 ^ 16) (2 ^ 8) ltac:(lia)) as E2. rewrite Z.div_div in E2 by lia. change (2 ^ 16 * 2 ^ 8) with (2 ^ 24) in E2.
  assert (E3 : s / 2 ^ 24 mod 2 ^ 4 = s / 2 ^ 24).
  { apply Z.mod_small. split; [apply Z.div_pos; lia|]. apply Z.div_lt_upper_bound; lia. }
  rewrite E3. lia.
Qed.

(** The drive register: the block's top four bits below the drive's bit. *)
Lemma drive_byte drive top : 0 <= drive < 2 -> 0 <= top < 16 ->
  let b := Z.lor (Z.lor 0xE0 (Z.shiftl drive 4)) top in
  0 <= b < 256 /\ Z.land b 0xE0 = 0xE0 /\ Z.land (Z.shiftr b 4) 1 = drive /\ Z.land b 15 = top.
Proof.
  intros Hd Ht. assert (F : forallb (fun x => forallb (fun t => let b := Z.lor (Z.lor 0xE0 (Z.shiftl x 4)) t in
    (0 <=? b) && (b <? 256) && (Z.land b 0xE0 =? 0xE0) && (Z.land (Z.shiftr b 4) 1 =? x) && (Z.land b 15 =? t)) (seqZ 0 16)) (seqZ 0 2) = true)
    by (vm_compute; reflexivity).
  rewrite forallb_forall in F. specialize (F drive ltac:(apply list_elem_of_In, elem_of_seqZ; lia)).
  rewrite forallb_forall in F. specialize (F top ltac:(apply list_elem_of_In, elem_of_seqZ; lia)).
  cbv zeta in *. bool_hyps. lia.
Qed.

(** The registers name sector [s] of the drive, and nothing else has changed. *)
Definition names (drive s : Z) (v v' : ata) : Prop :=
  sectors v' = sectors v /\ damaged v' = damaged v /\ doing v' = doing v /\
  addressed v' /\ drive_of v' = drive /\ lba_of v' = s.

Lemma setup_names drive s d : idle (view d) -> 0 <= drive < 2 -> 0 <= s < 2 ^ 28 ->
  names drive s (view d) (view (setup (s mod 2 ^ 8) (s / 2 ^ 8 mod 2 ^ 8) (s / 2 ^ 16 mod 2 ^ 8)
    (Z.lor (Z.lor 0xE0 (Z.shiftl drive 4)) (s / 2 ^ 24 mod 2 ^ 4)) d)).
Proof.
  intros Hi Hd Hs. destruct (drive_byte drive (s / 2 ^ 24 mod 2 ^ 4) Hd ltac:(apply Z.mod_pos_bound; lia)) as (B1 & B2 & B3 & B4).
  rewrite setup_view; [|done|apply Z.mod_pos_bound; lia..|done].
  split_and!; try done. unfold lba_of. cbn. cbn in B4. rewrite B4. by apply lba_bytes.
Qed.
End Setup.

(** ** Writing *)

(** The controller asks for the data as soon as it has the write command. *)
Definition prompt (D : Type) `{Ata D} : Prop :=
  forall d : D, idle (view d) -> addressed (view d) ->
    doing (view (outb 0x1f7 0x30 d)) = WantData (drive_of (view d)) (lba_of (view d)).

Section Write.
Context {D : Type} `{Ata D}.

Lemma prompt_write d : prompt D -> idle (view d) -> addressed (view d) ->
  view (outb 0x1f7 0x30 d) = with_phase (WantData (drive_of (view d)) (lba_of (view d))) (view d).
Proof.
  intros Hp Hi Ha. destruct (ata_write d Hi Ha) as (p & _ & E). pose proof (Hp d Hi Ha) as E'. rewrite E in E' |- *. cbn in E'. by rewrite E'.
Qed.

(** With the wait of the standard in between, every controller takes the data. *)
Theorem write_after_wait d bs : idle (view d) -> addressed (view d) -> length bs = 512%nat ->
  exists st d', polls (outb 0x1f7 0x30 d) st d' /\
    view (outsl 0x1f0 bs d') = with_phase (Writing (drive_of (view d)) (lba_of (view d)) bs) (view d).
Proof.
  intros Hi Ha Hl. destruct (ata_write d Hi Ha) as (p & Hp & E).
  destruct (ata_drq (outb 0x1f7 0x30 d) (drive_of (view d)) (lba_of (view d))) as (st & d' & Hs & E'); [by rewrite E|].
  exists st, d'. split; [done|]. rewrite (ata_out d' (drive_of (view d)) (lba_of (view d))); [|by rewrite E'|done]. by rewrite E', E.
Qed.
End Write.

(** ** Two controllers *)

(** Controllers that are busy for a number of polls after each command; the laws above hold of
    them.  The quick one asks for the data of a write command at once, the other one only
    after it was busy, and drops the data that comes too early. *)
Record pio (quick : bool) : Type := Pio { p_view : ata; p_busy : nat }.
Arguments Pio {quick} _ _.
Arguments p_view {quick} _.
Arguments p_busy {quick} _.

Definition p_settle (v : ata) : ata :=
  match doing v with Preparing dv l => with_phase (WantData dv l) v | _ => settle v end.

#[export] Instance pio_ports quick : AtaPorts (pio quick) := {
  inb p d :=
    if p =? 0x1f7 then
      match p_busy d with
      | S n => (0x80, Pio (p_view d) n)
      | O => (if failed (p_settle (p_view d)) then 0x41 else 0x40, Pio (p_settle (p_view d)) 0)
      end
    else (0, d);
  outb p x d :=
    let v := p_view d in
    if p =? 0x1f7 then
      if x =? 0x20 then Pio (with_phase (Reading (drive_of v) (lba_of v)) v) 3
      else if x =? 0x30 then
        if quick then Pio (with_phase (WantData (drive_of v) (lba_of v)) v) 0
        else Pio (with_phase (Preparing (drive_of v) (lba_of v)) v) 3
      else d
    else Pio (with_reg p x v) (p_busy d);
  insl p d := match doing (p_view d) with HasData bs => (bs, Pio (with_phase Ready (p_view d)) (p_busy d)) | _ => ([], d) end;
  outsl p bs d := match doing (p_view d) with WantData dv l => Pio (with_phase (Writing dv l bs) (p_view d)) 3 | _ => d end
}.

Lemma pio_poll quick (d : pio quick) :
  exists st d', polls d st d' /\ p_view d' = p_settle (p_view d) /\ negb (Z.land st 0x21 =? 0) = failed (p_view d').
Proof.
  destruct d as [v n]. induction n as [|n (st & d' & Hp & R)].
  - exists (if failed (p_settle v) then 0x41 else 0x40), (Pio (p_settle v) 0). split; [|by cbn; destruct (failed (p_settle v))].
    apply polls_now; [done|]. by destruct (failed (p_settle v)).
  - exists st, d'. split; [|done]. by apply (polls_later _ 0x80 (Pio v n)).
Qed.

#[export] Instance pio_ata quick : Ata (pio quick).
Proof.
  refine {| view := p_view; ends d d' := working (p_view d) = true /\ d' = Pio (settle (p_view d)) 0 |}.
  - intros d d' [_ ->]. done.
  - intros d Hw. by eexists.
  - intros d Hn. destruct (pio_poll quick d) as (st & d' & Hp & E & He). exists st, d'. split; [done|].
    split; [|exact He]. rewrite E. unfold no_want, p_settle in *. by destruct (doing (p_view d)).
  - intros d p x _ Hp _. cbn. replace (p =? 0x1f7) with false; [done|]. symmetry. apply Z.eqb_neq.
    apply list_elem_of_In in Hp. cbn in Hp. lia.
  - done.
  - intros d _ _. cbn. destruct quick; eexists; (split; [|reflexivity]); [right; by left|by left].
  - intros d dv l Hd. destruct (pio_poll quick d) as (st & d' & Hp & E & _). exists st, d'. split; [done|]. rewrite E. unfold p_settle, settle.
    apply elem_of_cons in Hd as [->|[Hd|[]%elem_of_nil]%elem_of_cons]; [done|]. rewrite Hd. destruct d as [[] ?]. cbn in *. by subst.
  - intros d dv l bs E _. cbn. by rewrite E.
  - intros d bs E. cbn. rewrite E. by eexists.
Defined.

Lemma pio_prompt : prompt (pio true).
Proof. done. Qed.
