(* ===== verification/Ide.v ===== *)
(** * The IDE driver (ide.c)

    The kernel's default disk driver: a queue of buffers, the first of which is the command
    that the controller works on; an interrupt ends it, wakes its process and starts the
    next.  [iderw] gives up the CPU inside. *)

From S2P Require Import Prelude Layout Mem Kalloc Vm State Ata.

Open Scope Z_scope.

Definition IDE_BSY : Z := 0x80.
Definition IDE_DRDY : Z := 0x40.
Definition IDE_DF : Z := 0x20.
Definition IDE_ERR : Z := 0x01.

Definition IDE_CMD_READ : Z := 0x20.
Definition IDE_CMD_WRITE : Z := 0x30.

(** A buffer, without its links in the cache. *)
Record dbuf : Type := DBuf {
  d_flags : Z;
  d_dev : Z;
  d_sector : Z;
  d_qnext : option nat;
  d_data : list byte
}.

Definition ds_flags (v : Z) (x : dbuf) : dbuf := DBuf v (d_dev x) (d_sector x) (d_qnext x) (d_data x).
Definition ds_qnext (v : option nat) (x : dbuf) : dbuf := DBuf (d_flags x) (d_dev x) (d_sector x) v (d_data x).
Definition ds_data (v : list byte) (x : dbuf) : dbuf := DBuf (d_flags x) (d_dev x) (d_sector x) (d_qnext x) v.

Section Ide.
Context {D : Type} `{AtaPorts D}.

Record ide : Type := IdeState {
  dbufs : list dbuf;
  idequeue : option nat;
  havedisk1 : bool;
  idelock : bool;
  woken : list nat;
  dev : D
}.

Definition set_dbufs (v : list dbuf) (s : ide) : ide := IdeState v (idequeue s) (havedisk1 s) (idelock s) (woken s) (dev s).
Definition set_idequeue (v : option nat) (s : ide) : ide := IdeState (dbufs s) v (havedisk1 s) (idelock s) (woken s) (dev s).
Definition set_havedisk1 (v : bool) (s : ide) : ide := IdeState (dbufs s) (idequeue s) v (idelock s) (woken s) (dev s).
Definition set_idelock (v : bool) (s : ide) : ide := IdeState (dbufs s) (idequeue s) (havedisk1 s) v (woken s) (dev s).
Definition set_woken (v : list nat) (s : ide) : ide := IdeState (dbufs s) (idequeue s) (havedisk1 s) (idelock s) v (dev s).
Definition set_dev (v : D) (s : ide) : ide := IdeState (dbufs s) (idequeue s) (havedisk1 s) (idelock s) (woken s) v.

Definition I (A : Type) : Type := M ide A.

(** The instructions. *)
Definition in_b (p : Z) : I Z := fun s => let (x, d) := inb p (dev s) in Ok x (set_dev d s).
Definition out_b (p x : Z) : I unit := modify (fun s => set_dev (outb p x (dev s)) s).
Definition in_sl (p : Z) : I (list byte) := fun s => let (x, d) := insl p (dev s) in Ok x (set_dev d s).
Definition out_sl (p : Z) (bs : list byte) : I unit := modify (fun s => set_dev (outsl p bs (dev s)) s).

(** Buffers by their number; the lock. *)
Definition dget (b : nat) : I dbuf :=
  let! bs := gets dbufs in
  match bs !! b with Some x => ret x | None => panic "wild" end.
Definition dupd (b : nat) (f : dbuf -> dbuf) : I unit := modify (fun s => set_dbufs (alter f b (dbufs s)) s).
Definition ide_acquire : I unit :=
  let! l := gets idelock in
  if (l : bool) then panic "acquire" else modify (set_idelock true).
Definition ide_release : I unit :=
  let! l := gets idelock in
  if (l : bool) then modify (set_idelock false) else panic "release".

(** [while(((r = inb(0x1f7)) & (IDE_BSY|IDE_DRDY)) != IDE_DRDY);] *)
Fixpoint idewait_loop (n : nat) : I Z :=
  match n with
  | O => nofuel
  | S n =>
      let! r := in_b 0x1f7 in
      if Z.land r (Z.lor IDE_BSY IDE_DRDY) =? IDE_DRDY then ret r else idewait_loop n
  end.

Definition idewait (checkerr : bool) (n : nat) : I Z :=
  let! r := idewait_loop n in
  if checkerr && negb (Z.land r (Z.lor IDE_DF IDE_ERR) =? 0) then ret (-1) else ret 0.

(** [for(i=0; i<1000; i++)] of [ideinit] *)
Fixpoint probe (n : nat) : I unit :=
  match n with
  | O => ret tt
  | S n =>
      let! r := in_b 0x1f7 in
      if negb (r =? 0) then modify (set_havedisk1 true) else probe n
  end.

(** After the set-up of the interrupt controllers. *)
Definition ideinit (n : nat) : I unit :=
  let! _ := idewait false n in
  out_b 0x1f6 (Z.lor 0xe0 (Z.shiftl 1 4)) ;;;
  probe 1000 ;;;
  out_b 0x1f6 (Z.lor 0xe0 (Z.shiftl 0 4)).

Definition idestart (b : option nat) (n : nat) : I unit :=
  match b with
  | None => panic "idestart"
  | Some b =>
      let! _ := idewait false n in
      let! x := dget b in
      out_b 0x3f6 0 ;;;
      out_b 0x1f2 1 ;;;
      out_b 0x1f3 (Z.land (d_sector x) 0xff) ;;;
      out_b 0x1f4 (Z.land (Z.shiftr (d_sector x) 8) 0xff) ;;;
      out_b 0x1f5 (Z.land (Z.shiftr (d_sector x) 16) 0xff) ;;;
      out_b 0x1f6 (Z.lor (Z.lor 0xe0 (Z.shiftl (Z.land (d_dev x) 1) 4)) (Z.land (Z.shiftr (d_sector x) 24) 0x0f)) ;;;
      if has (d_flags x) B_DIRTY then
        out_b 0x1f7 IDE_CMD_WRITE ;;;
        out_sl 0x1f0 (d_data x)
      else out_b 0x1f7 IDE_CMD_READ
  end.

Definition ideintr (n : nat) : I unit :=
  ide_acquire ;;;
  let! q := gets idequeue in
  match q with
  | None => ide_release
  | Some b =>
      let! x := dget b in
      modify (set_idequeue (d_qnext x)) ;;;
      when (negb (has (d_flags x) B_DIRTY))
        (let! r := idewait true n in
         when (0 <=? r) (let! bs := in_sl 0x1f0 in dupd b (ds_data bs))) ;;;
      dupd b (fun x => ds_flags (Z.lor (d_flags x) B_VALID) x) ;;;
      dupd b (fun x => ds_flags (Z.land (d_flags x) (Z.lnot B_DIRTY)) x) ;;;
      modify (fun s => set_woken (b :: woken s) s) ;;;
      let! q := gets idequeue in
      when (bool_decide (q <> None)) (idestart q n) ;;;
      ide_release
  end.

(** The [for] loop over [pp], from buffer [b] on: the last buffer of the queue. *)
Fixpoint queue_end (b : nat) (fuel : nat) : I nat :=
  match fuel with
  | O => nofuel
  | S fuel =>
      let! x := dget b in
      match d_qnext x with
      | None => ret b
      | Some b => queue_end b fuel
      end
  end.

(** The insertion at the end. *)
Definition append (b : nat) : I unit :=
  let! q := gets idequeue in
  match q with
  | None => modify (set_idequeue (Some b))
  | Some h =>
      let! bs := gets dbufs in
      let! e := queue_end h (length bs) in
      dupd e (ds_qnext (Some b))
  end.

(** [sleep(b, &idelock)]: other threads run, and the lock is taken again. *)
Definition ide_sleep : I unit :=
  ide_release ;;;
  (fun s => Switch s (fun s' => Ok tt s')) ;;;
  ide_acquire.

(** The [while] loop; [w] bounds how often [sleep] returns. *)
Fixpoint iderw_wait (b : nat) (w : nat) : I unit :=
  let! x := dget b in
  if negb (Z.land (d_flags x) (Z.lor B_VALID B_DIRTY) =? B_VALID) then
    match w with
    | O => nofuel
    | S w => ide_sleep ;;; iderw_wait b w
    end
  else ret tt.

Definition iderw (b : nat) (n w : nat) : I unit :=
  let! x := dget b in
  if negb (has (d_flags x) B_BUSY) then panic "iderw: buf not busy"
  else if Z.land (d_flags x) (Z.lor B_VALID B_DIRTY) =? B_VALID then panic "iderw: nothing to do"
  else
    let! h := gets havedisk1 in
    if negb (d_dev x =? 0) && negb h then panic "iderw: ide disk 1 not present"
    else
      ide_acquire ;;;
      dupd b (ds_qnext None) ;;;
      append b ;;;
      let! q := gets idequeue in
      when (bool_decide (q = Some b)) (idestart q n) ;;;
      iderw_wait b w ;;;
      ide_release.

End Ide.
Arguments ide : clear implicits.
