(* ===== verification/IdeProps.v ===== *)
(** * Theorems on the IDE driver

    Processes call [iderw] and sleep, the controller interrupts, processes run on: in every
    interleaving the requests are carried out one after the other in the order of the calls,
    as if each had been answered at once from an array of sectors.  A write command's data is
    sent without waiting for the controller to ask for it; the theorems cover writes on
    controllers that ask at once ([prompt]), and the last theorem is what happens on others. *)

From S2P Require Import Prelude Layout Mem Kalloc Vm State Ata Ide.

Open Scope Z_scope.

Section IdeProps.
Context {D : Type} `{Ata D}.

Implicit Types (s : ide D) (d : D) (x : dbuf) (v : ata).

Lemma dget_Ok s b x : dbufs s !! b = Some x -> dget b s = Ok x s.
Proof. intros E. unfold dget, bind, gets. cbn [obind]. by rewrite E. Qed.

(** ** Waiting for the controller *)

Lemma settle_idle v : idle v -> settle v = v.
Proof. unfold settle. by intros [-> | ->]. Qed.

Lemma idewait_polls d st d' : polls d st d' -> exists n0, forall n s, (n0 <= n)%nat -> dev s = d ->
  idewait_loop n s = Ok st (set_dev d' s).
Proof.
  induction 1 as [d st d' E Hr|d st d1 st' d' E Hr _ [n0 IH]].
  - exists 1%nat. intros [|n] s Hn Hs; [lia|]. cbn [idewait_loop]. unfold bind, in_b. rewrite Hs, E. cbn [obind].
    unfold ready in Hr. change (Z.lor IDE_BSY IDE_DRDY) with 0xC0. change IDE_DRDY with 0x40. by rewrite Hr.
  - exists (S n0). intros [|n] s Hn Hs; [lia|]. cbn [idewait_loop]. unfold bind at 1, in_b. rewrite Hs, E. cbn [obind].
    unfold ready in Hr. change (Z.lor IDE_BSY IDE_DRDY) with 0xC0. change IDE_DRDY with 0x40. rewrite Hr.
    rewrite (IH n (set_dev d1 s)) by (done || lia). done.
Qed.

Lemma idewait_spec c d : no_want (view d) -> exists n0 d', view d' = settle (view d) /\
  forall n s, (n0 <= n)%nat -> dev s = d ->
    idewait c n s = Ok (if c && failed (view d') then -1 else 0) (set_dev d' s).
Proof.
  intros Hw. destruct (ata_poll d Hw) as (st & d' & Hp & Hv & He). destruct (idewait_polls _ _ _ Hp) as [n0 Hn].
  exists n0, d'. split; [done|]. intros n s Hle Hs. unfold idewait. rewrite (bind_Ok _ _ _ _ _ (Hn n s Hle Hs)).
  change (Z.lor IDE_DF IDE_ERR) with 0x21. rewrite He. by destruct (c && failed (view d')).
Qed.

(** ** Starting a command *)

(** The requests that the driver takes: the buffer is locked and has something to read or to
    write, the disk has the sector, and the buffer is written only if the controller is one
    that takes the data right behind the command. *)
Record acceptable (h : bool) x : Prop := {
  ac_busy : has (d_flags x) B_BUSY = true;
  ac_work : Z.land (d_flags x) (Z.lor B_VALID B_DIRTY) <> B_VALID;
  ac_dev : d_dev x = 0 \/ d_dev x = 1 /\ h = true;
  ac_sector : 0 <= d_sector x < 2 ^ 28;
  ac_data : length (d_data x) = 512%nat;
  ac_prompt : has (d_flags x) B_DIRTY = true -> prompt D
}.

Definition command x : phase :=
  if has (d_flags x) B_DIRTY then Writing (d_dev x) (d_sector x) (d_data x) else Reading (d_dev x) (d_sector x).

(** The controller works on [x]; the sectors are as in [v]. *)
Definition started x v v' : Prop := sectors v' = sectors v /\ damaged v' = damaged v /\ doing v' = command x.

(** The registers name the buffer's sector. *)
Lemma idestart_setup x b d : (d_dev x = 0 \/ d_dev x = 1) -> 0 <= d_sector x < 2 ^ 28 -> idle (view d) ->
  exists n0 d3, sectors (view d3) = sectors (view d) /\ damaged (view d3) = damaged (view d) /\
    idle (view d3) /\ addressed (view d3) /\ drive_of (view d3) = d_dev x /\ lba_of (view d3) = d_sector x /\
    forall n s, (n0 <= n)%nat -> dev s = d -> dbufs s !! b = Some x ->
      idestart (Some b) n s =
        (if has (d_flags x) B_DIRTY then out_b 0x1f7 IDE_CMD_WRITE ;;; out_sl 0x1f0 (d_data x) else out_b 0x1f7 IDE_CMD_READ) (set_dev d3 s).
Proof.
  intros Hd Hs Hi. destruct (idewait_spec false d) as (n0 & d1 & E1 & W); [unfold no_want; by destruct Hi as [-> | ->]|].
  rewrite (settle_idle _ Hi) in E1. rewrite <- E1 in Hi. exists n0.
  set (t := Z.lor (Z.lor 0xe0 (Z.shiftl (Z.land (d_dev x) 1) 4)) (Z.land (Z.shiftr (d_sector x) 24) 0x0f)).
  set (d2 := outb 0x3f6 0 d1).
  destruct (reg_idle d1 0x3f6 0 Hi ltac:(apply list_elem_of_In; cbn; tauto) ltac:(lia)) as [E2 I2]. fold d2 in E2, I2.
  assert (Hdv : Z.land (d_dev x) 1 = d_dev x) by (destruct Hd as [-> | ->]; done).
  assert (L : forall k a, 0 <= k -> Z.land a (Z.ones k) = a mod 2 ^ k) by (intros; by apply Z.land_ones).
  pose proof (setup_names (d_dev x) (d_sector x) d2 I2 ltac:(destruct Hd as [-> | ->]; lia) Hs) as N.
  set (d3 := setup (Z.land (d_sector x) 0xff) (Z.land (Z.shiftr (d_sector x) 8) 0xff) (Z.land (Z.shiftr (d_sector x) 16) 0xff) t d2).
  assert (N3 : names (d_dev x) (d_sector x) (view d2) (view d3)).
  { unfold d3, t. rewrite !Z.shiftr_div_pow2 by lia. rewrite Hdv. change 0xff with (Z.ones 8). change 0x0f with (Z.ones 4). by rewrite !L by lia. }
  clear N. destruct N3 as (S3 & G3 & P3 & A3 & V3 & B3). exists d3.
  assert (I3 : idle (view d3)) by (unfold idle; by rewrite P3). rewrite E2, E1 in S3, G3. split_and!; try done.
  intros n s Hn Hds Hx. unfold idestart. rewrite (bind_Ok _ _ _ _ _ (W n s Hn Hds)).
  unfold dget, bind, gets, modify, out_b, out_sl, ret. cbn [obind dbufs set_dev]. rewrite Hx. cbn [obind]. by destruct (has (d_flags x) B_DIRTY).
Qed.

Lemma idestart_spec h x b d : acceptable h x -> idle (view d) -> exists n0 d', started x (view d) (view d') /\
  forall n s, (n0 <= n)%nat -> dev s = d -> dbufs s !! b = Some x -> idestart (Some b) n s = Ok tt (set_dev d' s).
Proof.
  intros [_ _ Hd Hs Hl Hp] Hi. destruct (idestart_setup x b d ltac:(tauto) Hs Hi) as (n0 & d3 & S3 & G3 & I3 & A3 & V3 & B3 & W).
  exists n0. unfold started, command. destruct (has (d_flags x) B_DIRTY) eqn:Ef.
  - exists (outsl 0x1f0 (d_data x) (outb 0x1f7 0x30 d3)). split; [|intros n s Hn Hds Hx; by rewrite (W n s Hn Hds Hx)].
    pose proof (prompt_write d3 (Hp eq_refl) I3 A3) as Ew. rewrite V3, B3 in Ew.
    rewrite (ata_out _ (d_dev x) (d_sector x)); [|by rewrite Ew|done]. rewrite Ew. done.
  - exists (outb 0x1f7 0x20 d3). split; [|intros n s Hn Hds Hx; by rewrite (W n s Hn Hds Hx)].
    rewrite (ata_read d3 I3 A3), V3, B3. done.
Qed.

(** ** The queue *)

(** A buffer without its link. *)
Definition core x : dbuf := ds_qnext None x.

Fixpoint linked (bs : list dbuf) (q : option nat) (l : list nat) : Prop :=
  match l with
  | [] => q = None
  | b :: l => q = Some b /\ exists x, bs !! b = Some x /\ linked bs (d_qnext x) l
  end.

Lemma linked_ext bs bs' l : forall q, (forall i, i ∈ l -> bs' !! i = bs !! i) -> linked bs q l -> linked bs' q l.
Proof.
  induction l as [|b l IH]; intros q He Hl; [done|]. destruct Hl as (-> & x & Hx & Hl). split; [done|]. exists x.
  split; [rewrite He by (by left); done|]. apply IH; [|done]. intros i Hi. apply He. by right.
Qed.

Lemma linked_in bs l : forall q i, linked bs q l -> i ∈ l -> exists x, bs !! i = Some x.
Proof.
  induction l as [|b l IH]; intros q i Hl Hi; [by apply elem_of_nil in Hi|]. destruct Hl as (-> & x & Hx & Hl).
  apply elem_of_cons in Hi as [->|Hi]; [by exists x|]. by apply (IH (d_qnext x)).
Qed.

Lemma linked_fits bs q l : linked bs q l -> NoDup l -> (length l <= length bs)%nat.
Proof.
  intros Hl Hn. rewrite <- (length_seq (length bs) 0). apply submseteq_length, NoDup_submseteq; [done|].
  intros i Hi. destruct (linked_in _ _ _ _ Hl Hi) as [x Hx]. apply elem_of_seq. apply lookup_lt_Some in Hx. lia.
Qed.

Lemma queue_end_spec s l : forall h fuel, linked (dbufs s) (Some h) (h :: l) -> (length l < fuel)%nat ->
  exists e, queue_end h fuel s = Ok e s /\ e ∈ h :: l /\
    forall b x bs', NoDup (h :: l) -> b ∉ h :: l -> dbufs s !! b = Some x -> d_qnext x = None ->
      bs' = alter (ds_qnext (Some b)) e (dbufs s) -> linked bs' (Some h) ((h :: l) ++ [b]).
Proof.
  induction l as [|h' l IH]; intros h fuel Hl Hf; (destruct fuel as [|fuel]; [cbn in Hf; lia|]); destruct Hl as (_ & y & Hy & Hl); cbn [queue_end].
  - exists h. split; [|split; [by left|]].
    + rewrite (bind_Ok _ _ _ _ _ (dget_Ok _ _ _ Hy)). cbn in Hl. by rewrite Hl.
    + intros b x bs' _ Hb Hx Hq ->. split; [done|]. exists (ds_qnext (Some b) y). rewrite list_lookup_alter_eq, Hy. split; [done|].
      split; [done|]. exists x. split; [|done]. rewrite list_lookup_alter_ne; [done|]. intros ->. apply Hb. by left.
  - pose proof Hl as (Ey & _). rewrite Ey in Hl. cbn [length] in Hf. destruct (IH h' fuel Hl ltac:(lia)) as (e & E & He & Hap). exists e. split; [|split; [by right|]].
    + rewrite (bind_Ok _ _ _ _ _ (dget_Ok _ _ _ Hy)), Ey. exact E.
    + intros b x bs' Hn Hb Hx Hq Ebs. apply NoDup_cons in Hn as [Hh Hn]. apply not_elem_of_cons in Hb as [Hbh Hb].
      split; [done|]. exists y. split.
      * rewrite Ebs, list_lookup_alter_ne; [done|]. intros ->. done.
      * rewrite Ey. by apply (Hap b x).
Qed.

Lemma append_spec s b x l : linked (dbufs s) (idequeue s) l -> NoDup l -> b ∉ l -> dbufs s !! b = Some x -> d_qnext x = None ->
  exists bs', append b s = Ok tt (set_idequeue (match l with [] => Some b | _ => idequeue s end) (set_dbufs bs' s)) /\
    linked bs' (match l with [] => Some b | _ => idequeue s end) (l ++ [b]) /\ forall i, core <$> bs' !! i = core <$> dbufs s !! i.
Proof.
  intros Hl Hn Hb Hx Hq. unfold append. destruct l as [|h l].
  - exists (dbufs s). cbn in Hl. split; [|split; [|done]].
    + unfold bind, gets. cbn [obind]. rewrite Hl. by destruct s.
    + cbn. split; [done|]. exists x. done.
  - pose proof Hl as (Eq & _). rewrite Eq in Hl. pose proof (linked_fits _ _ _ Hl Hn) as Hf. cbn in Hf.
    destruct (queue_end_spec s l h (length (dbufs s)) Hl ltac:(lia)) as (e & E & He & Hap).
    exists (alter (ds_qnext (Some b)) e (dbufs s)). split; [|split].
    + unfold bind, gets. cbn [obind]. rewrite Eq. unfold bind. cbn [obind]. rewrite E. cbn [obind]. unfold dupd, modify.
      destruct s. cbn in *. by rewrite Eq.
    + rewrite Eq. by apply (Hap b x).
    + intros i. destruct (decide (i = e)) as [->|Hne]; [|by rewrite list_lookup_alter_ne].
      rewrite list_lookup_alter_eq. by destruct (dbufs s !! e).
Qed.

(** ** The interrupt *)

(** What one request does to an array of sectors. *)
Definition done_flags (f : Z) : Z := Z.land (Z.lor f B_VALID) (Z.lnot B_DIRTY).
Definition serve (disk : Z -> Z -> list byte) x : (Z -> Z -> list byte) * dbuf :=
  if has (d_flags x) B_DIRTY then
    (fun dv l => if (dv =? d_dev x) && (l =? d_sector x) then d_data x else disk dv l, ds_flags (done_flags (d_flags x)) x)
  else (disk, ds_data (disk (d_dev x) (d_sector x)) (ds_flags (done_flags (d_flags x)) x)).

(** The transfer of the data: the controller is idle afterwards. *)
Definition transfer (b : nat) x (n : nat) : M (ide D) unit :=
  when (negb (has (d_flags x) B_DIRTY))
    (let! r := idewait true n in when (0 <=? r) (let! bs := in_sl 0x1f0 in dupd b (ds_data bs))).

Lemma transfer_spec b x v d : doing v = command x -> damaged v (d_dev x) (d_sector x) = false -> view d = settle v ->
  exists n0 d', idle (view d') /\ sectors (view d') = (serve (sectors v) x).1 /\ damaged (view d') = damaged v /\
    forall n s, (n0 <= n)%nat -> dev s = d -> dbufs s !! b = Some x ->
      transfer b x n s = Ok tt (set_dbufs (<[b := ds_flags (d_flags x) (serve (sectors v) x).2]> (dbufs s)) (set_dev d' s)).
Proof.
  intros Hd Hg Hv. unfold command, settle in *. unfold serve, transfer. destruct (has (d_flags x) B_DIRTY) eqn:Ef; cbn [negb fst snd].
  - rewrite Hd in Hv. exists 0%nat, d. rewrite Hv. split; [by left|]. split; [done|]. split; [done|].
    intros n s _ Hs Hx. unfold when, ret. f_equal. rewrite list_insert_id by (by destruct x). by destruct s; cbn in *; subst.
  - rewrite Hd, Hg in Hv. destruct (idewait_spec true d) as (n0 & d1 & E1 & W); [unfold no_want; by rewrite Hv|].
    assert (Ev : view d1 = with_phase (HasData (sectors v (d_dev x) (d_sector x))) v) by (by rewrite E1, Hv).
    destruct (ata_in d1 (sectors v (d_dev x) (d_sector x))) as (d2 & Ein & E2); [by rewrite Ev|].
    exists n0, d2. rewrite E2, Ev. split; [by left|]. split; [done|]. split; [done|].
    intros n s Hn Hs Hx. unfold when. rewrite (bind_Ok _ _ _ _ _ (W n s Hn Hs)). unfold failed. rewrite Ev. cbn [with_phase doing andb Z.leb Z.compare].
    unfold bind, in_sl. cbn [dev set_dev]. rewrite Ein. cbn [obind]. unfold dupd, modify. cbn [dbufs set_dev]. rewrite (alter_insert _ _ _ _ Hx).
    done.
Qed.

(** Where the controller is with the requests [l] in the queue. *)
Definition at_work h (bs : list dbuf) (l : list nat) v : Prop :=
  match l with
  | [] => idle v
  | b :: _ => exists x, bs !! b = Some x /\ acceptable h x /\ doing v = command x
  end.

Lemma ideintr_spec s b x l v : idelock s = false -> linked (dbufs s) (idequeue s) (b :: l) -> NoDup (b :: l) ->
  dbufs s !! b = Some x -> (forall i, i ∈ l -> exists y, dbufs s !! i = Some y /\ acceptable (havedisk1 s) y) ->
  doing v = command x -> (forall dv i, damaged v dv i = false) -> view (dev s) = settle v ->
  exists n0 d', at_work (havedisk1 s) (dbufs s) l (view d') /\ sectors (view d') = (serve (sectors v) x).1 /\
    (forall dv i, damaged (view d') dv i = false) /\
    forall n, (n0 <= n)%nat -> ideintr n s = Ok tt (IdeState (<[b := (serve (sectors v) x).2]> (dbufs s)) (d_qnext x)
      (havedisk1 s) false (b :: woken s) d').
Proof.
  intros Hk Hl Hn Hx Hacc Hd Hg Hv. destruct (transfer_spec b x v (dev s) Hd (Hg _ _) Hv) as (n1 & d1 & Hi & Hs & Hdm & T).
  destruct Hl as (Eq & x' & Hx' & Hl). rewrite Hx in Hx'. injection Hx' as <-. apply NoDup_cons in Hn as [Hb _].
  set (y := (serve (sectors v) x).2).
  assert (Run : forall n, (n1 <= n)%nat -> ideintr n s =
    (let! q := gets idequeue in when (bool_decide (q <> None)) (idestart q n) ;;; ide_release)
      (IdeState (<[b := y]> (dbufs s)) (d_qnext x) (havedisk1 s) true (b :: woken s) d1)).
  { intros n Hle. unfold ideintr, bind at 1, ide_acquire, bind at 1, gets at 1. cbn [obind]. rewrite Hk. unfold modify at 1. cbn [obind].
    unfold bind at 1, gets at 1. cbn [obind idequeue set_idelock]. rewrite Eq.
    rewrite (bind_Ok _ _ _ _ _ (dget_Ok (set_idelock true s) b x Hx)). unfold bind at 1, modify at 1. cbn [obind].
    fold (transfer b x n). rewrite (bind_Ok _ _ _ _ _ (T n (set_idequeue (d_qnext x) (set_idelock true s)) Hle eq_refl Hx)).
    unfold bind at 1, dupd at 1, modify at 1. cbn [obind]. unfold bind at 1, dupd at 1, modify at 1. cbn [obind].
    unfold bind at 1, modify at 1. cbn [obind]. f_equal. destruct s as [bs q hd lk wk dv]. cbn in *.
    assert (Hlt : (b < length bs)%nat) by (by eapply lookup_lt_Some).
    rewrite (alter_insert _ (<[b := _]> bs) b (ds_flags (d_flags x) y)) by (by apply list_lookup_insert_eq).
    rewrite list_insert_insert_eq. erewrite (alter_insert _ (<[b := _]> bs) b) by (by apply list_lookup_insert_eq).
    rewrite list_insert_insert_eq. repeat f_equal. unfold y, serve, done_flags. by destruct (has (d_flags x) B_DIRTY); destruct x. }
  destruct l as [|b2 l].
  - exists n1, d1. cbn in Hl. split; [done|]. split; [done|]. split; [intros; rewrite Hdm; apply Hg|].
    intros n Hle. rewrite (Run n Hle). rewrite Hl. done.
  - destruct Hl as (Eq2 & x2 & Hx2 & Hl). destruct (Hacc b2 ltac:(by left)) as (x2' & E2 & A2). rewrite Hx2 in E2. injection E2 as <-.
    assert (Hne : b <> b2) by (intros ->; apply Hb; by left).
    destruct (idestart_spec (havedisk1 s) x2 b2 d1 A2 Hi) as (n2 & d2 & (S2 & G2 & P2) & W). exists (n1 + n2)%nat, d2.
    split; [by exists x2|]. split; [by rewrite S2|]. split; [intros; rewrite G2, Hdm; apply Hg|]. intros n Hle.
    rewrite Run by lia. unfold bind at 1, gets at 1. cbn [obind idequeue]. rewrite Eq2, bool_decide_eq_true_2 by done. unfold when.
    erewrite bind_Ok; [|apply (W n); [lia|reflexivity|cbn; by rewrite list_lookup_insert_ne]]. done.
Qed.

(** ** A call *)

(** The process after [sleep]. *)
Definition resume (b w : nat) : M (ide D) unit := ide_acquire ;;; iderw_wait b w ;;; ide_release.

Lemma acceptable_core h x y : core x = core y -> acceptable h x -> acceptable h y.
Proof. destruct x, y. intros [= -> -> -> ->] []. by split. Qed.

Lemma command_core x y : core x = core y -> command x = command y.
Proof. destruct x, y. by intros [= -> -> -> ->]. Qed.

Lemma wait_sleeps s b x w : dbufs s !! b = Some x -> Z.land (d_flags x) (Z.lor B_VALID B_DIRTY) <> B_VALID -> idelock s = true ->
  exists k, (iderw_wait b (S w) ;;; ide_release) s = Switch (set_idelock false s) k /\ forall s', k s' = resume b w s'.
Proof.
  intros Hx Hf Hk. cbn [iderw_wait]. unfold bind at 1. rewrite (bind_Ok _ _ _ _ _ (dget_Ok _ _ _ Hx)).
  rewrite (proj2 (Z.eqb_neq _ _) Hf). cbn [negb]. unfold bind at 1, ide_sleep, bind at 1, ide_release at 1, bind at 1, gets at 1. cbn [obind].
  rewrite Hk. unfold modify at 1, bind at 1. cbn [obind]. eexists. split; [reflexivity|]. intros s'. cbn.
  unfold resume, ide_acquire, bind, gets, modify. cbn [obind]. by destruct (idelock s').
Qed.

Lemma iderw_spec s b x l : idelock s = false -> linked (dbufs s) (idequeue s) l -> NoDup l -> b ∉ l ->
  dbufs s !! b = Some x -> acceptable (havedisk1 s) x -> at_work (havedisk1 s) (dbufs s) l (view (dev s)) ->
  exists n0 bs' q' d', linked bs' q' (l ++ [b]) /\ (forall i, core <$> bs' !! i = core <$> dbufs s !! i) /\
    at_work (havedisk1 s) bs' (l ++ [b]) (view d') /\ sectors (view d') = sectors (view (dev s)) /\ damaged (view d') = damaged (view (dev s)) /\
    forall n w, (n0 <= n)%nat -> exists k, iderw b n (S w) s = Switch (IdeState bs' q' (havedisk1 s) false (woken s) d') k /\
      forall s', k s' = resume b w s'.
Proof.
  intros Hk Hl Hn Hb Hx Ha Hw.
  set (s1 := set_dbufs (<[b := core x]> (dbufs s)) (set_idelock true s)).
  assert (Hx1 : dbufs s1 !! b = Some (core x)) by (apply list_lookup_insert_eq; by eapply lookup_lt_Some).
  destruct (append_spec s1 b (core x) l) as (bs' & Ea & Hl' & Hc); try done.
  { apply (linked_ext (dbufs s)); [|done]. intros i Hi. apply list_lookup_insert_ne. by intros ->. }
  assert (Hc' : forall i, core <$> bs' !! i = core <$> dbufs s !! i).
  { intros i. rewrite Hc. cbn. destruct (decide (i = b)) as [->|Hne]; [|by rewrite list_lookup_insert_ne].
    rewrite list_lookup_insert_eq by (by eapply lookup_lt_Some). by rewrite Hx. }
  assert (Hy : exists y, bs' !! b = Some y /\ core y = core x).
  { pose proof (Hc' b) as E. rewrite Hx in E. destruct (bs' !! b) as [y|]; [|done]. exists y. split; [done|]. cbn in E. congruence. }
  destruct Hy as (y & Hy & Ey). pose proof (acceptable_core _ _ _ (eq_sym Ey) Ha) as Hay.
  set (q' := match l with [] => Some b | _ => idequeue s end) in *.
  assert (Run : forall n w, iderw b n w s = (when (bool_decide (q' = Some b)) (idestart q' n) ;;; iderw_wait b w ;;; ide_release)
    (IdeState bs' q' (havedisk1 s) true (woken s) (dev s))).
  { intros n w. unfold iderw. rewrite (bind_Ok _ _ _ _ _ (dget_Ok _ _ _ Hx)). rewrite (ac_busy _ _ Ha), (proj2 (Z.eqb_neq _ _) (ac_work _ _ Ha)). cbn [negb].
    unfold bind at 1, gets at 1. cbn [obind].
    replace (negb (d_dev x =? 0) && negb (havedisk1 s)) with false by (destruct (ac_dev _ _ Ha) as [-> | [-> ->]]; done).
    unfold bind at 1, ide_acquire, bind at 1, gets at 1. cbn [obind]. rewrite Hk. unfold modify at 1. cbn [obind].
    unfold bind at 1, dupd at 1, modify at 1. cbn [obind dbufs set_idelock]. rewrite (alter_insert _ _ _ _ Hx). fold (core x). fold s1.
    rewrite (bind_Ok _ _ _ _ _ Ea). reflexivity. }
  destruct l as [|h l].
  - destruct (idestart_spec (havedisk1 s) y b (dev s) Hay Hw) as (n0 & d' & (S1 & G1 & P1) & W). exists n0, bs', q', d'.
    split; [done|]. split; [done|]. split; [by exists y|]. split; [done|]. split; [done|]. intros n w Hle. rewrite Run.
    unfold q' at 1 2. rewrite bool_decide_eq_true_2 by done. unfold when. erewrite bind_Ok; [|by apply (W n)].
    apply (wait_sleeps (IdeState bs' q' (havedisk1 s) true (woken s) d') b y w); [done|apply Hay|done].
  - exists 0%nat, bs', q', (dev s). split; [done|]. split; [done|]. split; [|split; [done|split; [done|]]].
    + destruct Hw as (z & Hz & Az & Pz). pose proof (Hc' h) as E. rewrite Hz in E. destruct (bs' !! h) as [z'|] eqn:Ez; [|done]. assert (E' : core z' = core z) by (cbn in E; congruence).
      exists z'. split; [done|]. split; [by apply (acceptable_core _ z)|]. by rewrite (command_core z' z E').
    + intros n w _. rewrite Run. destruct Hl as (Eq & _).
      rewrite bool_decide_eq_false_2; [|unfold q'; rewrite Eq; intros [= ->]; apply Hb; by left]. unfold when at 1, bind at 1, ret at 1. cbn [obind].
      apply (wait_sleeps (IdeState bs' q' (havedisk1 s) true (woken s) (dev s)) b y w); [done|apply Hay|done].
Qed.

Lemma resume_done s b x w : dbufs s !! b = Some x -> Z.land (d_flags x) (Z.lor B_VALID B_DIRTY) = B_VALID -> idelock s = false ->
  resume b w s = Ok tt s.
Proof.
  intros Hx Hf Hk. unfold resume, bind at 1, ide_acquire, bind at 1, gets at 1. cbn [obind]. rewrite Hk. unfold modify at 1. cbn [obind].
  assert (E : iderw_wait b w (set_idelock true s) = Ok tt (set_idelock true s)).
  { destruct w; cbn [iderw_wait]; rewrite (bind_Ok _ _ _ _ _ (dget_Ok (set_idelock true s) b x Hx)), Hf; done. }
  rewrite (bind_Ok _ _ _ _ _ E). unfold ide_release, bind, gets. cbn. destruct s. cbn in *. by subst.
Qed.

(** Woken before its request is served, the process finds that out and sleeps again. *)
Lemma resume_sleeps s b x w : dbufs s !! b = Some x -> Z.land (d_flags x) (Z.lor B_VALID B_DIRTY) <> B_VALID -> idelock s = false ->
  exists k, resume b (S w) s = Switch s k /\ forall s', k s' = resume b w s'.
Proof.
  intros Hx Hf Hk. unfold resume at 1, bind at 1, ide_acquire, bind at 1, gets at 1. cbn [obind]. rewrite Hk. unfold modify at 1. cbn [obind].
  destruct (wait_sleeps (set_idelock true s) b x w Hx Hf eq_refl) as (k & E & K). exists k. split; [|done]. rewrite E.
  destruct s. cbn in *. by subst.
Qed.

(** ** Processes and interrupts *)

(** The driver, the calls of [iderw] so far (each with its buffer as it was), the processes
    asleep in one (the call, its buffer, and how the process goes on when [sleep] returns to it
    for the last time but so many), and the calls that have returned, with the buffer they
    returned. *)
Record config : Type := Config {
  c_ide : ide D;
  c_calls : list (nat * dbuf);
  c_asleep : list (nat * nat * (nat -> ide D -> outcome (ide D) unit));
  c_ret : list (nat * dbuf)
}.

Definition asleep_on (c : config) (b : nat) : Prop := exists j k, (j, b, k) ∈ c_asleep c.

(** A polling loop ends when it may go on for long enough. *)
Definition calls_to (b : nat) (s s' : ide D) (k : nat -> ide D -> outcome (ide D) unit) : Prop := forall w, exists n0, forall n, (n0 <= n)%nat ->
  exists k', iderw b n (S w) s = Switch s' k' /\ forall s2, k' s2 = k w s2.
Definition intr_to (s s' : ide D) : Prop := exists n0, forall n, (n0 <= n)%nat -> ideintr n s = Ok tt s'.

(** The controller ends a command and interrupts; a process that was woken runs on. *)
Inductive served : config -> config -> Prop :=
  | serve_intr s calls asl rets d' s' : working (view (dev s)) = true -> ends (dev s) d' -> intr_to (set_dev d' s) s' ->
      served (Config s calls asl rets) (Config s' calls asl rets)
  | serve_run s calls asl1 j b k asl2 rets s' x : b ∈ woken s ->
      (forall w, k w (set_woken (filter (fun i => i <> b) (woken s)) s) = Ok tt s') -> dbufs s' !! b = Some x ->
      served (Config s calls (asl1 ++ (j, b, k) :: asl2) rets) (Config s' calls (asl1 ++ asl2) (rets ++ [(j, x)])).

(** Other processes change buffers that are not in use, call the driver, and kill processes: a
    sleeper that is killed runs although nobody woke it, and sleeps again or returns.  An
    interrupt may come without a command. *)
Inductive istep : config -> config -> Prop :=
  | step_serve c c' : served c c' -> istep c c'
  | step_fill s calls asl rets b x : ~ asleep_on (Config s calls asl rets) b ->
      istep (Config s calls asl rets) (Config (set_dbufs (<[b := x]> (dbufs s)) s) calls asl rets)
  | step_call s calls asl rets b x s' k : ~ asleep_on (Config s calls asl rets) b ->
      dbufs s !! b = Some x -> acceptable (havedisk1 s) x -> calls_to b s s' k ->
      istep (Config s calls asl rets) (Config s' (calls ++ [(b, x)]) (asl ++ [(length calls, b, k)]) rets)
  | step_kill s calls asl1 j b k asl2 rets s' k' : b ∉ woken s ->
      (forall w, exists k1, k (S w) s = Switch s' k1 /\ forall s2, k1 s2 = k' w s2) ->
      istep (Config s calls (asl1 ++ (j, b, k) :: asl2) rets) (Config s' calls (asl1 ++ (j, b, k') :: asl2) rets)
  | step_kill_ret s calls asl1 j b k asl2 rets s' x w : b ∉ woken s -> k w s = Ok tt s' -> dbufs s' !! b = Some x ->
      istep (Config s calls (asl1 ++ (j, b, k) :: asl2) rets) (Config s' calls (asl1 ++ asl2) (rets ++ [(j, x)]))
  | step_spurious s calls asl rets s' : idequeue s = None -> intr_to s s' ->
      istep (Config s calls asl rets) (Config s' calls asl rets).

Inductive ireach (c0 : config) : config -> Prop :=
  | ireach_start : ireach c0 c0
  | ireach_step c c' : ireach c0 c -> istep c c' -> ireach c0 c'.

(** The array of sectors after the first [j] calls were served in order. *)
Definition disk_at (V : Z -> Z -> list byte) (calls : list (nat * dbuf)) (j : nat) : Z -> Z -> list byte :=
  foldl (fun dk c => (serve dk c.2).1) V (take j calls).

Record inv (V : Z -> Z -> list byte) (c : config) (n : nat) : Prop := {
  iv_n : (n <= length (c_calls c))%nat;
  iv_lock : idelock (c_ide c) = false;
  iv_linked : linked (dbufs (c_ide c)) (idequeue (c_ide c)) (drop n (c_calls c)).*1;
  iv_nodup : NoDup ((c_asleep c).*1).*2;
  iv_pend : forall j b x, (n <= j)%nat -> c_calls c !! j = Some (b, x) -> (exists k, (j, b, k) ∈ c_asleep c) /\
    exists y, dbufs (c_ide c) !! b = Some y /\ core y = core x /\ acceptable (havedisk1 (c_ide c)) x;
  iv_work : at_work (havedisk1 (c_ide c)) (dbufs (c_ide c)) (drop n (c_calls c)).*1 (view (dev (c_ide c)));
  iv_disk : sectors (view (dev (c_ide c))) = disk_at V (c_calls c) n;
  iv_good : forall dv i, damaged (view (dev (c_ide c))) dv i = false;
  iv_sleep : forall j b k, (j, b, k) ∈ c_asleep c -> (forall w s, k w s = resume b w s) /\
    exists x, c_calls c !! j = Some (b, x) /\ ((j < n)%nat -> b ∈ woken (c_ide c) /\
      exists y, dbufs (c_ide c) !! b = Some y /\ core y = core (serve (disk_at V (c_calls c) j) x).2);
  iv_woken : forall b, b ∈ woken (c_ide c) -> exists j k, (j, b, k) ∈ c_asleep c /\ (j < n)%nat;
  iv_ret : forall j x', (j, x') ∈ c_ret c -> exists b x, c_calls c !! j = Some (b, x) /\
    core x' = core (serve (disk_at V (c_calls c) j) x).2
}.

Lemma asleep_eq (asl : list (nat * nat * (nat -> ide D -> outcome (ide D) unit))) j j' b k k' :
  NoDup (asl.*1).*2 -> (j, b, k) ∈ asl -> (j', b, k') ∈ asl -> j = j' /\ k = k'.
Proof.
  intros Hn [i Hi]%list_elem_of_lookup_1 [i' Hi']%list_elem_of_lookup_1.
  assert (i = i') as ->; [|rewrite Hi in Hi'; by injection Hi' as -> ->].
  apply (NoDup_lookup _ i i' b Hn); rewrite !list_lookup_fmap; [by rewrite Hi|by rewrite Hi'].
Qed.

Lemma pend_nodup V c n : inv V c n -> NoDup (drop n (c_calls c)).*1.
Proof.
  intros I. apply NoDup_alt. intros i i' b Hi Hi'. rewrite list_lookup_fmap, lookup_drop in Hi, Hi'.
  destruct (c_calls c !! (n + i)%nat) as [[b1 x1]|] eqn:E; [|done]. destruct (c_calls c !! (n + i')%nat) as [[b2 x2]|] eqn:E'; [|done].
  injection Hi as ->. injection Hi' as ->.
  destruct (iv_pend _ _ _ I _ _ _ (Nat.le_add_r n i) E) as [[k Hk] _]. destruct (iv_pend _ _ _ I _ _ _ (Nat.le_add_r n i') E') as [[k' Hk'] _].
  destruct (asleep_eq _ _ _ _ _ _ (iv_nodup _ _ _ I) Hk Hk'). lia.
Qed.

Lemma pend_asleep V c n b : inv V c n -> b ∈ (drop n (c_calls c)).*1 -> asleep_on c b.
Proof.
  intros I ([b' x] & -> & [i Hi]%list_elem_of_lookup_1)%list_elem_of_fmap. rewrite lookup_drop in Hi.
  destruct (iv_pend _ _ _ I _ _ _ (Nat.le_add_r n i) Hi) as [[k Hk] _]. by exists (n + i)%nat, k.
Qed.

Lemma disk_at_app V calls calls' j : (j <= length calls)%nat -> disk_at V (calls ++ calls') j = disk_at V calls j.
Proof. intros Hj. unfold disk_at. by rewrite take_app_le. Qed.

Lemma work_ext h bs bs' l v : (forall i, i ∈ l -> bs' !! i = bs !! i) -> at_work h bs l v -> at_work h bs' l v.
Proof. destruct l as [|b l]; [done|]. intros He (x & Hx & R). exists x. by rewrite He by (by left). Qed.

Lemma fill_inv V s calls asl rets n b x : inv V (Config s calls asl rets) n -> ~ asleep_on (Config s calls asl rets) b ->
  inv V (Config (set_dbufs (<[b := x]> (dbufs s)) s) calls asl rets) n.
Proof.
  intros Hi Hb. assert (He : forall i, asleep_on (Config s calls asl rets) i -> <[b := x]> (dbufs s) !! i = dbufs s !! i).
  { intros i Ha. apply list_lookup_insert_ne. by intros ->. }
  assert (Hp : forall i, i ∈ (drop n calls).*1 -> <[b := x]> (dbufs s) !! i = dbufs s !! i).
  { intros i Hp. apply He. by apply (pend_asleep _ _ _ _ Hi). }
  destruct Hi as [I1 I2 I3 I4 I5 I6 I7 I8 I9 I10 I11]. split; try done.
  - cbn in *. by apply (linked_ext (dbufs s)).
  - intros j b' x' Hj Hc. destruct (I5 j b' x' Hj Hc) as [[k Hk] R]. split; [by exists k|]. cbn in *. rewrite He; [done|by exists j, k].
  - cbn in *. by apply (work_ext _ (dbufs s)).
  - intros j b' k Hk. destruct (I9 j b' k Hk) as [W (x' & Hx' & R)]. split; [done|]. exists x'. split; [done|]. cbn in *. rewrite He; [done|by exists j, k].
Qed.

Lemma icall_inv V s calls asl rets n b x s' k : inv V (Config s calls asl rets) n -> ~ asleep_on (Config s calls asl rets) b ->
  dbufs s !! b = Some x -> acceptable (havedisk1 s) x -> calls_to b s s' k ->
  inv V (Config s' (calls ++ [(b, x)]) (asl ++ [(length calls, b, k)]) rets) n.
Proof.
  intros Hi Hb Hx Ha Hrun. pose proof (pend_nodup _ _ _ Hi) as Hnd.
  assert (Hbp : b ∉ (drop n calls).*1) by (intros Hp; apply Hb; by apply (pend_asleep _ _ _ _ Hi)).
  destruct Hi as [I1 I2 I3 I4 I5 I6 I7 I8 I9 I10 I11]. cbn in I1, I2, I3, I4, I6, I7, I8, Hnd.
  destruct (iderw_spec s b x _ I2 I3 Hnd Hbp Hx Ha I6) as (n0 & bs' & q' & d' & Hl & Hc & Hw & Hs & Hg & Hr).
  assert (HK : s' = IdeState bs' q' (havedisk1 s) false (woken s) d' /\ forall w s0, k w s0 = resume b w s0).
  { assert (HK : forall w, s' = IdeState bs' q' (havedisk1 s) false (woken s) d' /\ forall s0, k w s0 = resume b w s0); [|split; [apply (HK 0%nat)|apply HK]].
    intros w. destruct (Hrun w) as [n1 Hw1].
    destruct (Hw1 (n0 + n1)%nat ltac:(lia)) as (k1 & E1 & K1). destruct (Hr (n0 + n1)%nat w ltac:(lia)) as (k2 & E2 & K2).
    rewrite E1 in E2. injection E2 as -> ->. split; [done|]. intros s0. by rewrite <- K1, K2. }
  destruct HK as [-> HK].
  assert (Hdr : drop n (calls ++ [(b, x)]) = drop n calls ++ [(b, x)]) by (by rewrite drop_app_le).
  assert (Hcore : forall i y, dbufs s !! i = Some y -> exists y', bs' !! i = Some y' /\ core y' = core y).
  { intros i y E. pose proof (Hc i) as Ec. rewrite E in Ec. destruct (bs' !! i) as [y'|]; [|done]. exists y'. split; [done|]. cbn in Ec. congruence. }
  split; cbn.
  - rewrite length_app. lia.
  - done.
  - by rewrite Hdr, fmap_app.
  - rewrite !fmap_app. apply NoDup_app. split; [done|]. split; [|apply NoDup_singleton].
    intros b' Hb' Hb2%list_elem_of_singleton. cbn in Hb2. subst b'. apply Hb.
    apply list_elem_of_fmap in Hb' as ([j b'] & E3 & ([[j' b''] k'] & E4 & Hk)%list_elem_of_fmap). cbn in E3, E4. injection E4 as -> ->. subst b.
    by exists j', k'.
  - intros j b' x' Hj [Hcl|[Hle Hcl]]%lookup_app_Some.
    + destruct (I5 j b' x' Hj Hcl) as [[k' Hk'] (y & Hy & Ey & Ay)]. split; [exists k'; apply elem_of_app; by left|].
      destruct (Hcore _ _ Hy) as (y' & Hy' & Ey'). exists y'. split; [done|]. split; [congruence|done].
    + apply list_lookup_singleton_Some in Hcl as [Hj0 [= <- <-]]. split; [|].
      * exists k. apply elem_of_app. right. apply list_elem_of_singleton. f_equal. f_equal. lia.
      * destruct (Hcore _ _ Hx) as (y' & Hy' & Ey'). by exists y'.
  - by rewrite Hdr, fmap_app.
  - by rewrite Hs, I7, disk_at_app.
  - intros. rewrite Hg. apply I8.
  - intros j b' k' [Hk|Hk%list_elem_of_singleton]%elem_of_app.
    + destruct (I9 j b' k' Hk) as [W (x' & Hx' & R)]. split; [done|]. exists x'. split; [by apply lookup_app_l_Some|].
      intros Hj. destruct (R Hj) as [Rw (y & Hy & Ey)]. split; [done|]. destruct (Hcore _ _ Hy) as (y' & Hy' & Ey'). exists y'. split; [done|].
      cbn in Hx', Ey. rewrite disk_at_app; [congruence|]. apply lookup_lt_Some in Hx'. lia.
    + injection Hk as -> -> ->. split; [done|]. exists x. split; [|lia].
      by rewrite lookup_app_r, Nat.sub_diag by lia.
  - intros b' Hb'. destruct (I10 b' Hb') as (j & k' & Hk & Hj). exists j, k'. split; [|done]. apply elem_of_app. by left.
  - intros j x' Hr'. destruct (I11 j x' Hr') as (b' & y & Hc' & Ey). exists b', y. split; [by apply lookup_app_l_Some|].
    cbn in *. rewrite disk_at_app; [done|]. apply lookup_lt_Some in Hc'. lia.
Qed.

Lemma serve_core dk x y : core x = core y -> (serve dk x).1 = (serve dk y).1 /\ core (serve dk x).2 = core (serve dk y).2.
Proof. destruct x, y. unfold serve. cbn. intros [= -> -> -> ->]. by destruct (has _ _). Qed.

Lemma disk_at_S V calls n b x : calls !! n = Some (b, x) -> disk_at V calls (S n) = (serve (disk_at V calls n) x).1.
Proof. intros E. unfold disk_at. rewrite (take_S_r _ _ _ E), foldl_app. done. Qed.

Lemma intr_det s s1 s2 : intr_to s s1 -> intr_to s s2 -> s1 = s2.
Proof. intros [n1 H1] [n2 H2]. specialize (H1 (n1 + n2)%nat ltac:(lia)). specialize (H2 (n1 + n2)%nat ltac:(lia)). congruence. Qed.

(** The interrupt finds the first pending call's command ended. *)
Lemma intr_inv V s calls asl rets n b x P d' : inv V (Config s calls asl rets) n -> drop n calls = (b, x) :: P -> ends (dev s) d' ->
  exists s', intr_to (set_dev d' s) s' /\ inv V (Config s' calls asl rets) (S n).
Proof.
  intros Hi EP He. pose proof (pend_nodup _ _ _ Hi) as Hnd. destruct Hi as [I1 I2 I3 I4 I5 I6 I7 I8 I9 I10 I11]. cbn in *.
  assert (En : calls !! n = Some (b, x)) by (by rewrite <- (Nat.add_0_r n), <- lookup_drop, EP).
  assert (EPn : drop (S n) calls = P) by (by rewrite <- Nat.add_1_r, <- drop_drop, EP).
  rewrite EP in *. cbn [fmap list_fmap fst] in *.
  destruct (I5 n b x (le_n n) En) as [[kb Hkb] (y & Hy & Ey & Ay)].
  destruct I6 as (y' & Hy' & Ay' & Wy'). rewrite Hy in Hy'. injection Hy' as <-.
  destruct (ideintr_spec (set_dev d' s) b y P.*1 (view (dev s)) I2 I3 Hnd Hy) as (n0 & d2 & W2 & S2 & G2 & R2); try done.
  { intros i ([i' z] & -> & [j Hj]%list_elem_of_lookup_1)%list_elem_of_fmap. rewrite <- EPn, lookup_drop in Hj.
    destruct (I5 (S n + j)%nat i' z ltac:(lia) Hj) as [_ (z' & Hz' & Ez' & Az')]. exists z'. split; [done|]. by apply (acceptable_core _ z). }
  { by apply ata_ends. }
  destruct (serve_core (sectors (view (dev s))) y x Ey) as [C1 C2]. apply NoDup_cons in Hnd as [Hb Hnd].
  assert (Hlt : (b < length (dbufs s))%nat) by (by eapply lookup_lt_Some).
  assert (Hne : forall i, i <> b -> <[b := (serve (sectors (view (dev s))) y).2]> (dbufs s) !! i = dbufs s !! i) by (intros; by apply list_lookup_insert_ne).
  eexists. split; [by exists n0|]. split; cbn.
  - apply lookup_lt_Some in En. lia.
  - done.
  - rewrite EPn. destruct I3 as (_ & y2 & E2 & I3). rewrite Hy in E2. injection E2 as <-. apply (linked_ext (dbufs s)); [|done].
    intros i Hp. apply Hne. by intros ->.
  - done.
  - intros j b' x' Hj Hc. destruct (I5 j b' x' ltac:(lia) Hc) as [[k Hk] R]. split; [by exists k|]. rewrite Hne; [done|]. intros ->.
    destruct (asleep_eq _ _ _ _ _ _ I4 Hk Hkb). lia.
  - rewrite EPn. apply (work_ext _ (dbufs s)); [|done]. intros i Hp. apply Hne. by intros ->.
  - rewrite S2, C1, I7. symmetry. by apply (disk_at_S _ _ _ b).
  - done.
  - intros j b' k Hk. destruct (I9 j b' k Hk) as [W (x' & Hx' & R)]. split; [done|]. exists x'. split; [done|]. intros Hj.
    destruct (decide (b' = b)) as [->|Hbb].
    + destruct (asleep_eq _ _ _ _ _ _ I4 Hk Hkb) as [-> _]. rewrite En in Hx'. injection Hx' as <-. split; [by left|].
      eexists. split; [by apply list_lookup_insert_eq|]. by rewrite C2, I7.
    + assert (Hjn : (j < n)%nat).
      { assert (j <> n); [|lia]. intros ->. rewrite En in Hx'. by injection Hx' as -> _. }
      destruct (R Hjn) as [Rw Rd]. split; [by right|]. by rewrite Hne.
  - intros b' [->|Hb']%elem_of_cons; [exists n, kb; split; [done|lia]|]. destruct (I10 b' Hb') as (j & k & Hk & Hj). exists j, k. split; [done|lia].
  - done.
Qed.

Lemma spurious_inv V s calls asl rets n s' : inv V (Config s calls asl rets) n -> idequeue s = None -> intr_to s s' -> s' = s.
Proof.
  intros Hi Hq Hs. apply (intr_det s); [done|]. exists 0%nat. intros m _. pose proof (iv_lock _ _ _ Hi) as Hk. cbn in Hk.
  unfold ideintr, bind at 1, ide_acquire, bind at 1, gets at 1. cbn [obind]. rewrite Hk. unfold modify at 1. cbn [obind].
  unfold bind at 1, gets at 1. cbn [obind idequeue set_idelock]. rewrite Hq. unfold ide_release, bind, gets. cbn. destruct s. cbn in *. by subst.
Qed.

Lemma done_ok dk x : Z.land (d_flags (serve dk x).2) (Z.lor B_VALID B_DIRTY) = B_VALID.
Proof.
  assert (E : d_flags (serve dk x).2 = done_flags (d_flags x)) by (unfold serve; by destruct (has _ _)). rewrite E. unfold done_flags.
  apply Z.bits_inj'. intros i Hi. rewrite !Z.land_spec, Z.lor_spec, Z.lnot_spec by done.
  destruct (decide (i < 3)) as [Hl|Hg].
  - assert (i = 0 \/ i = 1 \/ i = 2) as [-> | [-> | ->]] by lia; cbn; by rewrite ?andb_false_r, ?orb_true_r, ?andb_true_r.
  - rewrite (Z.bits_above_log2 (Z.lor B_VALID B_DIRTY)), (Z.bits_above_log2 B_VALID); [by rewrite andb_false_r|done| |done|]; (apply (Z.lt_le_trans _ 3); [reflexivity|lia]).
Qed.

Lemma run_inv V s calls asl1 j b k asl2 rets n : inv V (Config s calls (asl1 ++ (j, b, k) :: asl2) rets) n -> b ∈ woken s ->
  let s' := set_woken (filter (fun i => i <> b) (woken s)) s in
  (forall w, k w s' = Ok tt s') /\ exists y, dbufs s !! b = Some y /\ inv V (Config s' calls (asl1 ++ asl2) (rets ++ [(j, y)])) n.
Proof.
  intros Hi Hb s'. destruct Hi as [I1 I2 I3 I4 I5 I6 I7 I8 I9 I10 I11]. cbn in *.
  assert (Hk : (j, b, k) ∈ asl1 ++ (j, b, k) :: asl2) by (apply elem_of_app; right; by left).
  destruct (I10 b Hb) as (j2 & k2 & Hk2 & Hj2). destruct (asleep_eq _ _ _ _ _ _ I4 Hk Hk2) as [<- <-]. clear Hk2.
  destruct (I9 j b k Hk) as [Hw (x & Hx & R)]. destruct (R Hj2) as [_ (y & Hy & Ey)].
  assert (Ef : d_flags y = d_flags (serve (disk_at V calls j) x).2) by (by apply (f_equal d_flags) in Ey).
  split; [intros w; rewrite Hw; apply (resume_done s' b y); [done|rewrite Ef; apply done_ok|done]|].
  exists y. split; [done|].
  assert (Hsub : forall e, e ∈ asl1 ++ asl2 -> e ∈ asl1 ++ (j, b, k) :: asl2).
  { intros e. rewrite !elem_of_app, elem_of_cons. tauto. }
  assert (Hrest : forall e, e ∈ asl1 ++ (j, b, k) :: asl2 -> e <> (j, b, k) -> e ∈ asl1 ++ asl2).
  { intros e. rewrite !elem_of_app, elem_of_cons. tauto. }
  assert (Hother : forall j' b' k', (j', b', k') ∈ asl1 ++ asl2 -> b' <> b).
  { rewrite !fmap_app, !fmap_cons in I4. cbn in I4. rewrite <- Permutation_middle in I4. apply NoDup_cons in I4 as [I4 _].
    intros j' b' k' Hk' ->. apply I4. rewrite <- !fmap_app. apply list_elem_of_fmap. exists (j', b). split; [done|].
    apply list_elem_of_fmap. by exists (j', b, k'). }
  split; cbn; try done.
  - rewrite !fmap_app, !fmap_cons in I4. cbn in I4. rewrite <- Permutation_middle in I4. apply NoDup_cons in I4 as [_ I4]. by rewrite !fmap_app.
  - intros j' b' x' Hj' Hc. destruct (I5 j' b' x' Hj' Hc) as [[k' Hk'] R']. split; [|done]. exists k'. apply Hrest; [done|]. intros [= -> _ _]. lia.
  - intros j' b' k' Hk'. destruct (I9 j' b' k' (Hsub _ Hk')) as [W (x' & Hx' & R')]. split; [done|]. exists x'. split; [done|]. intros Hj'.
    destruct (R' Hj') as [Rw Rd]. split; [|done]. apply list_elem_of_filter. split; [by apply (Hother j' b' k')|done].
  - intros b' [Hne Hb']%list_elem_of_filter. destruct (I10 b' Hb') as (j' & k' & Hk' & Hj'). exists j', k'. split; [|done].
    apply Hrest; [done|]. by intros [= _ -> _].
  - intros j' x' [Hr|Hr%list_elem_of_singleton]%elem_of_app; [by apply I11|]. injection Hr as -> ->. by exists b, x.
Qed.

(** A process that was not woken waits for a request that is not served: killed, it sleeps
    again, and nothing has changed. *)
Lemma kill_sleeps V s calls asl rets n j b k w : inv V (Config s calls asl rets) n -> (j, b, k) ∈ asl -> b ∉ woken s ->
  exists k1, k (S w) s = Switch s k1 /\ forall s2, k1 s2 = resume b w s2.
Proof.
  intros Hi Hk Hb. destruct (iv_sleep _ _ _ Hi j b k Hk) as [Hr (x & Hx & R)]. cbn in *. rewrite Hr.
  assert (Hj : (n <= j)%nat) by (destruct (decide (j < n)%nat) as [Hlt|]; [by destruct (R Hlt)|lia]).
  destruct (iv_pend _ _ _ Hi j b x Hj Hx) as [_ (y & Hy & Ey & Ay)]. apply (resume_sleeps s b y w Hy); [|apply (iv_lock _ _ _ Hi)].
  apply (ac_work (havedisk1 s)). by apply (acceptable_core _ x).
Qed.

Lemma kill_inv V s calls asl1 j b k asl2 rets n s' k' : inv V (Config s calls (asl1 ++ (j, b, k) :: asl2) rets) n -> b ∉ woken s ->
  (forall w, exists k1, k (S w) s = Switch s' k1 /\ forall s2, k1 s2 = k' w s2) ->
  inv V (Config s' calls (asl1 ++ (j, b, k') :: asl2) rets) n.
Proof.
  intros Hi Hb Hr. assert (Hk : (j, b, k) ∈ asl1 ++ (j, b, k) :: asl2) by (apply elem_of_app; right; by left).
  assert (HK : s' = s /\ forall w s2, k' w s2 = resume b w s2).
  { assert (HK : forall w, s' = s /\ forall s2, k' w s2 = resume b w s2); [|split; [apply (HK 0%nat)|apply HK]].
    intros w. destruct (Hr w) as (k1 & E1 & K1). destruct (kill_sleeps _ _ _ _ _ _ _ _ _ w Hi Hk Hb) as (k2 & E2 & K2).
    rewrite E1 in E2. injection E2 as -> ->. split; [done|]. intros s2. by rewrite <- K1, K2. }
  destruct HK as [-> HK]. destruct Hi as [I1 I2 I3 I4 I5 I6 I7 I8 I9 I10 I11].
  assert (Hto : forall i c, (exists k0, (i, c, k0) ∈ asl1 ++ (j, b, k) :: asl2) ->
    exists k0, (i, c, k0) ∈ asl1 ++ (j, b, k') :: asl2).
  { intros i c (k0 & [Hl|[Heq|Hl]%elem_of_cons]%elem_of_app).
    - exists k0. apply elem_of_app. by left.
    - injection Heq as -> -> ->. exists k'. apply elem_of_app. right. by left.
    - exists k0. apply elem_of_app. right. by right. }
  split; cbn in *; try done.
  - rewrite !fmap_app in I4 |- *. exact I4.
  - intros i c x Hle Hc. destruct (I5 i c x Hle Hc) as [He R]. split; [by apply Hto|done].
  - intros i c k0 [Hl|[Heq|Hl]%elem_of_cons]%elem_of_app.
    + apply (I9 i c k0). apply elem_of_app. by left.
    + injection Heq as -> -> ->. destruct (I9 j b k Hk) as [_ R]. by split.
    + apply (I9 i c k0). apply elem_of_app. right. by right.
  - intros c Hc. destruct (I10 c Hc) as (i & k0 & Hk0 & Hlt). destruct (Hto i c) as [k1 Hk1]; [by exists k0|]. by exists i, k1.
Qed.

Lemma kill_returns V s calls asl1 j b k asl2 rets n w s' : inv V (Config s calls (asl1 ++ (j, b, k) :: asl2) rets) n -> b ∉ woken s ->
  k w s <> Ok tt s'.
Proof.
  intros Hi Hb E. assert (Hk : (j, b, k) ∈ asl1 ++ (j, b, k) :: asl2) by (apply elem_of_app; right; by left). destruct w as [|w].
  - destruct (iv_sleep _ _ _ Hi j b k Hk) as [Hr (x & Hx & R)]. cbn in *. rewrite Hr in E.
    assert (Hj : (n <= j)%nat) by (destruct (decide (j < n)%nat) as [Hlt|]; [by destruct (R Hlt)|lia]).
    destruct (iv_pend _ _ _ Hi j b x Hj Hx) as [_ (y & Hy & Ey & Ay)]. cbn in Hy.
    assert (Hf : Z.land (d_flags y) (Z.lor B_VALID B_DIRTY) <> B_VALID) by (apply (ac_work (havedisk1 s)); by apply (acceptable_core _ x)).
    unfold resume, bind at 1, ide_acquire, bind at 1, gets at 1 in E. cbn [obind] in E. pose proof (iv_lock _ _ _ Hi) as Hl. cbn in Hl. rewrite Hl in E.
    unfold modify at 1 in E. cbn [obind iderw_wait] in E. unfold bind at 1 in E. rewrite (bind_Ok _ _ _ _ _ (dget_Ok (set_idelock true s) b y Hy)) in E.
    by rewrite (proj2 (Z.eqb_neq _ _) Hf) in E.
  - destruct (kill_sleeps _ _ _ _ _ _ _ _ _ w Hi Hk Hb) as (k1 & E1 & _). congruence.
Qed.

Lemma working_pend V s calls asl rets n : inv V (Config s calls asl rets) n -> working (view (dev s)) = true ->
  exists b x P, drop n calls = (b, x) :: P.
Proof.
  intros Hi Hw. pose proof (iv_work _ _ _ Hi) as W. cbn in W. destruct (drop n calls) as [|[b x] P]; [|by exists b, x, P].
  unfold working in Hw. by destruct W as [W|W]; rewrite W in Hw.
Qed.

Lemma served_inv V c c' n : inv V c n -> served c c' -> exists n', inv V c' n'.
Proof.
  intros Hi Hs. destruct Hs as [s calls asl rets d' s' Hw He Hin|s calls asl1 j b k asl2 rets s' x Hb Hk Hx].
  - destruct (working_pend _ _ _ _ _ _ Hi Hw) as (b & x & P & EP). destruct (intr_inv _ _ _ _ _ _ _ _ _ _ Hi EP He) as (s2 & R2 & I2).
    exists (S n). by rewrite (intr_det _ _ _ Hin R2).
  - destruct (run_inv _ _ _ _ _ _ _ _ _ _ Hi Hb) as (R & y & Hy & I2). specialize (Hk 0%nat). rewrite R in Hk. injection Hk as <-. cbn in Hx. exists n. congruence.
Qed.

Lemma istep_inv V c c' n : inv V c n -> istep c c' -> exists n', inv V c' n'.
Proof.
  intros Hi Hs. destruct Hs as [c c' Hs|s calls asl rets b x Hb|s calls asl rets b x s' k Hb Hx Ha Hr|s calls asl1 j b k asl2 rets s' k' Hb Hr|
    s calls asl1 j b k asl2 rets s' x w Hb Hr Hx|s calls asl rets s' Hq Hr].
  - by apply (served_inv _ c c' n).
  - exists n. by apply fill_inv.
  - exists n. by apply (icall_inv _ s).
  - exists n. by apply (kill_inv _ s _ _ _ _ k).
  - by destruct (kill_returns _ _ _ _ _ _ _ _ _ _ w s' Hi Hb).
  - exists n. by rewrite (spurious_inv _ _ _ _ _ _ _ Hi Hq Hr).
Qed.

(** The driver at rest in front of a disk without damage. *)
Record at_rest (V : Z -> Z -> list byte) s : Prop := {
  ar_lock : idelock s = false;
  ar_queue : idequeue s = None;
  ar_woken : woken s = [];
  ar_idle : idle (view (dev s));
  ar_disk : sectors (view (dev s)) = V;
  ar_good : forall dv i, damaged (view (dev s)) dv i = false
}.

Lemma reach_inv V s0 c : at_rest V s0 -> ireach (Config s0 [] [] []) c -> exists n, inv V c n.
Proof.
  intros [R1 R2 R3 R4 R5 R6]. induction 1 as [|c c' _ [n IH] Hs]; [|by eapply istep_inv]. exists 0%nat. split; cbn; try done.
  - apply NoDup_nil_2.
  - intros j b k Hk. by apply elem_of_nil in Hk.
  - intros b Hb. rewrite R3 in Hb. by apply elem_of_nil in Hb.
  - intros j x Hx. by apply elem_of_nil in Hx.
Qed.

(** C13. The driver serves its requests in order: however processes, interrupts, wake-ups and
    kills interleave, on every ATA controller for reads and on every controller that takes
    the data right behind the command for writes, a call of [iderw] that returns has done to
    its buffer what it would have done on an array of sectors after all the calls before it
    and no other, and when the queue is empty the disk is that array after all the calls. *)
Theorem ide_sequential V s0 c :
  at_rest V s0 -> ireach (Config s0 [] [] []) c ->
  (forall j x', (j, x') ∈ c_ret c -> exists b x, c_calls c !! j = Some (b, x) /\
     core x' = core (serve (disk_at V (c_calls c) j) x).2) /\
  (idequeue (c_ide c) = None -> sectors (view (dev (c_ide c))) = disk_at V (c_calls c) (length (c_calls c))).
Proof.
  intros Hr Hc. destruct (reach_inv V s0 c Hr Hc) as [n Hi]. split; [apply (iv_ret _ _ _ Hi)|].
  intros Hq. rewrite (iv_disk _ _ _ Hi). f_equal. pose proof (iv_linked _ _ _ Hi) as Hl. rewrite Hq in Hl.
  destruct (drop n (c_calls c)) as [|e P] eqn:E; [|by destruct Hl]. apply (f_equal length) in E. rewrite length_drop in E. cbn in E.
  pose proof (iv_n _ _ _ Hi). lia.
Qed.

(** What is left to do: every sleeper has to run, and before that to be woken. *)
Definition todo (c : config) : nat :=
  length (c_asleep c) + length (filter (fun e : nat * nat * (nat -> ide D -> outcome (ide D) unit) => e.1.2 ∉ woken (c_ide c)) (c_asleep c)).

Lemma served_less V c c' n : inv V c n -> served c c' -> (todo c' < todo c)%nat.
Proof.
  intros Hi Hs. destruct Hs as [s calls asl rets d' s' Hw He Hin|s calls asl1 j b k asl2 rets s' x Hb Hk Hx]; unfold todo; cbn [c_asleep c_ide].
  - destruct (working_pend _ _ _ _ _ _ Hi Hw) as (b & x & P & EP).
    assert (En : calls !! n = Some (b, x)) by (by rewrite <- (Nat.add_0_r n), <- lookup_drop, EP).
    destruct (iv_pend _ _ _ Hi n b x (le_n n) En) as [[kb Hkb] _]. cbn in Hkb.
    destruct (intr_inv _ _ _ _ _ _ _ _ _ _ Hi EP He) as (s2 & R2 & I2). rewrite (intr_det _ _ _ Hin R2).
    apply Nat.add_lt_mono_l. eapply filter_le.
    + intros [[j' b'] k'] Hk' Hnw Hw'. apply Hnw. destruct (iv_woken _ _ _ Hi b' Hw') as (j2 & k2 & Hk2 & Hj2).
      destruct (iv_sleep _ _ _ I2 j2 b' k2 Hk2) as [_ (x2 & _ & R)]. by apply R; lia.
    + exists (n, b, kb). split; [done|]. split.
      * intros Hwb. destruct (iv_woken _ _ _ Hi b Hwb) as (j2 & k2 & Hk2 & Hj2). destruct (asleep_eq _ _ _ _ _ _ (iv_nodup _ _ _ Hi) Hkb Hk2). lia.
      * destruct (iv_sleep _ _ _ I2 n b kb Hkb) as [_ (x2 & _ & R)]. intros Hn. apply Hn. by apply R; lia.
  - destruct (run_inv _ _ _ _ _ _ _ _ _ _ Hi Hb) as (R & y & Hy & I2). specialize (Hk 0%nat). rewrite R in Hk. injection Hk as <-.
    rewrite !length_app. cbn [length]. rewrite !filter_app, filter_cons_False by (cbn; tauto). rewrite <- !filter_app.
    assert (L : (length (filter (fun e : nat * nat * (nat -> ide D -> outcome (ide D) unit) => e.1.2 ∉ woken (set_woken (filter (fun i => i <> b) (woken s)) s)) (asl1 ++ asl2))
      <= length (filter (fun e : nat * nat * (nat -> ide D -> outcome (ide D) unit) => e.1.2 ∉ woken s) (asl1 ++ asl2)))%nat); [|lia].
    eapply filter_le. intros [[j' b'] k'] Hk' Hnw Hw'. apply Hnw. cbn. apply list_elem_of_filter. split; [|done]. cbn. intros ->.
    destruct (asleep_eq _ j' j b k' k (iv_nodup _ _ _ Hi)) as [-> ->]; [cbn; rewrite elem_of_app, elem_of_cons; apply elem_of_app in Hk'; tauto|cbn; rewrite elem_of_app, elem_of_cons; tauto|].
    pose proof (iv_nodup _ _ _ Hi) as Hn. cbn in Hn. rewrite !fmap_app, !fmap_cons in Hn. cbn in Hn. rewrite <- Permutation_middle in Hn.
    apply NoDup_cons in Hn as [Hn _]. apply Hn. rewrite <- !fmap_app. apply list_elem_of_fmap. exists (j, b). split; [done|].
    apply list_elem_of_fmap. by exists (j, b, k).
Qed.

Lemma inv_calls V c n b x : inv V c n -> ~ asleep_on c b -> dbufs (c_ide c) !! b = Some x -> acceptable (havedisk1 (c_ide c)) x ->
  exists s' k, calls_to b (c_ide c) s' k.
Proof.
  intros Hi Hb Hx Ha.
  assert (Hbp : b ∉ (drop n (c_calls c)).*1) by (intros Hp; apply Hb; by apply (pend_asleep _ _ _ _ Hi)).
  destruct (iderw_spec (c_ide c) b x _ (iv_lock _ _ _ Hi) (iv_linked _ _ _ Hi) (pend_nodup _ _ _ Hi) Hbp Hx Ha (iv_work _ _ _ Hi))
    as (n0 & bs' & q' & d' & _ & _ & _ & _ & _ & Hr).
  exists (IdeState bs' q' (havedisk1 (c_ide c)) false (woken (c_ide c)) d'), (resume b). intros w. exists n0.
  intros m Hm. destruct (Hr m w Hm) as (k & E & K). by exists k.
Qed.

Lemma inv_serves V c n : inv V c n -> c_asleep c <> [] -> exists c', served c c'.
Proof.
  intros Hi Hne. destruct c as [s calls asl rets]. cbn in Hne.
  destruct (woken s) as [|b wk] eqn:Ew.
  - destruct asl as [|[[j b] k] asl]; [done|]. destruct (iv_sleep _ _ _ Hi j b k ltac:(by left)) as [_ (x & Hx & R)]. cbn in *.
    assert (Hj : (n <= j)%nat).
    { destruct (decide (j < n)%nat) as [Hlt|]; [|lia]. destruct (R Hlt) as [Hw _]. rewrite Ew in Hw. by apply elem_of_nil in Hw. }
    assert (Hd : drop n calls !! (j - n)%nat = Some (b, x)) by (rewrite lookup_drop; by replace (n + (j - n))%nat with j by lia).
    destruct (drop n calls) as [|[b1 x1] P] eqn:EP; [done|]. pose proof (iv_work _ _ _ Hi) as Hw. cbn in Hw. rewrite EP in Hw. destruct Hw as (y & _ & _ & Hy).
    assert (Hwk : working (view (dev s)) = true) by (unfold working; rewrite Hy; unfold command; by destruct (has _ _)).
    destruct (ata_works (dev s) Hwk) as [d' Hd']. destruct (intr_inv _ _ _ _ _ _ _ _ _ _ Hi EP Hd') as (s' & Hs' & _).
    eexists. by eapply serve_intr.
  - assert (Hb : b ∈ woken s) by (rewrite Ew; by left). destruct (iv_woken _ _ _ Hi b Hb) as (j & k & Hk & _). cbn in Hk.
    apply list_elem_of_split in Hk as (asl1 & asl2 & ->). destruct (run_inv _ _ _ _ _ _ _ _ _ _ Hi Hb) as (R & y & Hy & _).
    eexists. by eapply (serve_run s calls asl1 j b k asl2 rets _ y Hb R).
Qed.

(** C17. No call waits for ever: in every state that can come about (writes only on controllers
    that take the data right behind the command), a request for a buffer not in use is taken
    up without a panic; as long as a process sleeps in the driver, the controller is about to
    end a command or a woken process can run; each of these steps leaves less to do; and a
    process that is killed in its sleep goes back to sleep, which changes nothing. *)
Theorem ide_progress V s0 c :
  at_rest V s0 -> ireach (Config s0 [] [] []) c ->
  (forall b x, ~ asleep_on c b -> dbufs (c_ide c) !! b = Some x -> acceptable (havedisk1 (c_ide c)) x ->
     exists s' k, calls_to b (c_ide c) s' k) /\
  (c_asleep c <> [] -> exists c', served c c') /\
  (forall c', served c c' -> (todo c' < todo c)%nat) /\
  (forall j b k w, (j, b, k) ∈ c_asleep c -> b ∉ woken (c_ide c) ->
     exists k1, k (S w) (c_ide c) = Switch (c_ide c) k1 /\ forall s2, k1 s2 = k w s2).
Proof.
  intros Hr Hc. destruct (reach_inv V s0 c Hr Hc) as [n Hi]. split_and!.
  - intros b x. by apply (inv_calls V c n).
  - by apply (inv_serves V c n).
  - intros c'. by apply (served_less V c c' n).
  - intros j b k w Hk Hb. destruct c as [s calls asl rets]. destruct (kill_sleeps _ _ _ _ _ _ _ _ _ w Hi Hk Hb) as (k1 & E & K).
    exists k1. split; [done|]. intros s2. rewrite K. symmetry. apply (iv_sleep _ _ _ Hi j b k Hk).
Qed.

(** C39. A read error goes unnoticed: when the controller reports that the sector cannot be
    read, the interrupt handler leaves the buffer's old bytes in place, marks it valid and
    wakes the process as if it had been read. *)
Theorem ide_read_error s b x v :
  idelock s = false -> idequeue s = Some b -> dbufs s !! b = Some x -> d_qnext x = None -> has (d_flags x) B_DIRTY = false ->
  doing v = Reading (d_dev x) (d_sector x) -> damaged v (d_dev x) (d_sector x) = true -> view (dev s) = settle v ->
  exists n0 d', forall n, (n0 <= n)%nat -> ideintr n s = Ok tt (IdeState (<[b := ds_flags (done_flags (d_flags x)) x]> (dbufs s)) None
    (havedisk1 s) false (b :: woken s) d').
Proof.
  intros Hk Hq Hx Hn Hf Hd Hg Hv. unfold settle in Hv. rewrite Hd, Hg in Hv.
  destruct (idewait_spec true (dev s)) as (n0 & d1 & E1 & W); [unfold no_want; by rewrite Hv|].
  rewrite Hv in E1. exists n0, d1. intros n Hle.
  unfold ideintr, bind at 1, ide_acquire, bind at 1, gets at 1. cbn [obind]. rewrite Hk. unfold modify at 1. cbn [obind].
  unfold bind at 1, gets at 1. cbn [obind idequeue set_idelock]. rewrite Hq.
  rewrite (bind_Ok _ _ _ _ _ (dget_Ok (set_idelock true s) b x Hx)). unfold bind at 1, modify at 1. cbn [obind]. rewrite Hf, Hn. unfold when at 1. cbn [negb].
  assert (E : (let! r := idewait true n in when (0 <=? r) (let! bs := in_sl 0x1f0 in dupd b (ds_data bs))) (set_idequeue None (set_idelock true s)) =
    Ok tt (set_dev d1 (set_idequeue None (set_idelock true s)))).
  { rewrite (bind_Ok _ _ _ _ _ (W n (set_idequeue None (set_idelock true s)) Hle eq_refl)). unfold failed. by rewrite E1. }
  rewrite (bind_Ok _ _ _ _ _ E). unfold bind, dupd, modify, gets. cbn -[lookup insert alter done_flags].
  rewrite (alter_insert _ (dbufs s) b x Hx). assert (Hlt : (b < length (dbufs s))%nat) by (by eapply lookup_lt_Some).
  rewrite (alter_insert _ _ b (ds_flags (Z.lor (d_flags x) B_VALID) x)) by (by apply list_lookup_insert_eq). by rewrite list_insert_insert_eq.
Qed.

(** ** Data that comes too early *)

(** A write command's data is sent without waiting for the controller.  On a controller that
    does not ask for the data at once, and drops what it has not asked for, the call sleeps,
    the sector keeps its bytes, the controller waits for data that does not come, and no
    process or interrupt of the driver can go on: the caller sleeps for ever. *)
Theorem ide_write_lost V s b x :
  (forall d, idle (view d) -> addressed (view d) -> exists dv l, doing (view (outb 0x1f7 0x30 d)) = Preparing dv l) ->
  (forall d bs dv l, doing (view d) = Preparing dv l -> view (outsl 0x1f0 bs d) = view d) ->
  at_rest V s -> dbufs s !! b = Some x -> has (d_flags x) B_BUSY = true -> has (d_flags x) B_DIRTY = true ->
  d_dev x = 0 \/ d_dev x = 1 /\ havedisk1 s = true -> 0 <= d_sector x < 2 ^ 28 ->
  exists s' k, calls_to b s s' k /\ sectors (view (dev s')) = V /\
    (exists dv l, doing (view (dev s')) = Preparing dv l) /\ forall c', ~ served (Config s' [(b, x)] [(0%nat, b, k)] []) c'.
Proof.
  intros Hslow Hdrop [R1 R2 R3 R4 R5 _] Hx Hbusy Hdirty Hd Hs.
  assert (Hf : Z.land (d_flags x) (Z.lor B_VALID B_DIRTY) <> B_VALID).
  { intros E. unfold has in Hdirty. apply (f_equal (fun z => Z.testbit z 2)) in E. rewrite Z.land_spec in E.
    change (Z.testbit (Z.lor B_VALID B_DIRTY) 2) with true in E. change (Z.testbit B_VALID 2) with false in E. rewrite andb_true_r in E.
    bool_hyps. apply Hdirty. apply Z.bits_inj'. intros i Hi. rewrite Z.land_spec, Z.bits_0. change B_DIRTY with (2 ^ 2).
    rewrite Z.pow2_bits_eqb by lia. destruct (Z.eqb_spec 2 i) as [<-|]; [by rewrite E|by rewrite andb_false_r]. }
  set (bs := <[b := core x]> (dbufs s)). destruct (idestart_setup (core x) b (dev s) ltac:(cbn; tauto) Hs R4) as (n0 & d3 & S3 & _ & I3 & A3 & _ & _ & W).
  destruct (ata_write d3 I3 A3) as (p & _ & Ew). destruct (Hslow d3 I3 A3) as (dv & l & Hp).
  set (d' := outsl 0x1f0 (d_data x) (outb 0x1f7 0x30 d3)). assert (Ed : view d' = view (outb 0x1f7 0x30 d3)) by (by apply (Hdrop _ _ dv l)).
  exists (IdeState bs (Some b) (havedisk1 s) false [] d'), (resume b). split_and!.
  - intros w. exists n0. intros n Hn. unfold iderw. rewrite (bind_Ok _ _ _ _ _ (dget_Ok _ _ _ Hx)). rewrite Hbusy, (proj2 (Z.eqb_neq _ _) Hf). cbn [negb].
    unfold bind at 1, gets at 1. cbn [obind].
    replace (negb (d_dev x =? 0) && negb (havedisk1 s)) with false by (destruct Hd as [-> | [-> ->]]; done).
    unfold bind at 1, ide_acquire, bind at 1, gets at 1. cbn [obind]. rewrite R1. unfold modify at 1. cbn [obind].
    unfold bind at 1, dupd at 1, modify at 1. cbn [obind dbufs set_idelock]. rewrite (alter_insert _ _ _ _ Hx). fold (core x). fold bs.
    unfold bind at 1, append, bind at 1, gets at 1. cbn [obind idequeue set_dbufs set_idelock]. rewrite R2. unfold modify at 1. cbn [obind].
    unfold bind at 1, gets at 1. cbn [obind idequeue set_idequeue]. rewrite bool_decide_eq_true_2 by done. unfold when.
    assert (Hb : bs !! b = Some (core x)) by (apply list_lookup_insert_eq; by eapply lookup_lt_Some).
    erewrite bind_Ok; [|rewrite (W n); [cbn [d_flags core ds_qnext]; rewrite Hdirty; reflexivity|done|done|done]].
    destruct (wait_sleeps (IdeState bs (Some b) (havedisk1 s) true [] d') b (core x) w Hb Hf eq_refl) as (k & E & K).
    exists k. split; [|done]. transitivity (Switch (set_idelock false (IdeState bs (Some b) (havedisk1 s) true [] d')) k); [|done].
    rewrite <- E. f_equal. destruct s. cbn in *. by subst.
  - cbn. rewrite Ed, Ew. cbn in *. congruence.
  - exists dv, l. cbn. by rewrite Ed.
  - intros c' Hc. inversion Hc as [? ? ? ? ? ? Hwk|? ? ? ? ? ? ? ? ? ? Hin]; subst; cbn in *.
    + unfold working in Hwk. by rewrite Ed, Hp in Hwk.
    + by apply elem_of_nil in Hin.
Qed.
End IdeProps.

(** ** Witnesses *)

(** Two buffers, one to be read and one to be written, in front of a disk whose sectors hold
    their own numbers. *)
Definition ix_disk (dv l : Z) : list byte := replicate 512 (z2b l).
Definition ix_bufs : list dbuf :=
  [DBuf B_BUSY 0 7 None (replicate 512 x00); DBuf (Z.lor B_BUSY B_DIRTY) 1 7 None (replicate 512 x41)].
Definition ix_ide quick (bad : bool) (p : phase) (q : option nat) : ide (pio quick) :=
  IdeState ix_bufs q true false [] (Pio (AtaView ix_disk (fun _ _ => bad) (fun _ => 0) p) 0).

Definition ix_read : dbuf := DBuf B_BUSY 0 7 None (replicate 512 x00).
Definition ix_write : dbuf := DBuf (Z.lor B_BUSY B_DIRTY) 1 7 None (replicate 512 x41).

Section Examples.
Context (quick : bool).

Definition ix_start : config := Config (ix_ide quick false Ready None) [] [] [].

Lemma ix_rest : at_rest ix_disk (ix_ide quick false Ready None).
Proof. split; try reflexivity. by left. Qed.

(** A call, and the run to its return. *)
Lemma ix_reach b x : ix_bufs !! b = Some x -> acceptable (D := pio quick) true x ->
  exists c s k, ireach ix_start c /\ c = Config s [(b, x)] [(0%nat, b, k)] [].
Proof.
  intros Hx Ha. destruct (reach_inv _ _ _ ix_rest (ireach_start _)) as [n Hi].
  destruct (inv_calls _ _ _ b x Hi) as (s' & k & Hc); [|exact Hx|exact Ha|].
  { intros (j & k & Hk). by apply elem_of_nil in Hk. }
  eexists _, s', k. split; [|reflexivity]. eapply ireach_step; [apply ireach_start|].
  apply (step_call (ix_ide quick false Ready None) [] [] []); [|exact Hx|exact Ha|exact Hc].
  intros (j & k' & Hk). by apply elem_of_nil in Hk.
Qed.

Lemma ix_run s b x k n : inv (D := pio quick) ix_disk (Config s [(b, x)] [(0%nat, b, k)] []) (S n) ->
  exists s' y, istep (Config s [(b, x)] [(0%nat, b, k)] []) (Config s' [(b, x)] [] [(0%nat, y)]) /\ idequeue s' = None.
Proof.
  intros Hi. destruct (iv_sleep _ _ _ Hi 0%nat b k ltac:(by left)) as [_ (x' & _ & R)]. destruct (R ltac:(lia)) as [Hw _].
  destruct (run_inv _ _ _ [] _ _ _ [] _ _ Hi Hw) as (E & y & Hy & I2). eexists _, y. split.
  - by apply step_serve, (serve_run s _ [] 0 b k [] [] _ y).
  - pose proof (iv_linked _ _ _ I2) as Hl. cbn [c_calls drop] in Hl. by rewrite drop_nil in Hl.
Qed.

Lemma ix_returns b x : ix_bufs !! b = Some x -> acceptable (D := pio quick) true x ->
  exists c y, ireach ix_start c /\ c_ret c = [(0%nat, y)] /\ c_calls c = [(b, x)] /\ idequeue (c_ide c) = None.
Proof.
  intros Hx Ha. destruct (ix_reach b x Hx Ha) as (c & s & k & Hr & ->). destruct (reach_inv _ _ _ ix_rest Hr) as [[|n] Hi].
  - destruct (iv_work _ _ _ Hi) as (y & _ & _ & Hy).
    assert (Hwk : working (view (dev s)) = true) by (unfold working; cbn [c_ide] in Hy; rewrite Hy; unfold command; by destruct (has _ _)).
    destruct (ata_works (dev s) Hwk) as [d' Hd']. destruct (intr_inv _ _ _ _ _ _ _ _ _ _ Hi eq_refl Hd') as (s1 & R1 & I1).
    destruct (ix_run _ _ _ _ _ I1) as (s2 & z & H2 & Hq). exists (Config s2 [(b, x)] [] [(0%nat, z)]), z. split; [|done].
    eapply ireach_step; [|exact H2]. eapply ireach_step; [exact Hr|]. apply step_serve. by eapply serve_intr.
  - destruct (ix_run _ _ _ _ _ Hi) as (s2 & z & H2 & Hq). exists (Config s2 [(b, x)] [] [(0%nat, z)]), z. split; [|done].
    by eapply ireach_step.
Qed.

Lemma ix_read_ok : acceptable (D := pio quick) true ix_read.
Proof. split; [reflexivity|discriminate|by left|cbn; lia|reflexivity|discriminate]. Qed.
End Examples.

Lemma ix_write_ok : acceptable (D := pio true) true ix_write.
Proof. split; [reflexivity|discriminate|by right|cbn; lia|reflexivity|intros _; apply pio_prompt]. Qed.

(** A read from the controller that is slow to ask for data, and a write to the other one. *)
Lemma ide_sequential_witness :
  (exists c x, ireach (ix_start false) c /\ (0%nat, x) ∈ c_ret c /\ d_data x = replicate 512 x07) /\
  exists c, ireach (ix_start true) c /\ sectors (view (dev (c_ide c))) 1 7 = replicate 512 x41.
Proof.
  split.
  - destruct (ix_returns false 0%nat ix_read eq_refl (ix_read_ok false)) as (c & x & Hr & Hx & Hc & _). exists c, x. split; [exact Hr|].
    destruct (ide_sequential ix_disk (ix_ide false false Ready None) c (ix_rest false) Hr) as [Hret _].
    assert (Hin : (0%nat, x) ∈ c_ret c) by (rewrite Hx; by left). split; [exact Hin|].
    destruct (Hret 0%nat x Hin) as (b & y & Hy & E). rewrite Hc in Hy. injection Hy as <- <-. apply (f_equal d_data) in E. exact E.
  - destruct (ix_returns true 1%nat ix_write eq_refl ix_write_ok) as (c & x & Hr & Hx & Hc & Hq). exists c. split; [exact Hr|].
    destruct (ide_sequential ix_disk (ix_ide true false Ready None) c (ix_rest true) Hr) as [_ Hs].
    rewrite (Hs Hq), Hc. reflexivity.
Defined.

Lemma ide_progress_witness : exists c c', ireach (ix_start true) c /\ served c c' /\ (todo c' < todo c)%nat.
Proof.
  destruct (ix_reach true 1%nat ix_write eq_refl ix_write_ok) as (c & s & k & Hr & Ec).
  destruct (ide_progress ix_disk (ix_ide true false Ready None) c (ix_rest true) Hr) as (_ & Hs & Hl & _).
  destruct Hs as [c' Hc']; [by rewrite Ec|]. exists c, c'. split; [exact Hr|]. split; [exact Hc'|]. by apply Hl.
Defined.

(** The slow controller never writes the sector. *)
Example ix_write_lost : exists s' k, calls_to 1 (ix_ide false false Ready None) s' k /\ sectors (view (dev s')) = ix_disk /\
  forall c', ~ served (Config s' [(1%nat, ix_write)] [(0%nat, 1%nat, k)] []) c'.
Proof.
  destruct (ide_write_lost (D := pio false) ix_disk (ix_ide false false Ready None) 1 ix_write) as (s' & k & Hc & Hs & _ & Hn);
    [|intros d bs dv l E; cbn in E; cbn; by rewrite E|apply ix_rest|reflexivity|reflexivity|reflexivity|by right|cbn; lia|by exists s', k].
  intros d _ _. by eexists _, _.
Qed.

Lemma ide_read_error_witness : exists n s', ideintr n (ix_ide true true Failed (Some 0%nat)) = Ok tt s' /\
  dbufs s' !! 0%nat = Some (DBuf (Z.lor B_BUSY B_VALID) 0 7 None (replicate 512 x00)).
Proof.
  destruct (ide_read_error (ix_ide true true Failed (Some 0%nat)) 0 (DBuf B_BUSY 0 7 None (replicate 512 x00))
    (AtaView ix_disk (fun _ _ => true) (fun _ => 0) (Reading 0 7))) as (n0 & d' & E); try reflexivity.
  eexists n0, _. split; [by apply E|]. reflexivity.
Defined.
