(* ===== verification/Boot.v ===== *)
(** * The boot loader (bootmain.c)

    The second half of the boot sector loads the kernel's ELF image from the disk, sector by
    sector, and jumps to it.  The theorem says which images it loads correctly. *)

From S2P Require Import Prelude Layout Mem Ata.

Open Scope Z_scope.

Definition SECTSIZE : Z := 512.
Definition ELF_MAGIC : Z := 0x464C457F.

Section Boot.
Context {D : Type} `{AtaPorts D}.

(** Physical memory and the disk controller. *)
Record boot : Type := BootState { b_mem : mem; b_dev : D }.

Definition B (A : Type) : Type := M boot A.

Definition bin (p : Z) : B Z := fun s => let (x, d) := inb p (b_dev s) in Ok x (BootState (b_mem s) d).
Definition bout (p x : Z) : B unit := modify (fun s => BootState (b_mem s) (outb p (x mod 256) (b_dev s))).

(** The bytes [bs] stored from address [a] on. *)
Fixpoint put_bytes (m : mem) (a : Z) (bs : list byte) : mem :=
  match bs with
  | [] => m
  | b :: bs => put_bytes (upd m a b) (u32 (a + 1)) bs
  end.

Definition binsl (p dst : Z) : B unit := fun s =>
  let (bs, d) := insl p (b_dev s) in Ok tt (BootState (put_bytes (b_mem s) dst bs) d).

(** [while((inb(0x1F7) & 0xC0) != 0x40);] *)
Fixpoint waitdisk (n : nat) : B unit :=
  match n with
  | O => nofuel
  | S n =>
      let! r := bin 0x1F7 in
      if Z.land r 0xC0 =? 0x40 then ret tt else waitdisk n
  end.

Definition readsect (dst offset : Z) (n : nat) : B unit :=
  waitdisk n ;;;
  bout 0x1F2 1 ;;;
  bout 0x1F3 offset ;;;
  bout 0x1F4 (Z.shiftr offset 8) ;;;
  bout 0x1F5 (Z.shiftr offset 16) ;;;
  bout 0x1F6 (Z.lor (Z.shiftr offset 24) 0xE0) ;;;
  bout 0x1F7 0x20 ;;;
  waitdisk n ;;;
  binsl 0x1F0 dst.

(** [for(; pa < epa; pa += SECTSIZE, offset++)] *)
Fixpoint readseg_loop (pa epa offset : Z) (n fuel : nat) : B unit :=
  if pa <? epa then
    match fuel with
    | O => nofuel
    | S fuel => readsect pa offset n ;;; readseg_loop (u32 (pa + SECTSIZE)) epa (u32 (offset + 1)) n fuel
    end
  else ret tt.

Definition readseg (pa count offset : Z) (n : nat) : B unit :=
  let epa := u32 (pa + count) in
  let pa := u32 (pa - offset mod SECTSIZE) in
  let offset := u32 (offset / SECTSIZE + 1) in
  readseg_loop pa epa offset n (Z.to_nat (count / SECTSIZE + 2)).

(** The fields of the headers that the loader reads. *)
Definition rd16 (m : mem) (a : Z) : Z := b2z (m a) + 2 ^ 8 * b2z (m (a + 1)).
Definition elf_magic (m : mem) (elf : Z) : Z := rd32 m elf.
Definition elf_entry (m : mem) (elf : Z) : Z := rd32 m (elf + 24).
Definition elf_phoff (m : mem) (elf : Z) : Z := rd32 m (elf + 28).
Definition elf_phnum (m : mem) (elf : Z) : Z := rd16 m (elf + 44).
Definition ph_size : Z := 32.
Definition ph_off (m : mem) (ph : Z) : Z := rd32 m (ph + 4).
Definition ph_paddr (m : mem) (ph : Z) : Z := rd32 m (ph + 12).
Definition ph_filesz (m : mem) (ph : Z) : Z := rd32 m (ph + 16).
Definition ph_memsz (m : mem) (ph : Z) : Z := rd32 m (ph + 20).

(** [for(; ph < eph; ph++)] *)
Fixpoint load_loop (ph eph : Z) (n fuel : nat) : B unit :=
  if ph <? eph then
    match fuel with
    | O => nofuel
    | S fuel =>
        let! m := gets b_mem in
        let pa := ph_paddr m ph in
        readseg pa (ph_filesz m ph) (ph_off m ph) n ;;;
        let! m := gets b_mem in
        when (ph_filesz m ph <? ph_memsz m ph)
          (modify (fun s => BootState (stosb (b_mem s) (u32 (pa + ph_filesz m ph)) 0 (Z.to_nat (ph_memsz m ph - ph_filesz m ph))) (b_dev s))) ;;;
        load_loop (u32 (ph + ph_size)) eph n fuel
    end
  else ret tt.

(** The entry point that is called at the end; [None] when there is no ELF image. *)
Definition bootmain (n : nat) : B (option Z) :=
  let elf := 0x10000 in
  readseg elf 4096 0 n ;;;
  let! m := gets b_mem in
  if negb (elf_magic m elf =? ELF_MAGIC) then ret None
  else
    let ph := u32 (elf + elf_phoff m elf) in
    let eph := u32 (ph + ph_size * elf_phnum m elf) in
    load_loop ph eph n (Z.to_nat (elf_phnum m elf)) ;;;
    let! m := gets b_mem in
    ret (Some (elf_entry m elf)).

End Boot.
Arguments boot : clear implicits.

(** ** Properties *)

Section BootProps.
Context {D : Type} `{Ata D}.

Implicit Types (s : boot D) (d : D) (m : mem).

(** With enough polling, [f] returns [a] in state [s']. *)
Definition runs {A} (f : nat -> M (boot D) A) s (a : A) s' : Prop := exists n0, forall n, (n0 <= n)%nat -> f n s = Ok a s'.

Lemma runs_bind {A B} (f : nat -> M (boot D) A) (g : A -> nat -> M (boot D) B) s a s' b s'' :
  runs f s a s' -> runs (g a) s' b s'' -> runs (fun n => let! x := f n in g x n) s b s''.
Proof.
  intros [n1 H1] [n2 H2]. exists (n1 + n2)%nat. intros n Hn. rewrite (bind_Ok _ _ _ _ _ (H1 n ltac:(lia))). apply H2. lia.
Qed.

Lemma runs_pure {A B} (f : M (boot D) A) (g : A -> nat -> M (boot D) B) s a s' b s'' :
  f s = Ok a s' -> runs (g a) s' b s'' -> runs (fun n => let! x := f in g x n) s b s''.
Proof. intros E [n2 H2]. exists n2. intros n Hn. rewrite (bind_Ok _ _ _ _ _ E). by apply H2. Qed.

(** ** One sector *)

Lemma waitdisk_polls m d st d' : polls d st d' -> runs waitdisk (BootState m d) tt (BootState m d').
Proof.
  induction 1 as [d st d' E Hr|d st d1 st' d' E Hr _ [n0 IH]].
  - exists 1%nat. intros [|n] Hn; [lia|]. cbn [waitdisk]. unfold bind, bin. cbn. rewrite E. cbn. unfold ready in Hr. by rewrite Hr.
  - exists (S n0). intros [|n] Hn; [lia|]. cbn [waitdisk]. unfold bind at 1, bin. cbn [b_dev b_mem]. rewrite E. cbn [obind].
    unfold ready in Hr. rewrite Hr. apply IH. lia.
Qed.

Lemma waitdisk_spec m d : no_want (view d) -> exists d', view d' = settle (view d) /\
  runs waitdisk (BootState m d) tt (BootState m d').
Proof. intros Hw. destruct (ata_poll d Hw) as (st & d' & Hp & Hv & _). exists d'. split; [done|]. by apply (waitdisk_polls _ _ st). Qed.

(** The disk: what is on it, and that the controller waits for a command. *)
Record disk_ok (V : Z -> list byte) d : Prop := {
  dk_idle : idle (view d);
  dk_good : forall dv l, damaged (view d) dv l = false;
  dk_data : forall l, sectors (view d) 0 l = V l;
  dk_len : forall l, length (V l) = 512%nat
}.

Lemma put_bytes_spec bs : forall m a x, 0 <= a -> a + Z.of_nat (length bs) <= 2 ^ 32 ->
  put_bytes m a bs x = if (a <=? x) && (x <? a + Z.of_nat (length bs)) then nth (Z.to_nat (x - a)) bs x00 else m x.
Proof.
  induction bs as [|b bs IH]; intros m a x Ha Hl; cbn [put_bytes length] in *.
  - destruct (Z.leb_spec a x), (Z.ltb_spec x (a + Z.of_nat 0)); try done; lia.
  - destruct bs as [|b2 bs].
    + cbn [put_bytes length]. unfold upd. destruct (Z.eqb_spec x a) as [->|Hne].
      * rewrite (proj2 (Z.leb_le _ _)), (proj2 (Z.ltb_lt _ _)) by lia. by rewrite Z.sub_diag.
      * destruct (Z.leb_spec a x), (Z.ltb_spec x (a + Z.of_nat 1)); try done; lia.
    + cbn [length] in Hl. rewrite u32_small, IH by (cbn [length]; lia). unfold upd. cbn [length].
      destruct (Z.leb_spec (a + 1) x), (Z.ltb_spec x (a + 1 + Z.of_nat (S (length bs)))), (Z.eqb_spec x a), (Z.leb_spec a x),
        (Z.ltb_spec x (a + Z.of_nat (S (S (length bs))))); try done; try lia; cbn [andb].
      * replace (Z.to_nat (x - a)) with (S (Z.to_nat (x - (a + 1)))) by lia. done.
      * subst x. by rewrite Z.sub_diag.
Qed.

Lemma drive_reg offset : 0 <= offset < 2 ^ 28 ->
  Z.lor (Z.shiftr offset 24) 0xE0 mod 256 = Z.lor (Z.lor 0xE0 (Z.shiftl 0 4)) (offset / 2 ^ 24 mod 2 ^ 4).
Proof.
  intros Ho. rewrite Z.shiftr_div_pow2 by lia. assert (Ht : 0 <= offset / 2 ^ 24 < 16) by (split; [apply Z.div_pos; lia|apply Z.div_lt_upper_bound; lia]).
  rewrite (Z.mod_small (offset / 2 ^ 24)) by lia. rewrite Z.lor_comm. apply Z.mod_small.
  apply (drive_byte 0 (offset / 2 ^ 24)); lia.
Qed.

Lemma readsect_spec V m d dst offset : disk_ok V d -> 0 <= offset < 2 ^ 28 ->
  exists d', disk_ok V d' /\ runs (readsect dst offset) (BootState m d) tt (BootState (put_bytes m dst (V offset)) d').
Proof.
  intros [Hi Hg Hv Hl] Ho. destruct (waitdisk_spec m d) as (d1 & E1 & R1).
  { unfold no_want. by destruct Hi as [-> | ->]. }
  assert (E1' : view d1 = view d) by (rewrite E1; unfold settle; by destruct Hi as [-> | ->]). rewrite <- E1' in Hi, Hg, Hv.
  pose proof (setup_names 0 offset d1 Hi ltac:(lia) Ho) as N.
  match type of N with names _ _ _ (view ?x) => set (d2 := x) in * end.
  destruct N as (S2 & G2 & P2 & A2 & V2 & B2). assert (I2 : idle (view d2)) by (unfold idle; by rewrite P2).
  pose proof (ata_read d2 I2 A2) as E3. rewrite V2, B2 in E3. set (d3 := outb 0x1f7 0x20 d2) in *.
  destruct (waitdisk_spec m d3) as (d4 & E4 & R4); [unfold no_want; by rewrite E3|].
  assert (E4' : view d4 = with_phase (HasData (V offset)) (view d2)).
  { rewrite E4, E3. unfold settle. cbn [with_phase doing damaged sectors]. by rewrite G2, Hg, S2, Hv. }
  destruct (ata_in d4 (V offset)) as (d5 & Ein & E5); [by rewrite E4'|].
  exists d5. split.
  - split; [left; by rewrite E5|intros; rewrite E5, E4'; cbn; by rewrite G2|intros; rewrite E5, E4'; cbn; by rewrite S2|done].
  - eapply runs_bind; [exact R1|]. do 6 (eapply runs_pure; [reflexivity|]).
    match goal with |- runs _ ?s _ _ => assert (Es : s = BootState m d3) end.
    { cbn [b_mem b_dev]. unfold d3, d2, setup. rewrite (drive_reg offset Ho), !Z.shiftr_div_pow2 by lia. done. }
    rewrite Es. eapply runs_bind; [exact R4|]. exists 0%nat. intros n _. unfold binsl. cbn [b_dev b_mem]. by rewrite Ein.
Qed.

(** ** A segment *)

(** Byte [i] of the kernel's file, which begins in sector 1. *)
Definition kbyte (V : Z -> list byte) (i : Z) : byte := nth (Z.to_nat (i mod 512)) (V (1 + i / 512)) x00.

(** Memory with the file's bytes between [lo] and [hi], such that address [base] has byte 0. *)
Definition overlay (V : Z -> list byte) m (lo hi base : Z) m' : Prop :=
  forall x, m' x = if (lo <=? x) && (x <? hi) then kbyte V (x - base) else m x.

Lemma readseg_loop_spec V k : forall m d pa epa off fuel, disk_ok V d -> 0 <= pa -> pa + 512 * Z.of_nat k < 2 ^ 32 ->
  0 <= off -> off + Z.of_nat k < 2 ^ 28 -> (k <= fuel)%nat -> epa <= pa + 512 * Z.of_nat k < epa + 512 ->
  exists m' d', runs (fun n => readseg_loop pa epa (1 + off) n fuel) (BootState m d) tt (BootState m' d') /\ disk_ok V d' /\
    overlay V m pa (pa + 512 * Z.of_nat k) (pa - 512 * off) m'.
Proof.
  induction k as [|k IH]; intros m d pa epa off fuel Hd Hpa Hb Ho Hs Hf He.
  - exists m, d. split; [|split; [done|]].
    + exists 0%nat. intros n _. destruct fuel; cbn [readseg_loop]; by rewrite (proj2 (Z.ltb_ge _ _)) by lia.
    + intros x. destruct (Z.leb_spec pa x), (Z.ltb_spec x (pa + 512 * Z.of_nat 0)); try done; lia.
  - destruct fuel as [|fuel]; [lia|]. destruct (readsect_spec V m d pa (1 + off) Hd ltac:(lia)) as (d1 & Hd1 & R1).
    destruct (IH (put_bytes m pa (V (1 + off))) d1 (pa + 512) epa (off + 1) fuel Hd1) as (m' & d' & R2 & Hd' & O2); try lia.
    exists m', d'. split; [|split; [done|]].
    + destruct (decide (pa < epa)) as [Hlt|]; [|lia]. cbn [readseg_loop]. rewrite (proj2 (Z.ltb_lt _ _)) by lia.
      unfold SECTSIZE. rewrite !u32_small by lia. replace (1 + off + 1) with (1 + (off + 1)) by lia. eapply (runs_bind (readsect pa (1 + off)) (fun _ n => readseg_loop (pa + 512) epa (1 + (off + 1)) n fuel)); [exact R1|exact R2].
    + intros x. rewrite O2, put_bytes_spec by (rewrite ?(dk_len _ _ Hd); lia). rewrite (dk_len _ _ Hd). change (Z.of_nat 512) with 512.
      replace (x - (pa + 512 - 512 * (off + 1))) with (x - (pa - 512 * off)) by lia.
      destruct (Z.leb_spec (pa + 512) x), (Z.ltb_spec x (pa + 512 + 512 * Z.of_nat k)), (Z.leb_spec pa x), (Z.ltb_spec x (pa + 512)),
        (Z.ltb_spec x (pa + 512 * Z.of_nat (S k))); try done; try lia; cbn [andb].
      unfold kbyte. replace (x - (pa - 512 * off)) with (x - pa + off * 512) by lia. rewrite Z.mod_add, Z.div_add by lia.
      by rewrite Z.mod_small, (Z.div_small (x - pa)) by lia.
Qed.

(** How far the sectors of a segment reach. *)
Definition seg_start (pa off : Z) : Z := pa - off mod 512.
Definition seg_end (pa count off : Z) : Z := seg_start pa off + 512 * ((count + off mod 512 + 511) / 512).

Lemma readseg_spec V m d pa count off : disk_ok V d -> 0 <= seg_start pa off -> 0 <= count -> 0 <= off < 2 ^ 32 ->
  seg_end pa count off < 2 ^ 32 ->
  exists m' d', runs (readseg pa count off) (BootState m d) tt (BootState m' d') /\ disk_ok V d' /\
    overlay V m (seg_start pa off) (seg_end pa count off) (pa - off) m'.
Proof.
  intros Hd Hs Hc Ho He. unfold seg_end in *. unfold seg_start in *. pose proof (Z.mod_pos_bound off 512 ltac:(lia)) as Hm.
  set (k := (count + off mod 512 + 511) / 512) in *.
  assert (Hk : 512 * k <= count + off mod 512 + 511 < 512 * k + 512) by (unfold k; Z.div_mod_to_equations; lia).
  assert (Hk0 : 0 <= k) by (unfold k; apply Z.div_pos; lia). pose proof (Z.div_mod off 512 ltac:(lia)) as Hdm.
  assert (Hdo : 0 <= off / 512 < 2 ^ 23) by (split; [apply Z.div_pos; lia|apply Z.div_lt_upper_bound; lia]).
  destruct (readseg_loop_spec V (Z.to_nat k) m d (pa - off mod 512) (pa + count) (off / 512) (Z.to_nat (count / 512 + 2)) Hd) as (m' & d' & R & Hd' & O);
    try rewrite Z2Nat.id by done; try lia.
  { apply Z2Nat.inj_le; [done|pose proof (Z.div_pos count 512); lia|]. unfold k. Z.div_mod_to_equations. lia. }
  exists m', d'. split; [|split; [done|]].
  - unfold readseg, SECTSIZE. rewrite (u32_small (pa + count)), (u32_small (pa - off mod 512)), (u32_small (off / 512 + 1)) by lia.
    by rewrite (Z.add_comm (off / 512) 1).
  - rewrite Z2Nat.id in O by done. intros x. rewrite O. by replace (pa - off mod 512 - 512 * (off / 512)) with (pa - off) by lia.
Qed.

(** ** The image *)

(** The headers as they lie in the scratch page. *)
Definition hdr (V : Z -> list byte) : mem := fun a => kbyte V (a - 0x10000).
Definition phnum (V : Z -> list byte) : Z := elf_phnum (hdr V) 0x10000.
Definition ph_at (V : Z -> list byte) (i : Z) : Z := 0x10000 + elf_phoff (hdr V) 0x10000 + 32 * i.

Definition paddr V i : Z := ph_paddr (hdr V) (ph_at V i).
Definition offset V i : Z := ph_off (hdr V) (ph_at V i).
Definition filesz V i : Z := ph_filesz (hdr V) (ph_at V i).
Definition memsz V i : Z := ph_memsz (hdr V) (ph_at V i).

(** The addresses that loading segment [i] writes to, and those that belong to it. *)
Definition written V i (x : Z) : Prop :=
  seg_start (paddr V i) (offset V i) <= x < Z.max (seg_end (paddr V i) (filesz V i) (offset V i)) (paddr V i + memsz V i).
Definition owned V i (x : Z) : Prop := paddr V i <= x < paddr V i + memsz V i.

(** The images that can be loaded: the program headers are in the first page, and loading a
    segment (with the rest of its first and last sectors) stays in memory, off the page with
    the headers, and off the segments loaded before it. *)
Record loadable V : Prop := {
  lo_magic : elf_magic (hdr V) 0x10000 = ELF_MAGIC;
  lo_head : elf_phoff (hdr V) 0x10000 + 32 * phnum V <= 4096;
  lo_size : forall i, 0 <= i < phnum V -> filesz V i <= memsz V i;
  lo_low : forall i, 0 <= i < phnum V -> 0 <= seg_start (paddr V i) (offset V i);
  lo_high : forall i, 0 <= i < phnum V -> seg_end (paddr V i) (filesz V i) (offset V i) < 2 ^ 32 /\ paddr V i + memsz V i < 2 ^ 32;
  lo_scratch : forall i x, 0 <= i < phnum V -> written V i x -> ~ (0x10000 <= x < 0x11000);
  lo_order : forall i j x, 0 <= i < j -> j < phnum V -> written V j x -> ~ owned V i x
}.

(** Segment [i] is in memory. *)
Definition loaded V m i : Prop := forall x, owned V i x ->
  m x = if x <? paddr V i + filesz V i then kbyte V (offset V i + (x - paddr V i)) else x00.

(** The page with the headers is intact. *)
Definition headed V m : Prop := forall x, 0x10000 <= x < 0x11000 -> m x = hdr V x.

Lemma rd32_headed V m a : headed V m -> 0x10000 <= a <= 0x10FFC -> rd32 m a = rd32 (hdr V) a.
Proof. intros Hh Ha. apply rd32_ext. intros i Hi. apply Hh. lia. Qed.

Lemma rd16_range m a : 0 <= rd16 m a < 2 ^ 16.
Proof. unfold rd16. pose proof (b2z_range (m a)). pose proof (b2z_range (m (a + 1))). lia. Qed.

Section Load.
Variable V : Z -> list byte.
Hypothesis HV : loadable V.

Lemma ph_in i : 0 <= i < phnum V -> 0x10000 <= ph_at V i <= 0x11000 - 32.
Proof. intros Hi. pose proof (lo_head _ HV). unfold ph_at. pose proof (rd32_range (hdr V) (0x10000 + 28)). unfold elf_phoff in *. lia. Qed.

Lemma fields m i : headed V m -> 0 <= i < phnum V ->
  ph_paddr m (ph_at V i) = paddr V i /\ ph_off m (ph_at V i) = offset V i /\ ph_filesz m (ph_at V i) = filesz V i /\ ph_memsz m (ph_at V i) = memsz V i.
Proof. intros Hh Hi. pose proof (ph_in i Hi). split_and!; apply rd32_headed; done || lia. Qed.

(** One turn of the loop. *)
Lemma load_one m d i : disk_ok V d -> headed V m -> 0 <= i < phnum V -> (forall j, 0 <= j < i -> loaded V m j) ->
  exists m' d', runs (fun n => let! m := gets b_mem in
      readseg (ph_paddr m (ph_at V i)) (ph_filesz m (ph_at V i)) (ph_off m (ph_at V i)) n ;;;
      let! m2 := gets b_mem in
      when (ph_filesz m2 (ph_at V i) <? ph_memsz m2 (ph_at V i))
        (modify (fun s => BootState (stosb (b_mem s) (u32 (ph_paddr m (ph_at V i) + ph_filesz m2 (ph_at V i))) 0
           (Z.to_nat (ph_memsz m2 (ph_at V i) - ph_filesz m2 (ph_at V i)))) (b_dev s)))) (BootState m d) tt (BootState m' d') /\
    disk_ok V d' /\ headed V m' /\ forall j, 0 <= j < i + 1 -> loaded V m' j.
Proof.
  intros Hd Hh Hi Hj. destruct (fields m i Hh Hi) as (F1 & F2 & F3 & F4). destruct (lo_high _ HV i Hi) as [G1 G2].
  pose proof (lo_low _ HV i Hi) as G3. pose proof (lo_size _ HV i Hi) as G4.
  pose proof (rd32_range (hdr V) (ph_at V i + 16)) as R3. change (rd32 (hdr V) (ph_at V i + 16)) with (filesz V i) in R3.
  pose proof (rd32_range (hdr V) (ph_at V i + 4)) as R1. change (rd32 (hdr V) (ph_at V i + 4)) with (offset V i) in R1.
  pose proof (rd32_range (hdr V) (ph_at V i + 12)) as R2. change (rd32 (hdr V) (ph_at V i + 12)) with (paddr V i) in R2.
  destruct (readseg_spec V m d (paddr V i) (filesz V i) (offset V i) Hd G3 ltac:(lia) R1 G1) as (m1 & d1 & RS & Hd1 & O1).
  pose proof (Z.mod_pos_bound (offset V i) 512 ltac:(lia)) as Hmod.
  assert (Hend : paddr V i + filesz V i <= seg_end (paddr V i) (filesz V i) (offset V i)).
  { unfold seg_end, seg_start. Z.div_mod_to_equations. lia. }
  assert (Hout : forall x, ~ written V i x -> m1 x = m x).
  { intros x Hx. rewrite O1. unfold written in Hx. destruct (Z.leb_spec (seg_start (paddr V i) (offset V i)) x), (Z.ltb_spec x (seg_end (paddr V i) (filesz V i) (offset V i))); try done. lia. }
  assert (Hh1 : headed V m1).
  { intros x Hx. rewrite Hout by (intros Hw; by apply (lo_scratch _ HV i x Hi)). by apply Hh. }
  destruct (fields m1 i Hh1 Hi) as (K1 & K2 & K3 & K4).
  set (m' := stosb m1 (paddr V i + filesz V i) 0 (Z.to_nat (memsz V i - filesz V i))).
  assert (E' : forall x, m' x = if (paddr V i + filesz V i <=? x) && (x <? paddr V i + memsz V i) then x00 else m1 x).
  { intros x. unfold m'. rewrite stosb_spec, Z2Nat.id by lia. by replace (paddr V i + filesz V i + (memsz V i - filesz V i)) with (paddr V i + memsz V i) by lia. }
  assert (Hsame : forall x, ~ written V i x -> m' x = m x).
  { intros x Hx. rewrite E'. unfold written in Hx. destruct (Z.leb_spec (paddr V i + filesz V i) x), (Z.ltb_spec x (paddr V i + memsz V i)); cbn [andb]; try (by apply Hout).
    destruct Hx. unfold seg_start. lia. }
  exists m', d1. split; [|split; [done|split]].
  - eapply runs_pure; [reflexivity|]. cbn [b_mem]. rewrite F1, F2, F3. eapply runs_bind; [exact RS|]. eapply runs_pure; [reflexivity|].
    cbn [b_mem]. rewrite K3, K4. exists 0%nat. intros n _. unfold when, modify, ret. cbn [b_mem b_dev].
    destruct (Z.ltb_spec (filesz V i) (memsz V i)) as [Hlt|Hge]; [by rewrite u32_small by lia|].
    unfold m'. by replace (memsz V i - filesz V i) with 0 by lia.
  - intros x Hx. rewrite Hsame by (intros Hw; by apply (lo_scratch _ HV i x Hi)). by apply Hh.
  - intros j Hj'. destruct (decide (j = i)) as [->|Hne].
    + intros x [X1 X2]. rewrite E', O1, (proj2 (Z.leb_le (seg_start _ _) x)) by (unfold seg_start; lia). cbn [andb].
      destruct (Z.leb_spec (paddr V i + filesz V i) x), (Z.ltb_spec x (paddr V i + memsz V i)), (Z.ltb_spec x (paddr V i + filesz V i)); try done; try lia; cbn [andb].
      rewrite (proj2 (Z.ltb_lt _ _)) by lia. f_equal. lia.
    + intros x Hx. rewrite Hsame; [by apply Hj; [lia|]|]. intros Hw. by apply (lo_order _ HV j i x ltac:(lia) ltac:(lia)).
Qed.

Lemma load_spec c : forall m d i, disk_ok V d -> headed V m -> 0 <= i -> i + Z.of_nat c = phnum V -> (forall j, 0 <= j < i -> loaded V m j) ->
  exists m' d', runs (fun n => load_loop (ph_at V i) (ph_at V (phnum V)) n c) (BootState m d) tt (BootState m' d') /\
    disk_ok V d' /\ headed V m' /\ forall j, 0 <= j < phnum V -> loaded V m' j.
Proof.
  induction c as [|c IH]; intros m d i Hd Hh Hi Hc Hj.
  - exists m, d. split; [|split; [done|split; [done|]]].
    + exists 0%nat. intros n _. cbn [load_loop]. rewrite (proj2 (Z.ltb_ge _ _)); [done|]. unfold ph_at. lia.
    + intros j Hj'. apply Hj. lia.
  - destruct (load_one m d i Hd Hh ltac:(lia) Hj) as (m1 & d1 & R1 & Hd1 & Hh1 & Hj1).
    destruct (IH m1 d1 (i + 1) Hd1 Hh1) as (m' & d' & R2 & Hd' & Hh' & Hj'); [lia|lia|done|]. exists m', d'. split; [|done].
    destruct R1 as [n1 R1], R2 as [n2 R2]. exists (n1 + n2)%nat. intros n Hn. specialize (R1 n ltac:(lia)). specialize (R2 n ltac:(lia)).
    cbn [load_loop]. rewrite (proj2 (Z.ltb_lt _ _)) by (unfold ph_at; lia). unfold bind at 1, gets at 1 in R1. cbn [obind b_mem] in R1.
    unfold bind at 1, gets at 1. cbn [obind b_mem]. unfold bind at 1 in R1. unfold bind at 1. destruct (readseg _ _ _ _ _) as [[] s1| | |]; cbn [obind] in *; try done.
    unfold bind at 1, gets at 1 in R1. cbn [obind] in R1. unfold bind at 1, gets at 1. cbn [obind]. rewrite (bind_Ok _ _ _ _ _ R1).
    pose proof (ph_in i ltac:(lia)) as Hp. unfold ph_size. rewrite u32_small by lia. replace (ph_at V i + 32) with (ph_at V (i + 1)) by (unfold ph_at; lia). exact R2.
Qed.

End Load.

(** C19. The boot loader: every image that can be loaded is loaded.  From whatever memory, and
    however long the disk is busy between the sectors, [bootmain] returns the entry point of
    the image on the disk, with the file's bytes of each segment at its address and zeros
    behind them. *)
Theorem boot_loads V m d :
  disk_ok V d -> loadable V ->
  exists m' d', runs bootmain (BootState m d) (Some (elf_entry (hdr V) 0x10000)) (BootState m' d') /\
    forall i, 0 <= i < phnum V -> loaded V m' i.
Proof.
  intros Hd HV. destruct (readseg_spec V m d 0x10000 4096 0 Hd) as (m1 & d1 & R1 & Hd1 & O1); try done.
  assert (Hh : headed V m1).
  { intros x Hx. rewrite O1. change (seg_start 0x10000 0) with 0x10000. change (seg_end 0x10000 4096 0) with 0x11000.
    rewrite (proj2 (Z.leb_le _ _)), (proj2 (Z.ltb_lt _ _)) by lia. done. }
  pose proof (rd32_headed V m1 (0x10000 + 28) Hh ltac:(lia)) as E1. change (elf_phoff m1 0x10000 = elf_phoff (hdr V) 0x10000) in E1.
  assert (E2 : elf_phnum m1 0x10000 = phnum V) by (unfold phnum, elf_phnum, rd16; by rewrite !Hh by lia).
  pose proof (rd32_range (hdr V) (0x10000 + 28)) as B1. change (rd32 (hdr V) (0x10000 + 28)) with (elf_phoff (hdr V) 0x10000) in B1.
  pose proof (rd16_range (hdr V) (0x10000 + 44)) as B2. change (rd16 (hdr V) (0x10000 + 44)) with (phnum V) in B2.
  pose proof (lo_head _ HV) as B3.
  destruct (load_spec V HV (Z.to_nat (phnum V)) m1 d1 0 Hd1 Hh) as (m2 & d2 & R2 & Hd2 & Hh2 & Hl); [lia|lia|intros; lia|].
  exists m2, d2. split; [|done]. eapply runs_bind; [exact R1|]. eapply runs_pure; [reflexivity|]. cbn [b_mem].
  pose proof (rd32_headed V m1 0x10000 Hh ltac:(lia)) as E0. change (elf_magic m1 0x10000 = elf_magic (hdr V) 0x10000) in E0.
  rewrite E0, (lo_magic _ HV). cbn [Z.eqb negb]. rewrite E1, E2. unfold ph_size.
  rewrite (u32_small (0x10000 + _)), u32_small by lia. unfold ph_at in R2.
  replace (0x10000 + elf_phoff (hdr V) 0x10000 + 32 * 0) with (0x10000 + elf_phoff (hdr V) 0x10000) in R2 by lia.
  change (ELF_MAGIC =? ELF_MAGIC) with true. cbn [negb].
  eapply runs_bind; [exact R2|]. eapply runs_pure; [reflexivity|]. exists 0%nat. intros n _. cbn [b_mem].
  pose proof (rd32_headed V m2 (0x10000 + 24) Hh2 ltac:(lia)) as E4. unfold elf_entry. by rewrite E4.
Qed.
End BootProps.

(** ** Witness *)

(** An image with a segment of 700 bytes in the file and 5000 in memory, for address 1 MB, and
    an empty one; its data begin at byte 4096 of the file. *)
Definition bx_fields : list (Z * Z) :=
  [(0, ELF_MAGIC); (24, 0x10000C); (28, 52); (44, 2); (52 + 4, 0x1000); (52 + 12, 0x100000); (52 + 16, 700); (52 + 20, 5000)].
Definition bx_byte (i : Z) : byte :=
  match list_find (fun f => f.1 <= i < f.1 + 4) bx_fields with
  | Some (_, (a, x)) => z2b (Z.shiftr x (8 * (i - a)))
  | None => if i <? 4096 then x00 else z2b i
  end.
Definition bx_disk (l : Z) : list byte := (fun j => bx_byte (512 * (l - 1) + j)) <$> seqZ 0 512.
Definition bx_dev : pio true := Pio (AtaView (fun _ => bx_disk) (fun _ _ => false) (fun _ => 0) Ready) 2.

Lemma bx_ok : disk_ok bx_disk bx_dev.
Proof. split; [by left|done|done|]. intros l. unfold bx_disk. by rewrite length_fmap, length_seqZ. Qed.

Lemma bx_values : phnum bx_disk = 2 /\ elf_phoff (hdr bx_disk) 0x10000 = 52 /\
  paddr bx_disk 0 = 0x100000 /\ offset bx_disk 0 = 4096 /\ filesz bx_disk 0 = 700 /\ memsz bx_disk 0 = 5000 /\
  paddr bx_disk 1 = 0 /\ offset bx_disk 1 = 0 /\ filesz bx_disk 1 = 0 /\ memsz bx_disk 1 = 0.
Proof. split_and!; vm_compute; reflexivity. Qed.

Lemma bx_loadable : loadable bx_disk.
Proof.
  destruct bx_values as (E1 & E2 & A0 & B0 & C0 & M0 & A1 & B1 & C1 & M1).
  assert (W : forall i x, 0 <= i < 2 -> written bx_disk i x -> i = 0 /\ 0x100000 <= x < 0x101388).
  { intros i x Hi. assert (i = 0 \/ i = 1) as [-> | ->] by lia; unfold written; [rewrite A0, B0, C0, M0|rewrite A1, B1, C1, M1].
    - change (seg_start 0x100000 4096) with 0x100000. change (Z.max _ _) with 0x101388. lia.
    - change (seg_start 0 0) with 0. change (Z.max _ _) with 0. lia. }
  split; rewrite ?E1.
  - vm_compute. reflexivity.
  - rewrite E2. lia.
  - intros i Hi. assert (i = 0 \/ i = 1) as [-> | ->] by lia; [rewrite C0, M0|rewrite C1, M1]; lia.
  - intros i Hi. assert (i = 0 \/ i = 1) as [-> | ->] by lia; [rewrite A0, B0|rewrite A1, B1]; by apply Z.leb_le.
  - intros i Hi. assert (i = 0 \/ i = 1) as [-> | ->] by lia; [rewrite A0, B0, C0, M0|rewrite A1, B1, C1, M1]; split; by apply Z.ltb_lt.
  - intros i x Hi Hw. destruct (W i x Hi Hw). lia.
  - intros i j x Hi Hj Hw. destruct (W j x ltac:(lia) Hw). lia.
Qed.

Lemma boot_loads_witness : exists n m d, bootmain n (BootState (fun _ => xff) bx_dev) = Ok (Some 0x10000C) (BootState m d) /\
  m 0x100005 = x05 /\ m 0x1012C0 = x00.
Proof.
  destruct (boot_loads bx_disk (fun _ => xff) bx_dev bx_ok bx_loadable) as (m & d & [n0 R] & Hl).
  destruct bx_values as (E1 & _ & A0 & B0 & C0 & M0 & _).
  exists n0, m, d. split; [rewrite (R n0) by lia; vm_compute; reflexivity|].
  specialize (Hl 0 ltac:(rewrite E1; lia)). split; rewrite Hl by (unfold owned; rewrite A0, M0; lia); rewrite A0, B0, C0; vm_compute; reflexivity.
Defined.
