(* ===== verification/Mp.v ===== *)
(** * The configuration of the machine (mp.c, mp.h)

    Before the other processors are started the kernel looks for the tables in which the
    firmware describes them.  Memory is read at kernel addresses.  The theorems say what
    the kernel learns from a table of the firmware, and name the two ways in which it trusts
    the firmware too much. *)

From S2P Require Import Prelude Layout Mem.

Open Scope Z_scope.

Definition MPBOOT : Z := 0x02.
Definition MPPROC : Z := 0x00.
Definition MPBUS : Z := 0x01.
Definition MPIOAPIC : Z := 0x02.
Definition MPIOINTR : Z := 0x03.
Definition MPLINTR : Z := 0x04.

(** Fields of the structures; [uchar] and [ushort] at an address. *)
Definition rd8 (m : mem) (a : Z) : Z := b2z (m a).
Definition rd16 (m : mem) (a : Z) : Z := b2z (m a) + 2 ^ 8 * b2z (m (a + 1)).

Definition mp_size : Z := 16.
Definition mp_physaddr (m : mem) (mp : Z) : Z := rd32 m (mp + 4).
Definition mp_imcrp (m : mem) (mp : Z) : Z := rd8 m (mp + 12).

Definition mpconf_size : Z := 44.
Definition conf_length (m : mem) (conf : Z) : Z := rd16 m (conf + 4).
Definition conf_version (m : mem) (conf : Z) : Z := rd8 m (conf + 6).
Definition conf_lapicaddr (m : mem) (conf : Z) : Z := rd32 m (conf + 36).

Definition mpproc_size : Z := 20.
Definition proc_apicid (m : mem) (p : Z) : Z := rd8 m (p + 1).
Definition proc_flags (m : mem) (p : Z) : Z := rd8 m (p + 3).

Definition mpioapic_size : Z := 8.
Definition ioapic_apicno (m : mem) (p : Z) : Z := rd8 m (p + 1).

(** The globals, the messages printed (with their numbers) and the ports written. *)
Record mpstate : Type := MpState {
  cpu_id : list Z;
  bcpu : nat;
  ismp : bool;
  ncpu : Z;
  ioapicid : Z;
  lapic : Z;
  said : list (string * list Z);
  outs : list (Z * Z)
}.

Definition mpstate0 : mpstate := MpState (replicate (Z.to_nat NCPU) 0) 0 false 0 0 0 [] [].

Definition set_bcpu (v : nat) (s : mpstate) := MpState (cpu_id s) v (ismp s) (ncpu s) (ioapicid s) (lapic s) (said s) (outs s).
Definition set_ismp (v : bool) (s : mpstate) := MpState (cpu_id s) (bcpu s) v (ncpu s) (ioapicid s) (lapic s) (said s) (outs s).
Definition set_ncpu (v : Z) (s : mpstate) := MpState (cpu_id s) (bcpu s) (ismp s) v (ioapicid s) (lapic s) (said s) (outs s).
Definition set_ioapicid (v : Z) (s : mpstate) := MpState (cpu_id s) (bcpu s) (ismp s) (ncpu s) v (lapic s) (said s) (outs s).
Definition set_lapic (v : Z) (s : mpstate) := MpState (cpu_id s) (bcpu s) (ismp s) (ncpu s) (ioapicid s) v (said s) (outs s).
Definition set_cpu_id (i : nat) (v : Z) (s : mpstate) :=
  MpState (<[i := v]> (cpu_id s)) (bcpu s) (ismp s) (ncpu s) (ioapicid s) (lapic s) (said s) (outs s).
Definition mp_say (msg : string) (x : list Z) (s : mpstate) :=
  MpState (cpu_id s) (bcpu s) (ismp s) (ncpu s) (ioapicid s) (lapic s) (said s ++ [(msg, x)]) (outs s).
Definition mp_out (p x : Z) (s : mpstate) :=
  MpState (cpu_id s) (bcpu s) (ismp s) (ncpu s) (ioapicid s) (lapic s) (said s) (outs s ++ [(p, x)]).

Definition mpbcpu (s : mpstate) : nat := bcpu s.

Section Mp.
(** Memory, and what port 0x23 reads. *)
Context (m : mem) (imcr : Z).

Fixpoint sum_loop (addr : Z) (len : nat) : Z :=
  match len with
  | O => 0
  | S len => b2z (m addr) + sum_loop (addr + 1) len
  end.

Definition sum (addr len : Z) : Z := sum_loop addr (Z.to_nat len) mod 256.

(** [memcmp] with a string of four characters. *)
Definition signed_with (sig : list byte) (p : Z) : bool := memcmp (at_ m p) (fun i => nth (Z.to_nat i) sig x00) 4 =? 0.

(** [for(p = addr; p < e; p += sizeof(struct mp))]; 0 when nothing was found. *)
Fixpoint mpsearch1_loop (p e : Z) (fuel : nat) : Z :=
  match fuel with
  | O => 0
  | S fuel =>
      if p <? e then
        if signed_with ["_"; "M"; "P"; "_"]%byte p && (sum p mp_size =? 0) then p
        else mpsearch1_loop (u32 (p + mp_size)) e fuel
      else 0
  end.

Definition mpsearch1 (a len : Z) : Z :=
  let addr := p2v a in
  mpsearch1_loop addr (u32 (addr + len)) (Z.to_nat len).

Definition mpsearch : Z :=
  let bda := p2v 0x400 in
  let p := Z.shiftl (Z.lor (Z.shiftl (rd8 m (bda + 0x0F)) 8) (rd8 m (bda + 0x0E))) 4 in
  let mp :=
    if negb (p =? 0) then mpsearch1 p 1024
    else mpsearch1 (u32 (Z.lor (Z.shiftl (rd8 m (bda + 0x14)) 8) (rd8 m (bda + 0x13)) * 1024 - 1024)) 1024 in
  if negb (mp =? 0) then mp else mpsearch1 0xF0000 0x10000.

(** The table and the structure that points to it; 0 when there is none. *)
Definition mpconfig : Z * Z :=
  let mp := mpsearch in
  if (mp =? 0) || (mp_physaddr m mp =? 0) then (0, 0)
  else
    let conf := p2v (mp_physaddr m mp) in
    if negb (signed_with ["P"; "C"; "M"; "P"]%byte conf) then (0, 0)
    else if negb (conf_version m conf =? 1) && negb (conf_version m conf =? 4) then (0, 0)
    else if negb (sum conf (conf_length m conf) =? 0) then (0, 0)
    else (conf, mp).

(** A processor; [cpus] has [NCPU] elements. *)
Definition mp_proc (p : Z) : M mpstate unit :=
  let! s := get in
  when (negb (ncpu s =? proc_apicid m p))
    (modify (mp_say "mpinit: ncpu=%d apicid=%d" [ncpu s; proc_apicid m p]) ;;; modify (set_ismp false)) ;;;
  when (has (proc_flags m p) MPBOOT) (modify (set_bcpu (Z.to_nat (ncpu s)))) ;;;
  (if ncpu s <? NCPU then modify (set_cpu_id (Z.to_nat (ncpu s)) (ncpu s)) else panic "wild") ;;;
  modify (set_ncpu (ncpu s + 1)).

(** The loop over the entries from address [p] to [e]. *)
Fixpoint mpinit_loop (p e : Z) (fuel : nat) : M mpstate unit :=
  if p <? e then
    match fuel with
    | O => nofuel
    | S fuel =>
        let t := rd8 m p in
        if t =? MPPROC then mp_proc p ;;; mpinit_loop (u32 (p + mpproc_size)) e fuel
        else if t =? MPIOAPIC then modify (set_ioapicid (ioapic_apicno m p)) ;;; mpinit_loop (u32 (p + mpioapic_size)) e fuel
        else if (t =? MPBUS) || (t =? MPIOINTR) || (t =? MPLINTR) then mpinit_loop (u32 (p + 8)) e fuel
        else
          modify (mp_say "mpinit: unknown config type %x" [t]) ;;;
          modify (set_ismp false) ;;;
          mpinit_loop p e fuel
    end
  else ret tt.

Definition mpinit (fuel : nat) : M mpstate unit :=
  modify (set_bcpu 0) ;;;
  let (conf, mp) := mpconfig in
  if conf =? 0 then ret tt
  else
    modify (set_ismp true) ;;;
    modify (set_lapic (conf_lapicaddr m conf)) ;;;
    mpinit_loop (u32 (conf + mpconf_size)) (u32 (conf + conf_length m conf)) fuel ;;;
    let! s := get in
    if negb (ismp s) then
      modify (set_ncpu 1) ;;;
      modify (set_lapic 0) ;;;
      modify (set_ioapicid 0)
    else
      when (negb (mp_imcrp m mp =? 0))
        (modify (mp_out 0x22 0x70) ;;;
         modify (mp_out 0x23 (Z.lor imcr 1))).
End Mp.

(** ** Properties *)

(** ** Tables *)

Inductive mpent : Type :=
  | EProc (apicid flags : Z)
  | EIoapic (apicno : Z)
  | EOther (t : Z).

Definition mpent_size (x : mpent) : Z := match x with EProc _ _ => 20 | _ => 8 end.

Definition procs_of (es : list mpent) : list (Z * Z) :=
  omap (fun x => match x with EProc a f => Some (a, f) | _ => None end) es.

(** The processor that booted: the last one with the flag, counting from [c]; else [b]. *)
Fixpoint boot_from (c b : nat) (ps : list (Z * Z)) : nat :=
  match ps with
  | [] => b
  | (_, f) :: ps => boot_from (S c) (if has f MPBOOT then c else b) ps
  end.

Definition last_ioapic (a0 : Z) (es : list mpent) : Z :=
  foldl (fun b x => match x with EIoapic a => a | _ => b end) a0 es.

(** The APIC numbers count up from [c]. *)
Fixpoint numbered (c : Z) (ps : list (Z * Z)) : bool :=
  match ps with
  | [] => true
  | (a, _) :: ps => (c =? a) && numbered (c + 1) ps
  end.

Section MpProps.
Context (m : mem) (imcr : Z).

Definition entry_at (p : Z) (x : mpent) : Prop :=
  match x with
  | EProc a f => rd8 m p = MPPROC /\ proc_apicid m p = a /\ proc_flags m p = f
  | EIoapic a => rd8 m p = MPIOAPIC /\ ioapic_apicno m p = a
  | EOther t => rd8 m p = t /\ t ∈ [MPBUS; MPIOINTR; MPLINTR]
  end.

(** Entries [es] lie one after the other from [p] on and end at [e]. *)
Fixpoint table_at (p e : Z) (es : list mpent) : Prop :=
  match es with
  | [] => e = p
  | x :: es => p < e /\ entry_at p x /\ table_at (p + mpent_size x) e es
  end.

(** ** The search *)

Definition floating (p : Z) : bool := signed_with m ["_"; "M"; "P"; "_"]%byte p && (sum m p mp_size =? 0).

Lemma search_loop fuel : forall p e, e - p <= 16 * Z.of_nat fuel -> 0 < p -> e + 16 < 2 ^ 32 ->
  let r := mpsearch1_loop m p e fuel in
  (r = 0 /\ forall i, 0 <= i -> p + 16 * i < e -> floating (p + 16 * i) = false) \/
  (exists i, 0 <= i /\ r = p + 16 * i /\ r < e /\ floating r = true /\ forall j, 0 <= j < i -> floating (p + 16 * j) = false).
Proof.
  induction fuel as [|fuel IH]; intros p e Hf Hp He r; unfold r; clear r; cbn [mpsearch1_loop].
  - left. split; [done|]. intros. lia.
  - fold (floating p). destruct (Z.ltb_spec p e) as [Hlt|Hge]; [|left; split; [done|]; intros; lia].
    destruct (floating p) eqn:Ef; [right; exists 0; split_and!; try done; try lia; intros; lia|].
    unfold mp_size. rewrite u32_small by lia. destruct (IH (p + 16) e) as [[-> Hno]|(i & Hi & -> & Hlt' & Hr & Hno)]; [lia|lia|lia|left|right].
    + split; [done|]. intros i Hi Hie. destruct (decide (i = 0)) as [->|]; [by rewrite Z.mul_0_r, Z.add_0_r|].
      replace (p + 16 * i) with (p + 16 + 16 * (i - 1)) by lia. apply Hno; lia.
    + exists (i + 1). replace (p + 16 * (i + 1)) with (p + 16 + 16 * i) by lia. split_and!; try done; try lia.
      intros j Hj. destruct (decide (j = 0)) as [->|]; [by rewrite Z.mul_0_r, Z.add_0_r|].
      replace (p + 16 * j) with (p + 16 + 16 * (j - 1)) by lia. apply Hno. lia.
Qed.

(** [mpsearch1] returns the first structure of its region with the signature and the checksum,
    at a multiple of 16 bytes from its start, and 0 if there is none. *)
Theorem mpsearch1_first a len : 0 <= a -> 0 <= len -> a + len + 16 < KERNBASE ->
  (mpsearch1 m a len = 0 /\ forall i, 0 <= i -> 16 * i < len -> floating (p2v a + 16 * i) = false) \/
  (exists i, 0 <= i /\ mpsearch1 m a len = p2v a + 16 * i /\ 16 * i < len /\ floating (p2v a + 16 * i) = true /\
     forall j, 0 <= j < i -> floating (p2v a + 16 * j) = false).
Proof.
  intros Ha Hl Hb. unfold mpsearch1. assert (Hp : p2v a = a + KERNBASE) by (unfold p2v, KERNBASE in *; by rewrite u32_small by lia).
  rewrite (u32_small (p2v a + len)) by (rewrite Hp; unfold KERNBASE in *; lia).
  destruct (search_loop (Z.to_nat len) (p2v a) (p2v a + len)) as [[E Hno]|(i & Hi & E & Hlt & Hr & Hno)]; [lia|unfold KERNBASE in *; lia..|left|right].
  - split; [done|]. intros i Hi Hil. apply Hno; lia.
  - exists i. rewrite E in *. split_and!; try done. lia.
Qed.

(** ** The loop *)

Record absorbed (s : mpstate) (es : list mpent) (s' : mpstate) : Prop := {
  ab_ncpu : ncpu s' = ncpu s + Z.of_nat (length (procs_of es));
  ab_ismp : ismp s' = ismp s && numbered (ncpu s) (procs_of es);
  ab_ioapic : ioapicid s' = last_ioapic (ioapicid s) es;
  ab_bcpu : bcpu s' = boot_from (Z.to_nat (ncpu s)) (bcpu s) (procs_of es);
  ab_rest : lapic s' = lapic s /\ outs s' = outs s;
  ab_len : length (cpu_id s') = length (cpu_id s);
  ab_id : forall i, 0 <= i -> cpu_id s' !! Z.to_nat i =
    if (ncpu s <=? i) && (i <? ncpu s + Z.of_nat (length (procs_of es))) then Some i else cpu_id s !! Z.to_nat i
}.

Lemma id_insert (l : list Z) c i : 0 <= c -> (Z.to_nat c < length l)%nat -> 0 <= i ->
  <[Z.to_nat c := c]> l !! Z.to_nat i = if (c <=? i) && (i <? c + 1) then Some i else l !! Z.to_nat i.
Proof.
  intros Hc Hl Hi. destruct (decide (i = c)) as [->|Hne].
  - by rewrite list_lookup_insert_eq, Z.leb_refl, (proj2 (Z.ltb_lt _ _)) by lia.
  - rewrite list_lookup_insert_ne by lia. destruct (Z.leb_spec c i), (Z.ltb_spec i (c + 1)); try done; lia.
Qed.

Lemma mp_proc_spec s p a f : 0 <= ncpu s < NCPU -> length (cpu_id s) = Z.to_nat NCPU -> entry_at p (EProc a f) ->
  exists s', mp_proc m p s = Ok tt s' /\ absorbed s [EProc a f] s'.
Proof.
  intros Hn Hl (_ & <- & <-). unfold mp_proc. unfold bind, get, when, modify, ret. cbn [obind].
  rewrite (proj2 (Z.ltb_lt _ _)) by lia. destruct (ncpu s =? proc_apicid m p) eqn:Ea, (has (proc_flags m p) MPBOOT) eqn:Ef; cbn [negb obind];
    (eexists; split; [reflexivity|]); (split; cbn; rewrite ?Ea, ?Ef, ?andb_true_r, ?andb_false_r; try done; [by rewrite length_insert|]);
    intros i Hi; apply id_insert; unfold NCPU in *; lia.
Qed.

Lemma absorbed_app s s1 s2 x es : 0 <= ncpu s -> absorbed s [x] s1 -> absorbed s1 es s2 -> absorbed s (x :: es) s2.
Proof.
  intros Hn [A1 A2 A3 A4 [A5 A6] A7 A8] [B1 B2 B3 B4 [B5 B6] B7 B8].
  assert (El : length (procs_of (x :: es)) = (length (procs_of [x]) + length (procs_of es))%nat) by (by destruct x).
  split; try congruence.
  - rewrite B1, A1, El. lia.
  - rewrite B2, A2, A1. destruct x; cbn; rewrite ?andb_true_r, ?Z.add_0_r; try done. by rewrite andb_assoc.
  - rewrite B3, A3. by destruct x.
  - rewrite B4, A4, A1. destruct x; [|by cbn; rewrite Z.add_0_r..]. rewrite Z2Nat.inj_add by (cbn; lia). cbn. by rewrite Nat.add_1_r.
  - split; congruence.
  - intros i Hi. rewrite (B8 i Hi), (A8 i Hi), A1, El.
    destruct (Z.leb_spec (ncpu s + Z.of_nat (length (procs_of [x]))) i), (Z.ltb_spec i (ncpu s + Z.of_nat (length (procs_of [x])) + Z.of_nat (length (procs_of es)))),
      (Z.leb_spec (ncpu s) i), (Z.ltb_spec i (ncpu s + Z.of_nat (length (procs_of [x])))),
      (Z.ltb_spec i (ncpu s + Z.of_nat (length (procs_of [x]) + length (procs_of es)))); try done; lia.
Qed.

Lemma absorbed_same s s' x : procs_of [x] = [] -> s' = set_ioapicid (last_ioapic (ioapicid s) [x]) s -> absorbed s [x] s'.
Proof.
  intros E ->. split; rewrite ?E; cbn; rewrite ?Z.add_0_r, ?andb_true_r; try done.
  intros i Hi. destruct (Z.leb_spec (ncpu s) i), (Z.ltb_spec i (ncpu s)); try done; lia.
Qed.

Lemma loop_step p e s x : 0 <= p < e -> e + 20 < 2 ^ 32 -> entry_at p x -> 0 <= ncpu s -> ncpu s + Z.of_nat (length (procs_of [x])) <= NCPU ->
  length (cpu_id s) = Z.to_nat NCPU ->
  exists s1, absorbed s [x] s1 /\ forall fuel, mpinit_loop m p e (S fuel) s = mpinit_loop m (p + mpent_size x) e fuel s1.
Proof.
  intros Hlt He Hx Hn Hc Hl. destruct x as [a f|a|t]; cbn [entry_at mpent_size] in *.
  - destruct (mp_proc_spec s p a f) as (s1 & E1 & A1); [cbn in Hc; lia|done|done|]. exists s1. split; [done|]. intros fuel.
    cbn [mpinit_loop]. rewrite (proj2 (Z.ltb_lt _ _)) by lia. destruct Hx as (-> & _). cbn [Z.eqb MPPROC]. rewrite (bind_Ok _ _ _ _ _ E1). unfold mpproc_size. by rewrite u32_small by lia.
  - eexists. split; [by apply absorbed_same|]. intros fuel. cbn [mpinit_loop]. rewrite (proj2 (Z.ltb_lt _ _)) by lia.
    destruct Hx as (-> & Ha). cbn -[mpinit_loop u32]. unfold bind, modify. cbn [obind]. unfold mpioapic_size. rewrite u32_small by lia. by rewrite Ha.
  - exists s. split; [apply absorbed_same; [done|by destruct s]|]. intros fuel. cbn [mpinit_loop]. rewrite (proj2 (Z.ltb_lt _ _)) by lia.
    destruct Hx as (-> & Hin). apply list_elem_of_In in Hin. cbn in Hin. rewrite (u32_small (p + 8)) by lia. by destruct Hin as [<-|[<-|[<-|[]]]].
Qed.

(** The entries from [p] to [q], when the table goes on to [e]. *)
Fixpoint prefix_at (p e : Z) (es : list mpent) (q : Z) : Prop :=
  match es with
  | [] => q = p
  | x :: es => p < e /\ entry_at p x /\ prefix_at (p + mpent_size x) e es q
  end.

Lemma table_prefix es : forall p e, table_at p e es -> prefix_at p e es e.
Proof. induction es as [|x es IH]; intros p e Ht; [done|]. destruct Ht as (? & ? & Ht). split_and!; try done. by apply IH. Qed.

Lemma absorbed_nil s : absorbed s [] s.
Proof.
  split; cbn; rewrite ?Z.add_0_r, ?andb_true_r; try done.
  intros i Hi. destruct (Z.leb_spec (ncpu s) i), (Z.ltb_spec i (ncpu s)); try done; lia.
Qed.

Lemma loop_prefix es : forall p e q s, 0 <= p -> e + 20 < 2 ^ 32 -> prefix_at p e es q -> 0 <= ncpu s -> ncpu s + Z.of_nat (length (procs_of es)) <= NCPU ->
  length (cpu_id s) = Z.to_nat NCPU ->
  exists s', absorbed s es s' /\ (forall fuel, mpinit_loop m p e (length es + fuel) s = mpinit_loop m q e fuel s') /\
    forall fuel, (fuel < length es)%nat -> mpinit_loop m p e fuel s = NoFuel.
Proof.
  induction es as [|x es IH]; intros p e q s Hp He Ht Hn Hc Hl.
  - cbn in Ht. subst q. exists s. split; [apply absorbed_nil|]. split; [done|]. cbn. lia.
  - destruct Ht as (Hlt & Hx & Ht). assert (Elx : length (procs_of (x :: es)) = (length (procs_of [x]) + length (procs_of es))%nat) by (by destruct x).
    destruct (loop_step p e s x ltac:(lia) He Hx Hn ltac:(lia) Hl) as (s1 & A1 & Step). pose proof (ab_ncpu _ _ _ A1) as En. pose proof (ab_len _ _ _ A1) as El.
    destruct (IH (p + mpent_size x) e q s1) as (s' & A' & R1 & R2); [destruct x; cbn; lia|done|done|lia|lia|congruence|].
    exists s'. split; [by apply (absorbed_app s s1)|]. split; [intros fuel; cbn [length Nat.add]; by rewrite Step|].
    intros [|fuel] Hf; [cbn [mpinit_loop]; by rewrite (proj2 (Z.ltb_lt _ _)) by lia|]. rewrite Step. apply R2. cbn in Hf. lia.
Qed.

Lemma prefix_le es : forall p e q, prefix_at p e es q -> p <= q.
Proof. induction es as [|x es IH]; intros p e q Hp; [cbn in Hp; lia|]. destruct Hp as (_ & _ & Hp%IH). destruct x; cbn in Hp; lia. Qed.

Lemma table_le es p e : table_at p e es -> p <= e.
Proof. intros Ht%table_prefix. by apply (prefix_le es _ e). Qed.

Lemma conf_range conf mp : mpconfig m = (conf, mp) -> 0 <= conf < 2 ^ 32.
Proof.
  unfold mpconfig. intros E. assert (H0 : conf = 0 \/ exists a, conf = p2v a).
  { repeat match type of E with context [if ?b then _ else _] => destruct b end; injection E as <- <-; try (by left); right; by eexists. }
  destruct H0 as [-> |[a ->]]; [lia|]. apply u32_range.
Qed.

Lemma length_range conf : 0 <= conf_length m conf < 2 ^ 16.
Proof. unfold conf_length, rd16. pose proof (b2z_range (m (conf + 4))). pose proof (b2z_range (m (conf + 4 + 1))). lia. Qed.

(** ** Theorems *)

(** C20. What the kernel learns from the firmware's table.  With at most eight processors in it:
    if their APIC numbers count up from 0, the processors are numbered so, the one that is
    marked (or the first) is the boot processor, and the addresses of the local and the I/O
    APIC are those of the table; otherwise the kernel falls back to one processor and no
    APIC.  Every entry is visited once. *)
Theorem mpinit_configures conf mp es fuel :
  mpconfig m = (conf, mp) -> conf <> 0 -> conf + conf_length m conf + 20 < 2 ^ 32 ->
  table_at (conf + mpconf_size) (conf + conf_length m conf) es ->
  Z.of_nat (length (procs_of es)) <= NCPU -> (length es <= fuel)%nat ->
  exists s, mpinit m imcr fuel mpstate0 = Ok tt s /\
    if numbered 0 (procs_of es) then
      ismp s = true /\ ncpu s = Z.of_nat (length (procs_of es)) /\ (forall i, 0 <= i < ncpu s -> cpu_id s !! Z.to_nat i = Some i) /\
      mpbcpu s = boot_from 0 0 (procs_of es) /\ ioapicid s = last_ioapic 0 es /\ lapic s = conf_lapicaddr m conf /\
      outs s = (if mp_imcrp m mp =? 0 then [] else [(0x22, 0x70); (0x23, Z.lor imcr 1)])
    else ismp s = false /\ ncpu s = 1 /\ lapic s = 0 /\ ioapicid s = 0 /\ outs s = [].
Proof.
  intros Hc Hne He Ht Hn Hf. pose proof (conf_range conf mp Hc) as Hr. pose proof (length_range conf) as Hlen. set (s1 := set_lapic (conf_lapicaddr m conf) (set_ismp true mpstate0)).
  destruct (loop_prefix es (conf + mpconf_size) _ _ s1 ltac:(unfold mpconf_size; lia) He (table_prefix _ _ _ Ht)) as (s2 & [A1 A2 A3 A4 [A5 A6] A7 A8] & R & _); [done|done|done|].
  assert (Hsz : conf + mpconf_size <= conf + conf_length m conf) by (by apply (table_le es)). unfold mpconf_size in Hsz.
  assert (E2 : mpinit_loop m (conf + mpconf_size) (conf + conf_length m conf) fuel s1 = Ok tt s2).
  { replace fuel with (length es + (fuel - length es))%nat by lia. rewrite R. destruct (fuel - length es)%nat; cbn [mpinit_loop]; by rewrite Z.ltb_irrefl. }
  assert (Run : mpinit m imcr fuel mpstate0 = (let! s := get in
    if negb (ismp s) then modify (set_ncpu 1) ;;; modify (set_lapic 0) ;;; modify (set_ioapicid 0)
    else when (negb (mp_imcrp m mp =? 0)) (modify (mp_out 0x22 0x70) ;;; modify (mp_out 0x23 (Z.lor imcr 1)))) s2).
  { unfold mpinit. unfold bind at 1, modify at 1. cbn [obind]. rewrite Hc, (proj2 (Z.eqb_neq _ _) Hne).
    unfold bind at 1, modify at 1. cbn [obind]. unfold bind at 1, modify at 1. cbn [obind]. fold s1. rewrite !u32_small by (unfold mpconf_size; lia). by rewrite (bind_Ok _ _ _ _ _ E2). }
  rewrite Run. cbn [s1 ismp ncpu set_lapic set_ismp mpstate0 andb] in A1, A2, A3, A4, A5, A6, A8.
  unfold bind, get, modify, when, ret. cbn [obind]. rewrite A2. destruct (numbered 0 (procs_of es)); cbn [negb].
  - assert (Hid : forall i, 0 <= i < ncpu s2 -> cpu_id s2 !! Z.to_nat i = Some i).
    { intros i Hi. rewrite A8, A1 in * by lia. rewrite (proj2 (Z.leb_le _ _)), (proj2 (Z.ltb_lt _ _)) by lia. done. }
    destruct (mp_imcrp m mp =? 0); cbn [negb obind]; eexists; (split; [reflexivity|]); split_and!; cbn; try done; by rewrite A6.
  - eexists. split; [reflexivity|]. cbn. by rewrite A2, A6.
Qed.

Lemma stuck fuel : forall p e s, p < e -> ~ (rd8 m p <= MPLINTR) -> mpinit_loop m p e fuel s = NoFuel.
Proof.
  induction fuel as [|fuel IH]; intros p e s Hlt Ht; cbn [mpinit_loop]; rewrite (proj2 (Z.ltb_lt _ _)) by lia; [done|].
  unfold MPPROC, MPIOAPIC, MPBUS, MPIOINTR, MPLINTR in *. rewrite !(proj2 (Z.eqb_neq _ _)) by lia. cbn [orb]. unfold bind, modify. cbn [obind]. by apply IH.
Qed.

Lemma mpinit_loops conf mp fuel : mpconfig m = (conf, mp) -> conf <> 0 -> 0 <= conf -> conf + 44 < 2 ^ 32 -> conf + conf_length m conf < 2 ^ 32 ->
  mpinit_loop m (conf + mpconf_size) (conf + conf_length m conf) fuel (set_lapic (conf_lapicaddr m conf) (set_ismp true mpstate0)) = NoFuel ->
  mpinit m imcr fuel mpstate0 = NoFuel.
Proof.
  intros Hc Hne H0 H1 H2 E. pose proof (length_range conf) as Hlen. unfold mpinit, bind at 1, modify at 1. cbn [obind]. change (set_bcpu 0 mpstate0) with mpstate0. rewrite Hc, (proj2 (Z.eqb_neq _ _) Hne).
  unfold bind at 1, modify at 1. cbn [obind]. unfold bind at 1, modify at 1. cbn [obind]. unfold bind at 1. rewrite !u32_small by (unfold mpconf_size; lia). by rewrite E.
Qed.

(** The kernel trusts the firmware too much.  Behind any entries it knows, an entry of
    another type makes [mpinit] print its message for ever: the pointer is not moved on.  And
    a ninth processor makes it store behind the end of [cpus]. *)
Theorem mpinit_trusts conf mp es q :
  mpconfig m = (conf, mp) -> conf <> 0 -> conf + conf_length m conf + 20 < 2 ^ 32 ->
  prefix_at (conf + mpconf_size) (conf + conf_length m conf) es q -> q < conf + conf_length m conf ->
  Z.of_nat (length (procs_of es)) <= NCPU ->
  (MPLINTR < rd8 m q -> forall fuel, mpinit m imcr fuel mpstate0 = NoFuel) /\
  (rd8 m q = MPPROC -> Z.of_nat (length (procs_of es)) = NCPU -> forall fuel, (length es < fuel)%nat ->
     panics (mpinit m imcr fuel) mpstate0 "wild").
Proof.
  intros Hc Hne He Hp Hlt Hn. pose proof (conf_range conf mp Hc) as Hr. pose proof (length_range conf) as Hlen.
  assert (Hsz : conf + mpconf_size <= q) by (by apply (prefix_le es _ (conf + conf_length m conf))). unfold mpconf_size in Hsz.
  destruct (loop_prefix es (conf + mpconf_size) _ _ (set_lapic (conf_lapicaddr m conf) (set_ismp true mpstate0)) ltac:(unfold mpconf_size; lia) He Hp) as (s2 & A & R1 & R2); [done|done|done|].
  split.
  - intros Ht fuel. apply (mpinit_loops conf mp); [done|done|lia|lia|lia|]. destruct (decide (fuel < length es)%nat) as [Hf|Hf]; [by apply R2|].
    replace fuel with (length es + (fuel - length es))%nat by lia. rewrite R1. apply stuck; [done|lia].
  - intros Ht Hm fuel Hf. unfold panics, mpinit, bind at 1, modify at 1. cbn [obind]. change (set_bcpu 0 mpstate0) with mpstate0. rewrite Hc, (proj2 (Z.eqb_neq _ _) Hne).
    unfold bind at 1, modify at 1. cbn [obind]. unfold bind at 1, modify at 1. cbn [obind]. unfold bind at 1.
    replace fuel with (length es + S (fuel - length es - 1))%nat by lia. rewrite !u32_small by (unfold mpconf_size; lia). rewrite R1. cbn [mpinit_loop]. rewrite (proj2 (Z.ltb_lt _ _)), Ht by lia. cbn [Z.eqb MPPROC].
    pose proof (ab_ncpu _ _ _ A) as En. cbn [ncpu set_lapic set_ismp mpstate0] in En. unfold bind at 1, mp_proc, bind, get, when, modify, ret. cbn [obind].
    rewrite (proj2 (Z.ltb_ge (ncpu s2) NCPU)) by lia. destruct (negb (ncpu s2 =? proc_apicid m q)), (has (proc_flags m q) MPBOOT); cbn [obind]; eexists; reflexivity.
Qed.
End MpProps.

(** ** Witnesses *)

(** A table at 0xF0100 with a pointer to it in the BIOS area. *)
Definition mx_bytes (len chk : byte) (entries : list byte) : list byte :=
  ["_"; "M"; "P"; "_"; x00; x01; x0f; x00; x01; x04; x90; x00; x00; x00; x00; x00]%byte ++ replicate 240 x00 ++
  ["P"; "C"; "M"; "P"; len; x00; x04; chk]%byte ++ replicate 28 x00 ++ [x00; x00; xe0; xfe; x00; x00; x00; x00] ++ entries.
Definition mx_mem (bs : list byte) : mem := fun a => nth (Z.to_nat (a - p2v 0xF0000)) (if a <? p2v 0xF0000 then [] else bs) x00.

(** Two processors, of which the first booted, and an I/O APIC. *)
Definition mx_two : mem := mx_mem (mx_bytes x5c x82
  ([x00; x00; x00; x03] ++ replicate 16 x00 ++ [x00; x01; x00; x01] ++ replicate 16 x00 ++ [x02; x09; x00; x00; x00; x00; x00; x00])).
Definition mx_conf : Z := p2v 0xF0100.

Lemma mpinit_configures_witness : exists s, mpinit mx_two 0 3 mpstate0 = Ok tt s /\ ncpu s = 2 /\ mpbcpu s = 0%nat /\ ioapicid s = 9 /\ lapic s = 0xFEE00000.
Proof.
  destruct (mpinit_configures mx_two 0 mx_conf (p2v 0xF0000) [EProc 0 3; EProc 1 1; EIoapic 9] 3) as (s & E & R).
  - vm_compute. reflexivity.
  - discriminate.
  - vm_compute. reflexivity.
  - vm_compute. split_and!; reflexivity.
  - discriminate.
  - reflexivity.
  - exists s. split; [exact E|]. cbn in R. destruct R as (_ & R1 & _ & R2 & R3 & R4 & _). split_and!; [exact R1|exact R2|exact R3|].
    rewrite R4. vm_compute. reflexivity.
Defined.

Lemma mpinit_trusts_witness : forall fuel, mpinit (mx_mem (mx_bytes x34 xb3 [x07; x00; x00; x00; x00; x00; x00; x00])) 0 fuel mpstate0 = NoFuel.
Proof.
  apply (mpinit_trusts (mx_mem (mx_bytes x34 xb3 [x07; x00; x00; x00; x00; x00; x00; x00])) 0 mx_conf (p2v 0xF0000) [] (mx_conf + 44)).
  - vm_compute. reflexivity.
  - discriminate.
  - vm_compute. reflexivity.
  - vm_compute. reflexivity.
  - vm_compute. reflexivity.
  - discriminate.
  - vm_compute. reflexivity.
Defined.
