(* ===== verification/Desc.v ===== *)
(** * Segments and gates (mmu.h, seginit of vm.c, tvinit of trap.c, x86.h)

    The descriptors that the kernel builds for the processor, as the bit fields of the C
    structures, and what the processor reads in them. *)

From S2P Require Import Prelude Layout.

Open Scope Z_scope.

Definition NSEGS : nat := 7.
Definition SEG_KCODE : Z := 1.
Definition SEG_KDATA : Z := 2.
Definition SEG_KCPU : Z := 3.
Definition SEG_TSS : Z := 6.
Definition STA_X : Z := 0x8.
Definition STA_W : Z := 0x2.
Definition STA_R : Z := 0x2.
Definition STS_T32A : Z := 0x9.
Definition STS_IG32 : Z := 0xE.
Definition STS_TG32 : Z := 0xF.

(** Bit fields, the lowest first, each with its width. *)
Fixpoint pack (fs : list (Z * Z)) : Z :=
  match fs with
  | [] => 0
  | (w, v) :: fs => v mod 2 ^ w + 2 ^ w * pack fs
  end.

Record segdesc : Type := SegDesc {
  lim_15_0 : Z; base_15_0 : Z; base_23_16 : Z; sd_type : Z; sd_s : Z; sd_dpl : Z; sd_p : Z;
  lim_19_16 : Z; sd_avl : Z; sd_rsv1 : Z; sd_db : Z; sd_g : Z; base_31_24 : Z
}.

(** The eight bytes of a descriptor. *)
Definition segdesc_bits (d : segdesc) : Z :=
  pack [(16, lim_15_0 d); (16, base_15_0 d); (8, base_23_16 d); (4, sd_type d); (1, sd_s d); (2, sd_dpl d); (1, sd_p d);
        (4, lim_19_16 d); (1, sd_avl d); (1, sd_rsv1 d); (1, sd_db d); (1, sd_g d); (8, base_31_24 d)].

Definition SEG (type base lim dpl : Z) : segdesc :=
  SegDesc (Z.land (Z.shiftr lim 12) 0xffff) (Z.land (u32 base) 0xffff) (Z.land (Z.shiftr (u32 base) 16) 0xff) type 1 dpl 1
    (Z.shiftr (u32 lim) 28) 0 0 1 1 (Z.shiftr (u32 base) 24).
Definition SEG16 (type base lim dpl : Z) : segdesc :=
  SegDesc (Z.land lim 0xffff) (Z.land (u32 base) 0xffff) (Z.land (Z.shiftr (u32 base) 16) 0xff) type 1 dpl 1
    (Z.shiftr (u32 lim) 16) 0 0 1 0 (Z.shiftr (u32 base) 24).

Definition set_s (v : Z) (d : segdesc) : segdesc :=
  SegDesc (lim_15_0 d) (base_15_0 d) (base_23_16 d) (sd_type d) v (sd_dpl d) (sd_p d) (lim_19_16 d) (sd_avl d) (sd_rsv1 d) (sd_db d) (sd_g d) (base_31_24 d).

Record gatedesc : Type := GateDesc {
  off_15_0 : Z; gd_cs : Z; gd_args : Z; gd_rsv1 : Z; gd_type : Z; gd_s : Z; gd_dpl : Z; gd_p : Z; off_31_16 : Z
}.

Definition gatedesc_bits (g : gatedesc) : Z :=
  pack [(16, off_15_0 g); (16, gd_cs g); (5, gd_args g); (3, gd_rsv1 g); (4, gd_type g); (1, gd_s g); (2, gd_dpl g); (1, gd_p g); (16, off_31_16 g)].

Definition SETGATE (istrap : bool) (sel off d : Z) : gatedesc :=
  GateDesc (Z.land (u32 off) 0xffff) sel 0 0 (if istrap then STS_TG32 else STS_IG32) 0 d 1 (Z.shiftr (u32 off) 16).

(** The operand of [lgdt] and [lidt]: three 16-bit words. *)
Definition pseudo (p size : Z) : list Z := [(size - 1) mod 2 ^ 16; p mod 2 ^ 16; Z.shiftr p 16 mod 2 ^ 16].

(** ** Per-processor tables *)

(** A processor's descriptor table, the fields of its task state that the kernel sets, and
    the registers loaded, and the two words of its local storage. *)
Record cpuseg : Type := CpuSeg {
  gdt : list segdesc;
  ts_ss0 : Z;
  ts_esp0 : Z;
  gdtr : list Z;
  gs : Z;
  tr : Z;
  cpu : Z;
  proc : Z
}.

Definition gdt_set (i : Z) (d : segdesc) (c : cpuseg) : cpuseg :=
  CpuSeg (<[Z.to_nat i := d]> (gdt c)) (ts_ss0 c) (ts_esp0 c) (gdtr c) (gs c) (tr c) (cpu c) (proc c).

(** [c_at] is the address of the processor's [struct cpu], [gdt_at] that of [c->gdt] and
    [cpu_at] that of [c->cpu]. *)
Definition seginit (c_at gdt_at cpu_at : Z) (c : cpuseg) : cpuseg :=
  let c := gdt_set SEG_KCODE (SEG (Z.lor STA_X STA_R) 0 0xffffffff 0) c in
  let c := gdt_set SEG_KDATA (SEG STA_W 0 0xffffffff 0) c in
  let c := gdt_set SEG_UCODE (SEG (Z.lor STA_X STA_R) 0 0xffffffff DPL_USER) c in
  let c := gdt_set SEG_UDATA (SEG STA_W 0 0xffffffff DPL_USER) c in
  let c := gdt_set SEG_KCPU (SEG STA_W cpu_at 8 0) c in
  CpuSeg (gdt c) (ts_ss0 c) (ts_esp0 c) (pseudo gdt_at (8 * Z.of_nat NSEGS)) (Z.shiftl SEG_KCPU 3) (tr c) c_at 0.

(** The part of [switchuvm] that concerns the task state, whose size is 104 bytes; [ts_at] is
    its address and [kstack] the process's kernel stack. *)
Definition taskstate_size : Z := 104.
Definition switchuvm_tss (ts_at kstack : Z) (c : cpuseg) : cpuseg :=
  let c := gdt_set SEG_TSS (SEG16 STS_T32A ts_at (taskstate_size - 1) 0) c in
  let c := CpuSeg (alter (set_s 0) (Z.to_nat SEG_TSS) (gdt c)) (ts_ss0 c) (ts_esp0 c) (gdtr c) (gs c) (tr c) (cpu c) (proc c) in
  CpuSeg (gdt c) (Z.shiftl SEG_KDATA 3) (u32 (kstack + KSTACKSIZE)) (gdtr c) (gs c) (Z.shiftl SEG_TSS 3) (cpu c) (proc c).

(** ** The interrupt table *)

(** [for(i = 0; i < 256; i++)] *)
Fixpoint tvinit_loop (vectors : Z -> Z) (i : nat) (n : nat) (idt : list gatedesc) : list gatedesc :=
  match n with
  | O => idt
  | S n => tvinit_loop vectors (S i) n (<[i := SETGATE false (Z.shiftl SEG_KCODE 3) (vectors (Z.of_nat i)) 0]> idt)
  end.

Definition tvinit (vectors : Z -> Z) (idt : list gatedesc) : list gatedesc :=
  let idt := tvinit_loop vectors 0 256 idt in
  <[Z.to_nat T_SYSCALL := SETGATE true (Z.shiftl SEG_KCODE 3) (vectors T_SYSCALL) DPL_USER]> idt.

Definition idtinit (idt_at : Z) : list Z := pseudo idt_at (8 * 256).

(** ** What the processor reads *)

(** Bits [off] to [off + w - 1] of a descriptor. *)
Definition field (off w x : Z) : Z := x / 2 ^ off mod 2 ^ w.

Definition seg_base (x : Z) : Z := field 16 16 x + 2 ^ 16 * field 32 8 x + 2 ^ 24 * field 56 8 x.
Definition seg_limit (x : Z) : Z :=
  let l := field 0 16 x + 2 ^ 16 * field 48 4 x in if field 55 1 x =? 1 then 4096 * l + 4095 else l.

(** Base, limit, type, whether it is code or data, privilege level, present. *)
Record segment : Type := Segment { s_base : Z; s_limit : Z; s_type : Z; s_user : Z; s_dpl : Z; s_present : Z }.
Definition segment_of (x : Z) : segment :=
  Segment (seg_base x) (seg_limit x) (field 40 4 x) (field 44 1 x) (field 45 2 x) (field 47 1 x).

(** Handler, selector, type, whether it is code or data (it must not be), privilege level, present. *)
Record gate : Type := Gate { g_offset : Z; g_cs : Z; g_type : Z; g_user : Z; g_dpl : Z; g_present : Z }.
Definition gate_of (x : Z) : gate :=
  Gate (field 0 16 x + 2 ^ 16 * field 48 16 x) (field 16 16 x) (field 40 4 x) (field 44 1 x) (field 45 2 x) (field 47 1 x).

Lemma field_head w v fs : 0 <= w -> field 0 w (pack ((w, v) :: fs)) = v mod 2 ^ w.
Proof. intros Hw. unfold field. cbn [pack]. rewrite Z.div_1_r, Z.mul_comm, Z.mod_add by (apply Z.pow_nonzero; lia). apply Z.mod_mod, Z.pow_nonzero; lia. Qed.

Lemma field_tail off w w' v fs : 0 <= w -> w <= off -> field off w' (pack ((w, v) :: fs)) = field (off - w) w' (pack fs).
Proof.
  intros Hw Ho. unfold field. cbn [pack]. replace off with (w + (off - w)) at 1 by lia. rewrite Z.pow_add_r by lia.
  rewrite <- Z.div_div by (try apply Z.pow_nonzero; try apply Z.pow_pos_nonneg; lia).
  rewrite (Z.mul_comm (2 ^ w)), Z.div_add by (apply Z.pow_nonzero; lia).
  rewrite (Z.div_small (v mod 2 ^ w)) by (apply Z.mod_pos_bound, Z.pow_pos_nonneg; lia). done.
Qed.

Definition widths (fs : list (Z * Z)) : Z := foldr (fun f n => f.1 + n) 0 fs.

Lemma field_pack i : forall fs w v off, fs !! i = Some (w, v) -> forallb (fun f => 0 <=? f.1) fs = true -> off = widths (take i fs) ->
  field off w (pack fs) = v mod 2 ^ w.
Proof.
  induction i as [|i IH]; intros [|[w0 v0] fs] w v off E F ->; try done; cbn [forallb fst] in F; bool_hyps.
  - injection E as -> ->. by apply field_head.
  - cbn [take widths foldr fst]. rewrite field_tail; [|lia|].
    + apply IH; [done|done|unfold widths; lia].
    + enough (0 <= foldr (fun f n => f.1 + n) 0 (take i fs)) by lia.
      match goal with H : forallb _ fs = true |- _ => revert H end. clear. revert i. induction fs as [|[w v] fs IH]; intros [|i] F; try done. cbn in *. bool_hyps. match goal with H : forallb _ fs = true |- _ => specialize (IH i H) end. lia.
Qed.

(** ** The descriptors *)

Lemma land_low x w : 0 <= w -> Z.land x (Z.ones w) mod 2 ^ w = x mod 2 ^ w.
Proof. intros Hw. rewrite Z.land_ones by lia. apply Z.mod_mod, Z.pow_nonzero; lia. Qed.

(** The three parts of a base address. *)
Lemma base_parts b : 0 <= b < 2 ^ 32 -> b mod 2 ^ 16 + 2 ^ 16 * (b / 2 ^ 16 mod 2 ^ 8) + 2 ^ 24 * (b / 2 ^ 24 mod 2 ^ 8) = b.
Proof.
  intros Hb. pose proof (Z.div_mod b (2 ^ 16) ltac:(lia)) as E0. pose proof (Z.div_mod (b / 2 ^ 16) (2 ^ 8) ltac:(lia)) as E1.
  rewrite Z.div_div in E1 by lia. change (2 ^ 16 * 2 ^ 8) with (2 ^ 24) in E1.
  rewrite (Z.mod_small (b / 2 ^ 24)) by (split; [apply Z.div_pos; lia|apply Z.div_lt_upper_bound; lia]). lia.
Qed.

Lemma SEG_segment type base lim dpl : 0 <= type < 16 -> 0 <= base < 2 ^ 32 -> 0 <= lim < 2 ^ 32 -> 0 <= dpl < 4 ->
  segment_of (segdesc_bits (SEG type base lim dpl)) = Segment base (4096 * (lim / 4096) + 4095) type 1 dpl 1.
Proof.
  intros Ht Hb Hl Hd. unfold segment_of, seg_base, seg_limit, segdesc_bits, SEG.
  cbn [lim_15_0 base_15_0 base_23_16 sd_type sd_s sd_dpl sd_p lim_19_16 sd_avl sd_rsv1 sd_db sd_g base_31_24].
  rewrite !u32_small, !Z.shiftr_div_pow2 by lia. change 0xffff with (Z.ones 16). change 0xff with (Z.ones 8).
  rewrite !Z.land_ones by lia.
  rewrite (field_pack 1 _ 16 (base mod 2 ^ 16) 16), (field_pack 2 _ 8 (base / 2 ^ 16 mod 2 ^ 8) 32), (field_pack 12 _ 8 (base / 2 ^ 24) 56),
    (field_pack 0 _ 16 (lim / 2 ^ 12 mod 2 ^ 16) 0), (field_pack 7 _ 4 (lim / 2 ^ 28) 48), (field_pack 11 _ 1 1 55),
    (field_pack 3 _ 4 type 40), (field_pack 4 _ 1 1 44), (field_pack 5 _ 2 dpl 45), (field_pack 6 _ 1 1 47) by reflexivity.
  rewrite !Z.mod_mod, base_parts by lia. rewrite (Z.mod_small type), (Z.mod_small dpl) by lia. f_equal.
  cbn [Z.eqb Z.modulo]. change (1 mod 2 ^ 1 =? 1) with true.
  assert (E : lim / 2 ^ 12 mod 2 ^ 16 + 2 ^ 16 * (lim / 2 ^ 28 mod 2 ^ 4) = lim / 4096); [|cbv iota; lia].
  pose proof (Z.div_mod (lim / 2 ^ 12) (2 ^ 16) ltac:(lia)) as E1. rewrite Z.div_div in E1 by lia. change (2 ^ 12 * 2 ^ 16) with (2 ^ 28) in E1.
  rewrite (Z.mod_small (lim / 2 ^ 28)) by (split; [apply Z.div_pos; lia|apply Z.div_lt_upper_bound; lia]). change 4096 with (2 ^ 12). lia.
Qed.

Lemma SEG16_segment type base lim dpl : 0 <= type < 16 -> 0 <= base < 2 ^ 32 -> 0 <= lim < 2 ^ 20 -> 0 <= dpl < 4 ->
  segment_of (segdesc_bits (set_s 0 (SEG16 type base lim dpl))) = Segment base lim type 0 dpl 1.
Proof.
  intros Ht Hb Hl Hd. unfold segment_of, seg_base, seg_limit, segdesc_bits, set_s, SEG16.
  cbn [lim_15_0 base_15_0 base_23_16 sd_type sd_s sd_dpl sd_p lim_19_16 sd_avl sd_rsv1 sd_db sd_g base_31_24].
  rewrite !u32_small, !Z.shiftr_div_pow2 by lia. change 0xffff with (Z.ones 16). change 0xff with (Z.ones 8).
  rewrite !Z.land_ones by lia.
  rewrite (field_pack 1 _ 16 (base mod 2 ^ 16) 16), (field_pack 2 _ 8 (base / 2 ^ 16 mod 2 ^ 8) 32), (field_pack 12 _ 8 (base / 2 ^ 24) 56),
    (field_pack 0 _ 16 (lim mod 2 ^ 16) 0), (field_pack 7 _ 4 (lim / 2 ^ 16) 48), (field_pack 11 _ 1 0 55),
    (field_pack 3 _ 4 type 40), (field_pack 4 _ 1 0 44), (field_pack 5 _ 2 dpl 45), (field_pack 6 _ 1 1 47) by reflexivity.
  rewrite !Z.mod_mod, base_parts by lia. rewrite (Z.mod_small type), (Z.mod_small dpl) by lia. f_equal.
  change (0 mod 2 ^ 1 =? 1) with false. cbv iota.
  rewrite (Z.mod_small (lim / 2 ^ 16)) by (split; [apply Z.div_pos; lia|apply Z.div_lt_upper_bound; lia]). pose proof (Z.div_mod lim (2 ^ 16) ltac:(lia)). lia.
Qed.

Lemma SETGATE_gate t sel off d : 0 <= sel < 2 ^ 16 -> 0 <= off < 2 ^ 32 -> 0 <= d < 4 ->
  gate_of (gatedesc_bits (SETGATE t sel off d)) = Gate off sel (if t then STS_TG32 else STS_IG32) 0 d 1.
Proof.
  intros Hs Ho Hd. unfold gate_of, gatedesc_bits, SETGATE. cbn [off_15_0 gd_cs gd_args gd_rsv1 gd_type gd_s gd_dpl gd_p off_31_16].
  rewrite !u32_small, !Z.shiftr_div_pow2 by lia. change 0xffff with (Z.ones 16). rewrite !Z.land_ones by lia.
  rewrite (field_pack 0 _ 16 (off mod 2 ^ 16) 0), (field_pack 8 _ 16 (off / 2 ^ 16) 48), (field_pack 1 _ 16 sel 16),
    (field_pack 4 _ 4 (if t then STS_TG32 else STS_IG32) 40), (field_pack 5 _ 1 0 44), (field_pack 6 _ 2 d 45), (field_pack 7 _ 1 1 47) by reflexivity.
  rewrite Z.mod_mod by lia. rewrite (Z.mod_small sel), (Z.mod_small d) by lia.
  rewrite (Z.mod_small (off / 2 ^ 16)) by (split; [apply Z.div_pos; lia|apply Z.div_lt_upper_bound; lia]).
  f_equal; [pose proof (Z.div_mod off (2 ^ 16) ltac:(lia)); lia|by destruct t].
Qed.

(** ** The tables *)

(** The segment that a selector names in a table. *)
Definition segment_at (c : cpuseg) (i : Z) : option segment := segment_of ∘ segdesc_bits <$> gdt c !! Z.to_nat i.

(** A flat segment: the whole address space. *)
Definition flat (type dpl : Z) : segment := Segment 0 0xffffffff type 1 dpl 1.

(** The operand of [lgdt] and [lidt] holds the address and the limit. *)
Definition pseudo_base (pd : list Z) : Z := pd !!! 1%nat + 2 ^ 16 * pd !!! 2%nat.

Lemma pseudo_load p size : 0 <= p < 2 ^ 32 -> 0 < size <= 2 ^ 16 -> pseudo_base (pseudo p size) = p /\ pseudo p size !! 0%nat = Some (size - 1).
Proof.
  intros Hp Hs. unfold pseudo_base, pseudo. cbn. rewrite Z.shiftr_div_pow2 by lia.
  rewrite (Z.mod_small (p / _)) by (split; [apply Z.div_pos; lia|apply Z.div_lt_upper_bound; lia]).
  rewrite (Z.mod_small (size - 1)) by lia. split; [|done]. pose proof (Z.div_mod p (2 ^ 16) ltac:(lia)). change (Z.pow_pos 2 16) with (2 ^ 16) in *. lia.
Qed.

(** C15. Whatever a processor's tables held, after [seginit] and the first [switchuvm] on it the processor finds in them:
    flat code and data for the kernel at level 0 and for processes at level 3; the processor's
    own data from [&c->cpu] at level 0; a task state of the right address, limit and type,
    whose stack for traps is the top of the process's kernel stack in the kernel's data
    segment; and the table itself at its address with seven entries. *)
Theorem gdt_protects c c_at gdt_at cpu_at ts_at kstack :
  length (gdt c) = NSEGS -> 0 <= gdt_at < 2 ^ 32 -> 0 <= cpu_at < 2 ^ 32 -> 0 <= ts_at < 2 ^ 32 -> 0 <= kstack < 2 ^ 32 - KSTACKSIZE ->
  let c' := switchuvm_tss ts_at kstack (seginit c_at gdt_at cpu_at c) in
  segment_at c' SEG_KCODE = Some (flat (Z.lor STA_X STA_R) 0) /\ segment_at c' SEG_KDATA = Some (flat STA_W 0) /\
  segment_at c' SEG_UCODE = Some (flat (Z.lor STA_X STA_R) DPL_USER) /\ segment_at c' SEG_UDATA = Some (flat STA_W DPL_USER) /\
  segment_at c' SEG_KCPU = Some (Segment cpu_at 4095 STA_W 1 0 1) /\
  segment_at c' SEG_TSS = Some (Segment ts_at (taskstate_size - 1) STS_T32A 0 0 1) /\
  (ts_ss0 c', ts_esp0 c') = (8 * SEG_KDATA, kstack + KSTACKSIZE) /\ (gs c', tr c') = (8 * SEG_KCPU, 8 * SEG_TSS) /\
  pseudo_base (gdtr c') = gdt_at /\ gdtr c' !! 0%nat = Some (8 * Z.of_nat NSEGS - 1) /\ length (gdt c') = NSEGS /\ (cpu c', proc c') = (c_at, 0).
Proof.
  destruct c as [g ss0 esp0 gr gs0 tr0 cp pr]. intros L Hg Hc Ht Hk c'. cbn [gdt] in L.
  destruct g as [|g0 [|g1 [|g2 [|g3 [|g4 [|g5 [|g6 [|]]]]]]]]; try discriminate L.
  assert (E : gdt c' = [g0; SEG (Z.lor STA_X STA_R) 0 0xffffffff 0; SEG STA_W 0 0xffffffff 0; SEG STA_W cpu_at 8 0;
    SEG (Z.lor STA_X STA_R) 0 0xffffffff DPL_USER; SEG STA_W 0 0xffffffff DPL_USER; set_s 0 (SEG16 STS_T32A ts_at (taskstate_size - 1) 0)]) by reflexivity.
  unfold segment_at. rewrite E. lazy [lookup list_lookup Z.to_nat SEG_KCODE SEG_KDATA SEG_KCPU SEG_UCODE SEG_UDATA SEG_TSS Pos.to_nat Pos.iter_op Nat.add fmap option_fmap option_map compose].
  rewrite SEG16_segment, !SEG_segment by first [lia | split; done].
  destruct (pseudo_load gdt_at (8 * Z.of_nat NSEGS) Hg ltac:(split; done)) as [P1 P2].
  assert (K : ts_esp0 c' = kstack + KSTACKSIZE) by (unfold c'; cbn [ts_esp0 switchuvm_tss]; apply u32_small; unfold KSTACKSIZE in *; lia).
  rewrite K. repeat split; done.
Qed.
Lemma gdt_protects_witness : (ts_esp0 (switchuvm_tss 0x80112fd8 0x8dfff000 (seginit 0x80112fc0 0x80113040 0x80113084 (CpuSeg (replicate 7 (SEG 0 0 0 0)) 0 0 [] 0 0 0 0)))) = 0x8e000000.
Proof.
  destruct (gdt_protects (CpuSeg (replicate 7 (SEG 0 0 0 0)) 0 0 [] 0 0 0 0) 0x80112fc0 0x80113040 0x80113084 0x80112fd8 0x8dfff000
    eq_refl ltac:(lia) ltac:(lia) ltac:(lia) ltac:(unfold KSTACKSIZE; lia)) as (_ & _ & _ & _ & _ & _ & E & _).
  exact (f_equal snd E).
Defined.

(** ** Interrupts *)

Lemma tvinit_loop_lookup vectors n : forall i idt j, (i + n <= length idt)%nat -> (j < length idt)%nat ->
  tvinit_loop vectors i n idt !! j =
    if decide (i <= j < i + n)%nat then Some (SETGATE false (Z.shiftl SEG_KCODE 3) (vectors (Z.of_nat j)) 0) else idt !! j.
Proof.
  induction n as [|n IH]; intros i idt j Hi Hj; cbn [tvinit_loop]; [rewrite decide_False by lia; done|].
  rewrite IH by (rewrite length_insert; lia). destruct (decide (j = i)) as [->|N].
  - rewrite decide_False, decide_True, list_lookup_insert_eq by lia. done.
  - rewrite list_lookup_insert_ne by done. destruct (decide (S i <= j < S i + n)%nat).
    + by rewrite decide_True by lia.
    + by rewrite decide_False by lia.
Qed.

Lemma tvinit_loop_length vectors n : forall i idt, length (tvinit_loop vectors i n idt) = length idt.
Proof. induction n as [|n IH]; intros i idt; cbn; [done|]. by rewrite IH, length_insert. Qed.

(** Whether [int n] is allowed at a privilege level, and whether interrupts stay on. *)
Definition int_allowed (cpl : Z) (g : gate) : bool := cpl <=? g_dpl g.
Definition keeps_interrupts (g : gate) : bool := g_type g =? STS_TG32.

(** C16. After [tvinit] and [idtinit] each of the 256 vectors has a gate to its handler in the
    kernel's code segment, present and of a kind the processor takes; a process can raise
    [int n] only for [n = T_SYSCALL]; interrupts stay on only in system calls; and the
    table register covers exactly the 256 gates. *)
Theorem idt_protects vectors idt idt_at : length idt = 256%nat -> 0 <= idt_at < 2 ^ 32 -> (forall n, 0 <= n < 256 -> 0 <= vectors n < 2 ^ 32) ->
  (forall n, 0 <= n < 256 -> exists g, gate_of ∘ gatedesc_bits <$> tvinit vectors idt !! Z.to_nat n = Some g /\
    g_offset g = vectors n /\ g_cs g = 8 * SEG_KCODE /\ g_user g = 0 /\ g_present g = 1 /\ g_type g ∈ [STS_IG32; STS_TG32] /\
    (int_allowed DPL_USER g = true <-> n = T_SYSCALL) /\ (keeps_interrupts g = true <-> n = T_SYSCALL)) /\
  length (tvinit vectors idt) = 256%nat /\ pseudo_base (idtinit idt_at) = idt_at /\ idtinit idt_at !! 0%nat = Some (8 * 256 - 1).
Proof.
  intros L Ha V. split; [|split; [unfold tvinit; by rewrite length_insert, tvinit_loop_length|by apply pseudo_load]].
  intros n Hn. specialize (V n Hn) as Vn. destruct (decide (n = T_SYSCALL)) as [->|N]; eexists; unfold tvinit.
  - rewrite list_lookup_insert_eq by (rewrite tvinit_loop_length, L; cbn; lia). cbn [fmap option_fmap option_map]. unfold compose.
    rewrite SETGATE_gate by first [lia | split; done]. split; [reflexivity|]. cbn. repeat split; try done. set_solver.
  - rewrite list_lookup_insert_ne by (unfold T_SYSCALL in *; lia). rewrite tvinit_loop_lookup, decide_True, Z2Nat.id by lia.
    cbn [fmap option_fmap option_map]. unfold compose. rewrite SETGATE_gate by first [lia | split; done]. split; [reflexivity|]. cbn. repeat split; try done. set_solver.
Qed.
Lemma idt_protects_witness : length (tvinit (fun n => 0x80105000 + 16 * n) (replicate 256 (SETGATE false 0 0 0))) = 256%nat.
Proof.
  destruct (idt_protects (fun n => 0x80105000 + 16 * n) (replicate 256 (SETGATE false 0 0 0)) 0x80114000 eq_refl ltac:(lia) ltac:(intros; lia)) as (_ & E & _).
  exact E.
Defined.
