(* ===== verification/Irq.v ===== *)
(** * Interrupt controllers, serial port, timer and the other processors
      (picirq.c, ioapic.c, lapic.c, uart.c, timer.c, startothers of main.c)

    These drivers only read and write device registers.  A device is hardware: what it answers
    to a read is an unknown function of all the accesses before it, so that a driver is a
    function from that history to a longer one.  IrqProps.v says what the histories mean to
    the controllers. *)

From S2P Require Import Prelude Layout.

Open Scope Z_scope.

(** An access to a port ([inb], [outb]) or to a device register or a word in memory. *)
Inductive access : Type :=
  | PortIn (port : Z)
  | PortOut (port v : Z)
  | MemRd (addr : Z)
  | MemWr (addr v : Z).

(** The accesses, the last first, the drivers' own variables and the messages printed. *)
Record io : Type := Io {
  hist : list access;
  irqmask : Z;
  uart : bool;
  cpunum_n : Z;
  said : list string
}.

Definition io_push (e : access) (s : io) : io := Io (e :: hist s) (irqmask s) (uart s) (cpunum_n s) (said s).
Definition set_irqmask (m : Z) (s : io) : io := Io (hist s) m (uart s) (cpunum_n s) (said s).
Definition set_uart (b : bool) (s : io) : io := Io (hist s) (irqmask s) b (cpunum_n s) (said s).
Definition count_cpunum (s : io) : io := Io (hist s) (irqmask s) (uart s) (s32 (cpunum_n s + 1)) (said s).
Definition io_say (m : string) (s : io) : io := Io (hist s) (irqmask s) (uart s) (cpunum_n s) (said s ++ [m]).

Definition IO_PIC1 : Z := 0x20.
Definition IO_PIC2 : Z := 0xA0.
Definition IRQ_SLAVE : Z := 2.

Definition IOAPIC : Z := 0xFEC00000.
Definition REG_ID : Z := 0x00.
Definition REG_VER : Z := 0x01.
Definition REG_TABLE : Z := 0x10.
Definition INT_DISABLED : Z := 0x00010000.

Definition COM1 : Z := 0x3f8.

Definition IO_TIMER1 : Z := 0x040.
Definition TIMER_FREQ : Z := 1193182.
Definition TIMER_DIV (x : Z) : Z := Z.quot (TIMER_FREQ + Z.quot x 2) x.
Definition TIMER_MODE : Z := IO_TIMER1 + 3.
Definition TIMER_SEL0 : Z := 0x00.
Definition TIMER_RATEGEN : Z := 0x04.
Definition TIMER_16BIT : Z := 0x30.

Definition LID : Z := 0x0020 / 4.
Definition VER : Z := 0x0030 / 4.
Definition TPR : Z := 0x0080 / 4.
Definition EOI : Z := 0x00B0 / 4.
Definition SVR : Z := 0x00F0 / 4.
Definition ENABLE : Z := 0x00000100.
Definition ESR : Z := 0x0280 / 4.
Definition ICRLO : Z := 0x0300 / 4.
Definition INIT : Z := 0x00000500.
Definition STARTUP : Z := 0x00000600.
Definition DELIVS : Z := 0x00001000.
Definition ASSERT : Z := 0x00004000.
Definition LEVEL : Z := 0x00008000.
Definition BCAST : Z := 0x00080000.
Definition ICRHI : Z := 0x0310 / 4.
Definition TIMER : Z := 0x0320 / 4.
Definition X1 : Z := 0x0000000B.
Definition PERIODIC : Z := 0x00020000.
Definition PCINT : Z := 0x0340 / 4.
Definition LINT0 : Z := 0x0350 / 4.
Definition LINT1 : Z := 0x0360 / 4.
Definition ERROR : Z := 0x0370 / 4.
Definition MASKED : Z := 0x00010000.
Definition TICR : Z := 0x0380 / 4.
Definition TDCR : Z := 0x03E0 / 4.
Definition IO_RTC : Z := 0x70.

Section Drivers.
(** What the hardware answers to a read of a port and of memory. *)
Context (port_answer mem_answer : list access -> Z -> Z).
(** What [mpinit] found (Mp.v). *)
Context (ismp : bool) (ioapicid lapic ncpu : Z).

#[local] Abbreviation D := (M io).

Definition outb (port v : Z) : D unit := modify (io_push (PortOut port (v mod 2 ^ 8))).
Definition inb (port : Z) : D Z := fun s => Ok (port_answer (hist s) port mod 2 ^ 8) (io_push (PortIn port) s).
Definition store (addr v : Z) : D unit := modify (io_push (MemWr addr v)).
Definition load (addr : Z) : D Z := fun s => Ok (u32 (mem_answer (hist s) addr)) (io_push (MemRd addr) s).

(** ** picirq.c *)

Definition picsetmask (mask : Z) : D unit :=
  modify (set_irqmask mask) ;;;
  outb (IO_PIC1 + 1) mask ;;;
  outb (IO_PIC2 + 1) (Z.shiftr mask 8).

Definition picenable (irq : Z) : D unit :=
  let! m := gets irqmask in
  picsetmask (Z.land m (Z.lnot (Z.shiftl 1 irq)) mod 2 ^ 16).

Definition picinit : D unit :=
  outb (IO_PIC1 + 1) 0xFF ;;;
  outb (IO_PIC2 + 1) 0xFF ;;;
  outb IO_PIC1 0x11 ;;;
  outb (IO_PIC1 + 1) T_IRQ0 ;;;
  outb (IO_PIC1 + 1) (Z.shiftl 1 IRQ_SLAVE) ;;;
  outb (IO_PIC1 + 1) 0x3 ;;;
  outb IO_PIC2 0x11 ;;;
  outb (IO_PIC2 + 1) (T_IRQ0 + 8) ;;;
  outb (IO_PIC2 + 1) IRQ_SLAVE ;;;
  outb (IO_PIC2 + 1) 0x3 ;;;
  outb IO_PIC1 0x68 ;;;
  outb IO_PIC1 0x0a ;;;
  outb IO_PIC2 0x68 ;;;
  outb IO_PIC2 0x0a ;;;
  let! m := gets irqmask in
  when (negb (m =? 0xFFFF)) (picsetmask m).

(** ** ioapic.c *)

Definition ioapicread (reg : Z) : D Z := store IOAPIC reg ;;; load (IOAPIC + 16).
Definition ioapicwrite (reg data : Z) : D unit := store IOAPIC reg ;;; store (IOAPIC + 16) (u32 data).

(** [for(i = 0; i <= maxintr; i++)], from [i] on with [n] entries to go *)
Fixpoint ioapic_loop (i : Z) (n : nat) : D unit :=
  match n with
  | O => ret tt
  | S n =>
      ioapicwrite (REG_TABLE + 2 * i) (Z.lor INT_DISABLED (T_IRQ0 + i)) ;;;
      ioapicwrite (REG_TABLE + 2 * i + 1) 0 ;;;
      ioapic_loop (i + 1) n
  end.

Definition ioapicinit : D unit :=
  if negb ismp then ret tt
  else
    let! v := ioapicread REG_VER in
    let maxintr := Z.land (Z.shiftr v 16) 0xFF in
    let! r := ioapicread REG_ID in
    let id := Z.shiftr r 24 in
    when (negb (id =? ioapicid)) (modify (io_say "ioapicinit: id isn't equal to ioapicid; not a MP")) ;;;
    ioapic_loop 0 (Z.to_nat (maxintr + 1)).

Definition ioapicenable (irq cpunum : Z) : D unit :=
  if negb ismp then ret tt
  else
    ioapicwrite (REG_TABLE + 2 * irq) (T_IRQ0 + irq) ;;;
    ioapicwrite (REG_TABLE + 2 * irq + 1) (Z.shiftl cpunum 24).

(** ** lapic.c *)

Definition lapicw (index value : Z) : D unit :=
  store (lapic + 4 * index) (u32 value) ;;;
  let! _ := load (lapic + 4 * LID) in
  ret tt.

(** [while(lapic[ICRLO] & DELIVS)] *)
Fixpoint delivery_wait (fuel : nat) : D unit :=
  match fuel with
  | O => nofuel
  | S fuel =>
      let! v := load (lapic + 4 * ICRLO) in
      if negb (Z.land v DELIVS =? 0) then delivery_wait fuel else ret tt
  end.

(** [lapicinit] up to the wait *)
Definition lapic_setup : D unit :=
  lapicw SVR (Z.lor ENABLE (T_IRQ0 + IRQ_SPURIOUS)) ;;;
  lapicw TDCR X1 ;;;
  lapicw TIMER (Z.lor PERIODIC (T_IRQ0 + IRQ_TIMER)) ;;;
  lapicw TICR 10000000 ;;;
  lapicw LINT0 MASKED ;;;
  lapicw LINT1 MASKED ;;;
  let! v := load (lapic + 4 * VER) in
  when (4 <=? Z.land (Z.shiftr v 16) 0xFF) (lapicw PCINT MASKED) ;;;
  lapicw ERROR (T_IRQ0 + IRQ_ERROR) ;;;
  lapicw ESR 0 ;;;
  lapicw ESR 0 ;;;
  lapicw EOI 0 ;;;
  lapicw ICRHI 0 ;;;
  lapicw ICRLO (Z.lor (Z.lor BCAST INIT) LEVEL).

Definition lapicinit (fuel : nat) : D unit :=
  if lapic =? 0 then ret tt
  else lapic_setup ;;; delivery_wait fuel ;;; lapicw TPR 0.

(** [fl_if] is the interrupt flag. *)
Definition cpunum (fl_if : bool) : D Z :=
  when fl_if
    (let! n := gets cpunum_n in
     modify count_cpunum ;;;
     when (n =? 0) (modify (io_say "cpu called from %x with interrupts enabled"))) ;;;
  if negb (lapic =? 0) then
    let! v := load (lapic + 4 * LID) in
    ret (Z.shiftr v 24)
  else ret 0.

Definition lapiceoi : D unit := when (negb (lapic =? 0)) (lapicw EOI 0).

Definition microdelay (us : Z) : D unit := ret tt.

(** [for(i = 0; i < 2; i++)] *)
Fixpoint startup_loop (apicid addr : Z) (n : nat) : D unit :=
  match n with
  | O => ret tt
  | S n =>
      lapicw ICRHI (Z.shiftl apicid 24) ;;;
      lapicw ICRLO (Z.lor STARTUP (Z.shiftr addr 12)) ;;;
      microdelay 200 ;;;
      startup_loop apicid addr n
  end.

(** The warm reset vector *)
Definition wrv : Z := p2v (Z.lor (Z.shiftl 0x40 4) 0x67).

Definition lapicstartap (apicid addr : Z) : D unit :=
  outb IO_RTC 0xF ;;;
  outb (IO_RTC + 1) 0x0A ;;;
  store wrv 0 ;;;
  store (wrv + 2) (Z.shiftr addr 4 mod 2 ^ 16) ;;;
  lapicw ICRHI (Z.shiftl apicid 24) ;;;
  lapicw ICRLO (Z.lor (Z.lor INIT LEVEL) ASSERT) ;;;
  microdelay 200 ;;;
  lapicw ICRLO (Z.lor INIT LEVEL) ;;;
  microdelay 100 ;;;
  startup_loop apicid addr 2.

(** ** uart.c *)

(** [for(i = 0; i < 128 && !(inb(COM1+5) & 0x20); i++)], [n] rounds to go *)
Fixpoint uart_wait (n : nat) : D unit :=
  match n with
  | O => ret tt
  | S n =>
      let! st := inb (COM1 + 5) in
      if Z.land st 0x20 =? 0 then microdelay 10 ;;; uart_wait n else ret tt
  end.

Definition uartputc (c : Z) : D unit :=
  let! u := gets uart in
  if negb u then ret tt else uart_wait 128 ;;; outb COM1 c.

Fixpoint uart_puts (l : list byte) : D unit :=
  match l with
  | [] => ret tt
  | c :: l => uartputc (b2z c) ;;; uart_puts l
  end.

Definition banner : list byte := String.list_byte_of_string "xv6..." ++ [Byte.x0a].

Definition uartinit : D unit :=
  outb (COM1 + 2) 0 ;;;
  outb (COM1 + 3) 0x80 ;;;
  outb COM1 (115200 / 9600) ;;;
  outb (COM1 + 1) 0 ;;;
  outb (COM1 + 3) 0x03 ;;;
  outb (COM1 + 4) 0 ;;;
  outb (COM1 + 1) 0x01 ;;;
  let! st := inb (COM1 + 5) in
  if st =? 0xFF then ret tt
  else
    modify (set_uart true) ;;;
    let! _ := inb (COM1 + 2) in
    let! _ := inb COM1 in
    picenable IRQ_COM1 ;;;
    ioapicenable IRQ_COM1 0 ;;;
    uart_puts banner.

Definition uartgetc : D Z :=
  let! u := gets uart in
  if negb u then ret (-1)
  else
    let! st := inb (COM1 + 5) in
    if Z.land st 0x01 =? 0 then ret (-1) else inb COM1.

(** ** timer.c *)

Definition timerinit : D unit :=
  outb TIMER_MODE (Z.lor (Z.lor TIMER_SEL0 TIMER_RATEGEN) TIMER_16BIT) ;;;
  outb IO_TIMER1 (Z.rem (TIMER_DIV 100) 256) ;;;
  outb IO_TIMER1 (Z.quot (TIMER_DIV 100) 256) ;;;
  picenable IRQ_TIMER.

(** ** main.c *)

(** What [consoleinit] and [ideinit] do to the controllers. *)
Definition consoleinit_irq : D unit := picenable IRQ_KBD ;;; ioapicenable IRQ_KBD 0.
Definition ideinit_irq : D unit := picenable IRQ_IDE ;;; ioapicenable IRQ_IDE (ncpu - 1).

(** The steps of [main] that concern interrupts, in its order. *)
Definition main_irq (fuel : nat) : D unit :=
  lapicinit fuel ;;;
  picinit ;;;
  ioapicinit ;;;
  consoleinit_irq ;;;
  uartinit ;;;
  ideinit_irq ;;;
  when (negb ismp) timerinit.

(** [while(c->started == 0)] *)
Fixpoint started_wait (addr : Z) (fuel : nat) : D unit :=
  match fuel with
  | O => nofuel
  | S fuel => let! v := load addr in if v =? 0 then started_wait addr fuel else ret tt
  end.

(** Where the entry code is copied to. *)
Definition ap_code : Z := p2v 0x7000.

(** A processor is told its stack, where to enter and its page directory ([mpenter] and
    [entrypgdir] are addresses), started and waited for. *)
Definition start_cpu (mpenter entrypgdir id started stack : Z) (fuel : nat) : D unit :=
  store (ap_code - 4) (u32 (stack + KSTACKSIZE)) ;;;
  store (ap_code - 8) mpenter ;;;
  store (ap_code - 12) (v2p entrypgdir) ;;;
  lapicstartap id (v2p ap_code) ;;;
  started_wait started fuel.

(** [for(c = cpus; c < cpus+ncpu; c++)]: the processors from number [i] on, each with its
    id, the address of its [started] flag and the stack that [kalloc] returns for it. *)
Fixpoint start_loop (mpenter entrypgdir : Z) (i : Z) (cs : list (Z * Z * Z)) (fuel : nat) : D unit :=
  match cs with
  | [] => ret tt
  | (id, started, stack) :: cs =>
      let! n := cpunum false in
      if i =? n then start_loop mpenter entrypgdir (i + 1) cs fuel
      else
        start_cpu mpenter entrypgdir id started stack fuel ;;;
        start_loop mpenter entrypgdir (i + 1) cs fuel
  end.

(** [memmove] of the entry code, a byte at a time *)
Fixpoint store_bytes (addr : Z) (bs : list byte) : D unit :=
  match bs with
  | [] => ret tt
  | b :: bs => store addr (b2z b) ;;; store_bytes (addr + 1) bs
  end.

Definition startothers (entryother : list byte) (mpenter entrypgdir : Z) (cs : list (Z * Z * Z)) (fuel : nat) : D unit :=
  store_bytes ap_code entryother ;;;
  start_loop mpenter entrypgdir 0 cs fuel.

End Drivers.
