(* ===== verification/IrqProps.v ===== *)
(** * What the controllers make of the accesses

    The two 8259A controllers, the I/O APIC and the local APIC, as their manuals describe the
    registers the kernel writes, read from the history of accesses; and the theorems about
    interrupts, the serial port and the start of the other processors. *)

From S2P Require Import Prelude Layout Irq.

Open Scope Z_scope.

(** ** The controllers *)

(** An 8259A: the initialisation word it expects next (0: none, it is in operation), its
    first vector, its cascade word and its mask. *)
Record pic : Type := Pic { p_next : nat; p_base : Z; p_cascade : Z; p_mask : Z }.

(** A write to the command port (ICW1 has bit 4; the other commands concern neither mask nor
    vectors), and to the data port. *)
Definition pic_command (v : Z) (p : pic) : pic := if Z.testbit v 4 then Pic 2 0 0 0 else p.
Definition pic_data (v : Z) (p : pic) : pic :=
  match p_next p with
  | 2%nat => Pic 3 (Z.land v 0xF8) (p_cascade p) (p_mask p)
  | 3%nat => Pic 4 (p_base p) v (p_mask p)
  | 4%nat => Pic 0 (p_base p) (p_cascade p) (p_mask p)
  | _ => Pic (p_next p) (p_base p) (p_cascade p) v
  end.

(** Both 8259As; the I/O APIC's selected register and its registers; the local APIC's
    registers; and the commands that the local APIC sent to processors, the last first, each
    with its destination word. *)
Record ctl : Type := Ctl {
  master : pic;
  slave : pic;
  io_sel : Z;
  io_reg : Z -> Z;
  lap : Z -> Z;
  ipis : list (Z * Z)
}.

Definition upd_reg (f : Z -> Z) (k v : Z) : Z -> Z := fun x => if x =? k then v else f x.

Definition set_master (f : pic -> pic) (c : ctl) : ctl := Ctl (f (master c)) (slave c) (io_sel c) (io_reg c) (lap c) (ipis c).
Definition set_slave (f : pic -> pic) (c : ctl) : ctl := Ctl (master c) (f (slave c)) (io_sel c) (io_reg c) (lap c) (ipis c).

Definition ctl_step (lapic : Z) (e : access) (c : ctl) : ctl :=
  match e with
  | PortOut p v =>
      if p =? IO_PIC1 then set_master (pic_command v) c
      else if p =? IO_PIC1 + 1 then set_master (pic_data v) c
      else if p =? IO_PIC2 then set_slave (pic_command v) c
      else if p =? IO_PIC2 + 1 then set_slave (pic_data v) c
      else c
  | MemWr a v =>
      if a =? IOAPIC then Ctl (master c) (slave c) v (io_reg c) (lap c) (ipis c)
      else if a =? IOAPIC + 16 then Ctl (master c) (slave c) (io_sel c) (upd_reg (io_reg c) (io_sel c) v) (lap c) (ipis c)
      else if (lapic <=? a) && (a <? lapic + 4096) then
        Ctl (master c) (slave c) (io_sel c) (io_reg c) (upd_reg (lap c) ((a - lapic) / 4) v)
          (if (a - lapic) / 4 =? ICRLO then (lap c ICRHI, v) :: ipis c else ipis c)
      else c
  | _ => c
  end.

Definition reset : ctl := Ctl (Pic 1 0 0 0) (Pic 1 0 0 0) 0 (fun _ => 0) (fun _ => 0) [].

(** The state after a history. *)
Definition ctl_of (lapic : Z) (h : list access) : ctl := foldr (ctl_step lapic) reset h.

#[global] Arguments ctl_of _ _ : simpl never.

Lemma ctl_cons lapic e h : ctl_of lapic (e :: h) = ctl_step lapic e (ctl_of lapic h).
Proof. done. Qed.

Lemma step_command1 lapic v c : ctl_step lapic (PortOut IO_PIC1 v) c = set_master (pic_command v) c.
Proof. done. Qed.
Lemma step_data1 lapic v c : ctl_step lapic (PortOut (IO_PIC1 + 1) v) c = set_master (pic_data v) c.
Proof. done. Qed.
Lemma step_command2 lapic v c : ctl_step lapic (PortOut IO_PIC2 v) c = set_slave (pic_command v) c.
Proof. done. Qed.
Lemma step_data2 lapic v c : ctl_step lapic (PortOut (IO_PIC2 + 1) v) c = set_slave (pic_data v) c.
Proof. done. Qed.

Create Rewrite HintDb ctl.
Hint Rewrite ctl_cons step_command1 step_data1 step_command2 step_data2 : ctl.

(** A line of the 8259As: whether it is held back, and the vector it interrupts with. *)
Definition pic_of (c : ctl) (irq : Z) : pic := if irq <? 8 then master c else slave c.
Definition line_masked (c : ctl) (irq : Z) : bool := Z.testbit (p_mask (pic_of c irq)) (irq mod 8).
Definition line_vector (c : ctl) (irq : Z) : Z := p_base (pic_of c irq) + irq mod 8.

(** An entry of the I/O APIC: whether it is off, its vector and its processor. *)
Definition entry_off (c : ctl) (irq : Z) : bool := Z.testbit (io_reg c (REG_TABLE + 2 * irq)) 16.
Definition entry_vector (c : ctl) (irq : Z) : Z := io_reg c (REG_TABLE + 2 * irq) mod 256.
Definition entry_cpu (c : ctl) (irq : Z) : Z := Z.shiftr (io_reg c (REG_TABLE + 2 * irq + 1)) 24.

Definition with_pics (m : Z) (c : ctl) : ctl :=
  Ctl (Pic 0 T_IRQ0 (2 ^ IRQ_SLAVE) (m mod 2 ^ 8)) (Pic 0 (T_IRQ0 + 8) IRQ_SLAVE (m / 2 ^ 8)) (io_sel c) (io_reg c) (lap c) (ipis c).
Definition io_put (reg v : Z) (c : ctl) : ctl := Ctl (master c) (slave c) reg (upd_reg (io_reg c) reg v) (lap c) (ipis c).
Definition lap_put (i v : Z) (c : ctl) : ctl :=
  Ctl (master c) (slave c) (io_sel c) (io_reg c) (upd_reg (lap c) i v) (if i =? ICRLO then (lap c ICRHI, v) :: ipis c else ipis c).

(** The local APIC's page does not hold the I/O APIC's two registers. *)
Definition apart (lapic : Z) : Prop := 0 <= lapic /\ (lapic + 4096 <= IOAPIC \/ IOAPIC + 16 < lapic).

(** Reading a word until its value is as wanted, as it is after some reads. *)
Inductive polled (mem_answer : list access -> Z -> Z) (addr : Z) (P : Z -> bool) : list access -> Prop :=
  | polled_now h : P (u32 (mem_answer h addr)) = true -> polled mem_answer addr P h
  | polled_later h : polled mem_answer addr P (MemRd addr :: h) -> polled mem_answer addr P h.

(** The local APIC delivers its command. *)
Definition delivered (mem_answer : list access -> Z -> Z) (lapic : Z) : list access -> Prop :=
  polled mem_answer (lapic + 4 * ICRLO) (fun v => Z.land v DELIVS =? 0).

(** Cases on the comparisons in the goal. *)
Ltac zcases :=
  repeat match goal with
  | |- context [?a <=? ?b] => destruct (Z.leb_spec a b)
  | |- context [?a <? ?b] => destruct (Z.ltb_spec a b)
  | |- context [?a =? ?b] => destruct (Z.eqb_spec a b)
  end.

Lemma disabled_entry i : 0 <= i < 256 -> Z.lor INT_DISABLED (T_IRQ0 + i) = 2 ^ 16 + (T_IRQ0 + i).
Proof. intros Hi. unfold INT_DISABLED, T_IRQ0. apply (lor_disjoint (2 ^ 16) _ 16); [lia|lia|done]. Qed.

(** What [ioapic_loop] leaves in a register. *)
Definition entry_reset (lo hi : Z) (r : Z -> Z) (j : Z) : Z :=
  if (REG_TABLE + 2 * lo <=? j) && (j <? REG_TABLE + 2 * hi) then
    (if Z.even j then Z.lor INT_DISABLED (T_IRQ0 + (j - REG_TABLE) / 2) else 0)
  else r j.

Lemma reset_low m r i : 0 <= i < m -> m <= 256 -> entry_reset 0 m r (REG_TABLE + 2 * i) = 2 ^ 16 + (T_IRQ0 + i).
Proof.
  intros Hi Hm. unfold entry_reset, REG_TABLE. zcases; try lia. cbn [andb]. replace (16 + 2 * i) with (2 * (8 + i)) by lia. rewrite Z.even_mul. cbn [Z.even orb].
  replace ((2 * (8 + i) - 16) / 2) with i by (Z.to_euclidean_division_equations; lia). apply disabled_entry. lia.
Qed.

Lemma reset_high m r i : 0 <= i < m -> entry_reset 0 m r (REG_TABLE + 2 * i + 1) = 0.
Proof.
  intros Hi. unfold entry_reset, REG_TABLE. zcases; try lia. cbn [andb]. replace (16 + 2 * i + 1) with (2 * (8 + i) + 1) by lia. by rewrite Z.even_add, Z.even_mul.
Qed.

Section Specs.
Context (port_answer mem_answer : list access -> Z -> Z) (ismp : bool) (ioapicid lapic ncpu : Z).

#[local] Abbreviation view := (fun s => ctl_of lapic (hist s)).

(** The drivers' variables are as before. *)
Definition kept (s s' : io) : Prop := irqmask s' = irqmask s /\ uart s' = uart s.

Lemma kept_trans s1 s2 s3 : kept s1 s2 -> kept s2 s3 -> kept s1 s3.
Proof. unfold kept. intuition congruence. Qed.

Lemma wp_inb p s (Q : Z -> io -> Prop) : Q (port_answer (hist s) p mod 2 ^ 8) (io_push (PortIn p) s) -> wp (inb port_answer p) s Q.
Proof. done. Qed.

Lemma wp_load a s (Q : Z -> io -> Prop) : Q (u32 (mem_answer (hist s) a)) (io_push (MemRd a) s) -> wp (load mem_answer a) s Q.
Proof. done. Qed.

Lemma wp_outb p v s (Q : unit -> io -> Prop) : Q tt (io_push (PortOut p (v mod 2 ^ 8)) s) -> wp (outb p v) s Q.
Proof. done. Qed.

Lemma wp_store a v s (Q : unit -> io -> Prop) : Q tt (io_push (MemWr a v) s) -> wp (store a v) s Q.
Proof. done. Qed.

Ltac io_step :=
  lazymatch goal with
  | |- wp (outb _ _) _ _ => apply wp_outb
  | |- wp (store _ _) _ _ => apply wp_store
  | |- wp (inb _ _) _ _ => apply wp_inb
  | |- wp (load _ _) _ _ => apply wp_load
  | |- _ => wp_step
  end.

Lemma picsetmask_spec m m0 s c : view s = with_pics m0 c -> 0 <= m < 2 ^ 16 ->
  wp (picsetmask m) s (fun _ s' => view s' = with_pics m c /\ irqmask s' = m /\ uart s' = uart s).
Proof.
  intros E Hm. unfold picsetmask. repeat io_step. cbn [hist irqmask uart io_push set_irqmask]. autorewrite with ctl. rewrite E. unfold with_pics, set_master, set_slave.
  cbn [master slave io_sel io_reg lap ipis pic_data p_next p_base p_cascade p_mask]. repeat split. do 2 f_equal.
  rewrite Z.shiftr_div_pow2 by lia. change (Z.pow_pos 2 8) with (2 ^ 8). apply Z.mod_small. split; [apply Z.div_pos; lia|apply Z.div_lt_upper_bound; lia].
Qed.

Lemma picenable_spec irq s c : view s = with_pics (irqmask s) c ->
  wp (picenable irq) s (fun _ s' => view s' = with_pics (irqmask s') c /\ irqmask s' = Z.land (irqmask s) (Z.lnot (Z.shiftl 1 irq)) mod 2 ^ 16 /\ uart s' = uart s).
Proof.
  intros E. unfold picenable. apply wp_bind, wp_gets. eapply wp_mono; [apply (picsetmask_spec _ _ _ c E), Z.mod_pos_bound; lia|].
  intros _ s' (V & M & U). by rewrite M.
Qed.

Lemma picinit_spec s : 0 <= irqmask s < 2 ^ 16 - 1 -> wp picinit s (fun _ s' => view s' = with_pics (irqmask s) (view s) /\ kept s s').
Proof.
  intros Hm. unfold picinit. do 29 io_step. apply wp_when. change (irqmask _) with (irqmask s).
  rewrite (proj2 (Z.eqb_neq (irqmask s) 0xFFFF)) by lia. cbn [negb].
  eapply wp_mono; [apply (picsetmask_spec _ 0 _ (view s)); [reflexivity|lia]|]. intros _ s' (V & M & U). by rewrite V.
Qed.

(** ** The I/O APIC *)

Lemma ioapicwrite_spec reg v s : wp (ioapicwrite reg v) s (fun _ s' => view s' = io_put reg (u32 v) (view s) /\ kept s s').
Proof. unfold ioapicwrite. by repeat io_step. Qed.

Lemma ioapicread_spec reg s : wp (ioapicread mem_answer reg) s (fun r s' =>
  r = u32 (mem_answer (MemWr IOAPIC reg :: hist s) (IOAPIC + 16)) /\
  view s' = Ctl (master (view s)) (slave (view s)) reg (io_reg (view s)) (lap (view s)) (ipis (view s)) /\ kept s s').
Proof. unfold ioapicread. by repeat io_step. Qed.

Definition io_same (c c' : ctl) : Prop := master c' = master c /\ slave c' = slave c /\ lap c' = lap c /\ ipis c' = ipis c.

Lemma ioapic_loop_spec n : forall i s, 0 <= i -> i + Z.of_nat n <= 256 ->
  wp (ioapic_loop i n) s (fun _ s' => (forall j, io_reg (view s') j = entry_reset i (i + Z.of_nat n) (io_reg (view s)) j) /\ io_same (view s) (view s') /\ kept s s').
Proof.
  induction n as [|n IH]; intros i s Hi Hn; cbn [ioapic_loop].
  - apply wp_ret. split; [|done]. intros j. unfold entry_reset. destruct (_ && _) eqn:E; bool_hyps; [lia|done].
  - apply wp_bind. wp_use ioapicwrite_spec. intros _ s1 [V1 K1]. apply wp_bind. wp_use ioapicwrite_spec. intros _ s2 [V2 K2].
    eapply wp_mono; [apply IH; lia|]. intros _ s3 (R & S & K3). split_and!; [|by rewrite V1 in V2; rewrite V2 in S|eauto using kept_trans].
    intros j. rewrite R, V2, V1. unfold entry_reset, io_put, upd_reg. cbn [io_reg].
    destruct (Z.eqb_spec j (REG_TABLE + 2 * i)) as [->|N0]; [|destruct (Z.eqb_spec j (REG_TABLE + 2 * i + 1)) as [->|N1]].
    + zcases; try lia. cbn [andb].
      replace (REG_TABLE + 2 * i) with (2 * (8 + i)) by (unfold REG_TABLE; lia). rewrite Z.even_mul. cbn [Z.even orb].
      replace ((2 * (8 + i) - REG_TABLE) / 2) with i by (unfold REG_TABLE; Z.to_euclidean_division_equations; lia).
      rewrite disabled_entry by lia. apply u32_small. unfold T_IRQ0. lia.
    + zcases; try lia. cbn [andb].
      replace (REG_TABLE + 2 * i + 1) with (2 * (8 + i) + 1) by (unfold REG_TABLE; lia). by rewrite Z.even_add, Z.even_mul.
    + zcases; cbn [andb]; try done; lia.
Qed.
Definition maxintr (version : Z) : Z := Z.land (Z.shiftr (u32 version) 16) 0xFF.

Lemma maxintr_range v : 0 <= maxintr v < 256.
Proof. unfold maxintr. change 0xFF with (2 ^ 8 - 1). rewrite land_ones_mod by lia. apply Z.mod_pos_bound. lia. Qed.

Lemma ioapicinit_spec version s : (forall h, mem_answer (MemWr IOAPIC REG_VER :: h) (IOAPIC + 16) = version) ->
  wp (ioapicinit mem_answer ismp ioapicid) s (fun _ s' =>
    (forall j, io_reg (view s') j = if ismp then entry_reset 0 (maxintr version + 1) (io_reg (view s)) j else io_reg (view s) j) /\
    io_same (view s) (view s') /\ kept s s').
Proof.
  intros Hv. unfold ioapicinit. destruct ismp; cbn [negb]; [|by apply wp_ret].
  apply wp_bind. wp_use ioapicread_spec. intros r s1 (-> & V1 & K1). rewrite Hv. fold (maxintr version).
  apply wp_bind. wp_use ioapicread_spec. intros r s2 (_ & V2 & K2). pose proof (maxintr_range version).
  apply wp_bind, wp_when. assert (E : io_reg (view s2) = io_reg (view s) /\ io_same (view s) (view s2)) by (rewrite V2; cbn; by rewrite V1).
  assert (P : forall s3, hist s3 = hist s2 -> kept s2 s3 -> wp (ioapic_loop 0 (Z.to_nat (maxintr version + 1))) s3 (fun _ s' =>
    (forall j, io_reg (view s') j = entry_reset 0 (maxintr version + 1) (io_reg (view s)) j) /\ io_same (view s) (view s') /\ kept s s')).
  { intros s3 E3 K3. eapply wp_mono; [apply ioapic_loop_spec; lia|]. intros _ s4 (R & I & K4). rewrite E3 in *.
    replace (0 + Z.of_nat (Z.to_nat (maxintr version + 1))) with (maxintr version + 1) in R by lia. destruct E as [E1 E2]. rewrite E1 in R.
    split_and!; [done| |eauto using kept_trans]. unfold io_same in *. intuition congruence. }
  destruct (negb _); [apply wp_modify|]; (apply P; [reflexivity|split; reflexivity]).
Qed.

Lemma ioapicenable_spec irq cpu s : wp (ioapicenable ismp irq cpu) s (fun _ s' => kept s s' /\
  view s' = if ismp then io_put (REG_TABLE + 2 * irq + 1) (u32 (Z.shiftl cpu 24)) (io_put (REG_TABLE + 2 * irq) (u32 (T_IRQ0 + irq)) (view s)) else view s).
Proof.
  unfold ioapicenable. destruct ismp; cbn [negb]; [|by apply wp_ret].
  apply wp_bind. wp_use ioapicwrite_spec. intros _ s1 [V1 K1]. wp_use ioapicwrite_spec. intros _ s2 [V2 K2]. rewrite V2, V1. eauto using kept_trans.
Qed.

(** ** The local APIC *)

Lemma lapicw_spec i v s : apart lapic -> 0 <= i < 1024 ->
  wp (lapicw mem_answer lapic i v) s (fun _ s' => view s' = lap_put i (u32 v) (view s) /\ kept s s').
Proof.
  intros [L A] Hi. unfold lapicw. repeat io_step. cbn [hist io_push]. rewrite !ctl_cons. split; [|done]. cbn [ctl_step]. unfold IOAPIC in *.
  replace ((lapic + 4 * i - lapic) / 4) with i by (Z.to_euclidean_division_equations; lia).
  unfold lap_put. zcases; try lia; done.
Qed.

Lemma delivery_wait_spec s : delivered mem_answer lapic (hist s) -> exists n0, forall n, (n0 <= n)%nat ->
  wp (delivery_wait mem_answer lapic n) s (fun _ s' => view s' = view s /\ kept s s').
Proof.
  intros H. remember (hist s) as h eqn:E. revert s E. induction H as [h H|h H IH]; intros s ->.
  - exists 1%nat. intros [|n] Hn; [lia|]. cbn [delivery_wait]. repeat io_step. cbv beta in H. by rewrite H.
  - destruct (IH (io_push (MemRd (lapic + 4 * ICRLO)) s) eq_refl) as [n0 W]. exists (S n0). intros [|n] Hn; [lia|]. cbn [delivery_wait]. repeat io_step.
    destruct (negb _); [|by apply wp_ret]. eapply wp_mono; [apply W; lia|]. done.
Qed.

(** The timer of the processor runs and its error line is set up; its other lines are off. *)
Definition ticking (r : Z -> Z) : Prop :=
  r SVR = 0x100 + (T_IRQ0 + IRQ_SPURIOUS) /\ r TIMER = PERIODIC + (T_IRQ0 + IRQ_TIMER) /\ r TICR = 10000000 /\
  r LINT0 = MASKED /\ r LINT1 = MASKED /\ r ERROR = T_IRQ0 + IRQ_ERROR.

Definition lap_same (c c' : ctl) : Prop := master c' = master c /\ slave c' = slave c /\ io_reg c' = io_reg c.

Ltac lapicw_step :=
  lazymatch goal with |- wp (bind _ _) _ _ => apply wp_bind | _ => idtac end; eapply wp_mono; [apply lapicw_spec; [assumption|split; done]|]; cbv beta; intros _ ? [? ?].

Lemma lapic_setup_spec s : apart lapic ->
  wp (lapic_setup mem_answer lapic) s (fun _ s' => ticking (lap (view s')) /\ lap_same (view s) (view s') /\ kept s s').
Proof.
  intros A. unfold lapic_setup.
  do 6 lapicw_step. apply wp_bind, wp_load, wp_bind, wp_when. destruct (4 <=? _); repeat lapicw_step.
  all: cbn [hist io_push] in *; rewrite ?ctl_cons in *; cbn [ctl_step] in *.
  all: (split; [|split; [|unfold kept in *; cbn [irqmask uart io_push] in *; intuition congruence]]).
  all: repeat match goal with V : ctl_of _ (hist ?x) = _ |- context [ctl_of _ (hist ?x)] => rewrite V end; done.
Qed.

Lemma lapicinit_spec s : apart lapic -> (forall h, delivered mem_answer lapic h) -> exists n0, forall n, (n0 <= n)%nat ->
  wp (lapicinit mem_answer lapic n) s (fun _ s' => (lapic <> 0 -> ticking (lap (view s')) /\ lap (view s') TPR = 0) /\ lap_same (view s) (view s') /\ kept s s').
Proof.
  intros A Dl. unfold lapicinit. destruct (Z.eqb_spec lapic 0) as [E|N]; [exists 0%nat; intros n _; by apply wp_ret|].
  destruct (proj1 (wp_Ok _ _ _) (lapic_setup_spec s A)) as ([] & s1 & E1 & T1 & S1 & K1).
  destruct (delivery_wait_spec s1 (Dl _)) as [n0 W]. exists n0. intros n Hn. unfold wp. rewrite (bind_Ok _ _ _ _ _ E1).
  change (wp (delivery_wait mem_answer lapic n ;;; lapicw mem_answer lapic TPR 0) s1 (fun _ s' =>
    (lapic <> 0 -> ticking (lap (view s')) /\ lap (view s') TPR = 0) /\ lap_same (view s) (view s') /\ kept s s')).
  apply wp_bind. eapply wp_mono; [apply W, Hn|]. intros _ s2 [V2 K2]. lapicw_step. rename select (_ = lap_put _ _ _) into V.
  rewrite V, V2. split_and!; [by intros _|done|eauto using kept_trans].
Qed.

(** ** The serial port *)

(** Whether the port takes a character after a history. *)
Definition transmits (h : list access) : bool := negb (Z.land (port_answer h (COM1 + 5) mod 2 ^ 8) 0x20 =? 0).

Lemma uart_wait_spec n : forall s, wp (uart_wait port_answer n) s (fun _ s' => exists k,
  (k <= n)%nat /\ s' = Io (replicate k (PortIn (COM1 + 5)) ++ hist s) (irqmask s) (uart s) (cpunum_n s) (said s) /\
  (forall j, (S j < k)%nat -> transmits (replicate j (PortIn (COM1 + 5)) ++ hist s) = false) /\
  ((0 < k)%nat /\ transmits (replicate (k - 1) (PortIn (COM1 + 5)) ++ hist s) = true \/ k = n)).
Proof.
  induction n as [|n IH]; intros s; cbn [uart_wait].
  - apply wp_ret. exists 0%nat. destruct s. split_and!; [lia|done|lia|by right].
  - repeat io_step. destruct (Z.land _ 0x20 =? 0) eqn:E.
    + unfold microdelay. repeat io_step. wp_use IH. intros _ s' (k & Hk & -> & B & R). exists (S k). cbn [hist io_push irqmask uart cpunum_n said] in *.
      assert (C : forall j, replicate j (PortIn (COM1 + 5)) ++ PortIn (COM1 + 5) :: hist s = replicate (S j) (PortIn (COM1 + 5)) ++ hist s).
      { intros j. rewrite replicate_S_end. by rewrite <- app_assoc. }
      split_and!; [lia|by rewrite C| |].
      * intros [|j] Hj; [unfold transmits; cbn; by rewrite E|]. rewrite <- C. apply B. lia.
      * destruct R as [[Pk R]|R]; [left|right; lia]. split; [lia|]. rewrite C in R. by replace (S k - 1)%nat with (S (k - 1)) by lia.
    + apply wp_ret. exists 1%nat. split_and!; [lia|done|intros j Hj; lia|left]. split; [lia|]. unfold transmits. cbn. by rewrite E.
Qed.

Lemma polls_view k p h : ctl_of lapic (replicate k (PortIn p) ++ h) = ctl_of lapic h.
Proof. induction k; [done|]. cbn [replicate app]. rewrite ctl_cons. done. Qed.

Lemma uartputc_view ch s : wp (uartputc port_answer ch) s (fun _ s' => view s' = view s /\ kept s s').
Proof.
  unfold uartputc. repeat io_step. destruct (uart s); cbn [negb]; [|by apply wp_ret]. apply wp_bind. wp_use uart_wait_spec.
  intros _ s' (k & _ & -> & _). apply wp_outb. cbn [hist io_push]. by rewrite ctl_cons, polls_view.
Qed.

Lemma uart_puts_view l : forall s, wp (uart_puts port_answer l) s (fun _ s' => view s' = view s /\ kept s s').
Proof.
  induction l as [|ch l IH]; intros s; cbn [uart_puts]; [by apply wp_ret|]. apply wp_bind. wp_use uartputc_view. intros _ s1 [V1 K1].
  wp_use IH. intros _ s2 [V2 K2]. rewrite V2, V1. eauto using kept_trans.
Qed.

(** Lines enabled at both controllers. *)
Definition enabled (irq cpu : Z) (c : ctl) : ctl :=
  if ismp then io_put (REG_TABLE + 2 * irq + 1) (u32 (Z.shiftl cpu 24)) (io_put (REG_TABLE + 2 * irq) (u32 (T_IRQ0 + irq)) c) else c.
Definition unmask (m irq : Z) : Z := Z.land m (Z.lnot (Z.shiftl 1 irq)) mod 2 ^ 16.

Lemma enable_spec irq cpu s c : view s = with_pics (irqmask s) c ->
  wp (picenable irq ;;; ioapicenable ismp irq cpu) s (fun _ s' =>
    view s' = with_pics (irqmask s') (enabled irq cpu c) /\ irqmask s' = unmask (irqmask s) irq /\ uart s' = uart s).
Proof.
  intros V. apply wp_bind. eapply wp_mono; [apply (picenable_spec _ _ c V)|]. intros _ s1 (V1 & M1 & U1).
  wp_use ioapicenable_spec. intros _ s2 [[KM KU] V2]. rewrite V2, V1, KM, KU, M1. unfold enabled. by destruct ismp.
Qed.

Lemma uartinit_spec s c : view s = with_pics (irqmask s) c -> uart s = false ->
  wp (uartinit port_answer ismp) s (fun _ s' =>
    view s' = with_pics (irqmask s') (if uart s' then enabled IRQ_COM1 0 c else c) /\
    irqmask s' = if uart s' then unmask (irqmask s) IRQ_COM1 else irqmask s).
Proof.
  intros V U. unfold uartinit. do 16 io_step. destruct (_ =? 0xFF).
  - apply wp_ret. cbn [uart hist io_push irqmask]. by rewrite U, !ctl_cons.
  - do 6 io_step.
    match goal with |- wp (picenable _ ;;; ioapicenable _ _ _ ;;; _) ?s1 _ => assert (V1 : view s1 = with_pics (irqmask s1) c) by (cbn [hist io_push]; by rewrite !ctl_cons) end.
    apply wp_bind. eapply wp_mono; [exact (wp_bind_inv _ _ _ _ (enable_spec IRQ_COM1 0 _ _ V1))|]. intros u s2 W. apply wp_bind. eapply wp_mono; [exact W|].
    intros _ s3 (V3 & M3 & U3). wp_use uart_puts_view. intros _ s4 [V4 [KM KU]]. rewrite V4, KM, KU, V3, M3, U3. done.
Qed.

Lemma timerinit_spec s c : view s = with_pics (irqmask s) c ->
  wp timerinit s (fun _ s' => view s' = with_pics (irqmask s') c /\ irqmask s' = unmask (irqmask s) IRQ_TIMER /\ uart s' = uart s).
Proof.
  intros V. unfold timerinit. do 6 io_step. eapply wp_mono; [apply (picenable_spec _ _ c)|done]. cbn [hist io_push]. by rewrite !ctl_cons.
Qed.

(** The lines that the kernel leaves on. *)
Definition irqs_on (u : bool) : list Z := [IRQ_KBD; IRQ_IDE] ++ (if u then [IRQ_COM1] else []).

Lemma main_irq_spec version s : apart lapic -> (forall h, delivered mem_answer lapic h) ->
  (forall h, mem_answer (MemWr IOAPIC REG_VER :: h) (IOAPIC + 16) = version) -> irqmask s = 0xFFFB -> uart s = false ->
  exists n0, forall n, (n0 <= n)%nat -> wp (main_irq port_answer mem_answer ismp ioapicid lapic ncpu n) s (fun _ s' => exists c,
    view s' = with_pics (irqmask s') (enabled IRQ_IDE (ncpu - 1) (if uart s' then enabled IRQ_COM1 0 (enabled IRQ_KBD 0 c) else enabled IRQ_KBD 0 c)) /\
    irqmask s' = fold_left unmask (IRQ_KBD :: (if uart s' then [IRQ_COM1] else []) ++ IRQ_IDE :: (if ismp then [] else [IRQ_TIMER])) 0xFFFB /\
    (ismp = true -> forall j, io_reg c j = entry_reset 0 (maxintr version + 1) (io_reg (view s)) j) /\
    (lapic <> 0 -> ticking (lap c) /\ lap c TPR = 0)).
Proof.
  intros A Dl Hv M0 U0. destruct (lapicinit_spec s A Dl) as [n0 W]. exists n0. intros n Hn. unfold main_irq.
  apply wp_bind. eapply wp_mono; [apply W, Hn|]. intros _ s1 (T1 & (_ & _ & S1) & [M1 U1]). rewrite M0 in M1. rewrite U0 in U1.
  apply wp_bind. eapply wp_mono; [apply picinit_spec; rewrite M1; lia|]. intros _ s2 (V2 & [M2 U2]). rewrite M1 in *. rewrite U1 in U2.
  apply wp_bind. eapply wp_mono; [apply (ioapicinit_spec version _ Hv)|]. intros _ s3 (R3 & S3 & [M3 U3]). rewrite M2 in M3. rewrite U2 in U3. rewrite V2 in *.
  assert (V3 : view s3 = with_pics (irqmask s3) (view s3)).
  { destruct S3 as (E1 & E2 & _). rewrite M3. destruct (ctl_of lapic (hist s3)). cbn in *. by subst. }
  unfold consoleinit_irq, ideinit_irq.
  apply wp_bind. eapply wp_mono; [apply (enable_spec _ _ _ _ V3)|]. intros _ s4 (V4 & M4 & U4). rewrite U3 in U4. rewrite M3 in M4.
  apply wp_bind. eapply wp_mono; [apply (uartinit_spec _ _ V4 U4)|]. intros _ s5 (V5 & M5). rewrite M4 in M5.
  apply wp_bind. eapply wp_mono; [apply (enable_spec _ _ _ _ V5)|]. intros _ s6 (V6 & M6 & U6). rewrite M5 in M6. rewrite <- U6 in *.
  apply wp_when. destruct ismp eqn:EI; cbn [negb].
  - exists (view s3). rewrite V6, M6. split_and!; [done|by destruct (uart s6)| |].
    + intros _ j. rewrite R3. cbn [io_reg with_pics]. by rewrite S1.
    + destruct S3 as (_ & _ & -> & _). done.
  - eapply wp_mono; [apply (timerinit_spec _ _ V6)|]. intros _ s7 (V7 & M7 & U7). exists (view s3). rewrite V7, M7, M6, U7.
    split_and!; [done|by destruct (uart s6)|done|]. destruct S3 as (_ & _ & -> & _). done.
Qed.

Lemma enabled_low irq cpu c i : ismp = true ->
  io_reg (enabled irq cpu c) (REG_TABLE + 2 * i) = if i =? irq then u32 (T_IRQ0 + irq) else io_reg c (REG_TABLE + 2 * i).
Proof. intros E. unfold enabled. rewrite E. cbn [io_reg io_put]. unfold upd_reg, REG_TABLE. zcases; try done; lia. Qed.

Lemma enabled_high irq cpu c i : ismp = true ->
  io_reg (enabled irq cpu c) (REG_TABLE + 2 * i + 1) = if i =? irq then u32 (Z.shiftl cpu 24) else io_reg c (REG_TABLE + 2 * i + 1).
Proof. intros E. unfold enabled. rewrite E. cbn [io_reg io_put]. unfold upd_reg, REG_TABLE. zcases; try done; lia. Qed.

End Specs.

(** An entry that is off and one that is on. *)
Lemma off_bit v : 0 <= v < 2 ^ 8 -> Z.testbit (2 ^ 16 + v) 16 = true /\ Z.testbit v 16 = false.
Proof.
  intros Hv. split; [apply Z.testbit_true; [lia|]|apply Z.testbit_false; [lia|]].
  - replace ((2 ^ 16 + v) / 2 ^ 16) with 1 by (Z.to_euclidean_division_equations; lia). done.
  - by rewrite Z.div_small by lia.
Qed.

Lemma lines_open (u mp : bool) c irq : 0 <= irq < 16 ->
  let m := fold_left unmask (IRQ_KBD :: (if u then [IRQ_COM1] else []) ++ IRQ_IDE :: (if mp then [] else [IRQ_TIMER])) 0xFFFB in
  line_vector (with_pics m c) irq = T_IRQ0 + irq /\
  line_masked (with_pics m c) irq = negb (bool_decide (irq ∈ IRQ_SLAVE :: irqs_on u ++ (if mp then [] else [IRQ_TIMER]))).
Proof.
  intros Hi. assert (In : irq ∈ seqZ 0 16) by (apply elem_of_seqZ; lia). clear Hi. revert irq In. apply Forall_forall. destruct u, mp; repeat constructor.
Qed.

Lemma entries_on cpu0 (u : bool) c m r irq : (forall j, io_reg c j = entry_reset 0 m r j) -> m <= 224 -> 0 <= irq < m -> 0 <= cpu0 < 2 ^ 8 ->
  let c := enabled true IRQ_IDE cpu0 (if u then enabled true IRQ_COM1 0 (enabled true IRQ_KBD 0 c) else enabled true IRQ_KBD 0 c) in
  entry_vector c irq = T_IRQ0 + irq /\ entry_off c irq = negb (bool_decide (irq ∈ irqs_on u)) /\ entry_cpu c irq = if irq =? IRQ_IDE then cpu0 else 0.
Proof.
  intros R Hm Hi Hc. cbn zeta. unfold entry_vector, entry_off, entry_cpu.
  assert (Low : io_reg (enabled true IRQ_IDE cpu0 (if u then enabled true IRQ_COM1 0 (enabled true IRQ_KBD 0 c) else enabled true IRQ_KBD 0 c)) (REG_TABLE + 2 * irq) =
    if bool_decide (irq ∈ irqs_on u) then T_IRQ0 + irq else 2 ^ 16 + (T_IRQ0 + irq)).
  { destruct u; rewrite !enabled_low by done; rewrite R, reset_low by lia; unfold irqs_on, IRQ_IDE, IRQ_COM1, IRQ_KBD, T_IRQ0; cbn [app].
    all: zcases; subst; try reflexivity; rewrite bool_decide_eq_false_2; [done|set_solver]. }
  assert (High : io_reg (enabled true IRQ_IDE cpu0 (if u then enabled true IRQ_COM1 0 (enabled true IRQ_KBD 0 c) else enabled true IRQ_KBD 0 c)) (REG_TABLE + 2 * irq + 1) =
    if irq =? IRQ_IDE then Z.shiftl cpu0 24 else 0).
  { destruct u; rewrite !enabled_high by done; rewrite R, reset_high by lia; zcases; try done; rewrite Z.shiftl_mul_pow2 by lia; apply u32_small; lia. }
  rewrite Low, High. destruct (off_bit (T_IRQ0 + irq) ltac:(unfold T_IRQ0; lia)) as [On Off]. split_and!.
  - destruct (bool_decide _); [apply Z.mod_small; unfold T_IRQ0; lia|]. unfold T_IRQ0 in *. rewrite Z.add_comm. change (2 ^ 16) with (2 ^ 8 * 256). rewrite Z.mod_add by lia. apply Z.mod_small. lia.
  - by destruct (bool_decide _).
  - destruct (irq =? IRQ_IDE); [|done]. by rewrite Z.shiftr_shiftl_l, Z.shiftl_0_r by lia.
Qed.

(** C14. After [main] has set up the controllers, on a machine with or without several
    processors and with or without a serial port: each line of the 8259As interrupts with its
    own vector, and only the slave, keyboard, disk, serial and (without local APICs) timer
    lines are open; each entry of the I/O APIC has its own vector, is on only for keyboard, disk
    and serial port, and names processor 0, the disk's the last one; and the local
    APIC ticks, with its other lines off and all priorities accepted.  The set-up ends if the
    local APIC delivers the commands it is given. *)
Theorem interrupts_routed port_answer mem_answer ismp ioapicid lapic ncpu version s :
  apart lapic -> (forall h, delivered mem_answer lapic h) ->
  (forall h, mem_answer (MemWr IOAPIC REG_VER :: h) (IOAPIC + 16) = version) -> maxintr version < 224 -> 0 < ncpu <= NCPU ->
  irqmask s = Z.land 0xFFFF (Z.lnot (Z.shiftl 1 IRQ_SLAVE)) -> uart s = false ->
  exists n0, forall n, (n0 <= n)%nat -> wp (main_irq port_answer mem_answer ismp ioapicid lapic ncpu n) s (fun _ s' =>
    let c := ctl_of lapic (hist s') in
    (forall irq, 0 <= irq < 16 -> line_vector c irq = T_IRQ0 + irq /\
      line_masked c irq = negb (bool_decide (irq ∈ IRQ_SLAVE :: irqs_on (uart s') ++ (if ismp then [] else [IRQ_TIMER])))) /\
    (ismp = true -> forall irq, 0 <= irq <= maxintr version -> entry_vector c irq = T_IRQ0 + irq /\
      entry_off c irq = negb (bool_decide (irq ∈ irqs_on (uart s'))) /\ entry_cpu c irq = if irq =? IRQ_IDE then ncpu - 1 else 0) /\
    (lapic <> 0 -> ticking (lap c) /\ lap c TPR = 0)).
Proof.
  intros A Dl Hv Hm Hn M0 U0. destruct (main_irq_spec port_answer mem_answer ismp ioapicid lapic ncpu version s A Dl Hv M0 U0) as [n0 W].
  exists n0. intros n Le. eapply wp_mono; [apply W, Le|]. intros _ s' (c & V & M & R & T). cbn zeta. rewrite V. split_and!.
  - intros irq Hi. rewrite M. by apply lines_open.
  - intros -> irq Hi. apply entries_on with (maxintr version + 1) (io_reg (ctl_of lapic (hist s))); [by apply R|lia|lia|unfold NCPU in Hn; lia].
  - intros N. destruct (T N). by destruct ismp, (uart s').
Qed.
Lemma interrupts_routed_witness : exists n0, forall n, (n0 <= n)%nat ->
  wp (main_irq (fun _ _ => 0xFF) (fun _ a => if a =? IOAPIC + 16 then 0x170011 else 0) true 0 0xFEE00000 2 n) (Io [] 0xFFFB false 0 [])
    (fun _ s' => entry_cpu (ctl_of 0xFEE00000 (hist s')) IRQ_IDE = 1).
Proof.
  destruct (interrupts_routed (fun _ _ => 0xFF) (fun _ a => if a =? IOAPIC + 16 then 0x170011 else 0) true 0 0xFEE00000 2 0x170011 (Io [] 0xFFFB false 0 []))
    as [n0 W]; [split; [lia|right; unfold IOAPIC; lia]|intros h; by apply polled_now|done|done|done|done|done|].
  exists n0. intros n Hn. eapply wp_mono; [apply W, Hn|]. intros _ s' (_ & E & _). by destruct (E eq_refl IRQ_IDE ltac:(split; done)) as (_ & _ & E').
Defined.

(** C22. [uartputc] with a serial port always ends: it reads the status at most 128 times,
    each time but the last to be told that the port is busy, and then writes the character
    once, whatever the port answers; and it does nothing else. *)
Theorem uartputc_bounded port_answer c s : uart s = true ->
  wp (uartputc port_answer c) s (fun _ s' => exists k, (k <= 128)%nat /\
    hist s' = PortOut COM1 (c mod 2 ^ 8) :: replicate k (PortIn (COM1 + 5)) ++ hist s /\
    (forall j, (S j < k)%nat -> transmits port_answer (replicate j (PortIn (COM1 + 5)) ++ hist s) = false) /\
    ((0 < k)%nat /\ transmits port_answer (replicate (k - 1) (PortIn (COM1 + 5)) ++ hist s) = true \/ k = 128%nat) /\
    irqmask s' = irqmask s /\ uart s' = uart s).
Proof.
  intros U. unfold uartputc. wp_step. wp_step. rewrite U. cbn [negb]. wp_step. eapply wp_mono; [apply uart_wait_spec|].
  intros _ s' (k & Hk & -> & B & R). apply wp_outb. exists k. cbn [hist io_push irqmask uart]. by rewrite U.
Qed.
Lemma uartputc_bounded_witness : wp (uartputc (fun h _ => if (length h <? 3)%nat then 0 else 0x60) 65) (Io [] 0 true 0 []) (fun _ s' => (length (hist s') <= 129)%nat).
Proof.
  eapply wp_mono; [apply (uartputc_bounded (fun h _ => if (length h <? 3)%nat then 0 else 0x60) 65 (Io [] 0 true 0 []) eq_refl)|].
  intros _ s' (k & Hk & -> & _). cbn [length]. rewrite length_app, length_replicate. cbn. lia.
Defined.

(** ** The other processors *)

(** The last value written to an address. *)
Fixpoint word_in (h : list access) (a : Z) : Z :=
  match h with
  | [] => 0
  | MemWr b v :: h => if a =? b then v else word_in h a
  | _ :: h => word_in h a
  end.

(** What a processor finds when it starts: stack, function and page directory; and where a
    warm reset would send it. *)
Definition mailbox (h : list access) : Z * Z * Z * Z :=
  (word_in h (ap_code - 4), word_in h (ap_code - 8), word_in h (ap_code - 12), word_in h wrv + 2 ^ 4 * word_in h (wrv + 2)).

(** The commands given to the local APIC, the last first: destination, command and the
    mailbox at that time. *)
Fixpoint commands (lapic : Z) (h : list access) : list (Z * Z * (Z * Z * Z * Z)) :=
  match h with
  | [] => []
  | MemWr a v :: h =>
      if a =? lapic + 4 * ICRLO then (Z.shiftr (word_in h (lapic + 4 * ICRHI)) 24, v, mailbox h) :: commands lapic h
      else commands lapic h
  | _ :: h => commands lapic h
  end.

(** The universal startup algorithm for processor [id] and code at page [page]. *)
Definition ipi_script (id page : Z) (box : Z * Z * Z * Z) : list (Z * Z * (Z * Z * Z * Z)) :=
  [(id, STARTUP + page, box); (id, STARTUP + page, box); (id, INIT + LEVEL, box); (id, INIT + LEVEL + ASSERT, box)].

(** The commands for the processors from number [i] on, when [me] is running already. *)
Fixpoint wakes (mpenter entrypgdir me i : Z) (cs : list (Z * Z * Z)) : list (Z * Z * (Z * Z * Z * Z)) :=
  match cs with
  | [] => []
  | (id, _, stack) :: cs =>
      wakes mpenter entrypgdir me (i + 1) cs ++
      (if i =? me then [] else ipi_script id 7 (u32 (stack + KSTACKSIZE), mpenter, v2p entrypgdir, 0x7000))
  end.

Section Start.
Context (mem_answer : list access -> Z -> Z) (lapic me mpenter entrypgdir : Z).
(** The local APIC's registers are above the memory that the kernel uses. *)
Hypothesis lapic_high : DEVSPACE <= lapic < 2 ^ 32 - 4096.
(** The identification register names this processor. *)
Hypothesis lapic_id : forall h, mem_answer h (lapic + 4 * LID) = Z.shiftl me 24.
Hypothesis me_range : 0 <= me < NCPU.

(** An address outside the local APIC's page. *)
Definition outside (a : Z) : Prop := ~ lapic <= a < lapic + 4096.

Lemma mailbox_outside h h' : (forall a, outside a -> word_in h' a = word_in h a) -> mailbox h' = mailbox h.
Proof.
  intros E. unfold mailbox. rewrite !E; [done|..]; unfold outside, DEVSPACE in *.
  all: try (change (wrv) with 0x80000467); try change ap_code with 0x80007000; lia.
Qed.

Lemma lapicw_hi v s : wp (lapicw mem_answer lapic ICRHI v) s (fun _ s' =>
  commands lapic (hist s') = commands lapic (hist s) /\ word_in (hist s') (lapic + 4 * ICRHI) = u32 v /\ forall a, outside a -> word_in (hist s') a = word_in (hist s) a).
Proof.
  unfold lapicw. repeat wp_step. apply wp_store. repeat wp_step. apply wp_load, wp_ret. cbn [hist io_push commands word_in]. rewrite Z.eqb_refl.
  change (4 * ICRHI) with 784. change (4 * ICRLO) with 768. rewrite (proj2 (Z.eqb_neq (lapic + 784) (lapic + 768))) by lia.
  split_and!; try done. intros a O. unfold outside in O. destruct (Z.eqb_spec a (lapic + 784)); [lia|done].
Qed.

Lemma lapicw_lo v s : wp (lapicw mem_answer lapic ICRLO v) s (fun _ s' =>
  commands lapic (hist s') = (Z.shiftr (word_in (hist s) (lapic + 4 * ICRHI)) 24, u32 v, mailbox (hist s)) :: commands lapic (hist s) /\
  word_in (hist s') (lapic + 4 * ICRHI) = word_in (hist s) (lapic + 4 * ICRHI) /\ forall a, outside a -> word_in (hist s') a = word_in (hist s) a).
Proof.
  unfold lapicw. repeat wp_step. apply wp_store. repeat wp_step. apply wp_load, wp_ret. cbn [hist io_push commands word_in]. rewrite Z.eqb_refl.
  change (4 * ICRHI) with 784. change (4 * ICRLO) with 768. rewrite (proj2 (Z.eqb_neq (lapic + 784) (lapic + 768))) by lia.
  split_and!; try done. intros a O. unfold outside in O. destruct (Z.eqb_spec a (lapic + 768)); [lia|done].
Qed.

Lemma id_dest id : 0 <= id < 2 ^ 8 -> Z.shiftr (u32 (Z.shiftl id 24)) 24 = id.
Proof.
  intros Hid. rewrite u32_small by (rewrite Z.shiftl_mul_pow2 by lia; lia). by rewrite Z.shiftr_shiftl_l, Z.shiftl_0_r by lia.
Qed.

Lemma lapicstartap_spec id s : 0 <= id < 2 ^ 8 ->
  wp (lapicstartap mem_answer lapic id (v2p ap_code)) s (fun _ s' =>
    commands lapic (hist s') = ipi_script id 7 (word_in (hist s) (ap_code - 4), word_in (hist s) (ap_code - 8), word_in (hist s) (ap_code - 12), 0x7000) ++ commands lapic (hist s) /\
    forall a, outside a -> a <> wrv -> a <> wrv + 2 -> word_in (hist s') a = word_in (hist s) a).
Proof.
  intros Hid. unfold lapicstartap, microdelay. unfold outb, store. do 8 wp_step. set (s1 := io_push _ _).
  assert (B : mailbox (hist s1) = (word_in (hist s) (ap_code - 4), word_in (hist s) (ap_code - 8), word_in (hist s) (ap_code - 12), 0x7000)) by reflexivity.
  assert (C : commands lapic (hist s1) = commands lapic (hist s)).
  { cbn [s1 hist io_push commands]. change wrv with 0x80000467. unfold DEVSPACE in *. change (4 * ICRLO) with 768.
    rewrite !(proj2 (Z.eqb_neq _ _)) by lia. done. }
  apply wp_bind. wp_use lapicw_hi. intros _ s2 (C2 & H2 & W2). apply wp_bind. wp_use lapicw_lo. intros _ s3 (C3 & H3 & W3). do 2 wp_step.
  apply wp_bind. wp_use lapicw_lo. intros _ s4 (C4 & H4 & W4). do 2 wp_step. cbn [startup_loop]. unfold microdelay.
  apply wp_bind. wp_use lapicw_hi. intros _ s5 (C5 & H5 & W5). apply wp_bind. wp_use lapicw_lo. intros _ s6 (C6 & H6 & W6). do 2 wp_step.
  apply wp_bind. wp_use lapicw_hi. intros _ s7 (C7 & H7 & W7). apply wp_bind. wp_use lapicw_lo. intros _ s8 (C8 & H8 & W8). do 3 wp_step.
  rewrite C8, C7, C6, C5, C4, C3, C2, C, H7, H5, H3, H2, !id_dest by done.
  rewrite (mailbox_outside _ _ W7), (mailbox_outside _ _ W6), (mailbox_outside _ _ W5), (mailbox_outside _ _ W4), (mailbox_outside _ _ W3), (mailbox_outside _ _ W2), B.
  split; [done|]. intros a O N1 N2. rewrite W8, W7, W6, W5, W4, W3, W2 by done. cbn [s1 hist io_push word_in].
  by rewrite !(proj2 (Z.eqb_neq _ _)) by done.
Qed.

Lemma started_wait_spec addr s : polled mem_answer addr (fun v => negb (v =? 0)) (hist s) -> exists n0 s', forall n, (n0 <= n)%nat ->
  started_wait mem_answer addr n s = Ok tt s' /\ commands lapic (hist s') = commands lapic (hist s) /\ forall a, word_in (hist s') a = word_in (hist s) a.
Proof.
  intros H. remember (hist s) as h eqn:E. revert s E. induction H as [h H|h H IH]; intros s ->.
  - exists 1%nat, (io_push (MemRd addr) s). intros [|n] Hn; [lia|]. cbn [started_wait]. rewrite (bind_Ok (load mem_answer addr) _ s _ _ eq_refl). apply negb_true_iff in H. by rewrite H.
  - destruct (u32 (mem_answer (hist s) addr) =? 0) eqn:Z0.
    + destruct (IH (io_push (MemRd addr) s) eq_refl) as (n0 & s' & W). exists (S n0), s'. intros [|n] Hn; [lia|]. cbn [started_wait]. rewrite (bind_Ok (load mem_answer addr) _ s _ _ eq_refl). rewrite Z0. apply W. lia.
    + exists 1%nat, (io_push (MemRd addr) s). intros [|n] Hn; [lia|]. cbn [started_wait]. rewrite (bind_Ok (load mem_answer addr) _ s _ _ eq_refl). by rewrite Z0.
Qed.

Lemma cpunum_spec s : cpunum mem_answer lapic false s = Ok me (io_push (MemRd (lapic + 4 * LID)) s).
Proof.
  unfold cpunum. rewrite (bind_Ok (when false _) _ s _ _ eq_refl). unfold DEVSPACE in lapic_high. rewrite (proj2 (Z.eqb_neq lapic 0)) by lia. cbn [negb].
  rewrite (bind_Ok (load mem_answer (lapic + 4 * LID)) _ s _ _ eq_refl), lapic_id. unfold NCPU in me_range. unfold ret. by rewrite id_dest by lia.
Qed.

(** Below the entry code: what the processors are told. *)
Definition untold (a : Z) : Prop := outside a /\ a ∉ [wrv; wrv + 2; ap_code - 4; ap_code - 8; ap_code - 12].

(** A processor that was sent its startup command comes up. *)
Definition comes_up (c : Z * Z * Z) : Prop :=
  0 <= c.1.1 < 2 ^ 8 /\
  forall h, (exists box, (c.1.1, STARTUP + 7, box) ∈ commands lapic h) -> polled mem_answer c.1.2 (fun v => negb (v =? 0)) h.

Lemma start_one id started stack s : comes_up (id, started, stack) -> exists n0 s', forall n, (n0 <= n)%nat ->
  start_cpu mem_answer lapic mpenter entrypgdir id started stack n s = Ok tt s' /\
  commands lapic (hist s') = ipi_script id 7 (u32 (stack + KSTACKSIZE), mpenter, v2p entrypgdir, 0x7000) ++ commands lapic (hist s) /\
  forall a, untold a -> word_in (hist s') a = word_in (hist s) a.
Proof.
  intros [Hid Up]. set (s1 := io_push (MemWr (ap_code - 12) (v2p entrypgdir)) (io_push (MemWr (ap_code - 8) mpenter) (io_push (MemWr (ap_code - 4) (u32 (stack + KSTACKSIZE))) s))).
  destruct (proj1 (wp_Ok _ _ _) (lapicstartap_spec id s1 Hid)) as ([] & s2 & E2 & C2 & W2).
  assert (C1 : commands lapic (hist s1) = commands lapic (hist s)).
  { cbn [s1 hist io_push commands]. change ap_code with 0x80007000. unfold DEVSPACE in *. change (4 * ICRLO) with 768.
    rewrite !(proj2 (Z.eqb_neq _ _)) by lia. done. }
  rewrite C1 in C2. change (word_in (hist s1) (ap_code - 4)) with (u32 (stack + KSTACKSIZE)) in C2. change (word_in (hist s1) (ap_code - 8)) with mpenter in C2.
  change (word_in (hist s1) (ap_code - 12)) with (v2p entrypgdir) in C2.
  destruct (started_wait_spec started s2) as (n0 & s3 & W3); [apply Up; rewrite C2; eexists; left|].
  exists n0, s3. intros n Hn. destruct (W3 n Hn) as (E3 & C3 & V3). split_and!; [|by rewrite C3|].
  - change ((lapicstartap mem_answer lapic id (v2p ap_code) ;;; started_wait mem_answer started n) s1 = Ok tt s3). by rewrite (bind_Ok _ _ _ _ _ E2).
  - intros a [O N]. rewrite V3, W2 by set_solver. cbn [s1 hist io_push word_in]. by rewrite !(proj2 (Z.eqb_neq _ _)) by set_solver.
Qed.

Lemma start_loop_spec cs : Forall comes_up cs -> forall i s, exists n0 s', forall n, (n0 <= n)%nat ->
  start_loop mem_answer lapic mpenter entrypgdir i cs n s = Ok tt s' /\
  commands lapic (hist s') = wakes mpenter entrypgdir me i cs ++ commands lapic (hist s) /\ forall a, untold a -> word_in (hist s') a = word_in (hist s) a.
Proof.
  induction 1 as [|[[id st] stack] cs Up F IH]; intros i s; cbn [start_loop wakes]; [by exists 0%nat, s|].
  destruct (Z.eqb_spec i me) as [->|N].
  - destruct (IH (me + 1) (io_push (MemRd (lapic + 4 * LID)) s)) as (n0 & s' & W). exists n0, s'. intros n Hn. rewrite (bind_Ok _ _ _ _ _ (cpunum_spec s)), Z.eqb_refl, app_nil_r. by apply W.
  - destruct (start_one id st stack (io_push (MemRd (lapic + 4 * LID)) s) Up) as (n1 & s1 & W1). destruct (IH (i + 1) s1) as (n2 & s2 & W2).
    exists (n1 `max` n2)%nat, s2. intros n Hn. destruct (W1 n ltac:(lia)) as (E1 & C1 & V1), (W2 n ltac:(lia)) as (E2 & C2 & V2).
    rewrite (bind_Ok _ _ _ _ _ (cpunum_spec s)), (proj2 (Z.eqb_neq i me)), (bind_Ok _ _ _ _ _ E1) by done.
    split_and!; [done|by rewrite C2, C1, <- app_assoc|]. intros a O. by rewrite V2, V1.
Qed.

Lemma store_bytes_spec bs : forall a s, KERNBASE <= a -> a + Z.of_nat (length bs) <= KERNBASE + EXTMEM -> wp (store_bytes a bs) s (fun _ s' =>
  commands lapic (hist s') = commands lapic (hist s) /\ (forall k b, bs !! k = Some b -> word_in (hist s') (a + Z.of_nat k) = b2z b) /\
  forall x, x < a -> word_in (hist s') x = word_in (hist s) x).
Proof.
  unfold DEVSPACE, KERNBASE, EXTMEM in *. induction bs as [|b bs IH]; intros a s Ha He; cbn [store_bytes length] in *; [by apply wp_ret|].
  apply wp_bind, wp_store. eapply wp_mono; [apply IH; lia|]. intros _ s' (C & B & W). cbn [hist io_push commands word_in] in *. split_and!.
  - rewrite C. change (4 * ICRLO) with 768. by rewrite (proj2 (Z.eqb_neq _ _)) by lia.
  - intros [|k] b' E; [injection E as ->; rewrite Z.add_0_r, W, Z.eqb_refl by lia; done|]. replace (a + Z.of_nat (S k)) with (a + 1 + Z.of_nat k) by lia. by apply B.
  - intros x Hx. rewrite W by lia. by rewrite (proj2 (Z.eqb_neq _ _)) by lia.
Qed.
End Start.

(** C18. [startothers] starts every processor but the one that runs it, in the order of the
    table: each is sent, by itself, the universal startup algorithm for the page that holds the
    entry code, and finds there its own stack, [mpenter] and the boot page directory, also after
    a warm reset; the entry code is in place.  It ends if each processor that was sent its
    startup command raises its flag. *)
Theorem processors_started mem_answer lapic me mpenter entrypgdir entryother cs s :
  DEVSPACE <= lapic < 2 ^ 32 - 4096 -> (forall h, mem_answer h (lapic + 4 * LID) = Z.shiftl me 24) -> 0 <= me < NCPU ->
  Forall (comes_up mem_answer lapic) cs -> Z.of_nat (length entryother) <= PGSIZE ->
  exists n0, forall n, (n0 <= n)%nat -> wp (startothers mem_answer lapic entryother mpenter entrypgdir cs n) s (fun _ s' =>
    commands lapic (hist s') = wakes mpenter entrypgdir me 0 cs ++ commands lapic (hist s) /\
    forall k b, entryother !! k = Some b -> word_in (hist s') (ap_code + Z.of_nat k) = b2z b).
Proof.
  intros Hl Hid Hme Up Len. change PGSIZE with 4096 in Len.
  destruct (proj1 (wp_Ok _ _ _) (store_bytes_spec lapic Hl entryother ap_code s ltac:(done) ltac:(change ap_code with 0x80007000; unfold KERNBASE, EXTMEM; lia)))
    as ([] & s1 & E1 & C1 & B1 & _).
  destruct (start_loop_spec mem_answer lapic me mpenter entrypgdir Hl Hid Hme cs Up 0 s1) as (n0 & s2 & W). exists n0. intros n Hn. destruct (W n Hn) as (E2 & C2 & V2).
  apply wp_Ok. exists tt, s2. split; [unfold startothers; by rewrite (bind_Ok _ _ _ _ _ E1)|]. split; [by rewrite C2, C1|].
  intros k b E. rewrite V2; [by apply B1|]. pose proof (lookup_lt_Some _ _ _ E). unfold untold, outside, DEVSPACE in *. change ap_code with 0x80007000. change wrv with 0x80000467.
  split; [lia|]. rewrite !not_elem_of_cons. split_and!; try lia. apply not_elem_of_nil.
Qed.
Lemma processors_started_witness : exists n0, forall n, (n0 <= n)%nat ->
  wp (startothers (fun _ a => if a =? 0xFEE00020 then 0 else 1) 0xFEE00000 [Byte.xfa; Byte.x31] 0x80102f00 0x8010a000 [(0, 0x80112fb0, 0x8dfff000); (1, 0x80113070, 0x8dffe000)] n)
    (Io [] 0 false 0 []) (fun _ s' => length (commands 0xFEE00000 (hist s')) = 4%nat).
Proof.
  destruct (processors_started (fun _ a => if a =? 0xFEE00020 then 0 else 1) 0xFEE00000 0 0x80102f00 0x8010a000 [Byte.xfa; Byte.x31]
    [(0, 0x80112fb0, 0x8dfff000); (1, 0x80113070, 0x8dffe000)] (Io [] 0 false 0 [])) as [n0 W]; [done|done|done| |done|].
  - repeat constructor; cbn; try lia; intros h _; by apply polled_now.
  - exists n0. intros n Hn. eapply wp_mono; [apply W, Hn|]. intros _ s' [-> _]. done.
Defined.
