(* ===== verification/File.v ===== *)
(** * Open files: file.c

    The table of open files with its reference counts, and read and write on
    pipes and inodes.  [pipealloc] of pipe.c is here, since it needs
    [filealloc] and [fileclose]. *)

From S2P Require Import Prelude Layout Mem Kalloc Vm State Sched Bytes Bio Log Inode Console Fs.
From S2P Require Import Pipe.

Open Scope Z_scope.

(** ** Operations *)

Definition fileget (f : nat) : KM file :=
  let! l := gets files in from_option_wild (l !! f).
Definition fileupd (f : nat) (g : file -> file) : KM unit :=
  modify (fun k => ks_files (alter g f (files k)) k).

Definition fileinit : KM unit := modify (set_lock LkFtable false).

Fixpoint filealloc_loop (f n : nat) : KM (option nat) :=
  match n with
  | O => release LkFtable ;;; ret None
  | S n =>
      let! x := fileget f in
      if f_ref x =? 0 then
        fileupd f (fs_ref 1) ;;;
        release LkFtable ;;;
        ret (Some f)
      else filealloc_loop (S f) n
  end.

Definition filealloc : KM (option nat) :=
  acquire LkFtable ;;;
  filealloc_loop 0 (Z.to_nat NFILE).

Definition filedup (f : nat) : KM nat :=
  acquire LkFtable ;;;
  let! x := fileget f in
  if f_ref x <? 1 then panic "filedup"
  else
    fileupd f (fs_ref (s32 (f_ref x + 1))) ;;;
    release LkFtable ;;;
    ret f.

Section File.
Context `{KernelImage} `{Wakeups}.

Definition fileclose (f : nat) : KM unit :=
  acquire LkFtable ;;;
  let! x := fileget f in
  if f_ref x <? 1 then panic "fileclose"
  else
    fileupd f (fs_ref (f_ref x - 1)) ;;;
    if 0 <? f_ref x - 1 then release LkFtable
    else
      let! ff := fileget f in
      fileupd f (fs_ref 0) ;;;
      fileupd f (fs_type FD_NONE) ;;;
      release LkFtable ;;;
      match f_type ff with
      | FD_PIPE => pipeclose (f_pipe ff) (f_writable ff)
      | FD_INODE =>
          begin_trans ;;;
          let! ip := deref (f_ip ff) in
          iput ip ;;;
          commit_trans
      | FD_NONE => ret tt
      end.

(** [st] stores into the caller's [struct stat]. *)
Definition filestat (f : nat) (st : stat -> KM unit) : KM Z :=
  let! x := fileget f in
  match f_type x with
  | FD_INODE =>
      ilock (f_ip x) ;;;
      let! ip := deref (f_ip x) in
      let! v := stati ip in
      st v ;;;
      iunlock (f_ip x) ;;;
      ret 0
  | _ => ret (-1)
  end.

Definition fileread (f : nat) (addr : sink) (n : Z) : KM Z :=
  let! x := fileget f in
  if negb (f_readable x) then ret (-1)
  else
    match f_type x with
    | FD_PIPE => piperead (f_pipe x) addr n
    | FD_INODE =>
        ilock (f_ip x) ;;;
        let! ip := deref (f_ip x) in
        let! x := fileget f in
        let! r := readi ip addr (f_off x) (u32 n) in
        when (0 <? r.1) (fileupd f (fun x => fs_off (u32 (f_off x + r.1)) x)) ;;;
        iunlock (Some ip) ;;;
        ret r.1
    | FD_NONE => panic "fileread"
    end.

(** [while(i < n)] of [filewrite], [max] bytes per transaction: the last [i]. *)
Definition write_max : Z := (LOGSIZE - 1 - 1 - 2) / 2 * 512.

Fixpoint filewrite_loop (f ip : nat) (addr : source) (i n : Z) (fuel : nat) : KM Z :=
  if i <? n then
    match fuel with
    | O => nofuel
    | S fuel =>
        let n1 := if write_max <? n - i then write_max else n - i in
        begin_trans ;;;
        ilock (Some ip) ;;;
        let! x := fileget f in
        let! r := writei ip (fun off m => addr (i + off) m) (f_off x) n1 in
        when (0 <? r) (fileupd f (fun x => fs_off (u32 (f_off x + r)) x)) ;;;
        iunlock (Some ip) ;;;
        commit_trans ;;;
        if r <? 0 then ret i
        else if negb (r =? n1) then panic "short filewrite"
        else filewrite_loop f ip addr (i + r) n fuel
    end
  else ret i.

Definition filewrite (f : nat) (addr : source) (n : Z) : KM Z :=
  let! x := fileget f in
  if negb (f_writable x) then ret (-1)
  else
    match f_type x with
    | FD_PIPE => pipewrite (f_pipe x) addr n
    | FD_INODE =>
        let! ip := deref (f_ip x) in
        let! i := filewrite_loop f ip addr 0 n (Z.to_nat (n / write_max + 1)) in
        ret (if i =? n then n else -1)
    | FD_NONE => panic "filewrite"
    end.

(** ** pipealloc *)

(** The part after [bad:]. *)
Definition pipealloc_bad (p : Z) (f0 f1 : option nat) : KM (option (nat * nat)) :=
  when (negb (p =? 0)) (liftM (kfree p)) ;;;
  (match f0 with Some f => fileclose f | None => ret tt end) ;;;
  (match f1 with Some f => fileclose f | None => ret tt end) ;;;
  ret None.

(** The two files, or [None] for the result -1. *)
Definition pipealloc : KM (option (nat * nat)) :=
  let! f0 := filealloc in
  match f0 with
  | None => pipealloc_bad 0 None None
  | Some r =>
      let! f1 := filealloc in
      match f1 with
      | None => pipealloc_bad 0 f0 None
      | Some w =>
          let! p := liftM kalloc in
          if p =? 0 then pipealloc_bad 0 f0 f1
          else
            modify (fun k => ks_pipes (<[p := Pipe false (replicate (Z.to_nat PIPESIZE) x01) 0 0
                                          true true]> (pipes k)) k) ;;;
            fileupd r (fun x => fs_pipe p (fs_writable false (fs_readable true (fs_type FD_PIPE x)))) ;;;
            fileupd w (fun x => fs_pipe p (fs_writable true (fs_readable false (fs_type FD_PIPE x)))) ;;;
            ret (Some (r, w))
      end
  end.

End File.
