(* ===== verification/FileProps.v ===== *)
(** * Writing through a descriptor

    [filewrite] of file.c cuts a write into transactions that fit the log.  The theorem
    composes the log, the inodes' locks and [writei] into what a caller of [write] sees. *)

From S2P Require Import Prelude Layout Mem Kalloc Vm State Sched Bytes Bio BioFacts BioProps Log.
From S2P Require Import LogFacts LogProps.
From S2P Require Import Inode Console Fs Codec FsFacts FileFacts WriteFacts FsProps IcacheFacts.
From S2P Require Import Pipe File.

Open Scope Z_scope.

Section Chain.
Context (start lsize nino : Z).

(** ** Two writes in a row *)

Lemma file_written_trans g o a n V ip V1 ip1 V2 ip2 :
  0 <= o -> 0 <= a -> 0 <= n -> o + a + n <= MAXFILE * BSIZE -> sound_file start lsize nino V2 ip2 -> fs_ok start lsize nino V2 ->
  file_written start nino g o a V ip V1 ip1 -> file_written start nino g (o + a) n V1 ip1 V2 ip2 ->
  file_written start nino g o (a + n) V ip V2 ip2.
Proof.
  intros Ho Ha Hn Hend Sf F2 [A1 A2 A3 A4 A5 A6 A7 A8 A9 A10 A11] [B1 B2 B3 B4 B5 B6 B7 B8 B9 B10 B11].
  assert (En : i_inum ip1 = i_inum ip) by (by rewrite A7).
  split; try done.
  - lia.
  - intros j Hj. rewrite B2 by done. destruct (Z.leb_spec (o + a) j), (Z.ltb_spec j (o + a + n)); cbn [andb].
    + rewrite (proj2 (Z.leb_le o j)), (proj2 (Z.ltb_lt j (o + (a + n)))) by lia. done.
    + rewrite A2 by lia. rewrite (proj2 (Z.ltb_ge j (o + a))), (proj2 (Z.ltb_ge j (o + (a + n)))) by lia. done.
    + rewrite A2 by lia. rewrite (proj2 (Z.ltb_lt j (o + a))), (proj2 (Z.ltb_lt j (o + (a + n)))) by lia. done.
    + lia.
  - intros t Ht Hb Hi Hu No. rewrite B3; [by apply A3|done|done|by rewrite En|by apply A4|].
    intros c Hc Hz E. destruct (A9 c Hc Hz) as [E'|E']; [|congruence]. apply (No c Hc); congruence.
  - intros t Ht Hu. by apply B4, A4.
  - intros Hd. rewrite En in B5. by apply B5, A5.
  - intros m Hm Hne. rewrite En in B6. by rewrite B6, A6.
  - rewrite B7, A7. done.
  - intros c Hc Hz. rewrite B8, A8; try done. by rewrite A8.
  - intros c Hc Hz. destruct (B9 c Hc Hz) as [E|E]; [rewrite E in *; by apply A9|]. right.
    destruct (used nino V (cell V2 ip2 c)) eqn:U; [|done]. rewrite A4 in E; [done| |done].
    by apply (cell_range start lsize nino V2).
  - intros j Hj. destruct (decide (j < o + a)); [|apply B10; lia]. unfold bcell.
    rewrite B8; [apply A10; lia|apply cellno_range, block_of; lia|apply A10; lia].
  - intros Hf. by apply B11, A11.
Qed.

(** ** Blocks to allocate *)

(** The file blocks of a range that do not exist. *)
Definition holes (V : Z -> block) (ip : inode) (b m : Z) : nat := length (filter (fun b => bcell V ip b = 0) (seqZ b m)).

Lemma missing_holes o n V ip : missing o n V ip 0 =
  (holes V ip (o / BSIZE) (blocks_left o n 0) + (if (reach o n && (addr ip NDIRECT =? 0))%Z then 1 else 0))%nat.
Proof. unfold missing, holes. by rewrite Z.add_0_r. Qed.

(** The blocks of a write are those of its first part and the ones behind it. *)
Lemma holes_cut o a n V ip : 0 <= o -> 0 < a <= n -> let e := (o + a - 1) / BSIZE + 1 in
  holes V ip (o / BSIZE) (blocks_left o n 0) =
  (holes V ip (o / BSIZE) (blocks_left o a 0) + holes V ip e ((o + n - 1) / BSIZE - e + 1))%nat.
Proof.
  intros Ho Ha e. unfold holes, blocks_left. rewrite !Z.add_0_r, (proj2 (Z.ltb_lt 0 a)), (proj2 (Z.ltb_lt 0 n)) by lia.
  replace ((o + a - 1) / BSIZE - o / BSIZE + 1) with (e - o / BSIZE) by lia.
  assert (He : o / BSIZE <= e - 1 <= (o + n - 1) / BSIZE) by (unfold e; change BSIZE with 512; Z.to_euclidean_division_equations; lia).
  replace ((o + n - 1) / BSIZE - o / BSIZE + 1) with ((e - o / BSIZE) + ((o + n - 1) / BSIZE - e + 1)) by lia.
  rewrite (seqZ_app (o / BSIZE) (e - o / BSIZE)) by lia. rewrite filter_app, length_app. by replace (o / BSIZE + (e - o / BSIZE)) with e by lia.
Qed.

Lemma reach_more o a n : a <= n -> reach o a = true -> reach o n = true.
Proof. unfold reach. intros Ha [H1%Z.ltb_lt H2%Z.ltb_lt]%andb_true_iff. apply andb_true_iff. split; apply Z.ltb_lt; lia. Qed.

Lemma missing_mono o a n V ip : 0 <= o -> 0 < a <= n -> (missing o a V ip 0 <= missing o n V ip 0)%nat.
Proof.
  intros Ho Ha. rewrite !missing_holes, (holes_cut o a n) by done. pose proof (reach_more o a n ltac:(lia)) as Hr.
  destruct (reach o a); [rewrite Hr by done|]; cbn [andb]; lia.
Qed.

(** The part behind the first one needs no more after it. *)
Lemma holes_after o a n V ip V1 ip1 : 0 <= o -> 0 < a <= n -> o + n <= MAXFILE * BSIZE ->
  (forall c, 0 <= c < NCELLS -> cell V ip c <> 0 -> cell V1 ip1 c = cell V ip c) ->
  (forall j, o <= j < o + a -> bcell V1 ip1 (j / BSIZE) <> 0) -> let e := (o + a - 1) / BSIZE + 1 in
  (holes V1 ip1 ((o + a) / BSIZE) (blocks_left (o + a) (n - a) 0) <= holes V ip e ((o + n - 1) / BSIZE - e + 1))%nat.
Proof.
  intros Ho Ha Hend Old New e. unfold blocks_left. rewrite !Z.add_0_r.
  assert (He : o / BSIZE <= e - 1 <= (o + n - 1) / BSIZE) by (unfold e; change BSIZE with 512; Z.to_euclidean_division_equations; lia).
  pose proof (block_of (o + n - 1) ltac:(lia)) as Hl. pose proof (block_of o ltac:(lia)) as Hf.
  assert (Mono : (holes V1 ip1 e ((o + n - 1) / BSIZE - e + 1) <= holes V ip e ((o + n - 1) / BSIZE - e + 1))%nat).
  { refine (proj1 (filter_le _ _ _ _)). intros b Hb E. apply elem_of_seqZ in Hb. destruct (decide (bcell V ip b = 0)) as [|N]; [done|].
    unfold bcell in *. rewrite Old in E; [done|apply cellno_range; lia|done]. }
  destruct (Z.ltb_spec 0 (n - a)); [|unfold holes at 1; rewrite (seqZ_nil ((o + a) / BSIZE) 0) by lia; cbn [filter length list_filter]; lia].
  replace (o + a + (n - a) - 1) with (o + n - 1) by lia.
  destruct (decide ((o + a) / BSIZE = e)) as [->|N]; [done|].
  assert (E : (o + a) / BSIZE = e - 1) by (unfold e in *; change BSIZE with 512 in *; Z.to_euclidean_division_equations; lia).
  rewrite E. replace ((o + n - 1) / BSIZE - (e - 1) + 1) with (Z.succ ((o + n - 1) / BSIZE - e + 1)) by lia.
  unfold holes at 1. rewrite seqZ_cons by lia. rewrite filter_cons_False.
  - replace (Z.succ (e - 1)) with e by lia. by rewrite Z.pred_succ.
  - replace (e - 1) with ((o + a - 1) / BSIZE) by (unfold e; lia). apply New. lia.
Qed.

(** After the first part of a write the rest needs no more blocks than the whole did. *)
Lemma missing_split o a n V ip V1 ip1 : 0 <= o -> 0 < a <= n -> o + n <= MAXFILE * BSIZE ->
  (forall c, 0 <= c < NCELLS -> cell V ip c <> 0 -> cell V1 ip1 c = cell V ip c) ->
  (forall j, o <= j < o + a -> bcell V1 ip1 (j / BSIZE) <> 0) ->
  (missing (o + a) (n - a) V1 ip1 0 + missing o a V ip 0 <= missing o n V ip 0)%nat.
Proof.
  intros Ho Ha Hend Old New. rewrite !missing_holes, (holes_cut o a n) by done.
  pose proof (holes_after o a n V ip V1 ip1 Ho Ha Hend Old New) as Hh. cbn zeta in Hh.
  assert (Hi : ((if (reach (o + a) (n - a) && (addr ip1 NDIRECT =? 0))%Z then 1 else 0) + (if (reach o a && (addr ip NDIRECT =? 0))%Z then 1 else 0)
    <= (if (reach o n && (addr ip NDIRECT =? 0))%Z then 1 else 0))%nat); [|lia].
  pose proof (reach_more o a n ltac:(lia)) as Hr. destruct (reach o a) eqn:Ra.
  - rewrite Hr by done. unfold reach in Ra. apply andb_true_iff in Ra as [_ Ra%Z.ltb_lt].
    assert (N1 : addr ip1 NDIRECT <> 0).
    { apply (bcell_ind V1 ip1 ((o + a - 1) / BSIZE)); [|apply New; lia]. change (NDIRECT * BSIZE) with 6144 in Ra.
      change BSIZE with 512. change NDIRECT with 12. Z.to_euclidean_division_equations. lia. }
    rewrite (proj2 (Z.eqb_neq _ 0) N1), andb_false_r. lia.
  - cbn [andb]. destruct (reach (o + a) (n - a)) eqn:Rb; [|cbn [andb]; lia].
    assert (Rn : reach o n = true).
    { unfold reach in *. apply andb_true_iff in Rb as [_ Rb%Z.ltb_lt]. apply andb_true_iff. split; apply Z.ltb_lt; lia. }
    rewrite Rn. cbn [andb]. destruct (Z.eqb_spec (addr ip NDIRECT) 0) as [|Nz]; [destruct (_ =? _); lia|].
    rewrite <- (cell_ind V1), Old, cell_ind, (proj2 (Z.eqb_neq _ 0)) by (done || by rewrite cell_ind). lia.
Qed.
End Chain.

(** ** Locks of an inode in the cache *)

Lemma unbusy f : has f I_BUSY = false -> Z.land (Z.lor f I_BUSY) (Z.lnot I_BUSY) = f.
Proof.
  unfold has. intros Hf. apply negb_false_iff, Z.eqb_eq in Hf. apply Z.bits_inj'. intros n Hn.
  apply (f_equal (fun z => Z.testbit z n)) in Hf. rewrite Z.land_spec, Z.bits_0 in Hf.
  rewrite Z.land_spec, Z.lor_spec, Z.lnot_spec by done. destruct (Z.testbit f n), (Z.testbit I_BUSY n); done.
Qed.

Section Locks.
Context `{Wakeups} (i : nat).

Definition busied (ip : inode) : inode := is_flags (Z.lor (i_flags ip) I_BUSY) ip.

(** An inode in the cache that a descriptor refers to. *)
Record at_hand (k : kstate) (ip : inode) : Prop := {
  ah_slot : inodes k !! i = Some ip;
  ah_ref : 0 < i_ref ip;
  ah_free : has (i_flags ip) I_BUSY = false;
  ah_valid : has (i_flags ip) I_VALID = true;
  ah_lock : ic_lock k = false
}.

Lemma ilock_valid k ip (Q : unit -> kstate -> Prop) :
  at_hand k ip -> Q tt (ks_inodes (<[i := busied ip]> (inodes k)) k) -> wp (ilock (Some i)) k Q.
Proof.
  intros [Ei Hr Hb Hv Hl] HQ. destruct (busy_bits (i_flags ip)) as (_ & F2 & _).
  unfold ilock. apply wp_bind, (wp_inoget k i ip); [done|]. rewrite (proj2 (Z.ltb_ge _ _)) by lia.
  apply wp_bind, wp_acquire; [done|]. apply wp_bind.
  assert (Ew : forall w, ilock_wait i w (set_lock LkIcache true k) = Ok tt (set_lock LkIcache true k)).
  { intros w. assert (E : inoget i (set_lock LkIcache true k) = Ok ip (set_lock LkIcache true k)).
    { unfold inoget, bind, gets. cbn [obind]. change (inodes (set_lock LkIcache true k)) with (inodes k). by rewrite Ei. }
    destruct w; cbn [ilock_wait]; rewrite (bind_Ok _ _ _ _ _ E), Hb; done. }
  unfold wp at 1. rewrite Ew. apply wp_bind, wp_inoupd, wp_bind, wp_release; [done|]. rewrite icache_unlock by done.
  cbn [inodes set_lock ks_ic_lock]. rewrite (alter_insert _ _ _ _ Ei). fold (busied ip).
  apply wp_bind, (wp_inoget _ i (busied ip)); [apply list_lookup_insert_eq; by eapply lookup_lt_Some|].
  apply wp_when. cbn [i_flags busied is_flags]. by rewrite F2, Hv.
Qed.

Lemma iunlock_busied k ip (Q : unit -> kstate -> Prop) :
  inodes k !! i = Some (busied ip) -> 0 < i_ref ip -> has (i_flags ip) I_BUSY = false -> ic_lock k = false -> pt_lock k = false ->
  (forall ps, Q tt (ks_procs ps (ks_inodes (<[i := ip]> (inodes k)) k))) -> wp (iunlock (Some i)) k Q.
Proof.
  intros Ei Hr Hb Hl Hp HQ. destruct (busy_bits (i_flags ip)) as (F1 & _).
  unfold iunlock. apply wp_bind, (wp_inoget k i (busied ip)); [done|]. cbn [i_flags i_ref busied is_flags]. rewrite F1, (proj2 (Z.ltb_ge _ _)) by lia.
  cbn [negb orb]. apply wp_bind, wp_acquire; [done|]. apply wp_bind, wp_inoupd.
  cbn [inodes set_lock ks_ic_lock]. rewrite (alter_insert _ _ _ _ Ei). cbn [i_flags busied is_flags].
  rewrite unbusy by done. replace (is_flags (i_flags ip) _) with ip by (by destruct ip).
  apply wp_bind, wp_wakeup; [done|]. apply wp_release; [done|]. set (ps := wake _ <$> _).
  match goal with |- context [set_lock LkIcache false ?st] =>
    replace (set_lock LkIcache false st) with (ks_procs ps (ks_inodes (<[i := ip]> (inodes k)) k))
      by (destruct k; cbn in *; by subst) end.
  apply HQ.
Qed.
End Locks.

(** ** The loop *)

Section Loop.
Context `{Wakeups} (start lsize nino : Z) (f i : nat) (src : source) (g : Z -> byte) (o n : Z).
Context (Ho : 0 <= o) (Hn : 0 <= n) (Hend : o + n <= MAXFILE * BSIZE) (Hlog : 8 <= lsize).
Context (Hsrc : forall k tot m, 0 <= tot -> 0 <= m -> tot + m <= n -> src tot m k = Ok (window g (o + tot) m) k).

(** The body of one transaction: [n1] bytes from position [pos] of the source. *)
Definition write_body (pos n1 : Z) : KM Z :=
  ilock (Some i) ;;;
  let! x := fileget f in
  let! r := writei i (fun off m => src (pos + off) m) (f_off x) n1 in
  when (0 <? r) (fileupd f (fun x => fs_off (u32 (f_off x + r)) x)) ;;;
  iunlock (Some i) ;;;
  ret r.

(** Between transactions, with [pos] bytes written. *)
Record between (k : kstate) (ip : inode) (x : file) (pos : Z) : Prop := {
  bt_quiet : quiet start lsize k;
  bt_ino : at_hand i k ip;
  bt_file : files k !! f = Some x;
  bt_off : f_off x = o + pos;
  bt_fs : fs_ok start lsize nino (d_read (dsk k));
  bt_small : sound_file start lsize nino (d_read (dsk k)) ip;
  bt_in : o + pos <= i_size ip;
  bt_inum : 0 <= i_inum ip <= nino;
  bt_fits : dinode_fits (to_dinode ip);
  bt_room : (missing (o + pos) (n - pos) (d_read (dsk k)) ip 0 <= size (free_blocks start lsize nino (d_read (dsk k))))%nat
}.

(** The state after [n1] more bytes. *)
Definition advanced (k k' : kstate) (ip : inode) (x : file) (pos n1 : Z) : Prop :=
  quiet start lsize k' /\ exists ip', inodes k' = <[i := ip']> (inodes k) /\ at_hand i k' ip' /\
    files k' = <[f := fs_off (o + pos + n1) x]> (files k) /\ new_file start lsize nino g (o + pos) n1 k ip (d_read (dsk k')) ip'.

Lemma busied_file V ip : sound_file start lsize nino V ip -> sound_file start lsize nino V (busied ip).
Proof. intros [[O1 O2 O3 O4 O5 O6] Sc Si]. split; [by split|done|done]. Qed.

(** The file after the lock is given back. *)
Lemma unbusied_written V ip V' ip2 off m : sound_file start lsize nino V' ip2 -> file_written start nino g off m V (busied ip) V' ip2 ->
  let ip' := is_flags (i_flags ip) ip2 in
  ip2 = busied ip' /\ i_ref ip' = i_ref ip /\ sound_file start lsize nino V' ip' /\ file_written start nino g off m V ip V' ip'.
Proof.
  intros Sf W ip'. assert (Ef : i_flags ip2 = Z.lor (i_flags ip) I_BUSY) by (by rewrite (fw_same _ _ _ _ _ _ _ _ _ W)).
  assert (Er : i_ref ip2 = i_ref ip) by (by rewrite (fw_same _ _ _ _ _ _ _ _ _ W)).
  assert (E2 : ip2 = busied ip') by (unfold busied, ip'; cbn; rewrite <- Ef; by destruct ip2).
  split_and!; [done|done| |].
  - destruct Sf as [[O1 O2 O3 O4 O5 O6] Sc Si]. split; [by split|done|done].
  - destruct W as [A1 A2 A3 A4 A5 A6 A7 A8 A9 A10 A11]. split; try done. unfold ip'. rewrite A7. done.
Qed.

Lemma write_chunk k ip x pos n1 : between k ip x pos -> 0 <= pos -> 0 < n1 <= n - pos -> n1 <= 1536 ->
  wp (in_trans (write_body pos n1)) k (fun r k' => r = n1 /\ advanced k k' ip x pos n1 /\ (exists ws, commits start lsize k ws k') /\
    (size (free_blocks start lsize nino (d_read (dsk k))) <= size (free_blocks start lsize nino (d_read (dsk k'))) + missing (o + pos) n1 (d_read (dsk k)) ip 0)%nat).
Proof.
  intros [Hq Ah Ef Eo F Sf Hin Hi Hfits Hroom] Hp Hn1 Hmax. pose proof (qt_lay _ _ _ Hq) as [Y1 Y2 Y3 Y4].
  pose proof Ah as [Ei Hr Hb Hv Hl].
  pose proof (missing_mono (o + pos) n1 (n - pos) (d_read (dsk k)) ip ltac:(lia) Hn1) as Hmiss.
  eapply wp_mono; [apply (in_trans_spec start lsize (write_body pos n1) k (fun r k2 V => r = n1 /\ exists ip',
    inodes k2 = <[i := ip']> (inodes k) /\ at_hand i k2 ip' /\ files k2 = <[f := fs_off (o + pos + n1) x]> (files k) /\
    new_file start lsize nino g (o + pos) n1 k ip V ip' /\
    (size (free_blocks start lsize nino (d_read (dsk k))) <= size (free_blocks start lsize nino V) + missing (o + pos) n1 (d_read (dsk k)) ip 0)%nat) Hq)|].
  - intros k1 Fr1 Ed1 X1. pose proof (tx_start start lsize k k1 Ed1 X1) as T1.
    assert (I1 : inodes k1 = inodes k) by (by rewrite (bfr_inodes _ _ Fr1)).
    assert (Ah1 : at_hand i k1 ip) by (split; try done; [by rewrite I1|by unfold bfr in Fr1; rewrite Fr1]).
    unfold write_body. apply wp_bind, (ilock_valid i k1 ip); [done|]. set (k2 := ks_inodes _ k1).
    assert (T2 : tx start lsize (d_read (dsk k)) (dsk k) k2 (d_read (dsk k)) ∅) by (by apply (tx_frame _ _ _ _ k1)).
    assert (Fl2 : files k2 = files k) by (unfold k2; cbn; unfold bfr in Fr1; by rewrite Fr1).
    apply wp_bind. unfold fileget. apply wp_bind, wp_gets. rewrite Fl2, Ef. apply wp_ret. rewrite Eo.
    assert (Hs : forall k tot m, 0 <= tot -> 0 <= m -> tot + m <= n1 -> src (pos + tot) m k = Ok (window g (o + pos + tot) m) k).
    { intros k0 tot m H0 Hm Ht. rewrite Hsrc by lia. f_equal. f_equal. lia. }
    apply wp_bind. wp_use (writei_spec start lsize nino (d_read (dsk k)) (dsk k) i (fun off m => src (pos + off) m) g (o + pos) n1 ltac:(lia) ltac:(lia) ltac:(lia)
      Hs k2 (d_read (dsk k)) ∅ (busied ip)).
    + split; [done|apply not_elem_of_empty| |done|by apply busied_file]. unfold k2. cbn. rewrite list_lookup_insert_eq; [done|]. rewrite I1. by eapply lookup_lt_Some.
    + done.
    + done.
    + done.
    + change (missing (o + pos) n1 (d_read (dsk k)) (busied ip) 0) with (missing (o + pos) n1 (d_read (dsk k)) ip 0). lia.
    + rewrite (right_id_L ∅ (∪)). pose proof (logset_count nino (reach (o + pos) n1) (busied ip)).
      assert (size (logset nino (reach (o + pos) n1) (busied ip)) <= 2)%nat by (destruct (reach _ _); lia). unfold blocks_left. rewrite (proj2 (Z.ltb_lt 0 n1)) by lia. change BSIZE with 512.
      Z.to_euclidean_division_equations. lia.
    + intros r k3 (-> & V' & T' & ip2 & Fr3 & I3 & [X3 _ Ei3 F3 Sf3] & Wr & Hcnt).
      destruct (unbusied_written _ _ _ _ _ _ Sf3 Wr) as (E2 & Er & Sf' & Wr'). set (ip' := is_flags (i_flags ip) ip2) in *.
      assert (Fl3 : files k3 = files k) by (rewrite <- Fl2; unfold ifr, bfr in Fr3; by rewrite Fr3).
      rewrite (proj2 (Z.ltb_lt 0 n1)) by lia. cbn [when]. apply wp_bind. unfold fileupd. apply wp_modify. rewrite Fl3.
      rewrite (alter_insert _ _ _ _ Ef), Eo, u32_small by (change (MAXFILE * BSIZE) with 71680 in *; lia). set (k4 := ks_files _ k3).
      destruct X3 as (ws0 & D0 & X4 & HT4 & H4). destruct (tx_unl _ _ _ _ _ _ _ _ X4) as (U1 & U2 & U3).
      apply wp_bind, (iunlock_busied i k4 ip'); [by rewrite <- E2|by rewrite Er|done| |done|].
      { unfold k4. cbn. unfold ifr, bfr in Fr3. rewrite Fr3. unfold bfr in Fr1. cbn. by rewrite Fr1. }
      intros ps. set (k5 := ks_procs ps _). apply wp_ret.
      assert (X5 : tx start lsize (d_read (dsk k)) (dsk k) k5 V' T') by (apply (tx_frame _ _ _ _ k3); try done; by exists ws0, D0).
      destruct X5 as (ws & D & X5 & _ & H5). exists ws, V', D. split; [done|]. split; [done|]. split; [done|]. exists ip'.
      assert (I5 : inodes k5 = <[i := ip']> (inodes k)).
      { unfold k5, k4. cbn. rewrite I3. unfold k2. cbn. by rewrite I1, !list_insert_insert_eq. }
      split_and!; [done| |done|by split_and!|done].
      split; [rewrite I5; apply list_lookup_insert_eq; by eapply lookup_lt_Some|by rewrite Er|done|done|].
      unfold k5, k4. cbn. unfold ifr, bfr in Fr3. rewrite Fr3. unfold bfr in Fr1. cbn. by rewrite Fr1.
  - intros r k' (ws & V & k2 & Hc & Fr & (-> & ip' & I2 & Ah2 & Fl2 & Hnew & Hcnt) & E). split; [done|]. pose proof Hc as (W & Q & _ & I1).
    assert (EV : forall t, 0 <= t < start -> d_read (dsk k') t = V t) by (intros t Ht; rewrite E by done; by apply I1).
    assert (I' : inodes k' = <[i := ip']> (inodes k)) by (by rewrite (bfr_inodes _ _ Fr)). split_and!; [|by exists ws|].
    + split; [done|]. exists ip'. split_and!; [done| | |].
      * destruct Ah2. split; try done; [rewrite I'; apply list_lookup_insert_eq; by eapply lookup_lt_Some|]. unfold bfr in Fr. by rewrite Fr.
      * unfold bfr in Fr. rewrite Fr. cbn. done.
      * apply (new_file_ext start lsize nino _ _ _ _ _ V); (done || lia).
    + destruct Hnew as (F' & _). by rewrite (free_ext start lsize nino V (d_read (dsk k'))) by (done || lia).
Qed.

Lemma file_written_none V ip off : sound_file start lsize nino V ip -> 0 <= off <= i_size ip -> file_written start nino g off 0 V ip V ip.
Proof.
  intros Sf Hoff. split; try done.
  - lia.
  - intros j Hj. destruct (Z.leb_spec off j), (Z.ltb_spec j (off + 0)); cbn; try done; lia.
  - by destruct ip.
  - intros c Hc Ha. by left.
  - lia.
Qed.

Lemma trans_then pos n1 (K : Z -> KM Z) k Q :
  wp (in_trans (write_body pos n1)) k (fun r k' => wp (K r) k' Q) ->
  wp (begin_trans ;;;
      ilock (Some i) ;;;
      let! x := fileget f in
      let! r := writei i (fun off m => src (pos + off) m) (f_off x) n1 in
      when (0 <? r) (fileupd f (fun x => fs_off (u32 (f_off x + r)) x)) ;;;
      iunlock (Some i) ;;;
      commit_trans ;;;
      K r) k Q.
Proof.
  unfold in_trans, write_body. intros W. apply wp_bind. apply wp_bind_inv in W. eapply wp_mono; [exact W|]. intros [] k1 W1.
  apply wp_bind_inv in W1. apply wp_bind. apply wp_bind_inv in W1. eapply wp_mono; [exact W1|]. intros [] k2 W2.
  apply wp_bind. apply wp_bind_inv in W2. eapply wp_mono; [exact W2|]. intros x k3 W3.
  apply wp_bind. apply wp_bind_inv in W3. eapply wp_mono; [exact W3|]. intros r k4 W4.
  apply wp_bind. apply wp_bind_inv in W4. eapply wp_mono; [exact W4|]. intros [] k5 W5.
  apply wp_bind. apply wp_bind_inv in W5. eapply wp_mono; [exact W5|]. intros [] k6 W6.
  apply wp_bind. apply wp_bind_inv in W6. exact W6.
Qed.

Lemma advanced_none k ip x : between k ip x n -> advanced k k ip x n 0.
Proof.
  intros Bt. pose proof Bt as [Hq Ah Ef Eo F Sf Hin Hi Hfits _]. split; [done|]. exists ip. split_and!; [| done | |].
  - rewrite list_insert_id; [done|apply Ah].
  - rewrite list_insert_id; [done|]. rewrite Z.add_0_r, <- Eo. by destruct x.
  - split; [done|]. split; [done|]. apply file_written_none; [done|lia].
Qed.

Lemma between_after k k' ip ip' x pos n1 : between k ip x pos -> 0 <= pos -> 0 < n1 <= n - pos ->
  quiet start lsize k' -> at_hand i k' ip' -> files k' = <[f := fs_off (o + pos + n1) x]> (files k) ->
  new_file start lsize nino g (o + pos) n1 k ip (d_read (dsk k')) ip' ->
  (size (free_blocks start lsize nino (d_read (dsk k))) <= size (free_blocks start lsize nino (d_read (dsk k'))) + missing (o + pos) n1 (d_read (dsk k)) ip 0)%nat ->
  between k' ip' (fs_off (o + pos + n1) x) (pos + n1).
Proof.
  intros [Hq Ah Ef Eo F Sf Hin Hi Hfits Hroom] Hp Hn1 Q' Ah' Fl (F' & Sf' & W) Hcnt.
  pose proof (fw_size _ _ _ _ _ _ _ _ _ W) as Es. assert (En : i_inum ip' = i_inum ip) by (by rewrite (fw_same _ _ _ _ _ _ _ _ _ W)).
  split; try done.
  - rewrite Fl. apply list_lookup_insert_eq. by eapply lookup_lt_Some.
  - cbn. lia.
  - lia.
  - by rewrite En.
  - by apply (fw_fits _ _ _ _ _ _ _ _ _ W).
  - pose proof (missing_split (o + pos) n1 (n - pos) (d_read (dsk k)) ip (d_read (dsk k')) ip' ltac:(lia) Hn1 ltac:(lia) (fw_cells _ _ _ _ _ _ _ _ _ W) (fw_covers _ _ _ _ _ _ _ _ _ W)) as Ms.
    replace (o + (pos + n1)) with (o + pos + n1) by lia. replace (n - (pos + n1)) with (n - pos - n1) by lia. lia.
Qed.

Lemma filewrite_loop_spec fuel : forall k ip x pos, between k ip x pos -> 0 <= pos <= n -> n - pos <= 1536 * Z.of_nat fuel ->
  wp (filewrite_loop f i src pos n fuel) k (fun r k' => r = n /\ advanced k k' ip x pos (n - pos)).
Proof.
  induction fuel as [|fuel IH]; intros k ip x pos Bt Hp Hfuel; cbn [filewrite_loop]; destruct (Z.ltb_spec pos n) as [Hlt|Hge]; [lia| | |].
  1, 3: assert (pos = n) as -> by lia; apply wp_ret; rewrite Z.sub_diag; split; [done|by apply advanced_none].
  change write_max with 1536. set (n1 := if 1536 <? n - pos then 1536 else n - pos).
  assert (Hn1 : 0 < n1 <= n - pos /\ n1 <= 1536 /\ (n1 = 1536 \/ n1 = n - pos)) by (unfold n1; destruct (Z.ltb_spec 1536 (n - pos)); lia).
  clearbody n1. apply trans_then. eapply wp_mono; [apply (write_chunk k ip x pos n1 Bt); lia|].
  intros r k' (-> & (Q' & ip' & I' & Ah' & Fl' & Hnew) & _ & Hcnt). rewrite (proj2 (Z.ltb_ge n1 0)), Z.eqb_refl by lia. cbn [negb].
  pose proof (between_after k k' ip ip' x pos n1 Bt ltac:(lia) ltac:(lia) Q' Ah' Fl' Hnew Hcnt) as Bt'.
  eapply wp_mono; [apply (IH k' ip' _ (pos + n1) Bt'); lia|]. intros r k2 (-> & Q2 & ip2 & I2 & Ah2 & Fl2 & F2 & Sf2 & W2).
  destruct Hnew as (_ & _ & W1). split; [done|]. split; [done|]. exists ip2. split_and!; [by rewrite I2, I', list_insert_insert_eq|done| |].
  - rewrite Fl2, Fl', list_insert_insert_eq. f_equal. unfold fs_off. cbn. f_equal. lia.
  - split; [done|]. split; [done|]. replace (n - pos) with (n1 + (n - (pos + n1))) by lia. replace (o + (pos + n1)) with (o + pos + n1) in W2 by lia.
    apply (file_written_trans start lsize nino g (o + pos) n1 (n - (pos + n1)) _ ip (d_read (dsk k')) ip'); (done || lia).
Qed.

(** ** Crashes *)

(** The numbers of bytes after which a transaction ends. *)
Definition whole (p : Z) : Prop := 0 <= p <= n /\ (p = n \/ p mod write_max = 0).

Section Base.
Context (k0 : kstate) (ip0 : inode).

(** Before the log the file is as after [p] bytes of the write. *)
Definition holds_prefix (V : Z -> block) : Prop := exists p ip', whole p /\ new_file start lsize nino g o p k0 ip0 V ip'.

(** A disk between or inside transactions of the write. *)
Definition prefix_disk (d : disk) : Prop := exists old ws, placed start lsize old /\ wset start lsize ws /\ crash_ok start old ws d /\
  holds_prefix old /\ holds_prefix (install ws old).

Lemma holds_prefix_ext V V' : 0 <= i_inum ip0 <= nino -> (forall t, 0 <= t < start -> V' t = V t) -> holds_prefix V -> holds_prefix V'.
Proof.
  intros Hi E (p & ip' & Hw & Hnew). exists p, ip'. split; [done|]. apply (new_file_ext start lsize nino _ _ _ _ _ V); (done || lia).
Qed.

(** The super block is not written. *)
Lemma new_file_sb k ip off m V ip' : fs_ok start lsize nino (d_read (dsk k)) -> sound_file start lsize nino (d_read (dsk k)) ip -> 0 <= i_inum ip <= nino ->
  new_file start lsize nino g off m k ip V ip' -> V 1 = d_read (dsk k) 1.
Proof.
  intros F Sf Hi (_ & _ & W). pose proof (bm_range start lsize nino _ F) as [Hbm _]. pose proof (iblock_range start lsize nino _ _ F Hi) as Hib.
  pose proof (gm_meta _ _ _ _ (fk_geom _ _ _ _ F)) as Hm.
  apply (fw_frame _ _ _ _ _ _ _ _ _ W); [lia|lia|lia|apply (fk_meta _ _ _ _ F); lia|].
  intros c Hc Ha. destruct (sf_cell _ _ _ _ _ Sf c Hc Ha). lia.
Qed.

(** What is written in one transaction from a prefix on. *)
Lemma prefix_after k k' ip ip' pos n1 : 0 <= pos -> 0 < n1 <= n - pos -> new_file start lsize nino g o pos k0 ip0 (d_read (dsk k)) ip ->
  new_file start lsize nino g (o + pos) n1 k ip (d_read (dsk k')) ip' -> new_file start lsize nino g o (pos + n1) k0 ip0 (d_read (dsk k')) ip'.
Proof.
  intros Hp Hn1 (F & Sf & W) (F' & Sf' & W'). split; [done|]. split; [done|].
  apply (file_written_trans start lsize nino g o pos n1 _ ip0 (d_read (dsk k)) ip); (done || lia).
Qed.

Lemma filewrite_loop_hist fuel : forall k ip x pos, between k ip x pos -> 0 <= i_inum ip0 <= nino -> whole pos -> n - pos <= 1536 * Z.of_nat fuel ->
  placed start lsize (d_read (dsk k)) -> new_file start lsize nino g o pos k0 ip0 (d_read (dsk k)) ip ->
  wp (filewrite_loop f i src pos n fuel) k (fun _ k' => hist prefix_disk (dsk k) (dsk k')).
Proof.
  induction fuel as [|fuel IH]; intros k ip x pos Bt Hi0 Hw Hfuel Hpl Hnew0; pose proof Hw as [Hp Hw']; cbn [filewrite_loop]; destruct (Z.ltb_spec pos n) as [Hlt|Hge]; [lia| | |].
  1, 3: apply wp_ret, hist_refl; exists (d_read (dsk k)), []; split_and!; [done|by apply (wset_nil start lsize (dsk k)), Bt|right; right| |];
    [|by exists pos, ip|by exists pos, ip]; pose proof (bt_quiet _ _ _ _ Bt) as [Qc _ _ _ _ Qh]; split; [|done]; destruct Qc as (_ & C & _); intros t; apply (cs_len _ _ _ _ _ C).
  change write_max with 1536. set (n1 := if 1536 <? n - pos then 1536 else n - pos).
  assert (Hn1 : 0 < n1 <= n - pos /\ n1 <= 1536 /\ (n1 = 1536 \/ n1 = n - pos)) by (unfold n1; destruct (Z.ltb_spec 1536 (n - pos)); lia).
  clearbody n1. apply trans_then. eapply wp_mono; [apply (write_chunk k ip x pos n1 Bt); lia|].
  intros r k' (-> & (Q' & ip' & I' & Ah' & Fl' & Hnew) & (ws & Wc & _ & Hh & _ & _ & Hm) & Hcnt). rewrite (proj2 (Z.ltb_ge n1 0)), Z.eqb_refl by lia. cbn [negb].
  pose proof (between_after k k' ip ip' x pos n1 Bt ltac:(lia) ltac:(lia) Q' Ah' Fl' Hnew Hcnt) as Bt'.
  pose proof Bt as [Hq Ah Ef Eo F Sf Hin Hi Hfits Hroom].
  assert (Hw1 : whole (pos + n1)).
  { split; [lia|]. destruct Hw' as [->|Hz]; [lia|]. destruct Hn1 as (_ & _ & [->| ->]); [right|left; lia]. change write_max with 1536 in *. Z.to_euclidean_division_equations. lia. }
  pose proof (prefix_after k k' ip ip' pos n1 ltac:(lia) ltac:(lia) Hnew0 Hnew) as Hnew1.
  eapply wp_mono; [apply (IH k' ip' _ (pos + n1) Bt' Hi0 Hw1); [lia| |done]|].
  - unfold placed. by rewrite (new_file_sb k ip (o + pos) n1 _ ip').
  - intros r2 k2 H2. eapply hist_trans; [|exact H2]. eapply hist_mono; [|exact Hh]. intros d Hd. exists (d_read (dsk k)), ws. split_and!; try done.
    + by exists pos, ip.
    + apply (holds_prefix_ext (d_read (dsk k'))); [done| |by exists (pos + n1), ip']. intros t Ht. by rewrite Hm.
Qed.

Lemma prefix_boot kb d : prefix_disk d -> 0 <= i_inum ip0 <= nino -> layout d start lsize -> fresh kb d ->
  wp boot kb (fun _ kb' => quiet start lsize kb' /\ hist prefix_disk d (dsk kb') /\ holds_prefix (d_read (dsk kb'))).
Proof.
  intros (old & ws & Hpl & Wc & Hd & P1 & P2) Hi Ly Hf. wp_use (boot_spec start lsize old ws kb d Hf Ly Hpl Wc Hd). intros _ kb' (Q & Hh & Hm).
  split; [done|]. split.
  - eapply hist_mono; [|exact Hh]. intros d' Hd'. by exists old, ws.
  - destruct Hm as [Hm|Hm]; [apply (holds_prefix_ext old)|apply (holds_prefix_ext (install ws old))]; done.
Qed.

Lemma crashes_prefix {A} (m : KM A) k d : layout (dsk k) start lsize -> 0 <= i_inum ip0 <= nino ->
  (forall a k', m k = Ok a k' -> hist prefix_disk (dsk k) (dsk k')) -> crashes m k d -> prefix_disk d /\ layout d start lsize.
Proof.
  intros Ly Hi Hrun Hd. induction Hd as [a k' d Hr Hc|d kb kb' d' Hd [IH1 IH2] Hf Hb Hc].
  - destruct (hist_point _ _ _ _ (Hrun a k' Hr) Hc) as [Hok Hs]. split; [done|]. by eapply layout_size.
  - pose proof (prefix_boot kb d IH1 Hi IH2 Hf) as Wb. unfold wp in Wb. rewrite Hb in Wb. destruct Wb as (_ & Hh & _).
    destruct (hist_point _ _ _ _ Hh Hc) as [Hok Hs]. split; [done|]. by eapply layout_size.
Qed.
End Base.
End Loop.

(** ** Theorems *)

Section Theorems.
Context `{KernelImage} `{Wakeups} (start lsize nino : Z).

(** A writable descriptor [f], with file [x], of the inode in slot [i]; the write of [n] bytes [g]
    starts at the descriptor's offset; the file system is at rest, the log has at least eight
    blocks, there is room on the disk, and the file stays within the largest size. *)
Record can_filewrite (f i : nat) (src : source) (g : Z -> byte) (n : Z) (k : kstate) (x : file) (ip : inode) : Prop := {
  cf_type : f_type x = FD_INODE;
  cf_writable : f_writable x = true;
  cf_ip : f_ip x = Some i;
  cf_off : 0 <= f_off x;
  cf_len : 0 <= n /\ f_off x + n <= MAXFILE * BSIZE;
  cf_log : 8 <= lsize;
  (** The bytes are the same in every state: a source outside the memory that changes. *)
  cf_src : forall k tot m, 0 <= tot -> 0 <= m -> tot + m <= n -> src tot m k = Ok (window g (f_off x + tot) m) k;
  cf_state : between start lsize nino f i (f_off x) n k ip x 0
}.

Lemma filewrite_fuel n : 0 <= n -> n - 0 <= 1536 * Z.of_nat (Z.to_nat (n / write_max + 1)).
Proof. intros Hn. change write_max with 1536. Z.to_euclidean_division_equations. lia. Qed.

Lemma filewrite_run f i src g n k x ip (P : kstate -> Prop) : can_filewrite f i src g n k x ip ->
  wp (filewrite_loop f i src 0 n (Z.to_nat (n / write_max + 1))) k (fun r k' => r = n /\ P k') ->
  wp (filewrite f src n) k (fun r k' => r = n /\ P k').
Proof.
  intros [Ty Wr Ip Off [Len End_] Lg Src St] W. unfold filewrite, fileget. apply wp_bind, wp_bind, wp_gets. rewrite (bt_file _ _ _ _ _ _ _ _ _ _ _ St).
  apply wp_ret. rewrite Wr, Ty, Ip. cbn [negb]. apply wp_bind, wp_ret, wp_bind. eapply wp_mono; [exact W|]. intros r k' [-> HP]. apply wp_ret. by rewrite Z.eqb_refl.
Qed.

(** C8. A write through a descriptor, of bytes that do not change while it runs, returns,
    however many transactions it takes, the number of bytes and advances the offset by it;
    the disk then holds the file with its new size and inode, with the bytes written in the
    range and the old ones elsewhere, and every other file, inode and block in use unchanged;
    the inode is unlocked and the log empty. *)
Theorem filewrite_correct f i src g n k x ip : can_filewrite f i src g n k x ip ->
  wp (filewrite f src n) k (fun r k' => r = n /\ quiet start lsize k' /\ files k' = <[f := fs_off (f_off x + n) x]> (files k) /\
    exists ip', inodes k' = <[i := ip']> (inodes k) /\ has (i_flags ip') I_BUSY = false /\
      new_file start lsize nino g (f_off x) n k ip (d_read (dsk k')) ip').
Proof.
  intros C. pose proof C as [Ty Wr Ip Off [Len End_] Lg Src St]. apply (filewrite_run f i src g n k x ip _ C).
  eapply wp_mono; [apply (filewrite_loop_spec start lsize nino f i src g (f_off x) n Off Len End_ Lg Src _ k ip x 0 St); [lia|by apply filewrite_fuel]|].
  intros r k' (-> & Q & ip' & I' & Ah & Fl & Hnew). rewrite Z.sub_0_r, Z.add_0_r in *. split_and!; try done. exists ip'. by destruct Ah.
Qed.

Lemma filewrite_hist f i src g n k x ip : can_filewrite f i src g n k x ip -> placed start lsize (d_read (dsk k)) ->
  wp (filewrite f src n) k (fun r k' => r = n /\ hist (prefix_disk start lsize nino g (f_off x) n k ip) (dsk k) (dsk k')).
Proof.
  intros C Hpl. pose proof C as [Ty Wr Ip Off [Len End_] Lg Src St]. pose proof (bt_inum _ _ _ _ _ _ _ _ _ _ _ St) as Hi.
  assert (New0 : new_file start lsize nino g (f_off x) 0 k ip (d_read (dsk k)) ip).
  { split; [apply St|]. split; [apply St|]. apply (file_written_none start lsize nino); [apply St|]. pose proof (bt_in _ _ _ _ _ _ _ _ _ _ _ St). lia. }
  apply (filewrite_run f i src g n k x ip _ C).
  pose proof (filewrite_loop_spec start lsize nino f i src g (f_off x) n Off Len End_ Lg Src _ k ip x 0 St ltac:(lia) (filewrite_fuel n Len)) as W1.
  pose proof (filewrite_loop_hist start lsize nino f i src g (f_off x) n Off End_ Lg Src k ip _ k ip x 0 St Hi ltac:(split; [lia|by right]) (filewrite_fuel n Len) Hpl New0) as W2.
  apply wp_Ok in W1 as (r & k' & E & -> & _). apply wp_Ok. exists n, k'. split; [done|]. split; [done|]. unfold wp in W2. by rewrite E in W2.
Qed.

(** A crash before the first write. *)
Lemma filewrite_crash_first f i src g n k x ip : can_filewrite f i src g n k x ip -> placed start lsize (d_read (dsk k)) -> crashes (filewrite f src n) k (dsk k).
Proof.
  intros C Hpl. pose proof (filewrite_hist f i src g n k x ip C Hpl) as W. apply wp_Ok in W as (r & k' & E & _ & ws & Ed & _).
  apply (crash_run _ _ r k' _ E). exists ws, []. rewrite Ed. split; [done|]. by destruct (dsk k).
Qed.

(** C5. Wherever the machine stops during a write through a descriptor, of bytes that do not
    change while it runs, also during later recovery, booting returns and the disk holds the file as after a part of the write that
    whole transactions make up: its first bytes up to a multiple of the largest transaction, or
    all of them, with nothing else changed. *)
Theorem filewrite_crash f i src g n k x ip d kb : can_filewrite f i src g n k x ip -> placed start lsize (d_read (dsk k)) ->
  crashes (filewrite f src n) k d -> fresh kb d ->
  wp boot kb (fun _ kb' => quiet start lsize kb' /\ exists p ip', 0 <= p <= n /\ (p = n \/ p mod write_max = 0) /\
    new_file start lsize nino g (f_off x) p k ip (d_read (dsk kb')) ip').
Proof.
  intros C Hpl Hd Hf. pose proof C as [Ty Wr Ip Off [Len End_] Lg Src St]. pose proof (bt_inum _ _ _ _ _ _ _ _ _ _ _ St) as Hi.
  pose proof (filewrite_hist f i src g n k x ip C Hpl) as Run.
  destruct (crashes_prefix start lsize nino g (f_off x) n Lg k ip (filewrite f src n) k d) as [Pd Ly]; [apply (bt_quiet _ _ _ _ _ _ _ _ _ _ _ St)|done| |done|].
  { intros r k' E. unfold wp in Run. rewrite E in Run. apply Run. }
  eapply wp_mono; [apply (prefix_boot start lsize nino g (f_off x) n Lg k ip kb d Pd Hi Ly Hf)|].
  intros _ kb' (Q & _ & p & ip' & [Hp Hw] & Hnew). split; [done|]. by exists p, ip'.
Qed.
End Theorems.

(** ** A descriptor on the small disk *)

#[local] Existing Instance example_image.
#[local] Instance fd_wakeups : Wakeups := 1%nat.

(** The file of 6100 bytes, open at offset 5000. *)
Definition fd_inode : inode := is_flags 2 fx_inode.
Definition fd_file : file := File FD_INODE 1 true true 0 (Some 0%nat) 5000.
Definition fd_machine : kstate := ks_files [fd_file] (ks_inodes [fd_inode] fx_machine).

Lemma fd_can : can_filewrite 20 10 8 0 0 (from_local (replicate 2000 x41)) (fun _ => x41) 2000 fd_machine fd_file fd_inode.
Proof.
  split; try done.
  - intros k tot m Ht Hm Hle. apply replicate_source; lia.
  - split; try done.
    + destruct fx_quiet as [Qc Qu Ql Qi Qy Qh]. by split.
    + exact fx_fs.
    + destruct fx_file as [[O1 O2 O3 O4 O5 O6] Sc Si]. split; [by split|done|done].
    + split; [| |done]; cbn; unfold T_FILE; repeat (apply Forall_cons; split; [lia|]); apply Forall_nil_2.
Qed.

Lemma filewrite_correct_witness : wp (filewrite 0 (from_local (replicate 2000 x41)) 2000) fd_machine (fun r k' => r = 2000 /\
  exists ip', inodes k' = [ip'] /\ i_size ip' = 7000 /\ fbyte (d_read (dsk k')) ip' 6900 = x41).
Proof.
  eapply wp_mono; [apply (filewrite_correct 20 10 8 0 0 (from_local (replicate 2000 x41)) (fun _ => x41) 2000 fd_machine fd_file fd_inode fd_can)|].
  intros r k' (-> & _ & _ & ip' & E & _ & _ & _ & W). split; [reflexivity|]. exists ip'. split; [exact E|].
  pose proof (fw_size _ _ _ _ _ _ _ _ _ W) as Es. change (i_size ip' = 7000) in Es. split; [exact Es|].
  rewrite (fw_bytes _ _ _ _ _ _ _ _ _ W); [reflexivity|]. rewrite Es. lia.
Defined.

Lemma filewrite_crash_witness : exists d kb, crashes (filewrite 0 (from_local (replicate 2000 x41)) 2000) fd_machine d /\ fresh kb d /\
  wp boot kb (fun _ kb' => quiet 20 10 kb').
Proof.
  set (kb := ks_klog (LogState 0 0 false 0 0 (replicate 10 0)) (ks_bufs (replicate 11 buf0) fd_machine)).
  exists (dsk fd_machine), kb.
  assert (Hp : placed 20 10 (d_read (dsk fd_machine))) by (split; vm_compute; reflexivity).
  pose proof (filewrite_crash_first 20 10 8 0 0 (from_local (replicate 2000 x41)) (fun _ => x41) 2000 fd_machine fd_file fd_inode fd_can Hp) as Hc.
  assert (Hf : fresh kb (dsk fd_machine)) by (split; try reflexivity; [split_and!; reflexivity|split; reflexivity]).
  split; [exact Hc|]. split; [exact Hf|].
  eapply wp_mono; [apply (filewrite_crash 20 10 8 0 0 (from_local (replicate 2000 x41)) (fun _ => x41) 2000 fd_machine fd_file fd_inode (dsk fd_machine) kb fd_can Hp Hc Hf)|].
  intros u kb' [Q _]. exact Q.
Defined.
