(* ===== verification/Trunc.v ===== *)
(** * Giving a file's storage back

    [itrunc], the last [iput] of an inode without links, and [fileclose] of its last descriptor:
    every block of the file, the indirect one included, and the inode itself are free afterwards. *)

From S2P Require Import Prelude Layout Mem Kalloc Vm State Sched Bytes Bio BioFacts BioProps Log.
From S2P Require Import LogFacts LogProps.
From S2P Require Import Inode Console Fs Codec FsFacts FileFacts WriteFacts FsProps IcacheFacts.
From S2P Require Import Pipe File FileProps.

Open Scope Z_scope.

(** ** The blocks that a range of cells names *)

Fixpoint blocks_in (f : Z -> Z) (b : Z) (n : nat) : gset Z :=
  match n with
  | O => ∅
  | S n => (if f b =? 0 then ∅ else {[f b]}) ∪ blocks_in f (b + 1) n
  end.

Lemma elem_of_blocks f n a : forall b,
  a ∈ blocks_in f b n <-> a <> 0 /\ exists c, b <= c < b + Z.of_nat n /\ f c = a.
Proof.
  induction n as [|n IH]; intros b; cbn [blocks_in].
  - rewrite elem_of_empty. split; [done|]. intros (_ & c & Hc & _). lia.
  - rewrite elem_of_union, IH. destruct (Z.eqb_spec (f b) 0) as [E|E].
    + rewrite elem_of_empty. split.
      * intros [[]|(Ha & c & Hc & Ec)]. split; [done|]. exists c. split; [lia|done].
      * intros (Ha & c & Hc & Ec). right. split; [done|]. exists c. split; [|done]. destruct (decide (c = b)); [congruence|lia].
    + rewrite elem_of_singleton. split.
      * intros [->|(Ha & c & Hc & Ec)]; [split; [done|exists b; split; [lia|done]]|]. split; [done|]. exists c. split; [lia|done].
      * intros (Ha & c & Hc & Ec). destruct (decide (c = b)) as [->|]; [by left|]. right. split; [done|]. exists c. split; [lia|done].
Qed.

Lemma blocks_in_ext f g b n : (forall c, b <= c < b + Z.of_nat n -> f c = g c) -> blocks_in f b n = blocks_in g b n.
Proof.
  intros E. apply set_eq. intros a. rewrite !elem_of_blocks. split; intros (Ha & c & Hc & Ec); (split; [done|]); exists c; (split; [done|]).
  - by rewrite <- E.
  - by rewrite E.
Qed.

(** The blocks of a file, with the one of its indirect addresses. *)
Definition file_blocks (V : Z -> block) (ip : inode) : gset Z := blocks_in (cell V ip) 0 (Z.to_nat NCELLS).

Section Trunc.
Context `{Wakeups} (start lsize nino : Z) (old : Z -> block) (d0 : disk).

(** ** Clearing bits *)

(** The bits of the blocks [B] are clear, and nothing else changed. *)
Record cleared (V : Z -> block) (B : gset Z) (V' : Z -> block) : Prop := {
  ce_used : forall j, 0 <= j < start + lsize -> used nino V' j = if decide (j ∈ B) then false else used nino V j;
  ce_rest : forall t, 0 <= t < start -> t <> bmblock nino -> V' t = V t
}.

Lemma cleared_none V : cleared V ∅ V.
Proof. split; [|done]. intros j _. by rewrite decide_False by set_solver. Qed.

Lemma cleared_trans V B1 V1 B2 V2 : cleared V B1 V1 -> cleared V1 B2 V2 -> cleared V (B1 ∪ B2) V2.
Proof.
  intros [A1 A2] [C1 C2]. split.
  - intros j Hj. rewrite C1, A1 by done. destruct (decide (j ∈ B2)); [by rewrite decide_True by set_solver|].
    destruct (decide (j ∈ B1)); [by rewrite decide_True by set_solver|by rewrite decide_False by set_solver].
  - intros t Ht Hb. by rewrite C2, A2.
Qed.

Lemma cleared_fs V B V' : fs_ok start lsize nino V -> 0 <= lsize -> (forall a, a ∈ B -> meta start lsize nino <= a) ->
  (forall t, 0 <= t < start -> length (V' t) = 512%nat) -> cleared V B V' -> fs_ok start lsize nino V'.
Proof.
  intros F Hl HB Len [C1 C2]. pose proof (bm_range _ _ _ V F) as [Hbm _]. pose proof F as [[G1 G2 G3 G4] F2 F3 F4].
  assert (E1 : V' 1 = V 1) by (apply C2; lia). split; [split; by rewrite ?E1|done| |done].
  intros j Hj. rewrite C1 by lia. rewrite decide_False by (intros Hin%HB; lia). by apply F3.
Qed.

Lemma cleared_free V B V' : fs_ok start lsize nino V -> 0 <= lsize -> (forall a, a ∈ B -> meta start lsize nino <= a < start) ->
  cleared V B V' -> free_blocks start lsize nino V' = free_blocks start lsize nino V ∪ B.
Proof.
  intros F Hl HB [C1 _]. pose proof (bm_range _ _ _ V F) as [Hbm _]. apply set_eq. intros b. rewrite elem_of_union, !elem_of_free. split.
  - intros [Hb Hu]. rewrite C1 in Hu by lia. destruct (decide (b ∈ B)); [by right|by left].
  - intros [[Hb Hu]|Hin]; [split; [done|]; rewrite C1, Hu by lia; by destruct (decide _)|].
    specialize (HB b Hin). split; [done|]. rewrite C1 by lia. by rewrite decide_True.
Qed.

Lemma cleared_one V V' b : fs_ok start lsize nino V -> 0 <= lsize -> meta start lsize nino <= b < start ->
  (forall t, 0 <= t < start -> V' t = freed_at nino b V t) -> cleared V {[b]} V'.
Proof.
  intros F Hl Hb E. pose proof (bm_range _ _ _ V F) as [Hbm _]. pose proof (fk_one _ _ _ _ F) as H1.
  pose proof (bblock_one start lsize nino b ltac:(lia) H1) as Ebb. split.
  - intros j Hj. unfold used. rewrite (bblock_one start lsize nino) by done. rewrite E by lia. unfold freed_at.
    rewrite Ebb, fset_at, !Z.mod_small by lia. rewrite in_use_mark_free; [|lia|lia|apply (fk_len _ _ _ _ F); lia].
    destruct (Z.eqb_spec j b) as [->|]; [by rewrite decide_True by set_solver|by rewrite decide_False by set_solver].
  - intros t Ht Hne. rewrite E by done. unfold freed_at. by rewrite Ebb, fset_ne.
Qed.

Lemma bfree_step L k V T a : txw start lsize L old d0 k V T -> bmblock nino ∈ T -> fs_ok start lsize nino V ->
  Z.of_nat (size T) < lsize - 1 -> aside start lsize nino L T -> meta start lsize nino <= a < start -> used nino V a = true ->
  wp (bfree 1 a) k (fun _ k' => exists V', bfr k k' /\ txw start lsize L old d0 k' V' T /\ fs_ok start lsize nino V' /\ cleared V {[a]} V').
Proof.
  intros X Hin F Hfit A Ha Hu. pose proof (tx_layout _ _ _ _ _ _ _ X) as [Y1 Y2 Y3 Y4]. pose proof (bm_range _ _ _ V F) as [Hbm _].
  wp_use (bfree_held start lsize old d0 nino L k V T a X (fk_geom _ _ _ _ F) Hfit A); [lia|done|].
  intros [] k' (V' & Fr & X' & E). rewrite (bblock_one start lsize nino) in X' by (apply F || lia).
  replace ({[bmblock nino]} ∪ T) with T in X' by set_solver.
  pose proof (cleared_one V V' a F ltac:(lia) Ha E) as C. exists V'. split_and!; try done.
  apply (cleared_fs V {[a]}); try done; [lia|set_solver by lia|]. intros t _. by eapply tx_block.
Qed.

(** ** The two loops *)

(** The cells [b], ..., [b + n - 1] of [f] name different data blocks in use. *)
Definition owned (V : Z -> block) (f : Z -> Z) (b : Z) (n : nat) : Prop :=
  (forall c, b <= c < b + Z.of_nat n -> f c <> 0 -> meta start lsize nino <= f c < start /\ used nino V (f c) = true) /\
  (forall c c', b <= c < b + Z.of_nat n -> b <= c' < b + Z.of_nat n -> f c <> 0 -> f c = f c' -> c = c').

Lemma owned_tail V f g b n : owned V f b (S n) -> (forall c, b + 1 <= c < b + 1 + Z.of_nat n -> g c = f c) -> owned V g (b + 1) n.
Proof.
  intros [O1 O2] E. split.
  - intros c Hc. rewrite E by done. apply O1. lia.
  - intros c c' Hc Hc'. rewrite !E by done. apply O2; lia.
Qed.

Lemma owned_cleared V f g b n V' : 0 <= lsize -> 0 <= meta start lsize nino -> owned V f b (S n) -> f b <> 0 -> cleared V {[f b]} V' ->
  (forall c, b + 1 <= c < b + 1 + Z.of_nat n -> g c = f c) -> owned V' g (b + 1) n.
Proof.
  intros Hl Hm O Hb [C1 _] E. destruct (owned_tail V f g b n O E) as [O1 O2]. split; [|done].
  intros c Hc Hz. destruct (O1 c Hc Hz) as [R1 R2]. split; [done|]. rewrite C1 by lia. rewrite decide_False; [done|].
  rewrite elem_of_singleton, E by done. intros Ef. rewrite E in Hz by done. assert (c = b); [|lia]. apply (proj2 O); [lia|lia|done|done].
Qed.

Context (i : nat).

Lemma itrunc_direct_spec n : forall k V T ip b, tx start lsize old d0 k V T -> bmblock nino ∈ T -> fs_ok start lsize nino V ->
  Z.of_nat (size T) < lsize - 1 -> inodes k !! i = Some ip -> i_dev ip = 1 -> length (i_addrs ip) = 13%nat ->
  0 <= b -> b + Z.of_nat n <= 13 -> owned V (addr ip) b n ->
  wp (itrunc_direct i b n) k (fun _ k' => exists V' ip', ifr k k' /\ inodes k' = <[i := ip']> (inodes k) /\
    tx start lsize old d0 k' V' T /\ fs_ok start lsize nino V' /\ cleared V (blocks_in (addr ip) b n) V' /\
    ip' = is_addrs (i_addrs ip') ip /\ length (i_addrs ip') = 13%nat /\
    forall c, 0 <= c -> addr ip' c = if decide (b <= c < b + Z.of_nat n) then 0 else addr ip c).
Proof.
  induction n as [|n IH]; intros k V T ip b X Hin F Hfit Ei Hd H13 Hb Hbn O; cbn [itrunc_direct blocks_in].
  { apply wp_ret. exists V, ip.
    split_and!; [apply bfr_ifr, bfr_refl|by rewrite list_insert_id|done|done|apply cleared_none|by destruct ip|done|].
    intros c Hc. by rewrite decide_False by lia. }
  pose proof (tx_layout _ _ _ _ _ _ _ X) as [Y1 Y2 Y3 Y4]. pose proof (bm_range _ _ _ V F) as [Hbm _].
  apply wp_bind, (wp_addr_get k i ip); [done|lia|]. apply wp_bind, wp_when. destruct (Z.eqb_spec (addr ip b) 0) as [Ez|Ez]; cbn [negb].
  - wp_use (IH k V T ip (b + 1)); try done; [lia|lia|by apply (owned_tail V (addr ip))|].
    intros [] k' (V' & ip' & Fr & I' & X' & F' & C & Ein & H13' & Ad). exists V', ip'. split_and!; try done; [by rewrite (left_id_L ∅ (∪))|].
    intros c Hc. rewrite Ad by done. destruct (decide (c = b)) as [->|]; [by rewrite decide_False, decide_True by lia|].
    destruct (decide (b + 1 <= c < _)); [by rewrite decide_True by lia|by rewrite decide_False by lia].
  - apply wp_bind, (wp_inoget k i ip); [done|]. rewrite Hd. destruct (proj1 O b ltac:(lia) Ez) as [R1 R2].
    apply wp_bind. wp_use (bfree_step [] k V T (addr ip b) X Hin F Hfit); [apply aside_nil; lia|done|done|].
    intros [] k1 (V1 & Fr1 & X1 & F1 & C1). apply wp_modify.
    assert (Ei1 : inodes k1 !! i = Some ip) by (by rewrite (bfr_inodes _ _ Fr1)).
    rewrite (alter_insert _ _ _ _ Ei1). set (k2 := ks_inodes _ k1). fold (set_addr b 0 ip).
    assert (Ad1 : forall c, 0 <= c -> addr (set_addr b 0 ip) c = if c =? b then 0 else addr ip c) by (intros c Hc; apply addr_insert; (done || lia)).
    assert (Et : forall c, b + 1 <= c < b + 1 + Z.of_nat n -> addr (set_addr b 0 ip) c = addr ip c).
    { intros c Hc. rewrite Ad1 by lia. by rewrite (proj2 (Z.eqb_neq c b)) by lia. }
    wp_use (IH k2 V1 T (set_addr b 0 ip) (b + 1)); try done.
    + by apply (tx_frame _ _ _ _ k1).
    + unfold k2. cbn. apply list_lookup_insert_eq. by eapply lookup_lt_Some.
    + cbn. by rewrite length_insert.
    + lia.
    + lia.
    + apply (owned_cleared V (addr ip)); (done || lia).
    + intros [] k' (V' & ip' & Fr & I' & X' & F' & C & Ein & H13' & Ad). exists V', ip'. split_and!; try done.
      * eapply ifr_trans; [|exact Fr]. unfold ifr, bfr, k2. cbn. rewrite Fr1. done.
      * rewrite I'. unfold k2. cbn. by rewrite (bfr_inodes _ _ Fr1), list_insert_insert_eq.
      * rewrite (blocks_in_ext _ (addr ip)) in C by done. by eapply cleared_trans.
      * intros c Hc. rewrite Ad by done. rewrite Ad1 by done. destruct (Z.eqb_spec c b) as [->|].
        { rewrite (decide_True (P := b <= b < _)) by lia. by destruct (decide _). }
        destruct (decide (b + 1 <= c < _)); [by rewrite decide_True by lia|by rewrite decide_False by lia].
Qed.

(** The addresses in block [a]. *)
Definition entry (V : Z -> block) (a j : Z) : Z := get32 (4 * j) (V a).

Lemma itrunc_indirect_spec bp a n : forall k V T j, txw start lsize [(bp, a)] old d0 k V T -> bmblock nino ∈ T -> fs_ok start lsize nino V ->
  Z.of_nat (size T) < lsize - 2 -> meta start lsize nino <= a < start -> owned V (entry V a) j n ->
  wp (itrunc_indirect 1 bp j n) k (fun _ k' => exists V', bfr k k' /\ txw start lsize [(bp, a)] old d0 k' V' T /\
    fs_ok start lsize nino V' /\ cleared V (blocks_in (entry V a) j n) V').
Proof.
  induction n as [|n IH]; intros k V T j X Hin F Hfit Ha O; cbn [itrunc_indirect blocks_in].
  { apply wp_ret. exists V. split_and!; [apply bfr_refl|done|done|apply cleared_none]. }
  pose proof (tx_layout _ _ _ _ _ _ _ X) as [Y1 Y2 Y3 Y4]. pose proof (bm_range _ _ _ V F) as [Hbm _].
  apply wp_bind, (hold_bdata start lsize old d0 (L := []) _ V T bp a); [done|]. fold (entry V a j). apply wp_bind, wp_when.
  destruct (Z.eqb_spec (entry V a j) 0) as [Ez|Ez]; cbn [negb].
  - wp_use (IH k V T (j + 1)); try done; [by apply (owned_tail V (entry V a))|].
    intros [] k' (V' & Fr & X' & F' & C). exists V'. split_and!; try done. by rewrite (left_id_L ∅ (∪)).
  - destruct (proj1 O j ltac:(lia) Ez) as [R1 R2].
    wp_use (bfree_step [(bp, a)] k V T (entry V a j) X Hin F); [lia| |done|done|].
    { split; [cbn; intros s ->%list_elem_of_singleton; lia|]. unfold nbuf, NBUF. cbn [length]. lia. }
    intros [] k1 (V1 & Fr1 & X1 & F1 & C1).
    assert (Ea : forall c, entry V1 a c = entry V a c) by (intros c; unfold entry; by rewrite (ce_rest _ _ _ C1) by lia).
    wp_use (IH k1 V1 T (j + 1)); try done; [apply (owned_cleared V (entry V a)); (done || lia)|].
    intros [] k' (V' & Fr & X' & F' & C). exists V'. split_and!; try done; [by eapply bfr_trans|].
    rewrite (blocks_in_ext _ (entry V a)) in C by done. by eapply cleared_trans.
Qed.

(** ** The whole routine *)

Lemma cell_low V ip c : c <= NDIRECT -> cell V ip c = addr ip c.
Proof. intros Hc. unfold cell. by rewrite (proj2 (Z.leb_le c NDIRECT)). Qed.

Lemma cell_entry V ip j : 0 <= j -> addr ip NDIRECT <> 0 -> cell V ip (NDIRECT + 1 + j) = entry V (addr ip NDIRECT) j.
Proof.
  intros Hj Hn. unfold cell, entry. rewrite (proj2 (Z.leb_gt (NDIRECT + 1 + j) NDIRECT)), (proj2 (Z.eqb_neq _ 0)) by lia.
  do 2 f_equal. lia.
Qed.

(** The blocks of a file in the order of [itrunc]. *)
Lemma file_blocks_split V ip : file_blocks V ip =
  blocks_in (addr ip) 0 (Z.to_nat NDIRECT) ∪ (if addr ip NDIRECT =? 0 then ∅ else
    blocks_in (entry V (addr ip NDIRECT)) 0 (Z.to_nat NINDIRECT) ∪ {[addr ip NDIRECT]}).
Proof.
  unfold file_blocks. apply set_eq. intros a. rewrite elem_of_union, !elem_of_blocks. change (Z.of_nat (Z.to_nat NCELLS)) with 141.
  change (Z.of_nat (Z.to_nat NDIRECT)) with 12. split.
  - intros (Ha & c & Hc & Ec). destruct (decide (c < 12)).
    { left. split; [done|]. exists c. split; [lia|]. by rewrite <- (cell_low V) by (change NDIRECT with 12; lia). }
    right. destruct (decide (c = 12)) as [->|].
    + change 12 with NDIRECT in Ec. rewrite cell_ind in Ec. rewrite Ec, (proj2 (Z.eqb_neq a 0)) by done.
      by apply elem_of_union_r, elem_of_singleton.
    + destruct (Z.eqb_spec (addr ip NDIRECT) 0) as [E|E].
      * unfold cell in Ec. change NDIRECT with 12 in *. rewrite (proj2 (Z.leb_gt c 12)), E in Ec by lia. done.
      * apply elem_of_union_l, elem_of_blocks. split; [done|]. exists (c - 13). change (Z.of_nat (Z.to_nat NINDIRECT)) with 128.
        split; [lia|]. rewrite <- cell_entry by (done || lia). rewrite <- Ec. f_equal. change NDIRECT with 12. lia.
  - intros [(Ha & c & Hc & Ec)|Hin].
    { split; [done|]. exists c. split; [lia|]. by rewrite cell_low by (change NDIRECT with 12; lia). }
    destruct (Z.eqb_spec (addr ip NDIRECT) 0) as [E|E]; [by apply elem_of_empty in Hin|]. apply elem_of_union in Hin as [Hin| ->%elem_of_singleton].
    + apply elem_of_blocks in Hin as (Ha & c & Hc & Ec). change (Z.of_nat (Z.to_nat NINDIRECT)) with 128 in Hc. split; [done|].
      exists (NDIRECT + 1 + c). split; [change NDIRECT with 12; lia|]. by rewrite cell_entry by (done || lia).
    + split; [done|]. exists NDIRECT. split; [change NDIRECT with 12; lia|apply cell_ind].
Qed.

Lemma owned_after V B V' f b n : 0 <= lsize -> 0 <= meta start lsize nino -> owned V f b n -> cleared V B V' ->
  (forall c, b <= c < b + Z.of_nat n -> f c <> 0 -> f c ∉ B) -> owned V' f b n.
Proof.
  intros Hl Hm [O1 O2] [C1 _] Hn. split; [|done]. intros c Hc Hz. destruct (O1 c Hc Hz) as [R1 R2]. split; [done|].
  rewrite C1 by lia. by rewrite decide_False by auto.
Qed.

Lemma zero_addrs l : length l = 13%nat -> (forall c, 0 <= c < 13 -> nth (Z.to_nat c) l 0 = 0) -> l = replicate 13 0.
Proof.
  intros Hl Hz. apply list_eq. intros j. destruct (decide (j < 13)%nat) as [Hj|Hj].
  - rewrite lookup_replicate_2 by done. specialize (Hz (Z.of_nat j) ltac:(lia)). rewrite Nat2Z.id, nth_lookup in Hz.
    destruct (lookup_lt_is_Some_2 l j ltac:(lia)) as [x Hx]. rewrite Hx in *. by cbn in Hz; subst.
  - rewrite !lookup_ge_None_2; [done|rewrite length_replicate; lia|lia].
Qed.

(** What the loops need of a file. *)
Lemma sound_owned V ip : fs_ok start lsize nino V -> sound_file start lsize nino V ip ->
  owned V (addr ip) 0 (Z.to_nat NDIRECT) /\
  (addr ip NDIRECT <> 0 -> owned V (entry V (addr ip NDIRECT)) 0 (Z.to_nat NINDIRECT) /\
    (forall j, 0 <= j < NINDIRECT -> entry V (addr ip NDIRECT) j <> 0 ->
      entry V (addr ip NDIRECT) j <> addr ip NDIRECT /\ entry V (addr ip NDIRECT) j ∉ blocks_in (addr ip) 0 (Z.to_nat NDIRECT)) /\
    addr ip NDIRECT ∉ blocks_in (addr ip) 0 (Z.to_nat NDIRECT)).
Proof.
  intros F [So Sc Si]. unfold NCELLS in *. change NINDIRECT with 128 in *.
  assert (El : forall c, 0 <= c <= NDIRECT -> cell V ip c = addr ip c) by (intros c Hc; apply cell_low; lia).
  change NDIRECT with 12 in *. change (Z.to_nat 12) with 12%nat in *. split; [|intros Hn; split; [|split]].
  - split; intros c; [intros Hc|intros c' Hc Hc']; rewrite <- !El by lia; [apply Sc|apply Si]; lia.
  - assert (Ee : forall j, 0 <= j < 128 -> entry V (addr ip 12) j = cell V ip (13 + j)) by (intros j Hj; symmetry; apply (cell_entry V ip j); (done || lia)).
    split; intros c; [intros Hc|intros c' Hc Hc']; rewrite !Ee by lia; [apply Sc; lia|].
    intros Hz E. assert (13 + c = 13 + c'); [|lia]. apply Si; (done || lia).
  - intros j Hj. pose proof (cell_entry V ip j ltac:(lia) Hn) as Ee. change (NDIRECT + 1 + j) with (13 + j) in Ee.
    change NDIRECT with 12 in Ee. rewrite <- Ee. intros Hz. split.
    + rewrite <- (El 12) by lia. intros E. assert (13 + j = 12); [|lia]. apply Si; (done || lia).
    + rewrite elem_of_blocks. intros (_ & c & Hc & Ec). rewrite <- El in Ec by lia. symmetry in Ec. assert (13 + j = c); [|lia]. apply Si; (done || lia).
  - rewrite elem_of_blocks. intros (_ & c & Hc & Ec). rewrite <- !El in Ec by lia. symmetry in Ec. assert (12 = c); [|lia].
    apply Si; [lia|lia|by rewrite El by lia|done].
Qed.

(** The part of [itrunc] about the indirect block. *)
Lemma itrunc_ind_spec k V T ip a : tx start lsize old d0 k V T -> bmblock nino ∈ T -> fs_ok start lsize nino V ->
  Z.of_nat (size T) < lsize - 2 -> inodes k !! i = Some ip -> i_dev ip = 1 ->
  meta start lsize nino <= a < start -> used nino V a = true -> owned V (entry V a) 0 (Z.to_nat NINDIRECT) ->
  a ∉ blocks_in (entry V a) 0 (Z.to_nat NINDIRECT) ->
  wp (let! ip := inoget i in
      let! bp := bread (i_dev ip) a in
      itrunc_indirect (i_dev ip) bp 0 (Z.to_nat NINDIRECT) ;;;
      brelse bp ;;;
      bfree (i_dev ip) a ;;;
      addr_set i NDIRECT 0) k (fun _ k' => exists V', ifr k k' /\ inodes k' = <[i := set_addr NDIRECT 0 ip]> (inodes k) /\
    tx start lsize old d0 k' V' T /\ fs_ok start lsize nino V' /\ cleared V (blocks_in (entry V a) 0 (Z.to_nat NINDIRECT) ∪ {[a]}) V').
Proof.
  intros X Hin F Hfit Ei Hd Ha Hu O Hna. pose proof (tx_layout _ _ _ _ _ _ _ X) as [Y1 Y2 Y3 Y4]. pose proof (bm_range _ _ _ V F) as [Hbm _].
  apply wp_bind, (wp_inoget k i ip); [done|]. rewrite Hd. apply wp_bind, (tx_bread start lsize old d0 k V T); [done|lia|]. intros bp bs X1.
  apply wp_bind. wp_use (itrunc_indirect_spec bp a (Z.to_nat NINDIRECT) _ V T 0 X1 Hin F Hfit Ha O).
  intros [] k2 (V2 & Fr2 & X2 & F2 & C2). apply wp_bind, (hold_brelse start lsize old d0 (L := []) _ V2 T bp a); [done|]. intros k3 Fr3 X3.
  apply wp_bind. wp_use (bfree_step [] k3 V2 T a X3 Hin F2); [lia|apply aside_nil; lia|done| |].
  { rewrite (ce_used _ _ _ C2) by lia. by rewrite decide_False. }
  intros [] k4 (V4 & Fr4 & X4 & F4 & C4). apply wp_modify. exists V4.
  assert (Fr : bfr k k4) by (eapply bfr_trans; [apply bufs_bfr|]; eapply bfr_trans; [exact Fr2|]; by eapply bfr_trans).
  assert (Ei4 : inodes k4 !! i = Some ip) by (by rewrite (bfr_inodes _ _ Fr)).
  rewrite (alter_insert _ _ _ _ Ei4). fold (set_addr NDIRECT 0 ip). split_and!; [|cbn; by rewrite (bfr_inodes _ _ Fr)| |done|by eapply cleared_trans].
  - unfold ifr, bfr. cbn. unfold bfr in Fr. rewrite Fr. done.
  - by apply (tx_frame _ _ _ _ k4).
Qed.

(** An empty file. *)
Definition emptied (ip : inode) : inode := is_size 0 (is_addrs (replicate 13 0) ip).

Lemma emptied_sound V ip : i_dev ip = 1 -> i_type ip <> T_DEV -> i_addrs ip = replicate 13 0 -> i_size ip = 0 -> sound_file start lsize nino V ip.
Proof.
  intros Hd Ht Ea Es.
  assert (Az : forall c, addr ip c = 0) by (intros c; unfold addr; rewrite Ea; apply nth_replicate).
  assert (Cz : forall c, cell V ip c = 0) by (intros c; unfold cell; rewrite !Az; by destruct (_ <=? _)).
  split; [split|..]; try done.
  - by rewrite Ea.
  - rewrite Es. change (MAXFILE * BSIZE) with 71680. lia.
  - rewrite Es. intros b Hb Hs. change BSIZE with 512 in Hs. lia.
  - rewrite Es. change (NDIRECT * BSIZE) with 6144. lia.
  - intros c _ Hz. by rewrite Cz in Hz.
  - intros c c' _ _ Hz. by rewrite Cz in Hz.
Qed.

(** Both parts: the blocks of the file are free and the inode in memory names none. *)
Lemma itrunc_blocks k V T ip : tx start lsize old d0 k V T -> bmblock nino ∈ T -> fs_ok start lsize nino V -> sound_file start lsize nino V ip ->
  inodes k !! i = Some ip -> Z.of_nat (size T) < lsize - 2 -> forall {A} (K : KM A) Q,
  (forall k' V', ifr k k' -> inodes k' = <[i := is_addrs (replicate 13 0) ip]> (inodes k) -> tx start lsize old d0 k' V' T ->
    fs_ok start lsize nino V' -> cleared V (file_blocks V ip) V' -> wp K k' Q) ->
  wp (itrunc_direct i 0 (Z.to_nat NDIRECT) ;;;
      let! ia := addr_get i NDIRECT in
      when (negb (ia =? 0))
        (let! ip := inoget i in
         let! bp := bread (i_dev ip) ia in
         itrunc_indirect (i_dev ip) bp 0 (Z.to_nat NINDIRECT) ;;;
         brelse bp ;;;
         bfree (i_dev ip) ia ;;;
         addr_set i NDIRECT 0) ;;;
      K) k Q.
Proof.
  intros X Hin F Sf Ei Hfit A K Q HQ. pose proof (tx_layout _ _ _ _ _ _ _ X) as [Y1 Y2 Y3 Y4]. pose proof (bm_range _ _ _ V F) as [Hbm _].
  pose proof (sf_ok _ _ _ _ _ Sf) as [O1 O2 O3 _ _ _]. destruct (sound_owned V ip F Sf) as [Od Oi].
  apply wp_bind. wp_use (itrunc_direct_spec (Z.to_nat NDIRECT) k V T ip 0 X Hin F); try done; [lia|].
  intros [] k1 (V1 & ip1 & Fr1 & I1 & X1 & F1 & C1 & Ein & H13 & Ad). change (Z.of_nat (Z.to_nat NDIRECT)) with 12 in Ad.
  assert (Ei1 : inodes k1 !! i = Some ip1) by (rewrite I1; apply list_lookup_insert_eq; by eapply lookup_lt_Some).
  assert (E12 : addr ip1 NDIRECT = addr ip NDIRECT) by (rewrite Ad by done; by rewrite decide_False by (change NDIRECT with 12; lia)).
  apply wp_bind, (wp_addr_get k1 i ip1); [done|rewrite H13; change (Z.to_nat NDIRECT) with 12%nat; lia|]. rewrite E12. apply wp_bind, wp_when.
  pose proof (file_blocks_split V ip) as Eb. destruct (Z.eqb_spec (addr ip NDIRECT) 0) as [Ez|Ez]; cbn [negb].
  - apply (HQ k1 V1); try done; [|by rewrite Eb, (right_id_L ∅ (∪))]. rewrite I1. f_equal. rewrite Ein. f_equal. apply zero_addrs; [done|].
    intros c Hc. fold (addr ip1 c). rewrite Ad by lia. destruct (decide _); [done|]. assert (c = NDIRECT) as -> by (change NDIRECT with 12; lia). done.
  - destruct (Oi Ez) as (Oe & Hne & Hnd). destruct (ind_range _ _ _ V ip F Sf Ez) as [R1 R2]. set (a := addr ip NDIRECT) in *.
    assert (Ee : forall j, entry V1 a j = entry V a j) by (intros j; unfold entry; by rewrite (ce_rest _ _ _ C1) by lia).
    assert (Eq : blocks_in (entry V1 a) 0 (Z.to_nat NINDIRECT) = blocks_in (entry V a) 0 (Z.to_nat NINDIRECT)) by (by apply blocks_in_ext).
    wp_use (itrunc_ind_spec k1 V1 T ip1 a X1 Hin F1 Hfit Ei1); [by rewrite Ein|done| | | |].
    + rewrite (ce_used _ _ _ C1) by lia. by rewrite decide_False.
    + apply (owned_after V (blocks_in (addr ip) 0 (Z.to_nat NDIRECT))); [lia|lia| |done|].
      * destruct Oe as [W1 W2]. split; [intros c Hc; rewrite Ee; by apply W1|intros c c' Hc Hc'; rewrite !Ee; by apply W2].
      * intros c Hc. rewrite Ee. change (Z.of_nat (Z.to_nat NINDIRECT)) with NINDIRECT in Hc. apply Hne. lia.
    + rewrite Eq, elem_of_blocks. intros (_ & c & Hc & Ec). change (Z.of_nat (Z.to_nat NINDIRECT)) with NINDIRECT in Hc.
      destruct (Hne c ltac:(lia)) as [N _]; [by rewrite Ec|done].
    + intros [] k2 (V2 & Fr2 & I2 & X2 & F2 & C2). rewrite Eq in C2. apply (HQ k2 V2); try done.
      * by eapply ifr_trans.
      * assert (E0 : <[Z.to_nat NDIRECT := 0]> (i_addrs ip1) = replicate 13 0).
        { apply zero_addrs; [by rewrite length_insert|]. intros c Hc. change (addr (set_addr NDIRECT 0 ip1) c = 0). unfold set_addr.
          rewrite addr_insert by (done || lia). destruct (Z.eqb_spec c NDIRECT) as [|Hn]; [done|]. rewrite Ad by lia.
          rewrite decide_True; [done|]. change NDIRECT with 12 in Hn. lia. }
        rewrite I2, I1, list_insert_insert_eq. f_equal. unfold set_addr. rewrite E0, Ein. done.
      * rewrite Eb. by eapply cleared_trans.
Qed.

Lemma itrunc_spec k V T ip : tx start lsize old d0 k V T -> bmblock nino ∈ T -> fs_ok start lsize nino V -> sound_file start lsize nino V ip ->
  inodes k !! i = Some ip -> 0 <= i_inum ip <= nino -> Z.of_nat (size T) < lsize - 2 ->
  wp (itrunc i) k (fun _ k' => exists V1 V', ifr k k' /\ inodes k' = <[i := emptied ip]> (inodes k) /\
    tx start lsize old d0 k' V' ({[IBLOCK (i_inum ip)]} ∪ T) /\ fs_ok start lsize nino V1 /\ cleared V (file_blocks V ip) V1 /\
    forall t, 0 <= t < start -> V' t = updated (emptied ip) V1 t).
Proof.
  intros X Hin F Sf Ei Hi Hfit. pose proof (sf_ok _ _ _ _ _ Sf) as [O1 O2 O3 _ _ _]. unfold itrunc. apply (itrunc_blocks k V T ip); try done.
  intros k1 V1 Fr1 I1 X1 F1 C1. assert (Ei1 : inodes k1 !! i = Some (is_addrs (replicate 13 0) ip)) by (rewrite I1; apply list_lookup_insert_eq; by eapply lookup_lt_Some).
  apply wp_bind, wp_inoupd. rewrite (alter_insert _ _ _ _ Ei1). fold (emptied ip). set (k2 := ks_inodes _ k1).
  apply (iupdate_spec start lsize nino old d0 i k2 V1 T (emptied ip)); try done.
  - by apply (tx_frame _ _ _ _ k1).
  - unfold k2. cbn. apply list_lookup_insert_eq. by eapply lookup_lt_Some.
  - lia.
  - intros k3 V3 Fr3 X3 E3. exists V1, V3. split_and!; try done.
    + eapply ifr_trans; [exact Fr1|]. unfold ifr. rewrite (bfr_inodes _ _ Fr3). unfold k2 in *. unfold bfr in *. cbn in *. exact Fr3.
    + rewrite (bfr_inodes _ _ Fr3). unfold k2. cbn. by rewrite I1, list_insert_insert_eq.
Qed.

(** ** The last reference to an inode *)

(** The inode on disk after [iupdate], and the others. *)
Lemma updated_dnode V ip V' : fs_ok start lsize nino V -> 0 <= i_inum ip <= nino -> length (i_addrs ip) = 13%nat -> dinode_fits (to_dinode ip) ->
  (forall t, 0 <= t < start -> V' t = updated ip V t) ->
  dnode V' (i_inum ip) = to_dinode ip /\ forall m, 0 <= m <= nino -> m <> i_inum ip -> dnode V' m = dnode V m.
Proof.
  intros F Hi H13 Hf E. pose proof (iblock_range start lsize nino V _ F Hi) as Hib. pose proof (bm_range _ _ _ V F) as [Hbm _].
  pose proof (gm_meta _ _ _ _ (fk_geom _ _ _ _ F)) as Hm. pose proof (ioff_range (i_inum ip)) as [? ?]. unfold dnode. split.
  - rewrite E by lia. unfold updated. rewrite fset_at. apply decode_encode; [done| |apply Hf|done].
    rewrite (fk_len _ _ _ _ F) by lia. done.
  - intros m Hmi Hne. pose proof (iblock_range start lsize nino V _ F Hmi) as Hibm. rewrite E by lia. unfold updated, fset.
    destruct (Z.eqb_spec (IBLOCK m) (IBLOCK (i_inum ip))) as [Eb|]; [rewrite <- Eb|done]. pose proof (ioff_range m) as [? ?].
    apply decode_other; [done|rewrite (fk_len _ _ _ _ F) by lia; done|done|done|]. by apply ioff_apart.
Qed.

(** The disk without the file: its blocks and its inode are free, nothing else changed. *)
Record returned (V : Z -> block) (ip : inode) (V' : Z -> block) : Prop := {
  rt_fs : fs_ok start lsize nino V';
  rt_free : free_blocks start lsize nino V' = free_blocks start lsize nino V ∪ file_blocks V ip;
  rt_inode : dnode V' (i_inum ip) = DInode 0 (i_major ip) (i_minor ip) (i_nlink ip) 0 (replicate 13 0);
  rt_others : forall m, 0 <= m <= nino -> m <> i_inum ip -> dnode V' m = dnode V m;
  rt_rest : forall t, 0 <= t < start -> t <> bmblock nino -> t <> IBLOCK (i_inum ip) -> V' t = V t
}.

Lemma empty_fits ip ty : dinode_fits (to_dinode ip) -> 0 <= ty < 2 ^ 15 -> dinode_fits (to_dinode (is_type ty (emptied ip))).
Proof.
  intros [F1 F2 F3] Ht. split; cbn in *.
  - repeat (apply Forall_cons in F1 as [? F1]). repeat (apply Forall_cons; split; [lia|]). done.
  - repeat (apply Forall_cons; split; [lia|]). apply Forall_nil_2.
  - done.
Qed.

(** The writes of [itrunc] and of the second [iupdate] of [iput] together. *)
Lemma returned_spec V ip V1 V2 V3 : fs_ok start lsize nino V -> 0 <= lsize -> sound_file start lsize nino V ip -> 0 <= i_inum ip <= nino ->
  dinode_fits (to_dinode ip) -> fs_ok start lsize nino V1 -> cleared V (file_blocks V ip) V1 ->
  (forall t, 0 <= t < start -> V2 t = updated (emptied ip) V1 t) ->
  (forall t, 0 <= t < start -> V3 t = updated (is_type 0 (emptied ip)) V2 t) -> returned V ip V3.
Proof.
  intros F Hl Sf Hi Hf F1 C1 E2 E3. pose proof (sf_ok _ _ _ _ _ Sf) as [O1 O2 O3 _ _ _]. pose proof (bm_range _ _ _ V F) as [Hbm _].
  pose proof (gm_meta _ _ _ _ (fk_geom _ _ _ _ F)) as Hm.
  destruct (updated_ok start lsize nino V1 (emptied ip) V2 F1 Hl) as (F2 & _ & U2 & _ & _ & R2); [by apply emptied_sound|done|done|].
  destruct (updated_ok start lsize nino V2 (is_type 0 (emptied ip)) V3 F2 Hl) as (F3 & _ & U3 & _ & _ & R3); [by apply emptied_sound|done|done|].
  assert (Hf2 : dinode_fits (to_dinode (emptied ip))).
  { destruct Hf as [D1 D2 D3]. split; [done| |done]. cbn. repeat (apply Forall_cons; split; [lia|]). apply Forall_nil_2. }
  destruct (updated_dnode V1 (emptied ip) V2 F1 Hi eq_refl Hf2 E2) as [_ N2].
  destruct (updated_dnode V2 (is_type 0 (emptied ip)) V3 F2 Hi eq_refl (empty_fits ip 0 Hf ltac:(lia)) E3) as [D3 N3].
  assert (HB : forall a, a ∈ file_blocks V ip -> meta start lsize nino <= a < start).
  { intros a Ha. unfold file_blocks in Ha. apply elem_of_blocks in Ha as (Hz & c & Hc & <-). by apply (sf_cell _ _ _ _ _ Sf). }
  cbn [i_inum is_type emptied is_size is_addrs] in *. split; try done.
  - rewrite <- (cleared_free V _ V1 F Hl HB C1). rewrite (free_same start lsize nino V2 V3 U3 F2 Hl). by apply free_same.
  - intros m Hmi Hne. pose proof (iblock_range start lsize nino V m F Hmi) as Hib. rewrite N3, N2 by done. unfold dnode.
    by rewrite (ce_rest _ _ _ C1) by lia.
  - intros t Ht Hb Hne. rewrite R3, R2 by done. by apply (ce_rest _ _ _ C1).
Qed.

(** The slot of the inode cache afterwards. *)
Definition gone (ip : inode) : inode := is_ref 0 (is_flags 0 (is_type 0 (emptied ip))).

Lemma iput_last k V T ip : tx start lsize old d0 k V T -> bmblock nino ∈ T -> fs_ok start lsize nino V -> sound_file start lsize nino V ip ->
  at_hand i k ip -> i_ref ip = 1 -> i_nlink ip = 0 -> 0 <= i_inum ip <= nino -> dinode_fits (to_dinode ip) -> Z.of_nat (size T) < lsize - 2 ->
  wp (iput i) k (fun _ k' => exists V' T', ifr k k' /\ inodes k' = <[i := gone ip]> (inodes k) /\ tx start lsize old d0 k' V' T' /\ returned V ip V').
Proof.
  intros X Hin F Sf [Ei Hr Hb Hv Hic] Hr1 Hnl Hi Hf Hfit. pose proof (tx_layout _ _ _ _ _ _ _ X) as [Y1 Y2 Y3 Y4].
  pose proof (sf_ok _ _ _ _ _ Sf) as [O1 O2 O3 _ _ _].
  unfold iput. apply wp_bind, wp_acquire; [done|]. apply wp_bind, (wp_inoget _ i ip); [done|]. rewrite Hr1, Hv, Hnl, Hb. cbn [andb Z.eqb Pos.eqb].
  apply wp_bind, wp_when, wp_bind, wp_inoupd, wp_bind, wp_release; [done|]. rewrite icache_unlock by done. cbn [inodes set_lock ks_ic_lock].
  rewrite (alter_insert _ _ _ _ Ei). fold (busied ip). set (k1 := ks_inodes _ k).
  apply wp_bind. wp_use (itrunc_spec k1 V T (busied ip)); try done.
  { by apply (tx_frame _ _ _ _ k). } { by apply busied_file. } { unfold k1. cbn. apply list_lookup_insert_eq. by eapply lookup_lt_Some. }
  intros [] k2 (V1 & V2 & Fr2 & I2 & X2 & F1 & C1 & E2). cbn [i_inum busied is_flags] in X2.
  assert (I2' : inodes k2 = <[i := emptied (busied ip)]> (inodes k)) by (rewrite I2; unfold k1; cbn; by rewrite list_insert_insert_eq).
  assert (Lt : (i < length (inodes k))%nat) by (by eapply lookup_lt_Some).
  apply wp_bind, wp_inoupd. rewrite I2', (alter_insert _ _ _ (emptied (busied ip))) by (by apply list_lookup_insert_eq). rewrite list_insert_insert_eq.
  set (ip3 := is_type 0 (emptied (busied ip))). set (k3 := ks_inodes _ k2).
  destruct (updated_ok start lsize nino V1 (emptied (busied ip)) V2 F1 ltac:(lia)) as (F2 & _); [by apply emptied_sound|done|done|].
  pose proof (size_add (IBLOCK (i_inum ip)) T).
  apply wp_bind, (iupdate_spec start lsize nino old d0 i k3 V2 ({[IBLOCK (i_inum ip)]} ∪ T) ip3); try done.
  { by apply (tx_frame _ _ _ _ k2). } { unfold k3. cbn. by apply list_lookup_insert_eq. } { lia. }
  intros k4 V4 Fr4 X4 E4. assert (I4 : inodes k4 = <[i := ip3]> (inodes k)) by (by rewrite (bfr_inodes _ _ Fr4)).
  assert (Ic4 : ic_lock k4 = false).
  { unfold bfr in Fr4. rewrite Fr4. unfold k3. cbn. unfold ifr, bfr in Fr2. rewrite Fr2. done. }
  destruct X4 as (ws & D & X4 & HT4 & H4). destruct (tx_unl _ _ _ _ _ _ _ _ X4) as (U1 & U2 & U3).
  apply wp_bind, wp_acquire; [done|]. apply wp_bind, wp_inoupd. change (inodes (set_lock LkIcache true k4)) with (inodes k4).
  rewrite I4, (alter_insert _ _ _ ip3) by (by apply list_lookup_insert_eq). rewrite list_insert_insert_eq.
  apply wp_wakeup; [done|]. set (ps := wake _ <$> _). apply wp_bind, wp_inoupd, wp_release; [done|]. cbn [inodes ks_procs ks_inodes].
  rewrite (alter_insert _ _ _ (is_flags 0 ip3)) by (by apply list_lookup_insert_eq). rewrite list_insert_insert_eq.
  match goal with |- context [set_lock LkIcache false ?st] =>
    replace (set_lock LkIcache false st) with (ks_procs ps (ks_inodes (<[i := gone ip]> (inodes k)) k4)) end.
  2: { destruct k4. cbn in *. subst. f_equal. f_equal. unfold ip3, gone, emptied, busied. cbn. rewrite Hr1. done. }
  exists V4. eexists. split_and!; [|done| |].
  - unfold ifr, bfr. cbn. unfold bfr in Fr4. rewrite Fr4. unfold k3. cbn. unfold ifr, bfr in Fr2. rewrite Fr2. done.
  - apply (tx_frame _ _ _ _ k4); try done. by exists ws, D.
  - assert (R : returned V (busied ip) V4); [|destruct R; by split].
    apply (returned_spec V (busied ip) V1 V2 V4); try done; [lia|by apply busied_file].
Qed.

Lemma returned_ext V ip V1 V2 : (forall t, 0 <= t < start -> V2 t = V1 t) -> 0 <= lsize -> 0 <= i_inum ip <= nino -> returned V ip V1 -> returned V ip V2.
Proof.
  intros E Hl Hi [T1 T2 T3 T4 T5]. pose proof (bm_range _ _ _ V1 T1) as [Hbm _]. pose proof (gm_meta _ _ _ _ (fk_geom _ _ _ _ T1)) as Hm.
  assert (Ed : forall m, 0 <= m <= nino -> dnode V2 m = dnode V1 m).
  { intros m Hmi. pose proof (iblock_range start lsize nino V1 m T1 Hmi). unfold dnode. by rewrite E by lia. }
  split.
  - by apply (fs_ok_ext start lsize nino V1).
  - rewrite <- T2. by apply free_ext.
  - by rewrite Ed.
  - intros m Hmi Hne. rewrite Ed by done. by apply T4.
  - intros t Ht Hb Hne. rewrite E by done. by apply T5.
Qed.
End Trunc.

(** ** Closing the last descriptor *)

Section Close.
Context `{KernelImage} `{Wakeups} (start lsize nino : Z).

(** Descriptor [f], with file [x], is the last one of the inode in slot [i], which has no name
    any more; the file system is at rest. *)
Record can_close (f i : nat) (k : kstate) (x : file) (ip : inode) : Prop := {
  cc_quiet : quiet start lsize k;
  cc_file : files k !! f = Some x;
  cc_ref : f_ref x = 1;
  cc_type : f_type x = FD_INODE;
  cc_ip : f_ip x = Some i;
  cc_lock : ft_lock k = false;
  cc_ino : at_hand i k ip;
  cc_last : i_ref ip = 1 /\ i_nlink ip = 0;
  cc_fs : fs_ok start lsize nino (d_read (dsk k));
  cc_sound : sound_file start lsize nino (d_read (dsk k)) ip;
  cc_inum : 0 <= i_inum ip <= nino;
  cc_fits : dinode_fits (to_dinode ip);
  cc_log : 4 <= lsize
}.

Lemma iput_trans k i ip : quiet start lsize k -> at_hand i k ip -> i_ref ip = 1 -> i_nlink ip = 0 -> fs_ok start lsize nino (d_read (dsk k)) ->
  sound_file start lsize nino (d_read (dsk k)) ip -> 0 <= i_inum ip <= nino -> dinode_fits (to_dinode ip) -> 4 <= lsize ->
  wp (in_trans (iput i)) k (fun _ k' => exists ws, commits start lsize k ws k' /\ files k' = files k /\
    inodes k' = <[i := gone ip]> (inodes k) /\ returned start lsize nino (d_read (dsk k)) ip (install ws (d_read (dsk k)))).
Proof.
  intros Hq Ah Hr Hn F Sf Hi Hf Hl. pose proof (qt_lay _ _ _ Hq) as [Y1 Y2 Y3 Y4]. pose proof Ah as [A1 A2 A3 A4 A5].
  eapply wp_mono; [apply (in_trans_spec start lsize (iput i) k (fun _ k2 V => files k2 = files k /\ inodes k2 = <[i := gone ip]> (inodes k) /\
    returned start lsize nino (d_read (dsk k)) ip V) Hq)|].
  - intros k1 Fr1 Ed1 X1. pose proof (tx_start start lsize k k1 Ed1 X1) as T1.
    assert (I1 : inodes k1 = inodes k) by (by rewrite (bfr_inodes _ _ Fr1)).
    assert (Ah1 : at_hand i k1 ip) by (split; try done; [by rewrite I1|by unfold bfr in Fr1; rewrite Fr1]).
    apply (tx_more _ _ _ _ _ _ _ {[bmblock nino]}) in T1; [|set_solver].
    wp_use (iput_last start lsize nino (d_read (dsk k)) (dsk k) i k1 (d_read (dsk k)) {[bmblock nino]} ip T1); try done; [set_solver|rewrite size_singleton; lia|].
    intros [] k2 (V' & T' & Fr2 & I2 & (ws & D & X2 & _ & H2) & R). exists ws, V', D. split_and!; try done; [|by rewrite I2, I1].
    unfold ifr, bfr in Fr2. rewrite Fr2. unfold bfr in Fr1. rewrite Fr1. done.
  - intros [] k' (ws & V & k2 & Hc & Fr & (Fl & I2 & R) & E). exists ws. split_and!; [done| |by rewrite (bfr_inodes _ _ Fr)|].
    + unfold bfr in Fr. rewrite Fr. done.
    + apply (returned_ext start lsize nino _ _ V); try done; [|lia]. intros t Ht. by rewrite E.
Qed.

Lemma fileclose_run f i k x ip : can_close f i k x ip ->
  wp (fileclose f) k (fun _ k' => exists ws, commits start lsize k ws k' /\ files k' = <[f := fs_type FD_NONE (fs_ref 0 x)]> (files k) /\
    inodes k' = <[i := gone ip]> (inodes k) /\ returned start lsize nino (d_read (dsk k)) ip (install ws (d_read (dsk k)))).
Proof.
  intros [Hq Ef Hr Ht Hip Hlk Ah [Hr1 Hn] F Sf Hi Hf Hl]. unfold fileclose, fileget, fileupd.
  apply wp_bind, wp_acquire; [done|]. apply wp_bind, wp_bind, wp_gets. change (files (set_lock LkFtable true k)) with (files k). rewrite Ef.
  apply wp_ret. rewrite Hr. cbn [Z.ltb Z.compare Pos.compare Pos.compare_cont]. apply wp_bind, wp_modify.
  change (files (set_lock LkFtable true k)) with (files k). rewrite (alter_insert _ _ _ _ Ef). change (1 - 1) with 0. cbn [Z.ltb Z.compare].
  assert (Lt : (f < length (files k))%nat) by (by eapply lookup_lt_Some).
  apply wp_bind, wp_bind, wp_gets. cbn [files ks_files]. rewrite list_lookup_insert_eq by done. apply wp_ret.
  apply wp_bind, wp_modify. cbn [files ks_files]. rewrite (alter_insert _ _ _ (fs_ref 0 x)) by (by apply list_lookup_insert_eq). rewrite list_insert_insert_eq.
  apply wp_bind, wp_modify. cbn [files ks_files]. rewrite (alter_insert _ _ _ (fs_ref 0 (fs_ref 0 x))) by (by apply list_lookup_insert_eq). rewrite list_insert_insert_eq.
  apply wp_bind, wp_release; [done|]. cbn [f_type fs_ref f_ip]. rewrite Ht, Hip.
  set (fl := <[f := _]> (files k)).
  match goal with |- context [set_lock LkFtable false ?st] => replace (set_lock LkFtable false st) with (ks_files fl k) by (destruct k; cbn in *; by subst) end.
  set (k1 := ks_files fl k). assert (Hq1 : quiet start lsize k1) by (destruct Hq; by split). assert (Ah1 : at_hand i k1 ip) by (destruct Ah; by split).
  pose proof (iput_trans k1 i ip Hq1 Ah1 Hr1 Hn F Sf Hi Hf Hl) as W. unfold in_trans in W.
  apply wp_bind. apply wp_bind_inv in W. eapply wp_mono; [exact W|]. intros [] k2 W2. apply wp_bind, wp_ret, wp_bind.
  apply wp_bind_inv in W2. eapply wp_mono; [exact W2|]. intros [] k3 W3. apply wp_bind_inv in W3. eapply wp_mono; [exact W3|].
  intros [] k4 W4. exact W4.
Qed.

(** C10. Closing the last descriptor of a file without a name gives all its storage back and
    nothing else: every block of the file, direct or indirect, and the block of indirect
    addresses become free, the inode on disk and its slot in the cache become free, every other
    block and inode is as it was.  This holds on the disk itself, and wherever the machine stops
    during the close, also during later recovery, booting leaves the disk of before or the disk
    of after. *)
Theorem fileclose_frees f i k x ip : can_close f i k x ip ->
  wp (fileclose f) k (fun _ k' => quiet start lsize k' /\ files k' = <[f := fs_type FD_NONE (fs_ref 0 x)]> (files k) /\
    inodes k' = <[i := gone ip]> (inodes k) /\ returned start lsize nino (d_read (dsk k)) ip (d_read (dsk k'))) /\
  (forall d kb, placed start lsize (d_read (dsk k)) -> crashes (fileclose f) k d -> fresh kb d ->
    wp boot kb (fun _ kb' => quiet start lsize kb' /\
      (home start (dsk kb') (d_read (dsk k)) \/ returned start lsize nino (d_read (dsk k)) ip (d_read (dsk kb'))))).
Proof.
  intros C. pose proof (fileclose_run f i k x ip C) as W. pose proof (cc_log _ _ _ _ _ C) as Hl. pose proof (cc_inum _ _ _ _ _ C) as Hi. split.
  - eapply wp_mono; [exact W|]. intros [] k' (ws & (Wc & Q & _ & I1) & Fl & Io & R). split_and!; try done.
    apply (returned_ext start lsize nino _ _ (install ws (d_read (dsk k)))); try done; [apply I1|lia].
  - intros d kb Hp Hd Hf. apply wp_Ok in W as (r & k' & E & ws & Hc & _ & _ & R).
    wp_use (commit_atomic start lsize (fileclose f) k ws d kb (fun _ _ => True) (cc_quiet _ _ _ _ _ C) Hp); [by unfold wp; rewrite E|done|done|].
    intros [] kb' [Q' [Hm|Hm]]; (split; [done|]); [by left|]. right.
    apply (returned_ext start lsize nino _ _ (install ws (d_read (dsk k)))); try done. lia.
Qed.
End Close.

(** ** A file with an indirect block *)

#[local] Existing Instance example_image.
#[local] Instance close_wakeups : Wakeups := 1%nat.

(** The small disk with a file of 6500 bytes: blocks 5 to 16, the indirect block 17 and block 18. *)
Definition cx_inode : inode := Inode 1 2 1 I_VALID T_FILE 0 0 0 6500 [5; 6; 7; 8; 9; 10; 11; 12; 13; 14; 15; 16; 17].
Definition cx_image (s : Z) : block :=
  if s =? 2 then encode_dinode (ioff 2) (to_dinode cx_inode) zero_block
  else if s =? 4 then xff :: xff :: x07 :: replicate 509 x00
  else if s =? 17 then put32 0 18 zero_block
  else fx_image s.
Definition cx_file : file := File FD_INODE 1 true true 0 (Some 0%nat) 0.
Definition cx_machine : kstate := ks_files [cx_file] (ks_inodes [cx_inode] (ks_dsk (Disk 30 cx_image []) fx_machine)).

Lemma cx_blocks s : length (cx_image s) = 512%nat.
Proof.
  unfold cx_image. destruct (s =? 2); [by vm_compute|]. destruct (s =? 4); [by vm_compute|]. destruct (s =? 17); [by vm_compute|]. apply fx_blocks.
Qed.

Lemma cx_quiet : quiet 20 10 cx_machine.
Proof. split; try done. apply booted_cache; [apply cx_blocks|done]. Qed.

Lemma cx_used j : 0 <= j < 30 -> used 8 cx_image j = (j <? 19).
Proof.
  intros Hj. assert (F : forallb (fun j => Bool.eqb (used 8 cx_image j) (j <? 19)) (seqZ 0 30) = true) by (vm_compute; reflexivity).
  rewrite forallb_forall in F. apply Bool.eqb_prop, F, list_elem_of_In, elem_of_seqZ. lia.
Qed.

Lemma cx_cell c : 0 <= c < NCELLS -> cell cx_image cx_inode c = if c <? 14 then 5 + c else 0.
Proof.
  intros Hc. assert (F : forallb (fun c => cell cx_image cx_inode c =? if c <? 14 then 5 + c else 0) (seqZ 0 141) = true) by (vm_compute; reflexivity).
  rewrite forallb_forall in F. apply Z.eqb_eq, F, list_elem_of_In, elem_of_seqZ. change NCELLS with 141 in Hc. lia.
Qed.

Lemma cx_fs : fs_ok 20 10 8 cx_image.
Proof.
  split.
  - split; vm_compute; congruence.
  - vm_compute. congruence.
  - intros j Hj. change (meta 20 10 8) with 5 in Hj. rewrite cx_used by lia. apply Z.ltb_lt. lia.
  - intros t _. apply cx_blocks.
Qed.

Lemma cx_sound : sound_file 20 10 8 cx_image cx_inode.
Proof.
  split.
  - split; try done. intros b Hb Hs. cbn [i_size cx_inode] in Hs. change BSIZE with 512 in Hs.
    assert (E : bcell cx_image cx_inode b = 5 + cellno b).
    { unfold bcell, cellno. change NDIRECT with 12. destruct (Z.ltb_spec b 12); rewrite cx_cell by (change NCELLS with 141; lia).
      - by rewrite (proj2 (Z.ltb_lt b 14)) by lia.
      - by rewrite (proj2 (Z.ltb_lt (b + 1) 14)) by lia. }
    unfold cellno in E. change NDIRECT with 12 in E. destruct (Z.ltb_spec b 12); rewrite bcell_blk by lia; lia.
  - intros c Hc. rewrite cx_cell by done. change (meta 20 10 8) with 5. destruct (Z.ltb_spec c 14); [|done].
    intros _. rewrite cx_used by lia. split; [lia|]. apply Z.ltb_lt. lia.
  - intros c c' Hc Hc'. rewrite !cx_cell by done. destruct (Z.ltb_spec c 14), (Z.ltb_spec c' 14); lia.
Qed.

Lemma cx_in b : 5 <= b < 19 -> b ∈ file_blocks (d_read (dsk cx_machine)) cx_inode.
Proof.
  intros Hb. unfold file_blocks. rewrite elem_of_blocks. split; [lia|]. exists (b - 5). change (Z.of_nat (Z.to_nat NCELLS)) with 141. split; [lia|].
  change (cell cx_image cx_inode (b - 5) = b). rewrite cx_cell by (change NCELLS with 141; lia). rewrite (proj2 (Z.ltb_lt _ _)) by lia. lia.
Qed.

Lemma cx_can : can_close 20 10 8 0 0 cx_machine cx_file cx_inode.
Proof.
  split; try done.
  - apply cx_quiet.
  - apply cx_fs.
  - apply cx_sound.
  - split; [| |done]; cbn; unfold T_FILE; repeat (apply Forall_cons; split; [lia|]); apply Forall_nil_2.
Qed.

Lemma fileclose_frees_witness :
  wp (fileclose 0) cx_machine (fun _ k' => 17 ∈ free_blocks 20 10 8 (d_read (dsk k')) /\ 18 ∈ free_blocks 20 10 8 (d_read (dsk k')) /\
    di_type (dnode (d_read (dsk k')) 2) = 0).
Proof.
  destruct (fileclose_frees 20 10 8 0 0 cx_machine cx_file cx_inode cx_can) as [W _].
  eapply wp_mono; [exact W|]. intros u k' (_ & _ & _ & R). pose proof (rt_free _ _ _ _ _ _ R) as Ef. pose proof (rt_inode _ _ _ _ _ _ R) as Ei.
  rewrite Ef. split; [apply elem_of_union_r, cx_in; lia|]. split; [apply elem_of_union_r, cx_in; lia|].
  change 2 with (i_inum cx_inode). rewrite Ei. reflexivity.
Defined.

(** Outside a transaction the same [iput] stops the machine; [exit] calls it there for the
    current directory of the process. *)
Theorem iput_outside_panics :
  lg_busy (klog cx_machine) = false /\ panics (iput 0) cx_machine "write outside of trans".
Proof.
  split; [done|]. assert (E : match iput 0 cx_machine with Panic m _ => String.eqb m "write outside of trans" | _ => false end = true)
    by (vm_compute; reflexivity).
  unfold panics. destruct (iput 0 cx_machine) as [| m s'| |]; try discriminate E. exists s'. apply String.eqb_eq in E. by subst.
Qed.
