(* ===== verification/Proc.v ===== *)
(** * Processes: fork, exit, wait and the first process, proc.c

    The life of a process.  [fork] copies the address space of "init" and
    "sh" and shares that of every other process copy-on-write (Cow). *)

From S2P Require Import Prelude Layout Mem Kalloc Vm State Sched Cow Bytes Bio Log Inode Console.
From S2P Require Import Fs Pipe File.

Open Scope Z_scope.

(** ** Operations *)

Definition pinit : KM unit := modify (set_lock LkPtable false).

(** [safestrcpy(dst, src, n)] on an array of [n] bytes and a string.  When the
    string ends early, the loop copies its NUL and a second one follows. *)
Definition safestrcpy_list (dst src : list byte) : list byte :=
  let n := length dst in
  if (n =? 0)%nat then dst
  else if (length src <? n - 1)%nat then src ++ [x00; x00] ++ drop (length src + 2) dst
  else take (n - 1) src ++ [x00].

Section Proc.
Context `{KernelImage} `{Wakeups}.

(** [for(i = 0; i < NOFILE; i++) if(proc->ofile[i]) np->ofile[i] = filedup(...)] *)
Fixpoint dup_files (me np i n : nat) : KM unit :=
  match n with
  | O => ret tt
  | S n =>
      let! p := pget me in
      let! o := from_option_wild (p_ofile p !! i) in
      match o with
      | None => ret tt
      | Some f =>
          let! f := filedup f in
          pupd np (fun q => ps_ofile (<[i := Some f]> (p_ofile q)) q)
      end ;;;
      dup_files me np (S i) n
  end.

(** [strncmp(proc->name,"sh",2)==0 || strncmp(proc->name,"init",2)==0] *)
Definition private_memory (name : list byte) : bool :=
  (strncmp_list 2 name (cstr "sh") =? 0) || (strncmp_list 2 name (cstr "init") =? 0).

(** The part of [fork] after the child has its memory. *)
Definition fork_finish (me np : nat) : KM Z :=
  let! p := pget me in
  pupd np (ps_sz (p_sz p)) ;;;
  pupd np (ps_parent (Some me)) ;;;
  pupd np (ps_tf (p_tf p)) ;;;
  pupd np (fun q => ps_tf (tf_set_eax 0 (p_tf q)) q) ;;;
  dup_files me np 0 (Z.to_nat NOFILE) ;;;
  let! cwd := deref (p_cwd p) in
  let! cwd := idup cwd in
  pupd np (ps_cwd (Some cwd)) ;;;
  let! q := pget np in
  pupd np (ps_state RUNNABLE) ;;;
  pupd np (fun q => ps_name (safestrcpy_list (p_name q) (cstring (p_name p))) q) ;;;
  ret (p_pid q).

Definition fork : KM Z :=
  let! o := allocproc in
  match o with
  | None => ret (-1)
  | Some np =>
      let! me := myproc in
      let! p := pget me in
      if private_memory (p_name p) then
        let! d := liftM (copyuvm (p_pgdir p) (p_sz p)) in
        pupd np (ps_pgdir d) ;;;
        if d =? 0 then
          let! q := pget np in
          liftM (kfree (p_kstack q)) ;;;
          pupd np (ps_kstack 0) ;;;
          pupd np (ps_state UNUSED) ;;;
          ret (-1)
        else fork_finish me np
      else
        fork_cow me np ;;;
        fork_finish me np
  end.

(** [for(fd = 0; fd < NOFILE; fd++)]: close the open files. *)
Fixpoint close_files (me fd n : nat) : KM unit :=
  match n with
  | O => ret tt
  | S n =>
      let! p := pget me in
      let! o := from_option_wild (p_ofile p !! fd) in
      match o with
      | None => ret tt
      | Some f =>
          fileclose f ;;;
          pupd me (fun p => ps_ofile (<[fd := None]> (p_ofile p)) p)
      end ;;;
      close_files me (S fd) n
  end.

(** The slot a channel on a process stands for; the null pointer is the
    channel of no process. *)
Definition wakeup1_proc (o : option nat) : KM unit :=
  match o with
  | Some i => wakeup1 (ChProc i)
  | None => ret tt
  end.

(** [for(p = ptable.proc; ...) if(p->parent == proc)]: pass the children to
    [init]. *)
Fixpoint reparent (me i n : nat) : KM unit :=
  match n with
  | O => ret tt
  | S n =>
      let! p := pget i in
      when (bool_decide (p_parent p = Some me))
        (let! ip := gets initproc in
         pupd i (ps_parent ip) ;;;
         when (bool_decide (p_state p = ZOMBIE)) (wakeup1_proc ip)) ;;;
      reparent me (S i) n
  end.

Definition exit : KM unit :=
  let! me := myproc in
  let! ip := gets initproc in
  if bool_decide (ip = Some me) then panic "init exiting"
  else
    close_files me 0 (Z.to_nat NOFILE) ;;;
    let! p := pget me in
    let! cwd := deref (p_cwd p) in
    iput cwd ;;;
    pupd me (ps_cwd None) ;;;
    acquire LkPtable ;;;
    let! p := pget me in
    wakeup1_proc (p_parent p) ;;;
    reparent me 0 (Z.to_nat NPROC) ;;;
    pupd me (ps_state ZOMBIE) ;;;
    sched ;;;
    panic "zombie exit".

(** What a scan of the table in [wait] comes to. *)
Inductive scan : Type := Reaped (pid : Z) | HaveKids | NoKids.

(** Free the zombie in slot [i]. *)
Definition reap (i : nat) : KM Z :=
  let! p := pget i in
  liftM (kfree (p_kstack p)) ;;;
  pupd i (ps_kstack 0) ;;;
  unlinkzombiesharedmemory i ;;;
  let! p' := pget i in
  liftM (freevm (p_pgdir p')) ;;;
  pupd i (ps_state UNUSED) ;;;
  pupd i (ps_pid 0) ;;;
  pupd i (ps_parent None) ;;;
  pupd i (fun p => ps_name (<[0%nat := x00]> (p_name p)) p) ;;;
  pupd i (ps_killed false) ;;;
  release LkPtable ;;;
  ret (p_pid p).

Fixpoint wait_scan (me : nat) (havekids : bool) (i n : nat) : KM scan :=
  match n with
  | O => ret (if havekids then HaveKids else NoKids)
  | S n =>
      let! p := pget i in
      if negb (bool_decide (p_parent p = Some me)) then wait_scan me havekids (S i) n
      else if bool_decide (p_state p = ZOMBIE) then
        let! pid := reap i in
        ret (Reaped pid)
      else wait_scan me true (S i) n
  end.

(** [for(;;)] of [wait]; [w] bounds the number of times [sleep] returns. *)
Fixpoint wait_loop (me w : nat) : KM Z :=
  let! r := wait_scan me false 0 (Z.to_nat NPROC) in
  let! p := pget me in
  match r with
  | Reaped pid => ret pid
  | NoKids => release LkPtable ;;; ret (-1)
  | HaveKids =>
      if p_killed p then release LkPtable ;;; ret (-1)
      else
        match w with
        | O => nofuel
        | S w => sleep (ChProc me) LkPtable ;;; wait_loop me w
        end
  end.

Definition wait : KM Z :=
  let! me := myproc in
  acquire LkPtable ;;;
  wait_loop me wakeups.

(** A new process starts here and goes on to user space. *)
Definition forkret : KM unit :=
  release LkPtable ;;;
  let! f := gets first in
  when f
    (modify (ks_first false) ;;;
     initlog).

(** [initcode] is the address of the initial program and [size] its size. *)
Definition userinit (initcode size : Z) : KM unit :=
  let! o := allocproc in
  modify (ks_initproc o) ;;;
  let! i := deref o in
  let! d := liftM setupkvm in
  pupd i (ps_pgdir d) ;;;
  if d =? 0 then panic "userinit: out of memory?"
  else
    liftM (inituvm d initcode size) ;;;
    pupd i (ps_sz PGSIZE) ;;;
    let ds := Z.lor (Z.shiftl SEG_UDATA 3) DPL_USER in
    pupd i (ps_tf (tf_set_eip 0 (tf_set_esp PGSIZE (tf_set_eflags FL_IF
      (tf_set_ss ds (tf_set_es ds (tf_set_ds ds
        (tf_set_cs (Z.lor (Z.shiftl SEG_UCODE 3) DPL_USER) tf0)))))))) ;;;
    pupd i (fun p => ps_name (safestrcpy_list (p_name p) (cstr "initcode")) p) ;;;
    let! cwd := namei (cstr "/") in
    pupd i (ps_cwd cwd) ;;;
    pupd i (ps_state RUNNABLE).

End Proc.
