(* ===== verification/Exec.v ===== *)
(** * exec: exec.c, elf.h, and loaduvm of vm.c

    Building a new user image from an ELF file and replacing the old one. *)

From S2P Require Import Prelude Layout Mem Kalloc Vm State Sched Cow Bytes Bio Log Inode Console.
From S2P Require Import Fs Pipe File Proc.

Open Scope Z_scope.

(** ** The ELF format *)

Definition ELF_MAGIC : Z := 0x464C457F.
Definition ELF_PROG_LOAD : Z := 1.

(** The fields of the file header and the program header that are used. *)
Record elfhdr : Type := ElfHdr { eh_magic : Z; eh_entry : Z; eh_phoff : Z; eh_phnum : Z }.
Record proghdr : Type := ProgHdr {
  ph_type : Z; ph_off : Z; ph_vaddr : Z; ph_filesz : Z; ph_memsz : Z
}.

Definition elfhdr_size : Z := 52.
Definition proghdr_size : Z := 32.

Definition decode_elf (b : list byte) : elfhdr :=
  ElfHdr (get32 0 b) (get32 24 b) (get32 28 b) (get16 44 b).
Definition decode_ph (b : list byte) : proghdr :=
  ProgHdr (get32 0 b) (get32 4 b) (get32 8 b) (get32 16 b) (get32 20 b).

Section Exec.
Context `{KernelImage} `{Wakeups}.

(** ** Loading *)

Fixpoint loaduvm_loop (pgdir addr : Z) (ip : nat) (offset i sz : Z) (fuel : nat) : KM Z :=
  if i <? sz then
    match fuel with
    | O => nofuel
    | S fuel =>
        let! pte := liftM (walkpgdir pgdir (u32 (addr + i)) false) in
        if pte =? 0 then panic "loaduvm: address should exist"
        else
          let! e := liftM (ld32 pte) in
          let pa := PTE_ADDR e in
          let n := if sz - i <? PGSIZE then sz - i else PGSIZE in
          let! r := readi ip (to_va (p2v pa)) (u32 (offset + i)) n in
          if negb (u32 r.1 =? n) then ret (-1)
          else loaduvm_loop pgdir addr ip offset (u32 (i + PGSIZE)) sz fuel
    end
  else ret 0.

Definition loaduvm (pgdir addr : Z) (ip : nat) (offset sz : Z) : KM Z :=
  if negb (addr mod PGSIZE =? 0) then panic "loaduvm: addr must be page aligned"
  else loaduvm_loop pgdir addr ip offset 0 sz (Z.to_nat (sz / PGSIZE + 1)).

(** [for(i=0, off=elf.phoff; i<elf.phnum; i++, off+=sizeof(ph))]: the size of
    the image, or [None] for the jump to [bad]. *)
Fixpoint load_segments (ip : nat) (pgdir off sz : Z) (n : nat) : KM (option Z) :=
  match n with
  | O => ret (Some sz)
  | S n =>
      let! r := readi ip to_local (u32 off) proghdr_size in
      if negb (u32 r.1 =? proghdr_size) then ret None
      else
        let ph := decode_ph r.2 in
        if negb (ph_type ph =? ELF_PROG_LOAD) then
          load_segments ip pgdir (s32 (off + proghdr_size)) sz n
        else if ph_memsz ph <? ph_filesz ph then ret None
        else
          let! sz := liftM (allocuvm pgdir sz (u32 (ph_vaddr ph + ph_memsz ph))) in
          if sz =? 0 then ret None
          else
            let! r := loaduvm pgdir (ph_vaddr ph) ip (ph_off ph) (ph_filesz ph) in
            if r <? 0 then ret None
            else load_segments ip pgdir (s32 (off + proghdr_size)) sz n
  end.

(** ** Arguments *)

Definition string_at (s : list byte) (i : Z) : byte := nth (Z.to_nat i) s x00.

(** The argument strings, from [argc] on: the stack pointer below them and
    their addresses. *)
Fixpoint push_args (pgdir sp argc : Z) (argv : list (list byte)) : KM (option (Z * list Z)) :=
  match argv with
  | [] => ret (Some (sp, []))
  | s :: argv =>
      if MAXARG <=? argc then ret None
      else
        let len := Z.of_nat (length s) + 1 in
        let sp := Z.land (u32 (sp - len)) (Z.lnot 3) in
        let! r := liftM (copyout pgdir sp (string_at s) len) in
        if r <? 0 then ret None
        else
          let! o := push_args pgdir sp (argc + 1) argv in
          match o with
          | None => ret None
          | Some (sp', addrs) => ret (Some (sp', sp :: addrs))
          end
  end.

(** The words of [ustack]: a fake return address, [argc], [argv], and the
    argument pointers with a null at the end. *)
Definition ustack (sp argc : Z) (addrs : list Z) : list byte :=
  mjoin (le_bytes 4 <$> [0xffffffff; argc; u32 (sp - (argc + 1) * 4)] ++ addrs ++ [0]).

(** [for(last=s=path; *s; s++) if( *s == '/') last = s+1;] *)
Fixpoint last_elem (last path : list byte) : list byte :=
  match path with
  | [] => last
  | c :: path => if bool_decide (c = slash) then last_elem path path else last_elem last path
  end.

(** ** exec *)

(** The part after [bad:]. *)
Definition exec_bad (pgdir : Z) (ip : option nat) : KM Z :=
  when (negb (pgdir =? 0)) (liftM (freevm pgdir)) ;;;
  (match ip with Some i => iunlockput i | None => ret tt end) ;;;
  ret (-1).

(** The part after the program is in memory. *)
Definition exec_image (path : list byte) (argv : list (list byte)) (pgdir sz entry : Z) : KM Z :=
  let sz := PGROUNDUP sz in
  let! sz := liftM (allocuvm pgdir sz (u32 (sz + 2 * PGSIZE))) in
  if sz =? 0 then exec_bad pgdir None
  else
    liftM (clearpteu pgdir (u32 (sz - 2 * PGSIZE))) ;;;
    let! o := push_args pgdir sz 0 argv in
    match o with
    | None => exec_bad pgdir None
    | Some (sp, addrs) =>
        let argc := Z.of_nat (length argv) in
        let words := ustack sp argc addrs in
        let sp := u32 (sp - (3 + argc + 1) * 4) in
        let! r := liftM (copyout pgdir sp (string_at words) ((3 + argc + 1) * 4)) in
        if r <? 0 then exec_bad pgdir None
        else
          let! me := myproc in
          pupd me (fun p => ps_name (safestrcpy_list (p_name p) (last_elem path path)) p) ;;;
          let! p := pget me in
          let oldpgdir := p_pgdir p in
          pupd me (ps_pgdir pgdir) ;;;
          pupd me (ps_sz sz) ;;;
          pupd me (fun p => ps_tf (tf_set_esp sp (tf_set_eip entry (p_tf p))) p) ;;;
          switchuvm me ;;;
          liftM (freevm oldpgdir) ;;;
          ret 0
    end.

Definition exec (path : list byte) (argv : list (list byte)) : KM Z :=
  let! o := namei path in
  match o with
  | None => ret (-1)
  | Some ip =>
      ilock (Some ip) ;;;
      let! r := readi ip to_local 0 elfhdr_size in
      if u32 r.1 <? elfhdr_size then exec_bad 0 (Some ip)
      else
        let elf := decode_elf r.2 in
        if negb (eh_magic elf =? ELF_MAGIC) then exec_bad 0 (Some ip)
        else
          let! pgdir := liftM setupkvm in
          if pgdir =? 0 then exec_bad 0 (Some ip)
          else
            let! o := load_segments ip pgdir (s32 (eh_phoff elf)) 0 (Z.to_nat (eh_phnum elf)) in
            match o with
            | None => exec_bad pgdir (Some ip)
            | Some sz =>
                iunlockput ip ;;;
                exec_image path argv pgdir sz (eh_entry elf)
            end
  end.

End Exec.
