(* ===== verification/ExecFacts.v ===== *)
(** * The image of a program: what exec builds before it commits

    [built] is the invariant of the address space that exec makes on free
    pages: which bytes it shows and which pages the program may touch.
    [setupkvm], [allocuvm], [clearpteu], [copyout] and [loaduvm] in terms of it. *)

From S2P Require Import Prelude Layout Mem Kalloc Vm VmFacts UvmFacts UvmAlloc UvmProps CowFacts.
From S2P Require Import State Sched Bytes Bio BioFacts Log Inode Console Fs FsFacts FileFacts.
From S2P Require Import Exec.

Open Scope Z_scope.

(** [n] bytes of [f] laid over [I] at [a]. *)
Definition overlay (I : Z -> byte) (a n : Z) (f : Z -> byte) (x : Z) : byte :=
  if (a <=? x) && (x <? a + n) then f (x - a) else I x.

Lemma overlay_in I a n f x : a <= x < a + n -> overlay I a n f x = f (x - a).
Proof. intros Hx. unfold overlay. by rewrite (proj2 (Z.leb_le _ _)), (proj2 (Z.ltb_lt _ _)) by lia. Qed.

Lemma overlay_out I a n f x : x < a \/ a + n <= x -> overlay I a n f x = I x.
Proof. intros Hx. unfold overlay. destruct (Z.leb_spec a x), (Z.ltb_spec x (a + n)); (done || lia). Qed.

(** Zeroes from [top] on. *)
Definition zeroed (I : Z -> byte) (top x : Z) : byte := if x <? top then I x else x00.

Lemma put_bytes_overlay src n : forall m a i x,
  put_bytes m a src i n x = overlay m a (Z.of_nat n) (fun j => src (i + j)) x.
Proof.
  induction n as [|n IH]; intros m a i x; cbn [put_bytes]; [by rewrite overlay_out by lia|].
  rewrite IH. destruct (Z.eq_dec x a) as [->|].
  - rewrite overlay_out, upd_eq, overlay_in by lia. f_equal. lia.
  - destruct (decide (a < x < a + Z.of_nat (S n))).
    + rewrite !overlay_in by lia. f_equal. lia.
    + rewrite !overlay_out, upd_ne by (done || lia). done.
Qed.

(** An entry without the user bit. *)
Lemma clear_user_bits e : let e2 := Z.land e (Z.lnot PTE_U) in
  has e2 PTE_P = has e PTE_P /\ has e2 PTE_W = has e PTE_W /\ has e2 PTE_U = false.
Proof.
  intros e2. unfold e2, has. rewrite <- !Z.land_assoc. change (Z.land (Z.lnot PTE_U) PTE_U) with 0.
  rewrite Z.land_0_r. done.
Qed.

Lemma land_range e f : 0 <= e < 2 ^ 32 -> 0 <= Z.land e f < 2 ^ 32.
Proof.
  intros He. split; [apply Z.land_nonneg; lia|].
  replace (Z.land e f) with (Z.land (Z.land e f) (Z.ones 32)).
  - rewrite Z.land_ones by lia. apply Z.mod_pos_bound. lia.
  - rewrite <- Z.land_assoc, (Z.land_comm f), Z.land_assoc, Z.land_ones, Z.mod_small by lia. done.
Qed.

Section Image.
Context `{KernelImage} `{!KernelImageOk}.

(** The memory [m0] in which [L0] are the free pages: all that is built is built
    on them. *)
Variables (m0 : mem) (L0 : list Z).

Record built (s : mstate) (l : list Z) (d top : Z) (U : Z -> bool) (I : Z -> byte) : Prop := {
  bt_uvm : uvm s d l (fun va => va < top);
  bt_top : aligned top /\ 0 <= top <= KERNBASE;
  bt_frame : frame (fun q => q ∈ L0) m0 (mm s);
  bt_sub : forall q, q ∈ l -> q ∈ L0;
  bt_own : forall q, foot (mm s) d q -> q ∈ L0;
  bt_pages : forall va e, 0 <= va < top -> mapping (mm s) d va = Some e ->
    frame_of e ∈ L0 /\ has e PTE_W = true /\ has e PTE_U = U va;
  bt_read : forall va, 0 <= va < top -> uread (mm s) d va = Some (I va);
  bt_kern : forall va, KERNBASE <= va < 2 ^ 32 -> mapping (mm s) d va = kmap_lookup kmap va
}.

Lemma built_ext s l d top U U' I I' :
  built s l d top U I -> (forall va, 0 <= va < top -> U' va = U va /\ I' va = I va) -> built s l d top U' I'.
Proof.
  intros [B1 B2 B3 B4 B5 B6 B7 B8] E. split; try done.
  - intros va e Hva Ee. destruct (E va Hva) as [-> _]. by apply B6.
  - intros va Hva. destruct (E va Hva) as [_ ->]. by apply B7.
Qed.

Lemma built_mapped s l d top U I va :
  built s l d top U I -> 0 <= va < top ->
  exists e, mapping (mm s) d va = Some e /\ private_page s d l (frame_of e) /\ frame_of e ∈ L0 /\ has e PTE_U = U va.
Proof.
  intros B Hva. pose proof (bt_top _ _ _ _ _ _ B) as Ht.
  destruct (uv_some _ _ _ _ (bt_uvm _ _ _ _ _ _ B) va) as (e & E & Hp); [lia|lia|].
  exists e. destruct (bt_pages _ _ _ _ _ _ B va e Hva E) as (? & _ & ?). done.
Qed.

Lemma built_start s :
  free_wf s L0 -> m0 = mm s -> (65 <= length L0)%nat ->
  wp setupkvm s (fun d s' => d <> 0 /\ exists l', built s' l' d 0 (fun _ => true) (fun _ => x00) /\
    (length L0 <= length l' + 65)%nat).
Proof.
  intros Hf Em Hl. wp_use (setupkvm_spec s L0 Hf). intros d s' (used & l' & [[Hd B]|(_ & _ & ? & _)]); [|lia].
  split; [done|]. exists l'. pose proof (kb_split _ _ _ _ _ _ B) as El.
  assert (Hin : forall q, q ∈ d :: used -> q ∈ L0) by (rewrite El; set_solver).
  split; [split|].
  - by eapply kvm_built_uvm.
  - split; [done|klia].
  - rewrite Em. eapply frame_mono; [apply (kb_frame _ _ _ _ _ _ B)|]. auto.
  - rewrite El. set_solver.
  - intros q [->|(i & Hi & Hp & ->)]; apply Hin; [by left|right]. by apply (kb_dirs _ _ _ _ _ _ B).
  - intros; lia.
  - intros; lia.
  - intros va Hva. apply (kb_mapping _ _ _ _ _ _ B). klia.
  - pose proof (kb_used _ _ _ _ _ _ B). rewrite El. cbn [length]. rewrite length_app. lia.
Qed.

(** [allocuvm] to a larger size. *)
Lemma built_grow s l d top U I oldsz newsz :
  built s l d top U I -> PGROUNDUP oldsz = top -> 0 <= oldsz <= newsz -> newsz < KERNBASE ->
  2 * (PGROUNDUP newsz - top) <= Z.of_nat (length l) * PGSIZE ->
  wp (allocuvm d oldsz newsz) s (fun r s' => r = newsz /\ exists l',
    built s' l' d (PGROUNDUP newsz) (fun va => if va <? top then U va else true) (zeroed I top) /\
    Z.of_nat (length l) * PGSIZE <= Z.of_nat (length l') * PGSIZE + 2 * (PGROUNDUP newsz - top)).
Proof.
  intros B Et Hs Hn Hl. pose proof B as [B1 B2 B3 B4 B5 B6 B7 B8].
  assert (B1' : uvm s d l (fun va => va < PGROUNDUP oldsz)) by (by rewrite Et).
  wp_use (allocuvm_spec s d l oldsz newsz B1' Hs Hn). rewrite Et. intros r s' (l' & _ & Hok).
  destruct (Hok Hl) as (-> & Hu & [G1 G2 G3 G4 G5 G6 G7 G8 G9] & Hl'). split; [done|]. exists l'. split; [|done].
  destruct (alloc_bounds oldsz newsz) as (_ & Ha & _ & Hb); [lia|]. split.
  - done.
  - split; [done|]. unfold aligned, KERNBASE, PGSIZE in *. Z.div_mod_to_equations. lia.
  - eapply frame_trans; [exact B3|]. eapply frame_mono; [exact G7|]. intros q _ [Hq|Hq]; [auto|]. apply B5. done.
  - auto.
  - intros q [->|Hq]; [apply B5; by left|]. destruct (G2 q Hq) as [?|?]; [auto|]. apply B5. by right.
  - intros va e Hva E. destruct (Z.ltb_spec va top) as [Hlt|Hge].
    + rewrite G3 in E by lia. apply B6; [lia|done].
    + destruct (G9 va e ltac:(lia) E) as [? ?]. split; [|done]. apply B4, (G5 va); [lia|done].
  - intros va Hva. unfold zeroed. destruct (Z.ltb_spec va top) as [Hlt|Hge].
    + rewrite G4 by lia. apply B7. lia.
    + apply G6. lia.
  - intros va Hva. rewrite G3 by lia. by apply B8.
Qed.

(** The pages of an address space are not on the free list. *)
Lemma uvm_off s d l top q :
  uvm s d l (fun va => va < top) -> foot (mm s) d q \/ ufoot (mm s) d q -> q ∉ l.
Proof.
  intros Hu [[->|(i & Hi & Hp & ->)]|(va & e & Hva & E & ->)].
  - apply Hu.
  - by apply (pt_tabs _ _ _ (uv_inv _ _ _ _ Hu)).
  - destruct (Z.lt_ge_cases va top) as [Hlt|Hge].
    + destruct (uv_some _ _ _ _ Hu va Hva Hlt) as (e2 & E2 & (_ & Hn & _)). congruence.
    + rewrite (uv_none _ _ _ _ Hu va Hva) in E by lia. done.
Qed.

(** Writing one page of the image. *)
Lemma built_write s l d top U I a e m' :
  built s l d top U I -> 0 <= a < top -> mapping (mm s) d a = Some e -> frame (fun q => q = frame_of e) (mm s) m' ->
  built (set_mm m' s) l d top U
    (fun va => if va / PGSIZE =? a / PGSIZE then m' (frame_of e + va mod PGSIZE) else I va).
Proof.
  intros B Ha He F. destruct (built_mapped s l d top U I a B Ha) as (e' & E' & Hp & Hin & _).
  assert (e' = e) as -> by congruence. pose proof B as [B1 B2 B3 B4 B5 B6 B7 B8].
  destruct (private_write s d l _ m' (uv_inv _ _ _ _ B1) Hp F) as (Hi & _ & Hm & Ht).
  assert (Hno : forall q, foot (mm s) d q -> q <> frame_of e).
  { intros q Hq ->. destruct Hp as (_ & _ & Hd & Hn). destruct Hq; [by apply Hd|by apply Hn]. }
  destruct (uvm_move s (set_mm m' s) d l l _ _ B1 F Hno (pt_free _ _ _ Hi)) as (Hu & _ & Hw).
  { intros q Hq. by apply (uvm_off s d l top). }
  split; try done.
  - eapply frame_trans; [exact B3|]. eapply frame_mono; [exact F|]. by intros q _ ->.
  - intros q Hq. apply B5. by apply (foot_change _ _ _ Hw).
  - intros va ev Hva. cbn. rewrite Hm. by apply B6.
  - intros va Hva. destruct (built_mapped s l d top U I va B Hva) as (ev & Ev & _ & _ & _).
    unfold uread. cbn. rewrite Hm, Ev. fold (frame_of ev). destruct (Z.eqb_spec (va / PGSIZE) (a / PGSIZE)) as [E|E].
    + rewrite (mapping_page _ _ va a) in Ev by (done || klia). by assert (ev = e) as -> by congruence.
    + specialize (B7 va Hva). unfold uread in B7. rewrite Ev in B7. fold (frame_of ev) in B7. rewrite <- B7. f_equal.
      apply F; [apply frame_of_aligned| |by apply Z.mod_pos_bound].
      intros Ef. apply E. apply (uv_inj _ _ _ _ B1 va a ev e); (done || lia).
  - intros va Hva. cbn. rewrite Hm. by apply B8.
Qed.

(** A memory that differs only inside one page. *)
Lemma frame_inside m m' f :
  aligned f -> (forall x, x < f \/ f + PGSIZE <= x -> m' x = m x) -> frame (fun q => q = f) m m'.
Proof.
  intros Hf E q Hq Hne o Ho. apply E. unfold aligned, PGSIZE in *. Z.div_mod_to_equations. lia.
Qed.

(** Closing one page of the image to the program. *)
Section Guard.
Variables (s : mstate) (l : list Z) (d top : Z) (U : Z -> bool) (I : Z -> byte) (a e : Z).
Hypothesis B : built s l d top U I.
Hypothesis Ha : 0 <= a < top.
Hypothesis He : mapping (mm s) d a = Some e.

Let e2 := Z.land e (Z.lnot PTE_U).
Let s' := set_mm (wr32 (mm s) (tab (mm s) d (PDX a) + 4 * PTX a) e2) s.

Lemma guard_frame_of : frame_of e2 = frame_of e.
Proof. by apply frame_of_clear. Qed.

Lemma guard_grow : pt_grow (fun _ => False) d s l s' l [].
Proof.
  destruct (mapping_Some _ _ _ _ He) as (Hpr & _).
  exact (pt_store (fun _ => False) s d a l e2 (uv_inv _ _ _ _ (bt_uvm _ _ _ _ _ _ B)) Hpr).
Qed.

Lemma guard_mapping va :
  0 <= va < 2 ^ 32 -> mapping (mm s') d va = if va / PGSIZE =? a / PGSIZE then Some e2 else mapping (mm s) d va.
Proof.
  intros Hva. destruct (mapping_Some _ _ _ _ He) as (Hpr & _ & HeP). destruct (clear_user_bits e) as (E1 & _).
  rewrite HeP in E1. fold e2 in E1. pose proof (bt_top _ _ _ _ _ _ B) as Ht. unfold s'. cbn [mm set_mm].
  assert (Hr : 0 <= e2 < 2 ^ 32) by (apply land_range; eapply entry_range; exact He).
  by rewrite mapping_store, E1 by (apply (uv_inv _ _ _ _ (bt_uvm _ _ _ _ _ _ B)) || done || klia).
Qed.

Lemma guard_foot q : foot (mm s') d q <-> foot (mm s) d q.
Proof.
  destruct (mapping_Some _ _ _ _ He) as (Hpr & _). revert q. apply foot_change. intros i Hr'.
  apply (tab_stable (mm s) d (PDX a) (PTX a) e2);
    [apply (uv_inv _ _ _ _ (bt_uvm _ _ _ _ _ _ B))|apply PDX_range|done|apply PTX_range|done].
Qed.

(** Every user address maps to the frame it had. *)
Lemma guard_mapped va e1 :
  0 <= va < KERNBASE -> mapping (mm s') d va = Some e1 ->
  exists e0, mapping (mm s) d va = Some e0 /\ frame_of e1 = frame_of e0.
Proof.
  intros Hva. pose proof (bt_top _ _ _ _ _ _ B) as Ht. rewrite guard_mapping by klia.
  destruct (Z.eqb_spec (va / PGSIZE) (a / PGSIZE)) as [E|E]; [|by eauto].
  intros [= <-]. exists e. rewrite (mapping_page _ _ va a) by (done || klia). split; [done|apply guard_frame_of].
Qed.

Lemma guard_uvm : uvm s' d l (fun va => va < top).
Proof.
  pose proof B as [B1 B2 B3 B4 B5 B6 B7 B8]. pose proof guard_grow as G. split.
  - apply (pg_inv _ _ _ _ _ _ _ G).
  - intros va Hva HU. destruct (uv_some _ _ _ _ B1 va Hva HU) as (e1 & Ev & Hp1). rewrite guard_mapping by klia.
    destruct (Z.eqb_spec (va / PGSIZE) (a / PGSIZE)) as [E|E].
    + rewrite (mapping_page _ _ va a), He in Ev by (done || klia). injection Ev as <-.
      exists e2. rewrite guard_frame_of. split; [done|]. by apply (private_grow _ _ _ _ _ _ _ _ G Hp1).
    + exists e1. split; [done|]. by apply (private_grow _ _ _ _ _ _ _ _ G Hp1).
  - intros va Hva HU. rewrite guard_mapping by klia. destruct (Z.eqb_spec (va / PGSIZE) (a / PGSIZE)) as [E|E].
    + rewrite <- (mapping_page _ _ va a), (uv_none _ _ _ _ B1 va) in He by (done || klia). done.
    + by apply (uv_none _ _ _ _ B1).
  - intros va va' e1 e1' H1 H2 Ev Ev' Ee.
    destruct (guard_mapped va e1 H1 Ev) as (x & Ex & Fx), (guard_mapped va' e1' H2 Ev') as (y & Ey & Fy).
    apply (uv_inj _ _ _ _ B1 va va' x y); (done || congruence).
Qed.

Lemma guard_built : built s' l d top (fun va => if va / PGSIZE =? a / PGSIZE then false else U va) I.
Proof.
  pose proof B as [B1 B2 B3 B4 B5 B6 B7 B8]. pose proof guard_grow as G. split; [apply guard_uvm|done| |done| | | |].
  - eapply frame_trans; [exact B3|]. eapply frame_mono; [apply (pg_frame _ _ _ _ _ _ _ G)|]. intros q _ Hq. by apply B5, guard_foot.
  - intros q Hq. by apply B5, guard_foot.
  - intros va e' Hva. rewrite guard_mapping by klia. destruct (Z.eqb_spec (va / PGSIZE) (a / PGSIZE)) as [E|E]; [|by apply B6].
    intros [= <-]. destruct (clear_user_bits e) as (_ & E2 & E3). fold e2 in E2, E3.
    rewrite guard_frame_of, E2, E3. destruct (B6 a e Ha He) as (? & ? & _). done.
  - intros va Hva. rewrite <- B7 by done. unfold uread. rewrite guard_mapping by klia.
    destruct (built_mapped s l d top U I va B Hva) as (e1 & Ev & Hp1 & _).
    destruct (private_grow _ _ _ _ _ _ _ _ G Hp1) as [_ Hs].
    destruct (Z.eqb_spec (va / PGSIZE) (a / PGSIZE)) as [E|E].
    + rewrite (mapping_page _ _ va a), He in Ev |- * by (done || klia). injection Ev as <-. f_equal.
      fold (frame_of e2) (frame_of e). rewrite guard_frame_of. apply Hs. by apply Z.mod_pos_bound.
    + rewrite Ev. f_equal. apply Hs. by apply Z.mod_pos_bound.
  - intros va Hva. rewrite guard_mapping by lia. destruct (Z.eqb_spec (va / PGSIZE) (a / PGSIZE)) as [E|E]; [|by apply B8].
    exfalso. unfold KERNBASE, PGSIZE in *. Z.div_mod_to_equations. lia.
Qed.
End Guard.

(** [clearpteu] of one page. *)
Lemma built_guard s l d top U I a :
  built s l d top U I -> 0 <= a < top ->
  wp (clearpteu d a) s (fun _ s' =>
    built s' l d top (fun va => if va / PGSIZE =? a / PGSIZE then false else U va) I).
Proof.
  intros B Ha. destruct (built_mapped s l d top U I a B Ha) as (e & He & _).
  destruct (wpgdir_eq s d a e (pt_wf _ _ _ (uv_inv _ _ _ _ (bt_uvm _ _ _ _ _ _ B))) He) as (W & Hh & R).
  unfold clearpteu. apply wp_bind. unfold wp at 1. rewrite W. rewrite (proj2 (Z.eqb_neq _ 0)) by klia.
  apply wp_bind, wp_gets. rewrite R. apply wp_modify. by apply guard_built.
Qed.

(** Bytes laid over part of one page of the image. *)
Lemma built_overlay s l d top U I a e n f m' :
  built s l d top U I -> 0 <= a -> 0 <= n -> a + n <= top -> a mod PGSIZE + n <= PGSIZE -> 0 <= a < top ->
  mapping (mm s) d a = Some e ->
  (forall x, m' x = overlay (mm s) (frame_of e + a mod PGSIZE) n f x) ->
  built (set_mm m' s) l d top U (overlay I a n f).
Proof.
  intros B Ha0 Hn Hat Hfit Ha He Hm'. pose proof (bt_top _ _ _ _ _ _ B) as Ht.
  pose proof (Z.mod_pos_bound a PGSIZE ltac:(reflexivity)) as Hma.
  eapply built_ext; [eapply (built_write s l d top U I a e m' B Ha He)|].
  - apply frame_inside; [apply frame_of_aligned|]. intros x Hx. rewrite Hm'. apply overlay_out. lia.
  - intros va Hva. split; [done|]. destruct (Z.eqb_spec (va / PGSIZE) (a / PGSIZE)) as [E|E].
    + assert (Eo : va mod PGSIZE - a mod PGSIZE = va - a) by (unfold PGSIZE in *; Z.div_mod_to_equations; lia).
      rewrite Hm'. destruct (decide (a <= va < a + n)).
      * rewrite !overlay_in by lia. f_equal. lia.
      * rewrite !overlay_out by lia. pose proof (bt_read _ _ _ _ _ _ B va Hva) as R. unfold uread in R.
        rewrite (mapping_page _ _ va a), He in R by (done || klia). by injection R.
    + rewrite overlay_out; [done|]. unfold PGSIZE in *. Z.div_mod_to_equations. lia.
Qed.

Lemma overlay_split I a n k f x :
  0 <= k <= n -> overlay I a n f x = overlay (overlay I a k f) (a + k) (n - k) (fun j => f (k + j)) x.
Proof.
  intros Hk. destruct (decide (a <= x < a + k)).
  - by rewrite (overlay_out _ (a + k)), !overlay_in by lia.
  - destruct (decide (a + k <= x < a + n)).
    + rewrite !overlay_in by lia. f_equal. lia.
    + by rewrite !overlay_out by lia.
Qed.

Lemma uva2ka_eq s l d top U I va e :
  built s l d top U I -> 0 <= va < top -> U va = true -> mapping (mm s) d va = Some e ->
  uva2ka d (PGROUNDDOWN va) s = Ok (frame_of e) s.
Proof.
  intros B Hva HU He. pose proof B as [B1 B2 B3 B4 B5 B6 B7 B8].
  destruct (page_base va ltac:(lia)) as (_ & Hr & Hd).
  assert (He' : mapping (mm s) d (PGROUNDDOWN va) = Some e) by (rewrite (mapping_page _ _ _ va); (done || klia)).
  destruct (wpgdir_eq s d _ e (pt_wf _ _ _ (uv_inv _ _ _ _ B1)) He') as (W & Hh & R).
  unfold uva2ka, bind. rewrite W. cbn [obind]. rewrite ldv_high by done. cbn [obind]. rewrite R.
  destruct (mapping_Some _ _ _ _ He) as (_ & _ & ->). destruct (B6 va e Hva He) as (_ & _ & ->). by rewrite HU.
Qed.

Lemma copyout_loop_spec d top U l src fuel : forall s va i len I,
  built s l d top U I -> 0 <= va -> 0 <= len -> va + len <= top ->
  (forall x, va <= x < va + len -> U x = true) ->
  (0 < len -> va mod PGSIZE + len <= PGSIZE * Z.of_nat fuel) ->
  wp (copyout_loop d va src i len fuel) s (fun r s' => r = 0 /\
    built s' l d top U (overlay I va len (fun j => src (i + j)))).
Proof.
  induction fuel as [|fuel IH]; intros s va i len I B Hva Hlen Htop HU Hf; cbn [copyout_loop].
  all: destruct (Z.ltb_spec 0 len) as [Hlt|Hge];
    [|apply wp_ret; split; [done|]; eapply built_ext; [exact B|]; intros x Hx; split; [done|]; apply overlay_out; lia].
  { pose proof (Z.mod_pos_bound va PGSIZE ltac:(reflexivity)). specialize (Hf Hlt). lia. }
  pose proof (bt_top _ _ _ _ _ _ B) as [Hal Ht]. assert (Hvt : 0 <= va < top) by lia.
  destruct (built_mapped s l d top U I va B Hvt) as (e & He & Hp & _ & _).
  assert (HUv : U va = true) by (apply HU; lia).
  apply wp_bind. unfold wp at 1. rewrite (uva2ka_eq s l d top U I va e) by done.
  pose proof (page_ok_bounds _ (proj1 Hp)) as (_ & _ & Hnz). rewrite (proj2 (Z.eqb_neq _ 0)) by done.
  pose proof (Z.mod_pos_bound va PGSIZE ltac:(reflexivity)) as Hmod.
  assert (Ed : va - PGROUNDDOWN va = va mod PGSIZE).
  { rewrite PGROUNDDOWN_eq. unfold PGSIZE. Z.div_mod_to_equations. lia. }
  rewrite Ed. set (n := if len <? PGSIZE - va mod PGSIZE then len else PGSIZE - va mod PGSIZE).
  assert (Hn : 0 < n <= len /\ va mod PGSIZE + n <= PGSIZE) by (unfold n; destruct (Z.ltb_spec len (PGSIZE - va mod PGSIZE)); lia).
  apply wp_bind, wp_modify.
  assert (B' : built (set_mm (put_bytes (mm s) (frame_of e + va mod PGSIZE) src i (Z.to_nat n)) s) l d top U
    (overlay I va n (fun j => src (i + j)))).
  { apply (built_overlay s l d top U I va e n); (done || lia || (intros x; rewrite put_bytes_overlay, Z2Nat.id by lia; done)). }
  destruct (Z.ltb_spec len (PGSIZE - va mod PGSIZE)) as [Hs|Hs].
  - assert (n = len) as -> by (unfold n; destruct (Z.ltb_spec len (PGSIZE - va mod PGSIZE)); lia).
    replace (len - len) with 0 by lia. destruct fuel; cbn; apply wp_ret; done.
  - assert (En : n = PGSIZE - va mod PGSIZE) by (unfold n; destruct (Z.ltb_spec len (PGSIZE - va mod PGSIZE)); lia).
    replace (u32 (PGROUNDDOWN va + PGSIZE)) with (va + n) by (rewrite u32_small; klia).
    wp_use (IH _ (va + n) (i + n) (len - n) _ B'); try lia.
    + intros x Hx. apply HU. lia.
    + intros Hl. specialize (Hf Hlt). rewrite En in *. unfold PGSIZE in *. Z.div_mod_to_equations. lia.
    + intros r s' (-> & B2). split; [done|]. eapply built_ext; [exact B2|]. intros x Hx. split; [done|].
      rewrite (overlay_split I va len n) by lia. unfold overlay at 1 3. destruct (_ && _); [|done]. f_equal. lia.
Qed.

(** [copyout] into pages the program may use. *)
Lemma built_copyout s l d top U I va src len :
  built s l d top U I -> 0 <= va -> 0 <= len -> va + len <= top -> (forall x, va <= x < va + len -> U x = true) ->
  wp (copyout d va src len) s (fun r s' => r = 0 /\ built s' l d top U (overlay I va len src)).
Proof.
  intros B Hva Hlen Htop HU. unfold copyout.
  apply (copyout_loop_spec d top U l src _ s va 0 len I); try done. intros _.
  pose proof (Z.mod_pos_bound va PGSIZE ltac:(reflexivity)).
  unfold PGSIZE in *. Z.div_mod_to_equations. lia.
Qed.

End Image.

(** ** Loading from the file *)

Lemma put_va_high bs : forall a k, KERNBASE <= a -> a + Z.of_nat (length bs) < 2 ^ 32 ->
  exists m', put_va a bs k = Ok tt (ks_ms (set_mm m' (ms k)) k) /\
    forall x, m' x = overlay (mm (ms k)) a (Z.of_nat (length bs)) (fun j => nth (Z.to_nat j) bs x00) x.
Proof.
  induction bs as [|b bs IH]; intros a k Ha Hl; cbn [put_va length] in *.
  - exists (mm (ms k)). split; [|intros x; by rewrite overlay_out by lia]. unfold ret. f_equal. destruct k as [[] ]. done.
  - set (k1 := ks_ms (set_mm (upd (mm (ms k)) a b) (ms k)) k).
    assert (E1 : liftM (let! a0 := mmu a true in memM (fun m => upd m a0 b)) k = Ok tt k1).
    { unfold liftM, bind. rewrite mmu_high by done. done. }
    rewrite (bind_Ok _ _ _ _ _ E1), u32_small by klia.
    destruct (IH (a + 1) k1 ltac:(lia) ltac:(lia)) as (m' & E & Hm). exists m'. split.
    { rewrite E. done. }
    intros x. rewrite Hm. cbn [k1 ms ks_ms mm set_mm]. destruct (Z.eq_dec x a) as [->|].
    + rewrite overlay_out, upd_eq, overlay_in by lia. by replace (a - a) with 0 by lia.
    + destruct (decide (a < x < a + Z.of_nat (S (length bs)))).
      * rewrite !overlay_in by lia. replace (Z.to_nat (x - a)) with (S (Z.to_nat (x - (a + 1)))) by lia. done.
      * rewrite !overlay_out, upd_ne by (done || lia). done.
Qed.

(** A kernel address as the destination of [readi]. *)
Lemma to_va_fills a f off n s0 :
  KERNBASE <= a -> a + n < 2 ^ 32 ->
  fills (to_va a) f off n (fun tot s => exists m', s = set_mm m' s0 /\
    forall x, m' x = overlay (mm s0) a tot (fun j => f (off + j)) x).
Proof.
  intros Ha Hn k tot m (m1 & E1 & H1) Ht Hm Hle. unfold to_va. rewrite u32_small by klia.
  destruct (put_va_high (window f (off + tot) m) (a + tot) k) as (m' & E & Hm'); [lia|rewrite window_length; lia|].
  rewrite window_length, Z2Nat.id in Hm' by lia. exists (set_mm m' (ms k)). split; [done|].
  exists m'. split; [by rewrite E1|]. intros x. rewrite Hm', E1. cbn [mm set_mm].
  rewrite (overlay_split _ a (tot + m) tot) by lia. replace (tot + m - tot) with m by lia.
  destruct (decide (a + tot <= x < a + tot + m)).
  - rewrite !overlay_in by lia. rewrite nth_lookup, window_lookup by lia. cbn. f_equal. lia.
  - rewrite !(overlay_out _ (a + tot)) by lia. apply H1.
Qed.

(** The program headers of a file, the bytes they put into memory and the end of
    the last segment. *)
Fixpoint headers (f : Z -> byte) (off : Z) (n : nat) : list proghdr :=
  match n with
  | O => []
  | S n => decode_ph (window f off proghdr_size) :: headers f (off + proghdr_size) n
  end.

Definition loads (ph : proghdr) : bool := ph_type ph =? ELF_PROG_LOAD.

Definition load (f : Z -> byte) (I : Z -> byte) (ph : proghdr) : Z -> byte :=
  if loads ph then overlay I (ph_vaddr ph) (ph_filesz ph) (fun j => f (ph_off ph + j)) else I.

Definition grow_to (sz : Z) (ph : proghdr) : Z :=
  if loads ph then Z.max sz (ph_vaddr ph + ph_memsz ph) else sz.

Definition program (f : Z -> byte) (phs : list proghdr) : Z -> byte := foldl (load f) (fun _ => x00) phs.
Definition extent (phs : list proghdr) : Z := foldl grow_to 0 phs.

(** A segment that exec accepts, of a file of [size] bytes. *)
Record segment_ok (size : Z) (ph : proghdr) : Prop := {
  sg_align : ph_vaddr ph mod PGSIZE = 0;
  sg_vaddr : 0 <= ph_vaddr ph;
  sg_sizes : 0 <= ph_filesz ph <= ph_memsz ph;
  sg_end : 0 < ph_vaddr ph + ph_memsz ph;
  sg_file : 0 <= ph_off ph /\ ph_off ph + ph_filesz ph <= size
}.

Lemma grow_to_mono sz ph : sz <= grow_to sz ph.
Proof. unfold grow_to. destruct (loads ph); lia. Qed.

Lemma foldl_grow_to_mono phs : forall sz, sz <= foldl grow_to sz phs.
Proof.
  induction phs as [|ph phs IH]; intros sz; cbn; [lia|]. etransitivity; [apply (grow_to_mono sz ph)|apply IH].
Qed.

Lemma PGROUNDUP_bounds z : 0 <= z <= KERNBASE ->
  aligned (PGROUNDUP z) /\ z <= PGROUNDUP z < z + PGSIZE /\ PGROUNDUP z <= KERNBASE.
Proof.
  intros Hz. rewrite PGROUNDUP_eq by klia. unfold aligned. rewrite Z.mod_mul by done.
  unfold KERNBASE, PGSIZE in *. Z.div_mod_to_equations. lia.
Qed.

Lemma PGROUNDUP_mono y z : 0 <= y <= z -> z <= KERNBASE -> PGROUNDUP y <= PGROUNDUP z.
Proof.
  intros Hy Hz. rewrite !PGROUNDUP_eq by klia. unfold PGSIZE. Z.div_mod_to_equations. lia.
Qed.

Section Load.
Context `{KernelImage} `{!KernelImageOk} `{Wakeups} (start : Z) (P : kstate -> (Z -> block) -> Prop)
  (Hd : kstate -> (Z -> block) -> nat -> Z -> Prop) `{!Readable start P Hd}.
Variables (m0 : mem) (L0 : list Z) (V : Z -> block) (i : nat) (ip : inode) (d : Z).
Hypothesis Hfile : file_ok start V ip.

Let f := fbyte V ip.

(** The state while the program is loaded. *)
Record loading (k : kstate) (l : list Z) (top : Z) (I : Z -> byte) : Prop := {
  ld_disk : P k V;
  ld_inode : inodes k !! i = Some ip;
  ld_built : built m0 L0 (ms k) l d top (fun _ => true) I
}.

Lemma readi_page k l top I a n off :
  loading k l top I -> 0 <= a -> aligned a -> 0 <= n <= PGSIZE -> a + n <= top -> 0 < n -> 0 <= off -> off + n <= i_size ip ->
  forall e, mapping (mm (ms k)) d a = Some e ->
  wp (readi i (to_va (frame_of e)) off n) k (fun r k' => r.1 = n /\ ffr k k' /\
    loading k' l top (overlay I a n (fun j => f (off + j)))).
Proof.
  intros [X Ei B] Ha0 Ha Hn Hat Hn0 Ho Hs e He.
  destruct (built_mapped m0 L0 (ms k) l d top _ I a B ltac:(lia)) as (e' & E' & Hp & _).
  assert (e' = e) as -> by congruence. pose proof (page_ok_bounds _ (proj1 Hp)) as (Hlo & Hhi & _).
  assert (Em : Z.min n (i_size ip - off) = n) by lia.
  pose proof (to_va_fills (frame_of e) f off n (ms k) ltac:(klia) ltac:(klia)) as Hfl.
  rewrite <- Em in Hfl at 1.
  wp_use (readi_into start P Hd k V i ip (to_va (frame_of e)) off n _ Hfl X Ei Hfile); [lia|klia| |].
  { exists (mm (ms k)). split; [by destruct (ms k)|]. intros x. by rewrite overlay_out by lia. }
  rewrite Em. intros r k' (-> & Fr & X' & m' & Es & Hm'). split; [done|]. split; [done|]. split; [done| |].
  - by rewrite (ffr_inodes _ _ Fr).
  - rewrite Es. apply (built_overlay m0 L0 (ms k) l d top _ I a e n); try done; try lia.
    + rewrite Ha. lia.
    + intros x. rewrite Ha, Z.add_0_r. apply Hm'.
Qed.

Lemma loaduvm_loop_spec addr offset sz top l fuel : forall k j I,
  loading k l top I -> aligned addr -> aligned j -> 0 <= addr -> 0 <= j -> addr + sz <= top ->
  0 <= offset -> offset + sz <= i_size ip -> (j < sz -> sz - j <= PGSIZE * Z.of_nat fuel) ->
  wp (loaduvm_loop d addr i offset j sz fuel) k (fun r k' => r = 0 /\ ffr k k' /\
    loading k' l top (overlay I (addr + j) (sz - j) (fun x => f (offset + j + x)))).
Proof.
  pose proof (fo_size _ _ _ Hfile) as Hsz. change (MAXFILE * BSIZE) with 71680 in Hsz.
  induction fuel as [|fuel IH]; intros k j I Ld Haa Haj Ha Hj Htop Ho Hs Hf; cbn [loaduvm_loop].
  all: destruct (Z.ltb_spec j sz) as [Hlt|Hge].
  1: specialize (Hf Hlt); lia.
  1,3: apply wp_ret; split; [done|]; split; [apply ffr_refl|]; destruct Ld as [X Ei B]; split; [done|done|];
    eapply built_ext; [exact B|]; intros x Hx; split; [done|]; apply overlay_out; lia.
  pose proof Ld as [X Ei B]. pose proof (bt_top _ _ _ _ _ _ _ _ B) as [Hal Ht].
  rewrite !u32_small by klia.
  destruct (built_mapped m0 L0 (ms k) l d top _ I (addr + j) B ltac:(lia)) as (e & He & Hp & _).
  destruct (wpgdir_eq (ms k) d _ e (pt_wf _ _ _ (uv_inv _ _ _ _ (bt_uvm _ _ _ _ _ _ _ _ B))) He) as (W & Hh & R).
  apply wp_bind, wp_liftM. unfold wp at 1. rewrite W. replace (ks_ms (ms k) k) with k by (by destruct k).
  rewrite (proj2 (Z.eqb_neq _ 0)) by klia. apply wp_bind, wp_liftM, wp_gets. rewrite R.
  replace (ks_ms (ms k) k) with k by (by destruct k). fold (frame_of e).
  set (n := if sz - j <? PGSIZE then sz - j else PGSIZE).
  assert (Hn : 0 < n <= PGSIZE /\ n <= sz - j /\ (n < sz - j -> n = PGSIZE)) by (unfold n; destruct (Z.ltb_spec (sz - j) PGSIZE); klia).
  assert (Haj2 : aligned (addr + j)) by (unfold aligned, PGSIZE in *; Z.div_mod_to_equations; lia).
  apply wp_bind. wp_use (readi_page k l top I (addr + j) n (offset + j) Ld); try lia; try done.
  intros r k1 (-> & Fr & Ld1). rewrite u32_small, Z.eqb_refl by klia. cbn [negb].
  wp_use (IH k1 (j + PGSIZE) _ Ld1); try klia; try done.
  - unfold aligned, PGSIZE in *. Z.div_mod_to_equations. lia.
  - intros r' k' (-> & Fr' & [X' Ei' B']). split; [done|]. split; [by eapply ffr_trans|]. split; [done|done|].
    eapply built_ext; [exact B'|]. intros x Hx. split; [done|]. cbn beta. destruct (Z.lt_ge_cases n (sz - j)) as [Hl|Hl].
    + assert (n = PGSIZE) as -> by lia. rewrite (overlay_split I (addr + j) (sz - j) PGSIZE) by klia.
      replace (addr + (j + PGSIZE)) with (addr + j + PGSIZE) by lia. replace (sz - (j + PGSIZE)) with (sz - j - PGSIZE) by lia.
      unfold overlay at 1 3. destruct (_ && _); [|done]. f_equal. lia.
    + rewrite (overlay_out _ (addr + (j + PGSIZE))) by klia. by replace (sz - j) with n by lia.
Qed.

(** [loaduvm] puts [sz] bytes of the file into the image. *)
Lemma loaduvm_spec k addr offset sz top l I :
  loading k l top I -> aligned addr -> 0 <= addr -> 0 <= sz -> addr + sz <= top ->
  0 <= offset -> offset + sz <= i_size ip ->
  wp (loaduvm d addr i offset sz) k (fun r k' => r = 0 /\ ffr k k' /\
    loading k' l top (overlay I addr sz (fun x => f (offset + x)))).
Proof.
  intros Ld Ha Ha0 Hs Ht Ho Hf. unfold loaduvm. rewrite (proj2 (Z.eqb_eq _ 0)) by done. cbn [negb].
  wp_use (loaduvm_loop_spec addr offset sz top l (Z.to_nat (sz / PGSIZE + 1)) k 0 I Ld Ha); try done; try lia.
  { unfold PGSIZE. Z.div_mod_to_equations. lia. }
  intros r k' (-> & Fr & Ld'). split; [done|]. split; [done|]. by rewrite !Z.add_0_r, Z.sub_0_r in Ld'.
Qed.

Lemma loads_alloc k l sz I new T :
  loading k l (PGROUNDUP sz) I -> (forall x, PGROUNDUP sz <= x -> I x = x00) -> 0 <= sz < KERNBASE -> 0 < new < KERNBASE ->
  PGROUNDUP (Z.max sz new) <= T -> 2 * (T - PGROUNDUP sz) <= Z.of_nat (length l) * PGSIZE ->
  wp (liftM (allocuvm d sz new)) k (fun r k' => r = Z.max sz new /\ ffr k k' /\ exists l',
    loading k' l' (PGROUNDUP (Z.max sz new)) I /\ (forall x, PGROUNDUP (Z.max sz new) <= x -> I x = x00) /\
    2 * (T - PGROUNDUP (Z.max sz new)) <= Z.of_nat (length l') * PGSIZE).
Proof.
  intros Ld Hz Hs Hn HT Hl. apply wp_liftM. destruct (Z.lt_ge_cases new sz) as [Hlt|Hge].
  - rewrite Z.max_l by lia. unfold allocuvm. rewrite (proj2 (Z.leb_gt _ _)), (proj2 (Z.ltb_lt _ _)) by lia.
    apply wp_ret. replace (ks_ms (ms k) k) with k by (by destruct k). split; [done|]. split; [apply ffr_refl|]. by exists l.
  - rewrite Z.max_r in * by lia. destruct Ld as [X Ei B].
    pose proof (PGROUNDUP_mono sz new ltac:(lia) ltac:(lia)) as Hm.
    wp_use (built_grow m0 L0 (ms k) l d _ _ I sz new B eq_refl); try lia.
    intros r s' (-> & l' & B' & Hl'). split; [done|]. split; [by destruct k|]. exists l'. split; [|split; [|lia]].
    + split; [apply (rd_same k); try done; apply woken_refl|done|]. eapply built_ext; [exact B'|]. intros va Hva.
      cbn beta. unfold zeroed. destruct (Z.ltb_spec va (PGROUNDUP sz)) as [|Hge']; [done|]. split; [done|]. by apply Hz.
    + intros x Hx. apply Hz. lia.
Qed.

Lemma load_segments_spec lim T n : forall k l off sz I,
  loading k l (PGROUNDUP sz) I -> (forall x, PGROUNDUP sz <= x -> I x = x00) ->
  0 <= sz -> foldl grow_to sz (headers f off n) <= lim -> lim < KERNBASE -> PGROUNDUP lim <= T -> 2 * (T - PGROUNDUP sz) <= Z.of_nat (length l) * PGSIZE ->
  0 <= off -> off + proghdr_size * Z.of_nat n <= i_size ip ->
  Forall (fun ph => loads ph = true -> segment_ok (i_size ip) ph) (headers f off n) ->
  let sz' := foldl grow_to sz (headers f off n) in
  wp (load_segments i d off sz n) k (fun o k' => o = Some sz' /\ ffr k k' /\ exists l',
    loading k' l' (PGROUNDUP sz') (foldl (load f) I (headers f off n)) /\
    2 * (T - PGROUNDUP sz') <= Z.of_nat (length l') * PGSIZE).
Proof.
  pose proof (fo_size _ _ _ Hfile) as Hfs. change (MAXFILE * BSIZE) with 71680 in Hfs.
  change proghdr_size with 32.
  induction n as [|n IH]; intros k l off sz I Ld Hz Hsz Hend Hlim HT Hl Ho Hs Hph; cbn [load_segments headers foldl] in *.
  { apply wp_ret. split; [done|]. split; [apply ffr_refl|]. exists l. split_and!; (done || lia). }
  apply Forall_cons in Hph as [Hp Hph]. change proghdr_size with 32 in *.
  rewrite u32_small by lia. pose proof Ld as [X Ei B].
  apply wp_bind. wp_use (readi_local start P Hd k V i ip off 32 X Ei Hfile); try lia.
  rewrite Z.min_l by lia. intros r k1 (-> & Fr & X1). cbn [fst snd]. change (u32 32) with 32. cbn [Z.eqb negb].
  apply bfr_ffr in Fr as Fr'. set (ph := decode_ph _) in *.
  assert (Ld1 : loading k1 l (PGROUNDUP sz) I) by (split; [done|by rewrite (bfr_inodes _ _ Fr)|by rewrite (bfr_ms _ _ Fr)]).
  rewrite s32_small by lia. fold (loads ph). destruct (loads ph) eqn:El; cbn [negb].
  2: { assert (Er : grow_to sz ph = sz) by (unfold grow_to; by rewrite El).
       assert (Elo : load f I ph = I) by (unfold load; by rewrite El). rewrite Er, Elo. rewrite Er in Hend.
       wp_use (IH k1 l (off + 32) sz I Ld1); try done; try lia.
       intros o k' (-> & Fr2 & Hr). split; [done|]. split; [by eapply ffr_trans|done]. }
  destruct (Hp eq_refl) as [S1 S2 S3 S4 S5]. rewrite (proj2 (Z.ltb_ge _ _)) by lia.
  assert (Er : grow_to sz ph = Z.max sz (ph_vaddr ph + ph_memsz ph)) by (unfold grow_to; by rewrite El).
  assert (Elo : load f I ph = overlay I (ph_vaddr ph) (ph_filesz ph) (fun j => f (ph_off ph + j))) by (unfold load; by rewrite El).
  rewrite Er, Elo. rewrite Er in Hend. pose proof (foldl_grow_to_mono (headers f (off + 32) n) (Z.max sz (ph_vaddr ph + ph_memsz ph))) as Hend1.
  rewrite u32_small by klia. set (sz1 := Z.max sz (ph_vaddr ph + ph_memsz ph)) in *.
  assert (Hsz1 : 0 < sz1 <= lim /\ sz <= sz1 /\ ph_vaddr ph + ph_filesz ph <= sz1) by (unfold sz1; lia).
  pose proof (PGROUNDUP_mono sz1 lim ltac:(lia) ltac:(lia)) as Hm1.
  destruct (PGROUNDUP_bounds sz1 ltac:(lia)) as (_ & Hb1 & _).
  apply wp_bind. wp_use (loads_alloc k1 l sz I (ph_vaddr ph + ph_memsz ph) T Ld1 Hz); fold sz1; try lia.
  intros r k2 (-> & Fr2 & l2 & Ld2 & Hz2 & Hl2). rewrite (proj2 (Z.eqb_neq _ 0)) by lia.
  apply wp_bind. wp_use (loaduvm_spec k2 (ph_vaddr ph) (ph_off ph) (ph_filesz ph) _ l2 I Ld2); try lia; try done.
  intros r k3 (-> & Fr3 & Ld3). cbn [Z.ltb Z.compare].
  wp_use (IH k3 l2 (off + 32) sz1 _ Ld3); try done; try lia.
  { intros x Hx. rewrite overlay_out by lia. by apply Hz2. }
  intros o k' (-> & Fr4 & l' & Ld' & Hl'). split; [done|].
  split; [eapply ffr_trans, ffr_trans, ffr_trans; eassumption|]. exists l'. split_and!; (done || lia).
Qed.

End Load.
