(* ===== verification/ExecProps.v ===== *)
(** * exec replaces the program

    The arguments on the new stack, the commit to the new image, and the theorems
    on the whole of exec. *)

From S2P Require Import Prelude Layout Mem Kalloc Vm VmFacts UvmFacts UvmAlloc UvmProps CowFacts.
From S2P Require Import State Sched.
From S2P Require Import Bytes Bio BioFacts Log LogFacts Inode Console Fs FsFacts FileFacts.
From S2P Require Import WriteFacts IcacheFacts.
From S2P Require Import DirFacts DirProps Proc Exec ExecFacts.

Open Scope Z_scope.

(** ** The new stack *)

(** Room for the argument strings, each aligned to a word. *)
Definition args_size (argv : list (list byte)) : Z :=
  foldr (fun s n => Z.of_nat (length s) + 4 + n) 0 argv.

Lemma args_size_nonneg argv : 0 <= args_size argv.
Proof. unfold args_size. induction argv as [|s argv IH]; cbn; lia. Qed.

(** What [main(argc, argv)] finds when the stack pointer is [sp]: a return address,
    the number of arguments, a pointer to their addresses, which end with a null;
    at each address the argument, with a NUL after it. *)
Record stack_ok (I : Z -> byte) (sp top : Z) (argv : list (list byte)) : Prop := {
  sk_ret : rd32 I sp = 0xffffffff;
  sk_argc : rd32 I (sp + 4) = Z.of_nat (length argv);
  sk_argv : rd32 I (sp + 8) = sp + 12;
  sk_args : forall i s, argv !! i = Some s ->
    let a := rd32 I (sp + 12 + 4 * Z.of_nat i) in
    sp + 16 + 4 * Z.of_nat (length argv) <= a /\ a + Z.of_nat (length s) < top /\
    forall j, (j <= length s)%nat -> I (a + Z.of_nat j) = nth j s x00;
  sk_null : rd32 I (sp + 12 + 4 * Z.of_nat (length argv)) = 0
}.

Lemma rd32_le_bytes m a w :
  0 <= w < 2 ^ 32 -> (forall j, (j < 4)%nat -> m (a + Z.of_nat j) = nth j (le_bytes 4 w) x00) -> rd32 m a = w.
Proof.
  intros Hw E. replace w with (of_le (le_bytes 4 w)) by (rewrite of_le_le_bytes, Z.mod_small; [done|exact Hw]).
  pose proof (E 0%nat ltac:(lia)) as E0. pose proof (E 1%nat ltac:(lia)) as E1.
  pose proof (E 2%nat ltac:(lia)) as E2. pose proof (E 3%nat ltac:(lia)) as E3.
  rewrite Z.add_0_r in E0. unfold rd32. rewrite E0. change (Z.of_nat 1) with 1 in E1. change (Z.of_nat 2) with 2 in E2.
  change (Z.of_nat 3) with 3 in E3. rewrite E1, E2, E3. cbn [le_bytes nth of_le]. lia.
Qed.

Lemma nth_words ws : forall i w j, ws !! i = Some w -> (j < 4)%nat ->
  nth (4 * i + j) (mjoin (le_bytes 4 <$> ws)) x00 = nth j (le_bytes 4 w) x00.
Proof.
  induction ws as [|v ws IH]; intros [|i] w j E Hj; try done.
  - injection E as ->. cbn [fmap list_fmap mjoin list_join]. rewrite app_nth1; [done|]. rewrite le_bytes_length. lia.
  - change (mjoin (le_bytes 4 <$> v :: ws)) with (le_bytes 4 v ++ mjoin (le_bytes 4 <$> ws)).
    rewrite app_nth2; rewrite le_bytes_length; [|lia]. replace (4 * S i + j - 4)%nat with (4 * i + j)%nat by lia. by apply IH.
Qed.

(** Words laid over an image. *)
Lemma overlay_word I a ws i w :
  ws !! i = Some w -> 0 <= w < 2 ^ 32 ->
  rd32 (overlay I a (4 * Z.of_nat (length ws)) (string_at (mjoin (le_bytes 4 <$> ws)))) (a + 4 * Z.of_nat i) = w.
Proof.
  intros E Hw. apply rd32_le_bytes; [done|]. intros j Hj. pose proof (lookup_lt_Some _ _ _ E).
  rewrite overlay_in by lia. unfold string_at.
  replace (Z.to_nat (a + 4 * Z.of_nat i + Z.of_nat j - a)) with (4 * i + j)%nat by lia. by apply nth_words.
Qed.

Section Args.
Context `{KernelImage} `{!KernelImageOk} `{Wakeups}.
Variables (m0 : mem) (L0 : list Z) (d top base : Z) (U : Z -> bool) (l : list Z).
Hypothesis HU : forall x, base <= x < top -> U x = true.
Hypothesis Hbase : 0 <= base.

Lemma push_args_spec argv : forall k I sp argc,
  built m0 L0 (ms k) l d top U I -> base + args_size argv <= sp <= top -> sp mod 4 = 0 ->
  0 <= argc -> argc + Z.of_nat (length argv) <= MAXARG ->
  wp (push_args d sp argc argv) k (fun o k' => exists s' sp' addrs I', o = Some (sp', addrs) /\ k' = ks_ms s' k /\
    built m0 L0 s' l d top U I' /\ sp - args_size argv <= sp' <= sp /\ sp' mod 4 = 0 /\
    (forall x, x < sp' \/ sp <= x -> I' x = I x) /\
    Forall2 (fun a s => sp' <= a /\ a + Z.of_nat (length s) < sp /\
      forall j, (j <= length s)%nat -> I' (a + Z.of_nat j) = nth j s x00) addrs argv).
Proof.
  induction argv as [|s argv IH]; intros k I sp argc B Hsp H4 Ha Hn; cbn [push_args args_size foldr length] in *.
  { apply wp_ret. exists (ms k), sp, [], I. split; [done|]. split; [by destruct k|]. split_and!; (done || lia). }
  fold (args_size argv) in *. rewrite (proj2 (Z.leb_gt _ _)) by lia.
  assert (Hpos : 0 <= args_size argv) by (apply args_size_nonneg).
  pose proof (bt_top _ _ _ _ _ _ _ _ B) as [_ Ht].
  set (len := Z.of_nat (length s) + 1). rewrite u32_small by (unfold len; klia).
  rewrite (land_lnot_ones (sp - len) 2 ltac:(lia) : Z.land (sp - len) (Z.lnot 3) = _).
  change (2 ^ 2) with 4. set (sp1 := sp - len - (sp - len) mod 4).
  pose proof (Z.mod_pos_bound (sp - len) 4 ltac:(lia)) as Hm4.
  assert (H14 : sp1 mod 4 = 0) by (unfold sp1; Z.div_mod_to_equations; lia).
  apply wp_bind, wp_liftM.
  wp_use (built_copyout m0 L0 (ms k) l d top U I sp1 (string_at s) len B); try (unfold sp1, len in *; lia).
  { intros x Hx. apply HU. unfold sp1, len in *. lia. }
  intros r s1 (-> & B1). cbn [Z.ltb Z.compare]. set (k1 := ks_ms s1 k).
  apply wp_bind. wp_use (IH k1 _ sp1 (argc + 1) B1); try done; try (unfold sp1, len in *; lia).
  intros o k' (s' & sp' & addrs & I' & -> & -> & B' & Hsp' & H4' & Hout & Hargs). apply wp_ret.
  exists s', sp', (sp1 :: addrs), I'. split; [done|]. split; [done|]. split; [done|]. split; [unfold sp1, len in *; lia|].
  split; [done|]. split.
  - intros x Hx. rewrite Hout by (unfold sp1, len in *; lia). apply overlay_out. unfold sp1, len in *. lia.
  - constructor.
    + split; [lia|]. split; [unfold sp1, len in *; lia|]. intros j Hj. rewrite Hout by lia.
      rewrite overlay_in by (unfold len; lia). unfold string_at. f_equal. lia.
    + eapply Forall2_impl; [exact Hargs|]. intros a t (? & ? & ?). split_and!; (done || unfold sp1, len in *; lia).
Qed.

End Args.

(** ** The commit *)

Section Commit.
Context `{KernelImage} `{!KernelImageOk} `{Wakeups}.

(** From [s], where [L0] are the free pages, to [s']: the directory [d] shows the
    bytes [I] below [top], the page at [guard] is closed to the program; the pages
    of the old directory [od] are free, and all other memory is as it was. *)
Record replaced (s : mstate) (L0 : list Z) (od : Z) (s' : mstate) (l' : list Z) (d top guard : Z) (I : Z -> byte) : Prop := {
  rp_uvm : uvm s' d l' (fun va => va < top);
  rp_read : forall va, 0 <= va < top -> uread (mm s') d va = Some (I va);
  rp_perm : forall va e, 0 <= va < top -> mapping (mm s') d va = Some e ->
    has e PTE_W = true /\ has e PTE_U = negb (va / PGSIZE =? guard / PGSIZE);
  rp_kern : forall va, KERNBASE <= va < 2 ^ 32 -> mapping (mm s') d va = kmap_lookup kmap va;
  rp_cr3 : cr3 s' = v2p d;
  rp_old : forall q, foot (mm s) od q \/ ufoot (mm s) od q -> q ∈ l';
  rp_frame : frame (fun q => q ∈ L0 \/ foot (mm s) od q \/ ufoot (mm s) od q) (mm s) (mm s')
}.

Lemma replace_spec s L0 od otop s1 l d top U guard I :
  uvm s od L0 (fun va => va < otop) -> aligned otop -> 0 <= otop <= KERNBASE ->
  built (mm s) L0 s1 l d top U I -> cr3 s1 = v2p d ->
  (forall va, 0 <= va < top -> U va = negb (va / PGSIZE =? guard / PGSIZE)) ->
  wp (freevm od) s1 (fun _ s' => exists l', replaced s L0 od s' l' d top guard I).
Proof.
  intros Hu Ho Hor B Hcr HU. pose proof B as [B1 B2 B3 B4 B5 B6 B7 B8].
  destruct (uvm_move s s1 od L0 l _ _ Hu B3) as (Hu1 & Hm1 & Hw1).
  { intros q Hq. apply (uvm_off s od L0 otop); auto. }
  { apply (pt_free _ _ _ (uv_inv _ _ _ _ B1)). }
  { intros q Hq Hl. by apply (uvm_off s od L0 otop q Hu Hq), B4. }
  wp_use (freevm_spec s1 od l otop Hu1 Ho Hor). intros _ s' (given & Hf & Hg & F & _ & Hcr' & _).
  assert (Hgo : forall q, q ∈ given <-> foot (mm s) od q \/ ufoot (mm s) od q).
  { intros q. rewrite Hg. rewrite <- (foot_change _ _ _ Hw1 q), <- (ufoot_change _ _ _ Hm1 q). unfold foot. split.
    - intros [?|[?|(va & e & Hva & E & ->)]]; [tauto|tauto|]. right. exists va, e. split; [lia|done].
    - intros [[?|?]|(va & e & Hva & E & ->)]; [tauto|tauto|]. right. right. exists va, e. split; [|done].
      destruct (Z.lt_ge_cases va otop); [lia|]. rewrite (uv_none _ _ _ _ Hu1 va Hva) in E by lia. done. }
  assert (Hng : forall q, q ∈ L0 -> q ∉ given) by (intros q Hq Hgq; by apply (uvm_off s od L0 otop q Hu (proj1 (Hgo q) Hgq))).
  assert (Huf : forall q, ufoot (mm s1) d q -> q ∈ L0).
  { intros q (va & e & Hva & E & ->). destruct (Z.lt_ge_cases va top) as [Hlt|Hge].
    - apply (B6 va e); [lia|done].
    - rewrite (uv_none _ _ _ _ B1 va Hva) in E by lia. done. }
  destruct (uvm_move s1 s' d l (given ++ l) _ _ B1 F) as (Hu2 & Hm2 & _).
  { intros q Hq. by apply Hng, B5. }
  { done. }
  { intros q Hq [Hgq|Hlq]%elem_of_app; [|by apply (uvm_off s1 d l top q B1 Hq)].
    apply (Hng q); [|done]. destruct Hq as [Hq|Hq]; [by apply B5|by apply Huf]. }
  exists (given ++ l). split.
  - done.
  - intros va Hva. rewrite <- B7 by done. eapply (uread_change _ (mm s1)); [exact F| |klia|done].
    intros q Hq. by apply Hng, Huf.
  - intros va e Hva. rewrite Hm2. intros E. destruct (B6 va e Hva E) as (_ & ? & ->). split; [done|by apply HU].
  - intros va Hva. rewrite Hm2. by apply B8.
  - by rewrite Hcr'.
  - intros q Hq. apply elem_of_app. left. by apply Hgo.
  - eapply frame_trans; (eapply frame_mono; [eassumption|]); [auto|]. intros q _ Hq. right. by apply Hgo.
Qed.

Lemma built_cr3 m0 L0 s l d top U I v : built m0 L0 s l d top U I -> built m0 L0 (set_cr3 v s) l d top U I.
Proof.
  intros [[[[F1 F2 F3 F4] I2 I3 I4] Us Un Uj] B2 B3 B4 B5 B6 B7 B8]. split; try done.
Qed.

Lemma wp_pupd me f p k Q :
  procs k !! me = Some p -> Q tt (ks_procs (<[me := f p]> (procs k)) k) -> wp (pupd me f) k Q.
Proof. intros E HQ. unfold pupd. apply wp_modify. by rewrite (alter_insert _ _ _ _ E). Qed.

(** The process after exec. *)
Definition exec_proc (path : list byte) (d top entry sp : Z) (p : proc) : proc :=
  ps_tf (tf_set_esp sp (tf_set_eip entry (p_tf p)))
    (ps_sz top (ps_pgdir d (ps_name (safestrcpy_list (p_name p) (last_elem path path)) p))).

(** The arguments fit the stack page. *)
Definition args_fit (argv : list (list byte)) : Prop :=
  Z.of_nat (length argv) <= MAXARG /\ args_size argv + 4 * (4 + Z.of_nat (length argv)) <= PGSIZE.

(** The words that exec pushes after the strings. *)
Lemma ustack_ok sp' addrs argv I top :
  let argc := Z.of_nat (length argv) in
  let sp := sp' - (3 + argc + 1) * 4 in
  0 <= sp -> sp' <= top -> top < 2 ^ 32 -> argc <= MAXARG ->
  Forall2 (fun a s => sp' <= a /\ a + Z.of_nat (length s) < top /\
      forall j, (j <= length s)%nat -> I (a + Z.of_nat j) = nth j s x00) addrs argv ->
  stack_ok (overlay I sp ((3 + argc + 1) * 4) (string_at (ustack sp' argc addrs))) sp top argv.
Proof.
  intros argc sp Hsp Hst Ht Hn Ha. pose proof (Forall2_length _ _ _ Ha) as El. change MAXARG with 32 in Hn.
  unfold ustack. set (ws := [0xffffffff; argc; u32 (sp' - (argc + 1) * 4)] ++ addrs ++ [0]).
  assert (Elen : (3 + argc + 1) * 4 = 4 * Z.of_nat (length ws)).
  { unfold ws, argc. rewrite !length_app. cbn [length]. lia. }
  rewrite Elen. set (J := overlay _ _ _ _).
  assert (W : forall i w, ws !! i = Some w -> 0 <= w < 2 ^ 32 -> rd32 J (sp + 4 * Z.of_nat i) = w)
    by (intros; by apply overlay_word).
  split.
  - rewrite <- (W 0%nat 0xffffffff); [f_equal; lia|done|lia].
  - fold argc. rewrite <- (W 1%nat argc); [f_equal; lia|done|unfold argc; lia].
  - rewrite <- (W 2%nat (sp + 12)); [f_equal; lia| |unfold sp in *; lia].
    cbn. rewrite u32_small by (unfold sp in *; lia). f_equal. unfold sp. lia.
  - intros i s Es a. destruct (Forall2_lookup_r _ _ _ _ _ Ha Es) as (a' & Ea & Hlo & Hhi & Hs).
    assert (a = a') as ->.
    { unfold a. rewrite <- (W (3 + i)%nat a'); [f_equal; lia| |unfold sp in *; lia].
      unfold ws. cbn. apply lookup_app_l_Some. done. }
    fold argc. split; [unfold sp; lia|]. split; [done|]. intros j Hj. unfold J. rewrite overlay_out by lia. by apply Hs.
  - rewrite <- (W (3 + length argv)%nat 0); [f_equal; unfold argc; lia| |lia].
    change (ws !! (3 + length argv)%nat) with ((addrs ++ [0]) !! length argv). rewrite lookup_app_r by lia.
    by rewrite El, Nat.sub_diag.
Qed.

Section Image.
Variables (s0 : mstate) (L0 : list Z) (otop : Z) (me : nat) (p : proc).
Hypothesis Hold : uvm s0 (p_pgdir p) L0 (fun va => va < otop).
Hypothesis Hotop : aligned otop /\ 0 <= otop <= KERNBASE.

Lemma switch_spec k d top U guard I path entry sp l :
  cur k = Some me -> procs k !! me = Some p -> d <> 0 -> built (mm s0) L0 (ms k) l d top U I ->
  (forall va, 0 <= va < top -> U va = negb (va / PGSIZE =? guard / PGSIZE)) ->
  wp (let! me := myproc in
      pupd me (fun p => ps_name (safestrcpy_list (p_name p) (last_elem path path)) p) ;;;
      let! p := pget me in
      let oldpgdir := p_pgdir p in
      pupd me (ps_pgdir d) ;;;
      pupd me (ps_sz top) ;;;
      pupd me (fun p => ps_tf (tf_set_esp sp (tf_set_eip entry (p_tf p))) p) ;;;
      switchuvm me ;;;
      liftM (freevm oldpgdir) ;;;
      ret 0) k (fun r k' => r = 0 /\ exists s' l' e0,
    k' = ks_esp0 e0 (ks_procs (<[me := exec_proc path d top entry sp p]> (procs k)) (ks_ms s' k)) /\
    replaced s0 L0 (p_pgdir p) s' l' d top guard I).
Proof.
  intros Hc Hp Hd B HU. pose proof (lookup_lt_Some _ _ _ Hp) as Hlt.
  assert (Hg : forall q, <[me := q]> (procs k) !! me = Some q) by (intros q; by apply list_lookup_insert_eq).
  apply wp_bind, (wp_myproc me); [done|]. apply wp_bind, (wp_pupd me _ p); [done|].
  apply wp_bind. eapply wp_pget; [cbn; apply Hg|]. cbn [p_pgdir ps_name].
  do 3 (apply wp_bind; eapply wp_pupd; [cbn; apply Hg|]; cbn [procs ks_procs]; rewrite list_insert_insert_eq).
  apply wp_bind. unfold switchuvm. apply wp_bind, (wp_myproc me); [done|].
  apply wp_bind. eapply wp_pget; [cbn; apply Hg|]. apply wp_bind, wp_modify.
  apply wp_bind. eapply wp_pget; [cbn; apply Hg|]. cbn [p_pgdir ps_tf ps_sz ps_pgdir].
  rewrite (proj2 (Z.eqb_neq d 0)) by done. apply wp_liftM, wp_modify.
  apply wp_bind, wp_liftM. cbn [ms ks_ms ks_esp0 ks_procs].
  wp_use (replace_spec s0 L0 (p_pgdir p) otop _ l d top U guard I Hold (proj1 Hotop) (proj2 Hotop)
    (built_cr3 _ _ _ _ _ _ _ _ (v2p d) B)); [done|done|].
  intros _ s' (l' & R). apply wp_ret. split; [done|]. eexists s', l', _. split; [|exact R]. done.
Qed.

(** Stack, arguments and commit. *)
Lemma exec_image_spec path argv d sz entry k l I :
  let top := PGROUNDUP sz + 2 * PGSIZE in
  cur k = Some me -> procs k !! me = Some p -> d <> 0 -> built (mm s0) L0 (ms k) l d (PGROUNDUP sz) (fun _ => true) I ->
  0 <= sz -> sz + 3 * PGSIZE <= KERNBASE -> 4 * PGSIZE <= Z.of_nat (length l) * PGSIZE -> args_fit argv ->
  wp (exec_image path argv d sz entry) k (fun r k' => r = 0 /\ exists s' l' e0 J sp,
    k' = ks_esp0 e0 (ks_procs (<[me := exec_proc path d top entry sp p]> (procs k)) (ks_ms s' k)) /\
    replaced s0 L0 (p_pgdir p) s' l' d top (PGROUNDUP sz) J /\
    (forall va, 0 <= va < PGROUNDUP sz -> J va = I va) /\
    stack_ok J sp top argv /\ top - PGSIZE <= sp).
Proof.
  intros top Hc Hp Hd B Hsz Hk Hl [Ha1 Ha2]. destruct (PGROUNDUP_bounds sz ltac:(klia)) as (Hal & Hb & _).
  assert (Hidem : forall n, 0 <= n -> PGROUNDUP sz + n * PGSIZE < 2 ^ 32 - PGSIZE -> PGROUNDUP (PGROUNDUP sz + n * PGSIZE) = PGROUNDUP sz + n * PGSIZE).
  { intros n Hn Hlt. rewrite PGROUNDUP_eq by klia. unfold aligned, PGSIZE in *. Z.div_mod_to_equations. lia. }
  pose proof (Hidem 0 ltac:(lia) ltac:(klia)) as Ez. rewrite Z.add_0_r in Ez.
  assert (Etop : PGROUNDUP top = top) by (apply Hidem; klia).
  unfold exec_image. rewrite (u32_small (PGROUNDUP sz + 2 * PGSIZE)) by klia. fold top.
  apply wp_bind, wp_liftM.
  wp_use (built_grow (mm s0) L0 (ms k) l d _ _ I (PGROUNDUP sz) top B Ez); try (rewrite ?Etop; unfold top; klia).
  rewrite Etop. intros r s1 (-> & l1 & B1 & Hl1). rewrite (proj2 (Z.eqb_neq top 0)) by (unfold top; klia).
  rewrite u32_small by (unfold top; klia). replace (top - 2 * PGSIZE) with (PGROUNDUP sz) by (unfold top; lia).
  apply wp_bind, wp_liftM. wp_use (built_guard (mm s0) L0 s1 l1 d top _ _ (PGROUNDUP sz) B1); [unfold top; klia|].
  intros [] s2 B2. set (U := fun va => if va / PGSIZE =? PGROUNDUP sz / PGSIZE then _ else _) in B2. cbn [ks_ms ms] in *.
  assert (HU : forall va, 0 <= va < top -> U va = negb (va / PGSIZE =? PGROUNDUP sz / PGSIZE)).
  { intros va Hva. unfold U. destruct (va / PGSIZE =? _); [done|]. by destruct (va <? _). }
  assert (HUs : forall x, top - PGSIZE <= x < top -> U x = true).
  { intros x Hx. rewrite HU by (unfold top in *; klia). rewrite (proj2 (Z.eqb_neq _ _)); [done|].
    unfold top, aligned, PGSIZE in *. Z.div_mod_to_equations. lia. }
  pose proof (args_size_nonneg argv) as Hpos. set (argc := Z.of_nat (length argv)) in *.
  apply wp_bind. wp_use (push_args_spec (mm s0) L0 d top (top - PGSIZE) U l1 HUs ltac:(unfold top; klia) argv
    (ks_ms s2 (ks_ms s1 k)) _ top 0 B2); try done; try (unfold argc in *; lia).
  { unfold top, aligned, PGSIZE in *. Z.div_mod_to_equations. lia. }
  intros o k3 (s3 & sp' & addrs & I3 & -> & -> & B3 & Hsp & H4 & Hout & Hargs).
  assert (Htk : top <= KERNBASE) by (unfold top; klia).
  fold argc. rewrite u32_small by (unfold top in *; klia). set (sp := sp' - (3 + argc + 1) * 4) in *.
  apply wp_bind, wp_liftM. cbn [ks_ms ms].
  wp_use (built_copyout (mm s0) L0 s3 l1 d top U I3 sp (string_at (ustack sp' argc addrs)) ((3 + argc + 1) * 4) B3);
    try (unfold sp, top, argc in *; klia).
  { intros x Hx. apply HUs. unfold sp, argc in *. lia. }
  intros r s4 (-> & B4). cbn [Z.ltb Z.compare].
  wp_use (switch_spec (ks_ms s4 k) d top U (PGROUNDUP sz) _ path entry sp l1 Hc Hp Hd B4 HU).
  intros r k' (-> & s' & l' & e0 & -> & R). split; [done|]. eexists s', l', e0, _, sp. split; [done|]. split; [exact R|].
  split; [|split; [|unfold sp, argc in *; lia]].
  - intros va Hva. rewrite overlay_out by (unfold sp, top, argc in *; klia). rewrite Hout by (unfold top in *; klia).
    unfold zeroed. by rewrite (proj2 (Z.ltb_lt _ _)) by lia.
  - apply ustack_ok; try done; try (unfold sp, top, argc in *; klia).
Qed.

End Image.

End Commit.

(** ** exec *)

Section Exec.
Context `{KernelImage} `{!KernelImageOk} `{Wakeups} (start lsize nino : Z).

Abbreviation rest := (at_rest start lsize).

Section File.
Variables (V : Z -> block) (n : Z).

Let f := fbyte V (dino V n).

Definition elf_header : elfhdr := decode_elf (window f 0 elfhdr_size).
Definition elf_program : list proghdr := headers f (eh_phoff elf_header) (Z.to_nat (eh_phnum elf_header)).

(** Inode [n] is a linked file. *)
Record regular : Prop := {
  rg_file : file_ok start V (dino V n);
  rg_type : di_type (dnode V n) <> 0;
  rg_link : di_nlink (dnode V n) <> 0
}.

(** Inode [n] is a program that exec accepts. *)
Record executable : Prop := {
  xe_file : regular;
  xe_head : elfhdr_size <= i_size (dino V n);
  xe_magic : eh_magic elf_header = ELF_MAGIC;
  xe_table : eh_phoff elf_header + proghdr_size * eh_phnum elf_header <= i_size (dino V n);
  xe_segs : Forall (fun ph => loads ph = true -> segment_ok (i_size (dino V n)) ph) elf_program;
  xe_fits : extent elf_program + 3 * PGSIZE <= KERNBASE
}.

(** Inode [n] is no program at all. *)
Definition not_elf : Prop :=
  i_size (dino V n) < elfhdr_size \/ elfhdr_size <= i_size (dino V n) /\ eh_magic elf_header <> ELF_MAGIC.

(** A locked slot that holds inode [n] holds its file. *)
Lemma slot_file y :
  i_dev y = 1 -> to_dinode y = dnode V n -> file_ok start V (dino V n) ->
  file_ok start V y /\ fbyte V y = f /\ i_size y = i_size (dino V n).
Proof.
  intros Ed E. unfold f, dino. rewrite <- E. destruct y as [dv nm rf fl ty mj mn nl sz ad]. cbn in Ed. subst dv.
  intros [F1 F2 F3 F4 F5 F6]. split; [by split|]. split; [|done]. by apply fbyte_addrs.
Qed.

End File.

Abbreviation awake k := (with_procs (procs k) rest).
Abbreviation awake_held k := (with_procs_held (procs k) (at_rest_held start lsize)).

Lemma resolve_awake k V path c :
  can_resolve start nino rest k V path c -> can_resolve start nino (awake k) k V path c.
Proof.
  intros [[C1 C2 C3] C4 C5 C6 C7]. split; try done. split; [|done|done]. split; [done|apply woken_refl].
Qed.

(** The path leads to inode [n], which is found and locked. *)
Lemma exec_opens k V path c n nm (Q : Z -> kstate -> Prop) (m : nat -> KM Z) :
  can_resolve start nino rest k V path c -> walk V false c (elements path) = Some (n, nm) -> regular V n ->
  (forall i y k', view nino (awake k) k' V {[i]} -> cfr k k' ->
     inodes k' !! i = Some y -> file_ok start V y -> fbyte V y = fbyte V (dino V n) -> i_size y = i_size (dino V n) ->
     i_inum y = n -> 0 < i_ref y < 2 ^ 31 -> (forall a, refs (inodes k') a = refs (inodes k) a + one n a) ->
     wp (m i) k' Q) ->
  wp (let! o := namei path in match o with None => ret (-1) | Some ip => ilock (Some ip) ;;; m ip end) k Q.
Proof.
  intros C W [Rf Rt Rl] Hm. pose proof (cr_tree _ _ _ _ _ _ _ C) as HT. pose proof (cr_refs _ _ _ _ _ _ _ C n) as HR.
  unfold namei. apply wp_bind, wp_bind.
  wp_use (namex_spec start nino (awake k) (awake_held k) k V path false c (resolve_awake _ _ _ _ C)).
  rewrite W. intros r k1 (V1 & F1 & i & x & -> & Ex & Hx & En & R1). apply wp_ret. cbn [fmap option_fmap option_map fst].
  apply wp_bind. wp_use (ilock_spec start nino (awake k) (awake_held k) k1 V ∅ i x (tr_blocks _ _ _ HT) V1 Ex Hx);
    [set_solver|by rewrite En|].
  intros [] k2 (V2 & F2 & (y & Ey & E1 & E2 & E3 & E4) & R2 & _). rewrite En in E3, E4.
  rewrite union_empty_r_L in V2. destruct (slot_file V n y E2 E4 Rf) as (Fy & Eb & Es).
  apply (Hm i y); try done.
  - eapply cfr_trans; [exact F1|by apply ifr_cfr].
  - rewrite E1. pose proof (refs_live (vw_table _ _ _ _ _ V1) i x Ex Hx) as Hl. rewrite En, R1, one_same in Hl. lia.
  - intros a. by rewrite R2, R1.
Qed.

(** Leaving the file again. *)
Lemma exec_closes k0 k V i y n (Q : unit -> kstate -> Prop) :
  view nino (awake k0) k V {[i]} -> inodes k !! i = Some y -> i_inum y = n -> 0 < i_ref y < 2 ^ 31 ->
  di_nlink (dnode V n) <> 0 -> (forall a, refs (inodes k) a = refs (inodes k0) a + one n a) ->
  (forall k', view nino (awake k0) k' V ∅ -> ifr k k' -> (forall a, refs (inodes k') a = refs (inodes k0) a) -> Q tt k') ->
  wp (iunlockput i) k Q.
Proof.
  intros Vw Ey En Hr Hl R HQ.
  wp_use (iunlockput_spec start nino (awake k0) (awake_held k0) k V {[i]} i y Vw Ey); [set_solver|lia|right; by rewrite En|].
  intros [] k' (V' & F' & R' & _). rewrite difference_diag_L in V'. apply HQ; [done|done|].
  intros a. rewrite R', R, En. lia.
Qed.

(** What exec needs of the machine: the caller runs, its address space is its own,
    and there is memory for the new one. *)
Record can_exec (k : kstate) (V : Z -> block) (n : Z) (me : nat) (p : proc) (l : list Z) (otop : Z) : Prop := {
  ce_cur : cur k = Some me;
  ce_proc : procs k !! me = Some p;
  ce_state : p_state p = RUNNING;
  ce_uvm : uvm (ms k) (p_pgdir p) l (fun va => va < otop);
  ce_top : aligned otop /\ 0 <= otop <= KERNBASE;
  ce_room : 65 * PGSIZE + 2 * (PGROUNDUP (extent (elf_program V n)) + 2 * PGSIZE) <= Z.of_nat (length l) * PGSIZE
}.

Lemma headers_range V n : 0 <= eh_phoff (elf_header V n) /\ 0 <= eh_phnum (elf_header V n).
Proof.
  split; [apply get32_range|apply of_le_range].
Qed.

(** C9. exec runs the program: if the path leads to a program file, the arguments fit the
    stack page, the caller's address space is its own and there is memory enough, exec
    returns 0.  The process then has a new address space, in use, in which every address
    below the program's end holds the byte the program headers put there, or zero; above
    it lie a page closed to the program and a stack with argc, argv and the argument
    strings; eip is the entry point and esp the bottom of that stack.  The pages of the
    old address space are free, all other memory, the disk and the inode references are
    as before, and the other processes were at most woken. *)
Theorem exec_replaces k V path argv c n nm me p l otop :
  can_resolve start nino rest k V path c -> walk V false c (elements path) = Some (n, nm) -> executable V n ->
  args_fit argv -> can_exec k V n me p l otop ->
  let prog := elf_program V n in
  let size := PGROUNDUP (extent prog) in
  let top := size + 2 * PGSIZE in
  wp (exec path argv) k (fun r k' => r = 0 /\ exists d l' I sp ps,
    woken (procs k) ps /\ procs k' = <[me := exec_proc path d top (eh_entry (elf_header V n)) sp p]> ps /\
    replaced (ms k) l (p_pgdir p) (ms k') l' d top size I /\
    (forall va, 0 <= va < size -> I va = program (fbyte V (dino V n)) prog va) /\
    stack_ok I sp top argv /\ top - PGSIZE <= sp /\
    view nino rest k' V ∅ /\ forall a, refs (inodes k') a = refs (inodes k) a).
Proof.
  intros C W [Xf Xh Xm Xt Xs Xz] Hargs [Ec Ep Est Hu Hot Hroom] prog size top. unfold exec.
  destruct (headers_range V n) as [Ho Hn]. set (h := elf_header V n) in *.
  pose proof (fo_size _ _ _ (rg_file _ _ Xf)) as Hsz. change (MAXFILE * BSIZE) with 71680 in Hsz.
  change elfhdr_size with 52 in *. change proghdr_size with 32 in *.
  assert (Hext : 0 <= extent prog) by apply (foldl_grow_to_mono prog 0).
  destruct (PGROUNDUP_bounds (extent prog) ltac:(unfold prog in *; klia)) as (Hal & Hb & _).
  fold prog in Hroom, Xs, Xz. fold size in Hroom, Hb, Hal.
  apply (exec_opens k V path c n nm _ _ C W Xf). intros i y k1 V1 F1 Ey Fy Eb Es En Hr R1.
  apply wp_bind. wp_use (readi_local start (awake k) (awake_held k) k1 V i y 0 52 (vw_disk _ _ _ _ _ V1) Ey Fy); try lia.
  rewrite Z.min_l by lia. intros r k2 (-> & F2 & X2). cbn [fst snd]. change (u32 52 <? 52) with false. rewrite Eb.
  change (decode_elf (window (fbyte V (dino V n)) 0 52)) with h. rewrite Xm, Z.eqb_refl. cbn [negb].
  assert (Em : ms k2 = ms k) by (rewrite (bfr_ms _ _ F2); unfold cfr, bfr in F1; by rewrite F1).
  apply wp_bind, wp_liftM. rewrite Em.
  wp_use (built_start (mm (ms k)) l (ms k) (pt_free _ _ _ (uv_inv _ _ _ _ Hu)) eq_refl); [klia|].
  intros d s3 (Hd & l3 & B3 & Hl3). rewrite (proj2 (Z.eqb_neq d 0)) by done. rewrite s32_small by lia.
  set (k3 := ks_ms s3 k2).
  assert (Ld : loading (awake k) (mm (ms k)) l V i y d k3 l3 (PGROUNDUP 0) (fun _ => x00)).
  { split; [apply (rd_same k2); try done; apply woken_refl|cbn; by rewrite (bfr_inodes _ _ F2)|done]. }
  apply wp_bind. wp_use (load_segments_spec start (awake k) (awake_held k) (mm (ms k)) l V i y d Fy (extent prog)
    (size + 2 * PGSIZE) (Z.to_nat (eh_phnum h)) k3 l3 (eh_phoff h) 0 _ Ld);
    rewrite ?Eb, ?Es; change (headers (fbyte V (dino V n)) (eh_phoff h) (Z.to_nat (eh_phnum h))) with prog; try done;
    try (unfold size; klia).
  { change (PGROUNDUP 0) with 0. klia. }
  { change proghdr_size with 32. lia. }
  fold (extent prog) (program (fbyte V (dino V n)) prog).
  intros o k4 (-> & F4 & l4 & [X4 Ey4 B4] & Hl4). fold size in B4, Hl4.
  assert (F24 : ffr k1 k4).
  { eapply ffr_trans; [by apply bfr_ffr|]. eapply ffr_trans; [|exact F4]. by destruct k2. }
  assert (V4 : view nino (awake k) k4 V {[i]}) by (by apply (view_ffr nino (awake k) k1)).
  apply wp_bind, (exec_closes k k4 V i y n); [done|done|done|done|apply Xf|by rewrite (ffr_inodes _ _ F24)|].
  intros k5 V5 F5 R5. destruct (vw_disk _ _ _ _ _ V5) as [X5 W5].
  assert (Ec5 : cur k5 = Some me).
  { unfold ifr, bfr in F5. rewrite F5. cbn. unfold ffr in F24. rewrite F24. cbn. unfold cfr, bfr in F1. by rewrite F1. }
  assert (Em5 : ms k5 = ms k4) by (unfold ifr, bfr in F5; by rewrite F5).
  assert (Ep5 : procs k5 !! me = Some p) by (apply (woken_awake (procs k)); [done|done|congruence]).
  rewrite <- Em5 in B4.
  wp_use (exec_image_spec (ms k) l otop me p Hu Hot path argv d (extent prog) (eh_entry h) k5 l4 _ Ec5 Ep5 Hd B4); try done; try lia.
  intros r k' (-> & s' & l' & e0 & J & sp & -> & Rp & HJ & Hst & Hsp). split; [done|].
  exists d, l', J, sp, (procs k5). split_and!; try done.
  - destruct V5 as [_ V52 V53]. split; [by apply (at_rest_same start lsize k5)|done|done].
Qed.

(** C38. exec of a path that leads nowhere, or to a file that is no ELF program (too short,
    or without the magic number), returns -1 and has no effect: memory and the caller's
    image are untouched, no inode stays locked, all references taken are given back, and
    processes were at most woken. *)
Theorem exec_rejects k V path argv c :
  can_resolve start nino rest k V path c ->
  match walk V false c (elements path) with Some (n, _) => regular V n /\ not_elf V n | None => True end ->
  wp (exec path argv) k (fun r k' => r = -1 /\ ms k' = ms k /\ woken (procs k) (procs k') /\
    view nino rest k' V ∅ /\ forall a, refs (inodes k') a = refs (inodes k) a).
Proof.
  intros C W. unfold exec. destruct (walk V false c (elements path)) as [[n nm]|] eqn:Ew.
  - destruct W as [Xf Hbad]. pose proof (fo_size _ _ _ (rg_file _ _ Xf)) as Hsz. change (MAXFILE * BSIZE) with 71680 in Hsz.
    apply (exec_opens k V path c n nm _ _ C Ew Xf). intros i y k1 V1 F1 Ey Fy Eb Es En Hr R1.
    apply wp_bind. wp_use (readi_local start (awake k) (awake_held k) k1 V i y 0 elfhdr_size (vw_disk _ _ _ _ _ V1) Ey Fy);
      [lia|done|].
    intros r k2 (-> & F2 & X2). cbn [fst snd]. rewrite Z.sub_0_r, Es, Eb. unfold not_elf in Hbad. change elfhdr_size with 52 in *.
    rewrite u32_small by lia.
    assert (Hex : wp (exec_bad 0 (Some i)) k2 (fun r k' => r = -1 /\ ms k' = ms k /\ woken (procs k) (procs k') /\
      view nino rest k' V ∅ /\ forall a, refs (inodes k') a = refs (inodes k) a)).
    { unfold exec_bad. apply wp_bind, wp_when, wp_bind. cbn [Z.eqb negb].
      assert (V2 : view nino (awake k) k2 V {[i]}) by (apply (view_ffr nino (awake k) k1); [done|by apply bfr_ffr|done]).
      apply (exec_closes k k2 V i y n); try done; [by rewrite (bfr_inodes _ _ F2)|apply Xf|by rewrite (bfr_inodes _ _ F2)|].
      intros k' [[X' W'] V'2 V'3] F' R'. apply wp_ret. split; [done|].
      split; [|done]. unfold ifr, bfr, cfr in *. rewrite F'. cbn. rewrite F2. cbn. by rewrite F1. }
    destruct (Z.ltb_spec (Z.min 52 (i_size (dino V n))) 52) as [Hlt|Hge]; [exact Hex|].
    destruct Hbad as [|[Hs Hm]]; [lia|]. rewrite Z.min_l by lia.
    change (decode_elf (window (fbyte V (dino V n)) 0 52)) with (elf_header V n).
    rewrite (proj2 (Z.eqb_neq _ _)) by done. exact Hex.
  - unfold namei. apply wp_bind, wp_bind.
    wp_use (namex_spec start nino (awake k) (awake_held k) k V path false c (resolve_awake _ _ _ _ C)).
    rewrite Ew. intros r k' ([[X' W'] V'2 V'3] & F' & -> & R'). apply wp_ret, wp_ret. split; [done|].
    split; [|done]. unfold cfr, bfr in F'. by rewrite F'.
Qed.

End Exec.

(** ** A machine that runs a program *)

#[local] Existing Instance example_image.
#[local] Existing Instance example_image_ok.
#[local] Existing Instance dir_wakeups.

(** The process in slot 0 has the directory [d], and nothing mapped. *)
Definition xx_proc (d : Z) : proc := ps_state RUNNING (ps_pgdir d proc0).
Definition xx_machine (s : mstate) (d : Z) : kstate :=
  ks_ms s (ks_procs (xx_proc d :: replicate 63 proc0) (dx_machine I_VALID)).

Lemma xx_resolve s d path : hd x00 path = slash ->
  can_resolve 20 8 (at_rest 20 10) (xx_machine s d) dx_image path 1.
Proof.
  intros Hp. destruct dx_resolve as [[R1 R2 R3] R4 R5 R6 _]. split; try done.
  - split; [by apply (at_rest_same 20 10 (dx_machine I_VALID))|done|done].
  - unfold begins_at. rewrite bool_decide_eq_true_2 by done. split; [done|]. split; [lia|]. rewrite dx_dnode by lia. done.
Qed.

Lemma xx_program : elf_program dx_image 2 = [ProgHdr 1 84 0 4 8].
Proof. vm_compute. reflexivity. Qed.

Lemma xx_executable : executable 20 dx_image 2.
Proof.
  assert (Ed : dino dx_image 2 = Inode 1 2 1 0 T_FILE 0 0 1 88 (6 :: replicate 12 0)) by (vm_compute; reflexivity).
  pose proof xx_program as Ep.
  split.
  - split; [|rewrite dx_dnode by lia; done..].
    rewrite Ed. split; [reflexivity|discriminate|reflexivity|split; vm_compute; discriminate| |intros Hx; vm_compute in Hx; discriminate Hx].
    intros b Hb Hs. cbn in Hs. change BSIZE with 512 in Hs. assert (b = 0) as -> by lia. vm_compute. split; reflexivity.
  - vm_compute. discriminate.
  - vm_compute. reflexivity.
  - vm_compute. discriminate.
  - rewrite Ep, Ed. apply Forall_singleton. intros _.
    split; cbn [ph_vaddr ph_off ph_filesz ph_memsz i_size]; (reflexivity || lia).
  - rewrite Ep. vm_compute. discriminate.
Qed.

Lemma xx_can s d l :
  uvm s d l (fun va => va < 0) -> (900 <= length l)%nat -> can_exec (xx_machine s d) dx_image 2 0 (xx_proc d) l 0.
Proof.
  intros Hu Hl. split; [done|done|done|exact Hu|split; [done|klia]|].
  rewrite xx_program. change (PGROUNDUP (extent [ProgHdr 1 84 0 4 8])) with 4096. klia.
Qed.

Lemma exec_replaces_witness :
  exists s d, wp (exec (cstr "/ab") [cstr "ab"; cstr "x"]) (xx_machine s d) (fun r k' => r = 0 /\
    exists p, procs k' !! 0%nat = Some p /\ p_sz p = 12288 /\ uread (mm (ms k')) (p_pgdir p) 1 = Some x42).
Proof.
  destruct fresh_example as (s & d & l & Hu & Hlen & _). exists s, d.
  assert (W : walk dx_image false 1 (elements (cstr "/ab")) = Some (2, [])) by (vm_compute; reflexivity).
  assert (Ha : args_fit [cstr "ab"; cstr "x"]) by (split; vm_compute; discriminate).
  eapply wp_mono; [apply (exec_replaces 20 10 8 (xx_machine s d) dx_image (cstr "/ab") [cstr "ab"; cstr "x"] 1 2 [] 0
    (xx_proc d) l 0 (xx_resolve s d (cstr "/ab") eq_refl) W xx_executable Ha (xx_can s d l Hu Hlen))|].
  intros r k' (-> & d' & l' & I & sp & ps & Wk & Eq & Rp & HI & _). split; [reflexivity|].
  eexists. split; [rewrite Eq; apply list_lookup_insert_eq; rewrite <- (Forall2_length _ _ _ Wk); cbn; lia|].
  rewrite xx_program in *. change (PGROUNDUP (extent [ProgHdr 1 84 0 4 8])) with 4096 in *. split; [reflexivity|].
  cbn [p_pgdir exec_proc ps_tf ps_sz ps_pgdir]. rewrite (rp_read _ _ _ _ _ _ _ _ _ Rp) by klia. rewrite HI by lia.
  vm_compute. reflexivity.
Defined.

Lemma exec_rejects_witness :
  wp (exec (cstr "/nothere") []) (xx_machine (MState (fun _ => x00) false false 0 0 0) 0) (fun r _ => r = -1) /\
  wp (exec (cstr "/") []) (xx_machine (MState (fun _ => x00) false false 0 0 0) 0) (fun r _ => r = -1).
Proof.
  split.
  - eapply wp_mono; [apply (exec_rejects 20 10 8 _ dx_image (cstr "/nothere") [] 1 (xx_resolve _ _ (cstr "/nothere") eq_refl))|by intros r k' [-> _]].
    assert (W : walk dx_image false 1 (elements (cstr "/nothere")) = None) by (vm_compute; reflexivity). by rewrite W.
  - eapply wp_mono; [apply (exec_rejects 20 10 8 _ dx_image (cstr "/") [] 1 (xx_resolve _ _ (cstr "/") eq_refl))|by intros r k' [-> _]].
    assert (W : walk dx_image false 1 (elements (cstr "/")) = Some (1, [])) by (vm_compute; reflexivity). rewrite W.
    split; [|left; vm_compute; reflexivity]. split; [|rewrite dx_dnode by lia; discriminate..].
    apply (do_file _ _ _ (tr_dir _ _ _ dx_tree 1 ltac:(lia) ltac:(rewrite dx_dnode by lia; reflexivity))).
Defined.
