(* ===== verification/Syscall.v ===== *)
(** * System calls: syscall.c, sysproc.c, sysfile.c

    Fetching arguments from user memory, the handlers of all 21 system calls,
    and their dispatch. *)

From S2P Require Import Prelude Layout Mem Kalloc Vm State Sched Cow Bytes Bio Log Inode Console.
From S2P Require Import Fs Pipe File Proc Exec.

Open Scope Z_scope.

(** ** Arguments

    A fetch returns [None] where the C function returns -1. *)

Definition myproc_ : KM proc := let! me := myproc in pget me.

Definition fetchint (addr : Z) : KM (option Z) :=
  let! p := myproc_ in
  if (p_sz p <=? addr) || (p_sz p <? u32 (addr + 4)) then ret None
  else
    let! bs := get_va addr 4 in
    ret (Some (s32 (of_le bs))).

(** [for(s = *pp; s < ep; s++)]: the characters before the NUL. *)
Fixpoint fetchstr_loop (s ep : Z) (acc : list byte) (fuel : nat) : KM (option (list byte)) :=
  if s <? ep then
    match fuel with
    | O => nofuel
    | S fuel =>
        let! bs := get_va s 1 in
        let c := hd x00 bs in
        if bool_decide (c = x00) then ret (Some acc)
        else fetchstr_loop (s + 1) ep (acc ++ [c]) fuel
    end
  else ret None.

Definition fetchstr (addr : Z) : KM (option (list byte)) :=
  let! p := myproc_ in
  if p_sz p <=? addr then ret None
  else fetchstr_loop addr (p_sz p) [] (Z.to_nat (p_sz p - addr)).

Definition argint (n : Z) : KM (option Z) :=
  let! p := myproc_ in
  fetchint (u32 (tf_esp (p_tf p) + 4 + 4 * n)).

(** The pointer, as an address. *)
Definition argptr (n size : Z) : KM (option Z) :=
  let! o := argint n in
  let! p := myproc_ in
  match o with
  | None => ret None
  | Some i =>
      if (p_sz p <=? u32 i) || (p_sz p <? u32 (i + size)) then ret None
      else ret (Some (u32 i))
  end.

Definition argstr (n : Z) : KM (option (list byte)) :=
  let! o := argint n in
  match o with
  | None => ret None
  | Some addr => fetchstr (u32 addr)
  end.

(** [let? x := m in k]: -1 if the fetch fails. *)
Notation "'let?' x ':=' m 'in' k" :=
  (bind m (fun o => match o with None => ret (-1) | Some x => k end))
  (at level 10, x pattern, m at level 100, k at level 200,
   format "'[v' 'let?'  x  ':='  m  'in' '/' k ']'") : kernel_scope.

Section Syscall.
Context `{KernelImage} `{Wakeups}.

(** ** Process system calls: sysproc.c *)

Definition sys_fork : KM Z := fork.

Definition sys_exit : KM Z :=
  exit ;;;
  ret 0.

Definition sys_wait : KM Z := wait.

Definition sys_kill : KM Z :=
  let? pid := argint 0 in
  kill pid.

Definition sys_getpid : KM Z := let! p := myproc_ in ret (p_pid p).

Definition sys_sbrk : KM Z :=
  let? n := argint 0 in
  let! p := myproc_ in
  let addr := p_sz p in
  let! r := growproc n in
  if r <? 0 then ret (-1) else ret (s32 addr).

(** [while(ticks - ticks0 < n)]: [false] when the process was killed.  The
    comparison is unsigned. *)
Fixpoint sleep_wait (ticks0 n : Z) (w : nat) : KM bool :=
  let! t := gets ticks in
  if u32 (t - ticks0) <? u32 n then
    let! p := myproc_ in
    if p_killed p then ret false
    else
      match w with
      | O => nofuel
      | S w => sleep ChTicks LkTicks ;;; sleep_wait ticks0 n w
      end
  else ret true.

Definition sys_sleep : KM Z :=
  let? n := argint 0 in
  acquire LkTicks ;;;
  let! ticks0 := gets ticks in
  let! ok := sleep_wait ticks0 n wakeups in
  release LkTicks ;;;
  ret (if (ok : bool) then 0 else -1).

Definition sys_uptime : KM Z :=
  acquire LkTicks ;;;
  let! xticks := gets ticks in
  release LkTicks ;;;
  ret (s32 xticks).

(** ** File system calls: sysfile.c *)

(** The descriptor and the file. *)
Definition argfd (n : Z) : KM (option (Z * nat)) :=
  let! o := argint n in
  match o with
  | None => ret None
  | Some fd =>
      let! p := myproc_ in
      if (fd <? 0) || (NOFILE <=? fd) then ret None
      else
        match p_ofile p !! Z.to_nat fd with
        | Some (Some f) => ret (Some (fd, f))
        | _ => ret None
        end
  end.

Fixpoint fdalloc_loop (f fd n : nat) : KM (option Z) :=
  match n with
  | O => ret None
  | S n =>
      let! me := myproc in
      let! p := pget me in
      let! o := from_option_wild (p_ofile p !! fd) in
      match o with
      | None =>
          pupd me (fun p => ps_ofile (<[fd := Some f]> (p_ofile p)) p) ;;;
          ret (Some (Z.of_nat fd))
      | Some _ => fdalloc_loop f (S fd) n
      end
  end.

Definition fdalloc (f : nat) : KM (option Z) := fdalloc_loop f 0 (Z.to_nat NOFILE).

Definition clear_fd (fd : Z) : KM unit :=
  let! me := myproc in
  pupd me (fun p => ps_ofile (<[Z.to_nat fd := None]> (p_ofile p)) p).

Definition sys_dup : KM Z :=
  let? (_, f) := argfd 0 in
  let? fd := fdalloc f in
  filedup f ;;;
  ret fd.

Definition sys_read : KM Z :=
  let? (_, f) := argfd 0 in
  let? n := argint 2 in
  let? p := argptr 1 n in
  fileread f (to_va p) n.

Definition sys_write : KM Z :=
  let? (_, f) := argfd 0 in
  let? n := argint 2 in
  let? p := argptr 1 n in
  filewrite f (from_va p) n.

Definition sys_close : KM Z :=
  let? (fd, f) := argfd 0 in
  clear_fd fd ;;;
  fileclose f ;;;
  ret 0.

(** [struct stat] in user memory: the fields of [stati], in its order. *)
Definition put_stat (st : Z) (v : stat) : KM unit :=
  put_va (st + 4) (le_bytes 4 (st_dev v)) ;;;
  put_va (st + 8) (le_bytes 4 (st_ino v)) ;;;
  put_va st (le_bytes 2 (st_type v)) ;;;
  put_va (st + 12) (le_bytes 2 (st_nlink v)) ;;;
  put_va (st + 16) (le_bytes 4 (st_size v)).

Definition sys_fstat : KM Z :=
  let? (_, f) := argfd 0 in
  let? st := argptr 1 20 in
  filestat f (put_stat st).

(** The part of [sys_link] after [bad:]. *)
Definition link_bad (ip : nat) : KM Z :=
  ilock (Some ip) ;;;
  inoupd ip (fun x => is_nlink (s16 (i_nlink x - 1)) x) ;;;
  iupdate ip ;;;
  iunlockput ip ;;;
  commit_trans ;;;
  ret (-1).

Definition sys_link : KM Z :=
  let? old := argstr 0 in
  let? new := argstr 1 in
  let? ip := namei old in
  begin_trans ;;;
  ilock (Some ip) ;;;
  let! x := inoget ip in
  if i_type x =? T_DIR then
    iunlockput ip ;;;
    commit_trans ;;;
    ret (-1)
  else
    inoupd ip (fun x => is_nlink (s16 (i_nlink x + 1)) x) ;;;
    iupdate ip ;;;
    iunlock (Some ip) ;;;
    let! o := nameiparent new in
    match o with
    | None => link_bad ip
    | Some (dp, name) =>
        ilock (Some dp) ;;;
        let! d := inoget dp in
        let! x := inoget ip in
        let! r := (if negb (i_dev d =? i_dev x) then ret (-1) else dirlink dp name (i_inum x)) in
        if r <? 0 then
          iunlockput dp ;;;
          link_bad ip
        else
          iunlockput dp ;;;
          iput ip ;;;
          commit_trans ;;;
          ret 0
    end.

Fixpoint isdirempty_loop (dp : nat) (off : Z) (fuel : nat) : KM bool :=
  let! x := inoget dp in
  if off <? i_size x then
    match fuel with
    | O => nofuel
    | S fuel =>
        let! de := read_dirent dp off "isdirempty: readi" in
        if negb (de_inum de =? 0) then ret false
        else isdirempty_loop dp (off + dirent_size) fuel
    end
  else ret true.

Definition isdirempty (dp : nat) : KM bool :=
  let! x := inoget dp in
  isdirempty_loop dp (2 * dirent_size) (Z.to_nat (i_size x / dirent_size + 1)).

(** The part of [sys_unlink] after [bad:]. *)
Definition unlink_bad (dp : nat) : KM Z :=
  iunlockput dp ;;;
  commit_trans ;;;
  ret (-1).

Definition sys_unlink : KM Z :=
  let? path := argstr 0 in
  let? (dp, name) := nameiparent path in
  begin_trans ;;;
  ilock (Some dp) ;;;
  if (namecmp name (cstr ".") =? 0) || (namecmp name (cstr "..") =? 0) then unlink_bad dp
  else
    let! o := dirlookup dp name in
    match o with
    | None => unlink_bad dp
    | Some (ip, off) =>
        ilock (Some ip) ;;;
        let! x := inoget ip in
        if i_nlink x <? 1 then panic "unlink: nlink < 1"
        else
          let! empty := (if i_type x =? T_DIR then isdirempty ip else ret true) in
          if negb empty then
            iunlockput ip ;;;
            unlink_bad dp
          else
            let! r := writei dp (from_local (replicate (Z.to_nat dirent_size) x00)) off
                        dirent_size in
            if negb (r =? dirent_size) then panic "unlink: writei"
            else
              when (i_type x =? T_DIR)
                (inoupd dp (fun d => is_nlink (s16 (i_nlink d - 1)) d) ;;;
                 iupdate dp) ;;;
              iunlockput dp ;;;
              inoupd ip (fun x => is_nlink (s16 (i_nlink x - 1)) x) ;;;
              iupdate ip ;;;
              iunlockput ip ;;;
              commit_trans ;;;
              ret 0
    end.

Definition create (path : list byte) (type major minor : Z) : KM (option nat) :=
  let! o := nameiparent path in
  match o with
  | None => ret None
  | Some (dp, name) =>
      ilock (Some dp) ;;;
      let! o := dirlookup dp name in
      match o with
      | Some (ip, _) =>
          iunlockput dp ;;;
          ilock (Some ip) ;;;
          let! x := inoget ip in
          if (type =? T_FILE) && (i_type x =? T_FILE) then ret (Some ip)
          else iunlockput ip ;;; ret None
      | None =>
          let! d := inoget dp in
          let! ip := ialloc (i_dev d) type in
          ilock (Some ip) ;;;
          inoupd ip (fun x => is_nlink 1 (is_minor minor (is_major major x))) ;;;
          iupdate ip ;;;
          when (type =? T_DIR)
            (inoupd dp (fun d => is_nlink (s16 (i_nlink d + 1)) d) ;;;
             iupdate dp ;;;
             let! x := inoget ip in
             let! d := inoget dp in
             let! r := dirlink ip (cstr ".") (i_inum x) in
             let! r := (if r <? 0 then ret r else dirlink ip (cstr "..") (i_inum d)) in
             when (r <? 0) (panic "create dots")) ;;;
          let! x := inoget ip in
          let! r := dirlink dp name (i_inum x) in
          if r <? 0 then panic "create: dirlink"
          else
            iunlockput dp ;;;
            ret (Some ip)
      end
  end.

Definition O_RDONLY : Z := 0x000.
Definition O_WRONLY : Z := 0x001.
Definition O_RDWR : Z := 0x002.
Definition O_CREATE : Z := 0x200.

(** The inode to open, locked. *)
Definition open_inode (path : list byte) (omode : Z) : KM (option nat) :=
  if has omode O_CREATE then
    begin_trans ;;;
    let! o := create path T_FILE 0 0 in
    commit_trans ;;;
    ret o
  else
    let! o := namei path in
    match o with
    | None => ret None
    | Some ip =>
        ilock (Some ip) ;;;
        let! x := inoget ip in
        if (i_type x =? T_DIR) && negb (omode =? O_RDONLY) then
          iunlockput ip ;;;
          ret None
        else ret (Some ip)
    end.

Definition sys_open : KM Z :=
  let? path := argstr 0 in
  let? omode := argint 1 in
  let? ip := open_inode path omode in
  let! f := filealloc in
  match f with
  | None => iunlockput ip ;;; ret (-1)
  | Some f =>
      let! o := fdalloc f in
      match o with
      | None =>
          fileclose f ;;;
          iunlockput ip ;;;
          ret (-1)
      | Some fd =>
          iunlock (Some ip) ;;;
          fileupd f (fun x => fs_off 0 (fs_ip (Some ip) (fs_type FD_INODE x))) ;;;
          fileupd f (fs_readable (negb (has omode O_WRONLY))) ;;;
          fileupd f (fs_writable (has omode O_WRONLY || has omode O_RDWR)) ;;;
          ret fd
      end
  end.

Definition sys_mkdir : KM Z :=
  begin_trans ;;;
  let! path := argstr 0 in
  let! o := (match path with Some path => create path T_DIR 0 0 | None => ret None end) in
  match o with
  | None => commit_trans ;;; ret (-1)
  | Some ip =>
      iunlockput ip ;;;
      commit_trans ;;;
      ret 0
  end.

(** The inode that [sys_mknod] creates, after its argument checks. *)
Definition mknod_inode : KM (option nat) :=
  let! path := argstr 0 in
  match path with
  | None => ret None
  | Some path =>
      let! major := argint 1 in
      match major with
      | None => ret None
      | Some major =>
          let! minor := argint 2 in
          match minor with
          | None => ret None
          | Some minor => create path T_DEV (s16 major) (s16 minor)
          end
      end
  end.

Definition sys_mknod : KM Z :=
  begin_trans ;;;
  let! o := mknod_inode in
  match o with
  | None => commit_trans ;;; ret (-1)
  | Some ip =>
      iunlockput ip ;;;
      commit_trans ;;;
      ret 0
  end.

Definition sys_chdir : KM Z :=
  let? path := argstr 0 in
  let? ip := namei path in
  ilock (Some ip) ;;;
  let! x := inoget ip in
  if negb (i_type x =? T_DIR) then
    iunlockput ip ;;;
    ret (-1)
  else
    iunlock (Some ip) ;;;
    let! me := myproc in
    let! p := pget me in
    let! cwd := deref (p_cwd p) in
    iput cwd ;;;
    pupd me (ps_cwd (Some ip)) ;;;
    ret 0.

(** [for(i=0;; i++)] of [sys_exec]: at most [n] more arguments. *)
Fixpoint fetch_args (uargv i : Z) (n : nat) : KM (option (list (list byte))) :=
  match n with
  | O => ret None
  | S n =>
      let! o := fetchint (u32 (uargv + 4 * i)) in
      match o with
      | None => ret None
      | Some uarg =>
          if uarg =? 0 then ret (Some [])
          else
            let! s := fetchstr (u32 uarg) in
            match s with
            | None => ret None
            | Some s =>
                let! o := fetch_args uargv (i + 1) n in
                match o with
                | None => ret None
                | Some l => ret (Some (s :: l))
                end
            end
      end
  end.

Definition sys_exec : KM Z :=
  let? path := argstr 0 in
  let? uargv := argint 1 in
  let? argv := fetch_args (u32 uargv) 0 (Z.to_nat MAXARG) in
  exec path argv.

Definition sys_pipe : KM Z :=
  let? fd := argptr 0 8 in
  let? (rf, wf) := pipealloc in
  let! fd0 := fdalloc rf in
  match fd0 with
  | None =>
      fileclose rf ;;;
      fileclose wf ;;;
      ret (-1)
  | Some fd0 =>
      let! fd1 := fdalloc wf in
      match fd1 with
      | None =>
          clear_fd fd0 ;;;
          fileclose rf ;;;
          fileclose wf ;;;
          ret (-1)
      | Some fd1 =>
          put_va fd (le_bytes 4 fd0) ;;;
          put_va (u32 (fd + 4)) (le_bytes 4 fd1) ;;;
          ret 0
      end
  end.

(** ** Dispatch *)

(** [syscalls[]]; the numbers are those of syscall.h. *)
Definition syscalls (num : Z) : option (KM Z) :=
  if num =? 1 then Some sys_fork else if num =? 2 then Some sys_exit
  else if num =? 3 then Some sys_wait else if num =? 4 then Some sys_pipe
  else if num =? 5 then Some sys_read else if num =? 6 then Some sys_kill
  else if num =? 7 then Some sys_exec else if num =? 8 then Some sys_fstat
  else if num =? 9 then Some sys_chdir else if num =? 10 then Some sys_dup
  else if num =? 11 then Some sys_getpid else if num =? 12 then Some sys_sbrk
  else if num =? 13 then Some sys_sleep else if num =? 14 then Some sys_uptime
  else if num =? 15 then Some sys_open else if num =? 16 then Some sys_write
  else if num =? 17 then Some sys_mknod else if num =? 18 then Some sys_unlink
  else if num =? 19 then Some sys_link else if num =? 20 then Some sys_mkdir
  else if num =? 21 then Some sys_close else None.

Definition set_eax (v : Z) : KM unit :=
  let! me := myproc in
  pupd me (fun p => ps_tf (tf_set_eax (u32 v) (p_tf p)) p).

Definition syscall : KM unit :=
  let! p := myproc_ in
  let num := s32 (tf_eax (p_tf p)) in
  match syscalls num with
  | Some f =>
      let! r := f in
      set_eax r
  | None =>
      cprintf (cstr "%d %s: unknown sys call %d" ++ [x0a])
        [CInt (p_pid p); CStr (Some (cstring (p_name p))); CInt num] ;;;
      set_eax (-1)
  end.

End Syscall.
