(* ===== verification/Trap.v ===== *)
(** * Traps: trap.c, trapasm.S

    The trap handler: system calls, device interrupts, and page faults, which
    copy-on-write makes a normal event. *)

From S2P Require Import Prelude Layout Mem Kalloc Vm State Sched Cow Bytes Bio Log Inode Console.
From S2P Require Import Fs Pipe File Proc Exec Syscall.

Open Scope Z_scope.

(** [(tf->cs&3) == DPL_USER] *)
Definition user_mode (tf : trapframe) : bool := Z.land (tf_cs tf) 3 =? DPL_USER.

Section Trap.
Context `{KernelImage} `{Wakeups}.

(** ** Interrupts *)

(** [ticks++] on the first CPU. *)
Definition timer_tick (cpuid : Z) : KM unit :=
  when (cpuid =? 0)
    (acquire LkTicks ;;;
     modify (fun k => ks_ticks (u32 (ticks k + 1)) k) ;;;
     wakeup ChTicks ;;;
     release LkTicks).

(** A process that was killed does not return to user space. *)
Definition exit_if_killed (tf : trapframe) : KM unit :=
  let! c := gets cur in
  match c with
  | None => ret tt
  | Some me =>
      let! p := pget me in
      when (p_killed p && user_mode tf) exit
  end.

(** [default:] *)
Definition trap_default (tf : trapframe) (cpuid : Z) : KM unit :=
  let! c := gets cur in
  match c with
  | None => panic "trap"
  | Some me =>
      let! p := pget me in
      let! a := gets cr2 in
      if Z.land (tf_cs tf) 3 =? 0 then
        cprintf (cstr "unexpected trap %d from cpu %d eip %x (cr2=0x%x) proc->pid %d  proc->name %s  (tf->cs&3) ==  %d" ++ [x0a])
          [CInt (tf_trapno tf); CInt cpuid; CInt (tf_eip tf); CInt a; CInt (p_pid p);
           CStr (Some (cstring (p_name p))); CInt (Z.land (tf_cs tf) 3)] ;;;
        panic "trap"
      else
        cprintf (cstr "pid %d %s: trap %d err %d on cpu %d eip 0x%x addr 0x%x--kill proc" ++ [x0a])
          [CInt (p_pid p); CStr (Some (cstring (p_name p))); CInt (tf_trapno tf);
           CInt (tf_err tf); CInt cpuid; CInt (tf_eip tf); CInt a] ;;;
        pupd me (ps_killed true)
  end.

(** [case T_PGFLT:], which falls through to [default:]. *)
Definition trap_pgflt (tf : trapframe) (cpuid : Z) : KM unit :=
  let! p := myproc_ in
  if has (tf_err (p_tf p)) PTE_W then
    let! a := gets cr2 in
    if (0 <=? a) && (a <=? p_sz p) then trapCOW
    else panic ("trap.c--->trap()   Acceso a memoria fuera del proceso..." +:+ String (Ascii.ascii_of_nat 10) "")
  else trap_default tf cpuid.

(** The [switch] on the trap number.  [keys] are the characters the keyboard
    or the serial line has for the interrupt handler; [kbdintr], which makes them from scan
    codes, is in Kbd.v, and [lapiceoi] is in Irq.v. *)
Definition trap_dispatch (tf : trapframe) (cpuid : Z) (keys : list Z) : KM unit :=
  let no := tf_trapno tf in
  if no =? T_IRQ0 + IRQ_TIMER then timer_tick cpuid
  else if no =? T_IRQ0 + IRQ_IDE then ideintr
  else if no =? T_IRQ0 + IRQ_IDE + 1 then ret tt
  else if no =? T_IRQ0 + IRQ_KBD then consoleintr keys
  else if no =? T_IRQ0 + IRQ_COM1 then consoleintr keys
  else if (no =? T_IRQ0 + 7) || (no =? T_IRQ0 + IRQ_SPURIOUS) then
    cprintf (cstr "cpu%d: spurious interrupt at %x:%x" ++ [x0a])
      [CInt cpuid; CInt (tf_cs tf); CInt (tf_eip tf)]
  else if no =? T_PGFLT then trap_pgflt tf cpuid
  else trap_default tf cpuid.

(** Give up the CPU on a clock tick. *)
Definition preempt (tf : trapframe) : KM unit :=
  let! c := gets cur in
  match c with
  | None => ret tt
  | Some me =>
      let! p := pget me in
      when (bool_decide (p_state p = RUNNING) && (tf_trapno tf =? T_IRQ0 + IRQ_TIMER)) yield
  end.

Definition trap (tf : trapframe) (cpuid : Z) (keys : list Z) : KM unit :=
  if tf_trapno tf =? T_SYSCALL then
    let! me := myproc in
    let! p := pget me in
    when (p_killed p) exit ;;;
    pupd me (ps_tf tf) ;;;
    syscall ;;;
    let! p := myproc_ in
    when (p_killed p) exit
  else
    trap_dispatch tf cpuid keys ;;;
    exit_if_killed tf ;;;
    preempt tf ;;;
    exit_if_killed tf.

(** [alltraps]: a trap from user space builds its frame at the top of the
    process's kernel stack, where [proc->tf] points; a trap from the kernel
    builds it elsewhere and leaves [*proc->tf] as it was. *)
Definition alltraps (tf : trapframe) (cpuid : Z) (keys : list Z) : KM unit :=
  when (user_mode tf)
    (let! me := myproc in
     pupd me (ps_tf tf)) ;;;
  trap tf cpuid keys.

End Trap.
