(* ===== verification/CowTrap.v ===== *)
(** * A store of a process, through the trap handler

    A store to a write-protected page raises a page fault; the handler of
    trap.c takes it to [trapCOW] and the instruction is restarted.
    [user_write_spec] says that the store then succeeds and that no other
    process sees it. *)

From S2P Require Import Prelude Layout Mem Kalloc Vm VmFacts UvmFacts UvmAlloc State Sched Cow.
From S2P Require Import CowFacts CowFault Bytes Bio Log Inode Console Fs Pipe File Proc Exec.
From S2P Require Import Syscall Trap.

Open Scope Z_scope.

Section CowTrap.
Context `{KernelImage} `{!KernelImageOk} `{Wakeups}.

(** The frame of a write fault from user space: the processor pushes the
    error code (present, write, user) and the user's code segment. *)
Definition write_fault (t : trapframe) : trapframe :=
  TrapFrame (tf_edi t) (tf_esi t) (tf_ebp t) (tf_oesp t) (tf_ebx t) (tf_edx t) (tf_ecx t)
    (tf_eax t) (tf_gs t) (tf_fs t) (tf_es t) (tf_ds t) T_PGFLT 7 (tf_eip t)
    (Z.lor (Z.shiftl SEG_UCODE 3) DPL_USER) (tf_eflags t) (tf_esp t) (tf_ss t).

(** The store, restarted once after the page fault was handled. *)
Definition user_write (va : Z) (b : byte) : KM unit :=
  let! ok := try_store va b in
  if (ok : bool) then ret tt
  else
    let! me := myproc in
    let! p := pget me in
    alltraps (write_fault (p_tf p)) 0 [] ;;;
    let! ok := try_store va b in
    if (ok : bool) then ret tt else nofuel.

(** The state with [proc->tf] set. *)
Definition tfed (me : nat) (t : trapframe) (k : kstate) : kstate :=
  ks_procs (alter (ps_tf t) me (procs k)) k.

Lemma spaces_tfed me t k n : spaces (tfed me t k) n = spaces k n.
Proof.
  unfold spaces, tfed. cbn. rewrite !fmap_take. f_equal. apply list_eq. intros i.
  rewrite !list_lookup_fmap. destruct (decide (i = me)) as [->|Hne].
  - rewrite list_lookup_alter_eq. by destruct (procs k !! me).
  - by rewrite list_lookup_alter_ne.
Qed.

Lemma tfed_lookup me t k i r :
  procs (tfed me t k) !! i = Some r -> exists q, procs k !! i = Some q /\
    (r = q \/ i = me /\ r = ps_tf t q).
Proof.
  unfold tfed. cbn. intros E. destruct (decide (i = me)) as [->|Hne].
  - rewrite list_lookup_alter_eq in E. destruct (procs k !! me) as [q|]; [|done].
    injection E as <-. exists q. auto.
  - rewrite list_lookup_alter_ne in E by done. exists r. auto.
Qed.

Lemma cow_k_tfed k l n me p t : cow_k k l n me p -> cow_k (tfed me t k) l n me (ps_tf t p).
Proof.
  intros [K1 K2 K3 K4 K5 K6 K7]. split; try rewrite spaces_tfed; try done.
  - unfold tfed. cbn. by rewrite length_alter.
  - intros i r Hr Hi. destruct (tfed_lookup me t k i r Hr) as (q & Hq & [->|[_ ->]]).
    + by apply (K2 i).
    + by apply (K2 i q).
  - intros i r Hr Hi. destruct (tfed_lookup me t k i r Hr) as (q & Hq & [->|[_ ->]]).
    + by apply (K3 i).
    + by apply (K3 i q).
  - destruct K6 as (Hcur & Hn & Hp). split; [done|]. split; [done|].
    unfold tfed. cbn. by rewrite list_lookup_alter_eq, Hp.
Qed.

Lemma tfed_id k me p : procs k !! me = Some p -> tfed me (p_tf p) k = k.
Proof.
  intros Hp. unfold tfed. replace (alter _ me (procs k)) with (procs k); [by destruct k|].
  apply list_eq. intros i. destruct (decide (i = me)) as [->|Hne].
  - rewrite list_lookup_alter_eq, Hp. cbn. f_equal. by destruct p.
  - by rewrite list_lookup_alter_ne.
Qed.

(** A write fault in the image, from user space, is taken to [trapCOW]. *)
Lemma alltraps_pgflt k me p tf cpuid keys (Q : unit -> kstate -> Prop) :
  cur k = Some me -> procs k !! me = Some p -> 0 <= cr2 k <= p_sz p -> p_killed p = false ->
  user_mode tf = true -> tf_trapno tf = T_PGFLT -> has (tf_err tf) PTE_W = true ->
  wp trapCOW (tfed me tf k) (fun _ k' =>
    cur k' = Some me /\ procs k' !! me = Some (ps_tf tf p) /\ Q tt k') ->
  wp (alltraps tf cpuid keys) k Q.
Proof.
  intros Hcur Hp Hsz Hkl Hum Hno Herr W.
  assert (Hp1 : procs (tfed me tf k) !! me = Some (ps_tf tf p)) by (unfold tfed; cbn; by rewrite list_lookup_alter_eq, Hp).
  unfold alltraps. rewrite Hum. apply wp_bind, wp_bind, (wp_myproc me); [done|].
  apply wp_modify. fold (tfed me tf k). unfold trap, trap_dispatch. rewrite Hno.
  apply wp_bind. unfold T_PGFLT at 1 2 3 4 5 6 7 8 9. cbn [Z.eqb Pos.eqb T_SYSCALL].
  unfold trap_pgflt, myproc_. apply wp_bind, wp_bind, (wp_myproc me); [done|].
  apply (wp_pget me (ps_tf tf p)); [done|]. cbn [p_tf ps_tf p_sz]. rewrite Herr.
  apply wp_bind, wp_gets. rewrite (proj2 (Z.leb_le 0 _)), (proj2 (Z.leb_le _ _)) by (cbn; lia).
  cbn [andb]. wp_use W. intros [] k' (Hcur' & Hp' & HQ).
  assert (Hex : forall R : unit -> kstate -> Prop, R tt k' -> wp (exit_if_killed tf) k' R).
  { intros R HR. unfold exit_if_killed. apply wp_bind, wp_gets. rewrite Hcur'.
    apply wp_bind, (wp_pget me (ps_tf tf p)); [done|]. cbn [p_killed ps_tf]. by rewrite Hkl. }
  apply wp_bind, Hex, wp_bind. unfold preempt. apply wp_bind, wp_gets. rewrite Hcur'.
  apply wp_bind, (wp_pget me (ps_tf tf p)); [done|]. rewrite Hno, andb_false_r.
  apply wp_ret, Hex, HQ.
Qed.

(** A write fault on a mapped page of the image, from user space. *)
Lemma alltraps_cow k f l n me p e tf cpuid keys :
  cow_k k (f :: l) n me p -> pt_lock k = false -> 0 <= cr2 k < KERNBASE ->
  mapping (mm (ms k)) (p_pgdir p) (cr2 k) = Some e ->
  cr2 k <= p_sz p -> p_killed p = false ->
  user_mode tf = true -> tf_trapno tf = T_PGFLT -> has (tf_err tf) PTE_W = true ->
  wp (alltraps tf cpuid keys) k (fun _ k' => exists s' l' e', k' = ks_ms s' (tfed me tf k) /\
    cow_k k' l' n me (ps_tf tf p) /\ same_views (spaces k n) (ms k) s' /\
    mapping (mm s') (p_pgdir p) (cr2 k) = Some e' /\ has e' PTE_W = true /\
    (has e PTE_U = true -> has e' PTE_U = true) /\
    unshared (mm s') (spaces k n) (p_pgdir p) (frame_of e') /\
    (l' = f :: l \/ l' = l)).
Proof.
  intros Hk Hl Hva He Hsz Hkl Hum Hno Herr. destruct (ck_cur _ _ _ _ _ Hk) as (Hcur & Hmn & Hp).
  pose proof (cow_k_tfed k (f :: l) n me p tf Hk) as Hk1.
  apply (alltraps_pgflt k me p); try done; [lia|].
  wp_use (trapCOW_spec (tfed me tf k) f l n me (ps_tf tf p) e Hk1 Hl Hva He).
  intros _ k' (s' & l' & e' & -> & Hk' & V & M & Rest).
  rewrite spaces_tfed in *. destruct (ck_cur _ _ _ _ _ Hk') as (Hcur' & _ & Hp').
  split; [done|]. split; [done|]. by exists s', l', e'.
Qed.

Lemma user_write_spec k f l n me p va b e :
  cow_k k (f :: l) n me p -> pt_lock k = false -> 0 <= va < KERNBASE ->
  mapping (mm (ms k)) (p_pgdir p) va = Some e -> has e PTE_U = true ->
  va <= p_sz p -> p_killed p = false ->
  wp (user_write va b) k (fun _ k' => exists l' s' c t, k' = ks_ms s' (ks_cr2 c (tfed me t k)) /\
    cow_k k' l' n me (ps_tf t p) /\ stored (spaces k n) (p_pgdir p) va b (ms k) s' /\
    (l' = f :: l \/ l' = l)).
Proof.
  intros Hk Hl Hva He HU Hsz Hkl. destruct (ck_cur _ _ _ _ _ Hk) as (Hcur & Hmn & Hp).
  unfold user_write. apply wp_bind.
  wp_use (try_store_ok k (f :: l) n me p va b e Hk Hva He HU).
  intros ok k1 Hr. destruct (has e PTE_W).
  { destruct Hr as (-> & s' & -> & Hk' & S). apply wp_ret. exists (f :: l), s', (cr2 k), (p_tf p).
    rewrite tfed_id by done. split; [by destruct k|]. split; [by destruct p|]. auto. }
  destruct Hr as [-> ->]. apply wp_bind, (wp_myproc me); [done|].
  apply wp_bind, (wp_pget me p); [done|]. apply wp_bind.
  wp_use (alltraps_cow (ks_cr2 va k) f l n me p e (write_fault (p_tf p)) 0 []
    (cow_k_cr2 _ _ _ _ _ va Hk)); try done.
  intros _ k2 (s2 & l2 & e2 & -> & Hk2 & V & M & HW & HU2 & _ & Hl2).
  apply wp_bind. wp_use (try_store_ok _ l2 n me _ va b e2 Hk2 Hva M (HU2 HU)).
  rewrite HW. intros ok k3 (-> & s3 & -> & Hk3 & S). apply wp_ret.
  exists l2, s3, va, (write_fault (p_tf p)).
  split; [done|]. split; [done|]. split; [|done].
  apply (same_views_stored _ _ (p_sz p) va b (ms k) s2 s3 (me_in k _ n me p Hk)); [done|].
  rewrite <- (spaces_tfed me (write_fault (p_tf p)) k n). exact S.
Qed.

(** ** Images of more than one page table

    [fork] takes the write permission out of the directory's entry of every table but the last
    one, and [copypage] gives it back only when it copies the table.  A process that no longer
    shares the table keeps the entry as it is. *)

(** A store that is restarted [n] times, with the handler run before each restart. *)
Fixpoint store_tries (va : Z) (b : byte) (n : nat) : KM bool :=
  let! ok := try_store va b in
  match ok, n with
  | true, _ => ret true
  | false, O => ret false
  | false, S n =>
      let! me := myproc in
      let! p := pget me in
      alltraps (write_fault (p_tf p)) 0 [] ;;;
      store_tries va b n
  end.

(** The current process, with its page directory [d], is the only one alive; it maps [va], in a
    table whose entry in the directory lacks the write permission. *)
Record stuck (k : kstate) (d va : Z) : Prop := {
  sk_cur : exists me p, cur k = Some me /\ procs k !! me = Some p /\ p_pgdir p = d /\
    p_killed p = false /\ va <= p_sz p /\
    forall i q, procs k !! i = Some q -> i = me \/ p_state q = ZOMBIE \/ p_pid q = 0;
  sk_len : length (procs k) = 64%nat;
  sk_lock : pt_lock k = false;
  sk_va : 0 <= va < KERNBASE;
  sk_wf : pd_wf (mm (ms k)) d;
  sk_map : exists e, mapping (mm (ms k)) d va = Some e;
  sk_pde : has (word (mm (ms k)) d (PDX va)) PTE_W = false
}.

(** Only the table's page differs. *)
Definition only_table (d va : Z) (k k' : kstate) : Prop :=
  tab (mm (ms k')) d (PDX va) = tab (mm (ms k)) d (PDX va) /\
  frame (fun q => q = tab (mm (ms k)) d (PDX va)) (mm (ms k)) (mm (ms k')).

Lemma isshared_alone me va n : forall k i, cur k = Some me -> length (procs k) = 64%nat -> (i + n = 64)%nat ->
  (forall i q, procs k !! i = Some q -> i = me \/ p_state q = ZOMBIE \/ p_pid q = 0) ->
  wp (isshared_loop me va i n) k (fun r k' => r = NOTHING /\ k' = k).
Proof.
  induction n as [|n IH]; intros k i Hcur Hlen Hn Hal; cbn [isshared_loop]; [by apply wp_ret|].
  destruct (lookup_lt_is_Some_2 (procs k) i) as [q Hq]; [lia|]. apply wp_bind, (wp_pget i q); [done|].
  destruct (Z.eqb_spec (p_pid q) 0) as [|Hpid]; [by apply wp_ret|].
  replace (bool_decide (p_state q = ZOMBIE) || (i =? me)%nat) with true.
  - apply IH; try done. lia.
  - symmetry. apply orb_true_iff. destruct (Hal i q Hq) as [->|[Hz|]]; [right; apply Nat.eqb_refl|left|done].
    by apply bool_decide_eq_true_2.
Qed.

Lemma setptew_stuck s d va e : pd_wf (mm s) d -> 0 <= va < KERNBASE -> mapping (mm s) d va = Some e ->
  wp (copypage_nothing d va) s (fun _ s' => exists m', s' = set_mm m' s /\ pd_wf m' d /\
    (forall i, 0 <= i < 1024 -> word m' d i = word (mm s) d i) /\
    frame (fun q => q = tab (mm s) d (PDX va)) (mm s) m' /\ exists e', mapping m' d va = Some e').
Proof.
  intros Hwf Hva He. destruct (page_base va Hva) as (_ & Hr & Hpg).
  assert (Hx : PDX (PGROUNDDOWN va) = PDX va) by (by apply (vpn_inj (PGROUNDDOWN va) va); [klia|klia|]).
  rewrite (mapping_page _ _ va (PGROUNDDOWN va)) in He by (done || klia).
  pose proof (entry_range _ _ _ _ He) as He32. destruct (mapping_Some _ _ _ _ He) as (Hp & _ & HeP).
  destruct (tab_stable (mm s) d (PDX (PGROUNDDOWN va)) (PTX (PGROUNDDOWN va)) (Z.lor e PTE_W) Hwf (PDX_range _) Hp (PTX_range _)) as [F W].
  unfold copypage_nothing, wp. rewrite (setptew_eq s d _ e Hwf He). eexists. split; [reflexivity|].
  rewrite <- Hx. split_and!; try done.
  - eapply pd_wf_frame; [exact F| |done]. intros E. by apply (pd_tabs _ _ Hwf _ (PDX_range (PGROUNDDOWN va)) Hp).
  - exists (Z.lor e PTE_W). rewrite (mapping_page _ _ va (PGROUNDDOWN va)) by (done || klia).
    rewrite mapping_store by (done || klia || (apply lor_range; [done|unfold PTE_W; lia])).
    by rewrite Z.eqb_refl, (proj1 (has_lor_W e)), HeP.
Qed.

Lemma stuck_fault k d va me p : stuck k d va -> cur k = Some me -> procs k !! me = Some p ->
  wp (alltraps (write_fault (p_tf p)) 0 []) (ks_cr2 va k) (fun _ k' => stuck k' d va /\ only_table d va k k').
Proof.
  intros [(me' & p' & C1 & C2 & C3 & C4 & C5 & C6) L1 L2 L3 L4 [e L5] L6] Hcur Hp.
  assert (me' = me) as -> by congruence. assert (p' = p) as -> by congruence.
  apply (alltraps_pgflt _ me p); try done; [cbn; lia|].
  set (k1 := tfed me (write_fault (p_tf p)) (ks_cr2 va k)).
  assert (Hp1 : procs k1 !! me = Some (ps_tf (write_fault (p_tf p)) p)) by (cbn; by rewrite list_lookup_alter_eq, Hp).
  assert (Hal : forall i q, procs k1 !! i = Some q -> i = me \/ p_state q = ZOMBIE \/ p_pid q = 0).
  { intros i q Hq. destruct (tfed_lookup me _ _ i q Hq) as (q0 & Hq0 & [->|[-> ->]]); [by apply C6|by left]. }
  unfold trapCOW. apply wp_bind, wp_acquire; [done|]. apply wp_bind. unfold copypage. apply wp_bind, wp_gets, wp_bind.
  unfold isshared. apply wp_bind, (wp_myproc me); [done|].
  wp_use (isshared_alone me va (Z.to_nat NPROC) (set_lock LkPtable true k1) 0); try done; [exact (eq_trans (length_alter _ _ _) L1)|].
  intros r k2 [-> ->]. apply wp_bind, (wp_myproc me); [done|]. apply wp_bind, (wp_pget me (ps_tf (write_fault (p_tf p)) p)); [done|].
  apply wp_liftM. cbn [p_pgdir ps_tf]. rewrite C3. wp_use (setptew_stuck (ms k) d va e L4 L3 L5).
  intros [] s' (m' & -> & G1 & G2 & G3 & G4). apply wp_release; [done|]. split; [done|]. split; [done|]. split.
  - split; try done.
    + exists me, (ps_tf (write_fault (p_tf p)) p). by split_and!.
    + exact (eq_trans (length_alter _ _ _) L1).
    + cbn. rewrite G2 by apply PDX_range. done.
  - split; [apply tab_word, G2, PDX_range|done].
Qed.

(** A store to such an address is never carried out: however often the processor restarts it
    after the handler has returned, it faults again; the memory outside the page table does
    not change. *)
Theorem large_image_stuck n : forall k d va b, stuck k d va ->
  wp (store_tries va b n) k (fun ok k' => ok = false /\ stuck k' d va /\ only_table d va k k').
Proof.
  induction n as [|n IH]; intros k d va b Hs; pose proof Hs as [(me & p & C1 & C2 & C3 & _) _ _ _ _ _ L6]; cbn [store_tries];
    unfold try_store; apply wp_bind, wp_bind, (wp_myproc me); try done; apply wp_bind, (wp_pget me p); try done; apply wp_bind, wp_gets;
    unfold user_translate, user_flags; rewrite C3, L6, andb_false_r; cbn [andb]; apply wp_bind, wp_modify, wp_ret.
  - apply wp_ret. split; [done|]. split; [|by split; [|apply frame_refl]]. destruct Hs. by split.
  - apply wp_bind, (wp_myproc me); [done|]. apply wp_bind, (wp_pget me p); [done|]. apply wp_bind.
    wp_use (stuck_fault k d va me p Hs C1 C2). intros [] k1 (Hs1 & Et & F1). wp_use (IH k1 d va b Hs1).
    intros ok k2 (-> & Hs2 & Et2 & F2). split; [done|]. split; [done|]. split; [congruence|].
    eapply frame_trans; [exact F1|]. by rewrite <- Et.
Qed.

(** ** A write fault in the kernel *)

(** [trap] reads the error code of [proc->tf], the frame of the last entry
    from user space: that of the system call, not that of the fault. *)
Lemma kernel_fault_panics k me p tf cpuid keys :
  cur k = Some me -> procs k !! me = Some p -> cons_lock k = false ->
  has (tf_err (p_tf p)) PTE_W = false -> Z.land (tf_cs tf) 3 = 0 -> tf_trapno tf = T_PGFLT ->
  exists c, alltraps tf cpuid keys k = Panic "trap" (ks_console c k).
Proof.
  intros Hcur Hp Hl Herr Hcs Hno.
  assert (W : forall fmt args, exists c, cprintf fmt args k = Ok tt (ks_console c k)).
  { intros fmt args. assert (Wp : wp (cprintf fmt args) k (fun _ k' => exists c, k' = ks_console c k)).
    { apply wp_cprintf; eauto. }
    apply wp_Ok in Wp as ([] & k' & E & c & ->). eauto. }
  unfold alltraps, user_mode. rewrite Hcs. rewrite (bind_Ok _ _ _ tt k) by done.
  unfold trap. rewrite Hno. change (T_PGFLT =? T_SYSCALL) with false. cbv iota.
  assert (Hme : myproc k = Ok me k) by (unfold myproc, bind, gets; cbn; by rewrite Hcur).
  assert (Hg : pget me k = Ok p k) by (unfold pget, bind, gets; cbn; by rewrite Hp).
  edestruct W as [c Ec]. exists c. apply bind_Panic.
  replace (trap_dispatch tf cpuid keys) with (trap_pgflt tf cpuid)
    by (unfold trap_dispatch; by rewrite Hno). unfold trap_pgflt, myproc_. rewrite (bind_Ok _ _ _ p k).
  2: { by rewrite (bind_Ok _ _ _ me k). }
  rewrite Herr. unfold trap_default. rewrite (bind_Ok _ _ _ (Some me) k) by (unfold gets; by rewrite Hcur).
  rewrite (bind_Ok _ _ _ p k), (bind_Ok _ _ _ (cr2 k) k), Hcs by done. cbn [Z.eqb].
  by rewrite (bind_Ok _ _ _ _ _ Ec).
Qed.
End CowTrap.
