(* ===== verification/CowExit.v ===== *)
(** * Copy-on-write: the end of a process

    [wait] takes the memory that a zombie shares with others out of its address space
    and frees the rest.  The theorem: every other process reads what it read before, and
    the free list has gained exactly the pages that nobody else uses. *)

From S2P Require Import Prelude Layout Mem Kalloc Vm VmFacts UvmFacts UvmAlloc State Sched Cow.
From S2P Require Import Proc.
From S2P Require Import CowFacts CowFault CowFork.

Open Scope Z_scope.

Section CowExit.
Context `{KernelImage} `{!KernelImageOk}.

(** ** Freeing an address space with holes *)

(** From [s] to [s'] the user frames of [d] became [freed]. *)
Record drained (d : Z) (s s' : mstate) (freed : list Z) : Prop := {
  dr_dir : forall i, 0 <= i < 1024 -> word (mm s') d i = word (mm s) d i;
  dr_freed : forall q, q ∈ freed <-> ufoot (mm s) d q;
  dr_frame : frame (fun q => is_table (mm s) d q \/ q ∈ freed) (mm s) (mm s');
  dr_regs : kpgdir s' = kpgdir s /\ cr3 s' = cr3 s /\ use_lock s' = use_lock s
}.

(** One iteration on a page that is not mapped. *)
Lemma dealloc_skip s d a fuel :
  pd_wf (mm s) d -> present (mm s) d 0 -> 0 <= a < 2 ^ 22 -> mapping (mm s) d a = None ->
  deallocuvm_loop d a KERNBASE (S fuel) s = deallocuvm_loop d (a + PGSIZE) KERNBASE fuel s.
Proof.
  intros Hwf Hp Ha Hn. cbn [deallocuvm_loop]. rewrite (proj2 (Z.ltb_lt a KERNBASE)) by klia.
  pose proof (small_PDX a Ha) as Ex. unfold present in Hp. rewrite <- Ex in Hp.
  unfold bind at 1. rewrite walkpgdir_noalloc by (apply page_ok_high, Hwf). cbn [obind]. rewrite Hp.
  destruct (pd_tabs _ _ Hwf (PDX a) (PDX_range a) Hp) as [Hok _]. pose proof (page_ok_bounds _ Hok). pose proof (PTX_range a).
  rewrite (proj2 (Z.eqb_neq _ 0)) by klia. pose proof (mapping_None_word _ _ _ Hn Hp) as E.
  unfold bind at 1, ld32, gets at 1. cbn [obind]. fold (word (mm s) (tab (mm s) d (PDX a)) (PTX a)). rewrite E.
  unfold bind, when, ret. cbn -[deallocuvm_loop]. rewrite u32_small by (unfold PGSIZE; lia). done.
Qed.

Lemma dealloc_sparse d fuel : forall s l a (U : Z -> Prop),
  uvm s d l U -> (forall va, U va \/ ~ U va) -> present (mm s) d 0 -> (forall va, 0 <= va < KERNBASE -> U va -> a <= va < 2 ^ 22) ->
  aligned a -> 0 <= a -> KERNBASE <= a + Z.of_nat fuel * PGSIZE ->
  wp (deallocuvm_loop d a KERNBASE fuel) s (fun _ s' => exists freed,
    pt_inv s' d (freed ++ l) /\ drained d s s' freed).
Proof.
  induction fuel as [|fuel IH]; intros s l a U Hu Hdec Hp HU Ha Ha0 Hf.
  all: assert (Hdone : (forall va, 0 <= va < KERNBASE -> ~ U va) -> forall n, KERNBASE <= a + Z.of_nat n * PGSIZE ->
    wp (deallocuvm_loop d a KERNBASE n) s (fun _ s' => exists freed, pt_inv s' d (freed ++ l) /\ drained d s s' freed)).
  1, 3: intros HnU n Hn; unfold wp; pose proof (pt_wf _ _ _ (uv_inv _ _ _ _ Hu)) as Hwf;
    rewrite deallocuvm_loop_nop; [|by apply page_ok_high, Hwf|done|done|done|done|intros va Hva; apply (uv_none _ _ _ _ Hu); [lia|apply HnU; lia]];
    exists []; split; [apply Hu|]; split; [done| |apply frame_refl|done];
    intros q; split; [by intros ?%not_elem_of_nil|]; intros (va & e & Hva & E & _);
    rewrite (uv_none _ _ _ _ Hu va Hva (HnU va Hva)) in E; done.
  { apply Hdone; [|done]. intros va Hva HUv. specialize (HU va Hva HUv). klia. }
  destruct (Z.lt_ge_cases a (2 ^ 22)) as [Hlt|Hge].
  2: { apply Hdone; [|done]. intros va Hva HUv. specialize (HU va Hva HUv). lia. }
  assert (HaK : 0 <= a < KERNBASE) by klia. assert (Hal : aligned (a + PGSIZE)) by (unfold aligned, PGSIZE in *; Z.div_mod_to_equations; lia).
  destruct (mapping (mm s) d a) as [e|] eqn:Ee.
  - assert (HUa : U a). { destruct (Hdec a) as [|Hn]; [done|]. by rewrite (uv_none _ _ _ _ Hu a HaK Hn) in Ee. }
    unfold wp. rewrite (deallocuvm_step s d l U a e KERNBASE fuel Hu) by (done || lia).
    destruct (unmap_facts s d l U a e Hu HaK HUa Ee) as (_ & W1 & Hm1 & F1).
    destruct (uvm_unmap s d l U a e Hu HaK HUa Ee) as (Hu1 & _). pose proof (unmap_private s d l U a e Hu HaK HUa Ee) as Hpp.
    destruct (mapping_Some _ _ _ _ Ee) as (Hpa & _). set (s1 := set_mm _ _) in *.
    assert (Htab : forall q, is_table (mm s1) d q <-> is_table (mm s) d q).
    { intros q. split; intros (i & Hi & Hp' & ->); exists i; pose proof (W1 i Hi) as E;
        rewrite (tab_word _ _ _ _ E); apply (present_word _ _ _ _ E) in Hp'; auto. }
    eapply wp_mono; [apply (IH s1 (frame_of e :: l) (a + PGSIZE) _ Hu1)|].
    + intros va. destruct (Hdec va), (decide (va / PGSIZE = a / PGSIZE)); tauto.
    + by apply (present_word _ _ _ _ (W1 0 ltac:(lia))).
    + intros va Hva [HUv Hne]. specialize (HU va Hva HUv). split; [|lia]. rewrite same_page_div in Hne by done. lia.
    + done.
    + klia.
    + klia.
    + intros _ s2 (freed & Hi2 & [D2 M2 F2 R2]). exists (freed ++ [frame_of e]). rewrite <- app_assoc. split; [done|]. split.
      * intros i Hi. by rewrite D2, W1.
      * intros q. rewrite elem_of_app, list_elem_of_singleton, M2. split.
        -- intros [(va & e0 & Hva & E0 & ->)| ->]; [|by exists a, e].
           rewrite Hm1 in E0 by klia. destruct (va / PGSIZE =? a / PGSIZE); [done|]. by exists va, e0.
        -- intros (va & e0 & Hva & E0 & ->). destruct (Z.eqb_spec (va / PGSIZE) (a / PGSIZE)) as [E|E].
           ++ right. rewrite (mapping_page _ _ va a) in E0 by (done || klia). congruence.
           ++ left. exists va, e0. split; [done|]. rewrite Hm1, (proj2 (Z.eqb_neq _ _) E) by klia. done.
      * eapply frame_trans; (eapply frame_mono; [eassumption|]).
        -- intros q _ [->| ->]; [right; apply elem_of_app; right; by apply list_elem_of_singleton|left].
           exists (PDX a). split; [apply PDX_range|done].
        -- intros q _ [Hq|Hq]; [left; by apply Htab|right; apply elem_of_app; by left].
      * by destruct R2 as (-> & -> & ->).
  - unfold wp. rewrite dealloc_skip by (done || lia || apply Hu).
    apply (IH s l (a + PGSIZE) U); try done; try klia. intros va Hva HUv. specialize (HU va Hva HUv). split; [|lia].
    destruct (Z.lt_ge_cases va (a + PGSIZE)) as [Hlt'|]; [|done]. exfalso.
    destruct (uv_some _ _ _ _ Hu va Hva HUv) as (e & Eva & _).
    rewrite (mapping_page _ _ va a) in Eva by (klia || (apply same_page_div; [done|lia])). congruence.
Qed.

(** [freevm]: the directory, its tables and the frames that are mapped. *)
Lemma freevm_sparse s d l U :
  uvm s d l U -> (forall va, U va \/ ~ U va) -> present (mm s) d 0 -> (forall va, 0 <= va < KERNBASE -> U va -> va < 2 ^ 22) ->
  wp (freevm d) s (fun _ s' => exists given, free_wf s' (given ++ l) /\
    (forall q, q ∈ given <-> foot (mm s) d q \/ ufoot (mm s) d q) /\
    frame (fun q => q ∈ given) (mm s) (mm s') /\ kpgdir s' = kpgdir s /\ cr3 s' = cr3 s /\ use_lock s' = use_lock s).
Proof.
  intros Hu Hdec Hp HU. pose proof (uv_inv _ _ _ _ Hu) as Hinv. pose proof (pd_page _ _ (pt_wf _ _ _ Hinv)) as Hd.
  pose proof (page_ok_bounds d Hd) as (_ & _ & Hd0).
  unfold freevm. rewrite (proj2 (Z.eqb_neq d 0)) by done. apply wp_bind. unfold deallocuvm.
  rewrite (proj2 (Z.leb_gt KERNBASE 0)) by klia. change (PGROUNDUP 0) with 0. apply wp_bind.
  assert (Hn : KERNBASE <= 0 + Z.of_nat (Z.to_nat (KERNBASE / PGSIZE + 1)) * PGSIZE).
  { rewrite Z2Nat.id by (vm_compute; discriminate). vm_compute. discriminate. }
  revert Hn. generalize (Z.to_nat (KERNBASE / PGSIZE + 1)). intros n Hn.
  wp_use (dealloc_sparse d n s l 0 U Hu Hdec Hp); [|done|lia|done|].
  { intros va Hva HUv. split; [lia|]. by apply HU. }
  intros _ s1 (freed & Hi1 & [D1 M1 F1 R1]). apply wp_ret.
  assert (Hdir : forall i, 0 <= i < 1024 -> tab (mm s1) d i = tab (mm s) d i /\ (present (mm s1) d i <-> present (mm s) d i)).
  { intros i Hi. pose proof (D1 i Hi). split; [by apply tab_word|by apply present_word]. }
  apply wp_bind. wp_use (freevm_loop_spec d (Z.to_nat NPDENTRIES) s1 (freed ++ l) 0).
  - apply Hi1.
  - done.
  - apply Hi1.
  - lia.
  - done.
  - intros j Hj Hpj. change (0 + Z.of_nat (Z.to_nat NPDENTRIES)) with 1024 in Hj.
    destruct (pd_tabs _ _ (pt_wf _ _ _ Hi1) j Hj Hpj). split_and!; [done|done|]. by apply (pt_tabs _ _ _ Hi1).
  - change (0 + Z.of_nat (Z.to_nat NPDENTRIES)) with 1024. intros j k Hj Hk. by apply (pd_inj _ _ (pt_wf _ _ _ Hi1)).
  - change (0 + Z.of_nat (Z.to_nat NPDENTRIES)) with 1024. intros _ s2 (tabs & Hwf2 & Hdt & Htabs & F2 & R2).
    wp_use (kfree_spec s2 d _ Hwf2 Hd). { intros [?|?]%elem_of_app; [done|]. by apply (pt_dir _ _ _ Hi1). }
    intros _ s3 [-> Hwf3]. exists (d :: tabs ++ freed).
    assert (Ett : forall q, q ∈ tabs <-> is_table (mm s) d q).
    { intros q. rewrite Htabs. split; intros (j & Hj & Hpj & ->); exists j; destruct (Hdir j Hj) as [E1 E2]; rewrite ?E1, ?E2 in *; auto. }
    split; [by rewrite <- app_comm_cons, <- app_assoc|]. split; [|split].
    + intros q. unfold foot. rewrite elem_of_cons, elem_of_app, Ett, M1. tauto.
    + apply (frame_trans _ _ (mm s1)); [|apply (frame_trans _ _ (mm s2))].
      * eapply frame_mono; [exact F1|]. intros q _ Hq. rewrite elem_of_cons, elem_of_app, Ett. tauto.
      * eapply frame_mono; [exact F2|]. intros q _ Hq. rewrite elem_of_cons, elem_of_app. tauto.
      * intros q Hqa Hqn. apply kfree_mem_other; [done|done|]. intros ->. apply Hqn. by left.
    + cbn. destruct R1 as (<- & <- & <-), R2 as (<- & <- & <-). done.
Qed.

(** ** Taking the shared pages out *)

Section Unlink.
Variables (s0 : mstate) (l : list Z) (A : list (Z * Z)) (dz szz : Z).
Hypothesis Hc : cow s0 l ((dz, szz) :: A).

Let m0 := mm s0.
Let tb := tab m0 dz 0.

(** Only the zombie's page table changes; its entries are [ws]. *)
Definition z_ok (ws : Z -> Z) (m : mem) : Prop :=
  frame (fun q => q = tb) m0 m /\ forall j, 0 <= j < 1024 -> word m tb j = ws j.

(** The entries of a process's page table. *)
Definition entries (d : Z) (j : Z) : Z := word m0 (tab m0 d 0) j.

(** The loop over the pages from [i] on, against the table [wq]. *)
Definition cut (wq : Z -> Z) (i : Z) (ws : Z -> Z) (j : Z) : Z :=
  if (i <=? PGSIZE * j) && (PGSIZE * j <? szz) && (ws j =? wq j) then 0 else ws j.

Lemma z_in : (dz, szz) ∈ (dz, szz) :: A.
Proof. by left. Qed.

Lemma z_wf : pd_wf m0 dz /\ present m0 dz 0.
Proof. split; [apply (uv_inv _ _ _ _ (cw_uvm _ _ _ Hc dz szz z_in))|by apply (cow_table0 s0 l _ dz szz Hc z_in)]. Qed.

Lemma z_foot : foot m0 dz tb.
Proof. right. exists 0. split; [lia|]. split; [apply z_wf|done]. Qed.

Lemma other_facts dp szp : (dp, szp) ∈ A -> dp <> dz /\ pd_wf m0 dp /\ present m0 dp 0 /\ dp <> tb /\ tab m0 dp 0 <> tb.
Proof.
  intros Hd. assert (Hd' : (dp, szp) ∈ (dz, szz) :: A) by (by right).
  assert (Hne : dz <> dp).
  { intros ->. pose proof (cw_nodup _ _ _ Hc) as Hn. cbn in Hn. apply NoDup_cons in Hn as [Hn _]. apply Hn.
    apply list_elem_of_fmap. by exists (dp, szp). }
  pose proof (cow_table0 s0 l _ dp szp Hc Hd') as Hp. split_and!; [congruence|apply (uv_inv _ _ _ _ (cw_uvm _ _ _ Hc dp szp Hd'))|done| |].
  - intros E. destruct (cw_sep _ _ _ Hc dz szz dp szp tb z_in Hd' Hne z_foot) as [Hf _]. apply Hf. by left.
  - intros E. destruct (cw_sep _ _ _ Hc dz szz dp szp tb z_in Hd' Hne z_foot) as [Hf _]. apply Hf. right. exists 0. split; [lia|done].
Qed.

Lemma z_read ws m dp szp : z_ok ws m -> (dp, szp) ∈ A ->
  (forall i, 0 <= i < 1024 -> word m dz i = word m0 dz i) /\ (forall i, 0 <= i < 1024 -> word m dp i = word m0 dp i) /\
  (forall j, 0 <= j < 1024 -> word m (tab m0 dp 0) j = entries dp j).
Proof.
  intros [F _] Hd. destruct (other_facts dp szp Hd) as (_ & Hwf & _ & H1 & H2). destruct z_wf as [Hzw Hzp]. split_and!; intros i Hi.
  - eapply frame_word; [exact F|apply Hzw| |done]. intros E. by apply (proj2 (pd_tabs _ _ Hzw 0 ltac:(lia) Hzp)).
  - eapply frame_word; [exact F|apply Hwf|done|done].
  - eapply frame_word; [exact F|apply tab_aligned|done|done].
Qed.

Lemma cut_step wq i ws j : aligned i -> 0 <= i < szz ->
  cut wq (i + PGSIZE) (fun j => if (j =? i / PGSIZE) && (ws j =? wq j) then 0 else ws j) j = cut wq i ws j.
Proof.
  intros Ha Hi. unfold cut. assert (Ei : i = PGSIZE * (i / PGSIZE)) by (unfold aligned, PGSIZE in *; Z.div_mod_to_equations; lia).
  destruct (Z.eqb_spec j (i / PGSIZE)) as [->|Hne]; cbn [andb].
  - rewrite <- Ei. rewrite (proj2 (Z.leb_le i i)), (proj2 (Z.ltb_lt i szz)), (proj2 (Z.leb_gt (i + PGSIZE) i)) by (unfold PGSIZE; lia).
    done.
  - assert (Hle : (i + PGSIZE <=? PGSIZE * j) = (i <=? PGSIZE * j)) by (unfold PGSIZE in *; lia). by rewrite Hle.
Qed.

(** One page. *)
Lemma unlink_step dp szp i ws m fuel : (dp, szp) ∈ A -> z_ok ws m -> 0 <= i < szz -> exists m',
  unlink_pages dp dz i szz (S fuel) (set_mm m s0) = unlink_pages dp dz (i + PGSIZE) szz fuel (set_mm m' s0) /\
  z_ok (fun j => if (j =? i / PGSIZE) && (ws j =? entries dp j) then 0 else ws j) m'.
Proof.
  intros Hd Hz Hi. pose proof (cw_size _ _ _ Hc dz szz z_in) as Hsz. destruct z_wf as [Hzw Hzp].
  destruct (other_facts dp szp Hd) as (Hne & Hwf & Hpp & H1 & H2). destruct (z_read ws m dp szp Hz Hd) as (Rz & Rp & Re).
  pose proof (page_ok_high _ (pd_page _ _ Hzw)) as Hhz. pose proof (page_ok_high _ (pd_page _ _ Hwf)) as Hhp.
  pose proof (page_ok_high _ (proj1 (pd_tabs _ _ Hzw 0 ltac:(lia) Hzp))) as Htz. fold tb in Htz.
  pose proof (page_ok_high _ (proj1 (pd_tabs _ _ Hwf 0 ltac:(lia) Hpp))) as Htp.
  pose proof (small_PDX i ltac:(lia)) as Ex. pose proof (PTX_range i) as Hx.
  assert (Ei : PTX i = i / PGSIZE). { rewrite PTX_eq. unfold PGSIZE in *. Z.div_mod_to_equations. lia. }
  assert (Wp : word m dp 0 = word m0 dp 0) by (apply Rp; lia). assert (Wz : word m dz 0 = word m0 dz 0) by (apply Rz; lia).
  unfold present in Hpp, Hzp.
  assert (E1 : wpgdir dp i false (set_mm m s0) = Ok (tab m0 dp 0 + 4 * PTX i) (set_mm m s0)).
  { unfold wpgdir. rewrite walkpgdir_noalloc by done. cbn [mm set_mm]. by rewrite Ex, (tab_word _ _ _ _ Wp), Wp, Hpp. }
  assert (E2 : wpgdir dz i false (set_mm m s0) = Ok (tb + 4 * PTX i) (set_mm m s0)).
  { unfold wpgdir. rewrite walkpgdir_noalloc by done. cbn [mm set_mm]. by rewrite Ex, (tab_word _ _ _ _ Wz), Wz, Hzp. }
  cbn [unlink_pages]. rewrite (proj2 (Z.ltb_lt i szz)) by lia.
  rewrite (bind_Ok _ _ _ _ _ E1), (bind_Ok _ _ _ _ _ E2), (bind_Ok _ _ _ _ _ (ldv_high (tab m0 dp 0 + 4 * PTX i) (set_mm m s0) ltac:(lia))),
    (bind_Ok _ _ _ _ _ (ldv_high (tb + 4 * PTX i) (set_mm m s0) ltac:(lia))).
  cbn [mm set_mm]. fold (word m (tab m0 dp 0) (PTX i)) (word m tb (PTX i)). destruct Hz as [F Ww]. rewrite Re, Ww by done.
  rewrite Z.eqb_sym. destruct (Z.eqb_spec (ws (PTX i)) (entries dp (PTX i))) as [Eq|Eq].
  - exists (wr32 m (tb + 4 * PTX i) 0). split; [|split].
    + erewrite bind_Ok; [reflexivity|]. unfold when. rewrite Ex, Z.mul_0_r, !Z.add_0_r.
      rewrite (bind_Ok _ _ _ _ _ (ldv_high _ _ Hhz)), (bind_Ok _ _ _ _ _ (ldv_high _ _ Hhp)). cbn [mm set_mm].
      replace (rd32 m dz) with (word m dz 0) by (unfold word; f_equal; lia). replace (rd32 m dp) with (word m dp 0) by (unfold word; f_equal; lia).
      rewrite (proj2 (Z.eqb_neq (word m dp 0) (word m dz 0))), andb_false_r by (rewrite Wp, Wz; intros E; apply H2; unfold tb, tab; by rewrite E).
      by rewrite stv_high by lia.
    + eapply frame_trans; [exact F|]. apply frame_wr32; [apply tab_aligned|done].
    + intros j Hj. rewrite word_wr32 by (done || apply tab_aligned). rewrite Z.eqb_refl, Ww by done. cbn [andb]. rewrite (Z.eqb_sym (PTX i)), Ei.
      destruct (Z.eqb_spec j (i / PGSIZE)) as [->|]; [|done]. rewrite <- Ei, Eq, Z.eqb_refl. done.
  - exists m. split; [|split; [done|]].
    + by erewrite bind_Ok; [|reflexivity].
    + intros j Hj. rewrite Ww by done. destruct (Z.eqb_spec j (i / PGSIZE)) as [->|]; [|done]. cbn [andb]. rewrite <- Ei.
      by rewrite (proj2 (Z.eqb_neq _ _)).
Qed.

Lemma unlink_pages_spec dp szp fuel : (dp, szp) ∈ A -> forall i ws m,
  z_ok ws m -> aligned i -> 0 <= i -> szz <= i + Z.of_nat fuel * PGSIZE ->
  wp (unlink_pages dp dz i szz fuel) (set_mm m s0) (fun _ s' => exists m', s' = set_mm m' s0 /\ z_ok (cut (entries dp) i ws) m').
Proof.
  intros Hd. induction fuel as [|fuel IH]; intros i ws m Hz Ha Hi0 Hf; (destruct (Z.ltb_spec i szz) as [Hlt|Hge]; [try lia|]).
  1, 3: (cbn [unlink_pages]; rewrite (proj2 (Z.ltb_ge i szz)) by lia; apply wp_ret; exists m; split; [done|]; split; [apply Hz|];
    intros j Hj; rewrite (proj2 Hz) by done; unfold cut; destruct (Z.leb_spec i (PGSIZE * j)); [|done];
    rewrite (proj2 (Z.ltb_ge (PGSIZE * j) szz)) by lia; done).
  destruct (unlink_step dp szp i ws m fuel Hd Hz ltac:(lia)) as (m' & E & Hz'). unfold wp. rewrite E.
  eapply wp_mono; [apply (IH (i + PGSIZE) _ m' Hz')|]; [unfold aligned, PGSIZE in *; Z.div_mod_to_equations; lia|unfold PGSIZE; lia|unfold PGSIZE in *; lia|].
  intros _ s' (m2 & -> & [F2 W2]). exists m2. split; [done|]. split; [done|]. intros j Hj. rewrite W2 by done. by apply cut_step.
Qed.

(** Entries that some of the processes with the directories [S] share are gone. *)
Definition unlinked (S : Z -> Prop) (ws : Z -> Z) : Prop := forall j, 0 <= j < 1024 ->
  let hit := PGSIZE * j < szz /\ exists dp, S dp /\ entries dp j = entries dz j in
  (ws j = entries dz j /\ ~ hit) \/ (ws j = 0 /\ hit).

Lemma unlinked_cut S ws dp : unlinked S ws -> unlinked (fun d => S d \/ d = dp) (cut (entries dp) 0 ws).
Proof.
  intros Hu j Hj. cbv zeta. unfold cut. rewrite (proj2 (Z.leb_le 0 (PGSIZE * j))) by (unfold PGSIZE; lia). cbn [andb].
  destruct (Hu j Hj) as [[-> Hn]|[-> [Hr (d & Hd & Ed)]]].
  - destruct (Z.ltb_spec (PGSIZE * j) szz) as [Hlt|Hge]; [|left; split; [done|]; intros [? _]; lia]. cbn [andb].
    destruct (Z.eqb_spec (entries dz j) (entries dp j)) as [Eq|Eq].
    + right. split; [done|]. split; [done|]. exists dp. split; [by right|done].
    + left. split; [done|]. intros [_ (d & [Hd| ->] & Ed)]; [|congruence]. apply Hn. split; [done|]. by exists d.
  - right. split; [by destruct (_ && _)|]. split; [done|]. exists d. split; [by left|done].
Qed.

Lemma unlinked_ext (S S' : Z -> Prop) ws : (forall d, S d <-> S' d) -> unlinked S ws -> unlinked S' ws.
Proof.
  intros HS Hu j Hj. cbv zeta. destruct (Hu j Hj) as [[E Hn]|[E [Hr (d & Hd & Ed)]]]; [left|right]; split; try done.
  - intros [Hr (d & Hd & Ed)]. apply Hn. split; [done|]. exists d. by rewrite HS.
  - split; [done|]. exists d. by rewrite <- HS.
Qed.

(** The zombie's address space afterwards: what it shares is out of it, the rest is unchanged. *)
Section Unlinked.
Variables (m : mem) (ws : Z -> Z).
Hypothesis Hz : z_ok ws m.
Hypothesis Hu : unlinked (fun d => d ∈ A.*1) ws.

Let s1 := set_mm m s0.

Lemma z_dir i : 0 <= i < 1024 -> word m dz i = word m0 dz i.
Proof.
  intros Hi. destruct z_wf as [Hzw Hzp]. eapply frame_word; [apply Hz|apply Hzw| |done].
  intros E. by apply (proj2 (pd_tabs _ _ Hzw 0 ltac:(lia) Hzp)).
Qed.

Lemma z_mapped va e : 0 <= va < KERNBASE -> mapping m0 dz va = Some e ->
  va < 2 ^ 22 /\ 0 <= PTX va < 1024 /\ PGSIZE * PTX va < szz /\ entries dz (PTX va) = e /\
  mapping m dz va = (if has (ws (PTX va)) PTE_P then Some (ws (PTX va)) else None).
Proof.
  intros Hva E. destruct (cow_small _ _ _ _ _ _ _ Hc z_in Hva E) as [Hs Hx]. pose proof (PTX_range va) as Hr.
  destruct (cow_mapped _ _ _ _ _ _ _ Hc z_in Hva E) as [Hlt _]. destruct (mapping_Some _ _ _ _ E) as (Hp & Hw & He).
  pose proof (cw_size _ _ _ Hc dz szz z_in) as Hsz. destruct (image_bounds szz Hsz) as (Hal & Hb & _).
  assert (Ei : PTX va = va / PGSIZE). { rewrite PTX_eq. unfold PGSIZE in *. Z.div_mod_to_equations. lia. }
  split_and!; [done|lia|lia| | |].
  - rewrite Ei. unfold aligned, PGSIZE in *. Z.div_mod_to_equations. lia.
  - unfold entries. by rewrite <- Hx.
  - unfold mapping. rewrite Hx, (tab_word _ _ _ _ (z_dir 0 ltac:(lia))), (z_dir 0) by lia. unfold present in Hp. rewrite Hx in Hp. fold m0. rewrite Hp.
    fold tb. by rewrite (proj2 Hz) by done.
Qed.

(** Whether another process has the same frame is whether it has the same entry. *)
Lemma shared_entry va e : 0 <= va < KERNBASE -> mapping m0 dz va = Some e ->
  (exists dp, dp ∈ A.*1 /\ entries dp (PTX va) = entries dz (PTX va)) <-> exists dp szp, (dp, szp) ∈ A /\ ufoot m0 dp (frame_of e).
Proof.
  intros Hva E. destruct (z_mapped va e Hva E) as (Hs & Hr & _ & Ee & _). destruct (mapping_Some _ _ _ _ E) as (_ & _ & He).
  pose proof (small_PDX va ltac:(lia)) as Hx. split.
  - intros (dp & ([d szp] & -> & Hd)%list_elem_of_fmap & Eq). cbn in *. exists d, szp. split; [done|]. exists va, e. split; [done|]. split; [|done].
    destruct (other_facts d szp Hd) as (_ & _ & Hp & _). unfold mapping. rewrite Hx. unfold present in Hp. rewrite Hp.
    fold (entries d (PTX va)). by rewrite Eq, Ee, He.
  - intros (dp & szp & Hd & (x & ex & Hxr & Ex & Ef)). exists dp. split; [apply list_elem_of_fmap; by exists (dp, szp)|].
    destruct (other_facts dp szp Hd) as (Hne & _). assert (Hd' : (dp, szp) ∈ (dz, szz) :: A) by (by right).
    destruct (cw_share _ _ _ Hc dz szz dp szp va x e ex z_in Hd' ltac:(congruence) Hva Hxr E Ex Ef) as (Epg & -> & _).
    fold m0 in Ex. rewrite (mapping_page m0 dp x va) in Ex by (done || klia). destruct (mapping_Some _ _ _ _ Ex) as (_ & Hw & _).
    rewrite Ee. unfold entries. by rewrite <- Hx.
Qed.

Lemma z_after va : 0 <= va < KERNBASE -> forall e, mapping m dz va = Some e <->
  mapping m0 dz va = Some e /\ forall dp szp, (dp, szp) ∈ A -> ~ ufoot m0 dp (frame_of e).
Proof.
  intros Hva e. destruct (mapping m0 dz va) as [e0|] eqn:E0.
  - destruct (z_mapped va e0 Hva E0) as (_ & Hr & Hin & Ee & ->). destruct (mapping_Some _ _ _ _ E0) as (_ & _ & He).
    pose proof (shared_entry va e0 Hva E0) as Hsh. destruct (Hu (PTX va) Hr) as [[-> Hn]|[-> [_ Hh]]].
    + rewrite Ee, He. split; [intros [= <-]; split; [done|]|by intros [? _]].
      intros dp szp Hd Hf. apply Hn. split; [done|]. apply Hsh. eauto.
    + split; [done|]. intros [[= <-] Hno]. apply Hsh in Hh as (dp & szp & Hd & Hf). by destruct (Hno dp szp Hd).
  - split; [|by intros [? _]]. intros E. exfalso. destruct (mapping_Some _ _ _ _ E) as (Hp & Hw & He).
    destruct (decide (PDX va = 0)) as [Hx|Hx].
    + destruct z_wf as [_ Hzp]. unfold mapping in E0. rewrite Hx in E0. unfold present in Hzp. fold m0 in E0. rewrite Hzp in E0.
      rewrite Hx, (tab_word _ _ _ _ (z_dir 0 ltac:(lia))) in Hw. fold tb in Hw, E0. rewrite (proj2 Hz) in Hw by apply PTX_range.
      destruct (Hu (PTX va) (PTX_range va)) as [[Ew _]|[Ew _]]; rewrite Ew in Hw; [|subst e; done].
      unfold entries in Hw. fold tb in Hw. rewrite Hw, He in E0. done.
    + pose proof (PDX_range va) as Hr. apply (cw_one _ _ _ Hc dz szz (PDX va) z_in).
      * rewrite PDX_eq in *. unfold KERNBASE in *. Z.div_mod_to_equations. lia.
      * by apply (present_word _ _ _ _ (z_dir (PDX va) Hr)).
Qed.

Lemma z_free : free_wf s1 l.
Proof.
  pose proof (cw_free _ _ _ Hc) as Hf. apply (free_wf_ext s0); [done|done|apply Hf|]. intros q Hq%list_elem_of_In.
  pose proof (fw_pages _ _ Hf) as Hpg. rewrite Forall_forall in Hpg. apply Hz; [apply Hpg, Hq|]. intros ->.
  by destruct (cow_foot_free _ _ _ _ _ _ Hc z_in z_foot).
Qed.

Lemma z_uvm : uvm s1 dz l (fun va => mapping m dz va <> None).
Proof.
  pose proof (cw_uvm _ _ _ Hc dz szz z_in) as [[Hf Hwf Hd Ht] Hs Hn Hi]. destruct z_wf as [_ Hzp]. split.
  - split; [apply z_free| |done|].
    + eapply pd_wf_frame; [apply Hz| |done]. intros E. by apply (proj2 (pd_tabs _ _ Hwf 0 ltac:(lia) Hzp)).
    + intros i Hr Hp. change (mm s1) with m in *. rewrite (tab_word _ _ _ _ (z_dir i Hr)). apply (present_word _ _ _ _ (z_dir i Hr)) in Hp. by apply Ht.
  - intros va Hva HU. change (mm s1) with m. destruct (mapping m dz va) as [e|] eqn:E; [|done]. exists e. split; [done|].
    apply z_after in E as [E _]; [|done]. destruct (cow_mapped _ _ _ _ _ _ _ Hc z_in Hva E) as [_ (P1 & P2 & P3 & P4)].
    split_and!; try done. intros (i & Hr & Hp & Ei). apply P4. exists i. fold m0. rewrite <- (tab_word _ _ _ _ (z_dir i Hr)).
    by apply (present_word _ _ _ _ (z_dir i Hr)) in Hp.
  - intros va Hva HU. change (mm s1) with m. destruct (mapping m dz va); [|done]. exfalso. by apply HU.
  - intros va va' e e' Hva Hva' E E'. change (mm s1) with m in *. apply z_after in E as [E _]; [|done]. apply z_after in E' as [E' _]; [|done]. by apply Hi.
Qed.

Lemma cow_rest : cow s0 l A.
Proof.
  assert (Hin : forall d sz, (d, sz) ∈ A -> (d, sz) ∈ (dz, szz) :: A) by (intros; by right).
  destruct Hc as [C1 C2 C3 C4 C5 C6 C7]. cbn in C5. apply NoDup_cons in C5 as [_ C5]. split; eauto.
Qed.

Lemma z_ufoot q : ufoot m dz q <-> ufoot m0 dz q /\ forall dp szp, (dp, szp) ∈ A -> ~ ufoot m0 dp q.
Proof.
  split.
  - intros (va & e & Hva & E & ->). apply z_after in E as [E Hno]; [|done]. split; [by exists va, e|done].
  - intros [(va & e & Hva & E & ->) Hno]. exists va, e. split; [done|]. split; [|done]. by apply z_after.
Qed.

(** The pages that nobody else uses go to the free list, and nobody notices. *)
Lemma z_freevm : wp (freevm dz) s1 (fun _ s' => exists given, cow s' (given ++ l) A /\ same_views A s0 s' /\
  forall q, q ∈ given <-> foot m0 dz q \/ (ufoot m0 dz q /\ forall dp szp, (dp, szp) ∈ A -> ~ ufoot m0 dp q)).
Proof.
  wp_use (freevm_sparse s1 dz l _ z_uvm).
  - intros va. destruct (mapping m dz va); [by left|right]. auto.
  - apply (present_word _ _ _ _ (z_dir 0 ltac:(lia))). apply z_wf.
  - intros va Hva HU. destruct (mapping m dz va) as [e|] eqn:E; [|done]. apply z_after in E as [E _]; [|done].
    by destruct (cow_small _ _ _ _ _ _ _ Hc z_in Hva E).
  - intros _ s' (given & Hf & Hg & F & R1 & R2 & R3). exists given.
    assert (Hg' : forall q, q ∈ given <-> foot m0 dz q \/ (ufoot m0 dz q /\ forall dp szp, (dp, szp) ∈ A -> ~ ufoot m0 dp q)).
    { intros q. rewrite Hg. change (mm s1) with m. by rewrite (foot_change _ _ _ z_dir), z_ufoot. }
    destruct (cow_move_views (fun q => q = tb \/ q ∈ given) s0 s' l (given ++ l) A cow_rest) as (C & V & _); try done.
    + eapply frame_trans; (eapply frame_mono; [|]); [apply Hz|by left|exact F|by right].
    + intros d sz q Hd Hq. assert (Hd' : (d, sz) ∈ (dz, szz) :: A) by (by right). destruct (other_facts d sz Hd) as (Hne & _).
      assert (Hng : q ∉ given).
      { intros [Hq'|[Hq' Hno]]%Hg'.
        - destruct (cw_sep _ _ _ Hc dz szz d sz q z_in Hd' ltac:(congruence) Hq'). tauto.
        - destruct Hq as [Hq|Hq]; [|by apply (Hno d sz)]. by destruct (cw_sep _ _ _ Hc d sz dz szz q Hd' z_in Hne Hq). }
      split; [|intros [->|?]; [|done]].
      * intros [?|Hql]%elem_of_app; [done|]. by apply (cow_off_list s0 l l A cow_rest ltac:(done) d sz q).
      * destruct (cw_sep _ _ _ Hc dz szz d sz tb z_in Hd' ltac:(congruence) z_foot). tauto.
Qed.
End Unlinked.
End Unlink.

(** ** The loop over the processes *)

Section Processes.
Variables (k : kstate) (l : list Z) (A : list (Z * Z)) (n z : nat) (pz : proc).
Let dz := p_pgdir pz.
Let szz := p_sz pz.
Hypothesis Hc : cow (ms k) l ((dz, szz) :: A).
Hypothesis Hlen : length (procs k) = 64%nat.
Hypothesis Hz : procs k !! z = Some pz.
Hypothesis Hpid : forall i q, procs k !! i = Some q -> (i < n)%nat -> p_pid q <> 0.
Hypothesis Hnone : forall i q, procs k !! i = Some q -> (n <= i)%nat -> p_pid q = 0.
Hypothesis HA : forall i q, procs k !! i = Some q -> (i < n)%nat -> i <> z -> (p_pgdir q, p_sz q) ∈ A.

(** The directories of the slots below [i] that the loop has looked at. *)
Definition seen (i : nat) (d : Z) : Prop :=
  exists j q, procs k !! j = Some q /\ (j < i)%nat /\ (j < n)%nat /\ j <> z /\ d = p_pgdir q.

Lemma seen_same i : (forall q, procs k !! i = Some q -> ~ ((i < n)%nat /\ i <> z)) -> forall d, seen i d <-> seen (S i) d.
Proof.
  intros Hi d. split; intros (j & q & Hq & Hj & Hn & Hjz & ->).
  - exists j, q. split_and!; [done|lia|done|done|done].
  - exists j, q. split_and!; try done. assert (j <> i); [|lia]. intros ->. by apply (Hi q Hq).
Qed.

Lemma seen_next i q : procs k !! i = Some q -> (i < n)%nat -> i <> z -> forall d, (seen i d \/ d = p_pgdir q) <-> seen (S i) d.
Proof.
  intros Hq Hn Hi d. split.
  - intros [(j & r & Hr & Hj & Hjn & Hjz & ->)| ->]; [exists j, r|exists i, q]; split_and!; try done; lia.
  - intros (j & r & Hr & Hj & Hjn & Hjz & ->). destruct (decide (j = i)) as [->|]; [right; congruence|left].
    exists j, r. split_and!; try done. lia.
Qed.

Lemma unlink_loop_spec c : forall i ws m, (i + c = 64)%nat ->
  z_ok (ms k) dz ws m -> unlinked (ms k) dz szz (seen i) ws ->
  wp (unlink_loop z i c) (ks_ms (set_mm m (ms k)) k) (fun _ k' => exists m' ws',
    k' = ks_ms (set_mm m' (ms k)) k /\ z_ok (ms k) dz ws' m' /\ unlinked (ms k) dz szz (seen 64) ws').
Proof.
  induction c as [|c IH]; intros i ws m Hic Hzo Hu; cbn [unlink_loop].
  { apply wp_ret. exists m, ws. split_and!; [done|done|]. by replace 64%nat with i by lia. }
  destruct (lookup_lt_is_Some_2 (procs k) i) as [q Hq]; [lia|]. apply wp_bind, (wp_pget i q); [done|].
  destruct (Nat.le_gt_cases n i) as [Hge|Hlt].
  { rewrite (Hnone i q Hq Hge). cbn [Z.eqb]. apply wp_ret. exists m, ws. split_and!; [done|done|].
    eapply unlinked_ext; [|exact Hu]. intros d. split; intros (j & r & Hr & Hj & Hjn & Hjz & ->); exists j, r; split_and!; try done; lia. }
  rewrite (proj2 (Z.eqb_neq _ 0)) by (by apply (Hpid i)). apply wp_bind, wp_when. destruct (Nat.eqb_spec i z) as [->|Hne]; cbn [negb].
  - apply (IH (S z) ws m); [lia|done|]. eapply unlinked_ext; [|exact Hu]. apply seen_same. intros r _ [_ ?]. done.
  - apply wp_bind, (wp_pget z pz); [done|]. apply wp_liftM. cbn [ms ks_ms].
    pose proof (HA i q Hq Hlt Hne) as Hin. pose proof (cw_size _ _ _ Hc dz szz ltac:(by left)) as Hsz. fold dz szz.
    wp_use (unlink_pages_spec (ms k) l A dz szz Hc (p_pgdir q) (p_sz q) (Z.to_nat (szz / PGSIZE + 1)) Hin 0 ws m Hzo); [done|lia| |].
    { rewrite Z2Nat.id by (unfold PGSIZE in *; Z.div_mod_to_equations; lia). unfold PGSIZE in *. Z.div_mod_to_equations. lia. }
    intros _ s' (m' & -> & Hzo'). replace (ks_ms (set_mm m' (ms k)) (ks_ms (set_mm m (ms k)) k)) with (ks_ms (set_mm m' (ms k)) k) by done.
    apply (IH (S i) (cut szz (entries (ms k) (p_pgdir q)) 0 ws) m'); [lia|exact Hzo'|]. eapply unlinked_ext; [apply (seen_next i q Hq Hlt Hne)|]. by apply unlinked_cut.
Qed.

Lemma unlink_spec : (forall d, d ∈ A.*1 -> seen 64 d) ->
  wp (unlinkzombiesharedmemory z) k (fun _ k' => exists m ws,
    k' = ks_ms (set_mm m (ms k)) k /\ z_ok (ms k) dz ws m /\ unlinked (ms k) dz szz (fun d => d ∈ A.*1) ws).
Proof.
  intros Hall. assert (Ek : ks_ms (set_mm (mm (ms k)) (ms k)) k = k) by (destruct k as [[] ]; done).
  assert (W : wp (unlink_loop z 0 64) (ks_ms (set_mm (mm (ms k)) (ms k)) k) (fun _ k' => exists m' ws',
    k' = ks_ms (set_mm m' (ms k)) k /\ z_ok (ms k) dz ws' m' /\ unlinked (ms k) dz szz (seen 64) ws')).
  { apply (unlink_loop_spec 64 0 (entries (ms k) dz)); [done| |].
    - split; [apply frame_refl|done].
    - intros j Hj. left. split; [done|]. intros [_ (d & (j' & _ & _ & Hj' & _) & _)]. lia. }
  rewrite Ek in W. wp_use W. intros _ k' (m & ws & -> & Hzo & Hu). exists m, ws. split_and!; [done|done|].
  eapply unlinked_ext; [|exact Hu]. intros d. split; [|apply Hall]. intros (j & q & Hq & Hj & Hn & Hjz & ->).
  apply list_elem_of_fmap. exists (p_pgdir q, p_sz q). split; [done|]. by apply (HA j).
Qed.
End Processes.

(** ** Reaping a child *)

(** A kernel whose processes fill the slots below [n], none of them unused,
    and of which slot [z] is about to be given back.  By [cow] every image fits
    the first page table, which is 4 MB; for larger ones see [unlink_null]. *)
Record dying (k : kstate) (l : list Z) (n z : nat) (pz : proc) : Prop := {
  dy_len : length (procs k) = 64%nat;
  dy_z : procs k !! z = Some pz /\ (z < n)%nat;
  dy_pid : forall i q, procs k !! i = Some q -> (i < n)%nat -> p_pid q <> 0;
  dy_none : forall i q, procs k !! i = Some q -> (n <= i)%nat -> p_pid q = 0;
  dy_cow : cow (ms k) l (spaces k n);
  dy_stack : page_ok (p_kstack pz) /\ p_kstack pz ∉ l;
  dy_apart : forall d sz, (d, sz) ∈ spaces k n ->
    ~ foot (mm (ms k)) d (p_kstack pz) /\ ~ ufoot (mm (ms k)) d (p_kstack pz);
}.

(** The address spaces of the processes that stay. *)
Definition others (k : kstate) (n z : nat) : list (Z * Z) := space <$> delete z (take n (procs k)).

(** The slot after [wait] has given its process back. *)
Definition reaped (p : proc) : proc :=
  ps_killed false (ps_name (<[0%nat := x00]> (p_name p)) (ps_parent None (ps_pid 0 (ps_state UNUSED (ps_kstack 0 p))))).

Lemma same_views_sub A B s s' : A ⊆ B -> same_views B s s' -> same_views A s s'.
Proof. intros HS [V1 V2 V3 V4]. split; [| | |done]; intros d sz x Hd%HS; [by apply (V1 d sz)|by apply (V2 d sz)|by apply (V3 d sz)]. Qed.

Section Reap.
Variables (k : kstate) (l : list Z) (n z : nat) (pz : proc).
Hypothesis Hd : dying k l n z pz.
Let dz := p_pgdir pz.

Lemma spaces_split : spaces k n ≡ₚ space pz :: others k n z.
Proof.
  unfold spaces, others. rewrite <- fmap_cons. apply fmap_Permutation, delete_Permutation.
  destruct (dy_z _ _ _ _ _ Hd) as [Hz Hn]. by rewrite lookup_take_lt by done.
Qed.

Lemma others_in j q : procs k !! j = Some q -> (j < n)%nat -> j <> z -> (p_pgdir q, p_sz q) ∈ others k n z.
Proof.
  intros Hq Hj Hne. apply list_elem_of_fmap. exists q. split; [done|].
  destruct (decide (j < z)%nat).
  - apply (list_elem_of_lookup_2 _ j). rewrite list_lookup_delete_lt by done. by rewrite lookup_take_lt.
  - apply (list_elem_of_lookup_2 _ (j - 1)%nat). rewrite list_lookup_delete_ge by lia.
    replace (S (j - 1))%nat with j by lia. by rewrite lookup_take_lt.
Qed.

Lemma others_inv d : d ∈ (others k n z).*1 -> exists j q, procs k !! j = Some q /\ (j < n)%nat /\ j <> z /\ d = p_pgdir q.
Proof.
  intros ([d' sz] & -> & (q & [= -> ->] & [j Hj]%list_elem_of_lookup_1)%list_elem_of_fmap)%list_elem_of_fmap. cbn [fst].
  destruct (decide (j < z)%nat).
  - rewrite list_lookup_delete_lt in Hj by done. apply lookup_take_Some in Hj as [Hj ?]. exists j, q. split_and!; try done; lia.
  - rewrite list_lookup_delete_ge in Hj by lia. apply lookup_take_Some in Hj as [Hj ?]. exists (S j), q. split_and!; try done; lia.
Qed.

(** The kernel stack goes first. *)
Lemma stack_spec : wp (kfree (p_kstack pz)) (ms k) (fun _ s1 =>
  cow s1 (p_kstack pz :: l) (space pz :: others k n z) /\ same_views (space pz :: others k n z) (ms k) s1 /\
  forall d sz q, (d, sz) ∈ space pz :: others k n z ->
    (foot (mm s1) d q <-> foot (mm (ms k)) d q) /\ (ufoot (mm s1) d q <-> ufoot (mm (ms k)) d q)).
Proof.
  pose proof (cow_perm _ _ _ _ spaces_split (dy_cow _ _ _ _ _ Hd)) as Hc. destruct (dy_stack _ _ _ _ _ Hd) as [Hok Hl].
  wp_use (kfree_spec (ms k) (p_kstack pz) l (cw_free _ _ _ Hc) Hok Hl). intros _ s1 [Es Hf].
  assert (F : frame (fun q => q = p_kstack pz) (mm (ms k)) (mm s1)).
  { rewrite Es. intros q Hq Hne. by apply kfree_mem_other. }
  destruct (cow_move_views _ _ s1 l (p_kstack pz :: l) _ Hc F Hf) as (C & V & M); try (by rewrite Es).
  - intros d sz q Hin Hq. assert (q <> p_kstack pz).
    { intros ->. rewrite <- spaces_split in Hin. destruct (dy_apart _ _ _ _ _ Hd d sz Hin). tauto. }
    split; [|done]. apply not_elem_of_cons. split; [done|]. by apply (cow_off_list _ l l _ Hc ltac:(done) d sz).
  - split; [exact C|split; [exact V|]]. intros d sz q Hin. split.
    + apply foot_change. intros i Hi. by apply (sv_word _ _ _ V d sz).
    + apply ufoot_change. intros va. by apply (M d sz).
Qed.

Lemma wp_pupd_z (k0 : kstate) f x Q : procs k0 = <[z := x]> (procs k) ->
  Q tt (ks_procs (<[z := f x]> (procs k)) k0) -> wp (pupd z f) k0 Q.
Proof.
  intros E HQ. unfold pupd. apply wp_modify. rewrite E. destruct (dy_z _ _ _ _ _ Hd) as [Hz _].
  assert (Eq : alter f z (<[z := x]> (procs k)) = <[z := f x]> (procs k)); [|by rewrite Eq].
  apply list_eq. intros i. destruct (decide (i = z)) as [->|Hne].
  - pose proof (lookup_lt_Some _ _ _ Hz). rewrite list_lookup_alter_eq, !list_lookup_insert_eq by done. done.
  - by rewrite list_lookup_alter_ne, !list_lookup_insert_ne by done.
Qed.

(** The pages that only the zombie uses. *)
Definition only_z (q : Z) : Prop :=
  foot (mm (ms k)) dz q \/
  (ufoot (mm (ms k)) dz q /\ forall dp szp, (dp, szp) ∈ others k n z -> ~ ufoot (mm (ms k)) dp q).

Lemma unlink_at s1 : cow s1 (p_kstack pz :: l) (space pz :: others k n z) ->
  let k1 := ks_procs (<[z := ps_kstack 0 pz]> (procs k)) (ks_ms s1 k) in
  wp (unlinkzombiesharedmemory z) k1 (fun _ k' => exists m ws, k' = ks_ms (set_mm m s1) k1 /\
    z_ok s1 dz ws m /\ unlinked s1 dz (p_sz pz) (fun d => d ∈ (others k n z).*1) ws).
Proof.
  intros Hc k1. destruct (dy_z _ _ _ _ _ Hd) as [Hz Hn]. pose proof (dy_len _ _ _ _ _ Hd) as Hlen.
  pose proof (lookup_lt_Some _ _ _ Hz) as Hzl. assert (Hz1 : procs k1 !! z = Some (ps_kstack 0 pz)) by (cbn; apply list_lookup_insert_eq; lia).
  assert (L : forall i q, procs k1 !! i = Some q -> exists q0, procs k !! i = Some q0 /\ p_pid q = p_pid q0 /\ p_pgdir q = p_pgdir q0 /\ p_sz q = p_sz q0).
  { intros i q. cbn. destruct (decide (i = z)) as [->|Hne]; [|rewrite list_lookup_insert_ne by done; eauto].
    rewrite list_lookup_insert_eq by lia. intros [= <-]. exists pz. done. }
  apply (unlink_spec k1 (p_kstack pz :: l) (others k n z) n z (ps_kstack 0 pz)); [exact Hc| |done| | | |].
  - cbn. by rewrite length_insert.
  - intros i q (q0 & Hq & -> & _)%L Hi. by apply (dy_pid _ _ _ _ _ Hd i).
  - intros i q (q0 & Hq & -> & _)%L Hi. by apply (dy_none _ _ _ _ _ Hd i).
  - intros i q (q0 & Hq & _ & -> & ->)%L Hi Hne. by apply (others_in i).
  - intros d (j & q & Hq & Hj & Hne & ->)%others_inv. exists j, q. cbn. rewrite list_lookup_insert_ne by done.
    split_and!; try done. apply lookup_lt_Some in Hq. lia.
Qed.

Lemma reap_spec : holding LkPtable k = true ->
  wp (reap z) k (fun r k' => r = p_pid pz /\ exists s' given,
    k' = set_lock LkPtable false (ks_procs (<[z := reaped pz]> (procs k)) (ks_ms s' k)) /\
    cow s' (given ++ p_kstack pz :: l) (others k n z) /\ same_views (others k n z) (ms k) s' /\
    forall q, q ∈ given <-> only_z q).
Proof.
  intros Hl. destruct (dy_z _ _ _ _ _ Hd) as [Hz Hn]. unfold reap. apply wp_bind, (wp_pget z pz); [done|].
  apply wp_bind, wp_liftM. wp_use stack_spec. intros _ s1 (C1 & V1 & F1).
  apply wp_bind, (wp_pupd_z _ _ pz); [cbn; by rewrite list_insert_id|]. cbn [ms ks_ms].
  apply wp_bind. wp_use (unlink_at s1 C1). intros _ k2 (m & ws & -> & Hzo & Hu).
  apply wp_bind, (wp_pget z (ps_kstack 0 pz)); [cbn; apply list_lookup_insert_eq; by eapply lookup_lt_Some|].
  apply wp_bind, wp_liftM. cbn [ms ks_ms p_pgdir ps_kstack]. wp_use (z_freevm s1 _ _ _ _ C1 m ws Hzo Hu).
  intros _ s' (given & C & V & G).
  do 5 (apply wp_bind; eapply wp_pupd_z; [reflexivity|]).
  apply wp_bind, wp_release; [done|]. apply wp_ret. split; [done|]. exists s', given. split_and!; try done.
  - eapply same_views_trans; [|exact V]. eapply same_views_sub; [|exact V1]. by right.
  - intros q. rewrite G. unfold only_z, dz. destruct (F1 (p_pgdir pz) (p_sz pz) q ltac:(by left)) as [E1 E2]. rewrite E1, E2.
    apply or_iff_compat_l, and_iff_compat_l. split; intros Hq dp szp Hdp; destruct (F1 dp szp q ltac:(by right)) as [_ E]; [rewrite <- E|rewrite E]; by apply (Hq dp szp).
Qed.

(** [wait] comes to slot [z] first. *)
Definition first_zombie (me : nat) : Prop :=
  p_parent pz = Some me /\ p_state pz = ZOMBIE /\
  forall i q, procs k !! i = Some q -> (i < z)%nat -> ~ (p_parent q = Some me /\ p_state q = ZOMBIE).

Lemma wait_scan_spec me c : forall i h, (i + c = 64)%nat -> (i <= z)%nat -> first_zombie me -> holding LkPtable k = true ->
  wait_scan me h i c k = bind (reap z) (fun pid => ret (Reaped pid)) k.
Proof.
  induction c as [|c IH]; intros i h Hc Hi Hf Hl; destruct (dy_z _ _ _ _ _ Hd) as [Hz _];
    pose proof (lookup_lt_Some _ _ _ Hz) as Hzl; rewrite (dy_len _ _ _ _ _ Hd) in Hzl; [lia|].
  cbn [wait_scan]. destruct (decide (i = z)) as [->|Hne].
  - unfold pget. rewrite (bind_Ok _ _ _ pz k) by (unfold bind, gets; cbn [obind]; by rewrite Hz).
    destruct Hf as (Hp & Hs & _). by rewrite !bool_decide_eq_true_2 by done.
  - destruct (lookup_lt_is_Some_2 (procs k) i) as [q Hq]; [rewrite (dy_len _ _ _ _ _ Hd); lia|].
    unfold pget. rewrite (bind_Ok _ _ _ q k) by (unfold bind, gets; cbn [obind]; by rewrite Hq).
    pose proof Hf as (Hp & Hs & Hno). specialize (Hno i q Hq ltac:(lia)).
    destruct (bool_decide_reflect (p_parent q = Some me)); cbn [negb]; [|apply IH; (done || lia)].
    rewrite (bool_decide_eq_false_2 (p_state q = ZOMBIE)) by naive_solver. apply IH; (done || lia).
Qed.

End Reap.

Lemma wait_spec `{Wakeups} k l n z pz me pm : dying k l n z pz -> first_zombie k z pz me -> cur k = Some me -> procs k !! me = Some pm ->
  pt_lock k = false ->
  wp wait k (fun r k' => r = p_pid pz /\ exists s' given,
    k' = ks_procs (<[z := reaped pz]> (procs k)) (ks_ms s' k) /\
    cow s' (given ++ p_kstack pz :: l) (others k n z) /\ same_views (others k n z) (ms k) s' /\
    forall q, q ∈ given <-> only_z k n z pz q).
Proof.
  intros Hd Hf Hcur Hme Hl. unfold wait. apply wp_bind, (wp_myproc me); [done|]. apply wp_bind, wp_acquire; [done|].
  set (k1 := set_lock LkPtable true k). assert (Hd1 : dying k1 l n z pz) by (by destruct Hd).
  assert (Hme' : exists q, <[z := reaped pz]> (procs k) !! me = Some q).
  { apply lookup_lt_is_Some_2. rewrite length_insert. by eapply lookup_lt_Some. }
  destruct Hme' as [q Hq].
  assert (W : wp (wait_scan me false 0 (Z.to_nat NPROC)) k1 (fun r k' => r = Reaped (p_pid pz) /\ exists s' given,
    k' = ks_procs (<[z := reaped pz]> (procs k)) (ks_ms s' k) /\
    cow s' (given ++ p_kstack pz :: l) (others k n z) /\ same_views (others k n z) (ms k) s' /\
    forall q, q ∈ given <-> only_z k n z pz q)).
  { unfold wp. change (Z.to_nat NPROC) with 64%nat. rewrite (wait_scan_spec k1 l n z pz Hd1 me 64 0 false) by (done || lia).
    apply (wp_bind (reap z)). wp_use (reap_spec k1 l n z pz Hd1 eq_refl). intros pid k' [-> (s' & given & -> & C & V & G)].
    apply wp_ret. split; [done|]. exists s', given. split_and!; try done. unfold k1. destruct k; cbn in *. by rewrite Hl. }
  destruct wakeups as [|w]; cbn [wait_loop]; apply wp_bind; wp_use W; intros r k' [-> (s' & given & -> & R)];
    apply wp_bind, (wp_pget me q); try done; apply wp_ret; eauto.
Qed.

(** Above 4 MB [unlinkzombiesharedmemory] may find that neither process has a table for the
    page.  It then compares what the null pointer points to with itself and stores a zero
    there: the first word of the address space in use, that of the process in [wait]. *)
Theorem unlink_null s dp dz i sz a fuel :
  0 <= i < sz -> KERNBASE <= dp -> KERNBASE <= dz ->
  has (word (mm s) dp (PDX i)) PTE_P = false -> word (mm s) dz (PDX i) = 0 ->
  translate (mm s) (p2v (cr3 s)) 0 false = Some a -> translate (mm s) (p2v (cr3 s)) 0 true = Some a ->
  unlink_pages dp dz i sz (S fuel) s = unlink_pages dp dz (i + PGSIZE) sz fuel (set_mm (wr32 (mm s) a 0) s).
Proof.
  intros Hi Hdp Hdz Hp Hz Hr Hw. pose proof (PDX_range i) as Hx. cbn [unlink_pages]. rewrite (proj2 (Z.ltb_lt _ _)) by lia.
  assert (Hl : ldv 0 s = Ok (rd32 (mm s) a) s) by (unfold ldv; by rewrite Hr).
  assert (Wp : wpgdir dp i false s = Ok 0 s) by (unfold wpgdir; rewrite walkpgdir_noalloc by done; by rewrite Hp).
  assert (Wz : wpgdir dz i false s = Ok 0 s) by (unfold wpgdir; rewrite walkpgdir_noalloc by done; by rewrite Hz).
  rewrite (bind_Ok _ _ _ _ _ Wp), (bind_Ok _ _ _ _ _ Wz), (bind_Ok _ _ _ _ _ Hl), (bind_Ok _ _ _ _ _ Hl), Z.eqb_refl.
  unfold when. rewrite (bind_Ok _ _ _ tt (set_mm (wr32 (mm s) a 0) s)); [done|].
  rewrite (bind_Ok _ _ _ _ _ (ldv_high (dz + 4 * PDX i) s ltac:(lia))), (bind_Ok _ _ _ _ _ (ldv_high (dp + 4 * PDX i) s ltac:(lia))).
  fold (word (mm s) dz (PDX i)). rewrite Hz. cbn [Z.eqb negb andb]. unfold stv. by rewrite Hw.
Qed.
End CowExit.
