(* ===== verification/ForkFacts.v ===== *)
(** * fork as a whole

    The effect of [fork] on a process table in which the used slots are a
    prefix: the new process is in the first unused slot, has the parent's
    registers, open files and directory, and an address space that shares the
    parent's memory copy-on-write, or is a copy of it when the parent is called
    "init" or "sh". *)

From S2P Require Import Prelude Layout Mem Kalloc Vm VmFacts UvmFacts UvmAlloc State Sched Cow.
From S2P Require Import CowFacts CowFault CowFork Bytes Bio Log Inode Console Fs Pipe.
From S2P Require Import File Proc.

Open Scope Z_scope.

(** ** Names *)

Lemma strncmp_list_cstring n : forall p q, strncmp_list n p q = strncmp_list n (cstring p) q.
Proof.
  induction n as [|n IH]; intros p q; [done|]. cbn [strncmp_list].
  destruct p as [|a p]; [done|]. cbn [cstring hd tl].
  case_bool_decide as Ha; [subst; done|]. cbn [hd tl].
  rewrite (bool_decide_eq_false_2 (a = x00)) by done. cbn [negb andb].
  case_bool_decide; [apply IH|done].
Qed.

Lemma strncmp_list_take n m : forall p q,
  (n <= m)%nat -> strncmp_list n (take m p) q = strncmp_list n p q.
Proof.
  revert m. induction n as [|n IH]; intros m p q Hm; [done|]. destruct m as [|m]; [lia|].
  destruct p as [|a p]; [done|]. cbn [strncmp_list take hd tl].
  case_bool_decide; [done|]. cbn [negb andb]. case_bool_decide; [apply IH; lia|done].
Qed.

Lemma cstring_nul l : x00 ∉ cstring l.
Proof.
  induction l as [|b l IH]; cbn; [apply not_elem_of_nil|].
  case_bool_decide; [apply not_elem_of_nil|]. apply not_elem_of_cons. by split.
Qed.

Lemma safestrcpy_list_string dst src :
  x00 ∉ src -> (0 < length dst)%nat ->
  cstring (safestrcpy_list dst src) = take (length dst - 1) src /\
  length (safestrcpy_list dst src) = length dst.
Proof.
  intros Hn Hd. unfold safestrcpy_list. rewrite (proj2 (Nat.eqb_neq _ 0)) by lia.
  destruct (Nat.ltb_spec (length src) (length dst - 1)) as [Hlt|Hge].
  - change (src ++ [x00; x00] ++ ?r) with (src ++ x00 :: x00 :: r). split.
    + rewrite cstring_app by done. by rewrite take_ge by lia.
    + rewrite length_app. cbn [length]. rewrite length_drop. lia.
  - split.
    + apply cstring_app. intros Hx. apply Hn.
      apply elem_of_take in Hx as (i & Hx & _). by eapply list_elem_of_lookup_2.
    + rewrite length_app, length_take. cbn. lia.
Qed.

(** A child's name decides like its parent's. *)
Lemma private_memory_child dst name :
  length dst = 16%nat ->
  private_memory (safestrcpy_list dst (cstring name)) = private_memory name.
Proof.
  intros Hd. unfold private_memory.
  destruct (safestrcpy_list_string dst (cstring name) (cstring_nul name)) as [E _]; [lia|].
  rewrite !(strncmp_list_cstring 2 (safestrcpy_list _ _)), E.
  rewrite !strncmp_list_take by lia. by rewrite <- !strncmp_list_cstring.
Qed.

(** ** Open files *)

Definition ref_up (x : file) : file := fs_ref (f_ref x + 1) x.

(** The file table after the descriptors [ofs] were duplicated. *)
Fixpoint dupped (ofs : list (option nat)) (fl : list file) : list file :=
  match ofs with
  | [] => fl
  | Some f :: ofs => dupped ofs (alter ref_up f fl)
  | None :: ofs => dupped ofs fl
  end.

(** The references [ofs] are to open files, and [n] more fit the count. *)
Definition refs_ok (ofs : list (option nat)) (fl : list file) (n : Z) : Prop :=
  forall f, Some f ∈ ofs -> exists x, fl !! f = Some x /\ 1 <= f_ref x /\ f_ref x + n < 2 ^ 31.

Lemma wp_filedup f x k Q :
  ft_lock k = false -> files k !! f = Some x -> 1 <= f_ref x < 2 ^ 31 - 1 ->
  Q f (ks_files (alter ref_up f (files k)) k) -> wp (filedup f) k Q.
Proof.
  intros Hl E Hr HQ. unfold filedup. apply wp_bind, wp_acquire; [done|].
  apply wp_bind. unfold fileget. apply wp_bind, wp_gets.
  change (files (set_lock LkFtable true k)) with (files k). rewrite E. apply wp_ret.
  rewrite (proj2 (Z.ltb_ge _ 1)) by lia. apply wp_bind, wp_modify. apply wp_bind, wp_release; [done|].
  apply wp_ret. rewrite s32_small by lia.
  replace (set_lock LkFtable false _) with (ks_files (alter ref_up f (files k)) k); [done|].
  destruct k. cbn in *. subst. unfold ks_files, set_lock, ks_ft_lock. cbn. f_equal.
  apply list_eq. intros i. destruct (decide (i = f)) as [->|Hne].
  - rewrite !list_lookup_alter_eq, E. done.
  - by rewrite !list_lookup_alter_ne.
Qed.

Lemma refs_ok_tail o ofs fl n :
  refs_ok (o :: ofs) fl (n + 1) ->
  refs_ok ofs (match o with Some f => alter ref_up f fl | None => fl end) n.
Proof.
  intros Hr f Hf. destruct (Hr f ltac:(by right)) as (x & E & H1 & H2).
  destruct o as [g|]; [|exists x; split_and!; (done || lia)].
  destruct (decide (g = f)) as [->|Hne].
  - exists (ref_up x). rewrite list_lookup_alter_eq, E. cbn. split_and!; [done|lia|lia].
  - exists x. rewrite list_lookup_alter_ne by done. split_and!; (done || lia).
Qed.

Lemma dup_files_spec me np p ofs : forall rest i k q,
  me <> np -> procs k !! me = Some p -> procs k !! np = Some q -> ft_lock k = false ->
  p_ofile p = ofs -> ofs = take i ofs ++ rest -> length ofs = (i + length rest)%nat ->
  p_ofile q = take i ofs ++ replicate (length rest) None ->
  refs_ok rest (files k) (Z.of_nat (length rest)) ->
  wp (dup_files me np i (length rest)) k (fun _ k' =>
    k' = ks_files (dupped rest (files k)) (ks_procs (alter (ps_ofile ofs) np (procs k)) k)).
Proof.
  induction rest as [|o rest IH]; intros i k q Hne Hp Hq Hl Ho Ht Hlen Hqo Hr; cbn [length dup_files].
  { apply wp_ret. rewrite app_nil_r in *. rewrite <- Ht in Hqo.
    destruct k. cbn in *. unfold ks_files, ks_procs. cbn. f_equal.
    apply list_eq. intros j. destruct (decide (j = np)) as [->|Hj].
    + rewrite list_lookup_alter_eq, Hq. cbn. f_equal. destruct q. cbn in *. by subst.
    + by rewrite list_lookup_alter_ne. }
  cbn [length] in *. apply wp_bind, (wp_pget me p); [done|].
  assert (Eo : ofs !! i = Some o).
  { rewrite Ht, lookup_app_r by (rewrite length_take; lia).
    rewrite length_take_le by lia. by rewrite Nat.sub_diag. }
  assert (Et : take (S i) ofs = take i ofs ++ [o]) by (by apply take_S_r).
  assert (Ht' : ofs = take (S i) ofs ++ rest) by (rewrite Et, <- app_assoc; exact Ht).
  assert (Hi : length (take i ofs) = i) by (rewrite length_take; lia).
  rewrite Ho, Eo. apply wp_bind, wp_ret. apply wp_bind. destruct o as [f|].
  - destruct (Hr f ltac:(by left)) as (x & Ef & Hx1 & Hx2).
    apply wp_bind, (wp_filedup f x); [done|done|lia|]. apply wp_modify.
    wp_use (IH (S i) _ (ps_ofile (<[i:=Some f]> (p_ofile q)) q)); try done.
    + cbn. by rewrite list_lookup_alter_ne.
    + cbn. by rewrite list_lookup_alter_eq, Hq.
    + lia.
    + cbn. rewrite Hqo, Et, <- app_assoc. cbn. by rewrite insert_app_r_alt, Hi, Nat.sub_diag by lia.
    + apply (refs_ok_tail (Some f)). by rewrite Nat2Z.inj_succ in Hr.
    + intros [] k' ->. cbn. rewrite alter_fuse. done.
  - apply wp_ret.
    apply (wp_mono _ _ _ _ (IH (S i) k q Hne Hp Hq Hl Ho Ht' ltac:(lia)
      ltac:(rewrite Hqo, Et, <- app_assoc; done)
      ltac:(apply (refs_ok_tail None); by rewrite Nat2Z.inj_succ in Hr))).
    done.
Qed.

(** ** The rest of fork *)

Definition iref_up (x : inode) : inode := is_ref (s32 (i_ref x + 1)) x.

(** The child: [p] is the parent, in slot [me], and [q] the slot as
    [allocproc] and the copy of the address space left it. *)
Definition born (p : proc) (me c : nat) (q : proc) : proc :=
  Proc (p_sz p) (p_pgdir q) (p_kstack q) RUNNABLE (p_pid q) (Some me) (tf_set_eax 0 (p_tf p))
    (p_context q) (p_chan q) (p_killed q) (p_ofile p) (Some c)
    (safestrcpy_list (p_name q) (cstring (p_name p))).

Lemma wp_idup c k Q :
  ic_lock k = false -> Q c (ks_inodes (alter iref_up c (inodes k)) k) -> wp (idup c) k Q.
Proof.
  intros Hl HQ. unfold idup. apply wp_bind, wp_acquire; [done|]. apply wp_bind, wp_modify.
  apply wp_bind, wp_release; [done|]. apply wp_ret.
  replace (set_lock LkIcache false _) with (ks_inodes (alter iref_up c (inodes k)) k); [done|].
  destruct k. cbn in Hl. by subst.
Qed.

Section Fork.
Context `{KernelImage} `{!KernelImageOk} `{Wakeups}.

Lemma fork_finish_spec me np p q c k :
  me <> np -> procs k !! me = Some p -> procs k !! np = Some q ->
  ft_lock k = false -> ic_lock k = false -> p_cwd p = Some c ->
  length (p_ofile p) = 16%nat -> p_ofile q = replicate 16 None ->
  refs_ok (p_ofile p) (files k) 16 ->
  wp (fork_finish me np) k (fun r k' => r = p_pid q /\
    k' = ks_inodes (alter iref_up c (inodes k)) (ks_files (dupped (p_ofile p) (files k))
           (ks_procs (alter (born p me c) np (procs k)) k))).
Proof.
  intros Hne Hp Hq Hft Hic Hc Hlen Hqo Hr. unfold fork_finish.
  apply wp_bind, (wp_pget me p); [done|].
  do 4 (apply wp_bind, wp_modify). cbn [procs ks_procs].
  change (ks_procs ?f (ks_procs ?g ?x)) with (ks_procs f x). rewrite !alter_fuse.
  match goal with |- context [alter ?f np (procs k)] => set (F := f) end.
  apply wp_bind.
  pose proof (dup_files_spec me np p (p_ofile p) (p_ofile p) 0
    (ks_procs (alter F np (procs k)) k) (F q)) as W. rewrite Hlen in W.
  wp_use W; try done.
  { cbn. by rewrite list_lookup_alter_ne. }
  { cbn. by rewrite list_lookup_alter_eq, Hq. }
  intros [] k1 ->. apply wp_bind. unfold deref, from_option_wild. rewrite Hc. apply wp_ret.
  apply wp_bind, wp_idup; [done|]. apply wp_bind, wp_modify. cbn [procs ks_procs ks_files ks_inodes].
  set (ps' := alter (ps_cwd (Some c)) np _).
  apply wp_bind, (wp_pget np (ps_cwd (Some c) (ps_ofile (p_ofile p) (F q)))).
  { cbn. unfold ps'. by rewrite !list_lookup_alter_eq, Hq. }
  apply wp_bind, wp_modify, wp_bind, wp_modify, wp_ret. split; [done|].
  cbn. unfold ps'. rewrite !alter_fuse. done.
Qed.

(** The first unused slot of a table whose used slots are a prefix. *)
Lemma prefix_slot k l n me p i :
  cow_k k l n me p -> first_slot (fun p => p_state p = UNUSED) (procs k) i -> i = n.
Proof.
  intros Hk [(q & Hq & Hu) Hlow].
  destruct (Nat.lt_trichotomy i n) as [Hlt|[->|Hgt]]; [|done|]; exfalso.
  - destruct (ck_live _ _ _ _ _ Hk i q Hq Hlt) as [_ Hs]. rewrite Hu in Hs. naive_solver.
  - destruct (lookup_lt_is_Some_2 (procs k) n) as [q' Hq'].
    { apply lookup_lt_Some in Hq. lia. }
    apply (Hlow n q' Hq' Hgt). by apply (ck_unused _ _ _ _ _ Hk n q').
Qed.

(** Taking a page off the free list. *)
Lemma cow_pop s f l A :
  cow s (f :: l) A -> cow (set_freelist (rd32 (mm s) f) s) l A /\
  same_views A s (set_freelist (rd32 (mm s) f) s).
Proof.
  intros Hc. destruct (cow_alloc s f l A (mm s) Hc) as (C & V & _); [by intros q _ _ o _|].
  by destruct s.
Qed.

(** What [fork] needs besides memory: a free slot and valid open files. *)
Record fork_able (k : kstate) (n : nat) (p : proc) : Prop := {
  fa_locks : pt_lock k = false /\ ft_lock k = false /\ ic_lock k = false;
  fa_files : length (p_ofile p) = 16%nat /\ refs_ok (p_ofile p) (files k) 16;
  fa_cwd : exists c, p_cwd p = Some c;
  fa_slot : (n < 64)%nat /\ forall q, procs k !! n = Some q -> p_ofile q = replicate 16 None;
  fa_pid : nextpid k <> 0
}.

(** The same for a process that is not called "init" or "sh". *)
Record fork_ready (k : kstate) (n : nat) (p : proc) : Prop := {
  fr_locks : pt_lock k = false /\ ft_lock k = false /\ ic_lock k = false;
  fr_name : private_memory (p_name p) = false;
  fr_files : length (p_ofile p) = 16%nat /\ refs_ok (p_ofile p) (files k) 16;
  fr_cwd : exists c, p_cwd p = Some c;
  fr_slot : (n < 64)%nat /\ forall q, procs k !! n = Some q -> p_ofile q = replicate 16 None;
  fr_pid : nextpid k <> 0
}.

Lemma fork_ready_able k n p : fork_ready k n p -> fork_able k n p.
Proof. by intros []. Qed.

(** The state after [fork]: the child's directory is [dn], its kernel stack
    [kst], and [s'] the memory. *)
Definition fork_state (k : kstate) (n me : nat) (p : proc) (c : nat) (dn kst : Z) (s' : mstate) :
    kstate :=
  ks_ms s' (ks_inodes (alter iref_up c (inodes k)) (ks_files (dupped (p_ofile p) (files k))
    (ks_nextpid (s32 (nextpid k + 1))
      (ks_procs (alter (fun q => born p me c (ps_pgdir dn (embryo (nextpid k) kst q))) n (procs k))
        k)))).

(** The pages that a fork of [p] may take, without the kernel stack. *)
Definition fork_pages (p : proc) : nat :=
  if private_memory (p_name p) then (65 + 2 * npages (p_sz p))%nat else 67%nat.

(** The address space of a child whose parent is not shared with: every page is a
    copy. *)
Section Copy.
Variables (s s' : mstate) (L l' : list Z) (A : list (Z * Z)) (d sz dn : Z).
Hypothesis Hc : cow s L A.
Hypothesis Hd : (d, sz) ∈ A.
Hypothesis Hci : copy_inv s d L dn s' l' (PGROUNDUP sz).

Lemma copy_others : cow s' l' A /\ same_views A s s' /\
  (forall d' sz' va, (d', sz') ∈ A -> mapping (mm s') d' va = mapping (mm s) d' va).
Proof.
  destruct (ci_sub _ _ _ _ _ _ _ Hci) as (_ & [pre EL] & _), (ci_regs _ _ _ _ _ _ _ Hci) as (R1 & R2 & R3).
  apply (cow_frame_views (fun q => q ∈ L) s s' L l' A Hc (ci_frame _ _ _ _ _ _ _ Hci)); try done.
  - apply (pt_free s' dn), (ci_inv _ _ _ _ _ _ _ Hci).
  - intros q Hq. rewrite EL. apply elem_of_app. by right.
  - by apply (cow_off_list s L L A Hc).
Qed.

(** What the child uses was free, and is used by no other process. *)
Lemma copy_foot q : foot (mm s') dn q \/ ufoot (mm s') dn q -> q ∈ L.
Proof.
  destruct (ci_sub _ _ _ _ _ _ _ Hci) as (Hdn & _ & Ht). intros [[->|Hq]|(va & e & Hva & E & ->)]; [done|by apply Ht|].
  destruct (Z.lt_ge_cases va (PGROUNDUP sz)) as [Hlt|Hge]; [|by rewrite (ci_none _ _ _ _ _ _ _ Hci) in E by lia].
  destruct (ci_copied _ _ _ _ _ _ _ Hci va ltac:(lia)) as (f & Hf & Ef & [Hp _] & _). rewrite E in Ef. injection Ef as ->.
  unfold frame_of. by destruct (upte_facts f Hp) as (_ & -> & _).
Qed.

Lemma copy_apart d' sz' q : (d', sz') ∈ A -> foot (mm s') d' q \/ ufoot (mm s') d' q -> q ∉ L.
Proof.
  intros Hd' Hq. destruct copy_others as (_ & V & M). apply (cow_off_list s L L A Hc ltac:(done) d' sz' q Hd').
  rewrite <- (foot_change _ _ d' (fun i => sv_word _ _ _ V d' sz' i Hd')). by rewrite <- (ufoot_change _ _ d' (fun va => M d' sz' va Hd')).
Qed.

Lemma copy_uvm : uvm s' dn l' (image sz).
Proof.
  split.
  - apply (ci_inv _ _ _ _ _ _ _ Hci).
  - intros va Hva Hlt. destruct (ci_copied _ _ _ _ _ _ _ Hci va ltac:(lia)) as (f & _ & E & Hp & _).
    exists (upte f). split; [done|]. unfold frame_of. by destruct (upte_facts f (proj1 Hp)) as (_ & -> & _).
  - intros va Hva Hge. apply (ci_none _ _ _ _ _ _ _ Hci). lia.
  - intros va va' e e' Hva Hva' E E' Ef. destruct (decide (va / PGSIZE = va' / PGSIZE)) as [|Hne]; [done|].
    assert (Hlt : forall x y, 0 <= x < KERNBASE -> mapping (mm s') dn x = Some y -> 0 <= x < PGROUNDUP sz).
    { intros x y Hx Ex. destruct (Z.lt_ge_cases x (PGROUNDUP sz)); [lia|]. by rewrite (ci_none _ _ _ _ _ _ _ Hci) in Ex by lia. }
    pose proof (Hlt va e Hva E) as Hlt1. pose proof (Hlt va' e' Hva' E') as Hlt2.
    destruct (ci_distinct _ _ _ _ _ _ _ Hci va va' Hlt1 Hlt2 Hne).
    destruct (ci_copied _ _ _ _ _ _ _ Hci va Hlt1) as (f & _ & Ef1 & [Hp1 _] & _).
    destruct (ci_copied _ _ _ _ _ _ _ Hci va' Hlt2) as (f' & _ & Ef2 & [Hp2 _] & _). rewrite Ef1 in E. rewrite Ef2 in E'.
    injection E as <-. injection E' as <-. unfold frame_of in Ef. destruct (upte_facts f Hp1) as (_ & E1 & _), (upte_facts f' Hp2) as (_ & E2 & _).
    congruence.
Qed.

Lemma copy_one i : 1 <= i < 512 -> ~ present (mm s') dn i.
Proof.
  intros Hi Hp. destruct (ci_dir _ _ _ _ _ _ _ Hci i ltac:(lia) Hp) as [(va & Hva & ->) _].
  destruct (image_bounds sz (cw_size _ _ _ Hc d sz Hd)) as (_ & _ & Hb). rewrite small_PDX in Hi; lia.
Qed.

Lemma cow_copy : cow s' l' ((dn, sz) :: A).
Proof.
  destruct copy_others as (C & _ & _). assert (Hdn : forall sz', (dn, sz') ∉ A).
  { intros sz' Hin. apply (copy_apart dn sz' dn Hin); [by left; left|]. apply copy_foot. by left; left. }
  split.
  - apply C.
  - intros d' sz' [[= -> ->]|Hd']%elem_of_cons; [apply copy_uvm|by apply (cw_uvm _ _ _ C)].
  - intros d' sz' [[= -> ->]|Hd']%elem_of_cons; [by apply (cw_size _ _ _ Hc d)|by apply (cw_size _ _ _ C d')].
  - intros d' sz' i [[= -> ->]|Hd']%elem_of_cons Hi; [by apply copy_one|by apply (cw_one _ _ _ C d' sz')].
  - cbn. apply NoDup_cons. split; [|apply C]. intros ([d' sz'] & E & Hd')%list_elem_of_fmap. cbn in E. subst d'. by apply (Hdn sz').
  - intros d1 sz1 d2 sz2 q [[= -> ->]|G1]%elem_of_cons [[= -> ->]|G2]%elem_of_cons Hne Hq; try done.
    + assert (Hl : q ∈ L) by (apply copy_foot; by left).
      split; intros Hq2; apply (copy_apart d2 sz2 q G2); auto.
    + assert (Hl : q ∉ L) by (apply (copy_apart d1 sz1 q G1); by left). split; intros Hq2; apply Hl, copy_foot; auto.
    + by apply (cw_sep _ _ _ C d1 sz1 d2 sz2).
  - assert (Hx : forall d2 sz2 va va' e e', (d2, sz2) ∈ A -> 0 <= va < KERNBASE -> 0 <= va' < KERNBASE ->
      mapping (mm s') dn va = Some e -> mapping (mm s') d2 va' = Some e' -> frame_of e <> frame_of e').
    { intros d2 sz2 va va' e e' G2 Hva Hva' E E' Ef. apply (copy_apart d2 sz2 (frame_of e') G2); [right; by exists va', e'|].
      rewrite <- Ef. apply copy_foot. right. by exists va, e. }
    intros d1 sz1 d2 sz2 va va' e e' [[= -> ->]|G1]%elem_of_cons [[= -> ->]|G2]%elem_of_cons Hne Hva Hva' E E' Ef; try done.
    + by destruct (Hx d2 sz2 va va' e e').
    + by destruct (Hx d1 sz1 va' va e' e).
    + by apply (cw_share _ _ _ C d1 sz1 d2 sz2 va va' e e').
Qed.

Lemma copy_reads va : 0 <= va < KERNBASE -> uread (mm s') dn va = uread (mm s) d va.
Proof.
  intros Hva. destruct (Z.lt_ge_cases va (PGROUNDUP sz)) as [Hlt|Hge].
  - by destruct (ci_copied _ _ _ _ _ _ _ Hci va ltac:(lia)) as (f & _ & _ & _ & ->).
  - unfold uread. rewrite (ci_none _ _ _ _ _ _ _ Hci) by lia. by rewrite (uv_none _ _ _ _ (cw_uvm _ _ _ Hc d sz Hd)) by lia.
Qed.

Lemma copy_uacc va : 0 <= va < KERNBASE -> uacc (mm s) d va -> uacc (mm s') dn va.
Proof.
  intros Hva (e & E & _). destruct (cow_mapped _ _ _ _ _ _ _ Hc Hd Hva E) as [Hlt _].
  destruct (ci_copied _ _ _ _ _ _ _ Hci va ltac:(lia)) as (f & _ & Ef & [Hp _] & _). exists (upte f). split; [done|].
  by destruct (upte_facts f Hp) as (_ & _ & _ & _ & _ & ->).
Qed.

Lemma copy_forked N : has (word (mm s) d 0) PTE_W = true -> (length L <= length l' + N)%nat ->
  forked N A d sz s L dn s' l'.
Proof.
  intros HW Hlen. destruct copy_others as (_ & V & _). split.
  - apply cow_copy.
  - by apply (same_views_but A d sz).
  - apply copy_reads.
  - apply copy_uacc.
  - rewrite (sv_word _ _ _ V d sz) by (done || lia). split; [done|].
    apply (ci_dir _ _ _ _ _ _ _ Hci 0 ltac:(lia)), (cow_table0 s' l' ((dn, sz) :: A) dn sz cow_copy). by left.
  - destruct (ci_sub _ _ _ _ _ _ _ Hci) as (_ & [pre EL] & _). exists pre. split; [done|]. rewrite EL, length_app in Hlen. lia.
Qed.
End Copy.

(** [copyuvm] as a fork. *)
Lemma copyuvm_fork s L A d sz :
  cow s L A -> (d, sz) ∈ A -> has (word (mm s) d 0) PTE_W = true -> (65 + 2 * npages sz <= length L)%nat ->
  wp (copyuvm d sz) s (fun dn s' => dn <> 0 /\ exists l', forked (65 + 2 * npages sz) A d sz s L dn s' l').
Proof.
  intros Hc Hd HW Hlen. pose proof (cw_uvm _ _ _ Hc d sz Hd) as Hu. pose proof (cw_size _ _ _ Hc d sz Hd) as Hs.
  destruct (image_bounds sz Hs) as (_ & Hb & _).
  wp_use (copyuvm_spec s d sz L (cw_free _ _ _ Hc)); [|done|].
  { destruct (uv_inv _ _ _ _ Hu) as [_ I2 I3 I4]. split; try done; [|klia]. intros va Hva.
    destruct (uv_some _ _ _ _ Hu va) as (e & E & (_ & Hn & _)); [klia|lia|]. by exists e. }
  intros dn s' (Hdn & l' & i & Hi & Ha & Hci & Hl). split; [done|]. exists l'.
  assert (i = PGROUNDUP sz) as ->.
  { rewrite PGROUNDUP_eq by klia. unfold aligned, PGSIZE in *. Z.div_mod_to_equations. lia. }
  by apply copy_forked.
Qed.

(** The end of [fork], common to both ways of making the child's memory [dn]. *)
Lemma fork_end k n me p q c dn kst s' :
  fork_able k n p -> (me < n)%nat -> procs k !! me = Some p -> procs k !! n = Some q -> p_cwd p = Some c ->
  wp (fork_finish me n) (ks_procs (alter (ps_pgdir dn) n (alter (embryo (nextpid k) kst) n (procs k)))
      (ks_ms s' (ks_nextpid (s32 (nextpid k + 1)) k)))
    (fun pid k' => pid = nextpid k /\ k' = fork_state k n me p c dn kst s').
Proof.
  intros [(L1 & L2 & L3) [Hol Hrf] _ [Hn Hsl] _] Hmn Hp Hq Hcwd.
  wp_use (fork_finish_spec me n p (ps_pgdir dn (embryo (nextpid k) kst q)) c); try done.
  - lia.
  - cbn. rewrite !list_lookup_alter_ne by lia. done.
  - cbn. by rewrite !list_lookup_alter_eq, Hq.
  - cbn. by apply Hsl.
  - intros r k3 [-> ->]. split; [done|]. cbn. by rewrite !alter_fuse.
Qed.

Lemma fork_run k l n me p :
  cow_k k l n me p -> fork_able k n p -> (S (fork_pages p) <= length l)%nat ->
  wp fork k (fun pid k' => pid = nextpid k /\ exists c dn kst s' l' l1 s1,
    p_cwd p = Some c /\ k' = fork_state k n me p c dn kst s' /\ l = kst :: l1 /\
    same_views (spaces k n) (ms k) s1 /\
    forked (fork_pages p) (spaces k n) (p_pgdir p) (p_sz p) s1 l1 dn s' l' /\
    (private_memory (p_name p) = false -> shares (p_pgdir p) dn (p_sz p) s')).
Proof.
  intros Hk Hab Hlen. pose proof Hab as [(L1 & _) _ [c Hcwd] [Hn _] _].
  destruct (ck_cur _ _ _ _ _ Hk) as (Hcur & Hmn & Hp). pose proof (ck_cow _ _ _ _ _ Hk) as Hc.
  destruct (lookup_lt_is_Some_2 (procs k) n) as [q Hq]; [rewrite (ck_len _ _ _ _ _ Hk); lia|].
  destruct (ck_unused _ _ _ _ _ Hk n q Hq ltac:(lia)) as [_ Hqu].
  unfold fork. apply wp_bind.
  wp_use (allocproc_spec k l (cw_free _ _ _ Hc) (ck_len _ _ _ _ _ Hk) L1).
  intros o k1 Ho. destruct o as [i|]; cbn [allocated] in Ho.
  2: { destruct Ho as [[Hall _]|[-> _]]; [|cbn in Hlen; lia].
       rewrite Forall_lookup in Hall. by destruct (Hall n q Hq). }
  destruct Ho as (kst & l1 & -> & Hfirst & Ek1 & Ems & _).
  pose proof (prefix_slot _ _ _ _ _ _ Hk Hfirst) as ->. cbn [length] in Hlen.
  destruct (cow_pop _ _ _ _ Hc) as [C1 V1]. rewrite <- Ems in C1, V1. clear Ems.
  set (s1 := ms k1) in *. clearbody s1. subst k1.
  apply wp_bind, (wp_myproc me); [done|]. apply wp_bind, (wp_pget me p).
  { cbn. rewrite list_lookup_alter_ne by lia. done. }
  pose proof (me_in k (kst :: l1) n me p Hk) as Hin.
  unfold fork_pages in *. destruct (private_memory (p_name p)) eqn:Hnm.
  - apply wp_bind, wp_liftM. wp_use (copyuvm_fork s1 l1 (spaces k n) (p_pgdir p) (p_sz p) C1 Hin); [|lia|].
    { rewrite (sv_word _ _ _ V1 _ _ _ Hin) by lia. by apply (ck_pde _ _ _ _ _ Hk _ _ Hin). }
    intros dn s' (Hdn & l' & F). apply wp_bind, wp_modify. rewrite (proj2 (Z.eqb_neq _ _) Hdn).
    wp_use (fork_end k n me p q c dn kst s'); try done. intros r k' [-> ->]. split; [done|].
    exists c, dn, kst, s', l', l1, s1. by split_and!.
  - apply wp_bind. wp_use (fork_cow_spec (ks_ms s1 _) l1 (spaces k n) (p_pgdir p) (p_sz p) me n p C1 Hin); try done.
    + lia.
    + cbn. destruct (sv_regs _ _ _ V1) as (_ & -> & _). apply (ck_cr3 _ _ _ _ _ Hk).
    + cbn. rewrite list_lookup_alter_ne by lia. done.
    + intros [] k2 (dn & s' & l' & -> & F & Fs).
      wp_use (fork_end k n me p q c dn kst s'); try done. intros r k' [-> ->]. split; [done|].
      exists c, dn, kst, s', l', l1, s1. by split_and!.
Qed.

Lemma fork_cow_run k l n me p :
  cow_k k l n me p -> fork_ready k n p -> (68 <= length l)%nat ->
  wp fork k (fun pid k' => pid = nextpid k /\ exists c dn kst s' l' l1 s1,
    p_cwd p = Some c /\ k' = fork_state k n me p c dn kst s' /\ l = kst :: l1 /\
    same_views (spaces k n) (ms k) s1 /\
    forked 67 (spaces k n) (p_pgdir p) (p_sz p) s1 l1 dn s' l' /\ shares (p_pgdir p) dn (p_sz p) s').
Proof.
  intros Hk Hr Hlen. pose proof (fr_name _ _ _ Hr) as Hnm.
  assert (E : fork_pages p = 67%nat) by (unfold fork_pages; by rewrite Hnm).
  wp_use (fork_run k l n me p Hk (fork_ready_able _ _ _ Hr)); [by rewrite E|].
  rewrite E. intros pid k' (-> & c & dn & kst & s' & l' & l1 & s1 & E1 & E2 & E3 & E4 & E5 & E6).
  split; [done|]. exists c, dn, kst, s', l', l1, s1. split_and!; auto.
Qed.

(** The address spaces of a table whose slot [n] was filled. *)
Lemma spaces_snoc k k' n f q :
  procs k' = alter f n (procs k) -> procs k !! n = Some q ->
  spaces k' (S n) = spaces k n ++ [space (f q)].
Proof.
  intros E Hq. unfold spaces. rewrite E, (take_S_r _ _ (f q)) by (by rewrite list_lookup_alter_eq, Hq).
  rewrite fmap_app, take_alter, decide_False by lia. done.
Qed.

Lemma fork_cow_k N k l n me p c dn kst s1 s' l1 l' :
  cow_k k l n me p -> (n < 64)%nat -> nextpid k <> 0 -> 
  same_views (spaces k n) (ms k) s1 ->
  forked N (spaces k n) (p_pgdir p) (p_sz p) s1 l1 dn s' l' ->
  cow_k (fork_state k n me p c dn kst s') l' (S n) me p.
Proof.
  intros Hk Hn Hpid V [F1 F2 _ _ F4 _]. pose proof (ck_len _ _ _ _ _ Hk) as Hlen.
  destruct (lookup_lt_is_Some_2 (procs k) n) as [q Hq]; [lia|].
  set (F := fun q => born p me c (ps_pgdir dn (embryo (nextpid k) kst q))).
  assert (Esp : spaces (fork_state k n me p c dn kst s') (S n) = spaces k n ++ [(dn, p_sz p)])
    by (by apply (spaces_snoc k _ n F q)).
  destruct (ck_cur _ _ _ _ _ Hk) as (Hcur & Hmn & Hp).
  pose proof (me_in k l n me p Hk) as Hin. split.
  - cbn. by rewrite length_alter.
  - intros i r. cbn. intros Hr Hi. destruct (decide (i = n)) as [->|Hne].
    + rewrite list_lookup_alter_eq, Hq in Hr. injection Hr as <-. split; [done|]. right; by left.
    + rewrite list_lookup_alter_ne in Hr by done. apply (ck_live _ _ _ _ _ Hk i r Hr). lia.
  - intros i r. cbn. intros Hr Hi. rewrite list_lookup_alter_ne in Hr by lia.
    apply (ck_unused _ _ _ _ _ Hk i r Hr). lia.
  - rewrite Esp. cbn. eapply cow_perm; [|exact F1]. by rewrite Permutation_app_comm.
  - rewrite Esp. cbn. intros d sz [Hd|[= -> ->]%list_elem_of_singleton]%elem_of_app; [|tauto].
    destruct (ck_pde _ _ _ _ _ Hk d sz Hd) as [KW KU]. destruct (decide (d = p_pgdir p)) as [->|Hne].
    + split; [tauto|]. destruct (sb_pde _ _ _ _ F2) as (_ & _ & ->).
      by rewrite (sv_word _ _ _ V _ _ _ Hd) by lia.
    + rewrite (sb_word _ _ _ _ F2 d sz) by (done || lia || naive_solver).
      by rewrite (sv_word _ _ _ V _ _ _ Hd) by lia.
  - cbn. split; [done|]. split; [lia|]. rewrite list_lookup_alter_ne by lia. done.
  - cbn. destruct (sb_regs _ _ _ _ F2) as (_ & -> & _). destruct (sv_regs _ _ _ V) as (_ & -> & _).
    apply (ck_cr3 _ _ _ _ _ Hk).
Qed.

End Fork.
