(* ===== verification/Refine.v ===== *)
(** * fork with copy-on-write refines fork with copying

    The abstract machine gives each process its own memory: [fork] copies the
    memory of the current process, a store changes the memory of the current
    process only.  Every run of the kernel's [fork], the page fault handler
    and the dispatcher is a run of the abstract machine. *)

From S2P Require Import Prelude Layout Mem Kalloc Vm VmFacts UvmFacts UvmAlloc State Sched Cow.
From S2P Require Import CowFacts CowFault CowFork Bytes Bio Log Inode Console Fs Pipe.
From S2P Require Import File Proc Exec Syscall Trap CowTrap ForkFacts.

Open Scope Z_scope.

(** ** The machines *)

Inductive op : Type :=
  | OFork                          (* the current process calls fork *)
  | OWrite (va : Z) (b : byte)     (* the current process stores a byte *)
  | ORun (i : nat).                (* the scheduler takes the CPU to process i *)

(** What a process reads at each address. *)
Abbreviation view := (Z -> option byte).

Record amach : Type := AMach { a_views : list view; a_cur : nat }.

Definition vset (va : Z) (b : byte) (v : view) : view := fun x => if x =? va then Some b else v x.

Definition astep (o : op) (m : amach) : amach :=
  match o with
  | OFork =>
      match a_views m !! a_cur m with
      | Some v => AMach (a_views m ++ [v]) (a_cur m)
      | None => m
      end
  | OWrite va b => AMach (alter (vset va b) (a_cur m) (a_views m)) (a_cur m)
  | ORun i => AMach (a_views m) i
  end.

Definition aruns (ops : list op) (m : amach) : amach := foldl (fun m o => astep o m) m ops.

Section Refine.
Context `{KernelImage} `{!KernelImageOk} `{Wakeups}.

(** The kernel: [yield] has made the current process runnable when the
    scheduler dispatches another one. *)
Definition kstep (o : op) : KM unit :=
  match o with
  | OFork => fork ;;; ret tt
  | OWrite va b => user_write va b
  | ORun i =>
      let! me := myproc in
      pupd me (ps_state RUNNABLE) ;;;
      dispatch i
  end.

Fixpoint kruns (ops : list op) : KM unit :=
  match ops with
  | [] => ret tt
  | o :: ops => kstep o ;;; kruns ops
  end.

(** ** The invariant *)

(** The state of the kernel with free pages [l], [n] processes, [me] running,
    every process with access to the addresses [U], and room for [N] more
    forks.  [cow_k] asks that every image fits the first page table, which is
    4 MB: a larger one is left without write permission by [fork] (see
    [large_image_stuck]).  Processes called "init" or "sh" are among the [n];
    their memory has at most [B] pages, which is what a fork of them copies. *)
Record minv (k : kstate) (l : list Z) (n me : nat) (p : proc) (U : Z -> Prop) (B N : nat) : Prop := {
  mi_cow : cow_k k l n me p;
  mi_slots : (n + N <= 64)%nat;
  mi_locks : pt_lock k = false /\ ft_lock k = false /\ ic_lock k = false;
  mi_procs : forall i q, procs k !! i = Some q -> (i < n)%nat ->
    (private_memory (p_name q) = true -> (npages (p_sz q) <= B)%nat) /\ length (p_name q) = 16%nat /\
    length (p_ofile q) = 16%nat /\ refs_ok (p_ofile q) (files k) (16 * Z.of_nat N) /\
    is_Some (p_cwd q) /\ p_killed q = false;
  mi_unused : forall i q, procs k !! i = Some q -> (n <= i)%nat ->
    p_ofile q = replicate 16 None /\ length (p_name q) = 16%nat /\ p_killed q = false;
  mi_pid : 0 < nextpid k /\ nextpid k + Z.of_nat N < 2 ^ 31;
  mi_user : forall i q va, procs k !! i = Some q -> (i < n)%nat -> U va ->
    0 <= va < KERNBASE -> uacc (mm (ms k)) (p_pgdir q) va /\ va <= p_sz q
}.

(** The abstract state of a kernel state. *)
Definition refines (k : kstate) (n me : nat) (m : amach) : Prop :=
  a_cur m = me /\ length (a_views m) = n /\
  forall i q v va, procs k !! i = Some q -> a_views m !! i = Some v -> 0 <= va < KERNBASE ->
    v va = uread (mm (ms k)) (p_pgdir q) va.

(** ** The store *)

Lemma uacc_mapping m d va : uacc m d va -> exists e, mapping m d va = Some e /\ has e PTE_U = true.
Proof. done. Qed.

Lemma refine_write k f l n me p U B N m va b :
  minv k (f :: l) n me p U B N -> refines k n me m -> U va -> 0 <= va < KERNBASE ->
  wp (user_write va b) k (fun _ k' => exists l' p', minv k' l' n me p' U B N /\
    refines k' n me (astep (OWrite va b) m) /\ (length l <= length l')%nat).
Proof.
  intros Hi Hr HU Hva. destruct Hi as [Mk Ms Ml Mp Mu Mn Ma].
  destruct (ck_cur _ _ _ _ _ Mk) as (Hcur & Hmn & Hp).
  destruct (Ma me p va Hp Hmn HU Hva) as [(e & He & HeU) Hsz].
  wp_use (user_write_spec k f l n me p va b e Mk); try done; [tauto|by apply (Mp me p Hp Hmn)|].
  intros [] k' (l' & s' & c & t & -> & Hk' & (S0 & S1 & S2 & S3) & Hl').
  exists l', (ps_tf t p). split; [|split].
  - split; try done; cbn [procs ks_ms ks_cr2].
    + intros i q Hq Hin. destruct (tfed_lookup me t k i q Hq) as (q0 & Hq0 & [->|[_ ->]]);
        by apply (Mp i q0).
    + intros i q Hq Hin. destruct (tfed_lookup me t k i q Hq) as (q0 & Hq0 & [->|[_ ->]]);
        by apply (Mu i q0).
    + intros i q x Hq Hin Hx Hxr.
      assert (Hq0 : exists q0, procs k !! i = Some q0 /\ p_pgdir q = p_pgdir q0 /\ p_sz q = p_sz q0).
      { destruct (tfed_lookup me t k i q Hq) as (q0 & Hq0 & [->|[_ ->]]); by exists q0. }
      destruct Hq0 as (q0 & Hq0 & -> & ->). destruct (Ma i q0 x Hq0 Hin Hx Hxr). split; [|done].
      apply (S0 _ (p_sz q0)); try done. by apply (spaces_elem k n i q0).
  - destruct Hr as (<- & Hlen & Hv). split; [done|]. split; [cbn; by rewrite length_alter|].
    intros i q v x Hq Hvi Hx. cbn in Hvi. cbn [ms ks_ms].
    assert (Hq0 : exists q0, procs k !! i = Some q0 /\ p_pgdir q = p_pgdir q0).
    { destruct (tfed_lookup (a_cur m) t k i q Hq) as (q0 & Hq0 & [->|[_ ->]]); by exists q0. }
    destruct Hq0 as (q0 & Hq0 & ->). destruct (decide (i = a_cur m)) as [->|Hne].
    + assert (q0 = p) as -> by congruence. rewrite list_lookup_alter_eq in Hvi.
      destruct (a_views m !! a_cur m) as [v0|] eqn:Ev; [|done]. injection Hvi as <-. unfold vset.
      destruct (Z.eqb_spec x va) as [->|Hxn]; [done|]. rewrite S2 by done. by apply (Hv (a_cur m)).
    + rewrite list_lookup_alter_ne in Hvi by done.
      assert (Hin : (i < n)%nat) by (rewrite <- Hlen; by eapply lookup_lt_Some).
      rewrite (S3 _ (p_sz q0)); [by apply (Hv i)|by apply (spaces_elem k n i q0)| |done].
      apply (spaces_distinct k n i (a_cur m) q0 p); try done. apply (cw_nodup _ _ _ (ck_cow _ _ _ _ _ Mk)).
  - destruct Hl' as [->| ->]; cbn; lia.
Qed.

(** ** The dispatcher *)

Lemma spaces_states k ps n :
  (forall i q, procs k !! i = Some q -> exists st, ps !! i = Some (ps_state st q)) ->
  length ps = length (procs k) -> spaces (ks_procs ps k) n = spaces k n.
Proof.
  intros Hs Hl. unfold spaces. cbn. rewrite !fmap_take. f_equal.
  apply list_eq. intros i. rewrite !list_lookup_fmap.
  destruct (procs k !! i) as [q|] eqn:E.
  - destruct (Hs i q E) as [st ->]. done.
  - apply lookup_ge_None in E. rewrite (proj2 (lookup_ge_None ps i)); [done|lia].
Qed.

Lemma free_wf_cr3 v s l : free_wf s l -> free_wf (set_cr3 v s) l.
Proof. intros [F1 F2 F3 F4]. by split. Qed.

Lemma cow_cr3 v s l A : cow s l A -> cow (set_cr3 v s) l A.
Proof.
  intros [C1 C2 C3 C4 C5 C6 C7]. split; try done; [by apply free_wf_cr3|].
  intros d sz Hd. destruct (C2 d sz Hd) as [[P1 P2 P3 P4] U1 U2 U3].
  split; try done. split; try done. by apply free_wf_cr3.
Qed.

(** The process table and the state after [ORun i]. *)
Definition run_procs (me i : nat) (ps : list proc) : list proc :=
  alter (ps_state RUNNING) i (alter (ps_state RUNNABLE) me ps).

Lemma run_procs_state me i ps j q :
  ps !! j = Some q -> exists st, run_procs me i ps !! j = Some (ps_state st q) /\
    (st = p_state q \/ st = RUNNABLE \/ st = RUNNING).
Proof.
  intros E. unfold run_procs. destruct (decide (j = i)) as [->|Hi].
  - rewrite list_lookup_alter_eq. destruct (decide (i = me)) as [->|Hm].
    + rewrite list_lookup_alter_eq, E. exists RUNNING. auto.
    + rewrite list_lookup_alter_ne, E by done. exists RUNNING. auto.
  - rewrite list_lookup_alter_ne by done. destruct (decide (j = me)) as [->|Hm].
    + rewrite list_lookup_alter_eq, E. exists RUNNABLE. auto.
    + rewrite list_lookup_alter_ne, E by done. exists (p_state q). destruct q. auto.
Qed.

Lemma run_procs_inv me i ps j q' :
  run_procs me i ps !! j = Some q' -> exists q st, ps !! j = Some q /\ q' = ps_state st q /\
    (st = p_state q \/ st = RUNNABLE \/ st = RUNNING).
Proof.
  intros E. destruct (ps !! j) as [q|] eqn:Eq.
  - destruct (run_procs_state me i ps j q Eq) as (st & E' & Hst). rewrite E in E'.
    injection E' as ->. by exists q, st.
  - unfold run_procs in E. apply lookup_lt_Some in E. rewrite !length_alter in E.
    apply lookup_ge_None in Eq. lia.
Qed.

(** The dispatcher loads the page directory and the stack of the process. *)
Lemma wp_run k n l me p i q Q :
  cow_k k l n me p -> (i < n)%nat -> procs k !! i = Some q ->
  Q tt (ks_procs (run_procs me i (procs k)) (ks_ms (set_cr3 (v2p (p_pgdir q)) (ms k))
          (ks_esp0 (p_kstack q + KSTACKSIZE) (ks_cur (Some i) k)))) ->
  wp (kstep (ORun i)) k Q.
Proof.
  intros Mk Hin Hq HQ. destruct (ck_cur _ _ _ _ _ Mk) as (Hcur & Hmn & Hp). cbn [kstep].
  apply wp_bind, (wp_myproc me); [done|]. apply wp_bind, wp_modify.
  unfold dispatch. apply wp_bind, wp_modify.
  assert (Eq : exists q', alter (ps_state RUNNABLE) me (procs k) !! i = Some q' /\
    p_pgdir q' = p_pgdir q /\ p_kstack q' = p_kstack q).
  { destruct (decide (i = me)) as [->|Hne].
    - rewrite list_lookup_alter_eq, Hq. by eexists.
    - rewrite list_lookup_alter_ne, Hq by done. by eexists. }
  destruct Eq as (q' & Eq & E1 & E2).
  assert (Hd : p_pgdir q <> 0).
  { pose proof (spaces_elem k n i q Hq Hin) as Hd.
    destruct (cow_foot_free _ _ _ _ _ _ (ck_cow _ _ _ _ _ Mk) Hd (or_introl eq_refl)) as [_ Hok].
    pose proof (page_ok_bounds _ Hok). klia. }
  apply wp_bind. unfold switchuvm. apply wp_bind, (wp_myproc i); [done|].
  apply wp_bind, (wp_pget i q'); [done|]. apply wp_bind, wp_modify.
  apply wp_bind, (wp_pget i q'); [done|]. rewrite E1, E2, (proj2 (Z.eqb_neq _ 0)) by done.
  apply wp_liftM, wp_modify, wp_modify. exact HQ.
Qed.

Lemma refine_run k l n me p U B N m i :
  minv k l n me p U B N -> refines k n me m -> (i < n)%nat ->
  wp (kstep (ORun i)) k (fun _ k' => exists p', minv k' l n i p' U B N /\
    refines k' n i (astep (ORun i) m)).
Proof.
  intros [Mk Ms Ml Mp Mu Mn Ma] (<- & Hlen & Hv) Hin.
  destruct (ck_cur _ _ _ _ _ Mk) as (Hcur & Hmn & Hp).
  destruct (lookup_lt_is_Some_2 (procs k) i) as [q Hq]; [rewrite (ck_len _ _ _ _ _ Mk); lia|].
  apply (wp_run k n l (a_cur m) p i q); [done..|].
  assert (Hrev := fun j q' => run_procs_inv (a_cur m) i (procs k) j q').
  destruct (run_procs_state (a_cur m) i (procs k) i q Hq) as (st & Eq & _).
  exists (ps_state st q). split; [|split; [done|split; [done|]]].
  - split; try done.
    + assert (Esp : spaces (ks_procs (run_procs (a_cur m) i (procs k)) k) n = spaces k n).
      { apply spaces_states; [|unfold run_procs; by rewrite !length_alter].
        intros j r Hr. destruct (run_procs_state (a_cur m) i (procs k) j r Hr) as (? & ? & _). eauto. }
      destruct Mk as [K1 K2 K3 K4 K5 K6 K7]. split; try done.
      * cbn. unfold run_procs. by rewrite !length_alter.
      * intros j r' Hr Hj. cbn in Hr. destruct (Hrev j r' Hr) as (r & st' & Er & -> & Hst).
        destruct (K2 j r Er Hj) as [Hpid Hs]. split; [done|]. cbn. naive_solver.
      * intros j r' Hr Hj. cbn in Hr. unfold run_procs in Hr.
        rewrite !list_lookup_alter_ne in Hr by lia. by apply (K3 j r').
      * change (cow (set_cr3 (v2p (p_pgdir q)) (ms k)) l
          (spaces (ks_procs (run_procs (a_cur m) i (procs k)) k) n)).
        rewrite Esp. by apply cow_cr3.
      * change (forall d sz, (d, sz) ∈ spaces (ks_procs (run_procs (a_cur m) i (procs k)) k) n ->
          has (word (mm (ms k)) d 0) PTE_W = true /\ has (word (mm (ms k)) d 0) PTE_U = true).
        by rewrite Esp.
    + intros j r' Hr Hj. cbn in Hr. destruct (Hrev j r' Hr) as (r & st' & Er & -> & _).
      by apply (Mp j r).
    + intros j r' Hr Hj. cbn in Hr. destruct (Hrev j r' Hr) as (r & st' & Er & -> & _).
      by apply (Mu j r).
    + intros j r' va Hr Hj. cbn in Hr. destruct (Hrev j r' Hr) as (r & st' & Er & -> & _).
      by apply (Ma j r).
  - intros j r' v va Hr Hvj Hva. cbn in Hr. destruct (Hrev j r' Hr) as (r & st' & Er & -> & _).
    by apply (Hv j r v va).
Qed.

(** ** fork *)

Lemma dupped_refs ofs : forall fl f x,
  fl !! f = Some x -> exists y, dupped ofs fl !! f = Some y /\
    f_ref x <= f_ref y <= f_ref x + Z.of_nat (length ofs).
Proof.
  induction ofs as [|o ofs IH]; intros fl f x E; cbn [dupped length].
  - exists x. split; [done|]. lia.
  - destruct o as [g|].
    + destruct (decide (g = f)) as [->|Hne].
      * destruct (IH (alter ref_up f fl) f (ref_up x)) as (y & Ey & Hy).
        { by rewrite list_lookup_alter_eq, E. }
        exists y. split; [done|]. cbn in Hy. lia.
      * destruct (IH (alter ref_up g fl) f x) as (y & Ey & Hy).
        { by rewrite list_lookup_alter_ne. }
        exists y. split; [done|]. lia.
    + destruct (IH fl f x E) as (y & Ey & Hy). exists y. split; [done|]. lia.
Qed.

Lemma refs_ok_dupped ofs ofs' fl n :
  (length ofs <= 16)%nat -> refs_ok ofs' fl (16 + n) -> refs_ok ofs' (dupped ofs fl) n.
Proof.
  intros Hl Hr f Hf. destruct (Hr f Hf) as (x & E & H1' & H2').
  destruct (dupped_refs ofs fl f x E) as (y & Ey & Hy). exists y. split; [done|]. lia.
Qed.

Lemma minv_able k l n me p U B N : minv k l n me p U B (S N) -> fork_able k n p.
Proof.
  intros [Mk Ms Ml Mp Mu Mn Ma]. destruct (ck_cur _ _ _ _ _ Mk) as (_ & Hmn & Hp).
  destruct (Mp me p Hp Hmn) as (_ & P2 & P3 & P4 & [c P5] & P6). split; try done.
  - split; [done|]. intros f Hf. destruct (P4 f Hf) as (x & E & ? & ?). exists x. split_and!; [done|done|lia].
  - by exists c.
  - split; [lia|]. intros q Hq. by apply (Mu n q Hq).
  - lia.
Qed.

Lemma minv_ready k l n me p U B N :
  minv k l n me p U B (S N) -> private_memory (p_name p) = false -> fork_ready k n p.
Proof. intros [] % minv_able Hn. by split. Qed.

Lemma minv_pages k l n me p U B N : minv k l n me p U B N -> (fork_pages p <= 67 + 2 * B)%nat.
Proof.
  intros Hi. destruct (ck_cur _ _ _ _ _ (mi_cow _ _ _ _ _ _ _ _ Hi)) as (_ & Hmn & Hp).
  destruct (mi_procs _ _ _ _ _ _ _ _ Hi me p Hp Hmn) as (Hb & _). unfold fork_pages.
  destruct (private_memory (p_name p)); [specialize (Hb eq_refl)|]; lia.
Qed.

(** The processes of [fork_state]: the old ones and the child. *)
Lemma fork_procs k n me p c dn kst s' q i r :
  procs k !! n = Some q -> procs (fork_state k n me p c dn kst s') !! i = Some r ->
  i <> n /\ procs k !! i = Some r \/
  i = n /\ r = born p me c (ps_pgdir dn (embryo (nextpid k) kst q)).
Proof.
  intros Hq Hr. cbn in Hr. destruct (decide (i = n)) as [->|Hne].
  - rewrite list_lookup_alter_eq, Hq in Hr. injection Hr as <-. by right.
  - rewrite list_lookup_alter_ne in Hr by done. by left.
Qed.

Section ForkStep.
Variables (k : kstate) (l l1 l' : list Z) (n me : nat) (p : proc) (U : Z -> Prop) (B N P c : nat).
Variables (dn kst : Z) (s1 s' : mstate).
Hypothesis Hi : minv k l n me p U B (S N).
Hypothesis Hcwd : p_cwd p = Some c.
Hypothesis V : same_views (spaces k n) (ms k) s1.
Hypothesis F : forked P (spaces k n) (p_pgdir p) (p_sz p) s1 l1 dn s' l'.

Let k' := fork_state k n me p c dn kst s'.

Lemma fork_uread d sz va :
  (d, sz) ∈ spaces k n -> 0 <= va < KERNBASE -> uread (mm s') d va = uread (mm (ms k)) d va.
Proof.
  intros Hd Hva. rewrite (sb_read _ _ _ _ (fk_same _ _ _ _ _ _ _ _ _ F) d sz) by done.
  by apply (sv_read _ _ _ V d sz).
Qed.

Lemma fork_uacc d sz va :
  (d, sz) ∈ spaces k n -> 0 <= va < KERNBASE -> uacc (mm (ms k)) d va -> uacc (mm s') d va.
Proof.
  intros Hd Hva Hu. apply (sb_user _ _ _ _ (fk_same _ _ _ _ _ _ _ _ _ F) d sz); [done|done|].
  by apply (sv_user _ _ _ V d sz).
Qed.

Lemma fork_minv : minv k' l' (S n) me p U B N.
Proof.
  pose proof (minv_able _ _ _ _ _ _ _ _ Hi) as [_ [Hol _] _ [Hn _] Hpid].
  destruct Hi as [Mk Ms Ml Mp Mu Mn Ma]. destruct (ck_cur _ _ _ _ _ Mk) as (_ & Hmn & Hp).
  destruct (lookup_lt_is_Some_2 (procs k) n) as [q Hq]; [rewrite (ck_len _ _ _ _ _ Mk); lia|].
  destruct (Mu n q Hq ltac:(lia)) as (Uq1 & Uq2 & Uq3).
  destruct (Mp me p Hp Hmn) as (P1 & P2 & P3 & P4 & P5 & P6).
  assert (Hrefs : forall ofs, refs_ok ofs (files k) (16 * Z.of_nat (S N)) ->
    refs_ok ofs (dupped (p_ofile p) (files k)) (16 * Z.of_nat N)).
  { intros ofs Hr. apply refs_ok_dupped; [lia|]. by replace (16 + 16 * Z.of_nat N) with
      (16 * Z.of_nat (S N)) by lia. }
  split; try done.
  - by apply (fork_cow_k P k l n me p c dn kst s1 s' l1 l').
  - lia.
  - intros i r Hr Hin. destruct (fork_procs _ _ _ _ _ _ _ _ _ _ _ Hq Hr) as [[Hne Er]|[-> ->]].
    + destruct (Mp i r Er ltac:(lia)) as (Q1 & Q2 & Q3 & Q4 & Q5 & Q6). split_and!; auto.
    + cbn. destruct (safestrcpy_list_string (p_name q) (cstring (p_name p)) (cstring_nul _))
        as [_ Hl]; [lia|].
      split_and!; auto; [rewrite private_memory_child by congruence; exact P1|congruence].
  - intros i r Hr Hin. destruct (fork_procs _ _ _ _ _ _ _ _ _ _ _ Hq Hr) as [[Hne Er]|[-> ->]]; [|lia].
    apply (Mu i r Er). lia.
  - cbn. rewrite s32_small by lia. lia.
  - intros i r va Hr Hin HU Hva. cbn [ms k' fork_state ks_ms].
    destruct (fork_procs _ _ _ _ _ _ _ _ _ _ _ Hq Hr) as [[Hne Er]|[-> ->]].
    + destruct (Ma i r va Er ltac:(lia) HU Hva). split; [|done].
      apply (fork_uacc _ (p_sz r)); [apply (spaces_elem k n i); [done|lia]|done|done].
    + destruct (Ma me p va Hp Hmn HU Hva). split; [|done].
      apply (fk_user _ _ _ _ _ _ _ _ _ F va Hva), (sv_user _ _ _ V _ (p_sz p)); [|done|done].
      by apply (spaces_elem k n me).
Qed.

Lemma fork_refines m : refines k n me m -> refines k' (S n) me (astep OFork m).
Proof.
  destruct Hi as [Mk Ms Ml Mp Mu Mn Ma]. destruct (ck_cur _ _ _ _ _ Mk) as (_ & Hmn & Hp).
  destruct (lookup_lt_is_Some_2 (procs k) n) as [q Hq]; [rewrite (ck_len _ _ _ _ _ Mk); lia|].
  intros (Hcur & Hlen & Hv). cbn [astep].
  destruct (lookup_lt_is_Some_2 (a_views m) (a_cur m)) as [v0 Ev]; [lia|]. rewrite Ev.
  split; [done|]. split; [cbn; rewrite length_app; cbn; lia|]. cbn [a_views].
  intros i r v va Hr Hvi Hva. cbn [ms k' fork_state ks_ms].
  destruct (fork_procs _ _ _ _ _ _ _ _ _ _ _ Hq Hr) as [[Hne Er]|[-> ->]].
  - apply lookup_app_Some in Hvi as [Hvi|[Hge Hvi]].
    + rewrite (fork_uread _ (p_sz r)); [by apply (Hv i)| |done]. apply (spaces_elem k n i); [done|].
      rewrite <- Hlen. by eapply lookup_lt_Some.
    + exfalso. apply lookup_lt_Some in Hvi. cbn in Hvi. lia.
  - rewrite lookup_app_r, Hlen, Nat.sub_diag in Hvi by lia. injection Hvi as <-. cbn [p_pgdir].
    cbn. rewrite (fk_child _ _ _ _ _ _ _ _ _ F) by done.
    rewrite (sv_read _ _ _ V _ (p_sz p)); [|by apply (spaces_elem k n me)|done].
    apply (Hv me p); [done| |done]. by rewrite <- Hcur.
Qed.
End ForkStep.

Lemma refine_fork k l n me p U B N m :
  minv k l n me p U B (S N) -> refines k n me m -> (68 + 2 * B <= length l)%nat ->
  wp fork k (fun _ k' => exists l', minv k' l' (S n) me p U B N /\
    refines k' (S n) me (astep OFork m) /\ (length l <= 68 + 2 * B + length l')%nat).
Proof.
  intros Hi Hr Hlen. pose proof (minv_pages _ _ _ _ _ _ _ _ Hi) as Hpg.
  wp_use (fork_run k l n me p (mi_cow _ _ _ _ _ _ _ _ Hi) (minv_able _ _ _ _ _ _ _ _ Hi)); [lia|].
  intros pid k' (_ & c & dn & kst & s' & l' & l1 & s1 & Hc & -> & -> & V & F & _).
  exists l'. split; [|split].
  - by apply (fork_minv k (kst :: l1) l1 l' n me p U B N (fork_pages p) c dn kst s1 s').
  - by apply (fork_refines k (kst :: l1) l1 l' n me p U B N (fork_pages p) c dn kst s1 s').
  - destruct (fk_free _ _ _ _ _ _ _ _ _ F) as (pre & -> & Hpre). cbn. rewrite length_app. lia.
Qed.

(** ** Runs *)

(** The forks and the free pages a sequence of operations may need. *)
Fixpoint forks (ops : list op) : nat :=
  match ops with
  | [] => O
  | OFork :: ops => S (forks ops)
  | _ :: ops => forks ops
  end.
Fixpoint need (B : nat) (ops : list op) : nat :=
  match ops with
  | [] => O
  | OFork :: ops => 68 + 2 * B + need B ops
  | OWrite _ _ :: ops => S (need B ops)
  | ORun _ :: ops => need B ops
  end.

(** The operations make sense with [n] processes: stores go to accessible
    addresses and only existing processes run. *)
Fixpoint ops_ok (U : Z -> Prop) (n : nat) (ops : list op) : Prop :=
  match ops with
  | [] => True
  | OFork :: ops => ops_ok U (S n) ops
  | OWrite va _ :: ops => (U va /\ 0 <= va < KERNBASE) /\ ops_ok U n ops
  | ORun i :: ops => (i < n)%nat /\ ops_ok U n ops
  end.

Lemma refine_runs U B ops : forall k l n me p m,
  minv k l n me p U B (forks ops) -> refines k n me m -> ops_ok U n ops ->
  (need B ops <= length l)%nat ->
  wp (kruns ops) k (fun _ k' => exists l' n' me' p',
    minv k' l' n' me' p' U B 0 /\ refines k' n' me' (aruns ops m)).
Proof.
  induction ops as [|o ops IH]; intros k l n me p m Hi Hr Hok Hneed; cbn [kruns].
  { apply wp_ret. exists l, n, me, p. by split. }
  apply wp_bind. destruct o as [|va b|i]; cbn [forks need ops_ok] in *; cbn [kstep].
  - apply wp_bind. wp_use (refine_fork k l n me p U B (forks ops) m Hi Hr); [lia|].
    intros pid k' (l' & Hi' & Hr' & Hl'). apply wp_ret.
    wp_use (IH k' l' (S n) me p _ Hi' Hr'); [done|lia|done].
  - destruct Hok as [[HU Hva] Hok]. destruct l as [|f l]; [cbn in Hneed; lia|]. cbn in Hneed.
    wp_use (refine_write k f l n me p U B _ m va b Hi Hr HU Hva).
    intros [] k' (l' & p' & Hi' & Hr' & Hl'). wp_use (IH k' l' n me p' _ Hi' Hr'); [done|lia|done].
  - destruct Hok as [Hin Hok]. wp_use (refine_run k l n me p U B _ m i Hi Hr Hin).
    intros [] k' (p' & Hi' & Hr'). wp_use (IH k' l n i p' _ Hi' Hr'); done.
Qed.

End Refine.
