(* ===== verification/CowProps.v ===== *)
(** * Copy-on-write fork: the properties

    The claims about fork, the page fault handler and the shared-memory
    routines, and a concrete machine on which their hypotheses hold. *)

From S2P Require Import Prelude Layout Mem Kalloc Vm VmFacts UvmFacts UvmAlloc UvmProps State.
From S2P Require Import Sched Cow CowFacts CowFault CowFork Bytes Bio Log Inode Console.
From S2P Require Import Fs Pipe File Proc Exec Syscall Trap CowTrap CowExit ForkFacts.
From S2P Require Import Refine.

Open Scope Z_scope.

Section CowProps.
Context `{KernelImage} `{!KernelImageOk} `{Wakeups}.

(** ** Theorems *)


(** C2. [fork] in the copy-on-write case: it returns the new pid; the child
    takes the first free slot, runnable, with the parent's registers (but
    %eax = 0), size, name, open files (each reference count raised) and
    working directory; the child reads the parent's memory, nobody's memory
    changes, and the sharing invariant holds with the child added. *)
Theorem fork_shares k l n me p :
  cow_k k l n me p -> fork_ready k n p -> (68 <= length l)%nat ->
  wp fork k (fun pid k' => pid = nextpid k /\ exists child l',
    procs k' !! n = Some child /\ p_pid child = pid /\ p_state child = RUNNABLE /\
    p_parent child = Some me /\ p_sz child = p_sz p /\ p_tf child = tf_set_eax 0 (p_tf p) /\
    p_ofile child = p_ofile p /\ p_cwd child = p_cwd p /\
    files k' = dupped (p_ofile p) (files k) /\
    (forall i, i <> n -> procs k' !! i = procs k !! i) /\
    (forall va, 0 <= va < KERNBASE ->
      uread (mm (ms k')) (p_pgdir child) va = uread (mm (ms k)) (p_pgdir p) va) /\
    (forall i q va, procs k !! i = Some q -> (i < n)%nat -> 0 <= va < KERNBASE ->
      uread (mm (ms k')) (p_pgdir q) va = uread (mm (ms k)) (p_pgdir q) va) /\
    cow_k k' l' (S n) me p).
Proof.
  intros Hk Hr Hl. wp_use (fork_cow_run k l n me p Hk Hr Hl).
  destruct Hr as [_ _ _ _ [Hn _] Hpid].
  intros pid k' (-> & c & dn & kst & s' & l' & l1 & s1 & Hcwd & -> & _ & V & F & _). split; [done|].
  destruct (lookup_lt_is_Some_2 (procs k) n) as [q Hq]; [rewrite (ck_len _ _ _ _ _ Hk); lia|].
  pose proof (me_in k l n me p Hk) as Hin.
  eexists _, l'. split; [cbn; by rewrite list_lookup_alter_eq, Hq|]. split_and!; try done.
  - intros i Hi. cbn. by rewrite list_lookup_alter_ne.
  - intros va Hva. cbn. rewrite (fk_child _ _ _ _ _ _ _ _ _ F) by done.
    by apply (sv_read _ _ _ V _ (p_sz p)).
  - intros i r va Hr Hi Hva. cbn. pose proof (spaces_elem k n i r Hr Hi) as Hd.
    rewrite (sb_read _ _ _ _ (fk_same _ _ _ _ _ _ _ _ _ F) _ (p_sz r)) by done.
    by apply (sv_read _ _ _ V _ (p_sz r)).
  - by apply (fork_cow_k 67 k l n me p c dn kst s1 s' l1 l').
Qed.


(** [isshared] is exact on a compact process table of live processes: it
    answers FRAME when another process maps the frame behind the address, and
    NOTHING when none does; it changes nothing. *)
Theorem isshared_exact k l n me p va e :
  cow_k k l n me p -> 0 <= va < KERNBASE -> mapping (mm (ms k)) (p_pgdir p) va = Some e ->
  wp (isshared va) k (fun r k' => k' = k /\
    (r = FRAME \/ r = NOTHING) /\
    (r = NOTHING <-> forall i q, procs k !! i = Some q -> (i < n)%nat -> p_pgdir q <> p_pgdir p ->
      ~ exists va' e', 0 <= va' < KERNBASE /\ mapping (mm (ms k)) (p_pgdir q) va' = Some e' /\
          frame_of e = frame_of e')).
Proof.
  intros Hk Hva He. wp_use (isshared_spec k l n me p va e Hk Hva He).
  assert (Hun : unshared (mm (ms k)) (spaces k n) (p_pgdir p) (frame_of e) <->
    forall i q, procs k !! i = Some q -> (i < n)%nat -> p_pgdir q <> p_pgdir p ->
      ~ ufoot (mm (ms k)) (p_pgdir q) (frame_of e)).
  { split.
    - intros Hu i q Hq Hi Hne. apply (Hu _ (p_sz q)); [by apply (spaces_elem k n i)|done].
    - intros Hu d sz Hd Hne. apply spaces_inv in Hd as (i & q & Hq & Hi & -> & ->). by apply (Hu i q). }
  intros r k' [-> [[-> Hs]|[-> Hs]]]; (split; [done|]); (split; [auto|]).
  - split; [done|]. intros Hu. destruct Hs. apply (proj2 Hun). exact Hu.
  - split; [|done]. intros _. exact (proj1 Hun Hs).
Qed.

(** C40. The page fault handler looks at the error code of the wrong frame: a
    write fault raised by the kernel itself, while it serves a system call
    that stores through a user address (the error code of the system call's
    frame is 0), is not taken to [trapCOW]: the kernel panics. *)
Theorem kernel_write_fault_panics k me p tf cpuid keys :
  cur k = Some me -> procs k !! me = Some p -> cons_lock k = false ->
  tf_err (p_tf p) = 0 -> Z.land (tf_cs tf) 3 = 0 -> tf_trapno tf = T_PGFLT ->
  has (tf_err tf) PTE_W = true ->
  exists c, alltraps tf cpuid keys k = Panic "trap" (ks_console c k).
Proof.
  intros Hc Hp Hl Herr Hcs Hno _. apply (kernel_fault_panics k me p); try done. by rewrite Herr.
Qed.


End CowProps.

(** ** Machines with one and two processes *)

#[local] Existing Instance example_image.
#[local] Existing Instance example_image_ok.
#[local] Instance example_wakeups : Wakeups := 1%nat.

Definition ex_name : list byte := cstr "cat" ++ replicate 13 x00.
Definition init_name : list byte := cstr "init" ++ replicate 12 x00.
Definition ex_proc (nm : list byte) (d : Z) : proc :=
  Proc 8192 d 0 RUNNING 1 None tf0 Resume None false (replicate 16 None) (Some 0%nat) nm.
Definition ex_kernel (nm : list byte) (s : mstate) (d : Z) : kstate :=
  KState (set_cr3 (v2p d) s) (ex_proc nm d :: replicate 63 proc0) 2 None false (Some 0%nat) 0 0 0 []
    (Disk 0 (fun _ => []) []) (LogState 0 0 false 0 0 []) [] [] ∅ (InputBuf [] 0 0 0) [] false
    false false false false false false false false.

Lemma ex_slot nm s d i q :
  procs (ex_kernel nm s d) !! i = Some q -> i = 0%nat /\ q = ex_proc nm d \/ (1 <= i)%nat /\ q = proc0.
Proof.
  destruct i as [|i]; cbn [procs ex_kernel lookup list_lookup].
  - intros [= <-]. by left.
  - intros E. right. apply lookup_replicate in E as [-> _]. split; [lia|done].
Qed.

Lemma ex_cow nm : exists s d l, cow_k (ex_kernel nm s d) l 1 0 (ex_proc nm d) /\ (800 <= length l)%nat /\
  (forall va, 0 <= va < 8192 -> uacc (mm s) d va).
Proof.
  destruct image_example as (s & d & l & Hu & Hlen & Hd & HU). exists s, d, l.
  assert (Hacc : forall va, 0 <= va < 8192 -> uacc (mm s) d va).
  { intros va Hva. destruct (uv_some _ _ _ _ Hu va) as (e & E & _); [klia|lia|].
    exists e. split; [exact E|]. by apply (HU va). }
  split; [|split; [exact Hlen|exact Hacc]].
  destruct (Hacc 0 ltac:(lia)) as (e0 & E0 & _). destruct (mapping_Some _ _ _ _ E0) as (Hp0 & _).
  assert (Esp : spaces (ex_kernel nm s d) 1 = [(d, 8192)]) by done.
  split.
  - done.
  - intros i q Hq Hi. destruct (ex_slot nm s d i q Hq) as [[-> ->]|[? ->]]; [|lia].
    split; [done|]. right. by right.
  - intros i q Hq Hi. destruct (ex_slot nm s d i q Hq) as [[-> ->]|[? ->]]; [lia|done].
  - rewrite Esp. apply cow_cr3. split.
    + apply (pt_free _ _ _ (uv_inv _ _ _ _ Hu)).
    + intros ? ? [= -> ->]%list_elem_of_singleton. eapply uvm_ext; [|exact Hu].
      intros va _. by change (PGROUNDUP 8192) with 8192.
    + intros ? ? [= -> ->]%list_elem_of_singleton. klia.
    + intros ? ? i [= -> ->]%list_elem_of_singleton Hi Hp. destruct (Hd i ltac:(lia) Hp). lia.
    + apply NoDup_singleton.
    + intros ? ? ? ? ? [= -> ->]%list_elem_of_singleton [= -> ->]%list_elem_of_singleton. done.
    + intros ? ? ? ? ? ? ? ? [= -> ->]%list_elem_of_singleton [= -> ->]%list_elem_of_singleton. done.
  - rewrite Esp. intros ? ? [= -> ->]%list_elem_of_singleton. by apply (Hd 0).
  - split; [done|]. split; [lia|done].
  - done.
Qed.

Lemma ex_minv nm : length nm = 16%nat -> exists s d l,
  minv (ex_kernel nm s d) l 1 0 (ex_proc nm d) (fun va => 0 <= va < 8192) 2 3 /\ (800 <= length l)%nat.
Proof.
  intros Hnm. destruct (ex_cow nm) as (s & d & l & Hk & Hlen & Hacc). exists s, d, l. split; [|exact Hlen].
  split; try done; try lia.
  - intros i q Hq Hi. destruct (ex_slot nm s d i q Hq) as [[-> ->]|[? ->]]; [|lia].
    split_and!; try done.
    intros f Hf. cbn in Hf. apply list_elem_of_In in Hf. by repeat destruct Hf as [Hf|Hf].
  - intros i q Hq Hi. destruct (ex_slot nm s d i q Hq) as [[-> ->]|[? ->]]; [lia|done].
  - intros i q va Hq Hi HU Hva. destruct (ex_slot nm s d i q Hq) as [[-> ->]|[? ->]]; [|lia].
    split; [by apply Hacc|]. cbn. lia.
Qed.

Lemma ex_refines nm s d : refines (ex_kernel nm s d) 1 0 (AMach [uread (mm s) d] 0).
Proof.
  split; [done|]. split; [done|]. intros i q v va Hq Hv Hva.
  destruct (ex_slot nm s d i q Hq) as [[-> ->]|[? ->]]; [by injection Hv as <-|]. destruct i; [lia|done].
Qed.

(** A process other than the running one gets another name, as by [exec]. *)
Lemma minv_rename k l n me p U B N i nm m :
  minv k l n me p U B N -> refines k n me m -> i <> me -> length nm = 16%nat -> private_memory nm = false ->
  let k' := ks_procs (alter (ps_name nm) i (procs k)) k in minv k' l n me p U B N /\ refines k' n me m.
Proof.
  intros [Mk Ms Ml Mp Mu Mn Ma] (Hcur & Hlen & Hv) Hne Hnl Hnm k'.
  assert (Hl : forall j q, procs k' !! j = Some q -> exists q0, procs k !! j = Some q0 /\ (q = q0 \/ q = ps_name nm q0)).
  { intros j q Hq. cbn in Hq. destruct (decide (j = i)) as [->|Hj].
    - rewrite list_lookup_alter_eq in Hq. destruct (procs k !! i) as [q0|]; [|done]. injection Hq as <-. exists q0. auto.
    - rewrite list_lookup_alter_ne in Hq by done. exists q. auto. }
  assert (Esp : spaces k' n = spaces k n).
  { unfold spaces, k'. cbn. rewrite !fmap_take. f_equal. apply list_eq. intros j. rewrite !list_lookup_fmap.
    destruct (decide (j = i)) as [->|Hj]; [rewrite list_lookup_alter_eq; by destruct (procs k !! i)|by rewrite list_lookup_alter_ne]. }
  split; [|split; [done|split; [done|]]].
  - split; try done.
    + destruct Mk as [K1 K2 K3 K4 K5 K6 K7]. split; try rewrite Esp; try done.
      * cbn. by rewrite length_alter.
      * intros j q Hq Hj. destruct (Hl j q Hq) as (q0 & Hq0 & [->| ->]); by apply (K2 j q0).
      * intros j q Hq Hj. destruct (Hl j q Hq) as (q0 & Hq0 & [->| ->]); by apply (K3 j q0).
      * destruct K6 as (H1 & H2 & H3). split; [done|]. split; [done|]. cbn. by rewrite list_lookup_alter_ne.
    + intros j q Hq Hj. destruct (Hl j q Hq) as (q0 & Hq0 & [->| ->]); [by apply (Mp j q0)|].
      destruct (Mp j q0 Hq0 Hj) as (_ & _ & R). cbn. by rewrite Hnm.
    + intros j q Hq Hj. destruct (Hl j q Hq) as (q0 & Hq0 & [->| ->]); [by apply (Mu j q0)|].
      destruct (Mu j q0 Hq0 Hj) as (R1 & _ & R2). done.
    + intros j q va Hq Hj. destruct (Hl j q Hq) as (q0 & Hq0 & [->| ->]); by apply (Ma j q0).
  - intros j q v va Hq. destruct (Hl j q Hq) as (q0 & Hq0 & [->| ->]); by apply (Hv j q0).
Qed.

(** "init" in slot 0, and in slot 1 a program that it has started. *)
Lemma ex_two : exists k l p v, minv k l 2 0 p (fun va => 0 <= va < 8192) 2 2 /\ (700 <= length l)%nat /\
  refines k 2 0 (AMach [v; v] 0) /\ private_memory (p_name p) = true /\
  exists q, procs k !! 1%nat = Some q /\ private_memory (p_name q) = false.
Proof.
  destruct (ex_minv init_name eq_refl) as (s & d & l & Hi & Hlen).
  pose proof (refine_fork _ l 1 0 _ _ 2 2 _ Hi (ex_refines _ s d) ltac:(lia)) as W.
  apply wp_Ok in W as (pid & k & _ & l' & Hi' & Hr' & Hl'). cbn [astep a_views a_cur lookup list_lookup app] in Hr'.
  destruct (minv_rename _ _ _ _ _ _ _ _ 1 ex_name _ Hi' Hr' ltac:(done) eq_refl eq_refl) as [Hi2 Hr2].
  eexists _, l', _, (uread (mm s) d). split; [exact Hi2|]. split; [lia|]. split; [exact Hr2|]. split; [reflexivity|].
  destruct (lookup_lt_is_Some_2 (procs k) 1) as [q Hq]; [rewrite (ck_len _ _ _ _ _ (mi_cow _ _ _ _ _ _ _ _ Hi')); lia|].
  exists (ps_name ex_name q). cbn. split; [by rewrite list_lookup_alter_eq, Hq|reflexivity].
Qed.

(** "init" forks a copy of itself and stores; the program forks, both sides store. *)
Definition ex_ops : list op :=
  [OFork; OWrite 5 x41; ORun 1; OFork; OWrite 5 x42; ORun 3; OWrite 4096 x43].


Lemma fork_shares_witness :
  exists k, wp fork k (fun pid k' => pid = 2 /\ exists c, procs k' !! 1%nat = Some c /\ p_sz c = 8192).
Proof.
  destruct (ex_minv ex_name eq_refl) as (s & d & l & Hi & Hlen). exists (ex_kernel ex_name s d).
  eapply wp_mono; [apply (fork_shares _ l 1 0 _ (mi_cow _ _ _ _ _ _ _ _ Hi)
    (minv_ready _ _ _ _ _ _ _ 2 Hi eq_refl)); lia|].
  intros pid k' (-> & c & l' & Hc & _ & _ & _ & Hsz & _). split; [reflexivity|].
  exists c. split; [exact Hc|exact Hsz].
Defined.

(** The machine after a [fork]: the child shares the first page. *)
Lemma ex_forked : exists k d l, cow_k k l 2 0 (ex_proc ex_name d) /\ (700 <= length l)%nat /\ pt_lock k = false /\
  exists c, procs k = ex_proc ex_name d :: c :: replicate 62 proc0 /\ p_pid c = 2 /\ p_parent c = Some 0%nat /\
    p_pgdir c <> d /\ exists e, mapping (mm (ms k)) d 5 = Some e /\ mapping (mm (ms k)) (p_pgdir c) 5 = Some e.
Proof.
  destruct (ex_minv ex_name eq_refl) as (s & d & l & Hi & Hlen).
  pose proof (fork_cow_run _ l 1 0 _ (mi_cow _ _ _ _ _ _ _ _ Hi) (minv_ready _ _ _ _ _ _ _ 2 Hi eq_refl) ltac:(lia)) as W.
  apply wp_Ok in W as (? & ? & _ & -> & c & dn & kst & s' & l' & l1 & s1 & _ & -> & -> & V & F & Sh).
  exists (fork_state (ex_kernel ex_name s d) 1 0 (ex_proc ex_name d) c dn kst s'), d, l'.
  assert (Hk : cow_k (fork_state (ex_kernel ex_name s d) 1 0 (ex_proc ex_name d) c dn kst s') l' 2 0 (ex_proc ex_name d)).
  { apply (fork_cow_k 67 _ _ 1 0 _ c dn kst s1 s' l1 l' (mi_cow _ _ _ _ _ _ _ _ Hi)); [lia| |exact V|exact F]. clear. by cbn. }
  split; [exact Hk|]. destruct (fk_free _ _ _ _ _ _ _ _ _ F) as (pre & -> & Hpre). cbn in Hlen. rewrite length_app in Hlen.
  split; [lia|]. split; [reflexivity|]. eexists. split; [reflexivity|]. split; [reflexivity|]. split; [reflexivity|].
  pose proof (fk_cow _ _ _ _ _ _ _ _ _ F) as C. split.
  - pose proof (cw_nodup _ _ _ C) as Hn. cbn in Hn. apply NoDup_cons in Hn as [Hn _]. intros E. apply Hn. cbn in E. rewrite E. by left.
  - destruct (uv_some _ _ _ _ (cw_uvm _ _ _ C d 8192 ltac:(right; by left)) 5) as (e & E & _); [klia|by vm_compute|].
    exists e. split; [exact E|]. rewrite <- E. apply (Sh 5). change (PGROUNDUP (p_sz (ex_proc ex_name d))) with 8192. unfold PGSIZE. lia.
Qed.


Lemma kernel_write_fault_panics_witness :
  exists k c, alltraps (tf_set_cs 8 (write_fault tf0)) 0 [] k = Panic "trap" (ks_console c k).
Proof.
  destruct (ex_cow ex_name) as (s & d & _). exists (ex_kernel ex_name s d).
  apply (kernel_write_fault_panics _ 0 (ex_proc ex_name d)); reflexivity.
Defined.

(** The child has come to its end; its kernel stack is a page of its own. *)
Lemma ex_zombie : exists k l pz pm, dying k l 2 1 pz /\ first_zombie k 1 pz 0 /\ cur k = Some 0%nat /\
  procs k !! 0%nat = Some pm /\ pt_lock k = false /\ p_pid pz = 2.
Proof.
  destruct ex_forked as (k & d & l & Hk & Hlen & Hlock & c & Hps & Hpid & Hpar & _). destruct l as [|f l]; [cbn in Hlen; lia|].
  pose proof (ck_cow _ _ _ _ _ Hk) as Hc. destruct (cow_pop _ _ _ _ Hc) as [C V].
  set (pz := ps_state ZOMBIE (ps_kstack f c)). generalize dependent (ex_proc ex_name d). intros p Hk Hps.
  set (k2 := ks_procs (p :: pz :: replicate 62 proc0) (ks_ms (set_freelist (rd32 (mm (ms k)) f) (ms k)) k)).
  assert (Esp : spaces k2 2 = spaces k 2) by (unfold spaces; by rewrite Hps).
  assert (Hsl : forall i q, procs k2 !! i = Some q -> i = 0%nat /\ q = p \/ i = 1%nat /\ q = pz \/ (2 <= i)%nat /\ q = proc0).
  { intros [|[|i]] q; cbn [k2 procs ks_procs lookup list_lookup]; [intros [= <-]; auto|intros [= <-]; auto|].
    intros [-> _]%lookup_replicate. right; right. split; [lia|reflexivity]. }
  assert (Hlv : live p) by (apply (ck_live _ _ _ _ _ Hk 0 p); [by rewrite Hps|lia]). destruct Hlv as [Hp Hs].
  exists k2, l, pz, p. split.
  - split.
    + cbn [k2 procs ks_procs length]. by rewrite length_replicate.
    + split; [reflexivity|lia].
    + intros i q Hq Hj. destruct (Hsl i q Hq) as [[-> ->]|[[-> ->]|[? ->]]]; [exact Hp|cbn; lia|lia].
    + intros i q Hq Hj. destruct (Hsl i q Hq) as [[-> ->]|[[-> ->]|[? ->]]]; [lia|lia|reflexivity].
    + rewrite Esp. exact C.
    + pose proof (cw_free _ _ _ Hc) as Hf. split; [by apply (Forall_inv (fw_pages _ _ Hf))|].
      by apply (NoDup_cons_1_1 f l), (fw_nodup _ _ Hf).
    + intros d' sz' Hin. rewrite Esp in Hin. cbn [k2 ms ks_procs ks_ms mm set_freelist].
      split; intros Hf; apply (cow_off_list _ _ (f :: l) _ Hc ltac:(done) d' sz' f Hin); auto; by left.
  - split; [|split; [apply (ck_cur _ _ _ _ _ Hk)|split; [reflexivity|split; [exact Hlock|exact Hpid]]]].
    split; [exact Hpar|split; [reflexivity|]]. intros i q Hq Hj [_ Hz]. destruct (Hsl i q Hq) as [[-> ->]|[[-> ->]|[? ->]]]; [|lia|lia].
    rewrite Hz in Hs. by destruct Hs as [?|[?|?]].
Qed.

