(* ===== verification/SyscallProps.v ===== *)
(** * System call arguments

    The kernel reads the arguments of a system call from user memory.  What it
    reads lies inside the process, for every stack pointer and every argument the
    process may have chosen. *)

From S2P Require Import Prelude Layout Mem Kalloc Vm VmFacts UvmFacts UvmAlloc State Sched Cow.
From S2P Require Import CowFacts.
From S2P Require Import Bytes Bio Log Inode Console Fs Codec FileFacts Pipe File Proc Exec.
From S2P Require Import Syscall.
From S2P Require Import UvmProps CowFault Refine CowProps.

Open Scope Z_scope.

Lemma window_one f off : window f off 1 = [f off].
Proof. transitivity [f (off + 0)]; [done|by rewrite Z.add_0_r]. Qed.

Section Syscalls.
Context `{KernelImage} `{!KernelImageOk}.

(** The process in slot [me] runs on its own page table, every page below its size is
    mapped, and [u] are the bytes of its memory. *)
Record in_user (k : kstate) (me : nat) (p : proc) (u : Z -> byte) : Prop := {
  iu_cur : cur k = Some me;
  iu_proc : procs k !! me = Some p;
  iu_cr3 : cr3 (ms k) = v2p (p_pgdir p);
  iu_wf : pd_wf (mm (ms k)) (p_pgdir p);
  iu_size : 0 <= p_sz p <= KERNBASE;
  iu_mem : forall va, 0 <= va < p_sz p -> uread (mm (ms k)) (p_pgdir p) va = Some (u va)
}.

Section Args.
Context (k : kstate) (me : nat) (p : proc) (u : Z -> byte).
Hypothesis (U : in_user k me p u).

Lemma myproc_run : myproc_ k = Ok p k.
Proof.
  unfold myproc_. rewrite (bind_Ok _ _ _ me k) by (unfold myproc, bind, gets; cbn; by rewrite (iu_cur _ _ _ _ U)).
  unfold pget, bind, gets. cbn [obind]. by rewrite (iu_proc _ _ _ _ U).
Qed.

Lemma get_va_run n : forall va,
  0 <= va -> va + Z.of_nat n <= p_sz p -> get_va va n k = Ok (window u va (Z.of_nat n)) k.
Proof.
  pose proof (iu_size _ _ _ _ U) as Hs. change KERNBASE with 0x80000000 in Hs.
  induction n as [|n IH]; intros va Hva Hn; cbn [get_va]; [done|].
  pose proof (iu_mem _ _ _ _ U va ltac:(lia)) as Em. unfold uread in Em.
  destruct (mapping (mm (ms k)) (p_pgdir p) va) as [e|] eqn:Ee; [|done]. injection Em as Em.
  assert (E1 : liftM (let! a := mmu va false in gets (fun s => mm s a)) k = Ok (u va) k).
  { unfold liftM. rewrite (bind_Ok _ _ _ (frame_of e + va mod PGSIZE) (ms k)).
    - unfold frame_of, gets. rewrite Em. cbn. by destruct k.
    - apply (mmu_user _ (p_pgdir p)); [apply U|apply U|change KERNBASE with 0x80000000; lia|done]. }
  rewrite (bind_Ok _ _ _ _ _ E1). rewrite u32_small by lia.
  rewrite (bind_Ok _ _ _ _ _ (IH (va + 1) ltac:(lia) ltac:(lia))). unfold ret. f_equal.
  replace (Z.of_nat (S n)) with (1 + Z.of_nat n) by lia. by rewrite window_app, window_one by lia.
Qed.

(** The word at [a]. *)
Definition uword (a : Z) : Z := of_le (window u a 4).

Lemma uword_range a : 0 <= uword a < 2 ^ 32.
Proof. unfold uword. pose proof (of_le_range (window u a 4)) as Hr. by rewrite window_length in Hr. Qed.

Lemma fetchint_run addr :
  0 <= addr < 2 ^ 32 ->
  fetchint addr k = Ok (if addr + 4 <=? p_sz p then Some (s32 (uword addr)) else None) k.
Proof.
  intros Ha. pose proof (iu_size _ _ _ _ U) as Hs. change KERNBASE with 0x80000000 in Hs.
  unfold fetchint. rewrite (bind_Ok _ _ _ _ _ myproc_run).
  destruct (Z.leb_spec (p_sz p) addr) as [H1|H1].
  - cbn [orb]. by rewrite (proj2 (Z.leb_gt _ _)) by lia.
  - rewrite u32_small by lia. destruct (Z.ltb_spec (p_sz p) (addr + 4)) as [H2|H2].
    + cbn [orb]. by rewrite (proj2 (Z.leb_gt _ _)) by lia.
    + cbn [orb]. rewrite (proj2 (Z.leb_le _ _)) by lia.
      by rewrite (bind_Ok _ _ _ _ _ (get_va_run 4 addr ltac:(lia) ltac:(lia))).
Qed.

(** Where argument [n] lies on the user stack. *)
Definition arg_addr (n : Z) : Z := u32 (tf_esp (p_tf p) + 4 + 4 * n).

Lemma argint_run n :
  argint n k = Ok (if arg_addr n + 4 <=? p_sz p then Some (s32 (uword (arg_addr n))) else None) k.
Proof.
  unfold argint. rewrite (bind_Ok _ _ _ _ _ myproc_run). apply fetchint_run, u32_range.
Qed.

Lemma u32_s32 z : u32 (s32 z) = u32 z.
Proof.
  unfold u32, s32. rewrite Zminus_mod_idemp_l. f_equal. lia.
Qed.

Lemma argptr_run n size :
  0 <= size < 2 ^ 31 ->
  argptr n size k = Ok (if (arg_addr n + 4 <=? p_sz p) && (uword (arg_addr n) <? p_sz p) &&
                           (uword (arg_addr n) + size <=? p_sz p)
                        then Some (uword (arg_addr n)) else None) k.
Proof.
  intros Hz. pose proof (iu_size _ _ _ _ U) as Hs. change KERNBASE with 0x80000000 in Hs.
  unfold argptr. rewrite (bind_Ok _ _ _ _ _ (argint_run n)), (bind_Ok _ _ _ _ _ myproc_run).
  destruct (arg_addr n + 4 <=? p_sz p); [|done]. cbn [andb].
  pose proof (uword_range (arg_addr n)) as Hw. set (w := uword (arg_addr n)) in *.
  rewrite u32_s32, (u32_small w) by done. destruct (Z.leb_spec (p_sz p) w) as [H1|H1].
  - cbn [orb]. by rewrite (proj2 (Z.ltb_ge _ _)).
  - rewrite (proj2 (Z.ltb_lt w _)), s32_small, u32_small by lia. cbn [orb andb].
    destruct (Z.ltb_spec (p_sz p) (w + size)), (Z.leb_spec (w + size) (p_sz p)); (done || lia).
Qed.

Lemma fetchstr_loop_run fuel : forall s acc,
  0 <= s <= p_sz p -> p_sz p - s <= Z.of_nat fuel ->
  (forall str, no_nul str -> s + Z.of_nat (length str) < p_sz p -> window u s (Z.of_nat (length str)) = str ->
    u (s + Z.of_nat (length str)) = x00 -> fetchstr_loop s (p_sz p) acc fuel k = Ok (Some (acc ++ str)) k) /\
  ((forall va, s <= va < p_sz p -> u va <> x00) -> fetchstr_loop s (p_sz p) acc fuel k = Ok None k).
Proof.
  induction fuel as [|fuel IH]; intros s acc Hs Hf; cbn [fetchstr_loop].
  all: destruct (Z.ltb_spec s (p_sz p)) as [Hlt|Hge]; [|split; [intros str _ Hl; lia|done]].
  { lia. }
  rewrite (bind_Ok _ _ _ _ _ (get_va_run 1 s ltac:(lia) ltac:(lia))).
  change (Z.of_nat 1) with 1. rewrite window_one. cbn [hd]. destruct (IH (s + 1) (acc ++ [u s])) as [IH1 IH2]; [lia|lia|]. split.
  - intros str Hn Hl Hw Hz. destruct str as [|c str].
    + cbn in Hz. rewrite Z.add_0_r in Hz. rewrite bool_decide_eq_true_2 by done. by rewrite app_nil_r.
    + replace (Z.of_nat (length (c :: str))) with (1 + Z.of_nat (length str)) in * by (cbn [length]; lia).
      rewrite window_app, window_one in Hw by lia.
      injection Hw as Hc Hw. unfold no_nul in Hn. rewrite not_elem_of_cons in Hn. destruct Hn as [Hc0 Hn].
      rewrite bool_decide_eq_false_2 by congruence. rewrite (IH1 str Hn); try done; [|lia|by rewrite <- Z.add_assoc].
      by rewrite <- app_assoc, Hc.
  - intros Hno. rewrite bool_decide_eq_false_2 by (apply Hno; lia). apply IH2. intros va Hva. apply Hno. lia.
Qed.

End Args.

(** No system call argument makes the kernel read outside the process: [argint] and
    [argptr] return for every stack pointer, leave the state alone, and yield the word on
    the user stack if its four bytes lie below the size of the process, and -1 otherwise;
    a pointer is accepted exactly when the whole buffer of [size] bytes lies below the
    size. *)
Theorem args_checked k me p u n size :
  in_user k me p u -> 0 <= size < 2 ^ 31 ->
  let a := arg_addr p n in
  let w := uword u a in
  argint n k = Ok (if a + 4 <=? p_sz p then Some (s32 w) else None) k /\
  argptr n size k = Ok (if (a + 4 <=? p_sz p) && (w <? p_sz p) && (w + size <=? p_sz p) then Some w else None) k /\
  forall q k', argptr n size k = Ok (Some q) k' -> 0 <= q /\ q + size <= p_sz p <= KERNBASE.
Proof.
  intros U Hz a w. split; [by apply (argint_run k me)|]. split; [by apply (argptr_run k me)|].
  intros q k'. rewrite (argptr_run k me p u) by done. fold a. fold w.
  destruct (_ && _) eqn:E; [|done]. intros [= <- <-]. bool_hyps. pose proof (uword_range u a : 0 <= w < 2 ^ 32).
  pose proof (iu_size _ _ _ _ U). lia.
Qed.

(** [fetchstr] finds the string at every address a process may pass: it returns the
    characters before the first NUL if there is one below the size of the process, and -1
    if there is none; it reads nothing above the size and always ends. *)
Theorem fetchstr_correct k me p u addr :
  in_user k me p u -> 0 <= addr < 2 ^ 32 ->
  (forall str, no_nul str -> addr + Z.of_nat (length str) < p_sz p ->
    window u addr (Z.of_nat (length str)) = str -> u (addr + Z.of_nat (length str)) = x00 ->
    fetchstr addr k = Ok (Some str) k) /\
  ((forall va, addr <= va < p_sz p -> u va <> x00) -> fetchstr addr k = Ok None k).
Proof.
  intros U Ha. unfold fetchstr. rewrite (bind_Ok _ _ _ _ _ (myproc_run k me p u U)).
  destruct (Z.leb_spec (p_sz p) addr) as [Hge|Hlt]; [split; [intros; lia|done]|].
  apply (fetchstr_loop_run k me p u U); lia.
Qed.

(** The check of [argptr] has a hole: a negative size passes for every pointer into the
    process that is at least that large, so [read] and [write] with a negative count get
    a buffer of which nothing has been checked but its first byte. *)
Theorem argptr_negative k me p u n size :
  in_user k me p u -> arg_addr p n + 4 <= p_sz p ->
  uword u (arg_addr p n) < p_sz p -> - uword u (arg_addr p n) <= size < 0 ->
  argptr n size k = Ok (Some (uword u (arg_addr p n))) k.
Proof.
  intros U Ha Hw Hz. pose proof (iu_size _ _ _ _ U) as Hs. change KERNBASE with 0x80000000 in Hs.
  pose proof (uword_range u (arg_addr p n)) as Hr. unfold argptr.
  rewrite (bind_Ok _ _ _ _ _ (argint_run k me p u U n)), (bind_Ok _ _ _ _ _ (myproc_run k me p u U)).
  rewrite (proj2 (Z.leb_le _ _)) by done. set (w := uword u (arg_addr p n)) in *.
  rewrite u32_s32, (u32_small w), s32_small, u32_small by lia.
  rewrite (proj2 (Z.leb_gt _ _)), (proj2 (Z.ltb_ge _ _)) by lia. done.
Qed.

End Syscalls.

(** ** Witnesses *)

#[local] Existing Instance example_image.
#[local] Existing Instance example_image_ok.
#[local] Instance user_wakeups : Wakeups := 1%nat.

Lemma ex_user : exists s d u, in_user (ex_kernel ex_name s d) 0 (ex_proc ex_name d) u.
Proof.
  destruct image_example as (s & d & l & Hu & _). exists s, d, (fun va => default x00 (uread (mm s) d va)).
  split; try done.
  - apply (pt_wf _ _ _ (uv_inv _ _ _ _ Hu)).
  - intros va Hva. change (p_sz (ex_proc ex_name d)) with 8192 in Hva.
    destruct (uv_some _ _ _ _ Hu va) as (e & E & _); [klia|lia|].
    change (mm (ms (ex_kernel ex_name s d))) with (mm s). change (p_pgdir (ex_proc ex_name d)) with d.
    unfold uread. rewrite E. done.
Qed.

(** A process that stored the word 16 at address 4, where its stack holds the first
    argument. *)
Definition ex_stores : list op :=
  [OWrite 4 x10; OWrite 5 x00; OWrite 6 x00; OWrite 7 x00; OFork; OFork; OFork].

Definition ex_caller (d : Z) : proc :=
  Proc 4096 d 0 RUNNING 1 None tf0 Resume None false (replicate 16 None) (Some 0%nat) ex_name.

Lemma ex_word : exists k d u, in_user k 0 (ex_caller d) u /\ uword u 4 = 16.
Proof.
  destruct (ex_minv ex_name eq_refl) as (s & d & l & Hi & Hlen). set (m := AMach [uread (mm s) d] 0).
  pose proof (ex_refines ex_name s d : refines _ 1 0 m) as Hr.
  pose proof (refine_runs _ 2 ex_stores _ l 1 0 (ex_proc ex_name d) m Hi Hr) as W. cbn [need ex_stores] in W.
  specialize (W ltac:(cbn [ops_ok ex_stores]; split_and!; (done || klia)) ltac:(lia)).
  apply wp_Ok in W as ([] & k & _ & l' & n' & me' & p' & [Hc _ _ _ _ _ Hu] & (E1 & E2 & E3)).
  cbn in E1. subst me'. destruct (ck_cur _ _ _ _ _ Hc) as (Hcur & Hn & Hp). 
  set (v := vset 7 x00 (vset 6 x00 (vset 5 x00 (vset 4 x10 (uread (mm s) d))))).
  assert (Hv : forall va, 0 <= va < KERNBASE -> v va = uread (mm (ms k)) (p_pgdir p') va).
  { intros va Hva. by apply (E3 0%nat p' v va Hp). }
  assert (Hin : space p' ∈ spaces k n').
  { apply list_elem_of_fmap. exists p'. split; [done|]. apply list_elem_of_lookup. exists 0%nat.
    by rewrite lookup_take_lt. }
  pose proof (cw_uvm _ _ _ (ck_cow _ _ _ _ _ Hc) _ _ Hin) as Huv.
  exists (ks_procs [ex_caller (p_pgdir p')] k), (p_pgdir p'), (fun va => default x00 (v va)).
  split; [|reflexivity]. split; try done.
  - apply (ck_cr3 _ _ _ _ _ Hc).
  - apply (pt_wf _ _ _ (uv_inv _ _ _ _ Huv)).
  - intros va Hva. change (p_sz (ex_caller (p_pgdir p'))) with 4096 in Hva.
    change (uread (mm (ms k)) (p_pgdir p') va = Some (default x00 (v va))). rewrite Hv by klia.
    destruct (Hu 0%nat p' va Hp ltac:(lia)) as [(e & E & _) _]; [lia|klia|]. unfold uread. by rewrite E.
Qed.

