(* ===== verification/User.v ===== *)
(** * User programs: their machine, ulib.c and printf.c

    A user process as its programs see it: files that answer reads with chunks of
    bytes, and the bytes it has written.  A C string is the list of its characters
    before the NUL; routines that move memory act on addresses. *)

From S2P Require Import Prelude Layout Mem Bytes.

Open Scope Z_scope.

(** ** System calls *)

(** What one [read] returns: bytes, or an error.  A file answers the reads of a
    descriptor in turn, and then with the end of the file. *)
Inductive reply : Type := Data (bs : list byte) | ReadError.

(** Calls that only succeed or fail. *)
Inductive ucall : Type :=
  | Unlink (name : list byte)
  | Link (old new : list byte)
  | Mkdir (name : list byte)
  | Kill (pid : Z)
  | Close (fd : Z).

Record ustate : Type := US {
  u_files : list byte -> option (list reply);
  u_fds : Z -> list reply;
  u_next : Z;
  u_out : list (Z * byte);
  u_fails : ucall -> bool;
  u_calls : list ucall
}.

Definition U (A : Type) : Type := M ustate A.

(** [exit] does not return. *)
Definition exit_ {A} : U A := panic "exit".

Definition open_ (name : list byte) : U Z :=
  let! s := get in
  match u_files s name with
  | None => ret (-1)
  | Some rs =>
      modify (fun s => US (u_files s) (fun fd => if fd =? u_next s then rs else u_fds s fd) (u_next s + 1) (u_out s)
        (u_fails s) (u_calls s)) ;;;
      ret (u_next s)
  end.

(** At most [n] bytes; the rest of a chunk is left for the next read.  [None] is the
    result -1. *)
Definition read_ (fd n : Z) : U (option (list byte)) :=
  let! rs := gets (fun s => u_fds s fd) in
  let set (rs : list reply) : U unit :=
    modify (fun s => US (u_files s) (fun fd' => if fd' =? fd then rs else u_fds s fd') (u_next s) (u_out s)
      (u_fails s) (u_calls s)) in
  match rs with
  | [] => ret (Some [])
  | ReadError :: rs => set rs ;;; ret None
  | Data bs :: rs =>
      let rest := drop (Z.to_nat n) bs in
      set (if bool_decide (rest = []) then rs else Data rest :: rs) ;;;
      ret (Some (take (Z.to_nat n) bs))
  end.

Definition write_ (fd : Z) (bs : list byte) : U unit :=
  modify (fun s => US (u_files s) (u_fds s) (u_next s) (u_out s ++ ((fun b => (fd, b)) <$> bs)) (u_fails s) (u_calls s)).

(** The result of one of the other calls, which is kept in the state. *)
Definition call (c : ucall) : U Z :=
  modify (fun s => US (u_files s) (u_fds s) (u_next s) (u_out s) (u_fails s) (u_calls s ++ [c])) ;;;
  let! s := get in
  ret (if u_fails s c then -1 else 0).

(** ** ulib.c *)

Fixpoint strcpy_loop (m : mem) (s t : Z) (fuel : nat) : option mem :=
  match fuel with
  | O => None
  | S fuel =>
      let m := upd m s (m t) in
      if bool_decide (m s = x00) then Some m else strcpy_loop m (s + 1) (t + 1) fuel
  end.

Definition strcpy (fuel : nat) (m : mem) (s t : Z) : option mem := strcpy_loop m s t fuel.

(** [(uchar)*p - (uchar)*q] at the first difference; the NULs are characters, too. *)
Fixpoint strcmp (p q : list byte) : Z :=
  match p, q with
  | a :: p, b :: q => if bool_decide (a = b) then strcmp p q else b2z a - b2z b
  | a :: _, [] => b2z a
  | [], b :: _ => - b2z b
  | [], [] => 0
  end.

Fixpoint strlen (s : list byte) : Z :=
  match s with
  | [] => 0
  | _ :: s => 1 + strlen s
  end.

Definition memset (m : mem) (dst c n : Z) : mem := stosb m dst c (Z.to_nat n).

(** The index of the first [c] in the string. *)
Fixpoint strchr (s : list byte) (c : byte) : option nat :=
  match s with
  | [] => None
  | a :: s => if bool_decide (a = c) then Some 0%nat else S <$> strchr s c
  end.

(** [for(i=0; i+1 < max; )] of [gets], with the characters read so far. *)
Fixpoint gets_loop (buf : list byte) (max : nat) : U (list byte) :=
  match max with
  | O | 1%nat => ret buf
  | S max =>
      let! cc := read_ 0 1 in
      match cc with
      | Some [c] =>
          if bool_decide (c = x0a) || bool_decide (c = x0d) then ret (buf ++ [c])
          else gets_loop (buf ++ [c]) max
      | _ => ret buf
      end
  end.

Definition gets (max : Z) : U (list byte) := gets_loop [] (Z.to_nat max).

(** [n = n*10 + *s++ - '0'], in an [int]. *)
Fixpoint atoi_loop (n : Z) (s : list byte) : Z :=
  match s with
  | c :: s => if (48 <=? b2z c) && (b2z c <=? 57) then atoi_loop (s32 (n * 10 + b2z c - 48)) s else n
  | [] => n
  end.

Definition atoi (s : list byte) : Z := atoi_loop 0 s.

(** [while(n-- > 0) *dst++ = *src++;] *)
Definition memmove (m : mem) (vdst vsrc n : Z) : mem := copy_up m vdst vsrc (Z.to_nat n).

(** ** printf.c *)

Definition putc (fd : Z) (c : byte) : U unit := write_ fd [c].

Fixpoint puts (fd : Z) (l : list byte) : U unit :=
  match l with
  | [] => ret tt
  | c :: l => putc fd c ;;; puts fd l
  end.

Definition udigit (d : Z) : byte :=
  nth (Z.to_nat d) ["0"; "1"; "2"; "3"; "4"; "5"; "6"; "7"; "8"; "9"; "A"; "B"; "C"; "D"; "E"; "F"]%byte x00.

(** The digits put into [buf], least significant first: sixteen at most. *)
Fixpoint udigits (x base : Z) (fuel : nat) : list byte :=
  match fuel with
  | O => []
  | S fuel => udigit (x mod base) :: (if x / base =? 0 then [] else udigits (x / base) base fuel)
  end.

Definition printint (fd xx base : Z) (sgn : bool) : U unit :=
  let neg := sgn && (s32 xx <? 0) in
  let x := if neg then u32 (- xx) else u32 xx in
  puts fd (rev (udigits x base 16 ++ (if neg then ["-"%byte] else []))).

(** A word on the stack, or a string pointer that may be null. *)
Inductive uarg : Type := UInt (v : Z) | UStr (s : option (list byte)).

Definition arg_word (args : list uarg) : Z := match args with UInt v :: _ => v | _ => 0 end.
Definition arg_chars (args : list uarg) : list byte :=
  match args with
  | UStr (Some s) :: _ => s
  | _ => ["("; "n"; "u"; "l"; "l"; ")"]%byte
  end.

(** The loop over the format; [state] is whether the last character was a [%]. *)
Fixpoint printf_loop (fd : Z) (fmt : list byte) (state : bool) (args : list uarg) : U unit :=
  match fmt with
  | [] => ret tt
  | c :: fmt =>
      if negb state then
        if bool_decide (c = "%"%byte) then printf_loop fd fmt true args
        else putc fd c ;;; printf_loop fd fmt false args
      else
        if bool_decide (c = "d"%byte) then
          printint fd (arg_word args) 10 true ;;; printf_loop fd fmt false (tail args)
        else if bool_decide (c = "x"%byte) || bool_decide (c = "p"%byte) then
          printint fd (arg_word args) 16 false ;;; printf_loop fd fmt false (tail args)
        else if bool_decide (c = "s"%byte) then
          puts fd (arg_chars args) ;;; printf_loop fd fmt false (tail args)
        else if bool_decide (c = "c"%byte) then
          putc fd (z2b (arg_word args)) ;;; printf_loop fd fmt false (tail args)
        else if bool_decide (c = "%"%byte) then
          putc fd c ;;; printf_loop fd fmt false args
        else
          putc fd "%"%byte ;;; putc fd c ;;; printf_loop fd fmt false args
  end.

Definition printf (fd : Z) (fmt : list byte) (args : list uarg) : U unit := printf_loop fd fmt false args.

(** A string constant of the programs, and one that ends in a newline. *)
Definition str (s : string) : list byte := String.list_byte_of_string s.
Definition line (s : string) : list byte := str s ++ [x0a].
