(* ===== verification/Grep.v ===== *)
(** * grep.c

    The regular expression matcher against the languages of regular expressions, and
    the loop that reads lines through one buffer. *)

From S2P Require Import Prelude Layout Mem Bytes User.

Open Scope Z_scope.

(** ** The matcher *)

Definition star : byte := "*"%byte.
Definition dot : byte := "."%byte.
Definition dollar : byte := "$"%byte.
Definition caret : byte := "^"%byte.

(** [re[0]=='.' || re[0]==*text] *)
Definition char_ok (c t : byte) : bool := bool_decide (c = dot) || bool_decide (c = t).

(** The do-while loop: try [matchhere] of the rest, given as a function, here and behind
    each further character that [c] admits. *)
Fixpoint matchstar (c : byte) (here : list byte -> bool) (text : list byte) : bool :=
  if here text then true
  else match text with
       | [] => false
       | t :: text => if char_ok c t then matchstar c here text else false
       end.

Fixpoint matchhere (re : list byte) (text : list byte) {struct re} : bool :=
  match re with
  | [] => true
  | c :: re1 =>
      match re1 with
      | s :: re2 => if bool_decide (s = star) then matchstar c (matchhere re2) text
                    else match text with
                         | [] => false
                         | t :: text => if char_ok c t then matchhere re1 text else false
                         end
      | [] => if bool_decide (c = dollar) then bool_decide (text = [])
              else match text with
                   | [] => false
                   | t :: text => if char_ok c t then matchhere re1 text else false
                   end
      end
  end.

(** The do-while loop of [match]: every suffix, the empty one included. *)
Fixpoint match_loop (re text : list byte) : bool :=
  if matchhere re text then true
  else match text with
       | [] => false
       | _ :: text => match_loop re text
       end.

Definition match_ (re text : list byte) : bool :=
  match re with
  | c :: re1 => if bool_decide (c = caret) then matchhere re1 text else match_loop re text
  | [] => match_loop re text
  end.

(** ** Regular expressions and their languages *)

Inductive regex : Type :=
  | Eps
  | Chr (c : byte)
  | Any
  | Cat (r1 r2 : regex)
  | Star (r : regex).

Inductive lang : regex -> list byte -> Prop :=
  | L_eps : lang Eps []
  | L_chr c : lang (Chr c) [c]
  | L_any c : lang Any [c]
  | L_cat r1 r2 s1 s2 : lang r1 s1 -> lang r2 s2 -> lang (Cat r1 r2) (s1 ++ s2)
  | L_star_nil r : lang (Star r) []
  | L_star_app r s1 s2 : lang r s1 -> lang (Star r) s2 -> lang (Star r) (s1 ++ s2).

(** The pattern as a regular expression: [c*] repeats a character, [.] is any, [$] at the
    end of the pattern is the end of the line; without it anything may follow. *)
Definition sym (c : byte) : regex := if bool_decide (c = dot) then Any else Chr c.

Fixpoint tail_regex (re : list byte) : regex :=
  match re with
  | [] => Star Any
  | c :: re1 =>
      match re1 with
      | s :: re2 => if bool_decide (s = star) then Cat (Star (sym c)) (tail_regex re2)
                    else Cat (sym c) (tail_regex re1)
      | [] => if bool_decide (c = dollar) then Eps else Cat (sym c) (tail_regex re1)
      end
  end.

(** [^] at the start is the start of the line; without it anything may precede. *)
Definition pattern_regex (re : list byte) : regex :=
  match re with
  | c :: re1 => if bool_decide (c = caret) then tail_regex re1 else Cat (Star Any) (tail_regex re)
  | [] => Cat (Star Any) (tail_regex re)
  end.

(** ** The line filter *)

(** The memory begins with [buf]. *)
Definition BUFSIZE : Z := 1024.

(** [strchr] for a newline: the offset from [p] of the first newline before the first NUL; [None]
    if the string ends without one.  A string that leaves the memory faults. *)
Fixpoint find_nl (l : list byte) : U (option nat) :=
  match l with
  | [] => panic "fault"
  | c :: l =>
      if bool_decide (c = x00) then ret None
      else if bool_decide (c = x0a) then ret (Some 0%nat)
      else let! r := find_nl l in ret (S <$> r)
  end.

(** The loop over the lines in the buffer: the final [p] and the memory. *)
Fixpoint grep_lines (pattern : list byte) (mem : list byte) (p : nat) (fuel : nat) : U (nat * list byte) :=
  match fuel with
  | O => nofuel
  | S fuel =>
      let! r := find_nl (drop p mem) in
      match r with
      | None => ret (p, mem)
      | Some n =>
          let q := (p + n)%nat in
          let mem := <[q := x00]> mem in
          let! mem :=
            if match_ pattern (cstring (drop p mem)) then
              let mem := <[q := x0a]> mem in
              write_ 1 (take (q + 1 - p) (drop p mem)) ;;;
              ret mem
            else ret mem in
          grep_lines pattern mem (q + 1) fuel
      end
  end.

(** The read loop of [grep].  When the search ran past the bytes just read, [m] becomes
    negative; nothing is moved then, and what the next read returns is stored before the
    buffer, which the model ends as a fault. *)
Fixpoint grep_loop (pattern : list byte) (fd : Z) (mem : list byte) (m : Z) (fuel : nat) : U (list byte) :=
  match fuel with
  | O => nofuel
  | S fuel =>
      let! r := read_ fd (BUFSIZE - m) in
      match r with
      | None | Some [] => ret mem
      | Some bs =>
          if m <? 0 then panic "fault" else
          let mem := splice m bs mem in
          let m := m + Z.of_nat (length bs) in
          let! r := grep_lines pattern mem 0 (length mem) in
          let (p, mem) := (r : nat * list byte) in
          let m := if (p =? 0)%nat then 0 else m in
          if 0 <? m then
            let m := m - Z.of_nat p in
            grep_loop pattern fd (splice 0 (slice (Z.of_nat p) m mem) mem) m fuel
          else grep_loop pattern fd mem m fuel
      end
  end.

Definition grep (pattern : list byte) (fd : Z) (mem : list byte) (fuel : nat) : U (list byte) :=
  grep_loop pattern fd mem 0 fuel.

(** [main] of grep. *)
Fixpoint grep_files (pattern : list byte) (files : list (list byte)) (mem : list byte) (fuel : nat) : U unit :=
  match files with
  | [] => exit_
  | f :: files =>
      let! fd := open_ f in
      if fd <? 0 then
        printf 1 (line "grep: cannot open %s") [UStr (Some f)] ;;;
        exit_
      else
        let! mem := grep pattern fd mem fuel in
        call (Close fd) ;;;
        grep_files pattern files mem fuel
  end.

Definition grep_main (argv : list (list byte)) (mem : list byte) (fuel : nat) : U unit :=
  match argv with
  | [] | [_] =>
      printf 2 (line "usage: grep pattern [file ...]") [] ;;;
      exit_
  | [_; pattern] => grep pattern 0 mem fuel ;;; exit_
  | _ :: pattern :: files => grep_files pattern files mem fuel
  end.

(** ** The matcher is correct *)

Lemma lang_all s : lang (Star Any) s.
Proof.
  induction s as [|c s IH]; [constructor|]. change (c :: s) with ([c] ++ s). constructor; [constructor|done].
Qed.

Lemma lang_sym c s : lang (sym c) s <-> exists t, s = [t] /\ char_ok c t = true.
Proof.
  unfold sym, char_ok. case_bool_decide as Hc; cbn [orb].
  - split; [inversion 1; eauto|]. intros (t & -> & _). constructor.
  - split; [|intros (t & -> & ->%bool_decide_eq_true); constructor].
    inversion 1; subst. eexists. split; [done|]. by apply bool_decide_eq_true.
Qed.

(** A language split at the first character. *)
Lemma lang_cat_sym c r s :
  lang (Cat (sym c) r) s <-> exists t s', s = t :: s' /\ char_ok c t = true /\ lang r s'.
Proof.
  split.
  - inversion 1 as [| | |r1 r2 s1 s2 H1 H2| |]; subst. apply lang_sym in H1 as (t & -> & Ht). by exists t, s2.
  - intros (t & s' & -> & Ht & Hr). change (t :: s') with ([t] ++ s'). constructor; [apply lang_sym; eauto|done].
Qed.

Lemma lang_cat_star c r s :
  lang (Cat (Star (sym c)) r) s <->
  lang r s \/ exists t s', s = t :: s' /\ char_ok c t = true /\ lang (Cat (Star (sym c)) r) s'.
Proof.
  split.
  - inversion 1 as [| | |r1 r2 s1 s2 H1 H2| |]; subst. inversion H1 as [| | | | |r' a b Ha Hb]; subst; [by left|].
    apply lang_sym in Ha as (t & -> & Ht). right. exists t, (b ++ s2). split; [done|]. split; [done|]. by constructor.
  - intros [Hr|(t & s' & -> & Ht & Hr)].
    + change s with ([] ++ s). constructor; [constructor|done].
    + inversion Hr as [| | |r1 r2 s1 s2 H1 H2| |]; subst. change (t :: s1 ++ s2) with (([t] ++ s1) ++ s2).
      constructor; [|done]. constructor; [apply lang_sym; eauto|done].
Qed.

Lemma matchstar_spec c here r :
  (forall t, here t = true <-> lang r t) -> forall text,
  matchstar c here text = true <-> lang (Cat (Star (sym c)) r) text.
Proof.
  intros Hh. induction text as [|t text IH]; cbn [matchstar]; rewrite lang_cat_star.
  - destruct (here []) eqn:E; [by rewrite <- Hh, E; intuition|]. rewrite <- Hh, E. naive_solver.
  - destruct (here (t :: text)) eqn:E; [by rewrite <- Hh, E; intuition|]. rewrite <- Hh, E.
    destruct (char_ok c t) eqn:Ec; [rewrite IH|]; naive_solver.
Qed.

Lemma matchone_spec c r here text :
  (forall t, here t = true <-> lang r t) ->
  match text with [] => false | t :: text => if char_ok c t then here text else false end = true <->
  lang (Cat (sym c) r) text.
Proof.
  intros Hh. rewrite lang_cat_sym. destruct text as [|t text]; [naive_solver|].
  destruct (char_ok c t) eqn:E; [rewrite Hh|]; naive_solver.
Qed.

Lemma matchhere_spec n : forall re text, (length re <= n)%nat ->
  matchhere re text = true <-> lang (tail_regex re) text.
Proof.
  induction n as [|n IH]; intros re text Hn; (destruct re as [|c re1]; [split; [intros; apply lang_all|done]|]);
    cbn [length] in Hn; [lia|]. destruct re1 as [|s re2].
  - cbn [matchhere tail_regex]. case_bool_decide as Hd.
    + rewrite bool_decide_eq_true. split; [intros ->; constructor|by inversion 1].
    + apply (matchone_spec c _ (matchhere [])). intros t. apply IH. cbn. lia.
  - cbn [length] in Hn. change (matchhere (c :: s :: re2) text) with
      (if bool_decide (s = star) then matchstar c (matchhere re2) text
       else match text with [] => false | t :: text => if char_ok c t then matchhere (s :: re2) text else false end).
    change (tail_regex (c :: s :: re2)) with
      (if bool_decide (s = star) then Cat (Star (sym c)) (tail_regex re2) else Cat (sym c) (tail_regex (s :: re2))).
    case_bool_decide as Hs.
    + apply matchstar_spec. intros t. apply IH. lia.
    + apply (matchone_spec c _ (matchhere (s :: re2))). intros t. apply IH. cbn. lia.
Qed.

Lemma match_loop_spec re text : match_loop re text = true <-> lang (Cat (Star Any) (tail_regex re)) text.
Proof.
  change Any with (sym dot). induction text as [|t text IH]; cbn [match_loop]; rewrite lang_cat_star, <- (matchhere_spec _ re _ (le_n _)).
  - destruct (matchhere re []); naive_solver.
  - destruct (matchhere re (t :: text)); [naive_solver|]. rewrite IH. split.
    + intros Hl. right. by exists t, text.
    + intros [?|(t' & s' & [= <- <-] & _ & Hl)]; [done|done].
Qed.

(** C28. The matcher of [grep] decides the language of the pattern: for every pattern and
    line it returns, and its answer is yes exactly if the line is in the language of the
    regular expression that the pattern denotes. *)
Theorem match_regex re text : match_ re text = true <-> lang (pattern_regex re) text.
Proof.
  unfold match_, pattern_regex. destruct re as [|c re1]; [apply match_loop_spec|].
  case_bool_decide; [by apply (matchhere_spec (length re1))|apply match_loop_spec].
Qed.

(** ** The lines printed *)

Definition unlines (ls : list (list byte)) : list byte := mjoin ((fun l => l ++ [x0a]) <$> ls).

Lemma unlines_cons l ls : unlines (l :: ls) = (l ++ [x0a]) ++ unlines ls.
Proof. done. Qed.

(** A line, or the end of a text: no newline, no NUL. *)
Definition clean (l : list byte) : Prop := x0a ∉ l /\ x00 ∉ l.

Lemma find_nl_line l rest st : clean l -> find_nl (l ++ x0a :: rest) st = Ok (Some (length l)) st.
Proof.
  induction l as [|c l IH]; intros [H1 H2]; cbn [app find_nl]; [done|]. rewrite not_elem_of_cons in H1, H2.
  rewrite !bool_decide_eq_false_2 by naive_solver. unfold bind. rewrite IH by (unfold clean; tauto). done.
Qed.

Lemma find_nl_none l rest st : clean l -> find_nl (l ++ x00 :: rest) st = Ok None st.
Proof.
  induction l as [|c l IH]; intros [H1 H2]; cbn [app find_nl]; [done|]. rewrite not_elem_of_cons in H1, H2.
  rewrite !bool_decide_eq_false_2 by naive_solver. unfold bind. rewrite IH by (unfold clean; tauto). done.
Qed.

Lemma cstring_line l rest : clean l -> cstring (l ++ x00 :: rest) = l.
Proof.
  induction l as [|c l IH]; intros [H1 H2]; cbn [app cstring]; [done|]. rewrite not_elem_of_cons in H1, H2.
  rewrite bool_decide_eq_false_2 by naive_solver. by rewrite IH by (unfold clean; tauto).
Qed.

(** The state with more output. *)
Definition printed (bs : list byte) (st : ustate) : ustate :=
  US (u_files st) (u_fds st) (u_next st) (u_out st ++ ((fun b => (1, b)) <$> bs)) (u_fails st) (u_calls st).

Lemma printed_nil st : printed [] st = st.
Proof. destruct st. unfold printed. cbn. by rewrite app_nil_r. Qed.

Lemma printed_app bs1 bs2 st : printed bs2 (printed bs1 st) = printed (bs1 ++ bs2) st.
Proof. unfold printed. cbn. by rewrite fmap_app, app_assoc. Qed.

Section Lines.
Context (pattern : list byte).

(** The newline of a line that does not match is left as a NUL. *)
Definition after_line (l : list byte) : list byte := l ++ [if match_ pattern l then x0a else x00].

Lemma grep_lines_run ls tl rest : Forall clean ls -> clean tl -> forall pre fuel st,
  (length ls < fuel)%nat ->
  grep_lines pattern (pre ++ unlines ls ++ tl ++ x00 :: rest) (length pre) fuel st =
  Ok ((length pre + length (unlines ls))%nat, pre ++ mjoin (after_line <$> ls) ++ tl ++ x00 :: rest)
    (printed (unlines (filter (fun l => match_ pattern l = true) ls)) st).
Proof.
  intros Hls Htl. induction Hls as [|l ls Hl Hls IH]; intros pre fuel st Hf; (destruct fuel as [|fuel]; [cbn in Hf; lia|]).
  - cbn [grep_lines]. rewrite drop_app_length. change (unlines []) with (@nil byte).
    change (mjoin (after_line <$> [])) with (@nil byte). change (unlines (filter _ [])) with (@nil byte).
    cbn [app length]. unfold bind. rewrite find_nl_none by done. by rewrite printed_nil, Nat.add_0_r.
  - rewrite unlines_cons. rewrite <- !(app_assoc l). cbn [app].
    cbn [grep_lines]. rewrite drop_app_length. rewrite (bind_Ok _ _ _ _ _ (find_nl_line l _ st Hl)). cbv beta iota zeta.
    rewrite insert_app_r. rewrite <- (Nat.add_0_r (length l)), insert_app_r. cbn [insert list_insert].
    rewrite drop_app_length, cstring_line by done.
    set (rest' := unlines ls ++ tl ++ x00 :: rest).
    change (mjoin (after_line <$> l :: ls)) with (after_line l ++ mjoin (after_line <$> ls)).
    rewrite filter_cons. unfold after_line at 1. rewrite !Nat.add_0_r.
    assert (E : forall c st, grep_lines pattern (pre ++ l ++ c :: rest') (length pre + length l + 1) fuel st =
      Ok ((length pre + length (l ++ x0a :: unlines ls))%nat, pre ++ (l ++ [c]) ++ mjoin (after_line <$> ls) ++ tl ++ x00 :: rest)
        (printed (unlines (filter (fun l => match_ pattern l = true) ls)) st)).
    { intros c st0. replace (pre ++ l ++ c :: rest') with ((pre ++ l ++ [c]) ++ rest') by (by rewrite <- !app_assoc).
      replace (length pre + length l + 1)%nat with (length (pre ++ l ++ [c])) by (rewrite !length_app; cbn; lia).
      rewrite IH by (cbn in Hf; lia). do 2 f_equal; [rewrite !length_app; cbn; lia|by rewrite <- !app_assoc]. }
    destruct (match_ pattern l) eqn:Em.
    + rewrite decide_True by done. rewrite insert_app_r. rewrite <- (Nat.add_0_r (length l)), insert_app_r.
      cbn [insert list_insert]. rewrite !Nat.add_0_r, drop_app_length. cbv beta iota zeta.
      replace (take (length pre + length l + 1 - length pre) (l ++ x0a :: rest')) with (l ++ [x0a]).
      * erewrite bind_Ok by reflexivity. rewrite E. fold (printed (l ++ [x0a]) st). rewrite printed_app.
        by rewrite unlines_cons, <- !app_assoc.
      * replace (length pre + length l + 1 - length pre)%nat with (length (l ++ [x0a])) by (rewrite length_app; cbn; lia).
        replace (l ++ x0a :: rest') with ((l ++ [x0a]) ++ rest') by (by rewrite <- app_assoc). by rewrite take_app_length.
    + rewrite decide_False by done. erewrite bind_Ok by reflexivity. rewrite E. by rewrite <- !app_assoc.
Qed.

End Lines.

(** A read of a whole chunk, and the end of the file. *)
Definition consumed (fd : Z) (rs : list reply) (st : ustate) : ustate :=
  US (u_files st) (fun fd' => if fd' =? fd then rs else u_fds st fd') (u_next st) (u_out st)
    (u_fails st) (u_calls st).

Lemma read_chunk fd n bs rs st :
  u_fds st fd = Data bs :: rs -> Z.of_nat (length bs) <= n -> read_ fd n st = Ok (Some bs) (consumed fd rs st).
Proof.
  intros E Hn. unfold read_, bind, Prelude.gets. cbn. rewrite E. cbn.
  rewrite drop_ge, take_ge by lia. by rewrite bool_decide_eq_true_2.
Qed.

Lemma read_eof fd n st : u_fds st fd = [] -> read_ fd n st = Ok (Some []) st.
Proof. intros E. unfold read_, bind, Prelude.gets. cbn. by rewrite E. Qed.

(** One round with an empty buffer [mem], when the search ends at a NUL. *)
Lemma grep_round pattern fd mem ls tl rest bs rs fuel st :
  u_fds st fd = Data bs :: rs -> (0 < length bs <= 1024)%nat -> (1024 <= length mem)%nat ->
  bs ++ drop (length bs) mem = unlines ls ++ tl ++ x00 :: rest -> Forall clean ls -> clean tl ->
  exists mem' m', grep_loop pattern fd mem 0 (S fuel) st =
    grep_loop pattern fd mem' m' fuel (printed (unlines (filter (fun l => match_ pattern l = true) ls)) (consumed fd rs st)) /\
    (tl = [] -> Z.of_nat (length (unlines ls)) = Z.of_nat (length bs) -> m' = 0 /\
      mem' = mjoin (after_line pattern <$> ls) ++ x00 :: rest).
Proof.
  intros E Hb Hm Eb Hls Htl. cbn [grep_loop].
  rewrite (bind_Ok _ _ _ _ _ (read_chunk fd (BUFSIZE - 0) bs rs st E ltac:(unfold BUFSIZE; lia))). cbv beta iota zeta.
  destruct bs as [|b0 bs0]; [cbn in Hb; lia|]. set (bs := b0 :: bs0) in *. cbn [Z.ltb Z.compare].
  assert (Es : splice 0 bs mem = unlines ls ++ tl ++ x00 :: rest) by (unfold splice; cbn [Z.to_nat take app]; exact Eb).
  assert (El : length (splice 0 bs mem) = length mem) by (apply splice_length; lia).
  rewrite El, Es.
  assert (Hl : (length ls < length mem)%nat).
  { rewrite <- El, Es, !length_app. cbn. assert (length ls <= length (unlines ls))%nat; [|lia].
    clear. induction ls as [|l ls IH]; [done|]. rewrite unlines_cons, !length_app. cbn. lia. }
  pose proof (grep_lines_run pattern ls tl rest Hls Htl [] (length mem) (consumed fd rs st) Hl) as R. cbn [app length Nat.add] in R.
  rewrite (bind_Ok _ _ _ _ _ R). cbv beta iota zeta.
  set (mem1 := mjoin (after_line pattern <$> ls) ++ tl ++ x00 :: rest).
  destruct (0 <? _) eqn:Ec.
  - eexists _, _. split; [reflexivity|]. intros -> Hz. apply Z.ltb_lt in Ec. destruct (Nat.eqb_spec (length (unlines ls)) 0) as [E0|E0]; [lia|].
    rewrite Z.add_0_l, Hz, Z.sub_diag. split; [done|]. done.
  - eexists _, _. split; [reflexivity|]. intros -> Hz. apply Z.ltb_ge in Ec. split; [|done].
    destruct (_ =? 0)%nat; [done|]. cbn in Ec. lia.
Qed.

(** C29. A file that arrives in one read of less than 1024 bytes is filtered correctly:
    [grep] prints exactly the complete lines in the language of the pattern, in order,
    each with its newline, and nothing else. *)
Theorem grep_filters pattern fd rest ls tl st fuel :
  Forall clean ls -> clean tl -> (length (unlines ls ++ tl) < 1024)%nat -> (2 <= fuel)%nat ->
  u_fds st fd = [Data (unlines ls ++ tl)] ->
  exists mem' st', grep pattern fd (replicate 1024 x00 ++ rest) fuel st = Ok mem' st' /\
    u_out st' = u_out st ++ ((fun b => (1, b)) <$> unlines (filter (fun l => match_ pattern l = true) ls)).
Proof.
  intros Hls Htl Hlen Hf E. set (bs := unlines ls ++ tl) in *. destruct fuel as [|[|fuel]]; try lia. unfold grep.
  destruct (decide (bs = [])) as [E0|Hne].
  - assert (ls = []) as ->. { destruct ls as [|l ls]; [done|]. unfold bs in E0. rewrite unlines_cons in E0. by destruct l. }
    cbn [grep_loop]. rewrite (bind_Ok _ _ _ _ _ (read_chunk fd (BUFSIZE - 0) bs [] st E ltac:(unfold BUFSIZE; lia))). rewrite E0.
    eexists _, _. split; [reflexivity|]. cbn. by rewrite app_nil_r.
  - assert (Hd : bs ++ drop (length bs) (replicate 1024 x00 ++ rest) =
      unlines ls ++ tl ++ x00 :: (replicate (1023 - length bs) x00 ++ rest)).
    { unfold bs. rewrite <- app_assoc. do 2 f_equal. fold bs. rewrite drop_app_le by (rewrite length_replicate; lia).
      rewrite drop_replicate. replace (1024 - length bs)%nat with (S (1023 - length bs)) by lia. done. }
    assert (Hb : (0 < length bs)%nat) by (destruct bs; [done|cbn; lia]).
    destruct (grep_round pattern fd (replicate 1024 x00 ++ rest) ls tl _ bs [] (S fuel) st E ltac:(lia)
      ltac:(rewrite length_app, length_replicate; lia) Hd Hls Htl) as (mem' & m' & R & _).
    rewrite R. cbn [grep_loop]. erewrite bind_Ok; [|apply read_eof; cbn; by rewrite Z.eqb_refl].
    eexists _, _. split; [reflexivity|]. done.
Qed.

(** Later reads print old lines again: the buffer is searched past the bytes just
    read, so when a second read brings a line as long as the first one of the buffer, the
    lines left behind it that match are printed a second time. *)
Theorem grep_repeats pattern fd rest l1 l2 l3 st fuel :
  clean l1 -> clean l2 -> clean l3 -> length l3 = length l1 -> (length l1 + length l2 < 1022)%nat ->
  match_ pattern l2 = true -> (3 <= fuel)%nat ->
  u_fds st fd = [Data (unlines [l1; l2]); Data (unlines [l3])] ->
  exists mem' st', grep pattern fd (replicate 1024 x00 ++ rest) fuel st = Ok mem' st' /\
    u_out st' = u_out st ++ ((fun b => (1, b)) <$>
      unlines (filter (fun l => match_ pattern l = true) [l1; l2; l3; l2])).
Proof.
  intros H1 H2 H3 El Hlen Hm Hf E. destruct fuel as [|[|[|fuel]]]; try lia. unfold grep.
  assert (Hn : clean []) by (split; apply not_elem_of_nil).
  set (bs := unlines [l1; l2]) in *.
  assert (Hbs : length bs = (length l1 + length l2 + 2)%nat).
  { unfold bs. rewrite !unlines_cons. change (unlines []) with (@nil byte). rewrite !length_app. cbn. lia. }
  assert (Hd : bs ++ drop (length bs) (replicate 1024 x00 ++ rest) =
    unlines [l1; l2] ++ [] ++ x00 :: (replicate (1023 - length bs) x00 ++ rest)).
  { f_equal. rewrite drop_app_le by (rewrite length_replicate; lia). rewrite drop_replicate.
    replace (1024 - length bs)%nat with (S (1023 - length bs)) by lia. done. }
  destruct (grep_round pattern fd (replicate 1024 x00 ++ rest) [l1; l2] [] _ bs _ (S (S fuel)) st E ltac:(lia)
    ltac:(rewrite length_app, length_replicate; lia) Hd ltac:(apply Forall_cons; split; [done|]; apply Forall_cons; split; [done|apply Forall_nil_2]) Hn) as (mem1 & m1 & R1 & Hz).
  destruct (Hz eq_refl eq_refl) as [-> ->]. rewrite R1. clear R1 Hz.
  set (st1 := printed _ _). set (r1 := replicate (1023 - length bs) x00 ++ rest).
  change (mjoin (after_line pattern <$> [l1; l2])) with (after_line pattern l1 ++ after_line pattern l2 ++ []).
  unfold after_line. rewrite Hm, app_nil_r. set (mem1 := (l1 ++ _) ++ _).
  set (b3 := unlines [l3]). assert (Eb3 : b3 = l3 ++ [x0a]) by (unfold b3; rewrite unlines_cons; apply app_nil_r).
  assert (Hd3 : b3 ++ drop (length b3) (mem1 ++ x00 :: r1) = unlines [l3; l2] ++ [] ++ x00 :: r1).
  { unfold mem1. rewrite <- !(app_assoc (l1 ++ _)), drop_app_length' by (rewrite Eb3, !length_app, El; done).
    rewrite Eb3, !unlines_cons. change (unlines []) with (@nil byte). rewrite app_nil_r, <- !app_assoc. done. }
  destruct (grep_round pattern fd (mem1 ++ x00 :: r1) [l3; l2] [] r1 b3 [] (S fuel) st1) as (mem2 & m2 & R2 & _).
  { unfold st1. cbn. by rewrite Z.eqb_refl. }
  { rewrite Eb3, length_app. cbn. lia. }
  { unfold mem1, r1. rewrite !length_app. cbn [length]. rewrite !length_app, length_replicate. cbn [length]. lia. }
  { done. } { apply Forall_cons; split; [done|]. apply Forall_cons; split; [done|apply Forall_nil_2]. } { done. }
  rewrite R2. cbn [grep_loop]. erewrite bind_Ok; [|apply read_eof; cbn; by rewrite Z.eqb_refl].
  eexists _, _. split; [reflexivity|]. unfold st1. cbn [u_out printed consumed].
  rewrite <- app_assoc, <- fmap_app. do 2 f_equal.
  change [l1; l2; l3; l2] with ([l1; l2] ++ [l3; l2]). rewrite filter_app. unfold unlines. by rewrite fmap_app, join_app.
Qed.

(** ** Witnesses *)

#[global] Instance clean_dec l : Decision (clean l).
Proof. unfold clean. apply _. Defined.

Definition gx_state (rs : list reply) : ustate := US (fun _ => None) (fun _ => rs) 3 [] (fun _ => false) [].

Lemma grep_filters_witness : exists mem' st',
  grep (str "b*c$") 0 (replicate 1024 x00 ++ []) 2
    (gx_state [Data (unlines [str "abbc"; str "bcd"] ++ str "c")]) = Ok mem' st' /\
  u_out st' = [] ++ ((fun b => (1, b)) <$>
    unlines (filter (fun l => match_ (str "b*c$") l = true) [str "abbc"; str "bcd"])).
Proof.
  apply (grep_filters (str "b*c$") 0 [] [str "abbc"; str "bcd"] (str "c")).
  - apply (bool_decide_unpack _). vm_compute. exact I.
  - apply (bool_decide_unpack _). vm_compute. exact I.
  - cbn. lia.
  - lia.
  - reflexivity.
Defined.

