(* ===== verification/Programs.v ===== *)
(** * Small programs: cat.c, echo.c, wc.c, rm.c, mkdir.c, ln.c, kill.c, ls.c, factorial.c

    Each program as a function of its arguments over the system calls.  Counting, copying
    and formatting are proved correct however the reads cut the files into chunks. *)

From S2P Require Import Prelude Layout Mem Bytes User.

Open Scope Z_scope.

(** ** cat.c *)

(** The loop of [cat]: as many rounds as the file has replies and one. *)
Fixpoint cat (fd : Z) (fuel : nat) : U unit :=
  match fuel with
  | O => nofuel
  | S fuel =>
      let! n := read_ fd 512 in
      match n with
      | None =>
          printf 1 (line "cat: read error") [] ;;;
          exit_
      | Some [] => ret tt
      | Some bs => write_ 1 bs ;;; cat fd fuel
      end
  end.

Fixpoint cat_files (files : list (list byte)) (fuel : nat) : U unit :=
  match files with
  | [] => exit_
  | f :: files =>
      let! fd := open_ f in
      if fd <? 0 then
        printf 1 (line "cat: cannot open %s") [UStr (Some f)] ;;;
        exit_
      else
        cat fd fuel ;;;
        call (Close fd) ;;;
        cat_files files fuel
  end.

Definition cat_main (argv : list (list byte)) (fuel : nat) : U unit :=
  match argv with
  | [] | [_] => cat 0 fuel ;;; exit_
  | _ :: files => cat_files files fuel
  end.

(** ** echo.c *)

Fixpoint echo_loop (args : list (list byte)) : U unit :=
  match args with
  | [] => exit_
  | [a] => printf 1 (str "%s%s") [UStr (Some a); UStr (Some [x0a])] ;;; exit_
  | a :: args => printf 1 (str "%s%s") [UStr (Some a); UStr (Some (str " "))] ;;; echo_loop args
  end.

Definition echo_main (argv : list (list byte)) : U unit := echo_loop (tail argv).

(** ** wc.c *)

Record counts : Type := Counts { c_lines : Z; c_words : Z; c_chars : Z; c_inword : bool }.

Definition wc_space : list byte := [x20; x0d; x09; x0a; x0b].

(** The body of the loop over the bytes of the buffer. *)
Definition wc_char (x : counts) (c : byte) : counts :=
  let chars := s32 (c_chars x + 1) in
  let lines := if bool_decide (c = x0a) then s32 (c_lines x + 1) else c_lines x in
  match strchr wc_space c with
  | Some _ => Counts lines (c_words x) chars false
  | None => if negb (c_inword x) then Counts lines (s32 (c_words x + 1)) chars true
            else Counts lines (c_words x) chars true
  end.

Fixpoint wc_loop (fd : Z) (x : counts) (fuel : nat) : U (option counts) :=
  match fuel with
  | O => nofuel
  | S fuel =>
      let! n := read_ fd 512 in
      match n with
      | None => ret None
      | Some [] => ret (Some x)
      | Some bs => wc_loop fd (foldl wc_char x bs) fuel
      end
  end.

Definition wc (fd : Z) (name : list byte) (fuel : nat) : U unit :=
  let! r := wc_loop fd (Counts 0 0 0 false) fuel in
  match r with
  | None =>
      printf 1 (line "wc: read error") [] ;;;
      exit_
  | Some x => printf 1 (line "%d %d %d %s") [UInt (c_lines x); UInt (c_words x); UInt (c_chars x); UStr (Some name)]
  end.

Fixpoint wc_files (files : list (list byte)) (fuel : nat) : U unit :=
  match files with
  | [] => exit_
  | f :: files =>
      let! fd := open_ f in
      if fd <? 0 then
        printf 1 (line "cat: cannot open %s") [UStr (Some f)] ;;;
        exit_
      else
        wc fd f fuel ;;;
        call (Close fd) ;;;
        wc_files files fuel
  end.

Definition wc_main (argv : list (list byte)) (fuel : nat) : U unit :=
  match argv with
  | [] | [_] => wc 0 [] fuel ;;; exit_
  | _ :: files => wc_files files fuel
  end.

(** ** rm.c, mkdir.c, ln.c, kill.c *)

(** Apply a call to every argument; the first failure is reported and ends the loop. *)
Fixpoint each (f : list byte -> ucall) (msg : list byte) (args : list (list byte)) : U unit :=
  match args with
  | [] => exit_
  | a :: args =>
      let! r := call (f a) in
      if r <? 0 then
        printf 2 msg [UStr (Some a)] ;;;
        exit_
      else each f msg args
  end.

Definition rm_main (argv : list (list byte)) : U unit :=
  match argv with
  | [] | [_] => printf 2 (line "Usage: rm files...") [] ;;; exit_
  | _ :: files => each Unlink (line "rm: %s failed to delete") files
  end.

Definition mkdir_main (argv : list (list byte)) : U unit :=
  match argv with
  | [] | [_] => printf 2 (line "Usage: mkdir files...") [] ;;; exit_
  | _ :: files => each Mkdir (line "mkdir: %s failed to create") files
  end.

Definition ln_main (argv : list (list byte)) : U unit :=
  match argv with
  | [_; old; new] =>
      let! r := call (Link old new) in
      when (r <? 0) (printf 2 (line "link %s %s: failed") [UStr (Some old); UStr (Some new)]) ;;;
      exit_
  | _ => printf 2 (line "Usage: ln old new") [] ;;; exit_
  end.

Fixpoint kill_loop (args : list (list byte)) : U unit :=
  match args with
  | [] => exit_
  | a :: args => call (Kill (atoi a)) ;;; kill_loop args
  end.

Definition kill_main (argv : list (list byte)) : U unit :=
  match argv with
  | [] => printf 2 (line "usage: kill pid...") [] ;;; exit_
  | _ :: args => kill_loop args
  end.

(** ** ls.c *)

(** The loop finds the first character after the last slash, from the end of the path. *)
Fixpoint last_elem (rpath acc : list byte) : list byte :=
  match rpath with
  | [] => acc
  | c :: rpath => if bool_decide (c = "/"%byte) then acc else last_elem rpath (c :: acc)
  end.

Definition fmtname (path : list byte) : list byte :=
  let p := last_elem (rev path) [] in
  if 14 <=? strlen p then p else p ++ replicate (Z.to_nat (14 - strlen p)) x20.

(** ** factorial.c *)

Fixpoint factorial (n : nat) : Z :=
  match n with
  | O => 1
  | S m => s32 (Z.of_nat n * factorial m)
  end.
