(* ===== verification/UserProps.v ===== *)
(** * Theorems on the small programs

    Numbers printed by the library are read back by it; [cat] copies and [wc] counts
    whatever the chunks in which the file arrives. *)

From S2P Require Import Prelude Layout Mem Bytes User Programs.

Open Scope Z_scope.

(** ** Output *)

Definition wrote (fd : Z) (bs : list byte) (st : ustate) : ustate :=
  US (u_files st) (u_fds st) (u_next st) (u_out st ++ ((fun b => (fd, b)) <$> bs)) (u_fails st) (u_calls st).

Lemma wrote_nil fd st : wrote fd [] st = st.
Proof. destruct st. unfold wrote. cbn. by rewrite app_nil_r. Qed.

Lemma wrote_app fd bs1 bs2 st : wrote fd bs2 (wrote fd bs1 st) = wrote fd (bs1 ++ bs2) st.
Proof. unfold wrote. cbn. by rewrite fmap_app, app_assoc. Qed.

Lemma puts_run fd l : forall st, puts fd l st = Ok tt (wrote fd l st).
Proof.
  induction l as [|c l IH]; intros st; cbn [puts]; [by rewrite wrote_nil|].
  rewrite (bind_Ok (putc fd c) _ st tt (wrote fd [c] st)) by done. by rewrite IH, wrote_app.
Qed.

(** ** Numbers *)

Lemma udigit_val d : 0 <= d < 10 -> b2z (udigit d) = 48 + d.
Proof.
  intros Hd. assert (F : forallb (fun d => b2z (udigit d) =? 48 + d) (seqZ 0 10) = true) by (vm_compute; reflexivity).
  rewrite forallb_forall in F. specialize (F d ltac:(apply list_elem_of_In, elem_of_seqZ; lia)). lia.
Qed.

Lemma atoi_app l c : forall n, Forall (fun c => 48 <= b2z c <= 57) l -> 48 <= b2z c <= 57 ->
  atoi_loop n (l ++ [c]) = s32 (atoi_loop n l * 10 + b2z c - 48).
Proof.
  induction l as [|a l IH]; intros n Hl Hc; cbn [app atoi_loop].
  - by rewrite (proj2 (Z.leb_le _ _)), (proj2 (Z.leb_le _ _)) by lia.
  - apply Forall_cons in Hl as [Ha Hl].
    rewrite (proj2 (Z.leb_le 48 _)), (proj2 (Z.leb_le _ 57)) by lia. cbn [andb]. by apply IH.
Qed.

Lemma udigits_atoi fuel : forall x, 0 <= x < 2 ^ 31 -> x < 10 ^ Z.of_nat fuel ->
  Forall (fun c => 48 <= b2z c <= 57) (rev (udigits x 10 fuel)) /\ atoi (rev (udigits x 10 fuel)) = x.
Proof.
  induction fuel as [|fuel IH]; intros x Hx Hf; [cbn in *; split; [by apply Forall_nil|unfold atoi; cbn; lia]|].
  cbn [udigits rev]. pose proof (Z.mod_pos_bound x 10 ltac:(lia)). pose proof (udigit_val (x mod 10) ltac:(lia)) as Hd.
  assert (Hq : 0 <= x / 10 < 2 ^ 31) by (Z.to_euclidean_division_equations; lia).
  assert (IH' : Forall (fun c => 48 <= b2z c <= 57) (rev (if x / 10 =? 0 then [] else udigits (x / 10) 10 fuel)) /\
    atoi (rev (if x / 10 =? 0 then [] else udigits (x / 10) 10 fuel)) = x / 10).
  { destruct (Z.eqb_spec (x / 10) 0) as [->|]; [by split; [apply Forall_nil|]|]. apply IH; [done|].
    rewrite Nat2Z.inj_succ, Z.pow_succ_r in Hf by lia. apply Z.div_lt_upper_bound; lia. }
  destruct IH' as [F E]. split.
  - apply Forall_app. split; [done|]. apply Forall_cons. split; [lia|by apply Forall_nil].
  - unfold atoi in *. rewrite atoi_app by (done || lia). rewrite E, Hd, s32_small; Z.to_euclidean_division_equations; lia.
Qed.

(** Numbers survive printing and reading: what [printf] writes for [%d] and a number
    that is not negative, [atoi] turns back into the number. *)
Theorem atoi_printf fd v st :
  0 <= v < 2 ^ 31 -> exists bs, printf fd (str "%d") [UInt v] st = Ok tt (wrote fd bs st) /\ atoi bs = v.
Proof.
  intros Hv. exists (rev (udigits v 10 16)). split.
  - change (printf fd (str "%d") [UInt v]) with (printint fd v 10 true ;;; ret tt).
    rewrite (bind_Ok _ _ _ tt (wrote fd (rev (udigits v 10 16)) st)); [done|].
    unfold printint. cbn [andb]. rewrite s32_small, (proj2 (Z.ltb_ge v 0)) by lia.
    cbn [andb]. rewrite u32_small, app_nil_r by lia. apply puts_run.
  - apply udigits_atoi; [done|]. transitivity (2 ^ 31); [lia|]. by apply Z.ltb_lt.
Qed.

(** ** Reading in chunks *)

(** A file whose reads return bytes until its end, cut up in some way. *)
Definition holds_file (fd : Z) (text : list byte) (st : ustate) : Prop :=
  exists chunks, u_fds st fd = Data <$> chunks /\ mjoin chunks = text /\ Forall (fun c => c <> []) chunks.

Lemma read_spec fd n text st : 0 < n -> holds_file fd text st ->
  exists bs rest st', read_ fd n st = Ok (Some bs) st' /\ text = bs ++ rest /\ (bs = [] -> text = []) /\
    holds_file fd rest st' /\ u_out st' = u_out st /\ u_calls st' = u_calls st.
Proof.
  intros Hn (chunks & E & <- & Hne). unfold read_, bind, Prelude.gets. cbn. rewrite E. destruct chunks as [|c chunks].
  - exists [], [], st. cbn. split_and!; try done. by exists [].
  - apply Forall_cons in Hne as [Hc Hne]. cbn.
    exists (take (Z.to_nat n) c), (drop (Z.to_nat n) c ++ mjoin chunks). eexists. split; [reflexivity|].
    split_and!; try done.
    + change (mjoin (c :: chunks)) with (c ++ mjoin chunks). by rewrite app_assoc, take_drop.
    + intros E0. destruct c as [|b c]; [done|]. destruct (Z.to_nat n) eqn:En; [lia|]. done.
    + unfold holds_file. cbn. rewrite Z.eqb_refl. case_bool_decide as Hd.
      * exists chunks. by rewrite Hd.
      * exists (drop (Z.to_nat n) c :: chunks). split; [done|]. split; [done|]. by apply Forall_cons.
Qed.

(** [cat] copies the file to its standard output. *)
Theorem cat_copies fd fuel : forall text st, holds_file fd text st -> (length text < fuel)%nat ->
  wp (cat fd fuel) st (fun _ st' => u_out st' = u_out st ++ ((fun b => (1, b)) <$> text)).
Proof.
  induction fuel as [|fuel IH]; intros text st H Hf; [lia|]. cbn [cat].
  destruct (read_spec fd 512 text st ltac:(lia) H) as (bs & rest & st' & E & -> & Hz & H' & Eo & _).
  apply wp_bind. unfold wp at 1. rewrite E. destruct bs as [|b bs].
  - apply wp_ret. rewrite Hz by done. cbn. by rewrite app_nil_r.
  - apply wp_bind, wp_modify. rewrite length_app in Hf. cbn in Hf. wp_use (IH rest); [exact H'|lia|].
    intros [] st2 ->. cbn [u_out]. by rewrite Eo, fmap_app, app_assoc.
Qed.

(** ** Words *)

Definition is_space (c : byte) : bool := match strchr wc_space c with Some _ => true | None => false end.

(** The text between white space, empty pieces included; the words are the others. *)
Fixpoint between (text : list byte) : list (list byte) :=
  match text with
  | [] => [[]]
  | c :: text =>
      if is_space c then [] :: between text
      else match between text with
           | p :: ps => (c :: p) :: ps
           | [] => [[c]]
           end
  end.

Definition words (text : list byte) : list (list byte) := filter (fun p => p <> []) (between text).
Definition newlines (text : list byte) : Z := Z.of_nat (length (filter (fun c => c = x0a) text)).

Definition starts_word (text : list byte) : bool := match text with c :: _ => negb (is_space c) | [] => false end.

Lemma words_cons c text :
  Z.of_nat (length (words (c :: text))) =
  Z.of_nat (length (words text)) + (if is_space c then 0 else if starts_word text then 0 else 1).
Proof.
  unfold words. cbn [between]. destruct (is_space c) eqn:Ec.
  - rewrite filter_cons_False by (intros Hn; by apply Hn). lia.
  - assert (Hb : exists p ps, between text = p :: ps /\ (starts_word text = true <-> p <> [])).
    { destruct text as [|d text]; cbn; [by exists [], []|]. destruct (is_space d); cbn; [by eexists _, _|].
      destruct (between text); by eexists _, _. }
    destruct Hb as (p & ps & -> & Hp). rewrite filter_cons_True by done. cbn [length].
    destruct (starts_word text) eqn:Es.
    + rewrite filter_cons_True by (by apply Hp). cbn [length]. lia.
    + rewrite filter_cons_False; [lia|]. intros Hne. by apply Hp in Hne.
Qed.

Lemma wc_fold text : forall x, Z.of_nat (length text) + c_chars x < 2 ^ 31 ->
  0 <= c_chars x -> 0 <= c_lines x <= c_chars x -> 0 <= c_words x <= c_chars x ->
  let y := foldl wc_char x text in
  c_chars y = c_chars x + Z.of_nat (length text) /\ c_lines y = c_lines x + newlines text /\
  c_words y = c_words x + Z.of_nat (length (words text)) - (if c_inword x && starts_word text then 1 else 0).
Proof.
  induction text as [|c text IH]; intros x Hb H0 Hl Hw y.
  { unfold y, newlines. change (words []) with (@nil (list byte)). cbn. rewrite andb_false_r. lia. }
  unfold y. cbn [foldl]. cbn [length] in Hb.
  assert (Hx : c_chars (wc_char x c) = c_chars x + 1 /\
    c_lines (wc_char x c) = c_lines x + (if bool_decide (c = x0a) then 1 else 0) /\
    c_inword (wc_char x c) = negb (is_space c) /\
    c_words (wc_char x c) = c_words x + (if is_space c then 0 else if c_inword x then 0 else 1)).
  { unfold wc_char, is_space. destruct (strchr wc_space c); [|destruct (c_inword x)]; cbn;
      case_bool_decide; rewrite ?s32_small by lia; lia. }
  destruct Hx as (X1 & X2 & X3 & X4). assert (0 <= (if bool_decide (c = x0a) then 1 else 0) <= 1) by (case_bool_decide; lia).
  assert (0 <= (if is_space c then 0 else if c_inword x then 0 else 1) <= 1) by (destruct (is_space c), (c_inword x); lia).
  destruct (IH (wc_char x c)) as (I1 & I2 & I3); [lia..|].
  rewrite I1, I2, I3, X1, X2, X3, X4, words_cons. unfold newlines. rewrite filter_cons.
  split_and!; [cbn [length]; lia|case_bool_decide; [rewrite decide_True by done|rewrite decide_False by done]; cbn [length]; lia|].
  cbn [starts_word]. destruct (is_space c), (c_inword x), (starts_word text); cbn; lia.
Qed.

(** [wc] counts: for a file of less than 2 GB, in whatever chunks it arrives, the three
    numbers are those of its newlines, of its words (the pieces between white space that are
    not empty, also where a chunk ends in the middle of a word) and of its bytes. *)
Theorem wc_counts fd text st fuel :
  holds_file fd text st -> Z.of_nat (length text) < 2 ^ 31 -> (length text < fuel)%nat ->
  wp (wc_loop fd (Counts 0 0 0 false) fuel) st (fun r _ => exists inword,
    r = Some (Counts (newlines text) (Z.of_nat (length (words text))) (Z.of_nat (length text)) inword)).
Proof.
  intros H Hb Hf.
  assert (G : forall fuel text x st, holds_file fd text st -> (length text < fuel)%nat ->
    wp (wc_loop fd x fuel) st (fun r _ => r = Some (foldl wc_char x text))).
  { clear. induction fuel as [|fuel IH]; intros text x st H Hf; [lia|]. cbn [wc_loop].
    destruct (read_spec fd 512 text st ltac:(lia) H) as (bs & rest & st' & E & -> & Hz & H' & _).
    apply wp_bind. unfold wp at 1. rewrite E. destruct bs as [|b bs]; [apply wp_ret; by rewrite Hz|].
    rewrite length_app in Hf. cbn in Hf. wp_use (IH rest (foldl wc_char x (b :: bs)) st' H'); [lia|].
    intros r st2 ->. by rewrite foldl_app. }
  wp_use (G fuel text (Counts 0 0 0 false) st H Hf). intros r st' ->.
  destruct (wc_fold text (Counts 0 0 0 false)) as (I1 & I2 & I3); [cbn; lia..|].
  exists (c_inword (foldl wc_char (Counts 0 0 0 false) text)). destruct (foldl _ _ text). cbn in *. f_equal. f_equal; lia.
Qed.

(** ** Witnesses *)

Definition ux_state (rs : list reply) : ustate := US (fun _ => None) (fun _ => rs) 3 [] (fun _ => false) [].

