(* ===== verification/Sh.v ===== *)
(** * The shell's parser: sh.c

    The line is a string [b] in a buffer; the parser moves an index over it, and commands
    hold the first and last index of their strings until [nulterminate] ends the strings
    in place.  [malloc] is taken to succeed. *)

From S2P Require Import Prelude Layout Mem Bytes User.

Open Scope Z_scope.

Definition MAXARGS : Z := 10.
Definition O_RDONLY : Z := 0x000.
Definition O_WRONLY : Z := 0x001.
Definition O_CREATE : Z := 0x200.

(** A string of the line: the index of its first character and that behind its last. *)
Definition span : Type := nat * nat.

(** The command structures; the type tag is the constructor. *)
Inductive cmd : Type :=
  | Exec (argv : list span)
  | Redir (c : cmd) (file : span) (mode fd : Z)
  | Pipe (left right : cmd)
  | List_ (left right : cmd)
  | Back (c : cmd).

Definition whitespace : list byte := [x20; x09; x0d; x0a; x0b].
Definition symbols : list byte := str "<|>&;()".

Definition in_set (s : list byte) (c : byte) : bool := match strchr s c with Some _ => true | None => false end.
Definition is_ws (c : byte) : bool := in_set whitespace c.
Definition is_word (c : byte) : bool := negb (is_ws c) && negb (in_set symbols c).

(** How many of the first characters satisfy a test. *)
Fixpoint span_len (f : byte -> bool) (l : list byte) : nat :=
  match l with
  | c :: l => if f c then S (span_len f l) else O
  | [] => O
  end.

Section Parser.
Context (b : list byte).

(** The parser's state is [*ps]. *)
Definition P (A : Type) : Type := M nat A.

(** [*s]; the string ends in a NUL. *)
Definition at_ (s : nat) : byte := nth s b x00.

(** [while(s < es && strchr(whitespace, *s)) s++;] *)
Definition skip (s : nat) : nat := (s + span_len is_ws (drop s b))%nat.

(** The kinds of token that [gettoken] returns: a symbol by its character, [>>], a word,
    and the end of the line. *)
Inductive token : Type := TSym (c : byte) | TAppend | TWord | TEnd.

#[global] Instance token_eq_dec : EqDecision token.
Proof. solve_decision. Defined.

Definition gettoken : P (token * span) :=
  let! ps := get in
  let s := skip ps in
  let q := s in
  let c := at_ s in
  let (tok, s) :=
    (if bool_decide (c = x00) then (TEnd, s)
     else if in_set (str "|();&<") c then (TSym c, S s)
     else if bool_decide (c = ">"%byte) then
       if bool_decide (at_ (S s) = ">"%byte) then (TAppend, S (S s)) else (TSym c, S s)
     else (TWord, (s + span_len is_word (drop s b))%nat)) : token * nat in
  modify (fun _ => skip s) ;;;
  ret (tok, (q, s)).

Definition peek (toks : list byte) : P bool :=
  let! ps := get in
  let s := skip ps in
  modify (fun _ => s) ;;;
  ret (negb (bool_decide (at_ s = x00)) && in_set toks (at_ s)).

(** [while(peek(ps, es, "<>"))] *)
Fixpoint parseredirs_loop (c : cmd) (fuel : nat) : P cmd :=
  match fuel with
  | O => nofuel
  | S fuel =>
      let! more := peek (str "<>") in
      if more then
        let! t := gettoken in
        let! f := gettoken in
        if negb (bool_decide (f.1 = TWord)) then panic "missing file for redirection"
        else
          let c :=
            if bool_decide (t.1 = TSym "<"%byte) then Redir c f.2 O_RDONLY 0
            else Redir c f.2 (Z.lor O_WRONLY O_CREATE) 1 in
          parseredirs_loop c fuel
      else ret c
  end.

Definition parseredirs (c : cmd) : P cmd := parseredirs_loop c (S (length b)).

(** [cmd->argv[argc] = q; cmd->eargv[argc] = eq;], where [ret] may have grown redirections
    around [cmd]. *)
Fixpoint add_arg (a : span) (ret : cmd) : cmd :=
  match ret with
  | Exec argv => Exec (argv ++ [a])
  | Redir c f m fd => Redir (add_arg a c) f m fd
  | _ => ret
  end.

(** The argument loop of [parseexec]. *)
Fixpoint args_loop (ret_ : cmd) (argc : Z) (fuel : nat) : P cmd :=
  match fuel with
  | O => nofuel
  | S fuel =>
      let! stop := peek (str "|)&;") in
      if stop then ret ret_
      else
        let! t := gettoken in
        match t.1 with
        | TEnd => ret ret_
        | TWord =>
            let ret_ := add_arg t.2 ret_ in
            if MAXARGS <=? argc + 1 then panic "too many args"
            else
              let! ret_ := parseredirs ret_ in
              args_loop ret_ (argc + 1) fuel
        | _ => panic "syntax"
        end
  end.

(** [while(peek(ps, es, "&"))] *)
Fixpoint back_loop (c : cmd) (fuel : nat) : P cmd :=
  match fuel with
  | O => nofuel
  | S fuel =>
      let! more := peek (str "&") in
      if more then
        gettoken ;;;
        back_loop (Back c) fuel
      else ret c
  end.

Fixpoint parseline (fuel : nat) : P cmd :=
  match fuel with
  | O => nofuel
  | S fuel =>
      let! c := parsepipe fuel in
      let! c := back_loop c (S (length b)) in
      let! semi := peek (str ";") in
      if semi then
        gettoken ;;;
        let! r := parseline fuel in
        ret (List_ c r)
      else ret c
  end
with parsepipe (fuel : nat) : P cmd :=
  match fuel with
  | O => nofuel
  | S fuel =>
      let! c := parseexec fuel in
      let! bar := peek (str "|") in
      if bar then
        gettoken ;;;
        let! r := parsepipe fuel in
        ret (Pipe c r)
      else ret c
  end
with parseexec (fuel : nat) : P cmd :=
  match fuel with
  | O => nofuel
  | S fuel =>
      let! open := peek (str "(") in
      if open then parseblock fuel
      else
        let! c := parseredirs (Exec []) in
        args_loop c 0 (S (length b))
  end
with parseblock (fuel : nat) : P cmd :=
  match fuel with
  | O => nofuel
  | S fuel =>
      let! open := peek (str "(") in
      if negb open then panic "parseblock"
      else
        gettoken ;;;
        let! c := parseline fuel in
        let! close := peek (str ")") in
        if negb close then panic "syntax - missing )"
        else
          gettoken ;;;
          parseredirs c
  end.

End Parser.

(** [*ecmd->eargv[i] = 0;] *)
Definition put_nul (buf : list byte) (a : span) : list byte := <[a.2 := x00]> buf.

Fixpoint nulterminate (c : cmd) (buf : list byte) : list byte :=
  match c with
  | Exec argv => foldl put_nul buf argv
  | Redir c f _ _ => put_nul (nulterminate c buf) f
  | Pipe l r | List_ l r => nulterminate r (nulterminate l buf)
  | Back c => nulterminate c buf
  end.

(** The command for the line [b], and the buffer with its strings terminated.  A line that goes
    on behind its command ends in the message [leftovers], with the rest of the line, and
    [panic("syntax")].  Every level of the recursion consumes a character within four calls. *)
Definition parsecmd (b : list byte) : outcome nat (cmd * list byte) :=
  (let! c := parseline b (4 * length b + 4) in
   peek b [] ;;;
   let! ps := get in
   if negb (ps =? length b)%nat then panic "leftovers"
   else ret (c, nulterminate c (b ++ [x00]))) 0%nat.
