(* ===== verification/ShFacts.v ===== *)
(** * What the shell's parser does on any line

    It ends, with a command or with one of its messages; the strings of a command are
    words of the line, and ending them in place does not damage each other. *)

From S2P Require Import Prelude Layout Mem Bytes Codec User Sh.

Open Scope Z_scope.

(** ** Results that may be a message *)

(** The program returns with [Q], or stops with a message of [E]. *)
Definition safe {S A} (E : list string) (m : M S A) (s : S) (Q : A -> S -> Prop) : Prop :=
  match m s with
  | Ok a s' => Q a s'
  | Panic msg _ => msg ∈ E
  | _ => False
  end.

Section Safe.
Context {S : Type} (E : list string).

Lemma safe_ret {A} (a : A) (s : S) (Q : A -> S -> Prop) : Q a s -> safe E (ret a) s Q.
Proof. done. Qed.

Lemma safe_bind {A B} (m : M S A) (k : A -> M S B) s (Q : B -> S -> Prop) :
  safe E m s (fun a s' => safe E (k a) s' Q) -> safe E (bind m k) s Q.
Proof. unfold safe, bind. by destruct (m s). Qed.

Lemma safe_mono {A} (m : M S A) s (Q Q' : A -> S -> Prop) :
  safe E m s Q -> (forall a s', Q a s' -> Q' a s') -> safe E m s Q'.
Proof. unfold safe. destruct (m s); naive_solver. Qed.

Lemma safe_panic {A} msg (s : S) (Q : A -> S -> Prop) : msg ∈ E -> safe E (panic msg) s Q.
Proof. done. Qed.

Lemma safe_get (s : S) (Q : S -> S -> Prop) : Q s s -> safe E get s Q.
Proof. done. Qed.

Lemma safe_modify f (s : S) (Q : unit -> S -> Prop) : Q tt (f s) -> safe E (modify f) s Q.
Proof. done. Qed.

End Safe.

Ltac safe_use L := eapply safe_mono; [apply L|].

(** ** Characters *)

Lemma span_len_le f l : (span_len f l <= length l)%nat.
Proof. induction l as [|c l IH]; cbn; [lia|]. destruct (f c); lia. Qed.

Lemma span_len_all f l : Forall (fun c => f c = true) (take (span_len f l) l).
Proof. induction l as [|c l IH]; cbn; [by apply Forall_nil|]. destruct (f c) eqn:E; cbn; [by apply Forall_cons|by apply Forall_nil]. Qed.

(** The character behind does not satisfy the test. *)
Lemma span_len_stop f l c : l !! span_len f l = Some c -> f c = false.
Proof. induction l as [|a l IH]; cbn; [done|]. destruct (f a) eqn:E; cbn; [done|by intros [= <-]]. Qed.

Section Line.
Context (b : list byte) (Hb : no_nul b).

Abbreviation n := (length b).

Lemma at_nul s : (s <= n)%nat -> at_ b s = x00 <-> s = n.
Proof.
  intros Hs. unfold at_. split.
  - intros E. destruct (decide (s < n)%nat) as [Hlt|]; [|lia]. destruct Hb.
    destruct (lookup_lt_is_Some_2 b s Hlt) as [c Ec]. rewrite (nth_lookup_Some _ _ _ _ Ec) in E. subst.
    by eapply list_elem_of_lookup_2.
  - intros ->. by apply nth_overflow.
Qed.

Lemma at_lookup s : (s < n)%nat -> b !! s = Some (at_ b s).
Proof. intros Hs. destruct (lookup_lt_is_Some_2 b s Hs) as [c Ec]. unfold at_. by rewrite (nth_lookup_Some _ _ _ _ Ec). Qed.

Lemma skip_range s : (s <= n)%nat -> (s <= skip b s <= n)%nat.
Proof. intros Hs. unfold skip. pose proof (span_len_le is_ws (drop s b)) as H. rewrite length_drop in H. lia. Qed.

Lemma skip_stop s : (skip b s < n)%nat -> is_ws (at_ b (skip b s)) = false.
Proof.
  intros Hs. apply (span_len_stop is_ws (drop s b)). rewrite lookup_drop. fold (skip b s). by apply at_lookup.
Qed.

(** ** Tokens *)

(** A word of the line, as long as it gets. *)
Record word_span (a : span) : Prop := {
  ws_order : (a.1 < a.2 <= n)%nat;
  ws_chars : forall i, (a.1 <= i < a.2)%nat -> is_word (at_ b i) = true;
  ws_stop : a.2 = n \/ is_word (at_ b a.2) = false
}.

Lemma gettoken_safe E s (Q : token * span -> nat -> Prop) : (s <= n)%nat ->
  (forall t a s', (s <= s' <= n)%nat -> (t <> TEnd -> (s < s')%nat) -> (t = TEnd <-> skip b s = n) ->
    (t = TWord -> word_span a) -> Q (t, a) s') ->
  safe E (gettoken b) s Q.
Proof.
  intros Hs HQ. pose proof (skip_range s Hs) as Hk. set (s1 := skip b s) in *.
  unfold gettoken. apply safe_bind, safe_get. cbv beta zeta. fold s1.
  assert (Hend : forall t a s2, (s1 < s2 <= n)%nat -> t <> TEnd -> (t = TWord -> word_span a) ->
    safe E (modify (fun _ => skip b s2) ;;; ret (t, a)) s Q).
  { intros t a s2 H2 Ht Hw. pose proof (skip_range s2 ltac:(lia)). apply safe_bind, safe_modify, safe_ret.
    apply HQ; [lia|lia| |done]. split; [done|lia]. }
  case_bool_decide as H0.
  { apply at_nul in H0; [|lia]. apply safe_bind, safe_modify, safe_ret. pose proof (skip_range s1 ltac:(lia)).
    apply HQ; [lia|done|done|done]. }
  assert (Hlt : (s1 < n)%nat). { destruct (decide (s1 < n)%nat); [done|]. destruct H0. apply at_nul; lia. }
  destruct (in_set (str "|();&<") (at_ b s1)) eqn:Es; [by apply Hend; [lia|..]|].
  case_bool_decide as Hg.
  - case_bool_decide as Hg2; [|by apply Hend; [lia|..]].
    assert (S s1 < n)%nat. { destruct (decide (S s1 < n)%nat); [done|]. rewrite (proj2 (at_nul (S s1) ltac:(lia))) in Hg2 by lia. done. }
    by apply Hend; [lia|..].
  - assert (Hw : is_word (at_ b s1) = true).
    { unfold is_word. pose proof (skip_stop s Hlt) as Hws. fold s1 in Hws. rewrite Hws. cbn [negb andb]. revert Es Hg. unfold in_set, symbols.
      generalize (at_ b s1). intros c. by destruct c. }
    set (k := span_len is_word (drop s1 b)).
    assert (Hk1 : (1 <= k)%nat).
    { unfold k. rewrite (drop_S _ _ _ (at_lookup s1 Hlt)). cbn [span_len]. rewrite Hw. lia. }
    pose proof (span_len_le is_word (drop s1 b)) as Hkl. rewrite length_drop in Hkl. fold k in Hkl.
    apply Hend; [lia|done|]. intros _. split; cbn [fst snd].
    + lia.
    + intros i Hi. pose proof (span_len_all is_word (drop s1 b)) as F. fold k in F. rewrite Forall_lookup in F.
      apply (F (i - s1)%nat). rewrite lookup_take_lt, lookup_drop by lia. replace (s1 + (i - s1))%nat with i by lia. apply at_lookup. lia.
    + destruct (decide (s1 + k = n)%nat) as [|Hne]; [by left|right]. apply (span_len_stop is_word (drop s1 b)).
      rewrite lookup_drop. fold k. apply at_lookup. lia.
Qed.

Lemma peek_run toks s :
  peek b toks s = Ok (negb (bool_decide (at_ b (skip b s) = x00)) && in_set toks (at_ b (skip b s))) (skip b s).
Proof. done. Qed.

Lemma peek_safe E toks s (Q : bool -> nat -> Prop) : (s <= n)%nat ->
  (forall r s', s' = skip b s -> (s <= s' <= n)%nat -> (r = true -> (s' < n)%nat) -> Q r s') -> safe E (peek b toks) s Q.
Proof.
  intros Hs HQ. pose proof (skip_range s Hs). unfold peek, safe, bind. cbn -[skip]. apply HQ; [done|lia|].
  case_bool_decide as H0; [done|]. intros _. destruct (decide (skip b s < n)%nat); [done|]. destruct H0. apply at_nul; lia.
Qed.

Lemma skip_skip s : (s <= n)%nat -> skip b (skip b s) = skip b s.
Proof.
  intros Hs. pose proof (skip_range s Hs) as Hr. destruct (decide (skip b s < n)%nat) as [Hlt|].
  - unfold skip at 1. rewrite (drop_S _ _ _ (at_lookup _ Hlt)). cbn [span_len]. rewrite skip_stop by done. lia.
  - pose proof (skip_range (skip b s) ltac:(lia)). lia.
Qed.

(** ** Commands *)

(** The strings of a command are words, and there is room for the terminating null
    pointer in [argv]. *)
Fixpoint wf (c : cmd) : Prop :=
  match c with
  | Exec argv => Forall word_span argv /\ Z.of_nat (length argv) < MAXARGS
  | Redir c f mode fd => wf c /\ word_span f /\
      ((mode = O_RDONLY /\ fd = 0) \/ (mode = Z.lor O_WRONLY O_CREATE /\ fd = 1))
  | Pipe l r | List_ l r => wf l /\ wf r
  | Back c => wf c
  end.

(** A simple command with its redirections, and the number of its arguments. *)
Fixpoint simple (c : cmd) (k : Z) : Prop :=
  match c with
  | Exec argv => Z.of_nat (length argv) = k
  | Redir c _ _ _ => simple c k
  | _ => False
  end.

Definition messages : list string :=
  ["syntax"; "missing file for redirection"; "too many args"; "syntax - missing )"; "leftovers"].

Lemma add_arg_wf a c k : wf c -> simple c k -> k + 1 < MAXARGS -> word_span a -> wf (add_arg a c) /\ simple (add_arg a c) (k + 1).
Proof.
  induction c as [argv|c IH f m fd| | |]; intros Hw Hs Hk Ha; cbn in *; try done.
  - destruct Hw as [Hf _]. split; [|rewrite length_app; cbn; lia]. split; [|rewrite length_app; cbn; lia].
    apply Forall_app. split; [done|]. apply Forall_cons. split; [done|by apply Forall_nil].
  - destruct Hw as (Hw & Hf & Hm). destruct (IH Hw Hs Hk Ha). done.
Qed.

Lemma redirs_safe fuel : forall c s, wf c -> (s <= n)%nat -> (n - s < fuel)%nat ->
  safe messages (parseredirs_loop b c fuel) s (fun c' s' => wf c' /\ (s <= s' <= n)%nat /\ forall k, simple c k -> simple c' k).
Proof.
  induction fuel as [|fuel IH]; intros c s Hw Hs Hf; [lia|]. cbn [parseredirs_loop].
  apply safe_bind, peek_safe; [done|]. intros more s1 -> Hs1 Hm. destruct more; [|apply safe_ret; split_and!; (done || lia)].
  specialize (Hm eq_refl). apply safe_bind, gettoken_safe; [lia|]. intros t a s2 Hs2 Hlt He _.
  assert (Ht : t <> TEnd) by (intros Et; apply He in Et; rewrite skip_skip in Et by done; lia).
  specialize (Hlt Ht). apply safe_bind, gettoken_safe; [lia|]. intros t' f s3 Hs3 Hlt' _ Hwf. cbn [fst snd].
  case_bool_decide as Hw'; cbn [negb]; [|apply safe_panic; set_solver].
  set (c1 := if bool_decide _ then _ else _).
  assert (Hc1 : wf c1 /\ forall k, simple c k -> simple c1 k).
  { unfold c1. case_bool_decide; cbn; (split; [|done]); split_and!; try done; auto. }
  specialize (Hlt' ltac:(rewrite Hw'; done)). safe_use (IH c1 s3); [apply Hc1|lia|lia|].
  intros c' s' (W & R & Sm). split_and!; try done; try lia. intros k Hk. by apply Sm, Hc1.
Qed.

Lemma args_safe fuel : forall c k s, wf c -> simple c k -> (s <= n)%nat -> (n - s < fuel)%nat ->
  safe messages (args_loop b c k fuel) s (fun c' s' => wf c' /\ (s <= s' <= n)%nat).
Proof.
  induction fuel as [|fuel IH]; intros c k s Hw Hsi Hs Hf; [lia|]. cbn [args_loop].
  apply safe_bind, peek_safe; [done|]. intros stop s1 -> Hs1 _. destruct stop; [apply safe_ret; split; (done || lia)|].
  apply safe_bind, gettoken_safe; [lia|]. intros t a s2 Hs2 Hlt _ Ha. cbn [fst snd].
  destruct t; [apply safe_panic; set_solver|apply safe_panic; set_solver| |apply safe_ret; split; (done || lia)].
  destruct (Z.leb_spec MAXARGS (k + 1)); [apply safe_panic; set_solver|].
  destruct (add_arg_wf a c k Hw Hsi ltac:(lia) (Ha eq_refl)) as [W1 S1]. specialize (Hlt ltac:(done)).
  apply safe_bind. safe_use (redirs_safe (S n) (add_arg a c) s2); [done|lia|lia|].
  intros c2 s3 (W2 & R2 & S2). safe_use (IH c2 (k + 1) s3); [done|by apply S2|lia|lia|].
  intros c' s' [W R]. split; [done|lia].
Qed.

Lemma back_safe fuel : forall c s, wf c -> (s <= n)%nat -> (n - s < fuel)%nat ->
  safe messages (back_loop b c fuel) s (fun c' s' => wf c' /\ (s <= s' <= n)%nat).
Proof.
  induction fuel as [|fuel IH]; intros c s Hw Hs Hf; [lia|]. cbn [back_loop].
  apply safe_bind, peek_safe; [done|]. intros more s1 -> Hs1 Hm. destruct more; [|apply safe_ret; split; (done || lia)].
  specialize (Hm eq_refl). apply safe_bind, gettoken_safe; [lia|]. intros t a s2 Hs2 Hlt He _.
  assert (Ht : t <> TEnd) by (intros Et; apply He in Et; rewrite skip_skip in Et by done; lia). specialize (Hlt Ht).
  safe_use (IH (Back c) s2); [done|lia|lia|]. intros c' s' [W R]. split; [done|lia].
Qed.

(** After a successful [peek], [gettoken] moves on. *)
Lemma gettoken_moves E s (Q : token * span -> nat -> Prop) :
  (skip b s < n)%nat -> (s <= n)%nat -> (forall r s', (s < s' <= n)%nat -> Q r s') -> safe E (gettoken b) s Q.
Proof.
  intros Hk Hs HQ. apply gettoken_safe; [done|]. intros t a s' Hs' Hlt He _. apply HQ.
  assert (t <> TEnd) by (intros Et; apply He in Et; lia). specialize (Hlt ltac:(done)). lia.
Qed.

Lemma parse_safe fuel : forall s, (s <= n)%nat ->
  let post := fun c s' => wf c /\ (s <= s' <= n)%nat in
  ((4 * (n - s) + 4 <= fuel)%nat -> safe messages (parseline b fuel) s post) /\
  ((4 * (n - s) + 3 <= fuel)%nat -> safe messages (parsepipe b fuel) s post) /\
  ((4 * (n - s) + 2 <= fuel)%nat -> safe messages (parseexec b fuel) s post) /\
  ((4 * (n - s) + 1 <= fuel)%nat -> (skip b s < n)%nat -> at_ b (skip b s) = "("%byte -> safe messages (parseblock b fuel) s post).
Proof.
  induction fuel as [|fuel IH]; intros s Hs post; [split_and!; lia|]. split_and!; intros Hf.
  - cbn [parseline]. apply safe_bind. safe_use (proj1 (proj2 (IH s Hs))); [lia|]. intros c1 s1 [W1 R1].
    apply safe_bind. safe_use (back_safe (S n) c1 s1); [done|lia|lia|]. intros c2 s2 [W2 R2].
    apply safe_bind, peek_safe; [lia|]. intros semi s3 -> R3 Hm. destruct semi; [|apply safe_ret; split; (done || lia)].
    specialize (Hm eq_refl). apply safe_bind, gettoken_moves; [rewrite skip_skip by lia; done|lia|]. intros _ s4 R4.
    apply safe_bind. safe_use (proj1 (IH s4 ltac:(lia))); [lia|]. intros c5 s5 [W5 R5]. apply safe_ret. split; [done|lia].
  - cbn [parsepipe]. apply safe_bind. safe_use (proj1 (proj2 (proj2 (IH s Hs)))); [lia|]. intros c1 s1 [W1 R1].
    apply safe_bind, peek_safe; [lia|]. intros bar s3 -> R3 Hm. destruct bar; [|apply safe_ret; split; (done || lia)].
    specialize (Hm eq_refl). apply safe_bind, gettoken_moves; [rewrite skip_skip by lia; done|lia|]. intros _ s4 R4.
    apply safe_bind. safe_use (proj1 (proj2 (IH s4 ltac:(lia)))); [lia|]. intros c5 s5 [W5 R5]. apply safe_ret. split; [done|lia].
  - cbn [parseexec]. apply safe_bind.
    unfold safe at 1. rewrite peek_run. pose proof (skip_range s Hs) as R1.
    destruct (negb _ && _) eqn:Eo.
    + bool_hyps. apply bool_decide_eq_false in H. assert (Hlt : (skip b s < n)%nat).
      { destruct (decide (skip b s < n)%nat); [done|]. destruct H. apply at_nul; lia. }
      safe_use (proj2 (proj2 (proj2 (IH (skip b s) ltac:(lia))))); [lia|by rewrite skip_skip| |].
      * rewrite skip_skip by done. revert H0. unfold in_set. cbn. case_bool_decide; [done|]. done.
      * intros c s' [W R]. split; [done|lia].
    + apply safe_bind. safe_use (redirs_safe (S n) (Exec []) (skip b s)); [by split; [apply Forall_nil|]|lia|lia|].
      intros c1 s1 (W1 & R1' & S1). safe_use (args_safe (S n) c1 0 s1); [done|by apply S1|lia|lia|].
      intros c s' [W R]. split; [done|lia].
  - intros Hlt Hp. cbn [parseblock]. apply safe_bind.
    unfold safe at 1. rewrite peek_run, Hp. cbn [negb].
    change (negb (bool_decide ("("%byte = x00)) && in_set (str "(") "("%byte) with true. cbn [negb].
    apply safe_bind, gettoken_moves; [by rewrite skip_skip|lia|]. intros _ s1 R1. pose proof (skip_range s Hs).
    apply safe_bind. safe_use (proj1 (IH s1 ltac:(lia))); [lia|]. intros c2 s2 [W2 R2].
    apply safe_bind, peek_safe; [lia|]. intros close s3 -> R3 Hm.
    destruct close; cbn [negb]; [|apply safe_panic; set_solver]. specialize (Hm eq_refl).
    apply safe_bind, gettoken_moves; [rewrite skip_skip by lia; done|lia|]. intros _ s4 R4.
    safe_use (redirs_safe (S n) c2 s4); [done|lia|lia|]. intros c s' (W & R & _). split; [done|lia].
Qed.

End Line.
