(* ===== verification/ShProps.v ===== *)
(** * Theorems on the shell's parser *)

From S2P Require Import Prelude Layout Mem Bytes Codec User Sh ShFacts.

Open Scope Z_scope.

(** ** The strings of a command *)

Fixpoint spans (c : cmd) : list span :=
  match c with
  | Exec argv => argv
  | Redir c f _ _ => spans c ++ [f]
  | Pipe l r | List_ l r => spans l ++ spans r
  | Back c => spans c
  end.

(** The characters of a string of the line. *)
Definition text (b : list byte) (a : span) : list byte := take (a.2 - a.1) (drop a.1 b).

Lemma nulterminate_spans c : forall buf, nulterminate c buf = foldl put_nul buf (spans c).
Proof.
  induction c as [argv|c IH f m fd|l IHl r IHr|l IHl r IHr|c IH]; intros buf; cbn [nulterminate spans]; try done.
  - by rewrite IH, foldl_app.
  - by rewrite IHr, IHl, foldl_app.
  - by rewrite IHr, IHl, foldl_app.
Qed.

Lemma wf_spans b c : wf b c -> Forall (word_span b) (spans c).
Proof.
  induction c as [argv|c IH f m fd|l IHl r IHr|l IHl r IHr|c IH]; cbn; intros Hw.
  - apply Hw.
  - destruct Hw as (Hw & Hf & _). apply Forall_app. split; [auto|]. apply Forall_cons. split; [done|by apply Forall_nil].
  - apply Forall_app. split; [apply IHl, Hw|apply IHr, Hw].
  - apply Forall_app. split; [apply IHl, Hw|apply IHr, Hw].
  - auto.
Qed.

Lemma put_nuls_lookup l : forall buf i, Forall (fun a : span => (a.2 < length buf)%nat) l ->
  foldl put_nul buf l !! i = if decide (i ∈ l.*2) then Some x00 else buf !! i.
Proof.
  induction l as [|a l IH]; intros buf i Hl; cbn [foldl]; [by rewrite decide_False by apply not_elem_of_nil|].
  apply Forall_cons in Hl as [Ha Hl]. rewrite IH by (unfold put_nul; by rewrite length_insert). unfold put_nul.
  cbn [fmap list_fmap]. destruct (decide (i ∈ l.*2)) as [Hi|Hi].
  - by rewrite decide_True by (by right).
  - destruct (decide (i = a.2)) as [->|Hne].
    + rewrite decide_True by left. by rewrite list_lookup_insert_eq.
    + rewrite decide_False by (by intros [?|?]%elem_of_cons). by rewrite list_lookup_insert_ne.
Qed.

Lemma put_nuls_length l : forall buf, length (foldl put_nul buf l) = length buf.
Proof. induction l as [|a l IH]; intros buf; cbn [foldl]; [done|]. rewrite IH. apply length_insert. Qed.

(** Ending the strings in place leaves each of them as it stands in the line. *)
Lemma terminated b l a :
  no_nul b -> Forall (word_span b) l -> a ∈ l ->
  cstring (drop a.1 (foldl put_nul (b ++ [x00]) l)) = text b a.
Proof.
  intros Hb Hl Ha. assert (Ha' : word_span b a) by (rewrite Forall_forall in Hl; auto).
  destruct Ha' as [Ho Hc Hst]. set (buf := foldl put_nul (b ++ [x00]) l).
  assert (Hlk : forall i, buf !! i = if decide (i ∈ l.*2) then Some x00 else (b ++ [x00]) !! i).
  { intros i. apply put_nuls_lookup. rewrite Forall_forall in *. intros x Hx. rewrite length_app. cbn.
    pose proof (ws_order _ _ (Hl x Hx)). lia. }
  assert (He : buf !! a.2 = Some x00).
  { rewrite Hlk, decide_True; [done|]. apply list_elem_of_fmap. by exists a. }
  rewrite <- (take_drop_middle _ _ _ He). pose proof (lookup_lt_Some _ _ _ He) as Hlen.
  rewrite drop_app_le by (rewrite length_take; lia).
  assert (E : drop a.1 (take a.2 buf) = text b a).
  { apply list_eq. intros i. unfold text. rewrite lookup_drop, lookup_take. destruct (decide (a.1 + i < a.2)%nat) as [Hi|Hi].
    - rewrite lookup_take_lt, lookup_drop by lia. rewrite Hlk, decide_False.
      + by rewrite lookup_app_l by lia.
      + intros (x & Ex & Hx)%list_elem_of_fmap. rewrite Forall_forall in Hl. destruct (Hl x Hx) as [_ _ Hx3].
        specialize (Hc (a.1 + i)%nat ltac:(lia)). rewrite Ex in Hc. destruct Hx3 as [Hx3|Hx3]; [lia|congruence].
    - symmetry. apply lookup_ge_None_2. rewrite length_take. lia. }
  rewrite E. apply cstring_app. unfold text, no_nul in *. intros (i & Hi & _)%elem_of_take. apply Hb.
  rewrite lookup_drop in Hi. by eapply list_elem_of_lookup_2.
Qed.

Lemma parsecmd_safe b : no_nul b -> safe messages
  (let! c := parseline b (4 * length b + 4) in
   peek b [] ;;;
   let! ps := get in
   if negb (ps =? length b)%nat then panic "leftovers"
   else ret (c, nulterminate c (b ++ [x00]))) 0%nat
  (fun r _ => wf b r.1 /\ r.2 = foldl put_nul (b ++ [x00]) (spans r.1)).
Proof.
  intros Hb. apply safe_bind. safe_use (proj1 (parse_safe b Hb (4 * length b + 4) 0 ltac:(lia))); [lia|]. intros c s [W R].
  apply safe_bind, peek_safe; [done|lia|]. intros r s1 -> R1 _. apply safe_bind, safe_get.
  destruct (negb _); [apply safe_panic; set_solver|]. apply safe_ret. cbn [fst snd]. split; [done|]. apply nulterminate_spans.
Qed.

Lemma parsecmd_wf b c buf s : no_nul b -> parsecmd b = Ok (c, buf) s -> wf b c.
Proof.
  intros Hb E. pose proof (parsecmd_safe b Hb) as Hs. unfold safe in Hs. unfold parsecmd in E. rewrite E in Hs. apply Hs.
Qed.

Lemma parsecmd_strings b c buf s a :
  no_nul b -> parsecmd b = Ok (c, buf) s -> a ∈ spans c -> cstring (drop a.1 buf) = text b a.
Proof.
  intros Hb E Ha. pose proof (parsecmd_safe b Hb) as Hs. unfold safe in Hs. unfold parsecmd in E. rewrite E in Hs.
  destruct Hs as [W Eb]. cbn [fst snd] in *. subst buf. apply terminated; [done| |done]. by apply wf_spans.
Qed.

Lemma word_text b a : word_span b a -> text b a <> [] /\ Forall (fun c => is_word c = true) (text b a).
Proof.
  intros [Ho Hc _]. split.
  - intros E. apply (f_equal length) in E. unfold text in E. rewrite length_take, length_drop in E. cbn in E. lia.
  - apply Forall_lookup_2. intros i x Hx. unfold text in Hx. apply lookup_take_Some in Hx as [Hx Hi]. rewrite lookup_drop in Hx.
    specialize (Hc (a.1 + i)%nat ltac:(lia)). unfold at_ in Hc. by rewrite (nth_lookup_Some _ _ _ _ Hx) in Hc.
Qed.

(** C27. The parser ends on every line, with a command or with one of its messages.  The
    strings of a command are words of the line, never more than [argv] holds with its null
    pointer; the NULs that end them in place stay within the line's buffer, and in the end
    each string in the buffer is exactly its word. *)
Theorem parse_total b :
  no_nul b ->
  match parsecmd b with
  | Ok (c, buf) _ => wf b c /\ length buf = S (length b) /\
      forall a, a ∈ spans c -> cstring (drop a.1 buf) = text b a /\ text b a <> [] /\ Forall (fun c => is_word c = true) (text b a)
  | Panic msg _ => msg ∈ messages
  | _ => False
  end.
Proof.
  intros Hb. pose proof (parsecmd_safe b Hb) as Hs. unfold safe in Hs. unfold parsecmd.
  destruct (bind _ _ _) as [[c buf] s|msg s| |]; try done. destruct Hs as [W Eb]. cbn [fst snd] in *. subst buf.
  pose proof (wf_spans b c W) as Hs. split; [done|]. split; [rewrite put_nuls_length, length_app; cbn; lia|].
  intros a Ha. split; [by apply terminated|]. rewrite Forall_forall in Hs. by apply word_text, Hs.
Qed.

Lemma parse_total_witness :
  (exists c buf s, parsecmd (str "cat <in|wc -l") = Ok (c, buf) s /\ wf (str "cat <in|wc -l") c) /\
  (exists msg s, parsecmd (str "(ls") = Panic msg s /\ msg ∈ messages).
Proof.
  assert (H1 : no_nul (str "cat <in|wc -l")) by (by apply (bool_decide_unpack _)).
  assert (H2 : no_nul (str "(ls")) by (by apply (bool_decide_unpack _)).
  pose proof (parse_total _ H1) as T1. pose proof (parse_total _ H2) as T2. split.
  - destruct (parsecmd (str "cat <in|wc -l")) as [[c buf] s|msg s| |] eqn:E; [|vm_compute in E; discriminate E..].
    exists c, buf, s. split; [reflexivity|]. apply T1.
  - destruct (parsecmd (str "(ls")) as [[c buf] s|msg s| |] eqn:E; [vm_compute in E; discriminate E| |vm_compute in E; discriminate E..].
    exists msg, s. split; [reflexivity|]. exact T2.
Defined.
