(* ===== verification/ShRound.v ===== *)
(** * Printing and parsing shell commands

    Commands with words instead of positions, the tokens that write them down, and the
    parser run token by token: a command that is printed is parsed back. *)

From S2P Require Import Prelude Layout Mem Bytes Codec User Sh ShFacts ShProps.

Open Scope Z_scope.

(** ** Commands and their tokens *)

Inductive ast : Type :=
  | AExec (args : list (list byte))
  | ARedir (a : ast) (file : list byte) (out : bool)
  | APipe (l r : ast)
  | AList (l r : ast)
  | ABack (a : ast).

Inductive tok : Type := Word (w : list byte) | Sym (c : byte).

Definition ttext (t : tok) : list byte := match t with Word w => w | Sym c => [c] end.

Definition redir_sym (out : bool) : tok := Sym (if out then ">"%byte else "<"%byte).

(** The level of the grammar a command belongs to: simple command, pipe, background, list. *)
Definition own (a : ast) : nat :=
  match a with AExec _ | ARedir _ _ _ => 0 | APipe _ _ => 1 | ABack _ => 2 | AList _ _ => 3 end.

Definition wrap (ok : bool) (ts : list tok) : list tok :=
  if ok then ts else Sym "("%byte :: ts ++ [Sym ")"%byte].

Fixpoint body (a : ast) : list tok :=
  match a with
  | AExec args => Word <$> args
  | ARedir a f out => wrap (own a <=? 0)%nat (body a) ++ [redir_sym out; Word f]
  | APipe l r => wrap (own l <=? 0)%nat (body l) ++ Sym "|"%byte :: wrap (own r <=? 1)%nat (body r)
  | ABack a => wrap (own a <=? 2)%nat (body a) ++ [Sym "&"%byte]
  | AList l r => wrap (own l <=? 2)%nat (body l) ++ Sym ";"%byte :: body r
  end.

(** The tokens of a command where the grammar asks for level [k]. *)
Definition level (k : nat) (a : ast) : list tok := wrap (own a <=? k)%nat (body a).

(** Each token and a white-space character, [gap k] behind token number [k]. *)
Fixpoint flat (gap : nat -> byte) (k : nat) (ts : list tok) : list byte :=
  match ts with
  | [] => []
  | t :: ts => ttext t ++ gap k :: flat gap (S k) ts
  end.
Definition show (gap : nat -> byte) (a : ast) : list byte := flat gap 0 (body a).
Definition white (gap : nat -> byte) : Prop := forall k, is_ws (gap k) = true.

(** Words without special characters, and no more arguments than the shell takes. *)
Definition good_word (w : list byte) : Prop := w <> [] /\ no_nul w /\ Forall (fun c => is_word c = true) w.

Fixpoint good (a : ast) : Prop :=
  match a with
  | AExec args => Forall good_word args /\ Z.of_nat (length args) < MAXARGS
  | ARedir a f _ => good a /\ good_word f
  | APipe l r | AList l r => good l /\ good r
  | ABack a => good a
  end.

(** The command that a parsed structure stands for. *)
Fixpoint meaning (b : list byte) (c : cmd) : ast :=
  match c with
  | Exec argv => AExec (text b <$> argv)
  | Redir c f _ fd => ARedir (meaning b c) (text b f) (fd =? 1)
  | Pipe l r => APipe (meaning b l) (meaning b r)
  | List_ l r => AList (meaning b l) (meaning b r)
  | Back c => ABack (meaning b c)
  end.

(** ** Tokens in a line *)

Definition good_tok (t : tok) : Prop :=
  match t with
  | Word w => good_word w
  | Sym c => c ∈ symbols
  end.

Lemma flat_app gap ts : forall k ts', flat gap k (ts ++ ts') = flat gap k ts ++ flat gap (k + length ts) ts'.
Proof.
  induction ts as [|t ts IH]; intros k ts'; cbn [app flat length]; [by rewrite Nat.add_0_r|].
  by rewrite IH, <- app_assoc, Nat.add_succ_r.
Qed.

Lemma flat_length gap ts : forall k, length (flat gap k ts) = foldr (fun t n => length (ttext t) + 1 + n)%nat 0%nat ts.
Proof. induction ts as [|t ts IH]; intros k; cbn; [done|]. rewrite length_app. cbn. rewrite IH. lia. Qed.

Definition first (t : tok) : byte := hd x00 (ttext t).

Lemma good_first t : good_tok t -> exists r, ttext t = first t :: r /\ first t <> x00 /\ is_ws (first t) = false.
Proof.
  destruct t as [w|c]; cbn; unfold first; cbn.
  - intros (Hne & Hn & Hw). destruct w as [|c w]; [done|]. exists w. cbn. apply Forall_cons in Hw as [Hc _].
    unfold no_nul in Hn. rewrite not_elem_of_cons in Hn. split; [done|]. split; [naive_solver|].
    unfold is_word in Hc. by bool_hyps.
  - intros Hc. exists []. split; [done|]. unfold symbols in Hc.
    repeat (apply elem_of_cons in Hc as [->|Hc]; [done|]). by apply elem_of_nil in Hc.
Qed.

(** The line is [pre] followed by [ts], all of them good tokens. *)
Record line_at (gap : nat -> byte) (b : list byte) (pre ts : list tok) : Prop := {
  la_white : white gap;
  la_line : b = flat gap 0 (pre ++ ts);
  la_good : Forall good_tok (pre ++ ts)
}.

Definition pos (pre : list tok) : nat := length (flat (fun _ => x20) 0 pre).

Lemma pos_flat gap k pre : pos pre = length (flat gap k pre).
Proof. unfold pos. by rewrite !flat_length. Qed.

Section Lex.
Context (gap : nat -> byte) (b : list byte) (pre : list tok).

Lemma line_next t ts : line_at gap b pre (t :: ts) -> line_at gap b (pre ++ [t]) ts.
Proof. intros [W E G]. split; by rewrite <- ?app_assoc. Qed.

Lemma line_good ts t : line_at gap b pre ts -> t ∈ ts -> good_tok t.
Proof. intros [_ _ G] Ht. apply Forall_app in G as [_ G]. rewrite Forall_forall in G. auto. Qed.

Lemma drop_pos ts : line_at gap b pre ts -> drop (pos pre) b = flat gap (length pre) ts.
Proof. intros [_ -> _]. rewrite flat_app, (pos_flat gap 0). apply drop_app_length. Qed.

Lemma skip_pos ts : line_at gap b pre ts -> skip b (pos pre) = pos pre.
Proof.
  intros H. unfold skip. rewrite (drop_pos ts H). destruct ts as [|t ts]; [cbn; lia|].
  destruct (good_first t) as (r & E & _ & Hw); [apply (line_good _ _ H); by left|].
  cbn [flat]. rewrite E. cbn [app span_len]. rewrite Hw. lia.
Qed.

Lemma at_pos ts : line_at gap b pre ts -> at_ b (pos pre) = match ts with t :: _ => first t | [] => x00 end.
Proof.
  intros H. destruct ts as [|t ts].
  - destruct H as [_ -> _]. unfold at_. rewrite app_nil_r, (pos_flat gap 0). apply nth_overflow. lia.
  - destruct (good_first t) as (r & E & _ & _); [apply (line_good _ _ H); by left|].
    destruct H as [_ -> _]. unfold at_. rewrite flat_app, (pos_flat gap 0), app_nth2, Nat.sub_diag by lia. cbn [flat]. by rewrite E.
Qed.

Lemma peek_tok toks ts : line_at gap b pre ts ->
  peek b toks (pos pre) = Ok (match ts with t :: _ => in_set toks (first t) | [] => false end) (pos pre).
Proof.
  intros H. rewrite peek_run, (skip_pos ts H), (at_pos ts H). destruct ts as [|t ts]; [done|].
  destruct (good_first t) as (r & _ & Hn & _); [apply (line_good _ _ H); by left|]. by rewrite bool_decide_eq_false_2.
Qed.

Definition kind (t : tok) : token := match t with Word _ => TWord | Sym c => TSym c end.

Lemma pos_snoc t : pos (pre ++ [t]) = (pos pre + length (ttext t) + 1)%nat.
Proof. unfold pos. rewrite flat_app, !length_app. cbn [flat]. rewrite length_app. cbn. lia. Qed.

(** Behind the token there is its gap. *)
Lemma drop_behind t ts : line_at gap b pre (t :: ts) ->
  drop (pos pre + length (ttext t)) b = gap (length pre) :: flat gap (S (length pre)) ts.
Proof. intros H. rewrite <- drop_drop, (drop_pos _ H). cbn [flat]. apply drop_app_length. Qed.

Lemma skip_behind t ts : line_at gap b pre (t :: ts) -> skip b (pos pre + length (ttext t)) = pos (pre ++ [t]).
Proof.
  intros H. unfold skip. rewrite (drop_behind t ts H), pos_snoc. cbn [span_len]. rewrite (la_white _ _ _ _ H).
  assert (E0 : span_len is_ws (flat gap (S (length pre)) ts) = 0%nat); [|lia].
  destruct ts as [|t' ts]; [done|]. destruct (good_first t') as (r & Et & _ & Hw); [apply (line_good _ _ H); set_solver|].
  cbn [flat]. rewrite Et. cbn [app span_len]. by rewrite Hw.
Qed.

Lemma word_len w c rest : is_ws c = true -> Forall (fun c => is_word c = true) w -> span_len is_word (w ++ c :: rest) = length w.
Proof.
  intros Hc. induction 1 as [|a w Ha _ IH]; cbn; [|by rewrite Ha, IH]. unfold is_word. by rewrite Hc.
Qed.

Lemma gettoken_tok t ts : line_at gap b pre (t :: ts) ->
  gettoken b (pos pre) = Ok (kind t, (pos pre, (pos pre + length (ttext t))%nat)) (pos (pre ++ [t])).
Proof.
  intros H. assert (Gt : good_tok t) by (apply (line_good _ _ H); by left).
  destruct (good_first t Gt) as (r & Er & Hn & Hw).
  unfold gettoken. rewrite (bind_Ok get _ _ (pos pre) (pos pre)) by done. cbv beta zeta.
  rewrite (skip_pos _ H), (at_pos _ H). rewrite bool_decide_eq_false_2 by done.
  rewrite <- (skip_behind t ts H). destruct t as [w|c].
  - destruct Gt as (Hne & Hn' & Hf). assert (Hc : is_word (first (Word w)) = true).
    { unfold first. cbn in *. rewrite Er in Hf. by apply Forall_cons in Hf as [Hc _]. }
    assert (E1 : in_set (str "|();&<") (first (Word w)) = false /\ first (Word w) <> ">"%byte).
    { revert Hc. generalize (first (Word w)). intros c. by destruct c. }
    destruct E1 as [-> E1]. rewrite bool_decide_eq_false_2 by done. rewrite (drop_pos _ H). cbn [flat ttext].
    rewrite word_len by (done || apply (la_white _ _ _ _ H)). done.
  - cbn in Gt. unfold first. cbn [ttext hd length]. rewrite Nat.add_1_r.
    assert (Hg : at_ b (S (pos pre)) <> ">"%byte).
    { pose proof (drop_behind _ _ H) as Eb. cbn [ttext length] in Eb. rewrite Nat.add_1_r in Eb. unfold at_.
      assert (Eg : b !! S (pos pre) = Some (gap (length pre))) by (by rewrite <- (Nat.add_0_r (S (pos pre))), <- lookup_drop, Eb).
      rewrite (nth_lookup_Some _ _ _ _ Eg). intros Ex. pose proof (la_white _ _ _ _ H (length pre)) as Hg. by rewrite Ex in Hg. }
    cbn in Gt. repeat (apply elem_of_cons in Gt as [->|Gt]; [cbn; rewrite ?(bool_decide_eq_false_2 _ Hg); done|]).
    by apply elem_of_nil in Gt.
Qed.

(** The characters of the token. *)
Lemma text_tok t ts : line_at gap b pre (t :: ts) -> text b (pos pre, (pos pre + length (ttext t))%nat) = ttext t.
Proof.
  intros H. unfold text. cbn [fst snd]. rewrite (drop_pos _ H). cbn [flat].
  replace (pos pre + length (ttext t) - pos pre)%nat with (length (ttext t)) by lia. apply take_app_length.
Qed.

End Lex.

(** ** The parser on tokens *)

Definition peeks (toks : list byte) (ts : list tok) : bool :=
  match ts with t :: _ => in_set toks (first t) | [] => false end.

(** What follows is the end of the line or one of the symbols. *)
Definition stops (toks : list byte) (ts : list tok) : Prop := ts = [] \/ peeks toks ts = true.

Lemma stops_not X Y ts : forallb (fun c => negb (in_set Y c)) X = true -> stops X ts -> peeks Y ts = false.
Proof.
  intros F [->|Hp]; [done|]. destruct ts as [|t ts]; [done|]. cbn in *. revert Hp. generalize (first t). intros c Hc.
  rewrite forallb_forall in F. apply negb_true_iff, F. unfold in_set in Hc. clear F.
  induction X as [|x X IH]; cbn in *; [done|]. case_bool_decide as E; [by left|right]. apply IH. by destruct (strchr X c).
Qed.

Lemma stops_mono X Y ts : forallb (in_set Y) X = true -> stops X ts -> stops Y ts.
Proof.
  intros F [->|Hp]; [by left|right]. destruct ts as [|t ts]; [done|]. cbn in *. revert Hp. generalize (first t). intros c Hc.
  rewrite forallb_forall in F. apply F. unfold in_set in Hc. clear F.
  induction X as [|x X IH]; cbn in *; [done|]. case_bool_decide as E; [by left|right]. apply IH. by destruct (strchr X c).
Qed.

(** Redirections behind a command. *)
Definition rtoks (rs : list (list byte * bool)) : list tok :=
  mjoin ((fun x : list byte * bool => [redir_sym x.2; Word x.1]) <$> rs).
Definition wraps (a : ast) (rs : list (list byte * bool)) : ast := foldl (fun a x => ARedir a x.1 x.2) a rs.

Lemma rtoks_cons x rs : rtoks (x :: rs) = redir_sym x.2 :: Word x.1 :: rtoks rs.
Proof. done. Qed.

Lemma tokens_le gap ts : forall k, (length ts <= length (flat gap k ts))%nat.
Proof. induction ts as [|t ts IH]; intros k; [done|]. cbn [flat length]. rewrite length_app. specialize (IH (S k)). cbn. lia. Qed.

Section Parse.
Context (gap : nat -> byte) (b : list byte).

Lemma line_len pre ts : line_at gap b pre ts -> (length ts <= length b)%nat.
Proof. intros [_ -> _]. rewrite flat_app, length_app. pose proof (tokens_le gap ts (0 + length pre)). lia. Qed.

Lemma word_not w toks : good_word w -> forallb (in_set symbols) toks = true -> in_set toks (first (Word w)) = false.
Proof.
  intros (Hne & _ & Hw) F. destruct w as [|c w]; [done|]. unfold first. cbn. apply Forall_cons in Hw as [Hc _].
  destruct (in_set toks c) eqn:E; [|done]. exfalso. unfold is_word in Hc. bool_hyps.
  assert (Hs : stops symbols [Sym c]) by (apply (stops_mono toks); [done|by right]). destruct Hs as [Hs|Hs]; [done|].
  change (peeks symbols [Sym c]) with (in_set symbols c) in Hs. congruence.
Qed.

Lemma line_word pre w ts : line_at gap b pre (Word w :: ts) -> good_word w.
Proof. intros [_ _ G]. apply Forall_app in G as [_ G]. by apply Forall_cons in G as [G _]. Qed.

Lemma line_app pre ts ts' : line_at gap b pre (ts ++ ts') -> line_at gap b (pre ++ ts) ts'.
Proof. intros [W E G]. split; by rewrite <- ?app_assoc. Qed.

Lemma redirs_run rs : forall pre ts c fuel,
  line_at gap b pre (rtoks rs ++ ts) -> peeks (str "<>") ts = false -> (length rs < fuel)%nat ->
  exists c', parseredirs_loop b c fuel (pos pre) = Ok c' (pos (pre ++ rtoks rs)) /\ meaning b c' = wraps (meaning b c) rs /\
    (rs = [] -> c' = c).
Proof.
  induction rs as [|[f out] rs IH]; intros pre ts c fuel H Hp Hf; (destruct fuel as [|fuel]; [cbn in Hf; lia|]); cbn [parseredirs_loop].
  - rewrite (bind_Ok _ _ _ _ _ (peek_tok gap b pre _ ts H)). fold (peeks (str "<>") ts). rewrite Hp.
    exists c. split; [|done]. change (rtoks []) with (@nil tok). by rewrite app_nil_r.
  - rewrite rtoks_cons in *. cbn [fst snd app] in *. rewrite (bind_Ok _ _ _ _ _ (peek_tok gap b pre _ _ H)).
    replace (in_set (str "<>") (first (redir_sym out))) with true by (by destruct out). cbv iota.
    rewrite (bind_Ok _ _ _ _ _ (gettoken_tok gap b pre _ _ H)). pose proof (line_next _ _ _ _ _ H) as H1.
    rewrite (bind_Ok _ _ _ _ _ (gettoken_tok gap b _ _ _ H1)). pose proof (line_next _ _ _ _ _ H1) as H2.
    cbn [fst snd kind negb]. rewrite bool_decide_eq_true_2 by done. cbn [negb].
    set (c1 := if bool_decide _ then _ else _).
    assert (Ec : meaning b c1 = ARedir (meaning b c) f out).
    { pose proof (text_tok gap b _ _ _ H1) as Et. unfold c1.
      destruct out; [rewrite bool_decide_eq_false_2 by done|rewrite bool_decide_eq_true_2 by done];
        cbn -[text pos Nat.add length] in *; by rewrite Et. }
    destruct (IH _ ts c1 fuel H2 Hp) as (c' & E & M & _); [cbn in Hf; lia|].
    exists c'. rewrite E. split; [by rewrite <- !app_assoc|]. split; [|done]. rewrite M, Ec. done.
Qed.

Lemma parseredirs_run rs pre ts c :
  line_at gap b pre (rtoks rs ++ ts) -> peeks (str "<>") ts = false ->
  exists c', parseredirs b c (pos pre) = Ok c' (pos (pre ++ rtoks rs)) /\ meaning b c' = wraps (meaning b c) rs /\ (rs = [] -> c' = c).
Proof.
  intros H Hp. apply (redirs_run rs pre ts); [done|done|]. pose proof (line_len _ _ H) as Hl. rewrite length_app in Hl.
  assert (length rs <= length (rtoks rs))%nat; [|lia]. clear. induction rs as [|x rs IH]; [done|]. rewrite rtoks_cons. cbn. lia.
Qed.

(** The argument loop stops at the end of the line or at a symbol. *)
Lemma args_stop pre ts c k fuel :
  line_at gap b pre ts -> stops (str "|)&;") ts -> args_loop b c k (S fuel) (pos pre) = Ok c (pos pre).
Proof.
  intros H Hs. cbn [args_loop]. rewrite (bind_Ok _ _ _ _ _ (peek_tok gap b pre _ ts H)). fold (peeks (str "|)&;") ts).
  destruct Hs as [-> | ->]; [|done]. cbn [peeks].
  assert (E : gettoken b (pos pre) = Ok (TEnd, (pos pre, pos pre)) (pos pre)); [|by rewrite (bind_Ok _ _ _ _ _ E)].
  unfold gettoken. rewrite (bind_Ok get _ _ (pos pre) (pos pre)) by done. cbv beta zeta.
  rewrite (skip_pos _ _ _ _ H), (at_pos _ _ _ _ H). rewrite bool_decide_eq_true_2 by done. unfold bind, modify, ret. cbn.
  by rewrite (skip_pos _ _ _ _ H).
Qed.

Lemma args_run args : forall pre argv rs ts fuel,
  line_at gap b pre ((Word <$> args) ++ rtoks rs ++ ts) -> (args = [] -> rs = []) -> stops (str "|)&;") ts ->
  Z.of_nat (length argv + length args) < MAXARGS -> (length args < fuel)%nat ->
  exists c', args_loop b (Exec argv) (Z.of_nat (length argv)) fuel (pos pre) = Ok c' (pos (pre ++ (Word <$> args) ++ rtoks rs)) /\
    meaning b c' = wraps (AExec ((text b <$> argv) ++ args)) rs.
Proof.
  induction args as [|w args IH]; intros pre argv rs ts fuel H Hrs Hs Hm Hf; (destruct fuel as [|fuel]; [cbn in Hf; lia|]).
  - rewrite (Hrs eq_refl) in *. exists (Exec argv). change (rtoks []) with (@nil tok). cbn [fmap list_fmap app].
    rewrite app_nil_r. split; [by apply (args_stop pre ts)|]. cbn. by rewrite app_nil_r.
  - cbn [fmap list_fmap app] in H. cbn [args_loop]. rewrite (bind_Ok _ _ _ _ _ (peek_tok gap b pre _ _ H)).
    rewrite (word_not w) by (done || by eapply line_word). cbv iota.
    rewrite (bind_Ok _ _ _ _ _ (gettoken_tok gap b pre _ _ H)). pose proof (line_next _ _ _ _ _ H) as H1. cbn [fst snd kind add_arg].
    pose proof (text_tok gap b _ _ _ H) as Et. cbn [ttext] in Et |- *. set (a := (pos pre, (pos pre + length w)%nat)) in *.
    assert (Ea : text b <$> argv ++ [a] = (text b <$> argv) ++ [w]) by (rewrite fmap_app; cbn -[text]; by rewrite Et).
    rewrite (proj2 (Z.leb_gt _ _)) by (cbn [length] in Hm; lia).
    assert (Hnr : peeks (str "<>") ts = false) by (by apply (stops_not (str "|)&;"))).
    assert (Elen : Z.of_nat (length argv) + 1 = Z.of_nat (length (argv ++ [a]))) by (rewrite length_app; cbn; lia).
    destruct args as [|w' args].
    + destruct (parseredirs_run rs _ ts (Exec (argv ++ [a])) H1 Hnr) as (c1 & E1 & M1 & _). rewrite (bind_Ok _ _ _ _ _ E1).
      destruct fuel as [|fuel]; [cbn in Hf; lia|]. rewrite (args_stop _ ts); [|by apply line_app|done].
      exists c1. split; [by rewrite <- app_assoc|]. rewrite M1. cbn [meaning]. by rewrite Ea.
    + destruct (parseredirs_run [] (pre ++ [Word w]) ((Word <$> w' :: args) ++ rtoks rs ++ ts) (Exec (argv ++ [a])) H1) as (c1 & E1 & _ & Ec).
      { cbn [fmap list_fmap app peeks]. apply word_not; [|done]. exact (line_word (pre ++ [Word w]) w' (fmap (M:=list) Word args ++ rtoks rs ++ ts) H1). }
      rewrite (bind_Ok _ _ _ _ _ E1), (Ec eq_refl). change (rtoks []) with (@nil tok). rewrite app_nil_r, Elen.
      destruct (IH (pre ++ [Word w]) (argv ++ [a]) rs ts fuel) as (c' & E & M); [done|done|done| |cbn in *; lia|].
      { rewrite length_app. cbn [length] in *. lia. }
      exists c'. rewrite E. split; [by rewrite <- !app_assoc|]. by rewrite M, Ea, <- app_assoc.
Qed.

(** ** The four levels of the grammar *)

Definition amps (k : nat) : list tok := replicate k (Sym "&"%byte).

(** A simple command or a block, with redirections behind it. *)
Definition at_exec (a : ast) : Prop := forall pre rs ts fuel,
  line_at gap b pre (level 0 a ++ rtoks rs ++ ts) -> stops (str "|)&;") ts -> (4 * length (level 0 a) + 2 <= fuel)%nat ->
  exists c, parseexec b fuel (pos pre) = Ok c (pos (pre ++ level 0 a ++ rtoks rs)) /\ meaning b c = wraps a rs.

Definition at_pipe (a : ast) : Prop := forall pre ts fuel,
  line_at gap b pre (level 1 a ++ ts) -> stops (str ")&;") ts -> (4 * length (level 1 a) + 3 <= fuel)%nat ->
  exists c, parsepipe b fuel (pos pre) = Ok c (pos (pre ++ level 1 a)) /\ meaning b c = a.

Definition at_back (a : ast) : Prop := forall pre k ts fuel,
  line_at gap b pre (level 2 a ++ amps k ++ ts) -> stops (str ");") ts -> (4 * length (level 2 a) + 3 <= fuel)%nat ->
  exists c0 s0 c, parsepipe b fuel (pos pre) = Ok c0 s0 /\
    back_loop b c0 (S (length b)) s0 = Ok c (pos (pre ++ level 2 a ++ amps k)) /\ meaning b c = Nat.iter k ABack a.

Definition at_line (a : ast) : Prop := forall pre ts fuel,
  line_at gap b pre (body a ++ ts) -> stops (str ")") ts -> (4 * length (body a) + 4 <= fuel)%nat ->
  exists c, parseline b fuel (pos pre) = Ok c (pos (pre ++ body a)) /\ meaning b c = a.

Lemma back_run k : forall pre ts c fuel,
  line_at gap b pre (amps k ++ ts) -> stops (str ");") ts -> (k < fuel)%nat ->
  exists c', back_loop b c fuel (pos pre) = Ok c' (pos (pre ++ amps k)) /\ meaning b c' = Nat.iter k ABack (meaning b c).
Proof.
  induction k as [|k IH]; intros pre ts c fuel H Hs Hf; (destruct fuel as [|fuel]; [lia|]); cbn [back_loop].
  - cbn [amps replicate app] in *. rewrite (bind_Ok _ _ _ _ _ (peek_tok gap b pre _ ts H)). fold (peeks (str "&") ts).
    rewrite (stops_not (str ");")) by done. exists c. by rewrite app_nil_r.
  - cbn [amps replicate app] in *. rewrite (bind_Ok _ _ _ _ _ (peek_tok gap b pre _ _ H)). change (in_set _ _) with true. cbv iota.
    rewrite (bind_Ok _ _ _ _ _ (gettoken_tok gap b pre _ _ H)). pose proof (line_next _ _ _ _ _ H) as H1.
    destruct (IH _ ts (Back c) fuel H1 Hs) as (c' & E & Mn); [lia|]. exists c'. rewrite E. split; [by rewrite <- app_assoc|].
    rewrite Mn. cbn [meaning]. by rewrite <- Nat.iter_succ_r.
Qed.

(** A command that is not a pipe is parsed by [parseexec] in [parsepipe]. *)
Lemma exec_pipe a : at_exec a -> own a <> 1%nat -> at_pipe a.
Proof.
  intros HE Ho pre ts fuel H Hs Hf. assert (El : level 1 a = level 0 a) by (unfold level; by destruct a).
  rewrite El in *. destruct fuel as [|fuel]; [lia|]. cbn [parsepipe].
  destruct (HE pre [] ts fuel) as (c & E & Mn); [done|by apply (stops_mono (str ")&;"))|lia|].
  change (rtoks []) with (@nil tok) in E. rewrite app_nil_r in E. rewrite (bind_Ok _ _ _ _ _ E).
  rewrite (bind_Ok _ _ _ _ _ (peek_tok gap b _ _ ts (line_app _ _ _ H))). fold (peeks (str "|") ts).
  rewrite (stops_not (str ")&;")) by done. by exists c.
Qed.

Lemma pipe_back a : at_pipe a -> own a <> 2%nat -> at_back a.
Proof.
  intros HP Ho pre k ts fuel H Hs Hf. assert (El : level 2 a = level 1 a) by (unfold level; by destruct a).
  rewrite El in *. pose proof (line_app _ _ _ H) as H1.
  destruct (HP pre (amps k ++ ts) fuel) as (c0 & E0 & M0); [done| |done|].
  { destruct k; [by apply (stops_mono (str ");"))|by right]. }
  destruct (back_run k _ ts c0 (S (length b)) H1 Hs) as (c & E & Mn).
  { pose proof (line_len _ _ H1) as Hl. rewrite length_app in Hl. unfold amps in Hl. rewrite length_replicate in Hl. lia. }
  exists c0, (pos (pre ++ level 1 a)), c. rewrite E, Mn, M0. by rewrite <- app_assoc.
Qed.

Lemma back_line a : at_back a -> own a <> 3%nat -> at_line a.
Proof.
  intros HB Ho pre ts fuel H Hs Hf. assert (El : body a = level 2 a) by (unfold level; by destruct a).
  rewrite El in *. destruct fuel as [|fuel]; [lia|]. cbn [parseline].
  destruct (HB pre 0%nat ts fuel) as (c0 & s0 & c & E0 & E & Mn); [done|by apply (stops_mono (str ")"))|lia|].
  cbn [amps replicate] in E. rewrite app_nil_r in E. rewrite (bind_Ok _ _ _ _ _ E0), (bind_Ok _ _ _ _ _ E).
  rewrite (bind_Ok _ _ _ _ _ (peek_tok gap b _ _ ts (line_app _ _ _ H))). fold (peeks (str ";") ts).
  rewrite (stops_not (str ")")) by done. by exists c.
Qed.

(** A block in parentheses. *)
Lemma line_exec a : at_line a -> own a <> 0%nat -> at_exec a.
Proof.
  intros HL Ho pre rs ts fuel H Hs Hf.
  assert (El : level 0 a = Sym "("%byte :: body a ++ [Sym ")"%byte]) by (unfold level; by destruct a).
  rewrite El in *. cbn [length] in Hf. rewrite length_app in Hf. cbn [length] in Hf. cbn [app] in H. rewrite <- app_assoc in H. cbn [app] in H.
  destruct fuel as [|[|fuel]]; [lia|lia|]. cbn [parseexec]. rewrite (bind_Ok _ _ _ _ _ (peek_tok gap b pre _ _ H)).
  change (in_set _ _) with true. cbv iota. cbn [parseblock]. rewrite (bind_Ok _ _ _ _ _ (peek_tok gap b pre _ _ H)).
  change (in_set _ _) with true. cbn [negb]. rewrite (bind_Ok _ _ _ _ _ (gettoken_tok gap b pre _ _ H)).
  pose proof (line_next _ _ _ _ _ H) as H1. destruct (HL _ _ fuel H1) as (c0 & E0 & M0); [by right|lia|].
  pose proof (line_app _ _ _ H1) as H2. pose proof (line_next _ _ _ _ _ H2) as H3.
  rewrite (bind_Ok _ _ _ _ _ E0), (bind_Ok _ _ _ _ _ (peek_tok gap b _ _ _ H2)). change (in_set _ _) with true. cbn [negb].
  rewrite (bind_Ok _ _ _ _ _ (gettoken_tok gap b _ _ _ H2)).
  destruct (parseredirs_run rs _ ts c0 H3) as (c & E & Mn & _); [by apply (stops_not (str "|)&;"))|].
  exists c. rewrite E, Mn, M0. split; [|done]. f_equal. f_equal. by rewrite <- !app_assoc; cbn; rewrite <- !app_assoc.
Qed.

Lemma words_exec args : Z.of_nat (length args) < MAXARGS -> at_exec (AExec args).
Proof.
  intros Hm pre rs ts fuel H Hs Hf. change (level 0 (AExec args)) with (Word <$> args) in *.
  destruct fuel as [|fuel]; [lia|]. cbn [parseexec].
  assert (Hnr : peeks (str "<>") ts = false) by (by apply (stops_not (str "|)&;"))).
  assert (Hop : forall X, forallb (in_set symbols) X = true -> peeks X ts = false -> (forall o, in_set X (first (redir_sym o)) = false) ->
    peeks X ((Word <$> args) ++ rtoks rs ++ ts) = false).
  { intros X HX Ht Hr. destruct args as [|w args]; [|by apply word_not; [apply (line_word pre w _ H)|]].
    cbn [fmap list_fmap app]. destruct rs as [|[f o] rs]; [done|]. apply Hr. }
  rewrite (bind_Ok _ _ _ _ _ (peek_tok gap b pre _ _ H)). fold (peeks (str "(") ((Word <$> args) ++ rtoks rs ++ ts)).
  rewrite Hop; [|done|by apply (stops_not (str "|)&;"))|by intros []]. destruct args as [|w args].
  - cbn [fmap list_fmap app] in *. destruct (parseredirs_run rs pre ts (Exec []) H Hnr) as (c & E & Mn & _).
    rewrite (bind_Ok _ _ _ _ _ E), (args_stop _ ts) by (done || by apply line_app). by exists c.
  - destruct (parseredirs_run [] pre _ (Exec []) H) as (c & E & _ & Ec).
    { apply word_not; [|done]. by apply (line_word pre w _ H). }
    rewrite (bind_Ok _ _ _ _ _ E), (Ec eq_refl). change (rtoks []) with (@nil tok). rewrite app_nil_r.
    apply (args_run (w :: args) pre [] rs ts (S (length b))); try done. pose proof (line_len _ _ H) as Hl.
    rewrite length_app, length_fmap in Hl. lia.
Qed.

Lemma redir_exec a f o : at_exec a -> at_exec (ARedir a f o).
Proof.
  intros HE pre rs ts fuel H Hs Hf. change (level 0 (ARedir a f o)) with (level 0 a ++ [redir_sym o; Word f]) in *.
  rewrite <- app_assoc in *. rewrite length_app in Hf. cbn [length] in Hf.
  destruct (HE pre ((f, o) :: rs) ts fuel) as (c & E & Mn); [done|done|lia|]. exists c. by rewrite E.
Qed.

Lemma pipes_pipe l r : at_exec l -> at_pipe r -> at_pipe (APipe l r).
Proof.
  intros HE HPr pre ts fuel H Hs Hf. change (level 1 (APipe l r)) with (level 0 l ++ Sym "|"%byte :: level 1 r) in *.
  rewrite length_app in Hf. cbn [length] in Hf. rewrite <- app_assoc in H. cbn [app] in H. destruct fuel as [|fuel]; [lia|].
  cbn [parsepipe]. destruct (HE pre [] (Sym "|"%byte :: level 1 r ++ ts) fuel) as (c & E & Mn); [done|by right|lia|].
  change (rtoks []) with (@nil tok) in E. rewrite app_nil_r in E. pose proof (line_app _ _ _ H) as H1.
  rewrite (bind_Ok _ _ _ _ _ E), (bind_Ok _ _ _ _ _ (peek_tok gap b _ _ _ H1)). change (in_set _ _) with true. cbv iota.
  rewrite (bind_Ok _ _ _ _ _ (gettoken_tok gap b _ _ _ H1)). pose proof (line_next _ _ _ _ _ H1) as H2.
  destruct (HPr _ ts fuel H2 Hs) as (c' & E' & Mn'); [lia|]. rewrite (bind_Ok _ _ _ _ _ E').
  exists (Pipe c c'). cbn [meaning]. rewrite Mn, Mn'. split; [|done]. unfold ret. by rewrite <- !app_assoc.
Qed.

Lemma lists_line l r : at_back l -> at_line r -> at_line (AList l r).
Proof.
  intros HBl HLr pre ts fuel H Hs Hf. change (body (AList l r)) with (level 2 l ++ Sym ";"%byte :: body r) in *.
  rewrite length_app in Hf. cbn [length] in Hf. rewrite <- app_assoc in H. cbn [app] in H. destruct fuel as [|fuel]; [lia|].
  cbn [parseline].
  destruct (HBl pre 0%nat (Sym ";"%byte :: body r ++ ts) fuel) as (c0 & s0 & c & E0 & E & Mn); [done|by right|lia|].
  cbn [amps replicate] in E. rewrite app_nil_r in E. pose proof (line_app _ _ _ H) as H1.
  rewrite (bind_Ok _ _ _ _ _ E0), (bind_Ok _ _ _ _ _ E), (bind_Ok _ _ _ _ _ (peek_tok gap b _ _ _ H1)).
  change (in_set _ _) with true. cbv iota.
  rewrite (bind_Ok _ _ _ _ _ (gettoken_tok gap b _ _ _ H1)). pose proof (line_next _ _ _ _ _ H1) as H2.
  destruct (HLr _ ts fuel H2 Hs) as (c' & E' & Mn'); [lia|]. rewrite (bind_Ok _ _ _ _ _ E').
  exists (List_ c c'). cbn [meaning]. rewrite Mn, Mn'. split; [|done]. unfold ret. by rewrite <- !app_assoc.
Qed.

Lemma backs_back a : at_back a -> at_back (ABack a).
Proof.
  intros HB pre k ts fuel H Hs Hf. change (level 2 (ABack a)) with (level 2 a ++ amps 1) in *. rewrite length_app in Hf.
  assert (Ea : forall X, (level 2 a ++ amps 1) ++ amps k ++ X = level 2 a ++ amps (S k) ++ X).
  { intros X. by rewrite <- app_assoc. }
  rewrite Ea in H. destruct (HB pre (S k) ts fuel H Hs) as (c0 & s0 & c & E0 & E & Mn); [cbn in Hf; lia|].
  exists c0, s0, c. split; [done|]. rewrite Mn, Nat.iter_succ_r. split; [|done]. rewrite E. f_equal. f_equal. f_equal.
  by rewrite <- app_assoc.
Qed.

Lemma parse_levels a : good a -> at_exec a /\ at_pipe a /\ at_back a /\ at_line a.
Proof.
  assert (Hup : forall a, own a = 0%nat -> at_exec a -> at_exec a /\ at_pipe a /\ at_back a /\ at_line a).
  { intros a0 Ho HE. assert (HP : at_pipe a0) by (apply exec_pipe; [done|lia]).
    assert (HB : at_back a0) by (apply pipe_back; [done|lia]). split_and!; [done..|]. apply back_line; [done|lia]. }
  induction a as [args|a IH f o|l IHl r IHr|l IHl r IHr|a IH]; intros Hg; cbn [good] in Hg.
  - apply Hup; [done|]. apply words_exec, Hg.
  - destruct (IH (proj1 Hg)) as (HE & _). apply Hup; [done|]. by apply redir_exec.
  - destruct (IHl (proj1 Hg)) as (HE & _), (IHr (proj2 Hg)) as (_ & HPr & _).
    assert (HP : at_pipe (APipe l r)) by (by apply pipes_pipe). assert (HB : at_back (APipe l r)) by (by apply pipe_back).
    assert (HL : at_line (APipe l r)) by (by apply back_line). split_and!; [by apply line_exec|done..].
  - destruct (IHl (proj1 Hg)) as (_ & _ & HBl & _), (IHr (proj2 Hg)) as (_ & _ & _ & HLr).
    assert (HL : at_line (AList l r)) by (by apply lists_line). assert (HE : at_exec (AList l r)) by (by apply line_exec).
    assert (HP : at_pipe (AList l r)) by (by apply exec_pipe). split_and!; [done|done|by apply pipe_back|done].
  - destruct (IH Hg) as (_ & _ & HB0 & _). assert (HB : at_back (ABack a)) by (by apply backs_back).
    assert (HL : at_line (ABack a)) by (by apply back_line).
    assert (HE : at_exec (ABack a)) by (by apply line_exec). split_and!; [done|by apply exec_pipe|done|done].
Qed.

End Parse.

(** ** The round trip *)

Lemma body_good a : good a -> Forall good_tok (body a).
Proof.
  assert (Hw : forall ok ts, Forall good_tok ts -> Forall good_tok (wrap ok ts)).
  { intros [] ts Ht; [done|]. apply Forall_cons. split; [by apply (bool_decide_unpack _)|]. apply Forall_app. split; [done|].
    apply Forall_singleton. by apply (bool_decide_unpack _). }
  induction a as [args|a IH f o|l IHl r IHr|l IHl r IHr|a IH]; cbn [good body]; intros Hg.
  - apply Forall_fmap. by destruct Hg.
  - apply Forall_app. split; [apply Hw, IH, Hg|]. repeat apply Forall_cons_2; [|by destruct Hg|by apply Forall_nil].
    destruct o; by apply (bool_decide_unpack _).
  - apply Forall_app. split; [apply Hw, IHl, Hg|]. apply Forall_cons. split; [by apply (bool_decide_unpack _)|apply Hw, IHr, Hg].
  - apply Forall_app. split; [apply Hw, IHl, Hg|]. apply Forall_cons. split; [by apply (bool_decide_unpack _)|apply IHr, Hg].
  - apply Forall_app. split; [apply Hw, IH, Hg|]. apply Forall_singleton. by apply (bool_decide_unpack _).
Qed.

Lemma flat_no_nul gap ts : white gap -> Forall good_tok ts -> forall k, no_nul (flat gap k ts).
Proof.
  intros Hw. induction 1 as [|t ts Ht _ IH]; intros k; [by apply not_elem_of_nil|]. cbn [flat]. unfold no_nul in *.
  rewrite not_elem_of_app, not_elem_of_cons. split_and!; [|intros E; specialize (Hw k); by rewrite <- E in Hw|done].
  destruct t as [w|c]; [by destruct Ht as (_ & Hn & _)|].
  cbn in *. intros <-%list_elem_of_singleton. revert Ht. by apply (bool_decide_unpack _).
Qed.

(** What the strings of the buffer say once they are ended in place. *)
Fixpoint command (buf : list byte) (c : cmd) : ast :=
  let string (a : span) := cstring (drop a.1 buf) in
  match c with
  | Exec argv => AExec (string <$> argv)
  | Redir c f _ fd => ARedir (command buf c) (string f) (fd =? 1)
  | Pipe l r => APipe (command buf l) (command buf r)
  | List_ l r => AList (command buf l) (command buf r)
  | Back c => ABack (command buf c)
  end.

Lemma command_meaning b buf c :
  (forall a, a ∈ spans c -> cstring (drop a.1 buf) = text b a) -> command buf c = meaning b c.
Proof.
  induction c as [argv|c IH f m fd|l IHl r IHr|l IHl r IHr|c IH]; cbn [spans command meaning]; intros H.
  - f_equal. apply list_fmap_ext. intros i a Ha. by apply H, list_elem_of_lookup_2 with i.
  - rewrite IH, H by set_solver. done.
  - rewrite IHl, IHr by set_solver. done.
  - rewrite IHl, IHr by set_solver. done.
  - by rewrite IH.
Qed.

Lemma show_parses gap a : white gap -> good a -> let b := show gap a in
  exists c, parsecmd b = Ok (c, nulterminate c (b ++ [x00])) (length b) /\ meaning b c = a.
Proof.
  intros Hw Hg b. assert (H : line_at gap b [] (body a ++ [])).
  { rewrite app_nil_r. split; [done|done|]. by apply body_good. }
  destruct (parse_levels gap b a Hg) as (_ & _ & _ & HL).
  assert (Hf : (4 * length (body a) + 4 <= 4 * length b + 4)%nat) by (pose proof (tokens_le gap (body a) 0); unfold b, show; lia).
  destruct (HL [] [] _ H (or_introl eq_refl) Hf) as (c & E & Mn). exists c. split; [|done].
  unfold parsecmd. change (pos []) with 0%nat in E. rewrite (bind_Ok _ _ _ _ _ E). pose proof (line_app _ _ _ _ _ H) as H1.
  rewrite (bind_Ok _ _ _ _ _ (peek_tok gap b _ [] [] H1)). rewrite (pos_flat gap 0). change (flat gap 0 ([] ++ body a)) with b.
  rewrite (bind_Ok get _ _ _ _ eq_refl), Nat.eqb_refl. done.
Qed.

Lemma show_no_nul gap a : white gap -> good a -> no_nul (show gap a).
Proof. intros Hw Hg. apply flat_no_nul; [done|]. by apply body_good. Qed.

(** C12. Printing and parsing.  A command written down with the least parentheses (pipes bind
    tighter than [&], [&] tighter than [;], a block where the grammar asks for one) and any
    white space between the tokens is parsed to the end of its line without an error, and
    what the structure says once its strings are ended in the buffer is the command again:
    the same words, redirections, pipes, lists and background jobs, in the same order. *)
Theorem parse_roundtrip gap a :
  white gap -> good a ->
  exists c buf, parsecmd (show gap a) = Ok (c, buf) (length (show gap a)) /\ command buf c = a.
Proof.
  intros Hw Hg. destruct (show_parses gap a Hw Hg) as (c & E & Mn). eexists c, _. split; [done|]. rewrite <- Mn at 2.
  apply command_meaning. intros s Hs. eapply parsecmd_strings; [|done|done]. by apply show_no_nul.
Qed.

(** A space behind every token but the one with number [n], which ends the line. *)
Definition gap_nl (n k : nat) : byte := if (k =? n)%nat then x0a else x20.

Lemma white_nl n : white (gap_nl n).
Proof. intros k. unfold gap_nl. by destruct (k =? n)%nat. Qed.

Definition sample : ast :=
  AList (ABack (APipe (ARedir (AExec [str "cat"; str "x"]) (str "in") false) (AList (AExec [str "wc"]) (AExec [str "echo"]))))
        (ARedir (APipe (AExec [str "ls"]) (AExec [str "grep"; str "a"])) (str "out") true).

Lemma sample_good : good sample.
Proof.
  repeat split; try done; repeat (apply Forall_cons_2 || apply Forall_nil); repeat split; try done;
    try (by apply (bool_decide_unpack _)); repeat (apply Forall_cons_2; [done|]); by apply Forall_nil.
Qed.

Lemma parse_roundtrip_witness :
  show (gap_nl 19) sample = line "cat x < in | ( wc ; echo ) & ; ( ls | grep a ) > out" /\
  exists c buf, parsecmd (show (gap_nl 19) sample) = Ok (c, buf) (length (show (gap_nl 19) sample)) /\ command buf c = sample.
Proof. split; [reflexivity|]. exact (parse_roundtrip (gap_nl 19) sample (white_nl 19) sample_good). Defined.
