(* ===== verification/ShRun.v ===== *)
(** * Running shell commands: runcmd and main of sh.c

    A process as the tree of what it does: programs it becomes, children it forks, what it
    prints and waits for, each with the descriptors it holds.  Descriptors are kept as in the
    kernel: a table in which the lowest free slot is taken.  Whether the kernel grants an
    [open], [pipe], [fork], [exec] or [chdir] is a parameter; the calls of one command are told
    apart by their place in it.  The shell's own input are the replies to its reads, one byte
    at a time, into a buffer of 100 bytes. *)

From S2P Require Import Prelude Layout Mem Bytes User Sh.

Open Scope Z_scope.

Definition O_RDWR : Z := 0x002.
Definition NFD : nat := 16.

(** A place in a command: the branches on the way to it, the last one first. *)
Definition place : Type := list nat.

(** What a descriptor refers to. *)
Inductive obj : Type :=
  | Given (n : nat)
  | Opened (name : list byte) (mode : Z)
  | PipeRead (p : place)
  | PipeWrite (p : place).

Definition fdtab : Type := list (option obj).

Fixpoint lowest (t : fdtab) : option nat :=
  match t with
  | [] => None
  | None :: _ => Some 0%nat
  | Some _ :: t => S <$> lowest t
  end.

Definition fd_close (t : fdtab) (fd : nat) : fdtab := <[fd := None]> t.

(** The result -1 is [None]. *)
Definition fd_put (t : fdtab) (o : obj) : option (nat * fdtab) :=
  match lowest t with
  | Some fd => Some (fd, <[fd := Some o]> t)
  | None => None
  end.

Definition fd_dup (t : fdtab) (fd : nat) : fdtab :=
  match t !! fd with
  | Some (Some o) => match fd_put t o with Some (_, t) => t | None => t end
  | _ => t
  end.

(** What a process does from here on. *)
Inductive job : Type :=
  | Run (argv : list (list byte)) (t : fdtab)
  | Say (out : option obj) (msg : list byte) (rest : job)
  | Fork (child rest : job)
  | Wait (t : fdtab) (rest : job)
  | Chdir (dir : list byte) (rest : job)
  | Exit
  | Unfinished.

(** [static char buf[100]] *)
Definition sh_nbuf : Z := 100.

Section Shell.
Context (can_open : list byte -> Z -> place -> bool) (can_pipe : place -> bool) (can_fork : place -> bool).
Context (can_exec : list byte -> list (list byte) -> bool) (can_chdir : list byte -> bool).

(** [printf(2, ...)] *)
Definition say (t : fdtab) (msg : list byte) (rest : job) : job :=
  Say (match t !! 2%nat with Some o => o | None => None end) msg rest.

Definition sh_panic (t : fdtab) (s : list byte) : job := say t (s ++ [x0a]) Exit.

(** [if(fork1() == 0) child; rest] *)
Definition fork1 (p : place) (t : fdtab) (child rest : job) : job :=
  if can_fork p then Fork child rest else sh_panic t (str "fork").

Definition open_fd (t : fdtab) (name : list byte) (mode : Z) (p : place) : option (nat * fdtab) :=
  if can_open name mode p then fd_put t (Opened name mode) else None.

Definition pipe_fd (t : fdtab) (p : place) : option (nat * nat * fdtab) :=
  if can_pipe p then
    match fd_put t (PipeRead p) with
    | Some (r, t) => match fd_put t (PipeWrite p) with Some (w, t) => Some (r, w, t) | None => None end
    | None => None
    end
  else None.

(** The string that begins at the span, ended in the buffer. *)
Definition string_at (buf : list byte) (a : span) : list byte := cstring (drop a.1 buf).

Fixpoint runcmd (buf : list byte) (c : cmd) (p : place) (t : fdtab) : job :=
  match c with
  | Exec argv =>
      match string_at buf <$> argv with
      | [] => Exit
      | path :: args =>
          if can_exec path (path :: args) then Run (path :: args) t
          else say t (str "exec " ++ path ++ line " failed") Exit
      end
  | Redir c f mode fd =>
      let t := fd_close t (Z.to_nat fd) in
      match open_fd t (string_at buf f) mode p with
      | None => say t (str "open " ++ string_at buf f ++ line " failed") Exit
      | Some (_, t) => runcmd buf c (0%nat :: p) t
      end
  | List_ l r =>
      fork1 p t (runcmd buf l (0%nat :: p) t)
        (Wait t (runcmd buf r (1%nat :: p) t))
  | Pipe l r =>
      match pipe_fd t p with
      | None => sh_panic t (str "pipe")
      | Some (p0, p1, t) =>
          fork1 (0%nat :: p) t
            (let t := fd_close t 1 in
             let t := fd_dup t p1 in
             let t := fd_close t p0 in
             let t := fd_close t p1 in
             runcmd buf l (0%nat :: p) t)
          (fork1 (1%nat :: p) t
            (let t := fd_close t 0 in
             let t := fd_dup t p0 in
             let t := fd_close t p0 in
             let t := fd_close t p1 in
             runcmd buf r (1%nat :: p) t)
          (let t := fd_close t p0 in
           let t := fd_close t p1 in
           Wait t (Wait t Exit)))
      end
  | Back c => fork1 p t (runcmd buf c (0%nat :: p) t) Exit
  end.

(** The child that [main] forks for a line. *)
Definition sh_child (b : list byte) (p : place) (t : fdtab) : job :=
  match parsecmd b with
  | Ok (c, buf) _ => runcmd buf c p t
  | Panic msg ps =>
      if String.eqb msg "leftovers" then say t (str "leftovers: " ++ drop ps b ++ [x0a]) (sh_panic t (str "syntax"))
      else sh_panic t (str msg)
  | _ => Exit
  end.

(** [while((fd = open("console", O_RDWR)) >= 0)] *)
Fixpoint sh_console (t : fdtab) (p : place) (fuel : nat) : fdtab :=
  match fuel with
  | O => t
  | S fuel =>
      match open_fd t (str "console") O_RDWR p with
      | None => t
      | Some (fd, t) => if (3 <=? fd)%nat then fd_close t fd else sh_console t (0%nat :: p) fuel
      end
  end.

(** The buffer after [memset] and [gets], and what is left to read; [None] is the result -1. *)
Definition getcmd (us : ustate) : option (list byte * ustate) :=
  match gets sh_nbuf us with
  | Ok l us =>
      let buf := l ++ replicate (Z.to_nat sh_nbuf - length l) x00 in
      if bool_decide (nth 0 buf x00 = x00) then None else Some (buf, us)
  | _ => None
  end.

(** [buf[strlen(buf)-1] = 0], and the string at [buf+3]. *)
Definition cd_dir (buf : list byte) : list byte :=
  cstring (drop 3 (<[(length (cstring buf) - 1)%nat := x00]> buf)).

(** The input is what the shell's reads of descriptor 0 return; a turn of the loop reads at
    least one byte of it. *)
Fixpoint sh_loop (us : ustate) (p : place) (t : fdtab) (fuel : nat) : job :=
  match fuel with
  | O => Unfinished
  | S fuel =>
      say t (str "$ ")
        match getcmd us with
        | None => Exit
        | Some (buf, us) =>
            if bool_decide (take 3 buf = str "cd ") then
              let dir := cd_dir buf in
              Chdir dir
                (if can_chdir dir then sh_loop us (0%nat :: p) t fuel
                 else say t (str "cannot cd " ++ dir ++ [x0a]) (sh_loop us (0%nat :: p) t fuel))
            else
              fork1 p t (sh_child (cstring buf) (1%nat :: p) t)
                (Wait t (sh_loop us (0%nat :: p) t fuel))
        end
  end.

Definition sh_main (us : ustate) (p : place) (t : fdtab) (fuel : nat) : job :=
  sh_loop us p (sh_console t (2%nat :: p) NFD) fuel.

End Shell.
