(* ===== verification/ShRunProps.v ===== *)
(** * Theorems on running shell commands

    The meaning of a command in terms of what its standard input, output and error are, and
    that the shell's work on descriptor tables implements it. *)

From S2P Require Import Prelude Layout Mem Bytes Codec User UserProps Sh ShFacts ShProps ShRound.
From S2P Require Import ShRun.

Open Scope Z_scope.

(** Standard input, output and error, and nothing else. *)
Definition std (i o e : obj) : fdtab := [Some i; Some o; Some e] ++ replicate (NFD - 3) None.

Section Meaning.
Context (can_open : list byte -> Z -> place -> bool) (can_pipe : place -> bool) (can_fork : place -> bool).
Context (can_exec : list byte -> list (list byte) -> bool).

Definition mode_of (out : bool) : Z := if out then Z.lor O_WRONLY O_CREATE else O_RDONLY.

Definition forks (p : place) (e : obj) (child rest : job) : job :=
  if can_fork p then Fork child rest else Say (Some e) (line "fork") Exit.

(** The meaning of a command with its three descriptors: no tables, no numbers. *)
Fixpoint denote (a : ast) (p : place) (i o e : obj) : job :=
  match a with
  | AExec [] => Exit
  | AExec (path :: args) =>
      if can_exec path (path :: args) then Run (path :: args) (std i o e)
      else Say (Some e) (str "exec " ++ path ++ line " failed") Exit
  | ARedir a f out =>
      if can_open f (mode_of out) p then
        let new := Opened f (mode_of out) in
        denote a (0%nat :: p) (if out then i else new) (if out then new else o) e
      else Say (Some e) (str "open " ++ f ++ line " failed") Exit
  | APipe l r =>
      if can_pipe p then
        forks (0%nat :: p) e (denote l (0%nat :: p) i (PipeWrite p) e)
          (forks (1%nat :: p) e (denote r (1%nat :: p) (PipeRead p) o e)
            (Wait (std i o e) (Wait (std i o e) Exit)))
      else Say (Some e) (line "pipe") Exit
  | AList l r => forks p e (denote l (0%nat :: p) i o e) (Wait (std i o e) (denote r (1%nat :: p) i o e))
  | ABack a => forks p e (denote a (0%nat :: p) i o e) Exit
  end.

Lemma fork1_forks p i o e child rest : fork1 can_fork p (std i o e) child rest = forks p e child rest.
Proof. done. Qed.

Lemma say_std i o e msg j : say (std i o e) msg j = Say (Some e) msg j.
Proof. done. Qed.

(** On the table of three descriptors the calls do what they are meant to do. *)
Lemma redir_std b c f fd i o e p : wf b (Redir c f (mode_of (fd =? 1)) fd) -> forall name,
  open_fd can_open (fd_close (std i o e) (Z.to_nat fd)) name (mode_of (fd =? 1)) p =
  if can_open name (mode_of (fd =? 1)) p then
    let new := Opened name (mode_of (fd =? 1)) in
    Some (Z.to_nat fd, std (if fd =? 1 then i else new) (if fd =? 1 then new else o) e)
  else None.
Proof. intros (_ & _ & [[_ ->]|[_ ->]]) name; unfold open_fd; by destruct (can_open _ _ _). Qed.

Lemma pipe_std i o e p :
  pipe_fd can_pipe (std i o e) p =
  if can_pipe p then Some (3%nat, 4%nat, [Some i; Some o; Some e; Some (PipeRead p); Some (PipeWrite p)] ++ replicate (NFD - 5) None)
  else None.
Proof. unfold pipe_fd. by destruct (can_pipe p). Qed.

Lemma runcmd_std b buf c : forall p i o e, wf b c ->
  runcmd can_open can_pipe can_fork can_exec buf c p (std i o e) = denote (command buf c) p i o e.
Proof.
  induction c as [argv|c IH f mode fd|l IHl r IHr|l IHl r IHr|c IH]; intros p i o e W; cbn [runcmd command denote].
  - fold (string_at buf). by destruct (string_at buf <$> argv).
  - assert (Em : mode = mode_of (fd =? 1)) by (by destruct W as (_ & _ & [[-> ->]|[-> ->]])). subst mode.
    rewrite (redir_std b c f fd i o e p W). fold (string_at buf f). destruct (can_open _ _ _).
    + cbv beta iota zeta. by rewrite IH by apply W.
    + destruct W as (_ & _ & [[_ ->]|[_ ->]]); done.
  - rewrite pipe_std. destruct (can_pipe p); [|done].
    destruct W as [Wl Wr]. rewrite <- (IHl _ i (PipeWrite p) e), <- (IHr _ (PipeRead p) o e) by done. done.
  - destruct W as [Wl Wr]. rewrite fork1_forks, IHl, IHr by done. done.
  - rewrite fork1_forks, IH by done. done.
Qed.

Lemma child_denotes gap a p i o e : white gap -> good a ->
  sh_child can_open can_pipe can_fork can_exec (show gap a) p (std i o e) = denote a p i o e.
Proof.
  intros Hw Hg. destruct (show_parses gap a Hw Hg) as (c & E & Mn). cbv zeta in E, Mn. unfold sh_child. rewrite E.
  pose proof (show_no_nul gap a Hw Hg) as Hn.
  rewrite (runcmd_std (show gap a)).
  - rewrite (command_meaning (show gap a)), Mn; [done|]. intros s Hs. by apply (parsecmd_strings _ _ _ _ _ Hn E Hs).
  - by eapply parsecmd_wf.
Qed.

(** ** Lines of the input *)

Definition line_end (c : byte) : bool := bool_decide (c = x0a) || bool_decide (c = x0d).

Lemma read_byte fd c text st : holds_file fd (c :: text) st ->
  exists st', read_ fd 1 st = Ok (Some [c]) st' /\ holds_file fd text st'.
Proof.
  intros (chunks & E & Ej & Hne). unfold read_, bind, Prelude.gets. change (Z.to_nat 1) with 1%nat. cbn. rewrite E.
  destruct chunks as [|d chunks]; [done|].
  apply Forall_cons in Hne as [Hd Hne]. destruct d as [|d ds]; [done|]. injection Ej as <- Ej. cbn.
  eexists. split; [reflexivity|]. unfold holds_file. cbn. rewrite Z.eqb_refl. case_bool_decide as Hds.
  - exists chunks. rewrite drop_0 in Hds. by subst ds.
  - exists (ds :: chunks). split; [done|]. split; [done|]. by apply Forall_cons.
Qed.

Lemma gets_loop_line l rest : forall buf max st, holds_file 0 (l ++ x0a :: rest) st ->
  Forall (fun c => line_end c = false) l -> (length l + 2 <= max)%nat ->
  exists st', gets_loop buf max st = Ok (buf ++ l ++ [x0a]) st' /\ holds_file 0 rest st'.
Proof.
  induction l as [|c l IH]; intros buf max st H Hl Hm; destruct max as [|[|max]]; cbn in Hm; try lia; cbn [gets_loop app].
  - destruct (read_byte 0 x0a rest st H) as (st' & E & H'). exists st'. by rewrite (bind_Ok _ _ _ _ _ E).
  - apply Forall_cons in Hl as [Hc Hl]. destruct (read_byte 0 c _ st H) as (st1 & E & H1).
    rewrite (bind_Ok _ _ _ _ _ E). unfold line_end in Hc. rewrite Hc.
    destruct (IH (buf ++ [c]) (S max) st1 H1 Hl ltac:(lia)) as (st' & E' & H'). exists st'.
    split; [|done]. transitivity (gets_loop (buf ++ [c]) (S max) st1); [done|]. by rewrite E', <- app_assoc.
Qed.

Lemma cstring_pad l n : no_nul l -> cstring (l ++ replicate n x00) = l.
Proof.
  intros Hl. induction l as [|c l IH]; [by destruct n|]. unfold no_nul in *. rewrite not_elem_of_cons in Hl. destruct Hl as [Hc Hl].
  cbn. rewrite bool_decide_eq_false_2 by done. by rewrite IH.
Qed.

(** A line that fits the buffer is read up to its end. *)
Lemma getcmd_line l rest st : holds_file 0 (l ++ x0a :: rest) st ->
  Forall (fun c => line_end c = false) l -> no_nul l -> Z.of_nat (length l) + 1 < sh_nbuf ->
  exists buf st', getcmd st = Some (buf, st') /\ buf = (l ++ [x0a]) ++ replicate (Z.to_nat sh_nbuf - length (l ++ [x0a])) x00 /\
    cstring buf = l ++ [x0a] /\ holds_file 0 rest st'.
Proof.
  intros H Hl Hn Hm. destruct (gets_loop_line l rest [] (Z.to_nat sh_nbuf) st H Hl ltac:(lia)) as (st' & E & H').
  eexists _, st'. unfold getcmd, gets. rewrite E. cbn [app]. rewrite bool_decide_eq_false_2.
  - split_and!; try done. apply cstring_pad. unfold no_nul in *. by rewrite not_elem_of_app, list_elem_of_singleton.
  - destruct l as [|c l]; [done|]. unfold no_nul in Hn. rewrite not_elem_of_cons in Hn. cbn. naive_solver.
Qed.

Lemma gets_loop_eof buf max st : holds_file 0 [] st -> gets_loop buf max st = Ok buf st.
Proof.
  intros (chunks & E & Ej & Hne). destruct max as [|[|max]]; [done|done|]. cbn [gets_loop].
  rewrite (bind_Ok _ _ _ (Some []) st); [done|]. unfold read_, bind, Prelude.gets. cbn. rewrite E.
  destruct chunks as [|[|]]; [done|by apply Forall_cons in Hne as []|done].
Qed.

Lemma getcmd_eof st : holds_file 0 [] st -> getcmd st = None.
Proof. intros H. unfold getcmd, gets. by rewrite gets_loop_eof. Qed.

(** ** Sessions *)

Section Session.
Context (can_chdir : list byte -> bool).

(** What is typed: commands, each with the blanks between its words, and changes of the
    directory. *)
Inductive item : Type := Cmd (gap : nat -> byte) (a : ast) | Cd (dir : list byte).

(** White space that does not end the line. *)
Definition blank (c : byte) : bool := is_ws c && negb (line_end c).

Definition show_line (gap : nat -> byte) (a : ast) : list byte :=
  match body a with [] => [x0a] | ts => show (fun k => if (S k =? length ts)%nat then x0a else gap k) a end.

Definition typed (x : item) : list byte :=
  match x with Cmd gap a => show_line gap a | Cd d => str "cd " ++ d ++ [x0a] end.

(** The line fits the buffer of the shell, and is not cut by a byte that ends a line or a
    string; a command does not begin like a change of directory. *)
Definition good_item (x : item) : Prop :=
  Z.of_nat (length (typed x)) < sh_nbuf /\
  match x with
  | Cmd gap a => (forall k, blank (gap k) = true) /\ good a /\ take 3 (typed x) <> str "cd "
  | Cd d => no_nul d /\ Forall (fun c => line_end c = false) d
  end.

Fixpoint session (xs : list item) (p : place) (i o e : obj) : job :=
  Say (Some e) (str "$ ")
    match xs with
    | [] => Exit
    | Cmd _ a :: xs => forks p e (denote a (1%nat :: p) i o e) (Wait (std i o e) (session xs (0%nat :: p) i o e))
    | Cd d :: xs =>
        Chdir d
          (if can_chdir d then session xs (0%nat :: p) i o e
           else Say (Some e) (str "cannot cd " ++ d ++ [x0a]) (session xs (0%nat :: p) i o e))
    end.

Lemma console_std p i o e : sh_console can_open (std i o e) p NFD = std i o e.
Proof. unfold NFD. cbn [sh_console]. unfold open_fd. by destruct (can_open _ _ _). Qed.

Lemma blank_facts c : blank c = true -> is_ws c = true /\ line_end c = false.
Proof. unfold blank. intros H. bool_hyps. split; [done|]. by destruct (line_end c). Qed.

Lemma good_tok_line t : good_tok t -> Forall (fun c => line_end c = false) (ttext t).
Proof.
  assert (Hw : forall c, is_word c = true -> line_end c = false) by (intros c Hc; unfold line_end; repeat case_bool_decide; by subst).
  destruct t as [w|c]; cbn; [intros (_ & _ & H); by eapply Forall_impl|]. intros Hc. apply Forall_singleton.
  unfold symbols in Hc. repeat (apply elem_of_cons in Hc as [->|Hc]; [done|]). by apply elem_of_nil in Hc.
Qed.

(** The tokens but for the last gap: no byte of them ends the line. *)
Lemma flat_line (gap : nat -> byte) n ts : forall k, Forall good_tok ts -> (forall k, blank (gap k) = true) -> ts <> [] -> (k + length ts = n)%nat ->
  exists l, flat (fun k => if (S k =? n)%nat then x0a else gap k) k ts = l ++ [x0a] /\ Forall (fun c => line_end c = false) l.
Proof.
  induction ts as [|t ts IH]; intros k Hg Hb Hne Hn; [done|]. apply Forall_cons in Hg as [Ht Hg]. cbn [flat length] in *.
  apply good_tok_line in Ht. destruct ts as [|t' ts].
  - exists (ttext t). rewrite (proj2 (Nat.eqb_eq _ _)) by (cbn in Hn; lia). done.
  - destruct (IH (S k) Hg Hb ltac:(done) ltac:(lia)) as (l & -> & Hl). exists (ttext t ++ gap k :: l).
    rewrite (proj2 (Nat.eqb_neq _ _)) by (cbn in Hn; lia). split; [by rewrite <- app_assoc|].
    apply Forall_app. split; [done|]. apply Forall_cons. split; [apply blank_facts, Hb|done].
Qed.

Lemma white_line (gap : nat -> byte) n : (forall k, blank (gap k) = true) -> white (fun k => if (S k =? n)%nat then x0a else gap k).
Proof. intros Hb k. case_match; [done|]. apply blank_facts, Hb. Qed.

(** A typed line is text without line ends and NULs, and a newline. *)
Lemma typed_line x : good_item x ->
  exists l, typed x = l ++ [x0a] /\ Forall (fun c => line_end c = false) l /\ no_nul l /\ Z.of_nat (length l) + 1 < sh_nbuf.
Proof.
  intros [Hlen Hx]. assert (H : exists l, typed x = l ++ [x0a] /\ Forall (fun c => line_end c = false) l /\ no_nul l).
  { destruct x as [gap a|d]; cbn [typed] in *.
    - destruct Hx as (Hb & Hg & _). unfold show_line in *. destruct (body a) as [|t ts] eqn:Eb; [by exists []; repeat split; try apply not_elem_of_nil|].
      unfold show. pose proof (body_good a Hg) as Hts. rewrite Eb in Hts.
      pose proof (flat_no_nul _ (t :: ts) (white_line gap (length (t :: ts)) Hb) Hts 0) as Hn.
      rewrite Eb. destruct (flat_line gap (length (t :: ts)) (t :: ts) 0 Hts Hb ltac:(done) eq_refl) as (l & E & Hl).
      rewrite E in Hn |- *. exists l. split_and!; try done. unfold no_nul in *. set_solver.
    - destruct Hx as [Hn Hl]. exists (str "cd " ++ d). split; [by rewrite <- app_assoc|]. split.
      + apply Forall_app. split; [by repeat constructor|done].
      + unfold no_nul in *. rewrite not_elem_of_app. split; [by apply (bool_decide_unpack _)|done]. }
  destruct H as (l & E & Hl & Hn). exists l. split_and!; try done. rewrite E, length_app in Hlen. cbn in Hlen. lia.
Qed.

Lemma child_typed gap a p i o e : (forall k, blank (gap k) = true) -> good a ->
  sh_child can_open can_pipe can_fork can_exec (show_line gap a) p (std i o e) = denote a p i o e.
Proof.
  intros Hb Hg. unfold show_line. destruct (body a) eqn:Eb.
  - destruct a as [[|]| | | |]; try done; cbn in Eb; by apply app_eq_nil in Eb as [_ ?].
  - rewrite <- Eb. apply child_denotes; [by apply white_line|done].
Qed.

(** The directory of a line that has been read. *)
Lemma cd_dir_line d n : no_nul d -> cd_dir ((str "cd " ++ d ++ [x0a]) ++ replicate n x00) = d.
Proof.
  intros Hn. unfold cd_dir. rewrite cstring_pad.
  - rewrite !length_app. change (length (str "cd ")) with 3%nat. cbn [length].
    replace (3 + (length d + 1) - 1)%nat with (length (str "cd ") + length d)%nat by (change (length (str "cd ")) with 3%nat; lia).
    rewrite <- !app_assoc. rewrite insert_app_r, drop_app_length' by done.
    rewrite insert_app_r_alt, Nat.sub_diag by lia. exact (cstring_pad d (S n) Hn).
  - unfold no_nul in *. rewrite !not_elem_of_app. split_and!; [by apply (bool_decide_unpack _)|done|set_solver].
Qed.

Lemma loop_session xs : forall us p i o e fuel, holds_file 0 (mjoin (typed <$> xs)) us -> Forall good_item xs -> (length xs < fuel)%nat ->
  sh_loop can_open can_pipe can_fork can_exec can_chdir us p (std i o e) fuel = session xs p i o e.
Proof.
  induction xs as [|x xs IH]; intros us p i o e fuel H Hg Hf; (destruct fuel as [|fuel]; [cbn in Hf; lia|]); cbn [sh_loop session].
  - by rewrite getcmd_eof.
  - apply Forall_cons in Hg as [Hx Hg]. destruct (typed_line x Hx) as (l & E & Hl & Hn & Hlen).
    change (mjoin (typed <$> (x :: xs))) with (typed x ++ mjoin (typed <$> xs)) in H. rewrite E, <- app_assoc in H. cbn [app] in H.
    destruct (getcmd_line l _ us H Hl Hn Hlen) as (buf & us' & -> & Eb & Ec & H'). rewrite <- E in Eb, Ec. rewrite say_std. f_equal.
    cbn in Hf. destruct Hx as [_ Hx]. destruct x as [gap a|d].
    + destruct Hx as (Hb & Ha & Hcd). rewrite bool_decide_eq_false_2.
      * rewrite fork1_forks, Ec. cbn [typed]. by rewrite child_typed, (IH us') by (done || lia).
      * rewrite Eb. intros F. apply Hcd. rewrite <- F. symmetry. apply take_app_le.
        destruct (le_lt_dec 3 (length (typed (Cmd gap a)))) as [|Hs]; [done|].
        exfalso. assert (Hin : x0a ∈ take 3 ((l ++ [x0a]) ++ replicate (Z.to_nat sh_nbuf - length (l ++ [x0a])) x00)).
        { rewrite take_app_ge by (rewrite <- E; lia). set_solver. }
        rewrite <- E, F in Hin. by apply (bool_decide_pack _) in Hin.
    + destruct Hx as [Hd _]. rewrite bool_decide_eq_true_2 by (by rewrite Eb). cbn [typed] in Eb. rewrite Eb, cd_dir_line by done.
      by rewrite (IH us') by (done || lia).
Qed.

(** C24. The shell.  Its input holds lines in any cut of its reads, each of at most 99 bytes:
    commands in any layout on the line, and changes of directory.  Started with its three
    descriptors, the shell reads the lines into its buffer one by one and runs every command,
    with the standard input and output that its redirections and pipes say, in a child
    process that holds these three descriptors and no other; it changes its directory
    itself, prints the kernel's refusals, waits for every command but those in the
    background, and exits at the end of its input. *)
Theorem shell_session xs us p i o e fuel :
  holds_file 0 (mjoin (typed <$> xs)) us -> Forall good_item xs -> (length xs < fuel)%nat ->
  sh_main can_open can_pipe can_fork can_exec can_chdir us p (std i o e) fuel = session xs p i o e.
Proof. intros H Hg Hf. unfold sh_main. rewrite console_std. by apply loop_session. Qed.

End Session.

(** ** The ends of pipes *)

Fixpoint tables (j : job) : list fdtab :=
  match j with
  | Run _ t => [t]
  | Say _ _ j | Chdir _ j => tables j
  | Fork j k => tables j ++ tables k
  | Wait t j => t :: tables j
  | Exit | Unfinished => []
  end.

Definition holds_obj (x : obj) (j : job) : Prop := exists t, t ∈ tables j /\ Some x ∈ t.

Lemma holds_std x i o e : Some x ∈ std i o e -> x = i \/ x = o \/ x = e.
Proof.
  unfold std. intros [Hx|Hx]%elem_of_app; [set_solver|]. apply elem_of_replicate in Hx as [? _]. done.
Qed.

Lemma holds_forks x p e j k : holds_obj x (forks p e j k) -> holds_obj x j \/ holds_obj x k.
Proof.
  unfold forks. destruct (can_fork p); intros (t & Ht & Hx); cbn in Ht; [|by apply elem_of_nil in Ht].
  apply elem_of_app in Ht as [Ht|Ht]; [left|right]; by exists t.
Qed.

Lemma holds_wait x t j : holds_obj x (Wait t j) -> Some x ∈ t \/ holds_obj x j.
Proof. intros (t' & [->|Ht]%elem_of_cons & Hx); [by left|right]. by exists t'. Qed.

Lemma holds_say x o msg : ~ holds_obj x (Say o msg Exit).
Proof. intros (t & Ht & _). by apply elem_of_nil in Ht. Qed.

Definition end_of (x : obj) (p : place) : Prop := x = PipeRead p \/ x = PipeWrite p.

(** A command's processes hold what it was given, and ends of its own pipes. *)
Lemma denote_holds a q x : end_of x q -> forall p i o e, holds_obj x (denote a p i o e) ->
  (x = i \/ x = o \/ x = e) \/ exists r, q = r ++ p.
Proof.
  intros He. induction a as [args|a IH f out|l IHl r IHr|l IHl r IHr|a IH]; intros p i o e Hh; cbn [denote] in Hh.
  - destruct args as [|path args]; [destruct Hh as (t & Ht & _); by apply elem_of_nil in Ht|].
    destruct (can_exec _ _); [|by apply holds_say in Hh]. destruct Hh as (t & ->%list_elem_of_singleton & Hx). left. by apply holds_std.
  - destruct (can_open _ _ _); [|by apply holds_say in Hh]. destruct (IH _ _ _ _ Hh) as [Hx|(r & ->)].
    + destruct He as [-> | ->], out; naive_solver.
    + right. exists (r ++ [0%nat]). by rewrite <- app_assoc.
  - destruct (can_pipe p); [|by apply holds_say in Hh].
    assert (Hown : end_of x p -> exists r0, q = r0 ++ p) by (intros Hp; exists []; destruct He as [-> | ->], Hp as [Hp|Hp]; by simplify_eq).
    apply holds_forks in Hh as [Hh|[Hh|Hh]%holds_forks].
    + destruct (IHl _ _ _ _ Hh) as [Hx|(r0 & ->)]; [|right; exists (r0 ++ [0%nat]); by rewrite <- app_assoc].
      unfold end_of in Hown. naive_solver.
    + destruct (IHr _ _ _ _ Hh) as [Hx|(r0 & ->)]; [|right; exists (r0 ++ [1%nat]); by rewrite <- app_assoc].
      unfold end_of in Hown. naive_solver.
    + left. apply holds_wait in Hh as [Hx|[Hx|(t & Ht & _)]%holds_wait]; [by apply holds_std|by apply holds_std|by apply elem_of_nil in Ht].
  - apply holds_forks in Hh as [Hh|[Hx|Hh]%holds_wait]; [|left; by apply holds_std|].
    + destruct (IHl _ _ _ _ Hh) as [Hx|(r0 & ->)]; [by left|right; exists (r0 ++ [0%nat]); by rewrite <- app_assoc].
    + destruct (IHr _ _ _ _ Hh) as [Hx|(r0 & ->)]; [by left|right; exists (r0 ++ [1%nat]); by rewrite <- app_assoc].
  - apply holds_forks in Hh as [Hh|(t & Ht & _)]; [|by apply elem_of_nil in Ht].
    destruct (IH _ _ _ _ Hh) as [Hx|(r0 & ->)]; [by left|right; exists (r0 ++ [0%nat]); by rewrite <- app_assoc].
Qed.

(** C25. No end of a pipe is left open where it does not belong: when a pipe command runs, no
    process of its right side and no process that waits holds the end to write to, and none
    of its left side the end to read from.  So the reader sees the end of the file as soon as
    the programs on the left have ended. *)
Theorem pipe_ends b buf l r p i o e :
  wf b (Pipe l r) -> can_pipe p = true -> can_fork (0%nat :: p) = true -> can_fork (1%nat :: p) = true ->
  (forall x, end_of x p -> x <> i /\ x <> o /\ x <> e) ->
  exists jl jr t, runcmd can_open can_pipe can_fork can_exec buf (Pipe l r) p (std i o e) = Fork jl (Fork jr (Wait t (Wait t Exit))) /\
    ~ holds_obj (PipeWrite p) jr /\ ~ holds_obj (PipeRead p) jl /\ forall x, end_of x p -> Some x ∉ t.
Proof.
  intros W Hp H0 H1 Hx. rewrite (runcmd_std b) by done. cbn [command denote]. rewrite Hp. unfold forks. rewrite H0, H1.
  eexists _, _, _. split; [reflexivity|].
  assert (Hlen : forall n q, p <> q ++ n :: p) by (intros n q E; apply (f_equal length) in E; rewrite length_app in E; cbn in E; lia).
  split_and!.
  - intros Hh. destruct (denote_holds _ p _ (or_intror eq_refl) _ _ _ _ Hh) as [Hc|(q & E)]; [|by apply Hlen in E].
    destruct (Hx (PipeWrite p) (or_intror eq_refl)). naive_solver.
  - intros Hh. destruct (denote_holds _ p _ (or_introl eq_refl) _ _ _ _ Hh) as [Hc|(q & E)]; [|by apply Hlen in E].
    destruct (Hx (PipeRead p) (or_introl eq_refl)). naive_solver.
  - intros x He Hin. destruct (Hx x He). apply holds_std in Hin. naive_solver.
Qed.

End Meaning.

(** ** Examples *)

Definition yes3 (_ : list byte) (_ : Z) (_ : place) : bool := true.
Definition yes1 (_ : place) : bool := true.
Definition no_ls (path : list byte) (_ : list (list byte)) : bool := negb (bool_decide (path = str "ls")).

Definition ex_session : list item := [Cd (str "bin"); Cmd (fun _ => x20) sample; Cmd (fun _ => x20) (AExec [])].

(** The lines arrive in two pieces, and the first of them ends in the middle of a word. *)
Definition ex_input : ustate :=
  US (fun _ => None) (fun fd => if fd =? 0 then [Data (str "cd bi"); Data (drop 5 (mjoin (typed <$> ex_session)))] else [])
    3 [] (fun _ => false) [].

Lemma shell_session_witness :
  sh_main yes3 yes1 yes1 no_ls (fun _ => true) ex_input [] (std (Given 0) (Given 1) (Given 2)) 4 =
  session yes3 yes1 yes1 no_ls (fun _ => true) ex_session [] (Given 0) (Given 1) (Given 2).
Proof.
  apply (shell_session yes3 yes1 yes1 no_ls (fun _ => true) ex_session ex_input [] (Given 0) (Given 1) (Given 2) 4).
  - exists [str "cd bi"; drop 5 (mjoin (typed <$> ex_session))]. split; [reflexivity|]. split; [reflexivity|].
    repeat constructor; discriminate.
  - apply Forall_cons_2; [|apply Forall_cons_2; [|apply Forall_cons_2; [|apply Forall_nil_2]]]; (split; [vm_compute; reflexivity|]).
    + split; [apply (bool_decide_unpack _); vm_compute; exact I|repeat constructor].
    + split; [reflexivity|]. split; [apply sample_good|discriminate].
    + split; [reflexivity|]. split; [split; [apply Forall_nil_2|reflexivity]|discriminate].
  - cbn. lia.
Defined.

Definition ex_pipe : list byte := str "cat|wc".

Lemma pipe_ends_witness : exists c buf ps jl jr t, parsecmd ex_pipe = Ok (c, buf) ps /\
  runcmd yes3 yes1 yes1 no_ls buf c [] (std (Given 0) (Given 1) (Given 2)) = Fork jl (Fork jr (Wait t (Wait t Exit))) /\
  ~ holds_obj (PipeWrite []) jr.
Proof.
  set (c := Pipe (Exec [(0, 3)%nat]) (Exec [(4, 6)%nat])). set (buf := str "cat" ++ [x00] ++ str "wc" ++ [x00]).
  assert (E : parsecmd ex_pipe = Ok (c, buf) 6%nat) by (vm_compute; reflexivity).
  assert (W : wf ex_pipe c) by (refine (parsecmd_wf ex_pipe c buf 6 _ E); by apply (bool_decide_unpack _)).
  assert (Hx : forall x, end_of x [] -> x <> Given 0 /\ x <> Given 1 /\ x <> Given 2) by (intros x [-> | ->]; split_and!; discriminate).
  destruct (pipe_ends yes3 yes1 yes1 no_ls ex_pipe buf (Exec [(0, 3)%nat]) (Exec [(4, 6)%nat]) [] (Given 0) (Given 1) (Given 2) W
    eq_refl eq_refl eq_refl Hx) as (jl & jr & t & Er & Hr & _).
  exists c, buf, 6%nat, jl, jr, t. split; [exact E|]. split; [exact Er|exact Hr].
Defined.
