(* ===== verification/Umalloc.v ===== *)
(** * The user's allocator: umalloc.c

    Memory as words at their addresses; a [Header] at [p] is its two words, [s.ptr] at [p]
    and [s.size], in units of eight bytes, at [p + 4]. *)

From S2P Require Import Prelude Layout.

Open Scope Z_scope.

(** The process: its memory, its size, the list pointer, and the answers that the kernel
    will give to requests for more memory. *)
Record hstate : Type := HS {
  h_mem : Z -> Z;
  h_brk : Z;
  h_freep : Z;
  h_grants : list bool
}.

Definition H (A : Type) : Type := M hstate A.

Definition put_word (m : Z -> Z) (a v : Z) : Z -> Z := fun b => if b =? a then v else m b.

Definition load (a : Z) : H Z := gets (fun s => h_mem s a).
Definition store (a v : Z) : H unit :=
  modify (fun s => HS (put_word (h_mem s) a v) (h_brk s) (h_freep s) (h_grants s)).
Definition set_freep (p : Z) : H unit := modify (fun s => HS (h_mem s) (h_brk s) p (h_grants s)).
Definition set_brk (b : Z) : H unit := modify (fun s => HS (h_mem s) b (h_freep s) (h_grants s)).

(** [p->s.ptr], [p->s.size], [p + n] *)
Definition ptr (p : Z) : Z := p.
Definition size (p : Z) : Z := u32 (p + 4).
Definition plus (p n : Z) : Z := u32 (p + 8 * n).

(** The system call: growing needs the kernel's consent and ends below the kernel. *)
Definition sbrk (n : Z) : H Z :=
  let n := s32 n in
  let! s := get in
  let old := h_brk s in
  if 0 <? n then
    modify (fun s => HS (h_mem s) (h_brk s) (h_freep s) (tail (h_grants s))) ;;;
    if hd false (h_grants s) && (u32 (old + n) <? KERNBASE) then
      set_brk (u32 (old + n)) ;;; ret old
    else ret (u32 (-1))
  else if n <? 0 then
    let new := u32 (old + n) in
    if new =? 0 then ret (u32 (-1))
    else set_brk (if old <=? new then old else new) ;;; ret old
  else ret old.

Section Allocator.
(** The address of the static header. *)
Context (base : Z).

(** [for(p = freep; !(bp > p && bp < p->s.ptr); p = p->s.ptr)] *)
Fixpoint free_loop (bp p : Z) (fuel : nat) : H Z :=
  match fuel with
  | O => nofuel
  | S fuel =>
      let! q := load (ptr p) in
      if (p <? bp) && (bp <? q) then ret p
      else if (q <=? p) && ((p <? bp) || (bp <? q)) then ret p
      else free_loop bp q fuel
  end.

(** Join the block with the next free one, or link to it. *)
Definition link_next (bp p : Z) : H unit :=
  let! bsize := load (size bp) in
  let! next := load (ptr p) in
  if plus bp bsize =? next then
    let! nsize := load (size next) in
    store (size bp) (u32 (bsize + nsize)) ;;;
    let! nnext := load (ptr next) in
    store (ptr bp) nnext
  else store (ptr bp) next.

(** Join the block with the free one before it, or link that to the block. *)
Definition link_prev (bp p : Z) : H unit :=
  let! psize := load (size p) in
  if plus p psize =? bp then
    let! bsize := load (size bp) in
    store (size p) (u32 (psize + bsize)) ;;;
    let! bnext := load (ptr bp) in
    store (ptr p) bnext
  else store (ptr p) bp.

Definition free (ap : Z) (fuel : nat) : H unit :=
  let bp := plus ap (-1) in
  let! freep := gets h_freep in
  let! p := free_loop bp freep fuel in
  link_next bp p ;;;
  link_prev bp p ;;;
  set_freep p.

Definition morecore (nu : Z) (fuel : nat) : H Z :=
  let nu := if nu <? 4096 then 4096 else nu in
  let! p := sbrk (u32 (nu * 8)) in
  if p =? u32 (-1) then ret 0
  else
    store (size p) nu ;;;
    free (plus p 1) fuel ;;;
    gets h_freep.

(** [for(p = prevp->s.ptr; ; prevp = p, p = p->s.ptr)] *)
Fixpoint malloc_loop (nunits prevp p : Z) (fuel : nat) : H Z :=
  match fuel with
  | O => nofuel
  | S fuel =>
      let! psize := load (size p) in
      if nunits <=? psize then
        let! p :=
          (if psize =? nunits then
             let! next := load (ptr p) in
             store (ptr prevp) next ;;;
             ret p
           else
             store (size p) (u32 (psize - nunits)) ;;;
             let p := plus p (u32 (psize - nunits)) in
             store (size p) nunits ;;;
             ret p) in
        set_freep prevp ;;;
        ret (plus p 1)
      else
        let! freep := gets h_freep in
        if p =? freep then
          let! p := morecore nunits fuel in
          if p =? 0 then ret 0
          else
            let! next := load (ptr p) in
            malloc_loop nunits p next fuel
        else
          let! next := load (ptr p) in
          malloc_loop nunits p next fuel
  end.

Definition malloc (nbytes : Z) (fuel : nat) : H Z :=
  let nunits := u32 (u32 (nbytes + 8 - 1) / 8 + 1) in
  let! freep := gets h_freep in
  let! prevp :=
    (if freep =? 0 then
       set_freep base ;;;
       store (ptr base) base ;;;
       store (size base) 0 ;;;
       ret base
     else ret freep) in
  let! p := load (ptr prevp) in
  malloc_loop nunits prevp p fuel.

End Allocator.
