(* ===== verification/UmallocProps.v ===== *)
(** * Theorems on the user's allocator

    The free list as a list of blocks in the order of their addresses, closed to a ring by the
    static header; the blocks in use beside it. *)

From stdpp Require Import sorting.
From S2P Require Import Prelude Layout Umalloc.

Open Scope Z_scope.

(** A block: the address of its header and its units. *)
Abbreviation blk := (Z * Z)%type.

Definition nexta (l : list blk) (z : Z) : Z := match l with [] => z | y :: _ => y.1 end.

(** The headers of [l] hold the blocks' sizes and each points to the next, the last to [z]. *)
Fixpoint chain (m : Z -> Z) (l : list blk) (z : Z) : Prop :=
  match l with
  | [] => True
  | x :: l => m x.1 = nexta l z /\ m (x.1 + 4) = x.2 /\ chain m l z
  end.

(** In order, and neither overlapping nor adjacent. *)
Definition sep (x y : blk) : Prop := x.1 + 8 <= y.1 /\ x.1 + 8 * x.2 < y.1.
Definition disj (x y : blk) : Prop := x.1 + 8 * x.2 <= y.1 \/ y.1 + 8 * y.2 <= x.1.
Definition total (l : list blk) : Z := foldr (fun x a => x.2 + a) 0 l.

Lemma put_eq m a v : put_word m a v a = v.
Proof. unfold put_word. by rewrite Z.eqb_refl. Qed.

Lemma put_ne m a v a' : a' <> a -> put_word m a v a' = m a'.
Proof. intros Hne. unfold put_word. by rewrite (proj2 (Z.eqb_neq _ _) Hne). Qed.

Lemma load_run a st : load a st = Ok (h_mem st a) st.
Proof. done. Qed.

Lemma store_run a v st : store a v st = Ok tt (HS (put_word (h_mem st) a v) (h_brk st) (h_freep st) (h_grants st)).
Proof. done. Qed.

Lemma plus_small p k : 0 <= p + 8 * k < 2 ^ 32 -> plus p k = p + 8 * k.
Proof. intros Hp. unfold plus. by apply u32_small. Qed.

Lemma size_small p : 0 <= p <= KERNBASE -> size p = p + 4.
Proof. intros Hp. unfold size. apply u32_small. unfold KERNBASE in Hp. lia. Qed.

Section Heap.
Context (base lo : Z).

Definition inside (s : hstate) (x : blk) : Prop := 1 <= x.2 /\ lo <= x.1 /\ x.1 + 8 * x.2 <= h_brk s.

(** The free blocks [L], the static header first, and the blocks in use fill the heap. *)
Record heap (L live : list blk) (s : hstate) : Prop := {
  hp_head : exists fl, L = (base, 0) :: fl;
  hp_chain : chain (h_mem s) L base;
  hp_sorted : StronglySorted sep L;
  hp_free : forall x, x ∈ L -> x = (base, 0) \/ inside s x;
  hp_freep : exists x, x ∈ L /\ h_freep s = x.1;
  hp_live : forall y, y ∈ live -> inside s y /\ h_mem s (y.1 + 4) = y.2;
  hp_apart : forall x y, x ∈ L -> y ∈ live -> disj x y;
  hp_pair : StronglySorted disj live;
  hp_tile : lo + 8 * (total L + total live) = h_brk s;
  hp_bounds : 0 < base /\ base + 8 <= lo /\ h_brk s <= KERNBASE
}.

(** What a call leaves alone: the contents of the blocks in use. *)
Definition kept (live : list blk) (m m' : Z -> Z) : Prop :=
  forall y a, y ∈ live -> y.1 <= a < y.1 + 8 * y.2 -> m' a = m a.

(** ** Chains *)

Lemma nexta_app l1 l2 z : nexta (l1 ++ l2) z = nexta l1 (nexta l2 z).
Proof. by destruct l1. Qed.

Lemma chain_app m l1 l2 z : chain m (l1 ++ l2) z <-> chain m l1 (nexta l2 z) /\ chain m l2 z.
Proof. induction l1 as [|x l1 IH]; cbn; [tauto|]. rewrite nexta_app, IH. tauto. Qed.

Lemma nodes_ext m m' l z : (forall x, x ∈ l -> m' x.1 = m x.1 /\ m' (x.1 + 4) = m (x.1 + 4)) -> chain m l z -> chain m' l z.
Proof.
  induction l as [|x l IH]; intros Hm; [done|]. cbn. destruct (Hm x) as [-> ->]; [by left|].
  intros (Hp & Hs & Hc). split_and!; [done|done|]. apply IH; [|done]. intros y Hy. apply Hm. by right.
Qed.

Lemma total_app l1 l2 : total (l1 ++ l2) = total l1 + total l2.
Proof. induction l1 as [|x l1 IH]; cbn; [done|]. fold (total (l1 ++ l2)) (total l1). lia. Qed.

Lemma total_cons x l : total (x :: l) = x.2 + total l.
Proof. done. Qed.

(** The part of the ring from the block behind [x] to [x] itself. *)
Lemma chain_ring m l1 x l2 z :
  chain m (l1 ++ x :: l2) z -> nexta (l1 ++ x :: l2) z = z -> chain m (l2 ++ l1 ++ [x]) (nexta l2 z).
Proof.
  intros C Hz. apply chain_app in C as [C1 C2]. cbn [chain] in C2. destruct C2 as (Cx & Cs & C2).
  apply chain_app. split; [|apply chain_app; split; [done|done]].
  replace (nexta (l1 ++ [x]) (nexta l2 z)) with z; [done|]. rewrite nexta_app in *. cbn in *. by destruct l1.
Qed.

Lemma ring_of L live s x : heap L live s -> x ∈ L ->
  exists rs, chain (h_mem s) (rs ++ [x]) (nexta (rs ++ [x]) 0) /\ (forall y, y ∈ rs ++ [x] <-> y ∈ L) /\
    length (rs ++ [x]) = length L /\ h_mem s x.1 = nexta (rs ++ [x]) 0 /\ x ∉ rs.
Proof.
  intros I Hx. apply list_elem_of_split in Hx as (l1 & l2 & ->). exists (l2 ++ l1).
  destruct (hp_head _ _ _ I) as [fl Efl]. pose proof (hp_chain _ _ _ I) as C.
  pose proof (chain_ring _ _ _ _ _ C ltac:(by rewrite Efl)) as C'. rewrite <- !app_assoc.
  apply chain_app in C as [_ C]. cbn in C. destruct C as (Cx & _).
  assert (E : nexta l2 base = nexta (l2 ++ l1 ++ [x]) 0).
  { rewrite nexta_app. destruct l2; [|done]. cbn. destruct l1; cbn in *; by injection Efl as ->. }
  split_and!; [by rewrite <- E|set_solver|rewrite !length_app; cbn; lia|by rewrite <- E|].
  pose proof (hp_sorted _ _ _ I) as Hs. apply StronglySorted_app in Hs as (H1 & _ & H2). apply StronglySorted_cons in H2 as [H2 _].
  rewrite Forall_forall in H2. intros [Hx|Hx]%elem_of_app; [destruct (H2 x Hx); lia|]. destruct (H1 x x) as [? _]; [done|by left|lia].
Qed.

(** ** Freeing *)

Definition stop (m : Z -> Z) (bp p : Z) : bool :=
  (p <? bp) && (bp <? m p) || (m p <=? p) && ((p <? bp) || (bp <? m p)).

Lemma free_loop_run bp s r1 : forall t r2 z fuel,
  chain (h_mem s) (r1 ++ t :: r2) z -> (forall x, x ∈ r1 -> stop (h_mem s) bp x.1 = false) ->
  stop (h_mem s) bp t.1 = true -> (length r1 < fuel)%nat ->
  free_loop bp (nexta (r1 ++ t :: r2) z) fuel s = Ok t.1 s.
Proof.
  induction r1 as [|x r1 IH]; intros t r2 z fuel C Hn Ht Hf; (destruct fuel as [|fuel]; [cbn in Hf; lia|]);
    cbn [app nexta free_loop]; unfold load; rewrite (bind_Ok (gets _) _ _ _ _ eq_refl); unfold ptr.
  - unfold stop in Ht. destruct ((t.1 <? bp) && _); [done|]. cbn [orb] in Ht. by rewrite Ht.
  - specialize (Hn x) as Hx. unfold stop in Hx. destruct ((x.1 <? bp) && _); [by discriminate Hx; left|].
    cbn [orb] in Hx. rewrite Hx by left. cbn [app chain] in C. destruct C as (E & _ & C). rewrite E.
    apply IH; [done|intros y Hy; apply Hn; by right|done|cbn in Hf; lia].
Qed.

(** Where a block belongs in the list. *)
Lemma place bp x l : StronglySorted sep (x :: l) -> x.1 < bp -> (forall y, y ∈ l -> y.1 <> bp) ->
  exists l1 t l2, x :: l = l1 ++ t :: l2 /\ t.1 < bp /\ forall y, y ∈ l2 -> bp < y.1.
Proof.
  revert x. induction l as [|y l IH]; intros x Hs Hx Hn.
  - exists [], x, []. split_and!; [done|done|]. set_solver.
  - apply StronglySorted_cons in Hs as [Hxy Hs]. destruct (decide (y.1 < bp)) as [Hy|Hy].
    + destruct (IH y Hs Hy) as (l1 & t & l2 & E & Ht & H2); [set_solver|]. exists (x :: l1), t, l2. by rewrite E.
    + exists [], x, (y :: l). split_and!; [done|done|]. apply StronglySorted_cons in Hs as [Hyl _].
      rewrite Forall_forall in Hyl. intros w [->|Hw]%elem_of_cons; [specialize (Hn y ltac:(by left)); lia|].
      destruct (Hyl w Hw). specialize (Hn y ltac:(by left)). lia.
Qed.

Section Free.
Context (L live : list blk) (s : hstate) (I : heap L live s).
Context (b n : Z) (v1 v2 : list blk) (Ev : live = v1 ++ (b, n) :: v2).

Lemma bn_live : (b, n) ∈ live.
Proof. rewrite Ev. set_solver. Qed.

Lemma bn_inside : inside s (b, n) /\ h_mem s (b + 4) = n.
Proof. apply (hp_live _ _ _ I _ bn_live). Qed.

Lemma list_low x : x ∈ L -> base <= x.1 /\ x.1 + 8 * x.2 <= h_brk s /\ 0 <= x.2.
Proof.
  intros Hx. destruct (hp_bounds _ _ _ I) as (? & ? & ?). pose proof bn_inside as [(? & ? & ?) _]. cbn in *.
  destruct (hp_free _ _ _ I x Hx) as [->|(? & ? & ?)]; cbn; lia.
Qed.

Lemma list_not_b x : x ∈ L -> x.1 <> b /\ (x.1 < b -> x.1 + 8 <= b /\ x.1 + 8 * x.2 <= b) /\ (b < x.1 -> b + 8 * n <= x.1).
Proof.
  intros Hx. pose proof (hp_apart _ _ _ I x _ Hx bn_live) as D. unfold disj in D. cbn in D.
  destruct (hp_bounds _ _ _ I) as (? & ? & ?). pose proof bn_inside as [(? & ? & ?) _]. cbn in *.
  destruct (hp_free _ _ _ I x Hx) as [->|(? & ? & ?)]; cbn in *; lia.
Qed.

Lemma disj_sym x y : disj x y -> disj y x.
Proof. unfold disj. tauto. Qed.

Lemma bn_disj y : y ∈ v1 ++ v2 -> y ∈ live /\ disj (b, n) y.
Proof.
  intros Hy. pose proof (hp_pair _ _ _ I) as Hp. rewrite Ev in Hp |- *. apply StronglySorted_app in Hp as (H1 & _ & H2).
  apply StronglySorted_cons in H2 as [H2 _]. rewrite Forall_forall in H2. apply elem_of_app in Hy as [Hy|Hy].
  - split; [set_solver|]. apply disj_sym, H1; [done|by left].
  - split; [set_solver|]. by apply H2.
Qed.

(** The loop stops exactly at the block before [b]. *)
Lemma stop_place l1 t l2 x :
  L = l1 ++ t :: l2 -> t.1 < b -> (forall y : blk, y ∈ l2 -> b < y.1) -> x ∈ L ->
  stop (h_mem s) b x.1 = bool_decide (x = t).
Proof.
  intros E Ht H2 Hx. pose proof (hp_chain _ _ _ I) as C. pose proof (hp_sorted _ _ _ I) as Hs.
  pose proof bn_inside as [(? & Hlo & ?) _]. destruct (hp_bounds _ _ _ I) as (? & ? & ?). cbn in *.
  pose proof (proj1 (list_low x Hx)) as Hxl.
  assert (Hnx : forall k1 k2, L = k1 ++ x :: k2 -> h_mem s x.1 = nexta k2 base /\ Forall (sep x) k2).
  { intros k1 k2 Ek. rewrite Ek in C, Hs. apply chain_app in C as [_ (Cx & _)]. apply StronglySorted_app in Hs as (_ & _ & Hs).
    by apply StronglySorted_cons in Hs as [Hs _]. }
  assert (Hq : forall y k, Forall (sep x) (y :: k) -> x.1 < y.1) by (intros y k [[? _] _]%Forall_cons; lia).
  unfold stop. rewrite E in Hx. apply elem_of_app in Hx as [Hx|[->|Hx]%elem_of_cons].
  - assert (Hxt : sep x t) by (rewrite E in Hs; apply StronglySorted_app in Hs as (Hs & _); apply Hs; [done|by left]).
    destruct Hxt as [Hxt _]. rewrite bool_decide_eq_false_2 by (intros ->; lia).
    apply list_elem_of_split in Hx as (k1 & k2 & ->). destruct (Hnx k1 (k2 ++ t :: l2)) as [-> Hf]; [by rewrite E, <- app_assoc|].
    destruct k2 as [|y k2]; cbn [app nexta] in *; [lia|]. pose proof (Hq _ _ Hf).
    rewrite E, <- app_assoc in Hs. apply StronglySorted_app in Hs as (_ & _ & Hs). apply StronglySorted_cons in Hs as [_ Hs].
    apply StronglySorted_cons in Hs as [Hs _]. apply Forall_app in Hs as [_ [[? _] _]%Forall_cons]. lia.
  - rewrite bool_decide_eq_true_2 by done. destruct (Hnx l1 l2 E) as [-> Hf]. destruct l2 as [|y l2]; cbn [nexta]; [lia|].
    pose proof (H2 y ltac:(by left)). lia.
  - pose proof (H2 x Hx). rewrite bool_decide_eq_false_2 by (intros ->; lia).
    apply list_elem_of_split in Hx as (k1 & k2 & ->). destruct (Hnx (l1 ++ t :: k1) k2) as [-> Hf]; [by rewrite E, <- app_assoc|].
    destruct k2 as [|y k2]; cbn [nexta]; [lia|]. pose proof (Hq _ _ Hf). lia.
Qed.

Lemma free_finds fuel : (length L <= fuel)%nat ->
  exists l1 t l2, L = l1 ++ t :: l2 /\ t.1 < b /\ (forall y : blk, y ∈ l2 -> b < y.1) /\
    free_loop b (h_freep s) fuel s = Ok t.1 s.
Proof.
  intros Hf. destruct (hp_head _ _ _ I) as [fl Efl]. pose proof (hp_sorted _ _ _ I) as Hs.
  destruct (hp_bounds _ _ _ I) as (? & ? & ?). pose proof bn_inside as [(? & Hlo & ?) _]. cbn in *.
  destruct (place b (base, 0) fl) as (l1 & t & l2 & E & Ht & Ha); [by rewrite <- Efl|cbn; lia| |].
  { intros y Hy. apply list_not_b. rewrite Efl. by right. }
  exists l1, t, l2. rewrite <- Efl in E. split_and!; [done|done|done|].
  destruct (hp_freep _ _ _ I) as (f & Hfl & ->). destruct (ring_of _ _ _ f I Hfl) as (rs & C & Hel & Hlen & Hnf & Hnr).
  assert (C' : chain (h_mem s) (f :: rs) f.1).
  { apply chain_app in C as [C (_ & Hsz & _)]. cbn [chain]. rewrite nexta_app in Hnf. done. }
  assert (Htl : t ∈ f :: rs) by (assert (t ∈ L) as Htl%Hel by (rewrite E; set_solver); set_solver).
  apply list_elem_of_split_l in Htl as (r1 & r2 & Er & Hr). rewrite Er in C'.
  replace f.1 with (nexta (f :: rs) f.1) at 1 by done. rewrite Er.
  assert (HrL : forall x, x ∈ r1 ++ t :: r2 -> x ∈ L) by (intros x Hx; apply Hel; rewrite <- Er in Hx; set_solver).
  apply (free_loop_run b s r1 t r2 f.1); [done| | |].
  - intros x Hx. rewrite (stop_place l1 t l2) by (done || apply HrL; set_solver). apply bool_decide_eq_false_2. by intros ->.
  - rewrite (stop_place l1 t l2) by (done || apply HrL; set_solver). by apply bool_decide_eq_true_2.
  - apply (f_equal length) in Er. rewrite length_app in *. cbn in *. lia.
Qed.

(** Joining the block with the one above it. *)
Definition join_up (l2 : list blk) : blk * list blk :=
  match l2 with
  | q :: rest => if b + 8 * n =? q.1 then ((b, n + q.2), rest) else ((b, n), l2)
  | [] => ((b, n), [])
  end.

Definition join_down (l1 : list blk) (t nb : blk) (rest : list blk) : list blk :=
  if t.1 + 8 * t.2 =? b then l1 ++ (t.1, t.2 + nb.2) :: rest else l1 ++ t :: nb :: rest.

Section Link.
Context (l1 : list blk) (t : blk) (l2 : list blk) (E : L = l1 ++ t :: l2) (Ht : t.1 < b) (Ha : forall y : blk, y ∈ l2 -> b < y.1).

(** The first half of [free]: the block with its new size and link. *)
Lemma next_run : exists m1,
  link_next b t.1 s = Ok tt (HS m1 (h_brk s) (h_freep s) (h_grants s)) /\
  chain m1 ((join_up l2).1 :: (join_up l2).2) base /\ (forall a, a <> b -> a <> b + 4 -> m1 a = h_mem s a).
Proof.
  pose proof bn_inside as [(? & ? & ?) Hn]. destruct (hp_bounds _ _ _ I) as (? & ? & ?). cbn in *.
  pose proof (hp_chain _ _ _ I) as C. rewrite E in C. apply chain_app in C as [_ (Ct & _ & C)].
  assert (Hlow : forall x, x ∈ l2 -> b + 8 <= x.1 /\ base <= x.1 /\ x.1 + 8 * x.2 <= h_brk s /\ 0 <= x.2).
  { intros x Hx. assert (HxL : x ∈ L) by (rewrite E; set_solver). pose proof (list_low x HxL). pose proof (list_not_b x HxL) as (_ & _ & Hb).
    specialize (Hb (Ha x Hx)). lia. }
  unfold link_next, ptr. rewrite size_small by lia. rewrite (bind_Ok _ _ _ _ _ (load_run _ _)), Hn.
  rewrite (bind_Ok _ _ _ _ _ (load_run _ _)), Ct. rewrite plus_small by (unfold KERNBASE in *; lia).
  destruct (b + 8 * n =? nexta l2 base) eqn:Ej.
  - destruct l2 as [|q rest]; cbn [nexta join_up] in *; [lia|]. rewrite Ej. cbn [fst snd chain] in *. destruct C as (Cq & Sq & C).
    destruct (Hlow q) as (? & ? & ? & ?); [by left|].
    rewrite size_small by lia. rewrite (bind_Ok _ _ _ _ _ (load_run _ _)), Sq.
    rewrite (bind_Ok _ _ _ _ _ (store_run _ _ _)), (bind_Ok _ _ _ _ _ (load_run _ _)), store_run. cbn [h_mem h_brk h_freep h_grants].
    eexists. split; [done|]. rewrite u32_small by (unfold KERNBASE in *; lia). split.
    + split_and!; [by rewrite put_eq, put_ne by lia|by rewrite put_ne, put_eq by lia|]. revert C. apply nodes_ext.
      intros x Hx. destruct (Hlow x) as (? & _); [by right|]. split; rewrite !put_ne by lia; done.
    + intros a H1' H2'. by rewrite !put_ne.
  - rewrite store_run. eexists. split; [done|].
    assert (Eu : join_up l2 = ((b, n), l2)) by (destruct l2 as [|q rest]; cbn [nexta join_up] in *; [done|by rewrite Ej]).
    rewrite Eu. cbn [fst snd chain]. split.
    + split_and!; [by rewrite put_eq|by rewrite put_ne by lia|]. revert C. apply nodes_ext.
      intros x Hx. destruct (Hlow x) as (? & _); [done|]. split; rewrite !put_ne by lia; done.
    + intros a H1' H2'. by rewrite !put_ne.
Qed.

(** What is known of the blocks after the first half. *)
Lemma up_facts : let nb := (join_up l2).1 in let rest := (join_up l2).2 in
  nb.1 = b /\ n <= nb.2 /\ b + 8 * nb.2 <= h_brk s /\ nb.2 + total rest = n + total l2 /\
  StronglySorted sep (nb :: rest) /\ (forall x, x ∈ rest -> x ∈ l2) /\
  (forall y, y ∈ live -> disj (b, n) y -> disj nb y).
Proof.
  pose proof bn_inside as [(? & ? & ?) Hn]. cbn in *. pose proof (hp_sorted _ _ _ I) as Hs. rewrite E in Hs.
  apply StronglySorted_app in Hs as (_ & _ & Hs). apply StronglySorted_cons in Hs as [_ Hs].
  assert (Hlow : forall x, x ∈ l2 -> b + 8 * n <= x.1 /\ 0 <= x.2 /\ x.1 + 8 * x.2 <= h_brk s).
  { intros x Hx. assert (HxL : x ∈ L) by (rewrite E; set_solver). pose proof (list_low x HxL). pose proof (list_not_b x HxL) as (_ & _ & Hb).
    specialize (Hb (Ha x Hx)). lia. }
  destruct l2 as [|q rest]; cbn [join_up]; [|destruct (b + 8 * n =? q.1) eqn:Ej]; cbn [fst snd].
  - split_and!; [done|lia|lia|done| |done|done]. apply StronglySorted_cons. split; [by apply Forall_nil|done].
  - apply StronglySorted_cons in Hs as [Hq Hs]. destruct (Hlow q) as (? & ? & ?); [by left|]. rewrite total_cons.
    split_and!; [done|lia|lia|lia| |set_solver|].
    + apply StronglySorted_cons. split; [|done]. rewrite Forall_forall in *. intros x Hx. destruct (Hq x Hx). unfold sep. cbn. lia.
    + intros y Hy Hd. assert (HqL : q ∈ L) by (rewrite E; set_solver).
      pose proof (hp_apart _ _ _ I q y HqL Hy) as Hx.
      destruct (hp_live _ _ _ I y Hy) as [(? & _) _]. unfold disj in *. cbn in *. lia.
  - split_and!; [done|lia|lia|done| |done|done]. apply StronglySorted_cons. split; [|done].
    apply StronglySorted_cons in Hs as [Hq Hs]. apply Forall_cons. destruct (Hlow q) as (? & ? & ?); [by left|]. split.
    + unfold sep. cbn. lia.
    + rewrite Forall_forall in *. intros x Hx. destruct (Hq x Hx). unfold sep. cbn. lia.
Qed.

(** The second half: the block before it. *)
Lemma prev_run m1 nb rest : let s1 := HS m1 (h_brk s) (h_freep s) (h_grants s) in
  chain m1 (nb :: rest) base -> (forall a, a <> b -> a <> b + 4 -> m1 a = h_mem s a) ->
  nb.1 = b -> 1 <= nb.2 -> b + 8 * nb.2 <= h_brk s -> (forall x, x ∈ rest -> x ∈ l2) ->
  exists m2, link_prev b t.1 s1 = Ok tt (HS m2 (h_brk s) (h_freep s) (h_grants s)) /\
    chain m2 (join_down l1 t nb rest) base /\
    (forall a, a <> b -> a <> b + 4 -> a <> t.1 -> a <> t.1 + 4 -> m2 a = h_mem s a).
Proof.
  cbv zeta. intros (Cb & Sb & Cr) Hm Hb1 Hb2 Hb3 Hr. pose proof bn_inside as [(? & ? & ?) Hn].
  destruct (hp_bounds _ _ _ I) as (? & ? & ?). cbn in *.
  pose proof (hp_chain _ _ _ I) as C. rewrite E in C. apply chain_app in C as [C1 (Ct & St & C)]. cbn [nexta] in C1.
  assert (HtL : t ∈ L) by (rewrite E; set_solver). destruct (list_low t HtL) as (? & ? & ?).
  destruct (list_not_b t HtL) as (_ & Hbt & _). specialize (Hbt Ht).
  pose proof (hp_sorted _ _ _ I) as Hs. rewrite E in Hs. apply StronglySorted_app in Hs as (Hs1 & _ & Hs).
  apply StronglySorted_cons in Hs as [Hst _]. rewrite Forall_forall in Hst.
  assert (Hbelow : forall x, x ∈ l1 -> x.1 + 8 <= t.1) by (intros x Hx; apply (Hs1 x t); [done|by left]).
  assert (Habove : forall x, x ∈ rest -> b + 8 <= x.1 /\ t.1 + 8 <= x.1).
  { intros x Hx. apply Hr in Hx. assert (HxL : x ∈ L) by (rewrite E; set_solver). destruct (list_not_b x HxL) as (_ & _ & Hxb).
    specialize (Hxb (Ha x Hx)). destruct (Hst x Hx). lia. }
  unfold link_prev, ptr, join_down. rewrite size_small by lia. rewrite (bind_Ok _ _ _ _ _ (load_run _ _)). cbn [h_mem].
  rewrite (Hm (t.1 + 4)), St by lia. rewrite plus_small by (unfold KERNBASE in *; lia). rewrite <- Hb1 in *.
  destruct (t.1 + 8 * t.2 =? nb.1) eqn:Ej.
  - rewrite size_small by lia. rewrite (bind_Ok _ _ _ _ _ (load_run _ _)). cbn [h_mem]. rewrite Sb.
    rewrite (bind_Ok _ _ _ _ _ (store_run _ _ _)), (bind_Ok _ _ _ _ _ (load_run _ _)), store_run. cbn [h_mem h_brk h_freep h_grants].
    eexists. split; [done|]. rewrite u32_small by (unfold KERNBASE in *; lia). split.
    + apply chain_app. cbn [nexta chain fst snd]. split_and!.
      * revert C1. apply nodes_ext. intros x Hx. specialize (Hbelow x Hx). rewrite !put_ne, !Hm by lia. done.
      * by rewrite put_eq, put_ne by lia.
      * by rewrite put_ne, put_eq by lia.
      * revert Cr. apply nodes_ext. intros x Hx. destruct (Habove x Hx). rewrite !put_ne by lia. done.
    + intros a A1 A2 A3 A4. rewrite !put_ne by done. by apply Hm.
  - rewrite store_run. cbn [h_mem h_brk h_freep h_grants]. eexists. split; [done|]. split.
    + apply chain_app. cbn [nexta chain]. split_and!.
      * revert C1. apply nodes_ext. intros x Hx. specialize (Hbelow x Hx). rewrite !put_ne, !Hm by lia. done.
      * by rewrite put_eq.
      * by rewrite put_ne, Hm by lia.
      * by rewrite put_ne by lia.
      * by rewrite put_ne by lia.
      * revert Cr. apply nodes_ext. intros x Hx. destruct (Habove x Hx). rewrite !put_ne by lia. done.
    + intros a A1 A2 A3 A4. rewrite !put_ne by done. by apply Hm.
Qed.

(** The blocks below, at and above the place of [b]. *)
Lemma around :
  t ∈ L /\ t.1 + 8 <= b /\ t.1 + 8 * t.2 <= b /\ 0 <= t.2 /\ base <= t.1 /\ (t = (base, 0) \/ inside s t) /\
  (forall x, x ∈ l1 -> sep x t) /\ (forall x y, x ∈ l1 -> y ∈ l2 -> sep x y) /\ (forall y, y ∈ l2 -> sep t y) /\ StronglySorted sep l1.
Proof.
  assert (HtL : t ∈ L) by (rewrite E; set_solver). destruct (list_low t HtL) as (? & ? & ?).
  destruct (list_not_b t HtL) as (_ & Hbt & _). specialize (Hbt Ht). pose proof (hp_sorted _ _ _ I) as Hs. rewrite E in Hs.
  apply StronglySorted_app in Hs as (Hs1 & Hsl & Hs2). apply StronglySorted_cons in Hs2 as [Hst _]. rewrite Forall_forall in Hst.
  split_and!; try done; try lia; [by apply (hp_free _ _ _ I)|intros; apply Hs1; set_solver..].
Qed.

(** The blocks that stay free, and those in use. *)
Lemma others : let rest := (join_up l2).2 in
  (forall x, x ∈ l1 \/ x ∈ rest -> x ∈ L) /\
  (forall y, y ∈ v1 ++ v2 -> 1 <= y.2 /\ disj (join_up l2).1 y /\ forall x, x ∈ L -> disj x y) /\ (length rest <= length l2)%nat.
Proof.
  cbv zeta. destruct up_facts as (_ & _ & _ & _ & _ & Ur & Ud). split_and!.
  - intros x [Hx|Hx]; [|apply Ur in Hx]; rewrite E; set_solver.
  - intros y Hy. destruct (bn_disj y Hy) as [Hyl D]. split_and!; [apply (hp_live _ _ _ I y Hyl)|auto|].
    intros x Hx. by apply (hp_apart _ _ _ I).
  - destruct l2 as [|q r]; cbn [join_up]; [done|]. destruct (_ =? _); cbn; lia.
Qed.

(** What the list has to satisfy after [free]: every block of it is an old one, the freed one
    or a union of adjacent ones. *)
Definition freed (L' : list blk) : Prop :=
  (exists fl, L' = (base, 0) :: fl) /\ StronglySorted sep L' /\ (forall x, x ∈ L' -> x = (base, 0) \/ inside s x) /\
  (exists x, x ∈ L' /\ t.1 = x.1) /\ (forall x y, x ∈ L' -> y ∈ v1 ++ v2 -> disj x y) /\ total L' = total L + n /\
  (exists x, x ∈ L' /\ n <= x.2) /\ (length L' <= S (length L))%nat.

Lemma freed_join : t.1 + 8 * t.2 = b -> freed (l1 ++ (t.1, t.2 + (join_up l2).1.2) :: (join_up l2).2).
Proof.
  intros Ej. pose proof bn_inside as [(? & ? & ?) Hn]. destruct (hp_bounds _ _ _ I) as (? & ? & ?). cbn in *.
  destruct up_facts as (Ub & Un & Ui & Ut & Us & Ur & Ud). destruct others as (Hin & Hd & Hlen).
  destruct around as (HtL & ? & ? & ? & ? & Ht' & Hl1 & Hl12 & Hst & Hsl). destruct (hp_head _ _ _ I) as [fl Efl].
  set (nb := (join_up l2).1) in *. set (rest := (join_up l2).2) in *. apply StronglySorted_cons in Us as [Unr Us]. rewrite Forall_forall in Unr.
  assert (Hti : inside s t) by (destruct Ht' as [->|]; [cbn in *; lia|done]). destruct Hti as (? & ? & ?). rewrite E in Efl. unfold freed.
  split_and!.
  - destruct l1 as [|x l1']; cbn in *; injection Efl as -> _; [cbn in *; lia|by eexists].
  - apply StronglySorted_app. split_and!; [|done|].
    + intros x y Hx [->|Hy]%elem_of_cons; [exact (Hl1 x Hx)|]. by apply Hl12; [|apply Ur].
    + apply StronglySorted_cons. split; [|done]. apply Forall_forall. intros y Hy. destruct (Unr y Hy). unfold sep. cbn. lia.
  - intros x [Hx|[->|Hx]%elem_of_cons]%elem_of_app; [apply (hp_free _ _ _ I); auto| |apply (hp_free _ _ _ I); auto].
    right. unfold inside. cbn. lia.
  - eexists. split; [apply elem_of_app; right; left|done].
  - intros x y Hx Hy. destruct (Hd y Hy) as (? & Dn & Dx). apply elem_of_app in Hx as [Hx|[->|Hx]%elem_of_cons]; [auto| |auto].
    pose proof (Dx t HtL). unfold disj in *. cbn. lia.
  - rewrite E, !total_app, !total_cons. cbn. lia.
  - eexists. split; [apply elem_of_app; right; left|cbn; lia].
  - rewrite E, !length_app. cbn. lia.
Qed.

Lemma freed_link : t.1 + 8 * t.2 <> b -> freed (l1 ++ t :: (join_up l2).1 :: (join_up l2).2).
Proof.
  intros Ej. pose proof bn_inside as [(? & ? & ?) Hn]. destruct (hp_bounds _ _ _ I) as (? & ? & ?). cbn in *.
  destruct up_facts as (Ub & Un & Ui & Ut & Us & Ur & Ud). destruct others as (Hin & Hd & Hlen).
  destruct around as (HtL & ? & ? & ? & ? & Ht' & Hl1 & Hl12 & Hst & Hsl). destruct (hp_head _ _ _ I) as [fl Efl].
  set (nb := (join_up l2).1) in *. set (rest := (join_up l2).2) in *. apply StronglySorted_cons in Us as [Unr Us].
  rewrite E in Efl. unfold freed. split_and!.
  - destruct l1 as [|x l1']; cbn in *; injection Efl as -> _; by eexists.
  - apply StronglySorted_app. split_and!; [|done|].
    + intros x y Hx Hy. destruct (Hl1 x Hx). apply elem_of_cons in Hy as [->|[->|Hy]%elem_of_cons]; [auto|unfold sep; lia|auto].
    + apply StronglySorted_cons. split; [|by apply StronglySorted_cons].
      apply Forall_forall. intros y [->|Hy]%elem_of_cons; [unfold sep; lia|auto].
  - intros x [Hx|[->|[->|Hx]%elem_of_cons]%elem_of_cons]%elem_of_app; [apply (hp_free _ _ _ I); auto|done| |apply (hp_free _ _ _ I); auto].
    right. unfold inside. lia.
  - exists t. split; [set_solver|done].
  - intros x y Hx Hy. destruct (Hd y Hy) as (? & Dn & Dx).
    by apply elem_of_app in Hx as [Hx|[->|[->|Hx]%elem_of_cons]%elem_of_cons]; auto.
  - rewrite E, !total_app, !total_cons. lia.
  - exists nb. split; [set_solver|lia].
  - rewrite E, !length_app. cbn. lia.
Qed.

Lemma down_facts : freed (join_down l1 t (join_up l2).1 (join_up l2).2).
Proof. unfold join_down. destruct (t.1 + 8 * t.2 =? b) eqn:Ej; [apply freed_join|apply freed_link]; lia. Qed.

End Link.

Lemma free_spec fuel : (length L <= fuel)%nat ->
  exists L' s', free (b + 8) fuel s = Ok tt s' /\ heap L' (v1 ++ v2) s' /\ kept (v1 ++ v2) (h_mem s) (h_mem s') /\
    h_brk s' = h_brk s /\ h_grants s' = h_grants s /\ (exists x, x ∈ L' /\ n <= x.2) /\ (length L' <= S (length L))%nat.
Proof.
  intros Hf. destruct (free_finds fuel Hf) as (l1 & t & l2 & E & Ht & Ha & Ef).
  pose proof bn_inside as [(? & ? & ?) Hn]. destruct (hp_bounds _ _ _ I) as (? & ? & ?). cbn in *.
  destruct (next_run l1 t l2 E Ht Ha) as (m1 & E1 & C1 & F1). destruct (up_facts l1 t l2 E Ht Ha) as (Ub & Un & Ui & Ut & Us & Ur & Ud).
  destruct (down_facts l1 t l2 E Ht Ha) as (Dh & Dso & Df & Dp & Da & Dt & Dn & Dl).
  destruct (prev_run l1 t l2 E Ht Ha m1 _ _ C1 F1 Ub) as (m2 & E2 & C2 & F2); [lia|lia|done|].
  set (L' := join_down _ _ _ _) in *. exists L', (HS m2 (h_brk s) t.1 (h_grants s)).
  assert (HtL : t ∈ L) by (rewrite E; set_solver).
  assert (Hk : kept (v1 ++ v2) (h_mem s) m2).
  { intros y a Hy Hya. destruct (bn_disj y Hy) as [Hyl Db]. pose proof (hp_apart _ _ _ I t y HtL Hyl) as Dy.
    destruct (hp_live _ _ _ I y Hyl) as [(? & ? & ?) _]. unfold disj in *. cbn in *.
    destruct (hp_free _ _ _ I t HtL) as [->|(? & ? & ?)]; cbn in *; apply F2; lia. }
  split; [|split_and!; try done].
  - unfold free. rewrite plus_small by (unfold KERNBASE in *; lia). replace (b + 8 + 8 * -1) with b by lia.
    rewrite (bind_Ok (gets _) _ _ _ _ eq_refl), (bind_Ok _ _ _ _ _ Ef), (bind_Ok _ _ _ _ _ E1), (bind_Ok _ _ _ _ _ E2). done.
  - pose proof (hp_pair _ _ _ I) as Hp. pose proof (hp_tile _ _ _ I) as Hti. rewrite Ev in Hp, Hti.
    rewrite total_app, total_cons in Hti. split; cbn [h_mem h_brk h_freep]; try done.
    + intros y Hy. destruct (bn_disj y Hy) as [Hyl _]. destruct (hp_live _ _ _ I y Hyl) as [Hyi Hys]. split; [done|].
      rewrite (Hk y) by (done || destruct Hyi; lia). done.
    + apply StronglySorted_app in Hp as (H1' & H2' & H3'). apply StronglySorted_cons in H3' as [_ H3'].
      apply StronglySorted_app. split_and!; [|done|done]. intros x y Hx Hy. apply H1'; [done|by right].
    + rewrite Dt, total_app. cbn in Hti. lia.
Qed.
End Free.

(** ** Growing *)

Lemma heap_grants L live s gs : heap L live s -> heap L live (HS (h_mem s) (h_brk s) (h_freep s) gs).
Proof. intros []. by split. Qed.

Definition grow (nu : Z) : Z := if nu <? 4096 then 4096 else nu.

Lemma heap_low L live s : heap L live s -> lo <= h_brk s.
Proof.
  intros I. pose proof (hp_tile _ _ _ I) as Ht.
  assert (Hp : forall l, (forall x, x ∈ l -> 0 <= x.2) -> 0 <= total l).
  { induction l as [|x l IH]; intros Hx; [done|]. rewrite total_cons. pose proof (Hx x ltac:(by left)).
    assert (0 <= total l) by (apply IH; intros y Hy; apply Hx; by right). lia. }
  assert (0 <= total L) by (apply Hp; intros x Hx; destruct (hp_free _ _ _ I x Hx) as [->|(? & _)]; cbn; lia).
  assert (0 <= total live) by (apply Hp; intros x Hx; destruct (hp_live _ _ _ I x Hx) as [(? & _) _]; lia). lia.
Qed.

(** The new piece of memory is a block in use, about to be freed. *)
Lemma heap_grown L live s nu gs :
  heap L live s -> 1 <= nu -> h_brk s + 8 * nu < KERNBASE ->
  heap L ((h_brk s, nu) :: live) (HS (put_word (h_mem s) (h_brk s + 4) nu) (h_brk s + 8 * nu) (h_freep s) gs).
Proof.
  intros I Hn Hb. destruct (hp_bounds _ _ _ I) as (? & ? & ?).
  pose proof (heap_low _ _ _ I) as Hlo.
  assert (HL : forall x, x ∈ L -> x.1 + 8 <= h_brk s /\ x.1 + 8 * x.2 <= h_brk s).
  { intros x Hx. destruct (hp_free _ _ _ I x Hx) as [->|(? & ? & ?)]; cbn; lia. }
  destruct I as [I1 I2 I3 I4 I5 I6 I7 I8 I9 I10]. split; cbn [h_mem h_brk h_freep]; try done.
  - revert I2. apply nodes_ext. intros x Hx. destruct (HL x Hx). rewrite !put_ne by lia. done.
  - intros x Hx. destruct (I4 x Hx) as [->|(? & ? & ?)]; [by left|right]. unfold inside. cbn. lia.
  - intros y [->|Hy]%elem_of_cons; unfold inside; cbn [h_brk fst snd]; [rewrite put_eq; lia|].
    destruct (I6 y Hy) as [(? & ? & ?) ?]. rewrite put_ne by lia. lia.
  - intros x y Hx [->|Hy]%elem_of_cons; [|auto]. destruct (HL x Hx). unfold disj. cbn. lia.
  - apply StronglySorted_cons. split; [|done]. apply Forall_forall. intros y Hy. destruct (I6 y Hy) as [(? & ? & ?) ?].
    unfold disj. cbn. lia.
  - rewrite total_cons. cbn. lia.
  - lia.
Qed.

Lemma sbrk_grow s n : 0 < n < 2 ^ 31 -> 0 <= h_brk s <= KERNBASE ->
  sbrk n s = if hd false (h_grants s) && (h_brk s + n <? KERNBASE)
    then Ok (h_brk s) (HS (h_mem s) (h_brk s + n) (h_freep s) (tail (h_grants s)))
    else Ok (u32 (-1)) (HS (h_mem s) (h_brk s) (h_freep s) (tail (h_grants s))).
Proof.
  intros Hn Hb. unfold sbrk. rewrite s32_small by lia. rewrite (bind_Ok get _ _ _ _ eq_refl).
  rewrite (proj2 (Z.ltb_lt 0 n)), u32_small by (unfold KERNBASE in *; lia).
  rewrite (bind_Ok (modify _) _ _ _ _ eq_refl). by destruct (_ && _).
Qed.

Lemma morecore_spec L live s nu fuel :
  heap L live s -> 1 <= nu -> 8 * nu < 2 ^ 31 -> (length L <= fuel)%nat ->
  (morecore nu fuel s = Ok 0 (HS (h_mem s) (h_brk s) (h_freep s) (tail (h_grants s))) /\
    (hd false (h_grants s) = false \/ KERNBASE <= h_brk s + 8 * grow nu)) \/
  exists L' s', morecore nu fuel s = Ok (h_freep s') s' /\ heap L' live s' /\ kept live (h_mem s) (h_mem s') /\
    h_brk s' = h_brk s + 8 * grow nu /\ (exists x, x ∈ L' /\ nu <= x.2) /\ (length L' <= S (length L))%nat.
Proof.
  intros I Hn Hm Hf. unfold morecore. fold (grow nu). set (k := grow nu).
  assert (Hk : nu <= k /\ 4096 <= k /\ 8 * k < 2 ^ 31) by (unfold k, grow; destruct (nu <? 4096) eqn:E; lia).
  destruct (hp_bounds _ _ _ I) as (? & ? & Hhi). pose proof (heap_low _ _ _ I) as Hlo.
  rewrite u32_small by lia. replace (k * 8) with (8 * k) by lia. pose proof (sbrk_grow s (8 * k) ltac:(lia) ltac:(lia)) as Esb.
  destruct (hd false (h_grants s) && (h_brk s + 8 * k <? KERNBASE)) eqn:Eg; rewrite (bind_Ok _ _ _ _ _ Esb).
  - right. bool_hyps. rewrite (proj2 (Z.eqb_neq (h_brk s) (u32 (-1)))) by (change (u32 (-1)) with 4294967295; unfold KERNBASE in *; lia).
    rewrite size_small, plus_small by (unfold KERNBASE in *; lia). rewrite (bind_Ok _ _ _ _ _ (store_run _ _ _)).
    cbn [h_mem h_brk h_freep h_grants].
    pose proof (heap_grown L live s k (tail (h_grants s)) I ltac:(lia) ltac:(lia)) as Ig.
    destruct (free_spec L _ _ Ig (h_brk s) k [] live eq_refl fuel Hf) as (L' & s' & E & I' & Kp & Eb & _ & (x & Hx & Hxn) & Hl).
    rewrite (bind_Ok _ _ _ _ _ E). exists L', s'. split_and!; [done|done| |done|exists x; split; [done|lia]|done].
    intros y a Hy Hya. rewrite (Kp y a Hy Hya). cbn [h_mem]. destruct (hp_live _ _ _ I y Hy) as [(? & ? & ?) _]. by rewrite put_ne by lia.
  - left. rewrite Z.eqb_refl. split; [done|]. apply andb_false_iff in Eg as [Eg|Eg]; [by left|right; lia].
Qed.

(** ** Taking a block *)

Lemma sorted_unique l x y : StronglySorted sep l -> x ∈ l -> y ∈ l -> x.1 = y.1 -> x = y.
Proof.
  intros Hs (l1 & l2 & ->)%list_elem_of_split Hy Exy. apply StronglySorted_app in Hs as (H1 & _ & H2).
  apply StronglySorted_cons in H2 as [H2 _]. rewrite Forall_forall in H2. apply elem_of_app in Hy as [Hy|[->|Hy]%elem_of_cons]; [|done|].
  - destruct (H1 y x) as [? _]; [done|by left|lia].
  - destruct (H2 y Hy) as [? _]. lia.
Qed.

(** The block that points to [x]. *)
Lemma before_block L live s x p : heap L live s -> x ∈ L -> x.1 <> base -> p ∈ L -> h_mem s p.1 = x.1 ->
  exists l1 l2, L = l1 ++ p :: x :: l2.
Proof.
  intros I Hx Hb (l1 & l2 & E)%list_elem_of_split Hp. pose proof (hp_chain _ _ _ I) as C. rewrite E in C.
  apply chain_app in C as [_ (Cp & _)]. rewrite Hp in Cp. destruct l2 as [|y l2]; cbn in Cp; [done|].
  exists l1, l2. rewrite E. do 2 f_equal. f_equal.
  apply (sorted_unique L); [apply (hp_sorted _ _ _ I)|rewrite E; set_solver|done|done].
Qed.

(** What [malloc] promises for [nu] units, the header included. *)
Definition allocated (nu : Z) (live : list blk) (s : hstate) (r : Z) (s' : hstate) : Prop :=
  exists b L', r = b + 8 /\ heap L' ((b, nu) :: live) s' /\ kept live (h_mem s) (h_mem s').

Section Take.
Context (L live : list blk) (s : hstate) (I : heap L live s) (nu : Z) (Hnu : 1 <= nu).
Context (x p : blk) (Hx : x ∈ L) (Hp : p ∈ L) (Hpx : h_mem s p.1 = x.1) (Hfit : nu <= x.2).

Lemma x_inside : inside s x /\ x.1 <> base /\ h_mem s (x.1 + 4) = x.2.
Proof.
  destruct (hp_bounds _ _ _ I) as (? & ? & ?). destruct (hp_free _ _ _ I x Hx) as [E|(? & ? & ?)]; [rewrite E in Hfit; cbn in Hfit; lia|].
  split; [done|]. split; [lia|]. pose proof (hp_chain _ _ _ I) as C. apply list_elem_of_split in Hx as (l1 & l2 & ->).
  apply chain_app in C as [_ (_ & C & _)]. done.
Qed.

Lemma header_kept y z a : y ∈ live -> z ∈ L -> y.1 <= a < y.1 + 8 * y.2 -> a <> z.1 /\ a <> z.1 + 4.
Proof.
  intros Hy Hz Ha. pose proof (hp_apart _ _ _ I z y Hz Hy) as D. destruct (hp_bounds _ _ _ I) as (? & ? & ?).
  destruct (hp_live _ _ _ I y Hy) as [(? & ? & ?) _]. unfold disj in D.
  destruct (hp_free _ _ _ I z Hz) as [->|(? & ? & ?)]; cbn in *; lia.
Qed.

Lemma chain_split l1 y l2 : L = l1 ++ y :: l2 ->
  chain (h_mem s) l1 y.1 /\ h_mem s y.1 = nexta l2 base /\ h_mem s (y.1 + 4) = y.2 /\ chain (h_mem s) l2 base /\
  (forall z, z ∈ l1 -> sep z y) /\ (forall z, z ∈ l2 -> sep y z) /\ StronglySorted sep l1 /\ StronglySorted sep l2 /\
  (forall z w, z ∈ l1 -> w ∈ l2 -> sep z w).
Proof.
  intros E. pose proof (hp_chain _ _ _ I) as C. pose proof (hp_sorted _ _ _ I) as Hs. rewrite E in C, Hs.
  apply chain_app in C as [C1 (Cy & Sy & C2)]. apply StronglySorted_app in Hs as (H1 & H1s & H2).
  apply StronglySorted_cons in H2 as [H2 H2s]. rewrite Forall_forall in H2.
  split_and!; try done; intros; apply H1; set_solver.
Qed.

Lemma take_exact l1 l2 gs : nu = x.2 -> L = l1 ++ p :: x :: l2 ->
  heap (l1 ++ p :: l2) (x :: live) (HS (put_word (h_mem s) p.1 (h_mem s x.1)) (h_brk s) p.1 gs) /\
  kept live (h_mem s) (put_word (h_mem s) p.1 (h_mem s x.1)).
Proof.
  intros Enu E. destruct x_inside as ((? & ? & ?) & Hb & Sx).
  destruct (chain_split l1 p (x :: l2) E) as (C1 & Cp & Sp & C2 & B1 & A1 & S1 & S2 & X1).
  cbn [chain] in C2. destruct C2 as (Cx & _ & C2). apply StronglySorted_cons in S2 as [Sxl S2]. rewrite Forall_forall in Sxl.
  assert (Hsub : forall z, z ∈ l1 ++ p :: l2 -> z ∈ L) by (rewrite E; set_solver).
  assert (Hk : kept live (h_mem s) (put_word (h_mem s) p.1 (h_mem s x.1))).
  { intros y a Hy Ha. destruct (header_kept y p a Hy Hp Ha). by rewrite put_ne. }
  assert (Hpx8 : sep p x) by (apply A1; by left). destruct (hp_bounds _ _ _ I) as (? & ? & ?).
  split; [|done]. split; cbn [h_mem h_brk h_freep].
  - destruct (hp_head _ _ _ I) as [fl Efl]. rewrite E in Efl. destruct l1 as [|z l1]; cbn in *; injection Efl as -> _; by eexists.
  - apply chain_app. cbn [nexta chain]. split_and!.
    + revert C1. apply nodes_ext. intros z Hz. destruct (B1 z Hz) as [? _]. rewrite !put_ne by lia. done.
    + by rewrite put_eq.
    + by rewrite put_ne by lia.
    + revert C2. apply nodes_ext. intros z Hz. destruct (A1 z) as [? _]; [by right|]. rewrite !put_ne by lia. done.
  - apply StronglySorted_app. split_and!; [|done|].
    + intros z w Hz [->|Hw]%elem_of_cons; [auto|]. apply X1; [done|by right].
    + apply StronglySorted_cons. split; [|done]. apply Forall_forall. intros z Hz. apply A1. by right.
  - intros z Hz. by apply (hp_free _ _ _ I), Hsub.
  - exists p. split; [set_solver|done].
  - intros y [->|Hy]%elem_of_cons; [split; [done|]; destruct Hpx8; by rewrite put_ne by lia|].
    destruct (hp_live _ _ _ I y Hy) as [Hyi Hys]. split; [done|]. destruct Hyi as (? & ? & ?). rewrite (Hk y) by (done || lia). done.
  - intros z y Hz [->|Hy]%elem_of_cons; [|by apply (hp_apart _ _ _ I); [apply Hsub|]]. destruct Hpx8.
    apply elem_of_app in Hz as [Hz|[->|Hz]%elem_of_cons]; unfold disj; [destruct (X1 z x); [done|by left|]; lia|lia|].
    destruct (Sxl z Hz). lia.
  - apply StronglySorted_cons. split; [|apply (hp_pair _ _ _ I)]. apply Forall_forall. intros y Hy. by apply (hp_apart _ _ _ I).
  - pose proof (hp_tile _ _ _ I) as Ht. rewrite E in Ht. rewrite !total_app, !total_cons in *. lia.
  - done.
Qed.

Lemma take_split l1 l2 gs : nu < x.2 -> L = l1 ++ x :: l2 ->
  let b := x.1 + 8 * (x.2 - nu) in
  let m := put_word (put_word (h_mem s) (x.1 + 4) (x.2 - nu)) (b + 4) nu in
  heap (l1 ++ (x.1, x.2 - nu) :: l2) ((b, nu) :: live) (HS m (h_brk s) p.1 gs) /\ kept live (h_mem s) m.
Proof.
  intros Hlt E b m. destruct x_inside as ((? & ? & ?) & Hb & Sx).
  destruct (chain_split l1 x l2 E) as (C1 & Cx & _ & C2 & B1 & A1 & S1 & S2 & X1).
  assert (Hin : forall z, z ∈ l1 \/ z ∈ l2 -> z ∈ L) by (rewrite E; set_solver).
  assert (Hd : forall y, y ∈ live -> inside s y /\ disj x y) by (intros y Hy; split; [apply (hp_live _ _ _ I y Hy)|by apply (hp_apart _ _ _ I)]).
  assert (Hk : kept live (h_mem s) m).
  { intros y a Hy Ha. destruct (Hd y Hy) as [(? & ? & ?) D]. unfold disj in D. unfold m, b. rewrite !put_ne by lia. done. }
  destruct (hp_bounds _ _ _ I) as (? & ? & ?).
  split; [|done]. split; cbn [h_mem h_brk h_freep].
  - destruct (hp_head _ _ _ I) as [fl Efl]. rewrite E in Efl. destruct l1 as [|z l1]; cbn in *; injection Efl as -> _; [done|by eexists].
  - apply chain_app. cbn [nexta chain fst snd]. unfold m, b. split_and!.
    + revert C1. apply nodes_ext. intros z Hz. destruct (B1 z Hz) as [? _]. rewrite !put_ne by lia. done.
    + by rewrite !put_ne by lia.
    + by rewrite put_ne, put_eq by lia.
    + revert C2. apply nodes_ext. intros z Hz. destruct (A1 z Hz) as [? ?]. rewrite !put_ne by lia. done.
  - apply StronglySorted_app. split_and!; [|done|].
    + intros z w Hz [->|Hw]%elem_of_cons; [exact (B1 z Hz)|auto].
    + apply StronglySorted_cons. split; [|done]. apply Forall_forall. intros z Hz. destruct (A1 z Hz). unfold sep. cbn. lia.
  - intros z [Hz|[->|Hz]%elem_of_cons]%elem_of_app; [apply (hp_free _ _ _ I); auto| |apply (hp_free _ _ _ I); auto].
    right. unfold inside. cbn. lia.
  - destruct (hp_freep _ _ _ I) as (f & Hf & _). rewrite E in Hp. apply elem_of_app in Hp as [Hp'|[->|Hp']%elem_of_cons].
    + exists p. split; [set_solver|done].
    + eexists. split; [apply elem_of_app; right; left|done].
    + exists p. split; [set_solver|done].
  - intros y [->|Hy]%elem_of_cons; [unfold inside, b, m; cbn; rewrite put_eq; lia|].
    destruct (hp_live _ _ _ I y Hy) as [Hyi Hys]. split; [done|]. destruct Hyi as (? & ? & ?). rewrite (Hk y) by (done || lia). done.
  - intros z y Hz Hy. apply elem_of_cons in Hy as [->|Hy].
    + unfold disj, b. cbn. apply elem_of_app in Hz as [Hz|[->|Hz]%elem_of_cons]; [destruct (B1 z Hz)|cbn|destruct (A1 z Hz)]; lia.
    + apply elem_of_app in Hz as [Hz|[->|Hz]%elem_of_cons]; [apply (hp_apart _ _ _ I); auto| |apply (hp_apart _ _ _ I); auto].
      destruct (Hd y Hy) as [_ D]. unfold disj in *. cbn. lia.
  - apply StronglySorted_cons. split; [|apply (hp_pair _ _ _ I)]. apply Forall_forall. intros y Hy.
    destruct (Hd y Hy) as [_ D]. unfold disj, b in *. cbn. lia.
  - pose proof (hp_tile _ _ _ I) as Ht. rewrite E in Ht. rewrite !total_app, !total_cons in *. cbn. lia.
  - done.
Qed.

Lemma take_run fuel : exists r s', malloc_loop nu p.1 x.1 (S fuel) s = Ok r s' /\ allocated nu live s r s'.
Proof.
  destruct x_inside as ((? & ? & ?) & Hb & Sx). destruct (hp_bounds _ _ _ I) as (? & ? & ?).
  cbn [malloc_loop]. rewrite size_small by lia. rewrite (bind_Ok _ _ _ _ _ (load_run _ _)), Sx, (proj2 (Z.leb_le _ _) Hfit).
  destruct (x.2 =? nu) eqn:Eq.
  - destruct (before_block L live s x p I Hx Hb Hp Hpx) as (l1 & l2 & E).
    destruct (take_exact l1 l2 (h_grants s) ltac:(lia) E) as [I' K'].
    erewrite bind_Ok; [|by rewrite (bind_Ok _ _ _ _ _ (load_run _ _)), (bind_Ok _ _ _ _ _ (store_run _ _ _))].
    rewrite (bind_Ok (set_freep _) _ _ _ _ eq_refl). eexists _, _. split; [done|].
    rewrite plus_small by (unfold KERNBASE in *; lia). exists x.1, (l1 ++ p :: l2). split; [lia|].
    replace (x.1, nu) with x by (destruct x; cbn in *; f_equal; lia). done.
  - pose proof Hx as (l1 & l2 & E)%list_elem_of_split.
    destruct (take_split l1 l2 (h_grants s) ltac:(lia) E) as [I' K'].
    assert (Eu : u32 (x.2 - nu) = x.2 - nu) by (apply u32_small; unfold KERNBASE in *; lia). rewrite Eu.
    rewrite plus_small by (unfold KERNBASE in *; lia). rewrite (size_small (x.1 + _)) by lia.
    erewrite bind_Ok; [|by rewrite (bind_Ok _ _ _ _ _ (store_run _ _ _)), (bind_Ok _ _ _ _ _ (store_run _ _ _))].
    rewrite (bind_Ok (set_freep _) _ _ _ _ eq_refl). eexists _, _. split; [done|].
    rewrite plus_small by (unfold KERNBASE in *; lia). eexists _, _. split; [reflexivity|]. done.
Qed.
End Take.

(** ** The search *)

Section Search.
Context (L live : list blk) (s : hstate) (I : heap L live s) (nu : Z) (Hnu : 1 <= nu).

Lemma size_of x : x ∈ L -> h_mem s (x.1 + 4) = x.2 /\ 0 <= x.1 <= KERNBASE.
Proof.
  intros Hx. destruct (hp_bounds _ _ _ I) as (? & ? & ?). pose proof (heap_low _ _ _ I). split.
  - pose proof (hp_chain _ _ _ I) as C. apply list_elem_of_split in Hx as (l1 & l2 & ->). by apply chain_app in C as [_ (_ & C & _)].
  - destruct (hp_free _ _ _ I x Hx) as [->|(? & ? & ?)]; cbn; lia.
Qed.

(** Along the ring from the block behind [p] to the block at [freep]: a block is large enough,
    or none is and more memory is asked for. *)
Lemma search fuel f z : h_freep s = f.1 -> f ∈ L -> forall qs p,
  chain (h_mem s) (qs ++ [f]) z -> (forall y, y ∈ qs -> y ∈ L /\ y.1 <> f.1) ->
  p ∈ L -> h_mem s p.1 = nexta (qs ++ [f]) z ->
  (exists r s', malloc_loop nu p.1 (nexta (qs ++ [f]) z) (length qs + S fuel) s = Ok r s' /\ allocated nu live s r s') \/
  ((forall y, y ∈ qs ++ [f] -> y.2 < nu) /\
   malloc_loop nu p.1 (nexta (qs ++ [f]) z) (length qs + S fuel) s =
   (let! p := morecore nu fuel in
    if p =? 0 then ret 0 else let! next := load (ptr p) in malloc_loop nu p next fuel) s).
Proof.
  intros Hf HfL. induction qs as [|x qs IH]; intros p C Hin Hp Hpx; cbn [app nexta length Nat.add] in *.
  - destruct (decide (nu <= f.2)) as [Hfit|Hsm]; [left; by apply (take_run L live s I nu Hnu f p)|right].
    split; [intros y ->%list_elem_of_singleton; lia|].
    destruct (size_of f HfL) as [Sx Rx]. cbn [malloc_loop]. rewrite size_small by done.
    rewrite (bind_Ok _ _ _ _ _ (load_run _ _)), Sx, (proj2 (Z.leb_gt _ _)) by lia.
    by rewrite (bind_Ok (gets _) _ _ _ _ eq_refl), Hf, Z.eqb_refl.
  - destruct (Hin x) as [HxL Hxf]; [by left|].
    destruct (decide (nu <= x.2)) as [Hfit|Hsm]; [left; by apply (take_run L live s I nu Hnu x p)|].
    cbn [chain] in C. destruct C as (Cx & _ & C). destruct (size_of x HxL) as [Sx Rx].
    assert (En : malloc_loop nu p.1 x.1 (S (length qs + S fuel)) s = malloc_loop nu x.1 (nexta (qs ++ [f]) z) (length qs + S fuel) s).
    { cbn [malloc_loop]. rewrite size_small by done.
      rewrite (bind_Ok _ _ _ _ _ (load_run _ _)), Sx, (proj2 (Z.leb_gt _ _)) by lia.
      rewrite (bind_Ok (gets _) _ _ _ _ eq_refl), Hf, (proj2 (Z.eqb_neq _ _) Hxf), (bind_Ok _ _ _ _ _ (load_run _ _)).
      unfold ptr. by rewrite Cx. }
    rewrite En. destruct (IH x C) as [Hl|[Hs Hr]]; [intros y Hy; apply Hin; by right|done|done|by left|right].
    split; [|done]. intros y [->|Hy]%elem_of_cons; [lia|auto].
Qed.

(** The same around the whole ring. *)
Lemma search_ring fuel f : h_freep s = f.1 -> f ∈ L ->
  let start := malloc_loop nu f.1 (h_mem s f.1) (length L + fuel) s in
  (exists r s', start = Ok r s' /\ allocated nu live s r s') \/
  ((forall y, y ∈ L -> y.2 < nu) /\
   start = (let! p := morecore nu fuel in
    if p =? 0 then ret 0 else let! next := load (ptr p) in malloc_loop nu p next fuel) s).
Proof.
  intros Hf HfL. cbv zeta. destruct (ring_of _ _ _ f I HfL) as (rs & C & Hel & Hlen & Hnf & Hnr). rewrite <- Hlen, length_app.
  assert (Hnf' : h_mem s f.1 = nexta (rs ++ [f]) (nexta (rs ++ [f]) 0)) by (rewrite Hnf at 1; by destruct rs).
  cbn [length]. rewrite Nat.add_1_r, Nat.add_succ_l, <- Nat.add_succ_r, Hnf'.
  destruct (search fuel f _ Hf HfL rs f C) as [Hl|[Hs Hr]]; [|done|done|by left|right].
  - intros y Hy. split; [apply Hel; set_solver|]. intros Ey.
    by assert (y = f) as -> by (apply (sorted_unique L); [apply (hp_sorted _ _ _ I)|apply Hel; set_solver|done|done]).
  - split; [|done]. intros y Hy. apply Hs, Hel. done.
Qed.
End Search.

(** [malloc]: a block that was free, or new memory, or no memory left. *)
Definition units (nbytes : Z) : Z := (nbytes + 7) / 8 + 1.

Lemma malloc_spec L live s nbytes fuel :
  heap L live s -> 0 <= nbytes < 2 ^ 31 - 16 -> (2 * length L + 1 <= fuel)%nat ->
  (exists r s', malloc base nbytes fuel s = Ok r s' /\ allocated (units nbytes) live s r s') \/
  (malloc base nbytes fuel s = Ok 0 (HS (h_mem s) (h_brk s) (h_freep s) (tail (h_grants s))) /\
   (forall y, y ∈ L -> y.2 < units nbytes) /\
   (hd false (h_grants s) = false \/ KERNBASE <= h_brk s + 8 * grow (units nbytes))).
Proof.
  intros I Hn Hf. destruct (hp_freep _ _ _ I) as (f & HfL & Hfp). destruct (hp_bounds _ _ _ I) as (? & ? & ?).
  assert (Hnu : 1 <= units nbytes /\ 8 * units nbytes < 2 ^ 31).
  { unfold units. pose proof (Z.div_pos (nbytes + 7) 8). pose proof (Z.mul_div_le (nbytes + 7) 8). lia. }
  assert (Hfb : f.1 <> 0). { destruct (hp_free _ _ _ I f HfL) as [->|(? & ? & ?)]; cbn; lia. }
  assert (E0 : malloc base nbytes fuel s = malloc_loop (units nbytes) f.1 (h_mem s f.1) fuel s).
  { unfold malloc. replace (nbytes + 8 - 1) with (nbytes + 7) by lia. rewrite (u32_small (nbytes + 7)) by lia. fold (units nbytes).
    rewrite u32_small by lia. rewrite (bind_Ok (gets _) _ _ _ _ eq_refl), Hfp, (proj2 (Z.eqb_neq _ _) Hfb).
    by rewrite (bind_Ok (ret _) _ _ _ _ eq_refl), (bind_Ok _ _ _ _ _ (load_run _ _)). }
  rewrite E0. replace fuel with (length L + (fuel - length L))%nat by lia. set (k := (fuel - length L)%nat).
  destruct (search_ring L live s I (units nbytes) ltac:(lia) k f Hfp HfL) as [Hl|[Hs ->]]; [by left|].
  destruct (morecore_spec L live s (units nbytes) k I ltac:(lia) ltac:(lia) ltac:(lia)) as [[E Hno]|(L' & s' & E & I' & K' & _ & (x & Hx & Hxn) & Hl')].
  - right. rewrite (bind_Ok _ _ _ _ _ E). done.
  - left. rewrite (bind_Ok _ _ _ _ _ E). destruct (hp_freep _ _ _ I') as (f' & HfL' & Hfp'). rewrite Hfp'.
    assert (Hfb' : f'.1 <> 0). { destruct (hp_free _ _ _ I' f' HfL') as [->|(? & ? & ?)]; cbn; lia. }
    rewrite (proj2 (Z.eqb_neq _ _) Hfb'), (bind_Ok _ _ _ _ _ (load_run _ _)). unfold ptr.
    replace k with (length L' + (k - length L'))%nat by lia.
    destruct (search_ring L' live s' I' (units nbytes) ltac:(lia) (k - length L') f' Hfp' HfL') as [(r & s'' & Er & b & L'' & ? & I'' & K'')|[Hs' _]].
    + exists r, s''. split; [done|]. exists b, L''. split_and!; [done|done|]. intros y a Hy Ha. rewrite (K'' y a Hy Ha). by apply (K' y).
    + specialize (Hs' x Hx). lia.
Qed.

(** ** Programs that use the allocator *)

Definition addresses (s : hstate) : Prop := 0 < base /\ base + 8 <= lo /\ lo <= h_brk s <= KERNBASE.

(** Before the first call. *)
Definition fresh (s : hstate) : Prop := h_freep s = 0 /\ h_brk s = lo /\ addresses s.

Definition initialised (s : hstate) : hstate :=
  HS (put_word (put_word (h_mem s) base base) (base + 4) 0) (h_brk s) base (h_grants s).

Lemma fresh_heap s : fresh s -> heap [(base, 0)] [] (initialised s) /\
  forall nbytes fuel, malloc base nbytes fuel s = malloc base nbytes fuel (initialised s).
Proof.
  intros (Hf & Hb & H1 & H2 & H3). split.
  - split; cbn [h_mem h_brk h_freep initialised].
    + by exists [].
    + cbn. rewrite put_ne, !put_eq by lia. done.
    + apply StronglySorted_cons. split; [by apply Forall_nil|constructor].
    + intros x ->%list_elem_of_singleton. by left.
    + exists (base, 0). split; [by left|done].
    + intros y Hy. by apply elem_of_nil in Hy.
    + intros x y _ Hy. by apply elem_of_nil in Hy.
    + constructor.
    + cbn. lia.
    + lia.
  - intros nbytes fuel. unfold malloc. rewrite !(bind_Ok (gets _) _ _ _ _ eq_refl). cbn [h_freep initialised]. rewrite Hf.
    cbn [Z.eqb]. rewrite (proj2 (Z.eqb_neq base 0)) by lia. rewrite size_small by (unfold KERNBASE in *; lia). done.
Qed.

(** One call, or a store into a block the program owns. *)
Inductive client_step : hstate * list blk -> hstate * list blk -> Prop :=
  | step_malloc s live n fuel r s' :
      0 <= n < 2 ^ 31 - 16 -> malloc base n fuel s = Ok r s' -> r <> 0 -> client_step (s, live) (s', (r - 8, units n) :: live)
  | step_none s live n fuel s' :
      0 <= n < 2 ^ 31 - 16 -> malloc base n fuel s = Ok 0 s' -> client_step (s, live) (s', live)
  | step_free s v1 b n v2 fuel s' :
      free (b + 8) fuel s = Ok tt s' -> client_step (s, v1 ++ (b, n) :: v2) (s', v1 ++ v2)
  | step_store s live y a v :
      y ∈ live -> y.1 + 8 <= a < y.1 + 8 * y.2 ->
      client_step (s, live) (HS (put_word (h_mem s) a v) (h_brk s) (h_freep s) (h_grants s), live).

Inductive client_reach (s0 : hstate) : hstate * list blk -> Prop :=
  | reach_start : client_reach s0 (s0, [])
  | reach_next c c' : client_reach s0 c -> client_step c c' -> client_reach s0 c'.

Definition sound (c : hstate * list blk) : Prop := (fresh c.1 /\ c.2 = []) \/ exists L, heap L c.2 c.1.

(** More fuel does not change a result. *)
Definition below {A} (m m' : H A) : Prop := forall s r s', m s = Ok r s' -> m' s = Ok r s'.

Lemma below_refl {A} (m : H A) : below m m.
Proof. by intros s r s'. Qed.

Lemma below_bind {A B} (m m' : H A) (k k' : A -> H B) : below m m' -> (forall a, below (k a) (k' a)) -> below (bind m k) (bind m' k').
Proof.
  intros Hm Hk s r s' E. unfold bind in *. destruct (m s) as [a s1|msg s1| |] eqn:Em; cbn in E; try done.
  rewrite (Hm _ _ _ Em). cbn. by apply Hk.
Qed.

Lemma below_free_loop bp fuel : forall p fuel', (fuel <= fuel')%nat -> below (free_loop bp p fuel) (free_loop bp p fuel').
Proof.
  induction fuel as [|fuel IH]; intros p fuel' Hf; [by intros s r s'|]. destruct fuel' as [|fuel']; [lia|]. cbn [free_loop].
  apply below_bind; [apply below_refl|]. intros q. destruct (_ && _); [apply below_refl|]. destruct (_ && _); [apply below_refl|].
  apply IH. lia.
Qed.

Lemma below_free ap fuel fuel' : (fuel <= fuel')%nat -> below (free ap fuel) (free ap fuel').
Proof.
  intros Hf. apply below_bind; [apply below_refl|]. intros f. apply below_bind; [by apply below_free_loop|]. intros p. apply below_refl.
Qed.

Lemma below_malloc_loop nu fuel : forall prevp p fuel', (fuel <= fuel')%nat ->
  below (malloc_loop nu prevp p fuel) (malloc_loop nu prevp p fuel').
Proof.
  induction fuel as [|fuel IH]; intros prevp p fuel' Hf; [by intros s r s'|]. destruct fuel' as [|fuel']; [lia|]. cbn [malloc_loop].
  assert (IH' : forall q, below (let! next := load (ptr q) in malloc_loop nu q next fuel) (let! next := load (ptr q) in malloc_loop nu q next fuel')).
  { intros q. apply below_bind; [apply below_refl|]. intros next. apply IH. lia. }
  apply below_bind; [apply below_refl|]. intros psize. destruct (nu <=? psize); [apply below_refl|].
  apply below_bind; [apply below_refl|]. intros f. destruct (p =? f); [|apply IH'].
  apply below_bind; [|intros q; destruct (q =? 0); [apply below_refl|apply IH']].
  apply below_bind; [apply below_refl|]. intros q. destruct (q =? _); [apply below_refl|].
  apply below_bind; [apply below_refl|]. intros []. apply below_bind; [apply below_free; lia|]. intros []. apply below_refl.
Qed.

Lemma below_malloc nbytes fuel fuel' : (fuel <= fuel')%nat -> below (malloc base nbytes fuel) (malloc base nbytes fuel').
Proof.
  intros Hf. do 3 (apply below_bind; [apply below_refl|]; intros ?). by apply below_malloc_loop.
Qed.

(** Every call returns, and what it does to the blocks in use. *)
Lemma sound_malloc c n : sound c -> 0 <= n < 2 ^ 31 - 16 -> exists fuel0, forall fuel, (fuel0 <= fuel)%nat ->
  (exists r s', malloc base n fuel c.1 = Ok r s' /\ allocated (units n) c.2 c.1 r s') \/
  (exists s', malloc base n fuel c.1 = Ok 0 s' /\ (exists L, heap L c.2 s') /\ kept c.2 (h_mem c.1) (h_mem s')).
Proof.
  intros [[Hf Hl]|[L I]] Hn.
  - destruct (fresh_heap _ Hf) as [I Em]. rewrite Hl. exists 3%nat. intros fuel Hfu. rewrite Em.
    destruct (malloc_spec _ _ _ n fuel I Hn) as [(r & s' & E & b & L' & Er & I' & _)|[E _]]; [cbn; lia| |].
    + left. exists r, s'. split; [done|]. exists b, L'. split_and!; [done|done|]. intros y a Hy. by apply elem_of_nil in Hy.
    + right. eexists. split; [done|]. split; [exists [(base, 0)]; by apply heap_grants|]. intros y a Hy. by apply elem_of_nil in Hy.
  - exists (2 * length L + 1)%nat. intros fuel Hfu. destruct (malloc_spec _ _ _ n fuel I Hn Hfu) as [H'|[E _]]; [by left|right].
    eexists. split; [done|]. split; [exists L; by apply heap_grants|done].
Qed.

Lemma sound_free c v1 b n v2 : sound c -> c.2 = v1 ++ (b, n) :: v2 -> exists fuel0, forall fuel, (fuel0 <= fuel)%nat ->
  exists s', free (b + 8) fuel c.1 = Ok tt s' /\ (exists L, heap L (v1 ++ v2) s') /\ kept (v1 ++ v2) (h_mem c.1) (h_mem s').
Proof.
  intros [[_ Hl]|[L I]] Ev; [rewrite Hl in Ev; by destruct v1|]. exists (length L). intros fuel Hf.
  destruct (free_spec _ _ _ I b n v1 v2 Ev fuel Hf) as (L' & s' & E & I' & K & _). exists s'. split_and!; [done|by exists L'|done].
Qed.

Lemma heap_store L live s y a v : heap L live s -> y ∈ live -> y.1 + 8 <= a < y.1 + 8 * y.2 ->
  heap L live (HS (put_word (h_mem s) a v) (h_brk s) (h_freep s) (h_grants s)).
Proof.
  intros I Hy Ha. assert (Hh : forall z, z ∈ L -> a <> z.1 /\ a <> z.1 + 4).
  { intros z Hz. apply (header_kept L live s I y); [done|done|lia]. }
  destruct I as [I1 I2 I3 I4 I5 I6 I7 I8 I9 I10]. split; cbn [h_mem h_brk h_freep]; try done.
  - revert I2. apply nodes_ext. intros z Hz. destruct (Hh z Hz). rewrite !put_ne by congruence. done.
  - intros z Hz. destruct (I6 z Hz) as [Hzi Hzs]. split; [done|]. rewrite put_ne; [done|].
    destruct (decide (z = y)) as [->|Hne]; [lia|].
    assert (D : disj z y \/ disj y z).
    { apply list_elem_of_split in Hz as (k1 & k2 & ->). apply StronglySorted_app in I8 as (D1 & _ & D2).
      apply StronglySorted_cons in D2 as [D2 _]. rewrite Forall_forall in D2.
      apply elem_of_app in Hy as [Hy|[->|Hy]%elem_of_cons]; [right; apply D1; [done|by left]|done|left; by apply D2]. }
    destruct Hzi as (? & ? & ?). unfold disj in D. lia.
Qed.

Lemma step_sound c c' : sound c -> client_step c c' -> sound c'.
Proof.
  intros Hs Hst. destruct Hst as [s live n fuel r s' Hn E Hr|s live n fuel s' Hn E|s v1 b n v2 fuel s' E|s live y a v Hy Ha].
  - destruct (sound_malloc _ n Hs Hn) as [f0 Hf]. destruct (Hf (fuel + f0)%nat ltac:(lia)) as [(r' & s2 & E2 & b & L & Er & I & _)|(s2 & E2 & _)];
      cbn [fst snd] in *; rewrite (below_malloc n fuel (fuel + f0) ltac:(lia) _ _ _ E) in E2; injection E2 as E2r <-; [|done].
    right. exists L. cbn [fst snd]. by replace (r - 8) with b by lia.
  - destruct (sound_malloc _ n Hs Hn) as [f0 Hf]. destruct (Hf (fuel + f0)%nat ltac:(lia)) as [(r' & s2 & E2 & b & L & Er & I & _)|(s2 & E2 & HI & _)];
      cbn [fst snd] in *; rewrite (below_malloc n fuel (fuel + f0) ltac:(lia) _ _ _ E) in E2; [injection E2 as E2r <-|injection E2 as <-; by right].
    exfalso. destruct (hp_bounds _ _ _ I) as (? & ? & ?). destruct (hp_live _ _ _ I (b, units n)) as [(? & ? & ?) _]; [by left|]. cbn in *. lia.
  - destruct (sound_free _ v1 b n v2 Hs eq_refl) as [f0 Hf]. destruct (Hf (fuel + f0)%nat ltac:(lia)) as (s2 & E2 & HI & _).
    cbn [fst snd] in *. rewrite (below_free _ fuel (fuel + f0) ltac:(lia) _ _ _ E) in E2. injection E2 as <-. by right.
  - destruct Hs as [[_ Hl]|[L I]]; cbn [fst snd] in *; [rewrite Hl in Hy; by apply elem_of_nil in Hy|]. right. exists L. by apply (heap_store _ _ _ y).
Qed.

Lemma reach_sound s0 c : fresh s0 -> client_reach s0 c -> sound c.
Proof. intros Hf. induction 1 as [|c c' _ IH Hs]; [left; by split|by eapply step_sound]. Qed.

(** C26. However a program calls [malloc] and [free] and writes into its blocks, the blocks it
    owns never overlap, lie in its memory, and every call returns: [malloc] with null or with
    a block of at least the bytes asked for that is disjoint from the others, [free] on any
    block in use.  Neither changes a byte of another block, and the blocks in use and the
    free ones, never two of them adjacent, fill the memory obtained from the kernel. *)
Theorem malloc_safe s0 s live :
  fresh s0 -> client_reach s0 (s, live) ->
  (forall y, y ∈ live -> inside s y) /\ StronglySorted disj live /\
  (live <> [] -> exists fl, StronglySorted sep fl /\ lo + 8 * (total fl + total live) = h_brk s /\
     forall x y, x ∈ fl -> y ∈ live -> disj x y) /\
  (forall n, 0 <= n < 2 ^ 31 - 16 -> exists fuel0, forall fuel, (fuel0 <= fuel)%nat -> exists r s',
     malloc base n fuel s = Ok r s' /\ kept live (h_mem s) (h_mem s') /\
     (r <> 0 -> n <= 8 * units n - 8 /\ inside s' (r - 8, units n) /\ forall y, y ∈ live -> disj (r - 8, units n) y)) /\
  (forall v1 b n v2, live = v1 ++ (b, n) :: v2 -> exists fuel0, forall fuel, (fuel0 <= fuel)%nat -> exists s',
     free (b + 8) fuel s = Ok tt s' /\ kept (v1 ++ v2) (h_mem s) (h_mem s')).
Proof.
  intros Hf Hr. pose proof (reach_sound _ _ Hf Hr) as Hs. split_and!.
  - destruct Hs as [[_ Hl]|[L I]]; cbn [fst snd] in *; [intros y Hy; rewrite Hl in Hy; by apply elem_of_nil in Hy|].
    intros y Hy. apply (hp_live _ _ _ I y Hy).
  - destruct Hs as [[_ Hl]|[L I]]; cbn [fst snd] in *; [rewrite Hl; constructor|apply (hp_pair _ _ _ I)].
  - intros Hne. destruct Hs as [[_ Hl]|[L I]]; cbn [fst snd] in *; [done|]. exists L.
    split_and!; [apply (hp_sorted _ _ _ I)|apply (hp_tile _ _ _ I)|apply (hp_apart _ _ _ I)].
  - intros n Hn. destruct (sound_malloc _ n Hs Hn) as [f0 H0]. exists f0. intros fuel Hfu. cbn [fst snd] in *.
    destruct (H0 fuel Hfu) as [(r & s' & E & b & L & -> & I & K)|(s' & E & _ & K)]; [|by exists 0, s'].
    exists (b + 8), s'. split_and!; [done|done|]. intros _. replace (b + 8 - 8) with b by lia. split_and!.
    + unfold units. pose proof (Z.div_mod (n + 7) 8 ltac:(lia)). pose proof (Z.mod_pos_bound (n + 7) 8 ltac:(lia)). lia.
    + apply (hp_live _ _ _ I). by left.
    + pose proof (hp_pair _ _ _ I) as Hp. apply StronglySorted_cons in Hp as [Hp _]. by rewrite Forall_forall in Hp.
  - intros v1 b n v2 Ev. destruct (sound_free _ v1 b n v2 Hs Ev) as [f0 H0]. exists f0. intros fuel Hfu.
    destruct (H0 fuel Hfu) as (s' & E & _ & K). by exists s'.
Qed.

(** A request within seven bytes of the largest [uint] wraps around: when the call
    succeeds the block it returns is a header without any memory behind it. *)
Theorem malloc_wraps s0 s live nbytes :
  fresh s0 -> client_reach s0 (s, live) -> 2 ^ 32 - 7 <= nbytes < 2 ^ 32 ->
  exists fuel0, forall fuel, (fuel0 <= fuel)%nat -> exists r s',
    malloc base nbytes fuel s = Ok r s' /\ (r <> 0 -> exists L, heap L ((r - 8, 1) :: live) s').
Proof.
  intros Hf Hr Hn. pose proof (reach_sound _ _ Hf Hr) as Hs. destruct (sound_malloc _ 0 Hs ltac:(lia)) as [f0 H0].
  exists f0. intros fuel Hfu. cbn [fst snd] in *.
  assert (E0 : malloc base nbytes fuel s = malloc base 0 fuel s).
  { unfold malloc. replace (u32 (nbytes + 8 - 1)) with (nbytes + 7 - 2 ^ 32); [|unfold u32; rewrite <- (Z.mod_add _ (-1)), Z.mod_small by lia; lia].
    rewrite (Z.div_small (nbytes + 7 - 2 ^ 32)) by lia. done. }
  rewrite E0. destruct (H0 fuel Hfu) as [(r & s' & E & b & L & -> & I & _)|(s' & E & _ & _)]; [|by exists 0, s'].
  exists (b + 8), s'. split; [done|]. intros _. exists L. by replace (b + 8 - 8) with b by lia.
Qed.

End Heap.

(** ** Examples *)

(** A program whose static header is at 0x1000, with its heap from 0x4000. *)
Definition ex_heap : hstate := HS (fun _ => 0) 0x4000 0 [true].

Lemma ex_fresh : fresh 0x1000 0x4000 ex_heap.
Proof. repeat split; cbn; unfold KERNBASE; lia. Qed.

Definition ex_run : hstate := match malloc 0x1000 100 9 ex_heap with Ok _ s => s | _ => ex_heap end.

Lemma ex_malloc : malloc 0x1000 100 9 ex_heap = Ok 49048 ex_run.
Proof. reflexivity. Qed.

Lemma ex_reach : client_reach 0x1000 ex_heap (ex_run, [(49040, 14)]).
Proof. eapply reach_next; [apply reach_start|]. by apply (step_malloc 0x1000 ex_heap [] 100 9 49048); [lia|apply ex_malloc|]. Qed.

Lemma malloc_safe_witness :
  inside 0x4000 ex_run (49040, 14) /\
  exists fuel r s', malloc 0x1000 40 fuel ex_run = Ok r s' /\ kept [(49040, 14)] (h_mem ex_run) (h_mem s') /\
    (r <> 0 -> disj (r - 8, 6) (49040, 14)).
Proof.
  destruct (malloc_safe 0x1000 0x4000 ex_heap ex_run [(49040, 14)] ex_fresh ex_reach) as (Hin & _ & _ & Hm & _).
  split; [apply Hin; by left|]. destruct (Hm 40 ltac:(lia)) as [f0 Hf]. destruct (Hf f0 (le_n f0)) as (r & s' & E & K & Hr).
  exists f0, r, s'. split; [exact E|]. split; [exact K|]. intros Hne. destruct (Hr Hne) as (_ & _ & Hd). apply Hd. by left.
Defined.

